(* ===== verification/_CoqProject ===== *)
-Q . S2P
Prelude.v
GoStd.v
External.v
Adapter.v
RuleItem.v
RuleAbstract.v
RuleTree.v
RuleMatch.v
RuleAction.v
RuleBuild.v
RuleConfig.v
RuleSet.v
DnsMsg.v
DnsClient.v
DnsRouter.v
Lifecycle.v
Managers.v
Sniff.v
Route.v
HealthCheck.v
Groups.v
FakeIP.v
FakeIPRoute.v
ByteReader.v
Srs.v
RouterStart.v
ProcessSearch.v
TlsFragment.v
DnsWire.v
DnsUdp.v
DnsStream.v
StringFacts.v
AdGuard.v
AdGuardWrite.v
ParallelDial.v
SlowOpen.v
Dialer.v
DialerChain.v
Direct.v
ConnManager.v
Network.v
DnsHijack.v
Sip003.v
Version.v
Geosite.v
HostsFile.v
DnsLocal.v
DnsDhcp.v
Trojan.v
Framing.v
Ja3.v
QuicSniff.v
Counters.v
SsmApi.v
V2RayStats.v
ClashApi.v
WebSocket.v
Resolved.v
Naive.v
CacheFile.v
UrlParse.v
DnsOptions.v
OptionJson.v
