(* ===== verification/Prelude.v ===== *)
(** * radio-box: a verification library (root file)

    radio-box is a universal proxy: inbounds accept connections and DNS
    queries, a router matches each against a list of rules, and the action of
    the rule that matches decides what happens to it.  This library models the
    deciding parts, in Rocq functions that follow the Go code under src/ branch
    by branch, and proves what makes them correct.

    ** The parts and how they interact

    A request is an [InboundContext] (adapter/inbound.go).  A rule is a tree of
    default rules, lists of items, and logical rules, and/or over rules; it is
    built from its options, matched against the context and carries an action.
    Rules refer to rule-sets, lists of headless rules loaded from a file or
    fetched over HTTP, which the router owns and counts references to.  The DNS
    router walks DNS rules to choose servers for a query, races the servers
    through the DNS client, checks the addresses of answers against the rule
    that chose the server, and tries the next rule when they are rejected.  The
    client has a cache, sets client subnets and rewrites times to live.
    Inbounds, outbounds, endpoints, services and DNS transports belong to
    managers, which start them in stages and by dependency.

    ** Files

    - Prelude.v (this file): the scope, errors and outcomes ([res]: a value, an
      error or a panic), stateful folds, tactics, the hint database [box].
    - GoStd.v: the part of Go's standard library the code uses: strings,
      numbers, addresses and prefixes of net/netip.
    - External.v: third-party code as the class [External], its documented laws
      [ExternalLaws], and an executable instance.
    - Adapter.v: adapter/inbound.go and the host the rules look at.
    - RuleItem.v: route/rule/rule_item_*.go, one record with constructor,
      [Match] and [String] per item.
    - RuleAbstract.v: route/rule/rule_abstract.go, the matching of default and
      logical rules, for any item type behind the interface [ItemOps]; the
      specification of a match for the items that keep the promise [PureItem].
    - RuleTree.v: headless, route and DNS rules as trees, rule-set items, the
      two phases of DNS matching (rule_default.go, rule_dns.go,
      rule_headless.go, rule_item_rule_set.go).
    - RuleMatch.v: what matching means: on a fresh cache a rule matches exactly
      when its conditions hold; no match changes the request; the two phases
      of DNS matching agree.
    - RuleAction.v: option/rule_action.go and route/rule/rule_action.go, the
      actions, the flood limit of reject, predefined answers.
    - RuleBuild.v: the constructors of rules from their options, with the
      validity checks of option/rule*.go.
    - RuleConfig.v: the meaning of options as lists of conditions, and the
      refinement theorems: the rule a constructor builds matches exactly when
      the options' conditions hold.
    - RuleSet.v: route/rule/rule_set*.go, loading, references, callbacks,
      fetching, the cache file.
    - DnsMsg.v: DNS messages as far as the repository reads and writes them,
      client subnets (dns/extension_edns0_subnet.go), fixed answers; miekg/dns
      is the class [DNSLib].
    - DnsClient.v: dns/client.go, [Exchange] and [Lookup] with cache, store of
      rejected answers and response checks.
    - DnsRouter.v: dns/router.go, [matchDNS], races, [Exchange], [Lookup] and
      the reverse mapping, over the interface [DNSRuleOps] with laws
      [DNSRuleLaws], which the rules of RuleTree.v satisfy.
    - Lifecycle.v: adapter/lifecycle*.go and the start by dependency of
      adapter/outbound/manager.go and dns/transport_manager.go.
    - Managers.v: the five managers.
    - Sniff.v: common/sniff byte by byte, with the loops over streams and
      packets; the QUIC sniffer is in QuicSniff.v.
    - Route.v: route/route.go, the walk over the route rules with sniffing,
      resolving and rewriting, the choice of the outbound and the pre-match,
      over the interfaces [RouteRuleOps] (which the rules of RuleTree.v
      satisfy) and [DNSRouterOps].
    - HealthCheck.v: the history of delays (common/urltest), interruptible
      connections (common/interrupt), the health checker of
      protocol/group/healthcheck.go: its check loop as steps of goroutines, and a
      check of all outbounds.
    - Groups.v: protocol/group, the selector, URL test, fallback and load
      balance groups.
    - FakeIP.v: dns/transport/fakeip, adapter/fakeip_metadata.go and
      experimental/cachefile/fakeip.go, the store of fake addresses over the
      memory store or the cache file, behind the interface [FakeIPStorage].
    - FakeIPRoute.v: the store under the router of Route.v.
    - ByteReader.v: reading and writing bytes with a value or an error, big
      endian numbers and the variable-length ones of encoding/binary.
    - Srs.v: common/srs, the binary format of rule-sets.
    - RouterStart.v: route/router.go, route/rule_conds.go, the start of both
      routers and its place in box.go, with the rule-sets TUN inbounds refer to
      (protocol/tun/inbound.go).
    - ProcessSearch.v: when the router needs to know the process of a
      connection.
    - TlsFragment.v: common/tlsfragment, the search for the server name in a
      ClientHello and the connection that splits its first packet.
    - DnsWire.v: dns/transport/tcp.go, DNS messages in frames; packing and
      buffers are the class [DNSWire].
    - DnsUdp.v: dns/transport/udp.go, many queries on one connection that one of
      them dials under the mutex of the transport.
    - DnsStream.v: dns/transport/tls.go, the pool of connections, quic/quic.go,
      https.go and quic/http3.go.
    - StringFacts.v: what Go's string functions give on strings put together
      from parts.
    - AdGuard.v, AdGuardWrite.v: common/convertor/adguard, filter lists as rules
      and back; sing's names and substrings are the class [AdGuardLib].
    - ParallelDial.v: common/dialer/default_parallel_*.go, the choice of
      interfaces and the races between addresses and interfaces.
    - SlowOpen.v: common/dialer/tfo.go, the connection that dials with its first
      write, and common/conntrack.
    - Dialer.v: common/dialer/default.go, the default dialer and listener.
    - DialerChain.v: common/dialer/{dialer,detour,resolve,router}.go, the dialers
      an outbound's options ask for.
    - Direct.v: protocol/direct.
    - ConnManager.v: route/conn.go, connections from the dial to the end of
      both copies.
    - Network.v: route/network.go, interfaces, monitors and power events.
    - DnsHijack.v: route/dns.go, protocol/dns and dns/client_truncate.go, queries
      that arrive as connections.
    - Sip003.v: transport/sip003, options of plugins.
    - Version.v: common/badversion.
    - Geosite.v: common/geosite, lists of domains in one file.
    - HostsFile.v, DnsLocal.v, DnsDhcp.v: dns/transport/{hosts,local,dhcp}, hosts
      files, the system's resolver, servers from DHCP.
    - Framing.v: transport/v2raygrpclite/conn.go and transport/simple-obfs, streams
      in frames behind the interface [FrameReader]; Naive.v: the padded streams
      of protocol/naive, a [FrameReader] too.
    - Trojan.v: transport/trojan.
    - WebSocket.v: transport/v2raywebsocket, over the interface [WsReader].
    - Ja3.v, QuicSniff.v: common/ja3 and common/sniff/quic.go with internal/qtls;
      ciphers are the class [QuicCrypto].
    - Counters.v: atomic counters in a heap and interleaved runs, over the
      interface [CounterLib]; its clients V2RayStats.v (experimental/v2rayapi) and
      SsmApi.v (service/ssmapi, over the interface [SSMServer]).
    - ClashApi.v: experimental/clashapi, tracked connections, modes,
      authentication, delay tests.
    - Resolved.v: service/resolved, links and the calls that resolve names; what
      the calls use of the program is the class [ResolveLib].
    - CacheFile.v: experimental/cachefile, over the database interface [Bolt].
    - UrlParse.v: [url.Parse]; DnsOptions.v: option/dns.go and the constructors of
      the DNS transports, over the class [DNSServerLib].
    - OptionJson.v: the option types with a JSON form of their own.

    ** How the code is modelled

    A definition has the name of the Go function where Rocq allows it, with its
    type in front for methods ([RuleSet_Match], [Router_Exchange]).  A mutable
    object is a record passed and returned; a shared one is an entry of a table
    under its tag or identity, so that every holder sees a change.  The context
    with its rule cache is threaded through matching in the order of the
    source.  Machine integers are [Z]; where a width matters the wrap is
    written out ([uint32] for times to live, [to_int32] for reference counts).
    Times are nanoseconds in [Z] and arguments of the definitions.  Logging is
    left out.

    Concurrency shows in two places.  A race of DNS servers is a schedule of
    events ([event] in DnsRouter.v): queries finish or fail in any order, or
    the context ends; each query of the client is one atomic step, at the
    moment it reports.  Managers and rule-sets do their work under a lock, so
    their operations are atomic steps.  A connection is the list of what its
    reads return ([stream_event], [packet_event]); what the router hands over is
    the stack of wrappers it put around it, read back by the laws [ConnLaws].  The
    check loop of a health checker is a list of goroutines and an event names
    the one that moves ([hc_step]); the tests of one check end in any order; and
    while a group dials an outbound, other goroutines change the shared history
    by an arbitrary function ([between]).  The goroutines that write fake
    addresses to the cache file are steps between the operations of the store,
    in any order ([activity]); the store itself takes no lock, and two calls of
    its [Create] step by step are [interleave].  The UDP and TLS transports are
    runs of steps ([udp_run], [tls_run]): an event names the goroutine that moves,
    a step ends where the code gives up a lock or waits, and an object that
    several goroutines share is an entry of a table.  The mutex of the UDP
    transport is held across a dial: it is a field that names the call that
    dials, and steps under it are there only while it is free.  Outbounds of a
    group are identities; what their [Network] and [Now] answer, and the shared
    history, are a [World] that changes between the steps.  The writes of rejected
    answers to the cache file wait in a list and are done at any later moment.
    The lock of the resolver service is a flag, since some of its calls return
    without releasing it.

    ** Recursion and fuel

    Almost all recursion is structural.  The loop over rules of
    [Router_Exchange] has one round per rule and one more ([router_exchange_returns]
    shows this is enough, because a round starts after the rule that
    ended the one before).  The passes of [start_items] are one per object and
    one more, and its search for a cycle one step per tag and two more
    ([start_succeeds_iff]).  A dial of load balance has one round per outbound
    and one more, because each failure excludes one ([load_balance_dial_returns]).
    The reader of binary rule-sets has one round per byte that is left, in every
    loop and for the nesting of rules, because each round takes a byte
    ([read_returns]).

    ** The theorems

    - Rules: a built rule means its options, as far as its constructor reads them
      (a headless rule ignores query_type) (RuleConfig.v), a match is a function of
      the request on a fresh cache and keeps the request (RuleMatch.v), the first
      phase of DNS matching selects what the second accepts, for rules that do not
      mix domains and addresses; actions do what they say.
    - Rule-sets: exact reference counts, metadata that agrees with the loaded
      rules, fetches that change everything or nothing, restarts from the cache
      file with the time of the last update in whole seconds; the binary format is
      read as it was written, and a compiled rule-set means what its source means
      and is written exactly when the version can express it.
    - DNS client: cached answers count down and expire, lookups are repeated
      from the cache under the key they were stored with, checks are obeyed on
      answers of the transport and rejections remembered, one time to live per
      answer, client subnets round trip.
    - DNS router: the first deciding rule wins with exactly the options before
      it, races are decided by a specification over the log of results, every
      query is answered, answers come from the server of the rule they are given
      under and pass its address limit, lookups avoid fake-IP servers, the reverse
      mapping.
    - Routing: sniffing keeps every byte and packet, the first final rule wins
      and options accumulate, a pre-match is final, outbounds support the
      network, fake addresses are translated back unless a rule or the inbound
      overrides the destination, sniffer verdicts are final.
    - Start: a started box has every rule-set its rules and TUN inbounds name,
      loaded and counted, and keeps the rules of no other; without a process
      searcher no rule depends on the process.
    - TLS fragments: the server name is found where it is, and the peer
      reassembles the packet from its pieces.
    - DNS transports: an answer belongs to its query, callbacks to queries that
      have not returned; what a query waits for, and that it returns when that
      comes; a pooled connection serves one query at a time, frames are read as
      they were written.  A hosts file answers what its lines say when it is read
      again; the settings of the system's resolver are bounded and its queries
      return; servers from DHCP are kept for an hour.
    - DNS servers: one written by its address is reached where it was.
    - Dialers: a race keeps one connection and closes the others, and returns;
      the network strategy of a dialer stays what was configured until a socket may
      not be bound; a dialer for a domain asks the resolver of its options.
    - Connections: the connection manager closes each connection once and
      forgets it; its Close leaves none.
    - Streams: frames, padding and WebSocket messages give back the bytes that
      were written; Trojan serves whom it knows and hands on the others.
    - QUIC: the stream of the hello is put together from its frames, which ends
      when no frame is empty, and only its part of the request changes.
    - Counters: traffic is counted once in any interleaving; users follow the
      requests, and a restart keeps both.
    - Clash interface: tracked connections are open or closed, the mode is one
      of the list, who is let in.  Resolver service: links and servers agree, a
      query comes back.  Cache file: what is stored is found.
    - Files and strings: plugin options, versions and geosite files are read as
      they were written; strategies, marks, codes and resolvers in JSON are read
      back, and the tags of a configuration are distinct.
    - Filter lists: the converted rule blocks what the list asks for, and a
      written list is converted to the rule it was written from, when its lines
      can be written.
    - Managers: starts in dependency order, success exactly when an order
      exists, list and table in agreement, the calls each operation makes, a
      listed default.
    - Fake-IP: an address stands for its domain until the range is used up,
      whatever the storage does by itself, across restarts, and as the
      destination of the routed connection.
    - Groups: dials return and try what they should, the tolerance of the URL
      test, selections that supported their network when they were made and
      survive a restart, fair and stable balancing, one check loop that runs while
      the group is used.

    The manifest of properties lists the ones that matter most; the others stand
    beside them in the same files, with their witnesses.

    Examples under "Behaviours worth knowing" evaluate places where the code
    does something its comments, names or errors do not suggest.

    ** Not modelled

    The adapters of protocols and transports that third-party libraries
    implement (VMess, VLESS, Shadowsocks, TUIC, WireGuard, HTTP/2 and QUIC streams
    and the like) only pass options and connections on.  TLS configurations,
    sockets and platform calls are inputs and outputs.  Options whose JSON form is
    their fields, the objects over several types among them (rule actions, rules,
    rule-sets), are records here and their decoding by field is not modelled.
    The command line, the assembly of the box beyond the start of its routers,
    the rendering of HTTP answers and the mobile bindings are glue.  The LRU of
    the DNS cache does not evict by capacity here, and the locks that make equal
    concurrent queries wait for each other are left out. *)

From stdpp Require Import base list strings gmap pretty.
From Stdlib Require Import ZArith Lia.

Declare Scope box_scope.
Delimit Scope box_scope with box.
Global Open Scope string_scope.
Global Open Scope list_scope.
Global Open Scope box_scope.

(** ** Errors and outcomes

    A Go [error] value is kept as the tree of constructors the code builds it
    with; a call returns normally, returns an error, or panics. *)

Inductive error : Type :=
  | ErrNew (msg : string)
  | ErrCause (cause : error) (msg : string)
  | ErrCauseErr (cause message : error)
  | ErrExtend (cause : error) (msg : string)
  | ErrNum (fn num : string) (out_of_range : bool)
  | ErrParseAddr (input msg : string)
  | ErrParsePrefix (input msg : string)
  | ErrNoData
  | ErrEOF
  | ErrUnexpectedEOF
  | ErrRcode (code : Z)
  | ErrContext
  | ErrDrop
  | ErrInvalid
  | ErrJoin (first rest : error).

#[global] Instance error_eq_dec : EqDecision error.
Proof. solve_decision. Defined.

(** [errors.Is]: a cause, or one of several joined errors, is the target. *)
Fixpoint errors_Is (e target : error) : bool :=
  bool_decide (e = target) ||
  match e with
  | ErrCause cause _ | ErrCauseErr cause _ | ErrExtend cause _ => errors_Is cause target
  | ErrJoin first rest => errors_Is first target || errors_Is rest target
  | _ => false
  end.

(** [errors.As] with a response code. *)
Fixpoint errors_As_rcode (e : error) : option Z :=
  match e with
  | ErrRcode code => Some code
  | ErrCause cause _ | ErrCauseErr cause _ | ErrExtend cause _ => errors_As_rcode cause
  | ErrJoin first rest =>
      match errors_As_rcode first with Some code => Some code | None => errors_As_rcode rest end
  | _ => None
  end.

Definition option_list {A} (o : option A) : list A := match o with Some a => [a] | None => [] end.

(** [E.Errors]: nil for no error, the error itself for one. *)
Fixpoint E_Errors (l : list error) : option error :=
  match l with
  | [] => None
  | e :: l => Some (match E_Errors l with Some rest => ErrJoin e rest | None => e end)
  end.

Inductive res (A : Type) : Type :=
  | Ok (a : A)
  | Err (e : error)
  | Panic (msg : string).
Arguments Ok {A} a.
Arguments Err {A} e.
Arguments Panic {A} msg.

Definition res_bind {A B} (r : res A) (k : A -> res B) : res B :=
  match r with
  | Ok a => k a
  | Err e => Err e
  | Panic m => Panic m
  end.

(** [E.Cause(err, msg)] applied to the error of a call, the usual shape
    [if err != nil { return nil, E.Cause(err, msg) }]. *)
Definition res_cause {A} (msg : string) (r : res A) : res A :=
  match r with
  | Err e => Err (ErrCause e msg)
  | r => r
  end.

Notation "'let*' x ':=' e 'in' k" := (res_bind e (fun x => k))
  (at level 10, x name, e at level 200, k at level 200) : box_scope.
Notation "'let*' ' p ':=' e 'in' k" := (res_bind e (fun p => k))
  (at level 10, p strict pattern, e at level 200, k at level 200) : box_scope.

Definition is_ok {A} (r : res A) : bool := match r with Ok _ => true | _ => false end.

Lemma res_bind_ok {A B} (r : res A) (k : A -> res B) b :
  res_bind r k = Ok b <-> exists a, r = Ok a /\ k a = Ok b.
Proof.
  destruct r; simpl; split.
  - intros H. by eexists.
  - by intros (a' & [= ->] & H).
  - done.
  - by intros (a' & [=] & _).
  - done.
  - by intros (a' & [=] & _).
Qed.

Lemma res_cause_ok {A} msg (r : res A) a : res_cause msg r = Ok a <-> r = Ok a.
Proof. destruct r; simpl; split; congruence. Qed.

(** Left-to-right traversal that stops at the first error, the shape of
    [for i, x := range xs { y, err := f(i, x); if err != nil { return err } }]. *)
Definition res_mapi {A B} (f : nat -> A -> res B) : nat -> list A -> res (list B) :=
  fix go i l :=
    match l with
    | [] => Ok []
    | x :: l => let* y := f i x in let* ys := go (S i) l in Ok (y :: ys)
    end.

Lemma res_mapi_ok {A B} (f : nat -> A -> res B) i l ys :
  res_mapi f i l = Ok ys <-> length ys = length l /\
    forall k x y, l !! k = Some x -> ys !! k = Some y -> f (i + k)%nat x = Ok y.
Proof.
  revert i ys; induction l as [|x l IH]; intros i ys; simpl.
  - split; [intros [= <-]; done|]. intros [Hl _]. destruct ys; [done|discriminate].
  - rewrite res_bind_ok. split.
    + intros (y & Hf & (ys' & Hm & [= <-])%res_bind_ok).
      apply IH in Hm as [Hlen Hall]. split; [simpl; lia|].
      intros [|k] x' y'; simpl; [intros; simplify_eq; by rewrite Nat.add_0_r|].
      intros Hx Hy. rewrite <- (Hall k x' y' Hx Hy). f_equal; lia.
    + intros [Hlen Hall]. destruct ys as [|y ys]; [discriminate|].
      exists y. split; [rewrite <- (Hall 0%nat x y); [f_equal; lia|done..]|].
      apply res_bind_ok. exists ys. split; [|done].
      apply IH. split; [simpl in *; lia|].
      intros k x' y' Hx Hy. rewrite <- (Hall (S k) x' y' Hx Hy). f_equal; lia.
Qed.

Lemma res_mapi_Forall2 {A B} (f : nat -> A -> res B) i l ys :
  res_mapi f i l = Ok ys -> Forall2 (fun x y => exists k, f k x = Ok y) l ys.
Proof.
  revert i ys; induction l as [|x l IH]; intros i ys; simpl.
  - intros [= <-]. constructor.
  - intros (y & Hf & (ys' & Hm & [= <-])%res_bind_ok)%res_bind_ok. constructor; eauto.
Qed.

(** [common.All] over a predicate that may panic. *)
Definition res_forallb {A} (f : A -> res bool) : list A -> res bool :=
  fix go l :=
    match l with
    | [] => Ok true
    | x :: l => let* b := f x in if b then go l else Ok false
    end.

(** ** Stateful searches

    [for _, x := range l { if f(x, s) { ...; break } }] where [f] may write to
    the state [s] it receives by pointer, and its dual.  Both stop at the first
    element that decides the answer. *)

Definition any_st {X S} (f : X -> S -> bool * S) : list X -> S -> bool * S :=
  fix go l s :=
    match l with
    | [] => (false, s)
    | x :: l => let '(b, s') := f x s in if b then (true, s') else go l s'
    end.

Definition all_st {X S} (f : X -> S -> bool * S) : list X -> S -> bool * S :=
  fix go l s :=
    match l with
    | [] => (true, s)
    | x :: l => let '(b, s') := f x s in if b then go l s' else (false, s')
    end.

Section stateful_search.
Context {X S : Type} (R : relation S) `{!PreOrder R} (f : X -> S -> bool * S).

Lemma any_st_rel l s :
  (forall x s, x ∈ l -> R s (f x s).2) -> R s (any_st f l s).2.
Proof.
  revert s; induction l as [|x l IH]; intros s H; simpl; [reflexivity|].
  pose proof (H x s ltac:(set_solver)) as Hx.
  destruct (f x s) as [[] s']; simpl in *; [done|].
  etrans; [exact Hx|apply IH; set_solver].
Qed.

Lemma all_st_rel l s :
  (forall x s, x ∈ l -> R s (f x s).2) -> R s (all_st f l s).2.
Proof.
  revert s; induction l as [|x l IH]; intros s H; simpl; [reflexivity|].
  pose proof (H x s ltac:(set_solver)) as Hx.
  destruct (f x s) as [[] s']; simpl in *; [|done].
  etrans; [exact Hx|apply IH; set_solver].
Qed.
End stateful_search.

(** When the answer of [f] does not depend on the part of the state it may
    change, a stateful search is a pure one. *)
Section stateful_pure.
Context {X S : Type} (R : relation S) `{!PreOrder R}.
Context (f : X -> S -> bool * S) (g : X -> bool).

Lemma any_st_pure l s :
  (forall x s', x ∈ l -> R s s' -> (f x s').1 = g x /\ R s' (f x s').2) ->
  (any_st f l s).1 = existsb g l.
Proof.
  intros H. enough (H0 : forall s', R s s' -> (any_st f l s').1 = existsb g l) by
    (by apply H0).
  induction l as [|x l IH]; intros s' Hs; simpl; [done|].
  destruct (H x s' ltac:(set_solver) Hs) as [Hb HR].
  destruct (f x s') as [b s'']; simpl in *; subst b.
  destruct (g x); simpl; [done|]. apply IH; [set_solver|]. by etrans.
Qed.

Lemma all_st_pure l s :
  (forall x s', x ∈ l -> R s s' -> (f x s').1 = g x /\ R s' (f x s').2) ->
  (all_st f l s).1 = forallb g l.
Proof.
  intros H. enough (H0 : forall s', R s s' -> (all_st f l s').1 = forallb g l) by
    (by apply H0).
  induction l as [|x l IH]; intros s' Hs; simpl; [done|].
  destruct (H x s' ltac:(set_solver) Hs) as [Hb HR].
  destruct (f x s') as [b s'']; simpl in *; subst b.
  destruct (g x); simpl; [|done]. apply IH; [set_solver|]. by etrans.
Qed.
End stateful_pure.

(** ** Automation *)

Create HintDb box discriminated.
Create Rewrite HintDb box.

(** Case analysis on the scrutinee of the first match or conditional of the
    goal, keeping the equation. *)
Ltac case_goal :=
  match goal with
  | |- context [match ?x with _ => _ end] =>
      lazymatch x with
      | context [match _ with _ => _ end] => fail
      | _ => destruct x eqn:?
      end
  end.

Ltac case_hyp H :=
  match type of H with
  | context [match ?x with _ => _ end] =>
      lazymatch x with
      | context [match _ with _ => _ end] => fail
      | _ => destruct x eqn:?
      end
  end.

(** Inverts every [Ok] produced by a chain of binds in a hypothesis. *)
Ltac inv_res :=
  repeat match goal with
  | H : res_bind _ _ = Ok _ |- _ => apply res_bind_ok in H as (? & ? & H)
  | H : res_cause _ _ = Ok _ |- _ => apply res_cause_ok in H
  | H : Ok _ = Ok _ |- _ => injection H as H; subst
  | H : Err _ = Ok _ |- _ => discriminate H
  | H : Panic _ = Ok _ |- _ => discriminate H
  end.

Lemma existsb_elem_of {A} (g : A -> bool) l :
  existsb g l = true <-> exists x, x ∈ l /\ g x = true.
Proof. rewrite existsb_exists. by setoid_rewrite list_elem_of_In. Qed.

Lemma forallb_elem_of {A} (g : A -> bool) l :
  forallb g l = true <-> forall x, x ∈ l -> g x = true.
Proof. rewrite forallb_forall. by setoid_rewrite list_elem_of_In. Qed.

Lemma existsb_ext_in {A} (g h : A -> bool) l :
  (forall x, x ∈ l -> g x = h x) -> existsb g l = existsb h l.
Proof. induction l as [|x l IH]; intros H; simpl; [done|]. rewrite H, IH; set_solver. Qed.

Lemma forallb_ext_in {A} (g h : A -> bool) l :
  (forall x, x ∈ l -> g x = h x) -> forallb g l = forallb h l.
Proof. induction l as [|x l IH]; intros H; simpl; [done|]. rewrite H, IH; set_solver. Qed.

Lemma forallb_Forall2 {A B} (g : A -> bool) (k : B -> bool) l l' :
  Forall2 (fun x y => k y = g x) l l' -> forallb k l' = forallb g l.
Proof. induction 1 as [|x y l l' Hxy _ IH]; simpl; [done|]. by rewrite Hxy, IH. Qed.

Lemma existsb_Forall2 {A B} (g : A -> bool) (k : B -> bool) l l' :
  Forall2 (fun x y => k y = g x) l l' -> existsb k l' = existsb g l.
Proof. induction 1 as [|x y l l' Hxy _ IH]; simpl; [done|]. by rewrite Hxy, IH. Qed.

(** The first element that fails a decidable property. *)
Lemma first_failure {A} (P : A -> Prop) `{forall x, Decision (P x)} l :
  ~ Forall P l -> exists before x after, l = before ++ x :: after /\ Forall P before /\ ~ P x.
Proof.
  induction l as [|x l IH]; intros Hl; [by destruct Hl|].
  destruct (decide (P x)) as [Hx|Hx]; [|by exists [], x, l].
  destruct IH as (before & y & after & -> & Hb & Hy); [intros Hall; apply Hl; by constructor|].
  exists (x :: before), y, after. split_and!; [done|by constructor|done].
Qed.
