(* ===== verification/GoStd.v ===== *)
(** * The part of Go's standard library the modelled code uses

    Strings are byte strings.  [strings], [strconv.ParseUint], [path/filepath]
    and [net/netip] parsing are written out after the library's sources; the
    tables of the [unicode] package are parameters (see External.v). *)

From stdpp Require Import base list strings gmap pretty.
From Stdlib Require Import ZArith Lia Ascii.
From S2P Require Import Prelude.

Global Open Scope list_scope.
Open Scope Z_scope.

(** ** Bytes and [strings] *)

Definition byte_of (c : ascii) : Z := Z.of_nat (nat_of_ascii c).

Definition go_itoa (z : Z) : string := pretty z.

Definition strings_Join (l : list string) (sep : string) : string := String.concat sep l.

Definition strings_Index (s sub : string) : option nat := String.index 0 sub s.

Definition strings_Contains (s sub : string) : bool :=
  match strings_Index s sub with Some _ => true | None => false end.

Definition strings_HasPrefix (s p : string) : bool := String.prefix p s.

Definition strings_HasSuffix (s p : string) : bool :=
  if (String.length s <? String.length p)%nat then false
  else bool_decide (String.substring (String.length s - String.length p) (String.length p) s = p).

(** [strings.Split] at a byte *)
Fixpoint split_bytes (sep : ascii) (l cur : list ascii) : list string :=
  match l with
  | [] => [String.string_of_list_ascii (rev cur)]
  | c :: l =>
      if ascii_dec c sep then String.string_of_list_ascii (rev cur) :: split_bytes sep l []
      else split_bytes sep l (c :: cur)
  end.
Definition strings_Split (s : string) (sep : ascii) : list string :=
  split_bytes sep (String.list_ascii_of_string s) [].

(** [s[i:]] and [s[:i]] *)
Definition str_drop (i : nat) (s : string) : string :=
  String.substring i (String.length s - i) s.
Definition str_take (i : nat) (s : string) : string := String.substring 0 i s.

Definition is_ascii_string (s : string) : bool :=
  forallb (fun c => byte_of c <? 128) (String.list_ascii_of_string s).

Definition lower_byte (c : ascii) : ascii :=
  let z := byte_of c in
  if (65 <=? z) && (z <=? 90) then ascii_of_nat (Z.to_nat (z + 32)) else c.

Definition map_string (f : ascii -> ascii) (s : string) : string :=
  String.string_of_list_ascii (map f (String.list_ascii_of_string s)).

(** [strings.ToLower] and [strings.EqualFold]: the ASCII path is written out,
    the path through the Unicode tables is an argument. *)
Definition strings_ToLower (unicode_lower : string -> string) (s : string) : string :=
  if is_ascii_string s then map_string lower_byte s else unicode_lower s.

Definition strings_EqualFold (unicode_fold : string -> string -> bool) (s t : string) : bool :=
  if is_ascii_string s && is_ascii_string t then
    bool_decide (map_string lower_byte s = map_string lower_byte t)
  else unicode_fold s t.

Fixpoint last_index_from (c : ascii) (s : string) (i : nat) (found : option nat) : option nat :=
  match s with
  | EmptyString => found
  | String.String a s => last_index_from c s (S i) (if ascii_dec a c then Some i else found)
  end.

Definition strings_LastIndexByte (s : string) (c : ascii) : option nat :=
  last_index_from c s 0 None.

(** [filepath.Base] with the Unix separator. *)
Fixpoint trim_slashes_rev (l : list ascii) : list ascii :=
  match l with
  | [] => []
  | c :: l' => if ascii_dec c "/"%char then trim_slashes_rev l' else c :: l'
  end.

Definition filepath_Base (path : string) : string :=
  if decide (path = "") then "."
  else
    let p := String.string_of_list_ascii (rev (trim_slashes_rev (rev (String.list_ascii_of_string path)))) in
    let p := match strings_LastIndexByte p "/"%char with
             | Some i => str_drop (S i) p
             | None => p
             end in
    if decide (p = "") then "/" else p.

(** ** [strconv.ParseUint(s, 10, bits)] *)

Definition digit_value (c : ascii) : option Z :=
  let z := byte_of c in if (48 <=? z) && (z <=? 57) then Some (z - 48) else None.

Fixpoint parse_uint_loop (maxVal : Z) (l : list ascii) (n : Z) : option (res Z) :=
  match l with
  | [] => Some (Ok n)
  | c :: l =>
      match digit_value c with
      | None => None
      | Some d =>
          let n1 := n * 10 + d in
          if maxVal <? n1 then Some (Err (ErrNum "ParseUint" "" true))
          else parse_uint_loop maxVal l n1
      end
  end.

Definition strconv_ParseUint (s : string) (bits : Z) : res Z :=
  match String.list_ascii_of_string s with
  | [] => Err (ErrNum "ParseUint" s false)
  | l =>
      match parse_uint_loop (2 ^ bits - 1) l 0 with
      | Some (Ok n) => Ok n
      | Some _ => Err (ErrNum "ParseUint" s true)
      | None => Err (ErrNum "ParseUint" s false)
      end
  end.

(** Conversion to a 32-bit signed integer. *)
Definition to_int32 (z : Z) : Z := (z + 2 ^ 31) mod 2 ^ 32 - 2 ^ 31.

Lemma to_int32_id z : - 2 ^ 31 <= z < 2 ^ 31 -> to_int32 z = z.
Proof. intros Hz. unfold to_int32. rewrite Z.mod_small; lia. Qed.

(** Conversion to, and arithmetic of, 64-bit signed integers. *)
Definition to_int64 (z : Z) : Z := (z + 2 ^ 63) mod 2 ^ 64 - 2 ^ 63.

Lemma to_int64_id z : - 2 ^ 63 <= z < 2 ^ 63 -> to_int64 z = z.
Proof. intros Hz. unfold to_int64. rewrite Z.mod_small; lia. Qed.

Lemma to_int64_mod a b : to_int64 a = to_int64 b <-> a mod 2 ^ 64 = b mod 2 ^ 64.
Proof.
  unfold to_int64. split; intros H.
  - apply Z.sub_cancel_r in H. replace a with (a + 2 ^ 63 - 2 ^ 63) by lia. replace b with (b + 2 ^ 63 - 2 ^ 63) by lia.
    rewrite <-(Zminus_mod_idemp_l (a + _)), <-(Zminus_mod_idemp_l (b + _)). by rewrite H.
  - rewrite <-(Zplus_mod_idemp_l a), <-(Zplus_mod_idemp_l b). by rewrite H.
Qed.

Lemma to_int64_congr z : to_int64 z mod 2 ^ 64 = z mod 2 ^ 64.
Proof. unfold to_int64. rewrite Zminus_mod_idemp_l. f_equal. lia. Qed.

Lemma to_int64_add a b : to_int64 (to_int64 a + b) = to_int64 (a + b).
Proof. apply to_int64_mod. rewrite <-Zplus_mod_idemp_l, to_int64_congr. apply Zplus_mod_idemp_l. Qed.

(** The order of [sort.Strings]. *)
Definition string_le (a b : string) : Prop := String.leb a b = true.
#[export] Instance string_le_dec : RelDecision string_le.
Proof. intros a b. unfold string_le. apply _. Defined.

#[export] Instance string_le_total : Total string_le.
Proof. intros a b. apply String.leb_total. Qed.

#[export] Instance string_le_antisymm : AntiSymm (=) string_le.
Proof. intros a b. apply String.leb_antisym. Qed.

Lemma ascii_compare_N a b : Ascii.compare a b = N.compare (N_of_ascii a) (N_of_ascii b).
Proof. done. Qed.

#[export] Instance string_le_trans : Transitive string_le.
Proof.
  unfold string_le, String.leb. intros a. induction a as [|x a IH]; intros [|y b] [|z c]; simpl; try done.
  rewrite !ascii_compare_N.
  destruct (N.compare_spec (N_of_ascii x) (N_of_ascii y)) as [Hxy|Hxy|Hxy], (N.compare_spec (N_of_ascii y) (N_of_ascii z)) as [Hyz|Hyz|Hyz];
    try done; destruct (N.compare_spec (N_of_ascii x) (N_of_ascii z)); try lia; try done.
  apply IH.
Qed.

(** [strconv.Atoi] on the strings [netip.ParsePrefix] passes to it, which
    start with a digit or are one character long. *)
Definition strconv_Atoi (s : string) : option Z :=
  match String.list_ascii_of_string s with
  | [] => None
  | l =>
      match parse_uint_loop (2 ^ 63 - 1) l 0 with
      | Some (Ok n) => Some n
      | _ => None
      end
  end.

Lemma parse_uint_loop_bound maxVal l n v :
  0 <= n <= maxVal -> parse_uint_loop maxVal l n = Some (Ok v) -> 0 <= v <= maxVal.
Proof.
  revert n; induction l as [|c l IH]; intros n Hn; simpl; [intros [= <-]; done|].
  unfold digit_value. destruct ((48 <=? byte_of c) && (byte_of c <=? 57)) eqn:E; [|done].
  apply andb_prop in E as [?%Z.leb_le ?%Z.leb_le].
  destruct (Z.ltb_spec maxVal (n * 10 + (byte_of c - 48))); [done|].
  apply IH. lia.
Qed.

Lemma strconv_ParseUint_bound s bits v :
  0 <= bits -> strconv_ParseUint s bits = Ok v -> 0 <= v < 2 ^ bits.
Proof.
  intros Hb. unfold strconv_ParseUint.
  destruct (String.list_ascii_of_string s) as [|c l]; [done|].
  destruct (parse_uint_loop _ _ _) as [[n| |]|] eqn:E; try done.
  intros [= <-]. apply parse_uint_loop_bound in E; [lia|].
  pose proof (Z.pow_pos_nonneg 2 bits). lia.
Qed.

(** ** [net/netip] *)

(** The zero [Addr] is invalid; an IPv6 address may carry a zone. *)
Inductive Addr : Type :=
  | AddrInvalid
  | Addr4 (ip : Z)
  | Addr6 (ip : Z) (zone : string).

#[global] Instance Addr_eq_dec : EqDecision Addr.
Proof. solve_decision. Defined.

#[global] Instance Addr_countable : Countable Addr.
Proof.
  refine (inj_countable'
    (fun a => match a with AddrInvalid => None | Addr4 n => Some (n, None) | Addr6 n z => Some (n, Some z) end)
    (fun x => match x with None => AddrInvalid | Some (n, None) => Addr4 n | Some (n, Some z) => Addr6 n z end) _).
  by intros [].
Defined.

Definition Addr_IsValid (a : Addr) : bool := match a with AddrInvalid => false | _ => true end.
Definition Addr_Is4 (a : Addr) : bool := match a with Addr4 _ => true | _ => false end.
Definition Addr_Is6 (a : Addr) : bool := match a with Addr6 _ _ => true | _ => false end.
Definition Addr_BitLen (a : Addr) : Z :=
  match a with AddrInvalid => 0 | Addr4 _ => 32 | Addr6 _ _ => 128 end.

Record Prefix : Type := { prefix_ip : Addr; prefix_bits : Z }.

(** The zero [Prefix] is the invalid one. *)
Definition PrefixInvalid : Prefix := {| prefix_ip := AddrInvalid; prefix_bits := -1 |}.

Definition Prefix_IsValid (p : Prefix) : bool :=
  Addr_IsValid (prefix_ip p) && (0 <=? prefix_bits p).

#[global] Instance Prefix_eq_dec : EqDecision Prefix.
Proof. solve_decision. Defined.

#[global] Instance Prefix_countable : Countable Prefix.
Proof.
  refine (inj_countable' (fun p => (prefix_ip p, prefix_bits p)) (fun x => Build_Prefix x.1 x.2) _).
  by intros [].
Defined.

Definition shift_octet (acc v : Z) : Z := acc * 256 + v.

(** [parseIPv4Fields]: [i] is the offset, [prev_dot] whether the previous byte
    is a dot; four octets are accumulated in [ip]. *)
Fixpoint parse_ipv4_fields (l : list ascii) (first prev_dot : bool)
    (val pos digLen ip : Z) : option Z :=
  match l with
  | [] => if pos <? 3 then None else Some (shift_octet ip val)
  | c :: l' =>
      match digit_value c with
      | Some d =>
          if (digLen =? 1) && (val =? 0) then None
          else if 255 <? val * 10 + d then None
          else parse_ipv4_fields l' false false (val * 10 + d) pos (digLen + 1) ip
      | None =>
          if ascii_dec c "."%char then
            if first || bool_decide (l' = []) || prev_dot then None
            else if pos =? 3 then None
            else parse_ipv4_fields l' false true 0 (pos + 1) 0 (shift_octet ip val)
          else None
      end
  end.

Definition parse_ipv4 (l : list ascii) : option Z := parse_ipv4_fields l true false 0 0 0 0.

Definition hex_value (c : ascii) : option Z :=
  let z := byte_of c in
  if (48 <=? z) && (z <=? 57) then Some (z - 48)
  else if (97 <=? z) && (z <=? 102) then Some (z - 97 + 10)
  else if (65 <=? z) && (z <=? 70) then Some (z - 65 + 10)
  else None.

(** One hexadecimal group: the value, the number of digits and the rest;
    [None] for more than four digits. *)
Fixpoint parse_hex_group (l : list ascii) (off : nat) (acc : Z) : option (Z * nat * list ascii) :=
  match l with
  | c :: l' =>
      match hex_value c with
      | Some d => if (3 <? off)%nat then None else parse_hex_group l' (S off) (acc * 16 + d)
      | None => Some (acc, off, l)
      end
  | [] => Some (acc, off, l)
  end.

(** Sixteen-bit groups read so far, most significant first, and the number of
    groups before the ellipsis. *)
Fixpoint parse_ipv6_loop (fuel : nat) (l : list ascii) (groups : list Z) (ell : option nat)
    : option (list Z * option nat) :=
  match fuel with
  | O => match l with [] => Some (groups, ell) | _ => None end
  | S fuel =>
      match parse_hex_group l 0 0 with
      | None => None
      | Some (acc, off, rest) =>
          if (off =? 0)%nat then None
          else
            match rest with
            | "."%char :: _ =>
                if bool_decide (ell = None) && negb (length groups =? 6)%nat then None
                else if (6 <? length groups)%nat then None
                else match parse_ipv4 l with
                     | Some v => Some (groups ++ [v / 65536; v mod 65536], ell)
                     | None => None
                     end
            | [] => Some (groups ++ [acc], ell)
            | ":"%char :: rest' =>
                match rest' with
                | [] => None
                | ":"%char :: rest'' =>
                    match ell with
                    | Some _ => None
                    | None =>
                        let groups := groups ++ [acc] in
                        match rest'' with
                        | [] => Some (groups, Some (length groups))
                        | _ => parse_ipv6_loop fuel rest'' groups (Some (length groups))
                        end
                    end
                | _ => parse_ipv6_loop fuel rest' (groups ++ [acc]) ell
                end
            | _ => None
            end
      end
  end.

Definition combine_groups (gs : list Z) : Z := fold_left (fun a g => a * 65536 + g) gs 0.

Definition expand_groups (gs : list Z) (ell : option nat) : option Z :=
  if (length gs <? 8)%nat then
    match ell with
    | None => None
    | Some e => Some (combine_groups (take e gs ++ replicate (8 - length gs) 0 ++ drop e gs))
    end
  else match ell with None => Some (combine_groups gs) | Some _ => None end.

Fixpoint split_zone (l : list ascii) : list ascii * option (list ascii) :=
  match l with
  | [] => ([], None)
  | c :: l' =>
      if ascii_dec c "%"%char then ([], Some l')
      else let '(a, z) := split_zone l' in (c :: a, z)
  end.

Definition parse_ipv6 (l : list ascii) : option Addr :=
  let '(s, zone) := split_zone l in
  if bool_decide (zone = Some []) then None
  else
    let z := String.string_of_list_ascii (default [] zone) in
    match s with
    | ":"%char :: ":"%char :: [] => Some (Addr6 0 z)
    | ":"%char :: ":"%char :: s' =>
        '(gs, ell) ← parse_ipv6_loop 8 s' [] (Some 0%nat);
        ip ← expand_groups gs ell; Some (Addr6 ip z)
    | _ =>
        '(gs, ell) ← parse_ipv6_loop 8 s [] None;
        ip ← expand_groups gs ell; Some (Addr6 ip z)
    end.

Fixpoint parse_addr_dispatch (whole l : list ascii) : option Addr :=
  match l with
  | [] => None
  | c :: l' =>
      if ascii_dec c "."%char then Addr4 <$> parse_ipv4 whole
      else if ascii_dec c ":"%char then parse_ipv6 whole
      else if ascii_dec c "%"%char then None
      else parse_addr_dispatch whole l'
  end.

Definition netip_ParseAddr (s : string) : res Addr :=
  let l := String.list_ascii_of_string s in
  match parse_addr_dispatch l l with
  | Some a => Ok a
  | None => Err (ErrParseAddr s "invalid address")
  end.

Definition first_in_1_9 (s : string) : bool :=
  match String.list_ascii_of_string s with
  | c :: _ => (49 <=? byte_of c) && (byte_of c <=? 57)
  | [] => false
  end.

Definition netip_ParsePrefix (s : string) : res Prefix :=
  match strings_LastIndexByte s "/"%char with
  | None => Err (ErrParsePrefix s "no '/'")
  | Some i =>
      match netip_ParseAddr (str_take i s) with
      | Ok ip =>
          if (match ip with Addr6 _ z => negb (bool_decide (z = "")) | _ => false end)
          then Err (ErrParsePrefix s "IPv6 zones cannot be present in a prefix")
          else
            let bitsStr := str_drop (S i) s in
            if (1 <? String.length bitsStr)%nat && negb (first_in_1_9 bitsStr)
            then Err (ErrParsePrefix s "bad bits after slash")
            else
              match strconv_Atoi bitsStr with
              | None => Err (ErrParsePrefix s "bad bits after slash")
              | Some bits =>
                  if (bits <? 0) || ((if Addr_Is6 ip then 128 else 32) <? bits)
                  then Err (ErrParsePrefix s "prefix length out of range")
                  else Ok {| prefix_ip := ip; prefix_bits := bits |}
              end
      | _ => Err (ErrParsePrefix s "invalid address")
      end
  end.

(** [Prefix.Contains]: same family, no zone, equal leading bits. *)
Definition Prefix_Contains (p : Prefix) (a : Addr) : bool :=
  Prefix_IsValid p &&
  match prefix_ip p, a with
  | Addr4 n, Addr4 m => Z.shiftr n (32 - prefix_bits p) =? Z.shiftr m (32 - prefix_bits p)
  | Addr6 n _, Addr6 m z =>
      bool_decide (z = "") && (Z.shiftr n (128 - prefix_bits p) =? Z.shiftr m (128 - prefix_bits p))
  | _, _ => false
  end.

Example parse_addr_v4 : netip_ParseAddr "10.0.0.1" = Ok (Addr4 167772161).
Proof. vm_compute. reflexivity. Qed.
Example parse_addr_v6 : netip_ParseAddr "fe80::1" = Ok (Addr6 (65152 * 2 ^ 112 + 1) "").
Proof. vm_compute. reflexivity. Qed.
Example parse_addr_v6_map : netip_ParseAddr "::ffff:1.2.3.4" = Ok (Addr6 (65535 * 2 ^ 32 + 16909060) "").
Proof. vm_compute. reflexivity. Qed.
Example parse_addr_bad : is_ok (netip_ParseAddr "1.2.3") = false /\ is_ok (netip_ParseAddr "1:2") = false
  /\ is_ok (netip_ParseAddr "1.02.3.4") = false /\ is_ok (netip_ParseAddr "1:2:3:4:5:6:7:8::") = false.
Proof. vm_compute. repeat split. Qed.
Example parse_prefix_ok : netip_ParsePrefix "10.0.0.0/8" = Ok {| prefix_ip := Addr4 167772160; prefix_bits := 8 |}.
Proof. vm_compute. reflexivity. Qed.

(** ** Byte sequences

    A byte is a number below 256; [encoding/binary] reads and writes numbers of
    [k] bytes, the highest byte first. *)

Definition bytes_of (s : string) : list Z := map byte_of (String.list_ascii_of_string s).
Definition string_of_bytes (l : list Z) : string :=
  String.string_of_list_ascii (map (fun z => ascii_of_nat (Z.to_nat z)) l).

Definition is_byte (b : Z) : Prop := 0 <= b < 256.

(** Big-endian value. *)
Definition big_endian (l : list Z) : Z := fold_left (fun acc b => acc * 256 + b) l 0.

Fixpoint be_bytes (k : nat) (n : Z) : list Z :=
  match k with
  | O => []
  | S k => (n `div` 256 ^ Z.of_nat k) mod 256 :: be_bytes k n
  end.

Lemma length_be_bytes k n : length (be_bytes k n) = k.
Proof. induction k; simpl; congruence. Qed.

Lemma big_endian_be_bytes k n : 0 <= n < 256 ^ Z.of_nat k -> big_endian (be_bytes k n) = n.
Proof.
  intros Hn. unfold big_endian.
  enough (H : forall acc, fold_left (fun acc b => acc * 256 + b) (be_bytes k n) acc =
            acc * 256 ^ Z.of_nat k + n mod 256 ^ Z.of_nat k) by (by rewrite H, Z.mod_small).
  clear Hn. induction k as [|k IH]; intros acc; simpl be_bytes; simpl fold_left.
  - change (256 ^ Z.of_nat 0) with 1. rewrite Z.mod_1_r. lia.
  - rewrite IH. rewrite Nat2Z.inj_succ, Z.pow_succ_r by lia.
    assert (0 < 256 ^ Z.of_nat k) by (apply Z.pow_pos_nonneg; lia).
    rewrite (Z.mul_comm 256 (256 ^ Z.of_nat k)), Z.rem_mul_r by lia. lia.
Qed.

Lemma is_byte_be_bytes k n : Forall is_byte (be_bytes k n).
Proof. induction k as [|k IH]; [constructor|]. constructor; [|done]. unfold is_byte. apply Z.mod_pos_bound. lia. Qed.

Lemma string_of_bytes_of s : string_of_bytes (bytes_of s) = s.
Proof.
  unfold string_of_bytes, bytes_of. rewrite List.map_map.
  rewrite (List.map_ext _ (fun c => c)); [rewrite List.map_id; apply String.string_of_list_ascii_of_string|].
  intros c. unfold byte_of. rewrite Nat2Z.id. apply ascii_nat_embedding.
Qed.

Lemma bytes_of_bytes s : Forall is_byte (bytes_of s).
Proof.
  apply Forall_forall. intros b [c [<- _]]%list_elem_of_In%List.in_map_iff.
  unfold is_byte, byte_of. pose proof (nat_ascii_bounded c). lia.
Qed.

Lemma bytes_of_string_of l : Forall is_byte l -> bytes_of (string_of_bytes l) = l.
Proof.
  intros Hl. unfold bytes_of, string_of_bytes. rewrite String.list_ascii_of_string_of_list_ascii, map_map.
  rewrite <-(map_id l) at 2. apply map_ext_in. intros z Hz%list_elem_of_In. rewrite Forall_forall in Hl. specialize (Hl z Hz).
  unfold is_byte, byte_of in *. rewrite nat_ascii_embedding by lia. lia.
Qed.

Lemma length_bytes_of s : length (bytes_of s) = String.length s.
Proof.
  unfold bytes_of. rewrite length_map. induction s; simpl; congruence.
Qed.
