(* ===== verification/External.v ===== *)
(** * Code the program calls that is not part of the repository

    The third-party packages (sing, netipx, miekg/dns), Go's regular
    expressions and the Unicode tables are the fields of one class; every
    definition that uses them takes an instance, and the few documented laws a
    theorem needs are the fields of [ExternalLaws].  [concrete_external] is a
    small executable instance, used by the witnesses. *)

From stdpp Require Import base list strings gmap.
From Stdlib Require Import ZArith Lia.
From S2P Require Import Prelude GoStd.

Open Scope Z_scope.

(** [M.Socksaddr] of sing: the fields the repository reads. *)
Record Socksaddr : Type := { sa_Addr : Addr; sa_Port : Z; sa_Fqdn : string }.

#[global] Instance Socksaddr_eq_dec : EqDecision Socksaddr.
Proof. solve_decision. Defined.

Definition SocksaddrZero : Socksaddr := {| sa_Addr := AddrInvalid; sa_Port := 0; sa_Fqdn := "" |}.

Class External : Type := {
  (** sing, [common/metadata] *)
  IsIP : Socksaddr -> bool;
  IsIPv6 : Socksaddr -> bool;
  IsFqdn : Socksaddr -> bool;
  Socksaddr_IsValid : Socksaddr -> bool;
  AddrString : Socksaddr -> string;
  ParseSocksaddrHostPort : string -> Z -> Socksaddr;
  (** sing, [common/network] *)
  IsPublicAddr : Addr -> bool;
  (** sing, [common/domain] *)
  Matcher : Type;
  NewMatcher : list string -> list string -> bool -> Matcher;
  Matcher_Match : Matcher -> string -> bool;
  AdGuardMatcher : Type;
  NewAdGuardMatcher : list string -> AdGuardMatcher;
  AdGuardMatcher_Match : AdGuardMatcher -> string -> bool;
  (** netipx: an [IPSetBuilder] is the list of what was added to it *)
  IPSet : Type;
  IPSetBuilder_IPSet : list (Prefix + Addr) -> res IPSet;
  IPSet_Contains : IPSet -> Addr -> bool;
  (** regexp *)
  Regexp : Type;
  regexp_Compile : string -> res Regexp;
  MatchString : Regexp -> string -> bool;
  (** unicode tables behind [strings.ToLower] and [strings.EqualFold] *)
  unicode_lower : string -> string;
  unicode_fold : string -> string -> bool;
  (** miekg/dns: [TypeToString] *)
  dns_TypeToString : Z -> option string;
  (** [netip.Prefix.String] and [time.Duration.String], only printed *)
  Prefix_String : Prefix -> string;
  Duration_String : Z -> string
}.

(** What the documentation of these packages promises and the theorems use. *)
Class ExternalLaws (E : External) : Prop := {
  IsIP_spec : forall a, IsIP a = Addr_IsValid (sa_Addr a);
  IsIPv6_spec : forall a, IsIPv6 a = Addr_Is6 (sa_Addr a);
  IPSet_Contains_spec : forall items s a,
    IPSetBuilder_IPSet items = Ok s ->
    IPSet_Contains s a = true <->
    exists i, i ∈ items /\
      match i with
      | inl p => Prefix_Contains p a = true
      | inr b => b = a /\ (match a with Addr6 _ z => z = "" | _ => True end)
      end
}.

Definition ToLower `{External} : string -> string := strings_ToLower unicode_lower.
Definition EqualFold `{External} : string -> string -> bool := strings_EqualFold unicode_fold.

(** ** A concrete instance *)

Definition zone_free (a : Addr) : bool :=
  match a with Addr6 _ z => bool_decide (z = "") | _ => true end.

Definition suffix_matches (suffix domain : string) : bool :=
  bool_decide (domain = suffix) ||
  strings_HasSuffix domain (if strings_HasPrefix suffix "." then suffix else "." +:+ suffix).

Definition concrete_external : External := {|
  IsIP a := Addr_IsValid (sa_Addr a);
  IsIPv6 a := Addr_Is6 (sa_Addr a);
  IsFqdn a := negb (Addr_IsValid (sa_Addr a)) && negb (bool_decide (sa_Fqdn a = ""));
  Socksaddr_IsValid a := Addr_IsValid (sa_Addr a) || negb (bool_decide (sa_Fqdn a = ""));
  AddrString a := sa_Fqdn a;
  ParseSocksaddrHostPort s port :=
    match netip_ParseAddr s with
    | Ok a => {| sa_Addr := a; sa_Port := port; sa_Fqdn := "" |}
    | _ => {| sa_Addr := AddrInvalid; sa_Port := port; sa_Fqdn := s |}
    end;
  IsPublicAddr a := match a with Addr4 n => negb (Z.shiftr n 24 =? 10) | _ => true end;
  Matcher := list string * list string;
  NewMatcher d s _ := (d, s);
  Matcher_Match m s := bool_decide (s ∈ m.1) || existsb (fun x => suffix_matches x s) m.2;
  AdGuardMatcher := list string;
  NewAdGuardMatcher l := l;
  AdGuardMatcher_Match m s := bool_decide (s ∈ m);
  IPSet := list (Prefix + Addr);
  IPSetBuilder_IPSet l := Ok l;
  IPSet_Contains l a :=
    existsb (fun i => match i with
                      | inl p => Prefix_Contains p a
                      | inr b => bool_decide (b = a) && zone_free a
                      end) l;
  Regexp := string;
  regexp_Compile s := if decide (s = "(") then Err (ErrNew "missing closing )") else Ok s;
  MatchString r s := strings_Contains s r;
  unicode_lower s := s;
  unicode_fold s t := bool_decide (s = t);
  dns_TypeToString t := if t =? 1 then Some "A" else if t =? 28 then Some "AAAA" else None;
  Prefix_String p := go_itoa (prefix_bits p);
  Duration_String d := go_itoa d
|}.

Lemma concrete_external_laws : ExternalLaws concrete_external.
Proof.
  split; [done|done|]. intros items s a [= <-]. simpl.
  rewrite existsb_elem_of. apply exist_proper; intros i. apply and_iff_compat_l.
  destruct i as [p|b]; [done|].
  rewrite andb_true_iff, bool_decide_eq_true. apply and_iff_compat_l.
  destruct a; simpl; [done|done|]. by rewrite bool_decide_eq_true.
Qed.
