(* ===== verification/Adapter.v ===== *)
(** * adapter: the inbound context and the host the rules look at

    [InboundContext] (adapter/inbound.go) is the record every rule, sniffer and
    action reads and writes through one pointer; here it is passed and returned.
    Its block of rule-cache flags is a record of its own, [RuleCache]. *)

From stdpp Require Import base list strings gmap.
From Stdlib Require Import ZArith Lia.
From S2P Require Import Prelude GoStd External.

Open Scope Z_scope.

(** ** common/process, constant *)

Record ProcessInfo : Type := {
  ProcessID : Z;
  ProcessPath : string;
  PackageName : string;
  UserName : string;
  UserId : Z
}.

(** The four constants 0 to 3; [InterfaceTypeUnknown] is any other byte. *)
Inductive InterfaceType : Type :=
  | InterfaceTypeWIFI | InterfaceTypeCellular | InterfaceTypeEthernet | InterfaceTypeOther
  | InterfaceTypeUnknown (t : Z).

#[global] Instance InterfaceType_eq_dec : EqDecision InterfaceType.
Proof. solve_decision. Defined.

Definition InterfaceType_String (t : InterfaceType) : string :=
  match t with
  | InterfaceTypeWIFI => "wifi"
  | InterfaceTypeCellular => "cellular"
  | InterfaceTypeEthernet => "ethernet"
  | InterfaceTypeOther => "other"
  | InterfaceTypeUnknown t => go_itoa t
  end.

Inductive NetworkStrategy : Type :=
  | NetworkStrategyDefault | NetworkStrategyFallback | NetworkStrategyHybrid.

#[global] Instance NetworkStrategy_eq_dec : EqDecision NetworkStrategy.
Proof. solve_decision. Defined.

Definition NetworkStrategy_String (s : NetworkStrategy) : string :=
  match s with
  | NetworkStrategyDefault => "default"
  | NetworkStrategyFallback => "fallback"
  | NetworkStrategyHybrid => "hybrid"
  end.

(** ** adapter/inbound.go *)

Record RuleCache : Type := {
  IPCIDRMatchSource : bool;
  IPCIDRAcceptEmpty : bool;
  SourceAddressMatch : bool;
  SourcePortMatch : bool;
  DestinationAddressMatch : bool;
  DestinationPortMatch : bool;
  DidMatch : bool;
  IgnoreDestinationIPCIDRMatch : bool
}.

Record InboundContext : Type := {
  Inbound : string;
  InboundType : string;
  IPVersion : Z;
  Network : string;
  Source : Socksaddr;
  Destination : Socksaddr;
  User : string;
  Outbound : string;
  Protocol : string;
  Domain : string;
  Client : string;
  SnifferNames : list string;
  SniffError : option error;
  LastInbound : string;
  OriginDestination : Socksaddr;
  RouteOriginalDestination : Socksaddr;
  UDPDisableDomainUnmapping : bool;
  UDPConnect : bool;
  UDPTimeout : Z;
  TLSFragment : bool;
  TLSFragmentFallbackDelay : Z;
  TLSRecordFragment : bool;
  NetworkStrategy_ : option NetworkStrategy;
  NetworkType : list InterfaceType;
  FallbackNetworkType : list InterfaceType;
  FallbackDelay : Z;
  DestinationAddresses : list Addr;
  ResolveRouteOnly : bool;
  SourceGeoIPCode : string;
  GeoIPCode : string;
  ProcessInfo_ : option ProcessInfo;
  QueryType : Z;
  FakeIP : bool;
  cache : RuleCache
}.

Definition NoCache : RuleCache := Build_RuleCache false false false false false false false false.

Definition InboundContextZero : InboundContext :=
  Build_InboundContext "" "" 0 "" SocksaddrZero SocksaddrZero "" "" "" "" "" [] None ""
    SocksaddrZero SocksaddrZero false false 0 false 0 false None [] [] 0 [] false "" "" None 0
    false NoCache.

(** ** Assignments to the fields of the context *)
Definition with_Inbound (v : string) (m : InboundContext) : InboundContext :=
  Build_InboundContext v (InboundType m) (IPVersion m) (Network m) (Source m) (Destination m)
    (User m) (Outbound m) (Protocol m) (Domain m) (Client m) (SnifferNames m) (SniffError m)
    (LastInbound m) (OriginDestination m) (RouteOriginalDestination m)
    (UDPDisableDomainUnmapping m) (UDPConnect m) (UDPTimeout m) (TLSFragment m)
    (TLSFragmentFallbackDelay m) (TLSRecordFragment m) (NetworkStrategy_ m) (NetworkType m)
    (FallbackNetworkType m) (FallbackDelay m) (DestinationAddresses m) (ResolveRouteOnly m)
    (SourceGeoIPCode m) (GeoIPCode m) (ProcessInfo_ m) (QueryType m) (FakeIP m) (cache m).
Definition with_IPVersion (v : Z) (m : InboundContext) : InboundContext :=
  Build_InboundContext (Inbound m) (InboundType m) v (Network m) (Source m) (Destination m)
    (User m) (Outbound m) (Protocol m) (Domain m) (Client m) (SnifferNames m) (SniffError m)
    (LastInbound m) (OriginDestination m) (RouteOriginalDestination m)
    (UDPDisableDomainUnmapping m) (UDPConnect m) (UDPTimeout m) (TLSFragment m)
    (TLSFragmentFallbackDelay m) (TLSRecordFragment m) (NetworkStrategy_ m) (NetworkType m)
    (FallbackNetworkType m) (FallbackDelay m) (DestinationAddresses m) (ResolveRouteOnly m)
    (SourceGeoIPCode m) (GeoIPCode m) (ProcessInfo_ m) (QueryType m) (FakeIP m) (cache m).
Definition with_Network (v : string) (m : InboundContext) : InboundContext :=
  Build_InboundContext (Inbound m) (InboundType m) (IPVersion m) v (Source m) (Destination m)
    (User m) (Outbound m) (Protocol m) (Domain m) (Client m) (SnifferNames m) (SniffError m)
    (LastInbound m) (OriginDestination m) (RouteOriginalDestination m)
    (UDPDisableDomainUnmapping m) (UDPConnect m) (UDPTimeout m) (TLSFragment m)
    (TLSFragmentFallbackDelay m) (TLSRecordFragment m) (NetworkStrategy_ m) (NetworkType m)
    (FallbackNetworkType m) (FallbackDelay m) (DestinationAddresses m) (ResolveRouteOnly m)
    (SourceGeoIPCode m) (GeoIPCode m) (ProcessInfo_ m) (QueryType m) (FakeIP m) (cache m).
Definition with_Destination (v : Socksaddr) (m : InboundContext) : InboundContext :=
  Build_InboundContext (Inbound m) (InboundType m) (IPVersion m) (Network m) (Source m) v (User
    m) (Outbound m) (Protocol m) (Domain m) (Client m) (SnifferNames m) (SniffError m)
    (LastInbound m) (OriginDestination m) (RouteOriginalDestination m)
    (UDPDisableDomainUnmapping m) (UDPConnect m) (UDPTimeout m) (TLSFragment m)
    (TLSFragmentFallbackDelay m) (TLSRecordFragment m) (NetworkStrategy_ m) (NetworkType m)
    (FallbackNetworkType m) (FallbackDelay m) (DestinationAddresses m) (ResolveRouteOnly m)
    (SourceGeoIPCode m) (GeoIPCode m) (ProcessInfo_ m) (QueryType m) (FakeIP m) (cache m).
Definition with_Domain (v : string) (m : InboundContext) : InboundContext :=
  Build_InboundContext (Inbound m) (InboundType m) (IPVersion m) (Network m) (Source m)
    (Destination m) (User m) (Outbound m) (Protocol m) v (Client m) (SnifferNames m) (SniffError
    m) (LastInbound m) (OriginDestination m) (RouteOriginalDestination m)
    (UDPDisableDomainUnmapping m) (UDPConnect m) (UDPTimeout m) (TLSFragment m)
    (TLSFragmentFallbackDelay m) (TLSRecordFragment m) (NetworkStrategy_ m) (NetworkType m)
    (FallbackNetworkType m) (FallbackDelay m) (DestinationAddresses m) (ResolveRouteOnly m)
    (SourceGeoIPCode m) (GeoIPCode m) (ProcessInfo_ m) (QueryType m) (FakeIP m) (cache m).
Definition with_SnifferNames (v : list string) (m : InboundContext) : InboundContext :=
  Build_InboundContext (Inbound m) (InboundType m) (IPVersion m) (Network m) (Source m)
    (Destination m) (User m) (Outbound m) (Protocol m) (Domain m) (Client m) v (SniffError m)
    (LastInbound m) (OriginDestination m) (RouteOriginalDestination m)
    (UDPDisableDomainUnmapping m) (UDPConnect m) (UDPTimeout m) (TLSFragment m)
    (TLSFragmentFallbackDelay m) (TLSRecordFragment m) (NetworkStrategy_ m) (NetworkType m)
    (FallbackNetworkType m) (FallbackDelay m) (DestinationAddresses m) (ResolveRouteOnly m)
    (SourceGeoIPCode m) (GeoIPCode m) (ProcessInfo_ m) (QueryType m) (FakeIP m) (cache m).
Definition with_SniffError (v : option error) (m : InboundContext) : InboundContext :=
  Build_InboundContext (Inbound m) (InboundType m) (IPVersion m) (Network m) (Source m)
    (Destination m) (User m) (Outbound m) (Protocol m) (Domain m) (Client m) (SnifferNames m) v
    (LastInbound m) (OriginDestination m) (RouteOriginalDestination m)
    (UDPDisableDomainUnmapping m) (UDPConnect m) (UDPTimeout m) (TLSFragment m)
    (TLSFragmentFallbackDelay m) (TLSRecordFragment m) (NetworkStrategy_ m) (NetworkType m)
    (FallbackNetworkType m) (FallbackDelay m) (DestinationAddresses m) (ResolveRouteOnly m)
    (SourceGeoIPCode m) (GeoIPCode m) (ProcessInfo_ m) (QueryType m) (FakeIP m) (cache m).
Definition with_LastInbound (v : string) (m : InboundContext) : InboundContext :=
  Build_InboundContext (Inbound m) (InboundType m) (IPVersion m) (Network m) (Source m)
    (Destination m) (User m) (Outbound m) (Protocol m) (Domain m) (Client m) (SnifferNames m)
    (SniffError m) v (OriginDestination m) (RouteOriginalDestination m)
    (UDPDisableDomainUnmapping m) (UDPConnect m) (UDPTimeout m) (TLSFragment m)
    (TLSFragmentFallbackDelay m) (TLSRecordFragment m) (NetworkStrategy_ m) (NetworkType m)
    (FallbackNetworkType m) (FallbackDelay m) (DestinationAddresses m) (ResolveRouteOnly m)
    (SourceGeoIPCode m) (GeoIPCode m) (ProcessInfo_ m) (QueryType m) (FakeIP m) (cache m).
Definition with_OriginDestination (v : Socksaddr) (m : InboundContext) : InboundContext :=
  Build_InboundContext (Inbound m) (InboundType m) (IPVersion m) (Network m) (Source m)
    (Destination m) (User m) (Outbound m) (Protocol m) (Domain m) (Client m) (SnifferNames m)
    (SniffError m) (LastInbound m) v (RouteOriginalDestination m) (UDPDisableDomainUnmapping m)
    (UDPConnect m) (UDPTimeout m) (TLSFragment m) (TLSFragmentFallbackDelay m)
    (TLSRecordFragment m) (NetworkStrategy_ m) (NetworkType m) (FallbackNetworkType m)
    (FallbackDelay m) (DestinationAddresses m) (ResolveRouteOnly m) (SourceGeoIPCode m)
    (GeoIPCode m) (ProcessInfo_ m) (QueryType m) (FakeIP m) (cache m).
Definition with_RouteOriginalDestination (v : Socksaddr) (m : InboundContext) : InboundContext :=
  Build_InboundContext (Inbound m) (InboundType m) (IPVersion m) (Network m) (Source m)
    (Destination m) (User m) (Outbound m) (Protocol m) (Domain m) (Client m) (SnifferNames m)
    (SniffError m) (LastInbound m) (OriginDestination m) v (UDPDisableDomainUnmapping m)
    (UDPConnect m) (UDPTimeout m) (TLSFragment m) (TLSFragmentFallbackDelay m)
    (TLSRecordFragment m) (NetworkStrategy_ m) (NetworkType m) (FallbackNetworkType m)
    (FallbackDelay m) (DestinationAddresses m) (ResolveRouteOnly m) (SourceGeoIPCode m)
    (GeoIPCode m) (ProcessInfo_ m) (QueryType m) (FakeIP m) (cache m).
Definition with_UDPDisableDomainUnmapping (v : bool) (m : InboundContext) : InboundContext :=
  Build_InboundContext (Inbound m) (InboundType m) (IPVersion m) (Network m) (Source m)
    (Destination m) (User m) (Outbound m) (Protocol m) (Domain m) (Client m) (SnifferNames m)
    (SniffError m) (LastInbound m) (OriginDestination m) (RouteOriginalDestination m) v
    (UDPConnect m) (UDPTimeout m) (TLSFragment m) (TLSFragmentFallbackDelay m)
    (TLSRecordFragment m) (NetworkStrategy_ m) (NetworkType m) (FallbackNetworkType m)
    (FallbackDelay m) (DestinationAddresses m) (ResolveRouteOnly m) (SourceGeoIPCode m)
    (GeoIPCode m) (ProcessInfo_ m) (QueryType m) (FakeIP m) (cache m).
Definition with_UDPConnect (v : bool) (m : InboundContext) : InboundContext :=
  Build_InboundContext (Inbound m) (InboundType m) (IPVersion m) (Network m) (Source m)
    (Destination m) (User m) (Outbound m) (Protocol m) (Domain m) (Client m) (SnifferNames m)
    (SniffError m) (LastInbound m) (OriginDestination m) (RouteOriginalDestination m)
    (UDPDisableDomainUnmapping m) v (UDPTimeout m) (TLSFragment m) (TLSFragmentFallbackDelay m)
    (TLSRecordFragment m) (NetworkStrategy_ m) (NetworkType m) (FallbackNetworkType m)
    (FallbackDelay m) (DestinationAddresses m) (ResolveRouteOnly m) (SourceGeoIPCode m)
    (GeoIPCode m) (ProcessInfo_ m) (QueryType m) (FakeIP m) (cache m).
Definition with_UDPTimeout (v : Z) (m : InboundContext) : InboundContext :=
  Build_InboundContext (Inbound m) (InboundType m) (IPVersion m) (Network m) (Source m)
    (Destination m) (User m) (Outbound m) (Protocol m) (Domain m) (Client m) (SnifferNames m)
    (SniffError m) (LastInbound m) (OriginDestination m) (RouteOriginalDestination m)
    (UDPDisableDomainUnmapping m) (UDPConnect m) v (TLSFragment m) (TLSFragmentFallbackDelay m)
    (TLSRecordFragment m) (NetworkStrategy_ m) (NetworkType m) (FallbackNetworkType m)
    (FallbackDelay m) (DestinationAddresses m) (ResolveRouteOnly m) (SourceGeoIPCode m)
    (GeoIPCode m) (ProcessInfo_ m) (QueryType m) (FakeIP m) (cache m).
Definition with_TLSFragment (v : bool) (m : InboundContext) : InboundContext :=
  Build_InboundContext (Inbound m) (InboundType m) (IPVersion m) (Network m) (Source m)
    (Destination m) (User m) (Outbound m) (Protocol m) (Domain m) (Client m) (SnifferNames m)
    (SniffError m) (LastInbound m) (OriginDestination m) (RouteOriginalDestination m)
    (UDPDisableDomainUnmapping m) (UDPConnect m) (UDPTimeout m) v (TLSFragmentFallbackDelay m)
    (TLSRecordFragment m) (NetworkStrategy_ m) (NetworkType m) (FallbackNetworkType m)
    (FallbackDelay m) (DestinationAddresses m) (ResolveRouteOnly m) (SourceGeoIPCode m)
    (GeoIPCode m) (ProcessInfo_ m) (QueryType m) (FakeIP m) (cache m).
Definition with_TLSFragmentFallbackDelay (v : Z) (m : InboundContext) : InboundContext :=
  Build_InboundContext (Inbound m) (InboundType m) (IPVersion m) (Network m) (Source m)
    (Destination m) (User m) (Outbound m) (Protocol m) (Domain m) (Client m) (SnifferNames m)
    (SniffError m) (LastInbound m) (OriginDestination m) (RouteOriginalDestination m)
    (UDPDisableDomainUnmapping m) (UDPConnect m) (UDPTimeout m) (TLSFragment m) v
    (TLSRecordFragment m) (NetworkStrategy_ m) (NetworkType m) (FallbackNetworkType m)
    (FallbackDelay m) (DestinationAddresses m) (ResolveRouteOnly m) (SourceGeoIPCode m)
    (GeoIPCode m) (ProcessInfo_ m) (QueryType m) (FakeIP m) (cache m).
Definition with_TLSRecordFragment (v : bool) (m : InboundContext) : InboundContext :=
  Build_InboundContext (Inbound m) (InboundType m) (IPVersion m) (Network m) (Source m)
    (Destination m) (User m) (Outbound m) (Protocol m) (Domain m) (Client m) (SnifferNames m)
    (SniffError m) (LastInbound m) (OriginDestination m) (RouteOriginalDestination m)
    (UDPDisableDomainUnmapping m) (UDPConnect m) (UDPTimeout m) (TLSFragment m)
    (TLSFragmentFallbackDelay m) v (NetworkStrategy_ m) (NetworkType m) (FallbackNetworkType m)
    (FallbackDelay m) (DestinationAddresses m) (ResolveRouteOnly m) (SourceGeoIPCode m)
    (GeoIPCode m) (ProcessInfo_ m) (QueryType m) (FakeIP m) (cache m).
Definition with_NetworkStrategy (v : option NetworkStrategy) (m : InboundContext) : InboundContext :=
  Build_InboundContext (Inbound m) (InboundType m) (IPVersion m) (Network m) (Source m)
    (Destination m) (User m) (Outbound m) (Protocol m) (Domain m) (Client m) (SnifferNames m)
    (SniffError m) (LastInbound m) (OriginDestination m) (RouteOriginalDestination m)
    (UDPDisableDomainUnmapping m) (UDPConnect m) (UDPTimeout m) (TLSFragment m)
    (TLSFragmentFallbackDelay m) (TLSRecordFragment m) v (NetworkType m) (FallbackNetworkType m)
    (FallbackDelay m) (DestinationAddresses m) (ResolveRouteOnly m) (SourceGeoIPCode m)
    (GeoIPCode m) (ProcessInfo_ m) (QueryType m) (FakeIP m) (cache m).
Definition with_NetworkType (v : list InterfaceType) (m : InboundContext) : InboundContext :=
  Build_InboundContext (Inbound m) (InboundType m) (IPVersion m) (Network m) (Source m)
    (Destination m) (User m) (Outbound m) (Protocol m) (Domain m) (Client m) (SnifferNames m)
    (SniffError m) (LastInbound m) (OriginDestination m) (RouteOriginalDestination m)
    (UDPDisableDomainUnmapping m) (UDPConnect m) (UDPTimeout m) (TLSFragment m)
    (TLSFragmentFallbackDelay m) (TLSRecordFragment m) (NetworkStrategy_ m) v
    (FallbackNetworkType m) (FallbackDelay m) (DestinationAddresses m) (ResolveRouteOnly m)
    (SourceGeoIPCode m) (GeoIPCode m) (ProcessInfo_ m) (QueryType m) (FakeIP m) (cache m).
Definition with_FallbackNetworkType (v : list InterfaceType) (m : InboundContext) : InboundContext :=
  Build_InboundContext (Inbound m) (InboundType m) (IPVersion m) (Network m) (Source m)
    (Destination m) (User m) (Outbound m) (Protocol m) (Domain m) (Client m) (SnifferNames m)
    (SniffError m) (LastInbound m) (OriginDestination m) (RouteOriginalDestination m)
    (UDPDisableDomainUnmapping m) (UDPConnect m) (UDPTimeout m) (TLSFragment m)
    (TLSFragmentFallbackDelay m) (TLSRecordFragment m) (NetworkStrategy_ m) (NetworkType m) v
    (FallbackDelay m) (DestinationAddresses m) (ResolveRouteOnly m) (SourceGeoIPCode m)
    (GeoIPCode m) (ProcessInfo_ m) (QueryType m) (FakeIP m) (cache m).
Definition with_FallbackDelay (v : Z) (m : InboundContext) : InboundContext :=
  Build_InboundContext (Inbound m) (InboundType m) (IPVersion m) (Network m) (Source m)
    (Destination m) (User m) (Outbound m) (Protocol m) (Domain m) (Client m) (SnifferNames m)
    (SniffError m) (LastInbound m) (OriginDestination m) (RouteOriginalDestination m)
    (UDPDisableDomainUnmapping m) (UDPConnect m) (UDPTimeout m) (TLSFragment m)
    (TLSFragmentFallbackDelay m) (TLSRecordFragment m) (NetworkStrategy_ m) (NetworkType m)
    (FallbackNetworkType m) v (DestinationAddresses m) (ResolveRouteOnly m) (SourceGeoIPCode m)
    (GeoIPCode m) (ProcessInfo_ m) (QueryType m) (FakeIP m) (cache m).
Definition with_DestinationAddresses (v : list Addr) (m : InboundContext) : InboundContext :=
  Build_InboundContext (Inbound m) (InboundType m) (IPVersion m) (Network m) (Source m)
    (Destination m) (User m) (Outbound m) (Protocol m) (Domain m) (Client m) (SnifferNames m)
    (SniffError m) (LastInbound m) (OriginDestination m) (RouteOriginalDestination m)
    (UDPDisableDomainUnmapping m) (UDPConnect m) (UDPTimeout m) (TLSFragment m)
    (TLSFragmentFallbackDelay m) (TLSRecordFragment m) (NetworkStrategy_ m) (NetworkType m)
    (FallbackNetworkType m) (FallbackDelay m) v (ResolveRouteOnly m) (SourceGeoIPCode m)
    (GeoIPCode m) (ProcessInfo_ m) (QueryType m) (FakeIP m) (cache m).
Definition with_ResolveRouteOnly (v : bool) (m : InboundContext) : InboundContext :=
  Build_InboundContext (Inbound m) (InboundType m) (IPVersion m) (Network m) (Source m)
    (Destination m) (User m) (Outbound m) (Protocol m) (Domain m) (Client m) (SnifferNames m)
    (SniffError m) (LastInbound m) (OriginDestination m) (RouteOriginalDestination m)
    (UDPDisableDomainUnmapping m) (UDPConnect m) (UDPTimeout m) (TLSFragment m)
    (TLSFragmentFallbackDelay m) (TLSRecordFragment m) (NetworkStrategy_ m) (NetworkType m)
    (FallbackNetworkType m) (FallbackDelay m) (DestinationAddresses m) v (SourceGeoIPCode m)
    (GeoIPCode m) (ProcessInfo_ m) (QueryType m) (FakeIP m) (cache m).
Definition with_ProcessInfo (v : option ProcessInfo) (m : InboundContext) : InboundContext :=
  Build_InboundContext (Inbound m) (InboundType m) (IPVersion m) (Network m) (Source m)
    (Destination m) (User m) (Outbound m) (Protocol m) (Domain m) (Client m) (SnifferNames m)
    (SniffError m) (LastInbound m) (OriginDestination m) (RouteOriginalDestination m)
    (UDPDisableDomainUnmapping m) (UDPConnect m) (UDPTimeout m) (TLSFragment m)
    (TLSFragmentFallbackDelay m) (TLSRecordFragment m) (NetworkStrategy_ m) (NetworkType m)
    (FallbackNetworkType m) (FallbackDelay m) (DestinationAddresses m) (ResolveRouteOnly m)
    (SourceGeoIPCode m) (GeoIPCode m) v (QueryType m) (FakeIP m) (cache m).
Definition with_QueryType (v : Z) (m : InboundContext) : InboundContext :=
  Build_InboundContext (Inbound m) (InboundType m) (IPVersion m) (Network m) (Source m)
    (Destination m) (User m) (Outbound m) (Protocol m) (Domain m) (Client m) (SnifferNames m)
    (SniffError m) (LastInbound m) (OriginDestination m) (RouteOriginalDestination m)
    (UDPDisableDomainUnmapping m) (UDPConnect m) (UDPTimeout m) (TLSFragment m)
    (TLSFragmentFallbackDelay m) (TLSRecordFragment m) (NetworkStrategy_ m) (NetworkType m)
    (FallbackNetworkType m) (FallbackDelay m) (DestinationAddresses m) (ResolveRouteOnly m)
    (SourceGeoIPCode m) (GeoIPCode m) (ProcessInfo_ m) v (FakeIP m) (cache m).
Definition with_FakeIP (v : bool) (m : InboundContext) : InboundContext :=
  Build_InboundContext (Inbound m) (InboundType m) (IPVersion m) (Network m) (Source m)
    (Destination m) (User m) (Outbound m) (Protocol m) (Domain m) (Client m) (SnifferNames m)
    (SniffError m) (LastInbound m) (OriginDestination m) (RouteOriginalDestination m)
    (UDPDisableDomainUnmapping m) (UDPConnect m) (UDPTimeout m) (TLSFragment m)
    (TLSFragmentFallbackDelay m) (TLSRecordFragment m) (NetworkStrategy_ m) (NetworkType m)
    (FallbackNetworkType m) (FallbackDelay m) (DestinationAddresses m) (ResolveRouteOnly m)
    (SourceGeoIPCode m) (GeoIPCode m) (ProcessInfo_ m) (QueryType m) v (cache m).
Definition with_Protocol (v : string) (m : InboundContext) : InboundContext :=
  Build_InboundContext (Inbound m) (InboundType m) (IPVersion m) (Network m) (Source m)
    (Destination m) (User m) (Outbound m) v (Domain m) (Client m) (SnifferNames m) (SniffError
    m) (LastInbound m) (OriginDestination m) (RouteOriginalDestination m)
    (UDPDisableDomainUnmapping m) (UDPConnect m) (UDPTimeout m) (TLSFragment m)
    (TLSFragmentFallbackDelay m) (TLSRecordFragment m) (NetworkStrategy_ m) (NetworkType m)
    (FallbackNetworkType m) (FallbackDelay m) (DestinationAddresses m) (ResolveRouteOnly m)
    (SourceGeoIPCode m) (GeoIPCode m) (ProcessInfo_ m) (QueryType m) (FakeIP m) (cache m).
Definition with_Client (v : string) (m : InboundContext) : InboundContext :=
  Build_InboundContext (Inbound m) (InboundType m) (IPVersion m) (Network m) (Source m)
    (Destination m) (User m) (Outbound m) (Protocol m) (Domain m) v (SnifferNames m) (SniffError
    m) (LastInbound m) (OriginDestination m) (RouteOriginalDestination m)
    (UDPDisableDomainUnmapping m) (UDPConnect m) (UDPTimeout m) (TLSFragment m)
    (TLSFragmentFallbackDelay m) (TLSRecordFragment m) (NetworkStrategy_ m) (NetworkType m)
    (FallbackNetworkType m) (FallbackDelay m) (DestinationAddresses m) (ResolveRouteOnly m)
    (SourceGeoIPCode m) (GeoIPCode m) (ProcessInfo_ m) (QueryType m) (FakeIP m) (cache m).

(** Writing to the cache flags of the context. *)
Definition set_cache (c : RuleCache) (m : InboundContext) : InboundContext :=
  {| Inbound := Inbound m; InboundType := InboundType m; IPVersion := IPVersion m;
     Network := Network m; Source := Source m; Destination := Destination m; User := User m;
     Outbound := Outbound m; Protocol := Protocol m; Domain := Domain m; Client := Client m;
     SnifferNames := SnifferNames m; SniffError := SniffError m; LastInbound := LastInbound m;
     OriginDestination := OriginDestination m;
     RouteOriginalDestination := RouteOriginalDestination m;
     UDPDisableDomainUnmapping := UDPDisableDomainUnmapping m; UDPConnect := UDPConnect m;
     UDPTimeout := UDPTimeout m; TLSFragment := TLSFragment m;
     TLSFragmentFallbackDelay := TLSFragmentFallbackDelay m;
     TLSRecordFragment := TLSRecordFragment m; NetworkStrategy_ := NetworkStrategy_ m;
     NetworkType := NetworkType m; FallbackNetworkType := FallbackNetworkType m;
     FallbackDelay := FallbackDelay m; DestinationAddresses := DestinationAddresses m;
     ResolveRouteOnly := ResolveRouteOnly m; SourceGeoIPCode := SourceGeoIPCode m;
     GeoIPCode := GeoIPCode m; ProcessInfo_ := ProcessInfo_ m; QueryType := QueryType m;
     FakeIP := FakeIP m; cache := c |}.

Definition upd_cache (f : RuleCache -> RuleCache) (m : InboundContext) : InboundContext :=
  set_cache (f (cache m)) m.

Definition set_SourceAddressMatch (b : bool) (c : RuleCache) : RuleCache :=
  Build_RuleCache (IPCIDRMatchSource c) (IPCIDRAcceptEmpty c) b (SourcePortMatch c)
    (DestinationAddressMatch c) (DestinationPortMatch c) (DidMatch c) (IgnoreDestinationIPCIDRMatch c).
Definition set_SourcePortMatch (b : bool) (c : RuleCache) : RuleCache :=
  Build_RuleCache (IPCIDRMatchSource c) (IPCIDRAcceptEmpty c) (SourceAddressMatch c) b
    (DestinationAddressMatch c) (DestinationPortMatch c) (DidMatch c) (IgnoreDestinationIPCIDRMatch c).
Definition set_DestinationAddressMatch (b : bool) (c : RuleCache) : RuleCache :=
  Build_RuleCache (IPCIDRMatchSource c) (IPCIDRAcceptEmpty c) (SourceAddressMatch c)
    (SourcePortMatch c) b (DestinationPortMatch c) (DidMatch c) (IgnoreDestinationIPCIDRMatch c).
Definition set_DestinationPortMatch (b : bool) (c : RuleCache) : RuleCache :=
  Build_RuleCache (IPCIDRMatchSource c) (IPCIDRAcceptEmpty c) (SourceAddressMatch c)
    (SourcePortMatch c) (DestinationAddressMatch c) b (DidMatch c) (IgnoreDestinationIPCIDRMatch c).
Definition set_DidMatch (b : bool) (c : RuleCache) : RuleCache :=
  Build_RuleCache (IPCIDRMatchSource c) (IPCIDRAcceptEmpty c) (SourceAddressMatch c)
    (SourcePortMatch c) (DestinationAddressMatch c) (DestinationPortMatch c) b
    (IgnoreDestinationIPCIDRMatch c).
Definition set_Ignore (b : bool) (c : RuleCache) : RuleCache :=
  Build_RuleCache (IPCIDRMatchSource c) (IPCIDRAcceptEmpty c) (SourceAddressMatch c)
    (SourcePortMatch c) (DestinationAddressMatch c) (DestinationPortMatch c) (DidMatch c) b.
Definition set_IPCIDR (src empty : bool) (c : RuleCache) : RuleCache :=
  Build_RuleCache src empty (SourceAddressMatch c) (SourcePortMatch c)
    (DestinationAddressMatch c) (DestinationPortMatch c) (DidMatch c) (IgnoreDestinationIPCIDRMatch c).

(** [InboundContext.ResetRuleCache]: everything but
    [IgnoreDestinationIPCIDRMatch]. *)
Definition ResetRuleCache (m : InboundContext) : InboundContext :=
  upd_cache (fun c => Build_RuleCache false false false false false false false
                        (IgnoreDestinationIPCIDRMatch c)) m.

(** Computes nested flag writes on an explicit cache record. *)
Ltac cbv_cache :=
  cbv [set_SourceAddressMatch set_SourcePortMatch set_DestinationAddressMatch
       set_DestinationPortMatch set_DidMatch set_Ignore set_IPCIDR
       IPCIDRMatchSource IPCIDRAcceptEmpty SourceAddressMatch SourcePortMatch
       DestinationAddressMatch DestinationPortMatch DidMatch IgnoreDestinationIPCIDRMatch].

(** Two contexts that differ at most in their rule cache. *)
Definition same_request (m m' : InboundContext) : Prop := set_cache NoCache m = set_cache NoCache m'.

#[global] Instance same_request_equiv : Equivalence same_request.
Proof. unfold same_request. split; [done|by intros ??|]. intros ?????. by etrans. Qed.

Lemma set_cache_set_cache c c' m : set_cache c (set_cache c' m) = set_cache c m.
Proof. done. Qed.

Lemma set_cache_id m : set_cache (cache m) m = m.
Proof. by destruct m. Qed.

Lemma upd_cache_same f m : f (cache m) = cache m -> upd_cache f m = m.
Proof. intros Hf. unfold upd_cache. by rewrite Hf, set_cache_id. Qed.

Lemma upd_cache_ext f g m : f (cache m) = g (cache m) -> upd_cache f m = upd_cache g m.
Proof. intros Hf. unfold upd_cache. by rewrite Hf. Qed.

Lemma set_DidMatch_id c : set_DidMatch (DidMatch c) c = c.
Proof. by destruct c. Qed.

Lemma same_request_set_cache c m : same_request m (set_cache c m).
Proof. done. Qed.

Lemma same_request_upd f m : same_request m (upd_cache f m).
Proof. done. Qed.

Lemma same_request_upd_l f m m' : same_request m m' -> same_request m (upd_cache f m').
Proof. done. Qed.

Lemma same_request_alt m m' : same_request m m' <-> m' = set_cache (cache m') m.
Proof.
  split.
  - intros H. rewrite <- (set_cache_id m') at 1.
    by rewrite <- (set_cache_set_cache _ NoCache m'), <- H.
  - by intros ->.
Qed.

Lemma same_request_inv m m' : same_request m m' -> exists c, m' = set_cache c m.
Proof. intros Hr. exists (cache m'). by apply same_request_alt. Qed.

#[export] Hint Resolve same_request_set_cache same_request_upd same_request_upd_l : box.

(** ** What the rules read from the running host *)

Record NetworkInterface : Type := {
  ni_Type : InterfaceType; ni_Expensive : bool; ni_Constrained : bool }.

Record Host : Type := {
  (** [NetworkManager.DefaultNetworkInterface()], nil when there is none *)
  DefaultNetworkInterface : option NetworkInterface;
  (** [NetworkManager.WIFIState()] *)
  WIFIState_SSID : string;
  WIFIState_BSSID : string;
  (** [ClashServer.Mode()], nil when the Clash API is not running *)
  ClashMode : option string
}.
