(* ===== verification/RuleItem.v ===== *)
(** * route/rule: the rule items

    One record per item type of route/rule/rule_item_*.go, with its
    constructor, its [Match] and its [String].  Go's [map[T]bool] used as a set
    is a [gmap T bool] read with the zero value for absent keys.  [RuleItem]
    is the sum of the item types that do not refer to other rules; the
    rule-set item is in RuleTree.v. *)

From stdpp Require Import base list strings gmap.
From Stdlib Require Import ZArith Lia.
From S2P Require Import Prelude GoStd External Adapter.

Open Scope Z_scope.

(** ** Sets kept as maps *)

Section bool_map.
Context {K : Type} `{Countable K}.

Definition bool_map (l : list K) : gmap K bool := fold_left (fun m k => <[k:=true]> m) l ∅.
Definition map_get (m : gmap K bool) (k : K) : bool := default false (m !! k).

Lemma map_get_insert m k k' :
  map_get (<[k:=true]> m) k' = bool_decide (k = k') || map_get m k'.
Proof. unfold map_get. rewrite lookup_insert. by case_decide; case_bool_decide. Qed.

Lemma map_get_fold l m k :
  map_get (fold_left (fun m k => <[k:=true]> m) l m) k = bool_decide (k ∈ l) || map_get m k.
Proof.
  revert m; induction l as [|x l IH]; intros m; simpl; [done|].
  rewrite IH, map_get_insert.
  repeat case_bool_decide; set_solver.
Qed.

Lemma map_get_bool_map l k : map_get (bool_map l) k = bool_decide (k ∈ l).
Proof. unfold bool_map. rewrite map_get_fold. unfold map_get. by rewrite lookup_empty, orb_false_r. Qed.
End bool_map.

#[export] Hint Rewrite @map_get_bool_map : box.

(** ** Descriptions: ["k=v"], ["k=[v1 v2]"] and the form cut after three *)

Definition describe_list (prefix : string) (l : list string) : string :=
  match l with
  | [x] => prefix +:+ x
  | _ => prefix +:+ "[" +:+ strings_Join l " " +:+ "]"
  end.

Definition describe_cut (prefix cut : string) (l : list string) : string :=
  match l with
  | [x] => prefix +:+ x
  | _ => if (3 <? length l)%nat
         then prefix +:+ "[" +:+ strings_Join (take 3 l) " " +:+ cut
         else prefix +:+ "[" +:+ strings_Join l " " +:+ "]"
  end.

(** ** Items on one string field *)

Record InboundItem := { ii_inbounds : list string; ii_inboundMap : gmap string bool }.
Definition NewInboundRule (inbounds : list string) : InboundItem :=
  {| ii_inbounds := inbounds; ii_inboundMap := bool_map inbounds |}.
Definition InboundItem_Match (r : InboundItem) (m : InboundContext) : bool :=
  map_get (ii_inboundMap r) (Inbound m).
Definition InboundItem_String (r : InboundItem) : string := describe_list "inbound=" (ii_inbounds r).

Record NetworkItem := { nwi_networks : list string; nwi_networkMap : gmap string bool }.
Definition NewNetworkItem (networks : list string) : NetworkItem :=
  {| nwi_networks := networks; nwi_networkMap := bool_map networks |}.
Definition NetworkItem_Match (r : NetworkItem) (m : InboundContext) : bool :=
  map_get (nwi_networkMap r) (Network m).
Definition NetworkItem_String (r : NetworkItem) : string := describe_list "network=" (nwi_networks r).

Record AuthUserItem := { aui_users : list string; aui_userMap : gmap string bool }.
Definition NewAuthUserItem (users : list string) : AuthUserItem :=
  {| aui_users := users; aui_userMap := bool_map users |}.
Definition AuthUserItem_Match (r : AuthUserItem) (m : InboundContext) : bool :=
  map_get (aui_userMap r) (User m).
Definition AuthUserItem_String (r : AuthUserItem) : string := describe_list "auth_user=" (aui_users r).

Record ProtocolItem := { pi_protocols : list string; pi_protocolMap : gmap string bool }.
Definition NewProtocolItem (protocols : list string) : ProtocolItem :=
  {| pi_protocols := protocols; pi_protocolMap := bool_map protocols |}.
Definition ProtocolItem_Match (r : ProtocolItem) (m : InboundContext) : bool :=
  map_get (pi_protocolMap r) (Protocol m).
Definition ProtocolItem_String (r : ProtocolItem) : string := describe_list "protocol=" (pi_protocols r).

Record ClientItem := { ci_clients : list string; ci_clientMap : gmap string bool }.
Definition NewClientItem (clients : list string) : ClientItem :=
  {| ci_clients := clients; ci_clientMap := bool_map clients |}.
Definition ClientItem_Match (r : ClientItem) (m : InboundContext) : bool :=
  map_get (ci_clientMap r) (Client m).
Definition ClientItem_String (r : ClientItem) : string := describe_list "client=" (ci_clients r).

(** ["any"] asks for the presence of an outbound and is not put in the map. *)
Record OutboundItem := {
  oi_outbounds : list string; oi_outboundMap : gmap string bool; oi_matchAny : bool }.
Definition OutboundItem_add (r : OutboundItem) (outbound : string) : OutboundItem :=
  if decide (outbound = "any")
  then {| oi_outbounds := oi_outbounds r; oi_outboundMap := oi_outboundMap r; oi_matchAny := true |}
  else {| oi_outbounds := oi_outbounds r; oi_outboundMap := <[outbound:=true]> (oi_outboundMap r);
          oi_matchAny := oi_matchAny r |}.
Definition NewOutboundRule (outbounds : list string) : OutboundItem :=
  fold_left OutboundItem_add outbounds
    {| oi_outbounds := outbounds; oi_outboundMap := ∅; oi_matchAny := false |}.
Definition OutboundItem_Match (r : OutboundItem) (m : InboundContext) : bool :=
  if oi_matchAny r then negb (bool_decide (Outbound m = ""))
  else map_get (oi_outboundMap r) (Outbound m).
Definition OutboundItem_String (r : OutboundItem) : string := describe_list "outbound=" (oi_outbounds r).

(** ** IP version, addresses and ports *)

Record IPVersionItem := { ivi_isIPv6 : bool }.
Definition NewIPVersionItem (isIPv6 : bool) : IPVersionItem := {| ivi_isIPv6 := isIPv6 |}.
Definition IPVersionItem_Match `{External} (r : IPVersionItem) (m : InboundContext) : bool :=
  (negb (IPVersion m =? 0) && eqb (IPVersion m =? 6) (ivi_isIPv6 r)) ||
  (IsIP (Destination m) && eqb (IsIPv6 (Destination m)) (ivi_isIPv6 r)).
Definition IPVersionItem_String (r : IPVersionItem) : string :=
  "ip_version=" +:+ (if ivi_isIPv6 r then "6" else "4").

Record IPCIDRItem `{External} := {
  ici_ipSet : IPSet; ici_isSource : bool; ici_description : string }.

Definition cidr_prefix (isSource : bool) : string :=
  if isSource then "source_ip_cidr=" else "ip_cidr=".

(** The builder loop: a prefix, or else an address, or else the error of the
    prefix parser. *)
Definition cidr_add (i : nat) (prefixString : string) : res (Prefix + Addr) :=
  match netip_ParsePrefix prefixString with
  | Ok prefix => Ok (inl prefix)
  | Err err =>
      match netip_ParseAddr prefixString with
      | Ok addr => Ok (inr addr)
      | _ => Err (ErrCause err ("parse [" +:+ go_itoa (Z.of_nat i) +:+ "]"))
      end
  | Panic s => Panic s
  end.

Definition NewIPCIDRItem `{External} (isSource : bool) (prefixStrings : list string) : res IPCIDRItem :=
  let* items := res_mapi cidr_add 0 prefixStrings in
  let* ipSet := IPSetBuilder_IPSet items in
  Ok {| ici_ipSet := ipSet; ici_isSource := isSource;
        ici_description := describe_cut (cidr_prefix isSource) "...]" prefixStrings |}.

Definition NewRawIPCIDRItem `{External} (isSource : bool) (ipSet : IPSet) : IPCIDRItem :=
  {| ici_ipSet := ipSet; ici_isSource := isSource;
     ici_description := cidr_prefix isSource +:+ "<binary>" |}.

Definition IPCIDRItem_Match `{External} (r : IPCIDRItem) (m : InboundContext) : bool :=
  if ici_isSource r || IPCIDRMatchSource (cache m) then
    IPSet_Contains (ici_ipSet r) (sa_Addr (Source m))
  else if IsIP (Destination m) then
    IPSet_Contains (ici_ipSet r) (sa_Addr (Destination m))
  else if (0 <? length (DestinationAddresses m))%nat then
    existsb (IPSet_Contains (ici_ipSet r)) (DestinationAddresses m)
  else IPCIDRAcceptEmpty (cache m).
Definition IPCIDRItem_String `{External} (r : IPCIDRItem) : string := ici_description r.

Record IPIsPrivateItem := { ipi_isSource : bool }.
Definition NewIPIsPrivateItem (isSource : bool) : IPIsPrivateItem := {| ipi_isSource := isSource |}.
Definition IPIsPrivateItem_Match `{External} (r : IPIsPrivateItem) (m : InboundContext) : bool :=
  let destination := if ipi_isSource r then sa_Addr (Source m) else sa_Addr (Destination m) in
  if Addr_IsValid destination then negb (IsPublicAddr destination)
  else if negb (ipi_isSource r) then
    existsb (fun a => negb (IsPublicAddr a)) (DestinationAddresses m)
  else false.
Definition IPIsPrivateItem_String (r : IPIsPrivateItem) : string :=
  if ipi_isSource r then "source_ip_is_private=true" else "ip_is_private=true".

Definition IPAcceptAnyItem_Match (m : InboundContext) : bool :=
  (0 <? length (DestinationAddresses m))%nat.
Definition IPAcceptAnyItem_String : string := "ip_accept_any=true".

Record PortItem := { pti_ports : list Z; pti_portMap : gmap Z bool; pti_isSource : bool }.
Definition NewPortItem (isSource : bool) (ports : list Z) : PortItem :=
  {| pti_ports := ports; pti_portMap := bool_map ports; pti_isSource := isSource |}.
Definition PortItem_Match (r : PortItem) (m : InboundContext) : bool :=
  if pti_isSource r then map_get (pti_portMap r) (sa_Port (Source m))
  else map_get (pti_portMap r) (sa_Port (Destination m)).
Definition PortItem_String (r : PortItem) : string :=
  describe_list (if pti_isSource r then "source_port=" else "port=") (map go_itoa (pti_ports r)).

Record rangeItem := { ri_start : Z; ri_end : Z }.
Record PortRangeItem := {
  pri_isSource : bool; pri_portRanges : list string; pri_portRangeList : list rangeItem }.

Definition ErrBadPortRange : error := ErrNew "bad port range".

(** One turn of the loop of [NewPortRangeItem]. *)
Definition parse_port_range (_ : nat) (portRange : string) : res rangeItem :=
  match strings_Index portRange ":" with
  | None => Err (ErrExtend ErrBadPortRange portRange)
  | Some subIndex =>
      let bad {A} (r : res A) : res A :=
        match r with
        | Err err => Err (ErrCauseErr err (ErrExtend ErrBadPortRange portRange))
        | r => r
        end in
      let* start := (if (0 <? subIndex)%nat
                     then bad (strconv_ParseUint (str_take subIndex portRange) 16) else Ok 0) in
      let* end_ := (if (subIndex =? String.length portRange - 1)%nat then Ok 65535
                    else bad (strconv_ParseUint (str_drop (S subIndex) portRange) 16)) in
      Ok {| ri_start := start; ri_end := end_ |}
  end.

Definition NewPortRangeItem (isSource : bool) (rangeList : list string) : res PortRangeItem :=
  let* portRangeList := res_mapi parse_port_range 0 rangeList in
  Ok {| pri_isSource := isSource; pri_portRanges := rangeList;
        pri_portRangeList := portRangeList |}.

Definition PortRangeItem_Match (r : PortRangeItem) (m : InboundContext) : bool :=
  let port := if pri_isSource r then sa_Port (Source m) else sa_Port (Destination m) in
  existsb (fun pr => (ri_start pr <=? port) && (port <=? ri_end pr)) (pri_portRangeList r).
Definition PortRangeItem_String (r : PortRangeItem) : string :=
  describe_list (if pri_isSource r then "source_port_range=" else "port_range=") (pri_portRanges r).

(** ** Items on the destination domain *)

(** The host name the domain items look at: the sniffed or queried domain,
    else the domain of the destination. *)
Definition domain_host (m : InboundContext) : string :=
  if decide (Domain m = "") then sa_Fqdn (Destination m) else Domain m.

Record DomainItem `{External} := { di_matcher : Matcher; di_description : string }.

Definition domain_description (domains suffixes : list string) : string :=
  let d := match domains with [] => "" | _ => describe_cut "domain=" "...]" domains end in
  match suffixes with
  | [] => d
  | _ => (if decide (d = "") then "" else d +:+ " ") +:+
         describe_cut "domain_suffix=" "...]" suffixes
  end.

Definition NewDomainItem `{External} (domains suffixes : list string) : res DomainItem :=
  if existsb (fun s => bool_decide (s = "")) domains then
    Err (ErrNew "domain: empty item is not allowed")
  else if existsb (fun s => bool_decide (s = "")) suffixes then
    Err (ErrNew "domain_suffix: empty item is not allowed")
  else Ok {| di_matcher := NewMatcher domains suffixes false;
             di_description := domain_description domains suffixes |}.

Definition NewRawDomainItem `{External} (matcher : Matcher) : DomainItem :=
  {| di_matcher := matcher; di_description := "domain/domain_suffix=<binary>" |}.

Definition DomainItem_Match `{External} (r : DomainItem) (m : InboundContext) : bool :=
  let host := domain_host m in
  if decide (host = "") then false else Matcher_Match (di_matcher r) (ToLower host).
Definition DomainItem_String `{External} (r : DomainItem) : string := di_description r.

Record AdGuardDomainItem `{External} := { agi_matcher : AdGuardMatcher }.
Definition NewAdGuardDomainItem `{External} (ruleLines : list string) : AdGuardDomainItem :=
  {| agi_matcher := NewAdGuardMatcher ruleLines |}.
Definition NewRawAdGuardDomainItem `{External} (matcher : AdGuardMatcher) : AdGuardDomainItem :=
  {| agi_matcher := matcher |}.
Definition AdGuardDomainItem_Match `{External} (r : AdGuardDomainItem) (m : InboundContext) : bool :=
  let host := domain_host m in
  if decide (host = "") then false else AdGuardMatcher_Match (agi_matcher r) (ToLower host).
Definition AdGuardDomainItem_String : string := "!adguard_domain_rules=<binary>".

Record DomainKeywordItem := { dki_keywords : list string }.
Definition NewDomainKeywordItem (keywords : list string) : DomainKeywordItem :=
  {| dki_keywords := keywords |}.
Definition DomainKeywordItem_Match `{External} (r : DomainKeywordItem) (m : InboundContext) : bool :=
  let host := domain_host m in
  if decide (host = "") then false
  else existsb (strings_Contains (ToLower host)) (dki_keywords r).
Definition DomainKeywordItem_String (r : DomainKeywordItem) : string :=
  describe_cut "domain_keyword=" "...]" (dki_keywords r).

Definition compile_regex `{External} (i : nat) (regex : string) : res Regexp :=
  res_cause ("parse expression " +:+ go_itoa (Z.of_nat i)) (regexp_Compile regex).

Record DomainRegexItem `{External} := { dri_matchers : list Regexp; dri_description : string }.
Definition NewDomainRegexItem `{External} (expressions : list string) : res DomainRegexItem :=
  let* matchers := res_mapi compile_regex 0 expressions in
  Ok {| dri_matchers := matchers; dri_description := describe_cut "domain_regex=" "]" expressions |}.
Definition DomainRegexItem_Match `{External} (r : DomainRegexItem) (m : InboundContext) : bool :=
  let host := domain_host m in
  if decide (host = "") then false
  else existsb (fun matcher => MatchString matcher (ToLower host)) (dri_matchers r).
Definition DomainRegexItem_String `{External} (r : DomainRegexItem) : string := dri_description r.

(** ** Items on the local process *)

(** Items that need [metadata.ProcessInfo]: no match when it is nil. *)
Definition with_process (m : InboundContext) (f : ProcessInfo -> bool) : bool :=
  match ProcessInfo_ m with None => false | Some info => f info end.

Record ProcessItem := { pci_processes : list string; pci_processMap : gmap string bool }.
Definition NewProcessItem (processNameList : list string) : ProcessItem :=
  {| pci_processes := processNameList; pci_processMap := bool_map processNameList |}.
Definition ProcessItem_Match (r : ProcessItem) (m : InboundContext) : bool :=
  with_process m (fun info =>
    if decide (ProcessPath info = "") then false
    else map_get (pci_processMap r) (filepath_Base (ProcessPath info))).
Definition ProcessItem_String (r : ProcessItem) : string := describe_list "process_name=" (pci_processes r).

Record ProcessPathItem := { ppi_processes : list string; ppi_processMap : gmap string bool }.
Definition NewProcessPathItem (processNameList : list string) : ProcessPathItem :=
  {| ppi_processes := processNameList; ppi_processMap := bool_map processNameList |}.
Definition ProcessPathItem_Match (r : ProcessPathItem) (m : InboundContext) : bool :=
  with_process m (fun info =>
    if decide (ProcessPath info = "") then false
    else map_get (ppi_processMap r) (ProcessPath info)).
Definition ProcessPathItem_String (r : ProcessPathItem) : string :=
  describe_list "process_path=" (ppi_processes r).

Record ProcessPathRegexItem `{External} := {
  ppri_matchers : list Regexp; ppri_description : string }.
Definition NewProcessPathRegexItem `{External} (expressions : list string) : res ProcessPathRegexItem :=
  let* matchers := res_mapi compile_regex 0 expressions in
  Ok {| ppri_matchers := matchers;
        ppri_description := describe_cut "process_path_regex=" "]" expressions |}.
Definition ProcessPathRegexItem_Match `{External} (r : ProcessPathRegexItem) (m : InboundContext) : bool :=
  with_process m (fun info =>
    if decide (ProcessPath info = "") then false
    else existsb (fun matcher => MatchString matcher (ProcessPath info)) (ppri_matchers r)).
Definition ProcessPathRegexItem_String `{External} (r : ProcessPathRegexItem) : string :=
  ppri_description r.

Record PackageNameItem := { pni_packageNames : list string; pni_packageMap : gmap string bool }.
Definition NewPackageNameItem (packageNameList : list string) : PackageNameItem :=
  {| pni_packageNames := packageNameList; pni_packageMap := bool_map packageNameList |}.
Definition PackageNameItem_Match (r : PackageNameItem) (m : InboundContext) : bool :=
  with_process m (fun info =>
    if decide (PackageName info = "") then false
    else map_get (pni_packageMap r) (PackageName info)).
Definition PackageNameItem_String (r : PackageNameItem) : string :=
  describe_list "package_name=" (pni_packageNames r).

Record UserItem := { ui_users : list string; ui_userMap : gmap string bool }.
Definition NewUserItem (users : list string) : UserItem :=
  {| ui_users := users; ui_userMap := bool_map users |}.
Definition UserItem_Match (r : UserItem) (m : InboundContext) : bool :=
  with_process m (fun info =>
    if decide (UserName info = "") then false else map_get (ui_userMap r) (UserName info)).
Definition UserItem_String (r : UserItem) : string := describe_list "user=" (ui_users r).

Record UserIdItem := { uii_userIds : list Z; uii_userIdMap : gmap Z bool }.
Definition NewUserIDItem (userIdList : list Z) : UserIdItem :=
  {| uii_userIds := userIdList; uii_userIdMap := bool_map userIdList |}.
Definition UserIdItem_Match (r : UserIdItem) (m : InboundContext) : bool :=
  with_process m (fun info =>
    if UserId info =? -1 then false else map_get (uii_userIdMap r) (UserId info)).
Definition UserIdItem_String (r : UserIdItem) : string :=
  describe_list "user_id=" (map go_itoa (uii_userIds r)).

(** ** The DNS query type *)

(** [option.DNSQueryTypeToString] *)
Definition DNSQueryTypeToString `{External} (queryType : Z) : string :=
  match dns_TypeToString queryType with
  | Some typeName => typeName
  | None => go_itoa queryType
  end.

Record QueryTypeItem := { qti_typeList : list Z; qti_typeMap : gmap Z bool }.
Definition NewQueryTypeItem (typeList : list Z) : QueryTypeItem :=
  {| qti_typeList := typeList; qti_typeMap := bool_map typeList |}.
Definition QueryTypeItem_Match (r : QueryTypeItem) (m : InboundContext) : bool :=
  if QueryType m =? 0 then false else map_get (qti_typeMap r) (QueryType m).
Definition QueryTypeItem_String `{External} (r : QueryTypeItem) : string :=
  describe_list "query_type=" (map DNSQueryTypeToString (qti_typeList r)).

(** ** Items on the host *)

Record ClashModeItem := { cmi_mode : string }.
Definition NewClashModeItem (mode : string) : ClashModeItem := {| cmi_mode := mode |}.
Definition ClashModeItem_Match `{External} (h : Host) (r : ClashModeItem) : bool :=
  match ClashMode h with None => false | Some mode => EqualFold mode (cmi_mode r) end.
Definition ClashModeItem_String (r : ClashModeItem) : string := "clash_mode=" +:+ cmi_mode r.

Record NetworkTypeItem := { nti_networkType : list InterfaceType }.
Definition NewNetworkTypeItem (networkType : list InterfaceType) : NetworkTypeItem :=
  {| nti_networkType := networkType |}.
Definition NetworkTypeItem_Match (h : Host) (r : NetworkTypeItem) : bool :=
  match DefaultNetworkInterface h with
  | None => false
  | Some networkInterface => bool_decide (ni_Type networkInterface ∈ nti_networkType r)
  end.
Definition NetworkTypeItem_String (r : NetworkTypeItem) : string :=
  describe_list "network_type=" (map InterfaceType_String (nti_networkType r)).

Definition NetworkIsExpensiveItem_Match (h : Host) : bool :=
  match DefaultNetworkInterface h with None => false | Some ni => ni_Expensive ni end.
Definition NetworkIsExpensiveItem_String : string := "network_is_expensive=true".

Definition NetworkIsConstrainedItem_Match (h : Host) : bool :=
  match DefaultNetworkInterface h with None => false | Some ni => ni_Constrained ni end.
(** As written in the source: the text of the other item. *)
Definition NetworkIsConstrainedItem_String : string := "network_is_expensive=true".

Record WIFISSIDItem := { wsi_ssidList : list string; wsi_ssidMap : gmap string bool }.
Definition NewWIFISSIDItem (ssidList : list string) : WIFISSIDItem :=
  {| wsi_ssidList := ssidList; wsi_ssidMap := bool_map ssidList |}.
Definition WIFISSIDItem_Match (h : Host) (r : WIFISSIDItem) : bool :=
  map_get (wsi_ssidMap r) (WIFIState_SSID h).
Definition WIFISSIDItem_String (r : WIFISSIDItem) : string := describe_list "wifi_ssid=" (wsi_ssidList r).

Record WIFIBSSIDItem := { wbi_bssidList : list string; wbi_bssidMap : gmap string bool }.
Definition NewWIFIBSSIDItem (bssidList : list string) : WIFIBSSIDItem :=
  {| wbi_bssidList := bssidList; wbi_bssidMap := bool_map bssidList |}.
Definition WIFIBSSIDItem_Match (h : Host) (r : WIFIBSSIDItem) : bool :=
  map_get (wbi_bssidMap r) (WIFIState_BSSID h).
Definition WIFIBSSIDItem_String (r : WIFIBSSIDItem) : string := describe_list "wifi_bssid=" (wbi_bssidList r).

(** ** The sum of the items *)

Inductive RuleItem `{External} : Type :=
  | ItInbound (i : InboundItem)
  | ItIPVersion (i : IPVersionItem)
  | ItNetwork (i : NetworkItem)
  | ItAuthUser (i : AuthUserItem)
  | ItProtocol (i : ProtocolItem)
  | ItClient (i : ClientItem)
  | ItDomain (i : DomainItem)
  | ItAdGuard (i : AdGuardDomainItem)
  | ItDomainKeyword (i : DomainKeywordItem)
  | ItDomainRegex (i : DomainRegexItem)
  | ItIPCIDR (i : IPCIDRItem)
  | ItIPIsPrivate (i : IPIsPrivateItem)
  | ItIPAcceptAny
  | ItPort (i : PortItem)
  | ItPortRange (i : PortRangeItem)
  | ItProcess (i : ProcessItem)
  | ItProcessPath (i : ProcessPathItem)
  | ItProcessPathRegex (i : ProcessPathRegexItem)
  | ItPackageName (i : PackageNameItem)
  | ItUser (i : UserItem)
  | ItUserID (i : UserIdItem)
  | ItOutbound (i : OutboundItem)
  | ItQueryType (i : QueryTypeItem)
  | ItClashMode (i : ClashModeItem)
  | ItNetworkType (i : NetworkTypeItem)
  | ItNetworkIsExpensive
  | ItNetworkIsConstrained
  | ItWIFISSID (i : WIFISSIDItem)
  | ItWIFIBSSID (i : WIFIBSSIDItem).

Definition RuleItem_Match `{External} (h : Host) (it : RuleItem) (m : InboundContext) : bool :=
  match it with
  | ItInbound i => InboundItem_Match i m
  | ItIPVersion i => IPVersionItem_Match i m
  | ItNetwork i => NetworkItem_Match i m
  | ItAuthUser i => AuthUserItem_Match i m
  | ItProtocol i => ProtocolItem_Match i m
  | ItClient i => ClientItem_Match i m
  | ItDomain i => DomainItem_Match i m
  | ItAdGuard i => AdGuardDomainItem_Match i m
  | ItDomainKeyword i => DomainKeywordItem_Match i m
  | ItDomainRegex i => DomainRegexItem_Match i m
  | ItIPCIDR i => IPCIDRItem_Match i m
  | ItIPIsPrivate i => IPIsPrivateItem_Match i m
  | ItIPAcceptAny => IPAcceptAnyItem_Match m
  | ItPort i => PortItem_Match i m
  | ItPortRange i => PortRangeItem_Match i m
  | ItProcess i => ProcessItem_Match i m
  | ItProcessPath i => ProcessPathItem_Match i m
  | ItProcessPathRegex i => ProcessPathRegexItem_Match i m
  | ItPackageName i => PackageNameItem_Match i m
  | ItUser i => UserItem_Match i m
  | ItUserID i => UserIdItem_Match i m
  | ItOutbound i => OutboundItem_Match i m
  | ItQueryType i => QueryTypeItem_Match i m
  | ItClashMode i => ClashModeItem_Match h i
  | ItNetworkType i => NetworkTypeItem_Match h i
  | ItNetworkIsExpensive => NetworkIsExpensiveItem_Match h
  | ItNetworkIsConstrained => NetworkIsConstrainedItem_Match h
  | ItWIFISSID i => WIFISSIDItem_Match h i
  | ItWIFIBSSID i => WIFIBSSIDItem_Match h i
  end.

Definition RuleItem_String `{External} (it : RuleItem) : string :=
  match it with
  | ItInbound i => InboundItem_String i
  | ItIPVersion i => IPVersionItem_String i
  | ItNetwork i => NetworkItem_String i
  | ItAuthUser i => AuthUserItem_String i
  | ItProtocol i => ProtocolItem_String i
  | ItClient i => ClientItem_String i
  | ItDomain i => DomainItem_String i
  | ItAdGuard i => AdGuardDomainItem_String
  | ItDomainKeyword i => DomainKeywordItem_String i
  | ItDomainRegex i => DomainRegexItem_String i
  | ItIPCIDR i => IPCIDRItem_String i
  | ItIPIsPrivate i => IPIsPrivateItem_String i
  | ItIPAcceptAny => IPAcceptAnyItem_String
  | ItPort i => PortItem_String i
  | ItPortRange i => PortRangeItem_String i
  | ItProcess i => ProcessItem_String i
  | ItProcessPath i => ProcessPathItem_String i
  | ItProcessPathRegex i => ProcessPathRegexItem_String i
  | ItPackageName i => PackageNameItem_String i
  | ItUser i => UserItem_String i
  | ItUserID i => UserIdItem_String i
  | ItOutbound i => OutboundItem_String i
  | ItQueryType i => QueryTypeItem_String i
  | ItClashMode i => ClashModeItem_String i
  | ItNetworkType i => NetworkTypeItem_String i
  | ItNetworkIsExpensive => NetworkIsExpensiveItem_String
  | ItNetworkIsConstrained => NetworkIsConstrainedItem_String
  | ItWIFISSID i => WIFISSIDItem_String i
  | ItWIFIBSSID i => WIFIBSSIDItem_String i
  end.
