(* ===== verification/RuleAbstract.v ===== *)
(** * route/rule/rule_abstract.go: default and logical rules

    [abstractDefaultRule] is generic in the item type, as the Go code is in the
    [RuleItem] interface: [ItemOps] is that interface, [PureItem] what the
    plain items promise, and the matching algorithm is specified for any item
    type that keeps the promise. *)

From stdpp Require Import base list strings gmap.
From Stdlib Require Import ZArith Lia.
From S2P Require Import Prelude GoStd External Adapter RuleItem.

(** ** The interface of an item *)

Class ItemOps (I : Type) : Type := {
  (** [Match] receives the context by pointer *)
  item_Match : I -> InboundContext -> bool * InboundContext;
  item_String : I -> string;
  (** whether the dynamic type is RuleSetItem *)
  item_isRuleSet : I -> bool
}.

(** Items that do not write to the context and read, of the cache, only the
    two flags a rule-set item sets for the rules below it. *)
Class PureItem (I : Type) `{ItemOps I} : Type := {
  item_eval : I -> InboundContext -> bool;
  item_Match_eval : forall it m, item_Match it m = (item_eval it m, m);
  item_eval_ext : forall it m m', same_request m m' ->
    IPCIDRMatchSource (cache m) = IPCIDRMatchSource (cache m') ->
    IPCIDRAcceptEmpty (cache m) = IPCIDRAcceptEmpty (cache m') ->
    item_eval it m = item_eval it m';
  item_not_ruleset : forall it, item_isRuleSet it = false
}.

(** ** abstractDefaultRule *)

Record abstractDefaultRule (I A : Type) : Type := {
  items : list I;
  sourceAddressItems : list I;
  sourcePortItems : list I;
  destinationAddressItems : list I;
  destinationIPCIDRItems : list I;
  destinationPortItems : list I;
  allItems : list I;
  invert : bool;
  action : A
}.
Arguments items {I A}.
Arguments sourceAddressItems {I A}.
Arguments sourcePortItems {I A}.
Arguments destinationAddressItems {I A}.
Arguments destinationIPCIDRItems {I A}.
Arguments destinationPortItems {I A}.
Arguments allItems {I A}.
Arguments invert {I A}.
Arguments action {I A}.

Definition nonempty {A} (l : list A) : bool := match l with [] => false | _ => true end.

Section default_rule.
Context {I A : Type} `{ItemOps I}.

(** The block [if len(group) > 0 && !metadata.Flag { DidMatch = true; for ... }]. *)
Definition match_group (flag : RuleCache -> bool) (set : bool -> RuleCache -> RuleCache)
    (group : list I) (m : InboundContext) : InboundContext :=
  if nonempty group && negb (flag (cache m)) then
    let '(found, m) := any_st item_Match group (upd_cache (set_DidMatch true) m) in
    if found then upd_cache (set true) m else m
  else m.

Definition match_item (it : I) (m : InboundContext) : bool * InboundContext :=
  item_Match it (if item_isRuleSet it then m else upd_cache (set_DidMatch true) m).

(** [abstractDefaultRule.Match] *)
Definition abstractDefaultRule_Match (r : abstractDefaultRule I A) (m : InboundContext)
    : bool * InboundContext :=
  if negb (nonempty (allItems r)) then (true, m)
  else
    let m := match_group SourceAddressMatch set_SourceAddressMatch (sourceAddressItems r) m in
    let m := match_group SourcePortMatch set_SourcePortMatch (sourcePortItems r) m in
    let m := match_group DestinationAddressMatch set_DestinationAddressMatch
               (destinationAddressItems r) m in
    let m := if negb (IgnoreDestinationIPCIDRMatch (cache m)) then
               match_group DestinationAddressMatch set_DestinationAddressMatch
                 (destinationIPCIDRItems r) m
             else m in
    let m := match_group DestinationPortMatch set_DestinationPortMatch
               (destinationPortItems r) m in
    let '(items_ok, m) := all_st match_item (items r) m in
    if negb items_ok then (invert r, m)
    else if nonempty (sourceAddressItems r) && negb (SourceAddressMatch (cache m)) then (invert r, m)
    else if nonempty (sourcePortItems r) && negb (SourcePortMatch (cache m)) then (invert r, m)
    else if ((negb (IgnoreDestinationIPCIDRMatch (cache m)) && nonempty (destinationIPCIDRItems r))
             || nonempty (destinationAddressItems r))
            && negb (DestinationAddressMatch (cache m)) then (invert r, m)
    else if nonempty (destinationPortItems r) && negb (DestinationPortMatch (cache m)) then (invert r, m)
    else if negb (DidMatch (cache m)) then (true, m)
    else (negb (invert r), m).

(** [abstractDefaultRule.String] *)
Definition abstractDefaultRule_String (r : abstractDefaultRule I A) : string :=
  let s := strings_Join (map item_String (allItems r)) " " in
  if negb (invert r) then s else "!(" +:+ s +:+ ")".
End default_rule.

(** ** abstractLogicalRule *)

Record abstractLogicalRule (R A : Type) : Type := {
  rules : list R;
  mode : string;
  linvert : bool;
  laction : A
}.
Arguments rules {R A}.
Arguments mode {R A}.
Arguments linvert {R A}.
Arguments laction {R A}.

Definition LogicalTypeAnd : string := "and".
Definition LogicalTypeOr : string := "or".

(** [abstractLogicalRule.Match], over the [Match] of the rules below. *)
Definition abstractLogicalRule_Match {R A} (sub : R -> InboundContext -> bool * InboundContext)
    (r : abstractLogicalRule R A) (m : InboundContext) : bool * InboundContext :=
  match r with
  | Build_abstractLogicalRule _ _ rules mode invert _ =>
      let block it m := sub it (ResetRuleCache m) in
      let '(b, m) := (if decide (mode = LogicalTypeAnd) then all_st block rules m
                      else any_st block rules m) in
      (xorb b invert, m)
  end.

(** [abstractLogicalRule.String] *)
Definition abstractLogicalRule_String {R A} (sub : R -> string) (r : abstractLogicalRule R A) : string :=
  match r with
  | Build_abstractLogicalRule _ _ rules mode invert _ =>
      let op := if decide (mode = LogicalTypeAnd) then "&&"
                else if decide (mode = LogicalTypeOr) then "||" else "" in
      let s := strings_Join (map sub rules) (" " +:+ op +:+ " ") in
      if negb invert then s else "!(" +:+ s +:+ ")"
  end.

(** ** What a match may do to the context *)

(** The frame of every match: the request itself and the IPCIDR phase flag are
    kept. *)
Definition match_frame (m m' : InboundContext) : Prop :=
  same_request m m' /\
  IgnoreDestinationIPCIDRMatch (cache m) = IgnoreDestinationIPCIDRMatch (cache m').

#[global] Instance match_frame_equiv : Equivalence match_frame.
Proof.
  split; [done| |].
  - intros m m' [? ?]. by split.
  - intros m m' m'' [? ?] [? ?]. split; by etrans.
Qed.

Lemma match_frame_upd f m m' :
  (forall c, IgnoreDestinationIPCIDRMatch (f c) = IgnoreDestinationIPCIDRMatch c) ->
  match_frame m m' -> match_frame m (upd_cache f m').
Proof. intros Hf [Hr Hi]. split; [done|]. simpl. by rewrite Hf. Qed.

Lemma match_frame_reset m m' : match_frame m m' -> match_frame m (ResetRuleCache m').
Proof. by apply match_frame_upd. Qed.

#[export] Hint Resolve match_frame_reset : box.
#[export] Hint Extern 1 (match_frame _ (upd_cache _ _)) => apply match_frame_upd : box.
#[export] Hint Extern 5 (match_frame ?m ?m) => reflexivity : box.

Section default_frame.
Context {I A : Type} `{ItemOps I}.
Context (item_frame : forall (it : I) m, match_frame m (item_Match it m).2).

Lemma match_group_frame flag set group m :
  (forall b c, IgnoreDestinationIPCIDRMatch (set b c) = IgnoreDestinationIPCIDRMatch c) ->
  match_frame m (match_group flag set group m).
Proof.
  intros Hset. unfold match_group. destruct (_ && _); [|done].
  pose proof (any_st_rel match_frame item_Match group (upd_cache (set_DidMatch true) m)
                (fun x s _ => item_frame x s)) as Hany.
  destruct (any_st _ _ _) as [found m']; simpl in Hany.
  assert (match_frame m m') by (etrans; [|exact Hany]; auto with box).
  destruct found; auto with box.
Qed.

Lemma match_item_frame it m : match_frame m (match_item it m).2.
Proof.
  unfold match_item. etrans; [|apply item_frame].
  destruct (item_isRuleSet it); auto with box.
Qed.

Lemma abstractDefaultRule_Match_frame (r : abstractDefaultRule I A) m :
  match_frame m (abstractDefaultRule_Match r m).2.
Proof.
  unfold abstractDefaultRule_Match. destruct (nonempty (allItems r)); simpl; [|done].
  set (m1 := match_group _ _ (sourceAddressItems r) _).
  set (m2 := match_group _ _ (sourcePortItems r) _).
  set (m3 := match_group _ _ (destinationAddressItems r) _).
  set (m4 := if negb _ then match_group _ _ (destinationIPCIDRItems r) _ else _).
  set (m5 := match_group _ _ (destinationPortItems r) _).
  assert (Hm5 : match_frame m m5).
  { assert (match_frame m m3) by (do 3 (etrans; [|by apply match_group_frame]); done).
    assert (match_frame m3 m4) by (unfold m4; destruct (negb _); [by apply match_group_frame|done]).
    etrans; [|by apply match_group_frame]. by etrans. }
  pose proof (all_st_rel match_frame match_item (items r) m5
                (fun x s _ => match_item_frame x s)) as Hall.
  destruct (all_st match_item (items r) m5) as [ok m6]; simpl in Hall.
  assert (match_frame m m6) by by etrans.
  repeat (case_match; [done|]). done.
Qed.
End default_frame.

Lemma abstractLogicalRule_Match_frame {R A} (sub : R -> InboundContext -> bool * InboundContext)
    (r : abstractLogicalRule R A) m :
  (forall it m, it ∈ rules r -> match_frame m (sub it m).2) ->
  match_frame m (abstractLogicalRule_Match sub r m).2.
Proof.
  intros Hsub. destruct r as [rs mode inv act]. unfold abstractLogicalRule_Match.
  assert (Hb : forall it m', it ∈ rs -> match_frame m' (sub it (ResetRuleCache m')).2).
  { intros it m' Hit. etrans; [|by apply Hsub]. auto with box. }
  destruct (decide (mode = LogicalTypeAnd)).
  - pose proof (all_st_rel match_frame (fun it m => sub it (ResetRuleCache m)) rs m Hb).
    by destruct (all_st _ _ _).
  - pose proof (any_st_rel match_frame (fun it m => sub it (ResetRuleCache m)) rs m Hb).
    by destruct (any_st _ _ _).
Qed.

(** ** The specification of a default rule over pure items

    Inside a group any item may hold; the groups and the plain items must all
    hold; a group whose flag is already set in the cache (by a rule-set item
    above, see RuleSet.v) holds without being looked at. *)

Section default_spec.
Context {I A : Type} `{PureItem I}.

Definition group_hit (group : list I) (m : InboundContext) : bool :=
  existsb (fun it => item_eval it m) group.

Definition group_ok (flag : RuleCache -> bool) (group : list I) (m : InboundContext) : bool :=
  negb (nonempty group) || flag (cache m) || group_hit group m.

Definition considers_ip (r : abstractDefaultRule I A) (m : InboundContext) : bool :=
  negb (IgnoreDestinationIPCIDRMatch (cache m)) && nonempty (destinationIPCIDRItems r).

Definition destination_ok (r : abstractDefaultRule I A) (m : InboundContext) : bool :=
  negb (considers_ip r m || nonempty (destinationAddressItems r)) ||
  DestinationAddressMatch (cache m) || group_hit (destinationAddressItems r) m ||
  considers_ip r m && group_hit (destinationIPCIDRItems r) m.

Definition rule_matches (r : abstractDefaultRule I A) (m : InboundContext) : bool :=
  forallb (fun it => item_eval it m) (items r) &&
  group_ok SourceAddressMatch (sourceAddressItems r) m &&
  group_ok SourcePortMatch (sourcePortItems r) m &&
  destination_ok r m &&
  group_ok DestinationPortMatch (destinationPortItems r) m.

(** Whether the rule looked at anything: otherwise it matches even when
    inverted. *)
Definition rule_examined (r : abstractDefaultRule I A) (m : InboundContext) : bool :=
  DidMatch (cache m) || nonempty (items r) ||
  nonempty (sourceAddressItems r) && negb (SourceAddressMatch (cache m)) ||
  nonempty (sourcePortItems r) && negb (SourcePortMatch (cache m)) ||
  (nonempty (destinationAddressItems r) || considers_ip r m) &&
    negb (DestinationAddressMatch (cache m)) ||
  nonempty (destinationPortItems r) && negb (DestinationPortMatch (cache m)).

Lemma any_st_item group m : any_st item_Match group m = (group_hit group m, m).
Proof.
  induction group as [|it group IH]; simpl; [done|].
  rewrite item_Match_eval. destruct (item_eval it m); simpl; [done|]. by rewrite IH.
Qed.

(** Flag writes keep what the items read. *)
Lemma item_eval_upd f it m :
  (forall c, IPCIDRMatchSource (f c) = IPCIDRMatchSource c) ->
  (forall c, IPCIDRAcceptEmpty (f c) = IPCIDRAcceptEmpty c) ->
  item_eval it (upd_cache f m) = item_eval it m.
Proof. intros H1 H2. symmetry. apply item_eval_ext; simpl; by rewrite ?H1, ?H2. Qed.

Lemma group_hit_upd f group m :
  (forall c, IPCIDRMatchSource (f c) = IPCIDRMatchSource c) ->
  (forall c, IPCIDRAcceptEmpty (f c) = IPCIDRAcceptEmpty c) ->
  group_hit group (upd_cache f m) = group_hit group m.
Proof.
  intros H1 H2. unfold group_hit. induction group as [|it group IH]; simpl; [done|].
  by rewrite IH, item_eval_upd.
Qed.

(** A flag setter that touches nothing else. *)
Class FlagSetter (flag : RuleCache -> bool) (set : bool -> RuleCache -> RuleCache) : Prop := {
  setter_id : forall c, set (flag c) c = c;
  setter_source : forall b c, IPCIDRMatchSource (set b c) = IPCIDRMatchSource c;
  setter_empty : forall b c, IPCIDRAcceptEmpty (set b c) = IPCIDRAcceptEmpty c;
  setter_did : forall b b' c, set b (set_DidMatch b' c) = set_DidMatch b' (set b c)
}.

(** One group, in closed form. *)
Definition group_step (flag : RuleCache -> bool) (set : bool -> RuleCache -> RuleCache)
    (group : list I) (m : InboundContext) (c : RuleCache) : RuleCache :=
  set_DidMatch (DidMatch c || nonempty group && negb (flag c))
    (set (flag c || group_hit group m) c).

Lemma match_group_closed `{!FlagSetter flag set} group m :
  match_group flag set group m = upd_cache (group_step flag set group m) m.
Proof.
  unfold match_group. destruct group as [|it group].
  { symmetry. apply upd_cache_same. unfold group_step. simpl.
    by rewrite !orb_false_r, setter_id, set_DidMatch_id. }
  unfold group_step. set (g := it :: group). replace (nonempty g) with true by done. simpl andb.
  destruct (flag (cache m)) eqn:Hf; simpl negb; cbv iota.
  - symmetry. apply upd_cache_same.
    by rewrite Hf, orb_false_r, orb_true_l, <- Hf, setter_id, set_DidMatch_id.
  - rewrite any_st_item, group_hit_upd by done.
    unfold upd_cache.
    destruct (group_hit g m); cbn [cache set_cache]; rewrite ?set_cache_set_cache; f_equal;
      rewrite Hf, orb_true_r, orb_false_l; [by rewrite setter_did|].
    by rewrite <- Hf, setter_id.
Qed.

Lemma all_st_match_item l m :
  (all_st match_item l m).1 = forallb (fun it => item_eval it m) l /\
  (forallb (fun it => item_eval it m) l = true ->
   (all_st match_item l m).2 = upd_cache (fun c => set_DidMatch (DidMatch c || nonempty l) c) m).
Proof.
  revert m; induction l as [|it l IH]; intros m; simpl.
  { split; [done|]. intros _. symmetry. apply upd_cache_same.
    by rewrite orb_false_r, set_DidMatch_id. }
  unfold match_item at 1 3. rewrite item_not_ruleset, item_Match_eval, item_eval_upd by done.
  destruct (item_eval it m); simpl; [|done].
  destruct (IH (upd_cache (set_DidMatch true) m)) as [-> IH2].
  assert (Hl : forallb (fun it => item_eval it (upd_cache (set_DidMatch true) m)) l =
               forallb (fun it => item_eval it m) l).
  { clear IH IH2. induction l as [|x l IHl]; simpl; [done|]. by rewrite IHl, item_eval_upd. }
  rewrite Hl in *. split; [done|]. intros Ht. rewrite (IH2 Ht). unfold upd_cache. simpl.
  by rewrite orb_true_r.
Qed.
End default_spec.

#[export] Instance setter_source_address : FlagSetter SourceAddressMatch set_SourceAddressMatch.
Proof. split; [by intros []|done..]. Qed.
#[export] Instance setter_source_port : FlagSetter SourcePortMatch set_SourcePortMatch.
Proof. split; [by intros []|done..]. Qed.
#[export] Instance setter_destination_address :
  FlagSetter DestinationAddressMatch set_DestinationAddressMatch.
Proof. split; [by intros []|done..]. Qed.
#[export] Instance setter_destination_port :
  FlagSetter DestinationPortMatch set_DestinationPortMatch.
Proof. split; [by intros []|done..]. Qed.

(** The five groups one after the other, in closed form: what each flag is
    when the plain items are looked at. *)
Definition groups_cache {I A : Type} `{PureItem I} (r : abstractDefaultRule I A) (m : InboundContext)
    (c : RuleCache) : RuleCache :=
  Build_RuleCache (IPCIDRMatchSource c) (IPCIDRAcceptEmpty c)
    (SourceAddressMatch c || group_hit (sourceAddressItems r) m)
    (SourcePortMatch c || group_hit (sourcePortItems r) m)
    (DestinationAddressMatch c || group_hit (destinationAddressItems r) m ||
       considers_ip r m && group_hit (destinationIPCIDRItems r) m)
    (DestinationPortMatch c || group_hit (destinationPortItems r) m)
    (DidMatch c ||
       nonempty (sourceAddressItems r) && negb (SourceAddressMatch c) ||
       nonempty (sourcePortItems r) && negb (SourcePortMatch c) ||
       (nonempty (destinationAddressItems r) || considers_ip r m) && negb (DestinationAddressMatch c) ||
       nonempty (destinationPortItems r) && negb (DestinationPortMatch c))
    (IgnoreDestinationIPCIDRMatch c).

Section default_theorem.
Context {I A : Type} `{PureItem I}.
Implicit Types (r : abstractDefaultRule I A) (m : InboundContext).

Lemma guard_negb b f : b && negb f = negb (negb b || f).
Proof. by destruct b, f. Qed.

Lemma group_hit_nonempty (g : list I) m : group_hit g m = nonempty g && group_hit g m.
Proof. by destruct g. Qed.

(** A group matched after earlier flag writes. *)
Lemma match_group_upd `{!FlagSetter flag set} (group : list I) f m :
  (forall c, IPCIDRMatchSource (f c) = IPCIDRMatchSource c) ->
  (forall c, IPCIDRAcceptEmpty (f c) = IPCIDRAcceptEmpty c) ->
  match_group flag set group (upd_cache f m) =
  upd_cache (fun c => group_step flag set group m (f c)) m.
Proof.
  intros H1 H2. rewrite match_group_closed. unfold group_step.
  by rewrite group_hit_upd.
Qed.

Lemma abstractDefaultRule_groups r m :
  let m1 := match_group SourceAddressMatch set_SourceAddressMatch (sourceAddressItems r) m in
  let m2 := match_group SourcePortMatch set_SourcePortMatch (sourcePortItems r) m1 in
  let m3 := match_group DestinationAddressMatch set_DestinationAddressMatch
              (destinationAddressItems r) m2 in
  let m4 := if negb (IgnoreDestinationIPCIDRMatch (cache m3)) then
              match_group DestinationAddressMatch set_DestinationAddressMatch
                (destinationIPCIDRItems r) m3
            else m3 in
  match_group DestinationPortMatch set_DestinationPortMatch (destinationPortItems r) m4 =
  upd_cache (groups_cache r m) m.
Proof.
  intros m1 m2 m3 m4. unfold m4, m3, m2, m1.
  rewrite (match_group_closed (flag := SourceAddressMatch)), !match_group_upd by done.
  destruct (IgnoreDestinationIPCIDRMatch (cache m)) eqn:Hi.
  - replace (IgnoreDestinationIPCIDRMatch (cache (upd_cache _ m))) with true by by rewrite <- Hi.
    simpl negb. cbv iota. rewrite match_group_upd by done. apply upd_cache_ext.
    unfold groups_cache, considers_ip, group_step. rewrite Hi.
    rewrite (group_hit_nonempty (destinationAddressItems r)).
    destruct (cache m) as [? ? ? ? ? ? ? ig]. simpl in Hi. subst ig. cbv_cache.
    by rewrite !orb_false_r.
  - replace (IgnoreDestinationIPCIDRMatch (cache (upd_cache _ m))) with false by by rewrite <- Hi.
    simpl negb. cbv iota. rewrite !match_group_upd by done. apply upd_cache_ext.
    unfold groups_cache, considers_ip, group_step. rewrite Hi.
    rewrite (group_hit_nonempty (destinationIPCIDRItems r)),
      (group_hit_nonempty (destinationAddressItems r)).
    destruct (cache m) as [? ? ? ? d ? did ig]. simpl in Hi. subst ig. cbv_cache. f_equal.
    + by destruct (nonempty (destinationIPCIDRItems r)).
    + generalize (nonempty (destinationIPCIDRItems r)) (nonempty (destinationAddressItems r))
        (group_hit (destinationAddressItems r) m).
      intros [] [] []; destruct d; simpl; rewrite ?orb_false_r, ?orb_true_r; done.
Qed.

(** The match of a default rule over pure items, for any state of the cache. *)
Lemma abstractDefaultRule_Match_spec r m :
  (abstractDefaultRule_Match r m).1 =
  if negb (nonempty (allItems r)) then true
  else if negb (rule_matches r m) then invert r
  else if rule_examined r m then negb (invert r) else true.
Proof.
  unfold abstractDefaultRule_Match. destruct (nonempty (allItems r)); [|done].
  cbv zeta. simpl negb at 1 3. cbv iota.
  rewrite abstractDefaultRule_groups.
  set (m5 := upd_cache (groups_cache r m) m).
  destruct (all_st_match_item (items r) m5) as [Hb Hm].
  assert (Hi : forallb (fun it => item_eval it m5) (items r) =
               forallb (fun it => item_eval it m) (items r)).
  { apply forallb_ext_in. intros it _. by apply item_eval_upd. }
  destruct (all_st match_item (items r) m5) as [ok m6]. simpl in Hb, Hm. subst ok.
  rewrite Hi in *. unfold rule_matches, group_ok, destination_ok.
  destruct (forallb _ (items r)); [|done]. rewrite (Hm eq_refl).
  unfold m5, groups_cache. simpl. fold (considers_ip r m).
  rewrite !guard_negb, !orb_assoc. cbn [negb andb].
  repeat match goal with
  | |- context [if negb ?b then _ else _] => destruct b; cbn [negb andb]; [|done]
  end.
  match goal with
  | |- context [if negb ?did then _ else _] => replace did with (rule_examined r m)
  end; [by destruct (rule_examined r m)|].
  unfold rule_examined. rewrite <- !guard_negb, <- !orb_assoc. f_equal.
  by rewrite (orb_comm (nonempty (items r))), <- !orb_assoc.
Qed.

(** A rule as the constructors build it: it has a condition exactly when some
    group or plain item has one. *)
Definition rule_grouped (r : abstractDefaultRule I A) : Prop :=
  allItems r ≡ₚ items r ++ sourceAddressItems r ++ sourcePortItems r ++
    destinationAddressItems r ++ destinationIPCIDRItems r ++ destinationPortItems r.

(** The declarative reading of a rule on a fresh cache: every plain item
    holds, and in every non-empty group at least one item does. *)
Definition rule_condition (r : abstractDefaultRule I A) (m : InboundContext) : Prop :=
  (forall it, it ∈ items r -> item_eval it m = true) /\
  (sourceAddressItems r <> [] -> exists it, it ∈ sourceAddressItems r /\ item_eval it m = true) /\
  (sourcePortItems r <> [] -> exists it, it ∈ sourcePortItems r /\ item_eval it m = true) /\
  (destinationAddressItems r ++ destinationIPCIDRItems r <> [] ->
     exists it, it ∈ destinationAddressItems r ++ destinationIPCIDRItems r /\ item_eval it m = true) /\
  (destinationPortItems r <> [] -> exists it, it ∈ destinationPortItems r /\ item_eval it m = true).

Lemma group_ok_fresh flag (g : list I) m :
  flag (cache m) = false ->
  group_ok flag g m = true <-> (g <> [] -> exists it, it ∈ g /\ item_eval it m = true).
Proof.
  intros Hf. unfold group_ok, group_hit. rewrite Hf, orb_false_r.
  destruct g as [|x g]; [done|]. rewrite orb_true_iff, existsb_elem_of.
  split; [intros [?|?]; done|]. intros Hx. right. by apply Hx.
Qed.

Lemma destination_ok_fresh r m :
  DestinationAddressMatch (cache m) = false -> IgnoreDestinationIPCIDRMatch (cache m) = false ->
  destination_ok r m = true <->
  (destinationAddressItems r ++ destinationIPCIDRItems r <> [] ->
     exists it, it ∈ destinationAddressItems r ++ destinationIPCIDRItems r /\ item_eval it m = true).
Proof.
  intros Hd Hi. rewrite <- (group_ok_fresh (fun _ => false)) by done.
  unfold destination_ok, group_ok, considers_ip, group_hit. rewrite Hd, Hi, existsb_app.
  destruct (destinationAddressItems r), (destinationIPCIDRItems r); simpl;
    rewrite ?orb_false_r, ?app_nil_r; done.
Qed.

Lemma rule_matches_fresh r m :
  cache m = NoCache -> rule_matches r m = true <-> rule_condition r m.
Proof.
  intros Hc. unfold rule_matches, rule_condition.
  rewrite !andb_true_iff, forallb_elem_of, !group_ok_fresh, destination_ok_fresh by by rewrite Hc.
  tauto.
Qed.

Lemma rule_examined_fresh r m :
  cache m = NoCache -> rule_grouped r -> nonempty (allItems r) = true -> rule_examined r m = true.
Proof.
  unfold rule_grouped, rule_examined, considers_ip. intros -> Hg Ha. simpl.
  destruct (items r), (sourceAddressItems r), (sourcePortItems r), (destinationAddressItems r),
    (destinationIPCIDRItems r), (destinationPortItems r); simpl in *; try done.
  apply Permutation_nil_r in Hg. by rewrite Hg in Ha.
Qed.
End default_theorem.

(** Every sub-rule of a logical rule is called on the same context. *)
Lemma ResetRuleCache_frame m m' : match_frame m m' -> ResetRuleCache m' = ResetRuleCache m.
Proof.
  intros [[c ->]%same_request_inv Hi]. simpl in Hi. unfold ResetRuleCache, upd_cache. simpl.
  by rewrite set_cache_set_cache, Hi.
Qed.

Lemma abstractLogicalRule_Match_pure {R A} (sub : R -> InboundContext -> bool * InboundContext)
    (r : abstractLogicalRule R A) m :
  (forall it, it ∈ rules r -> match_frame m (sub it (ResetRuleCache m)).2) ->
  (abstractLogicalRule_Match sub r m).1 =
  xorb (if decide (mode r = LogicalTypeAnd)
        then forallb (fun it => (sub it (ResetRuleCache m)).1) (rules r)
        else existsb (fun it => (sub it (ResetRuleCache m)).1) (rules r)) (linvert r).
Proof.
  intros Hsub. destruct r as [rs mode inv act]. unfold abstractLogicalRule_Match. simpl in *.
  assert (Hb : forall it m', it ∈ rs -> match_frame m m' ->
            (sub it (ResetRuleCache m')).1 = (sub it (ResetRuleCache m)).1 /\
            match_frame m' (sub it (ResetRuleCache m')).2).
  { intros it m' Hit Hm. rewrite (ResetRuleCache_frame m m') by done. split; [done|].
    etrans; [symmetry; exact Hm|]. by apply Hsub. }
  destruct (decide (mode = LogicalTypeAnd)).
  - rewrite <- (all_st_pure match_frame (fun it m => sub it (ResetRuleCache m)) _ rs m Hb).
    by destruct (all_st _ _ _).
  - rewrite <- (any_st_pure match_frame (fun it m => sub it (ResetRuleCache m)) _ rs m Hb).
    by destruct (any_st _ _ _).
Qed.

Lemma forallb_mono {A} (g k : A -> bool) l :
  (forall x, x ∈ l -> g x = true -> k x = true) -> forallb g l = true -> forallb k l = true.
Proof. rewrite !forallb_elem_of. auto. Qed.

Lemma existsb_mono {A} (g k : A -> bool) l :
  (forall x, x ∈ l -> g x = true -> k x = true) -> existsb g l = true -> existsb k l = true.
Proof. rewrite !existsb_elem_of. naive_solver. Qed.
