(* ===== verification/RuleTree.v ===== *)
(** * route/rule: headless, route and DNS rules, rule-set items

    A rule-set item points to rule-sets owned by the router; the pointers are
    kept as tags into the router's table [RuleSetTable], so that a reload seen
    through one rule is seen through all of them.  Rule-sets hold headless
    rules, which have no rule-set item: the two levels are two types. *)

From stdpp Require Import base list strings gmap.
From Stdlib Require Import ZArith Lia.
From S2P Require Import Prelude GoStd External Adapter RuleItem RuleAbstract.

(** ** Headless rules (route/rule/rule_headless.go) *)

Inductive HeadlessRule `{External} : Type :=
  | DefaultHeadlessRule (r : abstractDefaultRule RuleItem unit)
  | LogicalHeadlessRule (r : abstractLogicalRule HeadlessRule unit).

Section headless_ind.
Context `{External} (P : HeadlessRule -> Prop).
Context (Hdefault : forall r, P (DefaultHeadlessRule r)).
Context (Hlogical : forall r, Forall P (rules r) -> P (LogicalHeadlessRule r)).

Fixpoint HeadlessRule_tree_ind (r : HeadlessRule) : P r :=
  match r with
  | DefaultHeadlessRule r => Hdefault r
  | LogicalHeadlessRule r => Hlogical r
      (match r return Forall P (rules r) with
       | Build_abstractLogicalRule _ _ rs _ _ _ =>
           (fix go l : Forall P l :=
              match l with
              | [] => Forall_nil_2 P
              | x :: l => Forall_cons_2 P x l (HeadlessRule_tree_ind x) (go l)
              end) rs
       end)
  end.
End headless_ind.

(** ** Rule-sets as the rules see them *)

Record RuleSetMetadata : Type := {
  ContainsProcessRule : bool;
  ContainsWIFIRule : bool;
  ContainsIPCIDRRule : bool
}.

Record RuleSet `{External} : Type := {
  rs_rules : list HeadlessRule;
  rs_metadata : RuleSetMetadata;
  (** [refs atomic.Int32] *)
  rs_refs : Z;
  (** registered callbacks, by identity, oldest first *)
  rs_callbacks : list nat
}.

(** [Router.ruleSetMap] *)
Abbreviation RuleSetTable := (gmap string RuleSet).

Record RuleSetItem : Type := {
  rsi_tagList : list string;
  (** filled by [Start] *)
  rsi_setList : list string;
  rsi_ipCidrMatchSource : bool;
  rsi_ipCidrAcceptEmpty : bool
}.

Definition NewRuleSetItem (tagList : list string) (matchSource acceptEmpty : bool) : RuleSetItem :=
  {| rsi_tagList := tagList; rsi_setList := [];
     rsi_ipCidrMatchSource := matchSource; rsi_ipCidrAcceptEmpty := acceptEmpty |}.

Definition RuleSetItem_String (r : RuleSetItem) : string := describe_list "rule_set=" (rsi_tagList r).

(** An item of a route or DNS rule. *)
Inductive AnyItem `{External} : Type :=
  | Plain (i : RuleItem)
  | ItRuleSet (i : RuleSetItem).

(** ** Matching *)

Section matching.
Context `{External} (h : Host) (sets : RuleSetTable).

#[local] Instance leaf_ops : ItemOps RuleItem := {
  item_Match it m := (RuleItem_Match h it m, m);
  item_String := RuleItem_String;
  item_isRuleSet _ := false
}.

(** [DefaultHeadlessRule.Match], [LogicalHeadlessRule.Match] *)
Fixpoint HeadlessRule_Match (r : HeadlessRule) (m : InboundContext) : bool * InboundContext :=
  match r with
  | DefaultHeadlessRule r => abstractDefaultRule_Match r m
  | LogicalHeadlessRule r => abstractLogicalRule_Match HeadlessRule_Match r m
  end.

Fixpoint HeadlessRule_String (r : HeadlessRule) : string :=
  match r with
  | DefaultHeadlessRule r => abstractDefaultRule_String r
  | LogicalHeadlessRule r => abstractLogicalRule_String HeadlessRule_String r
  end.

(** [LocalRuleSet.Match], [RemoteRuleSet.Match] *)
Definition RuleSet_Match (s : RuleSet) (m : InboundContext) : bool * InboundContext :=
  any_st HeadlessRule_Match (rs_rules s) m.

(** [LocalRuleSet.String], [RemoteRuleSet.String] *)
Definition RuleSet_String (s : RuleSet) : string :=
  strings_Join (map HeadlessRule_String (rs_rules s)) " ".

Definition match_set (tag : string) (m : InboundContext) : bool * InboundContext :=
  match sets !! tag with Some s => RuleSet_Match s m | None => (false, m) end.

(** [RuleSetItem.Match] *)
Definition RuleSetItem_Match (r : RuleSetItem) (m : InboundContext) : bool * InboundContext :=
  any_st match_set (rsi_setList r)
    (upd_cache (set_IPCIDR (rsi_ipCidrMatchSource r) (rsi_ipCidrAcceptEmpty r)) m).

(** [RuleSetItem.ContainsDestinationIPCIDRRule] *)
Definition ContainsDestinationIPCIDRRule (r : RuleSetItem) : bool :=
  if rsi_ipCidrMatchSource r then false
  else existsb (fun tag => match sets !! tag with
                           | Some s => ContainsIPCIDRRule (rs_metadata s)
                           | None => false
                           end) (rsi_setList r).

#[local] Instance any_ops : ItemOps AnyItem := {
  item_Match it m :=
    match it with
    | Plain i => (RuleItem_Match h i m, m)
    | ItRuleSet i => RuleSetItem_Match i m
    end;
  item_String it := match it with Plain i => RuleItem_String i | ItRuleSet i => RuleSetItem_String i end;
  item_isRuleSet it := match it with Plain _ => false | ItRuleSet _ => true end
}.
End matching.

(** ** Route rules (route/rule/rule_default.go) *)

Inductive Rule `{External} (A : Type) : Type :=
  | DefaultRule (r : abstractDefaultRule AnyItem A)
  | LogicalRule (r : abstractLogicalRule (Rule A) A).
Arguments DefaultRule {_ A} r.
Arguments LogicalRule {_ A} r.

Section rule_ind.
Context `{External} {A : Type} (P : Rule A -> Prop).
Context (Hdefault : forall r, P (DefaultRule r)).
Context (Hlogical : forall r, Forall P (rules r) -> P (LogicalRule r)).

Fixpoint Rule_tree_ind (r : Rule A) : P r :=
  match r with
  | DefaultRule r => Hdefault r
  | LogicalRule r => Hlogical r
      (match r return Forall P (rules r) with
       | Build_abstractLogicalRule _ _ rs _ _ _ =>
           (fix go l : Forall P l :=
              match l with
              | [] => Forall_nil_2 P
              | x :: l => Forall_cons_2 P x l (Rule_tree_ind x) (go l)
              end) rs
       end)
  end.
End rule_ind.

Section rules.
Context `{External} {A : Type} (h : Host) (sets : RuleSetTable).
#[local] Existing Instance leaf_ops.
#[local] Existing Instance any_ops.

Definition Rule_Action (r : Rule A) : A :=
  match r with DefaultRule r => action r | LogicalRule r => laction r end.

Definition RuleTypeDefault : string := "default".
Definition RuleTypeLogical : string := "logical".

Definition Rule_Type (r : Rule A) : string :=
  match r with DefaultRule _ => RuleTypeDefault | LogicalRule _ => RuleTypeLogical end.

(** [DefaultRule.Match], [LogicalRule.Match] *)
Fixpoint Rule_Match (r : Rule A) (m : InboundContext) : bool * InboundContext :=
  match r with
  | DefaultRule r => @abstractDefaultRule_Match _ _ (any_ops h sets) r m
  | LogicalRule r => abstractLogicalRule_Match Rule_Match r m
  end.

Fixpoint Rule_String (r : Rule A) : string :=
  match r with
  | DefaultRule r => @abstractDefaultRule_String _ _ (any_ops h sets) r
  | LogicalRule r => abstractLogicalRule_String Rule_String r
  end.

(** *** DNS rules (route/rule/rule_dns.go): the same trees, two matches *)

(** [DefaultDNSRule.Match], [LogicalDNSRule.Match]: the IPCIDR items wait for
    the answer of the upstream server *)
Fixpoint DNSRule_Match (r : Rule A) (m : InboundContext) : bool * InboundContext :=
  match r with
  | DefaultRule r =>
      let '(b, m) := @abstractDefaultRule_Match _ _ (any_ops h sets) r
                       (upd_cache (set_Ignore true) m) in
      (b, upd_cache (set_Ignore false) m)
  | LogicalRule r => abstractLogicalRule_Match DNSRule_Match r m
  end.

(** [DefaultDNSRule.MatchAddressLimit], [LogicalDNSRule.MatchAddressLimit] *)
Fixpoint DNSRule_MatchAddressLimit (r : Rule A) (m : InboundContext) : bool * InboundContext :=
  match r with
  | DefaultRule r => @abstractDefaultRule_Match _ _ (any_ops h sets) r m
  | LogicalRule r => abstractLogicalRule_Match DNSRule_MatchAddressLimit r m
  end.

(** [DefaultDNSRule.WithAddressLimit], [LogicalDNSRule.WithAddressLimit] *)
Fixpoint WithAddressLimit (r : Rule A) : bool :=
  match r with
  | DefaultRule r =>
      nonempty (destinationIPCIDRItems r) ||
      existsb (fun it => match it with
                         | Plain _ => false
                         | ItRuleSet i => ContainsDestinationIPCIDRRule sets i
                         end) (items r)
  | LogicalRule (Build_abstractLogicalRule _ _ rs _ _ _) => existsb WithAddressLimit rs
  end.
End rules.

(** ** Starting a rule-set item (rule_item_rule_set.go, [Start]) *)

Definition IncRef `{External} (s : RuleSet) : RuleSet :=
  {| rs_rules := rs_rules s; rs_metadata := rs_metadata s; rs_refs := to_int32 (rs_refs s + 1);
     rs_callbacks := rs_callbacks s |}.

(** Walks the tags: every set found is referenced and appended to the item's
    list; a missing tag stops the walk, keeping what was done before it. *)
Fixpoint RuleSetItem_Start_loop `{External} (tags : list string) (setList : list string)
    (sets : RuleSetTable) : option error * list string * RuleSetTable :=
  match tags with
  | [] => (None, setList, sets)
  | tag :: tags =>
      match sets !! tag with
      | None => (Some (ErrNew ("rule-set not found: " +:+ tag)), setList, sets)
      | Some s => RuleSetItem_Start_loop tags (setList ++ [tag]) (<[tag := IncRef s]> sets)
      end
  end.

Definition RuleSetItem_Start `{External} (r : RuleSetItem) (sets : RuleSetTable)
    : option error * RuleSetItem * RuleSetTable :=
  let '(err, setList, sets) := RuleSetItem_Start_loop (rsi_tagList r) (rsi_setList r) sets in
  (err, {| rsi_tagList := rsi_tagList r; rsi_setList := setList;
           rsi_ipCidrMatchSource := rsi_ipCidrMatchSource r;
           rsi_ipCidrAcceptEmpty := rsi_ipCidrAcceptEmpty r |}, sets).
