(* ===== verification/RuleMatch.v ===== *)
(** * What the rules mean

    The plain items keep the promise of [PureItem]; a headless rule on a fresh
    cache has a denotation that does not mention the cache; no match changes
    the request; and the first phase of DNS matching lets through every
    non-inverted rule the second phase accepts. *)

From stdpp Require Import base list strings gmap.
From Stdlib Require Import ZArith Lia.
From S2P Require Import Prelude GoStd External Adapter RuleItem RuleAbstract RuleTree.

(** ** The generic theorem, on a fresh cache *)

Section fresh.
Context {I A : Type} `{PureItem I}.

(** On a freshly reset cache, a rule built with
    at least one condition matches exactly when every plain item holds and
    every non-empty address or port group has an item that holds, the domain
    and IPCIDR items counting as one group; an inverted rule matches exactly
    when this is not the case. *)
Theorem default_rule_match_fresh (r : abstractDefaultRule I A) m :
  rule_grouped r -> allItems r <> [] -> cache m = NoCache ->
  (abstractDefaultRule_Match r m).1 = true <->
  (if invert r then ~ rule_condition r m else rule_condition r m).
Proof.
  intros Hg Ha Hc. rewrite abstractDefaultRule_Match_spec.
  assert (Hn : nonempty (allItems r) = true) by by destruct (allItems r).
  rewrite Hn, (rule_examined_fresh r m Hc Hg Hn). simpl.
  pose proof (rule_matches_fresh r m Hc) as Hf.
  destruct (rule_matches r m), (invert r); simpl; naive_solver.
Qed.
End fresh.

(** ** Plain items are pure *)

Section leaf.
Context `{External} (h : Host).
#[local] Hint Extern 0 (ItemOps RuleItem) => exact (leaf_ops h) : typeclass_instances.

Lemma RuleItem_Match_ext it m m' :
  same_request m m' ->
  IPCIDRMatchSource (cache m) = IPCIDRMatchSource (cache m') ->
  IPCIDRAcceptEmpty (cache m) = IPCIDRAcceptEmpty (cache m') ->
  RuleItem_Match h it m = RuleItem_Match h it m'.
Proof.
  intros [c ->]%same_request_inv H1 H2.
  destruct it; try done. simpl. unfold IPCIDRItem_Match. simpl in *. by rewrite H1, H2.
Qed.

#[local] Instance leaf_pure : PureItem (H := leaf_ops h) RuleItem := {
  item_eval := RuleItem_Match h;
  item_Match_eval _ _ := eq_refl;
  item_eval_ext := RuleItem_Match_ext;
  item_not_ruleset _ := eq_refl
}.

(** *** Denotation of headless rules *)

Fixpoint headless_holds (r : HeadlessRule) (m : InboundContext) : bool :=
  match r with
  | DefaultHeadlessRule r =>
      if nonempty (allItems r) then xorb (rule_matches r (set_cache NoCache m)) (invert r) else true
  | LogicalHeadlessRule (Build_abstractLogicalRule _ _ rs mode inv _) =>
      xorb (if decide (mode = LogicalTypeAnd) then forallb (fun r => headless_holds r m) rs
            else existsb (fun r => headless_holds r m) rs) inv
  end.

Fixpoint headless_grouped (r : HeadlessRule) : Prop :=
  match r with
  | DefaultHeadlessRule r => rule_grouped r
  | LogicalHeadlessRule (Build_abstractLogicalRule _ _ rs _ _ _) =>
      foldr (fun r P => headless_grouped r /\ P) True rs
  end.

Lemma headless_grouped_logical rs mode inv act r :
  headless_grouped (LogicalHeadlessRule (Build_abstractLogicalRule _ _ rs mode inv act)) ->
  r ∈ rs -> headless_grouped r.
Proof.
  simpl. induction rs as [|x rs IH]; intros Hg Hr; [set_solver|].
  destruct Hg. apply elem_of_cons in Hr as [->|]; auto.
Qed.

Lemma leaf_frame (it : RuleItem) m : match_frame m (item_Match it m).2.
Proof. done. Qed.

Lemma HeadlessRule_Match_frame r m : match_frame m (HeadlessRule_Match h r m).2.
Proof.
  revert m. induction r as [r|r IH] using HeadlessRule_tree_ind; intros m; simpl.
  - apply abstractDefaultRule_Match_frame, leaf_frame.
  - apply abstractLogicalRule_Match_frame. rewrite Forall_forall in IH. auto.
Qed.

Lemma rule_matches_ext {A} (r : abstractDefaultRule RuleItem A) m m' :
  same_request m m' -> cache m = cache m' -> rule_matches r m = rule_matches r m'.
Proof. intros [c ->]%same_request_inv Hc. simpl in Hc. by rewrite <- Hc, set_cache_id. Qed.

Lemma headless_holds_request r m m' : same_request m m' -> headless_holds r m = headless_holds r m'.
Proof.
  intros Hr. induction r as [r|[rs mode inv act] IH] using HeadlessRule_tree_ind; simpl.
  - by rewrite Hr.
  - simpl in IH. rewrite Forall_forall in IH.
    by rewrite (forallb_ext_in _ _ _ IH), (existsb_ext_in _ _ _ IH).
Qed.

Lemma headless_match_holds r m :
  headless_grouped r -> cache m = NoCache -> (HeadlessRule_Match h r m).1 = headless_holds r m.
Proof.
  revert m. induction r as [r|[rs mode inv act] IH] using HeadlessRule_tree_ind; intros m Hg Hc.
  - simpl. rewrite abstractDefaultRule_Match_spec, <- Hc, set_cache_id.
    destruct (nonempty (allItems r)) eqn:Hn; [|done].
    rewrite (rule_examined_fresh r m Hc Hg Hn). by destruct (rule_matches r m), (invert r).
  - cbn [HeadlessRule_Match headless_holds]. rewrite Forall_forall in IH.
    assert (Hreset : ResetRuleCache m = m).
    { apply upd_cache_same. by rewrite Hc. }
    rewrite abstractLogicalRule_Match_pure; rewrite Hreset; cbn [rules Adapter.cache linvert].
    2: { intros it _. apply HeadlessRule_Match_frame. }
    simpl. f_equal. case_decide; [apply forallb_ext_in|apply existsb_ext_in];
      intros x Hx; (apply IH; [done|by eapply headless_grouped_logical|done]).
Qed.
End leaf.

(** *** A rule for the witnesses: network tcp, source port 53 or 5353 *)

Section example.
#[local] Existing Instance concrete_external.

Definition example_host : Host :=
  {| DefaultNetworkInterface := None; WIFIState_SSID := ""; WIFIState_BSSID := ""; ClashMode := None |}.

Definition example_rule : abstractDefaultRule RuleItem unit :=
  {| items := [ItNetwork (NewNetworkItem ["tcp"])]; sourceAddressItems := [];
     sourcePortItems := [ItPort (NewPortItem true [53%Z; 5353%Z])]; destinationAddressItems := [];
     destinationIPCIDRItems := []; destinationPortItems := [];
     allItems := [ItNetwork (NewNetworkItem ["tcp"]); ItPort (NewPortItem true [53%Z; 5353%Z])];
     invert := false; action := tt |}.

#[local] Instance example_ops : ItemOps RuleItem := leaf_ops example_host.
#[local] Instance example_pure : PureItem RuleItem := leaf_pure example_host.

Lemma default_rule_match_fresh_witness :
  (abstractDefaultRule_Match example_rule InboundContextZero).1 = true <->
  rule_condition example_rule InboundContextZero.
Proof.
  apply (default_rule_match_fresh example_rule InboundContextZero).
  - unfold rule_grouped. reflexivity.
  - discriminate.
  - reflexivity.
Defined.
End example.

Section headless_theorems.
Context `{External} (h : Host).

(** On any context outside the address-limit phase, after
    [ResetRuleCache], a headless rule tree answers with its denotation, which
    evaluates every default rule on the request alone, combines them with the
    mode of the logical rules and applies the inversions; and it changes
    nothing of the request. *)
Lemma headless_match_denotes r m :
  headless_grouped r -> IgnoreDestinationIPCIDRMatch (cache m) = false ->
  (HeadlessRule_Match h r (ResetRuleCache m)).1 = headless_holds h r m /\
  same_request m (HeadlessRule_Match h r (ResetRuleCache m)).2.
Proof.
  intros Hg Hi. split.
  - rewrite headless_match_holds; [|done|simpl; by rewrite Hi].
    apply headless_holds_request. symmetry. apply same_request_upd.
  - destruct (HeadlessRule_Match_frame h r (ResetRuleCache m)) as [Hr _].
    transitivity (ResetRuleCache m); [apply same_request_upd|exact Hr].
Qed.

(** The answer of a
    logical rule does not depend on the cache it is called with, so the
    [ip_cidr_match_source] and [ip_cidr_accept_empty] flags that a rule-set
    item sets before matching its rule-sets have no effect below a logical
    rule of the rule-set. *)
Theorem logical_headless_ignores_flags r m c :
  IgnoreDestinationIPCIDRMatch c = IgnoreDestinationIPCIDRMatch (cache m) ->
  (HeadlessRule_Match h (LogicalHeadlessRule r) m).1 =
  (HeadlessRule_Match h (LogicalHeadlessRule r) (set_cache c m)).1.
Proof.
  intros Hc. destruct r as [[|x rs] mode inv act]; simpl; [by destruct (decide _)|].
  replace (ResetRuleCache (set_cache c m)) with (ResetRuleCache m).
  2: { unfold ResetRuleCache, upd_cache. simpl. by rewrite Hc. }
  destruct (decide _), (HeadlessRule_Match h x (ResetRuleCache m)) as [[] ?]; simpl;
    by try destruct (all_st _ _ _); try destruct (any_st _ _ _).
Qed.
End headless_theorems.

(** The flag has an effect on the rule itself, none on the rule wrapped in a
    logical one. *)
Lemma logical_headless_ignores_flags_witness :
  (HeadlessRule_Match (H := concrete_external) example_host
     (LogicalHeadlessRule {| rules := [DefaultHeadlessRule example_rule]; mode := LogicalTypeAnd;
                             linvert := false; laction := tt |}) InboundContextZero).1 =
  (HeadlessRule_Match (H := concrete_external) example_host
     (LogicalHeadlessRule {| rules := [DefaultHeadlessRule example_rule]; mode := LogicalTypeAnd;
                             linvert := false; laction := tt |})
     (set_cache (set_IPCIDR true true NoCache) InboundContextZero)).1.
Proof.
  apply (logical_headless_ignores_flags (H := concrete_external) example_host
    {| rules := [DefaultHeadlessRule example_rule]; mode := LogicalTypeAnd;
       linvert := false; laction := tt |}
    InboundContextZero (set_IPCIDR true true NoCache)). reflexivity.
Defined.

(** ** Rules whose items are all plain *)

Definition map_rule {I J A} (f : I -> J) (r : abstractDefaultRule I A) : abstractDefaultRule J A :=
  {| items := f <$> items r; sourceAddressItems := f <$> sourceAddressItems r;
     sourcePortItems := f <$> sourcePortItems r;
     destinationAddressItems := f <$> destinationAddressItems r;
     destinationIPCIDRItems := f <$> destinationIPCIDRItems r;
     destinationPortItems := f <$> destinationPortItems r;
     allItems := f <$> allItems r; invert := invert r; action := action r |}.

Section map_rule.
Context {I J A : Type} `{ItemOps I} `{ItemOps J} (f : I -> J).
Context (f_Match : forall it m, item_Match (f it) m = item_Match it m).
Context (f_isRuleSet : forall it, item_isRuleSet (f it) = item_isRuleSet it).

Lemma nonempty_fmap {B C} (g : B -> C) (l : list B) : nonempty (g <$> l) = nonempty l.
Proof. by destruct l. Qed.

Lemma any_st_fmap l m : any_st item_Match (f <$> l) m = any_st item_Match l m.
Proof.
  revert m; induction l as [|x l IH]; intros m; simpl; [done|].
  rewrite f_Match. destruct (item_Match x m) as [[] m']; [done|apply IH].
Qed.

Lemma match_group_fmap flag set l m : match_group flag set (f <$> l) m = match_group flag set l m.
Proof. unfold match_group. by rewrite nonempty_fmap, any_st_fmap. Qed.

Lemma all_st_fmap l m : all_st match_item (f <$> l) m = all_st match_item l m.
Proof.
  revert m; induction l as [|x l IH]; intros m; simpl; [done|].
  unfold match_item at 1 3. rewrite f_Match, f_isRuleSet.
  destruct (item_Match x _) as [[] m']; [apply IH|done].
Qed.

Lemma abstractDefaultRule_Match_map (r : abstractDefaultRule I A) m :
  abstractDefaultRule_Match (map_rule f r) m = abstractDefaultRule_Match r m.
Proof.
  unfold abstractDefaultRule_Match. simpl.
  by rewrite !nonempty_fmap, !match_group_fmap, all_st_fmap.
Qed.
End map_rule.

Lemma plain_rule_Match `{External} {A} h sets (r : abstractDefaultRule RuleItem A) m :
  @abstractDefaultRule_Match _ _ (any_ops h sets) (map_rule Plain r) m =
  @abstractDefaultRule_Match _ _ (leaf_ops h) r m.
Proof. by apply (@abstractDefaultRule_Match_map _ _ _ (leaf_ops h) (any_ops h sets)). Qed.

(** ** Route and DNS rules do not change the request *)

Section rule_frames.
Context `{External} {A : Type} (h : Host) (sets : RuleSetTable).

Lemma match_set_frame tag m : match_frame m (match_set h sets tag m).2.
Proof.
  unfold match_set. destruct (sets !! tag) as [s|]; [|done].
  apply (any_st_rel match_frame). intros; apply HeadlessRule_Match_frame.
Qed.

Lemma any_frame (it : AnyItem) m : match_frame m (@item_Match _ (any_ops h sets) it m).2.
Proof.
  destruct it as [i|i]; [done|]. simpl. unfold RuleSetItem_Match.
  etrans; [|apply (any_st_rel match_frame); intros; apply match_set_frame].
  by apply match_frame_upd.
Qed.

Lemma Rule_Match_frame (r : Rule A) m : match_frame m (Rule_Match h sets r m).2.
Proof.
  revert m. induction r as [r|r IH] using Rule_tree_ind; intros m; simpl.
  - apply abstractDefaultRule_Match_frame, any_frame.
  - apply abstractLogicalRule_Match_frame. rewrite Forall_forall in IH. auto.
Qed.

Lemma DNSRule_MatchAddressLimit_frame (r : Rule A) m :
  match_frame m (DNSRule_MatchAddressLimit h sets r m).2.
Proof.
  revert m. induction r as [r|r IH] using Rule_tree_ind; intros m; simpl.
  - apply abstractDefaultRule_Match_frame, any_frame.
  - apply abstractLogicalRule_Match_frame. rewrite Forall_forall in IH. auto.
Qed.

(** The first DNS phase sets and clears the IPCIDR phase flag. *)
Lemma DNSRule_Match_frame (r : Rule A) m :
  IgnoreDestinationIPCIDRMatch (cache m) = false -> match_frame m (DNSRule_Match h sets r m).2.
Proof.
  revert m. induction r as [r|[rs mode inv act] IH] using Rule_tree_ind; intros m Hm; simpl.
  - pose proof (@abstractDefaultRule_Match_frame _ _ (any_ops h sets) any_frame r
                  (upd_cache (set_Ignore true) m)) as [Hr _].
    destruct (abstractDefaultRule_Match _ _) as [b m']. simpl in *.
    split; [|done]. etrans; [|exact Hr]. apply same_request_upd.
  - simpl in IH. rewrite Forall_forall in IH.
    set (R := fun m m' => IgnoreDestinationIPCIDRMatch (cache m) = false ->
                match_frame m m' /\ IgnoreDestinationIPCIDRMatch (cache m') = false).
    assert (PreOrder R).
    { split; [by intros ??|]. intros m1 m2 m3 H12 H23 H1.
      destruct (H12 H1) as [? H2]. destruct (H23 H2). split; [by etrans|done]. }
    assert (Hb : forall it m', it ∈ rs -> R m' (DNSRule_Match h sets it (ResetRuleCache m')).2).
    { intros it m' Hit Hm'. pose proof (IH it Hit (ResetRuleCache m') Hm') as Hf.
      split; [|by destruct Hf as [_ <-]]. etrans; [|exact Hf]. by apply match_frame_reset. }
    destruct (decide (mode = LogicalTypeAnd)).
    + pose proof (all_st_rel R (fun it m => DNSRule_Match h sets it (ResetRuleCache m)) rs m Hb Hm).
      destruct (all_st _ _ _). naive_solver.
    + pose proof (any_st_rel R (fun it m => DNSRule_Match h sets it (ResetRuleCache m)) rs m Hb Hm).
      destruct (any_st _ _ _). naive_solver.
Qed.

(** None of the three matches of a
    route or DNS rule, rule-set items and logical trees included, changes a
    field of the inbound context outside the rule cache, and each leaves the
    IPCIDR phase flag as it found it. *)
Theorem rule_match_keeps_request (r : Rule A) m :
  match_frame m (Rule_Match h sets r m).2 /\
  match_frame m (DNSRule_MatchAddressLimit h sets r m).2 /\
  (IgnoreDestinationIPCIDRMatch (cache m) = false -> match_frame m (DNSRule_Match h sets r m).2).
Proof.
  eauto using Rule_Match_frame, DNSRule_MatchAddressLimit_frame, DNSRule_Match_frame.
Qed.
End rule_frames.

(** ** The two phases of DNS matching *)

(** The addresses of the answer, put in the context before the second phase. *)
Definition with_addresses (addrs : list Addr) (m : InboundContext) : InboundContext :=
  {| Inbound := Inbound m; InboundType := InboundType m; IPVersion := IPVersion m;
     Network := Network m; Source := Source m; Destination := Destination m; User := User m;
     Outbound := Outbound m; Protocol := Protocol m; Domain := Domain m; Client := Client m;
     SnifferNames := SnifferNames m; SniffError := SniffError m; LastInbound := LastInbound m;
     OriginDestination := OriginDestination m;
     RouteOriginalDestination := RouteOriginalDestination m;
     UDPDisableDomainUnmapping := UDPDisableDomainUnmapping m; UDPConnect := UDPConnect m;
     UDPTimeout := UDPTimeout m; TLSFragment := TLSFragment m;
     TLSFragmentFallbackDelay := TLSFragmentFallbackDelay m;
     TLSRecordFragment := TLSRecordFragment m; NetworkStrategy_ := NetworkStrategy_ m;
     NetworkType := NetworkType m; FallbackNetworkType := FallbackNetworkType m;
     FallbackDelay := FallbackDelay m; DestinationAddresses := addrs;
     ResolveRouteOnly := ResolveRouteOnly m; SourceGeoIPCode := SourceGeoIPCode m;
     GeoIPCode := GeoIPCode m; ProcessInfo_ := ProcessInfo_ m; QueryType := QueryType m;
     FakeIP := FakeIP m; cache := cache m |}.

(** Items that look at the resolved addresses; the constructors put them with
    the destination IPCIDR items only (see RuleBuild.v). *)
Definition reads_addresses `{External} (it : RuleItem) : bool :=
  match it with
  | ItIPCIDR i => negb (ici_isSource i)
  | ItIPIsPrivate i => negb (ipi_isSource i)
  | ItIPAcceptAny => true
  | _ => false
  end.

Definition address_free `{External} {A} (r : abstractDefaultRule RuleItem A) : bool :=
  forallb (fun it => negb (reads_addresses it))
    (items r ++ sourceAddressItems r ++ sourcePortItems r ++ destinationAddressItems r ++
     destinationPortItems r).

Section two_phases.
Context `{External} {A : Type} (h : Host) (sets : RuleSetTable).
#[local] Hint Extern 0 (ItemOps RuleItem) => exact (leaf_ops h) : typeclass_instances.
#[local] Hint Extern 0 (PureItem RuleItem) => exact (leaf_pure h) : typeclass_instances.

Lemma RuleItem_Match_addresses it addrs m :
  reads_addresses it = false -> RuleItem_Match h it (with_addresses addrs m) = RuleItem_Match h it m.
Proof.
  destruct it as [| | | | | | | | | |i|i| | | | | | | | | | | | | | | | |]; try done; simpl.
  - unfold IPCIDRItem_Match. by destruct (ici_isSource i).
  - unfold IPIsPrivateItem_Match. by destruct (ipi_isSource i).
Qed.

(** The context of the two phases, as the DNS router prepares them. *)
Definition phase1_context (m : InboundContext) : InboundContext :=
  upd_cache (set_Ignore true) (ResetRuleCache m).
Definition phase2_context (addrs : list Addr) (m : InboundContext) : InboundContext :=
  with_addresses addrs (ResetRuleCache m).

Lemma item_eval_phases it addrs m :
  reads_addresses it = false ->
  RuleItem_Match h it (phase2_context addrs m) = RuleItem_Match h it (phase1_context m).
Proof.
  intros Hit. unfold phase2_context. rewrite RuleItem_Match_addresses by done.
  by apply RuleItem_Match_ext.
Qed.

Lemma group_hit_phases (l : list RuleItem) addrs m :
  forallb (fun it => negb (reads_addresses it)) l = true ->
  group_hit l (phase2_context addrs m) = group_hit l (phase1_context m).
Proof.
  rewrite forallb_elem_of. intros Hl. apply existsb_ext_in. intros it Hit.
  apply item_eval_phases. specialize (Hl it Hit). by destruct (reads_addresses it).
Qed.

Lemma items_phases (l : list RuleItem) addrs m :
  forallb (fun it => negb (reads_addresses it)) l = true ->
  forallb (fun it => item_eval it (phase2_context addrs m)) l =
  forallb (fun it => item_eval it (phase1_context m)) l.
Proof.
  rewrite forallb_elem_of. intros Hl. apply forallb_ext_in. intros it Hit.
  apply item_eval_phases. specialize (Hl it Hit). by destruct (reads_addresses it).
Qed.

Lemma default_phase1 (r : abstractDefaultRule RuleItem A) m :
  invert r = false ->
  (DNSRule_Match h sets (DefaultRule (map_rule Plain r)) (ResetRuleCache m)).1 =
  negb (nonempty (allItems r)) || rule_matches r (phase1_context m).
Proof.
  intros Hi. simpl. rewrite plain_rule_Match. fold (phase1_context m).
  pose proof (abstractDefaultRule_Match_spec r (phase1_context m)) as Hs.
  destruct (abstractDefaultRule_Match r _) as [b m']. simpl in *. rewrite Hs, Hi.
  destruct (nonempty _); simpl; [|done]. destruct (rule_matches _ _); simpl; [|done].
  by destruct (rule_examined _ _).
Qed.

Lemma default_phase2 (r : abstractDefaultRule RuleItem A) addrs m :
  invert r = false ->
  (DNSRule_MatchAddressLimit h sets (DefaultRule (map_rule Plain r)) (phase2_context addrs m)).1 =
  negb (nonempty (allItems r)) || rule_matches r (phase2_context addrs m).
Proof.
  intros Hi. simpl. rewrite plain_rule_Match, abstractDefaultRule_Match_spec, Hi.
  destruct (nonempty _); simpl; [|done]. destruct (rule_matches _ _); simpl; [|done].
  by destruct (rule_examined _ _).
Qed.

(** The two phases of one rule agree but for the destination groups. *)
Lemma rule_matches_phases (r : abstractDefaultRule RuleItem A) addrs m :
  address_free r = true -> IgnoreDestinationIPCIDRMatch (cache m) = false ->
  exists others, rule_matches r (phase1_context m) =
    others && (negb (nonempty (destinationAddressItems r)) ||
               group_hit (destinationAddressItems r) (phase1_context m)) /\
  rule_matches r (phase2_context addrs m) =
    others && (negb (nonempty (destinationIPCIDRItems r) || nonempty (destinationAddressItems r)) ||
               group_hit (destinationAddressItems r) (phase1_context m) ||
               nonempty (destinationIPCIDRItems r) &&
                 group_hit (destinationIPCIDRItems r) (phase2_context addrs m)).
Proof.
  unfold address_free. rewrite !forallb_app, !andb_true_iff. intros (Hi & Hs & Hp & Hd & Hdp) Hig.
  unfold rule_matches, group_ok, destination_ok, considers_ip.
  rewrite (items_phases _ addrs m Hi), (group_hit_phases (sourceAddressItems r)),
    (group_hit_phases (sourcePortItems r)), (group_hit_phases (destinationAddressItems r)),
    (group_hit_phases (destinationPortItems r)) by done.
  change (cache (phase2_context addrs m)) with (cache (ResetRuleCache m)).
  simpl. rewrite Hig. simpl. rewrite ?orb_false_r.
  set (ok (l : list RuleItem) := negb (nonempty l) || group_hit l (phase1_context m)).
  exists (forallb (fun it => RuleItem_Match h it (phase1_context m)) (items r) &&
     ok (sourceAddressItems r) && ok (sourcePortItems r) && ok (destinationPortItems r)).
  split; rewrite <- !andb_assoc; do 3 f_equal; apply andb_comm.
Qed.

(** Rules the phase theorems speak about: plain items placed as the
    constructors place them, and no inversion. *)
Definition phased (r : abstractDefaultRule RuleItem A) : Prop :=
  address_free r = true /\ invert r = false.

(** Trees of such rules in which no default rule mixes domain and IPCIDR
    items. *)
Fixpoint prematch_rule (r : Rule A) : Prop :=
  match r with
  | DefaultRule r => exists r0, r = map_rule Plain r0 /\ phased r0 /\
      (destinationAddressItems r0 = [] \/ destinationIPCIDRItems r0 = [])
  | LogicalRule (Build_abstractLogicalRule _ _ rs _ inv _) =>
      inv = false /\ foldr (fun r P => prematch_rule r /\ P) True rs
  end.

Lemma prematch_rule_sub rs mode inv act r :
  prematch_rule (LogicalRule (Build_abstractLogicalRule _ _ rs mode inv act)) -> r ∈ rs ->
  prematch_rule r.
Proof.
  intros [_ Hg] Hr. induction rs as [|x rs IH]; [set_solver|].
  destruct Hg. apply elem_of_cons in Hr as [->|]; auto.
Qed.

(** For a tree of non-inverted rules of plain items in which no default rule
    mixes domain and IPCIDR items, if the answer's addresses pass
    [MatchAddressLimit] then the rule was selected by [Match] before the query
    was sent. *)
Lemma prematch_sound (r : Rule A) addrs m :
  prematch_rule r -> IgnoreDestinationIPCIDRMatch (cache m) = false ->
  (DNSRule_MatchAddressLimit h sets r (phase2_context addrs m)).1 = true ->
  (DNSRule_Match h sets r (ResetRuleCache m)).1 = true.
Proof.
  revert m.
  induction r as [r|[rs md inv act] IH] using Rule_tree_ind; intros m Hr Hi.
  - destruct Hr as (r0 & -> & [Hf Hv] & Hor).
    rewrite default_phase2, default_phase1 by done.
    destruct (rule_matches_phases r0 addrs m Hf Hi) as (others & -> & ->).
    destruct (nonempty (allItems r0)); simpl; [|done].
    destruct Hor as [->| ->]; simpl; destruct others; simpl; try done.
    by rewrite orb_false_r.
  - cbn [DNSRule_Match DNSRule_MatchAddressLimit]. rewrite Forall_forall in IH.
    destruct (Hr) as [-> _].
    rewrite !abstractLogicalRule_Match_pure; cbn [rules mode linvert].
    2: { intros it _. by apply (DNSRule_Match_frame h sets it (ResetRuleCache (ResetRuleCache m))). }
    2: { intros it _. etrans; [|apply DNSRule_MatchAddressLimit_frame]. by apply match_frame_reset. }
    assert (Hsub : forall x, x ∈ rs ->
      (DNSRule_MatchAddressLimit h sets x (phase2_context addrs m)).1 = true ->
      (DNSRule_Match h sets x (ResetRuleCache m)).1 = true).
    { intros x Hx. apply IH; [done| |done]. by eapply prematch_rule_sub. }
    rewrite !xorb_false_r. case_decide; [by apply forallb_mono|by apply existsb_mono].
Qed.

(** When a non-inverted default rule has domain items, a query selected in the
    first phase passes [MatchAddressLimit] whatever addresses the answer
    carries. *)
Lemma domain_rule_accepts_any_address (r : abstractDefaultRule RuleItem A) addrs m :
  phased r -> IgnoreDestinationIPCIDRMatch (cache m) = false -> destinationAddressItems r <> [] ->
  (DNSRule_Match h sets (DefaultRule (map_rule Plain r)) (ResetRuleCache m)).1 = true ->
  (DNSRule_MatchAddressLimit h sets (DefaultRule (map_rule Plain r)) (phase2_context addrs m)).1
    = true.
Proof.
  intros [Hf Hv] Hi Hd. rewrite default_phase2, default_phase1 by done.
  destruct (rule_matches_phases r addrs m Hf Hi) as (others & -> & ->).
  assert (nonempty (destinationAddressItems r) = true) as -> by by destruct (destinationAddressItems r).
  destruct (nonempty (allItems r)), others; simpl; try done.
  intros ->. by rewrite ?orb_true_r.
Qed.
End two_phases.
