(* ===== verification/RuleAction.v ===== *)
(** * route/rule/rule_action.go: what a matched rule does

    The action options as decoded from the configuration, the actions the two
    constructors build from them, their descriptions, the sniffers an action
    selects, the flood limit of [reject] and the answers of [predefined].
    [dns.RR] is a parameter (miekg/dns), as is the dialer a [direct] action
    owns (common/dialer, not modelled). *)

From stdpp Require Import base list strings gmap.
From Stdlib Require Import ZArith Lia Sorted.
From S2P Require Import Prelude GoStd External Adapter.

Open Scope Z_scope.

(** ** Constants *)

Definition RuleActionTypeRoute : string := "route".
Definition RuleActionTypeRouteOptions : string := "route-options".
Definition RuleActionTypeDirect : string := "direct".
Definition RuleActionTypeReject : string := "reject".
Definition RuleActionTypeHijackDNS : string := "hijack-dns".
Definition RuleActionTypeSniff : string := "sniff".
Definition RuleActionTypeResolve : string := "resolve".
Definition RuleActionTypePredefined : string := "predefined".
Definition RuleActionRejectMethodDefault : string := "default".
Definition RuleActionRejectMethodDrop : string := "drop".

Inductive DomainStrategy : Type :=
  | DomainStrategyAsIS | DomainStrategyPreferIPv4 | DomainStrategyPreferIPv6
  | DomainStrategyIPv4Only | DomainStrategyIPv6Only.

#[global] Instance DomainStrategy_eq_dec : EqDecision DomainStrategy.
Proof. solve_decision. Defined.

(** [option.DomainStrategy.String] *)
Definition DomainStrategy_String (s : DomainStrategy) : string :=
  match s with
  | DomainStrategyAsIS => ""
  | DomainStrategyPreferIPv4 => "prefer_ipv4"
  | DomainStrategyPreferIPv6 => "prefer_ipv6"
  | DomainStrategyIPv4Only => "ipv4_only"
  | DomainStrategyIPv6Only => "ipv6_only"
  end.

Definition RcodeSuccess : Z := 0.

Definition Millisecond : Z := 1000000.
Definition Second : Z := 1000000000.

(** ** Options (option/rule_action.go) *)

Record ClientSubnetFromInboundOptions : Type := { csfi_IPv4 : Z; csfi_IPv6 : Z }.

Record RawRouteOptionsActionOptions : Type := {
  o_OverrideAddress : string;
  o_OverridePort : Z;
  o_NetworkStrategy : option NetworkStrategy;
  o_FallbackDelay : Z;
  o_UDPDisableDomainUnmapping : bool;
  o_UDPConnect : bool;
  o_UDPTimeout : Z;
  o_TLSFragment : bool;
  o_TLSFragmentFallbackDelay : Z;
  o_TLSRecordFragment : bool
}.

Record RejectActionOptions : Type := { ro_Method : string; ro_NoDrop : bool }.
Record RouteActionSniff : Type := { so_Sniffer : list string; so_Timeout : Z }.

Record RouteActionResolve : Type := {
  reso_Server : string;
  reso_Strategy : DomainStrategy;
  reso_DisableCache : bool;
  reso_RewriteTTL : option Z;
  reso_ClientSubnet : option Prefix;
  reso_RouteOnly : bool;
  reso_FallbackToFinal : bool
}.

(** [DialerOptions] enters a direct action through its description only; the
    dialer itself is built by common/dialer. *)
Record DirectActionOptions : Type := { do_Descriptions : list string }.

Record RuleActionOptions : Type := {
  ao_Action : string;
  ao_Outbound : string;
  ao_RouteOptions : RawRouteOptionsActionOptions;
  ao_RouteOptionsOptions : RawRouteOptionsActionOptions;
  ao_DirectOptions : DirectActionOptions;
  ao_RejectOptions : RejectActionOptions;
  ao_SniffOptions : RouteActionSniff;
  ao_ResolveOptions : RouteActionResolve
}.

Record DNSRouteOptionsActionOptions : Type := {
  dro_Strategy : DomainStrategy;
  dro_DisableCache : bool;
  dro_RewriteTTL : option Z;
  dro_ClientSubnet : option Prefix;
  dro_ClientSubnetFromInbound : option ClientSubnetFromInboundOptions
}.

Record DNSRouteActionOptions : Type := {
  dra_Server : list string;
  dra_FallbackDNS : list string;
  dra_UpstreamTimeoutMS : Z;
  dra_FallbackTimeoutMS : Z;
  dra_FallbackGraceMS : Z;
  dra_Options : DNSRouteOptionsActionOptions
}.

#[global] Instance ClientSubnetFromInboundOptions_eq_dec : EqDecision ClientSubnetFromInboundOptions.
Proof. solve_decision. Defined.
#[global] Instance RawRouteOptionsActionOptions_eq_dec : EqDecision RawRouteOptionsActionOptions.
Proof. solve_decision. Defined.
#[global] Instance RejectActionOptions_eq_dec : EqDecision RejectActionOptions.
Proof. solve_decision. Defined.
#[global] Instance RouteActionSniff_eq_dec : EqDecision RouteActionSniff.
Proof. solve_decision. Defined.
#[global] Instance RouteActionResolve_eq_dec : EqDecision RouteActionResolve.
Proof. solve_decision. Defined.
#[global] Instance DirectActionOptions_eq_dec : EqDecision DirectActionOptions.
Proof. solve_decision. Defined.
#[global] Instance RuleActionOptions_eq_dec : EqDecision RuleActionOptions.
Proof. solve_decision. Defined.
#[global] Instance DNSRouteOptionsActionOptions_eq_dec : EqDecision DNSRouteOptionsActionOptions.
Proof. solve_decision. Defined.
#[global] Instance DNSRouteActionOptions_eq_dec : EqDecision DNSRouteActionOptions.
Proof. solve_decision. Defined.

Record DNSRouteActionPredefined (RR : Type) : Type := {
  po_Rcode : option Z; po_Answer : list RR; po_Ns : list RR; po_Extra : list RR }.
Arguments po_Rcode {RR}.
Arguments po_Answer {RR}.
Arguments po_Ns {RR}.
Arguments po_Extra {RR}.

Record DNSRuleActionOptions (RR : Type) : Type := {
  dao_Action : string;
  dao_RouteOptions : DNSRouteActionOptions;
  dao_RouteOptionsOptions : DNSRouteOptionsActionOptions;
  dao_RejectOptions : RejectActionOptions;
  dao_PredefinedOptions : DNSRouteActionPredefined RR
}.
Arguments dao_Action {RR}.
Arguments dao_RouteOptions {RR}.
Arguments dao_RouteOptionsOptions {RR}.
Arguments dao_RejectOptions {RR}.
Arguments dao_PredefinedOptions {RR}.

(** ** Actions *)

Record RuleActionRouteOptions : Type := {
  OverrideAddress : Socksaddr;
  OverridePort : Z;
  act_NetworkStrategy : option NetworkStrategy;
  act_NetworkType : option (list InterfaceType);
  act_FallbackNetworkType : option (list InterfaceType);
  act_FallbackDelay : Z;
  act_UDPDisableDomainUnmapping : bool;
  act_UDPConnect : bool;
  act_UDPTimeout : Z;
  act_TLSFragment : bool;
  act_TLSFragmentFallbackDelay : Z;
  act_TLSRecordFragment : bool
}.

(** The sniffers of common/sniff an action can select. *)
Inductive StreamSniffer : Type :=
  | TLSClientHello | HTTPHost | StreamDomainNameQuery | BitTorrent | SSH | RDP.
Inductive PacketSniffer : Type :=
  | QUICClientHello | DomainNameQuery | STUNMessage | UTP | UDPTracker | DTLSRecord | NTP.

Record RuleActionSniff : Type := {
  sn_SnifferNames : list string;
  StreamSniffers : list StreamSniffer;
  PacketSniffers : list PacketSniffer;
  sn_Timeout : Z;
  OverrideDestination : bool
}.

Record RuleActionResolve : Type := {
  res_Server : string;
  res_Strategy : DomainStrategy;
  res_DisableCache : bool;
  res_RewriteTTL : option Z;
  res_ClientSubnet : Prefix;
  res_RouteOnly : bool;
  res_FallbackToFinal : bool
}.

Record RuleActionReject : Type := { rej_Method : string; rej_NoDrop : bool }.

Inductive RuleAction : Type :=
  | ActRoute (outbound : string) (options : RuleActionRouteOptions)
  | ActRouteOptions (options : RuleActionRouteOptions)
  | ActDirect (description : string)
  | ActReject (r : RuleActionReject)
  | ActHijackDNS
  | ActSniff (s : RuleActionSniff)
  | ActResolve (r : RuleActionResolve).

Record RuleActionDNSRouteOptions : Type := {
  dr_Strategy : DomainStrategy;
  dr_DisableCache : bool;
  dr_RewriteTTL : option Z;
  dr_ClientSubnet : Prefix;
  dr_ClientSubnetFromInbound : option ClientSubnetFromInboundOptions
}.

Record RuleActionDNSRoute : Type := {
  Servers : list string;
  FallbackServers : list string;
  UpstreamTimeout : Z;
  FallbackTimeout : Z;
  FallbackGrace : Z;
  dr_options : RuleActionDNSRouteOptions
}.

Inductive DNSAction (RR : Type) : Type :=
  | DNSActRoute (r : RuleActionDNSRoute)
  | DNSActRouteOptions (r : RuleActionDNSRouteOptions)
  | DNSActReject (r : RuleActionReject)
  | DNSActPredefined (rcode : Z) (answer ns extra : list RR).
Arguments DNSActRoute {RR} r.
Arguments DNSActRouteOptions {RR} r.
Arguments DNSActReject {RR} r.
Arguments DNSActPredefined {RR} rcode answer ns extra.

(** ** Sniffers by name: [RuleActionSniff.build] *)

Definition sniffers_named (name : string) : res (list StreamSniffer * list PacketSniffer) :=
  if decide (name = "tls") then Ok ([TLSClientHello], [])
  else if decide (name = "http") then Ok ([HTTPHost], [])
  else if decide (name = "quic") then Ok ([], [QUICClientHello])
  else if decide (name = "dns") then Ok ([StreamDomainNameQuery], [DomainNameQuery])
  else if decide (name = "stun") then Ok ([], [STUNMessage])
  else if decide (name = "bittorrent") then Ok ([BitTorrent], [UTP; UDPTracker])
  else if decide (name = "dtls") then Ok ([], [DTLSRecord])
  else if decide (name = "ssh") then Ok ([SSH], [])
  else if decide (name = "rdp") then Ok ([RDP], [])
  else if decide (name = "ntp") then Ok ([], [NTP])
  else Err (ErrNew ("unknown sniffer: " +:+ name)).

Fixpoint build_sniffers (names : list string) (ss : list StreamSniffer) (ps : list PacketSniffer)
    : res (list StreamSniffer * list PacketSniffer) :=
  match names with
  | [] => Ok (ss, ps)
  | name :: names =>
      let* '(s, p) := sniffers_named name in build_sniffers names (ss ++ s) (ps ++ p)
  end.

(** ** NewRuleAction, NewDNSRuleAction *)

Section constructors.
Context `{External}.
(** [dialer.New] of common/dialer: only its error is visible here. *)
Context (dialer_New : DirectActionOptions -> res unit).

(** The route options as [NewRuleAction] copies them for a [route] action
    (no UDP timeout) and for a [route-options] action. *)
Definition route_options (udp_timeout : Z) (o : RawRouteOptionsActionOptions)
    : RuleActionRouteOptions :=
  {| OverrideAddress := ParseSocksaddrHostPort (o_OverrideAddress o) 0;
     OverridePort := o_OverridePort o;
     act_NetworkStrategy := o_NetworkStrategy o;
     act_NetworkType := None;
     act_FallbackNetworkType := None;
     act_FallbackDelay := o_FallbackDelay o;
     act_UDPDisableDomainUnmapping := o_UDPDisableDomainUnmapping o;
     act_UDPConnect := o_UDPConnect o;
     act_UDPTimeout := udp_timeout;
     act_TLSFragment := o_TLSFragment o;
     act_TLSFragmentFallbackDelay := o_TLSFragmentFallbackDelay o;
     act_TLSRecordFragment := o_TLSRecordFragment o |}.

Definition direct_description (descriptions : list string) : string :=
  match descriptions with
  | [] => ""
  | [d] => "(" +:+ d +:+ ")"
  | [d; e] => "(" +:+ d +:+ "," +:+ e +:+ ")"
  | d :: e :: _ => "(" +:+ d +:+ "," +:+ e +:+ ",...)"
  end.

Definition NewRuleAction (o : RuleActionOptions) : res (option RuleAction) :=
  let a := ao_Action o in
  if decide (a = "") then Ok None
  else if decide (a = RuleActionTypeRoute) then
    Ok (Some (ActRoute (ao_Outbound o) (route_options 0 (ao_RouteOptions o))))
  else if decide (a = RuleActionTypeRouteOptions) then
    Ok (Some (ActRouteOptions
      (route_options (o_UDPTimeout (ao_RouteOptionsOptions o)) (ao_RouteOptionsOptions o))))
  else if decide (a = RuleActionTypeDirect) then
    let* _ := dialer_New (ao_DirectOptions o) in
    Ok (Some (ActDirect (direct_description (do_Descriptions (ao_DirectOptions o)))))
  else if decide (a = RuleActionTypeReject) then
    Ok (Some (ActReject {| rej_Method := ro_Method (ao_RejectOptions o);
                           rej_NoDrop := ro_NoDrop (ao_RejectOptions o) |}))
  else if decide (a = RuleActionTypeHijackDNS) then Ok (Some ActHijackDNS)
  else if decide (a = RuleActionTypeSniff) then
    let* '(ss, ps) := build_sniffers (so_Sniffer (ao_SniffOptions o)) [] [] in
    Ok (Some (ActSniff {| sn_SnifferNames := so_Sniffer (ao_SniffOptions o);
                          StreamSniffers := ss; PacketSniffers := ps;
                          sn_Timeout := so_Timeout (ao_SniffOptions o);
                          OverrideDestination := false |}))
  else if decide (a = RuleActionTypeResolve) then
    let r := ao_ResolveOptions o in
    Ok (Some (ActResolve {| res_Server := reso_Server r; res_Strategy := reso_Strategy r;
                            res_DisableCache := reso_DisableCache r;
                            res_RewriteTTL := reso_RewriteTTL r;
                            res_ClientSubnet := default PrefixInvalid (reso_ClientSubnet r);
                            res_RouteOnly := reso_RouteOnly r;
                            res_FallbackToFinal := reso_FallbackToFinal r |}))
  else Panic ("unknown rule action: " +:+ a).

Definition dns_route_options (o : DNSRouteOptionsActionOptions) : RuleActionDNSRouteOptions :=
  {| dr_Strategy := dro_Strategy o; dr_DisableCache := dro_DisableCache o;
     dr_RewriteTTL := dro_RewriteTTL o;
     dr_ClientSubnet := default PrefixInvalid (dro_ClientSubnet o);
     dr_ClientSubnetFromInbound := dro_ClientSubnetFromInbound o |}.

Definition NewDNSRuleAction {RR} (o : DNSRuleActionOptions RR) : res (option (DNSAction RR)) :=
  let a := dao_Action o in
  if decide (a = "") then Ok None
  else if decide (a = RuleActionTypeRoute) then
    let r := dao_RouteOptions o in
    Ok (Some (DNSActRoute
      {| Servers := dra_Server r; FallbackServers := dra_FallbackDNS r;
         UpstreamTimeout := dra_UpstreamTimeoutMS r * Millisecond;
         FallbackTimeout := dra_FallbackTimeoutMS r * Millisecond;
         FallbackGrace := dra_FallbackGraceMS r * Millisecond;
         dr_options := dns_route_options (dra_Options r) |}))
  else if decide (a = RuleActionTypeRouteOptions) then
    Ok (Some (DNSActRouteOptions (dns_route_options (dao_RouteOptionsOptions o))))
  else if decide (a = RuleActionTypeReject) then
    Ok (Some (DNSActReject {| rej_Method := ro_Method (dao_RejectOptions o);
                              rej_NoDrop := ro_NoDrop (dao_RejectOptions o) |}))
  else if decide (a = RuleActionTypePredefined) then
    let p := dao_PredefinedOptions o in
    Ok (Some (DNSActPredefined (default RcodeSuccess (po_Rcode p)) (po_Answer p) (po_Ns p) (po_Extra p)))
  else Panic ("unknown rule action: " +:+ a).

(** [adapter.IsFinalAction] *)
Definition RuleAction_Type (a : RuleAction) : string :=
  match a with
  | ActRoute _ _ => RuleActionTypeRoute
  | ActRouteOptions _ => RuleActionTypeRouteOptions
  | ActDirect _ => RuleActionTypeDirect
  | ActReject _ => RuleActionTypeReject
  | ActHijackDNS => RuleActionTypeHijackDNS
  | ActSniff _ => RuleActionTypeSniff
  | ActResolve _ => RuleActionTypeResolve
  end.

Definition IsFinalAction (a : RuleAction) : bool :=
  negb (bool_decide (RuleAction_Type a = RuleActionTypeSniff) ||
        bool_decide (RuleAction_Type a = RuleActionTypeResolve)).

(** *** Descriptions *)

Definition opt (b : bool) (s : string) : list string := if b then [s] else [].

(** [RuleActionRouteOptions.Descriptions]; the fallback entry prints the
    primary list, as the source does *)
Definition Descriptions (r : RuleActionRouteOptions) : list string :=
  opt (Socksaddr_IsValid (OverrideAddress r)) ("override-address=" +:+ AddrString (OverrideAddress r)) ++
  opt (0 <? OverridePort r) ("override-port=" +:+ go_itoa (OverridePort r)) ++
  match act_NetworkStrategy r with
  | Some s => ["network-strategy=" +:+ NetworkStrategy_String s] | None => [] end ++
  match act_NetworkType r with
  | Some l => ["network-type=" +:+ strings_Join (map InterfaceType_String l) ","] | None => [] end ++
  match act_FallbackNetworkType r with
  | Some _ => ["fallback-network-type=" +:+
               strings_Join (map InterfaceType_String (default [] (act_NetworkType r))) ","]
  | None => [] end ++
  opt (0 <? act_FallbackDelay r) ("fallback-delay=" +:+ Duration_String (act_FallbackDelay r)) ++
  opt (act_UDPDisableDomainUnmapping r) "udp-disable-domain-unmapping" ++
  opt (act_UDPConnect r) "udp-connect" ++
  opt (0 <? act_UDPTimeout r) "udp-timeout" ++
  opt (act_TLSFragment r) "tls-fragment" ++
  opt (0 <? act_TLSFragmentFallbackDelay r)
    ("tls-fragment-fallback-delay=" +:+ Duration_String (act_TLSFragmentFallbackDelay r)) ++
  opt (act_TLSRecordFragment r) "tls-record-fragment".

Definition RuleActionReject_String (r : RuleActionReject) : string :=
  if decide (rej_Method r = RuleActionRejectMethodDefault) then "reject"
  else "reject(" +:+ rej_Method r +:+ ")".

Definition RuleActionSniff_String (r : RuleActionSniff) : string :=
  match sn_SnifferNames r with
  | [] => if sn_Timeout r =? 0 then "sniff"
          else if 0 <? sn_Timeout r then "sniff(" +:+ Duration_String (sn_Timeout r) +:+ ")"
          else "sniff(" +:+ "," +:+ Duration_String (sn_Timeout r) +:+ ")"
  | names => if sn_Timeout r =? 0 then "sniff(" +:+ strings_Join names "," +:+ ")"
             else "sniff(" +:+ strings_Join names "," +:+ "," +:+ Duration_String (sn_Timeout r) +:+ ")"
  end.

Definition RuleActionResolve_String (r : RuleActionResolve) : string :=
  let options :=
    opt (negb (bool_decide (res_Server r = ""))) (res_Server r) ++
    opt (negb (bool_decide (res_Strategy r = DomainStrategyAsIS))) (DomainStrategy_String (res_Strategy r)) ++
    opt (res_DisableCache r) "disable_cache" ++
    match res_RewriteTTL r with Some t => ["rewrite_ttl=" +:+ go_itoa t] | None => [] end ++
    opt (Prefix_IsValid (res_ClientSubnet r)) ("client_subnet=" +:+ Prefix_String (res_ClientSubnet r)) ++
    opt (res_RouteOnly r) "route_only" ++
    opt (res_FallbackToFinal r) "fallback_to_final" in
  match options with [] => "resolve" | _ => "resolve(" +:+ strings_Join options "," +:+ ")" end.

Definition RuleAction_String (a : RuleAction) : string :=
  match a with
  | ActRoute outbound o => "route(" +:+ strings_Join (outbound :: Descriptions o) "," +:+ ")"
  | ActRouteOptions o => "route-options(" +:+ strings_Join (Descriptions o) "," +:+ ")"
  | ActDirect description => "direct" +:+ description
  | ActReject r => RuleActionReject_String r
  | ActHijackDNS => "hijack-dns"
  | ActSniff s => RuleActionSniff_String s
  | ActResolve r => RuleActionResolve_String r
  end.

Definition dns_common_descriptions (r : RuleActionDNSRouteOptions) : list string :=
  opt (dr_DisableCache r) "disable-cache" ++
  match dr_RewriteTTL r with Some t => ["rewrite-ttl=" +:+ go_itoa t] | None => [] end ++
  (if Prefix_IsValid (dr_ClientSubnet r)
   then ["client-subnet=" +:+ Prefix_String (dr_ClientSubnet r)]
   else match dr_ClientSubnetFromInbound r with
        | Some _ => ["client-subnet-from-inbound"] | None => [] end).

Definition servers_description (one many : string) (l : list string) : list string :=
  match l with
  | [] => []
  | [s] => [one +:+ s]
  | l => [many +:+ strings_Join l "|" +:+ "}"]
  end.

Definition RuleActionDNSRoute_String (r : RuleActionDNSRoute) : string :=
  "route(" +:+ strings_Join (
    servers_description "" "{" (Servers r) ++
    servers_description "fallback=" "fallback={" (FallbackServers r) ++
    opt (0 <? UpstreamTimeout r) ("upstream-timeout=" +:+ Duration_String (UpstreamTimeout r)) ++
    opt (0 <? FallbackTimeout r) ("fallback-timeout=" +:+ Duration_String (FallbackTimeout r)) ++
    opt (0 <? FallbackGrace r) ("fallback-grace=" +:+ Duration_String (FallbackGrace r)) ++
    dns_common_descriptions (dr_options r)) "," +:+ ")".

Definition RuleActionDNSRouteOptions_String (r : RuleActionDNSRouteOptions) : string :=
  "route-options(" +:+ strings_Join (dns_common_descriptions r) "," +:+ ")".
End constructors.

(** ** Rejecting: [RuleActionReject.Error]

    [dropCounter] holds the times of the rejections of the last thirty
    seconds. *)

Inductive Rejection : Type := RejectRefused | RejectDrop.

Definition reject_window : Z := 30 * Second.

Definition RuleActionReject_Error (r : RuleActionReject) (timeNow : Z) (dropCounter : list Z)
    : res Rejection * list Z :=
  let limited returnErr :=
    if rej_NoDrop r then (Ok returnErr, dropCounter)
    else
      let dropCounter :=
        List.filter (fun t => timeNow - t <=? reject_window) dropCounter ++ [timeNow] in
      if (50 <? length dropCounter)%nat then (Ok RejectDrop, dropCounter)
      else (Ok returnErr, dropCounter) in
  if decide (rej_Method r = RuleActionRejectMethodDefault) then limited RejectRefused
  else if decide (rej_Method r = RuleActionRejectMethodDrop) then (Ok RejectDrop, dropCounter)
  else (Panic ("unknown reject method: " +:+ rej_Method r), dropCounter).

(** ** Predefined answers: [RuleActionPredefined.Response] *)

(** The operations of [dns.RR] the answers need; [rr_set_Name] is [dns.Copy]
    followed by an assignment to the header's name. *)
Class RRLib (RR : Type) : Type := {
  rr_Name : RR -> string;
  rr_set_Name : string -> RR -> RR;
  rr_String : RR -> string
}.

Record Question : Type := { q_Name : string; q_Qtype : Z; q_Qclass : Z }.

(** The parts of [dns.Msg] the repository reads or writes. *)
Record Msg (RR : Type) : Type := {
  msg_Id : Z;
  msg_Response : bool;
  msg_Authoritative : bool;
  msg_RecursionDesired : bool;
  msg_RecursionAvailable : bool;
  msg_Rcode : Z;
  msg_Question : list Question;
  msg_Answer : list RR;
  msg_Ns : list RR;
  msg_Extra : list RR
}.
Arguments Build_Msg {RR}.
Arguments msg_Id {RR}.
Arguments msg_Response {RR}.
Arguments msg_Authoritative {RR}.
Arguments msg_RecursionDesired {RR}.
Arguments msg_RecursionAvailable {RR}.
Arguments msg_Rcode {RR}.
Arguments msg_Question {RR}.
Arguments msg_Answer {RR}.
Arguments msg_Ns {RR}.
Arguments msg_Extra {RR}.

Section predefined.
Context {RR : Type} `{RRLib RR}.

Definition rewriteRecords (records : list RR) (question : Question) : list RR :=
  map (fun it =>
    if strings_HasPrefix (rr_Name it) "*" then
      if strings_HasSuffix (q_Name question) (str_drop 1 (rr_Name it))
      then rr_set_Name (q_Name question) it else it
    else it) records.

(** [request.Question[0]]: an index panic on an empty question section. *)
Definition Predefined_Response (rcode : Z) (answer ns extra : list RR) (request : Msg RR)
    : res (Msg RR) :=
  match msg_Question request with
  | [] => Panic "index out of range"
  | question :: _ =>
      Ok (Build_Msg (msg_Id request) true true true true rcode (msg_Question request)
            (rewriteRecords answer question) (rewriteRecords ns question)
            (rewriteRecords extra question))
  end.
End predefined.

(** ** Theorems *)

(** *** Sniffers *)

Definition known_sniffers : list string :=
  ["tls"; "http"; "quic"; "dns"; "stun"; "bittorrent"; "dtls"; "ssh"; "rdp"; "ntp"].

Lemma sniffers_named_known name :
  (exists s, sniffers_named name = Ok s) \/
  name ∉ known_sniffers /\ sniffers_named name = Err (ErrNew ("unknown sniffer: " +:+ name)).
Proof.
  unfold sniffers_named, known_sniffers.
  repeat (case_decide; [left; by eexists|]). right. split; [set_solver|done].
Qed.

Lemma build_sniffers_app names ss ps :
  (forall name, name ∈ names -> name ∈ known_sniffers) ->
  build_sniffers names ss ps =
  Ok (ss ++ concat (map (fun n => match sniffers_named n with Ok s => s.1 | _ => [] end) names),
      ps ++ concat (map (fun n => match sniffers_named n with Ok s => s.2 | _ => [] end) names)).
Proof.
  revert ss ps. induction names as [|n names IH]; intros ss ps Hn; simpl; [by rewrite !app_nil_r|].
  destruct (sniffers_named_known n) as [[[s p] Hs]|[Hk _]]; [|exfalso; apply Hk, Hn; set_solver].
  rewrite Hs. simpl. rewrite IH by set_solver. by rewrite <- !app_assoc.
Qed.

(** [build] accepts a list of names exactly when
    every name is one of the ten known protocols; it then selects the sniffers
    of the names in their order, and otherwise reports the first unknown one. *)
Theorem build_sniffers_spec (names : list string) :
  match build_sniffers names [] [] with
  | Ok (ss, ps) =>
      (forall name, name ∈ names -> name ∈ known_sniffers) /\
      ss = concat (map (fun n => match sniffers_named n with Ok s => s.1 | _ => [] end) names) /\
      ps = concat (map (fun n => match sniffers_named n with Ok s => s.2 | _ => [] end) names)
  | Err e => exists before name after, names = before ++ name :: after /\
      (forall n, n ∈ before -> n ∈ known_sniffers) /\ name ∉ known_sniffers /\
      e = ErrNew ("unknown sniffer: " +:+ name)
  | Panic _ => False
  end.
Proof.
  destruct (decide (Forall (.∈ known_sniffers) names)) as [Hk|Hk].
  - rewrite Forall_forall in Hk. by rewrite build_sniffers_app.
  - enough (H : forall ss ps, exists before name after, names = before ++ name :: after /\
      (forall n, n ∈ before -> n ∈ known_sniffers) /\ name ∉ known_sniffers /\
      build_sniffers names ss ps = Err (ErrNew ("unknown sniffer: " +:+ name))).
    { destruct (H [] []) as (before & name & after & ? & ? & ? & ->). by exists before, name, after. }
    induction names as [|n names IH]; intros ss ps; [by destruct Hk|]. simpl.
    destruct (sniffers_named_known n) as [[[s p] Hs]|[Hn Hs]]; rewrite Hs; simpl.
    + assert (Hin : n ∈ known_sniffers).
      { clear -Hs. unfold sniffers_named in Hs. repeat (case_decide; [subst; set_solver|]). done. }
      destruct (IH ltac:(intros Hall; apply Hk; by constructor) (ss ++ s) (ps ++ p))
        as (before & name & after & -> & Hb & Hname & Heq).
      exists (n :: before), name, after. split_and!; [done| |done|done]. set_solver.
    + exists [], n, names. split_and!; [done|set_solver|done|done].
Qed.

(** *** Rejecting *)

(** The calls of [Error] at a sequence of times, on a fresh counter. *)
Fixpoint reject_calls (r : RuleActionReject) (times counter : list Z) : list (res Rejection) * list Z :=
  match times with
  | [] => ([], counter)
  | t :: times =>
      let '(out, counter) := RuleActionReject_Error r t counter in
      let '(outs, counter) := reject_calls r times counter in
      (out :: outs, counter)
  end.

Definition recent (now : Z) (times : list Z) : list Z :=
  List.filter (fun t => now - t <=? reject_window) times.

Lemma recent_recent earlier now times :
  earlier <= now -> recent now (recent earlier times) = recent now times.
Proof.
  intros Hle. unfold recent. induction times as [|t times IH]; simpl; [done|].
  destruct (earlier - t <=? reject_window) eqn:He; simpl; [by rewrite IH|].
  replace (now - t <=? reject_window) with false by lia. done.
Qed.

Lemma recent_self now times : recent now (times ++ [now]) = recent now times ++ [now].
Proof.
  unfold recent. rewrite List.filter_app. simpl.
  by replace (now - now <=? reject_window) with true by (unfold reject_window, Second; lia).
Qed.

(** The counter holds the calls of the last window. *)
Lemma reject_calls_counter r past times last :
  rej_Method r = RuleActionRejectMethodDefault -> rej_NoDrop r = false ->
  Forall (fun t => last <= t) times -> StronglySorted Z.le times ->
  (reject_calls r times (recent last past)).1 =
    map (fun k => if (50 <? length (recent (nth k times 0%Z) (past ++ take (S k) times)))%nat
                  then Ok RejectDrop else Ok RejectRefused) (seq 0 (length times)).
Proof.
  intros Hm Hd. revert past last. induction times as [|t times IH]; intros past last Hl Hs; [done|].
  apply Forall_cons in Hl as [Hlt Hl]. apply StronglySorted_inv in Hs as [Hs Ht].
  cbn [reject_calls length seq map]. unfold RuleActionReject_Error.
  rewrite Hm, Hd, decide_True by done.
  assert (Hr : List.filter (fun t0 => t - t0 <=? reject_window) (recent last past) ++ [t] =
               recent t (past ++ [t])).
  { rewrite recent_self. f_equal. by apply recent_recent. }
  rewrite Hr. cbn [nth take].
  specialize (IH (past ++ [t]) t Ht Hs).
  destruct (50 <? _)%nat; destruct (reject_calls r times _) as [outs c]; simpl in *; f_equal;
    rewrite IH; rewrite <- seq_shift, map_map; apply map_ext; intros k;
    rewrite <- app_assoc; done.
Qed.

(** For calls of the default method at
    non-decreasing times, the [k]-th call answers "refused" unless more than
    fifty calls, itself included, fell in the thirty seconds up to it; then it
    drops. *)
Theorem reject_flood_limit (r : RuleActionReject) (times : list Z) (k : nat) :
  rej_Method r = RuleActionRejectMethodDefault -> rej_NoDrop r = false ->
  StronglySorted Z.le times -> (k < length times)%nat ->
  (reject_calls r times []).1 !! k =
  Some (if (50 <? length (recent (nth k times 0%Z) (take (S k) times)))%nat
        then Ok RejectDrop else Ok RejectRefused).
Proof.
  intros Hm Hd Hs Hk.
  assert (Hl : Forall (fun t => nth 0 times 0%Z <= t) times).
  { destruct Hs as [|t times _ Ht]; simpl; [done|]. constructor; [lia|done]. }
  change (reject_calls r times []) with (reject_calls r times (recent (nth 0 times 0%Z) [])).
  rewrite (reject_calls_counter r [] times (nth 0 times 0%Z) Hm Hd Hl Hs).
  by rewrite list_lookup_fmap, lookup_seq_lt.
Qed.

Definition reject_default : RuleActionReject :=
  {| rej_Method := RuleActionRejectMethodDefault; rej_NoDrop := false |}.

Lemma reject_flood_limit_witness :
  (reject_calls reject_default [0; 1; 40 * Second] []).1 !! 2%nat = Some (Ok RejectRefused).
Proof.
  etrans; [apply (reject_flood_limit reject_default [0; 1; 40 * Second] 2%nat)|].
  - reflexivity.
  - reflexivity.
  - repeat constructor; unfold Second; lia.
  - simpl. lia.
  - vm_compute. reflexivity.
Defined.

(** *** Route actions *)

(** A rule with the action
    [route] ignores the configured [udp_timeout], which [route-options] keeps. *)
Theorem route_action_drops_udp_timeout `{External} (dialer_New : DirectActionOptions -> res unit)
    (o : RuleActionOptions) :
  (ao_Action o = RuleActionTypeRoute ->
   exists opts, NewRuleAction dialer_New o = Ok (Some (ActRoute (ao_Outbound o) opts)) /\
     act_UDPTimeout opts = 0) /\
  (ao_Action o = RuleActionTypeRouteOptions ->
   exists opts, NewRuleAction dialer_New o = Ok (Some (ActRouteOptions opts)) /\
     act_UDPTimeout opts = o_UDPTimeout (ao_RouteOptionsOptions o)).
Proof.
  unfold NewRuleAction. split; intros ->; eexists; (split; [by simpl|done]).
Qed.

(** *** Predefined answers *)

Section predefined_theorems.
Context {RR : Type} `{RRLib RR}.

(** The response to a request with a question echoes
    its id and question section, is marked as an authoritative response with
    recursion, and carries the configured records, each one renamed to the
    question's name when its own name is a wildcard covering it and otherwise
    untouched. *)
Theorem predefined_response_spec (rcode : Z) (answer ns extra : list RR) (request : Msg RR) q qs :
  msg_Question request = q :: qs ->
  exists response, Predefined_Response rcode answer ns extra request = Ok response /\
    msg_Id response = msg_Id request /\ msg_Question response = msg_Question request /\
    msg_Response response = true /\ msg_Authoritative response = true /\
    msg_Rcode response = rcode /\
    Forall2 (fun it it' =>
      it' = (if strings_HasPrefix (rr_Name it) "*" &&
                strings_HasSuffix (q_Name q) (str_drop 1 (rr_Name it))
             then rr_set_Name (q_Name q) it else it))
      (answer ++ ns ++ extra) (msg_Answer response ++ msg_Ns response ++ msg_Extra response).
Proof.
  intros Hq. unfold Predefined_Response. rewrite Hq. eexists. split; [done|]. simpl.
  split_and!; [done..|]. unfold rewriteRecords. rewrite <- !map_app.
  generalize (answer ++ ns ++ extra). intros l.
  induction l as [|it l IH]; simpl; constructor; [|done].
  destruct (strings_HasPrefix _ _); simpl; [by case_match|done].
Qed.
End predefined_theorems.

Section predefined_witness.
#[local] Instance string_rr : RRLib (string * string) := {
  rr_Name r := r.1; rr_set_Name n r := (n, r.2); rr_String r := r.1 +:+ r.2 }.

Lemma predefined_response_spec_witness :
  exists response,
    Predefined_Response 0 [("*.example.", "192.0.2.1")] [] []
      (Build_Msg 7 false false true false 0 [Build_Question "a.example." 1 1] [] [] []) = Ok response /\
    msg_Answer response = [("a.example.", "192.0.2.1")].
Proof.
  destruct (predefined_response_spec 0 [("*.example.", "192.0.2.1")] [] []
    (Build_Msg 7 false false true false 0 [Build_Question "a.example." 1 1] [] [] [])
    (Build_Question "a.example." 1 1) [] eq_refl) as (response & Hr & _).
  exists response. split; [exact Hr|]. vm_compute in Hr. injection Hr as <-. reflexivity.
Defined.
End predefined_witness.

Lemma route_action_drops_udp_timeout_witness :
  let o := Build_RuleActionOptions RuleActionTypeRoute "out"
             (Build_RawRouteOptionsActionOptions "" 0 None 0 false false (5 * Second) false 0 false)
             (Build_RawRouteOptionsActionOptions "" 0 None 0 false false 0 false 0 false)
             (Build_DirectActionOptions []) (Build_RejectActionOptions "" false)
             (Build_RouteActionSniff [] 0)
             (Build_RouteActionResolve "" DomainStrategyAsIS false None None false false) in
  exists opts, NewRuleAction (H := concrete_external) (fun _ => Ok tt) o =
                 Ok (Some (ActRoute "out" opts)) /\ act_UDPTimeout opts = 0.
Proof.
  intros o. apply (proj1 (route_action_drops_udp_timeout (fun _ => Ok tt) o)). reflexivity.
Defined.
