(* ===== verification/RuleBuild.v ===== *)
(** * route/rule: building rules from their options

    [NewDefaultRule], [NewDefaultDNSRule] and [NewDefaultHeadlessRule] test one
    option after the other and append an item to one of the groups and to
    [allItems].  The sequence of tests of each constructor is a list of
    [step]s, in the order of the source; [run_steps] is the control flow they
    share.  The rule trees of option/rule.go, option/rule_dns.go and
    option/rule_set.go are translated with their validity checks. *)

From stdpp Require Import base list strings gmap.
From Stdlib Require Import ZArith Lia.
From S2P Require Import Prelude GoStd External Adapter RuleItem RuleAbstract RuleTree RuleAction.

Open Scope Z_scope.

(** ** Groups and steps *)

Inductive group : Type :=
  | GItems | GSourceAddress | GSourcePort | GDestinationAddress | GDestinationIPCIDR
  | GDestinationPort.

#[global] Instance group_eq_dec : EqDecision group.
Proof. solve_decision. Defined.

Section steps.
Context {I A : Type}.

(** [rule.<group> = append(rule.<group>, item)] and
    [rule.allItems = append(rule.allItems, item)] *)
Definition add_item (g : group) (it : I) (r : abstractDefaultRule I A) : abstractDefaultRule I A :=
  let app h l := if decide (g = h) then l ++ [it] else l in
  {| items := app GItems (items r);
     sourceAddressItems := app GSourceAddress (sourceAddressItems r);
     sourcePortItems := app GSourcePort (sourcePortItems r);
     destinationAddressItems := app GDestinationAddress (destinationAddressItems r);
     destinationIPCIDRItems := app GDestinationIPCIDR (destinationIPCIDRItems r);
     destinationPortItems := app GDestinationPort (destinationPortItems r);
     allItems := allItems r ++ [it]; invert := invert r; action := action r |}.

(** [if cond { item, err := new; if err != nil { return err }; append }] *)
Record step : Type := { st_cond : bool; st_group : group; st_item : res I }.

Fixpoint run_steps (l : list step) (r : abstractDefaultRule I A) : res (abstractDefaultRule I A) :=
  match l with
  | [] => Ok r
  | s :: l =>
      if st_cond s then let* it := st_item s in run_steps l (add_item (st_group s) it r)
      else run_steps l r
  end.

Definition empty_rule (inv : bool) (act : A) : abstractDefaultRule I A :=
  {| items := []; sourceAddressItems := []; sourcePortItems := []; destinationAddressItems := [];
     destinationIPCIDRItems := []; destinationPortItems := []; allItems := []; invert := inv;
     action := act |}.
End steps.
Arguments step : clear implicits.
Arguments Build_step {I}.

(** ** Options

    A nil slice and an empty one are both [[]]; [reflect.DeepEqual], which
    [IsValid] uses, tells them apart, so the last field of each record says
    whether one of its slices is empty without being nil. *)

(** option/rule.go: [RawDefaultRule] *)
Record RawDefaultRule : Type := {
  rd_Inbound : list string;
  rd_IPVersion : Z;
  rd_Network : list string;
  rd_AuthUser : list string;
  rd_Protocol : list string;
  rd_Client : list string;
  rd_Domain : list string;
  rd_DomainSuffix : list string;
  rd_DomainKeyword : list string;
  rd_DomainRegex : list string;
  rd_Geosite : list string;
  rd_SourceGeoIP : list string;
  rd_GeoIP : list string;
  rd_SourceIPCIDR : list string;
  rd_SourceIPIsPrivate : bool;
  rd_IPCIDR : list string;
  rd_IPIsPrivate : bool;
  rd_SourcePort : list Z;
  rd_SourcePortRange : list string;
  rd_Port : list Z;
  rd_PortRange : list string;
  rd_ProcessName : list string;
  rd_ProcessPath : list string;
  rd_ProcessPathRegex : list string;
  rd_PackageName : list string;
  rd_User : list string;
  rd_UserID : list Z;
  rd_ClashMode : string;
  rd_NetworkType : list InterfaceType;
  rd_NetworkIsExpensive : bool;
  rd_NetworkIsConstrained : bool;
  rd_WIFISSID : list string;
  rd_WIFIBSSID : list string;
  rd_RuleSet : list string;
  rd_RuleSetIPCIDRMatchSource : bool;
  rd_Invert : bool;
  rd_Deprecated_RulesetIPCIDRMatchSource : bool;
  (** some list field is empty but not nil *)
  rd_NonNilEmpty : bool
}.

(** option/rule_dns.go: [RawDefaultDNSRule] *)
Record RawDefaultDNSRule : Type := {
  dd_Inbound : list string;
  dd_IPVersion : Z;
  dd_QueryType : list Z;
  dd_Network : list string;
  dd_AuthUser : list string;
  dd_Protocol : list string;
  dd_Domain : list string;
  dd_DomainSuffix : list string;
  dd_DomainKeyword : list string;
  dd_DomainRegex : list string;
  dd_Geosite : list string;
  dd_SourceGeoIP : list string;
  dd_GeoIP : list string;
  dd_IPCIDR : list string;
  dd_IPIsPrivate : bool;
  dd_IPAcceptAny : bool;
  dd_SourceIPCIDR : list string;
  dd_SourceIPIsPrivate : bool;
  dd_SourcePort : list Z;
  dd_SourcePortRange : list string;
  dd_Port : list Z;
  dd_PortRange : list string;
  dd_ProcessName : list string;
  dd_ProcessPath : list string;
  dd_ProcessPathRegex : list string;
  dd_PackageName : list string;
  dd_User : list string;
  dd_UserID : list Z;
  dd_Outbound : list string;
  dd_ClashMode : string;
  dd_NetworkType : list InterfaceType;
  dd_NetworkIsExpensive : bool;
  dd_NetworkIsConstrained : bool;
  dd_WIFISSID : list string;
  dd_WIFIBSSID : list string;
  dd_RuleSet : list string;
  dd_RuleSetIPCIDRMatchSource : bool;
  dd_RuleSetIPCIDRAcceptEmpty : bool;
  dd_Invert : bool;
  dd_Deprecated_RulesetIPCIDRMatchSource : bool;
  (** some list field is empty but not nil *)
  dd_NonNilEmpty : bool
}.

(** option/rule_set.go: [DefaultHeadlessRule]; the last five fields are filled
    by the binary decoder and the converters. *)
Record DefaultHeadlessOptions `{External} : Type := {
  hd_QueryType : list Z;
  hd_Network : list string;
  hd_Domain : list string;
  hd_DomainSuffix : list string;
  hd_DomainKeyword : list string;
  hd_DomainRegex : list string;
  hd_SourceIPCIDR : list string;
  hd_IPCIDR : list string;
  hd_SourcePort : list Z;
  hd_SourcePortRange : list string;
  hd_Port : list Z;
  hd_PortRange : list string;
  hd_ProcessName : list string;
  hd_ProcessPath : list string;
  hd_ProcessPathRegex : list string;
  hd_PackageName : list string;
  hd_NetworkType : list InterfaceType;
  hd_NetworkIsExpensive : bool;
  hd_NetworkIsConstrained : bool;
  hd_WIFISSID : list string;
  hd_WIFIBSSID : list string;
  hd_Invert : bool;
  hd_DomainMatcher : option Matcher;
  hd_SourceIPSet : option IPSet;
  hd_IPSet : option IPSet;
  hd_AdGuardDomain : list string;
  hd_AdGuardDomainMatcher : option AdGuardMatcher;
  (** some list field is empty but not nil *)
  hd_NonNilEmpty : bool
}.

(** ** Steps *)

Section build.
Context `{External}.

Definition ok_item (i : RuleItem) : res RuleItem := Ok i.
Definition wrap_item {T} (f : T -> RuleItem) (r : res T) : res RuleItem :=
  let* x := r in Ok (f x).

Definition ip_version_item (v : Z) : res RuleItem :=
  if (v =? 4) || (v =? 6) then Ok (ItIPVersion (NewIPVersionItem (v =? 6)))
  else Err (ErrNew ("invalid ip version: " +:+ go_itoa v)).

Definition geosite_removed : error :=
  ErrNew "geosite database is deprecated in sing-box 1.8.0 and removed in sing-box 1.12.0".
Definition geoip_removed : error :=
  ErrNew "geoip database is deprecated in sing-box 1.8.0 and removed in sing-box 1.12.0".

Definition ipcidr_item (cause : string) (isSource : bool) (l : list string) : res RuleItem :=
  wrap_item ItIPCIDR (res_cause cause (NewIPCIDRItem isSource l)).
Definition port_range_item (cause : string) (isSource : bool) (l : list string) : res RuleItem :=
  wrap_item ItPortRange (res_cause cause (NewPortRangeItem isSource l)).
Definition domain_regex_item (l : list string) : res RuleItem :=
  wrap_item ItDomainRegex (res_cause "domain_regex" (NewDomainRegexItem l)).
Definition process_path_regex_item (l : list string) : res RuleItem :=
  wrap_item ItProcessPathRegex (res_cause "process_path_regex" (NewProcessPathRegexItem l)).

Definition plain (s : step RuleItem) : step AnyItem :=
  {| st_cond := st_cond s; st_group := st_group s;
     st_item := let* i := st_item s in Ok (Plain i) |}.

Notation "c '?>' g '<-' i" := (Build_step c g i) (at level 90, g at level 0, i at level 80).

(** *** NewDefaultRule *)

Definition default_rule_head (o : RawDefaultRule) : list (step RuleItem) := [
  nonempty (rd_Inbound o) ?> GItems <- ok_item (ItInbound (NewInboundRule (rd_Inbound o)));
  (0 <? rd_IPVersion o) ?> GItems <- ip_version_item (rd_IPVersion o);
  nonempty (rd_Network o) ?> GItems <- ok_item (ItNetwork (NewNetworkItem (rd_Network o)));
  nonempty (rd_AuthUser o) ?> GItems <- ok_item (ItAuthUser (NewAuthUserItem (rd_AuthUser o)));
  nonempty (rd_Protocol o) ?> GItems <- ok_item (ItProtocol (NewProtocolItem (rd_Protocol o)));
  nonempty (rd_Client o) ?> GItems <- ok_item (ItClient (NewClientItem (rd_Client o)));
  (nonempty (rd_Domain o) || nonempty (rd_DomainSuffix o)) ?> GDestinationAddress <-
    wrap_item ItDomain (NewDomainItem (rd_Domain o) (rd_DomainSuffix o));
  nonempty (rd_DomainKeyword o) ?> GDestinationAddress <-
    ok_item (ItDomainKeyword (NewDomainKeywordItem (rd_DomainKeyword o)));
  nonempty (rd_DomainRegex o) ?> GDestinationAddress <- domain_regex_item (rd_DomainRegex o);
  nonempty (rd_Geosite o) ?> GItems <- Err geosite_removed;
  nonempty (rd_SourceGeoIP o) ?> GItems <- Err geoip_removed;
  nonempty (rd_GeoIP o) ?> GItems <- Err geoip_removed
].

Definition default_rule_addresses (o : RawDefaultRule) : list (step RuleItem) := [
  nonempty (rd_SourceIPCIDR o) ?> GSourceAddress <-
    ipcidr_item "source_ip_cidr" true (rd_SourceIPCIDR o);
  rd_SourceIPIsPrivate o ?> GSourceAddress <- ok_item (ItIPIsPrivate (NewIPIsPrivateItem true));
  nonempty (rd_IPCIDR o) ?> GDestinationIPCIDR <- ipcidr_item "ipcidr" false (rd_IPCIDR o);
  rd_IPIsPrivate o ?> GDestinationIPCIDR <- ok_item (ItIPIsPrivate (NewIPIsPrivateItem false));
  nonempty (rd_SourcePort o) ?> GSourcePort <- ok_item (ItPort (NewPortItem true (rd_SourcePort o)));
  nonempty (rd_SourcePortRange o) ?> GSourcePort <-
    port_range_item "source_port_range" true (rd_SourcePortRange o);
  nonempty (rd_Port o) ?> GDestinationPort <- ok_item (ItPort (NewPortItem false (rd_Port o)));
  nonempty (rd_PortRange o) ?> GDestinationPort <-
    port_range_item "port_range" false (rd_PortRange o)
].

Definition default_rule_process (o : RawDefaultRule) : list (step RuleItem) := [
  nonempty (rd_ProcessName o) ?> GItems <- ok_item (ItProcess (NewProcessItem (rd_ProcessName o)));
  nonempty (rd_ProcessPath o) ?> GItems <-
    ok_item (ItProcessPath (NewProcessPathItem (rd_ProcessPath o)));
  nonempty (rd_ProcessPathRegex o) ?> GItems <- process_path_regex_item (rd_ProcessPathRegex o);
  nonempty (rd_PackageName o) ?> GItems <-
    ok_item (ItPackageName (NewPackageNameItem (rd_PackageName o)));
  nonempty (rd_User o) ?> GItems <- ok_item (ItUser (NewUserItem (rd_User o)));
  nonempty (rd_UserID o) ?> GItems <- ok_item (ItUserID (NewUserIDItem (rd_UserID o)))
].

Definition default_rule_host (o : RawDefaultRule) : list (step RuleItem) := [
  negb (bool_decide (rd_ClashMode o = "")) ?> GItems <-
    ok_item (ItClashMode (NewClashModeItem (rd_ClashMode o)));
  nonempty (rd_NetworkType o) ?> GItems <-
    ok_item (ItNetworkType (NewNetworkTypeItem (rd_NetworkType o)));
  rd_NetworkIsExpensive o ?> GItems <- ok_item ItNetworkIsExpensive;
  rd_NetworkIsConstrained o ?> GItems <- ok_item ItNetworkIsConstrained;
  nonempty (rd_WIFISSID o) ?> GItems <- ok_item (ItWIFISSID (NewWIFISSIDItem (rd_WIFISSID o)));
  nonempty (rd_WIFIBSSID o) ?> GItems <- ok_item (ItWIFIBSSID (NewWIFIBSSIDItem (rd_WIFIBSSID o)))
].

Definition default_rule_set (o : RawDefaultRule) : list (step AnyItem) := [
  nonempty (rd_RuleSet o) ?> GItems <-
    Ok (ItRuleSet (NewRuleSetItem (rd_RuleSet o)
          (if rd_RuleSetIPCIDRMatchSource o then true
           else rd_Deprecated_RulesetIPCIDRMatchSource o) false))
].

Definition default_rule_steps (o : RawDefaultRule) : list (step AnyItem) :=
  map plain (default_rule_head o ++ default_rule_addresses o ++ default_rule_process o ++
             default_rule_host o) ++ default_rule_set o.

(** *** NewDefaultDNSRule *)

Definition dns_rule_head (o : RawDefaultDNSRule) : list (step RuleItem) := [
  nonempty (dd_Inbound o) ?> GItems <- ok_item (ItInbound (NewInboundRule (dd_Inbound o)));
  (0 <? dd_IPVersion o) ?> GItems <- ip_version_item (dd_IPVersion o);
  nonempty (dd_QueryType o) ?> GItems <- ok_item (ItQueryType (NewQueryTypeItem (dd_QueryType o)));
  nonempty (dd_Network o) ?> GItems <- ok_item (ItNetwork (NewNetworkItem (dd_Network o)));
  nonempty (dd_AuthUser o) ?> GItems <- ok_item (ItAuthUser (NewAuthUserItem (dd_AuthUser o)));
  nonempty (dd_Protocol o) ?> GItems <- ok_item (ItProtocol (NewProtocolItem (dd_Protocol o)));
  (nonempty (dd_Domain o) || nonempty (dd_DomainSuffix o)) ?> GDestinationAddress <-
    wrap_item ItDomain (NewDomainItem (dd_Domain o) (dd_DomainSuffix o));
  nonempty (dd_DomainKeyword o) ?> GDestinationAddress <-
    ok_item (ItDomainKeyword (NewDomainKeywordItem (dd_DomainKeyword o)));
  nonempty (dd_DomainRegex o) ?> GDestinationAddress <- domain_regex_item (dd_DomainRegex o);
  nonempty (dd_Geosite o) ?> GItems <- Err geosite_removed;
  nonempty (dd_SourceGeoIP o) ?> GItems <- Err geoip_removed;
  nonempty (dd_GeoIP o) ?> GItems <- Err geoip_removed
].

Definition dns_rule_addresses (o : RawDefaultDNSRule) : list (step RuleItem) := [
  nonempty (dd_SourceIPCIDR o) ?> GSourceAddress <-
    ipcidr_item "source_ip_cidr" true (dd_SourceIPCIDR o);
  nonempty (dd_IPCIDR o) ?> GDestinationIPCIDR <- ipcidr_item "ip_cidr" false (dd_IPCIDR o);
  dd_SourceIPIsPrivate o ?> GSourceAddress <- ok_item (ItIPIsPrivate (NewIPIsPrivateItem true));
  dd_IPIsPrivate o ?> GDestinationIPCIDR <- ok_item (ItIPIsPrivate (NewIPIsPrivateItem false));
  dd_IPAcceptAny o ?> GDestinationIPCIDR <- ok_item ItIPAcceptAny;
  nonempty (dd_SourcePort o) ?> GSourcePort <- ok_item (ItPort (NewPortItem true (dd_SourcePort o)));
  nonempty (dd_SourcePortRange o) ?> GSourcePort <-
    port_range_item "source_port_range" true (dd_SourcePortRange o);
  nonempty (dd_Port o) ?> GDestinationPort <- ok_item (ItPort (NewPortItem false (dd_Port o)));
  nonempty (dd_PortRange o) ?> GDestinationPort <-
    port_range_item "port_range" false (dd_PortRange o)
].

Definition dns_rule_process (o : RawDefaultDNSRule) : list (step RuleItem) := [
  nonempty (dd_ProcessName o) ?> GItems <- ok_item (ItProcess (NewProcessItem (dd_ProcessName o)));
  nonempty (dd_ProcessPath o) ?> GItems <-
    ok_item (ItProcessPath (NewProcessPathItem (dd_ProcessPath o)));
  nonempty (dd_ProcessPathRegex o) ?> GItems <- process_path_regex_item (dd_ProcessPathRegex o);
  nonempty (dd_PackageName o) ?> GItems <-
    ok_item (ItPackageName (NewPackageNameItem (dd_PackageName o)));
  nonempty (dd_User o) ?> GItems <- ok_item (ItUser (NewUserItem (dd_User o)));
  nonempty (dd_UserID o) ?> GItems <- ok_item (ItUserID (NewUserIDItem (dd_UserID o)));
  nonempty (dd_Outbound o) ?> GItems <- ok_item (ItOutbound (NewOutboundRule (dd_Outbound o)))
].

Definition dns_rule_host (o : RawDefaultDNSRule) : list (step RuleItem) := [
  negb (bool_decide (dd_ClashMode o = "")) ?> GItems <-
    ok_item (ItClashMode (NewClashModeItem (dd_ClashMode o)));
  nonempty (dd_NetworkType o) ?> GItems <-
    ok_item (ItNetworkType (NewNetworkTypeItem (dd_NetworkType o)));
  dd_NetworkIsExpensive o ?> GItems <- ok_item ItNetworkIsExpensive;
  dd_NetworkIsConstrained o ?> GItems <- ok_item ItNetworkIsConstrained;
  nonempty (dd_WIFISSID o) ?> GItems <- ok_item (ItWIFISSID (NewWIFISSIDItem (dd_WIFISSID o)));
  nonempty (dd_WIFIBSSID o) ?> GItems <- ok_item (ItWIFIBSSID (NewWIFIBSSIDItem (dd_WIFIBSSID o)))
].

Definition dns_rule_set (o : RawDefaultDNSRule) : list (step AnyItem) := [
  nonempty (dd_RuleSet o) ?> GItems <-
    Ok (ItRuleSet (NewRuleSetItem (dd_RuleSet o)
          (if dd_RuleSetIPCIDRMatchSource o then true
           else dd_Deprecated_RulesetIPCIDRMatchSource o) (dd_RuleSetIPCIDRAcceptEmpty o)))
].

Definition dns_rule_steps (o : RawDefaultDNSRule) : list (step AnyItem) :=
  map plain (dns_rule_head o ++ dns_rule_addresses o ++ dns_rule_process o ++ dns_rule_host o) ++
  dns_rule_set o.

(** *** NewDefaultHeadlessRule *)

(** [if len(list) > 0 { new from the list } else if raw != nil { new from raw }] *)
Definition list_or_raw {T} (g : group) (l : list string) (from_list : res RuleItem)
    (raw : option T) (from_raw : T -> RuleItem) : list (step RuleItem) := [
  nonempty l ?> g <- from_list;
  (negb (nonempty l) && match raw with Some _ => true | None => false end) ?> g <-
    match raw with Some x => Ok (from_raw x) | None => Err (ErrNew "unreachable") end
].

Definition headless_head (o : DefaultHeadlessOptions) : list (step RuleItem) :=
  [ nonempty (hd_Network o) ?> GItems <- ok_item (ItNetwork (NewNetworkItem (hd_Network o)));
    (nonempty (hd_Domain o) || nonempty (hd_DomainSuffix o)) ?> GDestinationAddress <-
      wrap_item ItDomain (NewDomainItem (hd_Domain o) (hd_DomainSuffix o));
    (negb (nonempty (hd_Domain o) || nonempty (hd_DomainSuffix o)) &&
     match hd_DomainMatcher o with Some _ => true | None => false end) ?> GDestinationAddress <-
      match hd_DomainMatcher o with
      | Some matcher => Ok (ItDomain (NewRawDomainItem matcher))
      | None => Err (ErrNew "unreachable")
      end;
    nonempty (hd_DomainKeyword o) ?> GDestinationAddress <-
      ok_item (ItDomainKeyword (NewDomainKeywordItem (hd_DomainKeyword o)));
    nonempty (hd_DomainRegex o) ?> GDestinationAddress <- domain_regex_item (hd_DomainRegex o) ].

Definition headless_addresses (o : DefaultHeadlessOptions) : list (step RuleItem) :=
  list_or_raw GSourceAddress (hd_SourceIPCIDR o)
    (ipcidr_item "source_ip_cidr" true (hd_SourceIPCIDR o))
    (hd_SourceIPSet o) (fun s => ItIPCIDR (NewRawIPCIDRItem true s)) ++
  list_or_raw GDestinationIPCIDR (hd_IPCIDR o) (ipcidr_item "ipcidr" false (hd_IPCIDR o))
    (hd_IPSet o) (fun s => ItIPCIDR (NewRawIPCIDRItem false s)) ++
  [ nonempty (hd_SourcePort o) ?> GSourcePort <- ok_item (ItPort (NewPortItem true (hd_SourcePort o)));
    nonempty (hd_SourcePortRange o) ?> GSourcePort <-
      port_range_item "source_port_range" true (hd_SourcePortRange o);
    nonempty (hd_Port o) ?> GDestinationPort <- ok_item (ItPort (NewPortItem false (hd_Port o)));
    nonempty (hd_PortRange o) ?> GDestinationPort <-
      port_range_item "port_range" false (hd_PortRange o) ].

Definition headless_process (o : DefaultHeadlessOptions) : list (step RuleItem) := [
  nonempty (hd_ProcessName o) ?> GItems <- ok_item (ItProcess (NewProcessItem (hd_ProcessName o)));
  nonempty (hd_ProcessPath o) ?> GItems <-
    ok_item (ItProcessPath (NewProcessPathItem (hd_ProcessPath o)));
  nonempty (hd_ProcessPathRegex o) ?> GItems <- process_path_regex_item (hd_ProcessPathRegex o);
  nonempty (hd_PackageName o) ?> GItems <-
    ok_item (ItPackageName (NewPackageNameItem (hd_PackageName o)))
].

(** [if networkManager != nil { ... }] *)
Definition headless_host (has_network_manager : bool) (o : DefaultHeadlessOptions)
    : list (step RuleItem) :=
  if has_network_manager then [
    nonempty (hd_NetworkType o) ?> GItems <-
      ok_item (ItNetworkType (NewNetworkTypeItem (hd_NetworkType o)));
    hd_NetworkIsExpensive o ?> GItems <- ok_item ItNetworkIsExpensive;
    hd_NetworkIsConstrained o ?> GItems <- ok_item ItNetworkIsConstrained;
    nonempty (hd_WIFISSID o) ?> GItems <- ok_item (ItWIFISSID (NewWIFISSIDItem (hd_WIFISSID o)));
    nonempty (hd_WIFIBSSID o) ?> GItems <- ok_item (ItWIFIBSSID (NewWIFIBSSIDItem (hd_WIFIBSSID o)))
  ] else [].

Definition headless_steps (has_network_manager : bool) (o : DefaultHeadlessOptions)
    : list (step RuleItem) :=
  headless_head o ++ headless_addresses o ++ headless_process o ++
  headless_host has_network_manager o ++
  list_or_raw GDestinationAddress (hd_AdGuardDomain o)
    (Ok (ItAdGuard (NewAdGuardDomainItem (hd_AdGuardDomain o))))
    (hd_AdGuardDomainMatcher o) (fun mt => ItAdGuard (NewRawAdGuardDomainItem mt)).
End build.

(** ** The options of whole rules

    A rule carries its [Type] and both [DefaultOptions] and [LogicalOptions];
    the JSON decoder fills the one the type names. *)

Inductive RuleOptions : Type :=
  | MkRuleOptions (type : string) (default : RawDefaultRule) (default_action : RuleActionOptions)
      (mode : string) (rules : list RuleOptions) (invert : bool) (logical_action : RuleActionOptions).

Inductive DNSRuleOptions (RR : Type) : Type :=
  | MkDNSRuleOptions (type : string) (default : RawDefaultDNSRule)
      (default_action : DNSRuleActionOptions RR)
      (mode : string) (rules : list (DNSRuleOptions RR)) (invert : bool)
      (logical_action : DNSRuleActionOptions RR).
Arguments MkDNSRuleOptions {RR}.

Inductive HeadlessRuleOptions `{External} : Type :=
  | MkHeadlessRuleOptions (type : string) (default : DefaultHeadlessOptions)
      (mode : string) (rules : list HeadlessRuleOptions) (invert : bool).

(** *** Zero values *)

Definition zero_raw_default_rule (inv : bool) : RawDefaultRule :=
  Build_RawDefaultRule [] 0 [] [] [] [] [] [] [] [] [] [] [] [] false [] false [] [] [] [] [] [] []
    [] [] [] "" [] false false [] [] [] false inv false false.

#[global] Instance RawDefaultRule_eq_dec : EqDecision RawDefaultRule.
Proof. solve_decision. Defined.

Definition zero_raw_default_dns_rule (inv : bool) : RawDefaultDNSRule :=
  Build_RawDefaultDNSRule [] 0 [] [] [] [] [] [] [] [] [] [] [] [] false false [] false [] [] [] []
    [] [] [] [] [] [] [] "" [] false false [] [] [] false false inv false false.

#[global] Instance RawDefaultDNSRule_eq_dec : EqDecision RawDefaultDNSRule.
Proof. solve_decision. Defined.

Definition zero_raw_route_options : RawRouteOptionsActionOptions :=
  Build_RawRouteOptionsActionOptions "" 0 None 0 false false 0 false 0 false.

Definition zero_action : RuleActionOptions :=
  {| ao_Action := ""; ao_Outbound := ""; ao_RouteOptions := zero_raw_route_options;
     ao_RouteOptionsOptions := zero_raw_route_options; ao_DirectOptions := {| do_Descriptions := [] |};
     ao_RejectOptions := {| ro_Method := ""; ro_NoDrop := false |};
     ao_SniffOptions := {| so_Sniffer := []; so_Timeout := 0 |};
     ao_ResolveOptions := {| reso_Server := ""; reso_Strategy := DomainStrategyAsIS;
       reso_DisableCache := false; reso_RewriteTTL := None; reso_ClientSubnet := None;
       reso_RouteOnly := false; reso_FallbackToFinal := false |} |}.

Definition zero_dns_route_options : DNSRouteOptionsActionOptions :=
  {| dro_Strategy := DomainStrategyAsIS; dro_DisableCache := false; dro_RewriteTTL := None;
     dro_ClientSubnet := None; dro_ClientSubnetFromInbound := None |}.

Definition dns_action_is_zero {RR} (o : DNSRuleActionOptions RR) : bool :=
  bool_decide (dao_Action o = "") &&
  bool_decide (dao_RouteOptions o =
    {| dra_Server := []; dra_FallbackDNS := []; dra_UpstreamTimeoutMS := 0;
       dra_FallbackTimeoutMS := 0; dra_FallbackGraceMS := 0;
       dra_Options := zero_dns_route_options |}) &&
  bool_decide (dao_RouteOptionsOptions o = zero_dns_route_options) &&
  bool_decide (dao_RejectOptions o = {| ro_Method := ""; ro_NoDrop := false |}) &&
  bool_decide (po_Rcode (dao_PredefinedOptions o) = None) && negb (nonempty (po_Answer (dao_PredefinedOptions o))) &&
  negb (nonempty (po_Ns (dao_PredefinedOptions o))) &&
  negb (nonempty (po_Extra (dao_PredefinedOptions o))).

(** A pointer or slice field that is nil. *)
Definition is_nil {T} (o : option T) : bool := match o with None => true | Some _ => false end.

Section zero_headless.
Context `{External}.

(** Every field but [Invert]. *)
Definition headless_is_zero (o : DefaultHeadlessOptions) : bool :=
  let empty {T} (l : list T) := negb (nonempty l) in
  empty (hd_QueryType o) && empty (hd_Network o) && empty (hd_Domain o) &&
  empty (hd_DomainSuffix o) && empty (hd_DomainKeyword o) && empty (hd_DomainRegex o) &&
  empty (hd_SourceIPCIDR o) && empty (hd_IPCIDR o) && empty (hd_SourcePort o) &&
  empty (hd_SourcePortRange o) && empty (hd_Port o) && empty (hd_PortRange o) &&
  empty (hd_ProcessName o) && empty (hd_ProcessPath o) && empty (hd_ProcessPathRegex o) &&
  empty (hd_PackageName o) && empty (hd_NetworkType o) && negb (hd_NetworkIsExpensive o) &&
  negb (hd_NetworkIsConstrained o) && empty (hd_WIFISSID o) && empty (hd_WIFIBSSID o) &&
  is_nil (hd_DomainMatcher o) && is_nil (hd_SourceIPSet o) && is_nil (hd_IPSet o) &&
  empty (hd_AdGuardDomain o) && is_nil (hd_AdGuardDomainMatcher o) && negb (hd_NonNilEmpty o).
End zero_headless.

(** *** IsValid *)

(** [DefaultRule.IsValid], [DefaultDNSRule.IsValid], [DefaultHeadlessRule.IsValid] *)
Definition DefaultRule_IsValid (o : RawDefaultRule) (a : RuleActionOptions) : bool :=
  negb (bool_decide (o = zero_raw_default_rule (rd_Invert o)) && bool_decide (a = zero_action)).
Definition DefaultDNSRule_IsValid {RR} (o : RawDefaultDNSRule) (a : DNSRuleActionOptions RR) : bool :=
  negb (bool_decide (o = zero_raw_default_dns_rule (dd_Invert o)) && dns_action_is_zero a).
Definition DefaultHeadlessRule_IsValid `{External} (o : DefaultHeadlessOptions) : bool :=
  negb (headless_is_zero o).

(** [len(rules) > 0 && common.All(rules, IsValid)] *)
Definition all_valid {T} (valid : T -> res bool) (l : list T) : res bool :=
  if nonempty l then res_forallb valid l else Ok false.

(** [Rule.IsValid]; a type other than the two names is a panic, the empty one
    included. *)
Fixpoint Rule_IsValid (o : RuleOptions) : res bool :=
  match o with
  | MkRuleOptions type d da _ rs _ _ =>
      if decide (type = RuleTypeDefault) then Ok (DefaultRule_IsValid d da)
      else if decide (type = RuleTypeLogical) then all_valid Rule_IsValid rs
      else Panic ("unknown rule type: " +:+ type)
  end.

Fixpoint DNSRule_IsValid {RR} (o : DNSRuleOptions RR) : res bool :=
  match o with
  | MkDNSRuleOptions type d da _ rs _ _ =>
      if decide (type = RuleTypeDefault) then Ok (DefaultDNSRule_IsValid d da)
      else if decide (type = RuleTypeLogical) then all_valid DNSRule_IsValid rs
      else Panic ("unknown DNS rule type: " +:+ type)
  end.

(** [HeadlessRule.IsValid], which takes the empty type as the default one. *)
Fixpoint HeadlessRule_IsValid `{External} (o : HeadlessRuleOptions) : res bool :=
  match o with
  | MkHeadlessRuleOptions type d _ rs _ =>
      if decide (type = RuleTypeDefault \/ type = "") then Ok (DefaultHeadlessRule_IsValid d)
      else if decide (type = RuleTypeLogical) then all_valid HeadlessRule_IsValid rs
      else Panic ("unknown rule type: " +:+ type)
  end.

(** ** Constructors *)

(** [switch options.Mode]: the two modes, or the error. *)
Definition logical_mode (mode : string) : res string :=
  if decide (mode = LogicalTypeAnd \/ mode = LogicalTypeOr) then Ok mode
  else Err (ErrNew ("unknown logical mode: " +:+ mode)).

Definition sub_rule {T} (i : nat) (r : res T) : res T :=
  res_cause ("sub rule[" +:+ go_itoa (Z.of_nat i) +:+ "]") r.

Definition missing_conditions {T} : res T := Err (ErrNew "missing conditions").

Section new_rules.
Context `{External}.
Context (dialer_New : DirectActionOptions -> res unit).

Definition NewDefaultRule (o : RawDefaultRule) (a : RuleActionOptions) : res (Rule (option RuleAction)) :=
  let* act := res_cause "action" (NewRuleAction dialer_New a) in
  let* r := run_steps (default_rule_steps o) (empty_rule (rd_Invert o) act) in
  Ok (DefaultRule r).

(** [switch Action { case "", route: if Outbound == "" && checkOutbound }] *)
Definition missing_outbound (a : RuleActionOptions) (checkOutbound : bool) : bool :=
  bool_decide (ao_Action a = "" \/ ao_Action a = RuleActionTypeRoute) &&
  bool_decide (ao_Outbound a = "") && checkOutbound.

(** [NewRule]; the logical branch is [NewLogicalRule]. *)
Fixpoint NewRule (o : RuleOptions) (checkOutbound : bool) : res (Rule (option RuleAction)) :=
  match o with
  | MkRuleOptions type d da md rs inv la =>
      if decide (type = "" \/ type = RuleTypeDefault) then
        if negb (DefaultRule_IsValid d da) then missing_conditions
        else if missing_outbound da checkOutbound then Err (ErrNew "missing outbound field")
        else NewDefaultRule d da
      else if decide (type = RuleTypeLogical) then
        let* valid := all_valid Rule_IsValid rs in
        if negb valid then missing_conditions
        else if missing_outbound la checkOutbound then Err (ErrNew "missing outbound field")
        else
          let* act := res_cause "action" (NewRuleAction dialer_New la) in
          let* md := logical_mode md in
          let* rs := res_mapi (fun i o => sub_rule i (NewRule o false)) 0 rs in
          Ok (LogicalRule {| rules := rs; mode := md; linvert := inv; laction := act |})
      else Err (ErrNew ("unknown rule type: " +:+ type))
  end.

Context {RR : Type}.

Definition NewDefaultDNSRule (o : RawDefaultDNSRule) (a : DNSRuleActionOptions RR)
    : res (Rule (option (DNSAction RR))) :=
  let* act := NewDNSRuleAction a in
  let* r := run_steps (dns_rule_steps o) (empty_rule (dd_Invert o) act) in
  Ok (DefaultRule r).

Definition missing_server (a : DNSRuleActionOptions RR) (checkServer : bool) : bool :=
  bool_decide (dao_Action a = "" \/ dao_Action a = RuleActionTypeRoute) &&
  negb (nonempty (dra_Server (dao_RouteOptions a))) && checkServer.

(** [NewDNSRule]; the logical branch is [NewLogicalDNSRule]. *)
Fixpoint NewDNSRule (o : DNSRuleOptions RR) (checkServer : bool)
    : res (Rule (option (DNSAction RR))) :=
  match o with
  | MkDNSRuleOptions type d da md rs inv la =>
      if decide (type = "" \/ type = RuleTypeDefault) then
        if negb (DefaultDNSRule_IsValid d da) then missing_conditions
        else if missing_server da checkServer then Err (ErrNew "missing server field")
        else NewDefaultDNSRule d da
      else if decide (type = RuleTypeLogical) then
        let* valid := all_valid DNSRule_IsValid rs in
        if negb valid then missing_conditions
        else if missing_server la checkServer then Err (ErrNew "missing server field")
        else
          let* act := NewDNSRuleAction la in
          let* md := logical_mode md in
          let* rs := res_mapi (fun i o => sub_rule i (NewDNSRule o false)) 0 rs in
          Ok (LogicalRule {| rules := rs; mode := md; linvert := inv; laction := act |})
      else Err (ErrNew ("unknown rule type: " +:+ type))
  end.

(** Whether the context has a network manager. *)
Context (networkManager : bool).

Definition NewDefaultHeadlessRule (o : DefaultHeadlessOptions) : res HeadlessRule :=
  let* r := run_steps (headless_steps networkManager o) (empty_rule (hd_Invert o) tt) in
  Ok (DefaultHeadlessRule r).

(** [NewHeadlessRule]; the logical branch is [NewLogicalHeadlessRule]. *)
Fixpoint NewHeadlessRule (o : HeadlessRuleOptions) : res HeadlessRule :=
  match o with
  | MkHeadlessRuleOptions type d md rs inv =>
      if decide (type = "" \/ type = RuleTypeDefault) then
        if negb (DefaultHeadlessRule_IsValid d) then missing_conditions
        else NewDefaultHeadlessRule d
      else if decide (type = RuleTypeLogical) then
        let* valid := all_valid HeadlessRule_IsValid rs in
        if negb valid then missing_conditions
        else
          let* md := logical_mode md in
          let* rs := res_mapi (fun i o => sub_rule i (NewHeadlessRule o)) 0 rs in
          Ok (LogicalHeadlessRule {| rules := rs; mode := md; linvert := inv; laction := tt |})
      else Err (ErrNew ("unknown rule type: " +:+ type))
  end.
End new_rules.
