(* ===== verification/RuleConfig.v ===== *)
(** * What the options of a rule mean

    A rule's options denote a list of conditions: whether each is configured,
    the group it falls in, and whether it holds of a request.  The meaning of a
    rule is read off that list without building any item; the theorems show
    that the rules the constructors build match exactly when the meaning
    holds. *)

From stdpp Require Import base list strings gmap.
From Stdlib Require Import ZArith Lia.
From S2P Require Import Prelude GoStd External Adapter RuleItem RuleAbstract RuleTree RuleMatch RuleAction RuleBuild.

Open Scope Z_scope.

(** ** Conditions *)

Record condition : Type := { c_set : bool; c_group : group; c_holds : bool }.

Definition group_conditions (g : group) (cs : list condition) : list condition :=
  List.filter (fun c => c_set c && bool_decide (c_group c = g)) cs.

(** A group without a configured condition holds; otherwise one of them must. *)
Definition some_holds (cs : list condition) : bool := negb (nonempty cs) || existsb c_holds cs.

(** Every plain condition, and one of each group; the domain and the IPCIDR
    conditions are one group. *)
Definition conditions_hold (cs : list condition) : bool :=
  forallb c_holds (group_conditions GItems cs) &&
  some_holds (group_conditions GSourceAddress cs) &&
  some_holds (group_conditions GSourcePort cs) &&
  some_holds (group_conditions GDestinationAddress cs ++ group_conditions GDestinationIPCIDR cs) &&
  some_holds (group_conditions GDestinationPort cs).

(** A rule without a condition matches; otherwise the conditions decide,
    inverted or not. *)
Definition rule_meaning (inv : bool) (cs : list condition) : bool :=
  if existsb c_set cs then xorb (conditions_hold cs) inv else true.

Definition items_of {I A} (g : group) (r : abstractDefaultRule I A) : list I :=
  match g with
  | GItems => items r
  | GSourceAddress => sourceAddressItems r
  | GSourcePort => sourcePortItems r
  | GDestinationAddress => destinationAddressItems r
  | GDestinationIPCIDR => destinationIPCIDRItems r
  | GDestinationPort => destinationPortItems r
  end.

Lemma items_of_add {I A} g h (it : I) (r : abstractDefaultRule I A) :
  items_of g (add_item h it r) = if decide (h = g) then items_of g r ++ [it] else items_of g r.
Proof. by destruct g, h. Qed.

(** ** Built rules *)

Section run.
Context {I A : Type}.

Lemma run_steps_invert (l : list (step I)) (r r' : abstractDefaultRule I A) :
  run_steps l r = Ok r' -> invert r' = invert r /\ action r' = action r.
Proof.
  revert r; induction l as [|s l IH]; intros r; simpl; [by intros [= ->]|].
  destruct (st_cond s); [|apply IH]. intros H. inv_res. by apply IH in H.
Qed.

Lemma add_item_grouped g (it : I) (r : abstractDefaultRule I A) :
  rule_grouped r -> rule_grouped (add_item g it r).
Proof.
  unfold rule_grouped. intros Hr. destruct g; simpl; rewrite Hr; solve_Permutation.
Qed.

Lemma run_steps_grouped (l : list (step I)) (r r' : abstractDefaultRule I A) :
  run_steps l r = Ok r' -> rule_grouped r -> rule_grouped r'.
Proof.
  revert r; induction l as [|s l IH]; intros r; simpl; [by intros [= ->]|].
  destruct (st_cond s); [|apply IH]. intros H Hr. inv_res.
  eapply IH; [done|]. by apply add_item_grouped.
Qed.

Lemma empty_rule_grouped inv act : rule_grouped (@empty_rule I A inv act).
Proof. unfold rule_grouped. reflexivity. Qed.

(** Every item of a built rule comes from a step of its group whose test
    succeeded. *)
Lemma run_steps_from (P : group -> I -> Prop) (l : list (step I)) (r r' : abstractDefaultRule I A) :
  Forall (fun s => st_cond s = true -> forall it, st_item s = Ok it -> P (st_group s) it) l ->
  (forall g, Forall (P g) (items_of g r)) ->
  run_steps l r = Ok r' -> forall g, Forall (P g) (items_of g r').
Proof.
  intros Hl. revert r; induction Hl as [|s l Hs _ IH]; intros r Hr; simpl; [by intros [= <-]|].
  destruct (st_cond s) eqn:Hc; [|by apply IH].
  intros H. inv_res. eapply IH; [|done].
  intros g. rewrite items_of_add. case_decide as Hg; [subst g|by apply Hr].
  apply Forall_app; split; [by apply Hr|]. by apply Forall_singleton, Hs.
Qed.

(** No item is put in a group none of whose tests succeeds. *)
Lemma run_steps_group_empty g (l : list (step I)) inv (act : A) (r : abstractDefaultRule I A) :
  Forall (fun s => st_group s = g -> st_cond s = false) l ->
  run_steps l (empty_rule inv act) = Ok r -> items_of g r = [].
Proof.
  intros Hl Hr.
  assert (Forall (fun _ => g <> g) (items_of g r)) as Hg.
  { refine (run_steps_from (fun g' _ => g' <> g) l _ r _ _ Hr g); [|by intros []; constructor].
    eapply Forall_impl; [exact Hl|]. intros s Hs Hc it _ Hgs. rewrite Hs in Hc; done. }
  by destruct Hg.
Qed.

Lemma run_steps_keeps g (l : list (step I)) (r r' : abstractDefaultRule I A) :
  items_of g r <> [] -> run_steps l r = Ok r' -> items_of g r' <> [].
Proof.
  revert r; induction l as [|s l IH]; intros r Hr; simpl; [by intros [= <-]|].
  destruct (st_cond s); [|by apply IH]. intros H. inv_res. eapply IH; [|done].
  rewrite items_of_add. case_decide; [|done]. by destruct (items_of g r).
Qed.

Lemma run_steps_group_nonempty g (l : list (step I)) (r r' : abstractDefaultRule I A) :
  existsb (fun s => bool_decide (st_group s = g) && st_cond s) l = true ->
  run_steps l r = Ok r' -> items_of g r' <> [].
Proof.
  revert r; induction l as [|s l IH]; intros r; simpl; [done|].
  rewrite orb_true_iff, andb_true_iff, bool_decide_eq_true. intros [[Hg Hc]|Hl].
  - rewrite Hc. intros H. inv_res. eapply run_steps_keeps; [|done].
    rewrite items_of_add, decide_True by done. by destruct (items_of g r).
  - destruct (st_cond s); [|by apply IH]. intros H. inv_res. by eapply IH.
Qed.
End run.

(** ** Steps that denote conditions *)

Section denotes.
Context `{External} {A : Type} (h : Host).
#[local] Hint Extern 0 (ItemOps RuleItem) => exact (leaf_ops h) : typeclass_instances.
#[local] Hint Extern 0 (PureItem RuleItem) => exact (leaf_pure h) : typeclass_instances.

Definition step_denotes (m : InboundContext) (s : step RuleItem) (c : condition) : Prop :=
  st_cond s = c_set c /\ st_group s = c_group c /\
  (st_cond s = true -> forall it, st_item s = Ok it -> RuleItem_Match h it m = c_holds c).

Definition group_denotes (m : InboundContext) (r : abstractDefaultRule RuleItem A)
    (cs : list condition) : Prop :=
  (forall g, map (fun it => RuleItem_Match h it m) (items_of g r) =
             map c_holds (group_conditions g cs)) /\
  nonempty (allItems r) = existsb c_set cs.

Lemma group_conditions_app g cs cs' :
  group_conditions g (cs ++ cs') = group_conditions g cs ++ group_conditions g cs'.
Proof. apply List.filter_app. Qed.

Lemma nonempty_app {T} (l l' : list T) : nonempty (l ++ l') = nonempty l || nonempty l'.
Proof. by destruct l. Qed.

Lemma run_steps_denotes m l cs r r' cs0 :
  Forall2 (step_denotes m) l cs -> group_denotes m r cs0 -> run_steps l r = Ok r' ->
  group_denotes m r' (cs0 ++ cs).
Proof.
  intros Hl. revert r cs0.
  induction Hl as [|s c l cs (Hc & Hg & Hi) _ IH]; intros r cs0 Hr; simpl.
  { intros [= <-]. by rewrite app_nil_r. }
  replace (cs0 ++ c :: cs) with ((cs0 ++ [c]) ++ cs) by by rewrite <- app_assoc.
  destruct Hr as [Hr Hn]. destruct (st_cond s) eqn:Hs.
  - intros Hrun. inv_res. rename x into it. eapply IH; [|done]. split.
    + intros g. rewrite items_of_add, group_conditions_app, map_app, <- Hr.
      unfold group_conditions. cbn [List.filter]. rewrite <- Hc, <- Hg. simpl.
      repeat case_decide; case_bool_decide; simplify_eq; rewrite ?app_nil_r; [|done].
      rewrite map_app. simpl. by rewrite (Hi eq_refl it).
    + rewrite existsb_app. simpl. by rewrite nonempty_app, <- Hc, !orb_true_r.
  - intros Hrun. eapply IH; [|done]. split.
    + intros g. rewrite group_conditions_app, map_app, <- Hr.
      unfold group_conditions. cbn [List.filter]. by rewrite <- Hc, app_nil_r.
    + rewrite existsb_app, Hn. simpl. by rewrite <- Hc, !orb_false_r.
Qed.

Lemma empty_rule_denotes m inv (act : A) : group_denotes m (empty_rule inv act) [].
Proof. split; [by intros []|done]. Qed.

Lemma forallb_denotes m (l : list RuleItem) cs :
  map (fun it => RuleItem_Match h it m) l = map c_holds cs ->
  forallb (fun it => RuleItem_Match h it m) l = forallb c_holds cs.
Proof.
  revert cs; induction l as [|it l IH]; intros [|c cs]; simpl; try done.
  intros [= Hit Hl]. f_equal; [done|by apply IH].
Qed.

Lemma group_hit_denotes m (l : list RuleItem) cs :
  map (fun it => RuleItem_Match h it m) l = map c_holds cs ->
  group_hit l m = existsb c_holds cs /\ nonempty l = nonempty cs.
Proof.
  revert cs; induction l as [|it l IH]; intros [|c cs]; simpl; try done.
  intros [= Hit Hl]. destruct (IH cs Hl) as [IH1 _]. split; [|done].
  unfold group_hit. simpl. f_equal; [done|exact IH1].
Qed.

Lemma rule_matches_denotes m r cs :
  group_denotes m r cs -> cache m = NoCache -> rule_matches r m = conditions_hold cs.
Proof.
  intros [Hr _] Hc. unfold rule_matches, conditions_hold, group_ok, destination_ok, considers_ip,
    some_holds. rewrite Hc. simpl.
  pose proof (fun g => group_hit_denotes m _ _ (Hr g)) as Hg.
  rewrite (forallb_denotes m (items r) _ (Hr GItems)).
  destruct (Hg GSourceAddress) as [Hsa Nsa], (Hg GSourcePort) as [Hsp Nsp],
    (Hg GDestinationAddress) as [Hda Nda], (Hg GDestinationIPCIDR) as [Hdi Ndi],
    (Hg GDestinationPort) as [Hdp Ndp].
  cbn [items_of] in *. rewrite Hsa, Nsa, Hsp, Nsp, Hda, Nda, Hdi, Ndi, Hdp, Ndp.
  rewrite existsb_app, nonempty_app, !orb_false_r.
  assert (He : forall l, existsb c_holds l = nonempty l && existsb c_holds l) by by intros [].
  rewrite (He (group_conditions GDestinationIPCIDR cs)) at 2.
  f_equal. f_equal. rewrite orb_assoc. f_equal. f_equal. f_equal. apply orb_comm.
Qed.

(** The match of a built rule is the meaning of its conditions. *)
Lemma built_rule_match m l cs inv (act : A) r :
  Forall2 (step_denotes m) l cs -> run_steps l (empty_rule inv act) = Ok r -> cache m = NoCache ->
  (abstractDefaultRule_Match r m).1 = rule_meaning inv cs.
Proof.
  intros Hl Hrun Hc.
  pose proof (run_steps_denotes m l cs _ r [] Hl (empty_rule_denotes m inv act) Hrun) as Hd.
  destruct (run_steps_invert _ _ _ Hrun) as [Hinv _]. simpl in Hd, Hinv.
  rewrite abstractDefaultRule_Match_spec. unfold rule_meaning. destruct (Hd) as [_ <-].
  destruct (nonempty (allItems r)) eqn:Hn; simpl; [|done].
  rewrite (rule_examined_fresh r m Hc (run_steps_grouped _ _ _ Hrun (empty_rule_grouped _ _)) Hn).
  rewrite (rule_matches_denotes m r cs Hd Hc), Hinv. by destruct (conditions_hold cs), inv.
Qed.
End denotes.

(** ** What one condition holds of *)

Section tests.
Context `{External}.

Definition in_list {T} `{EqDecision T} (x : T) (l : list T) : bool := bool_decide (x ∈ l).

(** A test of the destination's host name, false when there is none. *)
Definition host_test (f : string -> bool) (m : InboundContext) : bool :=
  negb (bool_decide (domain_host m = "")) && f (ToLower (domain_host m)).

Definition regex_matches (s expr : string) : bool :=
  match regexp_Compile expr with Ok re => MatchString re s | _ => false end.

Definition cidr_contains (a : Addr) (s : string) : bool :=
  match cidr_add 0 s with
  | Ok (inl p) => Prefix_Contains p a
  | Ok (inr b) => bool_decide (b = a) && zone_free a
  | _ => false
  end.

(** The addresses a destination IPCIDR condition looks at: the destination,
    or else what it resolved to. *)
Definition destination_addresses (m : InboundContext) : list Addr :=
  if Addr_IsValid (sa_Addr (Destination m)) then [sa_Addr (Destination m)]
  else DestinationAddresses m.

Definition port_in_range (port : Z) (s : string) : bool :=
  match parse_port_range 0 s with
  | Ok r => (ri_start r <=? port) && (port <=? ri_end r)
  | _ => false
  end.

Definition process_test {T} (field : ProcessInfo -> T) (absent : T -> bool) (f : T -> bool)
    (m : InboundContext) : bool :=
  match ProcessInfo_ m with
  | Some info => negb (absent (field info)) && f (field info)
  | None => false
  end.
Definition no_string (s : string) : bool := bool_decide (s = "").

Definition interface_test (h : Host) (f : NetworkInterface -> bool) : bool :=
  match DefaultNetworkInterface h with Some ni => f ni | None => false end.

(** *** The items agree with the tests *)

Lemma res_mapi_existsb {X Y} (f : nat -> X -> res Y) (g : Y -> bool) (k : X -> bool) i l ys :
  (forall i x y, f i x = Ok y -> g y = k x) -> res_mapi f i l = Ok ys ->
  existsb g ys = existsb k l.
Proof.
  intros Hf. revert i ys. induction l as [|x l IH]; intros i ys; simpl; [by intros [= <-]|].
  intros Hm. inv_res. simpl. by rewrite (Hf i x x0), (IH (S i) x1).
Qed.

Lemma regex_item_test i expr re s :
  compile_regex i expr = Ok re -> MatchString re s = regex_matches s expr.
Proof. unfold compile_regex, regex_matches. intros Hr. inv_res. by rewrite Hr. Qed.

Lemma port_range_item_test i s r port :
  parse_port_range i s = Ok r ->
  (ri_start r <=? port) && (port <=? ri_end r) = port_in_range port s.
Proof.
  unfold port_in_range. change (parse_port_range i s) with (parse_port_range 0 s). by intros ->.
Qed.

Lemma cidr_add_index i s p : cidr_add i s = Ok p <-> cidr_add 0 s = Ok p.
Proof.
  unfold cidr_add. destruct (netip_ParsePrefix s); [done| |done].
  destruct (netip_ParseAddr s); [done|split; discriminate..].
Qed.

Context `{!ExternalLaws _}.

Lemma IPSet_of_list l ps s a :
  res_mapi cidr_add 0 l = Ok ps -> IPSetBuilder_IPSet ps = Ok s ->
  IPSet_Contains s a = existsb (cidr_contains a) l.
Proof.
  intros Hl Hs. set (g i := match i with inl p => Prefix_Contains p a
                                    | inr b => bool_decide (b = a) && zone_free a end).
  rewrite <- (res_mapi_existsb cidr_add g (cidr_contains a) 0 l ps); [|..|done].
  - apply eq_iff_eq_true. rewrite (IPSet_Contains_spec ps s a Hs), existsb_elem_of.
    apply exist_proper; intros i. apply and_iff_compat_l. unfold g. destruct i as [p|b]; [done|].
    rewrite andb_true_iff, bool_decide_eq_true. apply and_iff_compat_l.
    destruct a; simpl; [done|done|]. by rewrite bool_decide_eq_true.
  - intros i x y Hx%cidr_add_index. unfold cidr_contains. rewrite Hx. by destruct y.
Qed.

Lemma ipcidr_source_test l r m :
  NewIPCIDRItem true l = Ok r -> IPCIDRItem_Match r m = existsb (cidr_contains (sa_Addr (Source m))) l.
Proof. unfold NewIPCIDRItem. intros Hr. inv_res. by eapply IPSet_of_list. Qed.

Lemma ipcidr_destination_match s d m :
  cache m = NoCache ->
  IPCIDRItem_Match {| ici_ipSet := s; ici_isSource := false; ici_description := d |} m =
  existsb (IPSet_Contains s) (destination_addresses m).
Proof.
  intros Hc. unfold IPCIDRItem_Match, destination_addresses. rewrite Hc, IsIP_spec. simpl.
  destruct (Addr_IsValid _); simpl; [by rewrite orb_false_r|].
  by destruct (DestinationAddresses m).
Qed.

Lemma ipcidr_destination_test l r m :
  NewIPCIDRItem false l = Ok r -> cache m = NoCache ->
  IPCIDRItem_Match r m =
  existsb (fun a => existsb (cidr_contains a) l) (destination_addresses m).
Proof.
  unfold NewIPCIDRItem. intros Hr Hc. inv_res. rewrite ipcidr_destination_match by done.
  apply existsb_ext_in. intros a _. by eapply IPSet_of_list.
Qed.

Lemma host_test_if f m :
  (if decide (domain_host m = "") then false else f (ToLower (domain_host m))) = host_test f m.
Proof. unfold host_test. case_decide; case_bool_decide; done. Qed.

Lemma process_test_if {T} (field : ProcessInfo -> T) (absent f : T -> bool) m :
  with_process m (fun info => if absent (field info) then false else f (field info)) =
  process_test field absent f m.
Proof.
  unfold with_process, process_test. destruct (ProcessInfo_ m) as [info|]; [|done].
  by destruct (absent (field info)).
Qed.

Lemma process_test_string (field : ProcessInfo -> string) (f : string -> bool) m :
  with_process m (fun info => if decide (field info = "") then false else f (field info)) =
  process_test field no_string f m.
Proof.
  unfold with_process, process_test, no_string. destruct (ProcessInfo_ m) as [info|]; [|done].
  case_decide; case_bool_decide; done.
Qed.
End tests.

(** ** The conditions of each kind of rule *)

Section conditions.
Context `{External} (h : Host).

Notation "c '?>' g '<-' b" := (Build_condition c g b) (at level 90, g at level 0, b at level 80).

Definition ip_version_holds (v6 : bool) (m : InboundContext) : bool :=
  (negb (IPVersion m =? 0) && eqb (IPVersion m =? 6) v6) ||
  (Addr_IsValid (sa_Addr (Destination m)) && eqb (Addr_Is6 (sa_Addr (Destination m))) v6).

Definition private_source (m : InboundContext) : bool :=
  Addr_IsValid (sa_Addr (Source m)) && negb (IsPublicAddr (sa_Addr (Source m))).
Definition private_destination (m : InboundContext) : bool :=
  existsb (fun a => negb (IsPublicAddr a)) (destination_addresses m).

Definition domain_holds (domains suffixes : list string) (m : InboundContext) : bool :=
  host_test (Matcher_Match (NewMatcher domains suffixes false)) m.
Definition keyword_holds (keywords : list string) (m : InboundContext) : bool :=
  host_test (fun s => existsb (strings_Contains s) keywords) m.
Definition regex_holds (exprs : list string) (m : InboundContext) : bool :=
  host_test (fun s => existsb (regex_matches s) exprs) m.
Definition source_cidr_holds (l : list string) (m : InboundContext) : bool :=
  existsb (cidr_contains (sa_Addr (Source m))) l.
Definition cidr_holds (l : list string) (m : InboundContext) : bool :=
  existsb (fun a => existsb (cidr_contains a) l) (destination_addresses m).
Definition clash_mode_holds (mode : string) : bool :=
  match ClashMode h with Some current => EqualFold current mode | None => false end.

(** *** Headless rules *)

(** The conditions the constructor reads. *)
Definition headless_conditions (has_network_manager : bool) (o : DefaultHeadlessOptions)
    (m : InboundContext) : list condition := [
  nonempty (hd_Network o) ?> GItems <- in_list (Network m) (hd_Network o);
  (nonempty (hd_Domain o) || nonempty (hd_DomainSuffix o)) ?> GDestinationAddress <-
    domain_holds (hd_Domain o) (hd_DomainSuffix o) m;
  (negb (nonempty (hd_Domain o) || nonempty (hd_DomainSuffix o)) && negb (is_nil (hd_DomainMatcher o)))
    ?> GDestinationAddress <-
    from_option (fun matcher => host_test (Matcher_Match matcher) m) false (hd_DomainMatcher o);
  nonempty (hd_DomainKeyword o) ?> GDestinationAddress <- keyword_holds (hd_DomainKeyword o) m;
  nonempty (hd_DomainRegex o) ?> GDestinationAddress <- regex_holds (hd_DomainRegex o) m;
  nonempty (hd_SourceIPCIDR o) ?> GSourceAddress <- source_cidr_holds (hd_SourceIPCIDR o) m;
  (negb (nonempty (hd_SourceIPCIDR o)) && negb (is_nil (hd_SourceIPSet o))) ?> GSourceAddress <-
    from_option (fun s => IPSet_Contains s (sa_Addr (Source m))) false (hd_SourceIPSet o);
  nonempty (hd_IPCIDR o) ?> GDestinationIPCIDR <- cidr_holds (hd_IPCIDR o) m;
  (negb (nonempty (hd_IPCIDR o)) && negb (is_nil (hd_IPSet o))) ?> GDestinationIPCIDR <-
    from_option (fun s => existsb (IPSet_Contains s) (destination_addresses m)) false (hd_IPSet o);
  nonempty (hd_SourcePort o) ?> GSourcePort <- in_list (sa_Port (Source m)) (hd_SourcePort o);
  nonempty (hd_SourcePortRange o) ?> GSourcePort <-
    existsb (port_in_range (sa_Port (Source m))) (hd_SourcePortRange o);
  nonempty (hd_Port o) ?> GDestinationPort <- in_list (sa_Port (Destination m)) (hd_Port o);
  nonempty (hd_PortRange o) ?> GDestinationPort <-
    existsb (port_in_range (sa_Port (Destination m))) (hd_PortRange o);
  nonempty (hd_ProcessName o) ?> GItems <-
    process_test ProcessPath no_string (fun p => in_list (filepath_Base p) (hd_ProcessName o)) m;
  nonempty (hd_ProcessPath o) ?> GItems <-
    process_test ProcessPath no_string (fun p => in_list p (hd_ProcessPath o)) m;
  nonempty (hd_ProcessPathRegex o) ?> GItems <-
    process_test ProcessPath no_string (fun p => existsb (regex_matches p) (hd_ProcessPathRegex o)) m;
  nonempty (hd_PackageName o) ?> GItems <-
    process_test PackageName no_string (fun p => in_list p (hd_PackageName o)) m
] ++ (if has_network_manager then [
  nonempty (hd_NetworkType o) ?> GItems <-
    interface_test h (fun i => in_list (ni_Type i) (hd_NetworkType o));
  hd_NetworkIsExpensive o ?> GItems <- interface_test h ni_Expensive;
  hd_NetworkIsConstrained o ?> GItems <- interface_test h ni_Constrained;
  nonempty (hd_WIFISSID o) ?> GItems <- in_list (WIFIState_SSID h) (hd_WIFISSID o);
  nonempty (hd_WIFIBSSID o) ?> GItems <- in_list (WIFIState_BSSID h) (hd_WIFIBSSID o)
] else []) ++ [
  nonempty (hd_AdGuardDomain o) ?> GDestinationAddress <-
    host_test (AdGuardMatcher_Match (NewAdGuardMatcher (hd_AdGuardDomain o))) m;
  (negb (nonempty (hd_AdGuardDomain o)) && negb (is_nil (hd_AdGuardDomainMatcher o)))
    ?> GDestinationAddress <-
    from_option (fun matcher => host_test (AdGuardMatcher_Match matcher) m) false
      (hd_AdGuardDomainMatcher o)
].

(** All that the options list.  [NewDefaultHeadlessRule] has no item for a query
    type, and none for the network of the host without a network manager. *)
Definition listed_conditions (o : DefaultHeadlessOptions) (m : InboundContext) : list condition :=
  (nonempty (hd_QueryType o) ?> GItems <- (negb (QueryType m =? 0) && in_list (QueryType m) (hd_QueryType o)))
  :: headless_conditions true o m.

Definition host_listed (o : DefaultHeadlessOptions) : bool :=
  nonempty (hd_NetworkType o) || hd_NetworkIsExpensive o || hd_NetworkIsConstrained o || nonempty (hd_WIFISSID o) ||
  nonempty (hd_WIFIBSSID o).

Definition conditions_read (has_network_manager : bool) (o : DefaultHeadlessOptions) : bool :=
  negb (nonempty (hd_QueryType o)) && (has_network_manager || negb (host_listed o)).

(** *** Route rules without rule-sets *)

Definition route_conditions (o : RawDefaultRule) (m : InboundContext) : list condition := [
  nonempty (rd_Inbound o) ?> GItems <- in_list (Inbound m) (rd_Inbound o);
  (0 <? rd_IPVersion o) ?> GItems <- ip_version_holds (rd_IPVersion o =? 6) m;
  nonempty (rd_Network o) ?> GItems <- in_list (Network m) (rd_Network o);
  nonempty (rd_AuthUser o) ?> GItems <- in_list (User m) (rd_AuthUser o);
  nonempty (rd_Protocol o) ?> GItems <- in_list (Protocol m) (rd_Protocol o);
  nonempty (rd_Client o) ?> GItems <- in_list (Client m) (rd_Client o);
  (nonempty (rd_Domain o) || nonempty (rd_DomainSuffix o)) ?> GDestinationAddress <-
    domain_holds (rd_Domain o) (rd_DomainSuffix o) m;
  nonempty (rd_DomainKeyword o) ?> GDestinationAddress <- keyword_holds (rd_DomainKeyword o) m;
  nonempty (rd_DomainRegex o) ?> GDestinationAddress <- regex_holds (rd_DomainRegex o) m;
  nonempty (rd_Geosite o) ?> GItems <- false;
  nonempty (rd_SourceGeoIP o) ?> GItems <- false;
  nonempty (rd_GeoIP o) ?> GItems <- false;
  nonempty (rd_SourceIPCIDR o) ?> GSourceAddress <- source_cidr_holds (rd_SourceIPCIDR o) m;
  rd_SourceIPIsPrivate o ?> GSourceAddress <- private_source m;
  nonempty (rd_IPCIDR o) ?> GDestinationIPCIDR <- cidr_holds (rd_IPCIDR o) m;
  rd_IPIsPrivate o ?> GDestinationIPCIDR <- private_destination m;
  nonempty (rd_SourcePort o) ?> GSourcePort <- in_list (sa_Port (Source m)) (rd_SourcePort o);
  nonempty (rd_SourcePortRange o) ?> GSourcePort <-
    existsb (port_in_range (sa_Port (Source m))) (rd_SourcePortRange o);
  nonempty (rd_Port o) ?> GDestinationPort <- in_list (sa_Port (Destination m)) (rd_Port o);
  nonempty (rd_PortRange o) ?> GDestinationPort <-
    existsb (port_in_range (sa_Port (Destination m))) (rd_PortRange o);
  nonempty (rd_ProcessName o) ?> GItems <-
    process_test ProcessPath no_string (fun p => in_list (filepath_Base p) (rd_ProcessName o)) m;
  nonempty (rd_ProcessPath o) ?> GItems <-
    process_test ProcessPath no_string (fun p => in_list p (rd_ProcessPath o)) m;
  nonempty (rd_ProcessPathRegex o) ?> GItems <-
    process_test ProcessPath no_string (fun p => existsb (regex_matches p) (rd_ProcessPathRegex o)) m;
  nonempty (rd_PackageName o) ?> GItems <-
    process_test PackageName no_string (fun p => in_list p (rd_PackageName o)) m;
  nonempty (rd_User o) ?> GItems <-
    process_test UserName no_string (fun p => in_list p (rd_User o)) m;
  nonempty (rd_UserID o) ?> GItems <-
    process_test UserId (fun i => i =? -1) (fun i => in_list i (rd_UserID o)) m;
  negb (bool_decide (rd_ClashMode o = "")) ?> GItems <- clash_mode_holds (rd_ClashMode o);
  nonempty (rd_NetworkType o) ?> GItems <-
    interface_test h (fun i => in_list (ni_Type i) (rd_NetworkType o));
  rd_NetworkIsExpensive o ?> GItems <- interface_test h ni_Expensive;
  rd_NetworkIsConstrained o ?> GItems <- interface_test h ni_Constrained;
  nonempty (rd_WIFISSID o) ?> GItems <- in_list (WIFIState_SSID h) (rd_WIFISSID o);
  nonempty (rd_WIFIBSSID o) ?> GItems <- in_list (WIFIState_BSSID h) (rd_WIFIBSSID o)
].

(** *** The steps denote them *)

Context `{!ExternalLaws _} (m : InboundContext) (Hm : cache m = NoCache).

Lemma denotes_ok c g (it : RuleItem) b :
  RuleItem_Match h it m = b ->
  step_denotes h m (Build_step c g (ok_item it)) (Build_condition c g b).
Proof. intros Hb. split_and!; [done..|]. by intros _ it' [= <-]. Qed.

Lemma denotes_wrap {T} c g (f : T -> RuleItem) (r : res T) b :
  (forall x, r = Ok x -> RuleItem_Match h (f x) m = b) ->
  step_denotes h m (Build_step c g (wrap_item f r)) (Build_condition c g b).
Proof. intros Hb. split_and!; [done..|]. intros _ it Hit. simpl in Hit. unfold wrap_item in Hit.
  inv_res. by apply Hb. Qed.

Lemma denotes_err c g e b :
  step_denotes h m (Build_step c g (Err e)) (Build_condition c g b).
Proof. by split_and!. Qed.

Lemma denotes_domain c g d s :
  step_denotes h m (Build_step c g (wrap_item ItDomain (NewDomainItem d s)))
    (Build_condition c g (domain_holds d s m)).
Proof.
  apply denotes_wrap. unfold NewDomainItem. intros x Hx.
  repeat (case_match; [discriminate|]). inv_res. apply host_test_if.
Qed.

Lemma denotes_keyword c g l :
  step_denotes h m (Build_step c g (ok_item (ItDomainKeyword (NewDomainKeywordItem l))))
    (Build_condition c g (keyword_holds l m)).
Proof. apply denotes_ok. apply (host_test_if (fun s => existsb (strings_Contains s) l)). Qed.

Lemma denotes_regex c g l :
  step_denotes h m (Build_step c g (domain_regex_item l)) (Build_condition c g (regex_holds l m)).
Proof.
  apply denotes_wrap. intros x Hx. inv_res. unfold NewDomainRegexItem in Hx. inv_res.
  cbn [RuleItem_Match]. unfold DomainRegexItem_Match.
  rewrite (host_test_if (fun s => existsb (fun re => MatchString re s) _)). unfold regex_holds.
  unfold host_test. f_equal. eapply res_mapi_existsb; [|done].
  intros i expr re. apply regex_item_test.
Qed.

Lemma denotes_process_regex c g l :
  step_denotes h m (Build_step c g (process_path_regex_item l))
    (Build_condition c g
      (process_test ProcessPath no_string (fun p => existsb (regex_matches p) l) m)).
Proof.
  apply denotes_wrap. intros x Hx. inv_res. unfold NewProcessPathRegexItem in Hx. inv_res.
  cbn [RuleItem_Match]. unfold ProcessPathRegexItem_Match.
  rewrite (process_test_string ProcessPath (fun p => existsb (fun re => MatchString re p) _)).
  unfold process_test. destruct (ProcessInfo_ m) as [info|]; [|done]. f_equal.
  eapply res_mapi_existsb; [|done]. intros i expr re. apply regex_item_test.
Qed.

Lemma denotes_ipcidr_source c g cause l :
  step_denotes h m (Build_step c g (ipcidr_item cause true l))
    (Build_condition c g (source_cidr_holds l m)).
Proof. apply denotes_wrap. intros x Hx. inv_res. by apply ipcidr_source_test. Qed.

Lemma denotes_ipcidr c g cause l :
  step_denotes h m (Build_step c g (ipcidr_item cause false l))
    (Build_condition c g (cidr_holds l m)).
Proof. apply denotes_wrap. intros x Hx. inv_res. by apply ipcidr_destination_test. Qed.

Lemma denotes_port_range c g cause source l :
  step_denotes h m (Build_step c g (port_range_item cause source l))
    (Build_condition c g
      (existsb (port_in_range (if source then sa_Port (Source m) else sa_Port (Destination m))) l)).
Proof.
  apply denotes_wrap. intros x Hx. inv_res. unfold NewPortRangeItem in Hx. inv_res.
  cbn [RuleItem_Match]. unfold PortRangeItem_Match. simpl.
  eapply res_mapi_existsb; [|done]. intros i s r. apply port_range_item_test.
Qed.

Lemma denotes_raw {T} g l (raw : option T) (f : T -> RuleItem) (k : T -> bool) msg :
  (forall x, RuleItem_Match h (f x) m = k x) ->
  step_denotes h m
    (Build_step (negb l && match raw with Some _ => true | None => false end) g
       (match raw with Some x => Ok (f x) | None => Err msg end))
    (Build_condition (negb l && negb (is_nil raw)) g (from_option k false raw)).
Proof. intros Hf. destruct raw; split_and!; try done. simpl. by intros _ it [= <-]. Qed.

Lemma ip_version_test v :
  forall it, ip_version_item v = Ok it -> RuleItem_Match h it m = ip_version_holds (v =? 6) m.
Proof.
  unfold ip_version_item. intros it. case_match; [|discriminate]. intros [= <-].
  simpl. unfold IPVersionItem_Match, ip_version_holds. by rewrite IsIP_spec, IsIPv6_spec.
Qed.

Lemma ip_private_test source :
  RuleItem_Match h (ItIPIsPrivate (NewIPIsPrivateItem source)) m =
  if source then private_source m else private_destination m.
Proof.
  simpl. unfold IPIsPrivateItem_Match, private_source, private_destination, destination_addresses.
  destruct source; simpl; destruct (Addr_IsValid _); simpl; by rewrite ?orb_false_r.
Qed.

#[local] Ltac process_item :=
  unfold ProcessItem_Match, ProcessPathItem_Match, PackageNameItem_Match, UserItem_Match,
    UserIdItem_Match, with_process, process_test, no_string;
  destruct (ProcessInfo_ m); [|done]; simpl;
  first [case_decide; case_bool_decide; try done | case_match; try done]; apply map_get_bool_map.

#[local] Ltac denote_item :=
  simpl;
  first
    [ apply map_get_bool_map
    | apply ip_private_test
    | apply (host_test_if (AdGuardMatcher_Match _))
    | process_item
    | done ].

#[local] Ltac denote_step :=
  first
    [ apply denotes_err | apply denotes_domain | apply denotes_keyword | apply denotes_regex
    | apply denotes_process_regex | apply denotes_ipcidr_source | apply denotes_ipcidr
    | apply (denotes_port_range _ _ _ true) | apply (denotes_port_range _ _ _ false)
    | split_and!; [done..|]; intros _; apply ip_version_test
    | apply denotes_ok; denote_item
    | apply (denotes_raw _ (_ || _)); intros ?; apply (host_test_if (Matcher_Match _))
    | apply (denotes_raw _ _ _ (fun s => ItIPCIDR (NewRawIPCIDRItem true s))); done
    | apply (denotes_raw _ _ _ (fun s => ItIPCIDR (NewRawIPCIDRItem false s)));
      intros ?; by apply ipcidr_destination_match
    | apply (denotes_raw _ _ _ (fun mt => ItAdGuard (NewRawAdGuardDomainItem mt)));
      intros ?; apply (host_test_if (AdGuardMatcher_Match _)) ].

#[local] Ltac denote_steps := cbn [app]; repeat (apply Forall2_cons_2; [denote_step|]); try apply Forall2_nil_2.

Lemma route_steps_denote o :
  Forall2 (step_denotes h m)
    (default_rule_head o ++ default_rule_addresses o ++ default_rule_process o ++ default_rule_host o)
    (route_conditions o m).
Proof. unfold route_conditions, default_rule_head, default_rule_addresses, default_rule_process, default_rule_host.
  denote_steps. Qed.
Lemma headless_steps_denote nm o :
  Forall2 (step_denotes h m) (headless_steps nm o) (headless_conditions nm o m).
Proof.
  unfold headless_steps, headless_conditions, headless_head, headless_addresses, headless_process,
    headless_host, list_or_raw.
  destruct nm; denote_steps.
Qed.
End conditions.

(** ** Induction on rule options *)

Section options_ind.
Context `{External} (P : HeadlessRuleOptions -> Prop) (Q : RuleOptions -> Prop).
Context {RR : Type} (D : DNSRuleOptions RR -> Prop).

Fixpoint HeadlessRuleOptions_tree_ind
    (IH : forall type d md rs inv, Forall P rs -> P (MkHeadlessRuleOptions type d md rs inv))
    (o : HeadlessRuleOptions) : P o :=
  match o with
  | MkHeadlessRuleOptions type d md rs inv => IH type d md rs inv
      ((fix go l : Forall P l :=
          match l with
          | [] => Forall_nil_2 P
          | x :: l => Forall_cons_2 P x l (HeadlessRuleOptions_tree_ind IH x) (go l)
          end) rs)
  end.

Fixpoint RuleOptions_tree_ind
    (IH : forall type d da md rs inv la, Forall Q rs -> Q (MkRuleOptions type d da md rs inv la))
    (o : RuleOptions) : Q o :=
  match o with
  | MkRuleOptions type d da md rs inv la => IH type d da md rs inv la
      ((fix go l : Forall Q l :=
          match l with
          | [] => Forall_nil_2 Q
          | x :: l => Forall_cons_2 Q x l (RuleOptions_tree_ind IH x) (go l)
          end) rs)
  end.

Fixpoint DNSRuleOptions_tree_ind
    (IH : forall type d da md rs inv la, Forall D rs -> D (MkDNSRuleOptions type d da md rs inv la))
    (o : DNSRuleOptions RR) : D o :=
  match o with
  | MkDNSRuleOptions type d da md rs inv la => IH type d da md rs inv la
      ((fix go l : Forall D l :=
          match l with
          | [] => Forall_nil_2 D
          | x :: l => Forall_cons_2 D x l (DNSRuleOptions_tree_ind IH x) (go l)
          end) rs)
  end.
End options_ind.

(** ** Rules without rule-sets are rules of plain items *)

Section plain_rules.
Context `{External} {A : Type}.

Lemma run_steps_plain (l : list (step RuleItem)) (l' : list (step AnyItem))
    (r0 : abstractDefaultRule RuleItem A) (r : abstractDefaultRule AnyItem A) :
  (forall s, s ∈ l' -> st_cond s = false) ->
  run_steps (map plain l ++ l') (map_rule Plain r0) = Ok r ->
  exists r1, r = map_rule Plain r1 /\ run_steps l r0 = Ok r1.
Proof.
  intros Hl'. revert r0. induction l as [|s l IH]; intros r0; simpl.
  - induction l' as [|s l' IH]; simpl; [intros [= <-]; by exists r0|].
    rewrite (Hl' s) by set_solver. apply IH. set_solver.
  - destruct (st_cond s); [|apply IH]. destruct (st_item s) as [it| |]; [|done..]. simpl.
    intros Hr. apply IH. rewrite <- Hr. f_equal. unfold map_rule, add_item. simpl.
    f_equal; try (case_decide; [by rewrite fmap_app|done]). by rewrite fmap_app.
Qed.

Lemma default_rule_plain (d : RawDefaultRule) (act : A) r :
  negb (nonempty (rd_RuleSet d)) = true ->
  run_steps (default_rule_steps d) (empty_rule (rd_Invert d) act) = Ok r ->
  exists r0, r = map_rule Plain r0 /\
    run_steps (default_rule_head d ++ default_rule_addresses d ++ default_rule_process d ++
               default_rule_host d) (empty_rule (rd_Invert d) act) = Ok r0.
Proof.
  intros Hs. apply (run_steps_plain _ _ (empty_rule (rd_Invert d) act)).
  intros s ->%list_elem_of_singleton. simpl. by apply negb_true_iff.
Qed.

Lemma dns_rule_plain (d : RawDefaultDNSRule) (act : A) r :
  negb (nonempty (dd_RuleSet d)) = true ->
  run_steps (dns_rule_steps d) (empty_rule (dd_Invert d) act) = Ok r ->
  exists r0, r = map_rule Plain r0 /\
    run_steps (dns_rule_head d ++ dns_rule_addresses d ++ dns_rule_process d ++ dns_rule_host d)
      (empty_rule (dd_Invert d) act) = Ok r0.
Proof.
  intros Hs. apply (run_steps_plain _ _ (empty_rule (dd_Invert d) act)).
  intros s ->%list_elem_of_singleton. simpl. by apply negb_true_iff.
Qed.
End plain_rules.

(** ** The meaning of whole rules *)

Definition is_default_type (type : string) : bool :=
  bool_decide (type = "" \/ type = RuleTypeDefault).

Definition logical_meaning (mode : string) (inv : bool) (subs : list bool) : bool :=
  xorb (if decide (mode = LogicalTypeAnd) then forallb id subs else existsb id subs) inv.

Lemma is_default_type_spec type {T} (x y : T) :
  (if decide (type = "" \/ type = RuleTypeDefault) then x else y) =
  if is_default_type type then x else y.
Proof. unfold is_default_type. case_decide; case_bool_decide; done. Qed.

Lemma logical_mode_ok md md' : logical_mode md = Ok md' -> md' = md.
Proof. unfold logical_mode. case_decide; [by intros [= ->]|discriminate]. Qed.

Lemma sub_rules_Forall2 {O R} (new : O -> res R) (Q : O -> R -> Prop) os rs :
  (forall o r, o ∈ os -> new o = Ok r -> Q o r) ->
  res_mapi (fun i o => sub_rule i (new o)) 0 os = Ok rs -> Forall2 Q os rs.
Proof.
  intros HQ Hm%res_mapi_Forall2. revert HQ.
  induction Hm as [|o r os rs (k & Ho) _ IH]; intros HQ; constructor.
  - apply HQ; [set_solver|]. by apply res_cause_ok in Ho.
  - apply IH. intros o' r' Ho'. apply HQ. set_solver.
Qed.

Section meaning.
Context `{External} (h : Host).

Fixpoint headless_means (nm : bool) (o : HeadlessRuleOptions) (m : InboundContext) : bool :=
  match o with
  | MkHeadlessRuleOptions type d md rs inv =>
      if is_default_type type then rule_meaning (hd_Invert d) (headless_conditions h nm d m)
      else logical_meaning md inv (map (fun o => headless_means nm o m) rs)
  end.

(** The same of all that the options list. *)
Fixpoint headless_says (o : HeadlessRuleOptions) (m : InboundContext) : bool :=
  match o with
  | MkHeadlessRuleOptions type d md rs inv =>
      if is_default_type type then rule_meaning (hd_Invert d) (listed_conditions h d m)
      else logical_meaning md inv (map (fun o => headless_says o m) rs)
  end.

Fixpoint all_conditions_read (nm : bool) (o : HeadlessRuleOptions) : bool :=
  match o with
  | MkHeadlessRuleOptions type d _ rs _ =>
      if is_default_type type then conditions_read nm d else forallb (all_conditions_read nm) rs
  end.

Fixpoint route_means (o : RuleOptions) (m : InboundContext) : bool :=
  match o with
  | MkRuleOptions type d _ md rs inv _ =>
      if is_default_type type then rule_meaning (rd_Invert d) (route_conditions h d m)
      else logical_meaning md inv (map (fun o => route_means o m) rs)
  end.

(** No default rule of the tree refers to a rule-set. *)
Fixpoint without_rule_sets (o : RuleOptions) : bool :=
  match o with
  | MkRuleOptions type d _ _ rs _ _ =>
      if is_default_type type then negb (nonempty (rd_RuleSet d))
      else forallb without_rule_sets rs
  end.

Context `{!ExternalLaws _}.
#[local] Hint Extern 0 (ItemOps RuleItem) => exact (leaf_ops h) : typeclass_instances.

#[local] Ltac mode_ok :=
  match goal with Hm : logical_mode _ = Ok _ |- _ => apply logical_mode_ok in Hm as -> end.

(** A logical rule over sub-rules that match as they mean. *)
Lemma logical_match {O R} (sub : R -> InboundContext -> bool * InboundContext) (g : O -> bool)
    os rs md inv {A} (act : A) m :
  cache m = NoCache -> (forall it, it ∈ rs -> match_frame m (sub it m).2) ->
  Forall2 (fun o r => (sub r m).1 = g o) os rs ->
  (abstractLogicalRule_Match sub {| rules := rs; mode := md; linvert := inv; laction := act |} m).1 =
  logical_meaning md inv (map g os).
Proof.
  intros Hc Hframe Hs. assert (Hm : ResetRuleCache m = m) by (apply upd_cache_same; by rewrite Hc).
  rewrite abstractLogicalRule_Match_pure; cbn [rules mode linvert]; rewrite Hm; [|done].
  unfold logical_meaning. f_equal. case_decide.
  - rewrite (forallb_Forall2 g (fun r => (sub r m).1) os rs Hs).
    clear. induction os as [|o os IH]; simpl; [done|]. by rewrite IH.
  - rewrite (existsb_Forall2 g (fun r => (sub r m).1) os rs Hs).
    clear. induction os as [|o os IH]; simpl; [done|]. by rewrite IH.
Qed.

(** The match of a rule [NewHeadlessRule] built, on a fresh cache. *)
Lemma headless_rule_denotes (nm : bool) (o : HeadlessRuleOptions) r m :
  NewHeadlessRule nm o = Ok r -> cache m = NoCache ->
  (HeadlessRule_Match h r m).1 = headless_means nm o m.
Proof.
  revert r. induction o as [type d md rs inv IH] using HeadlessRuleOptions_tree_ind; intros r Hr Hc.
  cbn [NewHeadlessRule headless_means] in *. rewrite Forall_forall in IH.
  rewrite is_default_type_spec in Hr. destruct (is_default_type type).
  - case_match; [discriminate|]. unfold NewDefaultHeadlessRule in Hr. inv_res.
    by eapply built_rule_match; [apply headless_steps_denote|..].
  - case_match; [|discriminate]. inv_res. case_match; [discriminate|]. inv_res.
    mode_ok.
    apply (logical_match (HeadlessRule_Match h)); [done| |].
    + intros it _. apply HeadlessRule_Match_frame.
    + eapply sub_rules_Forall2; [|done]. intros o r Ho Hor. by apply IH.
Qed.

(** Conditions that are not set do not count. *)
Lemma set_conditions_decide inv cs cs' :
  List.filter c_set cs = List.filter c_set cs' -> rule_meaning inv cs = rule_meaning inv cs'.
Proof.
  assert (forall l, existsb c_set l = nonempty (List.filter c_set l)) as He.
  { induction l as [|c l IH]; [done|]. simpl. by destruct (c_set c). }
  assert (forall g l, group_conditions g l = List.filter (fun c => bool_decide (c_group c = g)) (List.filter c_set l)) as Hg.
  { intros g. unfold group_conditions. induction l as [|c l IH]; [done|]. simpl. destruct (c_set c); simpl; by rewrite IH. }
  intros Hf. unfold rule_meaning, conditions_hold. by rewrite !He, !Hg, Hf.
Qed.

Lemma read_means_listed nm d m : conditions_read nm d = true ->
  rule_meaning (hd_Invert d) (headless_conditions h nm d m) = rule_meaning (hd_Invert d) (listed_conditions h d m).
Proof.
  unfold conditions_read. intros [Hq Hn]%andb_true_iff. apply negb_true_iff in Hq. apply set_conditions_decide.
  unfold listed_conditions. cbn [List.filter c_set]. rewrite Hq. destruct nm; [done|]. simpl in Hn. apply negb_true_iff in Hn.
  unfold host_listed in Hn. rewrite !orb_false_iff in Hn. destruct Hn as [[[[H1 H2] H3] H4] H5].
  unfold headless_conditions. rewrite !List.filter_app. f_equal. cbn [List.filter c_set app]. by rewrite H1, H2, H3, H4, H5.
Qed.

Lemma headless_means_says nm o m : all_conditions_read nm o = true -> headless_means nm o m = headless_says o m.
Proof.
  induction o as [type d md rs inv IH] using HeadlessRuleOptions_tree_ind. cbn [all_conditions_read headless_means headless_says].
  destruct (is_default_type type); [apply read_means_listed|]. rewrite forallb_forall. intros Hall. f_equal.
  rewrite Forall_forall in IH. apply map_ext_in. intros o Hin. apply IH; [by apply list_elem_of_In|by apply Hall].
Qed.

(** C1 (a headless rule means what its options list): a rule that
    [NewHeadlessRule] builds, whatever its nesting, matches a request on a fresh
    cache exactly when the conditions it reads hold: in every default rule all
    plain conditions and, in each address or port group with a condition, at least
    one.  When no default rule lists a query type, and none the network of the
    host unless there is a network manager, these are all the conditions the
    options list. *)
Theorem headless_rule_means_options (nm : bool) (o : HeadlessRuleOptions) r m :
  NewHeadlessRule nm o = Ok r -> cache m = NoCache ->
  (HeadlessRule_Match h r m).1 = headless_means nm o m /\
  (all_conditions_read nm o = true -> (HeadlessRule_Match h r m).1 = headless_says o m).
Proof.
  intros Hr Hc. pose proof (headless_rule_denotes nm o r m Hr Hc) as Hm. split; [done|]. intros Ha. rewrite Hm.
  by apply headless_means_says.
Qed.

(** C2 (a route rule means what its options say): the same for the rules
    [NewRule] builds, for option trees that name no rule-set. *)
Theorem route_rule_means_options dialer_New (o : RuleOptions) check (sets : RuleSetTable) r m :
  NewRule dialer_New o check = Ok r -> without_rule_sets o = true -> cache m = NoCache ->
  (Rule_Match h sets r m).1 = route_means o m.
Proof.
  revert r check.
  induction o as [type d da md rs inv la IH] using RuleOptions_tree_ind; intros r check Hr Hs Hc.
  cbn [NewRule route_means without_rule_sets] in *. rewrite Forall_forall in IH.
  rewrite is_default_type_spec in Hr. destruct (is_default_type type).
  - repeat (case_match; [discriminate|]). unfold NewDefaultRule in Hr. inv_res.
    match goal with Hr : run_steps _ _ = _ |- _ =>
      apply default_rule_plain in Hr as (r0 & -> & Hrun); [|done] end.
    cbn [Rule_Match]. rewrite plain_rule_Match.
    by eapply built_rule_match; [apply route_steps_denote|..].
  - case_match; [|discriminate]. inv_res. repeat (case_match; [discriminate|]). inv_res.
    mode_ok.
    apply (logical_match (Rule_Match h sets)); [done| |].
    + intros it _. apply Rule_Match_frame.
    + rewrite forallb_elem_of in Hs.
      eapply (sub_rules_Forall2 (fun o => NewRule dialer_New o false)); [|done].
      intros o r Ho Hor. apply (IH o Ho r false); [done|by apply Hs|done].
Qed.
End meaning.

(** ** DNS rules *)

Section dns_rules.
Context `{External} {RR : Type} (h : Host) (sets : RuleSetTable).

Definition has_domain_options (d : RawDefaultDNSRule) : bool :=
  nonempty (dd_Domain d) || nonempty (dd_DomainSuffix d) || nonempty (dd_DomainKeyword d) ||
  nonempty (dd_DomainRegex d).
Definition has_address_options (d : RawDefaultDNSRule) : bool :=
  nonempty (dd_IPCIDR d) || dd_IPIsPrivate d || dd_IPAcceptAny d.

(** Default rules without rule-sets and not inverted. *)
Definition plain_dns_options (d : RawDefaultDNSRule) : bool :=
  negb (nonempty (dd_RuleSet d)) && negb (dd_Invert d).

(** Trees of such rules, none of which mixes domain and address conditions. *)
Fixpoint separated_dns_options (o : DNSRuleOptions RR) : bool :=
  match o with
  | MkDNSRuleOptions type d _ _ rs inv _ =>
      if is_default_type type
      then plain_dns_options d && negb (has_domain_options d && has_address_options d)
      else negb inv && forallb separated_dns_options rs
  end.

Lemma ipcidr_item_source cause l it :
  ipcidr_item cause true l = Ok it -> reads_addresses it = false.
Proof. unfold ipcidr_item, wrap_item, NewIPCIDRItem. intros Hit. by inv_res. Qed.

#[local] Ltac not_reading :=
  simpl; intros _ it Hit;
  first
    [ by left
    | right; by eapply ipcidr_item_source
    | right; unfold ok_item, ip_version_item, domain_regex_item, process_path_regex_item,
        port_range_item, wrap_item in Hit; repeat case_match; by inv_res ].

(** The constructor puts the items that look at addresses in the IPCIDR group
    only. *)
Lemma dns_steps_address_free {A} (d : RawDefaultDNSRule) inv (act : A) r :
  run_steps (dns_rule_head d ++ dns_rule_addresses d ++ dns_rule_process d ++ dns_rule_host d)
    (empty_rule inv act) = Ok r ->
  address_free r = true.
Proof.
  intros Hr.
  assert (Hf : forall g, Forall (fun it => g = GDestinationIPCIDR \/ reads_addresses it = false)
                 (items_of g r)).
  { refine (run_steps_from (fun g it => g = GDestinationIPCIDR \/ reads_addresses it = false)
              _ _ _ _ _ Hr); [|by intros []; constructor].
    unfold dns_rule_head, dns_rule_addresses, dns_rule_process, dns_rule_host.
    cbn [app]. repeat (apply Forall_cons_2; [not_reading|]). apply Forall_nil_2. }
  unfold address_free. rewrite !forallb_app, !andb_true_iff.
  assert (Hg : forall g, g <> GDestinationIPCIDR ->
            forallb (fun it => negb (reads_addresses it)) (items_of g r) = true).
  { intros g Hg. rewrite forallb_elem_of. intros it Hit. specialize (Hf g).
    rewrite Forall_forall in Hf. destruct (Hf it Hit) as [?| ->]; done. }
  split_and!; [apply (Hg GItems)|apply (Hg GSourceAddress)|apply (Hg GSourcePort)
              |apply (Hg GDestinationAddress)|apply (Hg GDestinationPort)]; done.
Qed.

Lemma plain_dns_rule (d : RawDefaultDNSRule) (a : DNSRuleActionOptions RR) r :
  NewDefaultDNSRule d a = Ok r -> plain_dns_options d = true ->
  exists r0, r = DefaultRule (map_rule Plain r0) /\ phased r0 /\
    (has_domain_options d = false -> destinationAddressItems r0 = []) /\
    (has_domain_options d = true -> destinationAddressItems r0 <> []) /\
    (has_address_options d = false -> destinationIPCIDRItems r0 = []).
Proof.
  unfold NewDefaultDNSRule, plain_dns_options. rewrite andb_true_iff. intros Hr [Hs Hi]. inv_res.
  match goal with Hr : run_steps _ _ = _ |- _ =>
    apply dns_rule_plain in Hr as (r0 & -> & Hrun); [|done] end.
  exists r0.
  destruct (run_steps_invert _ _ _ Hrun) as [Hinv _]. simpl in Hinv.
  assert (Hno : forall g b, Forall (fun s => st_group s = g -> st_cond s = false)
      (dns_rule_head d ++ dns_rule_addresses d ++ dns_rule_process d ++ dns_rule_host d) ->
      b = false -> items_of g r0 = []).
  { intros g b Hl _. by eapply run_steps_group_empty. }
  split_and!; [done| | | |].
  - split; [by eapply dns_steps_address_free|]. by rewrite Hinv; apply negb_true_iff.
  - unfold has_domain_options. rewrite !orb_false_iff. intros [[[Hd Hsf] Hk] Hre].
    apply (Hno GDestinationAddress false); [|done].
    unfold dns_rule_head, dns_rule_addresses, dns_rule_process, dns_rule_host. cbn [app].
    repeat (apply Forall_cons_2; [simpl; rewrite ?Hd, ?Hsf, ?Hk, ?Hre; done|]). apply Forall_nil_2.
  - intros Hd. apply (run_steps_group_nonempty GDestinationAddress) in Hrun; [done|].
    rewrite !existsb_app. unfold has_domain_options in Hd. simpl. rewrite !orb_false_r.
    rewrite <- !orb_assoc in *. exact Hd.
  - unfold has_address_options. rewrite !orb_false_iff. intros [[Hd Hp] Ha].
    apply (Hno GDestinationIPCIDR false); [|done].
    unfold dns_rule_head, dns_rule_addresses, dns_rule_process, dns_rule_host. cbn [app].
    repeat (apply Forall_cons_2; [simpl; rewrite ?Hd, ?Hp, ?Ha; done|]). apply Forall_nil_2.
Qed.

Lemma separated_prematch (o : DNSRuleOptions RR) check r :
  NewDNSRule o check = Ok r -> separated_dns_options o = true -> prematch_rule r.
Proof.
  revert r check.
  induction o as [type d da md rs inv la IH] using DNSRuleOptions_tree_ind; intros r check Hr Hs.
  cbn [NewDNSRule separated_dns_options] in *. rewrite Forall_forall in IH.
  rewrite is_default_type_spec in Hr. destruct (is_default_type type).
  - repeat (case_match; [discriminate|]). apply andb_true_iff in Hs as [Hp Hmix].
    destruct (plain_dns_rule d da r Hr Hp) as (r0 & -> & Hph & Hdom & _ & Haddr).
    exists r0. split_and!; [done..|]. destruct (has_domain_options d); [right|left]; auto.
    apply Haddr. by destruct (has_address_options d).
  - case_match; [|discriminate]. inv_res. repeat (case_match; [discriminate|]). inv_res.
    apply andb_true_iff in Hs as [Hi Hsub]. rewrite forallb_elem_of in Hsub.
    assert (Hall : Forall2 (fun _ r => prematch_rule r) rs x2).
    { eapply (sub_rules_Forall2 (fun o => NewDNSRule o false)); [|done].
      intros o r Ho Hor. apply (IH o Ho r false); [done|by apply Hsub]. }
    simpl. split; [by apply negb_true_iff|]. clear -Hall. induction Hall; simpl; auto.
Qed.

(** C35 (a DNS rule is selected before the answer it accepts): for option trees
    without rule-sets and inversion in which no rule mixes domain and address
    conditions, and a request not yet in the address phase, whenever the second
    phase ([MatchAddressLimit], on the context with the answer's addresses) accepts,
    the first phase ([Match], before the query is sent) selected the rule: no
    acceptable rule is skipped. *)
Theorem dns_prematch_sound (o : DNSRuleOptions RR) check r addrs m :
  NewDNSRule o check = Ok r -> separated_dns_options o = true ->
  IgnoreDestinationIPCIDRMatch (cache m) = false ->
  (DNSRule_MatchAddressLimit h sets r (phase2_context addrs m)).1 = true ->
  (DNSRule_Match h sets r (ResetRuleCache m)).1 = true.
Proof. intros Hr Hs Hi. apply prematch_sound; [by eapply separated_prematch|done]. Qed.

(** A
    plain default rule with a domain condition that the first phase selects
    accepts every answer, whatever its [ip_cidr], [ip_is_private] and
    [ip_accept_any] options say. *)
Theorem dns_domain_rule_accepts_any_address (d : RawDefaultDNSRule) (a : DNSRuleActionOptions RR) r
    addrs m :
  NewDefaultDNSRule d a = Ok r -> plain_dns_options d = true -> has_domain_options d = true ->
  IgnoreDestinationIPCIDRMatch (cache m) = false ->
  (DNSRule_Match h sets r (ResetRuleCache m)).1 = true ->
  (DNSRule_MatchAddressLimit h sets r (phase2_context addrs m)).1 = true.
Proof.
  intros Hr Hp Hd Hi.
  destruct (plain_dns_rule d a r Hr Hp) as (r0 & -> & Hph & _ & Hdom & _).
  apply domain_rule_accepts_any_address; auto.
Qed.
End dns_rules.

(** ** Witnesses *)

Section witnesses.
#[local] Existing Instance concrete_external.
#[local] Existing Instance concrete_external_laws.

(** network tcp and (10.0.0.0/8 or 192.0.2.1) *)
Definition example_headless : DefaultHeadlessOptions :=
  Build_DefaultHeadlessOptions concrete_external [] ["tcp"] [] [] [] [] [] ["10.0.0.0/8"; "192.0.2.1"]
    [] [] [] [] [] [] [] [] [] false false [] [] false None None None [] None false.
Definition example_headless_options : HeadlessRuleOptions :=
  MkHeadlessRuleOptions RuleTypeLogical example_headless LogicalTypeAnd
    [MkHeadlessRuleOptions "" example_headless "" [] false;
     MkHeadlessRuleOptions "default" example_headless "" [] false] true.

Definition built {A} (d : A) (r : res A) : A := match r with Ok a => a | _ => d end.

Lemma built_ok {A} (d : A) (r : res A) : is_ok r = true -> r = Ok (built d r).
Proof. by destruct r. Qed.

Definition no_headless : HeadlessRule := DefaultHeadlessRule (empty_rule false tt).

Lemma headless_rule_means_options_witness :
  (HeadlessRule_Match example_host
     (built no_headless (NewHeadlessRule true example_headless_options)) InboundContextZero).1 =
  headless_says example_host example_headless_options InboundContextZero.
Proof.
  apply (headless_rule_means_options example_host true example_headless_options).
  - apply built_ok. vm_compute. reflexivity.
  - reflexivity.
  - reflexivity.
Defined.

(** A rule that lists a query type and nothing else is valid, and matches every
    request, a query of another type too. *)
Definition query_type_only : HeadlessRuleOptions :=
  MkHeadlessRuleOptions "" (Build_DefaultHeadlessOptions concrete_external [28] [] [] [] [] [] [] [] [] [] [] [] [] [] [] []
    [] false false [] [] false None None None [] None false) "" [] false.

Example query_type_ignored :
  is_ok (NewHeadlessRule true query_type_only) = true /\
  (HeadlessRule_Match example_host (built no_headless (NewHeadlessRule true query_type_only))
     (with_QueryType 1 InboundContextZero)).1 = true /\
  headless_says example_host query_type_only (with_QueryType 1 InboundContextZero) = false.
Proof. split_and!; reflexivity. Qed.

(** network tcp and one of the ports 443, 1000 to 2000, up to 80 *)
Definition example_route : RawDefaultRule :=
  Build_RawDefaultRule [] 0 ["tcp"] [] [] [] [] [] [] [] [] [] [] [] false [] false [] [] [443]
    ["1000:2000"; ":80"] [] [] [] [] [] [] "" [] false false [] [] [] false false false false.
Definition example_action : RuleActionOptions :=
  Build_RuleActionOptions RuleActionTypeRoute "proxy" zero_raw_route_options zero_raw_route_options
    (Build_DirectActionOptions []) (Build_RejectActionOptions "" false) (Build_RouteActionSniff [] 0)
    (Build_RouteActionResolve "" DomainStrategyAsIS false None None false false).
Definition example_route_options : RuleOptions :=
  MkRuleOptions "" example_route example_action "" [] false example_action.

Lemma route_rule_means_options_witness :
  (Rule_Match example_host ∅
     (built (DefaultRule (empty_rule false None))
        (NewRule (fun _ => Ok tt) example_route_options true)) InboundContextZero).1 =
  route_means example_host example_route_options InboundContextZero.
Proof.
  apply (route_rule_means_options example_host (fun _ => Ok tt) example_route_options true).
  - apply built_ok. vm_compute. reflexivity.
  - reflexivity.
  - reflexivity.
Defined.

(** answers in 10.0.0.0/8 only *)
Definition example_dns (domains : list string) : RawDefaultDNSRule :=
  Build_RawDefaultDNSRule [] 0 [] [] [] [] domains [] [] [] [] [] [] ["10.0.0.0/8"] false false []
    false [] [] [] [] [] [] [] [] [] [] [] "" [] false false [] [] [] false false false false false.
Definition example_dns_action : DNSRuleActionOptions string :=
  Build_DNSRuleActionOptions string RuleActionTypeRoute
    (Build_DNSRouteActionOptions ["local"] [] 0 0 0 zero_dns_route_options) zero_dns_route_options
    (Build_RejectActionOptions "" false) (Build_DNSRouteActionPredefined string None [] [] []).

Lemma dns_prematch_sound_witness :
  (DNSRule_Match example_host ∅
     (built (DefaultRule (empty_rule false None))
        (NewDNSRule (MkDNSRuleOptions "" (example_dns []) example_dns_action "" [] false
           example_dns_action) true)) (ResetRuleCache InboundContextZero)).1 = true.
Proof.
  apply (dns_prematch_sound example_host ∅
    (MkDNSRuleOptions "" (example_dns []) example_dns_action "" [] false example_dns_action) true _
    [Addr4 167772161] InboundContextZero).
  - apply built_ok. vm_compute. reflexivity.
  - reflexivity.
  - reflexivity.
  - vm_compute. reflexivity.
Defined.

(** an answer outside 10.0.0.0/8 is accepted all the same *)
Lemma dns_domain_rule_accepts_any_address_witness :
  let m := {| Inbound := ""; InboundType := ""; IPVersion := 0; Network := "";
              Source := SocksaddrZero; Destination := SocksaddrZero; User := ""; Outbound := "";
              Protocol := ""; Domain := "example.org"; Client := ""; SnifferNames := [];
              SniffError := None; LastInbound := ""; OriginDestination := SocksaddrZero;
              RouteOriginalDestination := SocksaddrZero; UDPDisableDomainUnmapping := false;
              UDPConnect := false; UDPTimeout := 0; TLSFragment := false;
              TLSFragmentFallbackDelay := 0; TLSRecordFragment := false; NetworkStrategy_ := None;
              NetworkType := []; FallbackNetworkType := []; FallbackDelay := 0;
              DestinationAddresses := []; ResolveRouteOnly := false; SourceGeoIPCode := "";
              GeoIPCode := ""; ProcessInfo_ := None; QueryType := 1; FakeIP := false;
              cache := NoCache |} in
  (DNSRule_MatchAddressLimit example_host ∅
     (built (DefaultRule (empty_rule false None))
        (NewDefaultDNSRule (example_dns ["example.org"]) example_dns_action))
     (phase2_context [Addr4 3221225985] m)).1 = true.
Proof.
  intros m. apply (dns_domain_rule_accepts_any_address example_host ∅ (example_dns ["example.org"])
    example_dns_action _ [Addr4 3221225985] m).
  - apply built_ok. vm_compute. reflexivity.
  - reflexivity.
  - reflexivity.
  - reflexivity.
  - vm_compute. reflexivity.
Defined.
End witnesses.
