(* ===== verification/RuleSet.v ===== *)
(** * route/rule/rule_set*.go: local and remote rule-sets

    Loading, reference counting, update callbacks and the life of a remote
    rule-set: restoring it from the cache file, fetching it over HTTP with an
    entity tag, and dropping unused rules.  The JSON and binary decoders, the
    file system, the HTTP client and the clock are parameters. *)

From stdpp Require Import base list strings gmap.
From Stdlib Require Import ZArith Lia.
From S2P Require Import Prelude GoStd External Adapter RuleItem RuleAbstract RuleTree RuleMatch RuleAction RuleBuild RuleConfig.

Open Scope Z_scope.

(** ** What a rule-set holds *)

Section metadata.
Context `{External}.

Definition isProcessHeadlessRule (o : DefaultHeadlessOptions) : bool :=
  nonempty (hd_ProcessName o) || nonempty (hd_ProcessPath o) || nonempty (hd_ProcessPathRegex o) ||
  nonempty (hd_PackageName o).
Definition isWIFIHeadlessRule (o : DefaultHeadlessOptions) : bool :=
  nonempty (hd_WIFISSID o) || nonempty (hd_WIFIBSSID o).
Definition isIPCIDRHeadlessRule (o : DefaultHeadlessOptions) : bool :=
  nonempty (hd_IPCIDR o) || negb (is_nil (hd_IPSet o)).

(** One turn of the loop of [hasHeadlessRule]; a rule whose type is empty is
    passed over. *)
Fixpoint hasHeadlessRule_one (cond : DefaultHeadlessOptions -> bool) (o : HeadlessRuleOptions) : bool :=
  match o with
  | MkHeadlessRuleOptions type d _ rs _ =>
      if decide (type = RuleTypeDefault) then cond d
      else if decide (type = RuleTypeLogical) then existsb (hasHeadlessRule_one cond) rs
      else false
  end.
Definition hasHeadlessRule (rules : list HeadlessRuleOptions) (cond : DefaultHeadlessOptions -> bool)
    : bool := existsb (hasHeadlessRule_one cond) rules.

Fixpoint extractIPSetFromRule (r : HeadlessRule) : list IPSet :=
  match r with
  | DefaultHeadlessRule r =>
      flat_map (fun it => match it with ItIPCIDR i => [ici_ipSet i] | _ => [] end)
        (destinationIPCIDRItems r)
  | LogicalHeadlessRule (Build_abstractLogicalRule _ _ rs _ _ _) => flat_map extractIPSetFromRule rs
  end.

(** [LocalRuleSet.ExtractIPSet], [RemoteRuleSet.ExtractIPSet] *)
Definition ExtractIPSet (s : RuleSet) : list IPSet := flat_map extractIPSetFromRule (rs_rules s).

(** ** Loading rules *)

Definition EmptyMetadata : RuleSetMetadata := Build_RuleSetMetadata false false false.
Definition EmptyRuleSet : RuleSet := Build_RuleSet _ [] EmptyMetadata 0 [].

Context (networkManager : bool).

Definition set_rules (rules : list HeadlessRule) (s : RuleSet) : RuleSet :=
  {| rs_rules := rules; rs_metadata := rs_metadata s; rs_refs := rs_refs s;
     rs_callbacks := rs_callbacks s |}.

(** [LocalRuleSet.reloadRules], and the second half of
    [RemoteRuleSet.loadBytes]: the rules are replaced only when all of them
    could be built, and the callbacks run after that. *)
Definition reloadRules (s : RuleSet) (headlessRules : list HeadlessRuleOptions) : res (RuleSet * list nat) :=
  let* rules := res_mapi (fun i o =>
      res_cause ("parse rule_set.rules.[" +:+ go_itoa (Z.of_nat i) +:+ "]")
        (NewHeadlessRule networkManager o)) 0 headlessRules in
  Ok ({| rs_rules := rules;
         rs_metadata := {|
           ContainsProcessRule := hasHeadlessRule headlessRules isProcessHeadlessRule;
           ContainsWIFIRule := hasHeadlessRule headlessRules isWIFIHeadlessRule;
           ContainsIPCIDRRule := hasHeadlessRule headlessRules isIPCIDRHeadlessRule |};
         rs_refs := rs_refs s; rs_callbacks := rs_callbacks s |}, rs_callbacks s).

(** *** Formats (option/rule_set.go) *)

Record PlainRuleSetCompat : Type := { prs_Version : Z; prs_Rules : list HeadlessRuleOptions }.

Definition RuleSetTypeInline : string := "inline".
Definition RuleSetTypeLocal : string := "local".
Definition RuleSetTypeRemote : string := "remote".
Definition RuleSetFormatSource : string := "source".
Definition RuleSetFormatBinary : string := "binary".

(** [PlainRuleSetCompat.Upgrade] *)
Definition Upgrade (r : PlainRuleSetCompat) : res (list HeadlessRuleOptions) :=
  if (1 <=? prs_Version r) && (prs_Version r <=? 3) then Ok (prs_Rules r)
  else Err (ErrNew ("unknown rule-set version: " +:+ go_itoa (prs_Version r))).

(** [jsonc.UnmarshalExtended] and [srs.Read] on the bytes of a rule-set. *)
Context (UnmarshalExtended srs_Read : string -> res PlainRuleSetCompat).

(** [LocalRuleSet.reloadFile], given what reading the file yields. *)
Definition reloadFile (fileFormat : string) (file : res string) (s : RuleSet) : res (RuleSet * list nat) :=
  let* ruleSet :=
    (if decide (fileFormat = RuleSetFormatSource \/ fileFormat = "") then
       let* content := file in UnmarshalExtended content
     else if decide (fileFormat = RuleSetFormatBinary) then
       let* content := file in srs_Read content
     else Err (ErrNew ("unknown rule-set format: " +:+ fileFormat))) in
  let* rules := Upgrade ruleSet in
  reloadRules s rules.

(** [RemoteRuleSet.loadBytes]; here the empty format is unknown. *)
Definition loadBytes (format content : string) (s : RuleSet) : res (RuleSet * list nat) :=
  let* ruleSet :=
    (if decide (format = RuleSetFormatSource) then UnmarshalExtended content
     else if decide (format = RuleSetFormatBinary) then srs_Read content
     else Err (ErrNew ("unknown rule-set format: " +:+ format))) in
  let* rules := Upgrade ruleSet in
  reloadRules s rules.

(** ** References, callbacks, cleanup *)

(** [DecRef] panics after the count went below zero. *)
Definition DecRef (s : RuleSet) : res RuleSet :=
  let refs := to_int32 (rs_refs s - 1) in
  if refs <? 0 then Panic "rule-set: negative refs"
  else Ok {| rs_rules := rs_rules s; rs_metadata := rs_metadata s; rs_refs := refs;
             rs_callbacks := rs_callbacks s |}.

Definition Cleanup (s : RuleSet) : RuleSet := if rs_refs s =? 0 then set_rules [] s else s.

(** A registered callback is named by the number the caller keeps for
    [UnregisterCallback]. *)
Definition RegisterCallback (callback : nat) (s : RuleSet) : RuleSet :=
  {| rs_rules := rs_rules s; rs_metadata := rs_metadata s; rs_refs := rs_refs s;
     rs_callbacks := rs_callbacks s ++ [callback] |}.
Definition UnregisterCallback (callback : nat) (s : RuleSet) : RuleSet :=
  {| rs_rules := rs_rules s; rs_metadata := rs_metadata s; rs_refs := rs_refs s;
     rs_callbacks := List.filter (fun c => negb (c =? callback)%nat) (rs_callbacks s) |}.

(** [Close] drops the rules; the watcher and the ticker are the host's. *)
Definition RuleSet_Close (s : RuleSet) : RuleSet := set_rules [] s.

(** ** NewRuleSet *)

Record RuleSetOptions : Type := {
  rso_Type : string;
  rso_Tag : string;
  rso_Format : string;
  rso_InlineRules : list HeadlessRuleOptions;
  rso_URL : string;
  rso_DownloadDetour : string;
  rso_UpdateInterval : Z
}.

(** [NewLocalRuleSet]; [file] is the content of the configured path,
    [watcher] the result of creating the file watcher. *)
Definition NewLocalRuleSet (o : RuleSetOptions) (file : res string) (watcher : res unit) : res RuleSet :=
  if decide (rso_Type o = RuleSetTypeInline) then
    if negb (nonempty (rso_InlineRules o)) then Err (ErrNew "empty inline rule-set")
    else let* '(s, _) := reloadRules EmptyRuleSet (rso_InlineRules o) in Ok s
  else
    let* '(s, _) := reloadFile (rso_Format o) file EmptyRuleSet in
    let* _ := watcher in Ok s.

(** ** Remote rule-sets *)

(** Times are nanoseconds since 1970; the zero [time.Time] is the year 1. *)
Definition ZeroTime : Z := -62135596800 * Second.
Definition IsZero (t : Z) : bool := t =? ZeroTime.

Record SavedBinary : Type := { sb_Content : string; sb_LastUpdated : Z; sb_LastEtag : string }.

(** What the cache file gives back of what it was given: [MarshalBinary] keeps
    the seconds of the time (adapter/experimental.go). *)
Definition unix_seconds (t : Z) : Z := t / Second * Second.
Definition stored_binary (b : SavedBinary) : SavedBinary :=
  {| sb_Content := sb_Content b; sb_LastUpdated := unix_seconds (sb_LastUpdated b); sb_LastEtag := sb_LastEtag b |}.

Record RemoteRuleSet : Type := {
  rrs_options : RuleSetOptions;
  rrs_updateInterval : Z;
  rrs_set : RuleSet;
  rrs_lastUpdated : Z;
  rrs_lastEtag : string;
  (** the cache file, when the service has one, with what it holds under the
      rule-set's tag *)
  rrs_cacheFile : option (option SavedBinary)
}.

Definition Day : Z := 24 * 3600 * Second.

Definition NewRemoteRuleSet (o : RuleSetOptions) : RemoteRuleSet :=
  {| rrs_options := o;
     rrs_updateInterval := (if 0 <? rso_UpdateInterval o then rso_UpdateInterval o else Day);
     rrs_set := EmptyRuleSet; rrs_lastUpdated := ZeroTime; rrs_lastEtag := ""; rrs_cacheFile := None |}.

Definition NewRuleSet (o : RuleSetOptions) (file : res string) (watcher : res unit)
    : res (RuleSet + RemoteRuleSet) :=
  if decide (rso_Type o = RuleSetTypeInline \/ rso_Type o = RuleSetTypeLocal \/ rso_Type o = "") then
    let* s := NewLocalRuleSet o file watcher in Ok (inl s)
  else if decide (rso_Type o = RuleSetTypeRemote) then Ok (inr (NewRemoteRuleSet o))
  else Err (ErrNew ("unknown rule-set type: " +:+ rso_Type o)).

(** The server's side of one request, given the [If-None-Match] header: the
    request or the transport fails, or a response arrives. *)
Inductive HTTPOutcome : Type :=
  | HTTPError (e : error)
  | HTTPResponse (status : Z) (status_text etag : string) (body : error + string).

Definition StatusOK : Z := 200.
Definition StatusNotModified : Z := 304.

Definition with_set (s : RuleSet) (r : RemoteRuleSet) : RemoteRuleSet :=
  {| rrs_options := rrs_options r; rrs_updateInterval := rrs_updateInterval r; rrs_set := s;
     rrs_lastUpdated := rrs_lastUpdated r; rrs_lastEtag := rrs_lastEtag r;
     rrs_cacheFile := rrs_cacheFile r |}.

Definition with_saved (lastUpdated : Z) (lastEtag : string) (cacheFile : option (option SavedBinary))
    (r : RemoteRuleSet) : RemoteRuleSet :=
  {| rrs_options := rrs_options r; rrs_updateInterval := rrs_updateInterval r; rrs_set := rrs_set r;
     rrs_lastUpdated := lastUpdated; rrs_lastEtag := lastEtag; rrs_cacheFile := cacheFile |}.

(** [RemoteRuleSet.fetch]: [now] is the clock, [saved] whether the cache file
    accepts the write (its errors are logged only). *)
Definition fetch (server : option string -> HTTPOutcome) (now : Z) (saved : bool) (r : RemoteRuleSet)
    : res (option error * RemoteRuleSet * list nat) :=
  let if_none_match := if decide (rrs_lastEtag r = "") then None else Some (rrs_lastEtag r) in
  let save (b : SavedBinary) : option (option SavedBinary) :=
    match rrs_cacheFile r with
    | None => None
    | Some old => Some (if saved then Some (stored_binary b) else old)
    end in
  match server if_none_match with
  | HTTPError e => Ok (Some e, r, [])
  | HTTPResponse status status_text etag body =>
      if status =? StatusOK then
        match body with
        | inl e => Ok (Some e, r, [])
        | inr content =>
            match loadBytes (rso_Format (rrs_options r)) content (rrs_set r) with
            | Err e => Ok (Some e, r, [])
            | Panic m => Panic m
            | Ok (s, called) =>
                let lastEtag := if decide (etag = "") then rrs_lastEtag r else etag in
                Ok (None, with_saved now lastEtag
                   (save {| sb_Content := content; sb_LastUpdated := now; sb_LastEtag := lastEtag |})
                   (with_set s r), called)
            end
        end
      else if status =? StatusNotModified then
        let cacheFile :=
          match rrs_cacheFile r with
          | Some (Some b) => save {| sb_Content := sb_Content b; sb_LastUpdated := now;
                                     sb_LastEtag := sb_LastEtag b |}
          | c => c
          end in
        Ok (None, with_saved now (rrs_lastEtag r) cacheFile r, [])
      else Ok (Some (ErrNew ("unexpected status: " +:+ status_text)), r, [])
  end.

(** [RemoteRuleSet.updateOnce]: after a successful update the rules of a
    rule-set nobody refers to are dropped. *)
Definition updateOnce (server : option string -> HTTPOutcome) (now : Z) (saved : bool)
    (r : RemoteRuleSet) : res (RemoteRuleSet * list nat) :=
  let* '(err, r, called) := fetch server now saved r in
  match err with
  | Some _ => Ok (r, called)
  | None =>
      Ok (if rs_refs (rrs_set r) =? 0 then with_set (set_rules [] (rrs_set r)) r else r, called)
  end.

(** The part of [RemoteRuleSet.loopUpdate] before its ticker loop; every tick
    of the loop is one [updateOnce]. *)
Definition loopUpdate_first (server : option string -> HTTPOutcome) (now : Z) (saved : bool)
    (r : RemoteRuleSet) : res (RemoteRuleSet * list nat) :=
  if rrs_updateInterval r <? now - rrs_lastUpdated r then updateOnce server now saved r
  else Ok (r, []).

(** [RemoteRuleSet.StartContext]: [detour_found] tells whether the configured
    download detour exists, [cacheFile] is the service's cache file. *)
Definition StartContext (detour_found : bool) (cacheFile : option (option SavedBinary))
    (server : option string -> HTTPOutcome) (now : Z) (saved : bool) (r : RemoteRuleSet)
    : res (option error * RemoteRuleSet * list nat) :=
  let r := with_saved (rrs_lastUpdated r) (rrs_lastEtag r) cacheFile r in
  if negb (bool_decide (rso_DownloadDetour (rrs_options r) = "")) && negb detour_found then
    Ok (Some (ErrNew ("download detour not found: " +:+ rso_DownloadDetour (rrs_options r))), r, [])
  else
    let* '(err, r, called) :=
      match cacheFile with
      | Some (Some b) =>
          match loadBytes (rso_Format (rrs_options r)) (sb_Content b) (rrs_set r) with
          | Ok (s, called) =>
              Ok (None, with_saved (sb_LastUpdated b) (sb_LastEtag b) cacheFile (with_set s r), called)
          | Err e => Ok (Some (ErrCause e "restore cached rule-set"), r, [])
          | Panic m => Panic m
          end
      | _ => Ok (None, r, [])
      end in
    match err with
    | Some e => Ok (Some e, r, called)
    | None =>
        if IsZero (rrs_lastUpdated r) then
          let* '(err, r, called') := fetch server now saved r in
          Ok (match err with
              | Some e => Some (ErrCause e ("initial rule-set: " +:+ rso_Tag (rrs_options r)))
              | None => None
              end, r, called ++ called')
        else Ok (None, r, called)
    end.
End metadata.

(** ** References *)

Section references.
Context `{External}.

(** A sequence of [IncRef] ([true]) and [DecRef] ([false]) calls. *)
Fixpoint run_refs (ops : list bool) (s : RuleSet) : res RuleSet :=
  match ops with
  | [] => Ok s
  | true :: ops => run_refs ops (IncRef s)
  | false :: ops => let* s := DecRef s in run_refs ops s
  end.

Fixpoint balance (ops : list bool) : Z :=
  match ops with [] => 0 | b :: ops => (if b then 1 else -1) + balance ops end.

Lemma balance_bound ops : - Z.of_nat (length ops) <= balance ops <= Z.of_nat (length ops).
Proof. induction ops as [|[] ops IH]; simpl; lia. Qed.

(** Starting from a non-negative
    count and within the 32-bit range, a sequence of references and releases
    either keeps the count at the initial value plus the balance, every
    intermediate count being non-negative, or panics because some prefix
    releases more than was referenced. *)
Theorem run_refs_spec (ops : list bool) (s : RuleSet) :
  0 <= rs_refs s -> rs_refs s + Z.of_nat (length ops) < 2 ^ 31 ->
  match run_refs ops s with
  | Ok s' => rs_refs s' = rs_refs s + balance ops /\
      (forall k, 0 <= rs_refs s + balance (take k ops)) /\
      rs_rules s' = rs_rules s /\ rs_callbacks s' = rs_callbacks s
  | Panic _ => exists k, rs_refs s + balance (take k ops) < 0
  | Err _ => False
  end.
Proof.
  revert s. induction ops as [|[] ops IH]; intros s H0 Hb; cbn [run_refs].
  - split_and!; [simpl; lia| |done..]. intros k. rewrite take_nil. simpl. lia.
  - cbn [length] in Hb.
    assert (Hi : rs_refs (IncRef s) = rs_refs s + 1) by (simpl; apply to_int32_id; lia).
    specialize (IH (IncRef s) ltac:(lia) ltac:(lia)). rewrite Hi in IH.
    destruct (run_refs ops (IncRef s)) as [s'| |]; [|done|].
    + destruct IH as (IH1 & IH2 & IH3 & IH4). split_and!; [simpl; lia| |done..].
      intros [|k]; simpl; [lia|]. specialize (IH2 k). lia.
    + destruct IH as [k Hk]. exists (S k). simpl. lia.
  - cbn [length] in Hb. unfold DecRef. rewrite to_int32_id by lia.
    destruct (rs_refs s - 1 <? 0) eqn:Hn; cbn [res_bind].
    + exists 1%nat. simpl. lia.
    + set (s1 := {| rs_rules := _ |}). specialize (IH s1 ltac:(simpl; lia) ltac:(simpl; lia)).
      destruct (run_refs ops s1) as [s'| |]; [|done|].
      * destruct IH as (IH1 & IH2 & IH3 & IH4). simpl in *. split_and!; [lia| |done..].
        intros [|k]; simpl; [lia|]. specialize (IH2 k). lia.
      * destruct IH as [k Hk]. exists (S k). simpl in *. lia.
Qed.

(** *** Starting a rule-set item *)

Definition occurrences (tag : string) (tags : list string) : Z :=
  Z.of_nat (length (List.filter (fun t => bool_decide (t = tag)) tags)).

Lemma occurrences_cons tag t tags :
  occurrences tag (t :: tags) = (if decide (t = tag) then 1 else 0) + occurrences tag tags.
Proof. unfold occurrences. simpl. case_bool_decide; case_decide; simpl; lia || done. Qed.

(** Reference counts of a table that stay in range after [n] references. *)
Definition refs_in_range (n : Z) (sets : RuleSetTable) : Prop :=
  forall tag s, sets !! tag = Some s -> 0 <= rs_refs s /\ rs_refs s + n < 2 ^ 31.

Lemma refs_in_range_inc n sets tag s :
  0 <= n -> refs_in_range (n + 1) sets -> sets !! tag = Some s ->
  refs_in_range n (<[tag := IncRef s]> sets).
Proof.
  intros Hn Hr Hs t s'. destruct (decide (t = tag)) as [->|Ht].
  - rewrite lookup_insert_eq. intros [= <-]. destruct (Hr tag s Hs). simpl.
    rewrite to_int32_id; lia.
  - rewrite lookup_insert_ne by done. intros Hs'. destruct (Hr t s' Hs'). lia.
Qed.

Lemma RuleSetItem_Start_loop_ok tags setList sets :
  refs_in_range (Z.of_nat (length tags)) sets ->
  (forall tag, tag ∈ tags -> is_Some (sets !! tag)) ->
  exists sets', RuleSetItem_Start_loop tags setList sets = (None, setList ++ tags, sets') /\
    (forall tag, option_map rs_rules (sets' !! tag) = option_map rs_rules (sets !! tag)) /\
    (forall tag s, sets !! tag = Some s ->
       option_map rs_refs (sets' !! tag) = Some (rs_refs s + occurrences tag tags)).
Proof.
  revert setList sets. induction tags as [|t tags IH]; intros setList sets Hr Ht; simpl.
  - exists sets. rewrite app_nil_r. split_and!; [done..|]. intros tag s ->. simpl. f_equal.
    unfold occurrences. simpl. lia.
  - destruct (Ht t ltac:(set_solver)) as [s Hs]. rewrite Hs.
    destruct (IH (setList ++ [t]) (<[t := IncRef s]> sets)) as (sets' & Heq & Hrules & Hrefs).
    + apply refs_in_range_inc; [lia| |done]. cbn [length] in Hr. by rewrite Nat2Z.inj_succ in Hr.
    + intros tag Htag. destruct (decide (tag = t)) as [->|]; [by rewrite lookup_insert_eq|].
      rewrite lookup_insert_ne by done. apply Ht. set_solver.
    + exists sets'. rewrite Heq, <- app_assoc. split_and!; [done| |].
      * intros tag. rewrite Hrules. destruct (decide (tag = t)) as [->|].
        -- by rewrite lookup_insert_eq, Hs.
        -- by rewrite lookup_insert_ne.
      * intros tag s' Hs'. rewrite occurrences_cons. destruct (decide (t = tag)) as [->|].
        -- assert (s' = s) as -> by congruence.
           rewrite (Hrefs tag (IncRef s)) by apply lookup_insert_eq. simpl. f_equal.
           destruct (Hr tag s Hs) as [? Hlt]. cbn [length] in Hlt.
           rewrite to_int32_id; lia.
        -- rewrite (Hrefs tag s') by (by rewrite lookup_insert_ne). done.
Qed.

(** When every tag of the item is known, [Start]
    succeeds, the item then points to its tags in their order, and every
    rule-set gains one reference for each time it is named; when a tag is
    unknown the error names the first such tag, and the rule-sets before it
    keep the references they were given. *)
Theorem rule_set_item_start_spec (r : RuleSetItem) (sets : RuleSetTable) :
  refs_in_range (Z.of_nat (length (rsi_tagList r))) sets -> rsi_setList r = [] ->
  match RuleSetItem_Start r sets with
  | (None, r', sets') => rsi_setList r' = rsi_tagList r /\
      (forall tag s, sets !! tag = Some s ->
         option_map rs_refs (sets' !! tag) = Some (rs_refs s + occurrences tag (rsi_tagList r)))
  | (Some e, r', sets') => exists before tag after,
      rsi_tagList r = before ++ tag :: after /\ sets !! tag = None /\
      e = ErrNew ("rule-set not found: " +:+ tag) /\ rsi_setList r' = before /\
      (forall tag s, sets !! tag = Some s ->
         option_map rs_refs (sets' !! tag) = Some (rs_refs s + occurrences tag before))
  end.
Proof.
  unfold RuleSetItem_Start. intros Hr Hn. rewrite Hn.
  destruct (decide (Forall (fun tag => is_Some (sets !! tag)) (rsi_tagList r))) as [Hall|Hnot].
  - rewrite Forall_forall in Hall.
    destruct (RuleSetItem_Start_loop_ok _ [] sets Hr Hall) as (sets' & -> & _ & Hrefs). done.
  - apply (first_failure (fun tag => is_Some (sets !! tag)))
      in Hnot as (before & tag & after & Htags & Hbefore & Htag).
    rewrite Forall_forall in Hbefore. apply eq_None_not_Some in Htag.
    destruct (RuleSetItem_Start_loop_ok before [] sets) as (sets' & Heq & Hrules & Hrefs).
    { intros t s Hs. destruct (Hr t s Hs). rewrite Htags, length_app in *. lia. }
    { done. }
    assert (Hloop : forall sl sets0 sl' sets1, RuleSetItem_Start_loop before sl sets0 = (None, sl', sets1) ->
              forall rest, RuleSetItem_Start_loop (before ++ rest) sl sets0 =
                           RuleSetItem_Start_loop rest sl' sets1).
    { clear. induction before as [|b before IH]; intros sl sets0 sl' sets1; simpl; [by intros [= -> ->]|].
      destruct (sets0 !! b); [apply IH|done]. }
    rewrite Htags, (Hloop _ _ _ _ Heq). simpl.
    assert (sets' !! tag = None) as ->.
    { specialize (Hrules tag). rewrite Htag in Hrules. by destruct (sets' !! tag). }
    simpl. by exists before, tag, after.
Qed.
End references.

(** ** The metadata describe the rules *)

Section metadata_theorems.
Context `{External} (networkManager : bool).

(** The decoders give every rule a type. *)
Fixpoint typed (o : HeadlessRuleOptions) : bool :=
  match o with
  | MkHeadlessRuleOptions type _ _ rs _ => negb (bool_decide (type = "")) && forallb typed rs
  end.

Lemma flat_map_nil {X Y} (f : X -> list Y) l : (forall x, x ∈ l -> f x = []) -> flat_map f l = [].
Proof. induction l as [|x l IH]; intros Hl; simpl; [done|]. rewrite Hl, IH; set_solver. Qed.

Lemma ipcidr_item_is cause b l it : ipcidr_item cause b l = Ok it -> exists i, it = ItIPCIDR i.
Proof. unfold ipcidr_item, wrap_item. intros Hit. inv_res. by eexists. Qed.

Lemma raw_item_is {X} (raw : option X) (f : X -> IPCIDRItem) e it :
  match raw with Some x => Ok (ItIPCIDR (f x)) | None => Err e end = Ok it -> exists i, it = ItIPCIDR i.
Proof. destruct raw; [intros [= <-]; by eexists|discriminate]. Qed.

Lemma headless_ipcidr_items (d : DefaultHeadlessOptions) (r : abstractDefaultRule RuleItem unit) :
  run_steps (headless_steps networkManager d) (empty_rule (hd_Invert d) tt) = Ok r ->
  nonempty (extractIPSetFromRule (DefaultHeadlessRule r)) = isIPCIDRHeadlessRule d.
Proof.
  intros Hr. simpl.
  assert (Hitems : Forall (fun it => exists i, it = ItIPCIDR i) (destinationIPCIDRItems r)).
  { assert (Hf : forall g, Forall (fun it => g = GDestinationIPCIDR -> exists i, it = ItIPCIDR i)
                   (items_of g r)).
    { refine (run_steps_from (fun g it => g = GDestinationIPCIDR -> exists i, it = ItIPCIDR i)
                _ _ _ _ _ Hr); [|by intros []; constructor].
      unfold headless_steps, headless_head, headless_addresses, headless_process, headless_host,
        list_or_raw.
      destruct networkManager; cbn [app];
        repeat (apply Forall_cons_2; [intros _ it Hit Hg; cbn [st_group st_item] in *;
          lazymatch type of Hit with
          | ipcidr_item _ _ _ = _ => exact (ipcidr_item_is _ _ _ _ Hit)
          | match _ with _ => _ end = _ => first [discriminate Hg | by eapply raw_item_is]
          | _ => discriminate Hg
          end|]);
        apply Forall_nil_2. }
    specialize (Hf GDestinationIPCIDR). eapply Forall_impl; [exact Hf|]. auto. }
  destruct (isIPCIDRHeadlessRule d) eqn:Hd; unfold isIPCIDRHeadlessRule in Hd.
  - assert (Hne : items_of GDestinationIPCIDR r <> []).
    { eapply run_steps_group_nonempty; [|exact Hr].
      unfold headless_steps. rewrite existsb_app. apply orb_true_iff. right.
      rewrite existsb_app. apply orb_true_iff. left. unfold headless_addresses, list_or_raw.
      simpl. by destruct (nonempty (hd_IPCIDR d)), (hd_IPSet d). }
    simpl in Hne. destruct (destinationIPCIDRItems r) as [|it l]; [done|].
    apply Forall_cons in Hitems as [[i ->] _]. done.
  - assert (He : items_of GDestinationIPCIDR r = []).
    { eapply run_steps_group_empty; [|exact Hr]. apply orb_false_iff in Hd as [Hd1 Hd2].
      destruct (hd_IPSet d) eqn:Hs; [done|].
      unfold headless_steps, headless_head, headless_addresses, headless_process, headless_host,
        list_or_raw.
      destruct networkManager; cbn [app];
        repeat (apply Forall_cons_2; [simpl; rewrite ?Hd1, ?Hs, ?andb_false_r; done|]);
        apply Forall_nil_2. }
    simpl in He. by rewrite He.
Qed.

Lemma nonempty_flat_map {X Y} (f : X -> list Y) l :
  nonempty (flat_map f l) = existsb (fun x => nonempty (f x)) l.
Proof. induction l as [|x l IH]; simpl; [done|]. by rewrite nonempty_app, IH. Qed.

Lemma headless_rule_ipcidr (o : HeadlessRuleOptions) r :
  NewHeadlessRule networkManager o = Ok r -> typed o = true ->
  nonempty (extractIPSetFromRule r) = hasHeadlessRule_one isIPCIDRHeadlessRule o.
Proof.
  revert r. induction o as [type d md rs inv IH] using HeadlessRuleOptions_tree_ind; intros r Hr Ht.
  cbn [NewHeadlessRule typed hasHeadlessRule_one] in *. rewrite Forall_forall in IH.
  apply andb_true_iff in Ht as [Hne Ht]. rewrite forallb_elem_of in Ht.
  apply negb_true_iff, bool_decide_eq_false in Hne.
  case_decide as Hd.
  - destruct Hd as [?| ->]; [done|]. rewrite decide_True by done.
    case_match; [discriminate|]. unfold NewDefaultHeadlessRule in Hr. inv_res.
    by apply headless_ipcidr_items.
  - rewrite (decide_False (P := type = RuleTypeDefault)) by naive_solver.
    case_decide; [|discriminate]. inv_res. case_match; [discriminate|]. inv_res.
    cbn [extractIPSetFromRule]. rewrite nonempty_flat_map.
    apply existsb_Forall2.
    eapply (sub_rules_Forall2 (fun o => NewHeadlessRule networkManager o)); [|done].
    intros o' r' Ho' Hor. apply IH; auto.
Qed.

(** When every rule has a type,
    [ContainsIPCIDRRule], which decides whether DNS rules on the rule-set wait
    for the answer, is set exactly when some loaded rule has a destination IP
    set, that is when [ExtractIPSet] finds one; and the registered callbacks are
    called once each, in their order. *)
Theorem reload_metadata (s : RuleSet) (rules : list HeadlessRuleOptions) s' called :
  reloadRules networkManager s rules = Ok (s', called) -> forallb typed rules = true ->
  (ContainsIPCIDRRule (rs_metadata s') = true <-> ExtractIPSet s' <> []) /\
  called = rs_callbacks s /\ rs_callbacks s' = rs_callbacks s /\ rs_refs s' = rs_refs s.
Proof.
  unfold reloadRules. intros Hr Ht. apply res_bind_ok in Hr as (loaded & Hm & [= <- <-]).
  split_and!; [|done..]. cbn [rs_metadata ContainsIPCIDRRule]. unfold ExtractIPSet. cbn [rs_rules].
  rewrite forallb_elem_of in Ht.
  assert (Hx : hasHeadlessRule rules isIPCIDRHeadlessRule =
               nonempty (flat_map extractIPSetFromRule loaded)).
  { rewrite nonempty_flat_map. unfold hasHeadlessRule. symmetry. apply existsb_Forall2.
    apply res_mapi_Forall2 in Hm. induction Hm as [|o r os rs (k & Ho) _ IH]; constructor.
    - apply headless_rule_ipcidr; [by apply res_cause_ok in Ho|]. apply Ht. set_solver.
    - apply IH. intros o' Ho'. apply Ht. set_solver. }
  rewrite Hx. by destruct (flat_map extractIPSetFromRule loaded).
Qed.
End metadata_theorems.

(** ** The life of a remote rule-set *)

Section remote_theorems.
Context `{External} (networkManager : bool).
Context (UnmarshalExtended srs_Read : string -> res PlainRuleSetCompat).

Notation fetch := (fetch networkManager UnmarshalExtended srs_Read).
Notation updateOnce := (updateOnce networkManager UnmarshalExtended srs_Read).
Notation StartContext := (StartContext networkManager UnmarshalExtended srs_Read).
Notation loadBytes := (loadBytes networkManager UnmarshalExtended srs_Read).

(** What loading does depends on the content alone. *)
Lemma loadBytes_content format content s s' called s2 :
  loadBytes format content s = Ok (s', called) ->
  exists s2', loadBytes format content s2 = Ok (s2', rs_callbacks s2) /\
    rs_rules s2' = rs_rules s' /\ rs_metadata s2' = rs_metadata s' /\
    rs_refs s2' = rs_refs s2 /\ rs_callbacks s2' = rs_callbacks s2.
Proof.
  unfold RuleSet.loadBytes. intros (p & Hp & (rules & Hu & Hr)%res_bind_ok)%res_bind_ok.
  rewrite Hp. cbn [res_bind]. rewrite Hu. cbn [res_bind]. unfold reloadRules in *.
  apply res_bind_ok in Hr as (loaded & Hm & [= <- <-]). rewrite Hm. cbn [res_bind].
  eexists. split_and!; done.
Qed.

Lemma fetch_error_unchanged server now saved r err r' called :
  fetch server now saved r = Ok (err, r', called) -> is_Some err -> r' = r /\ called = [].
Proof. unfold RuleSet.fetch. intros Hf [e ->]. repeat case_match; by simplify_eq. Qed.

(** A fetch that fails, whatever the cause,
    leaves rules, metadata, references, time stamp, entity tag and cache file as
    they were and calls no callback; one that succeeds sets the time stamp, and
    either the server answered "not modified" and the rules stay, or the body
    was decoded and its rules and metadata are now in place. *)
Theorem fetch_all_or_nothing server now saved r err r' called :
  fetch server now saved r = Ok (err, r', called) ->
  match err with
  | Some _ => r' = r /\ called = []
  | None => rrs_lastUpdated r' = now /\ rrs_options r' = rrs_options r /\
      rs_refs (rrs_set r') = rs_refs (rrs_set r) /\
      ((rrs_set r' = rrs_set r /\ rrs_lastEtag r' = rrs_lastEtag r /\ called = []) \/
       exists content, loadBytes (rso_Format (rrs_options r)) content (rrs_set r) =
                         Ok (rrs_set r', called) /\ called = rs_callbacks (rrs_set r))
  end.
Proof.
  unfold RuleSet.fetch. intros Hf. destruct (server _) as [e|status text etag body]; [by simplify_eq|].
  destruct (status =? StatusOK).
  - destruct body as [e|content]; [by simplify_eq|].
    destruct (loadBytes _ _ _) as [[s cb]| |] eqn:Hl; simplify_eq; [|done].
    split_and!; simpl; try done;
      destruct (loadBytes_content _ _ _ _ _ (rrs_set r) Hl) as (s2 & Hl2 & _ & _ & Hrefs & _);
      rewrite Hl in Hl2; simplify_eq; [done|].
    right. by exists content.
  - destruct (status =? StatusNotModified); simplify_eq; [|done].
    split_and!; simpl; try done. by left.
Qed.

(** The cache file describes the rule-set: loading its content yields the
    current metadata and the current rules, unless those were dropped. *)
Definition cache_describes (r : RemoteRuleSet) (b : SavedBinary) : Prop :=
  sb_LastUpdated b = unix_seconds (rrs_lastUpdated r) /\ sb_LastEtag b = rrs_lastEtag r /\
  exists s called, loadBytes (rso_Format (rrs_options r)) (sb_Content b) EmptyRuleSet = Ok (s, called) /\
    rs_metadata (rrs_set r) = rs_metadata s /\
    (rs_rules (rrs_set r) = rs_rules s \/ rs_rules (rrs_set r) = []).

Definition cached (r : RemoteRuleSet) : Prop :=
  forall b, rrs_cacheFile r = Some (Some b) -> cache_describes r b.

(** The clock is past the first second of the year 1. *)
Definition clock_set (now : Z) : Prop := ZeroTime + Second <= now.

Lemma clock_set_seconds now : clock_set now -> unix_seconds now <> ZeroTime.
Proof.
  unfold clock_set, unix_seconds. intros Hn. assert (ZeroTime / Second + 1 <= now / Second).
  { rewrite <- (Z.div_add _ 1) by done. apply Z.div_le_mono; [done|]. lia. }
  change (ZeroTime / Second) with (-62135596800) in *. unfold ZeroTime, Second in *. lia.
Qed.

Lemma unix_seconds_twice t : unix_seconds (unix_seconds t) = unix_seconds t.
Proof. unfold unix_seconds. by rewrite Z.div_mul. Qed.

(** What a cache file can hold: a time of whole seconds. *)
Definition cache_ok (cache : option (option SavedBinary)) : Prop :=
  match cache with Some (Some b) => stored_binary b = b | _ => True end.

(** Runs of a remote rule-set whose cache file accepts every write. *)
Inductive remote_run (o : RuleSetOptions) : RemoteRuleSet -> Prop :=
  | run_start detour cache server now r called :
      clock_set now -> cache_ok cache -> StartContext detour cache server now true (NewRemoteRuleSet o) = Ok (None, r, called) ->
      remote_run o r
  | run_update server now r r' called :
      clock_set now -> remote_run o r -> updateOnce server now true r = Ok (r', called) -> remote_run o r'
  | run_set f r :
      (forall s, rs_rules (f s) = rs_rules s /\ rs_metadata (f s) = rs_metadata s) ->
      remote_run o r -> remote_run o (with_set (f (rrs_set r)) r)
  | run_cleanup r : remote_run o r -> remote_run o (with_set (Cleanup (rrs_set r)) r).

(** What may follow once the cache file refuses its writes. *)
Inductive refused_run : RemoteRuleSet -> RemoteRuleSet -> Prop :=
  | refused_end r : refused_run r r
  | refused_update server now r r1 called r2 :
      updateOnce server now false r = Ok (r1, called) -> refused_run r1 r2 -> refused_run r r2
  | refused_set s r r2 : refused_run (with_set s r) r2 -> refused_run r r2.

Lemma refused_run_cache r r' : refused_run r r' -> rrs_cacheFile r' = rrs_cacheFile r.
Proof.
  induction 1 as [|server now r r1 called r2 Hup _ ->|s r r2 _ ->]; [done| |done].
  unfold RuleSet.updateOnce in Hup. apply res_bind_ok in Hup as ([[err r0] called0] & Hf & Hup).
  assert (rrs_cacheFile r0 = rrs_cacheFile r) as <-.
  { unfold RuleSet.fetch in Hf. clear Hup. destruct (rrs_cacheFile r) as [[b|]|] eqn:Hc; repeat case_match; by simplify_eq/=. }
  destruct err; [by simplify_eq|]. by destruct (rs_refs _ =? 0); simplify_eq.
Qed.

Lemma fetch_cached server now r r' called :
  cached r -> fetch server now true r = Ok (None, r', called) -> cached r'.
Proof.
  unfold RuleSet.fetch. intros Hc Hf b Hb.
  destruct (server _) as [e|status text etag body]; [by simplify_eq|].
  destruct (status =? StatusOK).
  - destruct body as [e|content]; [by simplify_eq|].
    destruct (loadBytes _ _ _) as [[s cb]| |] eqn:Hl; simplify_eq.
    simpl in Hb. destruct (rrs_cacheFile r); simplify_eq. split_and!; [done..|].
    destruct (loadBytes_content _ _ _ _ _ EmptyRuleSet Hl) as (s2 & Hl2 & Hr & Hm & _).
    exists s2, (rs_callbacks EmptyRuleSet). split_and!; [exact Hl2|done|by left].
  - destruct (status =? StatusNotModified); simplify_eq.
    simpl in Hb. destruct (rrs_cacheFile r) as [[b0|]|] eqn:Hb0; simplify_eq.
    destruct (Hc b0 Hb0) as (_ & He & Hload). split_and!; [done|exact He|exact Hload].
Qed.

Lemma cached_with_set r s :
  cached r -> rs_metadata s = rs_metadata (rrs_set r) ->
  (rs_rules s = rs_rules (rrs_set r) \/ rs_rules s = []) -> cached (with_set s r).
Proof.
  intros Hc Hm Hr b Hb. destruct (Hc b Hb) as (Hu & He & s0 & called & Hl & Hm0 & Hr0).
  split_and!; [done..|]. exists s0, called. simpl. split_and!; [done|congruence|].
  destruct Hr as [-> |]; [done|by right].
Qed.

Lemma fetch_none_updated server now saved r r' called :
  clock_set now -> fetch server now saved r = Ok (None, r', called) ->
  unix_seconds (rrs_lastUpdated r') <> ZeroTime /\ rrs_options r' = rrs_options r.
Proof.
  intros Hn%clock_set_seconds Hf. unfold RuleSet.fetch in Hf.
  repeat case_match; by simplify_eq.
Qed.

Lemma remote_run_cached o r :
  remote_run o r -> cached r /\ unix_seconds (rrs_lastUpdated r) <> ZeroTime /\ rrs_options r = o.
Proof.
  induction 1 as [detour cache server now r called Hn Hcache Hs|server now r r' called Hn _ (Hc & Hu & Ho) Hup
                 |f r Hf _ (Hc & Hu & Ho)|r _ (Hc & Hu & Ho)].
  - unfold RuleSet.StartContext in Hs. case_match; [discriminate|].
    apply res_bind_ok in Hs as ([[err r0] called0] & Hs0 & Hs).
    assert (Hr0 : err = None -> cached r0 /\ rrs_options r0 = o /\ unix_seconds (rrs_lastUpdated r0) = rrs_lastUpdated r0).
    { intros ->. destruct cache as [[b|]|]; simplify_eq; [|by split_and!..].
      apply (f_equal sb_LastUpdated) in Hcache. cbn in Hcache.
      destruct (loadBytes _ _ _) as [[s cb]| |] eqn:Hl; simplify_eq. split_and!; [|done|done].
      intros b' [= <-]. split_and!; [done..|].
      eexists s, _. simpl in *. split_and!; [exact Hl|done|by left]. }
    destruct err; [discriminate|]. destruct Hr0 as (Hc & Ho & Hsec); [done|].
    destruct (IsZero (rrs_lastUpdated r0)) eqn:Hz.
    + apply res_bind_ok in Hs as ([[err' r1] called'] & Hf & Hs).
      destruct err'; simplify_eq. split; [by eapply fetch_cached|].
      destruct (fetch_none_updated _ _ _ _ _ _ Hn Hf). split; [done|congruence].
    + simplify_eq. split_and!; [done| |done]. rewrite Hsec. by apply Z.eqb_neq in Hz.
  - unfold RuleSet.updateOnce in Hup. apply res_bind_ok in Hup as ([[err r0] called0] & Hf & Hup).
    destruct err as [e|]; simplify_eq.
    { apply fetch_error_unchanged in Hf as [-> _]; [done|by eexists]. }
    assert (Hc0 : cached r0) by by eapply fetch_cached.
    destruct (fetch_none_updated _ _ _ _ _ _ Hn Hf) as [Hu0 Ho0].
    destruct (rs_refs (rrs_set r0) =? 0); [|split_and!; [done..|congruence]].
    split_and!; [|done|simpl; congruence]. apply cached_with_set; [done..|by right].
  - destruct (Hf (rrs_set r)). split_and!; [|done..]. apply cached_with_set; auto.
  - split_and!; [|done..]. apply cached_with_set; [done|..]; unfold Cleanup; case_match; auto.
Qed.

(** C40 (a restart restores the rule-set from the cache file): take any run of
    updates, reference changes and cleanups in which the cache file took the
    writes, and after it any run in which it refused them.  Starting a fresh
    rule-set on the cache file succeeds without asking the server, and gives back
    what the rule-set had when the last write was taken: the time of the update in
    whole seconds, the entity tag, the metadata, and the rules, unless the rule-set
    had dropped those for want of references. *)
Theorem restart_restores (o : RuleSetOptions) (r r1 : RemoteRuleSet) (b : SavedBinary) server now :
  remote_run o r -> rrs_cacheFile r = Some (Some b) -> refused_run r r1 ->
  exists r', StartContext true (rrs_cacheFile r1) server now true (NewRemoteRuleSet o) = Ok (None, r', []) /\
    rrs_lastUpdated r' = unix_seconds (rrs_lastUpdated r) /\ rrs_lastEtag r' = rrs_lastEtag r /\
    rs_metadata (rrs_set r') = rs_metadata (rrs_set r) /\
    (rs_rules (rrs_set r) = rs_rules (rrs_set r') \/ rs_rules (rrs_set r) = []).
Proof.
  intros (Hc & Hu & Ho)%remote_run_cached Hb ->%refused_run_cache.
  destruct (Hc b Hb) as (Hbu & Hbe & s & called & Hl & Hm & Hr). rewrite Hb.
  unfold RuleSet.StartContext. rewrite andb_false_r.
  destruct (loadBytes_content _ _ _ _ _ (rrs_set (NewRemoteRuleSet o)) Hl) as (s2 & Hl2 & Hr2 & Hm2 & _).
  rewrite Ho in Hl2. cbn [rrs_options rrs_set with_saved NewRemoteRuleSet] in *. rewrite Hl2.
  cbn [res_bind rrs_lastUpdated with_saved]. rewrite Hbu.
  unfold IsZero. rewrite (proj2 (Z.eqb_neq _ _) Hu).
  eexists. split; [reflexivity|]. simpl. split_and!; [done|done|congruence|].
  destruct Hr as [Hr|Hr]; [left; congruence|by right].
Qed.
End remote_theorems.

(** ** Witnesses *)

Section rule_set_witnesses.
#[local] Existing Instance concrete_external.

Definition example_set_rules : list HeadlessRuleOptions :=
  [MkHeadlessRuleOptions "default" example_headless "" [] false].

(** A server that always answers with the same document and tag. *)
Definition example_decode (content : string) : res PlainRuleSetCompat :=
  if decide (content = "doc") then Ok {| prs_Version := 1; prs_Rules := example_set_rules |}
  else Err (ErrNew "syntax error").
Definition example_server (if_none_match : option string) : HTTPOutcome :=
  match if_none_match with
  | None => HTTPResponse 200 "200 OK" "v1" (inr "doc")
  | Some _ => HTTPResponse 304 "304 Not Modified" "v1" (inr "")
  end.
Definition example_set_options : RuleSetOptions :=
  Build_RuleSetOptions "remote" "geo" "source" [] "https://example.org/geo.json" "" 0.

Definition ok_pair {A B} (d : A * B) (r : res (A * B)) : A * B := built d r.

Lemma ok_pair_ok {A B} (d : A * B) (r : res (A * B)) :
  is_ok r = true -> r = Ok ((ok_pair d r).1, (ok_pair d r).2).
Proof. by destruct r as [[]| |]. Qed.

Lemma run_refs_spec_witness :
  match run_refs [true; true; false] EmptyRuleSet with
  | Ok s => rs_refs s = 1
  | _ => False
  end.
Proof.
  pose proof (run_refs_spec [true; true; false] EmptyRuleSet ltac:(simpl; lia) ltac:(simpl; lia)) as Hs.
  destruct (run_refs _ _) as [s| |] eqn:Hr; [etrans; [apply Hs|reflexivity]|exact Hs|].
  cbn in Hr. discriminate Hr.
Defined.

Definition example_table : RuleSetTable := {[ "geo" := EmptyRuleSet ]}.

Lemma rule_set_item_start_spec_witness :
  match RuleSetItem_Start (NewRuleSetItem ["geo"] false false) example_table with
  | (None, r, sets) => rsi_setList r = ["geo"]
  | _ => False
  end.
Proof.
  pose proof (rule_set_item_start_spec (NewRuleSetItem ["geo"] false false) example_table) as Hs.
  destruct (RuleSetItem_Start _ _) as [[[e|] r] sets] eqn:Hr.
  - unfold RuleSetItem_Start in Hr. simpl in Hr. discriminate Hr.
  - apply Hs; [|reflexivity]. intros tag s Htag. unfold example_table in Htag. apply lookup_singleton_Some in Htag as [_ <-].
    simpl. lia.
Defined.

Lemma reload_metadata_witness :
  ContainsIPCIDRRule (rs_metadata (ok_pair (EmptyRuleSet, []) (reloadRules true EmptyRuleSet example_set_rules)).1)
    = true <->
  ExtractIPSet (ok_pair (EmptyRuleSet, []) (reloadRules true EmptyRuleSet example_set_rules)).1 <> [].
Proof.
  apply (reload_metadata true EmptyRuleSet example_set_rules _
    (ok_pair (EmptyRuleSet, []) (reloadRules true EmptyRuleSet example_set_rules)).2).
  - apply ok_pair_ok. vm_compute. reflexivity.
  - vm_compute. reflexivity.
Defined.

Definition example_fetch : res (option error * RemoteRuleSet * list nat) :=
  fetch true example_decode example_decode example_server 7 true (NewRemoteRuleSet example_set_options).
Definition example_fetched : RemoteRuleSet :=
  (built (None, NewRemoteRuleSet example_set_options, []) example_fetch).1.2.

(** A run that succeeds and calls nobody, as the equation the theorems want. *)
Lemma run_ok (d : RemoteRuleSet) (x : res (option error * RemoteRuleSet * list nat)) :
  match x with Ok (None, _, []) => true | _ => false end = true ->
  x = Ok (None, (built (None, d, []) x).1.2, []).
Proof. by destruct x as [[[[e|] r] [|c l]]| |]. Qed.

Lemma fetch_all_or_nothing_witness : rrs_lastUpdated example_fetched = 7.
Proof.
  apply (fetch_all_or_nothing true example_decode example_decode example_server 7 true
    (NewRemoteRuleSet example_set_options) None example_fetched []).
  apply run_ok. vm_compute. reflexivity.
Defined.

Definition example_now : Z := 1700000000 * Second + 7.

Definition example_start : res (option error * RemoteRuleSet * list nat) :=
  StartContext true example_decode example_decode true (Some None) example_server example_now true
    (NewRemoteRuleSet example_set_options).
Definition example_remote : RemoteRuleSet :=
  (built (None, NewRemoteRuleSet example_set_options, []) example_start).1.2.

Lemma update_ok (d : RemoteRuleSet) (x : res (RemoteRuleSet * list nat)) :
  match x with Ok (_, []) => true | _ => false end = true -> x = Ok ((built (d, []) x).1, []).
Proof. by destruct x as [[r [|c l]]| |]. Qed.

(** The update after it, whose write is refused. *)
Definition example_refused : RemoteRuleSet :=
  (built (NewRemoteRuleSet example_set_options, [])
     (updateOnce true example_decode example_decode example_server (example_now + Day) false example_remote)).1.

Lemma restart_restores_witness :
  exists r', StartContext true example_decode example_decode true (rrs_cacheFile example_refused)
      (fun _ => HTTPError ErrEOF) 9 true (NewRemoteRuleSet example_set_options) = Ok (None, r', []) /\
    rrs_lastUpdated r' = 1700000000 * Second /\ rrs_lastUpdated example_refused = example_now + Day.
Proof.
  destruct (restart_restores true example_decode example_decode example_set_options example_remote example_refused
    {| sb_Content := "doc"; sb_LastUpdated := 1700000000 * Second; sb_LastEtag := "v1" |} (fun _ => HTTPError ErrEOF) 9)
    as (r' & Hr & Hu & _).
  - apply (run_start true example_decode example_decode example_set_options true (Some None)
      example_server example_now example_remote []); [discriminate|exact I|].
    apply run_ok. vm_compute. reflexivity.
  - vm_compute. reflexivity.
  - apply (refused_update true example_decode example_decode example_server (example_now + Day) _ example_refused []); [|apply refused_end].
    apply update_ok. vm_compute. reflexivity.
  - exists r'. split; [exact Hr|]. split; [|vm_compute; reflexivity]. etrans; [exact Hu|]. vm_compute. reflexivity.
Defined.

(** A refused write makes the time stamp of the cache file lie: the next answer
    "not modified", which is about the content in memory, is stored with the old
    content of the file. *)
Definition second_server (if_none_match : option string) : HTTPOutcome :=
  match if_none_match with
  | Some "v2" => HTTPResponse 304 "304 Not Modified" "v2" (inr "")
  | _ => HTTPResponse 200 "200 OK" "v2" (inr "doc")
  end.
Example stale_content_stamped :
  let update saved now r := (built (NewRemoteRuleSet example_set_options, [])
    (updateOnce true example_decode example_decode second_server now saved r)).1 in
  let r := update true (example_now + 2 * Day) (update false (example_now + Day) example_remote) in
  rrs_lastEtag r = "v2" /\
  rrs_cacheFile r = Some (Some {| sb_Content := "doc"; sb_LastUpdated := unix_seconds (example_now + 2 * Day); sb_LastEtag := "v1" |}).
Proof. vm_compute. split; reflexivity. Qed.
End rule_set_witnesses.
