(* ===== verification/DnsMsg.v ===== *)
(** * dns: messages, client subnets, fixed answers

    The parts of a DNS message the repository reads and writes, the functions
    of dns/client.go, dns/client_log.go and dns/extension_edns0_subnet.go that
    work on a message alone, and the operations of miekg/dns they need as the
    class [DNSLib].  A record is its header and its data; a [net.IP] is kept as
    the address [M.AddrFromIP] makes of it. *)

From stdpp Require Import base list strings gmap.
From Stdlib Require Import ZArith Lia.
From S2P Require Import Prelude GoStd External Adapter RuleAction.

Open Scope Z_scope.

(** ** Records *)

(** An EDNS0 option: the client subnet, or another one. *)
Inductive EDNS0 : Type :=
  | EDNS0_SUBNET (family source_netmask : Z) (address : list Z)
  | EDNS0_OTHER (code : Z).

(** A key of an HTTPS record with the addresses its value lists. *)
Inductive SVCBKeyValue : Type :=
  | SVCBIPv4Hint (hint : list Addr)
  | SVCBIPv6Hint (hint : list Addr)
  | SVCBOther (key : Z).

Inductive RData : Type :=
  | DataA (a : Addr)
  | DataAAAA (a : Addr)
  | DataCNAME (target : string)
  | DataTXT (txt : list string)
  | DataMX (preference : Z) (mx : string)
  | DataSOA (minttl : Z)
  | DataHTTPS (values : list SVCBKeyValue)
  | DataOPT (options : list EDNS0)
  | DataOther (data : string).

Record RR : Type := {
  hdr_Name : string; hdr_Rrtype : Z; hdr_Class : Z; hdr_Ttl : Z; rr_Data : RData }.

#[global] Instance EDNS0_eq_dec : EqDecision EDNS0.
Proof. solve_decision. Defined.
#[global] Instance SVCBKeyValue_eq_dec : EqDecision SVCBKeyValue.
Proof. solve_decision. Defined.
#[global] Instance RData_eq_dec : EqDecision RData.
Proof. solve_decision. Defined.
#[global] Instance RR_eq_dec : EqDecision RR.
Proof. solve_decision. Defined.
#[global] Instance Question_eq_dec : EqDecision Question.
Proof. solve_decision. Defined.

#[global] Instance Question_countable : Countable Question.
Proof.
  refine (inj_countable' (fun q => (q_Name q, q_Qtype q, q_Qclass q))
            (fun x => Build_Question x.1.1 x.1.2 x.2) _).
  by intros [].
Defined.

Definition set_Ttl (ttl : Z) (r : RR) : RR :=
  {| hdr_Name := hdr_Name r; hdr_Rrtype := hdr_Rrtype r; hdr_Class := hdr_Class r;
     hdr_Ttl := ttl; rr_Data := rr_Data r |}.
Definition set_Data (d : RData) (r : RR) : RR :=
  {| hdr_Name := hdr_Name r; hdr_Rrtype := hdr_Rrtype r; hdr_Class := hdr_Class r;
     hdr_Ttl := hdr_Ttl r; rr_Data := d |}.
Definition set_Name (name : string) (r : RR) : RR :=
  {| hdr_Name := name; hdr_Rrtype := hdr_Rrtype r; hdr_Class := hdr_Class r;
     hdr_Ttl := hdr_Ttl r; rr_Data := rr_Data r |}.

#[global] Instance RR_lib : RRLib RR := {
  rr_Name := hdr_Name; rr_set_Name := set_Name; rr_String := hdr_Name }.

Abbreviation DMsg := (Msg RR).

Definition TypeA : Z := 1.
Definition TypeAAAA : Z := 28.
Definition TypeCNAME : Z := 5.
Definition TypeOPT : Z := 41.
Definition TypeHTTPS : Z := 65.
Definition ClassINET : Z := 1.
Definition RcodeFormatError : Z := 1.
Definition RcodeNameError : Z := 3.
Definition RcodeRefused : Z := 5.

(** Operations of miekg/dns. *)
Class DNSLib : Type := {
  dns_IsFqdn : string -> bool;
  dns_Fqdn : string -> string;
  (** the OPT record of a message *)
  IsEdns0 : DMsg -> option RR;
  OPT_Version : RR -> Z;
  (** [response.SetEdns0(opt.UDPSize(), opt.Do())] on the additional section *)
  SetEdns0_like : RR -> list RR -> list RR
}.

(** Replacing sections of a message. *)
Definition with_Id (id : Z) (m : DMsg) : DMsg :=
  Build_Msg id (msg_Response m) (msg_Authoritative m) (msg_RecursionDesired m)
    (msg_RecursionAvailable m) (msg_Rcode m) (msg_Question m) (msg_Answer m) (msg_Ns m) (msg_Extra m).
Definition with_Extra (extra : list RR) (m : DMsg) : DMsg :=
  Build_Msg (msg_Id m) (msg_Response m) (msg_Authoritative m) (msg_RecursionDesired m)
    (msg_RecursionAvailable m) (msg_Rcode m) (msg_Question m) (msg_Answer m) (msg_Ns m) extra.
Definition with_Answer (answer : list RR) (m : DMsg) : DMsg :=
  Build_Msg (msg_Id m) (msg_Response m) (msg_Authoritative m) (msg_RecursionDesired m)
    (msg_RecursionAvailable m) (msg_Rcode m) (msg_Question m) answer (msg_Ns m) (msg_Extra m).
(** A function on every record of the three sections. *)
Definition map_records (f : RR -> RR) (m : DMsg) : DMsg :=
  Build_Msg (msg_Id m) (msg_Response m) (msg_Authoritative m) (msg_RecursionDesired m)
    (msg_RecursionAvailable m) (msg_Rcode m) (msg_Question m) (map f (msg_Answer m))
    (map f (msg_Ns m)) (map f (msg_Extra m)).

Definition all_records (m : DMsg) : list RR := msg_Answer m ++ msg_Ns m ++ msg_Extra m.

(** ** Domain names *)

Definition FqdnToDomain `{DNSLib} (fqdn : string) : string :=
  if dns_IsFqdn fqdn then str_take (String.length fqdn - 1) fqdn else fqdn.

(** ** Addresses of an answer *)

Definition record_addresses (r : RR) : list Addr :=
  match rr_Data r with
  | DataA a => [a]
  | DataAAAA a => [a]
  | DataHTTPS values =>
      flat_map (fun v => match v with
                         | SVCBIPv4Hint hint | SVCBIPv6Hint hint => hint
                         | SVCBOther _ => []
                         end) values
  | _ => []
  end.

Definition MessageToAddresses (response : DMsg) : list Addr :=
  if msg_Rcode response =? RcodeSuccess then flat_map record_addresses (msg_Answer response) else [].

(** The addresses of A and AAAA records only. *)
Definition ip_record (r : RR) : option Addr :=
  match rr_Data r with DataA a | DataAAAA a => Some a | _ => None end.

Definition isAddressQuery (message : DMsg) : bool :=
  existsb (fun q => (q_Qtype q =? TypeA) || (q_Qtype q =? TypeAAAA) || (q_Qtype q =? TypeHTTPS))
    (msg_Question message).

(** ** Fixed answers *)

Definition FixedResponseStatus (message : DMsg) (rcode : Z) : DMsg :=
  Build_Msg (msg_Id message) true true true true rcode (msg_Question message) [] [] [].

Definition address_record (question : Question) (ttl : Z) (address : Addr) : list RR :=
  if Addr_Is4 address && (q_Qtype question =? TypeA) then
    [{| hdr_Name := q_Name question; hdr_Rrtype := TypeA; hdr_Class := ClassINET; hdr_Ttl := ttl;
        rr_Data := DataA address |}]
  else if Addr_Is6 address && (q_Qtype question =? TypeAAAA) then
    [{| hdr_Name := q_Name question; hdr_Rrtype := TypeAAAA; hdr_Class := ClassINET; hdr_Ttl := ttl;
        rr_Data := DataAAAA address |}]
  else [].

Definition FixedResponse (id : Z) (question : Question) (addresses : list Addr) (ttl : Z) : DMsg :=
  Build_Msg id true true true true RcodeSuccess [question]
    (flat_map (address_record question ttl) addresses) [] [].

Definition FixedResponseCNAME (id : Z) (question : Question) (record : string) (ttl : Z) : DMsg :=
  Build_Msg id true true true true RcodeSuccess [question]
    [{| hdr_Name := q_Name question; hdr_Rrtype := TypeCNAME; hdr_Class := ClassINET; hdr_Ttl := ttl;
        rr_Data := DataCNAME record |}] [] [].

(** The record types of the two below are [TypeA], as in the source. *)
Definition FixedResponseTXT (id : Z) (question : Question) (records : list string) (ttl : Z) : DMsg :=
  Build_Msg id true true true true RcodeSuccess [question]
    [{| hdr_Name := q_Name question; hdr_Rrtype := TypeA; hdr_Class := ClassINET; hdr_Ttl := ttl;
        rr_Data := DataTXT records |}] [] [].

Definition FixedResponseMX (id : Z) (question : Question) (records : list (Z * string)) (ttl : Z)
    : DMsg :=
  Build_Msg id true true true true RcodeSuccess [question]
    (map (fun r => {| hdr_Name := q_Name question; hdr_Rrtype := TypeA; hdr_Class := ClassINET;
                      hdr_Ttl := ttl; rr_Data := DataMX r.1 r.2 |}) records) [] [].

(** ** Times to live *)

(** The TTL of a negative answer: of the first SOA record, the lesser of its
    TTL and its minimum. *)
Fixpoint extractNegativeTTL (ns : list RR) : option Z :=
  match ns with
  | [] => None
  | record :: ns =>
      match rr_Data record with
      | DataSOA minttl => Some (if hdr_Ttl record <? minttl then hdr_Ttl record else minttl)
      | _ => extractNegativeTTL ns
      end
  end.

(** [if ttl == 0 || record.Ttl > 0 && record.Ttl < ttl { ttl = record.Ttl }] *)
Definition lower_ttl (ttl : Z) (record : RR) : Z :=
  if (ttl =? 0) || (0 <? hdr_Ttl record) && (hdr_Ttl record <? ttl) then hdr_Ttl record else ttl.

Definition minimal_ttl (m : DMsg) : Z := fold_left lower_ttl (all_records m) 0.

(** ** Client subnets (extension_edns0_subnet.go) *)

(** The network address of a prefix. *)
Definition addr_bits (a : Addr) : option (Z * Z) :=
  match a with AddrInvalid => None | Addr4 n => Some (32, n) | Addr6 n _ => Some (128, n) end.

Definition clear_low (width bits n : Z) : Z := Z.shiftl (Z.shiftr n (width - bits)) (width - bits).

(** [netip.PrefixFrom(addr, bits)]: out-of-range lengths make it invalid; the
    zone is dropped. *)
Definition PrefixFrom (a : Addr) (bits : Z) : Prefix :=
  match a with
  | AddrInvalid => PrefixInvalid
  | Addr4 _ => {| prefix_ip := a; prefix_bits := if (0 <=? bits) && (bits <=? 32) then bits else -1 |}
  | Addr6 n _ => {| prefix_ip := Addr6 n ""; prefix_bits := if (0 <=? bits) && (bits <=? 128) then bits else -1 |}
  end.

(** [Prefix.Masked]: the zero prefix when it is invalid. *)
Definition Masked (p : Prefix) : Prefix :=
  if Prefix_IsValid p then
    match prefix_ip p with
    | AddrInvalid => PrefixInvalid
    | Addr4 n => {| prefix_ip := Addr4 (clear_low 32 (prefix_bits p) n); prefix_bits := prefix_bits p |}
    | Addr6 n _ => {| prefix_ip := Addr6 (clear_low 128 (prefix_bits p) n) ""; prefix_bits := prefix_bits p |}
    end
  else PrefixInvalid.

(** The big-endian octets of an address, [Addr.AsSlice]. *)
Fixpoint octets (k : nat) (n : Z) : list Z :=
  match k with
  | O => []
  | S k => Z.land (Z.shiftr n (8 * Z.of_nat k)) 255 :: octets k n
  end.
Definition AsSlice (a : Addr) : list Z :=
  match a with AddrInvalid => [] | Addr4 n => octets 4 n | Addr6 n _ => octets 16 n end.

(** [copy] into a zero array of [k] octets, read as a big-endian number. *)
Definition from_octets (k : nat) (l : list Z) : Z :=
  fold_left (fun acc b => acc * 256 + b) (take k (l ++ replicate k 0)) 0.

Definition subnet_option (p : Prefix) : EDNS0 :=
  EDNS0_SUBNET (if Addr_Is4 (prefix_ip p) then 1 else 2) (prefix_bits p) (AsSlice (prefix_ip p)).

(** The search of [setClientSubnet]: the OPT record and the subnet option the
    two variables hold when the loop ends.  Each type assertion overwrites its
    variable, with nil when it fails. *)
Fixpoint find_subnet_option (opts : list EDNS0) (i : nat) (last : option nat) : option nat * bool :=
  match opts with
  | [] => (last, false)
  | EDNS0_SUBNET _ _ _ :: _ => (Some i, true)
  | EDNS0_OTHER _ :: opts => find_subnet_option opts (S i) None
  end.

Fixpoint find_opt (extra : list RR) (i : nat) (opt subnet : option nat) : option nat * option nat :=
  match extra with
  | [] => (opt, subnet)
  | record :: extra =>
      match rr_Data record with
      | DataOPT opts =>
          let '(subnet, found) := find_subnet_option opts 0 subnet in
          if found then (Some i, subnet) else find_opt extra (S i) (Some i) subnet
      | _ => find_opt extra (S i) None subnet
      end
  end.

Definition new_opt_record (o : EDNS0) : RR :=
  {| hdr_Name := "."; hdr_Rrtype := TypeOPT; hdr_Class := 0; hdr_Ttl := 0; rr_Data := DataOPT [o] |}.

(** [SetClientSubnet]: the option of the OPT record found is replaced, or one
    is appended to it, or to a new OPT record at the end. *)
Definition SetClientSubnet (message : DMsg) (clientSubnet : Prefix) : DMsg :=
  let o := subnet_option clientSubnet in
  match find_opt (msg_Extra message) 0 None None with
  | (None, _) => with_Extra (msg_Extra message ++ [new_opt_record o]) message
  | (Some i, subnet) =>
      with_Extra (alter (fun r =>
        match rr_Data r with
        | DataOPT opts =>
            set_Data (DataOPT (match subnet with
                               | Some j => <[j := o]> opts
                               | None => opts ++ [o]
                               end)) r
        | _ => r
        end) i (msg_Extra message)) message
  end.

(** The subnet of the first subnet option. *)
Definition subnet_prefix (family bits : Z) (address : list Z) : option Prefix :=
  if family =? 1 then
    if 32 <? bits then None else Some (Masked (PrefixFrom (Addr4 (from_octets 4 address)) bits))
  else if family =? 2 then
    if 128 <? bits then None else Some (Masked (PrefixFrom (Addr6 (from_octets 16 address) "") bits))
  else None.

Fixpoint first_subnet (opts : list EDNS0) : option Prefix :=
  match opts with
  | [] => None
  | EDNS0_SUBNET family bits address :: _ => subnet_prefix family bits address
  | EDNS0_OTHER _ :: opts => first_subnet opts
  end.

Definition ExtractClientSubnet `{DNSLib} (message : DMsg) : option Prefix :=
  match IsEdns0 message with
  | Some r => match rr_Data r with DataOPT opts => first_subnet opts | _ => None end
  | None => None
  end.

(** ** Theorems *)

(** *** Client subnets survive the message *)

Definition is_opt (r : RR) : bool := match rr_Data r with DataOPT _ => true | _ => false end.

(** What the documentation of miekg/dns says of [IsEdns0]: the last OPT record
    of the additional section. *)
Class DNSLaws (D : DNSLib) : Prop := {
  IsEdns0_last : forall m : DMsg, IsEdns0 m = last (List.filter is_opt (msg_Extra m))
}.

(** A valid prefix with its address and length in range. *)
Definition prefix_wf (p : Prefix) : Prop :=
  match prefix_ip p with
  | AddrInvalid => False
  | Addr4 n => 0 <= n < 2 ^ 32 /\ 0 <= prefix_bits p <= 32
  | Addr6 n _ => 0 <= n < 2 ^ 128 /\ 0 <= prefix_bits p <= 128
  end.

Lemma octets_length k n : length (octets k n) = k.
Proof. induction k as [|k IH]; simpl; [done|]. by rewrite IH. Qed.

Lemma octets_fold k n a :
  fold_left (fun acc b => acc * 256 + b) (octets k n) a = a * 256 ^ Z.of_nat k + n mod 256 ^ Z.of_nat k.
Proof.
  revert a. induction k as [|k IH]; intros a; cbn [octets fold_left].
  { rewrite Z.pow_0_r, Z.mod_1_r. lia. }
  rewrite IH, Nat2Z.inj_succ, Z.pow_succ_r by lia.
  change 255 with (Z.ones 8). rewrite Z.land_ones, Z.shiftr_div_pow2 by lia.
  replace (2 ^ (8 * Z.of_nat k)) with (256 ^ Z.of_nat k)
    by (change 256 with (2 ^ 8); rewrite <- Z.pow_mul_r by lia; reflexivity).
  change (2 ^ 8) with 256. rewrite (Z.mul_comm 256 (256 ^ Z.of_nat k)).
  rewrite Z.rem_mul_r by lia. ring.
Qed.

Lemma from_octets_octets k n : 0 <= n < 256 ^ Z.of_nat k -> from_octets k (octets k n) = n.
Proof.
  intros Hn. unfold from_octets.
  replace (take k (octets k n ++ replicate k 0)) with (octets k n).
  2: { rewrite take_app_le by (rewrite octets_length; lia).
       rewrite take_ge; [done|rewrite octets_length; lia]. }
  rewrite octets_fold, Z.mod_small by done. lia.
Qed.

Lemma subnet_prefix_option p :
  prefix_wf p ->
  match subnet_option p with
  | EDNS0_SUBNET family bits address => subnet_prefix family bits address = Some (Masked p)
  | EDNS0_OTHER _ => False
  end.
Proof.
  unfold prefix_wf, subnet_option, subnet_prefix, Masked, PrefixFrom.
  destruct p as [[|n|n z] bits]; cbn [prefix_ip prefix_bits Addr_Is4 AsSlice]; [done|..];
    intros [Hn Hb]; [change (1 =? 1) with true|change (2 =? 1) with false; change (2 =? 2) with true];
    cbv iota.
  - destruct (Z.ltb_spec 32 bits); [lia|].
    rewrite (from_octets_octets 4 n) by (change (256 ^ Z.of_nat 4) with (2 ^ 32); done).
    by replace ((0 <=? bits) && (bits <=? 32)) with true by lia.
  - destruct (Z.ltb_spec 128 bits); [lia|].
    rewrite (from_octets_octets 16 n) by (change (256 ^ Z.of_nat 16) with (2 ^ 128); done).
    unfold Prefix_IsValid. cbn [prefix_ip prefix_bits].
    by replace ((0 <=? bits) && (bits <=? 128)) with true by lia.
Qed.

Definition is_subnet (o : EDNS0) : bool := match o with EDNS0_SUBNET _ _ _ => true | _ => false end.

Lemma find_subnet_option_spec opts i :
  match find_subnet_option opts i None with
  | (Some k, true) => exists before o after, opts = before ++ o :: after /\ k = (i + length before)%nat /\
      is_subnet o = true /\ existsb is_subnet before = false
  | (None, false) => existsb is_subnet opts = false
  | _ => False
  end.
Proof.
  revert i. induction opts as [|[f b a|c] opts IH]; intros i; simpl; [done| |].
  - exists [], (EDNS0_SUBNET f b a), opts. split_and!; [done|simpl; lia|done|done].
  - specialize (IH (S i)). destruct (find_subnet_option opts (S i) None) as [[k|] []]; try done.
    destruct IH as (before & o & after & -> & -> & Ho & Hb).
    exists (EDNS0_OTHER c :: before), o, after. split_and!; [done|simpl; lia|done|done].
Qed.

Lemma first_subnet_skip before o after :
  existsb is_subnet before = false -> first_subnet (before ++ o :: after) = first_subnet (o :: after).
Proof. induction before as [|[] before IH]; [done|done|]. exact IH. Qed.

Lemma find_opt_none extra i opt :
  existsb is_opt extra = false -> find_opt extra i opt None = (match extra with [] => opt | _ => None end, None).
Proof.
  revert i opt. induction extra as [|r extra IH]; intros i opt; simpl; [done|].
  unfold is_opt at 1. intros [Hr He]%orb_false_iff. destruct (rr_Data r); try done;
    rewrite IH by done; by destruct extra.
Qed.

Lemma find_opt_one pre r post opts i :
  existsb is_opt pre = false -> rr_Data r = DataOPT opts -> existsb is_opt post = false ->
  find_opt (pre ++ r :: post) i None None =
  match find_subnet_option opts 0 None with
  | (k, true) => (Some (i + length pre)%nat, k)
  | (_, false) => (match post with [] => Some (i + length pre)%nat | _ => None end, None)
  end.
Proof.
  revert i. induction pre as [|x pre IH]; intros i Hpre Hr Hpost; simpl in *.
  - rewrite Hr. pose proof (find_subnet_option_spec opts 0) as Hs.
    destruct (find_subnet_option opts 0 None) as [[k|] []]; try done;
      [by rewrite Nat.add_0_r|].
    rewrite find_opt_none by done. by rewrite Nat.add_0_r.
  - apply orb_false_iff in Hpre as [Hx Hpre]. unfold is_opt in Hx.
    destruct (rr_Data x); try done; rewrite IH by done; by rewrite <- Nat.add_succ_comm.
Qed.

Lemma filter_no_opt l : existsb is_opt l = false -> List.filter is_opt l = [].
Proof. induction l as [|x l IH]; simpl; [done|]. intros [-> Hl]%orb_false_iff. auto. Qed.

Lemma alter_middle {A} (f : A -> A) pre x post :
  alter f (length pre) (pre ++ x :: post) = pre ++ f x :: post.
Proof. induction pre as [|y pre IH]; simpl; [done|]. f_equal. exact IH. Qed.

Lemma insert_middle {A} (o x : A) pre post : <[length pre := o]> (pre ++ x :: post) = pre ++ o :: post.
Proof. induction pre as [|y pre IH]; simpl; [done|]. f_equal. exact IH. Qed.

Lemma at_most_one_opt extra :
  (length (List.filter is_opt extra) <= 1)%nat ->
  existsb is_opt extra = false \/
  exists pre r post opts, extra = pre ++ r :: post /\ rr_Data r = DataOPT opts /\
    existsb is_opt pre = false /\ existsb is_opt post = false.
Proof.
  induction extra as [|x extra IH]; simpl; [by left|].
  destruct (is_opt x) eqn:Hx; simpl; intros Hl.
  - right. exists [], x, extra. unfold is_opt in Hx. destruct (rr_Data x) eqn:Hd; try done.
    exists options. split_and!; [done..|].
    destruct (List.filter is_opt extra) eqn:Hf; [|simpl in Hl; lia].
    clear -Hf. induction extra as [|y extra IH]; simpl in *; [done|].
    destruct (is_opt y); [done|auto].
  - destruct (IH Hl) as [He|(pre & r & post & opts & -> & Hr & Hpre & Hpost)]; [by left|].
    right. exists (x :: pre), r, post, opts. split_and!; simpl; rewrite ?Hx; done.
Qed.

Section subnet_theorem.
Context `{DNSLib} `{!DNSLaws _}.

Lemma extract_last message extra r opts :
  msg_Extra message = extra -> last (List.filter is_opt extra) = Some r -> rr_Data r = DataOPT opts ->
  ExtractClientSubnet message = first_subnet opts.
Proof. intros <- Hl Hr. unfold ExtractClientSubnet. by rewrite IsEdns0_last, Hl, Hr. Qed.

Lemma subnet_option_first p rest :
  prefix_wf p -> first_subnet (subnet_option p :: rest) = Some (Masked p).
Proof.
  intros Hp. pose proof (subnet_prefix_option p Hp) as Ho. by destruct (subnet_option p).
Qed.

Lemma extract_set_client_subnet (message : DMsg) (p : Prefix) :
  prefix_wf p -> (length (List.filter is_opt (msg_Extra message)) <= 1)%nat ->
  ExtractClientSubnet (SetClientSubnet message p) = Some (Masked p).
Proof.
  intros Hp Hone. set (o := subnet_option p).
  assert (Hnew : forall extra, ExtractClientSubnet (with_Extra (extra ++ [new_opt_record o]) message) =
                               Some (Masked p)).
  { intros extra. rewrite (extract_last _ _ (new_opt_record o) [o] eq_refl); [|..|done].
    - by apply subnet_option_first.
    - simpl msg_Extra. rewrite List.filter_app. apply last_snoc. }
  unfold SetClientSubnet. fold o.
  destruct (at_most_one_opt _ Hone) as [Hno|(pre & r & post & opts & He & Hr & Hpre & Hpost)].
  { rewrite find_opt_none by done. by destruct (msg_Extra message). }
  rewrite He, (find_opt_one pre r post opts 0 Hpre Hr Hpost).
  assert (Halter : forall opts', first_subnet opts' = Some (Masked p) ->
    ExtractClientSubnet (with_Extra (pre ++ set_Data (DataOPT opts') r :: post) message) =
      Some (Masked p)).
  { intros opts' Hopts. rewrite (extract_last _ _ (set_Data (DataOPT opts') r) opts' eq_refl); [done| |done].
    simpl msg_Extra. rewrite List.filter_app. simpl. by rewrite !filter_no_opt. }
  pose proof (find_subnet_option_spec opts 0) as Hs.
  destruct (find_subnet_option opts 0 None) as [[k|] []]; try done.
  - destruct Hs as (before & o' & after & -> & -> & Ho' & Hb).
    simpl Nat.add. rewrite alter_middle, Hr, insert_middle. apply Halter.
    rewrite first_subnet_skip by done. by apply subnet_option_first.
  - destruct post; [|apply Hnew]. simpl Nat.add. rewrite alter_middle, Hr. apply Halter.
    rewrite first_subnet_skip by done. by apply subnet_option_first.
Qed.

(** The subnet read back from a message in
    which one was set is that subnet with its host bits cleared, whether the
    message had no OPT record, one without a subnet or one with another subnet,
    and for any other options and records around it. *)
Theorem client_subnet_roundtrip (message : DMsg) (p : Prefix) :
  prefix_wf p -> (length (List.filter is_opt (msg_Extra message)) <= 1)%nat ->
  ExtractClientSubnet (SetClientSubnet message p) = Some (Masked p).
Proof. apply extract_set_client_subnet. Qed.
End subnet_theorem.

(** *** The least time to live *)

Lemma lower_ttl_spec l acc :
  0 <= acc -> Forall (fun r => 0 <= hdr_Ttl r) l ->
  let t := fold_left lower_ttl l acc in
  0 <= t /\ (t = acc \/ exists r, r ∈ l /\ hdr_Ttl r = t) /\ (0 < acc -> 0 < t <= acc) /\
  (forall r, r ∈ l -> 0 < hdr_Ttl r -> 0 < t <= hdr_Ttl r).
Proof.
  revert acc. induction l as [|x l IH]; intros acc Ha Hl; simpl.
  { split_and!; [done|by left|lia|set_solver]. }
  apply Forall_cons in Hl as [Hx Hl].
  assert (Hstep : 0 <= lower_ttl acc x /\ (lower_ttl acc x = acc \/ lower_ttl acc x = hdr_Ttl x) /\
            (0 < acc -> 0 < lower_ttl acc x <= acc) /\ (0 < hdr_Ttl x -> 0 < lower_ttl acc x <= hdr_Ttl x)).
  { unfold lower_ttl. destruct (acc =? 0) eqn:E1, (0 <? hdr_Ttl x) eqn:E2, (hdr_Ttl x <? acc) eqn:E3;
      simpl; lia. }
  destruct Hstep as (H0 & Hor & Hpos & Hxs).
  destruct (IH (lower_ttl acc x) H0 Hl) as (T0 & Tor & Tpos & Tall). simpl in *.
  split_and!; [done| |lia|].
  - destruct Tor as [->|(r & Hr & Ht)]; [|right; exists r; set_solver].
    destruct Hor as [->| ->]; [by left|]. right. exists x. set_solver.
  - intros r [->|Hr]%elem_of_cons Hpr; [|by apply Tall]. lia.
Qed.

Lemma minimal_ttl_spec (m : DMsg) :
  Forall (fun r => 0 <= hdr_Ttl r) (all_records m) ->
  0 <= minimal_ttl m /\
  (minimal_ttl m = 0 \/ exists r, r ∈ all_records m /\ hdr_Ttl r = minimal_ttl m) /\
  (forall r, r ∈ all_records m -> 0 < hdr_Ttl r -> 0 < minimal_ttl m <= hdr_Ttl r).
Proof. intros Hl. destruct (lower_ttl_spec _ 0 (Z.le_refl 0) Hl) as (? & ? & _ & ?). done. Qed.

Lemma minimal_ttl_uniform ttl (m : DMsg) :
  0 <= ttl -> Forall (fun r => hdr_Ttl r = ttl) (all_records m) -> all_records m <> [] ->
  minimal_ttl m = ttl.
Proof.
  intros H0 Hu Hne. destruct (minimal_ttl_spec m) as (Hp & Hor & Hall).
  { eapply Forall_impl; [exact Hu|]. simpl. lia. }
  rewrite Forall_forall in Hu. destruct (all_records m) as [|r l] eqn:Hr; [done|].
  pose proof (Hu r ltac:(set_solver)). pose proof (Hall r ltac:(set_solver)).
  destruct Hor as [Hz|(r' & Hr' & <-)]; [lia|by apply Hu].
Qed.

(** *** A concrete library *)

(** [IsFqdn] on names without escapes. *)
Fixpoint ends_in_dot (s : string) : bool :=
  match s with
  | EmptyString => false
  | String c EmptyString => bool_decide (String c EmptyString = ".")
  | String _ s => ends_in_dot s
  end.

Definition concrete_dns : DNSLib := {|
  dns_IsFqdn := ends_in_dot;
  dns_Fqdn := fun s => if ends_in_dot s then s else s +:+ ".";
  IsEdns0 := fun m => last (List.filter is_opt (msg_Extra m));
  OPT_Version := fun r => Z.land (Z.shiftr (hdr_Ttl r) 16) 255;
  SetEdns0_like := fun opt extra =>
    extra ++ [{| hdr_Name := "."; hdr_Rrtype := TypeOPT; hdr_Class := hdr_Class opt;
                 hdr_Ttl := Z.land (hdr_Ttl opt) 32768; rr_Data := DataOPT [] |}] |}.

Lemma concrete_dns_laws : DNSLaws concrete_dns.
Proof. by constructor. Qed.

Definition example_query : DMsg :=
  Build_Msg 7 false false true false 0
    [{| q_Name := "example.com."; q_Qtype := TypeA; q_Qclass := ClassINET |}] [] []
    [{| hdr_Name := "."; hdr_Rrtype := TypeOPT; hdr_Class := 1232; hdr_Ttl := 0;
        rr_Data := DataOPT [EDNS0_OTHER 10] |}].

Definition example_prefix : Prefix := {| prefix_ip := Addr4 3232235786; prefix_bits := 24 |}.

Lemma client_subnet_roundtrip_witness :
  @ExtractClientSubnet concrete_dns (SetClientSubnet example_query example_prefix) =
    Some {| prefix_ip := Addr4 3232235776; prefix_bits := 24 |}.
Proof.
  refine (@client_subnet_roundtrip concrete_dns concrete_dns_laws example_query example_prefix _ _).
  - split; simpl; lia.
  - simpl. lia.
Defined.
