(* ===== verification/DnsClient.v ===== *)
(** * dns/client.go: the DNS client

    One exchange with a transport: strategy, client subnet, the cache with its
    two kinds of keys, the store of rejected answers, the response check and
    the rewriting of times to live; and the lookups built on it.  The
    transport is a function; the clock is an argument.  The lock that makes
    concurrent queries for the same key wait for each other has no effect on a
    single query and is not modelled. *)

From stdpp Require Import base list strings gmap.
From Stdlib Require Import ZArith Lia.
From S2P Require Import Prelude GoStd External Adapter RuleAction DnsMsg.

Open Scope Z_scope.

(** ** Errors *)

Definition ErrNotCached : error := ErrNew "not cached".
Definition ErrResponseRejected : error := ErrNew "response rejected".
Definition ErrResponseRejectedCached : error := ErrExtend ErrResponseRejected "cached".

(** ** The client *)

Record Client : Type := {
  cl_disableCache : bool;
  cl_disableExpire : bool;
  cl_independentCache : bool;
  cl_clientSubnet : Prefix;
  cl_clientSubnetFromInbound : option ClientSubnetFromInboundOptions
}.

(** The key of [cache] (a question) or of [transportCache]. *)
Record cacheKey : Type := { ck_question : Question; ck_transport : option (string * Prefix) }.

#[global] Instance cacheKey_eq_dec : EqDecision cacheKey.
Proof. solve_decision. Defined.
#[global] Instance cacheKey_countable : Countable cacheKey.
Proof.
  refine (inj_countable' (fun k => (ck_question k, ck_transport k)) (fun x => Build_cacheKey x.1 x.2) _).
  by intros [].
Defined.

(** A cached message with its expiry; without one when expiry is disabled. *)
Record cacheEntry : Type := { ce_message : DMsg; ce_expireAt : option Z }.

(** What a client keeps between queries: the cache and, when there is one, the
    store of rejected answers. *)
Record ClientState : Type := {
  cs_cache : gmap cacheKey cacheEntry;
  cs_rdrc : option (gset (string * string * Z))
}.

Definition with_cache (c : gmap cacheKey cacheEntry) (s : ClientState) : ClientState :=
  {| cs_cache := c; cs_rdrc := cs_rdrc s |}.
Definition with_rdrc (r : option (gset (string * string * Z))) (s : ClientState) : ClientState :=
  {| cs_cache := cs_cache s; cs_rdrc := r |}.

(** [adapter.DNSQueryOptions], but for the transport. *)
Record DNSQueryOptions : Type := {
  qo_Strategy : DomainStrategy;
  qo_LookupStrategy : DomainStrategy;
  qo_DisableCache : bool;
  qo_RewriteTTL : option Z;
  qo_ClientSubnet : Prefix;
  qo_ClientSubnetFromInbound : option ClientSubnetFromInboundOptions
}.

(** A transport as the client uses it: its tag and its [Exchange]. *)
Record Upstream : Type := { up_Tag : string; up_Exchange : DMsg -> DMsg + error }.

(** What the context of a query carries: the source address of the inbound
    connection and the tag of the transport a query came from. *)
Record QueryContext : Type := { qc_Source : option Addr; qc_TransportTag : option string }.

(** ** Client subnets *)

Definition clientSubnetFromInbound (ctx : QueryContext) (o : option ClientSubnetFromInboundOptions)
    : Prefix :=
  match o, qc_Source ctx with
  | Some o, Some addr =>
      if negb (Addr_IsValid addr) then PrefixInvalid
      else if Addr_Is4 addr then
        if (csfi_IPv4 o =? 0) || (32 <? csfi_IPv4 o) then PrefixInvalid
        else Masked (PrefixFrom addr (csfi_IPv4 o))
      else
        if (csfi_IPv6 o =? 0) || (128 <? csfi_IPv6 o) then PrefixInvalid
        else Masked (PrefixFrom addr (csfi_IPv6 o))
  | _, _ => PrefixInvalid
  end.

Definition resolveClientSubnet (c : Client) (ctx : QueryContext) (o : DNSQueryOptions) : Prefix :=
  let clientSubnet := if Prefix_IsValid (qo_ClientSubnet o) then qo_ClientSubnet o else cl_clientSubnet c in
  if Prefix_IsValid clientSubnet then clientSubnet
  else clientSubnetFromInbound ctx
         (match qo_ClientSubnetFromInbound o with
          | Some f => Some f
          | None => cl_clientSubnetFromInbound c
          end).

Definition isCacheableDNSExtra (record : RR) (independentCache : bool) (clientSubnet : Prefix) : bool :=
  match rr_Data record with
  | DataOPT opts =>
      if negb (hdr_Ttl record =? 0) then false
      else
        match opts with
        | [] => true
        | [o] => if negb independentCache then false
                 else match o with
                      | EDNS0_SUBNET _ _ _ => Prefix_IsValid clientSubnet
                      | EDNS0_OTHER _ => false
                      end
        | _ => false
        end
  | _ => false
  end.

(** ** The cache *)

Definition cache_key (c : Client) (question : Question) (tag : string) (clientSubnet : Prefix) : cacheKey :=
  {| ck_question := question;
     ck_transport := if cl_independentCache c then Some (tag, clientSubnet) else None |}.

Definition storeCache (c : Client) (tag : string) (question : Question) (message : DMsg)
    (timeToLive : Z) (clientSubnet : Prefix) (now : Z) (s : ClientState) : ClientState :=
  if timeToLive =? 0 then s
  else with_cache (<[cache_key c question tag clientSubnet :=
         {| ce_message := message;
            ce_expireAt := if cl_disableExpire c then None else Some (now + Second * timeToLive) |}]>
         (cs_cache s)) s.

Definition uint32 (z : Z) : Z := z mod 2 ^ 32.

(** The TTLs of a cached message: lowered by the time it spent in the cache,
    or the remaining life when all of them are zero. *)
Definition age_message (nowTTL : Z) (m : DMsg) : DMsg :=
  let originTTL := minimal_ttl m in
  if 0 <? originTTL then
    let duration := uint32 (originTTL - nowTTL) in
    map_records (fun r => set_Ttl (uint32 (hdr_Ttl r - duration)) r) m
  else map_records (set_Ttl (uint32 nowTTL)) m.

(** [loadResponse]: the message and the remaining life, or nothing; an expired
    entry is removed. *)
Definition loadResponse (c : Client) (question : Question) (tag : string) (clientSubnet : Prefix)
    (now : Z) (s : ClientState) : option (DMsg * Z) * ClientState :=
  let key := cache_key c question tag clientSubnet in
  match cs_cache s !! key with
  | None => (None, s)
  | Some e =>
      match ce_expireAt e with
      | None => (Some (ce_message e, 0), s)
      | Some expireAt =>
          if expireAt <? now then (None, with_cache (delete key (cs_cache s)) s)
          else
            let nowTTL := Z.max 0 ((expireAt - now) / Second) in
            (Some (age_message nowTTL (ce_message e), nowTTL), s)
      end
  end.

(** ** Exchange *)

Definition strategy_rejects (strategy : DomainStrategy) (qtype : Z) : bool :=
  (qtype =? TypeA) && bool_decide (strategy = DomainStrategyIPv6Only) ||
  (qtype =? TypeAAAA) && bool_decide (strategy = DomainStrategyIPv4Only).

(** The request can be answered from the cache. *)
Definition isSimpleRequest (c : Client) (message : DMsg) (cacheClientSubnet : Prefix) : bool :=
  (length (msg_Question message) =? 1)%nat && (length (msg_Ns message) =? 0)%nat &&
  match msg_Extra message with
  | [] => true
  | [r] => (hdr_Rrtype r =? TypeOPT) && isCacheableDNSExtra r (cl_independentCache c) cacheClientSubnet
  | _ => false
  end.

(** The hints an HTTPS answer keeps under a strategy. *)
Definition keep_hint (strategy : DomainStrategy) (v : SVCBKeyValue) : bool :=
  match strategy, v with
  | DomainStrategyIPv4Only, SVCBIPv6Hint _ => false
  | DomainStrategyIPv6Only, SVCBIPv4Hint _ => false
  | _, _ => true
  end.

Definition filter_hints (strategy : DomainStrategy) (r : RR) : RR :=
  match rr_Data r with
  | DataHTTPS values => set_Data (DataHTTPS (List.filter (keep_hint strategy) values)) r
  | _ => r
  end.

Definition filter_https (qtype : Z) (strategy : DomainStrategy) (m : DMsg) : DMsg :=
  if (qtype =? TypeHTTPS) &&
     (bool_decide (strategy = DomainStrategyIPv4Only) || bool_decide (strategy = DomainStrategyIPv6Only))
  then with_Answer (map (filter_hints strategy) (msg_Answer m)) m
  else m.

(** The TTL every record of the answer gets. *)
Definition response_ttl (rewrite : option Z) (m : DMsg) : Z :=
  let negative := match msg_Answer m with
                  | [] => default 0 (extractNegativeTTL (msg_Ns m))
                  | _ => 0
                  end in
  default (if negative =? 0 then minimal_ttl m else negative) rewrite.

Section exchange.
Context `{DNSLib}.

(** The last steps on the response's OPT record. *)
Definition fix_edns (message response : DMsg) : DMsg :=
  match IsEdns0 response with
  | None => response
  | Some opt =>
      let strip := with_Extra
        (List.filter (fun r => negb (hdr_Rrtype r =? TypeOPT)) (msg_Extra response)) response in
      match IsEdns0 message with
      | None => strip
      | Some request_opt =>
          if OPT_Version request_opt <? OPT_Version opt
          then with_Extra (SetEdns0_like opt (msg_Extra strip)) strip
          else response
      end
  end.

(** What [Exchange] does with the answer of the transport.  The message put in
    the cache is the one returned: both are the same pointer. *)
Definition finish_exchange (c : Client) (up : Upstream) (message : DMsg) (question : Question)
    (options : DNSQueryOptions) (cacheClientSubnet : Prefix) (disableCache : bool)
    (responseChecker : option (list Addr -> bool)) (response : DMsg) (now : Z) (s : ClientState)
    : option DMsg * option error * ClientState :=
  let disableCache := disableCache ||
    negb (msg_Rcode response =? RcodeSuccess) && negb (msg_Rcode response =? RcodeNameError) in
  let rejected :=
    match responseChecker with
    | None => false
    | Some check =>
        if negb (msg_Rcode response =? RcodeSuccess) || negb (0 <? length (msg_Answer response))%nat
        then true else negb (check (MessageToAddresses response))
    end in
  if rejected then
    (Some response, Some ErrResponseRejected,
     if disableCache then s
     else match cs_rdrc s with
          | Some r => with_rdrc (Some ({[ (up_Tag up, q_Name question, q_Qtype question) ]} ∪ r)) s
          | None => s
          end)
  else
    let response := filter_https (q_Qtype question) (qo_Strategy options) response in
    let timeToLive := response_ttl (qo_RewriteTTL options) response in
    let response := map_records (set_Ttl timeToLive) response in
    let response := fix_edns message (with_Id (msg_Id message) response) in
    (Some response, None,
     if disableCache then s
     else storeCache c (up_Tag up) question response timeToLive cacheClientSubnet now s).

(** The message sent: with the client subnet, if there is one. *)
Definition subnet_message (c : Client) (ctx : QueryContext) (message : DMsg) (options : DNSQueryOptions)
    : DMsg :=
  let clientSubnet := resolveClientSubnet c ctx options in
  if Prefix_IsValid clientSubnet then SetClientSubnet message clientSubnet else message.

Definition cache_subnet (c : Client) (message : DMsg) : Prefix :=
  if cl_independentCache c then default PrefixInvalid (ExtractClientSubnet message) else PrefixInvalid.

(** [Client.Exchange]. *)
Definition Client_Exchange (c : Client) (ctx : QueryContext) (up : Upstream) (message : DMsg)
    (options : DNSQueryOptions) (responseChecker : option (list Addr -> bool)) (now : Z)
    (s : ClientState) : option DMsg * option error * ClientState :=
  match msg_Question message with
  | [] => (Some (FixedResponseStatus message RcodeFormatError), None, s)
  | question :: _ =>
      if strategy_rejects (qo_Strategy options) (q_Qtype question) then
        (Some (FixedResponseStatus message RcodeSuccess), None, s)
      else
        let message := subnet_message c ctx message options in
        let cacheClientSubnet := cache_subnet c message in
        let disableCache := negb (isSimpleRequest c message cacheClientSubnet) || cl_disableCache c ||
                            qo_DisableCache options in
        let '(cached, s) :=
          (if disableCache then (None, s)
           else loadResponse c question (up_Tag up) cacheClientSubnet now s) in
        match cached with
        | Some (response, _) => (Some (with_Id (msg_Id message) response), None, s)
        | None =>
            if bool_decide (qc_TransportTag ctx = Some (up_Tag up)) then
              (None, Some (ErrNew ("DNS query loopback in transport[" +:+ up_Tag up +:+ "]")), s)
            else if negb disableCache && match responseChecker with Some _ => true | None => false end &&
                    match cs_rdrc s with
                    | Some r => bool_decide ((up_Tag up, q_Name question, q_Qtype question) ∈ r)
                    | None => false
                    end
            then (None, Some ErrResponseRejectedCached, s)
            else
              match up_Exchange up message with
              | inl response =>
                  finish_exchange c up message question options cacheClientSubnet disableCache
                    responseChecker response now s
              | inr err =>
                  match errors_As_rcode err with
                  | Some code =>
                      finish_exchange c up message question options cacheClientSubnet disableCache
                        responseChecker (FixedResponseStatus message code) now s
                  | None => (None, Some err, s)
                  end
              end
        end
  end.

(** ** Lookup *)

Definition sortAddresses (response4 response6 : list Addr) (strategy : DomainStrategy) : list Addr :=
  if decide (strategy = DomainStrategyPreferIPv6) then response6 ++ response4 else response4 ++ response6.

Definition questionCache (c : Client) (question : Question) (tag : string) (clientSubnet : Prefix)
    (now : Z) (s : ClientState) : (list Addr * option error) * ClientState :=
  match loadResponse c question tag clientSubnet now s with
  | (None, s) => (([], Some ErrNotCached), s)
  | (Some (response, _), s) =>
      if negb (msg_Rcode response =? RcodeSuccess) then (([], Some (ErrRcode (msg_Rcode response))), s)
      else ((MessageToAddresses response, None), s)
  end.

Definition lookup_message (question : Question) : DMsg :=
  Build_Msg 0 false false true false 0 [question] [] [] [].

Definition lookupToExchange (c : Client) (ctx : QueryContext) (up : Upstream) (name : string) (qType : Z)
    (options : DNSQueryOptions) (responseChecker : option (list Addr -> bool)) (now : Z)
    (s : ClientState) : (list Addr * option error) * ClientState :=
  let question := {| q_Name := name; q_Qtype := qType; q_Qclass := ClassINET |} in
  let resolvedSubnet := resolveClientSubnet c ctx options in
  let disableCache := cl_disableCache c || qo_DisableCache options ||
                      Prefix_IsValid resolvedSubnet && negb (cl_independentCache c) in
  let cacheClientSubnet := if cl_independentCache c then Masked resolvedSubnet else PrefixInvalid in
  let '((addrs, err), s) :=
    (if disableCache then (([], Some ErrNotCached), s)
     else questionCache c question (up_Tag up) cacheClientSubnet now s) in
  if negb (bool_decide (err = Some ErrNotCached)) then ((addrs, err), s)
  else
    match Client_Exchange c ctx up (lookup_message question) options responseChecker now s with
    | (_, Some err, s) => (([], Some err), s)
    | (Some response, None, s) =>
        if negb (msg_Rcode response =? RcodeSuccess) then (([], Some (ErrRcode (msg_Rcode response))), s)
        else ((MessageToAddresses response, None), s)
    | (None, None, s) => (([], None), s)
    end.

(** [Client.Lookup]; without a strategy for one family both queries run, here
    A before AAAA, and an error counts only when neither found an address. *)
Definition Client_Lookup (c : Client) (ctx : QueryContext) (up : Upstream) (domain : string)
    (options : DNSQueryOptions) (responseChecker : option (list Addr -> bool)) (now : Z)
    (s : ClientState) : (list Addr * option error) * ClientState :=
  let dnsName := dns_Fqdn (FqdnToDomain domain) in
  let strategy := if decide (qo_LookupStrategy options = DomainStrategyAsIS)
                  then qo_Strategy options else qo_LookupStrategy options in
  if decide (strategy = DomainStrategyIPv4Only) then
    lookupToExchange c ctx up dnsName TypeA options responseChecker now s
  else if decide (strategy = DomainStrategyIPv6Only) then
    lookupToExchange c ctx up dnsName TypeAAAA options responseChecker now s
  else
    let '((r4, err4), s) := lookupToExchange c ctx up dnsName TypeA options responseChecker now s in
    let '((r6, err6), s) := lookupToExchange c ctx up dnsName TypeAAAA options responseChecker now s in
    let response4 := match err4 with None => r4 | Some _ => [] end in
    let response6 := match err6 with None => r6 | Some _ => [] end in
    match response4 ++ response6 with
    | [] => (([], E_Errors (option_list err4 ++ option_list err6)), s)
    | _ => ((sortAddresses response4 response6 strategy, None), s)
    end.

Definition ClearCache (s : ClientState) : ClientState := with_cache ∅ s.
End exchange.

(** ** Theorems *)

(** *** Aging *)

Lemma uint32_id z : 0 <= z < 2 ^ 32 -> uint32 z = z.
Proof. apply Z.mod_small. Qed.

Definition uniform_ttl (ttl : Z) (m : DMsg) : Prop := Forall (fun r => hdr_Ttl r = ttl) (all_records m).

Lemma all_records_map f m : all_records (map_records f m) = map f (all_records m).
Proof. unfold all_records. simpl. by rewrite !map_app. Qed.

Lemma uniform_set_Ttl ttl m : uniform_ttl ttl (map_records (set_Ttl ttl) m).
Proof. unfold uniform_ttl. rewrite all_records_map. apply Forall_forall. by intros x (y & -> & _)%list_elem_of_fmap. Qed.

Lemma map_records_ext f g m :
  (forall r, r ∈ all_records m -> f r = g r) -> map_records f m = map_records g m.
Proof.
  intros Hfg. unfold map_records. unfold all_records in Hfg.
  f_equal; apply map_ext_in; intros r Hr%list_elem_of_In; apply Hfg; set_solver.
Qed.

Lemma age_message_uniform ttl now m :
  0 < ttl < 2 ^ 32 -> uniform_ttl ttl m -> 0 <= now <= ttl ->
  age_message now m = map_records (set_Ttl now) m.
Proof.
  intros Ht Hu Hn. unfold age_message.
  destruct (Z.ltb_spec 0 (minimal_ttl m)) as [Hpos|Hz].
  - assert (Hne : all_records m <> []).
    { intros He. unfold minimal_ttl in Hpos. rewrite He in Hpos. simpl in Hpos. lia. }
    rewrite (minimal_ttl_uniform ttl) by (done || lia).
    apply map_records_ext. intros r Hr. unfold uniform_ttl in Hu. rewrite Forall_forall in Hu.
    rewrite (Hu r Hr), (uint32_id (ttl - now)), uint32_id by lia. f_equal. lia.
  - by rewrite uint32_id by lia.
Qed.

Lemma age_message_addresses now m :
  msg_Rcode (age_message now m) = msg_Rcode m /\
  MessageToAddresses (age_message now m) = MessageToAddresses m.
Proof.
  unfold age_message. destruct (0 <? minimal_ttl m); split; try done; unfold MessageToAddresses; simpl;
    destruct (msg_Rcode m =? RcodeSuccess); try done;
    induction (msg_Answer m) as [|r l IH]; simpl; [done| |done|]; by rewrite IH.
Qed.

(** *** The cache *)

Section cache_theorems.
Context (c : Client).

Lemma load_stored tag question m ttl subnet now s :
  ttl <> 0 ->
  cs_cache (storeCache c tag question m ttl subnet now s) !! cache_key c question tag subnet =
    Some {| ce_message := m; ce_expireAt := if cl_disableExpire c then None else Some (now + Second * ttl) |}.
Proof.
  intros Ht. unfold storeCache. destruct (Z.eqb_spec ttl 0); [done|]. simpl. by rewrite lookup_insert_eq.
Qed.

(** C37 (a cached answer counts down and dies): unless expiry is disabled, an
    answer stored with a positive time to live, which all its records carry, is
    served, as long as it lasts, with exactly the whole seconds left in every
    record, never with more than it was stored with; after that moment it is not
    served and its entry is removed. *)
Theorem cached_answer_ages tag question m ttl subnet now s now' :
  cl_disableExpire c = false -> 0 < ttl < 2 ^ 32 -> uniform_ttl ttl m -> now <= now' ->
  let s' := storeCache c tag question m ttl subnet now s in
  let left := (now + Second * ttl - now') / Second in
  (now' <= now + Second * ttl ->
     loadResponse c question tag subnet now' s' = (Some (map_records (set_Ttl left) m, left), s') /\
     0 <= left <= ttl) /\
  (now + Second * ttl < now' ->
     (loadResponse c question tag subnet now' s').1 = None /\
     cs_cache (loadResponse c question tag subnet now' s').2 !! cache_key c question tag subnet = None).
Proof.
  intros He Ht Hu Hn s' left.
  assert (Hload := load_stored tag question m ttl subnet now s ltac:(lia)).
  fold s' in Hload. rewrite He in Hload.
  unfold loadResponse. rewrite Hload. cbn [ce_expireAt ce_message].
  split; intros Hl; destruct (Z.ltb_spec (now + Second * ttl) now'); try lia.
  - fold left. assert (Hleft : 0 <= left <= ttl).
    { unfold left, Second in *. split; [apply Z.div_pos; lia|]. apply Z.div_le_upper_bound; lia. }
    rewrite Z.max_r by lia. by rewrite (age_message_uniform ttl).
  - split; [done|]. simpl. apply lookup_delete_eq.
Qed.

(** Other keys are not touched by a store. *)
Lemma store_other tag question m ttl subnet now s key :
  key <> cache_key c question tag subnet ->
  cs_cache (storeCache c tag question m ttl subnet now s) !! key = cs_cache s !! key.
Proof.
  intros Hk. unfold storeCache. destruct (ttl =? 0); [done|]. simpl. by rewrite lookup_insert_ne.
Qed.
End cache_theorems.

(** *** Fresh answers *)

Lemma filter_https_ttls qtype strategy m :
  map hdr_Ttl (all_records (filter_https qtype strategy m)) = map hdr_Ttl (all_records m) /\
  (msg_Answer (filter_https qtype strategy m) = [] <-> msg_Answer m = []) /\
  msg_Ns (filter_https qtype strategy m) = msg_Ns m /\
  msg_Rcode (filter_https qtype strategy m) = msg_Rcode m.
Proof.
  unfold filter_https. destruct (_ && _); [|done].
  unfold all_records. simpl. split_and!; [|destruct (msg_Answer m); done|done..].
  rewrite !map_app, map_map. f_equal. apply map_ext. intros r. unfold filter_hints. by destruct (rr_Data r).
Qed.

Lemma minimal_ttl_map m m' :
  map hdr_Ttl (all_records m) = map hdr_Ttl (all_records m') -> minimal_ttl m = minimal_ttl m'.
Proof.
  unfold minimal_ttl. generalize (all_records m), (all_records m'), 0.
  intros l. induction l as [|x l IH]; intros [|y l'] acc; simpl; try done.
  intros [= Hx Hl]. unfold lower_ttl at 2 4. rewrite Hx. by apply IH.
Qed.

Lemma response_ttl_filter rewrite_ttl qtype strategy m :
  response_ttl rewrite_ttl (filter_https qtype strategy m) = response_ttl rewrite_ttl m.
Proof.
  destruct (filter_https_ttls qtype strategy m) as (Ht & Ha & Hn & _).
  unfold response_ttl. rewrite Hn, (minimal_ttl_map _ _ Ht).
  destruct (msg_Answer (filter_https qtype strategy m)), (msg_Answer m); try done;
    [by pose proof (proj1 Ha eq_refl)|by pose proof (proj2 Ha eq_refl)].
Qed.

Lemma filter_https_addresses qtype strategy m a :
  a ∈ MessageToAddresses (filter_https qtype strategy m) -> a ∈ MessageToAddresses m.
Proof.
  unfold MessageToAddresses, filter_https. destruct (_ && _) eqn:E; [|done]. simpl.
  destruct (msg_Rcode m =? _); [|done]. rewrite !list_elem_of_In, !in_flat_map.
  intros (r & (r0 & <- & Hr0)%in_map_iff & Ha). exists r0. split; [done|].
  unfold record_addresses, filter_hints in *. destruct (rr_Data r0) eqn:Hd; simpl in *; rewrite ?Hd in Ha; try done.
  apply in_flat_map in Ha as (v & [Hv _]%List.filter_In & Hin). apply in_flat_map. by exists v.
Qed.

Lemma filter_https_other qtype strategy m : qtype <> TypeHTTPS -> filter_https qtype strategy m = m.
Proof. intros Hq. unfold filter_https. by rewrite (proj2 (Z.eqb_neq _ _) Hq). Qed.

Lemma map_records_addresses ttl m :
  MessageToAddresses (map_records (set_Ttl ttl) m) = MessageToAddresses m.
Proof.
  unfold MessageToAddresses. simpl. destruct (_ =? _); [|done].
  induction (msg_Answer m) as [|r l IH]; simpl; [done|]. by rewrite IH.
Qed.

(** The positive TTLs of an answer bound the one its records get. *)
Lemma response_ttl_bound m :
  Forall (fun r => 0 <= hdr_Ttl r) (all_records m) -> msg_Answer m <> [] ->
  forall r, r ∈ all_records m -> 0 < hdr_Ttl r -> 0 < response_ttl None m <= hdr_Ttl r.
Proof.
  intros Hnn Hne r Hr Hp. unfold response_ttl. destruct (msg_Answer m) eqn:E; [done|]. simpl.
  by apply minimal_ttl_spec.
Qed.

Section exchange_theorems.
Context `{DNSLib}.

Lemma fix_edns_sections message response :
  let r := fix_edns message response in
  msg_Id r = msg_Id response /\ msg_Rcode r = msg_Rcode response /\ msg_Answer r = msg_Answer response /\
  msg_Ns r = msg_Ns response /\ MessageToAddresses r = MessageToAddresses response.
Proof.
  unfold fix_edns. destruct (IsEdns0 response); [|done]. destruct (IsEdns0 message); [|done].
  by destruct (_ <? _).
Qed.

(** The answer of [finish_exchange] when nothing rejects the response. *)
Lemma finish_sections message question (options : DNSQueryOptions) response :
  let ttl := response_ttl (qo_RewriteTTL options) response in
  let r := fix_edns message (with_Id (msg_Id message)
             (map_records (set_Ttl ttl) (filter_https (q_Qtype question) (qo_Strategy options) response))) in
  msg_Id r = msg_Id message /\ msg_Rcode r = msg_Rcode response /\
  Forall (fun x => hdr_Ttl x = ttl) (msg_Answer r ++ msg_Ns r) /\
  (forall a, a ∈ MessageToAddresses r -> a ∈ MessageToAddresses response) /\
  (q_Qtype question <> TypeHTTPS -> MessageToAddresses r = MessageToAddresses response).
Proof.
  intros ttl r. set (m := filter_https (q_Qtype question) (qo_Strategy options) response) in r.
  destruct (fix_edns_sections message (with_Id (msg_Id message) (map_records (set_Ttl ttl) m)))
    as (Hid & Hrc & Ha & Hn & Hm). fold r in Hid, Hrc, Ha, Hn, Hm.
  assert (Hm' : MessageToAddresses r = MessageToAddresses m).
  { rewrite Hm. exact (map_records_addresses ttl m). }
  split_and!; [done| | | |].
  - rewrite Hrc. apply filter_https_ttls.
  - rewrite Ha, Hn. simpl. rewrite <- map_app. apply Forall_forall.
    by intros x (y & -> & _)%list_elem_of_fmap.
  - intros a. rewrite Hm'. apply filter_https_addresses.
  - intros Hq. rewrite Hm'. unfold m. by rewrite filter_https_other.
Qed.

Definition disable_cache (c : Client) (message : DMsg) (options : DNSQueryOptions) : bool :=
  negb (isSimpleRequest c message (cache_subnet c message)) || cl_disableCache c || qo_DisableCache options.

(** A query that reaches the transport. *)
Lemma exchange_asks c ctx up message (options : DNSQueryOptions) checker now s question qs :
  msg_Question message = question :: qs -> strategy_rejects (qo_Strategy options) (q_Qtype question) = false ->
  let sent := subnet_message c ctx message options in
  let subnet := cache_subnet c sent in
  let disableCache := disable_cache c sent options in
  let '(cached, s1) := (if disableCache then (None, s) else loadResponse c question (up_Tag up) subnet now s) in
  cached = None -> qc_TransportTag ctx <> Some (up_Tag up) ->
  (forall r, disableCache = false -> checker <> None -> cs_rdrc s1 = Some r ->
     (up_Tag up, q_Name question, q_Qtype question) ∉ r) ->
  Client_Exchange c ctx up message options checker now s =
    match up_Exchange up sent with
    | inl response => finish_exchange c up sent question options subnet disableCache checker response now s1
    | inr err =>
        match errors_As_rcode err with
        | Some code => finish_exchange c up sent question options subnet disableCache checker
                         (FixedResponseStatus sent code) now s1
        | None => (None, Some err, s1)
        end
    end.
Proof.
  intros Hq Hs sent subnet disableCache.
  destruct (if disableCache then _ else _) as [cached s1] eqn:El. intros -> Hloop Hrdrc.
  unfold Client_Exchange. rewrite Hq, Hs. fold sent. fold subnet.
  replace (negb (isSimpleRequest c sent subnet) || cl_disableCache c || qo_DisableCache options)
    with disableCache by reflexivity.
  rewrite El. rewrite bool_decide_false by done.
  replace (negb disableCache && _ && _) with false; [done|].
  symmetry. destruct disableCache; [done|]. destruct checker; [|done].
  destruct (cs_rdrc s1) as [r|]; [|done]. simpl. rewrite bool_decide_false; [done|]. by apply (Hrdrc r).
Qed.

Lemma subnet_message_Id c ctx message (options : DNSQueryOptions) :
  msg_Id (subnet_message c ctx message options) = msg_Id message.
Proof.
  unfold subnet_message, SetClientSubnet. destruct (Prefix_IsValid _); [|done].
  by destruct (find_opt _ _ _ _) as [[?|] ?].
Qed.

(** A query that skips the cache and returns an answer: the loop check passed
    and the answer is the transport's, or made of its rcode error. *)
Lemma exchange_uncached c ctx up message (options : DNSQueryOptions) checker now s question qs r s' :
  cl_disableCache c || qo_DisableCache options = true ->
  msg_Question message = question :: qs -> strategy_rejects (qo_Strategy options) (q_Qtype question) = false ->
  Client_Exchange c ctx up message options checker now s = (Some r, None, s') ->
  let sent := subnet_message c ctx message options in
  exists response,
    (up_Exchange up sent = inl response \/
     exists err code, up_Exchange up sent = inr err /\ errors_As_rcode err = Some code /\
                      response = FixedResponseStatus sent code) /\
    finish_exchange c up sent question options (cache_subnet c sent) true checker response now s =
      (Some r, None, s').
Proof.
  intros Hd Hq Hs He sent.
  assert (Hdis : disable_cache c sent options = true).
  { unfold disable_cache. rewrite <- orb_assoc, Hd. apply orb_true_r. }
  pose proof (exchange_asks c ctx up message options checker now s question qs Hq Hs) as Ha.
  cbn zeta in Ha. fold sent in Ha. rewrite Hdis in Ha.
  destruct (decide (qc_TransportTag ctx = Some (up_Tag up))) as [Hl|Hl].
  { unfold Client_Exchange in He. rewrite Hq, Hs in He. fold sent in He.
    fold (disable_cache c sent options) in He. rewrite Hdis, bool_decide_true in He; done. }
  rewrite Ha in He by done. destruct (up_Exchange up sent) as [response|err].
  { exists response. split; [by left|done]. }
  destruct (errors_As_rcode err) as [code|] eqn:Hc; [|done].
  exists (FixedResponseStatus sent code). split; [right; by exists err, code|done].
Qed.

(** What an accepted response becomes. *)
Lemma finish_accepts c up sent question (options : DNSQueryOptions) subnet checker response now s r s' :
  finish_exchange c up sent question options subnet true checker response now s = (Some r, None, s') ->
  r = fix_edns sent (with_Id (msg_Id sent)
        (map_records (set_Ttl (response_ttl (qo_RewriteTTL options) response))
           (filter_https (q_Qtype question) (qo_Strategy options) response))) /\ s' = s /\
  (forall check, checker = Some check ->
     msg_Rcode response = RcodeSuccess /\ msg_Answer response <> [] /\
     check (MessageToAddresses response) = true).
Proof.
  unfold finish_exchange. rewrite response_ttl_filter. simpl. destruct checker as [check|].
  - destruct (Z.eqb_spec (msg_Rcode response) RcodeSuccess); simpl; [|done].
    destruct (msg_Answer response); simpl; [done|].
    destruct (check _) eqn:Hc; simpl; [|done]. intros [= <- <-]. split_and!; [done..|].
    by intros ? [= <-].
  - intros [= <- <-]. by split_and!.
Qed.

(** A response a check accepted, and what becomes of it; the cache keeps it
    unless it is off for the query. *)
Lemma finish_checked c up sent question (options : DNSQueryOptions) subnet disable check response now s r s' :
  finish_exchange c up sent question options subnet disable (Some check) response now s = (Some r, None, s') ->
  let ttl := response_ttl (qo_RewriteTTL options) response in
  r = fix_edns sent (with_Id (msg_Id sent)
        (map_records (set_Ttl ttl) (filter_https (q_Qtype question) (qo_Strategy options) response))) /\
  s' = (if disable then s else storeCache c (up_Tag up) question r ttl subnet now s) /\
  msg_Rcode response = RcodeSuccess /\ msg_Answer response <> [] /\ check (MessageToAddresses response) = true.
Proof.
  unfold finish_exchange. rewrite response_ttl_filter. simpl.
  destruct (Z.eqb_spec (msg_Rcode response) RcodeSuccess); simpl; [|done].
  destruct (msg_Answer response); simpl; [done|].
  destruct (check _) eqn:Hc; simpl; [|done]. rewrite orb_false_r. intros [= <- <-]. by split_and!.
Qed.

(** C36 (a response check is obeyed): a query with a response check that
    succeeds, with the cache on or off, is one without a question, which is a
    format error, or of a type its strategy excludes, which has no answer, or is
    answered from the cache; in every other case the transport gave the response:
    successful, not empty, with addresses the check accepted.  The addresses
    returned are all among them, and exactly them unless the question is of type
    HTTPS, and when the cache is on it keeps the answer. *)
Theorem accepted_answer_checked c ctx up message (options : DNSQueryOptions) check now s r s' :
  Client_Exchange c ctx up message options (Some check) now s = (Some r, None, s') ->
  match msg_Question message with
  | [] => r = FixedResponseStatus message RcodeFormatError /\ s' = s
  | question :: _ =>
      if strategy_rejects (qo_Strategy options) (q_Qtype question) then
        r = FixedResponseStatus message RcodeSuccess /\ s' = s
      else
        let sent := subnet_message c ctx message options in
        let subnet := cache_subnet c sent in
        let disabled := disable_cache c sent options in
        let '(cached, s1) := (if disabled then (None, s) else loadResponse c question (up_Tag up) subnet now s) in
        match cached with
        | Some (response, _) => r = with_Id (msg_Id message) response /\ s' = s1
        | None =>
            exists response, up_Exchange up sent = inl response /\
              msg_Rcode response = RcodeSuccess /\ msg_Answer response <> [] /\
              check (MessageToAddresses response) = true /\
              (forall a, a ∈ MessageToAddresses r -> a ∈ MessageToAddresses response) /\
              (q_Qtype question <> TypeHTTPS -> MessageToAddresses r = MessageToAddresses response) /\
              msg_Id r = msg_Id message /\
              s' = if disabled then s1
                   else storeCache c (up_Tag up) question r (response_ttl (qo_RewriteTTL options) response) subnet now s1
        end
  end.
Proof.
  unfold Client_Exchange. destruct (msg_Question message) as [|question qs]; [by intros [= <- <-]|].
  destruct (strategy_rejects _ _); [by intros [= <- <-]|]. intros He.
  set (sent := subnet_message c ctx message options) in *. set (subnet := cache_subnet c sent) in *.
  change (negb (isSimpleRequest c sent subnet) || cl_disableCache c || qo_DisableCache options)
    with (disable_cache c sent options) in He. set (disabled := disable_cache c sent options) in *.
  rewrite <- (subnet_message_Id c ctx message options). fold sent.
  destruct (if disabled then _ else _) as [cached s1]. destruct cached as [[response ?]|]; [by simplify_eq/=|].
  destruct (bool_decide _); [done|]. destruct (negb disabled && _ && _); [done|].
  destruct (up_Exchange up sent) as [response|err].
  - apply finish_checked in He as (-> & -> & Hrc & Hne & Hc).
    destruct (finish_sections sent question options response) as (Hid & _ & _ & Hin & Heq).
    exists response. by split_and!.
  - destruct (errors_As_rcode err) as [code|]; [|done]. by apply finish_checked in He as (_ & _ & _ & Hne & _).
Qed.

(** Without the cache, every answer and
    authority record of a returned answer carries the same time to live: the
    one the options dictate, otherwise, when the response has answers, a value
    no larger than any positive time to live of the response, otherwise, when
    it has none, the one of its SOA record if that is not zero. *)
Theorem answer_ttl_uniform c ctx up message (options : DNSQueryOptions) checker now s question qs response r s' :
  cl_disableCache c || qo_DisableCache options = true ->
  msg_Question message = question :: qs -> strategy_rejects (qo_Strategy options) (q_Qtype question) = false ->
  up_Exchange up (subnet_message c ctx message options) = inl response ->
  Forall (fun x => 0 <= hdr_Ttl x) (all_records response) ->
  Client_Exchange c ctx up message options checker now s = (Some r, None, s') ->
  exists ttl, Forall (fun x => hdr_Ttl x = ttl) (msg_Answer r ++ msg_Ns r) /\
    match qo_RewriteTTL options with
    | Some rewrite_ttl => ttl = rewrite_ttl
    | None =>
        (msg_Answer response <> [] ->
         forall x, x ∈ all_records response -> 0 < hdr_Ttl x -> 0 < ttl <= hdr_Ttl x) /\
        (forall negative, msg_Answer response = [] -> extractNegativeTTL (msg_Ns response) = Some negative ->
         negative <> 0 -> ttl = negative)
    end.
Proof.
  intros Hd Hq Hs Hup Hnn He.
  destruct (exchange_uncached _ _ _ _ _ _ _ _ _ _ _ _ Hd Hq Hs He) as (response' & Hor & Hf).
  destruct Hor as [Hup'|(err & code & Hup' & _)]; rewrite Hup in Hup'; [|done].
  injection Hup' as <-. apply finish_accepts in Hf as (-> & -> & _).
  destruct (finish_sections (subnet_message c ctx message options) question options response)
    as (_ & _ & Hf & _).
  eexists. split; [exact Hf|]. destruct (qo_RewriteTTL options) as [t|]; [done|]. split.
  - intros Hne. by apply response_ttl_bound.
  - intros negative Ha Hneg Hz. unfold response_ttl. rewrite Ha, Hneg. simpl.
    by rewrite (proj2 (Z.eqb_neq _ _) Hz).
Qed.
End exchange_theorems.

(** *** Lookups and the store of rejected answers *)

Section lookup_theorems.
Context `{DNSLib} `{!DNSLaws _}.

Lemma load_none c question tag subnet now s s1 :
  loadResponse c question tag subnet now s = (None, s1) ->
  cs_cache s1 !! cache_key c question tag subnet = None /\ cs_rdrc s1 = cs_rdrc s.
Proof.
  unfold loadResponse. destruct (cs_cache s !! _) as [e|] eqn:Hl; [|by intros [= <-]].
  destruct (ce_expireAt e) as [t|]; [|done]. destruct (t <? now); [|done].
  intros [= <-]. split; [apply lookup_delete_eq|done].
Qed.

Lemma load_absent c question tag subnet now s :
  cs_cache s !! cache_key c question tag subnet = None ->
  loadResponse c question tag subnet now s = (None, s).
Proof. intros Hk. unfold loadResponse. by rewrite Hk. Qed.

Lemma Masked_IsValid p : Prefix_IsValid p = true -> Prefix_IsValid (Masked p) = true.
Proof. unfold Masked. intros Hp. rewrite Hp. unfold Prefix_IsValid in *. by destruct (prefix_ip p). Qed.

(** An exchange returns a message or an error. *)
Lemma finish_some c up sent question (options : DNSQueryOptions) subnet dis checker response now s e s' :
  finish_exchange c up sent question options subnet dis checker response now s <> (None, e, s').
Proof. unfold finish_exchange. by destruct (match checker with Some _ => _ | None => _ end). Qed.

Lemma exchange_not_nil c ctx up message (options : DNSQueryOptions) checker now s s' :
  Client_Exchange c ctx up message options checker now s <> (None, None, s').
Proof.
  unfold Client_Exchange. destruct (msg_Question message) as [|question qs]; [done|].
  destruct (strategy_rejects _ _); [done|].
  destruct (if _ : bool then _ else _) as [[[? ?]|] s1]; [done|].
  destruct (bool_decide _); [done|]. destruct (_ && _ && _); [done|].
  destruct (up_Exchange _ _) as [?|err]; [apply finish_some|].
  destruct (errors_As_rcode err); [apply finish_some|done].
Qed.

Lemma finish_stores c up sent question (options : DNSQueryOptions) subnet checker resp now s response s1 e :
  finish_exchange c up sent question options subnet false checker resp now s = (Some response, None, s1) ->
  cs_cache s !! cache_key c question (up_Tag up) subnet = None ->
  cs_cache s1 !! cache_key c question (up_Tag up) subnet = Some e -> ce_message e = response.
Proof.
  unfold finish_exchange. destruct (match checker with Some _ => _ | None => _ end); [done|].
  intros [= <- <-] Hnone. destruct (negb _ && _); [congruence|].
  unfold storeCache. destruct (_ =? 0); [congruence|]. simpl. rewrite lookup_insert_eq. by intros [= <-].
Qed.

(** The key a lookup consults is the one its query is stored under, and the
    query may use the cache exactly when the lookup does. *)
Lemma lookup_cache_consistent c ctx question (options : DNSQueryOptions) :
  let subnet := resolveClientSubnet c ctx options in
  let sent := subnet_message c ctx (lookup_message question) options in
  (Prefix_IsValid subnet = true -> prefix_wf subnet) ->
  cl_disableCache c || qo_DisableCache options || Prefix_IsValid subnet && negb (cl_independentCache c) = false ->
  cache_subnet c sent = (if cl_independentCache c then Masked subnet else PrefixInvalid) /\
  disable_cache c sent options = false.
Proof.
  intros subnet sent Hwf Hd. apply orb_false_iff in Hd as [Hd Hv].
  assert (Hsub : cl_independentCache c = true -> ExtractClientSubnet sent =
            if Prefix_IsValid subnet then Some (Masked subnet) else None).
  { intros _. unfold sent, subnet_message. fold subnet. destruct (Prefix_IsValid subnet).
    - apply extract_set_client_subnet; [auto|simpl; lia].
    - unfold ExtractClientSubnet. by rewrite IsEdns0_last. }
  assert (Hkey : cache_subnet c sent = if cl_independentCache c then Masked subnet else PrefixInvalid).
  { unfold cache_subnet. destruct (cl_independentCache c); [|done]. rewrite Hsub by done.
    unfold Masked. by destruct (Prefix_IsValid subnet). }
  split; [done|]. unfold disable_cache. rewrite <- orb_assoc, Hd, orb_false_r, Hkey.
  unfold isSimpleRequest, sent, subnet_message. fold subnet.
  destruct (Prefix_IsValid subnet) eqn:Hp; [|done].
  simpl in Hv. apply negb_false_iff in Hv. rewrite Hv. simpl. by rewrite Masked_IsValid.
Qed.

(** Once a lookup found addresses and
    its answer was stored, the same lookup gives the same addresses, without
    asking any transport and whatever the response check, until the entry
    expires; for shared and for per-transport caches, with and without a client
    subnet. *)
Theorem lookup_repeats_from_cache c ctx up name qType (options : DNSQueryOptions) checker now s addrs s'
    e ctx' up' checker' now' :
  let question := {| q_Name := name; q_Qtype := qType; q_Qclass := ClassINET |} in
  let subnet := resolveClientSubnet c ctx options in
  let key := cache_key c question (up_Tag up)
               (if cl_independentCache c then Masked subnet else PrefixInvalid) in
  (Prefix_IsValid subnet = true -> prefix_wf subnet) ->
  cl_disableCache c || qo_DisableCache options || Prefix_IsValid subnet && negb (cl_independentCache c) = false ->
  cs_cache s !! key = None ->
  lookupToExchange c ctx up name qType options checker now s = ((addrs, None), s') ->
  cs_cache s' !! key = Some e ->
  match ce_expireAt e with Some expireAt => now' <= expireAt | None => True end ->
  up_Tag up' = up_Tag up -> resolveClientSubnet c ctx' options = subnet ->
  lookupToExchange c ctx' up' name qType options checker' now' s' = ((addrs, None), s').
Proof.
  intros question subnet key Hwf Hd Hnone Hl He Hexp Htag Hsub.
  destruct (lookup_cache_consistent c ctx question options Hwf Hd) as [Hkey Hdis].
  fold subnet in Hkey. set (sent := subnet_message c ctx (lookup_message question) options) in *.
  assert (Hans : msg_Rcode (ce_message e) = RcodeSuccess /\ MessageToAddresses (ce_message e) = addrs).
  { unfold lookupToExchange in Hl. fold question subnet in Hl. rewrite Hd in Hl.
    unfold questionCache in Hl. rewrite load_absent in Hl by done. simpl in Hl.
    destruct (Client_Exchange _ _ _ _ _ _ _ _) as [[[response|] [err|]] s1] eqn:Hx; try done.
    2: { by apply exchange_not_nil in Hx. }
    destruct (Z.eqb_spec (msg_Rcode response) RcodeSuccess) as [Hrc|]; [|done]. simpl in Hl.
    injection Hl as <- <-.
    unfold Client_Exchange in Hx. cbn [lookup_message msg_Question] in Hx. fold sent in Hx.
    fold (disable_cache c sent options) in Hx. rewrite Hdis in Hx.
    destruct (strategy_rejects _ _); [congruence|].
    rewrite Hkey, load_absent in Hx by done. cbn [negb andb] in Hx.
    destruct (bool_decide _); [done|].
    destruct (match checker with Some _ => true | None => false end && _); [done|].
    assert (Hfin : forall resp, finish_exchange c up sent question options
        (if cl_independentCache c then Masked subnet else PrefixInvalid) false checker resp now s =
        (Some response, None, s1) -> ce_message e = response).
    { intros resp Hf. by apply (finish_stores _ _ _ _ _ _ _ _ _ _ _ _ _ Hf). }
    destruct (up_Exchange up sent) as [resp|err]; [by rewrite (Hfin resp)|].
    destruct (errors_As_rcode err); [|done]. by rewrite (Hfin _ Hx). }
  destruct Hans as [Hrc Haddr].
  unfold lookupToExchange. rewrite Hsub, Hd. fold question. unfold questionCache, loadResponse.
  rewrite Htag. fold key. rewrite He.
  destruct (ce_expireAt e) as [expireAt|].
  - destruct (Z.ltb_spec expireAt now'); [lia|].
    destruct (age_message_addresses (Z.max 0 ((expireAt - now') / Second)) (ce_message e)) as [-> ->].
    rewrite Hrc, Haddr. done.
  - rewrite Hrc, Haddr. done.
Qed.
End lookup_theorems.

Section rejection_theorems.
Context `{DNSLib}.

(** A query answered from the cache: the transport, the response check and the
    store of rejected answers play no part. *)
Lemma exchange_cached c ctx up message (options : DNSQueryOptions) checker now s question qs m left s1 :
  msg_Question message = question :: qs -> strategy_rejects (qo_Strategy options) (q_Qtype question) = false ->
  let sent := subnet_message c ctx message options in
  disable_cache c sent options = false ->
  loadResponse c question (up_Tag up) (cache_subnet c sent) now s = (Some (m, left), s1) ->
  Client_Exchange c ctx up message options checker now s = (Some (with_Id (msg_Id message) m), None, s1).
Proof.
  intros Hq Hs sent Hd Hl. unfold Client_Exchange. rewrite Hq, Hs. fold sent.
  fold (disable_cache c sent options). rewrite Hd, Hl. unfold sent. by rewrite subnet_message_Id.
Qed.

(** When an answer the response check
    rejected could have been cached, the next query with a response check for
    the same question and transport fails with the cached rejection, without
    the transport being asked. *)
Theorem rejection_remembered c ctx up message (options : DNSQueryOptions) check now s question qs response
    rejections rejected s' ctx' up' check' now' :
  let sent := subnet_message c ctx message options in
  msg_Question message = question :: qs -> strategy_rejects (qo_Strategy options) (q_Qtype question) = false ->
  disable_cache c sent options = false -> cs_rdrc s = Some rejections ->
  (loadResponse c question (up_Tag up) (cache_subnet c sent) now s).1 = None ->
  up_Exchange up sent = inl response ->
  msg_Rcode response = RcodeSuccess \/ msg_Rcode response = RcodeNameError ->
  Client_Exchange c ctx up message options (Some check) now s = (Some rejected, Some ErrResponseRejected, s') ->
  up_Tag up' = up_Tag up -> resolveClientSubnet c ctx' options = resolveClientSubnet c ctx options ->
  qc_TransportTag ctx' <> Some (up_Tag up) ->
  Client_Exchange c ctx' up' message options (Some check') now' s' =
    (None, Some ErrResponseRejectedCached, s').
Proof.
  intros sent Hq Hs Hd Hr Hload Hup Hrc He Htag Hsub Hloop.
  destruct (loadResponse c question (up_Tag up) (cache_subnet c sent) now s) as [cached s1] eqn:Hl.
  simpl in Hload. subst cached. destruct (load_none _ _ _ _ _ _ _ Hl) as [Hnone Hr1]. rewrite Hr in Hr1.
  assert (Hs' : s' = with_rdrc (Some ({[ (up_Tag up, q_Name question, q_Qtype question) ]} ∪ rejections)) s1).
  { unfold Client_Exchange in He. rewrite Hq, Hs in He. fold sent in He.
    fold (disable_cache c sent options) in He. rewrite Hd, Hl, Hr1, Hup in He.
    destruct (bool_decide _); [done|]. destruct (_ && _ && _); [done|].
    unfold finish_exchange in He. destruct (if _ : bool then true else _); [|done]. simpl in He.
    rewrite Hr1 in He. destruct Hrc as [Hrc|Hrc]; rewrite Hrc in He; by injection He as <- <-. }
  assert (Hsent : subnet_message c ctx' message options = sent).
  { unfold sent, subnet_message. by rewrite Hsub. }
  unfold Client_Exchange. rewrite Hq, Hs, Hsent. fold (disable_cache c sent options). rewrite Hd, Htag.
  rewrite load_absent by (subst s'; exact Hnone). rewrite bool_decide_false by done.
  subst s'. simpl. by rewrite bool_decide_true by set_solver.
Qed.
End rejection_theorems.

(** *** Instances *)

Definition example_client (disableCache : bool) : Client :=
  {| cl_disableCache := disableCache; cl_disableExpire := false; cl_independentCache := true;
     cl_clientSubnet := PrefixInvalid; cl_clientSubnetFromInbound := None |}.
Definition example_question : Question :=
  {| q_Name := "example.com."; q_Qtype := TypeA; q_Qclass := ClassINET |}.
Definition example_record (ttl n : Z) : RR :=
  {| hdr_Name := "example.com."; hdr_Rrtype := TypeA; hdr_Class := ClassINET; hdr_Ttl := ttl;
     rr_Data := DataA (Addr4 n) |}.
Definition example_response : DMsg :=
  Build_Msg 0 true false true true 0 [example_question] [example_record 600 1; example_record 300 2] [] [].
Definition example_upstream : Upstream :=
  {| up_Tag := "remote"; up_Exchange := fun m => inl (with_Id (msg_Id m) example_response) |}.
(** A transport that never answers. *)
Definition dead_upstream : Upstream :=
  {| up_Tag := "remote"; up_Exchange := fun _ => inr (ErrNew "timeout") |}.
Definition example_options : DNSQueryOptions :=
  {| qo_Strategy := DomainStrategyAsIS; qo_LookupStrategy := DomainStrategyAsIS; qo_DisableCache := false;
     qo_RewriteTTL := None; qo_ClientSubnet := example_prefix; qo_ClientSubnetFromInbound := None |}.
Definition example_context : QueryContext := {| qc_Source := None; qc_TransportTag := None |}.
Definition empty_client : ClientState := {| cs_cache := ∅; cs_rdrc := Some ∅ |}.
Definition checked_query (disableCache : bool) (check : list Addr -> bool) :=
  @Client_Exchange concrete_dns (example_client disableCache) example_context example_upstream
    (lookup_message example_question) example_options (Some check) 0 empty_client.
Definition looked_up :=
  @lookupToExchange concrete_dns (example_client false) example_context example_upstream "example.com."
    TypeA example_options None 0 empty_client.

Lemma cached_answer_ages_witness :
  let m := map_records (set_Ttl 300) example_response in
  let s := storeCache (example_client false) "remote" example_question m 300 PrefixInvalid 0 empty_client in
  loadResponse (example_client false) example_question "remote" PrefixInvalid (100 * Second + 1) s =
    (Some (map_records (set_Ttl 199) m, 199), s).
Proof.
  intros m s.
  destruct (cached_answer_ages (example_client false) "remote" example_question m 300 PrefixInvalid 0
              empty_client (100 * Second + 1)) as [Hlive _].
  - reflexivity.
  - lia.
  - apply uniform_set_Ttl.
  - unfold Second. lia.
  - apply Hlive. unfold Second. lia.
Defined.

Lemma accepted_answer_checked_witness :
  exists response, up_Exchange example_upstream
    (@subnet_message (example_client true) example_context (lookup_message example_question) example_options) =
      inl response /\ MessageToAddresses response = [Addr4 1; Addr4 2].
Proof.
  destruct (@accepted_answer_checked concrete_dns (example_client true) example_context example_upstream
              (lookup_message example_question) example_options (fun l => (length l =? 2)%nat) 0 empty_client
              (map_records (set_Ttl 300) example_response) empty_client) as (r & Hr & _).
  - vm_compute. reflexivity.
  - exists r. split; [exact Hr|]. injection Hr as <-. reflexivity.
Defined.

(** An answer from the cache is not checked. *)
Example cached_answer_not_checked :
  let c := example_client false in
  let sent := lookup_message example_question in
  let s := (@Client_Exchange concrete_dns c example_context example_upstream sent example_options None 0 empty_client).2 in
  (@Client_Exchange concrete_dns c example_context example_upstream sent example_options (Some (fun _ => false)) 0 s).1.2 = None.
Proof. vm_compute. reflexivity. Qed.

Lemma answer_ttl_uniform_witness :
  exists ttl, Forall (fun x => hdr_Ttl x = ttl) (map (set_Ttl 300) (msg_Answer example_response)) /\
              0 < ttl <= 300.
Proof.
  destruct (@answer_ttl_uniform concrete_dns (example_client true) example_context example_upstream
              (lookup_message example_question) example_options None 0 empty_client
              example_question [] example_response
              (map_records (set_Ttl 300) example_response) empty_client) as (ttl & Hf & Hb & _).
  - reflexivity.
  - reflexivity.
  - reflexivity.
  - reflexivity.
  - repeat constructor; simpl; lia.
  - vm_compute. reflexivity.
  - exists ttl. split; [exact Hf|]. apply (Hb ltac:(done) (example_record 300 2)); [|done].
    vm_compute. set_solver.
Defined.

Lemma lookup_repeats_from_cache_witness :
  @lookupToExchange concrete_dns (example_client false) example_context dead_upstream "example.com."
    TypeA example_options (Some (fun _ => false)) (299 * Second) looked_up.2 =
    (([Addr4 1; Addr4 2], None), looked_up.2).
Proof.
  refine (@lookup_repeats_from_cache concrete_dns concrete_dns_laws (example_client false) example_context
            example_upstream "example.com." TypeA example_options None 0 empty_client [Addr4 1; Addr4 2] _
            _ example_context dead_upstream (Some (fun _ => false)) (299 * Second) _ _ _ _ _ _ _ _).
  - intros _. split; simpl; lia.
  - reflexivity.
  - reflexivity.
  - vm_compute. reflexivity.
  - vm_compute. reflexivity.
  - vm_compute. discriminate.
  - reflexivity.
  - reflexivity.
Defined.

Definition example_rejected : ClientState :=
  with_rdrc (Some {[ ("remote", "example.com.", TypeA) ]}) empty_client.

Lemma rejection_remembered_witness :
  @Client_Exchange concrete_dns (example_client false) example_context dead_upstream
    (lookup_message example_question) example_options (Some (fun _ => true)) 1
    (checked_query false (fun _ => false)).2 =
    (None, Some ErrResponseRejectedCached, (checked_query false (fun _ => false)).2).
Proof.
  refine (@rejection_remembered concrete_dns (example_client false) example_context example_upstream
            (lookup_message example_question) example_options (fun _ => false) 0 empty_client
            example_question [] example_response ∅ example_response _ example_context dead_upstream
            (fun _ => true) 1 _ _ _ _ _ _ _ _ _ _ _).
  - reflexivity.
  - reflexivity.
  - vm_compute. reflexivity.
  - reflexivity.
  - vm_compute. reflexivity.
  - reflexivity.
  - by left.
  - vm_compute. reflexivity.
  - reflexivity.
  - reflexivity.
  - discriminate.
Defined.

(** *** Behaviours worth knowing *)

(** An answer cached by a query without a response check is served to a query
    whose check rejects it. *)
Example cached_answer_skips_check :
  (@Client_Exchange concrete_dns (example_client false) example_context dead_upstream
     (lookup_message example_question) example_options (Some (fun _ => false)) 1
     (@Client_Exchange concrete_dns (example_client false) example_context example_upstream
        (lookup_message example_question) example_options None 0 empty_client).2).1 =
  (Some (map_records (set_Ttl 299) example_response), None).
Proof. vm_compute. reflexivity. Qed.

Definition opt_record (ttl : Z) : RR :=
  {| hdr_Name := "."; hdr_Rrtype := TypeOPT; hdr_Class := 1232; hdr_Ttl := ttl; rr_Data := DataOPT [] |}.
Definition edns_query : DMsg := with_Extra [opt_record 0] (lookup_message example_question).
Definition edns_upstream (ttl : Z) : Upstream :=
  {| up_Tag := "remote";
     up_Exchange := fun m => inl (Build_Msg (msg_Id m) true false true true 0 [example_question]
                                    [example_record ttl 1] [] [opt_record 0]) |}.
Definition plain_options : DNSQueryOptions :=
  {| qo_Strategy := DomainStrategyAsIS; qo_LookupStrategy := DomainStrategyAsIS; qo_DisableCache := false;
     qo_RewriteTTL := None; qo_ClientSubnet := PrefixInvalid; qo_ClientSubnetFromInbound := None |}.
Definition edns_answer (ttl : Z) :=
  @Client_Exchange concrete_dns (example_client false) example_context (edns_upstream ttl)
    edns_query plain_options None 0 empty_client.

(** The OPT record of an answer, whose TTL field holds the EDNS version and
    flags, gets the TTL of the answer. *)
Example opt_record_gets_ttl :
  option_map msg_Extra (edns_answer 300).1.1 = Some [opt_record 300].
Proof. vm_compute. reflexivity. Qed.

(** With a TTL of 65536 or more it reads as a later EDNS version and is
    replaced by a fresh one with flags zero, which wraps in the cache. *)
Example opt_record_wraps_in_cache :
  option_map msg_Extra (edns_answer 86400).1.1 = Some [opt_record 0] /\
  option_map msg_Extra
    (@Client_Exchange concrete_dns (example_client false) example_context dead_upstream
       edns_query plain_options None Second (edns_answer 86400).2).1.1 = Some [opt_record 4294967295].
Proof. split; vm_compute; reflexivity. Qed.
