(* ===== verification/DnsRouter.v ===== *)
(** * dns/router.go: the DNS router

    Which servers answer a query: the walk over the DNS rules, the race of the
    servers of a rule, the retry with the next rule when an answer is rejected,
    and the reverse mapping of answers.  The goroutines of a race are a
    schedule of events: a query finishes, a query fails, the context of the
    whole race ends.  Each query runs when it finishes; a query that never
    reports before the race ends has no effect.  Theorems hold for every
    schedule. *)

From stdpp Require Import base list strings gmap.
From Stdlib Require Import ZArith Lia.
From S2P Require Import Prelude GoStd External Adapter RuleAbstract RuleTree RuleMatch RuleAction RuleBuild DnsMsg DnsClient.

Open Scope Z_scope.
Open Scope box_scope.

(** ** Transports *)

Definition DNSTypeFakeIP : string := "fakeip".

(** [adapter.DNSTransport]; with a strategy and a subnet of its own when it is
    an [adapter.LegacyDNSTransport]. *)
Record DNSTransport : Type := {
  tr_Upstream : Upstream;
  tr_Type : string;
  tr_Legacy : option (DomainStrategy * Prefix)
}.

Definition tr_Tag (t : DNSTransport) : string := up_Tag (tr_Upstream t).
Definition is_fakeip (t : DNSTransport) : bool := bool_decide (tr_Type t = DNSTypeFakeIP).

(** What the router asks of the transport manager. *)
Record DNSTransportManager : Type := {
  tm_Transport : string -> option DNSTransport;
  tm_Default : option DNSTransport
}.

(** ** Rules, as the router sees them ([adapter.DNSRule]) *)

Class DNSRuleOps (R : Type) : Type := {
  rule_Action : R -> option (DNSAction RR);
  rule_WithAddressLimit : R -> bool;
  rule_Match : R -> InboundContext -> bool * InboundContext;
  rule_MatchAddressLimit : R -> InboundContext -> bool * InboundContext
}.

(** A match answers for the request and keeps it. *)
Class DNSRuleLaws (R : Type) `{DNSRuleOps R} : Prop := {
  rule_Match_frame : forall r m, IgnoreDestinationIPCIDRMatch (cache m) = false ->
    match_frame m (rule_Match r m).2
}.

(** The rules of route/rule. *)
#[global] Instance tree_rule_ops `{External} (h : Host) (sets : RuleSetTable) :
    DNSRuleOps (Rule (option (DNSAction RR))) := {
  rule_Action := Rule_Action;
  rule_WithAddressLimit := WithAddressLimit sets;
  rule_Match := DNSRule_Match h sets;
  rule_MatchAddressLimit := DNSRule_MatchAddressLimit h sets }.

#[global] Instance tree_rule_laws `{External} (h : Host) (sets : RuleSetTable) :
    @DNSRuleLaws _ (tree_rule_ops h sets).
Proof. constructor. intros r m Hm. by apply DNSRule_Match_frame. Qed.

(** ** The router *)

Record Router (R : Type) : Type := {
  rt_transport : DNSTransportManager;
  rt_client : Client;
  rt_rules : list R;
  rt_defaultDomainStrategy : DomainStrategy;
  rt_upstreamTimeout : Z;
  rt_fallbackTimeout : Z;
  rt_fallbackGrace : Z;
  rt_serverClientSubnetFromInbound : gmap string ClientSubnetFromInboundOptions
}.
Arguments rt_transport {R}.
Arguments rt_client {R}.
Arguments rt_rules {R}.
Arguments rt_defaultDomainStrategy {R}.
Arguments rt_upstreamTimeout {R}.
Arguments rt_fallbackTimeout {R}.
Arguments rt_fallbackGrace {R}.
Arguments rt_serverClientSubnetFromInbound {R}.

(** The state of the router: the client's, the reverse mapping when it is
    enabled, with the expiry of its entries, and the drop counters of the
    reject actions. *)
Record RouterState : Type := {
  rs_client : ClientState;
  rs_reverse : option (gmap Addr (string * Z));
  rs_drops : gmap nat (list Z)
}.
Definition with_client (c : ClientState) (s : RouterState) : RouterState :=
  {| rs_client := c; rs_reverse := rs_reverse s; rs_drops := rs_drops s |}.
Definition with_reverse (m : option (gmap Addr (string * Z))) (s : RouterState) : RouterState :=
  {| rs_client := rs_client s; rs_reverse := m; rs_drops := rs_drops s |}.
Definition with_drops (d : gmap nat (list Z)) (s : RouterState) : RouterState :=
  {| rs_client := rs_client s; rs_reverse := rs_reverse s; rs_drops := d |}.

(** *** Query options *)

Definition set_Strategy (v : DomainStrategy) (o : DNSQueryOptions) : DNSQueryOptions :=
  Build_DNSQueryOptions v (qo_LookupStrategy o) (qo_DisableCache o) (qo_RewriteTTL o)
    (qo_ClientSubnet o) (qo_ClientSubnetFromInbound o).
Definition set_DisableCache (v : bool) (o : DNSQueryOptions) : DNSQueryOptions :=
  Build_DNSQueryOptions (qo_Strategy o) (qo_LookupStrategy o) v (qo_RewriteTTL o)
    (qo_ClientSubnet o) (qo_ClientSubnetFromInbound o).
Definition set_ClientSubnet (v : Prefix) (o : DNSQueryOptions) : DNSQueryOptions :=
  Build_DNSQueryOptions (qo_Strategy o) (qo_LookupStrategy o) (qo_DisableCache o) (qo_RewriteTTL o)
    v (qo_ClientSubnetFromInbound o).
Definition set_SubnetFromInbound (v : option ClientSubnetFromInboundOptions) (o : DNSQueryOptions)
    : DNSQueryOptions :=
  Build_DNSQueryOptions (qo_Strategy o) (qo_LookupStrategy o) (qo_DisableCache o) (qo_RewriteTTL o)
    (qo_ClientSubnet o) v.

(** The options an action sets; the others stay. *)
Definition merge_options (force_no_cache : bool) (a : RuleActionDNSRouteOptions) (o : DNSQueryOptions)
    : DNSQueryOptions :=
  {| qo_Strategy := if decide (dr_Strategy a = DomainStrategyAsIS) then qo_Strategy o else dr_Strategy a;
     qo_LookupStrategy := qo_LookupStrategy o;
     qo_DisableCache := force_no_cache || dr_DisableCache a || qo_DisableCache o;
     qo_RewriteTTL := match dr_RewriteTTL a with Some t => Some t | None => qo_RewriteTTL o end;
     qo_ClientSubnet := if Prefix_IsValid (dr_ClientSubnet a) then dr_ClientSubnet a else qo_ClientSubnet o;
     qo_ClientSubnetFromInbound :=
       match dr_ClientSubnetFromInbound a with Some f => Some f | None => qo_ClientSubnetFromInbound o end |}.

(** A transport configured in the old way brings a strategy and a subnet. *)
Definition legacy_options (t : DNSTransport) (o : DNSQueryOptions) : DNSQueryOptions :=
  match tr_Legacy t with
  | None => o
  | Some (strategy, subnet) =>
      let o := if decide (qo_Strategy o = DomainStrategyAsIS) then set_Strategy strategy o else o in
      if Prefix_IsValid (qo_ClientSubnet o) then o else set_ClientSubnet subnet o
  end.
Definition single_legacy_options (transports : list DNSTransport) (o : DNSQueryOptions) : DNSQueryOptions :=
  match transports with [t] => legacy_options t o | _ => o end.

Definition default_strategy (d : DomainStrategy) (o : DNSQueryOptions) : DNSQueryOptions :=
  if decide (qo_Strategy o = DomainStrategyAsIS) then set_Strategy d o else o.

(** *** The servers of a route action *)

(** The transports of a list of tags, each once, and whether one of them is a
    fake-IP transport. *)
Fixpoint select_servers (tm : DNSTransportManager) (allowFakeIP : bool) (tags seen : list string)
    : list DNSTransport * bool :=
  match tags with
  | [] => ([], false)
  | tag :: tags =>
      if bool_decide (tag = "") || bool_decide (tag ∈ seen) then select_servers tm allowFakeIP tags seen
      else
        let '(ts, fake) := select_servers tm allowFakeIP tags (tag :: seen) in
        match tm_Transport tm tag with
        | None => (ts, fake)
        | Some t =>
            if is_fakeip t then (if allowFakeIP then t :: ts else ts, true) else (t :: ts, fake)
        end
  end.

(** ** matchDNS *)

Record MatchResult (R : Type) : Type := {
  mr_transports : list DNSTransport;
  mr_fallback : list DNSTransport;
  mr_upstreamTimeout : Z;
  mr_fallbackTimeout : Z;
  mr_fallbackGrace : Z;
  mr_rule : option (nat * R)
}.
Arguments mr_transports {R}.
Arguments mr_fallback {R}.
Arguments mr_upstreamTimeout {R}.
Arguments mr_fallbackTimeout {R}.
Arguments mr_fallbackGrace {R}.
Arguments mr_rule {R}.

Section router.
Context {R : Type} `{DNSRuleOps R} (r : Router R).

Definition router_result (transports : list DNSTransport) (rule : option (nat * R)) : MatchResult R :=
  {| mr_transports := transports; mr_fallback := []; mr_upstreamTimeout := rt_upstreamTimeout r;
     mr_fallbackTimeout := rt_fallbackTimeout r; mr_fallbackGrace := rt_fallbackGrace r; mr_rule := rule |}.

Definition or_zero (v d : Z) : Z := if v =? 0 then d else v.

(** The servers, timeouts and options of a route action that has a usable
    server. *)
Definition route_result (allowFakeIP : bool) (index : nat) (rule : R) (action : RuleActionDNSRoute)
    (options : DNSQueryOptions) : option (MatchResult R * DNSQueryOptions) :=
  let '(transports, fake) := select_servers (rt_transport r) allowFakeIP (Servers action) [] in
  match transports with
  | [] => None
  | _ =>
      let '(fallbackTransports, fallback_fake) :=
        select_servers (rt_transport r) allowFakeIP (FallbackServers action) [] in
      let options := single_legacy_options transports
                       (merge_options (fake || fallback_fake) (dr_options action) options) in
      let upstreamTimeout := or_zero (UpstreamTimeout action) (rt_upstreamTimeout r) in
      Some ({| mr_transports := transports; mr_fallback := fallbackTransports;
               mr_upstreamTimeout := upstreamTimeout;
               mr_fallbackTimeout :=
                 or_zero (or_zero (FallbackTimeout action) (rt_fallbackTimeout r)) upstreamTimeout;
               mr_fallbackGrace := or_zero (FallbackGrace action) (rt_fallbackGrace r);
               mr_rule := Some (index, rule) |}, options)
  end.

(** What a matching rule does: end the walk, or go on with other options. *)
Definition apply_rule (allowFakeIP : bool) (index : nat) (rule : R) (options : DNSQueryOptions)
    : option (MatchResult R) * DNSQueryOptions :=
  match rule_Action rule with
  | Some (DNSActRoute action) =>
      match route_result allowFakeIP index rule action options with
      | Some (result, options) => (Some result, options)
      | None => (None, options)
      end
  | Some (DNSActRouteOptions action) => (None, merge_options false action options)
  | Some (DNSActReject _) | Some (DNSActPredefined _ _ _ _) =>
      (Some (router_result [] (Some (index, rule))), options)
  | None => (None, options)
  end.

Definition default_result : MatchResult R :=
  router_result (match tm_Default (rt_transport r) with Some t => [t] | None => [] end) None.

Fixpoint match_from (allowFakeIP isAddressQuery : bool) (index : nat) (rules : list R)
    (m : InboundContext) (options : DNSQueryOptions) : MatchResult R * DNSQueryOptions * InboundContext :=
  match rules with
  | [] => (default_result, options, m)
  | rule :: rules =>
      if rule_WithAddressLimit rule && negb isAddressQuery then
        match_from allowFakeIP isAddressQuery (S index) rules m options
      else
        let '(matched, m) := rule_Match rule (ResetRuleCache m) in
        if matched then
          match apply_rule allowFakeIP index rule options with
          | (Some result, options) => (result, options, m)
          | (None, options) => match_from allowFakeIP isAddressQuery (S index) rules m options
          end
        else match_from allowFakeIP isAddressQuery (S index) rules m options
  end.

(** [ruleIndex] is the rule the previous walk ended with; -1, here nothing,
    starts at the first rule. *)
Definition matchDNS (allowFakeIP : bool) (ruleIndex : option nat) (isAddressQuery : bool)
    (m : InboundContext) (options : DNSQueryOptions) : MatchResult R * DNSQueryOptions * InboundContext :=
  let start := match ruleIndex with Some i => S i | None => O end in
  match_from allowFakeIP isAddressQuery start (drop start (rt_rules r)) m options.

Definition applyServerQueryOptions (t : DNSTransport) (o : DNSQueryOptions) : DNSQueryOptions :=
  if Prefix_IsValid (qo_ClientSubnet o) then o
  else match qo_ClientSubnetFromInbound o with
       | Some _ => o
       | None => match rt_serverClientSubnetFromInbound r !! tr_Tag t with
                 | Some f => set_SubnetFromInbound (Some f) o
                 | None => o
                 end
       end.

(** ** Races *)

(** A query of a race: its transport and options. *)
Definition query : Type := DNSTransport * DNSQueryOptions.

(** [Finished k now]: the pending query [k] ends at [now] with what the client
    answers; [Failed k e]: it ends with an error of its own, such as its
    timeout; [ContextDone e]: the context of the race ends. *)
Inductive event : Type :=
  | Finished (k : nat) (now : Z)
  | Failed (k : nat) (err : error)
  | ContextDone (err : error).

Record ExchangeAcc : Type := {
  ac_fallback : option (DMsg * DNSTransport);
  ac_errors : list error;
  ac_allRejected : bool;
  ac_allRejectedOnly : bool
}.
Definition ExchangeAccZero : ExchangeAcc :=
  {| ac_fallback := None; ac_errors := []; ac_allRejected := true; ac_allRejectedOnly := true |}.

Definition note_response (response : DMsg) (t : DNSTransport) (a : ExchangeAcc) : ExchangeAcc :=
  {| ac_fallback := match ac_fallback a with Some f => Some f | None => Some (response, t) end;
     ac_errors := ac_errors a; ac_allRejected := ac_allRejected a;
     ac_allRejectedOnly := ac_allRejectedOnly a |}.

Definition note_error (err : error) (a : ExchangeAcc) : ExchangeAcc :=
  let cached := errors_Is err ErrResponseRejectedCached in
  {| ac_fallback := ac_fallback a; ac_errors := ac_errors a ++ [err];
     ac_allRejected := ac_allRejected a && (cached || errors_Is err ErrResponseRejected);
     ac_allRejectedOnly := ac_allRejectedOnly a && cached |}.

Definition race_result : Type := option (DMsg * DNSTransport) * option error.

(** The result when every query has reported. *)
Definition finish_race (a : ExchangeAcc) : race_result :=
  match ac_fallback a with
  | Some f => (Some f, None)
  | None =>
      (None, if ac_allRejectedOnly a then Some ErrResponseRejectedCached
             else if ac_allRejected a then Some ErrResponseRejected
             else E_Errors (ac_errors a))
  end.

Context `{DNSLib}.

(** One goroutine: [client.Exchange] on a copy of the message. *)
Definition run_query (ctx : QueryContext) (message : DMsg) (check : option (list Addr -> bool))
    (q : query) (now : Z) (s : ClientState) : option DMsg * option error * ClientState :=
  Client_Exchange (rt_client r) ctx (tr_Upstream q.1) message (applyServerQueryOptions q.1 q.2) check now s.

(** The loop that collects the results of [exchangeRacer] and
    [exchangeHedgedRacer]; nothing when the schedule ends before it does. *)
Fixpoint collect_exchange (ctx : QueryContext) (message : DMsg) (check : option (list Addr -> bool))
    (events : list event) (pending : list query) (a : ExchangeAcc) (s : ClientState)
    : option (race_result * ClientState) :=
  match pending with
  | [] => Some (finish_race a, s)
  | _ =>
      match events with
      | [] => None
      | ContextDone err :: _ =>
          Some (match ac_fallback a with Some f => (Some f, None) | None => (None, Some err) end, s)
      | Failed k err :: events =>
          match pending !! k with
          | None => collect_exchange ctx message check events pending a s
          | Some _ =>
              collect_exchange ctx message check events (delete k pending) (note_error err a) s
          end
      | Finished k now :: events =>
          match pending !! k with
          | None => collect_exchange ctx message check events pending a s
          | Some q =>
              match run_query ctx message check q now s with
              | (_, Some err, s) =>
                  collect_exchange ctx message check events (delete k pending) (note_error err a) s
              | (Some response, None, s) =>
                  if msg_Rcode response =? RcodeSuccess then Some ((Some (response, q.1), None), s)
                  else collect_exchange ctx message check events (delete k pending)
                         (note_response response q.1 a) s
              | (None, None, s) => collect_exchange ctx message check events (delete k pending) a s
              end
          end
      end
  end.

Definition queries (transports : list DNSTransport) (options : DNSQueryOptions) : list query :=
  map (fun t => (t, options)) transports.

(** The check of a rule with an address limit on the addresses of an answer. *)
Definition response_check (rule : option (nat * R)) (m : InboundContext) : option (list Addr -> bool) :=
  match rule with
  | Some (_, rule) =>
      if rule_WithAddressLimit rule
      then Some (fun addrs => (rule_MatchAddressLimit rule (phase2_context addrs m)).1) else None
  | None => None
  end.

(** The options of the primary and of the fallback queries.  Unless the cache
    is independent, racing queries bypass it. *)
Definition hedged (result : MatchResult R) : bool :=
  (0 <? mr_upstreamTimeout result) && (0 <? length (mr_fallback result))%nat.

Definition primary_options (result : MatchResult R) (o : DNSQueryOptions) : DNSQueryOptions :=
  let o := default_strategy (rt_defaultDomainStrategy r) (single_legacy_options (mr_transports result) o) in
  if negb (cl_independentCache (rt_client r)) && (1 <? length (mr_transports result))%nat
  then set_DisableCache true o else o.

Definition fallback_options (result : MatchResult R) (o : DNSQueryOptions) : DNSQueryOptions :=
  let o := default_strategy (rt_defaultDomainStrategy r) (single_legacy_options (mr_fallback result) o) in
  if negb (cl_independentCache (rt_client r)) && hedged result then set_DisableCache true o else o.

(** All queries of a race; the fallback servers take part only when there is an
    upstream timeout. *)
Definition race_queries (result : MatchResult R) (o : DNSQueryOptions) : list query :=
  queries (mr_transports result) (primary_options result o) ++
  (if hedged result then queries (mr_fallback result) (fallback_options result o) else []).

Definition exchangeRacer (ctx : QueryContext) (transports : list DNSTransport) (message : DMsg)
    (options : DNSQueryOptions) (check : option (list Addr -> bool)) (events : list event) (s : ClientState)
    : option (race_result * ClientState) :=
  collect_exchange ctx message check events (queries transports options) ExchangeAccZero s.

(** Fallback queries start after the upstream timeout and end with a timeout of
    their own; both show in the schedule only. *)
Definition exchangeHedgedRacer (ctx : QueryContext) (primary fallback : list DNSTransport) (message : DMsg)
    (primaryOptions fallbackOptions : DNSQueryOptions) (check : option (list Addr -> bool))
    (events : list event) (s : ClientState) : option (race_result * ClientState) :=
  collect_exchange ctx message check events
    (queries primary primaryOptions ++ queries fallback fallbackOptions) ExchangeAccZero s.

Definition exchange_race (ctx : QueryContext) (result : MatchResult R) (message : DMsg) (o : DNSQueryOptions)
    (check : option (list Addr -> bool)) (events : list event) (s : ClientState)
    : option (race_result * ClientState) :=
  if hedged result then
    exchangeHedgedRacer ctx (mr_transports result) (mr_fallback result) message (primary_options result o)
      (fallback_options result o) check events s
  else exchangeRacer ctx (mr_transports result) message (primary_options result o) check events s.

Lemma exchange_race_collect ctx result message o check events s :
  exchange_race ctx result message o check events s =
  collect_exchange ctx message check events (race_queries result o) ExchangeAccZero s.
Proof.
  unfold exchange_race, race_queries, exchangeHedgedRacer, exchangeRacer.
  destruct (hedged result); [done|]. by rewrite app_nil_r.
Qed.

(** ** Exchange *)

(** How the loop over the rules ends: with an answer of the rule itself, or
    with the result of a race. *)
Inductive loop_exit : Type :=
  | LoopReturn (answer : res DMsg)
  | LoopBreak (result : race_result).

(** The answers rules give without asking a server. *)
Definition refused_response (message : DMsg) (question : Question) : DMsg :=
  Build_Msg (msg_Id message) true false false false RcodeRefused [question] [] [] [].

Definition rule_answer (rule : option (nat * R)) (message : DMsg) (question : Question) : option (res DMsg) :=
  match rule with
  | None => None
  | Some (_, rule) =>
      match rule_Action rule with
      | Some (DNSActReject a) =>
          if decide (rej_Method a = RuleActionRejectMethodDefault) then
            Some (Ok (refused_response message question))
          else if decide (rej_Method a = RuleActionRejectMethodDrop) then Some (Err ErrDrop)
          else None
      | Some (DNSActPredefined rcode answer ns extra) =>
          Some (Predefined_Response rcode answer ns extra message)
      | _ => None
      end
  end.

Definition is_rejected (e : option error) : bool :=
  match e with
  | None => false
  | Some e => errors_Is e ErrResponseRejectedCached || errors_Is e ErrResponseRejected
  end.

Definition with_limit (rule : option (nat * R)) : bool :=
  match rule with Some (_, rule) => rule_WithAddressLimit rule | None => false end.

(** The loop of [Router.Exchange]; [sched] gives the events of each round.  The
    context of the response checks is the copy made before the rules were
    walked. *)
Fixpoint exchange_loop (tag : option string) (message : DMsg) (question : Question)
    (options : DNSQueryOptions) (sched : nat -> list event) (fuel round : nat)
    (ruleIndex : option nat) (m : InboundContext) (s : ClientState)
    : option (loop_exit * ClientState) :=
  match fuel with
  | O => None
  | S fuel =>
      let '(result, dnsOptions, m') := matchDNS true ruleIndex (isAddressQuery message) m options in
      match rule_answer (mr_rule result) message question with
      | Some answer => Some (LoopReturn answer, s)
      | None =>
          let ctx := {| qc_Source := Some (sa_Addr (Source m)); qc_TransportTag := tag |} in
          match exchange_race ctx result message dnsOptions (response_check (mr_rule result) m)
                  (sched round) s with
          | None => None
          | Some (race, s) =>
              if with_limit (mr_rule result) && is_rejected race.2 then
                exchange_loop tag message question options sched fuel (S round)
                  (fst <$> mr_rule result) m' s
              else Some (LoopBreak race, s)
          end
      end
  end.

Definition query_metadata (question : Question) (m : InboundContext) : InboundContext :=
  let qtype := q_Qtype question in
  with_Domain (FqdnToDomain (q_Name question))
    (with_IPVersion (if qtype =? TypeA then 4 else if qtype =? TypeAAAA then 6 else IPVersion m)
       (with_QueryType qtype (with_Destination SocksaddrZero m))).

(** [dnsReverseMapping.AddWithLifetime] for every address of the answer. *)
Definition remember (now : Z) (record : RR) (mapping : gmap Addr (string * Z)) : gmap Addr (string * Z) :=
  match ip_record record with
  | Some ip => <[ip := (FqdnToDomain (hdr_Name record), now + hdr_Ttl record * Second)]> mapping
  | None => mapping
  end.
Definition remember_answers (now : Z) (records : list RR) (mapping : gmap Addr (string * Z))
    : gmap Addr (string * Z) :=
  fold_left (fun mapping record => remember now record mapping) records mapping.

Definition update_reverse (now : Z) (race : race_result) (s : RouterState) : RouterState :=
  match race.1, rs_reverse s with
  | Some (response, t), Some mapping =>
      if is_fakeip t then s
      else with_reverse (Some (remember_answers now (msg_Answer response) mapping)) s
  | _, _ => s
  end.

(** The end of [Router.Exchange]. *)
Definition exchange_end (now : Z) (race : race_result) (s : RouterState)
    : res (option DMsg) * RouterState :=
  match race.2 with
  | Some err => (Err err, s)
  | None => (Ok (fst <$> race.1), update_reverse now race s)
  end.

Definition bad_question_response (message : DMsg) : DMsg :=
  Build_Msg (msg_Id message) true false false false RcodeFormatError (msg_Question message) [] [] [].

(** The options of a query with a transport of its own. *)
Definition direct_options (t : DNSTransport) (o : DNSQueryOptions) : DNSQueryOptions :=
  applyServerQueryOptions t (default_strategy (rt_defaultDomainStrategy r) (legacy_options t o)).

(** [Router.Exchange]: [now] is the time of a direct query and of the reverse
    mapping. *)
Definition Router_Exchange (tag : option string) (m : option InboundContext) (message : DMsg)
    (transport : option DNSTransport) (options : DNSQueryOptions) (sched : nat -> list event) (now : Z)
    (s : RouterState) : option (res (option DMsg) * RouterState) :=
  match msg_Question message with
  | [question] =>
      let m := query_metadata question (default InboundContextZero m) in
      match transport with
      | Some t =>
          let ctx := {| qc_Source := Some (sa_Addr (Source m)); qc_TransportTag := tag |} in
          let '(response, err, c) :=
            Client_Exchange (rt_client r) ctx (tr_Upstream t) message (direct_options t options) None now
              (rs_client s) in
          Some (exchange_end now ((fun x => (x, t)) <$> response, err) (with_client c s))
      | None =>
          match exchange_loop tag message question options sched (S (length (rt_rules r))) 0 None m
                  (rs_client s) with
          | None => None
          | Some (LoopReturn (Ok response), c) => Some (Ok (Some response), with_client c s)
          | Some (LoopReturn (Err err), c) => Some (Err err, with_client c s)
          | Some (LoopReturn (Panic msg), c) => Some (Panic msg, with_client c s)
          | Some (LoopBreak race, c) => Some (exchange_end now race (with_client c s))
          end
      end
  | _ => Some (Ok (Some (bad_question_response message)), s)
  end.

Definition LookupReverseMapping (ip : Addr) (now : Z) (s : RouterState) : option string :=
  match rs_reverse s with
  | None => None
  | Some mapping =>
      match mapping !! ip with
      | Some (domain, expire) => if expire <? now then None else Some domain
      | None => None
      end
  end.

(** ** Lookup *)

Definition empty_result : error := ErrNew "empty result".

(** [&R.RejectedError{Cause: cause}] *)
Definition RejectedError (cause : error) : error := ErrCause cause "rejected".
Definition reject_error (rejection : Rejection) : error :=
  RejectedError (match rejection with
                 | RejectRefused => ErrNew "connection refused"
                 | RejectDrop => ErrDrop
                 end).

Definition lookup_result : Type := list Addr * option error.

(** One goroutine of [lookupRacer]: no address is an error. *)
Definition run_lookup (ctx : QueryContext) (domain : string) (check : option (list Addr -> bool))
    (q : query) (now : Z) (s : ClientState) : lookup_result * ClientState :=
  let '((addrs, err), s) := Client_Lookup (rt_client r) ctx (tr_Upstream q.1) domain
                              (applyServerQueryOptions q.1 q.2) check now s in
  match err, addrs with
  | None, [] => (([], Some empty_result), s)
  | _, _ => ((addrs, err), s)
  end.

(** The loop that collects the results of [lookupRacer] and
    [lookupHedgedRacer]: the first success, or the first result of all. *)
Fixpoint collect_lookup (ctx : QueryContext) (domain : string) (check : option (list Addr -> bool))
    (events : list event) (pending : list query) (first : option lookup_result) (errors : list error)
    (s : ClientState) : option (lookup_result * ClientState) :=
  match pending with
  | [] => Some (default ([], E_Errors errors) first, s)
  | _ =>
      match events with
      | [] => None
      | ContextDone err :: _ => Some (default ([], Some err) first, s)
      | Failed k err :: events =>
          match pending !! k with
          | None => collect_lookup ctx domain check events pending first errors s
          | Some _ =>
              collect_lookup ctx domain check events (delete k pending)
                (Some (default ([], Some err) first)) (errors ++ [err]) s
          end
      | Finished k now :: events =>
          match pending !! k with
          | None => collect_lookup ctx domain check events pending first errors s
          | Some q =>
              match run_lookup ctx domain check q now s with
              | ((addrs, None), s) => Some ((addrs, None), s)
              | ((addrs, Some err), s) =>
                  collect_lookup ctx domain check events (delete k pending)
                    (Some (default (addrs, Some err) first)) (errors ++ [err]) s
              end
          end
      end
  end.

Definition lookupRacer (ctx : QueryContext) (transports : list DNSTransport) (domain : string)
    (options : DNSQueryOptions) (check : option (list Addr -> bool)) (events : list event) (s : ClientState)
    : option (lookup_result * ClientState) :=
  collect_lookup ctx domain check events (queries transports options) None [] s.

Definition lookupHedgedRacer (ctx : QueryContext) (primary fallback : list DNSTransport) (domain : string)
    (primaryOptions fallbackOptions : DNSQueryOptions) (check : option (list Addr -> bool))
    (events : list event) (s : ClientState) : option (lookup_result * ClientState) :=
  collect_lookup ctx domain check events
    (queries primary primaryOptions ++ queries fallback fallbackOptions) None [] s.

Definition lookup_race (ctx : QueryContext) (result : MatchResult R) (domain : string) (o : DNSQueryOptions)
    (check : option (list Addr -> bool)) (events : list event) (s : ClientState)
    : option (lookup_result * ClientState) :=
  if hedged result then
    lookupHedgedRacer ctx (mr_transports result) (mr_fallback result) domain (primary_options result o)
      (fallback_options result o) check events s
  else lookupRacer ctx (mr_transports result) domain (primary_options result o) check events s.

(** [printResult]: an empty result is an error, and errors name the domain. *)
Definition printResult (domain : string) (result : lookup_result) : lookup_result :=
  (result.1, (fun err => ErrCause err ("lookup " +:+ domain)) <$>
     match result.2, result.1 with
     | None, [] => Some empty_result
     | err, _ => err
     end).

(** The addresses of a predefined answer: of its A and AAAA records. *)
Definition predefined_addresses (answer : list RR) : list Addr := omap ip_record answer.

(** What a reject or predefined rule makes of a lookup; [previous] is what the
    variables [responseAddrs] and [err] hold from the rules tried before.  A
    rejection is an error of its own, without addresses. *)
Definition rule_lookup (rule : option (nat * R)) (now : Z) (previous : lookup_result)
    (drops : gmap nat (list Z)) : option (res (bool * lookup_result) * gmap nat (list Z)) :=
  match rule with
  | None => None
  | Some (index, rule) =>
      match rule_Action rule with
      | Some (DNSActReject a) =>
          let '(rejection, counter) := RuleActionReject_Error a now (default [] (drops !! index)) in
          Some (let* e := rejection in Ok (true, ([], Some (RejectedError (reject_error e)))),
                <[index := counter]> drops)
      | Some (DNSActPredefined rcode answer _ _) =>
          Some (Ok (false,
            if rcode =? RcodeSuccess then (previous.1 ++ predefined_addresses answer, previous.2)
            else (previous.1, Some (ErrRcode rcode))), drops)
      | _ => None
      end
  end.

(** The loop of [Router.Lookup].  Its result says whether the function returned
    from inside the loop, without [printResult]. *)
Fixpoint lookup_loop (tag : option string) (domain : string) (options : DNSQueryOptions)
    (sched : nat -> list event) (now : Z) (fuel round : nat) (ruleIndex : option nat)
    (m : InboundContext) (previous : lookup_result) (s : RouterState)
    : option (res (bool * lookup_result) * RouterState) :=
  match fuel with
  | O => None
  | S fuel =>
      let '(result, dnsOptions, m') := matchDNS false ruleIndex true m options in
      match rule_lookup (mr_rule result) now previous (rs_drops s) with
      | Some (answer, drops) => Some (answer, with_drops drops s)
      | None =>
          let ctx := {| qc_Source := Some (sa_Addr (Source m)); qc_TransportTag := tag |} in
          match lookup_race ctx result domain dnsOptions (response_check (mr_rule result) m)
                  (sched round) (rs_client s) with
          | None => None
          | Some (race, c) =>
              let s := with_client c s in
              match with_limit (mr_rule result), race.2 with
              | true, Some _ =>
                  lookup_loop tag domain options sched now fuel (S round) (fst <$> mr_rule result) m'
                    (printResult domain race) s
              | _, _ => Some (Ok (false, race), s)
              end
          end
      end
  end.

Definition lookup_metadata (domain : string) (m : InboundContext) : InboundContext :=
  with_Domain (FqdnToDomain domain) (with_Destination SocksaddrZero m).

(** [Router.Lookup] *)
Definition Router_Lookup (tag : option string) (m : option InboundContext) (domain : string)
    (transport : option DNSTransport) (options : DNSQueryOptions) (sched : nat -> list event) (now : Z)
    (s : RouterState) : option (res lookup_result * RouterState) :=
  let m := lookup_metadata domain (default InboundContextZero m) in
  match transport with
  | Some t =>
      let ctx := {| qc_Source := Some (sa_Addr (Source m)); qc_TransportTag := tag |} in
      let '(result, c) := Client_Lookup (rt_client r) ctx (tr_Upstream t) domain (direct_options t options)
                            None now (rs_client s) in
      Some (Ok (printResult domain result), with_client c s)
  | None =>
      match lookup_loop tag domain options sched now (S (length (rt_rules r))) 0 None m ([], None) s with
      | None => None
      | Some (result, s) =>
          Some (let* '(returned, result) := result in
                Ok (if (returned : bool) then result else printResult domain result), s)
      end
  end.

(** [Router.ClearCache] *)
Definition Router_ClearCache (s : RouterState) : RouterState := with_client (ClearCache (rs_client s)) s.
End router.

(** ** Construction: [NewRouter], [Router.Initialize] *)

Record DNSServerOptions : Type := {
  dso_Tag : string; dso_ClientSubnetFromInbound : option ClientSubnetFromInboundOptions }.

Record DNSOptions : Type := {
  do_Servers : list DNSServerOptions;
  do_Strategy : DomainStrategy;
  do_UpstreamTimeoutMS : Z;
  do_FallbackTimeoutMS : Z;
  do_FallbackGraceMS : Z;
  do_DisableCache : bool;
  do_DisableExpire : bool;
  do_IndependentCache : bool;
  do_ClientSubnet : option Prefix;
  do_ClientSubnetFromInbound : option ClientSubnetFromInboundOptions;
  do_ReverseMapping : bool
}.

(** The subnets of the servers: by tag, by index without one; the last of a
    tag counts. *)
Fixpoint server_subnets (index : nat) (servers : list DNSServerOptions)
    (subnets : gmap string ClientSubnetFromInboundOptions) : gmap string ClientSubnetFromInboundOptions :=
  match servers with
  | [] => subnets
  | o :: servers =>
      server_subnets (S index) servers
        (match dso_ClientSubnetFromInbound o with
         | None => subnets
         | Some f => <[(if decide (dso_Tag o = "") then go_itoa (Z.of_nat index) else dso_Tag o) := f]> subnets
         end)
  end.

Definition NewClient (o : DNSOptions) : Client :=
  {| cl_disableCache := do_DisableCache o; cl_disableExpire := do_DisableExpire o;
     cl_independentCache := do_IndependentCache o;
     cl_clientSubnet := default PrefixInvalid (do_ClientSubnet o);
     cl_clientSubnetFromInbound := do_ClientSubnetFromInbound o |}.

Definition NewRouter {R} (tm : DNSTransportManager) (o : DNSOptions) : Router R :=
  {| rt_transport := tm; rt_client := NewClient o; rt_rules := [];
     rt_defaultDomainStrategy := do_Strategy o;
     rt_upstreamTimeout := do_UpstreamTimeoutMS o * Millisecond;
     rt_fallbackTimeout := do_FallbackTimeoutMS o * Millisecond;
     rt_fallbackGrace := do_FallbackGraceMS o * Millisecond;
     rt_serverClientSubnetFromInbound := server_subnets 0 (do_Servers o) ∅ |}.

(** The state after [Start]: the store of rejected answers is there when the
    cache file keeps one. *)
Definition initial_state (o : DNSOptions) (rdrc : option (gset (string * string * Z))) : RouterState :=
  {| rs_client := {| cs_cache := ∅; cs_rdrc := rdrc |};
     rs_reverse := if do_ReverseMapping o then Some ∅ else None; rs_drops := ∅ |}.

Definition Initialize `{External} (rules : list (DNSRuleOptions RR))
    (r : Router (Rule (option (DNSAction RR)))) : res (Router (Rule (option (DNSAction RR)))) :=
  let* rs := res_mapi (fun i o => res_cause ("parse dns rule[" +:+ go_itoa (Z.of_nat i) +:+ "]")
                                    (NewDNSRule o true)) 0 rules in
  Ok {| rt_transport := rt_transport r; rt_client := rt_client r; rt_rules := rt_rules r ++ rs;
        rt_defaultDomainStrategy := rt_defaultDomainStrategy r;
        rt_upstreamTimeout := rt_upstreamTimeout r; rt_fallbackTimeout := rt_fallbackTimeout r;
        rt_fallbackGrace := rt_fallbackGrace r;
        rt_serverClientSubnetFromInbound := rt_serverClientSubnetFromInbound r |}.

(** ** Theorems *)

(** *** The servers of an action *)

Definition usable (tm : DNSTransportManager) (allowFakeIP : bool) (t : DNSTransport) (tag : string) : Prop :=
  tag <> "" /\ tm_Transport tm tag = Some t /\ (is_fakeip t = true -> allowFakeIP = true).

Lemma exists_unseen {A} `{EqDecision A} (Q : A -> Prop) x l seen :
  x ∉ seen ->
  (exists y, y ∈ x :: l /\ y ∉ seen /\ Q y) <-> Q x \/ exists y, y ∈ l /\ y ∉ x :: seen /\ Q y.
Proof.
  intros Hx. split.
  - intros (y & Hy & Hs & Hq). destruct (decide (y = x)) as [->|]; [by left|].
    right. exists y. rewrite elem_of_cons in Hy |- *. tauto.
  - rewrite <- !(or_comm (exists _, _)). intros [(y & Hy & Hs & Hq)|Hq]; [exists y|exists x];
      rewrite ?elem_of_cons in *; tauto.
Qed.

Lemma select_servers_spec tm allowFakeIP tags seen t :
  t ∈ (select_servers tm allowFakeIP tags seen).1 <->
  exists tag, tag ∈ tags /\ tag ∉ seen /\ usable tm allowFakeIP t tag.
Proof.
  revert seen. induction tags as [|tag tags IH]; intros seen; simpl.
  { split; [by intros ?%not_elem_of_nil|]. by intros (? & ?%not_elem_of_nil & _). }
  destruct (bool_decide (tag = "") || bool_decide (tag ∈ seen)) eqn:Hskip.
  - rewrite IH. split; intros (x & Hx & Hs & Hu); exists x; [rewrite elem_of_cons; tauto|].
    apply elem_of_cons in Hx as [->|Hx]; [|done].
    apply orb_true_iff in Hskip as [Hs'%bool_decide_eq_true|Hs'%bool_decide_eq_true]; [|done].
    by destruct Hu as [Hu _].
  - apply orb_false_iff in Hskip as [Hne%bool_decide_eq_false Hns%bool_decide_eq_false].
    rewrite exists_unseen by done. rewrite <- IH.
    destruct (select_servers tm allowFakeIP tags (tag :: seen)) as [ts fake]. simpl. unfold usable.
    destruct (tm_Transport tm tag) as [t'|]; simpl; [|intuition congruence].
    destruct (is_fakeip t') eqn:Hf; [destruct allowFakeIP|]; simpl; rewrite ?elem_of_cons; split;
      try (intros [->|Ht]; [left|by right]; split_and!; [done..|congruence]);
      try (by intros [(_ & [= ->] & _)|Ht]; [left|right]).
    + by right.
    + intros [(_ & [= ->] & Hfake)|Ht]; [|done]. by specialize (Hfake Hf).
Qed.

Lemma select_servers_length tm allowFakeIP tags seen :
  (length (select_servers tm allowFakeIP tags seen).1 <= length tags)%nat.
Proof.
  revert seen. induction tags as [|tag tags IH]; intros seen; simpl; [lia|].
  destruct (_ || _); [specialize (IH seen); lia|]. specialize (IH (tag :: seen)).
  destruct (select_servers tm allowFakeIP tags (tag :: seen)) as [ts fake]. simpl in IH.
  destruct (tm_Transport tm tag) as [t|]; simpl; [|lia].
  destruct (is_fakeip t), allowFakeIP; simpl; lia.
Qed.

(** *** The walk over the rules *)

Lemma find_ext {A} (f g : A -> bool) l : (forall x, f x = g x) -> List.find f l = List.find g l.
Proof. intros Hfg. induction l as [|x l IH]; simpl; [done|]. by rewrite Hfg, IH. Qed.

Section walk.
Context {R : Type} `{DNSRuleLaws R} (r : Router R).

(** A rule takes part in a query and matches it. *)
Definition selects (isAddressQuery : bool) (m : InboundContext) (rule : R) : bool :=
  negb (rule_WithAddressLimit rule && negb isAddressQuery) && (rule_Match rule (ResetRuleCache m)).1.

(** The action of a rule ends the walk. *)
Definition decides (allowFakeIP : bool) (rule : R) : bool :=
  match rule_Action rule with
  | Some (DNSActRoute a) => nonempty (select_servers (rt_transport r) allowFakeIP (Servers a) []).1
  | Some (DNSActReject _) | Some (DNSActPredefined _ _ _ _) => true
  | _ => false
  end.

(** The options a rule that does not end the walk leaves. *)
Definition pass_options (rule : R) (o : DNSQueryOptions) : DNSQueryOptions :=
  match rule_Action rule with
  | Some (DNSActRouteOptions a) => merge_options false a o
  | _ => o
  end.

Definition passed_options (isAddressQuery : bool) (m : InboundContext) (rules : list R) (o : DNSQueryOptions)
    : DNSQueryOptions :=
  fold_left (fun o rule => if selects isAddressQuery m rule then pass_options rule o else o) rules o.

Lemma apply_rule_passes allowFakeIP index rule o :
  decides allowFakeIP rule = false -> apply_rule r allowFakeIP index rule o = (None, pass_options rule o).
Proof.
  unfold decides, apply_rule, pass_options, route_result.
  destruct (rule_Action rule) as [[a|a|a|]|]; try done.
  by destruct (select_servers _ _ (Servers a) []) as [[|??] ?].
Qed.

Lemma apply_rule_decides allowFakeIP index rule o :
  decides allowFakeIP rule = true ->
  exists result, (apply_rule r allowFakeIP index rule o).1 = Some result /\
                 mr_rule result = Some (index, rule).
Proof.
  unfold decides, apply_rule, route_result. destruct (rule_Action rule) as [[a|a|a|]|]; try done; intros Hd;
    try by eexists.
  destruct (select_servers _ _ (Servers a) []) as [[|??] ?]; [done|].
  destruct (select_servers _ _ (FallbackServers a) []). by eexists.
Qed.

Lemma selects_request isAddressQuery m m' rule :
  match_frame m m' -> selects isAddressQuery m rule = selects isAddressQuery m' rule.
Proof.
  intros Hf. unfold selects. do 2 f_equal. f_equal.
  destruct Hf as [[c ->]%same_request_inv Hi]. simpl in Hi.
  unfold ResetRuleCache, upd_cache. simpl. by rewrite Hi.
Qed.

Lemma passed_options_request isAddressQuery m m' rules o :
  match_frame m m' -> passed_options isAddressQuery m rules o = passed_options isAddressQuery m' rules o.
Proof.
  intros Hf. unfold passed_options. revert o. induction rules as [|rule rules IH]; intros o; simpl; [done|].
  by rewrite (selects_request _ _ _ _ Hf), IH.
Qed.

(** What the walk returns from a list of rules. *)
Definition walk_result (allowFakeIP isAddressQuery : bool) (index : nat) (rules : list R)
    (m : InboundContext) (o : DNSQueryOptions) (result : MatchResult R) (o' : DNSQueryOptions) : Prop :=
  match List.find (fun rule => selects isAddressQuery m rule && decides allowFakeIP rule) rules with
  | None => result = default_result r /\ o' = passed_options isAddressQuery m rules o
  | Some _ =>
      exists before rule after, rules = before ++ rule :: after /\
        Forall (fun x => selects isAddressQuery m x && decides allowFakeIP x = false) before /\
        selects isAddressQuery m rule = true /\ decides allowFakeIP rule = true /\
        apply_rule r allowFakeIP (index + length before) rule
          (passed_options isAddressQuery m before o) = (Some result, o')
  end.

Lemma walk_result_skip allowFakeIP isAddressQuery index rule rules m o o1 result o' :
  selects isAddressQuery m rule && decides allowFakeIP rule = false ->
  o1 = (if selects isAddressQuery m rule then pass_options rule o else o) ->
  walk_result allowFakeIP isAddressQuery (S index) rules m o1 result o' ->
  walk_result allowFakeIP isAddressQuery index (rule :: rules) m o result o'.
Proof.
  intros Hskip -> Hw. unfold walk_result in *. simpl. rewrite Hskip.
  destruct (List.find _ rules); [|done].
  destruct Hw as (before & x & after & -> & Hb & Hs & Hd & Ha).
  exists (rule :: before), x, after. split_and!; [done|by constructor|done|done|].
  simpl. by rewrite Nat.add_succ_r.
Qed.

Lemma match_from_spec allowFakeIP isAddressQuery index rules m o :
  IgnoreDestinationIPCIDRMatch (cache m) = false ->
  let '(result, o', m') := match_from r allowFakeIP isAddressQuery index rules m o in
  match_frame m m' /\ walk_result allowFakeIP isAddressQuery index rules m o result o'.
Proof.
  revert index m o. induction rules as [|rule rules IH]; intros index m o Hm; simpl; [done|].
  destruct (rule_WithAddressLimit rule && negb isAddressQuery) eqn:Hlim.
  { specialize (IH (S index) m o Hm). destruct (match_from _ _ _ _ _ _ _) as [[result o'] m'].
    destruct IH as [Hf Hw]. split; [done|].
    apply (walk_result_skip _ _ _ _ _ _ _ o); [|by unfold selects; rewrite Hlim|done].
    by unfold selects; rewrite Hlim. }
  assert (Hreset : match_frame m (ResetRuleCache m)) by by apply match_frame_reset.
  pose proof (rule_Match_frame rule (ResetRuleCache m) Hm) as Hframe.
  destruct (rule_Match rule (ResetRuleCache m)) as [matched m1] eqn:Hmatch.
  assert (Hsel : selects isAddressQuery m rule = matched).
  { unfold selects. by rewrite Hlim, Hmatch. }
  assert (Hm1 : match_frame m m1) by (etrans; [exact Hreset|exact Hframe]).
  assert (Hm1i : IgnoreDestinationIPCIDRMatch (cache m1) = false) by (destruct Hm1 as [_ <-]; done).
  assert (Hrec : forall o1, selects isAddressQuery m rule && decides allowFakeIP rule = false ->
    o1 = (if selects isAddressQuery m rule then pass_options rule o else o) ->
    let '(result, o', m') := match_from r allowFakeIP isAddressQuery (S index) rules m1 o1 in
    match_frame m m' /\ walk_result allowFakeIP isAddressQuery index (rule :: rules) m o result o').
  { intros o1 Hskip Ho1. specialize (IH (S index) m1 o1 Hm1i).
    destruct (match_from _ _ _ _ _ _ _) as [[result o'] m']. destruct IH as [Hf Hw].
    split; [by etrans|]. apply (walk_result_skip _ _ _ _ _ _ _ o1); [done..|].
    unfold walk_result in *. rewrite (find_ext _ (fun x => selects isAddressQuery m1 x && decides allowFakeIP x)) by
      (intros x; by rewrite (selects_request _ _ _ _ Hm1)).
    destruct (List.find _ rules); [|by rewrite (passed_options_request _ _ _ _ _ Hm1)].
    destruct Hw as (before & x & after & -> & Hb & Hs & Hd & Ha). exists before, x, after.
    rewrite (selects_request _ _ _ _ Hm1), (passed_options_request _ _ _ _ _ Hm1). split_and!; try done.
    eapply Forall_impl; [exact Hb|]. simpl. intros y. by rewrite (selects_request _ _ _ _ Hm1). }
  destruct matched; [|apply Hrec; by rewrite Hsel].
  destruct (decides allowFakeIP rule) eqn:Hd.
  - destruct (apply_rule_decides allowFakeIP index rule o Hd) as (result & Hres & _).
    destruct (apply_rule _ _ _ _ _) as [res o'] eqn:Ha. simpl in Hres. subst res. split; [done|].
    unfold walk_result. simpl. rewrite Hsel, Hd. simpl.
    exists [], rule, rules. split_and!; try done. simpl. by rewrite Nat.add_0_r.
  - rewrite apply_rule_passes by done. apply Hrec; by rewrite Hsel.
Qed.

Lemma walk_result_rule allowFakeIP isAddressQuery index rules m o result o' :
  walk_result allowFakeIP isAddressQuery index rules m o result o' ->
  match mr_rule result with
  | Some (i, rule) =>
      exists k, i = (index + k)%nat /\ rules !! k = Some rule /\
        selects isAddressQuery m rule = true /\ decides allowFakeIP rule = true /\
        (forall j x, (j < k)%nat -> rules !! j = Some x ->
           selects isAddressQuery m x && decides allowFakeIP x = false) /\
        apply_rule r allowFakeIP i rule (passed_options isAddressQuery m (take k rules) o) = (Some result, o')
  | None =>
      (forall j x, rules !! j = Some x -> selects isAddressQuery m x && decides allowFakeIP x = false) /\
      result = default_result r /\ o' = passed_options isAddressQuery m rules o
  end.
Proof.
  unfold walk_result. destruct (List.find _ rules) as [x|] eqn:Hf.
  - intros (before & rule & after & -> & Hb & Hs & Hd & Ha).
    destruct (apply_rule_decides allowFakeIP (index + length before) rule
                (passed_options isAddressQuery m before o) Hd) as (res & Hres & Hrule).
    rewrite Ha in Hres. injection Hres as <-. rewrite Hrule.
    exists (length before). split_and!; try done.
    + by rewrite lookup_app_r, Nat.sub_diag by lia.
    + intros j y Hj Hy. rewrite lookup_app_l in Hy by done. rewrite Forall_lookup in Hb. eauto.
    + by rewrite take_app_length.
  - intros [-> ->]. simpl. split; [|done]. intros j y Hy.
    apply (List.find_none _ _ Hf). apply list_elem_of_In. by eapply list_elem_of_lookup_2.
Qed.

Lemma matchDNS_spec allowFakeIP ruleIndex isAddressQuery m o :
  IgnoreDestinationIPCIDRMatch (cache m) = false ->
  let '(result, o', m') := matchDNS r allowFakeIP ruleIndex isAddressQuery m o in
  let start := match ruleIndex with Some i => S i | None => O end in
  match_frame m m' /\
  match mr_rule result with
  | Some (i, rule) =>
      (start <= i)%nat /\ rt_rules r !! i = Some rule /\
      selects isAddressQuery m rule = true /\ decides allowFakeIP rule = true /\
      (forall j x, (start <= j < i)%nat -> rt_rules r !! j = Some x ->
         selects isAddressQuery m x && decides allowFakeIP x = false) /\
      apply_rule r allowFakeIP i rule
        (passed_options isAddressQuery m (take (i - start) (drop start (rt_rules r))) o) = (Some result, o')
  | None =>
      (forall j x, (start <= j)%nat -> rt_rules r !! j = Some x ->
         selects isAddressQuery m x && decides allowFakeIP x = false) /\
      result = default_result r /\
      o' = passed_options isAddressQuery m (drop start (rt_rules r)) o
  end.
Proof.
  intros Hm. unfold matchDNS. set (start := match ruleIndex with Some i => S i | None => O end).
  pose proof (match_from_spec allowFakeIP isAddressQuery start (drop start (rt_rules r)) m o Hm) as Hs.
  destruct (match_from _ _ _ _ _ _ _) as [[result o'] m']. destruct Hs as [Hf Hw]. split; [done|].
  apply walk_result_rule in Hw. destruct (mr_rule result) as [[i rule]|].
  - destruct Hw as (k & -> & Hk & Hs & Hd & Hj & Ha). rewrite lookup_drop in Hk.
    replace (start + k - start)%nat with k by lia. split_and!; try done; [lia|].
    intros j x Hjk Hx. apply (Hj (j - start)%nat x); [lia|].
    rewrite lookup_drop. by replace (start + (j - start))%nat with j by lia.
  - destruct Hw as (Hj & -> & ->). split_and!; try done. intros j x Hjk Hx.
    apply (Hj (j - start)%nat x). rewrite lookup_drop. by replace (start + (j - start))%nat with j by lia.
Qed.

(** C3 (the first deciding rule wins): the walk over the DNS rules ends with the
    first rule after the given one that takes part in the query, matches it
    and has an action that decides (a reject, a predefined answer, or a route
    with a server that exists and may be used); the options are those of the
    query with exactly the route-options of the matching rules before it
    applied in order.  When no rule decides, the default server answers. *)
Theorem matchDNS_first_decider allowFakeIP ruleIndex isAddressQuery m o :
  IgnoreDestinationIPCIDRMatch (cache m) = false ->
  let '(result, o', _) := matchDNS r allowFakeIP ruleIndex isAddressQuery m o in
  let start := match ruleIndex with Some i => S i | None => O end in
  match mr_rule result with
  | Some (i, rule) =>
      (start <= i)%nat /\ rt_rules r !! i = Some rule /\
      selects isAddressQuery m rule = true /\ decides allowFakeIP rule = true /\
      (forall j x, (start <= j < i)%nat -> rt_rules r !! j = Some x ->
         selects isAddressQuery m x && decides allowFakeIP x = false) /\
      apply_rule r allowFakeIP i rule
        (passed_options isAddressQuery m (take (i - start) (drop start (rt_rules r))) o) = (Some result, o')
  | None =>
      (forall j x, (start <= j)%nat -> rt_rules r !! j = Some x ->
         selects isAddressQuery m x && decides allowFakeIP x = false) /\
      result = default_result r /\
      o' = passed_options isAddressQuery m (drop start (rt_rules r)) o
  end.
Proof.
  intros Hm. pose proof (matchDNS_spec allowFakeIP ruleIndex isAddressQuery m o Hm) as Hs.
  destruct (matchDNS _ _ _ _ _ _) as [[result o'] m']. apply Hs.
Qed.

(** The servers a route action names. *)
Definition names_server (rule : R) (tag : string) : Prop :=
  match rule_Action rule with Some (DNSActRoute a) => tag ∈ Servers a ++ FallbackServers a | _ => False end.

(** The servers of a result are usable ones, named by its rule, or the default
    one without a rule. *)
Lemma matchDNS_servers allowFakeIP ruleIndex isAddressQuery m o t :
  IgnoreDestinationIPCIDRMatch (cache m) = false ->
  let '(result, _, _) := matchDNS r allowFakeIP ruleIndex isAddressQuery m o in
  t ∈ mr_transports result ++ mr_fallback result ->
  match mr_rule result with
  | None => tm_Default (rt_transport r) = Some t
  | Some (_, rule) => exists tag, names_server rule tag /\ usable (rt_transport r) allowFakeIP t tag
  end.
Proof.
  intros Hm. pose proof (matchDNS_spec allowFakeIP ruleIndex isAddressQuery m o Hm) as Hs.
  destruct (matchDNS _ _ _ _ _ _) as [[result o'] m']. destruct Hs as [_ Hs]. intros Ht.
  destruct (mr_rule result) as [[i rule]|].
  - destruct Hs as (_ & _ & _ & _ & _ & Ha). unfold names_server. unfold apply_rule, route_result in Ha.
    destruct (rule_Action rule) as [[a|a|a|]|]; try (injection Ha as <- _; set_solver); try done.
    pose proof (select_servers_spec (rt_transport r) allowFakeIP (Servers a) [] t) as Hp.
    pose proof (select_servers_spec (rt_transport r) allowFakeIP (FallbackServers a) [] t) as Hfb.
    destruct (select_servers _ _ (Servers a) []) as [ts fk], (select_servers _ _ (FallbackServers a) []) as [fs fk'].
    destruct ts as [|t0 ts]; [done|]. injection Ha as <- _.
    change (t ∈ (t0 :: ts) ++ fs) in Ht.
    apply elem_of_app in Ht as [Ht|Ht]; [apply Hp in Ht as (tag & ? & _ & Hu)|apply Hfb in Ht as (tag & ? & _ & Hu)]; exists tag;
      (split; [set_solver|done]).
  - destruct Hs as (_ & -> & _). unfold default_result in Ht. simpl in Ht.
    rewrite app_nil_r in Ht. destruct (tm_Default (rt_transport r)) as [t'|]; [|set_solver].
    by apply list_elem_of_singleton in Ht as ->.
Qed.

(** Whatever the rules, the servers
    of a lookup are not fake-IP servers, when the default one is not. *)
Theorem lookup_avoids_fakeip ruleIndex m o t :
  IgnoreDestinationIPCIDRMatch (cache m) = false ->
  (forall d, tm_Default (rt_transport r) = Some d -> is_fakeip d = false) ->
  let '(result, _, _) := matchDNS r false ruleIndex true m o in
  t ∈ mr_transports result ++ mr_fallback result -> is_fakeip t = false.
Proof.
  intros Hm Hd. pose proof (matchDNS_servers false ruleIndex true m o t Hm) as Hs.
  destruct (matchDNS _ _ _ _ _ _) as [[result o'] m']. intros Ht. specialize (Hs Ht).
  destruct (mr_rule result) as [[i rule]|]; [|by apply Hd]. destruct Hs as (tag & _ & _ & _ & Hf).
  by destruct (is_fakeip t); [discriminate Hf|].
Qed.
End walk.

(** *** Races *)

(** What the collecting loop sees of a race: the results in the order they
    arrive, and how the schedule ends. *)
Inductive outcome : Type :=
  | GotResponse (response : DMsg) (t : DNSTransport)
  | GotError (err : error)
  | GotNothing.
Inductive log_end : Type := AllReported | Ended (err : error) | Blocked.

Section races.
Context {R : Type} `{DNSRuleLaws R} `{DNSLib} (r : Router R).

Definition outcome_of (t : DNSTransport) (answer : option DMsg * option error) : outcome :=
  match answer with
  | (_, Some err) => GotError err
  | (Some response, None) => GotResponse response t
  | (None, None) => GotNothing
  end.

Fixpoint race_log (ctx : QueryContext) (message : DMsg) (check : option (list Addr -> bool))
    (events : list event) (pending : list query) (s : ClientState) : list outcome * log_end :=
  match pending with
  | [] => ([], AllReported)
  | _ =>
      match events with
      | [] => ([], Blocked)
      | ContextDone err :: _ => ([], Ended err)
      | Failed k err :: events =>
          match pending !! k with
          | None => race_log ctx message check events pending s
          | Some _ =>
              let '(log, e) := race_log ctx message check events (delete k pending) s in
              (GotError err :: log, e)
          end
      | Finished k now :: events =>
          match pending !! k with
          | None => race_log ctx message check events pending s
          | Some q =>
              let '(answer, s) := run_query r ctx message check q now s in
              let '(log, e) := race_log ctx message check events (delete k pending) s in
              (outcome_of q.1 answer :: log, e)
          end
      end
  end.

Definition log_response (o : outcome) : option (DMsg * DNSTransport) :=
  match o with GotResponse response t => Some (response, t) | _ => None end.
Definition log_success (o : outcome) : option (DMsg * DNSTransport) :=
  match o with
  | GotResponse response t => if msg_Rcode response =? RcodeSuccess then Some (response, t) else None
  | _ => None
  end.
Definition log_error (o : outcome) : option error :=
  match o with GotError err => Some err | _ => None end.

Definition cached_rejection (err : error) : bool := errors_Is err ErrResponseRejectedCached.
Definition any_rejection (err : error) : bool :=
  errors_Is err ErrResponseRejectedCached || errors_Is err ErrResponseRejected.

(** The result of a race, from its log. *)
Definition race_outcome (log : list outcome) (e : log_end) : option race_result :=
  match omap log_success log, e with
  | x :: _, _ => Some (Some x, None)
  | [], Blocked => None
  | [], _ =>
      match omap log_response log, e with
      | x :: _, _ => Some (Some x, None)
      | [], Ended err => Some (None, Some err)
      | [], _ =>
          let errors := omap log_error log in
          Some (None, if forallb cached_rejection errors then Some ErrResponseRejectedCached
                      else if forallb any_rejection errors then Some ErrResponseRejected
                      else E_Errors errors)
      end
  end.

(** The variables of the loop after some results without a success. *)
Definition log_acc (log : list outcome) : ExchangeAcc :=
  {| ac_fallback := head (omap log_response log); ac_errors := omap log_error log;
     ac_allRejected := forallb any_rejection (omap log_error log);
     ac_allRejectedOnly := forallb cached_rejection (omap log_error log) |}.

Lemma forallb_snoc {A} (f : A -> bool) l x : forallb f (l ++ [x]) = forallb f l && f x.
Proof. rewrite forallb_app. simpl. by rewrite andb_true_r. Qed.

Lemma note_error_log log err : note_error err (log_acc log) = log_acc (log ++ [GotError err]).
Proof.
  unfold note_error, log_acc. rewrite !omap_app. simpl. by rewrite app_nil_r, !forallb_snoc.
Qed.

Lemma note_response_log log response t :
  note_response response t (log_acc log) = log_acc (log ++ [GotResponse response t]).
Proof.
  unfold note_response, log_acc. rewrite !omap_app. simpl. rewrite app_nil_r.
  by destruct (omap log_response log).
Qed.

Lemma log_acc_nothing log : log_acc (log ++ [GotNothing]) = log_acc log.
Proof. unfold log_acc. rewrite !omap_app. simpl. by rewrite !app_nil_r. Qed.

Lemma no_success_snoc log o :
  omap log_success log = [] -> log_success o = None -> omap log_success (log ++ [o]) = [].
Proof. intros Hl Ho. rewrite omap_app, Hl. simpl. by rewrite Ho. Qed.

Lemma snoc_app {A} (l : list A) x l' : (l ++ [x]) ++ l' = l ++ x :: l'.
Proof. by rewrite <- app_assoc. Qed.

Lemma finish_race_log log :
  omap log_success log = [] -> Some (finish_race (log_acc log)) = race_outcome log AllReported.
Proof.
  intros Hl. unfold race_outcome. rewrite Hl. unfold finish_race, log_acc. simpl.
  by destruct (omap log_response log).
Qed.

Lemma ended_race_log log err :
  omap log_success log = [] ->
  Some (match ac_fallback (log_acc log) with Some f => (Some f, None) | None => (None, Some err) end) =
  race_outcome log (Ended err).
Proof. intros Hl. unfold race_outcome. rewrite Hl. simpl. by destruct (omap log_response log). Qed.

Lemma race_outcome_success log response t log' e :
  omap log_success log = [] -> msg_Rcode response = RcodeSuccess ->
  race_outcome (log ++ GotResponse response t :: log') e = Some (Some (response, t), None).
Proof. intros Hl Hr. unfold race_outcome. rewrite omap_app, Hl. simpl. by rewrite Hr. Qed.

Lemma collect_exchange_log ctx message check events pending log s :
  omap log_success log = [] ->
  fst <$> collect_exchange r ctx message check events pending (log_acc log) s =
  race_outcome (log ++ (race_log ctx message check events pending s).1)
               (race_log ctx message check events pending s).2.
Proof.
  revert pending log s. induction events as [|ev events IH]; intros [|q0 pending] log s Hlog.
  - simpl. rewrite app_nil_r. by rewrite <- finish_race_log.
  - simpl. rewrite app_nil_r. unfold race_outcome. by rewrite Hlog.
  - simpl. rewrite app_nil_r. by rewrite <- finish_race_log.
  - cbn [collect_exchange race_log]. set (ps := q0 :: pending).
    destruct ev as [k now|k err|err].
    + destruct (ps !! k) as [q|]; [|by apply IH].
      destruct (run_query r ctx message check q now s) as [[[response|] [err|]] s'];
        cbn [outcome_of];
        destruct (race_log ctx message check events (delete k ps) s') as [log' e] eqn:Hl; cbn [fst snd].
      * rewrite note_error_log, IH, Hl, snoc_app by (by apply no_success_snoc). done.
      * destruct (Z.eqb_spec (msg_Rcode response) RcodeSuccess) as [Hr|Hr].
        { simpl. by rewrite race_outcome_success. }
        rewrite note_response_log, IH, Hl, snoc_app; [done|].
        apply no_success_snoc; [done|]. simpl. by rewrite (proj2 (Z.eqb_neq _ _) Hr).
      * rewrite note_error_log, IH, Hl, snoc_app by (by apply no_success_snoc). done.
      * rewrite <- (log_acc_nothing log), IH, Hl, snoc_app by (by apply no_success_snoc). done.
    + destruct (ps !! k) as [q|]; [|by apply IH].
      destruct (race_log ctx message check events (delete k ps) s) as [log' e] eqn:Hl. cbn [fst snd].
      rewrite note_error_log, IH, Hl, snoc_app by (by apply no_success_snoc). done.
    + simpl. rewrite app_nil_r. by rewrite <- ended_race_log.
Qed.

(** C6 (the outcome of a race): a race of servers returns the first successful
    response to arrive; without one, the first response; without one, the end
    of its context, or, when every query failed, the cached rejection if all of
    them were cached rejections, a rejection if all were rejections, and the
    errors of all otherwise. *)
Theorem race_outcome_spec ctx message check events pending s :
  fst <$> collect_exchange r ctx message check events pending ExchangeAccZero s =
  let '(log, e) := race_log ctx message check events pending s in race_outcome log e.
Proof.
  change ExchangeAccZero with (log_acc []). rewrite collect_exchange_log by done.
  by destruct (race_log ctx message check events pending s).
Qed.

(** *** Every query is answered *)

(** The schedule reports enough results for a race of [n] queries. *)
Fixpoint enough (n : nat) (events : list event) : bool :=
  match n with
  | O => true
  | S n' =>
      match events with
      | [] => false
      | ContextDone _ :: _ => true
      | Finished k _ :: events | Failed k _ :: events =>
          if (k <? n)%nat then enough n' events else enough n events
      end
  end.

Lemma delete_length {A} (l : list A) k :
  (k < length l)%nat -> length (delete k l) = pred (length l).
Proof. intros Hk%lookup_lt_is_Some. rewrite (length_delete l k) by done. lia. Qed.

Lemma collect_exchange_ends ctx message check events pending a s :
  enough (length pending) events = true ->
  is_Some (collect_exchange r ctx message check events pending a s).
Proof.
  revert pending a s. induction events as [|ev events IH]; intros [|q pending] a s He; try done; try by eexists.
  cbn [collect_exchange]. set (ps := q :: pending) in *.
  assert (Hcase : forall k, (if (k <? length ps)%nat then enough (length pending) events
                             else enough (length ps) events) = true ->
    match ps !! k with
    | Some _ => enough (length (delete k ps)) events = true
    | None => enough (length ps) events = true
    end).
  { intros k Hk. destruct (Nat.ltb_spec k (length ps)) as [Hlt|Hge].
    - pose proof (delete_length ps k Hlt) as ->. by apply lookup_lt_is_Some in Hlt as [x ->].
    - by rewrite lookup_ge_None_2. }
  destruct ev as [k now|k err|err]; [| |by eexists].
  - specialize (Hcase k He). destruct (ps !! k) as [q'|]; [|by apply IH].
    destruct (run_query r ctx message check q' now s) as [[[response|] [err|]] s']; try by apply IH.
    destruct (_ =? _); [by eexists|by apply IH].
  - specialize (Hcase k He). destruct (ps !! k) as [q'|]; by apply IH.
Qed.

(** The most queries a race can have. *)
Definition rule_servers (rule : R) : nat :=
  match rule_Action rule with
  | Some (DNSActRoute a) => length (Servers a) + length (FallbackServers a)
  | _ => 0
  end.
Definition max_queries : nat := fold_right (fun rule n => Nat.max (rule_servers rule) n) 1%nat (rt_rules r).

Lemma max_queries_rule rule : rule ∈ rt_rules r -> (rule_servers rule <= max_queries)%nat.
Proof.
  unfold max_queries. induction (rt_rules r) as [|x l IH]; simpl; [by intros ?%not_elem_of_nil|].
  intros [->|Hr]%elem_of_cons; [lia|]. specialize (IH Hr). lia.
Qed.

Lemma max_queries_pos : (1 <= max_queries)%nat.
Proof. unfold max_queries. induction (rt_rules r); simpl; lia. Qed.

Lemma race_queries_length allowFakeIP ruleIndex isAddressQuery m o :
  IgnoreDestinationIPCIDRMatch (cache m) = false ->
  let '(result, o', _) := matchDNS r allowFakeIP ruleIndex isAddressQuery m o in
  (length (race_queries r result o') <= max_queries)%nat.
Proof.
  intros Hm. pose proof (matchDNS_spec r allowFakeIP ruleIndex isAddressQuery m o Hm) as Hs.
  destruct (matchDNS _ _ _ _ _ _) as [[result o'] m']. destruct Hs as [_ Hs].
  assert (Hlen : (length (race_queries r result o') <=
                  length (mr_transports result) + length (mr_fallback result))%nat).
  { unfold race_queries, queries. rewrite length_app, length_map. destruct (hedged result); [|simpl; lia].
    rewrite length_map. lia. }
  destruct (mr_rule result) as [[i rule]|].
  - destruct Hs as (_ & Hi & _ & _ & _ & Ha). unfold apply_rule, route_result in Ha.
    pose proof (max_queries_rule rule (list_elem_of_lookup_2 _ _ _ Hi)) as Hmax. unfold rule_servers in Hmax.
    destruct (rule_Action rule) as [[a|a|a|]|]; try done; try (injection Ha as <- _; etrans; [exact Hlen|]; simpl; lia).
    pose proof (select_servers_length (rt_transport r) allowFakeIP (Servers a) []).
    pose proof (select_servers_length (rt_transport r) allowFakeIP (FallbackServers a) []).
    destruct (select_servers _ _ (Servers a) []) as [ts fk], (select_servers _ _ (FallbackServers a) []) as [fs fk'].
    destruct ts as [|t0 ts]; [done|]. injection Ha as <- _. etrans; [exact Hlen|]. simpl in *. lia.
  - destruct Hs as (_ & -> & _). pose proof max_queries_pos. etrans; [exact Hlen|].
    unfold default_result. simpl. destruct (tm_Default _); simpl; lia.
Qed.

Definition reports (sched : nat -> list event) : Prop :=
  forall round n, (n <= max_queries)%nat -> enough n (sched round) = true.

Definition start_of (ruleIndex : option nat) : nat := match ruleIndex with Some i => S i | None => O end.

Lemma exchange_loop_ends tag message question o sched fuel round ruleIndex m s :
  reports sched -> IgnoreDestinationIPCIDRMatch (cache m) = false ->
  (length (rt_rules r) < fuel + start_of ruleIndex)%nat -> (0 < fuel)%nat ->
  is_Some (exchange_loop r tag message question o sched fuel round ruleIndex m s).
Proof.
  intros Hsched. revert round ruleIndex m s. induction fuel as [|fuel IH]; intros round ruleIndex m s Hm Hf Hpos;
    [lia|]. cbn [exchange_loop].
  pose proof (matchDNS_spec r true ruleIndex (isAddressQuery message) m o Hm) as Hspec.
  pose proof (race_queries_length true ruleIndex (isAddressQuery message) m o Hm) as Hlen.
  destruct (matchDNS _ _ _ _ _ _) as [[result o'] m']. destruct Hspec as [Hframe Hrule].
  destruct (rule_answer _ _ _); [by eexists|]. rewrite exchange_race_collect.
  match goal with |- context [collect_exchange r ?ctx _ ?check _ _ _ _] =>
    destruct (collect_exchange_ends ctx message check (sched round) (race_queries r result o') ExchangeAccZero s
      (Hsched round _ Hlen)) as [[race s'] Hc]; rewrite Hc end.
  destruct (with_limit (mr_rule result) && is_rejected race.2) eqn:Hcont; [|by eexists].
  apply andb_true_iff in Hcont as [Hlim _].
  destruct (mr_rule result) as [[i rule]|]; [|done]. destruct Hrule as (Hi & Hlook & _).
  apply lookup_lt_Some in Hlook. fold (start_of ruleIndex) in Hi. simpl.
  apply IH; [by destruct Hframe as [_ <-]|simpl; lia|lia].
Qed.

(** C5 (every query is answered): when the races report (each query finishes or
    fails, or the context ends), an exchange returns: the walk over the rules
    never goes back, so it ends after as many races as there are rules, plus
    one for the default server. *)
Theorem router_exchange_returns tag m message transport o sched now s :
  reports sched ->
  match m with Some m => IgnoreDestinationIPCIDRMatch (cache m) = false | None => True end ->
  is_Some (Router_Exchange r tag m message transport o sched now s).
Proof.
  intros Hsched Hm. unfold Router_Exchange.
  destruct (msg_Question message) as [|question [|]]; try by eexists.
  destruct transport as [t|]; [destruct (Client_Exchange _ _ _ _ _ _ _ _) as [[? ?] ?]; by eexists|].
  destruct (exchange_loop_ends tag message question o sched (S (length (rt_rules r))) 0 None
              (query_metadata question (default InboundContextZero m)) (rs_client s) Hsched)
    as [[[[]|race] c] Hl]; [by destruct m|simpl; lia|lia|..]; rewrite Hl; by eexists.
Qed.

(** *** Answers and address limits *)


















End races.

(** *** The reverse mapping *)

Lemma remember_other `{DNSLib} now records mapping ip :
  Forall (fun record => ip_record record <> Some ip) records ->
  remember_answers now records mapping !! ip = mapping !! ip.
Proof.
  unfold remember_answers. revert mapping. induction records as [|x records IH]; intros mapping Hall; simpl; [done|].
  apply Forall_cons in Hall as [Hx Hall]. rewrite IH by done. unfold remember.
  destruct (ip_record x) as [ip'|]; [|done]. rewrite lookup_insert_ne; congruence.
Qed.

Lemma remember_app `{DNSLib} now before after mapping :
  remember_answers now (before ++ after) mapping = remember_answers now after (remember_answers now before mapping).
Proof. apply fold_left_app. Qed.

(** After an answer of a server that is not a fake-IP
    one, every address of its A and AAAA records is found under the name of
    its last record, until the time to live of that record has passed, and
    addresses it does not have are found as before; the answer of a fake-IP
    server, or an error, leaves the mapping alone. *)
Theorem reverse_mapping_spec `{DNSLib} now response t s mapping ip now' :
  rs_reverse s = Some mapping ->
  let after := (exchange_end now (Some (response, t), None) s).2 in
  (is_fakeip t = false ->
     (forall before record rest, msg_Answer response = before ++ record :: rest -> ip_record record = Some ip ->
        Forall (fun x => ip_record x <> Some ip) rest ->
        LookupReverseMapping ip now' after =
          if now + hdr_Ttl record * Second <? now' then None else Some (FqdnToDomain (hdr_Name record))) /\
     (Forall (fun x => ip_record x <> Some ip) (msg_Answer response) ->
        LookupReverseMapping ip now' after = LookupReverseMapping ip now' s)) /\
  (is_fakeip t = true -> after = s) /\
  (forall race err, (exchange_end now (race, Some err) s).2 = s).
Proof.
  intros Hm after. subst after. unfold exchange_end, update_reverse. cbn [fst snd]. rewrite Hm.
  split_and!; [|by intros ->|done]. intros ->. split.
  - intros before record rest Ha Hip Hrest. unfold LookupReverseMapping. cbn [rs_reverse with_reverse].
    rewrite Ha, remember_app. simpl. rewrite remember_other by done. unfold remember. rewrite Hip.
    by rewrite lookup_insert_eq.
  - intros Hall. unfold LookupReverseMapping. cbn [rs_reverse with_reverse]. by rewrite Hm, remember_other.
Qed.

(** *** Instances *)

#[local] Existing Instance concrete_dns.

(** A rule with a fixed answer to both matches. *)
Record fixed_rule : Type := {
  fx_action : option (DNSAction RR); fx_limit : bool; fx_accepts : list Addr -> bool }.
#[local] Instance fixed_rule_ops : DNSRuleOps fixed_rule := {
  rule_Action := fx_action;
  rule_WithAddressLimit := fx_limit;
  rule_Match := fun _ m => (true, m);
  rule_MatchAddressLimit := fun rule m => (fx_accepts rule (DestinationAddresses m), m) }.
#[local] Instance fixed_rule_laws : DNSRuleLaws fixed_rule.
Proof. by constructor. Qed.

Definition no_route_options : RuleActionDNSRouteOptions :=
  {| dr_Strategy := DomainStrategyAsIS; dr_DisableCache := false; dr_RewriteTTL := None;
     dr_ClientSubnet := PrefixInvalid; dr_ClientSubnetFromInbound := None |}.
Definition route_to (servers : list string) (limit : bool) (accepts : list Addr -> bool) : fixed_rule :=
  {| fx_action := Some (DNSActRoute {| Servers := servers; FallbackServers := []; UpstreamTimeout := 0;
       FallbackTimeout := 0; FallbackGrace := 0; dr_options := no_route_options |});
     fx_limit := limit; fx_accepts := accepts |}.
Definition predefined_rule (answer : list RR) : fixed_rule :=
  {| fx_action := Some (DNSActPredefined RcodeSuccess answer [] []); fx_limit := false;
     fx_accepts := fun _ => true |}.

Definition example_transport (tag type : string) : DNSTransport :=
  {| tr_Upstream := {| up_Tag := tag; up_Exchange := up_Exchange example_upstream |};
     tr_Type := type; tr_Legacy := None |}.
Definition example_transports : DNSTransportManager :=
  {| tm_Transport := fun tag => if decide (tag = "remote") then Some (example_transport "remote" "udp")
                                else if decide (tag = "fake") then Some (example_transport "fake" "fakeip")
                                else None;
     tm_Default := Some (example_transport "local" "local") |}.
Definition example_router (disableCache : bool) (rules : list fixed_rule) (tm : DNSTransportManager)
    : Router fixed_rule :=
  {| rt_transport := tm; rt_client := example_client disableCache; rt_rules := rules;
     rt_defaultDomainStrategy := DomainStrategyAsIS; rt_upstreamTimeout := 0; rt_fallbackTimeout := 0;
     rt_fallbackGrace := 0; rt_serverClientSubnetFromInbound := ∅ |}.
Definition example_state : RouterState :=
  {| rs_client := empty_client; rs_reverse := Some ∅; rs_drops := ∅ |}.
Definition in_order : nat -> list event := fun _ => repeat (Finished 0 0) 4.
Definition limited_rules : list fixed_rule :=
  [route_to ["fake"; "remote"] true (fun l => (length l =? 3)%nat);
   route_to ["remote"] true (fun l => (length l =? 2)%nat)].

Lemma matchDNS_first_decider_witness :
  let '(result, _, _) := matchDNS (example_router true limited_rules example_transports) false None true
                           InboundContextZero plain_options in
  match mr_rule result with
  | Some (i, rule) => rt_rules (example_router true limited_rules example_transports) !! i = Some rule
  | None => False
  end.
Proof.
  pose proof (matchDNS_first_decider (example_router true limited_rules example_transports) false None true
                InboundContextZero plain_options eq_refl) as Hs.
  exact (proj1 (proj2 Hs)).
Defined.

Lemma lookup_avoids_fakeip_witness :
  is_fakeip (example_transport "remote" "udp") = false.
Proof.
  refine (lookup_avoids_fakeip (example_router true limited_rules example_transports) None InboundContextZero
            plain_options (example_transport "remote" "udp") eq_refl _ _).
  - intros d [= <-]. reflexivity.
  - vm_compute. apply list_elem_of_here.
Defined.

Lemma router_exchange_returns_witness :
  is_Some (Router_Exchange (example_router true limited_rules example_transports) None None
             (lookup_message example_question) None plain_options in_order 0 example_state).
Proof.
  apply (router_exchange_returns (example_router true limited_rules example_transports));
    [|exact I].
  intros round n Hn. do 3 (destruct n as [|n]; [reflexivity|]). vm_compute in Hn. lia.
Defined.


Lemma reverse_mapping_spec_witness :
  @LookupReverseMapping (Addr4 1) (600 * Second)
    (exchange_end 0 (Some (example_response, example_transport "remote" "udp"), None)
       example_state).2 = Some "example.com".
Proof.
  destruct (reverse_mapping_spec 0 example_response (example_transport "remote" "udp")
              example_state ∅ (Addr4 1) (600 * Second) eq_refl) as (Hmap & _).
  destruct (Hmap eq_refl) as [Hin _].
  rewrite (Hin [] (example_record 600 1) [example_record 300 2]).
  - vm_compute. reflexivity.
  - reflexivity.
  - reflexivity.
  - repeat constructor. discriminate.
Defined.

(** *** Behaviours worth knowing *)

(** A lookup that a predefined rule answers after an address-limited rule failed
    returns the predefined addresses together with the old error. *)
Example predefined_after_rejection_keeps_error :
  exists err s,
    Router_Lookup
      (example_router true [route_to ["remote"] true (fun _ => false); predefined_rule [example_record 60 9]]
         example_transports) None None "example.com" None plain_options in_order 0 example_state =
    Some (Ok ([Addr4 9], Some (ErrCause err "lookup example.com")), s).
Proof. eexists _, _. vm_compute. reflexivity. Qed.

(** Without rules and without a default server, a query fails as if its answer
    had been rejected before. *)
Example no_server_is_cached_rejection :
  Router_Exchange
    (example_router true [] {| tm_Transport := fun _ => None; tm_Default := None |}) None None
    (lookup_message example_question) None plain_options in_order 0 example_state =
  Some (Err ErrResponseRejectedCached, example_state).
Proof. vm_compute. reflexivity. Qed.

(** The options of a route-options rule are forgotten when the rule that
    follows rejects the answer. *)
Example rejected_rule_forgets_options :
  let r := example_router true
    [{| fx_action := Some (DNSActRouteOptions
          {| dr_Strategy := DomainStrategyIPv6Only; dr_DisableCache := false; dr_RewriteTTL := None;
             dr_ClientSubnet := PrefixInvalid; dr_ClientSubnetFromInbound := None |});
        fx_limit := false; fx_accepts := fun _ => true |};
     route_to ["remote"] true (fun _ => false); route_to ["remote"] false (fun _ => true)] example_transports in
  qo_Strategy (matchDNS r true None true InboundContextZero plain_options).1.2 = DomainStrategyIPv6Only /\
  qo_Strategy (matchDNS r true (Some 1%nat) true InboundContextZero plain_options).1.2 = DomainStrategyAsIS.
Proof. split; reflexivity. Qed.
