(* ===== verification/Lifecycle.v ===== *)
(** * adapter/lifecycle.go, adapter/lifecycle_legacy.go: starting and closing

    The stages of a start, the objects that go through them, and the loop that
    starts objects after the ones they depend on, which
    adapter/outbound/manager.go and dns/transport_manager.go share up to the
    words of their errors. *)

From stdpp Require Import base list strings gmap.
From Stdlib Require Import ZArith Lia.
From S2P Require Import Prelude GoStd.

Open Scope box_scope.

(** ** Stages *)

Inductive StartStage : Type :=
  | StartStateInitialize | StartStateStart | StartStatePostStart | StartStateStarted.

#[global] Instance StartStage_eq_dec : EqDecision StartStage.
Proof. solve_decision. Defined.

Definition stage_number (s : StartStage) : nat :=
  match s with
  | StartStateInitialize => 0
  | StartStateStart => 1
  | StartStatePostStart => 2
  | StartStateStarted => 3
  end.

Definition ListStartStages : list StartStage :=
  [StartStateInitialize; StartStateStart; StartStatePostStart; StartStateStarted].

Definition StartStage_String (s : StartStage) : string :=
  match s with
  | StartStateInitialize => "initialize"
  | StartStateStart => "start"
  | StartStatePostStart => "post-start"
  | StartStateStarted => "finish-start"
  end.

(** ** Objects with a life *)

(** How an object starts: an [adapter.Lifecycle] takes every stage, others have
    some of the old methods.  A method is its error. *)
Inductive Starter : Type :=
  | Lifecycle (start : StartStage -> option error)
  | Legacy (PreStart Start PostStart : option (option error)).

(** An inbound, outbound, endpoint, service or DNS transport: its identity as a
    pointer, and what the managers use of it. *)
Record Service : Type := {
  sv_id : nat;
  sv_tag : string;
  sv_type : string;
  sv_Dependencies : list string;
  sv_start : Starter;
  (** the error of [Close]; nothing for an object without that method *)
  sv_close : option (option error)
}.

(** What happens to objects, in order. *)
Inductive life_event : Type :=
  | Started (id : nat) (stage : StartStage)
  | Closed (id : nat).

#[global] Instance life_event_eq_dec : EqDecision life_event.
Proof. solve_decision. Defined.

(** [LegacyStart]: the error and the call made. *)
Definition LegacyStart (s : Service) (stage : StartStage) : option error * list life_event :=
  let call (method : option (option error)) :=
    match method with Some err => (err, [Started (sv_id s) stage]) | None => (None, []) end in
  match sv_start s with
  | Lifecycle start => (start stage, [Started (sv_id s) stage])
  | Legacy PreStart Start PostStart =>
      match stage with
      | StartStateInitialize => call PreStart
      | StartStateStart => call Start
      | StartStatePostStart => (None, [])
      | StartStateStarted => call PostStart
      end
  end.

(** [common.Close] on one object. *)
Definition Service_Close (s : Service) : option error * list life_event :=
  match sv_close s with Some err => (err, [Closed (sv_id s)]) | None => (None, []) end.

(** Calls in order until one fails: the error with the object it belongs to. *)
Fixpoint until_error {A} (f : A -> option error * list life_event) (l : list A)
    : option (A * error) * list life_event :=
  match l with
  | [] => (None, [])
  | x :: l =>
      match f x with
      | (Some err, log) => (Some (x, err), log)
      | (None, log) => let '(res, log') := until_error f l in (res, log ++ log')
      end
  end.

(** [adapter.Start] *)
Definition Start_services (stage : StartStage) (l : list Service) : option error * list life_event :=
  let '(res, log) := until_error (fun s => LegacyStart s stage) l in (snd <$> res, log).

(** [adapter.StartNamed]; the name of a service here is its tag. *)
Definition StartNamed (stage : StartStage) (l : list Service) : option error * list life_event :=
  let '(res, log) := until_error (fun s => LegacyStart s stage) l in
  ((fun '(s, err) => ErrCause err (StartStage_String stage +:+ " " +:+ sv_tag s)) <$> res, log).

(** ["start outbound/direct[tag]"] *)
Definition item_message (verb kind : string) (s : Service) : string :=
  verb +:+ " " +:+ kind +:+ "/" +:+ sv_type s +:+ "[" +:+ sv_tag s +:+ "]".

(** ** Starting by dependency *)

Section start.
Context (kind noun : string).

(** One pass over the objects: every one whose dependencies have started is
    started.  The result: the error of a start, the tags started, the objects
    started in this pass in order, and the calls. *)
Fixpoint start_round (items : list Service) (started : gset string)
    : option error * gset string * list Service * list life_event :=
  match items with
  | [] => (None, started, [], [])
  | s :: items =>
      if bool_decide (sv_tag s ∈ started) ||
         existsb (fun d => negb (bool_decide (d ∈ started))) (sv_Dependencies s) then
        start_round items started
      else
        let started := {[ sv_tag s ]} ∪ started in
        match LegacyStart s StartStateStart with
        | (Some err, log) => (Some (ErrCause err (item_message "start" kind s)), started, [s], log)
        | (None, log) =>
            let '(err, started, order, log') := start_round items started in
            (err, started, s :: order, log ++ log')
        end
  end.

(** The search for the reason, along first dependencies that have not started;
    its recursion is on a path of different tags. *)
Fixpoint lint (fuel : nat) (byTag : gmap string Service) (started : gset string) (oTree : list string)
    (oCurrent : Service) : option error :=
  match fuel with
  | O => None
  | S fuel =>
      let problem := default "" (List.find (fun d => negb (bool_decide (d ∈ started))) (sv_Dependencies oCurrent)) in
      if bool_decide (problem ∈ oTree) then
        Some (ErrNew ("circular " +:+ noun +:+ " dependency: " +:+ strings_Join oTree " -> " +:+ " -> " +:+ problem))
      else
        match byTag !! problem with
        | None => Some (ErrNew ("dependency[" +:+ problem +:+ "] not found for " +:+ noun +:+ "[" +:+
                                sv_tag oCurrent +:+ "]"))
        | Some s => lint fuel byTag started (oTree ++ [problem]) s
        end
  end.

(** [startOutbounds], [startTransports]: passes until all have started or none
    can.  Nothing when the fuel runs out. *)
Fixpoint start_loop (fuel : nat) (items : list Service) (byTag : gmap string Service)
    (started : gset string) : option (res unit) * list Service * list life_event :=
  match fuel with
  | O => (None, [], [])
  | S fuel =>
      match start_round items started with
      | (Some err, _, order, log) => (Some (Err err), order, log)
      | (None, started, order, log) =>
          if bool_decide (size started = length items) then (Some (Ok tt), order, log)
          else if bool_decide (order <> []) then
            let '(result, order', log') := start_loop fuel items byTag started in
            (result, order ++ order', log ++ log')
          else
            match List.find (fun s => negb (bool_decide (sv_tag s ∈ started))) items with
            | None => (Some (Panic "nil dereference"), order, log)
            | Some s =>
                (Err <$> lint (S (S (size byTag))) byTag started [sv_tag s] s, order, log)
            end
      end
  end.

Definition start_items (items : list Service) (byTag : gmap string Service)
    : option (res unit) * list Service * list life_event :=
  start_loop (S (length items)) items byTag ∅.
End start.

(** ** Theorems *)

Definition tags (l : list Service) : list string := map sv_tag l.

Section start_theorems.
Context (kind noun : string).

(** Every object comes after what it depends on, given the tags started
    before. *)
Fixpoint ordered (started : gset string) (order : list Service) : Prop :=
  match order with
  | [] => True
  | s :: order =>
      (forall d, d ∈ sv_Dependencies s -> d ∈ started) /\ sv_tag s ∉ started /\
      ordered ({[ sv_tag s ]} ∪ started) order
  end.

Definition tag_set (order : list Service) : gset string := list_to_set (tags order).

Lemma ordered_app started o1 o2 :
  ordered started (o1 ++ o2) <-> ordered started o1 /\ ordered (tag_set o1 ∪ started) o2.
Proof.
  revert started. induction o1 as [|s o1 IH]; intros started; simpl.
  - unfold tag_set. simpl. by rewrite (left_id_L ∅ (∪)); split; [|intros [_ ?]].
  - rewrite IH. unfold tag_set. simpl.
    replace ({[sv_tag s]} ∪ list_to_set (tags o1) ∪ started)
      with (list_to_set (tags o1) ∪ ({[sv_tag s]} ∪ started)) by set_solver.
    tauto.
Qed.

(** One pass: the objects started were not, come in order, and are of the list;
    after a pass without an error everything left lacks a dependency. *)
Lemma start_round_spec items started err started' order log :
  start_round kind items started = (err, started', order, log) ->
  started' = tag_set order ∪ started /\ ordered started order /\ order ⊆ items /\
  (err = None -> forall s, s ∈ items -> sv_tag s ∈ started' \/
     exists d, d ∈ sv_Dependencies s /\ d ∉ started).
Proof.
  revert started err started' order log. induction items as [|s items IH];
    intros started err started' order log; simpl.
  { intros [= <- <- <- <-]. unfold tag_set. simpl. split_and!; [set_solver|done|done|].
    by intros _ s ?%not_elem_of_nil. }
  destruct (bool_decide (sv_tag s ∈ started) || _) eqn:Hskip.
  { intros (Hs & Ho & Hsub & Hleft)%IH. split_and!; [done|done|set_solver|].
    intros He x [->|Hx]%elem_of_cons; [|by apply Hleft].
    apply orb_true_iff in Hskip as [Hin%bool_decide_eq_true|Hdep]; [left; set_solver|right].
    apply existsb_exists in Hdep as (d & Hd%list_elem_of_In & Hn%negb_true_iff%bool_decide_eq_false).
    by exists d. }
  apply orb_false_iff in Hskip as [Hnot%bool_decide_eq_false Hdeps].
  assert (Hd : forall d, d ∈ sv_Dependencies s -> d ∈ started).
  { intros d Hd. destruct (decide (d ∈ started)) as [|Hn]; [done|].
    assert (Ht : existsb (fun d => negb (bool_decide (d ∈ started))) (sv_Dependencies s) = true).
    { apply existsb_exists. exists d. split; [by apply list_elem_of_In|]. by rewrite bool_decide_false. }
    congruence. }
  destruct (LegacyStart s StartStateStart) as [[e|] log1].
  { intros [= <- <- <- <-]. unfold tag_set. simpl. split_and!; [set_solver|done|done|done|set_solver|done]. }
  destruct (start_round kind items ({[sv_tag s]} ∪ started)) as [[[err1 st1] o1] l1] eqn:Hr.
  intros [= <- <- <- <-]. apply IH in Hr as (-> & Ho & Hsub & Hleft).
  unfold tag_set in *. simpl. split_and!; [set_solver|done|done|done|set_solver|].
  intros He x [->|Hx]%elem_of_cons; [left; set_solver|].
  destruct (Hleft He x Hx) as [?|(d & Hdx & Hdn)]; [by left|]. right. exists d. set_solver.
Qed.

Lemma ordered_NoDup started order :
  ordered started order -> NoDup (tags order) /\ forall t, t ∈ tags order -> t ∉ started.
Proof.
  revert started. induction order as [|s order IH]; intros started; simpl.
  { intros _. split; [constructor|]. by intros t ?%not_elem_of_nil. }
  intros (_ & Hs & (Hn & Ht)%IH). split.
  - constructor; [|done]. intros Hin. apply Ht in Hin. set_solver.
  - intros t [->|Hin]%elem_of_cons; [done|]. apply Ht in Hin. set_solver.
Qed.

(** The calls of a pass are the starts of its objects. *)
Definition start_calls (order : list Service) : list life_event :=
  flat_map (fun s => (LegacyStart s StartStateStart).2) order.

Lemma start_round_calls items started err started' order log :
  start_round kind items started = (err, started', order, log) ->
  log = start_calls order /\
  ((forall s, s ∈ items -> (LegacyStart s StartStateStart).1 = None) -> err = None).
Proof.
  revert started err started' order log. induction items as [|s items IH];
    intros started err started' order log; simpl; [by intros [= <- <- <- <-]|].
  destruct (_ || _).
  { intros (Hl & He)%IH. split; [done|]. intros Hs. apply He. set_solver. }
  destruct (LegacyStart s StartStateStart) as [[e|] log1] eqn:Hs.
  { intros [= <- <- <- <-]. unfold start_calls. simpl. rewrite Hs, app_nil_r. split; [done|].
    intros Hall. specialize (Hall s ltac:(set_solver)). by rewrite Hs in Hall. }
  destruct (start_round kind items _) as [[[err1 st1] o1] l1] eqn:Hr.
  intros [= <- <- <- <-]. apply IH in Hr as (-> & He). unfold start_calls. simpl. rewrite Hs. split; [done|].
  intros Hall. apply He. set_solver.
Qed.

Lemma start_loop_ok fuel items byTag started order log :
  start_loop kind noun fuel items byTag started = (Some (Ok tt), order, log) ->
  ordered started order /\ order ⊆ items /\ size (tag_set order ∪ started) = length items /\
  log = start_calls order.
Proof.
  revert started order log. induction fuel as [|fuel IH]; intros started order log; [done|]. cbn [start_loop].
  destruct (start_round kind items started) as [[[[err|] st] o] l] eqn:Hr; [done|].
  apply start_round_calls in Hr as Hc. destruct Hc as [-> _].
  apply start_round_spec in Hr as (-> & Ho & Hsub & _).
  case_bool_decide as Hsize; [by intros [= <- <-]|]. case_bool_decide as Hne.
  - destruct (start_loop _ _ _ _ _ _) as [[r o'] l'] eqn:Hl. intros [= -> <- <-].
    apply IH in Hl as (Ho' & Hsub' & Hs' & ->). split_and!.
    + by apply ordered_app.
    + set_solver.
    + rewrite <- Hs'. f_equal. unfold tag_set, tags. rewrite map_app, list_to_set_app_L. set_solver.
    + unfold start_calls. by rewrite flat_map_app.
  - destruct (List.find _ items) as [s|]; [|done]. by destruct (lint _ _ _ _ _ _).
Qed.

Lemma tag_set_size order : NoDup (tags order) -> size (tag_set order) = length order.
Proof. intros Hn. unfold tag_set. rewrite size_list_to_set by done. apply length_map. Qed.

Lemma ordered_permutation items order :
  ordered ∅ order -> order ⊆ items -> NoDup (tags items) ->
  size (tag_set order ∪ ∅) = length items -> order ≡ₚ items.
Proof.
  intros Ho Hsub Hn Hs. apply ordered_NoDup in Ho as [Hno _].
  rewrite (right_id_L ∅ (∪)), tag_set_size in Hs by done.
  apply submseteq_length_Permutation; [|by rewrite Hs].
  apply NoDup_submseteq; [|done]. by apply NoDup_fmap_1 in Hno.
Qed.

(** C38 (objects start after what they need): when the start loop succeeds, it
    has started every object, each exactly once, and each only after all the
    objects it depends on; the calls made are the starts in that order. *)
Theorem startup_order items byTag order log :
  NoDup (tags items) ->
  start_items kind noun items byTag = (Some (Ok tt), order, log) ->
  order ≡ₚ items /\ log = start_calls order /\
  forall before s after, order = before ++ s :: after ->
    forall d, d ∈ sv_Dependencies s -> d ∈ tags before.
Proof.
  intros Hn Hs. apply start_loop_ok in Hs as (Ho & Hsub & Hsize & Hlog). split_and!; [|done|].
  - by apply ordered_permutation.
  - intros before s after -> d Hd. apply ordered_app in Ho as [_ [Hdep _]].
    apply Hdep in Hd. unfold tag_set in Hd. set_solver.
Qed.

(** Going through a list that is in order, everything has been started. *)
Lemma all_started order started :
  ordered ∅ order ->
  (forall s, s ∈ order -> sv_tag s ∈ started \/ exists d, d ∈ sv_Dependencies s /\ d ∉ started) ->
  tag_set order ⊆ started.
Proof.
  induction order as [|s order IH] using rev_ind; intros Ho Hall; [unfold tag_set; set_solver|].
  apply ordered_app in Ho as [Ho [Hd _]].
  assert (Hin : tag_set order ⊆ started) by (apply IH; [done|set_solver]).
  unfold tag_set, tags in *. rewrite map_app, list_to_set_app_L. simpl.
  destruct (Hall s) as [?|(d & Hds & Hdn)]; [set_solver|set_solver|].
  apply Hd in Hds. set_solver.
Qed.

Definition started_in (items : list Service) (started : gset string) : Prop := started ⊆ tag_set items.

Lemma tag_set_mono l l' : l ⊆ l' -> tag_set l ⊆ tag_set l'.
Proof.
  intros Hsub t. unfold tag_set, tags. rewrite !elem_of_list_to_set, !list_elem_of_fmap.
  intros (s & -> & Hs). exists s. auto.
Qed.

(** A pass that starts nothing leaves only objects that lack a dependency. *)
Lemma stuck_incomplete items started :
  NoDup (tags items) -> started_in items started -> size started <> length items ->
  exists s, List.find (fun s => negb (bool_decide (sv_tag s ∈ started))) items = Some s /\
            s ∈ items /\ sv_tag s ∉ started.
Proof.
  intros Hn Hin Hsize. destruct (List.find _ items) as [s|] eqn:Hf.
  - exists s. apply List.find_some in Hf as [Hs%list_elem_of_In Ht%negb_true_iff%bool_decide_eq_false]. done.
  - exfalso. apply Hsize. rewrite <- (tag_set_size items) by done. f_equal.
    apply set_eq. intros t. split; [by apply Hin|]. unfold tag_set, tags.
    rewrite elem_of_list_to_set, list_elem_of_fmap. intros (s & -> & Hs).
    pose proof (List.find_none _ _ Hf s (proj1 (list_elem_of_In _ _) Hs)) as Hb.
    by apply negb_false_iff, bool_decide_eq_true in Hb.
Qed.

Lemma lint_returns fuel byTag started oTree s :
  (size (dom byTag ∖ list_to_set oTree : gset string) < fuel)%nat ->
  is_Some (lint noun fuel byTag started oTree s).
Proof.
  revert oTree s. induction fuel as [|fuel IH]; intros oTree s Hf; [lia|]. simpl.
  set (problem := default "" _). case_bool_decide as Hin; [by eexists|].
  destruct (byTag !! problem) as [s'|] eqn:Hp; [|by eexists]. apply IH.
  assert (Hlt : (size (dom byTag ∖ list_to_set (oTree ++ [problem]) : gset string) <
                 size (dom byTag ∖ list_to_set oTree : gset string))%nat); [|lia].
  apply subset_size. apply elem_of_dom_2 in Hp. rewrite list_to_set_app_L. set_solver.
Qed.

Lemma started_in_round items started order :
  started_in items started -> order ⊆ items -> started_in items (tag_set order ∪ started).
Proof. intros Hin Hsub. unfold started_in in *. pose proof (tag_set_mono _ _ Hsub). set_solver. Qed.

Lemma started_size items started : started_in items started -> (size started <= length items)%nat.
Proof.
  intros Hin. etrans; [apply subseteq_size, Hin|]. unfold tag_set, tags.
  clear. induction items as [|s items IH]; simpl; [vm_compute; lia|].
  rewrite size_union_alt, size_singleton.
  assert (Hle : (size (list_to_set (map sv_tag items) ∖ {[sv_tag s]} : gset string) <=
                 size (list_to_set (map sv_tag items) : gset string))%nat) by (apply subseteq_size; set_solver).
  lia.
Qed.

Lemma round_progress started order :
  ordered started order -> order <> [] -> (size started < size (tag_set order ∪ started))%nat.
Proof.
  destruct order as [|s order]; [done|]. intros (_ & Hs & _) _. apply subset_size.
  unfold tag_set. simpl. set_solver.
Qed.

Lemma start_loop_total fuel items byTag started :
  NoDup (tags items) -> started_in items started -> (length items < fuel + size started)%nat ->
  exists r order log, start_loop kind noun fuel items byTag started = (Some r, order, log) /\
    (forall msg, r <> Panic msg) /\
    ((forall s, s ∈ items -> (LegacyStart s StartStateStart).1 = None) ->
     (exists order', order' ≡ₚ items /\ ordered ∅ order') -> r = Ok tt).
Proof.
  intros Hn. revert started. induction fuel as [|fuel IH]; intros started Hin Hf.
  { pose proof (started_size _ _ Hin). lia. }
  cbn [start_loop]. destruct (start_round kind items started) as [[[err st] o] l] eqn:Hr.
  apply start_round_calls in Hr as Hc. destruct Hc as [_ Hok].
  apply start_round_spec in Hr as (-> & Ho & Hsub & Hleft).
  pose proof (started_in_round _ _ _ Hin Hsub) as Hin'.
  destruct err as [err|].
  { eexists _, _, _. split_and!; [done|done|]. intros Hs _. by specialize (Hok Hs). }
  case_bool_decide as Hsize; [by eexists _, _, _|]. case_bool_decide as Hne.
  - pose proof (round_progress _ _ Ho Hne).
    destruct (IH (tag_set o ∪ started) Hin') as (r & o' & l' & -> & Hp & Hall); [lia|].
    by eexists _, _, _.
  - destruct (decide (o = [])) as [->|]; [|done].
    destruct (stuck_incomplete items _ Hn Hin' Hsize) as (s & -> & Hs & Hst).
    destruct (lint_returns (S (S (size byTag))) byTag (tag_set [] ∪ started) [sv_tag s] s) as [e He].
    { assert (Hle : (size (dom byTag ∖ list_to_set [sv_tag s] : gset string) <= size byTag)%nat); [|lia].
      rewrite <- (size_dom byTag). apply subseteq_size. set_solver. }
    rewrite He. eexists _, _, _. split_and!; [done|done|].
    intros Hno (order' & Hperm & Hord). exfalso. apply Hst.
    apply (all_started order'); [done| |].
    + intros x Hx. rewrite Hperm in Hx. destruct (Hleft eq_refl x Hx) as [?|(d & Hd & Hdn)]; [by left|].
      right. exists d. unfold tag_set. split; [done|]. set_solver.
    + unfold tag_set, tags. rewrite elem_of_list_to_set, list_elem_of_fmap.
      exists s. by rewrite Hperm.
Qed.

(** The start loop always
    returns, with success or an error and never a crash, and when no start
    method fails it succeeds if and only if the objects can be listed so that
    each comes after the ones it depends on; so its error means a missing
    dependency or a cycle. *)
Theorem start_succeeds_iff items byTag :
  NoDup (tags items) ->
  exists r order log, start_items kind noun items byTag = (Some r, order, log) /\
    (forall msg, r <> Panic msg) /\
    ((forall s, s ∈ items -> (LegacyStart s StartStateStart).1 = None) ->
     r = Ok tt <-> exists order', order' ≡ₚ items /\ ordered ∅ order').
Proof.
  intros Hn. destruct (start_loop_total (S (length items)) items byTag ∅ Hn)
    as (r & order & log & Hs & Hp & Hall); [unfold started_in; set_solver|lia|].
  exists r, order, log. split_and!; [done|done|]. intros Hok. split; [|by apply Hall].
  intros ->. apply start_loop_ok in Hs as (Ho & Hsub & Hsize & _). exists order.
  split; [by apply ordered_permutation|done].
Qed.
End start_theorems.

(** *** Instances *)

Definition example_service (id : nat) (tag : string) (deps : list string) : Service :=
  {| sv_id := id; sv_tag := tag; sv_type := "direct"; sv_Dependencies := deps;
     sv_start := Lifecycle (fun _ => None); sv_close := Some None |}.
Definition example_items : list Service :=
  [example_service 1 "proxy" ["relay"; "direct"]; example_service 2 "relay" ["direct"];
   example_service 3 "direct" []].
Definition cyclic_items : list Service :=
  [example_service 1 "a" ["b"]; example_service 2 "b" ["a"]; example_service 3 "direct" []].

Lemma example_items_start : Forall (fun s => (LegacyStart s StartStateStart).1 = None) example_items.
Proof. repeat constructor. Qed.

Lemma startup_order_witness :
  exists order, order ≡ₚ example_items /\ tags order = ["direct"; "relay"; "proxy"].
Proof.
  exists (reverse example_items).
  split; [|reflexivity].
  refine (proj1 (startup_order "outbound" "outbound" example_items ∅ (reverse example_items)
            [Started 3 StartStateStart; Started 2 StartStateStart; Started 1 StartStateStart] _ _)).
  - apply (bool_decide_unpack _). vm_compute. exact I.
  - vm_compute. reflexivity.
Defined.

Lemma start_succeeds_iff_witness :
  exists order, order ≡ₚ example_items /\ ordered ∅ order.
Proof.
  destruct (start_succeeds_iff "outbound" "outbound" example_items ∅) as (r & order & log & Hs & _ & Hiff).
  - apply (bool_decide_unpack _). vm_compute. exact I.
  - apply Hiff.
    + exact (proj1 (Forall_forall _ _) example_items_start).
    + vm_compute in Hs. by injection Hs as <- _ _.
Defined.

Example cyclic_start_fails :
  (start_items "outbound" "outbound" cyclic_items
     {[ "a" := example_service 1 "a" ["b"]; "b" := example_service 2 "b" ["a"] ]}).1.1 =
  Some (Err (ErrNew "circular outbound dependency: a -> b -> a")).
Proof. vm_compute. reflexivity. Qed.
