(* ===== verification/Managers.v ===== *)
(** * adapter/{inbound,outbound,endpoint,service}/manager.go, dns/transport_manager.go

    The managers of inbounds, services and endpoints share one state and one
    set of operations, here [Manager], parametrised by the word of their
    errors; the managers of outbounds and of DNS transports also keep a default
    and who depends on whom, here [DependManager].  Objects are compared by
    identity, as pointers are.  An operation returns its result, the new state
    and the calls it made. *)

From stdpp Require Import base list strings gmap.
From Stdlib Require Import ZArith Lia.
From S2P Require Import Prelude GoStd Lifecycle.

Open Scope box_scope.

(** ** Inbounds, services, endpoints *)

Record Manager : Type := {
  mg_started : bool;
  mg_stage : StartStage;
  mg_items : list Service;
  mg_byTag : gmap string Service
}.

Definition NewManager : Manager :=
  {| mg_started := false; mg_stage := StartStateInitialize; mg_items := []; mg_byTag := ∅ |}.

Definition with_items (items : list Service) (byTag : gmap string Service) (m : Manager) : Manager :=
  {| mg_started := mg_started m; mg_stage := mg_stage m; mg_items := items; mg_byTag := byTag |}.
Definition at_stage (stage : StartStage) (m : Manager) : Manager :=
  {| mg_started := true; mg_stage := stage; mg_items := mg_items m; mg_byTag := mg_byTag m |}.

(** [if m.started && m.stage >= stage { panic("already started") }] *)
Definition already_started (stage : StartStage) (m : Manager) : bool :=
  mg_started m && (stage_number stage <=? stage_number (mg_stage m))%nat.

Definition result (A : Type) : Type := res unit * A * list life_event.

Definition of_error (e : option error) : res unit := match e with Some e => Err e | None => Ok tt end.

(** One stage of every object in order, until one fails. *)
Definition start_stage (kind : string) (stage : StartStage) (items : list Service)
    : res unit * list life_event :=
  let '(err, log) := until_error (fun s => LegacyStart s stage) items in
  (match err with
   | Some (s, err) => Err (ErrCause err (item_message (StartStage_String stage) kind s))
   | None => Ok tt
   end, log).

Definition Manager_Start (kind : string) (stage : StartStage) (m : Manager) : result Manager :=
  if already_started stage m then (Panic "already started", m, [])
  else
    let '(r, log) := start_stage kind stage (mg_items m) in (r, at_stage stage m, log).

(** Endpoints are started with the outbounds. *)
Definition Endpoint_Start (stage : StartStage) (m : Manager) : result Manager :=
  if already_started stage m then (Panic "already started", m, [])
  else if decide (stage = StartStateStart) then (Ok tt, at_stage stage m, [])
  else
    let '(r, log) := start_stage "endpoint" stage (mg_items m) in (r, at_stage stage m, log).

(** Every object is closed; the errors are collected and dropped. *)
Definition Manager_Close (m : Manager) : result Manager :=
  if mg_started m then
    (Ok tt,
     {| mg_started := false; mg_stage := mg_stage m; mg_items := []; mg_byTag := mg_byTag m |},
     flat_map (fun s => (Service_Close s).2) (mg_items m))
  else (Ok tt, m, []).

Definition Endpoint_Get (tag : string) (m : Manager) : option Service := mg_byTag m !! tag.
Definition Service_Get (tag : string) (m : Manager) : option Service := mg_byTag m !! tag.

(** An inbound, or an endpoint of that tag. *)
Definition Inbound_Get (endpoints : Manager) (tag : string) (m : Manager) : option Service :=
  match mg_byTag m !! tag with Some s => Some s | None => Endpoint_Get tag endpoints end.

(** The list without the first object of an identity; nothing when there is
    none ([common.Index] gives -1). *)
Fixpoint take_out (id : nat) (l : list Service) : option (list Service) :=
  match l with
  | [] => None
  | s :: l => if sv_id s =? id then Some l else (cons s) <$> take_out id l
  end%nat.

Definition Manager_Remove (kind tag : string) (m : Manager) : result Manager :=
  match mg_byTag m !! tag with
  | None => (Err ErrInvalid, m, [])
  | Some s =>
      let byTag := delete tag (mg_byTag m) in
      match take_out (sv_id s) (mg_items m) with
      | None => (Panic ("invalid " +:+ kind +:+ " index"), with_items (mg_items m) byTag m, [])
      | Some items =>
          let m := with_items items byTag m in
          if mg_started m then let '(err, log) := Service_Close s in (of_error err, m, log)
          else (Ok tt, m, [])
      end
  end.

(** A new object of a running manager goes through all stages. *)
Definition catch_up (kind : string) (s : Service) : res unit * list life_event :=
  let '(err, log) := until_error (LegacyStart s) ListStartStages in
  (match err with
   | Some (stage, err) => Err (ErrCause err (item_message (StartStage_String stage) kind s))
   | None => Ok tt
   end, log).

(** The object a new one of the same tag replaces is closed, if the manager
    runs, and taken out of the list. *)
Definition replace_existing (started : bool) (kind index_kind tag : string) (m : Manager)
    : res (list Service) * list life_event :=
  match mg_byTag m !! tag with
  | None => (Ok (mg_items m), [])
  | Some old =>
      let '(err, log) := (if started then Service_Close old else (None, [])) in
      match err with
      | Some err => (Err (ErrCause err (item_message "close" kind old)), log)
      | None =>
          match take_out (sv_id old) (mg_items m) with
          | None => (Panic ("invalid " +:+ index_kind +:+ " index"), log)
          | Some items => (Ok items, log)
          end
      end
  end.

(** [Create]; [created] is the result of the registry. *)
Definition Manager_Create (kind tag : string) (created : res Service) (m : Manager) : result Manager :=
  match created with
  | Err e => (Err e, m, [])
  | Panic msg => (Panic msg, m, [])
  | Ok s =>
      let '(r, log) := (if mg_started m then catch_up kind s else (Ok tt, [])) in
      match r with
      | Err e => (Err e, m, log)
      | Panic msg => (Panic msg, m, log)
      | Ok _ =>
          match replace_existing (mg_started m) kind kind tag m with
          | (Err e, log') => (Err e, m, log ++ log')
          | (Panic msg, log') => (Panic msg, m, log ++ log')
          | (Ok items, log') =>
              (Ok tt, with_items (items ++ [s]) (<[tag := s]> (mg_byTag m)) m, log ++ log')
          end
      end
  end.

(** The operations of the three managers under their own names. *)
Definition Inbound_Start : StartStage -> Manager -> result Manager := Manager_Start "inbound".
Definition Inbound_Close : Manager -> result Manager := Manager_Close.
Definition Inbound_Remove : string -> Manager -> result Manager := Manager_Remove "inbound".
Definition Inbound_Create : string -> res Service -> Manager -> result Manager := Manager_Create "inbound".
Definition Service_Start : StartStage -> Manager -> result Manager := Manager_Start "service".
Definition ServiceManager_Close : Manager -> result Manager := Manager_Close.
Definition Service_Remove : string -> Manager -> result Manager := Manager_Remove "service".
Definition Service_Create : string -> res Service -> Manager -> result Manager := Manager_Create "service".
Definition Endpoint_Close : Manager -> result Manager := Manager_Close.
Definition Endpoint_Remove : string -> Manager -> result Manager := Manager_Remove "endpoint".
Definition Endpoint_Create : string -> res Service -> Manager -> result Manager := Manager_Create "endpoint".

(** ** Outbounds and DNS transports *)

Record DependManager : Type := {
  dm_base : Manager;
  dm_defaultTag : string;
  dm_dependByTag : gmap string (list string);
  dm_default : option Service
}.

Definition NewDependManager (defaultTag : string) : DependManager :=
  {| dm_base := NewManager; dm_defaultTag := defaultTag; dm_dependByTag := ∅; dm_default := None |}.

Definition with_base (b : Manager) (m : DependManager) : DependManager :=
  {| dm_base := b; dm_defaultTag := dm_defaultTag m; dm_dependByTag := dm_dependByTag m;
     dm_default := dm_default m |}.
Definition with_dependBy (d : gmap string (list string)) (m : DependManager) : DependManager :=
  {| dm_base := dm_base m; dm_defaultTag := dm_defaultTag m; dm_dependByTag := d;
     dm_default := dm_default m |}.
Definition with_default (s : option Service) (m : DependManager) : DependManager :=
  {| dm_base := dm_base m; dm_defaultTag := dm_defaultTag m; dm_dependByTag := dm_dependByTag m;
     dm_default := s |}.

(** The tags that depend on a tag; nil without an entry. *)
Definition depend_by (tag : string) (d : gmap string (list string)) : list string := default [] (d !! tag).

Definition add_dependencies (tag : string) (dependencies : list string) (d : gmap string (list string))
    : gmap string (list string) :=
  fold_left (fun d dependency => <[dependency := depend_by dependency d ++ [tag]]> d) dependencies d.

Definition drop_dependencies (tag : string) (dependencies : list string) (d : gmap string (list string))
    : gmap string (list string) :=
  fold_left (fun d dependency =>
    if (length (depend_by dependency d) =? 1)%nat then delete dependency d
    else <[dependency := List.filter (fun it => negb (bool_decide (it = tag))) (depend_by dependency d)]> d)
    dependencies d.

Definition same_service (a : option Service) (s : Service) : bool :=
  match a with Some a => (sv_id a =? sv_id s)%nat | None => false end.

Definition run_start (kind noun : string) (items : list Service) (m : DependManager)
    : result DependManager :=
  match start_items kind noun items (mg_byTag (dm_base m)) with
  | (Some r, _, log) => (r, m, log)
  | (None, _, log) => (Panic "out of fuel", m, log)
  end.

(** *** Outbounds *)

(** The start of the outbound manager: the default outbound is looked up among
    the endpoints or made by the fallback, then outbounds and endpoints start
    by dependency. *)
Definition Outbound_Start (endpoints : Manager) (fallback : res Service) (stage : StartStage)
    (m : DependManager) : result DependManager :=
  if already_started stage (dm_base m) then (Panic "already started", m, [])
  else
    let m := with_base (at_stage stage (dm_base m)) m in
    if decide (stage = StartStateStart) then
      let found :=
        match dm_default m with
        | Some _ => Ok (dm_default m)
        | None =>
            if decide (dm_defaultTag m = "") then Ok None
            else match Endpoint_Get (dm_defaultTag m) endpoints with
                 | Some e => Ok (Some e)
                 | None => Err (ErrNew ("default outbound not found: " +:+ dm_defaultTag m))
                 end
        end in
      match found with
      | Err e => (Err e, m, [])
      | Panic msg => (Panic msg, m, [])
      | Ok (Some d) =>
          let m := with_default (Some d) m in
          run_start "outbound" "outbound" (mg_items (dm_base m) ++ mg_items endpoints) m
      | Ok None =>
          match fallback with
          | Err e => (Err (ErrCause e "create direct outbound for fallback"), m, [])
          | Panic msg => (Panic msg, m, [])
          | Ok d =>
              let b := dm_base m in
              let m := with_default (Some d)
                         (with_base (with_items (mg_items b ++ [d]) (<[sv_tag d := d]> (mg_byTag b)) b) m) in
              run_start "outbound" "outbound" (mg_items (dm_base m) ++ mg_items endpoints) m
          end
      end
    else
      let '(r, log) := start_stage "outbound" stage (mg_items (dm_base m)) in (r, m, log).

Definition Depend_Close (m : DependManager) : result DependManager :=
  let '(r, b, log) := Manager_Close (dm_base m) in (r, with_base b m, log).

Definition Outbound_Get (endpoints : Manager) (tag : string) (m : DependManager) : option Service :=
  match mg_byTag (dm_base m) !! tag with Some s => Some s | None => Endpoint_Get tag endpoints end.

Definition Outbound_Default (m : DependManager) : option Service := dm_default m.

(** The end of a removal: refused when something depends on the object, which
    has been taken out already. *)
Definition finish_remove (noun tag : string) (s : Service) (drop_close_error : bool) (m : DependManager)
    : result DependManager :=
  match depend_by tag (dm_dependByTag m) with
  | (_ :: _) as dependBy =>
      (Err (ErrNew (noun +:+ "[" +:+ tag +:+ "] is depended by " +:+ strings_Join dependBy ", ")), m, [])
  | [] =>
      let m := with_dependBy (drop_dependencies tag (sv_Dependencies s) (dm_dependByTag m)) m in
      if mg_started (dm_base m) then
        let '(err, log) := Service_Close s in (if drop_close_error then Ok tt else of_error err, m, log)
      else (Ok tt, m, [])
  end.

Definition Outbound_Remove (tag : string) (m : DependManager) : result DependManager :=
  match mg_byTag (dm_base m) !! tag with
  | None => (Err ErrInvalid, m, [])
  | Some s =>
      let byTag := delete tag (mg_byTag (dm_base m)) in
      match take_out (sv_id s) (mg_items (dm_base m)) with
      | None => (Panic "invalid inbound index",
                 with_base (with_items (mg_items (dm_base m)) byTag (dm_base m)) m, [])
      | Some items =>
          let m := with_base (with_items items byTag (dm_base m)) m in
          let m := if same_service (dm_default m) s then with_default (head items) m else m in
          finish_remove "outbound" tag s false m
      end
  end.

(** The new object is in the list, under its tag, and with its dependencies. *)
Definition register (tag : string) (s : Service) (items : list Service) (m : DependManager) : DependManager :=
  with_dependBy (add_dependencies tag (sv_Dependencies s) (dm_dependByTag m))
    (with_base (with_items (items ++ [s]) (<[tag := s]> (mg_byTag (dm_base m))) (dm_base m)) m).

(** [if tag == m.defaultTag || (m.defaultTag == "" && m.defaultOutbound == nil)] *)
Definition becomes_default (tag : string) (m : DependManager) : bool :=
  bool_decide (tag = dm_defaultTag m) ||
  bool_decide (dm_defaultTag m = "") && match dm_default m with None => true | Some _ => false end.

(** The start of [Create], up to the registration. *)
Definition create_object (kind tag : string) (created : res Service) (m : DependManager)
    : res (Service * list Service) * list life_event :=
  if decide (tag = "") then (Err ErrInvalid, [])
  else
    match created with
    | Err e => (Err e, [])
    | Panic msg => (Panic msg, [])
    | Ok s =>
        let '(r, log) := (if mg_started (dm_base m) then catch_up kind s else (Ok tt, [])) in
        match r with
        | Err e => (Err e, log)
        | Panic msg => (Panic msg, log)
        | Ok _ =>
            let '(items, log') := replace_existing (mg_started (dm_base m)) kind "inbound" tag (dm_base m) in
            (let* items := items in Ok (s, items), log ++ log')
        end
    end.

Definition Outbound_Create (tag : string) (created : res Service) (m : DependManager)
    : result DependManager :=
  match create_object "outbound" tag created m with
  | (Err e, log) => (Err e, m, log)
  | (Panic msg, log) => (Panic msg, m, log)
  | (Ok (s, items), log) =>
      let registered := register tag s items m in
      (Ok tt, if becomes_default tag m then with_default (Some s) registered else registered, log)
  end.

(** *** DNS transports (dns/transport_manager.go) *)

Definition TransportTypeFakeIP : string := "fakeip".
Definition sv_is_fakeip (s : Service) : bool := bool_decide (sv_type s = TransportTypeFakeIP).

Record TransportManager : Type := {
  tm_base : DependManager;
  tm_defaultFallback : option Service;
  tm_fakeIP : option Service
}.

Definition NewTransportManager (defaultTag : string) : TransportManager :=
  {| tm_base := NewDependManager defaultTag; tm_defaultFallback := None; tm_fakeIP := None |}.

Definition with_depend (b : DependManager) (m : TransportManager) : TransportManager :=
  {| tm_base := b; tm_defaultFallback := tm_defaultFallback m; tm_fakeIP := tm_fakeIP m |}.

Definition TransportManager_Initialize (fallback : Service) (m : TransportManager) : TransportManager :=
  {| tm_base := tm_base m; tm_defaultFallback := Some fallback; tm_fakeIP := tm_fakeIP m |}.

Definition lift (r : result DependManager) (m : TransportManager) : result TransportManager :=
  let '(r, b, log) := r in (r, with_depend b m, log).

Definition TransportManager_Start (stage : StartStage) (m : TransportManager) : result TransportManager :=
  let d := tm_base m in
  if already_started stage (dm_base d) then (Panic "already started", m, [])
  else
    let d := with_base (at_stage stage (dm_base d)) d in
    if decide (stage = StartStateStart) then
      match dm_default d with
      | None =>
          if decide (dm_defaultTag d = "") then
            lift (run_start "dns" "server" (mg_items (dm_base d)) d) m
          else (Err (ErrNew ("default DNS server not found: " +:+ dm_defaultTag d)), with_depend d m, [])
      | Some _ => lift (run_start "dns" "server" (mg_items (dm_base d)) d) m
      end
    else
      let '(r, log) := start_stage "dns" stage (mg_items (dm_base d)) in (r, with_depend d m, log).

Definition TransportManager_Close (m : TransportManager) : result TransportManager :=
  lift (Depend_Close (tm_base m)) m.

Definition TransportManager_Transport (tag : string) (m : TransportManager) : option Service :=
  mg_byTag (dm_base (tm_base m)) !! tag.

Definition TransportManager_Default (m : TransportManager) : option Service :=
  match dm_default (tm_base m) with Some s => Some s | None => tm_defaultFallback m end.

Definition default_fakeip : error := ErrNew "default server cannot be fakeip".

(** The next default after a removal; the test of its type is the opposite of
    what its error says. *)
Definition next_default (items : list Service) : res (option Service) :=
  match items with
  | [] => Ok None
  | next :: _ => if negb (sv_is_fakeip next) then Err default_fakeip else Ok (Some next)
  end.

Definition TransportManager_Remove (tag : string) (m : TransportManager) : result TransportManager :=
  let d := tm_base m in
  match mg_byTag (dm_base d) !! tag with
  | None => (Err ErrInvalid, m, [])
  | Some s =>
      let byTag := delete tag (mg_byTag (dm_base d)) in
      match take_out (sv_id s) (mg_items (dm_base d)) with
      | None => (Panic "invalid inbound index",
                 with_depend (with_base (with_items (mg_items (dm_base d)) byTag (dm_base d)) d) m, [])
      | Some items =>
          let d := with_base (with_items items byTag (dm_base d)) d in
          if same_service (dm_default d) s then
            match next_default items with
            | Ok next => lift (finish_remove "server" tag s true (with_default next d)) m
            | Err e => (Err e, with_depend d m, [])
            | Panic msg => (Panic msg, with_depend d m, [])
            end
          else lift (finish_remove "server" tag s true d) m
      end
  end.

Definition TransportManager_Create (tag : string) (created : res Service) (m : TransportManager)
    : result TransportManager :=
  let d := tm_base m in
  match create_object "dns" tag created d with
  | (Err e, log) => (Err e, m, log)
  | (Panic msg, log) => (Panic msg, m, log)
  | (Ok (s, items), log) =>
      let registered := register tag s items d in
      if becomes_default tag d && sv_is_fakeip s then (Err default_fakeip, with_depend registered m, log)
      else
        let registered := if becomes_default tag d then with_default (Some s) registered else registered in
        if sv_is_fakeip s then
          match tm_fakeIP m with
          | Some _ => (Err (ErrNew "multiple fakeip server are not supported"), with_depend registered m, log)
          | None =>
              (Ok tt, {| tm_base := registered; tm_defaultFallback := tm_defaultFallback m;
                         tm_fakeIP := Some s |}, log)
          end
        else (Ok tt, with_depend registered m, log)
  end.

(** ** Theorems *)

(** The list and the table hold the same objects, under their tags. *)
Definition manager_wf (m : Manager) : Prop :=
  NoDup (map sv_id (mg_items m)) /\
  (forall tag s, mg_byTag m !! tag = Some s -> s ∈ mg_items m /\ sv_tag s = tag) /\
  (forall s, s ∈ mg_items m -> mg_byTag m !! sv_tag s = Some s).

Definition fresh (s : Service) (m : Manager) : Prop := sv_id s ∉ map sv_id (mg_items m).

Lemma take_out_found s l :
  NoDup (map sv_id l) -> s ∈ l -> exists l1 l2, l = l1 ++ s :: l2 /\ take_out (sv_id s) l = Some (l1 ++ l2).
Proof.
  induction l as [|x l IH]; intros Hn Hs; simpl; [by apply not_elem_of_nil in Hs|].
  apply NoDup_cons in Hn as [Hx Hn]. apply elem_of_cons in Hs as [<-|Hs].
  - exists [], l. split; [done|]. by rewrite Nat.eqb_refl.
  - assert (Hne : sv_id x <> sv_id s).
    { intros Heq. apply Hx. rewrite Heq. by apply list_elem_of_fmap_2. }
    destruct (IH Hn Hs) as (l1 & l2 & -> & ->). exists (x :: l1), l2. split; [done|].
    by rewrite (proj2 (Nat.eqb_neq _ _) Hne).
Qed.

Lemma wf_tag_inj m s s' : manager_wf m -> s ∈ mg_items m -> s' ∈ mg_items m -> sv_tag s = sv_tag s' -> s = s'.
Proof.
  intros (_ & _ & Hl) Hs Hs' Ht. apply Hl in Hs. apply Hl in Hs'. rewrite Ht in Hs. congruence.
Qed.

(** Taking an object out of a well-formed manager. *)
Lemma wf_take_out m s :
  manager_wf m -> mg_byTag m !! sv_tag s = Some s ->
  exists items, take_out (sv_id s) (mg_items m) = Some items /\
    (forall x, x ∈ items <-> x ∈ mg_items m /\ sv_tag x <> sv_tag s) /\ NoDup (map sv_id items) /\
    map sv_id items ⊆ map sv_id (mg_items m).
Proof.
  intros Hwf Hs. pose proof Hwf as (Hn & Hb & Hl). destruct (Hb _ _ Hs) as [Hin _].
  destruct (take_out_found s (mg_items m) Hn Hin) as (l1 & l2 & Heq & ->). exists (l1 ++ l2).
  rewrite Heq, map_app in Hn. simpl in Hn. apply NoDup_app in Hn as (Hn1 & Hd & [Hns Hn2]%NoDup_cons).
  split_and!; [done| | |].
  - intros x. split.
    + intros Hx. assert (Hxm : x ∈ mg_items m) by (rewrite Heq; set_solver). split; [done|].
      intros Ht. assert (x = s) as ->.
      { by apply (wf_tag_inj m). }
      apply elem_of_app in Hx as [Hx|Hx]; apply (list_elem_of_fmap_2 sv_id) in Hx.
      * apply (Hd _ Hx). set_solver.
      * by apply Hns.
    + rewrite Heq. intros [[Hx|[->|Hx]%elem_of_cons]%elem_of_app Ht]; [set_solver|done|set_solver].
  - rewrite map_app. apply NoDup_app. split_and!; [done| |done]. intros i Hi1 Hi2. apply (Hd i Hi1). set_solver.
  - rewrite Heq, !map_app. simpl. set_solver.
Qed.

(** A removed object of a running manager is closed, and the error of that is
    the result; one of a manager that does not run is not. *)
Definition removal_calls (s : Service) (m : Manager) (r : res unit) (log : list life_event) : Prop :=
  if mg_started m then
    Service_Close s = (match r with Err e => Some e | _ => None end, log) /\ forall msg, r <> Panic msg
  else r = Ok tt /\ log = [].

Lemma Manager_Remove_spec kind tag m :
  manager_wf m ->
  match mg_byTag m !! tag with
  | None => Manager_Remove kind tag m = (Err ErrInvalid, m, [])
  | Some s => exists r items log,
      Manager_Remove kind tag m = (r, with_items items (delete tag (mg_byTag m)) m, log) /\
      removal_calls s m r log /\ manager_wf (with_items items (delete tag (mg_byTag m)) m) /\
      forall x, x ∈ items <-> x ∈ mg_items m /\ sv_tag x <> tag
  end.
Proof.
  intros Hwf. unfold Manager_Remove. destruct (mg_byTag m !! tag) as [s|] eqn:Hs; [|done].
  pose proof Hwf as (Hn & Hb & Hl). destruct (Hb _ _ Hs) as [_ Ht]. rewrite <- Ht in Hs |- *.
  destruct (wf_take_out m s Hwf Hs) as (items & Htake & Hmem & Hnd & _). rewrite Htake.
  assert (Hwf' : manager_wf (with_items items (delete (sv_tag s) (mg_byTag m)) m)).
  { split_and!; simpl; [done| |].
    - intros tag' x Hx. apply lookup_delete_Some in Hx as [Hne Hx]. destruct (Hb _ _ Hx) as [? <-].
      split; [by apply Hmem|done].
    - intros x [Hx Hne]%Hmem. rewrite lookup_delete_ne by done. by apply Hl. }
  unfold removal_calls. simpl. destruct (mg_started _).
  - destruct (Service_Close s) as [[err|] log]; by eexists _, items, _.
  - by eexists _, items, _.
Qed.

Lemma wf_register m s items :
  manager_wf m -> fresh s m ->
  (forall x, x ∈ items <-> x ∈ mg_items m /\ sv_tag x <> sv_tag s) -> NoDup (map sv_id items) ->
  map sv_id items ⊆ map sv_id (mg_items m) ->
  manager_wf (with_items (items ++ [s]) (<[sv_tag s := s]> (mg_byTag m)) m).
Proof.
  intros (Hn & Hb & Hl) Hf Hmem Hnd Hsub. split_and!; simpl.
  - rewrite map_app. apply NoDup_app. split_and!; [done| |apply NoDup_singleton].
    intros i Hi ->%list_elem_of_singleton. by apply Hf, Hsub.
  - intros tag x. destruct (decide (tag = sv_tag s)) as [->|Hne].
    + rewrite lookup_insert_eq. intros [= <-]. set_solver.
    + rewrite lookup_insert_ne by done. intros [Hx <-]%Hb. split; [|done].
      apply elem_of_app. left. by apply Hmem.
  - intros x [[Hx Hne]%Hmem| ->%list_elem_of_singleton]%elem_of_app.
    + rewrite lookup_insert_ne by done. by apply Hl.
    + by rewrite lookup_insert_eq.
Qed.

Lemma replace_existing_spec (started : bool) kind index_kind tag m :
  manager_wf m ->
  let '(err, log) := match mg_byTag m !! tag with
                     | Some old => if started then Service_Close old else (None, [])
                     | None => (None, [])
                     end in
  exists r, replace_existing started kind index_kind tag m = (r, log) /\
  match err with
  | Some err => exists old, mg_byTag m !! tag = Some old /\ r = Err (ErrCause err (item_message "close" kind old))
  | None =>
      exists items, r = Ok items /\
        (forall x, x ∈ items <-> x ∈ mg_items m /\ sv_tag x <> tag) /\ NoDup (map sv_id items) /\
        map sv_id items ⊆ map sv_id (mg_items m)
  end.
Proof.
  intros Hwf. unfold replace_existing. pose proof Hwf as (Hn & Hb & Hl).
  destruct (mg_byTag m !! tag) as [old|] eqn:Hold.
  - destruct (if started then _ else _) as [[err|] log]; [by eauto|].
    destruct (Hb _ _ Hold) as [_ Ht]. rewrite <- Ht in Hold |- *.
    destruct (wf_take_out m old Hwf Hold) as (items & -> & Hmem & Hnd & Hsub). by eauto 10.
  - exists (Ok (mg_items m)). split; [done|]. exists (mg_items m). split_and!; [done| |done|done].
    intros x. split; [|tauto]. intros Hx. split; [done|]. intros <-. apply Hl in Hx. congruence.
Qed.

(** An object is taken through stages in order, up to the first that fails. *)
Inductive starts (s : Service) : list StartStage -> option (StartStage * error) -> list life_event -> Prop :=
  | starts_end : starts s [] None []
  | starts_stage stage stages log failed log' :
      LegacyStart s stage = (None, log) -> starts s stages failed log' -> starts s (stage :: stages) failed (log ++ log')
  | starts_fails stage stages err log :
      LegacyStart s stage = (Some err, log) -> starts s (stage :: stages) (Some (stage, err)) log.

Lemma until_error_starts s stages :
  starts s stages (until_error (LegacyStart s) stages).1 (until_error (LegacyStart s) stages).2.
Proof.
  induction stages as [|stage stages IH]; simpl; [constructor|].
  destruct (LegacyStart s stage) as [[err|] log] eqn:Hs; [by apply starts_fails|].
  destruct (until_error _ stages) as [failed log']. by apply starts_stage.
Qed.

(** The new object stands in place of the one of its tag, at the end of the
    list; nothing else changes. *)
Definition replaced (s : Service) (m m' : Manager) : Prop :=
  mg_byTag m' = <[sv_tag s := s]> (mg_byTag m) /\ last (mg_items m') = Some s /\
  (forall x, x ∈ mg_items m' <-> x = s \/ x ∈ mg_items m /\ sv_tag x <> sv_tag s) /\
  mg_started m' = mg_started m /\ mg_stage m' = mg_stage m.

(** How a new object is made: a manager that does not run keeps it.  One that
    runs takes it through all stages and then closes the object it replaces; if a
    stage or the closing fails the manager stays as it was, and the new object,
    which may have started, is not closed. *)
Definition creation (kind : string) (s : Service) (m : Manager) (r : res unit) (m' : Manager) (log : list life_event) : Prop :=
  if mg_started m then
    exists failed started_log,
      starts s [StartStateInitialize; StartStateStart; StartStatePostStart; StartStateStarted] failed started_log /\
      match failed with
      | Some (stage, err) =>
          r = Err (ErrCause err (item_message (StartStage_String stage) kind s)) /\ m' = m /\ log = started_log
      | None =>
          match mg_byTag m !! sv_tag s with
          | None => r = Ok tt /\ replaced s m m' /\ log = started_log
          | Some old =>
              let '(err, closed_log) := Service_Close old in
              log = started_log ++ closed_log /\
              match err with
              | Some err => r = Err (ErrCause err (item_message "close" kind old)) /\ m' = m
              | None => r = Ok tt /\ replaced s m m'
              end
          end
      end
  else r = Ok tt /\ replaced s m m' /\ log = [].

Lemma replaced_register s items m :
  (forall x, x ∈ items <-> x ∈ mg_items m /\ sv_tag x <> sv_tag s) ->
  replaced s m (with_items (items ++ [s]) (<[sv_tag s := s]> (mg_byTag m)) m).
Proof.
  intros Hmem. unfold replaced. simpl. split_and!; try done; [by rewrite last_snoc|].
  intros x. rewrite elem_of_app, Hmem, list_elem_of_singleton. tauto.
Qed.

Lemma Manager_Create_spec kind s m :
  manager_wf m -> fresh s m ->
  exists r m' log, Manager_Create kind (sv_tag s) (Ok s) m = (r, m', log) /\ creation kind s m r m' log /\
    (forall msg, r <> Panic msg) /\ manager_wf m'.
Proof.
  intros Hwf Hf. unfold Manager_Create, creation.
  pose proof (replace_existing_spec (mg_started m) kind kind (sv_tag s) m Hwf) as Hrep.
  destruct (mg_started m).
  - pose proof (until_error_starts s ListStartStages) as Hs. unfold catch_up.
    destruct (until_error _ _) as [[[stage err]|] log]; simpl in Hs.
    { eexists _, _, _. split; [done|]. split_and!; [|done..]. eexists _, _. split; [exact Hs|done]. }
    cbv iota in Hrep.
    destruct (match mg_byTag m !! sv_tag s with Some old => Service_Close old | None => (None, []) end)
      as [err log'] eqn:Hclose.
    destruct Hrep as (r & -> & Hr). destruct err as [err|].
    + destruct Hr as (old & Hold & ->). rewrite Hold in Hclose |- *. eexists _, _, _. split; [done|].
      split_and!; [|done..]. eexists _, _. split; [exact Hs|]. simpl. by rewrite Hclose.
    + destruct Hr as (items & -> & Hmem & Hnd & Hsub). eexists _, _, _. split; [done|].
      split_and!; [|done|by apply wf_register]. eexists _, _. split; [exact Hs|]. simpl.
      destruct (mg_byTag m !! sv_tag s) as [old|].
      * rewrite Hclose. split_and!; [done|done|by apply replaced_register].
      * injection Hclose as <-. rewrite app_nil_r. split_and!; [done|by apply replaced_register|done].
  - cbv iota in Hrep.
    destruct (match mg_byTag m !! sv_tag s with Some _ => (None, []) | None => (None, []) end) as [err log'] eqn:Hclose.
    assert (err = None /\ log' = []) as [-> ->] by (destruct (mg_byTag m !! sv_tag s); by injection Hclose as <- <-).
    destruct Hrep as (r & -> & items & -> & Hmem & Hnd & Hsub). eexists _, _, _. split; [done|].
    split_and!; [done|by apply replaced_register|done|done|by apply wf_register].
Qed.

(** The states of a manager that is never closed: objects are made, each a new
    one, stages start, objects are removed. *)
Inductive reachable (kind : string) : Manager -> Prop :=
  | reach_new : reachable kind NewManager
  | reach_create s m :
      reachable kind m -> fresh s m -> reachable kind (Manager_Create kind (sv_tag s) (Ok s) m).1.2
  | reach_remove tag m : reachable kind m -> reachable kind (Manager_Remove kind tag m).1.2
  | reach_start stage m : reachable kind m -> reachable kind (Manager_Start kind stage m).1.2
  | reach_start_endpoints stage m : reachable kind m -> reachable kind (Endpoint_Start stage m).1.2.

Lemma wf_start kind stage m : manager_wf m -> manager_wf (Manager_Start kind stage m).1.2.
Proof.
  intros Hwf. unfold Manager_Start. destruct (already_started stage m); [done|].
  by destruct (start_stage _ _ _).
Qed.

Lemma wf_start_endpoints stage m : manager_wf m -> manager_wf (Endpoint_Start stage m).1.2.
Proof.
  intros Hwf. unfold Endpoint_Start. destruct (already_started stage m); [done|]. destruct (decide _); [done|].
  by destruct (start_stage _ _ _).
Qed.

Lemma reachable_wf kind m : reachable kind m -> manager_wf m.
Proof.
  induction 1 as [|s m _ IH Hf|tag m _ IH|stage m _ IH|stage m _ IH].
  - split_and!; [constructor| |]; simpl.
    + intros tag s Hs. by rewrite lookup_empty in Hs.
    + by intros s ?%not_elem_of_nil.
  - by destruct (Manager_Create_spec kind s m IH Hf) as (r & m' & log & -> & _ & _ & Hwf).
  - pose proof (Manager_Remove_spec kind tag m IH) as Hs. destruct (mg_byTag m !! tag).
    + by destruct Hs as (r & items & log & -> & _ & Hwf & _).
    + by rewrite Hs.
  - by apply wf_start.
  - by apply wf_start_endpoints.
Qed.

(** C39 (inbounds, services and endpoints are never lost): in every state the
    manager of one of the three reaches before it is closed, its list and its table
    hold the same objects under their own tags.  Making a new object never crashes:
    a running manager takes it through all stages and then closes the object it
    replaces, a manager that does not run only keeps it; on success it stands in
    place of the one of the same tag and nothing else changes, on failure the
    manager is as it was.  Removing a tag takes out exactly the object of that tag,
    which is closed when the manager runs; an unknown tag is refused. *)
Theorem manager_consistent kind m :
  reachable kind m ->
  manager_wf m /\
  (forall s, fresh s m ->
     exists r m' log, Manager_Create kind (sv_tag s) (Ok s) m = (r, m', log) /\ creation kind s m r m' log) /\
  (forall tag s, mg_byTag m !! tag = Some s ->
     exists r m' log, Manager_Remove kind tag m = (r, m', log) /\ removal_calls s m r log /\
       mg_byTag m' = delete tag (mg_byTag m) /\
       forall x, x ∈ mg_items m' <-> x ∈ mg_items m /\ sv_tag x <> tag) /\
  (forall tag, mg_byTag m !! tag = None -> Manager_Remove kind tag m = (Err ErrInvalid, m, [])).
Proof.
  intros Hr. apply reachable_wf in Hr as Hwf. split_and!; [done| | |].
  - intros s Hf. destruct (Manager_Create_spec kind s m Hwf Hf) as (r & m' & log & Hc & Hcr & _).
    by exists r, m', log.
  - intros tag s Hs. pose proof (Manager_Remove_spec kind tag m Hwf) as Hrm. rewrite Hs in Hrm.
    destruct Hrm as (r & items & log & Hrm & Hp & _ & Hx). eexists r, _, log. by split_and!.
  - intros tag Hs. pose proof (Manager_Remove_spec kind tag m Hwf) as Hrm. by rewrite Hs in Hrm.
Qed.

(** *** The default outbound *)

(** The outbounds made under new tags and removed. *)
Inductive outbound_reachable (defaultTag : string) : DependManager -> Prop :=
  | outbound_new : outbound_reachable defaultTag (NewDependManager defaultTag)
  | outbound_create s m :
      outbound_reachable defaultTag m -> fresh s (dm_base m) ->
      mg_byTag (dm_base m) !! sv_tag s = None ->
      outbound_reachable defaultTag (Outbound_Create (sv_tag s) (Ok s) m).1.2
  | outbound_remove tag m :
      outbound_reachable defaultTag m -> outbound_reachable defaultTag (Outbound_Remove tag m).1.2.

Definition default_listed (m : DependManager) : Prop :=
  manager_wf (dm_base m) /\
  (forall d, dm_default m = Some d -> d ∈ mg_items (dm_base m)) /\
  (dm_defaultTag m = "" -> dm_default m = None -> mg_items (dm_base m) = []).

Lemma finish_remove_keeps noun tag s dropped m :
  let m' := (finish_remove noun tag s dropped m).1.2 in
  dm_base m' = dm_base m /\ dm_default m' = dm_default m /\ dm_defaultTag m' = dm_defaultTag m.
Proof.
  unfold finish_remove. destruct (depend_by tag _); [|done]. simpl.
  destruct (mg_started _); [|done]. by destruct (Service_Close s).
Qed.

Lemma default_listed_remove tag m : default_listed m -> default_listed (Outbound_Remove tag m).1.2.
Proof.
  intros (Hwf & Hd & He). unfold Outbound_Remove.
  destruct (mg_byTag (dm_base m) !! tag) as [s|] eqn:Hs; [|done].
  pose proof (Manager_Remove_spec "outbound" tag (dm_base m) Hwf) as Hrm. unfold Manager_Remove in Hrm.
  rewrite Hs in Hrm. pose proof Hwf as (_ & Hb & _). destruct (Hb _ _ Hs) as [Hin Ht].
  destruct (wf_take_out (dm_base m) s Hwf) as (items & Htake & Hmem & _ & _); [by rewrite Ht|].
  rewrite Htake in Hrm |- *.
  assert (Hwf' : manager_wf (with_items items (delete tag (mg_byTag (dm_base m))) (dm_base m))).
  { clear -Hrm. destruct (mg_started _);
      [destruct (Service_Close s)|]; destruct Hrm as (? & ? & ? & [= <- <- <-] & _ & Hwf & _); exact Hwf. }
  clear Hrm. set (b := with_items items _ _) in *. set (m1 := with_base b m).
  set (m2 := if same_service (dm_default m1) s then with_default (head items) m1 else m1).
  destruct (finish_remove_keeps "outbound" tag s false m2) as (Hb2 & Hd2 & Ht2). cbn zeta in *.
  unfold default_listed. rewrite Hb2, Hd2, Ht2.
  assert (Hbase : dm_base m2 = b) by (unfold m2; by destruct (same_service _ _)).
  assert (Htag : dm_defaultTag m2 = dm_defaultTag m) by (unfold m2; by destruct (same_service _ _)).
  rewrite Hbase, Htag. split; [done|]. unfold m2. simpl. destruct (dm_default m) as [d|] eqn:Hdef; simpl.
  - destruct (Nat.eqb_spec (sv_id d) (sv_id s)) as [Hid|Hid]; simpl.
    + split; [by destruct items; [|intros ? [= <-]; apply list_elem_of_here]|]. by destruct items.
    + rewrite Hdef. split; [|done]. intros ? [= <-]. apply Hmem. split; [by apply Hd|]. intros Heq.
      apply Hid. by rewrite (wf_tag_inj _ _ _ Hwf (Hd d eq_refl) Hin Heq).
  - rewrite Hdef. split; [done|]. intros Hdt _. specialize (He Hdt eq_refl). rewrite He in Hin.
    by apply not_elem_of_nil in Hin.
Qed.

Lemma default_listed_create s m :
  default_listed m -> fresh s (dm_base m) -> mg_byTag (dm_base m) !! sv_tag s = None ->
  default_listed (Outbound_Create (sv_tag s) (Ok s) m).1.2.
Proof.
  intros Hl Hf Hnone. pose proof Hl as (Hwf & Hd & He). unfold Outbound_Create, create_object.
  destruct (decide (sv_tag s = "")); [done|].
  destruct (if mg_started _ then _ else _) as [r log].
  destruct r as [[]|e|msg]; [|done|done].
  pose proof (replace_existing_spec (mg_started (dm_base m)) "outbound" "inbound" (sv_tag s) (dm_base m) Hwf) as Hrep.
  unfold replace_existing in *. rewrite Hnone in *. cbn [res_bind].
  destruct Hrep as (items & Hitems & ? & -> & Hmem & Hnd & Hsub). injection Hitems as <-.
  pose proof (wf_register (dm_base m) s _ Hwf Hf Hmem Hnd Hsub) as Hwf'.
  unfold default_listed. destruct (becomes_default (sv_tag s) m) eqn:Hbd; simpl.
  - split_and!; [done| |done]. intros d [= <-]. set_solver.
  - split_and!; [done| |].
    + intros d Hdd. apply elem_of_app. left. by apply Hd.
    + intros Hdt Hdn. unfold becomes_default in Hbd. rewrite Hdt, Hdn in Hbd.
      by rewrite orb_comm in Hbd.
Qed.

Lemma default_listed_reachable defaultTag m : outbound_reachable defaultTag m -> default_listed m.
Proof.
  induction 1 as [|s m _ IH Hf Hn|tag m _ IH].
  - split_and!; [|done|done]. exact (reachable_wf "outbound" NewManager (reach_new _)).
  - by apply default_listed_create.
  - by apply default_listed_remove.
Qed.

(** As long as outbounds are made
    under new tags and removed, also when a removal is refused because others
    depend on the outbound, the default outbound is one of the list, and when
    no default was configured there is one whenever the list is not empty. *)
Theorem default_outbound_listed defaultTag m :
  outbound_reachable defaultTag m ->
  (forall d, Outbound_Default m = Some d -> d ∈ mg_items (dm_base m)) /\
  (dm_defaultTag m = "" -> Outbound_Default m = None -> mg_items (dm_base m) = []).
Proof. intros (_ & Hd & He)%default_listed_reachable. by split. Qed.

(** *** Instances *)

Definition sample (id : nat) (tag type : string) (deps : list string) : Service :=
  {| sv_id := id; sv_tag := tag; sv_type := type; sv_Dependencies := deps;
     sv_start := Lifecycle (fun _ => None); sv_close := Some None |}.
Definition one_inbound : Manager := (Manager_Create "inbound" "in" (Ok (sample 1 "in" "tun" [])) NewManager).1.2.

Lemma one_inbound_reachable : reachable "inbound" one_inbound.
Proof.
  refine (reach_create "inbound" (sample 1 "in" "tun" []) NewManager (reach_new _) _).
  by intros ?%not_elem_of_nil.
Qed.

Lemma manager_consistent_witness :
  exists r m' log, Manager_Remove "inbound" "in" one_inbound = (r, m', log) /\ mg_byTag m' = ∅.
Proof.
  destruct (manager_consistent "inbound" one_inbound one_inbound_reachable) as (_ & _ & Hrm & _).
  destruct (Hrm "in" (sample 1 "in" "tun" [])) as (r & m' & log & Hr & _ & Hb & _).
  - reflexivity.
  - exists r, m', log. split; [exact Hr|]. rewrite Hb. reflexivity.
Defined.

Definition two_outbounds : DependManager :=
  (Outbound_Create "b" (Ok (sample 2 "b" "direct" ["a"]))
     (Outbound_Create "a" (Ok (sample 1 "a" "direct" [])) (NewDependManager "")).1.2).1.2.

Lemma two_outbounds_reachable : outbound_reachable "" two_outbounds.
Proof.
  apply (outbound_create "" (sample 2 "b" "direct" ["a"])).
  - apply (outbound_create "" (sample 1 "a" "direct" [])); [apply outbound_new|by intros ?%not_elem_of_nil|done].
  - vm_compute. by intros [?|?%not_elem_of_nil]%elem_of_cons.
  - done.
Qed.

Lemma default_outbound_listed_witness :
  exists d, Outbound_Default two_outbounds = Some d /\ d ∈ mg_items (dm_base two_outbounds).
Proof.
  exists (sample 1 "a" "direct" []). split; [reflexivity|].
  apply (default_outbound_listed "" two_outbounds two_outbounds_reachable). reflexivity.
Defined.

(** *** Behaviours worth knowing *)

(** [Close] empties the list and keeps the table: removing an inbound of a
    closed manager crashes. *)
Example removal_after_close_crashes :
  let m := (Manager_Close (Manager_Start "inbound" StartStateInitialize one_inbound).1.2).1.2 in
  (Manager_Remove "inbound" "in" m).1.1 = Panic "invalid inbound index".
Proof. vm_compute. reflexivity. Qed.

(** A removal refused because others depend on the outbound has removed it. *)
Example refused_removal_removes :
  let '(r, m, _) := Outbound_Remove "a" two_outbounds in
  r = Err (ErrNew "outbound[a] is depended by b") /\ mg_byTag (dm_base m) !! "a" = None /\
  map sv_tag (mg_items (dm_base m)) = ["b"].
Proof. vm_compute. split_and!; reflexivity. Qed.

(** Without a configured default, replacing the default outbound leaves the
    replaced and closed object as the default. *)
Example replaced_default_stays :
  let '(_, m, _) := Outbound_Create "a" (Ok (sample 3 "a" "direct" [])) two_outbounds in
  option_map sv_id (Outbound_Default m) = Some 1%nat /\ map sv_id (mg_items (dm_base m)) = [2; 3]%nat.
Proof. vm_compute. split_and!; reflexivity. Qed.

(** A replaced outbound keeps its entries in the table of dependencies. *)
Example replaced_dependencies_stay :
  let m := (Outbound_Create "b" (Ok (sample 3 "b" "direct" [])) two_outbounds).1.2 in
  (Outbound_Remove "a" m).1.1 = Err (ErrNew "outbound[a] is depended by b").
Proof. vm_compute. reflexivity. Qed.

Definition transports (l : list Service) : TransportManager :=
  fold_left (fun m s => (TransportManager_Create (sv_tag s) (Ok s) m).1.2) l (NewTransportManager "").

(** Removing the default DNS server fails when the next server is an ordinary
    one, and makes a fake-IP server the default when that is next. *)
Example default_transport_removal_inverted :
  (TransportManager_Remove "a" (transports [sample 1 "a" "udp" []; sample 2 "b" "udp" []])).1.1 =
    Err default_fakeip /\
  option_map sv_tag (TransportManager_Default
    (TransportManager_Remove "a" (transports [sample 1 "a" "udp" []; sample 2 "f" "fakeip" []])).1.2) =
    Some "f".
Proof. vm_compute. split_and!; reflexivity. Qed.
