(* ===== verification/Sniff.v ===== *)
(** * common/sniff: recognising a protocol from its first bytes

    The sniffers of common/sniff but the QUIC one, and the two loops that run
    them over a stream and over a packet.  Bytes are [Z]; a reader is the list
    of chunks of an [io.MultiReader] over byte slices.  The parsers of other
    packages (HTTP, TLS, DNS) and the QUIC sniffer are the class [SniffLib].  A
    connection is the list of what its reads will return. *)

From stdpp Require Import base list strings gmap.
From Stdlib Require Import ZArith Lia Ascii.
From S2P Require Import Prelude GoStd External Adapter RuleAction DnsMsg.

Open Scope Z_scope.
Open Scope box_scope.

(** ** The rest of adapter.InboundContext

    What only the router and the sniffers look at, around the context the
    rules see. *)

Record InboundOptions : Type := {
  SniffEnabled : bool;
  SniffOverrideDestination : bool;
  SniffTimeout : Z;
  io_DomainStrategy : DomainStrategy;
  io_UDPDisableDomainUnmapping : bool;
  io_Detour : string
}.

#[global] Instance InboundOptions_eq_dec : EqDecision InboundOptions.
Proof. solve_decision. Defined.

Definition InboundOptionsZero : InboundOptions :=
  Build_InboundOptions false false 0 DomainStrategyAsIS false "".

Record qCryptoFragment : Type := { qf_offset : Z; qf_length : Z; qf_payload : list Z }.

Record Metadata : Type := {
  md : InboundContext;
  md_SniffContext : option (list qCryptoFragment);
  md_InboundDetour : string;
  md_InboundOptions : InboundOptions
}.

(** An assignment to the context the rules see. *)
Definition on_md (f : InboundContext -> InboundContext) (m : Metadata) : Metadata :=
  {| md := f (md m); md_SniffContext := md_SniffContext m;
     md_InboundDetour := md_InboundDetour m; md_InboundOptions := md_InboundOptions m |}.
Definition with_InboundOptions (o : InboundOptions) (m : Metadata) : Metadata :=
  {| md := md m; md_SniffContext := md_SniffContext m;
     md_InboundDetour := md_InboundDetour m; md_InboundOptions := o |}.
Definition with_InboundDetour (detour : string) (m : Metadata) : Metadata :=
  {| md := md m; md_SniffContext := md_SniffContext m;
     md_InboundDetour := detour; md_InboundOptions := md_InboundOptions m |}.
Definition with_SniffContext (c : option (list qCryptoFragment)) (m : Metadata) : Metadata :=
  {| md := md m; md_SniffContext := c;
     md_InboundDetour := md_InboundDetour m; md_InboundOptions := md_InboundOptions m |}.

(** ** Readers *)

(** The chunks that have not been read yet. *)
Abbreviation reader := (list (list Z)).

(** [io.MultiReader]: one [Read] takes from the first chunk that has bytes. *)
Fixpoint reader_Read (n : nat) (r : reader) : list Z * option error * reader :=
  match r with
  | [] => ([], Some ErrEOF, [])
  | [] :: r => reader_Read n r
  | chunk :: r => (take n chunk, None, drop n chunk :: r)
  end.

(** What is left after [n] bytes were read. *)
Fixpoint skip_bytes (n : nat) (r : reader) : reader :=
  match r with
  | [] => []
  | chunk :: r => if (n <=? length chunk)%nat then drop n chunk :: r else skip_bytes (n - length chunk) r
  end.

(** [io.ReadFull] *)
Definition io_ReadFull (n : nat) (r : reader) : list Z * option error * reader :=
  let all := concat r in
  if (n <=? length all)%nat then (take n all, None, skip_bytes n r)
  else (all, Some (if decide (all = []) then ErrEOF else ErrUnexpectedEOF), []).

(** [binary.Read] of an unsigned integer of [n] bytes. *)
Definition binary_Read (n : nat) (r : reader) : res (Z * reader) :=
  match io_ReadFull n r with
  | (data, None, r) => Ok (big_endian data, r)
  | (_, Some err, _) => Err err
  end.

(** [rw.SkipN], an [io.CopyN] to [io.Discard]. *)
Definition SkipN (n : nat) (r : reader) : res reader :=
  let all := concat r in
  if (n <=? length all)%nat then Ok (skip_bytes n r) else Err ErrEOF.

Definition ErrNeedMoreData : error := ErrNew "need more data".

(** [E.Cause1(ErrNeedMoreData, err)] *)
Definition need_more (err : error) : error := ErrCauseErr ErrNeedMoreData err.
Definition or_need_more {A} (r : res A) : res A :=
  match r with Err err => Err (need_more err) | r => r end.

(** [if data != want { return os.ErrInvalid }] *)
Definition expect (b : bool) : res unit := if b then Ok tt else Err ErrInvalid.

(** ** Protocol names (constant/protocol.go) *)

Definition ProtocolTLS : string := "tls".
Definition ProtocolHTTP : string := "http".
Definition ProtocolQUIC : string := "quic".
Definition ProtocolDNS : string := "dns".
Definition ProtocolSTUN : string := "stun".
Definition ProtocolBitTorrent : string := "bittorrent".
Definition ProtocolDTLS : string := "dtls".
Definition ProtocolSSH : string := "ssh".
Definition ProtocolRDP : string := "rdp".
Definition ProtocolNTP : string := "ntp".

(** ** Stream sniffers: what they check *)

Definition bittorrent_header : list Z := bytes_of "BitTorrent protocol".

Definition check_BitTorrent (r : reader) : res unit :=
  let* '(first, r) := or_need_more (binary_Read 1 r) in
  let* _ := expect (first =? 19) in
  let '(protocol, err, _) := reader_Read 19 r in
  let* _ := expect (bool_decide (protocol = take (length protocol) bittorrent_header)) in
  match err with
  | Some err => Err (need_more err)
  | None => if (length protocol <? 19)%nat then Err ErrNeedMoreData else Ok tt
  end.

(** One field of the RDP header: [n] bytes that must satisfy [ok]. *)
Definition rdp_field (n : nat) (ok : Z -> bool) (r : reader) : res reader :=
  let* '(v, r) := or_need_more (binary_Read n r) in let* _ := expect (ok v) in Ok r.

Definition check_RDP (r : reader) : res unit :=
  let* r := rdp_field 1 (fun tpktVersion => tpktVersion =? 3) r in
  let* r := rdp_field 1 (fun tpktReserved => tpktReserved =? 0) r in
  let* r := rdp_field 2 (fun tpktLength => tpktLength =? 19) r in
  let* r := rdp_field 1 (fun cotpLength => cotpLength =? 14) r in
  let* r := rdp_field 1 (fun cotpTpduType => cotpTpduType =? 224) r in
  let* r := or_need_more (SkipN 5 r) in
  let* r := rdp_field 1 (fun rdpType => rdpType =? 1) r in
  let* r := rdp_field 1 (fun _rdpFlags => true) r in
  let* _ := rdp_field 1 (fun rdpLength => rdpLength =? 8) r in
  Ok tt.

Definition sshPrefix : list Z := bytes_of "SSH-2.0-".

(** [bufio.Reader.ReadLine] on a fresh reader with its default buffer. *)
Definition bufio_size : nat := 4096.
Definition newline : Z := 10.
Definition carriage_return : Z := 13.

Fixpoint until_newline (l : list Z) : option (list Z) :=
  match l with
  | [] => None
  | b :: l => if b =? newline then Some [] else cons b <$> until_newline l
  end.
Definition drop_last_cr (l : list Z) : list Z :=
  match reverse l with
  | b :: l' => if b =? carriage_return then reverse l' else l
  | [] => []
  end.
Definition bufio_ReadLine (all : list Z) : list Z :=
  match until_newline (take bufio_size all) with
  | Some line => drop_last_cr line
  | None => if (bufio_size <=? length all)%nat then drop_last_cr (take bufio_size all) else all
  end.

(** The client's identification, without the prefix. *)
Definition check_SSH (r : reader) : res string :=
  let all := concat r in
  let prefix := take 8 all in
  let* _ := expect (bool_decide (prefix = take (length prefix) sshPrefix)) in
  if (length prefix <? 8)%nat then Err (need_more ErrEOF)
  else Ok (string_of_bytes (drop 8 (bufio_ReadLine all))).

(** Byte [i] of a packet of which [n] bytes have arrived, when there. *)
Definition byte_at (packet : list Z) (i : nat) : Z := default 0 (packet !! i).

Section sniffers.
(** The parsers of other packages. *)
Class SniffLib : Type := {
  (** sing, protocol/http: the Host of a request *)
  http_ReadRequest : list Z -> error + string;
  (** crypto/tls: the server name of the client hello when one was read, and
      the error of the handshake *)
  tls_Handshake : list Z -> option string * option error;
  (** miekg/dns *)
  dns_Unpack : list Z -> error + DMsg;
  (** sing, common/metadata *)
  ParseSocksaddr : string -> Socksaddr;
  IsDomainName : string -> bool;
  (** common/sniff/quic.go *)
  QUICClientHello_sniff : list Z -> Metadata -> option error * Metadata
}.
Context `{External, SniffLib}.

(** [DomainNameQuery]: the error, or whether the packet is a query *)
Definition check_DomainNameQuery (packet : list Z) : res bool :=
  match dns_Unpack packet with
  | inl err => Err err
  | inr msg =>
      Ok (negb (msg_Response msg || bool_decide (msg_Question msg = []) ||
                negb (bool_decide (msg_Answer msg = [])) || negb (bool_decide (msg_Ns msg = []))))
  end.

(** The test of header byte [i]: nothing is known before it has arrived. *)
Definition arrived (packet : list Z) (i : nat) (ok : Z -> bool) : bool :=
  negb (i <? length packet)%nat || ok (byte_at packet i).

Definition check_StreamDomainNameQuery (r : reader) : res bool :=
  let* '(len, r) := or_need_more (binary_Read 2 r) in
  let* _ := expect (negb (len <? 12)) in
  let '(packet, err, _) := io_ReadFull (Z.to_nat len) r in
  let* _ := expect (arrived packet 2 (fun b => Z.land b 128 =? 0)) in
  let* _ := expect (arrived packet 5 (fun b => negb ((byte_at packet 4 =? 0) && (b =? 0)))) in
  let* _ := expect (forallb (fun i => arrived packet i (fun b => b =? 0)) [6; 7; 8; 9]%nat) in
  match err with
  | Some err => Err (need_more err)
  | None => check_DomainNameQuery packet
  end.

(** ** Packet sniffers: what they check *)

Definition check_STUNMessage (packet : list Z) : res unit :=
  if (length packet <? 20)%nat then Err ErrInvalid
  else
    let* _ := expect (big_endian (take 4 (drop 4 packet)) =? 0x2112A442) in
    expect (negb (Z.of_nat (length packet) <? 20 + big_endian (take 2 (drop 2 packet)))).

Definition check_UDPTracker (packet : list Z) : res unit :=
  if (length packet <? 16)%nat then Err ErrInvalid
  else
    let* _ := expect (big_endian (take 8 packet) =? 0x41727101980) in
    expect (big_endian (take 4 (drop 8 packet)) =? 0).

Definition check_DTLSRecord (packet : list Z) : res unit :=
  if (length packet <? 13)%nat then Err ErrInvalid
  else
    let* _ := expect (bool_decide (byte_at packet 0 ∈ [20; 21; 22; 23; 25])) in
    let* _ := expect (byte_at packet 1 =? 0xfe) in
    expect ((byte_at packet 2 =? 0xff) || (byte_at packet 2 =? 0xfd)).

(** [float64(v)/65536.0 > 16.0] is exact for 32-bit values. *)
Definition over_16_seconds (v : Z) : bool := 16 * 65536 <? v.

Definition check_NTP (packet : list Z) : res unit :=
  if (length packet <? 48)%nat then Err ErrInvalid
  else
    let firstByte := byte_at packet 0 in
    let li := Z.land (Z.shiftr firstByte 6) 3 in
    let vn := Z.land (Z.shiftr firstByte 3) 7 in
    let mode := Z.land firstByte 7 in
    let* _ := expect (negb (3 <? li)) in
    let* _ := expect ((vn =? 3) || (vn =? 4)) in
    let* _ := expect (mode =? 3) in
    let* _ := expect (negb (over_16_seconds (big_endian (take 4 (drop 4 packet))))) in
    expect (negb (over_16_seconds (big_endian (take 4 (drop 8 packet))))).

(** The chain of extensions of a uTP packet; [Seek] may go past the end. *)
Fixpoint utp_extensions (fuel : nat) (extension : Z) (rest : list Z) : option (res unit) :=
  if extension =? 0 then Some (Ok tt)
  else
    match fuel with
    | O => None
    | S fuel =>
        match rest with
        | [] => Some (Err ErrEOF)
        | extension :: rest =>
            if 4 <? extension then Some (Err ErrInvalid)
            else
              match rest with
              | [] => Some (Err ErrEOF)
              | len :: rest => utp_extensions fuel extension (drop (Z.to_nat len) rest)
              end
        end
    end.

Definition check_UTP (packet : list Z) : option (res unit) :=
  if (length packet <? 20)%nat then Some (Err ErrInvalid)
  else
    let version := Z.land (byte_at packet 0) 15 in
    let ty := Z.shiftr (byte_at packet 0) 4 in
    if negb (version =? 1) || (4 <? ty) then Some (Err ErrInvalid)
    else utp_extensions (S (length packet)) (byte_at packet 1) (drop 20 packet).

(** ** The sniffers *)

(** Returns the error of a check, or applies the assignments of a match; no
    check panics. *)
Definition sniffed {A} (check : res A) (f : A -> InboundContext -> InboundContext) (m : Metadata)
    : option error * Metadata :=
  match check with
  | Ok a => (None, on_md (f a) m)
  | Err err => (Some err, m)
  | Panic msg => (Some (ErrNew msg), m)
  end.

Definition is_protocol (protocol : string) (_ : unit) : InboundContext -> InboundContext :=
  with_Protocol protocol.

(** A message that is not a query is no error, and sets nothing. *)
Definition is_query (query : bool) (m : InboundContext) : InboundContext :=
  if query then with_Protocol ProtocolDNS m else m.

Definition HTTPHost_sniff (r : reader) (m : Metadata) : option error * Metadata :=
  match http_ReadRequest (concat r) with
  | inr host =>
      (None, on_md (fun m => with_Domain (AddrString (ParseSocksaddr host)) (with_Protocol ProtocolHTTP m)) m)
  | inl err => (Some (if errors_Is err ErrUnexpectedEOF then need_more err else err), m)
  end.

Definition TLSClientHello_sniff (r : reader) (m : Metadata) : option error * Metadata :=
  match tls_Handshake (concat r) with
  | (Some serverName, _) =>
      (None, on_md (fun m => with_Domain serverName (with_Protocol ProtocolTLS m)) m)
  | (None, Some err) => (Some (if errors_Is err ErrUnexpectedEOF then need_more err else err), m)
  | (None, None) => (None, m)
  end.

Definition run_stream (s : StreamSniffer) (r : reader) (m : Metadata) : option error * Metadata :=
  match s with
  | TLSClientHello => TLSClientHello_sniff r m
  | HTTPHost => HTTPHost_sniff r m
  | StreamDomainNameQuery => sniffed (check_StreamDomainNameQuery r) is_query m
  | BitTorrent => sniffed (check_BitTorrent r) (is_protocol ProtocolBitTorrent) m
  | SSH => sniffed (check_SSH r)
             (fun client m => with_Client client (with_Protocol ProtocolSSH m)) m
  | RDP => sniffed (check_RDP r) (is_protocol ProtocolRDP) m
  end.

Definition run_packet (s : PacketSniffer) (packet : list Z) (m : Metadata) : option error * Metadata :=
  match s with
  | QUICClientHello => QUICClientHello_sniff packet m
  | DomainNameQuery => sniffed (check_DomainNameQuery packet) is_query m
  | STUNMessage => sniffed (check_STUNMessage packet) (is_protocol ProtocolSTUN) m
  | UTP => sniffed (default (Ok tt) (check_UTP packet)) (is_protocol ProtocolBitTorrent) m
  | UDPTracker => sniffed (check_UDPTracker packet) (is_protocol ProtocolBitTorrent) m
  | DTLSRecord => sniffed (check_DTLSRecord packet) (is_protocol ProtocolDTLS) m
  | NTP => sniffed (check_NTP packet) (is_protocol ProtocolNTP) m
  end.

(** [Skip] *)
Definition Skip (m : InboundContext) : bool :=
  bool_decide (sa_Port (Destination m) ∈ [25; 465; 587; 143; 993; 110; 995]).

(** ** PeekStream *)

(** What a connection does when it is asked for more: it may refuse the read
    deadline; a read gives some bytes and perhaps an error (the deadline among
    them).  A connection with nothing left to say is at its end. *)
Inductive stream_event : Type :=
  | DeadlineFails (err : error)
  | Reads (data : list Z) (err : option error).

(** Runs the sniffers in their order until one knows the protocol. *)
Fixpoint try_streams (sniffers : list StreamSniffer) (r : reader) (sniffError : option error)
    (m : Metadata) : bool * option error * Metadata :=
  match sniffers with
  | [] => (false, sniffError, m)
  | sniffer :: sniffers =>
      match run_stream sniffer r m with
      | (None, m) => (true, None, m)
      | (Some err, m) => try_streams sniffers r (E_Errors (option_list sniffError ++ [err])) m
      end
  end.

Definition is_need_more (err : option error) : bool :=
  match err with Some err => errors_Is err ErrNeedMoreData | None => false end.

Record peeked : Type := {
  pk_error : option error;
  pk_metadata : Metadata;
  pk_buffer : list Z;
  pk_conn : list stream_event
}.

Fixpoint PeekStream_loop (i : nat) (sniffError : option error) (buffers : list (list Z))
    (sniffers : list StreamSniffer) (conn : list stream_event) (buffer : list Z) (m : Metadata) : peeked :=
  match conn with
  | DeadlineFails err :: conn => Build_peeked (Some (ErrCause err "set read deadline")) m buffer conn
  | Reads data (Some err) :: conn =>
      Build_peeked (if (0 <? i)%nat then sniffError else Some (ErrCause err "read payload"))
        m (buffer ++ data) conn
  | [] => Build_peeked (if (0 <? i)%nat then sniffError else Some (ErrCause ErrEOF "read payload")) m buffer []
  | Reads data None :: conn =>
      let buffer := buffer ++ data in
      match try_streams sniffers (buffers ++ [buffer]) None m with
      | (true, _, m) => Build_peeked None m buffer conn
      | (false, sniffError, m) =>
          if is_need_more sniffError then PeekStream_loop (S i) sniffError buffers sniffers conn buffer m
          else Build_peeked sniffError m buffer conn
      end
  end.

Definition PeekStream (m : Metadata) (conn : list stream_event) (buffers : list (list Z))
    (sniffers : list StreamSniffer) : peeked :=
  PeekStream_loop 0 None buffers sniffers conn [] m.

(** ** PeekPacket *)

Fixpoint PeekPacket_loop (sniffers : list PacketSniffer) (packet : list Z) (errors : list error)
    (m : Metadata) : option error * Metadata :=
  match sniffers with
  | [] => (E_Errors errors, m)
  | sniffer :: sniffers =>
      match run_packet sniffer packet m with
      | (None, m) => (None, m)
      | (Some err, m) => PeekPacket_loop sniffers packet (errors ++ [err]) m
      end
  end.

Definition PeekPacket (m : Metadata) (packet : list Z) (sniffers : list PacketSniffer)
    : option error * Metadata :=
  PeekPacket_loop sniffers packet [] m.
End sniffers.

(** ** Theorems *)

(** *** What a sniffer may write *)

(** The fields about where the connection goes. *)
Definition target (m : InboundContext) : Socksaddr * Socksaddr * bool :=
  (Destination m, OriginDestination m, FakeIP m).

Definition sniff_frame (m m' : Metadata) : Prop :=
  target (md m') = target (md m) /\ md_InboundOptions m' = md_InboundOptions m.

#[global] Instance sniff_frame_preorder : PreOrder sniff_frame.
Proof. split; [done|]. unfold sniff_frame. intros ??? [? ?] [? ?]. split; congruence. Qed.

(** *** A check on a stream that grows *)

(** [r'] is the outcome of [r] after more bytes came: a result stays a related
    result, an error that asks for no more data stays. *)
Definition grows {A B} (P : A -> B -> Prop) (r : res A) (r' : res B) : Prop :=
  match r with
  | Ok a => exists a', r' = Ok a' /\ P a a'
  | Err err => is_need_more (Some err) = true \/ r' = Err err
  | Panic _ => False
  end.

Lemma grows_bind {A A' B B'} (P : A -> A' -> Prop) (Q : B -> B' -> Prop) r r' k k' :
  grows P r r' -> (forall a a', P a a' -> grows Q (k a) (k' a')) ->
  grows Q (res_bind r k) (res_bind r' k').
Proof.
  intros Hr Hk. destruct r as [a|err|msg]; simpl in *; [|by destruct Hr as [?| ->]; [left|right]|done].
  destruct Hr as (a' & -> & HP). by apply Hk.
Qed.

Lemma grows_refl {A} (r : res A) : (forall msg, r <> Panic msg) -> grows eq r r.
Proof. destruct r; simpl; [intros _; by eexists|by right|intros H; by apply (H msg)]. Qed.

Lemma grows_expect b : grows eq (expect b) (expect b).
Proof. apply grows_refl. by destruct b. Qed.

Lemma need_more_is err : is_need_more (Some (need_more err)) = true.
Proof. done. Qed.

(** A reader of one chunk before and after [more] arrived. *)
Definition longer (more : list Z) (r r' : reader) : Prop :=
  exists rest, r = [rest] /\ r' = [rest ++ more].

#[export] Hint Resolve grows_expect need_more_is : box.

Lemma io_ReadFull_one n rest :
  io_ReadFull n [rest] =
  if (n <=? length rest)%nat then (take n rest, None, [drop n rest])
  else (rest, Some (if decide (rest = []) then ErrEOF else ErrUnexpectedEOF), []).
Proof.
  unfold io_ReadFull. cbn [concat skip_bytes]. rewrite app_nil_r. by destruct (n <=? length rest)%nat.
Qed.

Lemma SkipN_one n rest :
  SkipN n [rest] = if (n <=? length rest)%nat then Ok [drop n rest] else Err ErrEOF.
Proof. unfold SkipN. cbn [concat skip_bytes]. rewrite app_nil_r. by destruct (n <=? length rest)%nat. Qed.

Lemma binary_Read_grows n more r r' :
  longer more r r' ->
  grows (fun a a' => a.1 = a'.1 /\ longer more a.2 a'.2) (or_need_more (binary_Read n r))
    (or_need_more (binary_Read n r')).
Proof.
  intros (rest & -> & ->). unfold binary_Read. rewrite !io_ReadFull_one, length_app.
  destruct (Nat.leb_spec n (length rest)) as [Hn|Hn]; simpl; [|by left].
  destruct (Nat.leb_spec n (length rest + length more)); [|lia].
  eexists. split; [done|]. simpl. rewrite take_app_le by done. split; [done|].
  exists (drop n rest). by rewrite drop_app_le.
Qed.

Lemma rdp_field_grows n ok more r r' :
  longer more r r' -> grows (longer more) (rdp_field n ok r) (rdp_field n ok r').
Proof.
  intros Hr. unfold rdp_field. eapply grows_bind; [by apply binary_Read_grows|].
  intros [v a] [v' a'] [Hv Ha]. simpl in *. subst v'.
  eapply grows_bind; [apply grows_expect|]. intros _ _ _. by eexists.
Qed.

Lemma SkipN_grows n more r r' :
  longer more r r' -> grows (longer more) (or_need_more (SkipN n r)) (or_need_more (SkipN n r')).
Proof.
  intros (rest & -> & ->). rewrite !SkipN_one, length_app.
  destruct (Nat.leb_spec n (length rest)) as [Hn|Hn]; simpl; [|by left].
  destruct (Nat.leb_spec n (length rest + length more)); [|lia].
  eexists. split; [done|]. exists (drop n rest). by rewrite drop_app_le.
Qed.

Lemma check_RDP_grows data more : grows eq (check_RDP [data]) (check_RDP [data ++ more]).
Proof.
  unfold check_RDP. assert (H0 : longer more [data] [data ++ more]) by by eexists.
  revert H0. generalize [data] [data ++ more]. intros r r' H0.
  repeat (eapply grows_bind; [first [by apply rdp_field_grows|by apply SkipN_grows]|];
          clear; intros r r' H0).
  by eexists.
Qed.

Lemma prefix_test_false (l more header : list Z) n :
  take n l <> take (length (take n l)) header ->
  take n (l ++ more) <> take (length (take n (l ++ more))) header.
Proof.
  rewrite !length_take, length_app. intros Hne He. apply Hne.
  apply (f_equal (take (n `min` length l))) in He. rewrite !take_take in He.
  assert (Hn : forall k, (n `min` length l `min` (n `min` (length l + k)) = n `min` length l)%nat) by lia.
  rewrite Hn in He. replace (n `min` length l `min` n)%nat with (n `min` length l)%nat in He by lia.
  rewrite <- He, take_app_le by lia. rewrite <- take_take. f_equal. symmetry. by apply take_ge.
Qed.

Lemma check_BitTorrent_grows data more :
  grows eq (check_BitTorrent [data]) (check_BitTorrent [data ++ more]).
Proof.
  unfold check_BitTorrent. eapply grows_bind; [apply (binary_Read_grows 1 more); by eexists|].
  intros [v r] [v' r'] [Hv (rest & Hr & Hr')]. simpl in Hv, Hr, Hr'. subst v' r r'.
  eapply grows_bind; [apply grows_expect|]. intros _ _ _.
  destruct rest as [|b rest]; [simpl; by left|].
  change (reader_Read 19 [b :: rest]) with (take 19 (b :: rest), @None error, [drop 19 (b :: rest)]).
  change (reader_Read 19 [(b :: rest) ++ more]) with
    (take 19 ((b :: rest) ++ more), @None error, [drop 19 ((b :: rest) ++ more)]).
  cbv beta iota. generalize (b :: rest). clear b rest. intros l.
  destruct (bool_decide (take 19 l = _)) eqn:E.
  2: { apply bool_decide_eq_false in E. apply (prefix_test_false l more) in E.
       rewrite (bool_decide_eq_false_2 _ E). by right. }
  cbn [expect res_bind]. rewrite length_take.
  destruct (Nat.ltb_spec (19 `min` length l) 19) as [Hl|Hl]; [by left|].
  apply bool_decide_eq_true in E. rewrite take_app_le by lia.
  rewrite length_take in *. rewrite bool_decide_eq_true_2 by done. cbn [expect res_bind].
  destruct (Nat.ltb_spec (19 `min` length l) 19); [lia|]. by eexists.
Qed.

Lemma expect_bind {B} b (k : unit -> res B) : res_bind (expect b) k = if b then k tt else Err ErrInvalid.
Proof. by destruct b. Qed.

Lemma byte_at_app data more i : (i < length data)%nat -> byte_at (data ++ more) i = byte_at data i.
Proof. intros Hi. unfold byte_at. by rewrite lookup_app_l. Qed.

Lemma arrived_app data more i ok ok' :
  (forall b, (i < length data)%nat -> ok' b = ok b) ->
  arrived data i ok = false -> arrived (data ++ more) i ok' = false.
Proof.
  intros Hok. unfold arrived. rewrite length_app.
  destruct (Nat.ltb_spec i (length data)) as [Hi|]; [|done]. simpl. intros Hf.
  destruct (Nat.ltb_spec i (length data + length more)); [|lia]. simpl.
  by rewrite byte_at_app, Hok.
Qed.

Lemma arrived_all_app data more l :
  forallb (fun i => arrived data i (fun b => b =? 0)) l = false ->
  forallb (fun i => arrived (data ++ more) i (fun b => b =? 0)) l = false.
Proof.
  induction l as [|i l IH]; simpl; [done|].
  rewrite !andb_false_iff. intros [Hi|Hl]; [left; by eapply arrived_app|right; by apply IH].
Qed.

Section stream_theorems.
Context `{External, SniffLib}.

(** An error of the DNS parser does not ask for more data; the QUIC sniffer
    writes to the sniffer's fields only. *)
Class SniffLaws : Prop := {
  dns_Unpack_final : forall packet err,
    dns_Unpack packet = inl err -> errors_Is err ErrNeedMoreData = false;
  QUIC_keeps : forall packet m, sniff_frame m (QUICClientHello_sniff packet m).2
}.

Lemma check_DomainNameQuery_no_panic packet msg : check_DomainNameQuery packet <> Panic msg.
Proof. unfold check_DomainNameQuery. by destruct (dns_Unpack packet). Qed.

Lemma check_StreamDomainNameQuery_grows data more :
  grows eq (check_StreamDomainNameQuery [data]) (check_StreamDomainNameQuery [data ++ more]).
Proof.
  unfold check_StreamDomainNameQuery. eapply grows_bind; [apply (binary_Read_grows 2 more); by eexists|].
  intros [v r] [v' r'] [Hv (rest & Hr & Hr')]. simpl in Hv, Hr, Hr'. subst v' r r'.
  eapply grows_bind; [apply grows_expect|]. intros _ _ _.
  rewrite !io_ReadFull_one, length_app.
  destruct (Nat.leb_spec (Z.to_nat v) (length rest)) as [Hn|Hn].
  - destruct (Nat.leb_spec (Z.to_nat v) (length rest + length more)); [|lia].
    rewrite take_app_le by done. apply grows_refl. intros msg. rewrite !expect_bind.
    repeat case_match; try done. apply check_DomainNameQuery_no_panic.
  - set (packet' := if (_ <=? _)%nat then _ else _).
    assert (Hp : exists tail err r, packet' = (rest ++ tail, err, r)).
    { unfold packet'. destruct (Nat.leb_spec (Z.to_nat v) (length rest + length more)).
      - exists (take (Z.to_nat v - length rest) more). do 2 eexists.
        rewrite take_app, (take_ge rest) by lia. reflexivity.
      - by exists more; do 2 eexists. }
    destruct Hp as (tail & err & r & ->). rewrite !expect_bind.
    destruct (arrived rest 2 _) eqn:E2.
    2: { right. by rewrite (arrived_app rest tail 2 _ _ (fun _ _ => eq_refl) E2). }
    destruct (arrived rest 5 _) eqn:E5.
    2: { right. apply (arrived_app rest tail 5 _
           (fun b => negb ((byte_at (rest ++ tail) 4 =? 0) && (b =? 0)))) in E5.
         - rewrite E5. by case_match.
         - intros b Hb. by rewrite byte_at_app by lia. }
    destruct (forallb _ _) eqn:E6; [by left|].
    right. rewrite (arrived_all_app _ tail _ E6).
    by repeat case_match.
Qed.

Lemma check_SSH_grows data more :
  grows (fun _ _ => True) (check_SSH [data]) (check_SSH [data ++ more]).
Proof.
  unfold check_SSH. simpl. rewrite !app_nil_r, !expect_bind.
  destruct (bool_decide (take 8 data = _)) eqn:E.
  2: { apply bool_decide_eq_false in E. apply (prefix_test_false data more) in E.
       rewrite (bool_decide_eq_false_2 _ E). by right. }
  rewrite length_take. destruct (Nat.ltb_spec (8 `min` length data) 8); [by left|].
  apply bool_decide_eq_true in E. rewrite take_app_le by lia.
  rewrite bool_decide_eq_true_2 by done. rewrite length_take.
  destruct (Nat.ltb_spec (8 `min` length data) 8); [lia|]. by eexists.
Qed.

(** The bytes a stream sniffer needs at most to decide. *)
Definition needed (s : StreamSniffer) (data : list Z) : nat :=
  match s with
  | BitTorrent => 20
  | RDP => 14
  | SSH => 8
  | StreamDomainNameQuery => 2 + Z.to_nat (big_endian (take 2 data))
  | TLSClientHello | HTTPHost => 0
  end.

(** A check that has all its bytes does not ask for more. *)
Definition decided {A} (r : res A) : Prop :=
  match r with Err err => is_need_more (Some err) = false | _ => True end.

Lemma decided_bind {A B} (r : res A) (k : A -> res B) :
  decided r -> (forall a, r = Ok a -> decided (k a)) -> decided (res_bind r k).
Proof. destruct r; simpl; [intros _ Hk; by apply Hk|done..]. Qed.

Lemma decided_expect b : decided (expect b).
Proof. by destruct b. Qed.

Lemma binary_Read_enough n data :
  (n <= length data)%nat -> or_need_more (binary_Read n [data]) = Ok (big_endian (take n data), [drop n data]).
Proof.
  intros Hn. unfold binary_Read. rewrite io_ReadFull_one.
  by destruct (Nat.leb_spec n (length data)); [|lia].
Qed.

Lemma rdp_field_decided {B} n ok data (k : reader -> res B) :
  (n <= length data)%nat -> decided (k [drop n data]) -> decided (res_bind (rdp_field n ok [data]) k).
Proof.
  intros Hn Hk. unfold rdp_field. rewrite binary_Read_enough by done. simpl. by destruct (ok _).
Qed.

Lemma SkipN_enough n data : (n <= length data)%nat -> or_need_more (SkipN n [data]) = Ok [drop n data].
Proof.
  intros Hn. rewrite SkipN_one.
  by destruct (Nat.leb_spec n (length data)); [|lia].
Qed.

Lemma check_RDP_decided data : (14 <= length data)%nat -> decided (check_RDP [data]).
Proof.
  intros Hl. unfold check_RDP.
  do 5 (apply rdp_field_decided; [rewrite ?length_drop; lia|]).
  rewrite SkipN_enough by (rewrite !length_drop; lia). cbn [res_bind].
  do 2 (apply rdp_field_decided; [rewrite !length_drop; lia|]).
  by apply rdp_field_decided; [rewrite !length_drop; lia|].
Qed.

Lemma check_BitTorrent_decided data : (20 <= length data)%nat -> decided (check_BitTorrent [data]).
Proof.
  intros Hl. unfold check_BitTorrent. rewrite binary_Read_enough by lia. cbn [res_bind].
  apply decided_bind; [apply decided_expect|]. intros _ _.
  destruct (drop 1 data) as [|b rest] eqn:E; [apply (f_equal length) in E; rewrite length_drop in E; simpl in E; lia|].
  assert (Hr : (19 <= length (b :: rest))%nat) by (rewrite <- E, length_drop; lia).
  change (reader_Read 19 [b :: rest]) with (take 19 (b :: rest), @None error, [drop 19 (b :: rest)]).
  cbv beta iota. rewrite length_take.
  apply decided_bind; [apply decided_expect|]. intros _ _.
  by destruct (Nat.ltb_spec (19 `min` length (b :: rest)) 19); [lia|].
Qed.

Lemma check_SSH_decided data : (8 <= length data)%nat -> decided (check_SSH [data]).
Proof.
  intros Hl. unfold check_SSH. simpl. rewrite app_nil_r, length_take.
  apply decided_bind; [apply decided_expect|]. intros _ _.
  by destruct (Nat.ltb_spec (8 `min` length data) 8); [lia|].
Qed.

Lemma check_StreamDomainNameQuery_decided `{!SniffLaws} data :
  (2 + Z.to_nat (big_endian (take 2 data)) <= length data)%nat ->
  decided (check_StreamDomainNameQuery [data]).
Proof.
  intros Hl. unfold check_StreamDomainNameQuery. rewrite binary_Read_enough by lia. cbn [res_bind].
  apply decided_bind; [apply decided_expect|]. intros _ _. rewrite io_ReadFull_one, length_drop.
  destruct (Nat.leb_spec (Z.to_nat (big_endian (take 2 data))) (length data - 2)); [|lia].
  do 3 (apply decided_bind; [apply decided_expect|]; intros _ _).
  unfold check_DomainNameQuery. destruct (dns_Unpack _) eqn:E; [|done].
  simpl. by eapply dns_Unpack_final.
Qed.

(** A sniffer is as good as its check. *)
Lemma sniffed_final {A} (P : A -> A -> Prop) (check check' : res A) f m (enough : Prop) :
  grows P check check' -> (enough -> decided check) ->
  (forall a a' m, P a a' -> Protocol (f a' m) = Protocol (f a m)) ->
  match sniffed check f m with
  | (None, m1) => exists m2, sniffed check' f m = (None, m2) /\ Protocol (md m2) = Protocol (md m1)
  | (Some err, m1) => m1 = m /\
      if is_need_more (Some err) then ~ enough else sniffed check' f m = (Some err, m)
  end.
Proof.
  intros Hg He Hf. destruct check as [a|err|msg]; simpl in *; [|split; [done|]|done].
  - destruct Hg as (a' & -> & HP). eexists. split; [done|]. by apply Hf.
  - destruct (errors_Is err ErrNeedMoreData) eqn:E.
    + intros Hen. specialize (He Hen). simpl in He. congruence.
    + destruct Hg as [?| ->]; [congruence|done].
Qed.

(** The BitTorrent, RDP, SSH and
    DNS sniffers judge the beginning of a stream as they will judge it when
    more bytes have come.  A match stays a match of the same protocol, a
    refusal stays the same refusal, and "need more data" is only said of fewer
    bytes than the sniffer's header needs (for DNS the two length bytes and
    the message they announce), and changes nothing. *)
Theorem stream_verdicts_final `{!SniffLaws} (s : StreamSniffer) (data more : list Z) (m : Metadata) :
  s ∈ [BitTorrent; RDP; SSH; StreamDomainNameQuery] ->
  match run_stream s [data] m with
  | (None, m1) => exists m2,
      run_stream s [data ++ more] m = (None, m2) /\ Protocol (md m2) = Protocol (md m1)
  | (Some err, m1) => m1 = m /\
      if is_need_more (Some err) then ~ (needed s data <= length data)%nat
      else run_stream s [data ++ more] m = (Some err, m)
  end.
Proof.
  intros Hs. destruct s; [exfalso; set_solver|exfalso; set_solver|..].
  - apply (sniffed_final eq);
      [apply check_StreamDomainNameQuery_grows|apply check_StreamDomainNameQuery_decided|by intros ??? ->].
  - apply (sniffed_final eq); [apply check_BitTorrent_grows|apply check_BitTorrent_decided|by intros ??? ->].
  - apply (sniffed_final (fun _ _ => True)); [apply check_SSH_grows|apply check_SSH_decided|done].
  - apply (sniffed_final eq); [apply check_RDP_grows|apply check_RDP_decided|by intros ??? ->].
Qed.
End stream_theorems.

(** *** Frames of the sniffers and the loops *)

Section frames.
Context `{External, SniffLaws}.

Lemma sniffed_frame {A} (check : res A) f m :
  (forall a m, target (f a m) = target m) -> sniff_frame m (sniffed check f m).2.
Proof. intros Hf. destruct check; simpl; [|done..]. split; [apply Hf|done]. Qed.

Lemma run_stream_frame s r m : sniff_frame m (run_stream s r m).2.
Proof.
  destruct s; simpl; try (by apply sniffed_frame).
  - unfold TLSClientHello_sniff. by destruct (tls_Handshake _) as [[] []].
  - unfold HTTPHost_sniff. by destruct (http_ReadRequest _).
  - apply sniffed_frame. by intros [].
Qed.

Lemma run_packet_frame s packet m : sniff_frame m (run_packet s packet m).2.
Proof.
  destruct s; simpl; try (by apply sniffed_frame); [apply QUIC_keeps|].
  apply sniffed_frame. by intros [].
Qed.

Lemma try_streams_frame sniffers r err m : sniff_frame m (try_streams sniffers r err m).2.
Proof.
  revert err m. induction sniffers as [|s sniffers IH]; intros err m; simpl; [done|].
  pose proof (run_stream_frame s r m) as Hs. destruct (run_stream s r m) as [[e|] m1]; [|done].
  etrans; [exact Hs|apply IH].
Qed.

Lemma PeekStream_frame i err buffers sniffers conn buffer m :
  sniff_frame m (pk_metadata (PeekStream_loop i err buffers sniffers conn buffer m)).
Proof.
  revert i err buffer m. induction conn as [|[e|data [e|]] conn IH]; intros i err buffer m; simpl; [done..|].
  pose proof (try_streams_frame sniffers (buffers ++ [buffer ++ data]) None m) as Ht.
  destruct (try_streams _ _ _ _) as [[[] err'] m1]; [done|].
  destruct (is_need_more err'); [|done]. etrans; [exact Ht|apply IH].
Qed.

Lemma PeekPacket_frame sniffers packet errors m :
  sniff_frame m (PeekPacket_loop sniffers packet errors m).2.
Proof.
  revert errors m. induction sniffers as [|s sniffers IH]; intros errors m; simpl; [done|].
  pose proof (run_packet_frame s packet m) as Hs. destruct (run_packet s packet m) as [[e|] m1]; [|done].
  etrans; [exact Hs|apply IH].
Qed.
End frames.

(** *** Termination of the uTP sniffer *)

Lemma utp_extensions_terminates fuel extension rest :
  (length rest < fuel)%nat -> utp_extensions fuel extension rest <> None.
Proof.
  revert extension rest. induction fuel as [|fuel IH]; intros extension rest Hl; [lia|].
  simpl. case_match; [done|]. destruct rest as [|e rest]; [done|]. simpl in Hl.
  case_match; [done|]. destruct rest as [|len rest]; [done|]. simpl in Hl.
  apply IH. rewrite length_drop. lia.
Qed.

Lemma check_UTP_terminates packet : check_UTP packet <> None.
Proof.
  unfold check_UTP. case_match; [done|]. case_match; [done|].
  apply utp_extensions_terminates. rewrite length_drop. lia.
Qed.

(** ** Concrete parsers, witnesses and examples *)

(** An HTTP parser that knows one request, no TLS, a DNS parser that reads the
    header of a message, and no QUIC. *)
Definition concrete_sniff : SniffLib := {|
  http_ReadRequest data :=
    if bool_decide (take 4 data = bytes_of "GET ") then inr "example.org" else inl ErrInvalid;
  tls_Handshake _ := (None, Some ErrInvalid);
  dns_Unpack packet :=
    if (length packet <? 12)%nat then inl ErrInvalid
    else inr (Build_Msg (big_endian (take 2 packet)) (negb (Z.land (byte_at packet 2) 128 =? 0)) false false
                false 0 (if byte_at packet 5 =? 0 then [] else [Build_Question "." 1 1]) [] [] []);
  ParseSocksaddr s := {| sa_Addr := AddrInvalid; sa_Port := 0; sa_Fqdn := s |};
  IsDomainName s := negb (bool_decide (s = ""));
  QUICClientHello_sniff _ m := (Some ErrInvalid, m)
|}.

Lemma concrete_sniff_laws : @SniffLaws concrete_sniff.
Proof.
  split; [|done]. intros packet err. simpl. destruct (length packet <? 12)%nat; [|done]. by intros [= <-].
Qed.

Definition MetadataZero : Metadata := Build_Metadata InboundContextZero None "" InboundOptionsZero.

(** The protocol a sniffer finds, or its error. *)
Definition verdict (r : option error * Metadata) : error + string :=
  match r with (Some err, _) => inl err | (None, m) => inr (Protocol (md m)) end.

Section examples.
#[local] Existing Instance concrete_external.
#[local] Existing Instance concrete_sniff.
#[local] Existing Instance concrete_sniff_laws.

Lemma stream_verdicts_final_witness :
  verdict (run_stream SSH [bytes_of "SSH-2.0-drop"] MetadataZero) = inr "ssh" /\
  verdict (run_stream SSH [bytes_of "SSH-2.0-dropbear"] MetadataZero) = inr "ssh".
Proof.
  assert (Hs : SSH ∈ [BitTorrent; RDP; SSH; StreamDomainNameQuery]) by (repeat constructor).
  pose proof (stream_verdicts_final SSH (bytes_of "SSH-2.0-drop") (bytes_of "bear") MetadataZero Hs) as Hv.
  remember (run_stream SSH [bytes_of "SSH-2.0-drop"] MetadataZero) as r eqn:E.
  vm_compute in E. rewrite E in Hv. destruct Hv as (m2 & Hm & Hp).
  split; [rewrite E; reflexivity|].
  change (bytes_of "SSH-2.0-dropbear") with (bytes_of "SSH-2.0-drop" ++ bytes_of "bear").
  rewrite Hm. simpl. rewrite Hp. reflexivity.
Defined.

(** The packets of the repository's own tests. *)
Example sniff_bittorrent :
  verdict (run_stream BitTorrent [19 :: bytes_of "BitTorrent protocol"] MetadataZero) = inr "bittorrent" /\
  is_need_more (run_stream BitTorrent [19 :: bytes_of "BitTorrent"] MetadataZero).1 = true /\
  verdict (run_stream BitTorrent [19 :: bytes_of "BitTorrenu"] MetadataZero) = inl ErrInvalid.
Proof. vm_compute. split_and!; reflexivity. Qed.

Example sniff_utp :
  verdict (run_packet UTP [0x21; 0; 0x1e; 0xcb; 0x68; 0x17; 0xf2; 0x80; 0x5d; 4; 0x4f; 0xd7; 0; 0x10; 0; 0;
                           0xdb; 0xd0; 0x30; 0x29] MetadataZero) = inr "bittorrent" /\
  verdict (run_packet UTP [0x41; 2; 0x77; 0xef; 0x0b; 0x1f; 0xb1; 0xf6; 0; 0; 0; 0; 0; 4; 0; 0; 0xc2; 0x33; 0; 0;
                           0; 8; 0; 0; 0; 0; 0; 0; 0; 0] MetadataZero) = inr "bittorrent".
Proof. vm_compute. split; reflexivity. Qed.

Example sniff_stun :
  verdict (run_packet STUNMessage [0; 1; 0; 0; 0x21; 0x12; 0xa4; 0x42; 0x24; 0xb1; 0xa0; 0x25; 0xd0; 0xc1; 0x80;
                                   0xc4; 0x84; 0x34; 0x13; 6] MetadataZero) = inr "stun".
Proof. vm_compute. reflexivity. Qed.

Example sniff_rdp :
  verdict (run_stream RDP [[3; 0; 0; 0x13; 0x0e; 0xe0; 0; 0; 0; 0; 0; 1; 0; 8; 0; 0x0b; 0; 0; 0]] MetadataZero)
  = inr "rdp".
Proof. vm_compute. reflexivity. Qed.

(** *** Behaviours worth knowing *)

(** The BitTorrent sniffer reads its header with one [Read]: a header that is
    cut between the buffers of two sniff actions asks for more data for ever,
    though all of it is there. *)
Example bittorrent_cut_header :
  is_need_more (run_stream BitTorrent [19 :: bytes_of "Bit"; bytes_of "Torrent protocol"] MetadataZero).1 = true
  /\ verdict (run_stream BitTorrent [19 :: bytes_of "BitTorrent protocol"] MetadataZero) = inr "bittorrent".
Proof. vm_compute. split; reflexivity. Qed.

(** The SSH sniffer does not wait for the end of the line: the client it
    reports depends on how the identification was cut. *)
Example ssh_client_cut :
  Client (md (run_stream SSH [bytes_of "SSH-2.0-drop"] MetadataZero).2) = "drop" /\
  Client (md (run_stream SSH [bytes_of "SSH-2.0-dropbear" ++ [13; 10]] MetadataZero).2) = "dropbear".
Proof. vm_compute. split; reflexivity. Qed.

(** A packet that parses as a DNS message but is no query ends the sniffing
    without a protocol: the sniffers after the DNS one are not run. *)
Example dns_response_stops_sniffing :
  verdict (PeekPacket MetadataZero (0 :: 1 :: 0x80 :: replicate 9 0) [DomainNameQuery; STUNMessage])
  = inr "".
Proof. vm_compute. reflexivity. Qed.
End examples.
