(* ===== verification/Route.v ===== *)
(** * route/route.go: routing a connection

    The walk over the route rules with its sniffing, resolving and rewriting
    of the request, the choice of the outbound, and the pre-match.  A rule is
    anything with an action and a match ([RouteRuleOps]); the trees of
    RuleTree.v are.  The router's neighbours (process searcher, fake-IP store,
    DNS router, managers) are fields of [ConnRouter] or the interface
    [DNSRouterOps] over a state of their own.  A connection is given by what its reads
    return, and what is handed over is the stack of wrappers the router put
    around it. *)

From stdpp Require Import base list strings gmap.
From Stdlib Require Import ZArith Lia.
From S2P Require Import Prelude GoStd External Adapter RuleItem RuleAbstract RuleTree RuleMatch RuleAction RuleBuild DnsMsg DnsClient DnsRouter Sniff.

Open Scope Z_scope.
Open Scope box_scope.

(** ** What the router talks to *)

Class RouteRuleOps (R : Type) : Type := {
  rl_Action : R -> option RuleAction;
  rl_Match : R -> InboundContext -> bool * InboundContext
}.

(** A match keeps the request, and depends on nothing but it when the cache is
    reset first. *)
Class RouteRuleLaws (R : Type) `{RouteRuleOps R} : Prop := {
  rl_Match_frame : forall r m, match_frame m (rl_Match r m).2
}.

#[global] Instance tree_route_ops `{External} (h : Host) (sets : RuleSetTable) :
    RouteRuleOps (Rule (option RuleAction)) := {
  rl_Action := RuleTree.Rule_Action;
  rl_Match := Rule_Match h sets }.

#[global] Instance tree_route_laws `{External} (h : Host) (sets : RuleSetTable) :
    @RouteRuleLaws _ (tree_route_ops h sets).
Proof. constructor. intros r m. apply Rule_Match_frame. Qed.

(** [adapter.DNSRouter], over its state. *)
Class DNSRouterOps (D : Type) : Type := {
  dns_Lookup : InboundContext -> string -> option DNSTransport -> DNSQueryOptions -> D ->
    list Addr * option error * D;
  dns_LookupReverseMapping : Addr -> D -> option string
}.

(** Packages outside the repository. *)
Class RouteLib : Type := {
  IsIPv4 : Socksaddr -> bool;
  (** [err.Error()] *)
  error_Error : error -> string;
  (** sing-mux, sing-vmess, uot: destinations that ask for multiplexing *)
  mux_Destination_Fqdn : string;
  vmess_MuxDestination_Fqdn : string;
  uot_MagicAddress : string;
  uot_LegacyMagicAddress : string
}.

Record FakeIPStore : Type := {
  fk_Contains : Addr -> bool;
  fk_Lookup : Addr -> option string
}.

Record AdapterInbound : Type := { ib_TCPInjectable : bool; ib_UDPInjectable : bool }.
Record AdapterOutbound : Type := {
  ob_Tag : string;
  ob_Network : list string;
  (** [adapter.ConnectionHandlerEx], [adapter.PacketConnectionHandlerEx] *)
  ob_ConnectionHandler : bool;
  ob_PacketConnectionHandler : bool
}.

Record ConnRouter (R : Type) : Type := {
  cr_rules : list R;
  (** [process.FindProcessInfo] for network, source and original destination *)
  cr_processSearcher : option (string -> Socksaddr -> option Socksaddr -> error + ProcessInfo);
  cr_FakeIP : option FakeIPStore;
  cr_Transport : string -> option DNSTransport;
  cr_inbound : string -> option AdapterInbound;
  cr_outbound : string -> option AdapterOutbound;
  cr_default : AdapterOutbound;
  (** [r.trackers], by identity *)
  cr_trackers : list nat
}.
Arguments cr_rules {R}.
Arguments cr_processSearcher {R}.
Arguments cr_FakeIP {R}.
Arguments cr_Transport {R}.
Arguments cr_inbound {R}.
Arguments cr_outbound {R}.
Arguments cr_default {R}.
Arguments cr_trackers {R}.

(** ** Connections *)

Record packet : Type := { pkt_data : list Z; pkt_destination : Socksaddr }.

(** What a packet connection does when it is read; one that has nothing left
    lets the deadline pass. *)
Inductive packet_event : Type :=
  | Packet (p : packet)
  | PacketErr (err : error)
  | ContextDone (err : error).

Inductive input : Type :=
  | NoInput
  | StreamInput (conn : list stream_event)
  | PacketInput (conn : list packet_event).

Definition DeadlineExceeded : error := ErrNew "context deadline exceeded".

(** The wrappers of a stream: [deadline.NewConn], [bufio.NewCachedConn], a
    tracker's. *)
Inductive Conn : Type :=
  | InputConn (conn : list stream_event)
  | DeadlineConn (c : Conn)
  | CachedConn (c : Conn) (buffer : list Z)
  | TrackedConn (tracker : nat) (c : Conn).

(** The wrappers of a packet connection: [bufio.NewCachedPacketConn], a
    tracker's, [bufio.NewNATPacketConn]. *)
Inductive PacketConn : Type :=
  | InputPacketConn (conn : list packet_event)
  | CachedPacketConn (c : PacketConn) (p : packet)
  | TrackedPacketConn (tracker : nat) (c : PacketConn)
  | NATPacketConn (c : PacketConn) (origin destination : Socksaddr).

Definition NetworkTCP : string := "tcp".
Definition NetworkUDP : string := "udp".

(** ** The state of [matchRule] *)

Record walk (D : Type) : Type := {
  w_md : Metadata;
  w_buffers : list (list Z);
  w_packets : list packet;
  w_input : input;
  w_dns : D
}.
Arguments Build_walk {D}.
Arguments w_md {D}.
Arguments w_buffers {D}.
Arguments w_packets {D}.
Arguments w_input {D}.
Arguments w_dns {D}.

(** The context the rules see. *)
Abbreviation w_ctx w := (md (w_md w)).

Definition set_md {D} (m : Metadata) (w : walk D) : walk D :=
  Build_walk m (w_buffers w) (w_packets w) (w_input w) (w_dns w).
Definition on_ctx {D} (f : InboundContext -> InboundContext) (w : walk D) : walk D :=
  set_md (on_md f (w_md w)) w.

Section router.
Context {R D : Type} `{External, SniffLib, RouteLib, RouteRuleOps R, DNSRouterOps D} (r : ConnRouter R).

(** *** Before the rules *)

Definition origin_destination (m : InboundContext) : option Socksaddr :=
  if Socksaddr_IsValid (OriginDestination m) then Some (OriginDestination m)
  else if IsIP (Destination m) then Some (Destination m) else None.

Definition find_process (m : InboundContext) : InboundContext :=
  match cr_processSearcher r, ProcessInfo_ m with
  | Some search, None =>
      match search (Network m) (Source m) (origin_destination m) with
      | inl _ => m
      | inr info => with_ProcessInfo (Some info) m
      end
  | _, _ => m
  end.

Definition in_fakeip (a : Addr) : option FakeIPStore :=
  if Addr_IsValid a then
    match cr_FakeIP r with
    | Some store => if fk_Contains store a then Some store else None
    | None => None
    end
  else None.

(** [M.Socksaddr{Fqdn: domain, Port: port}] *)
Definition domain_address (domain : string) (port : Z) : Socksaddr :=
  {| sa_Addr := AddrInvalid; sa_Port := port; sa_Fqdn := domain |}.

Definition missing_fakeip : error :=
  ErrNew "missing fakeip record, try enable `experimental.cache_file`".

Definition find_domain (dns : D) (m : InboundContext) : res InboundContext :=
  match in_fakeip (sa_Addr (Destination m)) with
  | Some store =>
      match fk_Lookup store (sa_Addr (Destination m)) with
      | None => Err missing_fakeip
      | Some domain =>
          Ok (if decide (domain = "") then m
              else with_FakeIP true
                     (with_Destination (domain_address domain (sa_Port (Destination m)))
                        (with_OriginDestination (Destination m) m)))
      end
  | None =>
      Ok (if decide (Domain m = "") then
            match dns_LookupReverseMapping (sa_Addr (Destination m)) dns with
            | Some domain => with_Domain domain m
            | None => m
            end
          else m)
  end.

Definition find_version (m : InboundContext) : InboundContext :=
  if IsIPv4 (Destination m) then with_IPVersion 4 m
  else if IsIPv6 (Destination m) then with_IPVersion 6 m else m.

(** *** Sniffing *)

Definition override_destination (action : RuleActionSniff) (m : Metadata) : Metadata :=
  if OverrideDestination action && IsDomainName (Domain (md m)) then
    on_md (fun m => with_Destination (domain_address (Domain m) (sa_Port (Destination m))) m) m
  else m.

(** The sniff was done before with the same sniffers and failed for good. *)
Definition failed_before (action : RuleActionSniff) (m : InboundContext) : bool :=
  bool_decide (SnifferNames m = sn_SnifferNames action) &&
  match SniffError m with Some err => negb (errors_Is err ErrNeedMoreData) | None => false end.

Definition quicMoreData (action : RuleActionSniff) (m : InboundContext) : bool :=
  bool_decide (SnifferNames m = sn_SnifferNames action) && is_need_more (SniffError m).

Definition note_sniff (action : RuleActionSniff) (err : option error) : InboundContext -> InboundContext :=
  fun m => with_SniffError err (with_SnifferNames (sn_SnifferNames action) m).

Definition default_stream_sniffers : list StreamSniffer :=
  [TLSClientHello; HTTPHost; StreamDomainNameQuery; BitTorrent; SSH; RDP].
Definition default_packet_sniffers : list PacketSniffer :=
  [DomainNameQuery; QUICClientHello; STUNMessage; UTP; UDPTracker; DTLSRecord; NTP].

Definition or_default {A} (l d : list A) : list A := match l with [] => d | _ => l end.

(** The outcome of a sniff: an error that ends the routing, the new buffer when
    it holds anything, the packets to append, the rest of the input. *)
Record sniff_result : Type := {
  sr_fatal : option error;
  sr_buffer : option (list Z);
  sr_packets : list packet;
  sr_input : input;
  sr_md : Metadata
}.

Definition sniff_nothing (i : input) (m : Metadata) : sniff_result := Build_sniff_result None None [] i m.

Definition sniff_stream (action : RuleActionSniff) (conn : list stream_event) (buffers : list (list Z))
    (m : Metadata) : sniff_result :=
  if bool_decide (StreamSniffers action = []) && negb (bool_decide (PacketSniffers action = []))
  then sniff_nothing (StreamInput conn) m
  else if failed_before action (md m) then sniff_nothing (StreamInput conn) m
  else
    let p := PeekStream m conn buffers (or_default (StreamSniffers action) default_stream_sniffers) in
    let m := on_md (note_sniff action (pk_error p)) (pk_metadata p) in
    let m := match pk_error p with None => override_destination action m | Some _ => m end in
    Build_sniff_result None
      (if decide (pk_buffer p = []) then None else Some (pk_buffer p)) [] (StreamInput (pk_conn p)) m.

(** One packet: only the QUIC sniffer while its client hello is incomplete. *)
Definition sniff_packet (action : RuleActionSniff) (data : list Z) (m : Metadata)
    : option error * Metadata :=
  let sniffers := if quicMoreData action (md m) then [QUICClientHello]
                  else or_default (PacketSniffers action) default_packet_sniffers in
  let '(err, m) := PeekPacket m data sniffers in
  (err, on_md (note_sniff action err) m).

(** The packets buffered by earlier sniffs; says whether one decided. *)
Fixpoint sniff_buffered (action : RuleActionSniff) (packets : list packet) (m : Metadata)
    : option (option error) * Metadata :=
  match packets with
  | [] => (None, m)
  | p :: packets =>
      let '(err, m) := sniff_packet action (pkt_data p) m in
      if is_need_more err then sniff_buffered action packets m else (Some err, m)
  end.

Definition sniff_end (action : RuleActionSniff) (err : option error) (m : Metadata) : Metadata :=
  match err with None => override_destination action m | Some _ => m end.

(** Reads packets until one decides. *)
Fixpoint sniff_fresh (action : RuleActionSniff) (conn : list packet_event) (packets : list packet)
    (m : Metadata) : sniff_result :=
  match conn with
  | [] => Build_sniff_result None None packets (PacketInput []) m
  | ContextDone err :: conn => Build_sniff_result (Some err) None packets (PacketInput conn) m
  | PacketErr err :: conn =>
      Build_sniff_result (if errors_Is err DeadlineExceeded then None else Some err) None packets
        (PacketInput conn) m
  | Packet p :: conn =>
      let '(err, m) := sniff_packet action (pkt_data p) m in
      if is_need_more err then sniff_fresh action conn (packets ++ [p]) m
      else Build_sniff_result None None (packets ++ [p]) (PacketInput conn) (sniff_end action err m)
  end.

Definition sniff_packets (action : RuleActionSniff) (conn : list packet_event) (packets : list packet)
    (m : Metadata) : sniff_result :=
  if bool_decide (PacketSniffers action = []) && negb (bool_decide (StreamSniffers action = []))
  then sniff_nothing (PacketInput conn) m
  else if failed_before action (md m) then sniff_nothing (PacketInput conn) m
  else
    match sniff_buffered action packets m with
    | (Some err, m) => sniff_nothing (PacketInput conn) (sniff_end action err m)
    | (None, m) => sniff_fresh action conn packets m
    end.

(** [Router.actionSniff] *)
Definition actionSniff (action : RuleActionSniff) (i : input) (buffers : list (list Z))
    (packets : list packet) (m : Metadata) : sniff_result :=
  if Skip (md m) then sniff_nothing i m
  else if negb (bool_decide (Protocol (md m) = "")) then sniff_nothing i m
  else
    match i with
    | StreamInput conn => sniff_stream action conn buffers m
    | PacketInput conn => sniff_packets action conn packets m
    | NoInput => sniff_nothing NoInput m
    end.

(** The [sniff] branch of [matchRule]. *)
Definition run_sniff (action : RuleActionSniff) (w : walk D) : option error * walk D :=
  let s := actionSniff action (w_input w) (w_buffers w) (w_packets w) (w_md w) in
  (sr_fatal s,
   Build_walk (sr_md s) (w_buffers w ++ option_list (sr_buffer s)) (w_packets w ++ sr_packets s)
     (sr_input s) (w_dns w)).

(** *** Resolving *)

Definition server_not_found (server : string) : error := ErrNew ("DNS server not found: " +:+ server).

Definition resolve_options (action : RuleActionResolve) : DNSQueryOptions :=
  Build_DNSQueryOptions (res_Strategy action) DomainStrategyAsIS (res_DisableCache action)
    (res_RewriteTTL action) (res_ClientSubnet action) None.

(** [Router.actionResolve] *)
Definition actionResolve (action : RuleActionResolve) (w : walk D) : option error * walk D :=
  let m := w_ctx w in
  if negb (IsFqdn (Destination m)) then (None, w)
  else
    let transport :=
      if decide (res_Server action = "") then Some None
      else match cr_Transport r (res_Server action) with Some t => Some (Some t) | None => None end in
    match transport with
    | None => (Some (server_not_found (res_Server action)), w)
    | Some transport =>
        let '(addresses, err, dns) :=
          dns_Lookup m (sa_Fqdn (Destination m)) transport (resolve_options action) (w_dns w) in
        let w := Build_walk (w_md w) (w_buffers w) (w_packets w) (w_input w) dns in
        match err with
        | Some err => (Some err, w)
        | None =>
            (None, on_ctx (fun m => with_ResolveRouteOnly (res_RouteOnly action)
                                      (with_DestinationAddresses addresses m)) w)
        end
    end.

(** *** The options of [route] and [route-options] *)

Definition when (b : bool) (f : InboundContext -> InboundContext) (m : InboundContext) : InboundContext :=
  if b then f m else m.

Definition if_given {A} (v : option A) (f : A -> InboundContext -> InboundContext) (m : InboundContext)
    : InboundContext :=
  match v with Some a => f a m | None => m end.
Definition non_empty {A} (l : option (list A)) : option (list A) :=
  match l with Some (_ :: _) => l | _ => None end.

Definition overrides (o : RuleActionRouteOptions) : bool :=
  Socksaddr_IsValid (OverrideAddress o) || (0 <? OverridePort o).

Definition override_address (o : RuleActionRouteOptions) (m : InboundContext) : InboundContext :=
  with_DestinationAddresses []
    (with_Destination {| sa_Addr := sa_Addr (OverrideAddress o); sa_Port := sa_Port (Destination m);
                         sa_Fqdn := sa_Fqdn (OverrideAddress o) |} m).

Definition override_port (o : RuleActionRouteOptions) (m : InboundContext) : InboundContext :=
  with_Destination {| sa_Addr := sa_Addr (Destination m); sa_Port := OverridePort o;
                      sa_Fqdn := sa_Fqdn (Destination m) |} m.

Definition keep_original (m : InboundContext) : InboundContext :=
  when (negb (Socksaddr_IsValid (RouteOriginalDestination m)))
    (fun m => with_RouteOriginalDestination (Destination m) m) m.

Definition apply_route_options (o : RuleActionRouteOptions) (m : InboundContext) : InboundContext :=
  let m := when (overrides o) keep_original m in
  let m := when (Socksaddr_IsValid (OverrideAddress o)) (override_address o) m in
  let m := when (0 <? OverridePort o) (override_port o) m in
  let m := if_given (act_NetworkStrategy o) (fun s => with_NetworkStrategy (Some s)) m in
  let m := if_given (non_empty (act_NetworkType o)) with_NetworkType m in
  let m := if_given (non_empty (act_FallbackNetworkType o)) with_FallbackNetworkType m in
  let m := when (negb (act_FallbackDelay o =? 0)) (with_FallbackDelay (act_FallbackDelay o)) m in
  let m := when (act_UDPDisableDomainUnmapping o) (with_UDPDisableDomainUnmapping true) m in
  let m := when (act_UDPConnect o) (with_UDPConnect true) m in
  let m := when (0 <? act_UDPTimeout o) (with_UDPTimeout (act_UDPTimeout o)) m in
  let m := when (act_TLSFragment o)
             (fun m => with_TLSFragmentFallbackDelay (act_TLSFragmentFallbackDelay o)
                         (with_TLSFragment true m)) m in
  when (act_TLSRecordFragment o) (with_TLSRecordFragment true) m.

(** *** The walk over the rules *)

Definition nil_action : string := "invalid memory address or nil pointer dereference".

(** [action.FallbackToFinal && ctx.Err() == nil && ...] *)
Definition falls_back (ctxErr : option error) (action : RuleActionResolve) (err : error) : bool :=
  res_FallbackToFinal action && bool_decide (ctxErr = None) &&
  negb (strings_Contains (error_Error err) "DNS server not found:").

Definition forget_addresses (m : InboundContext) : InboundContext :=
  with_ResolveRouteOnly false (with_DestinationAddresses [] m).

(** The loop [match:] of [matchRule]; rules are numbered from [index]. *)
Fixpoint match_rules (ctxErr : option error) (preMatch : bool) (index : nat) (rules : list R) (w : walk D)
    : res (option (nat * R)) * walk D :=
  match rules with
  | [] => (Ok None, w)
  | rule :: rules =>
      let '(matched, m) := rl_Match rule (ResetRuleCache (w_ctx w)) in
      let w := on_ctx (fun _ => m) w in
      if negb matched then match_rules ctxErr preMatch (S index) rules w
      else
        match rl_Action rule with
        | None => (Panic nil_action, w)
        | Some (ActRoute _ o) => (Ok (Some (index, rule)), on_ctx (apply_route_options o) w)
        | Some (ActRouteOptions o) =>
            match_rules ctxErr preMatch (S index) rules (on_ctx (apply_route_options o) w)
        | Some (ActSniff action) =>
            if preMatch then (Ok (Some (index, rule)), w)
            else
              match run_sniff action w with
              | (Some err, w) => (Err err, w)
              | (None, w) => match_rules ctxErr preMatch (S index) rules w
              end
        | Some (ActResolve action) =>
            match actionResolve action w with
            | (None, w) => match_rules ctxErr preMatch (S index) rules w
            | (Some err, w) =>
                if falls_back ctxErr action err then (Ok None, on_ctx forget_addresses w)
                else (Err err, w)
            end
        | Some (ActReject _) | Some ActHijackDNS => (Ok (Some (index, rule)), w)
        | Some (ActDirect _) => match_rules ctxErr preMatch (S index) rules w
        end
  end.

(** [//nolint:staticcheck]: the deprecated options of the inbound *)
Definition legacy_sniff (o : InboundOptions) : RuleActionSniff :=
  {| sn_SnifferNames := []; StreamSniffers := []; PacketSniffers := [];
     sn_Timeout := SniffTimeout o; OverrideDestination := SniffOverrideDestination o |}.
Definition legacy_resolve (o : InboundOptions) : RuleActionResolve :=
  {| res_Server := ""; res_Strategy := io_DomainStrategy o; res_DisableCache := false;
     res_RewriteTTL := None; res_ClientSubnet := PrefixInvalid; res_RouteOnly := false;
     res_FallbackToFinal := false |}.

Definition inbound_options (preMatch : bool) (w : walk D) : option error * walk D :=
  let o := md_InboundOptions (w_md w) in
  if decide (o = InboundOptionsZero) then (None, w)
  else
    match (if negb preMatch && SniffEnabled o then run_sniff (legacy_sniff o) w else (None, w)) with
    | (Some err, w) => (Some err, w)
    | (None, w) =>
        match (if decide (io_DomainStrategy o = DomainStrategyAsIS) then (None, w)
               else actionResolve (legacy_resolve o) w) with
        | (Some err, w) => (Some err, w)
        | (None, w) =>
            (None, set_md (with_InboundOptions InboundOptionsZero
                             (on_md (when (io_UDPDisableDomainUnmapping o)
                                       (with_UDPDisableDomainUnmapping true)) (w_md w))) w)
        end
    end.

(** [Router.matchRule] *)
Definition matchRule (ctxErr : option error) (preMatch : bool) (m : Metadata) (i : input) (dns : D)
    : res (option (nat * R)) * walk D :=
  let m := on_md find_process m in
  match find_domain dns (md m) with
  | Ok m' =>
      let w := Build_walk (on_md (fun _ => find_version m') m) [] [] i dns in
      match inbound_options preMatch w with
      | (Some err, w) => (Err err, w)
      | (None, w) => match_rules ctxErr preMatch 0 (cr_rules r) w
      end
  | Err err => (Err err, Build_walk m [] [] i dns)
  | Panic msg => (Panic msg, Build_walk m [] [] i dns)
  end.

(** ** Routing *)

(** What the router does with a connection it accepts. *)
Inductive routed (C : Type) : Type :=
  | ToInbound (tag : string) (c : C) (m : Metadata)
  | ToOutbound (o : AdapterOutbound) (handler : bool) (c : C) (m : Metadata)
  | ToDNS (c : C) (packets : list packet) (m : Metadata).
Arguments ToInbound {C}.
Arguments ToOutbound {C}.
Arguments ToDNS {C}.

(** The state the router leaves: the drop counters of the reject actions, by
    the number of the rule, and the DNS router's. *)
Abbreviation drop_counters := (gmap nat (list Z)).

(** [RuleActionReject.Error] of the action of rule [index]. *)
Definition reject (index : nat) (action : RuleActionReject) (now : Z) (drops : drop_counters)
    : res error * drop_counters :=
  let '(rejection, counter) := RuleActionReject_Error action now (default [] (drops !! index)) in
  (match rejection with
   | Ok rejection => Ok (reject_error rejection)
   | Err err => Err err
   | Panic msg => Panic msg
   end, <[index := counter]> drops).

Definition rejected {A} (e : res error) : res A :=
  match e with Ok err => Err err | Err err => Err err | Panic msg => Panic msg end.

(** A connection with a detour goes to that inbound. *)
Definition detour {C} (injectable : AdapterInbound -> bool) (network : string) (c : C) (m : Metadata)
    : res (routed C) :=
  let tag := md_InboundDetour m in
  if decide (LastInbound (md m) = tag) then Err (ErrNew ("routing loop on detour: " +:+ tag))
  else
    match cr_inbound r tag with
    | None => Err (ErrNew ("inbound detour not found: " +:+ tag))
    | Some inbound =>
        if injectable inbound then
          Ok (ToInbound tag c
                (with_InboundDetour ""
                   (on_md (fun m => with_Inbound tag (with_LastInbound (Inbound m) m)) m)))
        else Err (ErrNew ("inbound detour is not " +:+ network +:+ " injectable: " +:+ tag))
    end.

(** Destinations of multiplexing protocols that are no longer global. *)
Definition multiplex_error (fqdn : string) : option error :=
  if decide (fqdn = mux_Destination_Fqdn) then
    Some (ErrNew "global multiplex is deprecated since sing-box v1.7.0, enable multiplex in Inbound fields instead.")
  else if decide (fqdn = vmess_MuxDestination_Fqdn) then
    Some (ErrNew "global multiplex (v2ray legacy) not supported since sing-box v1.7.0.")
  else if decide (fqdn = uot_MagicAddress) then
    Some (ErrNew "global UoT not supported since sing-box v1.7.0.")
  else if decide (fqdn = uot_LegacyMagicAddress) then
    Some (ErrNew "global UoT (legacy) not supported since sing-box v1.7.0.")
  else None.

(** The outbound of a [route] action or the default one, which must carry the
    network. *)
Definition select_outbound (network NETWORK prefix : string) (o : option AdapterOutbound) (tag : string)
    : res AdapterOutbound :=
  match o with
  | None => Err (ErrNew ("outbound not found: " +:+ tag))
  | Some o =>
      if bool_decide (network ∈ ob_Network o) then Ok o
      else Err (ErrNew (NETWORK +:+ " is not supported by " +:+ prefix +:+ ": " +:+ ob_Tag o))
  end.

Definition cached_conn (buffers : list (list Z)) (c : Conn) : Conn := fold_left CachedConn buffers c.
Definition tracked_conn (c : Conn) : Conn := fold_left (fun c t => TrackedConn t c) (cr_trackers r) c.

Definition conn_of (need_deadline : bool) (i : input) : Conn :=
  let c := InputConn (match i with StreamInput conn => conn | _ => [] end) in
  if need_deadline then DeadlineConn c else c.

(** [Router.routeConnection].  [need_deadline] is
    [deadline.NeedAdditionalReadDeadline(conn)]. *)
Definition routeConnection (ctxErr : option error) (need_deadline : bool) (conn : list stream_event)
    (m : Metadata) (now : Z) (drops : drop_counters) (dns : D)
    : res (routed Conn) * drop_counters * D :=
  if negb (bool_decide (md_InboundDetour m = "")) then
    (detour ib_TCPInjectable "TCP" (InputConn conn) m, drops, dns)
  else
    let m := on_md (with_Network NetworkTCP) m in
    match multiplex_error (sa_Fqdn (Destination (md m))) with
    | Some err => (Err err, drops, dns)
    | None =>
        let '(selected, w) := matchRule ctxErr false m (StreamInput conn) dns in
        let c := cached_conn (w_buffers w) (conn_of need_deadline (w_input w)) in
        let hand_over o := ToOutbound o (ob_ConnectionHandler o) (tracked_conn c) (w_md w) in
        match selected with
        | Err err => (Err err, drops, w_dns w)
        | Panic msg => (Panic msg, drops, w_dns w)
        | Ok None =>
            (let* o := select_outbound NetworkTCP "TCP" "default outbound" (Some (cr_default r)) "" in
             Ok (hand_over o), drops, w_dns w)
        | Ok (Some (index, rule)) =>
            match rl_Action rule with
            | Some (ActRoute tag _) =>
                (let* o := select_outbound NetworkTCP "TCP" "outbound" (cr_outbound r tag) tag in
                 Ok (hand_over o), drops, w_dns w)
            | Some (ActReject action) =>
                let '(err, drops) := reject index action now drops in (rejected err, drops, w_dns w)
            | Some ActHijackDNS =>
                (Ok (ToDNS c [] (on_md (with_Destination SocksaddrZero) (w_md w))), drops, w_dns w)
            | _ => (Panic nil_action, drops, w_dns w)
            end
        end
    end.

Definition cached_packets (packets : list packet) (c : PacketConn) : PacketConn :=
  fold_left CachedPacketConn packets c.
Definition tracked_packets (c : PacketConn) : PacketConn :=
  fold_left (fun c t => TrackedPacketConn t c) (cr_trackers r) c.
Definition packet_conn_of (i : input) : PacketConn :=
  InputPacketConn (match i with PacketInput conn => conn | _ => [] end).

(** [Router.routePacketConnection]; a hijacked connection keeps the packets of
    the sniffs apart.  [is_nat] says that it is an [udpnat.Conn]: only then is
    its destination cleared. *)
Definition routePacketConnection (ctxErr : option error) (is_nat : bool) (conn : list packet_event)
    (m : Metadata) (now : Z) (drops : drop_counters) (dns : D)
    : res (routed PacketConn) * drop_counters * D :=
  if negb (bool_decide (md_InboundDetour m = "")) then
    (detour ib_UDPInjectable "UDP" (InputPacketConn conn) m, drops, dns)
  else
    let m := on_md (with_Network NetworkUDP) m in
    let '(selected, w) := matchRule ctxErr false m (PacketInput conn) dns in
    let c := tracked_packets (cached_packets (w_packets w) (packet_conn_of (w_input w))) in
    let c := if FakeIP (w_ctx w)
             then NATPacketConn c (OriginDestination (w_ctx w)) (Destination (w_ctx w)) else c in
    let hand_over o := ToOutbound o (ob_PacketConnectionHandler o) c (w_md w) in
    match selected with
    | Err err => (Err err, drops, w_dns w)
    | Panic msg => (Panic msg, drops, w_dns w)
    | Ok None =>
        (let* o := select_outbound NetworkUDP "UDP" "outbound" (Some (cr_default r)) "" in
         Ok (hand_over o), drops, w_dns w)
    | Ok (Some (index, rule)) =>
        match rl_Action rule with
        | Some (ActRoute tag _) =>
            (let* o := select_outbound NetworkUDP "UDP" "outbound" (cr_outbound r tag) tag in
             Ok (hand_over o), drops, w_dns w)
        | Some (ActReject action) =>
            let '(err, drops) := reject index action now drops in (rejected err, drops, w_dns w)
        | Some ActHijackDNS =>
            (Ok (ToDNS (packet_conn_of (w_input w)) (w_packets w)
                   (if is_nat then on_md (with_Destination SocksaddrZero) (w_md w) else w_md w)),
             drops, w_dns w)
        | _ => (Panic nil_action, drops, w_dns w)
        end
    end.

(** [Router.PreMatch] *)
Definition PreMatch (ctxErr : option error) (m : Metadata) (now : Z) (drops : drop_counters) (dns : D)
    : res unit * drop_counters * D :=
  let '(selected, w) := matchRule ctxErr true m NoInput dns in
  match selected with
  | Err err => (Err err, drops, w_dns w)
  | Panic msg => (Panic msg, drops, w_dns w)
  | Ok None => (Ok tt, drops, w_dns w)
  | Ok (Some (index, rule)) =>
      match rl_Action rule with
      | Some (ActReject action) =>
          let '(err, drops) := reject index action now drops in (rejected err, drops, w_dns w)
      | _ => (Ok tt, drops, w_dns w)
      end
  end.
End router.

Arguments ToInbound {C}.
Arguments ToOutbound {C}.
Arguments ToDNS {C}.
#[global] Opaque run_sniff actionResolve.

(** ** Theorems *)

(** *** What the walk does to the parts of its state *)

(** The parts that only a sniff changes. *)
Definition same_data {D} (w w' : walk D) : Prop :=
  w_buffers w' = w_buffers w /\ w_packets w' = w_packets w /\ w_input w' = w_input w.

#[global] Instance same_data_equiv {D} : PreOrder (@same_data D).
Proof. split; [done|]. unfold same_data. intros ??? (? & ? & ?) (? & ? & ?). split_and!; congruence. Qed.

Definition with_input {D} (i : input) (w : walk D) : walk D :=
  Build_walk (w_md w) (w_buffers w) (w_packets w) i (w_dns w).

Definition is_sniff (a : option RuleAction) : bool :=
  match a with Some (ActSniff _) => true | _ => false end.

(** The action ends the walk of a connection. *)
Definition is_final (a : option RuleAction) : bool :=
  match a with Some (ActRoute _ _) | Some (ActReject _) | Some ActHijackDNS => true | _ => false end.

Lemma same_data_on_ctx {D} f (w : walk D) : same_data w (on_ctx f w).
Proof. done. Qed.

#[export] Hint Resolve same_data_on_ctx : box.

Section walk_theorems.
Context {R D : Type} `{External, SniffLib, RouteLib, RouteRuleOps R, DNSRouterOps D} (r : ConnRouter R).

Lemma actionResolve_data action (w : walk D) : same_data w (actionResolve r action w).2.
Proof.
  with_strategy transparent [actionResolve] unfold actionResolve.
  case_match; [done|]. case_match; [|done].
  destruct (dns_Lookup _ _ _ _ _) as [[addresses err] dns]. by destruct err.
Qed.

Lemma actionResolve_with_input i action (w : walk D) :
  actionResolve r action (with_input i w) =
  ((actionResolve r action w).1, with_input i (actionResolve r action w).2).
Proof.
  with_strategy transparent [actionResolve] unfold actionResolve. simpl. case_match; [done|]. case_match; [|done].
  destruct (dns_Lookup _ _ _ _ _) as [[addresses err] dns]. by destruct err.
Qed.

(** The pre-match walks like the full one, until it meets a sniff. *)
Lemma match_rules_prematch ctxErr index rules i (w : walk D) result w' :
  match_rules r ctxErr true index rules w = (result, w') ->
  match result with Ok (Some (_, rule)) => is_sniff (rl_Action rule) = false | _ => True end ->
  match_rules r ctxErr false index rules (with_input i w) = (result, with_input i w').
Proof.
  revert index w. induction rules as [|rule rules IH]; intros index w; simpl; [by intros [= <- <-]|].
  destruct (rl_Match rule _) as [matched m]. destruct matched; simpl.
  2: { intros Hr Hs. by apply (IH (S index) (on_ctx (fun _ => m) w)). }
  destruct (rl_Action rule) as [[tag o|o|d|a| |a|a]|] eqn:Ea; simpl.
  - by intros [= <- <-].
  - intros Hr Hs. by apply (IH (S index) (on_ctx (apply_route_options o) (on_ctx (fun _ => m) w))).
  - intros Hr Hs. by apply (IH (S index) (on_ctx (fun _ => m) w)).
  - by intros [= <- <-].
  - by intros [= <- <-].
  - intros [= <- <-]. by rewrite Ea.
  - pose proof (actionResolve_with_input i a (on_ctx (fun _ => m) w)) as Ha.
    change (with_input i (on_ctx (fun _ => m) w)) with (on_ctx (fun _ => m) (with_input i w)) in Ha.
    rewrite Ha. destruct (actionResolve r a (on_ctx (fun _ => m) w)) as [[err|] w1]; simpl.
    + destruct (falls_back _ _ _); by intros [= <- <-].
    + intros Hr Hs. by apply IH.
  - by intros [= <- <-].
Qed.

(** A selected rule is one of the list and final. *)
Lemma match_rules_selected ctxErr index rules (w : walk D) k rule w' :
  match_rules r ctxErr false index rules w = (Ok (Some (k, rule)), w') ->
  (index <= k)%nat /\ rules !! (k - index)%nat = Some rule /\ is_final (rl_Action rule) = true.
Proof.
  revert index w. induction rules as [|rule' rules IH]; intros index w; simpl; [by intros [=]|].
  assert (Hstep : forall w1, match_rules r ctxErr false (S index) rules w1 = (Ok (Some (k, rule)), w') ->
    (index <= k)%nat /\ (rule' :: rules) !! (k - index)%nat = Some rule /\ is_final (rl_Action rule) = true).
  { intros w1 (Hk & Hl & Hf)%IH. split_and!; [lia| |done].
    by replace (k - index)%nat with (S (k - S index)) by lia. }
  assert (Hhere : forall w1 : walk D, is_final (rl_Action rule') = true ->
    (@Ok (option (nat * R)) (Some (index, rule')), w1) = (Ok (Some (k, rule)), w') ->
    (index <= k)%nat /\ (rule' :: rules) !! (k - index)%nat = Some rule /\ is_final (rl_Action rule) = true).
  { intros w1 Hf [= <- <- <-]. by rewrite Nat.sub_diag. }
  destruct (rl_Match rule' _) as [[] m]; simpl; [|by apply Hstep].
  destruct (rl_Action rule') as [[tag o|o|d|a| |a|a]|] eqn:Ea; simpl;
    try (by apply Hstep); try (by apply Hhere); try done.
  - destruct (run_sniff a (on_ctx (fun _ => m) w)) as [[err|] w1]; [by intros [=]|by apply Hstep].
  - destruct (actionResolve r a _) as [[err|] w1]; [by destruct (falls_back _ _ _); intros [=]|by apply Hstep].
Qed.

Definition count_sniffs (rules : list R) : nat :=
  length (List.filter (fun rule => is_sniff (rl_Action rule)) rules).

(** Without a sniff the data stays; with one, it is what that sniff left. *)
Lemma match_rules_data ctxErr index rules (w : walk D) :
  (count_sniffs rules <= 1)%nat ->
  let w' := (match_rules r ctxErr false index rules w).2 in
  same_data w w' \/
  (count_sniffs rules = 1%nat /\
   exists action w1, same_data w w1 /\ same_data (run_sniff action w1).2 w').
Proof.
  revert index w. induction rules as [|rule rules IH]; intros index w Hc; simpl; [by left|].
  unfold count_sniffs in *. simpl in Hc. revert Hc.
  destruct (rl_Match rule _) as [[] m]; simpl.
  2: { destruct (is_sniff (rl_Action rule)) eqn:Es; simpl; intros Hc.
       - destruct (IH (S index) (on_ctx (fun _ => m) w) ltac:(lia)) as [Hd|[Hc' _]]; [|lia].
         left. etrans; [|exact Hd]. done.
       - apply (IH (S index) (on_ctx (fun _ => m) w)). lia. }
  destruct (rl_Action rule) as [[tag o|o|d|a| |a|a]|] eqn:Ea; simpl; intros Hc; try (by left).
  - by apply (IH (S index) (on_ctx (apply_route_options o) (on_ctx (fun _ => m) w))).
  - by apply (IH (S index) (on_ctx (fun _ => m) w)).
  - right. split; [lia|]. exists a, (on_ctx (fun _ => m) w). split; [done|].
    destruct (run_sniff a (on_ctx (fun _ => m) w)) as [[err|] w1] eqn:Es; simpl; [done|].
    destruct (IH (S index) w1 ltac:(lia)) as [Hd|[Hc' _]]; [done|lia].
  - pose proof (actionResolve_data a (on_ctx (fun _ => m) w)) as Hd.
    destruct (actionResolve r a _) as [[err|] w1] eqn:Er; simpl in *.
    + left. by case_match.
    + destruct (IH (S index) w1 Hc) as [Hd1|(Hc' & act & w2 & Hd2 & Hd3)].
      * left. etrans; [exact Hd|done].
      * right. split; [done|]. exists act, w2. split; [|done]. etrans; [exact Hd|done].
Qed.
End walk_theorems.

(** *** Sniffing keeps the data *)

(** Everything the peer sends, in order. *)
Definition sent (conn : list stream_event) : list Z :=
  concat (map (fun e => match e with Reads data _ => data | DeadlineFails _ => [] end) conn).
Definition sent_packets (conn : list packet_event) : list packet :=
  omap (fun e => match e with Packet p => Some p | _ => None end) conn.

Definition input_bytes (i : input) : list Z := match i with StreamInput conn => sent conn | _ => [] end.
Definition input_packets (i : input) : list packet :=
  match i with PacketInput conn => sent_packets conn | _ => [] end.

Section sniff_theorems.
Context {D : Type} `{External, SniffLib}.

Lemma PeekStream_loop_keeps i err buffers sniffers conn buffer m :
  let p := PeekStream_loop i err buffers sniffers conn buffer m in
  pk_buffer p ++ sent (pk_conn p) = buffer ++ sent conn.
Proof.
  revert i err buffer m. induction conn as [|[e|data [e|]] conn IH]; intros i err buffer m; simpl; [done|done| |].
  - by rewrite <- app_assoc.
  - destruct (try_streams _ _ _ _) as [[[] err'] m']; simpl; [by rewrite <- app_assoc|].
    case_match; simpl; [|by rewrite <- app_assoc]. rewrite IH. by rewrite <- app_assoc.
Qed.

Lemma actionSniff_bytes action i buffers packets m :
  let s := actionSniff action i buffers packets m in
  concat (option_list (sr_buffer s)) ++ input_bytes (sr_input s) = input_bytes i.
Proof.
  unfold actionSniff. do 2 (case_match; [done|]). destruct i as [|conn|conn]; [done| |].
  - unfold sniff_stream. do 2 (case_match; [done|]). cbn [sr_buffer sr_input input_bytes].
    pose proof (PeekStream_loop_keeps 0 None buffers
      (or_default (StreamSniffers action) default_stream_sniffers) conn [] m) as Hk.
    unfold PeekStream. set (p := PeekStream_loop _ _ _ _ _ _ _) in *. simpl in Hk. rewrite <- Hk.
    destruct (decide (pk_buffer p = [])) as [->|]; simpl; [done|]. by rewrite app_nil_r.
  - unfold sniff_packets. do 2 (case_match; [done|]).
    destruct (sniff_buffered _ _ _) as [[err|] m']; [done|].
    assert (Hf : forall packets m, let s := sniff_fresh action conn packets m in
      concat (option_list (sr_buffer s)) ++ input_bytes (sr_input s) = []).
    { induction conn as [|[p|e|e] conn IH]; intros ps m1; simpl; [done| |done|done].
      destruct (sniff_packet _ _ _) as [err m2]. by case_match. }
    apply Hf.
Qed.

Lemma sniff_fresh_packets action conn packets m :
  let s := sniff_fresh action conn packets m in
  sr_packets s ++ input_packets (sr_input s) = packets ++ sent_packets conn.
Proof.
  revert packets m. induction conn as [|[p|e|e] conn IH]; intros packets m; simpl; [done| |done|done].
  destruct (sniff_packet _ _ _) as [err m1]. case_match; simpl; [rewrite IH|]; by rewrite <- app_assoc.
Qed.

(** A sniff that finds no buffered packets. *)
Lemma actionSniff_packets action i buffers m :
  let s := actionSniff action i buffers [] m in
  sr_packets s ++ input_packets (sr_input s) = input_packets i.
Proof.
  unfold actionSniff. do 2 (case_match; [done|]). destruct i as [|conn|conn]; [done| |].
  - unfold sniff_stream. by do 2 (case_match; [done|]).
  - unfold sniff_packets. do 2 (case_match; [done|]). apply sniff_fresh_packets.
Qed.

Lemma run_sniff_bytes action (w : walk D) :
  let w' := (run_sniff action w).2 in
  concat (w_buffers w') ++ input_bytes (w_input w') = concat (w_buffers w) ++ input_bytes (w_input w) /\
  (length (w_buffers w') <= S (length (w_buffers w)))%nat.
Proof.
  with_strategy transparent [run_sniff] unfold run_sniff. simpl. split.
  - by rewrite concat_app, <- app_assoc, actionSniff_bytes.
  - rewrite length_app. destruct (sr_buffer _); simpl; lia.
Qed.

Lemma run_sniff_packets action (w : walk D) :
  w_packets w = [] ->
  let w' := (run_sniff action w).2 in
  w_packets w' ++ input_packets (w_input w') = input_packets (w_input w).
Proof.
  intros Hw. with_strategy transparent [run_sniff] unfold run_sniff. simpl. rewrite Hw. simpl.
  apply actionSniff_packets.
Qed.
End sniff_theorems.

Section route_theorems.
Context {R D : Type} `{External, SniffLib, RouteLib, RouteRuleOps R, DNSRouterOps D} (r : ConnRouter R).

(** The bytes stay, in at most [n] buffers more. *)
Definition bytes_kept (n : nat) (w w' : walk D) : Prop :=
  concat (w_buffers w') ++ input_bytes (w_input w') = concat (w_buffers w) ++ input_bytes (w_input w) /\
  (length (w_buffers w') <= length (w_buffers w) + n)%nat.

Lemma bytes_kept_trans n k w1 w2 w3 : bytes_kept n w1 w2 -> bytes_kept k w2 w3 -> bytes_kept (n + k) w1 w3.
Proof. intros [E1 L1] [E2 L2]. split; [congruence|lia]. Qed.

Lemma bytes_kept_le n k w1 w2 : (n <= k)%nat -> bytes_kept n w1 w2 -> bytes_kept k w1 w2.
Proof. intros Hle [E L]. split; [done|lia]. Qed.

Lemma bytes_kept_same w w' : same_data w w' -> bytes_kept 0 w w'.
Proof. intros (E1 & _ & E2). unfold bytes_kept. rewrite E1, E2. split; [done|lia]. Qed.

Lemma count_sniffs_cons rule rules :
  count_sniffs (rule :: rules) = ((if is_sniff (rl_Action rule) then 1 else 0) + count_sniffs rules)%nat.
Proof. unfold count_sniffs. simpl. by destruct (is_sniff (rl_Action rule)). Qed.

Lemma match_rules_bytes ctxErr index rules (w : walk D) :
  bytes_kept (count_sniffs rules) w (match_rules r ctxErr false index rules w).2.
Proof.
  revert index w. induction rules as [|rule rules IH]; intros index w; [by apply bytes_kept_same|].
  rewrite count_sniffs_cons. simpl.
  assert (Hstop : forall w1, same_data w w1 -> forall n, bytes_kept n w w1).
  { intros w1 Hw n. eapply bytes_kept_le, bytes_kept_same, Hw. lia. }
  assert (Hstep : forall n w1, bytes_kept n w w1 ->
    bytes_kept (n + count_sniffs rules) w (match_rules r ctxErr false (S index) rules w1).2).
  { intros n w1 Hw. eapply bytes_kept_trans; [exact Hw|apply IH]. }
  destruct (rl_Match rule _) as [[] m]; [|by apply Hstep, Hstop]. simpl.
  destruct (rl_Action rule) as [[tag o|o|d|a| |a|a]|] eqn:Ea; simpl;
    try (by apply (Hstep 0%nat), Hstop); try (by apply Hstop).
  - pose proof (run_sniff_bytes a (on_ctx (fun _ => m) w)) as [Hb Hl].
    destruct (run_sniff a (on_ctx (fun _ => m) w)) as [[err|] w1]; [|apply (Hstep 1%nat)];
      (split; [exact Hb|simpl in *; lia]).
  - pose proof (actionResolve_data r a (on_ctx (fun _ => m) w)) as Hd.
    destruct (actionResolve r a _) as [[err|] w1]; [|by apply (Hstep 0%nat), Hstop].
    destruct (falls_back _ _ _); by apply Hstop.
Qed.

(** *** The whole of [matchRule] *)

Definition sniffs (m : Metadata) : nat :=
  (if SniffEnabled (md_InboundOptions m) then 1 else 0) + count_sniffs (cr_rules r).

(** One sniff is all that happens to the data. *)
Definition one_sniff (w w' : walk D) : Prop :=
  exists action w1, same_data w w1 /\ same_data (run_sniff action w1).2 w'.

Lemma one_sniff_r w w1 w2 : one_sniff w w1 -> same_data w1 w2 -> one_sniff w w2.
Proof. intros (action & w0 & H1' & H2') Hs. exists action, w0. split; [done|by etrans]. Qed.

Lemma one_sniff_l w w1 w2 : same_data w w1 -> one_sniff w1 w2 -> one_sniff w w2.
Proof. intros Hs (action & w0 & H1' & H2'). exists action, w0. split; [by etrans|done]. Qed.

Lemma inbound_options_data (w : walk D) :
  let w' := (inbound_options r false w).2 in
  same_data w w' \/ SniffEnabled (md_InboundOptions (w_md w)) = true /\ one_sniff w w'.
Proof.
  unfold inbound_options. case_decide; [by left|]. simpl.
  destruct (if SniffEnabled _ then _ else _) as [err w1] eqn:Es.
  assert (Hs : same_data w w1 \/ SniffEnabled (md_InboundOptions (w_md w)) = true /\ one_sniff w w1).
  { destruct (SniffEnabled _); [|by left; injection Es as <- <-].
    right. split; [done|]. exists (legacy_sniff (md_InboundOptions (w_md w))), w. by rewrite Es. }
  destruct err as [err|]; simpl; [done|]. clear Es.
  set (resolved := if decide _ then _ else _).
  assert (Hr : same_data w1 resolved.2).
  { unfold resolved. case_decide; [done|]. apply actionResolve_data. }
  destruct resolved as [err w2]. simpl in Hr.
  assert (Hs2 : same_data w w2 \/ SniffEnabled (md_InboundOptions (w_md w)) = true /\ one_sniff w w2).
  { destruct Hs as [Hs|[He Hs]]; [left; by etrans|right; split; [done|by eapply one_sniff_r]]. }
  by destruct err.
Qed.

Definition start_walk (m : Metadata) (i : input) (dns : D) : walk D := Build_walk m [] [] i dns.

Lemma matchRule_data ctxErr m i dns :
  (sniffs m <= 1)%nat ->
  let w' := (matchRule r ctxErr false m i dns).2 in
  same_data (start_walk m i dns) w' \/ one_sniff (start_walk m i dns) w'.
Proof.
  unfold matchRule, sniffs. intros Hc. destruct (find_domain r dns _) as [m'|e|msg]; [|by left|by left].
  set (w := Build_walk _ [] [] i dns).
  assert (Hw : same_data (start_walk m i dns) w) by done.
  change (md_InboundOptions m) with (md_InboundOptions (w_md w)) in Hc.
  pose proof (inbound_options_data w) as Hi. destruct (inbound_options r false w) as [[err|] w1]; simpl in *.
  { destruct Hi as [Hi|[_ Hi]]; [left|right; eapply one_sniff_l; [exact Hw|exact Hi]]. by etrans. }
  pose proof (match_rules_data r ctxErr 0 (cr_rules r) w1) as Hm.
  destruct Hi as [Hi|[He Hi]].
  - destruct (Hm ltac:(lia)) as [Hd|[_ Hd]]; [left|right].
    + etrans; [exact Hi|exact Hd].
    + eapply one_sniff_l; [|exact Hd]. exact Hi.
  - rewrite He in Hc. destruct (Hm ltac:(lia)) as [Hd|[Hn _]]; [|lia].
    right. eapply one_sniff_r; [exact Hi|exact Hd].
Qed.

Lemma matchRule_bytes ctxErr m conn dns :
  (sniffs m <= 1)%nat ->
  let w' := (matchRule r ctxErr false m (StreamInput conn) dns).2 in
  concat (rev (w_buffers w')) ++ input_bytes (w_input w') = sent conn.
Proof.
  cbv zeta. intros Hc. destruct (matchRule_data ctxErr m (StreamInput conn) dns Hc) as [(Eb & _ & Ei)|(a & w1 & Hw & Ew)].
  - by rewrite Eb, Ei.
  - destruct Hw as (Eb & _ & Ei). destruct Ew as (Eb' & _ & Ei').
    destruct (run_sniff_bytes a w1) as [Hb Hl]. rewrite <- Eb', <- Ei', Eb, Ei in *. simpl in *.
    destruct (w_buffers (matchRule _ _ _ _ _ _).2) as [|b [|b' l]]; [exact Hb|exact Hb|simpl in Hl; lia].
Qed.

Lemma matchRule_packets ctxErr m conn dns :
  (sniffs m <= 1)%nat ->
  let w' := (matchRule r ctxErr false m (PacketInput conn) dns).2 in
  w_packets w' ++ input_packets (w_input w') = sent_packets conn.
Proof.
  cbv zeta. intros Hc. destruct (matchRule_data ctxErr m (PacketInput conn) dns Hc) as [(_ & Ep & Ei)|(a & w1 & Hw & Ew)].
  - by rewrite Ep, Ei.
  - destruct Hw as (_ & Ep & Ei). destruct Ew as (_ & Ep' & Ei').
    pose proof (run_sniff_packets a w1 Ep) as Hp. rewrite Ep', Ei', Hp, Ei. done.
Qed.
End route_theorems.

(** What a reader of a wrapped connection gets, as the packages document it: a
    cached buffer or packet comes first; the other wrappers pass the data on. *)
Class ConnReads : Type := {
  delivered : Conn -> list Z;
  datagrams : PacketConn -> list (list Z)
}.
Class ConnLaws `{ConnReads} : Prop := {
  delivered_input : forall conn, delivered (InputConn conn) = sent conn;
  delivered_deadline : forall c, delivered (DeadlineConn c) = delivered c;
  delivered_cached : forall c buffer, delivered (CachedConn c buffer) = buffer ++ delivered c;
  delivered_tracked : forall t c, delivered (TrackedConn t c) = delivered c;
  datagrams_input : forall conn, datagrams (InputPacketConn conn) = map pkt_data (sent_packets conn);
  datagrams_cached : forall c p, datagrams (CachedPacketConn c p) = pkt_data p :: datagrams c;
  datagrams_tracked : forall t c, datagrams (TrackedPacketConn t c) = datagrams c;
  datagrams_nat : forall c o d, datagrams (NATPacketConn c o d) = datagrams c
}.

Section delivery.
Context {R D : Type} `{External, SniffLib, RouteLib, RouteRuleOps R, DNSRouterOps D} (r : ConnRouter R).
Context `{ConnLaws}.

Lemma delivered_cached_conn buffers c : delivered (cached_conn buffers c) = concat (rev buffers) ++ delivered c.
Proof.
  unfold cached_conn. revert c. induction buffers as [|b buffers IH]; intros c; simpl; [done|].
  rewrite IH, delivered_cached, concat_app. simpl. by rewrite app_nil_r, <- app_assoc.
Qed.

Lemma delivered_tracked_conn c : delivered (tracked_conn r c) = delivered c.
Proof.
  unfold tracked_conn. revert c. induction (cr_trackers r) as [|t l IH]; intros c; simpl; [done|].
  by rewrite IH, delivered_tracked.
Qed.

Lemma delivered_conn_of need_deadline i : delivered (conn_of need_deadline i) = input_bytes i.
Proof.
  unfold conn_of. destruct need_deadline; rewrite ?delivered_deadline, delivered_input; by destruct i.
Qed.

Lemma datagrams_cached_packets packets c :
  datagrams (cached_packets packets c) = map pkt_data (rev packets) ++ datagrams c.
Proof.
  unfold cached_packets. revert c. induction packets as [|p packets IH]; intros c; simpl; [done|].
  rewrite IH, datagrams_cached, map_app. simpl. by rewrite <- app_assoc.
Qed.

Lemma datagrams_tracked_packets c : datagrams (tracked_packets r c) = datagrams c.
Proof.
  unfold tracked_packets. revert c. induction (cr_trackers r) as [|t l IH]; intros c; simpl; [done|].
  by rewrite IH, datagrams_tracked.
Qed.

Lemma datagrams_conn_of i : datagrams (packet_conn_of i) = map pkt_data (input_packets i).
Proof. unfold packet_conn_of. rewrite datagrams_input. by destruct i. Qed.

(** The connection a routed stream carries. *)
Definition routed_conn {C} (out : routed C) : C :=
  match out with ToInbound _ c _ | ToOutbound _ _ c _ | ToDNS c _ _ => c end.

Lemma detour_ok {C} injectable network (c : C) m out :
  detour r injectable network c m = Ok out -> exists tag m', out = ToInbound tag c m'.
Proof.
  unfold detour. case_decide; [by intros [=]|]. case_match; [|by intros [=]].
  case_match; [|by intros [=]]. intros [= <-]. by do 2 eexists.
Qed.

(** C9 (sniffing a stream loses nothing): a connection that at most one sniff may
    look at, by the rules and by the options of its inbound, reaches the
    inbound, the outbound or the DNS server with every byte its peer sent, in
    order. *)
Theorem routed_stream_complete ctxErr need_deadline conn m now drops dns out drops' dns' :
  (sniffs r m <= 1)%nat ->
  routeConnection r ctxErr need_deadline conn m now drops dns = (Ok out, drops', dns') ->
  delivered (routed_conn out) = sent conn.
Proof.
  intros Hc. unfold routeConnection. destruct (negb (bool_decide (md_InboundDetour m = ""))).
  { intros [= (tag & m' & ->)%detour_ok _ _]. apply delivered_input. }
  destruct (multiplex_error _); [by intros [=]|].
  pose proof (matchRule_bytes r ctxErr (on_md (with_Network NetworkTCP) m) conn dns Hc) as Hb.
  destruct (matchRule _ _ _ _ _ _) as [selected w]. simpl in Hb.
  assert (Hd : delivered (cached_conn (w_buffers w) (conn_of need_deadline (w_input w))) = sent conn).
  { by rewrite delivered_cached_conn, delivered_conn_of. }
  destruct selected as [[[index rule]|]|err|msg]; [| |by intros [=]|by intros [=]].
  - destruct (rl_Action rule) as [[tag o|o|d|a| |a|a]|]; try by intros [=].
    + intros [= Ho _ _]. apply res_bind_ok in Ho as (o' & _ & [= <-]). simpl. by rewrite delivered_tracked_conn.
    + unfold reject. destruct (RuleActionReject_Error _ _ _) as [[ | | ] counter]; by intros [=].
    + by intros [= <- _ _].
  - intros [= Ho _ _]. apply res_bind_ok in Ho as (o' & _ & [= <-]). simpl. by rewrite delivered_tracked_conn.
Qed.

(** A packet connection that at most one
    sniff may look at reaches its inbound or outbound with every datagram its
    peer sent exactly once: the sniffed ones first, in reverse order, then the
    others in order; a DNS server gets the sniffed ones in order, apart. *)
Theorem routed_packets_complete ctxErr is_nat conn m now drops dns out drops' dns' :
  (sniffs r m <= 1)%nat ->
  routePacketConnection r ctxErr is_nat conn m now drops dns = (Ok out, drops', dns') ->
  exists sniffed rest, sniffed ++ rest = map pkt_data (sent_packets conn) /\
    match out with
    | ToInbound _ c _ => datagrams c = sniffed ++ rest
    | ToOutbound _ _ c _ => datagrams c = rev sniffed ++ rest
    | ToDNS c packets _ => map pkt_data packets = sniffed /\ datagrams c = rest
    end.
Proof.
  intros Hc. unfold routePacketConnection. destruct (negb (bool_decide (md_InboundDetour m = ""))).
  { intros [= (tag & m' & ->)%detour_ok _ _]. exists [], (map pkt_data (sent_packets conn)).
    split; [done|]. apply datagrams_input. }
  pose proof (matchRule_packets r ctxErr (on_md (with_Network NetworkUDP) m) conn dns Hc) as Hb.
  destruct (matchRule _ _ _ _ _ _) as [selected w]. simpl in Hb.
  intros Hr. exists (map pkt_data (w_packets w)), (map pkt_data (input_packets (w_input w))).
  rewrite <- map_app, Hb. split; [done|]. revert Hr.
  set (c := if FakeIP _ then _ else _).
  assert (Hd : datagrams c = rev (map pkt_data (w_packets w)) ++ map pkt_data (input_packets (w_input w))).
  { rewrite <- map_rev. unfold c. destruct (FakeIP _); rewrite ?datagrams_nat;
      by rewrite datagrams_tracked_packets, datagrams_cached_packets, datagrams_conn_of. }
  destruct selected as [[[index rule]|]|err|msg]; [| |by intros [=]|by intros [=]].
  - destruct (rl_Action rule) as [[tag o|o|d|a| |a|a]|]; try by intros [=].
    + intros [= Ho _ _]. by apply res_bind_ok in Ho as (o' & _ & [= <-]).
    + unfold reject. destruct (RuleActionReject_Error _ _ _) as [[ | | ] counter]; by intros [=].
    + intros [= <- _ _]. split; [done|apply datagrams_conn_of].
  - intros [= Ho _ _]. by apply res_bind_ok in Ho as (o' & _ & [= <-]).
Qed.
End delivery.

(** *** Pre-match, and the choice of the outbound *)

Section decisions.
Context {R D : Type} `{External, SniffLib, RouteLib, RouteRuleOps R, DNSRouterOps D} (r : ConnRouter R).

Lemma inbound_options_prematch (w : walk D) i :
  SniffEnabled (md_InboundOptions (w_md w)) = false ->
  inbound_options r false (with_input i w) =
  ((inbound_options r true w).1, with_input i (inbound_options r true w).2).
Proof.
  unfold inbound_options. intros Hs. simpl. rewrite Hs. case_decide; [done|].
  case_decide; [done|]. rewrite (actionResolve_with_input r i).
  by destruct (actionResolve r (legacy_resolve _) w) as [[err|] w1].
Qed.

(** What a pre-match decides, the full match decides too. *)
Lemma matchRule_prematch ctxErr m i dns result w :
  SniffEnabled (md_InboundOptions m) = false ->
  matchRule r ctxErr true m NoInput dns = (result, w) ->
  match result with Ok (Some (_, rule)) => is_sniff (rl_Action rule) = false | _ => True end ->
  exists w', matchRule r ctxErr false m i dns = (result, w') /\ w_dns w' = w_dns w.
Proof.
  unfold matchRule. intros Hs. destruct (find_domain r dns _) as [m'|e|msg].
  2: { intros [= <- <-] _. by eexists. }
  2: { intros [= <- <-] _. by eexists. }
  set (w0 := Build_walk _ [] [] NoInput dns).
  change (Build_walk _ [] [] i dns) with (with_input i w0).
  rewrite (inbound_options_prematch w0 i Hs).
  destruct (inbound_options r true w0) as [[err|] w1]; simpl.
  - intros [= <- <-] _. by eexists.
  - intros Hm Hns. exists (with_input i w). split; [|done]. by apply match_rules_prematch.
Qed.

(** When the pre-match of a request fails, by a reject
    action or an error on the way to one, routing the connection of that
    request fails in the same way; its bytes would not have been looked at. *)
Theorem prematch_failure_final ctxErr m now drops dns e drops' dns' :
  SniffEnabled (md_InboundOptions m) = false -> md_InboundDetour m = "" ->
  (PreMatch r ctxErr (on_md (with_Network NetworkTCP) m) now drops dns = (Err e, drops', dns') ->
   multiplex_error (sa_Fqdn (Destination (md m))) = None ->
   forall need_deadline conn,
   routeConnection r ctxErr need_deadline conn m now drops dns = (Err e, drops', dns')) /\
  (PreMatch r ctxErr (on_md (with_Network NetworkUDP) m) now drops dns = (Err e, drops', dns') ->
   forall is_nat conn,
   routePacketConnection r ctxErr is_nat conn m now drops dns = (Err e, drops', dns')).
Proof.
  intros Hs Hd. unfold PreMatch, routeConnection, routePacketConnection. rewrite Hd. simpl.
  assert (Hp : forall network i,
    let '(selected, w) := matchRule r ctxErr true (on_md (with_Network network) m) NoInput dns in
    match selected with Ok (Some (_, rule)) => is_sniff (rl_Action rule) = false | _ => True end ->
    exists w', matchRule r ctxErr false (on_md (with_Network network) m) i dns = (selected, w') /\
      w_dns w' = w_dns w).
  { intros network i. destruct (matchRule r ctxErr true _ _ _) as [selected w] eqn:E.
    intros Hns. by eapply matchRule_prematch. }
  split.
  - specialize (Hp NetworkTCP).
    destruct (matchRule r ctxErr true _ _ _) as [[[[index rule]|]|err|msg] w]; try by intros [=].
    + intros Hr Hm nd conn. destruct (Hp (StreamInput conn)) as (w' & Hw & Hdns).
      { by destruct (rl_Action rule) as [[]|]. }
      rewrite Hm, Hw, Hdns. destruct (rl_Action rule) as [[]|]; try discriminate Hr.
      by destruct (reject _ _ _ _) as [[] ?]; simplify_eq/=.
    + intros [= -> <- <-] Hm nd conn. destruct (Hp (StreamInput conn) I) as (w' & Hw & Hdns).
      by rewrite Hm, Hw, Hdns.
  - specialize (Hp NetworkUDP).
    destruct (matchRule r ctxErr true _ _ _) as [[[[index rule]|]|err|msg] w]; try by intros [=].
    + intros Hr is_nat conn. destruct (Hp (PacketInput conn)) as (w' & Hw & Hdns).
      { by destruct (rl_Action rule) as [[]|]. }
      rewrite Hw, Hdns. destruct (rl_Action rule) as [[]|]; try discriminate Hr.
      by destruct (reject _ _ _ _) as [[] ?]; simplify_eq/=.
    + intros [= -> <- <-] is_nat conn. destruct (Hp (PacketInput conn) I) as (w' & Hw & Hdns).
      by rewrite Hw, Hdns.
Qed.

Lemma select_outbound_ok network NETWORK prefix o tag o' :
  select_outbound network NETWORK prefix o tag = Ok o' -> o = Some o' /\ network ∈ ob_Network o'.
Proof.
  unfold select_outbound. destruct o as [o|]; [|done]. case_bool_decide; [|done]. by intros [= ->].
Qed.

Lemma matchRule_selected ctxErr m i dns k rule w :
  matchRule r ctxErr false m i dns = (Ok (Some (k, rule)), w) ->
  cr_rules r !! k = Some rule /\ is_final (rl_Action rule) = true.
Proof.
  unfold matchRule. destruct (find_domain r dns _) as [m'|e|msg]; [|by intros [=]|by intros [=]].
  destruct (inbound_options r false _) as [[err|] w1]; [by intros [=]|].
  intros (_ & Hl & Hf)%match_rules_selected. by rewrite Nat.sub_0_r in Hl.
Qed.

(** Where a connection of a network may go: the default outbound, or the one a
    [route] action of some rule names. *)
Definition proper_outbound (network : string) (o : AdapterOutbound) : Prop :=
  network ∈ ob_Network o /\
  (o = cr_default r \/
   exists k rule tag options, cr_rules r !! k = Some rule /\
     rl_Action rule = Some (ActRoute tag options) /\ cr_outbound r tag = Some o).

(** A stream or packet
    connection is handed to an outbound only if the outbound supports the
    network, and it is the default one or the one named by a rule's [route]
    action. *)
Theorem routed_outbound_supports_network ctxErr flag m now drops dns :
  (forall conn o handler c m' drops' dns',
   routeConnection r ctxErr flag conn m now drops dns = (Ok (ToOutbound o handler c m'), drops', dns') ->
   proper_outbound NetworkTCP o /\ handler = ob_ConnectionHandler o) /\
  (forall conn o handler c m' drops' dns',
   routePacketConnection r ctxErr flag conn m now drops dns = (Ok (ToOutbound o handler c m'), drops', dns') ->
   proper_outbound NetworkUDP o /\ handler = ob_PacketConnectionHandler o).
Proof.
  split; intros conn o handler c m' drops' dns'.
  - unfold routeConnection. destruct (negb (bool_decide (md_InboundDetour m = ""))).
    { unfold detour. repeat case_match; by intros [=]. }
    destruct (multiplex_error _); [by intros [=]|].
    destruct (matchRule r ctxErr false _ _ _) as [[[[k rule]|]|err|msg] w] eqn:Em; try by intros [=].
    + apply matchRule_selected in Em as [Hl _].
      destruct (rl_Action rule) as [[tag opts|opts|d|a| |a|a]|] eqn:Ea; try by intros [=].
      * intros [= Ho _ _]. apply res_bind_ok in Ho as (o' & [Ht Hn]%select_outbound_ok & [= <- <- _ _]).
        split; [|done]. split; [done|]. right. eauto 10.
      * unfold reject. destruct (RuleActionReject_Error _ _ _) as [[ | | ] counter]; by intros [=].
    + unfold select_outbound. case_bool_decide; [|by intros [=]]. intros [= <- <- _ _ _ _].
      split; [|done]. split; [done|by left].
  - unfold routePacketConnection. destruct (negb (bool_decide (md_InboundDetour m = ""))).
    { unfold detour. repeat case_match; by intros [=]. }
    destruct (matchRule r ctxErr false _ _ _) as [[[[k rule]|]|err|msg] w] eqn:Em; try by intros [=].
    + apply matchRule_selected in Em as [Hl _].
      destruct (rl_Action rule) as [[tag opts|opts|d|a| |a|a]|] eqn:Ea; try by intros [=].
      * intros [= Ho _ _]. apply res_bind_ok in Ho as (o' & [Ht Hn]%select_outbound_ok & [= <- <- _ _]).
        split; [|done]. split; [done|]. right. eauto 10.
      * unfold reject. destruct (RuleActionReject_Error _ _ _) as [[ | | ] counter]; by intros [=].
    + unfold select_outbound. case_bool_decide; [|by intros [=]]. intros [= <- <- _ _ _ _].
      split; [|done]. split; [done|by left].
Qed.
End decisions.

(** *** Which rules act, and what they leave *)

Lemma match_frame_reset_eq m m' : match_frame m m' -> ResetRuleCache m = ResetRuleCache m'.
Proof.
  intros [[c ->]%same_request_inv Hi]. unfold ResetRuleCache, upd_cache. simpl in *. by rewrite Hi.
Qed.

(** An assignment that does not touch the cache. *)
Class CacheFree (f : InboundContext -> InboundContext) : Prop :=
  cache_free : forall c m, f (set_cache c m) = set_cache c (f m) /\ cache (f m) = cache m.

#[global] Instance if_given_cache_free {A} (v : option A) f : (forall a, CacheFree (f a)) -> CacheFree (if_given v f).
Proof. intros Hf c m. destruct v; [apply Hf|done]. Qed.

#[global] Instance when_cache_free b f : CacheFree f -> CacheFree (when b f).
Proof. intros Hf c m. destruct b; [apply Hf|done]. Qed.

Lemma match_frame_free f m m' : CacheFree f -> match_frame m m' -> match_frame (f m) (f m').
Proof.
  intros Hf [[c ->]%same_request_inv Hi]. split.
  - unfold same_request. by rewrite (proj1 (Hf c m)).
  - by rewrite (proj2 (Hf c m)), (proj2 (Hf c (set_cache c m))).
Qed.

Lemma free_compose f g : CacheFree f -> CacheFree g -> CacheFree (fun m => f (g m)).
Proof.
  intros Hf Hg c m. rewrite (proj1 (Hg c m)), (proj1 (Hf c (g m))). split; [done|].
  by rewrite (proj2 (Hf c (g m))), (proj2 (Hg c m)).
Qed.

Section spec.
Context `{External}.

Lemma keep_original_free : CacheFree keep_original.
Proof. intros c m. unfold keep_original, when. simpl. by destruct (negb _). Qed.

Lemma apply_route_options_free o : CacheFree (apply_route_options o).
Proof.
  unfold apply_route_options.
  do 6 (apply free_compose; [apply when_cache_free; by intros ??|]).
  do 3 (apply free_compose; [apply if_given_cache_free; by intros ???|]).
  do 2 (apply free_compose; [apply when_cache_free; by intros ??|]).
  apply when_cache_free, keep_original_free.
Qed.

(** The last value a list of options gives, or else [d]. *)
Definition last_given {A} (f : RuleActionRouteOptions -> option A) (os : list RuleActionRouteOptions) (d : A) : A :=
  fold_left (fun acc o => default acc (f o)) os d.

Definition given {A} (b : bool) (a : A) : option A := if b then Some a else None.

Definition apply_all (os : list RuleActionRouteOptions) (m : InboundContext) : InboundContext :=
  fold_left (fun m o => apply_route_options o m) os m.

(** A field that one list of options sets, a list of lists sets to the last
    value given. *)
Lemma apply_all_field {A} (g : InboundContext -> A) (f : RuleActionRouteOptions -> option A) os m :
  (forall o m, g (apply_route_options o m) = default (g m) (f o)) ->
  g (apply_all os m) = last_given f os (g m).
Proof.
  intros Hg. unfold apply_all, last_given. revert m.
  induction os as [|o os IH]; intros m; simpl; [done|]. by rewrite IH, Hg.
Qed.

Lemma when_same {A} (g : InboundContext -> A) b f m : (forall m, g (f m) = g m) -> g (when b f m) = g m.
Proof. intros Hg. by destruct b. Qed.
Lemma if_given_same {A B} (g : InboundContext -> A) (v : option B) f m :
  (forall a m, g (f a m) = g m) -> g (if_given v f m) = g m.
Proof. intros Hg. destruct v; [apply Hg|done]. Qed.
Lemma when_given {A} (g : InboundContext -> A) b f m a :
  (forall m, g (f m) = a) -> g (when b f m) = default (g m) (given b a).
Proof. intros Hg. by destruct b. Qed.
End spec.

(** Passes the options that do not touch the field [g]. *)
Ltac skip_options g :=
  repeat first
    [ rewrite (when_same g) by (intros; first [reflexivity|unfold keep_original; by rewrite (when_same g)])
    | rewrite (if_given_same g) by (intros; reflexivity) ].

Section fields.
Context `{External} (o : RuleActionRouteOptions) (m : InboundContext).

Definition destination_port (m : InboundContext) : Z := sa_Port (Destination m).

Lemma apply_UDPTimeout :
  UDPTimeout (apply_route_options o m) =
  default (UDPTimeout m) (given (0 <? act_UDPTimeout o) (act_UDPTimeout o)).
Proof.
  unfold apply_route_options. skip_options UDPTimeout.
  rewrite (when_given UDPTimeout _ _ _ (act_UDPTimeout o)) by done. by skip_options UDPTimeout.
Qed.
Lemma apply_UDPConnect :
  UDPConnect (apply_route_options o m) = default (UDPConnect m) (given (act_UDPConnect o) true).
Proof.
  unfold apply_route_options. skip_options UDPConnect.
  rewrite (when_given UDPConnect _ _ _ true) by done. by skip_options UDPConnect.
Qed.
Lemma apply_TLSFragment :
  TLSFragment (apply_route_options o m) = default (TLSFragment m) (given (act_TLSFragment o) true).
Proof.
  unfold apply_route_options. skip_options TLSFragment.
  rewrite (when_given TLSFragment _ _ _ true) by done. by skip_options TLSFragment.
Qed.
Lemma apply_NetworkStrategy :
  NetworkStrategy_ (apply_route_options o m) =
  default (NetworkStrategy_ m) (Some <$> act_NetworkStrategy o).
Proof.
  unfold apply_route_options. skip_options NetworkStrategy_.
  destruct (act_NetworkStrategy o); simpl; [done|]. by skip_options NetworkStrategy_.
Qed.
Lemma apply_port :
  destination_port (apply_route_options o m) =
  default (destination_port m) (given (0 <? OverridePort o) (OverridePort o)).
Proof.
  unfold apply_route_options. skip_options destination_port.
  rewrite (when_given destination_port _ _ _ (OverridePort o)) by done. by skip_options destination_port.
Qed.
End fields.

Section first_final.
Context {R D : Type} `{External, SniffLib, RouteLib, RouteRuleLaws R, DNSRouterOps D} (r : ConnRouter R).

Definition applies (rule : R) (m : InboundContext) : bool := (rl_Match rule (ResetRuleCache m)).1.

(** What a matching rule does to the request when it neither sniffs nor
    resolves. *)
Definition route_options_of (rule : R) : option RuleActionRouteOptions :=
  match rl_Action rule with Some (ActRoute _ o) | Some (ActRouteOptions o) => Some o | _ => None end.
Definition effect (rule : R) (m : InboundContext) : InboundContext :=
  match route_options_of rule with Some o => apply_route_options o m | None => m end.

Definition quiet (rule : R) : Prop :=
  match rl_Action rule with Some (ActSniff _) | Some (ActResolve _) | None => False | _ => True end.

(** The rules that match, each on the request the ones before it left. *)
Fixpoint matching (index : nat) (rules : list R) (m : InboundContext) : list (nat * R) :=
  match rules with
  | [] => []
  | rule :: rules =>
      if applies rule m then (index, rule) :: matching (S index) rules (effect rule m)
      else matching (S index) rules m
  end.

Definition final (p : nat * R) : bool := is_final (rl_Action p.2).

(** A list up to and with the first final rule. *)
Fixpoint until_final (l : list (nat * R)) : list (nat * R) :=
  match l with
  | [] => []
  | p :: l => if final p then [p] else p :: until_final l
  end.

Definition options_of (l : list (nat * R)) : list RuleActionRouteOptions :=
  omap (fun p => route_options_of p.2) l.

Lemma applies_frame rule m m' : match_frame m m' -> applies rule m = applies rule m'.
Proof. intros Hm. unfold applies. by rewrite (match_frame_reset_eq m m'). Qed.

Lemma effect_frame rule m m' : match_frame m m' -> match_frame (effect rule m) (effect rule m').
Proof.
  intros Hm. unfold effect. destruct (route_options_of rule); [|done].
  apply match_frame_free; [apply apply_route_options_free|done].
Qed.

Lemma matching_frame index rules m m' :
  match_frame m m' -> matching index rules m = matching index rules m'.
Proof.
  revert index m m'. induction rules as [|rule rules IH]; intros index m m' Hm; simpl; [done|].
  rewrite (applies_frame rule m m' Hm). case_match; [f_equal|]; apply IH; [by apply effect_frame|done].
Qed.

Lemma apply_all_frame os m m' : match_frame m m' -> match_frame (apply_all os m) (apply_all os m').
Proof.
  unfold apply_all. revert m m'. induction os as [|o os IH]; intros m m' Hm; simpl; [done|].
  apply IH, match_frame_free; [apply apply_route_options_free|done].
Qed.

Lemma match_rules_quiet ctxErr preMatch index rules (w : walk D) :
  Forall quiet rules ->
  let l := matching index rules (w_ctx w) in
  exists w', match_rules r ctxErr preMatch index rules w = (Ok (List.find final l), w') /\
    match_frame (apply_all (options_of (until_final l)) (w_ctx w)) (w_ctx w').
Proof.
  revert index w. induction rules as [|rule rules IH]; intros index w Hq; simpl; [by exists w|].
  apply Forall_cons in Hq as [Hr Hq]. unfold applies.
  pose proof (rl_Match_frame rule (ResetRuleCache (w_ctx w))) as Hf.
  assert (Hm : match_frame (w_ctx w) (rl_Match rule (ResetRuleCache (w_ctx w))).2).
  { etrans; [|exact Hf]. by apply match_frame_reset. }
  destruct (rl_Match rule _) as [matched m]. simpl in Hm. clear Hf.
  destruct matched; simpl.
  2: { destruct (IH (S index) (on_ctx (fun _ => m) w) Hq) as (w' & Hw & Hf). simpl in Hf, Hw.
       rewrite <- (matching_frame (S index) rules (w_ctx w) m Hm) in Hf, Hw.
       exists w'. split; [exact Hw|]. etrans; [|exact Hf]. by apply apply_all_frame. }
  assert (Hnext : forall f, (forall m m', match_frame m m' -> match_frame (f m) (f m')) ->
    effect rule (w_ctx w) = f (w_ctx w) -> is_final (rl_Action rule) = false ->
    apply_all (option_list (route_options_of rule)) (w_ctx w) = f (w_ctx w) ->
    exists w', match_rules r ctxErr preMatch (S index) rules (on_ctx f (on_ctx (fun _ => m) w)) =
        (Ok (if final (index, rule) then Some (index, rule)
             else List.find final (matching (S index) rules (effect rule (w_ctx w)))), w') /\
      match_frame (apply_all (options_of (if final (index, rule) then [(index, rule)]
        else (index, rule) :: until_final (matching (S index) rules (effect rule (w_ctx w))))) (w_ctx w)) (w_ctx w')).
  { intros f Hff He Hfin Ho. unfold final. simpl. rewrite Hfin, He.
    destruct (IH (S index) (on_ctx f (on_ctx (fun _ => m) w)) Hq) as (w' & Hw & Hf). simpl in Hf, Hw.
    rewrite <- (matching_frame (S index) rules (f (w_ctx w)) (f m) (Hff _ _ Hm)) in Hf, Hw.
    exists w'. split; [exact Hw|]. etrans; [|exact Hf].
    unfold options_of. simpl. unfold apply_all in *. destruct (route_options_of rule); simpl in *.
    - rewrite Ho. apply apply_all_frame. by apply Hff.
    - rewrite Ho. by apply apply_all_frame, Hff. }
  revert Hnext. unfold effect, route_options_of, quiet, final, options_of in *. simpl.
  destruct (rl_Action rule) as [[tag o|o|d|a| |a|a]|] eqn:Ea; simpl; intros Hnext; try done.
  - eexists. split; [done|]. simpl. unfold route_options_of. rewrite Ea. simpl.
    apply match_frame_free; [apply apply_route_options_free|done].
  - apply (Hnext (apply_route_options o)); [|done..].
    intros. apply match_frame_free; [apply apply_route_options_free|done].
  - by apply (Hnext (fun m => m)).
  - eexists. split; [done|]. simpl. unfold route_options_of. by rewrite Ea.
  - eexists. split; [done|]. simpl. unfold route_options_of. by rewrite Ea.
Qed.

Lemma existsb_given f os b :
  last_given (fun o => given (f o) true) os b = b || existsb f os.
Proof.
  unfold last_given. revert b. induction os as [|o os IH]; intros b; simpl; [by rewrite orb_false_r|].
  rewrite IH. by destruct (f o), b.
Qed.

(** C10 (the first final rule wins, options accumulate): on rules that neither
    sniff nor resolve, the walk selects the first rule with a final action
    among the rules that match, each of them matched against the request as
    the matching rules before it left it; the rules after it are not looked
    at.  The request it leaves is the given one with the options of the
    matching rules up to the selected one applied in their order: the last
    UDP timeout, network strategy and port given win, and UDP connect and TLS
    fragmentation, once set, stay. *)
Theorem route_first_final ctxErr preMatch rules (w : walk D) :
  Forall quiet rules ->
  let l := matching 0 rules (w_ctx w) in
  let os := options_of (until_final l) in
  exists w', match_rules r ctxErr preMatch 0 rules w = (Ok (List.find final l), w') /\
    same_request (apply_all os (w_ctx w)) (w_ctx w') /\
    UDPTimeout (w_ctx w') =
      last_given (fun o => given (0 <? act_UDPTimeout o) (act_UDPTimeout o)) os (UDPTimeout (w_ctx w)) /\
    NetworkStrategy_ (w_ctx w') =
      last_given (fun o => Some <$> act_NetworkStrategy o) os (NetworkStrategy_ (w_ctx w)) /\
    destination_port (w_ctx w') =
      last_given (fun o => given (0 <? OverridePort o) (OverridePort o)) os (destination_port (w_ctx w)) /\
    UDPConnect (w_ctx w') = UDPConnect (w_ctx w) || existsb act_UDPConnect os /\
    TLSFragment (w_ctx w') = TLSFragment (w_ctx w) || existsb act_TLSFragment os.
Proof.
  intros Hq l os. destruct (match_rules_quiet ctxErr preMatch 0 rules w Hq) as (w' & Hw & [Hr _]).
  exists w'. split; [exact Hw|]. split; [exact Hr|].
  assert (Hfield : forall A (g : InboundContext -> A), (forall c m, g (set_cache c m) = g m) ->
    g (w_ctx w') = g (apply_all os (w_ctx w))).
  { intros A g Hg. destruct (same_request_inv _ _ Hr) as [c Hc]. rewrite Hc. apply Hg. }
  rewrite <- !existsb_given.
  split_and!; (rewrite Hfield by done).
  - apply (apply_all_field UDPTimeout), apply_UDPTimeout.
  - apply (apply_all_field NetworkStrategy_), apply_NetworkStrategy.
  - apply (apply_all_field destination_port), apply_port.
  - apply (apply_all_field UDPConnect), apply_UDPConnect.
  - apply (apply_all_field TLSFragment), apply_TLSFragment.
Qed.
End first_final.

(** *** Fake addresses *)

Section fakeip.
Context {R D : Type} `{External, SniffLaws, RouteLib, RouteRuleLaws R, DNSRouterOps D} (r : ConnRouter R).

Lemma note_sniff_frame action err m : sniff_frame m (on_md (note_sniff action err) m).
Proof. done. Qed.

Lemma override_off action m : OverrideDestination action = false -> override_destination action m = m.
Proof. intros Ho. unfold override_destination. by rewrite Ho. Qed.

Lemma sniff_packet_frame action data m : sniff_frame m (sniff_packet action data m).2.
Proof.
  unfold sniff_packet, PeekPacket. set (sniffers := if quicMoreData _ _ then _ else _).
  pose proof (PeekPacket_frame sniffers data [] m) as Hp.
  destruct (PeekPacket_loop _ _ _ _) as [err m1]. simpl. etrans; [exact Hp|apply note_sniff_frame].
Qed.

Lemma sniff_end_off action err m : OverrideDestination action = false -> sniff_end action err m = m.
Proof. intros Ho. unfold sniff_end. destruct err; [done|by apply override_off]. Qed.

Lemma sniff_buffered_frame action packets m : sniff_frame m (sniff_buffered action packets m).2.
Proof.
  revert m. induction packets as [|p packets IH]; intros m; simpl; [done|].
  pose proof (sniff_packet_frame action (pkt_data p) m) as Hp.
  destruct (sniff_packet _ _ _) as [err m1]. destruct (is_need_more err); [|done].
  etrans; [exact Hp|apply IH].
Qed.

Lemma sniff_fresh_frame action conn packets m :
  OverrideDestination action = false -> sniff_frame m (sr_md (sniff_fresh action conn packets m)).
Proof.
  intros Ho. revert packets m. induction conn as [|[p|e|e] conn IH]; intros packets m; simpl; [done| |done..].
  pose proof (sniff_packet_frame action (pkt_data p) m) as Hp.
  destruct (sniff_packet _ _ _) as [err m1]. destruct (is_need_more err); simpl.
  - etrans; [exact Hp|apply IH].
  - by rewrite sniff_end_off.
Qed.

Lemma actionSniff_frame action i buffers packets m :
  OverrideDestination action = false -> sniff_frame m (sr_md (actionSniff action i buffers packets m)).
Proof.
  intros Ho. unfold actionSniff. destruct (Skip _); [done|]. destruct (negb _); [done|].
  destruct i as [|conn|conn]; [done| |].
  - unfold sniff_stream. destruct (_ && _); [done|]. destruct (failed_before _ _); [done|].
    unfold PeekStream. set (sniffers := or_default _ _).
    pose proof (PeekStream_frame 0 None buffers sniffers conn [] m) as Hp.
    cbn [sr_md]. destruct (pk_error _); rewrite ?override_off by done;
      (etrans; [exact Hp|apply note_sniff_frame]).
  - unfold sniff_packets. destruct (_ && _); [done|]. destruct (failed_before _ _); [done|].
    pose proof (sniff_buffered_frame action packets m) as Hb.
    destruct (sniff_buffered _ _ _) as [[err|] m1]; simpl.
    + by rewrite sniff_end_off.
    + etrans; [exact Hb|by apply sniff_fresh_frame].
Qed.

Lemma run_sniff_frame action (w : walk D) :
  OverrideDestination action = false -> sniff_frame (w_md w) (w_md (run_sniff action w).2).
Proof.
  intros Ho. with_strategy transparent [run_sniff] unfold run_sniff. by apply actionSniff_frame.
Qed.

Lemma actionResolve_frame action (w : walk D) : sniff_frame (w_md w) (w_md (actionResolve r action w).2).
Proof.
  with_strategy transparent [actionResolve] unfold actionResolve.
  destruct (negb _); [done|]. destruct (if decide _ then _ else _); [|done].
  destruct (dns_Lookup _ _ _ _ _) as [[addresses err] dns]. by destruct err.
Qed.

(** A rule that does not send connections elsewhere. *)
Definition keeps_target (rule : R) : Prop :=
  match rl_Action rule with
  | Some (ActRoute _ o) | Some (ActRouteOptions o) => overrides o = false
  | Some (ActSniff a) => OverrideDestination a = false
  | _ => True
  end.

Lemma apply_options_target o m : overrides o = false -> target (apply_route_options o m) = target m.
Proof.
  intros Ho. unfold apply_route_options. skip_options target. unfold overrides in Ho.
  apply orb_false_iff in Ho as [-> ->]. unfold when at 1 2. by skip_options target.
Qed.

Lemma target_same_request m m' : same_request m m' -> target m' = target m.
Proof. by intros [c ->]%same_request_inv. Qed.

Lemma match_rules_target ctxErr index rules (w : walk D) :
  Forall keeps_target rules ->
  target (w_ctx (match_rules r ctxErr false index rules w).2) = target (w_ctx w).
Proof.
  revert index w. induction rules as [|rule rules IH]; intros index w Hk; simpl; [done|].
  apply Forall_cons in Hk as [Hr Hk]. unfold keeps_target in Hr.
  pose proof (rl_Match_frame rule (ResetRuleCache (w_ctx w))) as [Hf _].
  destruct (rl_Match rule _) as [matched m]. simpl in Hf.
  assert (Ht : target m = target (w_ctx w)) by by apply target_same_request in Hf.
  clear Hf. set (w1 := on_ctx (fun _ => m) w).
  change (target m) with (target (w_ctx w1)) in Ht. rewrite <- Ht. clearbody w1. clear Ht m w.
  destruct matched; simpl; [|by apply IH].
  destruct (rl_Action rule) as [[tag o|o|d|a| |a|a]|] eqn:Ea; simpl; try done.
  - by apply apply_options_target.
  - etrans; [by apply IH|]. by apply apply_options_target.
  - by apply IH.
  - pose proof (run_sniff_frame a w1 Hr) as [Hs _]. destruct (run_sniff a w1) as [[err|] w2]; [done|].
    etrans; [by apply IH|done].
  - pose proof (actionResolve_frame a w1) as [Hs _]. destruct (actionResolve r a w1) as [[err|] w2]; simpl in *.
    + by destruct (falls_back _ _ _).
    + etrans; [by apply IH|done].
Qed.

Lemma inbound_options_target (w : walk D) :
  SniffOverrideDestination (md_InboundOptions (w_md w)) = false ->
  target (w_ctx (inbound_options r false w).2) = target (w_ctx w).
Proof.
  intros Ho. unfold inbound_options. destruct (decide _); [done|]. simpl.
  set (sniffed := if SniffEnabled _ then _ else _).
  assert (Hs : target (w_ctx sniffed.2) = target (w_ctx w)).
  { unfold sniffed. destruct (SniffEnabled _); [|done]. by apply run_sniff_frame. }
  destruct sniffed as [[err|] w1]; [done|]. simpl in Hs.
  set (resolved := if decide _ then _ else _).
  assert (Hr : target (w_ctx resolved.2) = target (w_ctx w1)).
  { unfold resolved. destruct (decide _); [done|]. apply actionResolve_frame. }
  destruct resolved as [[err|] w2]; simpl in *; [congruence|].
  rewrite (when_same target) by done. congruence.
Qed.

Lemma find_process_target m : target (find_process r m) = target m.
Proof.
  unfold find_process. destruct (cr_processSearcher r), (ProcessInfo_ m); try done. by case_match.
Qed.

Lemma find_version_target m : target (find_version m) = target m.
Proof. unfold find_version. by destruct (IsIPv4 _); [|destruct (IsIPv6 _)]. Qed.

(** The domain the fake-IP store knows for the destination of a request. *)
Definition fake_domain (m : InboundContext) (domain : string) : Prop :=
  domain <> "" /\
  exists store, in_fakeip r (sa_Addr (Destination m)) = Some store /\
    fk_Lookup store (sa_Addr (Destination m)) = Some domain.

Lemma find_domain_fake dns m m0 domain :
  Destination m0 = Destination m -> fake_domain m domain ->
  exists m', find_domain r dns m0 = Ok m' /\
    target m' = (domain_address domain (sa_Port (Destination m)), Destination m, true).
Proof.
  intros Hd (Hne & store & Hs & Hl). unfold find_domain. rewrite Hd, Hs, Hl, decide_False by done.
  eexists. split; [done|]. done.
Qed.

Lemma matchRule_fake ctxErr m i dns domain :
  Forall keeps_target (cr_rules r) -> SniffOverrideDestination (md_InboundOptions m) = false ->
  fake_domain (md m) domain ->
  target (w_ctx (matchRule r ctxErr false m i dns).2) =
  (domain_address domain (sa_Port (Destination (md m))), Destination (md m), true).
Proof.
  intros Hk Ho Hf. unfold matchRule.
  assert (Hd : Destination (find_process r (md m)) = Destination (md m)).
  { pose proof (find_process_target (md m)) as Ht. unfold target in Ht. congruence. }
  destruct (find_domain_fake dns (md m) (find_process r (md m)) domain Hd Hf) as (m' & Hm & Ht).
  simpl. rewrite Hm. set (w0 := Build_walk _ [] [] i dns).
  assert (H0' : target (w_ctx w0) = target m') by apply find_version_target.
  pose proof (inbound_options_target w0 Ho) as Hi.
  destruct (inbound_options r false w0) as [[err|] w1]; simpl in *; [congruence|].
  rewrite match_rules_target by done. congruence.
Qed.

(** When the destination of a connection
    is an address of the fake-IP store with a recorded domain, and neither the
    rules nor a sniff rewrite destinations, the outbound is asked for that
    domain at the same port; the fake address is kept as the origin, and a
    packet connection is wrapped so that replies come from it. *)
Theorem fakeip_destination_restored ctxErr flag m now drops dns domain :
  Forall keeps_target (cr_rules r) -> SniffOverrideDestination (md_InboundOptions m) = false ->
  fake_domain (md m) domain ->
  let fake := Destination (md m) in
  let real := domain_address domain (sa_Port fake) in
  (forall conn o handler c m' drops' dns',
   routeConnection r ctxErr flag conn m now drops dns = (Ok (ToOutbound o handler c m'), drops', dns') ->
   target (md m') = (real, fake, true)) /\
  (forall conn o handler c m' drops' dns',
   routePacketConnection r ctxErr flag conn m now drops dns = (Ok (ToOutbound o handler c m'), drops', dns') ->
   target (md m') = (real, fake, true) /\ exists c', c = NATPacketConn c' fake real).
Proof.
  intros Hk Ho Hf fake real.
  assert (Hm : forall network i,
    target (w_ctx (matchRule r ctxErr false (on_md (with_Network network) m) i dns).2) = (real, fake, true)).
  { intros network i. by apply (matchRule_fake ctxErr (on_md (with_Network network) m)). }
  split; intros conn o handler c m' drops' dns'.
  - unfold routeConnection. destruct (negb (bool_decide (md_InboundDetour m = ""))).
    { intros [= (tag & m1 & [=])%detour_ok _ _]. }
    destruct (multiplex_error _); [by intros [=]|]. specialize (Hm NetworkTCP (StreamInput conn)).
    destruct (matchRule r ctxErr false _ _ _) as [[[[k rule]|]|err|msg] w]; try by intros [=].
    + destruct (rl_Action rule) as [[tag opts|opts|d|a| |a|a]|]; try by intros [=].
      * intros [= Hr _ _]. by apply res_bind_ok in Hr as (o' & _ & [= <- <- <- <-]).
      * unfold reject. destruct (RuleActionReject_Error _ _ _) as [[ | | ] counter]; by intros [=].
    + intros [= Hr _ _]. by apply res_bind_ok in Hr as (o' & _ & [= <- <- <- <-]).
  - unfold routePacketConnection. destruct (negb (bool_decide (md_InboundDetour m = ""))).
    { intros [= (tag & m1 & [=])%detour_ok _ _]. }
    specialize (Hm NetworkUDP (PacketInput conn)).
    destruct (matchRule r ctxErr false _ _ _) as [selected w]. simpl in Hm.
    pose proof Hm as Hparts. unfold target in Hparts. injection Hparts as Hdst Horigin Hfake.
    rewrite Hdst, Horigin, Hfake.
    destruct selected as [[[k rule]|]|err|msg]; try by intros [=].
    + destruct (rl_Action rule) as [[tag opts|opts|d|a| |a|a]|]; try by intros [=].
      * intros [= Hr _ _]. apply res_bind_ok in Hr as (o' & _ & [= <- <- <- <-]). split; [done|by eexists].
      * unfold reject. destruct (RuleActionReject_Error _ _ _) as [[ | | ] counter]; by intros [=].
    + intros [= Hr _ _]. apply res_bind_ok in Hr as (o' & _ & [= <- <- <- <-]). split; [done|by eexists].
Qed.
End fakeip.

(** ** A concrete router, witnesses and examples *)

Definition concrete_route : RouteLib := {|
  IsIPv4 a := Addr_Is4 (sa_Addr a);
  error_Error e := match e with ErrNew msg => msg | _ => "error" end;
  mux_Destination_Fqdn := "sp.mux.sing-box.arpa";
  vmess_MuxDestination_Fqdn := "v1.mux.cool";
  uot_MagicAddress := "sp.v2.udp-over-tcp.arpa";
  uot_LegacyMagicAddress := "sp.udp-over-tcp.arpa"
|}.

(** A rule that matches everything. *)
Definition always_ops : RouteRuleOps (option RuleAction) := {|
  rl_Action a := a;
  rl_Match _ m := (true, m)
|}.

Lemma always_laws : @RouteRuleLaws _ always_ops.
Proof. by split. Qed.

Definition concrete_dns_router : DNSRouterOps unit := {|
  dns_Lookup _ _ _ _ s := ([Addr4 1], None, s);
  dns_LookupReverseMapping _ _ := None
|}.

Fixpoint read_conn (c : Conn) : list Z :=
  match c with
  | InputConn conn => sent conn
  | DeadlineConn c => read_conn c
  | CachedConn c buffer => buffer ++ read_conn c
  | TrackedConn _ c => read_conn c
  end.
Fixpoint read_packets (c : PacketConn) : list (list Z) :=
  match c with
  | InputPacketConn conn => map pkt_data (sent_packets conn)
  | CachedPacketConn c p => pkt_data p :: read_packets c
  | TrackedPacketConn _ c => read_packets c
  | NATPacketConn c _ _ => read_packets c
  end.

Definition concrete_reads : ConnReads := {| delivered := read_conn; datagrams := read_packets |}.
Lemma concrete_reads_laws : @ConnLaws concrete_reads.
Proof. by split. Qed.

(** Packets shorter than four bytes are a part of a QUIC client hello. *)
Definition fragmented_quic : SniffLib := {|
  http_ReadRequest := @http_ReadRequest concrete_sniff;
  tls_Handshake := @tls_Handshake concrete_sniff;
  dns_Unpack := @dns_Unpack concrete_sniff;
  ParseSocksaddr := @ParseSocksaddr concrete_sniff;
  IsDomainName := @IsDomainName concrete_sniff;
  QUICClientHello_sniff packet m :=
    (if (length packet <? 4)%nat then Some (need_more ErrUnexpectedEOF) else None,
     on_md (with_Protocol ProtocolQUIC) m)
|}.

Section examples.
#[local] Existing Instance concrete_external.
#[local] Existing Instance concrete_sniff.
#[local] Existing Instance concrete_sniff_laws.
#[local] Existing Instance concrete_route.
#[local] Existing Instance always_ops.
#[local] Existing Instance always_laws.
#[local] Existing Instance concrete_dns_router.
#[local] Existing Instance concrete_reads.
#[local] Existing Instance concrete_reads_laws.

Definition no_options : RuleActionRouteOptions :=
  Build_RuleActionRouteOptions SocksaddrZero 0 None None None 0 false false 0 false 0 false.
Definition to_proxy : option RuleAction := Some (ActRoute "proxy" no_options).
Definition sniff_action (names : list string) (ss : list StreamSniffer) (ps : list PacketSniffer)
    : option RuleAction := Some (ActSniff (Build_RuleActionSniff names ss ps 0 false)).
Definition reject_all : option RuleAction := Some (ActReject reject_default).

Definition proxy : AdapterOutbound := Build_AdapterOutbound "proxy" ["tcp"; "udp"] false false.
Definition freedom : AdapterOutbound := Build_AdapterOutbound "direct" ["tcp"; "udp"] false false.

Definition a_router (fakeip : option FakeIPStore) (rules : list (option RuleAction))
    : ConnRouter (option RuleAction) :=
  Build_ConnRouter _ rules None fakeip (fun _ => None) (fun _ => None)
    (fun tag => if decide (tag = "proxy") then Some proxy else None) freedom [7%nat].

Definition to_address (a : Addr) : Metadata :=
  on_md (with_Destination {| sa_Addr := a; sa_Port := 443; sa_Fqdn := "" |}) MetadataZero.
Definition a_request : Metadata := to_address (Addr4 16909060).

Definition one_sniff_router : ConnRouter (option RuleAction) := a_router None [sniff_action ["ssh"] [SSH] []; to_proxy].
Definition ssh_stream : list stream_event := [Reads (bytes_of "SSH-2.0") None; Reads (bytes_of "-x") None; Reads [33] None].

Lemma routed_stream_complete_witness :
  exists out, (routeConnection one_sniff_router None false ssh_stream a_request 0 ∅ tt).1.1 = Ok out /\
    delivered (routed_conn out) = bytes_of "SSH-2.0-x!".
Proof.
  destruct (routeConnection one_sniff_router None false ssh_stream a_request 0 ∅ tt) as [[res drops] dns] eqn:E.
  assert (Hc : (sniffs one_sniff_router a_request <= 1)%nat) by (vm_compute; lia).
  destruct res as [out|err|msg]; [|vm_compute in E; discriminate E|vm_compute in E; discriminate E].
  exists out. split; [reflexivity|].
  exact (routed_stream_complete one_sniff_router None false ssh_stream a_request 0 ∅ tt out drops dns Hc E).
Defined.

Definition a_packet (data : list Z) : packet_event := Packet {| pkt_data := data; pkt_destination := SocksaddrZero |}.
Definition packet_router : ConnRouter (option RuleAction) := a_router None [sniff_action ["stun"] [] [STUNMessage]; to_proxy].

Lemma routed_packets_complete_witness :
  exists sniffed rest, sniffed ++ rest = [[1]; [2]; [3]] /\
    match (routePacketConnection packet_router None false (map a_packet [[1]; [2]; [3]]) a_request 0 ∅ tt).1.1 with
    | Ok (ToOutbound _ _ c _) => datagrams c = rev sniffed ++ rest
    | _ => False
    end.
Proof.
  destruct (routePacketConnection packet_router None false (map a_packet [[1]; [2]; [3]]) a_request 0 ∅ tt)
    as [[res drops] dns] eqn:E.
  assert (Hc : (sniffs packet_router a_request <= 1)%nat) by (vm_compute; lia).
  destruct res as [out|err|msg]; [|vm_compute in E; discriminate E|vm_compute in E; discriminate E].
  destruct (routed_packets_complete packet_router None false _ a_request 0 ∅ tt out drops dns Hc E)
    as (sniffed & rest & Heq & Hd).
  exists sniffed, rest. split; [exact Heq|].
  destruct out as [tag c m|o h c m|c p m]; [vm_compute in E; discriminate E| |vm_compute in E; discriminate E].
  exact Hd.
Defined.

Definition rejecting_router : ConnRouter (option RuleAction) := a_router None [reject_all; to_proxy].

Lemma prematch_failure_final_witness :
  (PreMatch rejecting_router None (on_md (with_Network NetworkTCP) a_request) 5 ∅ tt).1.1 =
    Err (reject_error RejectRefused) /\
  (routeConnection rejecting_router None false ssh_stream a_request 5 ∅ tt).1.1 =
    Err (reject_error RejectRefused).
Proof.
  destruct (PreMatch rejecting_router None (on_md (with_Network NetworkTCP) a_request) 5 ∅ tt)
    as [[res drops] dns] eqn:E.
  destruct res as [u|err|msg]; [vm_compute in E; discriminate E| |vm_compute in E; discriminate E].
  destruct (prematch_failure_final rejecting_router None a_request 5 ∅ tt err drops dns eq_refl eq_refl) as [Hp _].
  rewrite (Hp E eq_refl false ssh_stream).
  assert (Herr : err = reject_error RejectRefused) by (vm_compute in E; injection E as <- _ _; reflexivity).
  rewrite Herr. split; reflexivity.
Defined.

Lemma routed_outbound_supports_network_witness :
  match (routeConnection one_sniff_router None false ssh_stream a_request 0 ∅ tt).1.1 with
  | Ok (ToOutbound o _ _ _) => proper_outbound one_sniff_router NetworkTCP o
  | _ => False
  end.
Proof.
  destruct (routeConnection one_sniff_router None false ssh_stream a_request 0 ∅ tt) as [[res drops] dns] eqn:E.
  destruct res as [[tag c m|o h c m|c p m]|err|msg]; try (vm_compute in E; discriminate E).
  exact (proj1 (proj1 (routed_outbound_supports_network one_sniff_router None false a_request 0 ∅ tt)
                 ssh_stream o h c m drops dns E)).
Defined.

Definition set_timeout (t : Z) : option RuleAction :=
  Some (ActRouteOptions (Build_RuleActionRouteOptions SocksaddrZero 0 None None None 0 false false t false 0 false)).

Lemma route_first_final_witness :
  exists w', match_rules (a_router None []) None false 0 [set_timeout 5; set_timeout 7; to_proxy; reject_all]
               (start_walk a_request NoInput tt) = (Ok (Some (2%nat, to_proxy)), w') /\
    UDPTimeout (w_ctx w') = 7.
Proof.
  assert (Hq : Forall quiet [set_timeout 5; set_timeout 7; to_proxy; reject_all]) by (repeat constructor).
  destruct (route_first_final (a_router None []) None false _ (start_walk a_request NoInput tt) Hq)
    as (w' & Hw & _ & Ht & _).
  exists w'. split; [exact Hw|]. rewrite Ht. reflexivity.
Defined.

Definition a_store : FakeIPStore :=
  {| fk_Contains a := bool_decide (a = Addr4 3323068417); fk_Lookup _ := Some "example.org" |}.
Definition fakeip_router : ConnRouter (option RuleAction) := a_router (Some a_store) [to_proxy].

Lemma fakeip_destination_restored_witness :
  match (routePacketConnection fakeip_router None false [] (to_address (Addr4 3323068417)) 0 ∅ tt).1.1 with
  | Ok (ToOutbound _ _ _ m) => Destination (md m) = domain_address "example.org" 443
  | _ => False
  end.
Proof.
  destruct (routePacketConnection fakeip_router None false [] (to_address (Addr4 3323068417)) 0 ∅ tt)
    as [[res drops] dns] eqn:E.
  destruct res as [[tag c m|o h c m|c p m]|err|msg]; try (vm_compute in E; discriminate E).
  assert (Hk : Forall keeps_target (cr_rules fakeip_router)) by (repeat constructor).
  assert (Hf : fake_domain fakeip_router (md (to_address (Addr4 3323068417))) "example.org").
  { split; [discriminate|]. exists a_store. split; reflexivity. }
  destruct (fakeip_destination_restored fakeip_router None false (to_address (Addr4 3323068417)) 0 ∅ tt
              "example.org" Hk eq_refl Hf) as [_ Hp].
  destruct (Hp [] o h c m drops dns E) as [Ht _]. unfold target in Ht. injection Ht as Ht _ _. exact Ht.
Defined.

(** *** Behaviours worth knowing *)

(** Two sniffs that both read put their buffers back in the wrong order: the
    outbound gets the later bytes first. *)
Example two_sniffs_swap_the_stream :
  match (routeConnection
           (a_router None [sniff_action ["tls"] [TLSClientHello] []; sniff_action ["rdp"] [RDP] []; to_proxy])
           None false [Reads [1; 2] None; Reads [3; 4] None; Reads [5] None] a_request 0 ∅ tt).1.1 with
  | Ok (ToOutbound _ _ c _) => delivered c = [3; 4; 1; 2; 5]
  | _ => False
  end.
Proof. vm_compute. reflexivity. Qed.

(** A second sniff does not look at what the first one buffered before it has
    read more: a client that waits for an answer is not recognised. *)
Example second_sniff_waits_for_data :
  match (routeConnection
           (a_router None [sniff_action ["tls"] [TLSClientHello] []; sniff_action ["ssh"] [SSH] []; to_proxy])
           None false [Reads (bytes_of "SSH-2.0-x") None] a_request 0 ∅ tt).1.1 with
  | Ok (ToOutbound _ _ _ m) =>
      Protocol (md m) = "" /\ SniffError (md m) = Some (ErrCause ErrEOF "read payload")
  | _ => False
  end.
Proof. vm_compute. split; reflexivity. Qed.

(** A [direct] action is final by its type, but the walk passes over it. *)
Example direct_action_passed_over :
  IsFinalAction (ActDirect "") = true /\
  match (routeConnection (a_router None [Some (ActDirect ""); to_proxy]) None false [] a_request 0 ∅ tt).1.1 with
  | Ok (ToOutbound o _ _ _) => o = proxy
  | _ => False
  end.
Proof. vm_compute. split; reflexivity. Qed.

(** An empty domain in the fake-IP store leaves the fake address in place. *)
Example empty_fake_domain :
  match (routeConnection
           (a_router (Some {| fk_Contains _ := true; fk_Lookup _ := Some "" |}) [to_proxy])
           None false [] a_request 0 ∅ tt).1.1 with
  | Ok (ToOutbound _ _ _ m) => Destination (md m) = Destination (md a_request) /\ FakeIP (md m) = false
  | _ => False
  end.
Proof. vm_compute. split; reflexivity. Qed.
End examples.

Section quic_example.
#[local] Existing Instance concrete_external.
#[local] Existing Instance fragmented_quic.
#[local] Existing Instance concrete_route.
#[local] Existing Instance always_ops.
#[local] Existing Instance concrete_dns_router.
#[local] Existing Instance concrete_reads.

(** The first packet of a fragmented QUIC client hello, buffered by a sniff for
    another protocol, is sent twice after the sniff that reads the second. *)
Example two_sniffs_duplicate_a_packet :
  match (routePacketConnection
           (a_router None [sniff_action ["stun"] [] [STUNMessage]; sniff_action ["quic"] [] [QUICClientHello]; to_proxy])
           None false (map a_packet [[1; 2; 3]; [4; 5; 6; 7]]) a_request 0 ∅ tt).1.1 with
  | Ok (ToOutbound _ _ c _) => datagrams c = [[4; 5; 6; 7]; [1; 2; 3]; [1; 2; 3]]
  | _ => False
  end.
Proof. vm_compute. reflexivity. Qed.
End quic_example.
