(* ===== verification/HealthCheck.v ===== *)
(** * common/urltest, common/interrupt, protocol/group/healthcheck.go

    What the outbound groups share: the history of delays, the group of
    connections to interrupt, the tag an outbound stands for, and the health
    checker with its check loop.  Outbounds are compared by identity.  The
    history is shared between groups and other outbounds are groups
    themselves, so an operation gets the [World] it runs in; a network test is
    an argument that answers per tag.  The tests of one check run concurrently:
    [schedule] is the order in which they finish. *)

From stdpp Require Import base list strings gmap.
From Stdlib Require Import ZArith Lia.
From S2P Require Import Prelude GoStd.

Open Scope Z_scope.
Open Scope box_scope.

(** [adapter.Outbound], as far as it stays the same: the identity of the object
    and its tag.  What [Network] and, for a group, [Now] answer changes. *)
Record Outbound : Type := { ob_id : nat; ob_tag : string }.

#[global] Instance Outbound_eq_dec : EqDecision Outbound.
Proof. solve_decision. Defined.

(** ** common/urltest: the history of delays *)

Record URLTestHistory : Type := { uh_Time : Z; uh_Delay : Z }.

(** The channel of [SetHook]: its capacity and how many sends wait in it. *)
Record Hook : Type := { hook_capacity : nat; hook_waiting : nat }.

Record HistoryStorage : Type := {
  delayHistory : gmap string URLTestHistory;
  updateHook : option Hook
}.

Definition NewHistoryStorage : HistoryStorage := {| delayHistory := ∅; updateHook := None |}.

Definition SetHook (hook : Hook) (s : HistoryStorage) : HistoryStorage :=
  {| delayHistory := delayHistory s; updateHook := Some hook |}.

(** The send of [notifyUpdated] never waits: it is dropped when the channel is full. *)
Definition notifyUpdated (s : HistoryStorage) : HistoryStorage :=
  {| delayHistory := delayHistory s;
     updateHook :=
       match updateHook s with
       | Some h =>
           Some (if (hook_waiting h <? hook_capacity h)%nat
                 then {| hook_capacity := hook_capacity h; hook_waiting := S (hook_waiting h) |}
                 else h)
       | None => None
       end |}.

Definition LoadURLTestHistory (tag : string) (s : option HistoryStorage) : option URLTestHistory :=
  match s with Some s => delayHistory s !! tag | None => None end.

Definition DeleteURLTestHistory (tag : string) (s : HistoryStorage) : HistoryStorage :=
  notifyUpdated {| delayHistory := delete tag (delayHistory s); updateHook := updateHook s |}.

Definition StoreURLTestHistory (tag : string) (history : URLTestHistory) (s : HistoryStorage) : HistoryStorage :=
  notifyUpdated {| delayHistory := <[tag := history]> (delayHistory s); updateHook := updateHook s |}.

Definition HistoryStorage_Close (s : HistoryStorage) : HistoryStorage :=
  {| delayHistory := delayHistory s; updateHook := None |}.

(** The delay [URLTest] reports: whole milliseconds as a [uint16]. *)
Definition test_delay (elapsed : Z) : Z := (elapsed `div` 1000000) mod 2 ^ 16.

(** What the outside of a group looks like at one moment: the shared history,
    what [Now] of an outbound answers when it is a group, and the networks of
    an outbound, which for a selector are those of its selection. *)
Record World : Type := {
  w_history : HistoryStorage;
  w_now : Outbound -> option string;
  w_network : Outbound -> list string
}.

(** [common.Contains(detour.Network(), network)] *)
Definition supports (network : string) (w : World) (o : Outbound) : bool :=
  bool_decide (network ∈ w_network w o).

Definition on_history (f : HistoryStorage -> HistoryStorage) (w : World) : World :=
  {| w_history := f (w_history w); w_now := w_now w; w_network := w_network w |}.

Definition load (w : World) (tag : string) : option URLTestHistory :=
  LoadURLTestHistory tag (Some (w_history w)).

(** [RealTag] of protocol/group/selector.go. *)
Definition RealTag (w : World) (detour : Outbound) : string :=
  match w_now w detour with
  | Some selectedTag => if bool_decide (selectedTag = "") then ob_tag detour else selectedTag
  | None => ob_tag detour
  end.

(** [history.LoadURLTestHistory(RealTag(detour)) != nil] *)
Definition available (w : World) (detour : Outbound) : bool :=
  match load w (RealTag w detour) with Some _ => true | None => false end.

Lemma load_delete w tag tag' :
  load (on_history (DeleteURLTestHistory tag) w) tag' = if decide (tag = tag') then None else load w tag'.
Proof.
  unfold load. simpl. destruct (decide (tag = tag')) as [->|Hne];
    [apply lookup_delete_eq|by apply lookup_delete_ne].
Qed.

Lemma load_store w tag h tag' :
  load (on_history (StoreURLTestHistory tag h) w) tag' = if decide (tag = tag') then Some h else load w tag'.
Proof.
  unfold load. simpl. destruct (decide (tag = tag')) as [->|Hne];
    [apply lookup_insert_eq|by apply lookup_insert_ne].
Qed.

Lemma RealTag_on_history f w d : RealTag (on_history f w) d = RealTag w d.
Proof. done. Qed.

(** ** common/interrupt: connections a change of selection closes *)

Record groupConnItem : Type := { gc_conn : nat; gc_external : bool }.

(** The list of elements with their identities, the connections closed so far,
    and the next identity. *)
Record InterruptGroup : Type := {
  ig_connections : list (nat * groupConnItem);
  ig_closed : list nat;
  ig_next : nat
}.

Definition NewGroup : InterruptGroup := {| ig_connections := []; ig_closed := []; ig_next := 0 |}.

(** [NewConn] and [NewPacketConn]: the element of the new wrapper is its result. *)
Definition NewConn (conn : nat) (isExternal : bool) (g : InterruptGroup) : nat * InterruptGroup :=
  (ig_next g,
   {| ig_connections := ig_connections g ++ [(ig_next g, {| gc_conn := conn; gc_external := isExternal |})];
      ig_closed := ig_closed g; ig_next := S (ig_next g) |}).

(** [Conn.Close] and [PacketConn.Close]: removing an element twice does nothing. *)
Definition Conn_Close (conn element : nat) (g : InterruptGroup) : InterruptGroup :=
  {| ig_connections := filter (fun e => e.1 <> element) (ig_connections g);
     ig_closed := ig_closed g ++ [conn]; ig_next := ig_next g |}.

Definition to_interrupt (interruptExternalConnections : bool) (e : nat * groupConnItem) : Prop :=
  gc_external e.2 = false \/ interruptExternalConnections = true.

#[global] Instance to_interrupt_dec b e : Decision (to_interrupt b e).
Proof. unfold to_interrupt. solve_decision. Defined.

Definition Interrupt (interruptExternalConnections : bool) (g : InterruptGroup) : InterruptGroup :=
  {| ig_connections := filter (fun e => ~ to_interrupt interruptExternalConnections e) (ig_connections g);
     ig_closed := ig_closed g ++
       map (fun e => gc_conn e.2) (filter (to_interrupt interruptExternalConnections) (ig_connections g));
     ig_next := ig_next g |}.

(** ** protocol/group/healthcheck.go *)

Definition second : Z := 1000000000.
Definition minute : Z := 60 * second.
Definition DefaultURLTestInterval : Z := 3 * minute.
Definition DefaultURLTestIdleTimeout : Z := 30 * minute.
Definition TCPTimeout : Z := 15 * second.

(** Where a goroutine of [loopCheck] is: before its first check, at its
    [select], or past the test of the idle timeout, waiting for the lock. *)
Inductive loop_pc : Type := AtEntry | AtSelect | AtExpired.

(** [hc_ticker]: the ticker is not nil; [hc_closed]: the channel [close] is
    closed; [hc_loops]: the goroutines of [loopCheck] that run. *)
Record healthChecker : Type := {
  hc_outbounds : list Outbound;
  hc_link : string;
  hc_interval : Z;
  hc_idleTimeout : Z;
  hc_timeout : Z;
  hc_checking : bool;
  hc_started : bool;
  hc_lastActive : Z;
  hc_ticker : bool;
  hc_closed : bool;
  hc_loops : list loop_pc
}.

Definition or_duration (d default_value : Z) : Z := if d =? 0 then default_value else d.

Definition interval_too_long : error := ErrNew "interval must be less or equal than idle_timeout".

Definition newHealthChecker (historyFromCtx clashServer : option HistoryStorage) (outbounds : list Outbound)
    (link : string) (interval idleTimeout timeout : Z) : res (healthChecker * HistoryStorage) :=
  let interval := or_duration interval DefaultURLTestInterval in
  let idleTimeout := or_duration idleTimeout DefaultURLTestIdleTimeout in
  let timeout := or_duration timeout TCPTimeout in
  if idleTimeout <? interval then Err interval_too_long
  else
    let history := match historyFromCtx, clashServer with
                   | Some h, _ => h
                   | None, Some h => h
                   | None, None => NewHistoryStorage
                   end in
    Ok ({| hc_outbounds := outbounds; hc_link := link; hc_interval := interval;
           hc_idleTimeout := idleTimeout; hc_timeout := timeout; hc_checking := false;
           hc_started := false; hc_lastActive := 0; hc_ticker := false; hc_closed := false;
           hc_loops := [] |}, history).

(** The fields that the life cycle changes. *)
Definition hc_set (started : bool) (lastActive : Z) (ticker closed : bool) (loops : list loop_pc)
    (h : healthChecker) : healthChecker :=
  {| hc_outbounds := hc_outbounds h; hc_link := hc_link h; hc_interval := hc_interval h;
     hc_idleTimeout := hc_idleTimeout h; hc_timeout := hc_timeout h; hc_checking := hc_checking h;
     hc_started := started; hc_lastActive := lastActive; hc_ticker := ticker; hc_closed := closed;
     hc_loops := loops |}.

(** An operation may begin a check: the boolean of its result. *)
Definition hc_result : Type := res (healthChecker * bool).

Definition PostStart (now : Z) (h : healthChecker) : hc_result :=
  Ok (hc_set true now (hc_ticker h) (hc_closed h) (hc_loops h) h, true).

Definition Touch (now : Z) (h : healthChecker) : hc_result :=
  if negb (hc_started h) then Ok (h, false)
  else if hc_ticker h then
    Ok (hc_set (hc_started h) now (hc_ticker h) (hc_closed h) (hc_loops h) h, false)
  else
    Ok (hc_set (hc_started h) (hc_lastActive h) true (hc_closed h) (hc_loops h ++ [AtEntry]) h, false).

Definition close_of_closed : string := "close of closed channel".
Definition nil_pointer : string := "invalid memory address or nil pointer dereference".

Definition Close (h : healthChecker) : hc_result :=
  if negb (hc_ticker h) then Ok (h, false)
  else if hc_closed h then Panic close_of_closed
  else Ok (hc_set (hc_started h) (hc_lastActive h) (hc_ticker h) true (hc_loops h) h, false).

(** The steps of the [i]-th goroutine of [loopCheck].  [None]: it is not there. *)
Definition loop_goto (pc : loop_pc) (i : nat) (h : healthChecker) : list loop_pc := <[i := pc]> (hc_loops h).
Definition loop_return (i : nat) (h : healthChecker) : list loop_pc := delete i (hc_loops h).

Definition loop_enter (now : Z) (i : nat) (h : healthChecker) : option hc_result :=
  match hc_loops h !! i with
  | Some AtEntry =>
      let overdue := hc_interval h <? now - hc_lastActive h in
      Some (Ok (hc_set (hc_started h) (if overdue then now else hc_lastActive h) (hc_ticker h)
                  (hc_closed h) (loop_goto AtSelect i h) h, overdue))
  | _ => None
  end.

(** [case <-h.close] *)
Definition loop_closed (i : nat) (h : healthChecker) : option hc_result :=
  match hc_loops h !! i with
  | Some AtSelect =>
      if hc_closed h then
        Some (Ok (hc_set (hc_started h) (hc_lastActive h) (hc_ticker h) (hc_closed h) (loop_return i h) h, false))
      else None
  | _ => None
  end.

(** [case <-h.ticker.C]: evaluating [h.ticker.C] needs a ticker. *)
Definition loop_tick (now : Z) (i : nat) (h : healthChecker) : option hc_result :=
  match hc_loops h !! i with
  | Some AtSelect =>
      Some (if negb (hc_ticker h) then Panic nil_pointer
            else if hc_idleTimeout h <? now - hc_lastActive h then
              Ok (hc_set (hc_started h) (hc_lastActive h) (hc_ticker h) (hc_closed h)
                    (loop_goto AtExpired i h) h, false)
            else Ok (h, true))
  | _ => None
  end.

(** The idle branch once it holds the lock: [h.ticker.Stop(); h.ticker = nil; ...; return]. *)
Definition loop_stop (i : nat) (h : healthChecker) : option hc_result :=
  match hc_loops h !! i with
  | Some AtExpired =>
      Some (if negb (hc_ticker h) then Panic nil_pointer
            else Ok (hc_set (hc_started h) (hc_lastActive h) false (hc_closed h) (loop_return i h) h, false))
  | _ => None
  end.

Inductive hc_event : Type :=
  | EvPostStart (now : Z)
  | EvTouch (now : Z)
  | EvClose
  | EvEnter (now : Z) (i : nat)
  | EvClosed (i : nat)
  | EvTick (now : Z) (i : nat)
  | EvStop (i : nat).

Definition hc_step (e : hc_event) (h : healthChecker) : option hc_result :=
  match e with
  | EvPostStart now => Some (PostStart now h)
  | EvTouch now => Some (Touch now h)
  | EvClose => Some (Close h)
  | EvEnter now i => loop_enter now i h
  | EvClosed i => loop_closed i h
  | EvTick now i => loop_tick now i h
  | EvStop i => loop_stop i h
  end.

(** A run of the checker under any interleaving; events whose goroutine is not
    there are passed over.  The result counts the checks begun. *)
Fixpoint hc_run (events : list hc_event) (h : healthChecker) : res (healthChecker * nat) :=
  match events with
  | [] => Ok (h, 0%nat)
  | e :: events =>
      match hc_step e h with
      | None => hc_run events h
      | Some r =>
          let* ' (h, check) := r in
          let* ' (h, n) := hc_run events h in
          Ok (h, if check then S n else n)
      end
  end.

(** ** [urlTest]: one check of all outbounds *)

(** [history != nil && time.Since(history.Time) < h.interval] *)
Definition recently_tested (now interval : Z) (w : World) (realTag : string) : bool :=
  match load w realTag with
  | Some history => now - uh_Time history <? interval
  | None => false
  end.

(** The loop over the outbounds: the tests it begins, as the tag of the detour
    and the tag tested.  [skip_empty] is the guard the health checker has and
    [URLTestGroup] has not; [loaded] is [h.outbound.Outbound]. *)
Fixpoint begin_tests (skip_empty force : bool) (now interval : Z) (loaded : string -> bool) (w : World)
    (outbounds : list Outbound) (checked : gset string) : list (string * string) :=
  match outbounds with
  | [] => []
  | detour :: outbounds =>
      let realTag := RealTag w detour in
      if skip_empty && bool_decide (realTag = "") || bool_decide (realTag ∈ checked) then
        begin_tests skip_empty force now interval loaded w outbounds checked
      else if negb force && recently_tested now interval w realTag then
        begin_tests skip_empty force now interval loaded w outbounds checked
      else
        let rest := begin_tests skip_empty force now interval loaded w outbounds ({[realTag]} ∪ checked) in
        if loaded realTag then (ob_tag detour, realTag) :: rest else rest
  end.

(** The end of one test: its delay or error, and when it ended. *)
Definition finish_test (test : string -> res Z) (ends : string -> Z) (job : string * string)
    (s : gmap string Z * World) : gmap string Z * World :=
  match test job.2 with
  | Ok t => (<[job.1 := t]> s.1,
             on_history (StoreURLTestHistory job.2 {| uh_Time := ends job.2; uh_Delay := t |}) s.2)
  | _ => (s.1, on_history (DeleteURLTestHistory job.2) s.2)
  end.

Definition finish_tests (test : string -> res Z) (ends : string -> Z) (jobs : list (string * string))
    (s : gmap string Z * World) : gmap string Z * World :=
  fold_left (fun s job => finish_test test ends job s) jobs s.

(** A check that finds another one running does nothing. *)
Definition url_tests (skip_empty checking force : bool) (now interval : Z) (loaded : string -> bool)
    (schedule : list (string * string) -> list (string * string)) (test : string -> res Z)
    (ends : string -> Z) (outbounds : list Outbound) (w : World) : gmap string Z * World :=
  if checking then (∅, w)
  else finish_tests test ends
         (schedule (begin_tests skip_empty force now interval loaded w outbounds ∅)) (∅, w).

(** [healthChecker.urlTest] up to [h.onUpdate]. *)
Definition healthChecker_urlTest (force : bool) (now : Z) (loaded : string -> bool)
    (schedule : list (string * string) -> list (string * string)) (test : string -> res Z)
    (ends : string -> Z) (h : healthChecker) (w : World) : gmap string Z * World :=
  url_tests true (hc_checking h) force now (hc_interval h) loaded schedule test ends (hc_outbounds h) w.

(** ** Lemmas *)

(** What a check tests. *)
Definition wanted (skip_empty force : bool) (now interval : Z) (loaded : string -> bool) (w : World)
    (outbounds : list Outbound) (realTag : string) : bool :=
  existsb (fun d => bool_decide (RealTag w d = realTag)) outbounds
  && negb (skip_empty && bool_decide (realTag = ""))
  && (force || negb (recently_tested now interval w realTag)) && loaded realTag.

Definition test_outcome (test : string -> res Z) (ends : string -> Z) (realTag : string) : option URLTestHistory :=
  match test realTag with Ok t => Some {| uh_Time := ends realTag; uh_Delay := t |} | _ => None end.

Section check.
Context (skip_empty force : bool) (now interval : Z) (loaded : string -> bool) (w : World).

Lemma begin_tests_spec outbounds checked tag realTag :
  (tag, realTag) ∈ begin_tests skip_empty force now interval loaded w outbounds checked ->
  realTag ∉ checked /\ wanted skip_empty force now interval loaded w outbounds realTag = true /\
  exists d, d ∈ outbounds /\ ob_tag d = tag /\ RealTag w d = realTag.
Proof.
  revert checked; induction outbounds as [|d l IH]; intros checked; simpl; [set_solver|].
  assert (Hmono : forall rt, wanted skip_empty force now interval loaded w l rt = true ->
            wanted skip_empty force now interval loaded w (d :: l) rt = true).
  { intros rt. unfold wanted. simpl. destruct (bool_decide (RealTag w d = rt)); [|done].
    destruct (existsb _ l); [done|discriminate]. }
  assert (Hlater : forall c, (tag, realTag) ∈ begin_tests skip_empty force now interval loaded w l c ->
            realTag ∉ c /\ wanted skip_empty force now interval loaded w (d :: l) realTag = true /\
            exists d', d' ∈ d :: l /\ ob_tag d' = tag /\ RealTag w d' = realTag).
  { intros c Hin. destruct (IH c Hin) as (? & ? & d' & ? & ?).
    split_and!; [done|by apply Hmono|exists d'; set_solver]. }
  destruct (skip_empty && bool_decide (RealTag w d = "") || bool_decide (RealTag w d ∈ checked)) eqn:Eskip; [apply Hlater|].
  destruct (negb force && recently_tested now interval w (RealTag w d)) eqn:Efresh; [apply Hlater|].
  apply orb_false_elim in Eskip as [Hempty Hck%bool_decide_eq_false].
  destruct (loaded (RealTag w d)) eqn:El; [rewrite elem_of_cons; intros [[= -> ->]|Hin]|intros Hin].
  2,3: destruct (Hlater _ Hin) as (? & ? & ?); split_and!; [set_solver|done|done].
  split_and!; [done| |exists d; set_solver].
  unfold wanted. simpl. rewrite bool_decide_true, Hempty, El by done. simpl.
  destruct force, (recently_tested _ _ _ _); done.
Qed.

Lemma begin_tests_complete outbounds checked realTag :
  realTag ∉ checked -> wanted skip_empty force now interval loaded w outbounds realTag = true ->
  realTag ∈ (begin_tests skip_empty force now interval loaded w outbounds checked).*2.
Proof.
  intros Hck. unfold wanted. rewrite !andb_true_iff, negb_true_iff. intros [[[Hd Hempty] Hforce] Hl].
  revert checked Hck Hd; induction outbounds as [|d l IH]; intros checked Hck; simpl; [done|].
  rewrite orb_true_iff, bool_decide_eq_true. intros Hd.
  destruct (decide (RealTag w d = realTag)) as [Heq|Hne].
  - rewrite Heq, Hempty, bool_decide_false by done. simpl.
    assert (negb force && recently_tested now interval w realTag = false) as ->
      by (destruct force, (recently_tested _ _ _ _); done).
    rewrite Hl. set_solver.
  - destruct Hd as [?|Hd]; [done|].
    case_goal; [by apply IH|]. case_goal; [by apply IH|].
    case_goal; simpl; [apply list_elem_of_further|]; apply IH; set_solver.
Qed.

Lemma begin_tests_nodup outbounds checked :
  NoDup (begin_tests skip_empty force now interval loaded w outbounds checked).*2.
Proof.
  revert checked; induction outbounds as [|d l IH]; intros checked; simpl; [constructor|].
  case_goal; [done|]. case_goal; [done|].
  case_goal; [|done]. simpl. constructor; [|done].
  intros [[tag rt] [-> Hin]]%list_elem_of_fmap.
  destruct (begin_tests_spec _ _ _ _ Hin) as [Hck _]. set_solver.
Qed.
End check.

Lemma finish_tests_history test ends jobs s tag :
  load (finish_tests test ends jobs s).2 tag =
  if bool_decide (tag ∈ jobs.*2) then test_outcome test ends tag else load s.2 tag.
Proof.
  revert s; induction jobs as [|[a rt] jobs IH]; intros s; simpl; [done|].
  unfold finish_tests in *. simpl. rewrite IH. clear IH.
  destruct (decide (tag ∈ jobs.*2)) as [Hin|Hout].
  { rewrite !bool_decide_true; [done|set_solver|done]. }
  rewrite (bool_decide_false (tag ∈ jobs.*2)) by done.
  unfold finish_test, test_outcome. simpl. destruct (decide (rt = tag)) as [->|Hne].
  - rewrite bool_decide_true by set_solver. destruct (test tag); simpl;
      rewrite ?load_store, ?load_delete; by rewrite decide_True.
  - rewrite bool_decide_false by set_solver. destruct (test rt); simpl;
      rewrite ?load_store, ?load_delete; by rewrite decide_False.
Qed.

Lemma finish_tests_now test ends jobs s : w_now (finish_tests test ends jobs s).2 = w_now s.2.
Proof.
  revert s; induction jobs as [|job jobs IH]; intros s; [done|].
  unfold finish_tests in *. simpl. rewrite IH. unfold finish_test. by destruct (test _).
Qed.

(** When no two jobs share the tag of their detour with different tests. *)
Lemma finish_tests_result test ends jobs s tag t :
  (forall a rt rt', (a, rt) ∈ jobs -> (a, rt') ∈ jobs -> rt = rt') ->
  (finish_tests test ends jobs s).1 !! tag = Some t <->
  (exists rt, (tag, rt) ∈ jobs /\ test rt = Ok t) \/
  ((forall rt t', (tag, rt) ∈ jobs -> test rt <> Ok t') /\ s.1 !! tag = Some t).
Proof.
  revert s; induction jobs as [|[a rt] jobs IH]; intros s Hfun; [set_solver|].
  unfold finish_tests in *. simpl. rewrite IH by (intros; eapply Hfun; by apply list_elem_of_further). clear IH.
  unfold finish_test. simpl.
  setoid_rewrite elem_of_cons. destruct (test rt) as [u| |] eqn:Et; simpl; [|clear - Et; naive_solver congruence..].
  destruct (decide (a = tag)) as [->|Hne]; [|rewrite lookup_insert_ne by done; naive_solver].
  assert (Hrt : forall rt', (tag, rt') ∈ jobs -> rt' = rt) by (intros; apply (Hfun tag); [by apply list_elem_of_further|apply list_elem_of_here]).
  rewrite lookup_insert_eq. split.
  - intros [(rt' & ? & ?)|[_ [= ->]]]; left; [exists rt'|exists rt]; auto.
  - intros [(rt' & Hin & Hok)|[Hno _]]; [|by destruct (Hno rt u (or_introl eq_refl))].
    assert (rt' = rt) as -> by (destruct Hin as [[= ->]|]; [done|by apply Hrt]).
    destruct (decide ((tag, rt) ∈ jobs)); [left; eauto|]. right. split; [|congruence].
    intros rt' t' Hin'. by rewrite (Hrt rt' Hin') in Hin'.
Qed.

(** The checks of one group. *)
Lemma url_tests_result skip_empty force now interval loaded schedule test ends outbounds w tag t :
  (forall jobs, schedule jobs ≡ₚ jobs) ->
  (forall d d', d ∈ outbounds -> d' ∈ outbounds -> ob_tag d = ob_tag d' -> d = d') ->
  (url_tests skip_empty false force now interval loaded schedule test ends outbounds w).1 !! tag = Some t <->
  exists rt, (tag, rt) ∈ begin_tests skip_empty force now interval loaded w outbounds ∅ /\ test rt = Ok t.
Proof.
  intros Hs Hinj. unfold url_tests. rewrite finish_tests_result.
  - setoid_rewrite (Hs _). simpl. rewrite lookup_empty. naive_solver.
  - setoid_rewrite (Hs _). intros a rt rt' H1 H2.
    apply begin_tests_spec in H1 as (_ & _ & d1 & ? & ? & <-).
    apply begin_tests_spec in H2 as (_ & _ & d2 & ? & ? & <-).
    f_equal. apply Hinj; congruence.
Qed.

Lemma url_tests_history skip_empty force now interval loaded schedule test ends outbounds w tag :
  (forall jobs, schedule jobs ≡ₚ jobs) ->
  load (url_tests skip_empty false force now interval loaded schedule test ends outbounds w).2 tag =
  if wanted skip_empty force now interval loaded w outbounds tag then test_outcome test ends tag else load w tag.
Proof.
  intros Hs. unfold url_tests. rewrite finish_tests_history. simpl.
  rewrite (bool_decide_ext _ (tag ∈ (begin_tests skip_empty force now interval loaded w outbounds ∅).*2))
    by (by rewrite (Hs _)).
  destruct (wanted _ _ _ _ _ _ _ _) eqn:Ew.
  - rewrite bool_decide_true; [done|]. by apply begin_tests_complete.
  - rewrite bool_decide_false; [done|]. intros [[a rt] [-> Hin]]%list_elem_of_fmap.
    apply begin_tests_spec in Hin as (_ & Hw & _). simpl in Ew. congruence.
Qed.

(** ** The check loop *)

(** At most one loop runs; without a ticker there is none; with one there is,
    until the checker is closed. *)
Definition loops_ok (h : healthChecker) : Prop :=
  (length (hc_loops h) <= 1)%nat /\
  (hc_ticker h = false -> hc_loops h = []) /\
  (hc_ticker h = true -> hc_closed h = false -> hc_loops h <> []).

Definition closes (e : hc_event) : bool := match e with EvClose => true | _ => false end.

Lemma one_loop {A} (l : list A) i x : (length l <= 1)%nat -> l !! i = Some x -> l = [x] /\ i = 0%nat.
Proof.
  intros Hl Hx. pose proof (lookup_lt_Some _ _ _ Hx).
  destruct l as [|y [|z l]]; simpl in *; [lia| |lia].
  assert (i = 0%nat) as -> by lia. by injection Hx as ->.
Qed.

(** No step panics but a second close, and each keeps the invariant. *)
Ltac end_step := do 2 eexists; split; [reflexivity|]; simpl; split_and!; try done; try lia; auto; try congruence.

Lemma hc_step_ok e h r :
  loops_ok h -> (closes e = true -> hc_closed h = false) -> hc_step e h = Some r ->
  exists h' check, r = Ok (h', check) /\ loops_ok h' /\
    (hc_closed h' = true -> hc_closed h = true \/ closes e = true) /\
    hc_idleTimeout h' = hc_idleTimeout h /\ hc_interval h' = hc_interval h.
Proof.
  intros (Hlen & Hno & Hyes) Hclose. unfold loops_ok.
  destruct e as [now|now| |now i|i|now i|i]; simpl.
  - intros [= <-]. unfold PostStart. end_step.
  - intros [= <-]. unfold Touch. destruct (hc_started h); simpl; [|end_step].
    destruct (hc_ticker h) eqn:Et; [end_step|]. rewrite Hno by done. end_step.
  - intros [= <-]. unfold Close. destruct (hc_ticker h) eqn:Et; simpl; [|end_step].
    rewrite Hclose by done. end_step.
  - unfold loop_enter. destruct (hc_loops h !! i) as [[]|] eqn:Ei; intros [= <-].
    apply one_loop in Ei as [El ->]; [|done]. unfold loop_goto. rewrite El in *. end_step.
    by intros ?%Hno.
  - unfold loop_closed. destruct (hc_loops h !! i) as [[]|] eqn:Ei; try done.
    destruct (hc_closed h) eqn:Ec; intros [= <-].
    apply one_loop in Ei as [El ->]; [|done]. unfold loop_return. rewrite El in *. end_step.
  - unfold loop_tick. destruct (hc_loops h !! i) as [[]|] eqn:Ei; intros [= <-].
    apply one_loop in Ei as [El ->]; [|done].
    destruct (hc_ticker h) eqn:Et; simpl; [|by rewrite Hno in El].
    case_goal; [unfold loop_goto; rewrite El|]; end_step.
  - unfold loop_stop. destruct (hc_loops h !! i) as [[]|] eqn:Ei; intros [= <-].
    apply one_loop in Ei as [El ->]; [|done].
    destruct (hc_ticker h) eqn:Et; simpl; [|by rewrite Hno in El].
    unfold loop_return. rewrite El. end_step.
Qed.

Lemma hc_run_ok events h :
  loops_ok h -> (length (filter (fun e => closes e = true) events) + (if hc_closed h then 1 else 0) <= 1)%nat ->
  exists h' n, hc_run events h = Ok (h', n) /\ loops_ok h' /\
    (hc_closed h' = true -> hc_closed h = true \/ exists e, e ∈ events /\ closes e = true) /\
    hc_idleTimeout h' = hc_idleTimeout h /\ hc_interval h' = hc_interval h.
Proof.
  revert h; induction events as [|e events IH]; intros h Hok Hone; [exists h, 0%nat; naive_solver|].
  simpl. destruct (hc_step e h) as [r|] eqn:Es.
  - destruct (hc_step_ok e h r) as (h1 & check & -> & Hok1 & Hc & Hid & Hin); [done| |done|].
    { intros Hcl. rewrite filter_cons_True in Hone by done. simpl in Hone. destruct (hc_closed h); [lia|done]. }
    simpl. destruct (IH h1) as (h2 & n & Hrun & Hok2 & Hc2 & Hid2 & Hin2); [done| |].
    { rewrite filter_cons in Hone. destruct (hc_closed h1); [|destruct (hc_closed h); case_decide; simpl in *; lia].
      destruct Hc as [Hc|Hc]; [done|rewrite Hc in *; case_decide; simpl in *; lia|].
      rewrite decide_True in Hone by done. simpl in *. destruct (hc_closed h); lia. }
    rewrite Hrun. simpl. do 2 eexists. split; [done|]. split_and!; [done| |congruence..].
    intros Hc'. destruct (Hc2 Hc') as [Hh1|(e' & ? & ?)]; [|right; exists e'; set_solver].
    destruct (Hc Hh1); [by left|right; exists e; set_solver].
  - destruct (IH h) as (h2 & n & ? & ? & Hc & ?); [done| |].
    { rewrite filter_cons in Hone. case_decide; simpl in *; lia. }
    exists h2, n. split_and!; [done..| |naive_solver|naive_solver].
    intros Hc'. destruct (Hc Hc') as [Hh1|(e' & ? & ?)]; [by left|right; exists e'; set_solver].
Qed.

Lemma hc_run_app e1 e2 h :
  hc_run (e1 ++ e2) h =
  let* ' (h1, n1) := hc_run e1 h in let* ' (h2, n2) := hc_run e2 h1 in Ok (h2, (n1 + n2)%nat).
Proof.
  revert h; induction e1 as [|e e1 IH]; intros h; simpl.
  { by destruct (hc_run e2 h) as [[]| |]. }
  destruct (hc_step e h) as [[[h1 check]| |]|]; simpl; [|done..|done].
  rewrite IH. destruct (hc_run e1 h1) as [[h2 n]| |]; simpl; [|done..].
  destruct (hc_run e2 h2) as [[h3 m]| |]; simpl; [|done..]. by destruct check.
Qed.

Lemma new_checker_ok fromCtx clash outbounds link interval idleTimeout timeout h history :
  newHealthChecker fromCtx clash outbounds link interval idleTimeout timeout = Ok (h, history) ->
  loops_ok h /\ hc_closed h = false.
Proof. unfold newHealthChecker. case_match; intros [= <- _]. unfold loops_ok. simpl. naive_solver lia. Qed.

(** Whatever the interleaving of starts, uses, check loops and at
    most one close, a health checker never crashes (no nil ticker is read, no
    channel closed twice), at most one check loop runs, none without a ticker,
    and one as long as there is a ticker and the checker is not closed. *)
Theorem one_check_loop fromCtx clash outbounds link interval idleTimeout timeout h0 history events :
  newHealthChecker fromCtx clash outbounds link interval idleTimeout timeout = Ok (h0, history) ->
  (length (filter (fun e => closes e = true) events) <= 1)%nat ->
  exists h n, hc_run events h0 = Ok (h, n) /\
    (length (hc_loops h) <= 1)%nat /\
    (hc_ticker h = false -> hc_loops h = []) /\
    (hc_ticker h = true -> hc_closed h = false -> hc_loops h <> []).
Proof.
  intros [Hok Hc]%new_checker_ok Hone.
  destruct (hc_run_ok events h0 Hok) as (h & n & Hr & Hok' & _); [rewrite Hc; lia|].
  by exists h, n.
Qed.

(** Uses and ticks of the loop in which no tick comes more than [idle] after
    the last use, and how many ticks there are. *)
Fixpoint used (idle last : Z) (events : list hc_event) : Prop :=
  match events with
  | [] => True
  | EvTouch now :: events => used idle now events
  | EvTick now _ :: events => now - last <= idle /\ used idle last events
  | _ => False
  end.

Definition is_tick (e : hc_event) : bool := match e with EvTick _ _ => true | _ => false end.

Definition ticks (events : list hc_event) : nat := length (filter (fun e => is_tick e = true) events).

Fixpoint last_use (last : Z) (events : list hc_event) : Z :=
  match events with
  | [] => last
  | EvTouch now :: events => last_use now events
  | _ :: events => last_use last events
  end.

Definition all_first (events : list hc_event) : Prop :=
  Forall (fun e => match e with EvTick _ i => i = 0%nat | _ => True end) events.

Lemma used_run events h :
  hc_started h = true -> hc_ticker h = true -> hc_loops h = [AtSelect] -> all_first events ->
  used (hc_idleTimeout h) (hc_lastActive h) events ->
  hc_run events h =
    Ok (hc_set true (last_use (hc_lastActive h) events) true (hc_closed h) [AtSelect] h, ticks events).
Proof.
  revert h; induction events as [|e events IH]; intros h Hs Ht Hl Hf Hu.
  { simpl. rewrite <- Hs, <- Ht at 1. rewrite <- Hl. by destruct h. }
  inversion Hf as [|? ? He Hf']; subst.
  destruct e as [|now| | | |now i|]; simpl in *; try done.
  - unfold Touch. rewrite Hs, Ht. simpl. by rewrite IH.
  - subst i. destruct Hu as [Hidle Hu]. unfold loop_tick. rewrite Hl, Ht. simpl.
    destruct (Z.ltb_spec (hc_idleTimeout h) (now - hc_lastActive h)) as [Hlt|_]; [exfalso; lia|].
    simpl. by rewrite IH.
Qed.

Lemma touches_run (times : list Z) h :
  hc_started h = true -> hc_ticker h = true ->
  hc_run (EvTouch <$> times) h =
    Ok (hc_set true (last_use (hc_lastActive h) (EvTouch <$> times)) true (hc_closed h) (hc_loops h) h, 0%nat).
Proof.
  revert h; induction times as [|t times IH]; intros h Hs Ht; simpl.
  - rewrite <- Hs, <- Ht at 1. by destruct h.
  - unfold Touch. rewrite Hs, Ht. simpl. by rewrite IH.
Qed.

Lemma last_use_app last e1 e2 : last_use last (e1 ++ e2) = last_use (last_use last e1) e2.
Proof. revert last; induction e1 as [|[] e1 IH]; intros last; simpl; auto. Qed.

(** What a use that finds no loop starts: its goroutine, uses that come before
    the goroutine runs, and its first test. *)
Definition loop_start (begun : Z) (early : list Z) (entry : Z) : list hc_event :=
  EvTouch begun :: (EvTouch <$> early) ++ [EvEnter entry 0].

(** The activity on record when the goroutine runs, and whether it is overdue. *)
Definition recorded (h : healthChecker) (early : list Z) : Z := last_use (hc_lastActive h) (EvTouch <$> early).
Definition overdue (h : healthChecker) (early : list Z) (entry : Z) : bool :=
  hc_interval h <? entry - recorded h early.

Definition entry_activity (h : healthChecker) (early : list Z) (entry : Z) : Z :=
  if overdue h early entry then entry else recorded h early.
Definition entry_checks (h : healthChecker) (early : list Z) (entry : Z) : nat :=
  if overdue h early entry then 1 else 0.

Lemma loop_start_run begun early entry h :
  hc_started h = true -> hc_ticker h = false -> hc_loops h = [] ->
  hc_run (loop_start begun early entry) h =
    Ok (hc_set true (entry_activity h early entry) true (hc_closed h) [AtSelect] h, entry_checks h early entry).
Proof.
  intros Hs Ht Hl. unfold loop_start. cbn [hc_run hc_step]. unfold Touch. rewrite Hs, Ht, Hl.
  cbn [negb res_bind]. rewrite hc_run_app, touches_run by done. cbn [hc_set hc_loops app res_bind].
  unfold entry_activity, entry_checks, overdue, recorded. simpl.
  by destruct (hc_interval h <? _).
Qed.

(** C33 (the check loop): in a started checker without a loop, a use starts
    one.  The loop checks at once exactly when the last recorded activity is
    more than an interval ago, and records activity then; uses while it runs
    are recorded, the one that started it is not.  Every tick within the idle
    timeout of the last recorded activity begins a check, however uses and
    ticks are mixed.  The first tick later than that begins none and ends the
    loop and its ticker, also when more uses come before it holds the lock; the
    next use after that starts a loop again. *)
Theorem used_checker_keeps_checking h begun early entry events now lost later :
  hc_started h = true -> hc_ticker h = false -> hc_loops h = [] ->
  let active := entry_activity h early entry in
  let checks := (entry_checks h early entry + ticks events)%nat in
  let start := loop_start begun early entry in
  all_first events -> used (hc_idleTimeout h) active events ->
  hc_idleTimeout h < now - last_use active events ->
  let ended := [EvTick now 0] ++ (EvTouch <$> lost) ++ [EvStop 0] in
  let record := last_use active (events ++ (EvTouch <$> lost)) in
  hc_run (start ++ events) h =
    Ok (hc_set true (last_use active events) true (hc_closed h) [AtSelect] h, checks) /\
  hc_run (start ++ events ++ ended) h = Ok (hc_set true record false (hc_closed h) [] h, checks) /\
  hc_run (start ++ events ++ ended ++ [EvTouch later]) h =
    Ok (hc_set true record true (hc_closed h) [AtEntry] h, checks).
Proof.
  intros Hs Ht Hl active checks start Hf Hu Hidle ended record.
  assert (Hrun : hc_run (start ++ events) h =
            Ok (hc_set true (last_use active events) true (hc_closed h) [AtSelect] h, checks)).
  { rewrite hc_run_app. unfold start. rewrite loop_start_run by done. cbn [res_bind].
    by rewrite used_run. }
  assert (Hend : hc_run (start ++ events ++ ended) h =
            Ok (hc_set true record false (hc_closed h) [] h, checks)).
  { rewrite app_assoc, hc_run_app, Hrun. cbn [res_bind]. unfold ended.
    cbn [app hc_run hc_step]. unfold loop_tick. simpl. rewrite (proj2 (Z.ltb_lt _ _) Hidle). simpl.
    rewrite hc_run_app, touches_run by done. simpl. rewrite Nat.add_0_r.
    unfold record. by rewrite last_use_app. }
  split_and!; [exact Hrun|exact Hend|].
  rewrite !app_assoc, hc_run_app, <- !app_assoc, Hend. simpl. by rewrite Nat.add_0_r.
Qed.

(** A check leaves, for every tag, the outcome of its test when
    the tag was due (an outbound of the group stands for it, the manager knows
    it, and the check is forced or its history is missing or older than the
    interval), and the history it had otherwise; every due tag is tested once;
    and the delays reported are those of the outbounds whose test succeeded.
    None of this depends on the order in which the concurrent tests end. *)
Theorem urlTest_spec force now loaded schedule test ends h w :
  (forall jobs, schedule jobs ≡ₚ jobs) ->
  (forall d d', d ∈ hc_outbounds h -> d' ∈ hc_outbounds h -> ob_tag d = ob_tag d' -> d = d') ->
  hc_checking h = false ->
  let '(result, w') := healthChecker_urlTest force now loaded schedule test ends h w in
  let due tag := negb (bool_decide (tag = "")) && loaded tag
                 && existsb (fun d => bool_decide (RealTag w d = tag)) (hc_outbounds h)
                 && (force || negb (recently_tested now (hc_interval h) w tag)) in
  let jobs := begin_tests true force now (hc_interval h) loaded w (hc_outbounds h) ∅ in
  w_now w' = w_now w /\
  (forall tag, load w' tag = if due tag then test_outcome test ends tag else load w tag) /\
  (NoDup jobs.*2 /\ forall tag, tag ∈ jobs.*2 <-> due tag = true) /\
  (forall tag t, result !! tag = Some t <->
     exists rt, (tag, rt) ∈ jobs /\ test rt = Ok t).
Proof.
  intros Hs Hinj Hck. unfold healthChecker_urlTest. rewrite Hck.
  pose proof (fun tag => url_tests_history true force now (hc_interval h) loaded schedule test ends
                (hc_outbounds h) w tag Hs) as Hhist.
  pose proof (fun tag t => url_tests_result true force now (hc_interval h) loaded schedule test ends
                (hc_outbounds h) w tag t Hs Hinj) as Hres.
  assert (Hnow : w_now (url_tests true false force now (hc_interval h) loaded schedule test ends
                    (hc_outbounds h) w).2 = w_now w) by apply finish_tests_now.
  destruct (url_tests _ _ _ _ _ _ _ _ _ _ _) as [result w']. simpl in *.
  assert (Hdue : forall tag, negb (bool_decide (tag = "")) && loaded tag
      && existsb (fun d => bool_decide (RealTag w d = tag)) (hc_outbounds h)
      && (force || negb (recently_tested now (hc_interval h) w tag)) =
      wanted true force now (hc_interval h) loaded w (hc_outbounds h) tag).
  { intros tag. unfold wanted. simpl. destruct (loaded tag), (existsb _ _), (bool_decide _); simpl;
      by rewrite ?andb_false_r, ?andb_true_r. }
  split_and!; [done|intros tag; by rewrite Hdue|apply begin_tests_nodup| |done].
  intros tag. rewrite Hdue. split; [|by apply begin_tests_complete].
  intros [[a rt] [-> Hin]]%list_elem_of_fmap. by apply begin_tests_spec in Hin as (_ & ? & _).
Qed.

(** An interrupt closes the connections it should, in the order they were made,
    and exactly those leave the group. *)
Lemma interrupt_spec b g :
  (forall e, e ∈ ig_connections (Interrupt b g) <->
     e ∈ ig_connections g /\ gc_external e.2 = true /\ b = false) /\
  ig_closed (Interrupt b g) =
    ig_closed g ++ map (fun e => gc_conn e.2) (filter (to_interrupt b) (ig_connections g)).
Proof.
  split; [|done]. intros e. simpl. rewrite list_elem_of_filter. unfold to_interrupt.
  destruct (gc_external e.2), b; naive_solver.
Qed.

(** ** A concrete checker, witnesses *)

Definition ob (id : nat) (tag : string) : Outbound :=
  {| ob_id := id; ob_tag := tag |}.

Definition sample_world (history : list (string * URLTestHistory)) : World :=
  {| w_history := {| delayHistory := list_to_map history; updateHook := None |};
     w_now := fun o => if decide (ob_id o = 9%nat) then Some "b" else None;
     w_network := fun _ => ["tcp"; "udp"] |}.

Definition hist (time delay : Z) : URLTestHistory := {| uh_Time := time; uh_Delay := delay |}.

Definition sample_checker : healthChecker :=
  match newHealthChecker None None [ob 1 "a"; ob 2 "b"; ob 9 "g"] "" minute (2 * minute) 0 with
  | Ok (h, _) => h
  | _ => hc_set false 0 false false [] {| hc_outbounds := []; hc_link := ""; hc_interval := 0;
           hc_idleTimeout := 0; hc_timeout := 0; hc_checking := false; hc_started := false;
           hc_lastActive := 0; hc_ticker := false; hc_closed := false; hc_loops := [] |}
  end.

Definition life : list hc_event :=
  [EvPostStart 0; EvTouch 1; EvEnter 2 0; EvTick minute 0; EvTick (3 * minute) 0; EvTouch (3 * minute);
   EvClose; EvStop 0; EvTouch (4 * minute); EvEnter (4 * minute) 0; EvClosed 0].

Lemma one_check_loop_witness :
  exists h n, hc_run life sample_checker = Ok (h, n) /\
    (length (hc_loops h) <= 1)%nat /\
    (hc_ticker h = false -> hc_loops h = []) /\
    (hc_ticker h = true -> hc_closed h = false -> hc_loops h <> []).
Proof.
  apply (one_check_loop None None [ob 1 "a"; ob 2 "b"; ob 9 "g"] "" minute (2 * minute) 0 _
           NewHistoryStorage life); [reflexivity|vm_compute; lia].
Defined.

Definition waiting_checker : healthChecker := hc_set true 0 true false [AtSelect] sample_checker.
Definition idle_checker : healthChecker := hc_set true 0 false false [] sample_checker.
Definition mixed_use : list hc_event :=
  [EvTick (4 * minute) 0; EvTouch (5 * minute); EvTick (7 * minute) 0].

Lemma used_checker_keeps_checking_witness :
  let start := loop_start (3 * minute) [] (3 * minute) in
  let ended := [EvTick (8 * minute) 0; EvTouch (8 * minute); EvStop 0] in
  hc_run (start ++ mixed_use) idle_checker =
    Ok (hc_set true (5 * minute) true false [AtSelect] idle_checker, 3%nat) /\
  hc_run (start ++ mixed_use ++ ended) idle_checker =
    Ok (hc_set true (8 * minute) false false [] idle_checker, 3%nat) /\
  hc_run (start ++ mixed_use ++ ended ++ [EvTouch (9 * minute)]) idle_checker =
    Ok (hc_set true (8 * minute) true false [AtEntry] idle_checker, 3%nat).
Proof.
  apply (used_checker_keeps_checking idle_checker (3 * minute) [] (3 * minute) mixed_use (8 * minute)
           [8 * minute] (9 * minute)); try reflexivity.
  - repeat constructor.
  - vm_compute. repeat split; discriminate.
Defined.

Definition sample_test (tag : string) : res Z := if decide (tag = "a") then Ok 30 else Err (ErrNew "refused").

Definition backwards (jobs : list (string * string)) : list (string * string) := rev jobs.

Lemma urlTest_spec_witness :
  let w := sample_world [("b", hist 0 20)] in
  let '(result, w') :=
    healthChecker_urlTest false (2 * minute) (fun _ => true) backwards sample_test (fun _ => 3 * minute) sample_checker w in
  load w' "a" = Some (hist (3 * minute) 30) /\ load w' "b" = None /\ result !! "a" = Some 30.
Proof.
  intros w.
  pose proof (urlTest_spec false (2 * minute) (fun _ => true) backwards sample_test
                (fun _ => 3 * minute) sample_checker w) as H.
  specialize (H (fun l => symmetry (Permutation_rev l))).
  assert (Hinj : forall d d', d ∈ hc_outbounds sample_checker -> d' ∈ hc_outbounds sample_checker ->
            ob_tag d = ob_tag d' -> d = d').
  { intros d d' Hd Hd'. simpl in Hd, Hd'. rewrite !elem_of_cons, elem_of_nil in Hd, Hd'.
    destruct Hd as [->|[->|[->|[]]]], Hd' as [->|[->|[->|[]]]]; done. }
  specialize (H Hinj eq_refl).
  destruct (healthChecker_urlTest _ _ _ _ _ _ _ _) as [result w'].
  destruct H as (_ & Hhist & _ & Hres). rewrite !Hhist. split_and!; [by vm_compute..|].
  apply Hres. exists "a". split; [|done]. vm_compute. apply list_elem_of_here.
Defined.

(** ** Behaviours worth knowing *)

(** A use that comes between the test of the idle timeout and the lock is lost:
    the loop stops although the checker was just used. *)
Example use_lost_to_the_idle_timeout :
  match hc_run [EvTick (3 * minute) 0; EvTouch (3 * minute); EvStop 0] waiting_checker with
  | Ok (h, _) => hc_lastActive h = 3 * minute /\ hc_ticker h = false /\ hc_loops h = []
  | _ => False
  end.
Proof. by vm_compute. Qed.

(** The use that starts the loop is not recorded: the loop ends, without a
    check of its own, three minutes after it under an idle timeout of four. *)
Example first_use_not_recorded :
  match newHealthChecker None None [ob 1 "a"] "" (3 * minute) (4 * minute) 0 with
  | Ok (h, _) =>
      match hc_run [EvPostStart 0; EvTouch (2 * minute); EvEnter (2 * minute) 0; EvTick (5 * minute) 0; EvStop 0] h with
      | Ok (h, checks) => hc_ticker h = false /\ hc_loops h = [] /\ checks = 1%nat
      | _ => False
      end
  | _ => False
  end.
Proof. by vm_compute. Qed.

(** A second close panics; a checker closed while idle starts its loop again. *)
Example second_close_panics :
  hc_run [EvPostStart 0; EvTouch 1; EvClose; EvClose] sample_checker = Panic close_of_closed.
Proof. by vm_compute. Qed.

Example closed_while_idle_restarts :
  match hc_run [EvPostStart 0; EvClose; EvTouch 1; EvEnter 2 0; EvTick minute 0] sample_checker with
  | Ok (h, checks) => hc_closed h = false /\ hc_loops h = [AtSelect] /\ checks = 2%nat
  | _ => False
  end.
Proof. by vm_compute. Qed.

(** A server that answers within a millisecond has a delay of zero. *)
Example fast_server : test_delay 900000 = 0.
Proof. done. Qed.
