(* ===== verification/Groups.v ===== *)
(** * protocol/group: selector, urltest, fallback and load balance

    A group is an outbound over other outbounds.  A dial of one of them is the
    argument [dial], which answers per attempt with an error or a connection;
    [between] is what other goroutines (checks that run in the background,
    other groups) do to the shared history and to nested groups while an
    attempt runs.  Interrupts go to the group of connections of
    HealthCheck.v. *)

From stdpp Require Import base list strings gmap.
From Stdlib Require Import ZArith Lia Ascii.
From S2P Require Import Prelude GoStd External HealthCheck.

Open Scope Z_scope.
Open Scope box_scope.

(** Code outside the repository: [N.NetworkName], [N.ErrUnknownNetwork] of sing
    and [publicsuffix.EffectiveTLDPlusOne]. *)
Class GroupLib : Type := {
  NetworkName : string -> string;
  ErrUnknownNetwork : error;
  EffectiveTLDPlusOne : string -> res string
}.

Definition NetworkTCP : string := "tcp".
Definition NetworkUDP : string := "udp".

Definition missing_tags : error := ErrNew "missing tags".
Definition missing_supported_outbound : error := ErrNew "missing supported outbound".

(** [make], then [append] in a loop over the tags, in three [Start] methods. *)
Definition find_outbounds (manager : string -> option Outbound) (tags : list string) : res (list Outbound) :=
  res_mapi (fun i tag =>
    match manager tag with
    | Some detour => Ok detour
    | None => Err (ErrNew ("outbound " +:+ go_itoa (Z.of_nat i) +:+ " not found: " +:+ tag))
    end) 0 tags.

(** What a dial gives back: a connection of an outbound, or an error (which may
    be nil when nothing was tried). *)
Inductive dialed : Type :=
  | Connected (detour : Outbound) (conn : nat)
  | Failed (err : option error).

#[global] Instance dialed_eq_dec : EqDecision dialed.
Proof. solve_decision. Defined.

Section groups.
Context `{GroupLib} `{External}.

(** ** Selector *)

Record Selector : Type := {
  sl_tag : string;
  sl_tags : list string;
  sl_defaultTag : string;
  sl_outbounds : gmap string Outbound;
  sl_selected : option Outbound;
  sl_interruptGroup : InterruptGroup;
  sl_interruptExternal : bool
}.

Definition NewSelector (tag : string) (tags : list string) (defaultTag : string) (interruptExist : bool)
    : res Selector :=
  if (length tags =? 0)%nat then Err missing_tags
  else Ok {| sl_tag := tag; sl_tags := tags; sl_defaultTag := defaultTag; sl_outbounds := ∅;
             sl_selected := None; sl_interruptGroup := NewGroup; sl_interruptExternal := interruptExist |}.

Definition sl_with (outbounds : gmap string Outbound) (selected : option Outbound) (g : InterruptGroup)
    (s : Selector) : Selector :=
  {| sl_tag := sl_tag s; sl_tags := sl_tags s; sl_defaultTag := sl_defaultTag s; sl_outbounds := outbounds;
     sl_selected := selected; sl_interruptGroup := g; sl_interruptExternal := sl_interruptExternal s |}.

Definition sl_select (o : option Outbound) (s : Selector) : Selector :=
  sl_with (sl_outbounds s) o (sl_interruptGroup s) s.

Definition Selector_Network (w : World) (s : Selector) : list string :=
  match sl_selected s with
  | None => [NetworkTCP; NetworkUDP]
  | Some selected => w_network w selected
  end.

(** The first loop of [Start] keeps what it found before an error. *)
Fixpoint selector_outbounds (manager : string -> option Outbound) (i : nat) (tags : list string)
    (outbounds : gmap string Outbound) : res unit * gmap string Outbound :=
  match tags with
  | [] => (Ok tt, outbounds)
  | tag :: tags =>
      match manager tag with
      | None => (Err (ErrNew ("outbound " +:+ go_itoa (Z.of_nat i) +:+ " not found: " +:+ tag)), outbounds)
      | Some detour => selector_outbounds manager (S i) tags (<[tag := detour]> outbounds)
      end
  end.

(** The cache file, when there is one: the selected tag of each group;
    [LoadSelected] answers the empty string when it has none. *)
Definition LoadSelected (cacheFile : gmap string string) (group : string) : string :=
  default "" (cacheFile !! group).

Definition Selector_Start (manager : string -> option Outbound) (cacheFile : option (gmap string string))
    (s : Selector) : res unit * Selector :=
  let '(r, outbounds) := selector_outbounds manager 0 (sl_tags s) (sl_outbounds s) in
  let s := sl_with outbounds (sl_selected s) (sl_interruptGroup s) s in
  match r with
  | Ok _ =>
      let cached :=
        match cacheFile with
        | Some file =>
            let selected := LoadSelected file (sl_tag s) in
            if bool_decide (sl_tag s <> "") && bool_decide (selected <> "")
            then sl_outbounds s !! selected else None
        | None => None
        end in
      match cached with
      | Some detour => (Ok tt, sl_select (Some detour) s)
      | None =>
          if bool_decide (sl_defaultTag s <> "") then
            match sl_outbounds s !! sl_defaultTag s with
            | None => (Err (ErrNew ("default outbound not found: " +:+ sl_defaultTag s)), s)
            | Some detour => (Ok tt, sl_select (Some detour) s)
            end
          else
            match sl_tags s with
            | tag :: _ => (Ok tt, sl_select (sl_outbounds s !! tag) s)
            | [] => (Panic "index out of range", s)
            end
      end
  | r => (r, s)
  end.

Definition Selector_Now (s : Selector) : res string :=
  match sl_selected s with
  | Some selected => Ok (ob_tag selected)
  | None => match sl_tags s with tag :: _ => Ok tag | [] => Panic "index out of range" end
  end.

(** [SelectOutbound]; [stored] is whether the cache file can be written. *)
Definition Selector_SelectOutbound (stored : bool) (tag : string) (cacheFile : option (gmap string string))
    (s : Selector) : bool * option (gmap string string) * Selector :=
  match sl_outbounds s !! tag with
  | None => (false, cacheFile, s)
  | Some detour =>
      if bool_decide (sl_selected s = Some detour) then (true, cacheFile, s)
      else
        let cacheFile :=
          match cacheFile with
          | Some file => if bool_decide (sl_tag s <> "") && stored then Some (<[sl_tag s := tag]> file) else Some file
          | None => None
          end in
        (true, cacheFile,
         sl_with (sl_outbounds s) (Some detour) (Interrupt (sl_interruptExternal s) (sl_interruptGroup s)) s)
  end.

(** [DialContext] and, with the dial of packet connections, [ListenPacket]. *)
Definition Selector_DialContext (dial : Outbound -> error + nat) (isExternal : bool) (s : Selector)
    : res nat * Selector :=
  match sl_selected s with
  | None => (Panic nil_pointer, s)
  | Some detour =>
      match dial detour with
      | inl err => (Err err, s)
      | inr conn =>
          let '(_, g) := NewConn conn isExternal (sl_interruptGroup s) in
          (Ok conn, sl_with (sl_outbounds s) (sl_selected s) g s)
      end
  end.

(** [NewConnectionEx] and [NewPacketConnectionEx]: an outbound that handles
    connections itself gets this one, else the connection manager dials it. *)
Inductive handed : Type :=
  | ToHandler (detour : Outbound)
  | ToManager (detour : option Outbound).

Definition Selector_NewConnectionEx (isHandler : Outbound -> bool) (s : Selector) : handed :=
  match sl_selected s with
  | Some selected => if isHandler selected then ToHandler selected else ToManager (Some selected)
  | None => ToManager None
  end.

(** ** URLTest *)

Record URLTestGroup : Type := {
  ug_life : healthChecker;
  ug_tolerance : Z;
  ug_selectedTCP : option Outbound;
  ug_selectedUDP : option Outbound;
  ug_interruptGroup : InterruptGroup;
  ug_interruptExternal : bool
}.

(** The intervals, the history and the check loop of the group are the ones of
    the health checker; its tests always use [C.TCPTimeout]. *)
Definition NewURLTestGroup (fromCtx clash : option HistoryStorage) (outbounds : list Outbound) (link : string)
    (interval tolerance idleTimeout : Z) (interruptExternal : bool) : res (URLTestGroup * HistoryStorage) :=
  let* ' (life, history) := newHealthChecker fromCtx clash outbounds link interval idleTimeout 0 in
  Ok ({| ug_life := life; ug_tolerance := if tolerance =? 0 then 50 else tolerance;
         ug_selectedTCP := None; ug_selectedUDP := None; ug_interruptGroup := NewGroup;
         ug_interruptExternal := interruptExternal |}, history).

(** [URLTest.Start]: find the outbounds, make the group. *)
Definition URLTest_Start (manager : string -> option Outbound) (fromCtx clash : option HistoryStorage)
    (tags : list string) (link : string) (interval tolerance idleTimeout : Z) (interruptExternal : bool)
    : res (URLTestGroup * HistoryStorage) :=
  let* outbounds := find_outbounds manager tags in
  NewURLTestGroup fromCtx clash outbounds link interval tolerance idleTimeout interruptExternal.

Definition ug_with (life : healthChecker) (tcp udp : option Outbound) (ig : InterruptGroup) (g : URLTestGroup)
    : URLTestGroup :=
  {| ug_life := life; ug_tolerance := ug_tolerance g; ug_selectedTCP := tcp; ug_selectedUDP := udp;
     ug_interruptGroup := ig; ug_interruptExternal := ug_interruptExternal g |}.

Definition uint16_add (a b : Z) : Z := (a + b) mod 2 ^ 16.

(** The selected outbound of a network, as the switch of [Select] reads it. *)
Definition ug_selected (network : string) (g : URLTestGroup) : option Outbound :=
  if bool_decide (network = NetworkTCP) then ug_selectedTCP g
  else if bool_decide (network = NetworkUDP) then ug_selectedUDP g
  else None.

(** One round of the loop of [Select]: the outbound found so far and its delay. *)
Definition faster (network : string) (tolerance : Z) (w : World) (best : option Outbound * Z) (detour : Outbound)
    : option Outbound * Z :=
  if supports network w detour then
    match load w (RealTag w detour) with
    | None => best
    | Some history =>
        if (best.2 =? 0) || (uint16_add (uh_Delay history) tolerance <? best.2)
        then (Some detour, uh_Delay history) else best
    end
  else best.

Definition starting_point (network : string) (w : World) (g : URLTestGroup) : option Outbound * Z :=
  match ug_selected network g with
  | Some selected =>
      match load w (RealTag w selected) with
      | Some history => (Some selected, uh_Delay history)
      | None => (None, 0)
      end
  | None => (None, 0)
  end.

Definition URLTestGroup_Select (network : string) (w : World) (g : URLTestGroup) : option Outbound * bool :=
  let outbounds := hc_outbounds (ug_life g) in
  match (fold_left (faster network (ug_tolerance g) w) outbounds (starting_point network w g)).1 with
  | Some minOutbound => (Some minOutbound, true)
  | None => (List.find (supports network w) outbounds, false)
  end.

(** One half of [performUpdateCheck]: the new selection, and whether it replaces
    another one. *)
Definition update_selected (select : option Outbound * bool) (selected : option Outbound)
    : option Outbound * bool :=
  match select.1 with
  | None => (selected, false)
  | Some outbound =>
      match selected with
      | None => (Some outbound, false)
      | Some previous =>
          if select.2 && bool_decide (outbound <> previous) then (Some outbound, true) else (selected, false)
      end
  end.

Definition URLTestGroup_performUpdateCheck (w : World) (g : URLTestGroup) : URLTestGroup :=
  let '(tcp, updatedTCP) := update_selected (URLTestGroup_Select NetworkTCP w g) (ug_selectedTCP g) in
  let g := ug_with (ug_life g) tcp (ug_selectedUDP g) (ug_interruptGroup g) g in
  let '(udp, updatedUDP) := update_selected (URLTestGroup_Select NetworkUDP w g) (ug_selectedUDP g) in
  ug_with (ug_life g) tcp udp
    (if updatedTCP || updatedUDP then Interrupt (ug_interruptExternal g) (ug_interruptGroup g)
     else ug_interruptGroup g) g.

(** [urlTest], which [URLTest] and [CheckOutbounds] call.  [during] is what the
    outside of the group becomes while the tests run: other groups test and
    select too. *)
Definition URLTestGroup_urlTest (force : bool) (now : Z) (loaded : string -> bool)
    (schedule : list (string * string) -> list (string * string)) (test : string -> res Z)
    (ends : string -> Z) (during : World -> World) (g : URLTestGroup) (w : World)
    : gmap string Z * World * URLTestGroup :=
  let life := ug_life g in
  if hc_checking life then (∅, w, g)
  else
    let '(result, w) := url_tests false (hc_checking life) force now (hc_interval life) loaded schedule test
                          ends (hc_outbounds life) w in
    let w := during w in
    (result, w, URLTestGroup_performUpdateCheck w g).

Definition URLTest_Now (g : URLTestGroup) : string :=
  match ug_selectedTCP g, ug_selectedUDP g with
  | Some o, _ => ob_tag o
  | None, Some o => ob_tag o
  | None, None => ""
  end.

(** The life cycle of the group, step for step the one of the health checker. *)
Definition URLTestGroup_life (f : healthChecker -> hc_result) (g : URLTestGroup) : res (URLTestGroup * bool) :=
  let* ' (life, check) := f (ug_life g) in
  Ok (ug_with life (ug_selectedTCP g) (ug_selectedUDP g) (ug_interruptGroup g) g, check).

Definition URLTestGroup_PostStart (now : Z) : URLTestGroup -> res (URLTestGroup * bool) :=
  URLTestGroup_life (PostStart now).
Definition URLTestGroup_Touch (now : Z) : URLTestGroup -> res (URLTestGroup * bool) :=
  URLTestGroup_life (Touch now).
Definition URLTestGroup_Close : URLTestGroup -> res (URLTestGroup * bool) := URLTestGroup_life Close.

(** The dial of the outbound that was chosen, in [DialContext] and [ListenPacket]. *)
Definition urltest_dial (dial : Outbound -> error + nat) (isExternal : bool) (outbound : option Outbound)
    (w : World) (g : URLTestGroup) : dialed * World * URLTestGroup :=
  match outbound with
  | None => (Failed (Some missing_supported_outbound), w, g)
  | Some outbound =>
      match dial outbound with
      | inr conn =>
          let '(_, ig) := NewConn conn isExternal (ug_interruptGroup g) in
          (Connected outbound conn, w, ug_with (ug_life g) (ug_selectedTCP g) (ug_selectedUDP g) ig g)
      | inl err => (Failed (Some err), on_history (DeleteURLTestHistory (ob_tag outbound)) w, g)
      end
  end.

Definition URLTest_DialContext (now : Z) (network : string) (dial : Outbound -> error + nat)
    (isExternal : bool) (w : World) (g : URLTestGroup) : res (dialed * World * URLTestGroup) :=
  let* ' (g, _) := URLTestGroup_Touch now g in
  let or_select (selected : option Outbound) :=
    match selected with Some o => Some o | None => (URLTestGroup_Select network w g).1 end in
  if bool_decide (NetworkName network = NetworkTCP) then
    Ok (urltest_dial dial isExternal (or_select (ug_selectedTCP g)) w g)
  else if bool_decide (NetworkName network = NetworkUDP) then
    Ok (urltest_dial dial isExternal (or_select (ug_selectedUDP g)) w g)
  else Ok (Failed (Some (ErrExtend ErrUnknownNetwork network)), w, g).

Definition URLTest_ListenPacket (now : Z) (dial : Outbound -> error + nat) (isExternal : bool) (w : World)
    (g : URLTestGroup) : res (dialed * World * URLTestGroup) :=
  let* ' (g, _) := URLTestGroup_Touch now g in
  let outbound := match ug_selectedUDP g with
                  | Some o => Some o
                  | None => (URLTestGroup_Select NetworkUDP w g).1
                  end in
  Ok (urltest_dial dial isExternal outbound w g).

(** ** Fallback *)

Record FallbackGroup : Type := {
  fg_checker : healthChecker;
  fg_outbounds : list Outbound;
  fg_selectedTCP : option Outbound;
  fg_selectedUDP : option Outbound;
  fg_interruptGroup : InterruptGroup;
  fg_interruptExternal : bool
}.

Definition NewFallbackGroup (fromCtx clash : option HistoryStorage) (outbounds : list Outbound) (link : string)
    (interval idleTimeout timeout : Z) (interruptExternal : bool) : res (FallbackGroup * HistoryStorage) :=
  let* ' (checker, history) := newHealthChecker fromCtx clash outbounds link interval idleTimeout timeout in
  Ok ({| fg_checker := checker; fg_outbounds := outbounds; fg_selectedTCP := None; fg_selectedUDP := None;
         fg_interruptGroup := NewGroup; fg_interruptExternal := interruptExternal |}, history).

Definition Fallback_Start (manager : string -> option Outbound) (fromCtx clash : option HistoryStorage)
    (tags : list string) (link : string) (interval idleTimeout timeout : Z) (interruptExternal : bool)
    : res (FallbackGroup * HistoryStorage) :=
  let* outbounds := find_outbounds manager tags in
  NewFallbackGroup fromCtx clash outbounds link interval idleTimeout timeout interruptExternal.

Definition fg_with (checker : healthChecker) (tcp udp : option Outbound) (ig : InterruptGroup)
    (g : FallbackGroup) : FallbackGroup :=
  {| fg_checker := checker; fg_outbounds := fg_outbounds g; fg_selectedTCP := tcp; fg_selectedUDP := udp;
     fg_interruptGroup := ig; fg_interruptExternal := fg_interruptExternal g |}.

(** [PostStart], [Touch] and [Close] are those of the checker. *)
Definition FallbackGroup_life (f : healthChecker -> hc_result) (g : FallbackGroup) : res (FallbackGroup * bool) :=
  let* ' (checker, check) := f (fg_checker g) in
  Ok (fg_with checker (fg_selectedTCP g) (fg_selectedUDP g) (fg_interruptGroup g) g, check).

Definition FallbackGroup_Now (g : FallbackGroup) : string :=
  match fg_selectedTCP g, fg_selectedUDP g, fg_outbounds g with
  | Some o, _, _ => ob_tag o
  | None, Some o, _ => ob_tag o
  | None, None, o :: _ => ob_tag o
  | None, None, [] => ""
  end.

Definition FallbackGroup_Select (network : string) (w : World) (g : FallbackGroup) : option Outbound * bool :=
  match List.find (fun detour => supports network w detour && available w detour) (fg_outbounds g) with
  | Some detour => (Some detour, true)
  | None => (List.find (supports network w) (fg_outbounds g), false)
  end.

(** The candidates, the available ones first. *)
Definition tryList (network : string) (w : World) (outbounds : list Outbound) : list Outbound :=
  let candidates := filter (fun detour => supports network w detour = true) outbounds in
  filter (fun detour => available w detour = true) candidates ++
  filter (fun detour => available w detour <> true) candidates.

(** The loop over [tryList]: each failure forgets the history of the outbound
    and begins a check in the background; the list of failed outbounds counts
    them. *)
Fixpoint try_outbounds (dial : nat -> Outbound -> error + nat) (between : nat -> World -> World) (i : nat)
    (l : list Outbound) (lastErr : option error) (w : World) : dialed * World * list Outbound :=
  match l with
  | [] => (Failed lastErr, w, [])
  | detour :: l =>
      let w := between i w in
      match dial i detour with
      | inr conn => (Connected detour conn, w, [])
      | inl err =>
          let w := on_history (DeleteURLTestHistory (RealTag w detour)) w in
          let '(r, w, failed) := try_outbounds dial between (S i) l (Some err) w in
          (r, w, detour :: failed)
      end
  end.

Definition swap_interrupts (previous : option Outbound) (outbound : Outbound) : bool :=
  match previous with Some p => bool_decide (p <> outbound) | None => false end.

Definition storeSelected (network : string) (outbound : Outbound) (g : FallbackGroup) : FallbackGroup :=
  let interrupted previous :=
    if swap_interrupts previous outbound then Interrupt (fg_interruptExternal g) (fg_interruptGroup g)
    else fg_interruptGroup g in
  if bool_decide (NetworkName network = NetworkTCP) then
    fg_with (fg_checker g) (Some outbound) (fg_selectedUDP g) (interrupted (fg_selectedTCP g)) g
  else if bool_decide (NetworkName network = NetworkUDP) then
    fg_with (fg_checker g) (fg_selectedTCP g) (Some outbound) (interrupted (fg_selectedUDP g)) g
  else g.

(** [DialContext]; [ListenPacket] is the same with the network "udp". *)
Definition FallbackGroup_DialContext (network : string) (dial : nat -> Outbound -> error + nat)
    (between : nat -> World -> World) (isExternal : bool) (w : World) (g : FallbackGroup)
    : dialed * World * list Outbound * FallbackGroup :=
  match filter (fun detour => supports network w detour = true) (fg_outbounds g) with
  | [] => (Failed (Some missing_supported_outbound), w, [], g)
  | _ =>
      let '(r, w, failed) := try_outbounds dial between 0 (tryList network w (fg_outbounds g)) None w in
      match r with
      | Connected detour conn =>
          let g := storeSelected network detour g in
          let '(_, ig) := NewConn conn isExternal (fg_interruptGroup g) in
          (r, w, failed, fg_with (fg_checker g) (fg_selectedTCP g) (fg_selectedUDP g) ig g)
      | Failed _ => (r, w, failed, g)
      end
  end.

Definition FallbackGroup_ListenPacket (dial : nat -> Outbound -> error + nat)
    (between : nat -> World -> World) (isExternal : bool) (w : World) (g : FallbackGroup)
    : dialed * World * list Outbound * FallbackGroup :=
  FallbackGroup_DialContext NetworkUDP dial between isExternal w g.

Definition FallbackGroup_performUpdateCheck (w : World) (g : FallbackGroup) : FallbackGroup :=
  let '(tcp, updatedTCP) := update_selected (FallbackGroup_Select NetworkTCP w g) (fg_selectedTCP g) in
  let g := fg_with (fg_checker g) tcp (fg_selectedUDP g) (fg_interruptGroup g) g in
  let '(udp, updatedUDP) := update_selected (FallbackGroup_Select NetworkUDP w g) (fg_selectedUDP g) in
  fg_with (fg_checker g) tcp udp
    (if updatedTCP || updatedUDP then Interrupt (fg_interruptExternal g) (fg_interruptGroup g)
     else fg_interruptGroup g) g.

(** ** Load balance *)

Definition LoadBalanceStrategyRoundRobin : string := "round-robin".
Definition LoadBalanceStrategyConsistentHashing : string := "consistent-hashing".
Definition LoadBalanceStrategyStickySessions : string := "sticky-sessions".

Definition unknown_strategy (strategy : string) : error := ErrNew ("unknown load-balance strategy: " +:+ strategy).

(** The checks of [NewLoadBalance]: the strategy the group will have. *)
Definition NewLoadBalance (tags : list string) (strategy : string) : res string :=
  let strategy := if bool_decide (strategy = "") then LoadBalanceStrategyRoundRobin else strategy in
  if (length tags =? 0)%nat then Err missing_tags
  else if bool_decide (strategy ∈ [LoadBalanceStrategyRoundRobin; LoadBalanceStrategyConsistentHashing;
                                   LoadBalanceStrategyStickySessions])
  then Ok strategy else Err (unknown_strategy strategy).

Record stickyEntry : Type := { st_tag : string; st_expire : Z }.

Record LoadBalanceGroup : Type := {
  lb_checker : healthChecker;
  lb_outbounds : list Outbound;
  lb_outboundMap : gmap string Outbound;
  lb_strategy : string;
  lb_rrCounter : Z;
  lb_stickyCache : gmap string stickyEntry;
  lb_lastSelected : option Outbound
}.

Definition NewLoadBalanceGroup (fromCtx clash : option HistoryStorage) (outbounds : list Outbound) (link : string)
    (interval idleTimeout timeout : Z) (strategy : string) : res (LoadBalanceGroup * HistoryStorage) :=
  let outboundMap := fold_left (fun m detour => <[ob_tag detour := detour]> m) outbounds ∅ in
  let* ' (checker, history) := newHealthChecker fromCtx clash outbounds link interval idleTimeout timeout in
  Ok ({| lb_checker := checker; lb_outbounds := outbounds; lb_outboundMap := outboundMap;
         lb_strategy := strategy; lb_rrCounter := 0; lb_stickyCache := ∅; lb_lastSelected := None |}, history).

Definition LoadBalance_Start (manager : string -> option Outbound) (fromCtx clash : option HistoryStorage)
    (tags : list string) (link : string) (interval idleTimeout timeout : Z) (strategy : string)
    : res (LoadBalanceGroup * HistoryStorage) :=
  let* outbounds := find_outbounds manager tags in
  NewLoadBalanceGroup fromCtx clash outbounds link interval idleTimeout timeout strategy.

Definition lb_with (counter : Z) (sticky : gmap string stickyEntry) (last : option Outbound)
    (g : LoadBalanceGroup) : LoadBalanceGroup :=
  {| lb_checker := lb_checker g; lb_outbounds := lb_outbounds g; lb_outboundMap := lb_outboundMap g;
     lb_strategy := lb_strategy g; lb_rrCounter := counter; lb_stickyCache := sticky; lb_lastSelected := last |}.

Definition LoadBalanceGroup_Now (g : LoadBalanceGroup) : string :=
  match lb_lastSelected g, lb_outbounds g with
  | Some o, _ => ob_tag o
  | None, o :: _ => ob_tag o
  | None, [] => ""
  end.

Definition candidates (network : string) (w : World) (g : LoadBalanceGroup) : list Outbound :=
  let networkCandidates := filter (fun detour => supports network w detour = true) (lb_outbounds g) in
  match filter (fun detour => available w detour = true) networkCandidates with
  | [] => networkCandidates
  | available => available
  end.

Definition uint64 (z : Z) : Z := z mod 2 ^ 64.

(** [fnv1a64] *)
Definition offset64 : Z := 14695981039346656037.
Definition prime64 : Z := 1099511628211.

Fixpoint fnv1a64_loop (l : list ascii) (hash : Z) : Z :=
  match l with
  | [] => hash
  | c :: l => fnv1a64_loop l (uint64 (Z.lxor hash (byte_of c) * prime64))
  end.

Definition fnv1a64 (s : string) : Z := fnv1a64_loop (String.list_ascii_of_string s) offset64.

Definition score (key : string) (detour : Outbound) : Z := fnv1a64 (key +:+ "|" +:+ ob_tag detour).

Definition better (key : string) (best : option Outbound * Z) (detour : Outbound) : option Outbound * Z :=
  match best.1 with
  | None => (Some detour, score key detour)
  | Some _ => if best.2 <? score key detour then (Some detour, score key detour) else best
  end.

Definition rendezvousPick (key : string) (candidates : list Outbound) : option Outbound :=
  (fold_left (better key) candidates (None, 0)).1.

Definition destinationKey (destination : Socksaddr) : string :=
  let host := if IsFqdn destination then
                match EffectiveTLDPlusOne (sa_Fqdn destination) with
                | Ok base => base
                | _ => sa_Fqdn destination
                end
              else AddrString destination in
  host +:+ ":" +:+ go_itoa (sa_Port destination).

(** [source]: the source of the request, when the context carries one. *)
Definition stickyKey (source : option Socksaddr) (network : string) (destination : Socksaddr) : string :=
  let sourceKey := match source with
                   | Some s => if Socksaddr_IsValid s then AddrString s else ""
                   | None => ""
                   end in
  network +:+ "|" +:+ sourceKey +:+ "|" +:+ destinationKey destination.

Definition selectRoundRobin (l : list Outbound) (g : LoadBalanceGroup) : option Outbound * LoadBalanceGroup :=
  let counter := uint64 (lb_rrCounter g + 1) in
  (l !! Z.to_nat (uint64 (counter - 1) mod Z.of_nat (length l)),
   lb_with counter (lb_stickyCache g) (lb_lastSelected g) g).

Definition loadSticky (now : Z) (key : string) (l : list Outbound) (g : LoadBalanceGroup)
    : option Outbound * LoadBalanceGroup :=
  let forget := lb_with (lb_rrCounter g) (delete key (lb_stickyCache g)) (lb_lastSelected g) g in
  match lb_stickyCache g !! key with
  | None => (None, g)
  | Some entry =>
      if st_expire entry <? now then (None, forget)
      else
        match lb_outboundMap g !! st_tag entry with
        | None => (None, forget)
        | Some detour => (if bool_decide (detour ∈ l) then Some detour else None, g)
        end
  end.

Definition storeSticky (now : Z) (key : string) (detour : Outbound) (g : LoadBalanceGroup) : LoadBalanceGroup :=
  lb_with (lb_rrCounter g)
    (<[key := {| st_tag := ob_tag detour; st_expire := now + 10 * minute |}]> (lb_stickyCache g))
    (lb_lastSelected g) g.

Definition deleteSticky (key : string) (g : LoadBalanceGroup) : LoadBalanceGroup :=
  lb_with (lb_rrCounter g) (delete key (lb_stickyCache g)) (lb_lastSelected g) g.

(** [selectOutbound]; an outbound that is nil would be dialed, which panics. *)
Definition selectOutbound (now : Z) (source : option Socksaddr) (network : string) (destination : Socksaddr)
    (l : list Outbound) (g : LoadBalanceGroup) : res Outbound * LoadBalanceGroup :=
  let dialable (o : option Outbound) := match o with Some o => Ok o | None => Panic nil_pointer end in
  if bool_decide (lb_strategy g = LoadBalanceStrategyRoundRobin) then
    let '(o, g) := selectRoundRobin l g in (dialable o, g)
  else if bool_decide (lb_strategy g = LoadBalanceStrategyConsistentHashing) then
    (dialable (rendezvousPick (destinationKey destination) l), g)
  else if bool_decide (lb_strategy g = LoadBalanceStrategyStickySessions) then
    match loadSticky now (stickyKey source network destination) l g with
    | (Some cached, g) => (Ok cached, g)
    | (None, g) => (dialable (rendezvousPick (stickyKey source network destination) l), g)
    end
  else (Err (unknown_strategy (lb_strategy g)), g).

Record lb_dial : Type := {
  ld_result : res dialed;
  ld_world : World;
  ld_group : LoadBalanceGroup;
  ld_failed : list Outbound
}.

Definition add_failed (detour : Outbound) (r : lb_dial) : lb_dial :=
  {| ld_result := ld_result r; ld_world := ld_world r; ld_group := ld_group r; ld_failed := detour :: ld_failed r |}.

(** The loop of [DialContext] ([ListenPacket] is the same with the network
    "udp").  [clock] gives the time of each round.  [None]: out of fuel.  The
    check in the background begins with the first failure. *)
Fixpoint lb_loop (fuel : nat) (clock : nat -> Z) (source : option Socksaddr) (network : string)
    (destination : Socksaddr) (dial : nat -> Outbound -> error + nat) (between : nat -> World -> World)
    (i : nat) (excluded : list Outbound) (lastErr : option error) (w : World) (g : LoadBalanceGroup)
    : option lb_dial :=
  match fuel with
  | O => None
  | S fuel =>
      let l := filter (fun it => it ∉ excluded) (candidates network w g) in
      if (length l =? 0)%nat then
        Some {| ld_result := Ok (Failed (Some (default missing_supported_outbound lastErr)));
                ld_world := w; ld_group := g; ld_failed := [] |}
      else
        let '(selected, g) := selectOutbound (clock i) source network destination l g in
        match selected with
        | Err err => Some {| ld_result := Ok (Failed (Some err)); ld_world := w; ld_group := g; ld_failed := [] |}
        | Panic msg => Some {| ld_result := Panic msg; ld_world := w; ld_group := g; ld_failed := [] |}
        | Ok detour =>
            let w := between i w in
            let sticky := bool_decide (lb_strategy g = LoadBalanceStrategyStickySessions) in
            let key := stickyKey source network destination in
            match dial i detour with
            | inr conn =>
                let g := lb_with (lb_rrCounter g) (lb_stickyCache g) (Some detour) g in
                let g := if sticky then storeSticky (clock i) key detour g else g in
                Some {| ld_result := Ok (Connected detour conn); ld_world := w; ld_group := g; ld_failed := [] |}
            | inl err =>
                let w := on_history (DeleteURLTestHistory (RealTag w detour)) w in
                let g := if sticky then deleteSticky key g else g in
                add_failed detour <$>
                  lb_loop fuel clock source network destination dial between (S i) (detour :: excluded)
                    (Some err) w g
            end
        end
  end.

Definition LoadBalanceGroup_DialContext (clock : nat -> Z) (source : option Socksaddr) (network : string)
    (destination : Socksaddr) (dial : nat -> Outbound -> error + nat) (between : nat -> World -> World)
    (w : World) (g : LoadBalanceGroup) : option lb_dial :=
  lb_loop (S (length (lb_outbounds g))) clock source network destination dial between 0 [] None w g.

Definition LoadBalanceGroup_ListenPacket (clock : nat -> Z) (source : option Socksaddr)
    (destination : Socksaddr) (dial : nat -> Outbound -> error + nat) (between : nat -> World -> World)
    (w : World) (g : LoadBalanceGroup) : option lb_dial :=
  LoadBalanceGroup_DialContext clock source NetworkUDP destination dial between w g.

End groups.

(** ** The choice of URLTest *)

(** The delay of a detour, when it supports the network and has a history. *)
Definition delay_of (network : string) (w : World) (detour : Outbound) : option Z :=
  if supports network w detour then uh_Delay <$> load w (RealTag w detour) else None.

Lemma find_none_iff {A} (f : A -> bool) l : List.find f l = None <-> forall x, x ∈ l -> f x = false.
Proof.
  split.
  - intros Hf x Hx. apply (List.find_none _ _ Hf). by apply list_elem_of_In.
  - intros Hf. destruct (List.find f l) eqn:E; [|done].
    apply List.find_some in E as [Hin%list_elem_of_In Ht]. rewrite Hf in Ht by done. done.
Qed.

Lemma find_first {A} (f : A -> bool) l x :
  List.find f l = Some x <->
  exists before after, l = before ++ x :: after /\ f x = true /\ forall y, y ∈ before -> f y = false.
Proof.
  split.
  - induction l as [|y l IH]; simpl; [done|]. destruct (f y) eqn:E.
    + intros [= ->]. exists [], l. split_and!; [done..|set_solver].
    + intros (b & a & -> & Hx & Hb)%IH. exists (y :: b), a. split_and!; [done..|]. set_solver.
  - intros (b & a & -> & Hx & Hb). induction b as [|y b IH]; simpl; [by rewrite Hx|].
    rewrite Hb by set_solver. apply IH. set_solver.
Qed.

Section urltest_select.
Context (network : string) (tolerance : Z) (w : World).

Definition sound_delays (l : list Outbound) : Prop :=
  forall detour delay, detour ∈ l -> delay_of network w detour = Some delay ->
    0 < delay /\ delay + tolerance < 2 ^ 16.

(** What the loop has found: nothing before the first detour with a history,
    later one of them that no earlier one beats by more than the tolerance. *)
Definition found (seen : list Outbound) (start best : option Outbound * Z) : Prop :=
  match best.1 with
  | None => best.2 = 0 /\ start.1 = None /\ forall d, d ∈ seen -> delay_of network w d = None
  | Some o =>
      0 < best.2 /\ delay_of network w o = Some best.2 /\ (o ∈ seen \/ start = best) /\
      (forall d delay, d ∈ seen -> delay_of network w d = Some delay -> best.2 <= delay + tolerance) /\
      (forall s, start.1 = Some s -> start = best \/ best.2 + tolerance < start.2)
  end.

Lemma found_other seen start best d :
  delay_of network w d = None -> found seen start best -> found (seen ++ [d]) start best.
Proof.
  intros Hd Hf. unfold found in *. destruct best.1 as [o|].
  - destruct Hf as (Hp & Hdo & Hin & Hall & Hhys). split_and!; [done|done|set_solver| |done].
    intros x dx [Hx|Hx%list_elem_of_singleton]%elem_of_app Hdx; [by eapply Hall|congruence].
  - destruct Hf as (? & ? & Hno). split_and!; [done..|].
    intros x [Hx|Hx%list_elem_of_singleton]%elem_of_app; [by apply Hno|congruence].
Qed.

Lemma faster_found seen start best d :
  0 <= tolerance -> sound_delays [d] -> found seen start best ->
  found (seen ++ [d]) start (faster network tolerance w best d).
Proof.
  intros Htol Hs Hf. unfold faster, found in *.
  assert (Hd : forall x delay, x ∈ seen ++ [d] -> delay_of network w x = Some delay ->
            x ∈ seen \/ delay_of network w d = Some delay) by (intros x delay Hx; set_solver).
  destruct (delay_of network w d) as [delay|] eqn:Ed; unfold delay_of in Ed;
    destruct (supports network w d) eqn:Esup; simplify_eq.
  - destruct (load w (RealTag w d)) as [h|] eqn:El; [|done]. injection Ed as Ed.
    destruct (Hs d delay) as [Hpos Hover]; [set_solver|unfold delay_of; rewrite Esup, El; simpl; congruence|].
    unfold uint16_add. rewrite Ed, Z.mod_small by lia.
    assert (Hdd : delay_of network w d = Some delay)
      by (unfold delay_of; rewrite Esup, El; simpl; congruence).
    destruct ((best.2 =? 0) || (delay + tolerance <? best.2)) eqn:Eb; simpl.
    + split_and!; [done|done|left; set_solver| |].
      * intros x dx Hx Hdx. destruct (Hd x dx Hx Hdx) as [Hin|Heq]; [|simplify_eq; lia].
        destruct best.1 as [o|]; [|destruct Hf as (_ & _ & Hno); rewrite Hno in Hdx by done; done].
        destruct Hf as (Hp & _ & _ & Hall & _). specialize (Hall x dx Hin Hdx). lia.
      * intros s Hst. right. destruct best.1 as [o|]; [|naive_solver].
        destruct Hf as (Hp & _ & _ & _ & Hhys). destruct (Hhys s Hst) as [->|]; lia.
    + apply orb_false_elim in Eb as [Ez%Z.eqb_neq Elt%Z.ltb_ge].
      destruct best.1 as [o|]; [|by destruct Hf as [? _]].
      destruct Hf as (Hp & Hdo & Hin & Hall & Hhys). split_and!; [done|done|set_solver| |done].
      intros x dx Hx Hdx. destruct (Hd x dx Hx Hdx) as [?|?]; [by eapply Hall|simplify_eq; lia].
  - destruct (load w (RealTag w d)) as [h|] eqn:El; [done|].
    assert (Hdd : delay_of network w d = None) by (unfold delay_of; by rewrite Esup, El).
    by apply found_other.
  - assert (Hdd : delay_of network w d = None) by (unfold delay_of; by rewrite Esup).
    by apply found_other.
Qed.

Lemma fold_faster_found l seen start best :
  0 <= tolerance -> sound_delays l -> found seen start best ->
  found (seen ++ l) start (fold_left (faster network tolerance w) l best).
Proof.
  intros Htol. revert seen best; induction l as [|d l IH]; intros seen best Hs Hf; simpl.
  - by rewrite app_nil_r.
  - replace (seen ++ d :: l) with ((seen ++ [d]) ++ l) by (by rewrite <- app_assoc).
    apply IH; [intros x dx Hx; apply Hs; set_solver|].
    apply faster_found; [done| |done]. intros x dx Hx. apply Hs. set_solver.
Qed.
End urltest_select.

(** When delays are positive and
    do not overflow 16 bits with the tolerance, [Select] answers an outbound
    with a history when there is one: it supports the network, no available
    outbound is faster by more than the tolerance, and it differs from the
    current one only when it is faster than it by more than the tolerance.
    Without histories it answers the first outbound that supports the network,
    marked as not tested. *)
Theorem urltest_select_tolerance network w g :
  let outbounds := hc_outbounds (ug_life g) in
  let tolerance := ug_tolerance g in
  0 <= tolerance -> sound_delays network tolerance w outbounds ->
  (forall s, ug_selected network g = Some s -> s ∈ outbounds /\ supports network w s = true) ->
  match URLTestGroup_Select network w g with
  | (Some o, true) =>
      o ∈ outbounds /\ supports network w o = true /\
      exists delay, delay_of network w o = Some delay /\
        (forall d delay', d ∈ outbounds -> delay_of network w d = Some delay' -> delay <= delay' + tolerance) /\
        (forall s current, ug_selected network g = Some s -> delay_of network w s = Some current ->
           o = s \/ delay + tolerance < current)
  | (Some o, false) =>
      (forall d, d ∈ outbounds -> delay_of network w d = None) /\
      exists before after, outbounds = before ++ o :: after /\ supports network w o = true /\
        forall d, d ∈ before -> supports network w d = false
  | (None, tested) => tested = false /\ forall d, d ∈ outbounds -> supports network w d = false
  end.
Proof.
  intros outbounds tolerance Htol Hs Hsel. unfold URLTestGroup_Select. fold outbounds tolerance.
  set (start := starting_point network w g).
  assert (Hstart : match start.1 with
                   | Some s => ug_selected network g = Some s /\ delay_of network w s = Some start.2
                   | None => start.2 = 0 /\ forall s, ug_selected network g = Some s -> delay_of network w s = None
                   end).
  { unfold start, starting_point. destruct (ug_selected network g) as [s|]; [|naive_solver].
    destruct (Hsel s eq_refl) as [_ Hsup]. unfold delay_of.
    destruct (load w (RealTag w s)) as [h|] eqn:El; simpl; [by rewrite Hsup, El|].
    split; [done|]. intros s' [= <-]. by rewrite Hsup, El. }
  assert (Hf : found network tolerance w [] start start).
  { unfold found. destruct start.1 as [s|] eqn:Es; [|naive_solver set_solver].
    destruct Hstart as [Hs1 Hs2]. destruct (Hsel s Hs1) as [Hin _]. destruct (Hs s _ Hin Hs2).
    split_and!; [lia|done|by right|set_solver|by left]. }
  apply (fold_faster_found _ _ _ outbounds) in Hf; [|done..]. simpl in Hf.
  set (best := fold_left _ _ _) in *. unfold found in Hf. destruct best.1 as [o|] eqn:Eb.
  - destruct Hf as (_ & Hd & Hin & Hall & Hhys).
    assert (Ho : o ∈ outbounds).
    { destruct Hin as [?|Heq]; [done|]. rewrite Heq, Eb in Hstart. destruct Hstart as [Hs1 _].
      by destruct (Hsel o Hs1). }
    split_and!; [done| |].
    { unfold delay_of in Hd. by destruct (supports network w o). }
    exists best.2. split_and!; [done|by apply Hall|].
    intros s current Hcur Hdc. destruct start.1 as [s'|] eqn:Es.
    + destruct Hstart as [Hs1 Hs2]. rewrite Hcur in Hs1. injection Hs1 as <-.
      destruct (Hhys s eq_refl) as [Heq|Hlt]; [left|right; congruence].
      rewrite Heq, Eb in Es. congruence.
    + destruct Hstart as [_ Hno]. rewrite (Hno s Hcur) in Hdc. done.
  - destruct Hf as (_ & _ & Hno). destruct (List.find _ _) as [o|] eqn:Efind.
    + split; [done|]. by apply find_first.
    + split; [done|]. by apply find_none_iff.
Qed.

(** ** The dial of Fallback *)

Definition attempt_failed (dial : nat -> Outbound -> error + nat) (i : nat) (detour : Outbound) : Prop :=
  exists err, dial i detour = inl err.

(** Other goroutines may take histories away while a dial runs, but give none. *)
Definition only_forgets (between : nat -> World -> World) : Prop :=
  forall i w detour, available (between i w) detour = true -> available w detour = true.

Lemma available_forget w tag detour :
  available (on_history (DeleteURLTestHistory tag) w) detour = true -> available w detour = true.
Proof. unfold available. rewrite RealTag_on_history, load_delete. by case_decide. Qed.

Lemma available_forgotten w detour :
  available (on_history (DeleteURLTestHistory (RealTag w detour)) w) detour = false.
Proof. unfold available. rewrite RealTag_on_history, load_delete. by rewrite decide_True. Qed.

Lemma forgotten_stays between i w tag detour :
  only_forgets between -> available w detour = false ->
  available (on_history (DeleteURLTestHistory tag) (between i w)) detour = false.
Proof.
  intros Hb Hw. destruct (available (on_history _ _) detour) eqn:E; [|done].
  apply available_forget, Hb in E. congruence.
Qed.

Lemma try_outbounds_spec dial between i l lastErr w :
  let '(r, w', failed) := try_outbounds dial between i l lastErr w in
  (forall k x, failed !! k = Some x -> attempt_failed dial (i + k) x) /\
  match r with
  | Connected o conn => exists after, l = failed ++ o :: after /\ dial (i + length failed)%nat o = inr conn
  | Failed err => failed = l /\
      match last l with
      | Some x => exists e, err = Some e /\ dial (i + length l - 1)%nat x = inl e
      | None => err = lastErr
      end
  end.
Proof.
  revert i lastErr w; induction l as [|d l IH]; intros i lastErr w; simpl; [done|].
  destruct (dial i d) as [e|conn] eqn:Ed; [|split; [done|exists l; by rewrite Nat.add_0_r]].
  specialize (IH (S i) (Some e) (on_history (DeleteURLTestHistory (RealTag (between i w) d)) (between i w))).
  destruct (try_outbounds _ _ _ _ _ _) as [[r w'] failed]. destruct IH as [Hf Hr]. split.
  - intros [|k] x; simpl; [intros [= <-]; exists e; by rewrite Nat.add_0_r|].
    intros Hk. specialize (Hf k x Hk). by replace (i + S k)%nat with (S i + k)%nat by lia.
  - destruct r as [o conn|err].
    + destruct Hr as (after & -> & Hd). exists after. split; [done|].
      simpl. by replace (i + S (length failed))%nat with (S i + length failed)%nat by lia.
    + destruct Hr as [-> Hr]. split; [done|]. rewrite last_cons. destruct (last l) as [x|] eqn:El.
      * destruct Hr as (e' & -> & Hd). exists e'. split; [done|].
        by replace (i + S (length l) - 1)%nat with (S i + length l - 1)%nat by lia.
      * exists e. split; [done|]. apply last_None in El as ->. simpl.
        by replace (i + 1 - 1)%nat with i by lia.
Qed.

Lemma try_outbounds_forgets dial between i l lastErr w seen :
  only_forgets between -> (forall d, d ∈ seen -> available w d = false) ->
  let '(_, w', failed) := try_outbounds dial between i l lastErr w in
  forall d, d ∈ seen ++ failed -> (forall i w, between i w = w) -> available w' d = false.
Proof.
  intros Hb. revert i lastErr w seen; induction l as [|d l IH]; intros i lastErr w seen Hs; simpl.
  { intros d. rewrite app_nil_r. auto. }
  destruct (dial i d) as [e|conn] eqn:Ed.
  - specialize (IH (S i) (Some e) (on_history (DeleteURLTestHistory (RealTag (between i w) d)) (between i w))
                  (seen ++ [d])).
    destruct (try_outbounds _ _ _ _ _ _) as [[r w'] failed]. intros x Hx Hid. apply IH; [|set_solver|done].
    intros y [Hy|Hy%list_elem_of_singleton]%elem_of_app; [by apply forgotten_stays, Hs|].
    subst. apply available_forgotten.
  - intros x. rewrite app_nil_r. intros Hx Hid. rewrite Hid. by apply Hs.
Qed.

Lemma tryList_permutation network w outbounds :
  tryList network w outbounds ≡ₚ filter (fun d => supports network w d = true) outbounds.
Proof.
  unfold tryList. induction (filter (fun d => supports network w d = true) outbounds) as [|d l IH]; [done|].
  rewrite !filter_cons. destruct (decide (available w d = true)) as [Ha|Ha].
  - rewrite decide_False by (intros Hn; by apply Hn). simpl. by rewrite IH.
  - rewrite decide_True by done. rewrite <- Permutation_middle. by rewrite IH.
Qed.

Lemma storeSelected_interrupts `{GroupLib} network o g :
  fg_interruptGroup (storeSelected network o g) =
  let previous := if decide (NetworkName network = NetworkTCP) then fg_selectedTCP g
                  else if decide (NetworkName network = NetworkUDP) then fg_selectedUDP g else None in
  if match previous with Some p => bool_decide (p <> o) | None => false end
  then Interrupt (fg_interruptExternal g) (fg_interruptGroup g) else fg_interruptGroup g.
Proof.
  unfold storeSelected, swap_interrupts. simpl.
  case_bool_decide as H1; [by rewrite decide_True by done|]. rewrite (decide_False _ _) by done.
  case_bool_decide as H2; [by rewrite decide_True by done|by rewrite decide_False by done].
Qed.

(** A dial of a fallback group tries every outbound that
    supports the network, the available ones first and each part in the order
    of the configuration, until one answers.  The connection it returns is of
    the first outbound that answers; that outbound becomes the selected one of
    the network, the connections of another one selected before are
    interrupted, and the new connection is not.  The dial fails only when no
    outbound supports the network or all of them failed, with the error of the
    last one.  Outbounds that failed lose their history. *)
Theorem fallback_dial_spec `{GroupLib} network dial between isExternal w g :
  let supporting := filter (fun d => supports network w d = true) (fg_outbounds g) in
  let '(r, w', failed, g') := FallbackGroup_DialContext network dial between isExternal w g in
  (forall k x, failed !! k = Some x -> attempt_failed dial k x) /\
  ((forall i w, between i w = w) -> forall d, d ∈ failed -> available w' d = false) /\
  exists front back,
    front = filter (fun d => available w d = true) supporting /\
    back = filter (fun d => available w d <> true) supporting /\
    front ++ back ≡ₚ supporting /\
    match r with
    | Connected o conn =>
        (exists after, front ++ back = failed ++ o :: after) /\
        dial (length failed) o = inr conn /\
        ((NetworkName network = NetworkTCP /\ fg_selectedTCP g' = Some o /\ fg_selectedUDP g' = fg_selectedUDP g) \/
         (NetworkName network = NetworkUDP /\ fg_selectedUDP g' = Some o /\ fg_selectedTCP g' = fg_selectedTCP g) \/
         (NetworkName network ∉ [NetworkTCP; NetworkUDP] /\ fg_selectedTCP g' = fg_selectedTCP g /\
          fg_selectedUDP g' = fg_selectedUDP g)) /\
        (let previous := if decide (NetworkName network = NetworkTCP) then fg_selectedTCP g
                         else if decide (NetworkName network = NetworkUDP) then fg_selectedUDP g else None in
         let changed := match previous with Some p => bool_decide (p <> o) | None => false end in
         let before := if changed then Interrupt (fg_interruptExternal g) (fg_interruptGroup g)
                       else fg_interruptGroup g in
         ig_closed (fg_interruptGroup g') = ig_closed before /\
         ig_connections (fg_interruptGroup g') =
           ig_connections before ++ [(ig_next before, {| gc_conn := conn; gc_external := isExternal |})])
    | Failed err =>
        g' = g /\ failed = front ++ back /\
        ((supporting = [] /\ err = Some missing_supported_outbound) \/
         exists o e, last failed = Some o /\ dial (length failed - 1)%nat o = inl e /\ err = Some e)
    end.
Proof.
  intros supporting. unfold FallbackGroup_DialContext. fold supporting.
  pose proof (tryList_permutation network w (fg_outbounds g)) as Hperm. fold supporting in Hperm.
  pose proof (try_outbounds_spec dial between 0 (tryList network w (fg_outbounds g)) None w) as Hspec.
  destruct (decide (supporting = [])) as [Hnil|Hne].
  { rewrite Hnil. split_and!; [done|set_solver|]. exists [], []. split_and!; [done..|]. by left. }
  assert (Hm : forall A (a b : A), match supporting with [] => a | _ => b end = b) by (by destruct supporting).
  rewrite Hm. clear Hm.
  pose proof (try_outbounds_forgets dial between 0 (tryList network w (fg_outbounds g)) None w []) as Hfg.
  destruct (try_outbounds dial between 0 _ None w) as [[r w'] failed]. destruct Hspec as [Hfailed Hr].
  assert (Hav : (forall i w, between i w = w) -> forall d, d ∈ failed -> available w' d = false).
  { intros Hid d Hd. apply Hfg; [|set_solver|done|done]. intros i w0 d0. by rewrite Hid. }
  destruct r as [o conn|err]; simpl; (split_and!; [done|done|]);
    exists (filter (fun d => available w d = true) supporting),
      (filter (fun d => available w d <> true) supporting); (split_and!; [done|done|done|..]).
  - by destruct Hr as (after & Hl & Hd); exists after.
  - by destruct Hr as (after & Hl & Hd).
  - unfold storeSelected. case_bool_decide as H1; [by left|].
    case_bool_decide as H2; [by right; left|]. right. right. set_solver.
  - by rewrite storeSelected_interrupts.
  - by rewrite storeSelected_interrupts.
  - done.
  - by destruct Hr.
  - right. destruct Hr as [-> Hr]. destruct (last _) as [o|] eqn:El.
    + destruct Hr as (e & -> & Hd). by exists o, e.
    + apply last_None in El. rewrite El in Hperm. by apply Permutation_nil_l in Hperm.
Qed.

(** ** The choices of load balance *)

(** What an operation of a group never changes. *)
Definition same_group (g g' : LoadBalanceGroup) : Prop :=
  lb_outbounds g' = lb_outbounds g /\ lb_strategy g' = lb_strategy g /\ lb_outboundMap g' = lb_outboundMap g.

#[global] Instance same_group_preorder : PreOrder same_group.
Proof. split; [done|]. intros g1 g2 g3 (? & ? & ?) (? & ? & ?). split_and!; congruence. Qed.

(** The best candidate of a fold that keeps the first maximum of a score. *)
Definition first_best (score : Outbound -> Z) (l : list Outbound) (o : Outbound) : Prop :=
  exists before after, l = before ++ o :: after /\
    (forall d, d ∈ before -> score d < score o) /\ (forall d, d ∈ after -> score d <= score o).

Lemma better_first_best key l o :
  (fold_left (better key) l (Some o, score key o)).1 = Some o /\ (forall d, d ∈ l -> score key d <= score key o) \/
  exists o', first_best (score key) l o' /\ score key o < score key o' /\
    (fold_left (better key) l (Some o, score key o)).1 = Some o'.
Proof.
  revert o; induction l as [|d l IH]; intros o; [left; split; [done|set_solver]|]. simpl.
  unfold better at 2 4. simpl. destruct (Z.ltb_spec (score key o) (score key d)) as [Hlt|Hge].
  - right. destruct (IH d) as [[-> Hall]|(o' & (b & a & -> & Hb & Ha) & Hlt' & ->)].
    + exists d. split_and!; [|done|done]. exists [], l. split_and!; [done|set_solver|done].
    + exists o'. split_and!; [|lia|done]. exists (d :: b), a. split_and!; [done| |done].
      intros x [->|Hx]%elem_of_cons; [done|by apply Hb].
  - destruct (IH o) as [[-> Hall]|(o' & (b & a & -> & Hb & Ha) & Hlt' & ->)]; [left|right].
    + split; [done|]. intros x [->|Hx]%elem_of_cons; [done|by apply Hall].
    + exists o'. split_and!; [|done|done]. exists (d :: b), a. split_and!; [done| |done].
      intros x [->|Hx]%elem_of_cons; [lia|by apply Hb].
Qed.

Lemma rendezvousPick_spec key l o : rendezvousPick key l = Some o <-> first_best (score key) l o.
Proof.
  unfold rendezvousPick. destruct l as [|d l].
  { simpl. split; [done|]. intros ([|? ?] & ? & [=] & _). }
  assert (Hsome : exists o', (fold_left (better key) (d :: l) (None, 0)).1 = Some o' /\ first_best (score key) (d :: l) o').
  { simpl. unfold better at 2. simpl.
    destruct (better_first_best key l d) as [[-> Hall]|(o' & (b & a & -> & Hb & Ha) & Hlt & ->)].
    - exists d. split; [done|]. exists [], l. split_and!; [done|set_solver|done].
    - exists o'. split; [done|]. exists (d :: b), a. split_and!; [done| |done].
      intros x [->|Hx]%elem_of_cons; [done|by apply Hb]. }
  destruct Hsome as (o' & -> & Hbest). split; [by intros [= ->]|].
  intros Ho. f_equal. destruct Hbest as (b & a & Hl & Hb & Ha), Ho as (b' & a' & Hl' & Hb' & Ha').
  rewrite Hl in Hl'. clear Hl. revert b' Hl' Hb'. induction b as [|x b IH]; intros [|y b'] Hl' Hb'; simplify_eq/=.
  - done.
  - exfalso. assert (score key y < score key o) by (apply Hb'; set_solver).
    assert (score key o <= score key y) by (apply Ha; set_solver). lia.
  - exfalso. assert (score key o < score key o') by (apply Hb; set_solver).
    assert (score key o' <= score key o) by (apply Ha'; set_solver). lia.
  - apply (IH ltac:(set_solver) b'); [done|set_solver].
Qed.

Lemma rendezvousPick_some key l : l <> [] -> exists o, rendezvousPick key l = Some o /\ o ∈ l.
Proof.
  intros Hl. destruct (rendezvousPick key l) as [o|] eqn:E.
  - exists o. split; [done|]. apply rendezvousPick_spec in E as (b & a & -> & _). set_solver.
  - exfalso. destruct l as [|d l]; [done|]. unfold rendezvousPick in E. simpl in E.
    unfold better at 2 in E. simpl in E.
    destruct (better_first_best key l d) as [[Hd _]|(o' & _ & _ & Ho)]; congruence.
Qed.

(** Taking away a candidate that
    was not picked changes nothing, and adding one changes the pick only to the
    new one; the pick is the first candidate with the highest score. *)
Theorem rendezvous_stable key l1 l2 x o :
  (rendezvousPick key (l1 ++ x :: l2) = Some o -> o <> x -> rendezvousPick key (l1 ++ l2) = Some o) /\
  (rendezvousPick key (l1 ++ l2) = Some o ->
   rendezvousPick key (l1 ++ x :: l2) = Some o \/ rendezvousPick key (l1 ++ x :: l2) = Some x).
Proof.
  assert (Hremove : forall o, rendezvousPick key (l1 ++ x :: l2) = Some o -> o <> x ->
            rendezvousPick key (l1 ++ l2) = Some o).
  { intros o' Ho Hne. apply rendezvousPick_spec in Ho as (b & a & Hl & Hb & Ha). apply rendezvousPick_spec.
    revert b Hl Hb. induction l1 as [|y l IH]; intros [|z b] Hl Hb; simplify_eq/=.
    - exists b, a. split_and!; [done|set_solver|done].
    - exists [], (l ++ l2). split_and!; [done|set_solver|]. intros d Hd. apply Ha. set_solver.
    - destruct (IH b) as (b' & a' & Hl' & Hb' & Ha'); [done|set_solver|].
      exists (z :: b'), a'. split_and!; [simpl; congruence| |done].
      intros d [->|Hd]%elem_of_cons; [apply Hb; set_solver|by apply Hb']. }
  split; [by apply Hremove|]. intros Ho.
  destruct (rendezvousPick_some key (l1 ++ x :: l2)) as (o' & Ho' & _); [by destruct l1|].
  destruct (decide (o' = x)) as [->|Hne]; [by right|left].
  rewrite (Hremove o' Ho' Hne) in Ho. congruence.
Qed.

(** [n] selections in a row. *)
Fixpoint round_robins (n : nat) (l : list Outbound) (g : LoadBalanceGroup) : list (option Outbound) :=
  match n with
  | O => []
  | S n => let '(o, g) := selectRoundRobin l g in o :: round_robins n l g
  end.

Lemma selectRoundRobin_value l g :
  0 <= lb_rrCounter g < 2 ^ 64 ->
  selectRoundRobin l g =
    (l !! Z.to_nat (lb_rrCounter g mod Z.of_nat (length l)),
     lb_with (uint64 (lb_rrCounter g + 1)) (lb_stickyCache g) (lb_lastSelected g) g).
Proof.
  intros Hc. unfold selectRoundRobin. f_equal. f_equal. f_equal.
  unfold uint64. rewrite Zminus_mod_idemp_l. by rewrite (Z.mod_small _ (2 ^ 64)), Z.add_simpl_r by lia.
Qed.

Lemma round_robins_value n l g :
  0 <= lb_rrCounter g -> lb_rrCounter g + Z.of_nat n <= 2 ^ 64 ->
  round_robins n l g =
    (fun k => l !! Z.to_nat ((lb_rrCounter g + Z.of_nat k) mod Z.of_nat (length l))) <$> seq 0 n.
Proof.
  revert g; induction n as [|n IH]; intros g Hc Hn; [done|].
  cbn [round_robins]. rewrite selectRoundRobin_value by lia. rewrite <- cons_seq, fmap_cons.
  f_equal; [by rewrite Z.add_0_r|]. destruct n as [|n']; [done|].
  rewrite IH; simpl lb_rrCounter; unfold uint64; rewrite (Z.mod_small (_ + 1)) by lia; [|lia..].
  rewrite <- fmap_S_seq, <- list_fmap_compose. apply list_fmap_ext. intros k y _. simpl. do 3 f_equal. lia.
Qed.

Definition rotate_from (c : Z) (l : list Outbound) : list Outbound :=
  let r := Z.to_nat (c mod Z.of_nat (length l)) in drop r l ++ take r l.

Lemma one_rotation c (l : list Outbound) :
  l <> [] -> 0 <= c ->
  (fun k => l !! Z.to_nat ((c + Z.of_nat k) mod Z.of_nat (length l))) <$> seq 0 (length l) =
  Some <$> rotate_from c l.
Proof.
  intros Hl Hc. unfold rotate_from. set (n := length l).
  assert (Hn : 0 < Z.of_nat n) by (destruct l; [done|simpl in n; lia]).
  pose proof (Z.mod_pos_bound c _ Hn) as Hr. set (r := Z.to_nat (c mod Z.of_nat n)).
  apply list_eq_same_length with n; [rewrite length_fmap, length_app, length_drop, length_take; lia| |].
  { by rewrite length_fmap, length_seq. }
  intros i x y Hi. rewrite !list_lookup_fmap, lookup_seq_lt by done. simpl.
  intros [= <-] Hy. destruct ((drop r l ++ take r l) !! i) as [z|] eqn:Ez; [|done].
  injection Hy as <-. rewrite <- Ez. rewrite <- Zplus_mod_idemp_l.
  replace (c mod Z.of_nat n + Z.of_nat i) with (Z.of_nat (r + i)) by lia.
  destruct (decide (i < n - r)%nat) as [Hlt|Hge].
  - rewrite lookup_app_l by (rewrite length_drop; fold n; lia). rewrite lookup_drop.
    rewrite Z.mod_small by lia. by rewrite Nat2Z.id.
  - rewrite lookup_app_r by (rewrite length_drop; fold n; lia). rewrite length_drop. fold n.
    rewrite lookup_take_lt by lia.
    replace (Z.of_nat (r + i)) with (Z.of_nat (i - (n - r)) + 1 * Z.of_nat n) by lia.
    rewrite Z_mod_plus_full, Z.mod_small by lia. by rewrite Nat2Z.id.
Qed.

Lemma seq_rotations c k (l : list Outbound) :
  l <> [] -> 0 <= c ->
  (fun k => l !! Z.to_nat ((c + Z.of_nat k) mod Z.of_nat (length l))) <$> seq 0 (k * length l) =
  concat (repeat (Some <$> rotate_from c l) k).
Proof.
  intros Hl Hc. induction k as [|k IH]; [done|].
  simpl. rewrite seq_app, fmap_app, one_rotation by done. f_equal. rewrite <- IH. simpl.
  replace (seq (length l) (k * length l)) with (Nat.add (length l) <$> seq 0 (k * length l))
    by (rewrite fmap_add_seq; f_equal; lia).
  rewrite <- list_fmap_compose.
  apply list_fmap_ext. intros i x _. simpl. do 2 f_equal.
  rewrite Nat2Z.inj_add.
  replace (c + (Z.of_nat (length l) + Z.of_nat x)) with (c + Z.of_nat x + 1 * Z.of_nat (length l)) by lia.
  by rewrite Z_mod_plus_full.
Qed.

(** Until its 64-bit counter wraps, any
    [k] times [length l] selections in a row from the candidates [l] go [k]
    times through all of them in their order, starting where the counter is:
    every candidate gets its turn in every round. *)
Theorem round_robin_fair k l g :
  l <> [] -> 0 <= lb_rrCounter g -> lb_rrCounter g + Z.of_nat (k * length l) <= 2 ^ 64 ->
  exists r, (r < length l)%nat /\
    round_robins (k * length l) l g = concat (repeat (Some <$> (drop r l ++ take r l)) k).
Proof.
  intros Hl Hc Hw. exists (Z.to_nat (lb_rrCounter g mod Z.of_nat (length l))). split.
  - assert (0 < Z.of_nat (length l)) by (destruct l; simpl; [done|lia]).
    pose proof (Z.mod_pos_bound (lb_rrCounter g) (Z.of_nat (length l))). lia.
  - rewrite round_robins_value by done. by apply seq_rotations.
Qed.

(** ** The dial of load balance *)

Definition known_strategy (strategy : string) : Prop :=
  strategy ∈ [LoadBalanceStrategyRoundRobin; LoadBalanceStrategyConsistentHashing; LoadBalanceStrategyStickySessions].

Section load_balance.
Context `{GroupLib} `{External}.

Lemma candidates_supporting network w g d :
  d ∈ candidates network w g -> d ∈ lb_outbounds g /\ supports network w d = true.
Proof.
  unfold candidates. case_match eqn:E; rewrite ?list_elem_of_filter; [tauto|].
  rewrite <- E, !list_elem_of_filter. tauto.
Qed.

Lemma selectOutbound_ok now source network destination l g :
  known_strategy (lb_strategy g) -> l <> [] ->
  exists d g', selectOutbound now source network destination l g = (Ok d, g') /\ d ∈ l /\ same_group g g'.
Proof.
  intros Hk Hl. unfold selectOutbound.
  destruct (bool_decide (lb_strategy g = LoadBalanceStrategyRoundRobin)) eqn:E1.
  { unfold selectRoundRobin. assert (0 < Z.of_nat (length l)) by (destruct l; simpl; [done|lia]).
    match goal with |- context [l !! ?i] => destruct (l !! i) as [d|] eqn:Ed end.
    - do 2 eexists. split; [done|]. split; [by eapply list_elem_of_lookup_2|done].
    - apply lookup_ge_None in Ed.
      match type of Ed with context [?c mod Z.of_nat (length l)] => pose proof (Z.mod_pos_bound c (Z.of_nat (length l))) end.
      lia. }
  destruct (bool_decide (lb_strategy g = LoadBalanceStrategyConsistentHashing)) eqn:E2.
  { destruct (rendezvousPick_some (destinationKey destination) l Hl) as (d & -> & Hd). by exists d, g. }
  rewrite bool_decide_true.
  2:{ apply bool_decide_eq_false in E1, E2. unfold known_strategy in Hk. set_solver. }
  unfold loadSticky.
  destruct (rendezvousPick_some (stickyKey source network destination) l Hl) as (d & Hp & Hd).
  destruct (lb_stickyCache g !! _) as [entry|]; [|rewrite Hp; by exists d, g].
  destruct (st_expire entry <? now); [rewrite Hp; eexists d, _; by split_and!|].
  destruct (lb_outboundMap g !! _) as [detour|]; [|rewrite Hp; eexists d, _; by split_and!].
  destruct (bool_decide_reflect (detour ∈ l)); [by exists detour, g|rewrite Hp; by exists d, g].
Qed.

Lemma exclude_shorter (l excluded : list Outbound) d :
  d ∈ l -> d ∉ excluded ->
  (length (filter (fun x => x ∉ d :: excluded) l) < length (filter (fun x => x ∉ excluded) l))%nat.
Proof.
  intros Hd He. induction l as [|x l IH]; [set_solver|].
  assert (Hle : (length (filter (fun x => x ∉ d :: excluded) l) <= length (filter (fun x => x ∉ excluded) l))%nat).
  { clear -H. induction l as [|y l IHl]; [done|]. rewrite !filter_cons.
    repeat case_decide; simpl; try lia. set_solver. }
  rewrite !filter_cons. destruct (decide (x = d)) as [->|Hne].
  - rewrite decide_False by set_solver. rewrite decide_True by done. simpl. lia.
  - assert (d ∈ l) by set_solver. specialize (IH ltac:(done)).
    repeat case_decide; simpl; try lia; set_solver.
Qed.

(** The world after the attempts of the failed outbounds. *)
Fixpoint after_failures (between : nat -> World -> World) (i : nat) (w : World) (failed : list Outbound) : World :=
  match failed with
  | [] => w
  | d :: failed =>
      after_failures between (S i) (on_history (DeleteURLTestHistory (RealTag (between i w) d)) (between i w)) failed
  end.

(** What one run of the loop may do, from its state at the beginning. *)
Definition lb_loop_spec (clock : nat -> Z) (key : string) (network : string) (dial : nat -> Outbound -> error + nat)
    (between : nat -> World -> World) (i : nat) (excluded : list Outbound) (lastErr : option error)
    (w : World) (g : LoadBalanceGroup) (r : lb_dial) : Prop :=
  same_group g (ld_group r) /\ NoDup (ld_failed r) /\
  (forall k x, ld_failed r !! k = Some x -> attempt_failed dial (i + k) x) /\
  (forall k x, ld_failed r !! k = Some x ->
     supports network (after_failures between i w (take k (ld_failed r))) x = true) /\
  (forall x, x ∈ ld_failed r -> x ∈ lb_outbounds g /\ x ∉ excluded) /\
  match ld_result r with
  | Ok (Connected o conn) =>
      dial (i + length (ld_failed r))%nat o = inr conn /\ o ∈ lb_outbounds g /\
      supports network (after_failures between i w (ld_failed r)) o = true /\
      o ∉ excluded ++ ld_failed r /\ lb_lastSelected (ld_group r) = Some o /\
      (lb_strategy g = LoadBalanceStrategyStickySessions ->
       lb_stickyCache (ld_group r) !! key =
         Some {| st_tag := ob_tag o; st_expire := clock (i + length (ld_failed r))%nat + 10 * minute |})
  | Ok (Failed err) =>
      match last (ld_failed r) with
      | Some x => exists e, err = Some e /\ dial (i + length (ld_failed r) - 1)%nat x = inl e
      | None => err = Some (default missing_supported_outbound lastErr)
      end /\
      (only_forgets between -> (forall d, d ∈ excluded -> available w d = false) ->
       forall d, d ∈ lb_outbounds g ->
         supports network (after_failures between i w (ld_failed r)) d = true -> d ∈ excluded ++ ld_failed r)
  | _ => False
  end.

Lemma no_candidates network w g (excluded : list Outbound) :
  filter (fun it => it ∉ excluded) (candidates network w g) = [] ->
  (forall d, d ∈ excluded -> available w d = false) ->
  forall d, d ∈ lb_outbounds g -> supports network w d = true -> d ∈ excluded.
Proof.
  intros Hnil Hav d Hd Hs.
  assert (Hall : forall x, x ∈ candidates network w g -> x ∈ excluded).
  { intros x Hx. destruct (decide (x ∈ excluded)); [done|].
    assert (x ∈ filter (fun it => it ∉ excluded) (candidates network w g)) as Hin
      by (by apply list_elem_of_filter). rewrite Hnil in Hin. set_solver. }
  apply Hall. unfold candidates in *. case_match eqn:E.
  - by apply list_elem_of_filter.
  - exfalso. assert (Ho : o ∈ filter (fun detour => available w detour = true)
                       (filter (fun detour => supports network w detour = true) (lb_outbounds g)))
      by (rewrite E; apply list_elem_of_here).
    apply list_elem_of_filter in Ho as [Ho _].
    rewrite Hav in Ho; [done|]. apply Hall. apply list_elem_of_here.
Qed.

(** A round that fails adds its outbound to what the rest of the loop does. *)
Lemma lb_loop_spec_failed clock key network dial between i excluded lastErr w g g2 d err r :
  d ∈ lb_outbounds g -> supports network w d = true -> d ∉ excluded -> dial i d = inl err -> same_group g g2 ->
  lb_loop_spec clock key network dial between (S i) (d :: excluded) (Some err)
    (on_history (DeleteURLTestHistory (RealTag (between i w) d)) (between i w)) g2 r ->
  lb_loop_spec clock key network dial between i excluded lastErr w g (add_failed d r).
Proof.
  intros Hin Hsup Hex Edial Hg2 (Hsame & Hnd & Hf & Hsup' & Hin' & Hr). pose proof Hg2 as (Ho2 & Hs2 & _).
  assert (Hshift : forall k, (S i + k = i + S k)%nat) by lia.
  unfold lb_loop_spec. simpl. split_and!.
  - by etrans.
  - constructor; [|done]. intros Hd'. destruct (Hin' d Hd') as (_ & Hn). set_solver.
  - intros [|k] x; simpl; [intros [= <-]; exists err; by rewrite Nat.add_0_r|].
    intros Hk'. rewrite <- Hshift. by apply (Hf k x).
  - intros [|k] x; simpl; [by intros [= <-]|]. intros Hk'. by apply Hsup'.
  - intros x [->|Hx]%elem_of_cons; [done|]. destruct (Hin' x Hx) as (? & ?). rewrite <- Ho2.
    split; [done|set_solver].
  - destruct (ld_result r) as [[o conn|e]|e|msg]; try done.
    + rewrite <- Ho2, <- Hs2, <- Hshift. destruct Hr as (? & ? & ? & ? & ? & ?). split_and!; try done. set_solver.
    + destruct Hr as [Herr Htried]. split.
      * rewrite last_cons. destruct (last (ld_failed r)) as [x|] eqn:El.
        -- destruct Herr as (e' & -> & He'). exists e'. split; [done|]. by rewrite <- Hshift.
        -- exists err. split; [done|]. apply last_None in El as ->. simpl.
           by replace (i + 1 - 1)%nat with i by lia.
      * intros Hb Hav x Hx Hs. rewrite <- Ho2 in Hx.
        assert (x ∈ (d :: excluded) ++ ld_failed r); [|set_solver]. apply Htried; [done| |done|done].
        intros y [->|Hy]%elem_of_cons; [apply available_forgotten|by apply forgotten_stays, Hav].
Qed.

Lemma lb_loop_ok fuel clock source network destination dial between i excluded lastErr w g :
  known_strategy (lb_strategy g) ->
  (length (filter (fun x => x ∉ excluded) (lb_outbounds g)) < fuel)%nat ->
  exists r, lb_loop fuel clock source network destination dial between i excluded lastErr w g = Some r /\
    lb_loop_spec clock (stickyKey source network destination) network dial between i excluded lastErr w g r.
Proof.
  revert i excluded lastErr w g.
  induction fuel as [|fuel IH]; intros i excluded lastErr w g Hk Hfuel; [lia|].
  cbn [lb_loop]. set (l := filter (fun it => it ∉ excluded) (candidates network w g)).
  destruct (Nat.eqb_spec (length l) 0) as [Hl%nil_length_inv|Hl].
  { eexists. split; [done|]. unfold lb_loop_spec. simpl. split_and!; try done; [constructor|set_solver|].
    intros _ Hav d Hd Hs. rewrite app_nil_r. by eapply no_candidates. }
  destruct (selectOutbound_ok (clock i) source network destination l g Hk) as (d & g1 & -> & Hd & Hg1);
    [by intros ->|].
  apply list_elem_of_filter in Hd as [Hex Hc]. destruct (candidates_supporting _ _ _ _ Hc) as [Hin Hsup].
  destruct (dial i d) as [err|conn] eqn:Edial.
  - set (w1 := on_history (DeleteURLTestHistory (RealTag (between i w) d)) (between i w)).
    set (g2 := if bool_decide (lb_strategy g1 = LoadBalanceStrategyStickySessions) then _ else g1).
    assert (Hg2 : same_group g g2).
    { etrans; [exact Hg1|]. unfold g2. by destruct (bool_decide _). }
    pose proof Hg2 as (Ho2 & Hs2 & _).
    destruct (IH (S i) (d :: excluded) (Some err) w1 g2) as (r & -> & Hr).
    { by rewrite Hs2. }
    { rewrite Ho2. pose proof (exclude_shorter (lb_outbounds g) excluded d Hin Hex). lia. }
    exists (add_failed d r). split; [done|]. by eapply lb_loop_spec_failed.
  - eexists. split; [done|]. pose proof Hg1 as (Ho1 & Hs1 & _). unfold lb_loop_spec. simpl.
    split_and!; try done; [|constructor|set_solver|by rewrite Nat.add_0_r|by rewrite app_nil_r|..].
    + etrans; [exact Hg1|]. by destruct (bool_decide _).
    + by destruct (bool_decide _).
    + intros Hst. rewrite bool_decide_true by congruence. simpl. rewrite lookup_insert_eq.
      by rewrite Nat.add_0_r.
Qed.
End load_balance.

(** C31 (a dial of load balance returns): a dial of a load balance group always returns, whatever
    other goroutines do to the history and to nested groups: it tries each
    outbound at most once, only outbounds that support the network when they
    are tried, and returns the connection of the first that answers, which
    becomes the last selected.  It fails with the error of the last outbound it
    tried, or because there was none to try; and when no history appears while
    it runs, it fails only after every outbound that then supports the network
    has been tried. *)
Theorem load_balance_dial_returns `{GroupLib} `{External} clock source network destination dial between w g :
  known_strategy (lb_strategy g) ->
  exists r, LoadBalanceGroup_DialContext clock source network destination dial between w g = Some r /\
  NoDup (ld_failed r) /\
  (forall k x, ld_failed r !! k = Some x ->
     attempt_failed dial k x /\ x ∈ lb_outbounds g /\
     supports network (after_failures between 0 w (take k (ld_failed r))) x = true) /\
  match ld_result r with
  | Ok (Connected o conn) =>
      dial (length (ld_failed r)) o = inr conn /\ o ∈ lb_outbounds g /\
      supports network (after_failures between 0 w (ld_failed r)) o = true /\
      o ∉ ld_failed r /\ lb_lastSelected (ld_group r) = Some o
  | Ok (Failed err) =>
      match last (ld_failed r) with
      | Some x => exists e, err = Some e /\ dial (length (ld_failed r) - 1)%nat x = inl e
      | None => err = Some missing_supported_outbound
      end /\
      (only_forgets between ->
       forall d, d ∈ lb_outbounds g ->
         supports network (after_failures between 0 w (ld_failed r)) d = true -> d ∈ ld_failed r)
  | _ => False
  end.
Proof.
  intros Hk. unfold LoadBalanceGroup_DialContext.
  destruct (lb_loop_ok (S (length (lb_outbounds g))) clock source network destination dial between 0 [] None w g Hk)
    as (r & Hr & _ & Hnd & Hf & Hsup & Hin & Hres).
  { pose proof (length_filter (fun x => x ∉ @nil Outbound) (lb_outbounds g)). lia. }
  exists r. split_and!; [done|done| |].
  - intros k x Hk'. destruct (Hin x) as (? & _); [by eapply list_elem_of_lookup_2|].
    split_and!; [by apply (Hf k)|done|by apply Hsup].
  - destruct (ld_result r) as [[o conn|e]|e|msg]; try done.
    + by destruct Hres as (? & ? & ? & ? & ? & _).
    + destruct Hres as [He Ht]. split; [done|].
      intros Hb d Hd Hs. apply (Ht Hb); [set_solver|done|done].
Qed.

(** Sessions stick.  After a dial with the sticky strategy, for
    ten minutes, the same source asking for the same site and port is given the
    outbound that answered, as long as it is among the candidates. *)
Theorem sticky_sessions_stick `{GroupLib} `{External} clock source network destination dial between w g
    r o conn now source' destination' w' :
  lb_strategy g = LoadBalanceStrategyStickySessions ->
  (forall d, d ∈ lb_outbounds g -> lb_outboundMap g !! ob_tag d = Some d) ->
  LoadBalanceGroup_DialContext clock source network destination dial between w g = Some r ->
  ld_result r = Ok (Connected o conn) ->
  stickyKey source' network destination' = stickyKey source network destination ->
  now <= clock (length (ld_failed r)) + 10 * minute ->
  o ∈ candidates network w' (ld_group r) ->
  selectOutbound now source' network destination' (candidates network w' (ld_group r)) (ld_group r) =
    (Ok o, ld_group r).
Proof.
  intros Hst Hmap Hdial Hr Hkey Hnow Hcand. unfold LoadBalanceGroup_DialContext in Hdial.
  destruct (lb_loop_ok (S (length (lb_outbounds g))) clock source network destination dial between 0 [] None w g)
    as (r' & Hr' & (Ho & Hs & Hm) & _ & _ & _ & _ & Hres).
  { rewrite Hst. unfold known_strategy. set_solver. }
  { pose proof (length_filter (fun x => x ∉ @nil Outbound) (lb_outbounds g)). lia. }
  rewrite Hdial in Hr'. injection Hr' as <-. rewrite Hr in Hres.
  destruct Hres as (_ & Hin & _ & _ & _ & Hcache). specialize (Hcache Hst). simpl in Hcache.
  unfold selectOutbound. rewrite Hs, Hst. rewrite !bool_decide_false by done. rewrite bool_decide_true by done.
  unfold loadSticky. rewrite Hkey, Hcache. simpl.
  destruct (Z.ltb_spec (clock (length (ld_failed r)) + 10 * minute) now); [lia|].
  rewrite Hm, Hmap by done. by rewrite bool_decide_true.
Qed.

(** ** The selector *)

(** A sequence of selections with a cache file that can be written. *)
Fixpoint selections (tags : list string) (cacheFile : option (gmap string string)) (s : Selector)
    : option (gmap string string) * Selector :=
  match tags with
  | [] => (cacheFile, s)
  | tag :: tags =>
      let '(_, cacheFile, s) := Selector_SelectOutbound true tag cacheFile s in selections tags cacheFile s
  end.

(** The outbound a start selects, given those it found. *)
Definition chosen (file : gmap string string) (s : Selector) : option Outbound :=
  match (if bool_decide (LoadSelected file (sl_tag s) <> "") then sl_outbounds s !! LoadSelected file (sl_tag s)
         else None) with
  | Some detour => Some detour
  | None => if bool_decide (sl_defaultTag s <> "") then sl_outbounds s !! sl_defaultTag s
            else hd_error (sl_tags s) ≫= fun tag => sl_outbounds s !! tag
  end.

Lemma Selector_Start_chosen manager file s s' :
  sl_tag s <> "" -> Selector_Start manager (Some file) s = (Ok tt, s') ->
  exists outbounds, selector_outbounds manager 0 (sl_tags s) (sl_outbounds s) = (Ok tt, outbounds) /\
    s' = sl_with outbounds (chosen file (sl_with outbounds (sl_selected s) (sl_interruptGroup s) s))
           (sl_interruptGroup s) s.
Proof.
  intros Htag. unfold Selector_Start. destruct (selector_outbounds _ _ _ _) as [[[]| |] outbounds]; [|done..].
  simpl. intros Hs. exists outbounds. split; [done|]. unfold chosen. simpl.
  rewrite (bool_decide_true (sl_tag s <> "")) in Hs by done. simpl in Hs.
  destruct (if bool_decide (LoadSelected file (sl_tag s) <> "") then _ else None); [by injection Hs as <-|].
  destruct (bool_decide (sl_defaultTag s <> "")).
  - destruct (outbounds !! sl_defaultTag s); [by injection Hs as <-|done].
  - destruct (sl_tags s) as [|tag tags]; [done|]. simpl. by injection Hs as <-.
Qed.

Lemma selections_chosen tags file s :
  sl_tag s <> "" -> (forall tag d, sl_outbounds s !! tag = Some d -> tag <> "") ->
  sl_selected s = chosen file s ->
  exists file', (selections tags (Some file) s).1 = Some file' /\
    let s' := (selections tags (Some file) s).2 in
    sl_selected s' = chosen file' s' /\ sl_outbounds s' = sl_outbounds s /\ sl_tag s' = sl_tag s /\
    sl_tags s' = sl_tags s /\ sl_defaultTag s' = sl_defaultTag s /\
    (is_Some (sl_selected s) -> is_Some (sl_selected s')).
Proof.
  intros Htag Hne. revert file s Htag Hne. induction tags as [|tag tags IH]; intros file s Htag Hne Hsel; simpl.
  { by exists file. }
  unfold Selector_SelectOutbound. destruct (sl_outbounds s !! tag) as [d|] eqn:Ed; [|by apply IH].
  case_bool_decide as Hd; [by apply IH|]. rewrite (bool_decide_true (sl_tag s <> "")) by done. simpl.
  set (s1 := sl_with (sl_outbounds s) (Some d) (Interrupt (sl_interruptExternal s) (sl_interruptGroup s)) s).
  destruct (IH (<[sl_tag s := tag]> file) s1) as (file' & ? & ? & ? & ? & ? & ? & Hsome); [done|done| |].
  2:{ exists file'. split_and!; try done. intros _. by apply Hsome; exists d. }
  unfold chosen, LoadSelected. simpl. rewrite lookup_insert_eq. simpl.
  rewrite bool_decide_true by (by eapply Hne). by rewrite Ed.
Qed.

Lemma selector_outbounds_tags manager i tags m m' tag d :
  selector_outbounds manager i tags m = (Ok tt, m') -> m' !! tag = Some d -> tag ∈ tags \/ m !! tag = Some d.
Proof.
  revert i m; induction tags as [|t tags IH]; intros i m; simpl; [intros [= ->]; by right|].
  destruct (manager t) as [o|]; [|done]. intros Hs Hm.
  destruct (IH _ _ Hs Hm) as [?|Hi]; [set_solver|].
  destruct (decide (t = tag)) as [->|]; [set_solver|]. rewrite lookup_insert_ne in Hi by done. by right.
Qed.

Lemma selector_outbounds_found manager i tags m m' tag :
  selector_outbounds manager i tags m = (Ok tt, m') -> tag ∈ tags \/ is_Some (m !! tag) -> is_Some (m' !! tag).
Proof.
  revert i m; induction tags as [|t tags IH]; intros i m; simpl; [intros [= ->]; set_solver|].
  destruct (manager t) as [o|]; [|done]. intros Hs Hin. apply (IH _ _ Hs).
  destruct (decide (t = tag)) as [->|]; [right; rewrite lookup_insert_eq; by exists o|].
  rewrite lookup_insert_ne by done. set_solver.
Qed.

(** A start succeeds when there is an outbound to choose, and there is one when it succeeded. *)
Lemma Selector_Start_some manager file s outbounds d :
  sl_tag s <> "" -> selector_outbounds manager 0 (sl_tags s) (sl_outbounds s) = (Ok tt, outbounds) ->
  chosen file (sl_with outbounds (sl_selected s) (sl_interruptGroup s) s) = Some d ->
  Selector_Start manager (Some file) s =
    (Ok tt, sl_with outbounds (Some d) (sl_interruptGroup s) s).
Proof.
  intros Htag Hout. unfold chosen, Selector_Start. rewrite Hout. simpl.
  rewrite (bool_decide_true (sl_tag s <> "")) by done. simpl.
  destruct (if bool_decide (LoadSelected file (sl_tag s) <> "") then _ else None); [by intros [= ->]|].
  destruct (bool_decide (sl_defaultTag s <> "")); [by intros ->|].
  destruct (sl_tags s) as [|tag tags]; simpl; [done|by intros ->].
Qed.

Lemma Selector_Start_selected manager file s s' :
  sl_tag s <> "" -> Selector_Start manager (Some file) s = (Ok tt, s') -> is_Some (sl_selected s').
Proof.
  intros Htag Hs. destruct (Selector_Start_chosen _ _ _ _ Htag Hs) as (outbounds & Hout & ->).
  unfold Selector_Start in Hs. rewrite Hout in Hs. unfold chosen. simpl in *.
  rewrite (bool_decide_true (sl_tag s <> "")) in Hs by done. simpl in Hs.
  destruct (if bool_decide (LoadSelected file (sl_tag s) <> "") then _ else None); [done|].
  destruct (bool_decide (sl_defaultTag s <> "")); [by destruct (outbounds !! sl_defaultTag s)|].
  destruct (sl_tags s) as [|tag tags]; [done|]. simpl.
  eapply selector_outbounds_found; [exact Hout|set_solver].
Qed.

(** C34 (a selector remembers): when a selector with a tag was started
    with a cache file, then after any selections, starting it anew with the
    cache file they left selects the outbound that was selected last. *)
Theorem selector_remembers manager file s0 s tags :
  sl_tag s0 <> "" -> "" ∉ sl_tags s0 -> sl_outbounds s0 = ∅ ->
  Selector_Start manager (Some file) s0 = (Ok tt, s) ->
  let '(file', s') := selections tags (Some file) s in
  exists s'', Selector_Start manager file' s0 = (Ok tt, s'') /\
    sl_selected s'' = sl_selected s' /\ Selector_Now s'' = Selector_Now s'.
Proof.
  intros Htag Hempty Hnone Hs. pose proof (Selector_Start_selected _ _ _ _ Htag Hs) as Hsome.
  destruct (Selector_Start_chosen _ _ _ _ Htag Hs) as (outbounds & Hout & ->).
  set (s := sl_with _ _ _ _) in *.
  destruct (selections_chosen tags file s) as (file' & Hf & Hsel & Ho & Ht & Hts & Hd & Hkeep); [done| |done|].
  { intros tag d Htd Heq. subst tag. simpl in Htd.
    destruct (selector_outbounds_tags _ _ _ _ _ _ _ Hout Htd) as [?|Hm]; [done|].
    by rewrite Hnone in Hm. }
  destruct (selections tags (Some file) s) as [c s']. simpl in *. subst c.
  destruct (Hkeep Hsome) as [d Hsd]. eexists. split.
  - apply Selector_Start_some; [done|exact Hout|]. rewrite Hsel in Hsd. rewrite <- Hsd.
    unfold chosen. simpl. by rewrite Ho, Ht, Hts, Hd.
  - unfold Selector_Now. simpl. by rewrite Hsd.
Qed.

(** ** What URLTest may have selected *)

Lemma URLTestGroup_Select_in network w g o tested :
  URLTestGroup_Select network w g = (Some o, tested) ->
  (o ∈ hc_outbounds (ug_life g) /\ supports network w o = true) \/ ug_selected network g = Some o.
Proof.
  unfold URLTestGroup_Select.
  assert (Hfold : forall l best, (forall x, best.1 = Some x ->
      (x ∈ hc_outbounds (ug_life g) /\ supports network w x = true) \/ ug_selected network g = Some x) ->
      (forall x, x ∈ l -> x ∈ hc_outbounds (ug_life g)) ->
      forall x, (fold_left (faster network (ug_tolerance g) w) l best).1 = Some x ->
        (x ∈ hc_outbounds (ug_life g) /\ supports network w x = true) \/ ug_selected network g = Some x).
  { induction l as [|d l IH]; intros best Hb Hl x; simpl; [apply Hb|]. apply IH; [|set_solver].
    unfold faster. intros y. destruct (supports network w d) eqn:Es; [|apply Hb].
    destruct (load w (RealTag w d)); [|apply Hb]. destruct (_ || _); [|apply Hb].
    intros [= <-]. left. split; [set_solver|done]. }
  destruct (fold_left _ _ _).1 as [best|] eqn:E.
  - intros [= -> _]. eapply Hfold; [| |exact E]; [|done].
    unfold starting_point. destruct (ug_selected network g) as [s|]; [|done].
    destruct (load w (RealTag w s)); [|done]. intros x [= <-]. by right.
  - destruct (List.find _ _) as [d|] eqn:Ef; [|done]. intros [= -> _]. left.
    apply List.find_some in Ef as [Hin%list_elem_of_In Hs]. done.
Qed.

(** A check leaves each selection as it was, or selects one of the outbounds
    that supports the network in the world of the check. *)
Definition selects_from (w : World) (g g' : URLTestGroup) : Prop :=
  forall network o, ug_selected network g' = Some o ->
    ug_selected network g = Some o \/ (o ∈ hc_outbounds (ug_life g) /\ supports network w o = true).

Lemma update_selected_from network w g selected o :
  ug_selected network g = selected ->
  (update_selected (URLTestGroup_Select network w g) selected).1 = Some o ->
  selected = Some o \/ (o ∈ hc_outbounds (ug_life g) /\ supports network w o = true).
Proof.
  intros Hsel. unfold update_selected.
  destruct (URLTestGroup_Select network w g) as [[x|] tested] eqn:E; simpl; [|by left].
  pose proof (URLTestGroup_Select_in _ _ _ _ _ E) as Hx. rewrite Hsel in Hx.
  assert (Hfrom : x = o -> selected = Some o \/ (o ∈ hc_outbounds (ug_life g) /\ supports network w o = true))
    by (intros <-; tauto).
  destruct selected as [p|]; simpl; [|intros [= ?]; by apply Hfrom].
  destruct (_ && _); simpl; [intros [= ?]; by apply Hfrom|by left].
Qed.

Lemma performUpdateCheck_from w g :
  selects_from w g (URLTestGroup_performUpdateCheck w g) /\
  ug_life (URLTestGroup_performUpdateCheck w g) = ug_life g.
Proof.
  unfold URLTestGroup_performUpdateCheck.
  pose proof (update_selected_from NetworkTCP w g (ug_selectedTCP g)) as Htcp.
  destruct (update_selected _ (ug_selectedTCP g)) as [tcp updatedTCP]. simpl in Htcp.
  set (g1 := ug_with _ _ _ _ _).
  pose proof (update_selected_from NetworkUDP w g1 (ug_selectedUDP g1)) as Hudp.
  destruct (update_selected _ (ug_selectedUDP g1)) as [udp updatedUDP]. simpl in Hudp.
  split; [|done]. intros network o. unfold ug_selected. simpl.
  case_bool_decide as H1; [subst; by apply Htcp|].
  case_bool_decide as H2; [subst; by apply Hudp|done].
Qed.

Lemma urlTest_from force now loaded schedule test ends during g w r w' g' :
  URLTestGroup_urlTest force now loaded schedule test ends during g w = (r, w', g') ->
  selects_from w' g g' /\ ug_life g' = ug_life g.
Proof.
  unfold URLTestGroup_urlTest. destruct (hc_checking _).
  - intros [= <- <- <-]. split; [|done]. intros network o Ho. by left.
  - destruct (url_tests _ _ _ _ _ _ _ _ _ _ _) as [result w1]. intros [= <- <- <-].
    apply performUpdateCheck_from.
Qed.

(** The life cycle keeps the outbounds. *)
Lemma hc_keeps_outbounds e h h' check :
  hc_step e h = Some (Ok (h', check)) -> hc_outbounds h' = hc_outbounds h.
Proof.
  destruct e; simpl; unfold PostStart, Touch, Close, loop_enter, loop_closed, loop_tick, loop_stop;
    repeat case_match; by intros [= <-].
Qed.

(** Steps that are not checks change neither the outbounds nor the selections. *)
Definition same_selections (g g' : URLTestGroup) : Prop :=
  hc_outbounds (ug_life g') = hc_outbounds (ug_life g) /\
  forall network, ug_selected network g' = ug_selected network g.

#[local] Instance same_selections_preorder : PreOrder same_selections.
Proof.
  split; [done|]. intros g1 g2 g3 [H1 H2] [H3 H4].
  split; [by rewrite H3|]. intros network. by rewrite H4.
Qed.

Lemma urltest_dial_same dial isExternal outbound w g :
  same_selections g (urltest_dial dial isExternal outbound w g).2.
Proof. unfold urltest_dial. by repeat case_match. Qed.

Lemma urltest_touch_same now g g' check :
  URLTestGroup_Touch now g = Ok (g', check) -> same_selections g g'.
Proof.
  unfold URLTestGroup_Touch, URLTestGroup_life.
  intros ([h c] & Ht & [= <- _])%res_bind_ok. split; [|done].
  apply (hc_keeps_outbounds (EvTouch now) _ _ c). by simpl; rewrite Ht.
Qed.

#[local] Instance group_Ok_inj {A} : Inj eq eq (@Ok A).
Proof. by intros x y [= ->]. Qed.

(** What happens to a group: its life cycle, checks and dials, in any worlds.
    The trace lists the checks, the last one first: the world in which it
    selected and the group it left. *)
Inductive urltest_run `{GroupLib} : list (World * URLTestGroup) -> URLTestGroup -> Prop :=
  | run_new fromCtx clash outbounds link interval tolerance idleTimeout interruptExternal g history :
      NewURLTestGroup fromCtx clash outbounds link interval tolerance idleTimeout interruptExternal = Ok (g, history) ->
      urltest_run [] g
  | run_life trace e g h check :
      urltest_run trace g -> hc_step e (ug_life g) = Some (Ok (h, check)) ->
      urltest_run trace (ug_with h (ug_selectedTCP g) (ug_selectedUDP g) (ug_interruptGroup g) g)
  | run_check trace force now loaded schedule test ends during w g r w' g' :
      urltest_run trace g -> URLTestGroup_urlTest force now loaded schedule test ends during g w = (r, w', g') ->
      urltest_run ((w', g') :: trace) g'
  | run_dial trace now network dial isExternal w g r w' g' :
      urltest_run trace g -> URLTest_DialContext now network dial isExternal w g = Ok (r, w', g') ->
      urltest_run trace g'
  | run_listen trace now dial isExternal w g r w' g' :
      urltest_run trace g -> URLTest_ListenPacket now dial isExternal w g = Ok (r, w', g') ->
      urltest_run trace g'.

Definition selected_after (trace : list (World * URLTestGroup)) (network : string) : option Outbound :=
  match trace with (_, g) :: _ => ug_selected network g | [] => None end.

(** The check that selected [o]: it supported the network then, was not
    selected before, and stayed selected in every check since. *)
Definition selected_by_check (trace : list (World * URLTestGroup)) (network : string) (o : Outbound) : Prop :=
  exists later w g0 earlier, trace = later ++ (w, g0) :: earlier /\
    supports network w o = true /\ selected_after earlier network <> Some o /\
    forall w' g', (w', g') ∈ later ++ [(w, g0)] -> ug_selected network g' = Some o.

Definition run_ok (trace : list (World * URLTestGroup)) (g : URLTestGroup) : Prop :=
  forall network, ug_selected network g = selected_after trace network /\
    forall o, ug_selected network g = Some o ->
      o ∈ hc_outbounds (ug_life g) /\ selected_by_check trace network o.

Lemma run_ok_same trace g g' : same_selections g g' -> run_ok trace g -> run_ok trace g'.
Proof. intros [Ho Hs] Hok network. rewrite Ho, Hs. apply Hok. Qed.

Lemma run_ok_check trace w g g' :
  selects_from w g g' -> ug_life g' = ug_life g -> run_ok trace g -> run_ok ((w, g') :: trace) g'.
Proof.
  intros Hfrom Hlife Hok network. split; [done|]. intros o Ho. rewrite Hlife.
  destruct (Hok network) as [Htrace Hsel].
  destruct (decide (ug_selected network g = Some o)) as [Hg|Hg].
  - destruct (Hsel o Hg) as (Hin & later & w0 & g0 & earlier & -> & Hsup & Hbefore & Hstays).
    split; [done|]. exists ((w, g') :: later), w0, g0, earlier. split_and!; [done..|].
    intros w' g'' [[= -> ->]|Hx]%elem_of_cons; [done|by eapply Hstays].
  - destruct (Hfrom network o Ho) as [?|[Hin Hsup]]; [done|]. split; [done|].
    exists [], w, g', trace. split_and!; [done|done|by rewrite <- Htrace|].
    intros w' g'' [= -> ->]%list_elem_of_singleton. done.
Qed.

Lemma urltest_run_ok `{GroupLib} trace g : urltest_run trace g -> run_ok trace g.
Proof.
  induction 1 as
    [fromCtx clash outbounds link interval tolerance idleTimeout ie g history Hnew
    |trace e g h check _ IH Hstep|trace force now loaded schedule test ends during w g r w' g' _ IH Hcheck
    |trace now network dial ie w g r w' g' _ IH Hd|trace now dial ie w g r w' g' _ IH Hd].
  - unfold NewURLTestGroup in Hnew. apply res_bind_ok in Hnew as ([life h] & _ & [= <- _]).
    intros network. unfold ug_selected. simpl. by repeat case_bool_decide.
  - eapply run_ok_same; [|exact IH]. split; [by eapply hc_keeps_outbounds|done].
  - destruct (urlTest_from _ _ _ _ _ _ _ _ _ _ _ _ Hcheck). by apply (run_ok_check trace w' g).
  - unfold URLTest_DialContext in Hd. apply res_bind_ok in Hd as ([g1 c] & Ht & Hd).
    eapply run_ok_same; [|exact IH]. etrans; [by eapply urltest_touch_same|].
    repeat case_bool_decide; [..|by injection Hd as _ _ <-].
    all: apply (inj Ok) in Hd; apply (f_equal snd) in Hd; simpl in Hd; rewrite <- Hd; apply urltest_dial_same.
  - unfold URLTest_ListenPacket in Hd. apply res_bind_ok in Hd as ([g1 c] & Ht & Hd).
    eapply run_ok_same; [|exact IH]. etrans; [by eapply urltest_touch_same|].
    apply (inj Ok) in Hd. apply (f_equal snd) in Hd. simpl in Hd. rewrite <- Hd. apply urltest_dial_same.
Qed.

(** C32 (an outbound is selected for a network it supports): whatever happens
    to a URLTest group, an outbound it has selected for TCP or UDP is one of
    its outbounds and was selected by a check in which it supported that
    network; it stayed selected in every check since.  (A nested selector that
    has been switched since need not support the network any more.) *)
Theorem urltest_selection_supported `{GroupLib} trace g network o :
  urltest_run trace g -> ug_selected network g = Some o ->
  o ∈ hc_outbounds (ug_life g) /\
  exists later w g0 earlier, trace = later ++ (w, g0) :: earlier /\
    supports network w o = true /\ selected_after earlier network <> Some o /\
    forall w' g', (w', g') ∈ later ++ [(w, g0)] -> ug_selected network g' = Some o.
Proof. intros Hrun. by apply urltest_run_ok. Qed.

(** ** A concrete instance, witnesses *)

Definition concrete_groups : GroupLib := {|
  NetworkName s := if strings_HasPrefix s "tcp" then "tcp" else if strings_HasPrefix s "udp" then "udp" else s;
  ErrUnknownNetwork := ErrNew "unknown network";
  EffectiveTLDPlusOne s := if strings_HasSuffix s ".example.com" then Ok "example.com" else Err (ErrNew "no suffix")
|}.

#[local] Existing Instance concrete_groups.
#[local] Existing Instance concrete_external.

Definition three : list Outbound := [ob 1 "a"; ob 2 "b"; ob 3 "c"].

Definition urltest_of (outbounds : list Outbound) (selected : option Outbound) : URLTestGroup :=
  match NewURLTestGroup None None outbounds "" 0 0 0 false with
  | Ok (g, _) => ug_with (ug_life g) selected selected (ug_interruptGroup g) g
  | _ => ug_with sample_checker None None NewGroup
           {| ug_life := sample_checker; ug_tolerance := 0; ug_selectedTCP := None; ug_selectedUDP := None;
              ug_interruptGroup := NewGroup; ug_interruptExternal := false |}
  end.

Definition three_delays : World := sample_world [("a", hist 0 130); ("b", hist 0 100); ("c", hist 0 60)].

Lemma urltest_select_tolerance_witness :
  URLTestGroup_Select NetworkTCP three_delays (urltest_of three (Some (ob 1 "a"))) = (Some (ob 3 "c"), true) /\
  (forall d delay', d ∈ three -> delay_of NetworkTCP three_delays d = Some delay' -> 60 <= delay' + 50).
Proof.
  pose proof (urltest_select_tolerance NetworkTCP three_delays (urltest_of three (Some (ob 1 "a")))) as H.
  assert (Hs : sound_delays NetworkTCP 50 three_delays three).
  { intros d delay Hd. unfold three in Hd. rewrite !elem_of_cons, elem_of_nil in Hd.
    destruct Hd as [->|[->|[->|[]]]]; intros Hd; vm_compute in Hd; injection Hd as <-; split; reflexivity. }
  assert (Hin : forall s, Some (ob 1 "a") = Some s -> s ∈ three /\ supports NetworkTCP three_delays s = true).
  { intros s [= <-]. split; [apply list_elem_of_here|reflexivity]. }
  specialize (H ltac:(by vm_compute) Hs Hin).
  assert (E : URLTestGroup_Select NetworkTCP three_delays (urltest_of three (Some (ob 1 "a"))) =
            (Some (ob 3 "c"), true)) by (by vm_compute).
  split; [exact E|]. rewrite E in H. destruct H as (_ & _ & delay & Hd & Hall & _).
  assert (delay = 60) as -> by (vm_compute in Hd; by injection Hd).
  exact Hall.
Defined.

Lemma urltest_selection_supported_witness :
  let '(_, w, g) := URLTestGroup_urlTest true 0 (fun _ => true) (fun jobs => jobs) sample_test (fun _ => 0)
                      (fun w => w) (urltest_of three None) (sample_world []) in
  ug_selected NetworkTCP g = Some (ob 1 "a") /\ ob 1 "a" ∈ hc_outbounds (ug_life g) /\
  exists later w0 g0 earlier, [(w, g)] = later ++ (w0, g0) :: earlier /\
    supports NetworkTCP w0 (ob 1 "a") = true /\ selected_after earlier NetworkTCP <> Some (ob 1 "a") /\
    forall w' g', (w', g') ∈ later ++ [(w0, g0)] -> ug_selected NetworkTCP g' = Some (ob 1 "a").
Proof.
  destruct (URLTestGroup_urlTest _ _ _ _ _ _ _ _ _) as [[r w] g] eqn:Ec.
  assert (E : ug_selected NetworkTCP g = Some (ob 1 "a")).
  { apply (f_equal (fun x => ug_selected NetworkTCP x.2)) in Ec. cbn [snd] in Ec. rewrite <- Ec. by vm_compute. }
  split; [exact E|]. apply (urltest_selection_supported [(w, g)] g NetworkTCP); [|exact E].
  eapply run_check; [|exact Ec]. eapply (run_new None None three "" 0 0 0 false). reflexivity.
Defined.

Definition balance (strategy : string) : LoadBalanceGroup :=
  match NewLoadBalanceGroup None None three "" 0 0 0 strategy with
  | Ok (g, _) => g
  | _ => {| lb_checker := sample_checker; lb_outbounds := []; lb_outboundMap := ∅; lb_strategy := "";
            lb_rrCounter := 0; lb_stickyCache := ∅; lb_lastSelected := None |}
  end.

(** The first attempt fails, the others give connection 7. *)
Definition second_answers (i : nat) (o : Outbound) : error + nat :=
  if (i =? 0)%nat then inl (ErrNew "refused") else inr 7%nat.

Definition site (host : string) : Socksaddr := {| sa_Addr := AddrInvalid; sa_Port := 443; sa_Fqdn := host |}.

Definition balance_dial (strategy : string) (between : nat -> World -> World) (w : World) : option lb_dial :=
  LoadBalanceGroup_DialContext (fun _ => 0) (Some (site "client")) NetworkTCP (site "www.example.com")
    second_answers between w (balance strategy).

Lemma load_balance_dial_returns_witness :
  exists r, balance_dial "round-robin" (fun _ w => w) (sample_world []) = Some r /\
    ld_result r = Ok (Connected (ob 3 "c") 7) /\ ob 3 "c" ∉ ld_failed r.
Proof.
  assert (E : ld_result <$> balance_dial "round-robin" (fun _ w => w) (sample_world []) =
            Some (Ok (Connected (ob 3 "c") 7))) by (vm_compute; reflexivity).
  destruct (load_balance_dial_returns (fun _ => 0) (Some (site "client")) NetworkTCP (site "www.example.com")
              second_answers (fun _ w => w) (sample_world []) (balance "round-robin"))
    as (r & Hr & _ & _ & Hres).
  { vm_compute. apply list_elem_of_here. }
  exists r. split; [exact Hr|]. unfold balance_dial in E. rewrite Hr in E. injection E as E.
  split; [exact E|]. rewrite E in Hres. by destruct Hres as (_ & _ & _ & ? & _).
Defined.

Lemma round_robin_fair_witness :
  exists r, (r < 3)%nat /\
    round_robins (2 * 3) three (balance "round-robin") =
      concat (repeat (Some <$> (drop r three ++ take r three)) 2).
Proof. apply (round_robin_fair 2 three (balance "round-robin")); vm_compute; congruence. Defined.

Definition sticky_outbound : Outbound := ob 2 "b".

Lemma sticky_sessions_stick_witness :
  exists r, balance_dial "sticky-sessions" (fun _ w => w) (sample_world []) = Some r /\
    ld_result r = Ok (Connected sticky_outbound 7) /\
    selectOutbound (9 * minute) (Some (site "client")) NetworkTCP (site "api.example.com")
      (candidates NetworkTCP (sample_world []) (ld_group r)) (ld_group r) = (Ok sticky_outbound, ld_group r).
Proof.
  assert (E : (fun r => (ld_result r, length (ld_failed r),
                 bool_decide (sticky_outbound ∈ candidates NetworkTCP (sample_world []) (ld_group r)))) <$>
              balance_dial "sticky-sessions" (fun _ w => w) (sample_world []) =
            Some (Ok (Connected sticky_outbound 7), 1%nat, true)) by (vm_compute; reflexivity).
  destruct (balance_dial "sticky-sessions" (fun _ w => w) (sample_world [])) as [r|] eqn:Er; [|discriminate E].
  injection E as Hres Hlen Hin. exists r. split; [reflexivity|]. split; [exact Hres|].
  apply (sticky_sessions_stick (fun _ => 0) (Some (site "client")) NetworkTCP (site "www.example.com")
           second_answers (fun _ w => w) (sample_world []) (balance "sticky-sessions") r sticky_outbound 7%nat);
    [reflexivity| |exact Er|exact Hres|vm_compute; reflexivity|vm_compute; discriminate|].
  - intros d Hd. assert (Hd' : d ∈ three) by exact Hd. unfold three in Hd'.
    rewrite !elem_of_cons, elem_of_nil in Hd'.
    destruct Hd' as [Heq|[Heq|[Heq|[]]]]; rewrite Heq; vm_compute; reflexivity.
  - apply bool_decide_eq_true in Hin. exact Hin.
Defined.

Definition select_from (tags : list string) : Selector :=
  match NewSelector "sel" tags "a" false with
  | Ok s => s
  | _ => {| sl_tag := ""; sl_tags := []; sl_defaultTag := ""; sl_outbounds := ∅; sl_selected := None;
            sl_interruptGroup := NewGroup; sl_interruptExternal := false |}
  end.

Definition outbound_table (tag : string) : option Outbound := List.find (fun o => bool_decide (ob_tag o = tag)) three.

Lemma selector_remembers_witness :
  let s0 := select_from ["a"; "b"; "c"] in
  match Selector_Start outbound_table (Some ∅) s0 with
  | (Ok _, s) =>
      let '(file', s') := selections ["c"; "x"; "b"] (Some ∅) s in
      sl_selected s' = Some (ob 2 "b") /\
      exists s'', Selector_Start outbound_table file' s0 = (Ok tt, s'') /\
        sl_selected s'' = sl_selected s' /\ Selector_Now s'' = Selector_Now s'
  | _ => False
  end.
Proof.
  intros s0. destruct (Selector_Start outbound_table (Some ∅) s0) as [r s] eqn:E.
  assert (r = Ok tt) as -> by (vm_compute in E; by injection E as <- _).
  pose proof (selector_remembers outbound_table ∅ s0 s ["c"; "x"; "b"]) as H.
  specialize (H ltac:(done) ltac:(by apply (bool_decide_eq_false ("" ∈ ["a"; "b"; "c"])); vm_compute)
                eq_refl E).
  assert (Es : sl_selected (selections ["c"; "x"; "b"] (Some ∅) s).2 = Some (ob 2 "b"))
    by (vm_compute in E; injection E as <-; by vm_compute).
  destruct (selections _ _ s) as [file' s']. split; [exact Es|exact H].
Defined.

(** ** Behaviours worth knowing *)

(** The sum of a delay and the tolerance wraps at 16 bits: an outbound a minute
    away beats one of a tenth of a second. *)
Example tolerance_overflow :
  URLTestGroup_Select NetworkTCP (sample_world [("a", hist 0 100); ("b", hist 0 65500)])
    (urltest_of [ob 1 "a"; ob 2 "b"] None) = (Some (ob 2 "b"), true).
Proof. by vm_compute. Qed.

(** A delay of zero means "none yet" to [Select]: the fastest outbound loses. *)
Example zero_delay_loses :
  URLTestGroup_Select NetworkTCP (sample_world [("a", hist 0 0); ("b", hist 0 400)])
    (urltest_of [ob 1 "a"; ob 2 "b"] None) = (Some (ob 2 "b"), true).
Proof. by vm_compute. Qed.

(** A failed dial of URLTest forgets the history of the tag of the outbound,
    not of the tag it stands for: a nested group stays available. *)
Example nested_group_stays_available :
  match URLTest_DialContext 0 NetworkTCP (fun _ => inl (ErrNew "refused")) false
          (sample_world [("b", hist 0 20)]) (urltest_of [ob 9 "g"] (Some (ob 9 "g"))) with
  | Ok (r, w, _) => r = Failed (Some (ErrNew "refused")) /\ available w (ob 9 "g") = true
  | _ => False
  end.
Proof. by vm_compute. Qed.

(** The outbound a fallback group retries is different: its real tag is forgotten. *)
Example nested_group_forgotten_by_fallback :
  let '(_, w, _) := try_outbounds (fun _ _ => inl (ErrNew "refused")) (fun _ w => w) 0 [ob 9 "g"] None
                      (sample_world [("b", hist 0 20)]) in
  available w (ob 9 "g") = false.
Proof. by vm_compute. Qed.

(** The check that begins with the first failure may find the failed outbound
    available again while the second attempt runs; the group then gives up
    without trying the third. *)
Definition recheck_finds (tag : string) (i : nat) (w : World) : World :=
  if (i =? 1)%nat then on_history (StoreURLTestHistory tag (hist 0 10)) w else w.

Example recheck_makes_dial_give_up :
  match LoadBalanceGroup_DialContext (fun _ => 0) None NetworkTCP (site "www.example.com")
          (fun i _ => if (i <? 2)%nat then inl (ErrNew "refused") else inr 7%nat)
          (recheck_finds "a") (sample_world []) (balance "round-robin") with
  | Some r => ld_result r = Ok (Failed (Some (ErrNew "refused"))) /\ length (ld_failed r) = 2%nat
  | None => False
  end.
Proof. by vm_compute. Qed.

(** The published test vectors of the 64-bit FNV-1a hash. *)
Example fnv_vectors :
  fnv1a64 "" = 14695981039346656037 /\ fnv1a64 "a" = 12638187200555641996.
Proof. by vm_compute. Qed.

(** Selecting the outbound that is selected already writes nothing: a choice of
    the default is not remembered when the default changes. *)
Example default_choice_not_saved :
  let s := (Selector_Start outbound_table (Some ∅) (select_from ["a"; "b"; "c"])).2 in
  let '(ok, file, _) := Selector_SelectOutbound true "a" (Some ∅) s in ok = true /\ file = Some ∅.
Proof. by vm_compute. Qed.

(** A nested selector (number 9) that is switched to an outbound without UDP
    stays selected for UDP: [Select] starts from the selected outbound and asks
    for its history, not for its networks. *)
Definition nested_world (s : Selector) : World :=
  let inner := sample_world [("a", hist 0 40); ("b", hist 0 20)] in
  let alone := {| w_history := w_history inner; w_now := fun _ => None;
                  w_network := fun o => if decide (ob_id o = 2%nat) then [NetworkTCP] else [NetworkTCP; NetworkUDP] |} in
  {| w_history := w_history inner;
     w_now := fun o => if decide (ob_id o = 9%nat)
                       then match Selector_Now s with Ok tag => Some tag | _ => None end else None;
     w_network := fun o => if decide (ob_id o = 9%nat) then Selector_Network alone s else w_network alone o |}.

Example switched_selector_stays :
  let s := (Selector_Start outbound_table (Some ∅) (select_from ["a"; "b"])).2 in
  let s' := (Selector_SelectOutbound true "b" (Some ∅) s).2 in
  let g := URLTestGroup_performUpdateCheck (nested_world s) (urltest_of [ob 9 "s"; ob 3 "c"] None) in
  let g' := URLTestGroup_performUpdateCheck (nested_world s') g in
  (ug_selectedUDP g, supports NetworkUDP (nested_world s) (ob 9 "s")) = (Some (ob 9 "s"), true) /\
  (ug_selectedUDP g', supports NetworkUDP (nested_world s') (ob 9 "s")) = (Some (ob 9 "s"), false).
Proof. by vm_compute. Qed.
