(* ===== verification/FakeIP.v ===== *)
(** * dns/transport/fakeip, adapter/fakeip*.go, experimental/cachefile/fakeip.go

    Fake addresses: the store that gives every domain an address of a range,
    the two storages behind it (in memory, and the cache file with its pending
    writes), the binary form of its metadata, and the DNS transport.  The
    database of the cache file (bbolt) is its buckets; a transaction that
    returns an error changes nothing, and the database itself does not fail.
    What a storage promises to the store is the class [FakeIPStorageLaws]. *)

From stdpp Require Import base list strings gmap.
From Stdlib Require Import ZArith Lia Ascii.
From S2P Require Import Prelude GoStd External Adapter RuleAction DnsMsg.

Open Scope Z_scope.
Open Scope box_scope.

(** ** Addresses in order *)

(** [netip.Addr.Next]: the next address of the family, invalid after the last. *)
Definition Addr_Next (a : Addr) : Addr :=
  match a with
  | AddrInvalid => AddrInvalid
  | Addr4 n => if n =? 2 ^ 32 - 1 then AddrInvalid else Addr4 (n + 1)
  | Addr6 n z => if n =? 2 ^ 128 - 1 then AddrInvalid else Addr6 (n + 1) z
  end.

Definition Addr_ok (a : Addr) : Prop :=
  match a with
  | AddrInvalid => True
  | Addr4 n => 0 <= n < 2 ^ 32
  | Addr6 n _ => 0 <= n < 2 ^ 128
  end.

(** A prefix as [netip.PrefixFrom] makes it: without a zone, bits in range, or invalid. *)
Definition Prefix_ok (p : Prefix) : Prop :=
  match prefix_ip p with
  | AddrInvalid => p = PrefixInvalid
  | Addr4 n => 0 <= n < 2 ^ 32 /\ 0 <= prefix_bits p <= 32
  | Addr6 n z => 0 <= n < 2 ^ 128 /\ z = "" /\ 0 <= prefix_bits p <= 128
  end.

(** ** The metadata and its binary form *)

Record FakeIPMetadata : Type := {
  md_Inet4Range : Prefix;
  md_Inet6Range : Prefix;
  md_Inet4Current : Addr;
  md_Inet6Current : Addr
}.

(** [netip.Addr.MarshalBinary], [netip.Prefix.MarshalBinary] and their inverses. *)
Definition Addr_MarshalBinary (a : Addr) : list Z :=
  match a with
  | AddrInvalid => []
  | Addr4 n => be_bytes 4 n
  | Addr6 n z => be_bytes 16 n ++ bytes_of z
  end.

Definition without_zone (a : Addr) : Addr := match a with Addr6 n _ => Addr6 n "" | a => a end.

Definition Prefix_MarshalBinary (p : Prefix) : list Z :=
  Addr_MarshalBinary (without_zone (prefix_ip p)) ++ [prefix_bits p mod 256].

Definition Addr_UnmarshalBinary (b : list Z) : res Addr :=
  let n := length b in
  if (n =? 0)%nat then Ok AddrInvalid
  else if (n =? 4)%nat then Ok (Addr4 (big_endian b))
  else if (n =? 16)%nat then Ok (Addr6 (big_endian b) "")
  else if (16 <? n)%nat then Ok (Addr6 (big_endian (take 16 b)) (string_of_bytes (drop 16 b)))
  else Err (ErrNew "unexpected slice size").

Definition PrefixFrom (ip : Addr) (bits : Z) : Prefix :=
  if Addr_IsValid ip && (0 <=? bits) && (bits <=? Addr_BitLen ip)
  then {| prefix_ip := without_zone ip; prefix_bits := bits |}
  else {| prefix_ip := without_zone ip; prefix_bits := -1 |}.

Definition Prefix_UnmarshalBinary (b : list Z) : res Prefix :=
  match last b with
  | None => Err (ErrNew "unexpected slice size")
  | Some bits =>
      let* ip := Addr_UnmarshalBinary (take (length b - 1) b) in
      Ok (PrefixFrom ip bits)
  end.

(** One element: its length in two bytes, then its bytes. *)
Definition put_element (data : list Z) : list Z := be_bytes 2 (Z.of_nat (length data)) ++ data.

Definition FakeIPMetadata_MarshalBinary (m : FakeIPMetadata) : list Z :=
  put_element (Prefix_MarshalBinary (md_Inet4Range m)) ++
  put_element (Prefix_MarshalBinary (md_Inet6Range m)) ++
  put_element (Addr_MarshalBinary (md_Inet4Current m)) ++
  put_element (Addr_MarshalBinary (md_Inet6Current m)).

(** [common.Must] panics when the length cannot be read. *)
Definition get_element (data : list Z) : res (list Z * list Z) :=
  if (length data <? 2)%nat then Panic "unexpected EOF"
  else
    let n := Z.to_nat (big_endian (take 2 data)) in
    let rest := drop 2 data in
    if (length rest <? n)%nat then Err (if (length rest =? 0)%nat then ErrEOF else ErrUnexpectedEOF)
    else Ok (take n rest, drop n rest).

Definition FakeIPMetadata_UnmarshalBinary (data : list Z) : res FakeIPMetadata :=
  let* ' (e, data) := get_element data in
  let* range4 := Prefix_UnmarshalBinary e in
  let* ' (e, data) := get_element data in
  let* range6 := Prefix_UnmarshalBinary e in
  let* ' (e, data) := get_element data in
  let* current4 := Addr_UnmarshalBinary e in
  let* ' (e, data) := get_element data in
  let* current6 := Addr_UnmarshalBinary e in
  Ok {| md_Inet4Range := range4; md_Inet6Range := range6;
        md_Inet4Current := current4; md_Inet6Current := current6 |}.

(** ** What a storage is *)

Class FakeIPStorage (S : Type) : Type := {
  FakeIPMetadata_load : S -> res (option FakeIPMetadata) * S;
  FakeIPSaveMetadata : FakeIPMetadata -> S -> option error * S;
  FakeIPSaveMetadataAsync : FakeIPMetadata -> S -> S;
  FakeIPStoreAsync : Addr -> string -> S -> S;
  FakeIPLoad : Addr -> S -> option string;
  FakeIPLoadDomain : string -> bool -> S -> option Addr;
  FakeIPReset : S -> option error * S
}.

(** ** dns/transport/fakeip/memory.go *)

Record MemoryStorage : Type := {
  addressCache : gmap Addr string;
  domainCache4 : gmap string Addr;
  domainCache6 : gmap string Addr
}.

Definition NewMemoryStorage : MemoryStorage := {| addressCache := ∅; domainCache4 := ∅; domainCache6 := ∅ |}.

(** The three maps after a store; the cache file keeps its pending writes the
    same way. *)
Definition replace_domain (address : Addr) (domain : string) (old : option string) (m : gmap string Addr)
    : gmap string Addr :=
  <[domain := address]> (match old with Some oldDomain => delete oldDomain m | None => m end).

Definition MemoryStorage_FakeIPStore (address : Addr) (domain : string) (s : MemoryStorage) : MemoryStorage :=
  let old := addressCache s !! address in
  {| addressCache := <[address := domain]> (addressCache s);
     domainCache4 := if Addr_Is4 address then replace_domain address domain old (domainCache4 s)
                     else domainCache4 s;
     domainCache6 := if Addr_Is4 address then domainCache6 s
                     else replace_domain address domain old (domainCache6 s) |}.

#[export] Instance MemoryStorage_storage : FakeIPStorage MemoryStorage := {|
  FakeIPMetadata_load s := (Ok None, s);
  FakeIPSaveMetadata _ s := (None, s);
  FakeIPSaveMetadataAsync _ s := s;
  FakeIPStoreAsync := MemoryStorage_FakeIPStore;
  FakeIPLoad address s := addressCache s !! address;
  FakeIPLoadDomain domain isIPv6 s := if isIPv6 then domainCache6 s !! domain else domainCache4 s !! domain;
  FakeIPReset _ := (None, NewMemoryStorage)
|}.

(** ** experimental/cachefile/fakeip.go *)

(** The bucket of addresses also holds the metadata, under its own key. *)
Record addressBucket : Type := { bk_addresses : gmap Addr string; bk_metadata : option (list Z) }.

Record database : Type := {
  db_FakeIP : option addressBucket;
  db_Domain4 : option (gmap string Addr);
  db_Domain6 : option (gmap string Addr)
}.

(** A goroutine of [FakeIPStoreAsync]: what it stores, and whether its write is done. *)
Record saver : Type := { sv_address : Addr; sv_domain : string; sv_written : bool }.

(** [saveMetadataTimer]: the metadata its function holds, and whether it is running. *)
Record CacheFile : Type := {
  cf_DB : database;
  saveDomain : gmap Addr string;
  saveAddress4 : gmap string Addr;
  saveAddress6 : gmap string Addr;
  savers : list saver;
  saveMetadataTimer : option (FakeIPMetadata * bool)
}.

Definition empty_bucket : addressBucket := {| bk_addresses := ∅; bk_metadata := None |}.

Definition cf_with_DB (db : database) (c : CacheFile) : CacheFile :=
  {| cf_DB := db; saveDomain := saveDomain c; saveAddress4 := saveAddress4 c; saveAddress6 := saveAddress6 c;
     savers := savers c; saveMetadataTimer := saveMetadataTimer c |}.

Definition db_with_bucket (b : addressBucket) (db : database) : database :=
  {| db_FakeIP := Some b; db_Domain4 := db_Domain4 db; db_Domain6 := db_Domain6 db |}.

(** The metadata is deleted when it is read; an error rolls the deletion back. *)
Definition CacheFile_FakeIPMetadata (c : CacheFile) : res (option FakeIPMetadata) * CacheFile :=
  match db_FakeIP (cf_DB c) with
  | None => (Ok None, c)
  | Some b =>
      match bk_metadata b with
      | None | Some [] => (Ok None, c)
      | Some binary =>
          match FakeIPMetadata_UnmarshalBinary binary with
          | Ok m => (Ok (Some m),
                     cf_with_DB (db_with_bucket {| bk_addresses := bk_addresses b; bk_metadata := None |} (cf_DB c)) c)
          | Err _ => (Ok None, c)
          | Panic msg => (Panic msg, c)
          end
      end
  end.

Definition CacheFile_FakeIPSaveMetadata (m : FakeIPMetadata) (c : CacheFile) : option error * CacheFile :=
  let b := default empty_bucket (db_FakeIP (cf_DB c)) in
  (None, cf_with_DB (db_with_bucket {| bk_addresses := bk_addresses b;
                                       bk_metadata := Some (FakeIPMetadata_MarshalBinary m) |} (cf_DB c)) c).

(** The first call makes the timer with its function; later ones restart it. *)
Definition CacheFile_FakeIPSaveMetadataAsync (m : FakeIPMetadata) (c : CacheFile) : CacheFile :=
  {| cf_DB := cf_DB c; saveDomain := saveDomain c; saveAddress4 := saveAddress4 c; saveAddress6 := saveAddress6 c;
     savers := savers c;
     saveMetadataTimer := Some (match saveMetadataTimer c with
                                | None => (m, true)
                                | Some (held, _) => (held, true)
                                end) |}.

(** The timer fires. *)
Definition fire_metadata_timer (c : CacheFile) : CacheFile :=
  match saveMetadataTimer c with
  | Some (held, true) =>
      let c := (CacheFile_FakeIPSaveMetadata held c).2 in
      {| cf_DB := cf_DB c; saveDomain := saveDomain c; saveAddress4 := saveAddress4 c;
         saveAddress6 := saveAddress6 c; savers := savers c; saveMetadataTimer := Some (held, false) |}
  | _ => c
  end.

(** The transaction of [FakeIPStore]; bbolt refuses an empty key. *)
Definition db_store (address : Addr) (domain : string) (db : database) : option error * database :=
  let b := default empty_bucket (db_FakeIP db) in
  let old := bk_addresses b !! address in
  let b := {| bk_addresses := <[address := domain]> (bk_addresses b); bk_metadata := bk_metadata b |} in
  if bool_decide (domain = "") then (Some (ErrNew "key required"), db)
  else if Addr_Is4 address then
    (None, {| db_FakeIP := Some b;
              db_Domain4 := Some (replace_domain address domain old (default ∅ (db_Domain4 db)));
              db_Domain6 := db_Domain6 db |})
  else
    (None, {| db_FakeIP := Some b; db_Domain4 := db_Domain4 db;
              db_Domain6 := Some (replace_domain address domain old (default ∅ (db_Domain6 db))) |}).

Definition CacheFile_FakeIPStore (address : Addr) (domain : string) (c : CacheFile) : option error * CacheFile :=
  let '(err, db) := db_store address domain (cf_DB c) in (err, cf_with_DB db c).

Definition CacheFile_FakeIPStoreAsync (address : Addr) (domain : string) (c : CacheFile) : CacheFile :=
  let old := saveDomain c !! address in
  {| cf_DB := cf_DB c;
     saveDomain := <[address := domain]> (saveDomain c);
     saveAddress4 := if Addr_Is4 address then replace_domain address domain old (saveAddress4 c)
                     else saveAddress4 c;
     saveAddress6 := if Addr_Is4 address then saveAddress6 c
                     else replace_domain address domain old (saveAddress6 c);
     savers := savers c ++ [{| sv_address := address; sv_domain := domain; sv_written := false |}];
     saveMetadataTimer := saveMetadataTimer c |}.

(** The two steps of the goroutine: the write, and the end of the pending entries. *)
Definition saver_write (i : nat) (c : CacheFile) : option CacheFile :=
  match savers c !! i with
  | Some s =>
      if sv_written s then None
      else
        Some {| cf_DB := (db_store (sv_address s) (sv_domain s) (cf_DB c)).2;
                saveDomain := saveDomain c; saveAddress4 := saveAddress4 c; saveAddress6 := saveAddress6 c;
                savers := <[i := {| sv_address := sv_address s; sv_domain := sv_domain s; sv_written := true |}]>
                            (savers c);
                saveMetadataTimer := saveMetadataTimer c |}
  | None => None
  end.

Definition saver_end (i : nat) (c : CacheFile) : option CacheFile :=
  match savers c !! i with
  | Some s =>
      if negb (sv_written s) then None
      else
        Some {| cf_DB := cf_DB c;
                saveDomain := delete (sv_address s) (saveDomain c);
                saveAddress4 := if Addr_Is4 (sv_address s) then delete (sv_domain s) (saveAddress4 c)
                                else saveAddress4 c;
                saveAddress6 := if Addr_Is4 (sv_address s) then saveAddress6 c
                                else delete (sv_domain s) (saveAddress6 c);
                savers := delete i (savers c);
                saveMetadataTimer := saveMetadataTimer c |}
  | None => None
  end.

(** What the database has for an address: the empty string is nothing. *)
Definition db_load (address : Addr) (db : database) : option string :=
  match db_FakeIP db with
  | Some b =>
      match bk_addresses b !! address with
      | Some domain => if bool_decide (domain = "") then None else Some domain
      | None => None
      end
  | None => None
  end.

Definition CacheFile_FakeIPLoad (address : Addr) (c : CacheFile) : option string :=
  match saveDomain c !! address with
  | Some domain => Some domain
  | None => db_load address (cf_DB c)
  end.

Definition db_load_domain (domain : string) (isIPv6 : bool) (db : database) : option Addr :=
  match (if isIPv6 then db_Domain6 db else db_Domain4 db) with
  | Some bucket =>
      match bucket !! domain with
      | Some address => if Addr_IsValid address then Some address else None
      | None => None
      end
  | None => None
  end.

Definition CacheFile_FakeIPLoadDomain (domain : string) (isIPv6 : bool) (c : CacheFile) : option Addr :=
  match (if isIPv6 then saveAddress6 c else saveAddress4 c) !! domain with
  | Some address => Some address
  | None => db_load_domain domain isIPv6 (cf_DB c)
  end.

(** A bucket that is not there fails the transaction. *)
Definition bucket_not_found : error := ErrNew "bucket not found".

Definition CacheFile_FakeIPReset (c : CacheFile) : option error * CacheFile :=
  match db_FakeIP (cf_DB c), db_Domain4 (cf_DB c), db_Domain6 (cf_DB c) with
  | Some _, Some _, Some _ =>
      (None, cf_with_DB {| db_FakeIP := None; db_Domain4 := None; db_Domain6 := None |} c)
  | _, _, _ => (Some bucket_not_found, c)
  end.

#[export] Instance CacheFile_storage : FakeIPStorage CacheFile := {|
  FakeIPMetadata_load := CacheFile_FakeIPMetadata;
  FakeIPSaveMetadata := CacheFile_FakeIPSaveMetadata;
  FakeIPSaveMetadataAsync := CacheFile_FakeIPSaveMetadataAsync;
  FakeIPStoreAsync := CacheFile_FakeIPStoreAsync;
  FakeIPLoad := CacheFile_FakeIPLoad;
  FakeIPLoadDomain := CacheFile_FakeIPLoadDomain;
  FakeIPReset := CacheFile_FakeIPReset
|}.

(** ** dns/transport/fakeip/store.go *)

Record Store (S : Type) : Type := {
  inet4Range : Prefix;
  inet6Range : Prefix;
  storage : option S;
  inet4Current : Addr;
  inet6Current : Addr
}.
Arguments inet4Range {S} _.
Arguments inet6Range {S} _.
Arguments storage {S} _.
Arguments inet4Current {S} _.
Arguments inet6Current {S} _.
Arguments Build_Store {S} _ _ _ _ _.

Definition st_with {S} (sg : option S) (current4 current6 : Addr) (st : Store S) : Store S :=
  {| inet4Range := inet4Range st; inet6Range := inet6Range st; storage := sg;
     inet4Current := current4; inet6Current := current6 |}.

Definition NewStore {S} (range4 range6 : Prefix) : Store S :=
  {| inet4Range := range4; inet6Range := range6; storage := None;
     inet4Current := AddrInvalid; inet6Current := AddrInvalid |}.

Definition metadata_of {S} (st : Store S) : FakeIPMetadata :=
  {| md_Inet4Range := inet4Range st; md_Inet6Range := inet6Range st;
     md_Inet4Current := inet4Current st; md_Inet6Current := inet6Current st |}.

Definition nil_storage : string := "invalid memory address or nil pointer dereference".

(** [range.Addr().Next().Next()] *)
Definition first_address (range : Prefix) : Addr := Addr_Next (Addr_Next (prefix_ip range)).

(** The address after the current one, from the start of the range again at its end. *)
Definition next_address (range : Prefix) (current : Addr) : Addr :=
  let nextAddress := Addr_Next current in
  if negb (Prefix_Contains range nextAddress) then first_address range else nextAddress.

Section store.
Context {S : Type} `{FakeIPStorage S}.

(** [Start], with the storage the context provides. *)
Definition Store_Start (sg : S) (st : Store S) : res unit * Store S :=
  match FakeIPMetadata_load sg with
  | (Ok metadata, sg) =>
      match metadata with
      | Some m =>
          if bool_decide (md_Inet4Range m = inet4Range st) && bool_decide (md_Inet6Range m = inet6Range st)
          then (Ok tt, st_with (Some sg) (md_Inet4Current m) (md_Inet6Current m) st)
          else
            (Ok tt, st_with (Some (FakeIPReset sg).2)
                      (if Prefix_IsValid (inet4Range st) then first_address (inet4Range st) else inet4Current st)
                      (if Prefix_IsValid (inet6Range st) then first_address (inet6Range st) else inet6Current st) st)
      | None =>
          (Ok tt, st_with (Some (FakeIPReset sg).2)
                    (if Prefix_IsValid (inet4Range st) then first_address (inet4Range st) else inet4Current st)
                    (if Prefix_IsValid (inet6Range st) then first_address (inet6Range st) else inet6Current st) st)
      end
  | (Err e, _) => (Err e, st)
  | (Panic msg, _) => (Panic msg, st)
  end.

Definition Store_Contains (address : Addr) (st : Store S) : bool :=
  Prefix_Contains (inet4Range st) address || Prefix_Contains (inet6Range st) address.

Definition Store_Close (st : Store S) : option error * Store S :=
  match storage st with
  | None => (None, st)
  | Some sg =>
      let '(err, sg) := FakeIPSaveMetadata (metadata_of st) sg in
      (err, st_with (Some sg) (inet4Current st) (inet6Current st) st)
  end.

Definition missing_range (family : string) : error := ErrNew ("missing " +:+ family +:+ " fakeip address range").

(** The part of [Create] after the lookup: a new address for the domain. *)
Definition allocate (domain : string) (isIPv6 : bool) (sg : S) (st : Store S) : res Addr * Store S :=
  let current := if isIPv6 then inet6Current st else inet4Current st in
  if negb (Addr_IsValid current) then (Err (missing_range (if isIPv6 then "IPv6" else "IPv4")), st)
  else
    let address := next_address (if isIPv6 then inet6Range st else inet4Range st) current in
    let st := st_with (storage st) (if isIPv6 then inet4Current st else address)
                (if isIPv6 then address else inet6Current st) st in
    let sg := FakeIPSaveMetadataAsync (metadata_of st) (FakeIPStoreAsync address domain sg) in
    (Ok address, st_with (Some sg) (inet4Current st) (inet6Current st) st).

Definition Store_Create (domain : string) (isIPv6 : bool) (st : Store S) : res Addr * Store S :=
  match storage st with
  | None => (Panic nil_storage, st)
  | Some sg =>
      match FakeIPLoadDomain domain isIPv6 sg with
      | Some address => (Ok address, st)
      | None => allocate domain isIPv6 sg st
      end
  end.

Definition Store_Lookup (address : Addr) (st : Store S) : res (option string) :=
  match storage st with
  | None => Panic nil_storage
  | Some sg => Ok (FakeIPLoad address sg)
  end.

Definition Store_Reset (st : Store S) : res (option error) * Store S :=
  match storage st with
  | None => (Panic nil_storage, st)
  | Some sg =>
      let '(err, sg) := FakeIPReset sg in (Ok err, st_with (Some sg) (inet4Current st) (inet6Current st) st)
  end.

(** ** dns/transport/fakeip/fakeip.go *)

Definition DefaultDNSTTL : Z := 600.

Definition Transport_Start (starting : bool) (sg : S) (st : Store S) : res unit * Store S :=
  if negb starting then (Ok tt, st) else Store_Start sg st.

Definition Transport_Exchange `{DNSLib} (message : DMsg) (st : Store S) : res DMsg * Store S :=
  match msg_Question message with
  | [] => (Panic "index out of range", st)
  | question :: _ =>
      if negb (q_Qtype question =? TypeA) && negb (q_Qtype question =? TypeAAAA)
      then (Err (ErrNew "only IP queries are supported by fakeip"), st)
      else
        let '(r, st) := Store_Create (FqdnToDomain (q_Name question)) (q_Qtype question =? TypeAAAA) st in
        (let* address := r in Ok (FixedResponse (msg_Id message) question [address] DefaultDNSTTL), st)
  end.

(** *** [Create] step by step

    The store has no lock of its own: two queries may be between any two of
    these steps.  [create_step] is one step of one query. *)

Inductive create_pc : Type :=
  | Checking (domain : string) (isIPv6 : bool)
  | Reading (domain : string) (isIPv6 : bool)
  | Writing (domain : string) (isIPv6 : bool) (address : Addr)
  | Storing (domain : string) (isIPv6 : bool) (address : Addr)
  | Done (result : res Addr).

Definition create_step (pc : create_pc) (st : Store S) : create_pc * Store S :=
  match pc with
  | Checking domain isIPv6 =>
      match storage st with
      | None => (Done (Panic nil_storage), st)
      | Some sg =>
          match FakeIPLoadDomain domain isIPv6 sg with
          | Some address => (Done (Ok address), st)
          | None => (Reading domain isIPv6, st)
          end
      end
  | Reading domain isIPv6 =>
      let current := if isIPv6 then inet6Current st else inet4Current st in
      if negb (Addr_IsValid current) then (Done (Err (missing_range (if isIPv6 then "IPv6" else "IPv4"))), st)
      else (Writing domain isIPv6 (next_address (if isIPv6 then inet6Range st else inet4Range st) current), st)
  | Writing domain isIPv6 address =>
      (Storing domain isIPv6 address,
       st_with (storage st) (if isIPv6 then inet4Current st else address)
         (if isIPv6 then address else inet6Current st) st)
  | Storing domain isIPv6 address =>
      match storage st with
      | None => (Done (Panic nil_storage), st)
      | Some sg =>
          let sg := FakeIPSaveMetadataAsync (metadata_of st) (FakeIPStoreAsync address domain sg) in
          (Done (Ok address), st_with (Some sg) (inet4Current st) (inet6Current st) st)
      end
  | Done r => (Done r, st)
  end.

(** Two queries, and whose turn each step is. *)
Fixpoint interleave (turns : list bool) (p q : create_pc) (st : Store S) : create_pc * create_pc * Store S :=
  match turns with
  | [] => (p, q, st)
  | true :: turns => let '(p, st) := create_step p st in interleave turns p q st
  | false :: turns => let '(q, st) := create_step q st in interleave turns p q st
  end.

(** Alone, the steps are [Create]. *)
Lemma create_steps_alone domain isIPv6 q st :
  interleave [true; true; true; true] (Checking domain isIPv6) q st =
  (Done (Store_Create domain isIPv6 st).1, q, (Store_Create domain isIPv6 st).2).
Proof.
  unfold Store_Create, allocate. cbn [interleave create_step].
  destruct (storage st) as [sg|] eqn:E; [|done].
  destruct (FakeIPLoadDomain domain isIPv6 sg); [done|]. cbn [create_step].
  destruct (negb _); [done|]. cbn [create_step]. simpl. by rewrite E.
Qed.
End store.

(** ** The contract of a storage *)

(** [fs_view]: which domain every address has.  [fs_storable]: a store of the
    address takes effect at once.  [fs_background]: what the storage does by
    itself. *)
Class FakeIPStorageLaws (S : Type) `{FakeIPStorage S} : Type := {
  fs_wf : S -> Prop;
  fs_view : S -> gmap Addr string;
  fs_storable : Addr -> S -> Prop;
  fs_background : S -> S -> Prop;
  fs_load : forall s a, fs_wf s -> FakeIPLoad a s = fs_view s !! a;
  fs_load_domain : forall s d isIPv6 a, fs_wf s ->
    FakeIPLoadDomain d isIPv6 s = Some a <-> fs_view s !! a = Some d /\ Addr_Is4 a = negb isIPv6;
  fs_store : forall s a d, fs_wf s -> fs_storable a s -> Addr_IsValid a = true -> d <> "" ->
    FakeIPLoadDomain d (negb (Addr_Is4 a)) s = None ->
    fs_wf (FakeIPStoreAsync a d s) /\ fs_view (FakeIPStoreAsync a d s) = <[a := d]> (fs_view s);
  fs_save : forall s m, fs_wf s ->
    fs_wf (FakeIPSaveMetadataAsync m s) /\ fs_view (FakeIPSaveMetadataAsync m s) = fs_view s;
  fs_step : forall s s', fs_wf s -> fs_background s s' -> fs_wf s' /\ fs_view s' = fs_view s
}.

(** Two tables that are the inverse of each other on one family of addresses. *)
Definition inverse (isIPv6 : bool) (domains : gmap string Addr) (addresses : gmap Addr string) : Prop :=
  forall d a, domains !! d = Some a <-> addresses !! a = Some d /\ Addr_Is4 a = negb isIPv6.

Lemma inverse_empty isIPv6 : inverse isIPv6 ∅ ∅.
Proof. intros d a. rewrite !lookup_empty. naive_solver. Qed.

(** A store in the family of the address, of a domain that has none yet. *)
Lemma inverse_store isIPv6 domains addresses a d :
  inverse isIPv6 domains addresses -> Addr_Is4 a = negb isIPv6 -> domains !! d = None ->
  inverse isIPv6 (replace_domain a d (addresses !! a) domains) (<[a := d]> addresses).
Proof.
  intros Hinv Ha Hd d' a'. unfold replace_domain.
  destruct (decide (d' = d)) as [->|Hne].
  - rewrite lookup_insert_eq. destruct (decide (a' = a)) as [->|Hna].
    + rewrite lookup_insert_eq. naive_solver.
    + rewrite lookup_insert_ne by done. split; [congruence|].
      intros [Hv Hf]. pose proof (proj2 (Hinv d a') (conj Hv Hf)). congruence.
  - rewrite lookup_insert_ne by done. destruct (addresses !! a) as [o|] eqn:Eo.
    + destruct (decide (d' = o)) as [->|Hno].
      * rewrite lookup_delete_eq. split; [done|]. intros [Hv Hf].
        destruct (decide (a' = a)) as [->|Hna]; [rewrite lookup_insert_eq in Hv; congruence|].
        rewrite lookup_insert_ne in Hv by done.
        pose proof (proj2 (Hinv o a') (conj Hv Hf)). pose proof (proj2 (Hinv o a) (conj Eo Ha)). congruence.
      * rewrite lookup_delete_ne by done. rewrite (Hinv d' a').
        destruct (decide (a' = a)) as [->|Hna]; [rewrite lookup_insert_eq, Eo; naive_solver|].
        by rewrite lookup_insert_ne.
    + rewrite (Hinv d' a'). destruct (decide (a' = a)) as [->|Hna].
      * rewrite lookup_insert_eq, Eo. naive_solver.
      * by rewrite lookup_insert_ne.
Qed.

(** A store in the other family. *)
Lemma inverse_other isIPv6 domains addresses a d :
  inverse isIPv6 domains addresses -> Addr_Is4 a = isIPv6 -> inverse isIPv6 domains (<[a := d]> addresses).
Proof.
  intros Hinv Ha d' a'. rewrite (Hinv d' a'). destruct (decide (a' = a)) as [->|Hna].
  - rewrite Ha. split; intros [_ H]; by destruct isIPv6.
  - by rewrite lookup_insert_ne.
Qed.

(** *** The memory storage keeps the contract, for any address *)

Definition memory_wf (s : MemoryStorage) : Prop :=
  inverse false (domainCache4 s) (addressCache s) /\ inverse true (domainCache6 s) (addressCache s).

Lemma memory_load_domain s d isIPv6 a :
  memory_wf s ->
  FakeIPLoadDomain d isIPv6 s = Some a <-> addressCache s !! a = Some d /\ Addr_Is4 a = negb isIPv6.
Proof. intros [H4 H6]. destruct isIPv6; [apply H6|apply H4]. Qed.

Lemma memory_store s a d :
  memory_wf s -> FakeIPLoadDomain d (negb (Addr_Is4 a)) s = None ->
  memory_wf (FakeIPStoreAsync a d s) /\ addressCache (FakeIPStoreAsync a d s) = <[a := d]> (addressCache s).
Proof.
  intros [H4 H6] Hd. split; [|done]. split; simpl in *; destruct (Addr_Is4 a) eqn:Ea; simpl in Hd.
  - by apply inverse_store.
  - by apply inverse_other.
  - by apply inverse_other.
  - by apply inverse_store.
Qed.

#[export] Instance MemoryStorage_laws : FakeIPStorageLaws MemoryStorage.
Proof.
  refine {| fs_wf := memory_wf; fs_view := addressCache; fs_storable _ _ := True; fs_background s s' := s = s' |}.
  - done.
  - apply memory_load_domain.
  - intros s a d Hs _ _ _ Hd. by apply memory_store.
  - done.
  - by intros s s' Hs <-.
Defined.

(** *** The cache file keeps it for addresses that have no domain yet *)

Definition db_addresses (db : database) : gmap Addr string :=
  match db_FakeIP db with Some b => bk_addresses b | None => ∅ end.
Definition db_domains (isIPv6 : bool) (db : database) : gmap string Addr :=
  default ∅ (if isIPv6 then db_Domain6 db else db_Domain4 db).
Definition pending (isIPv6 : bool) (c : CacheFile) : gmap string Addr :=
  if isIPv6 then saveAddress6 c else saveAddress4 c.

Definition cache_view (c : CacheFile) : gmap Addr string := saveDomain c ∪ db_addresses (cf_DB c).

Definition saver_ok (c : CacheFile) (s : saver) : Prop :=
  saveDomain c !! sv_address s = Some (sv_domain s) /\
  db_addresses (cf_DB c) !! sv_address s = (if sv_written s then Some (sv_domain s) else None).

Record cache_wf (c : CacheFile) : Prop := {
  cw_pending : forall isIPv6, inverse isIPv6 (pending isIPv6 c) (saveDomain c);
  cw_db : forall isIPv6, inverse isIPv6 (db_domains isIPv6 (cf_DB c)) (db_addresses (cf_DB c));
  cw_inj : forall a a' d, cache_view c !! a = Some d -> cache_view c !! a' = Some d ->
             Addr_Is4 a = Addr_Is4 a' -> a = a';
  cw_entries : forall a d, cache_view c !! a = Some d -> d <> "" /\ Addr_IsValid a = true;
  cw_savers : Forall (saver_ok c) (savers c);
  cw_nodup : NoDup (sv_address <$> savers c);
  cw_saved : forall a d, saveDomain c !! a = Some d -> exists s, s ∈ savers c /\ sv_address s = a
}.

Section cache_file.
Context (c : CacheFile) (Hc : cache_wf c).

Lemma pending_or_saved a d d' :
  saveDomain c !! a = Some d -> db_addresses (cf_DB c) !! a = Some d' -> d = d'.
Proof.
  intros Hp Hdb. destruct (cw_saved c Hc a d Hp) as (s & Hs & Heq).
  pose proof (proj1 (Forall_forall _ _) (cw_savers c Hc) s Hs) as [H1 H2]. rewrite Heq in *.
  destruct (sv_written s); congruence.
Qed.

Lemma cache_view_pending a d : saveDomain c !! a = Some d -> cache_view c !! a = Some d.
Proof. intros Hp. unfold cache_view. by apply lookup_union_Some_l. Qed.

Lemma cache_view_db a d : db_addresses (cf_DB c) !! a = Some d -> cache_view c !! a = Some d.
Proof.
  intros Hdb. unfold cache_view. rewrite lookup_union, Hdb.
  destruct (saveDomain c !! a) as [d'|] eqn:E; [|done].
  by rewrite (pending_or_saved _ _ _ E Hdb).
Qed.

Lemma cache_load a : CacheFile_FakeIPLoad a c = cache_view c !! a.
Proof.
  unfold CacheFile_FakeIPLoad, db_load. destruct (saveDomain c !! a) as [d|] eqn:E.
  { by rewrite (cache_view_pending _ _ E). }
  assert (Hv : cache_view c !! a = db_addresses (cf_DB c) !! a)
    by (unfold cache_view; rewrite lookup_union, E; by destruct (db_addresses (cf_DB c) !! a)).
  rewrite Hv. unfold db_addresses in *. destruct (db_FakeIP (cf_DB c)) as [b|]; [|done].
  destruct (bk_addresses b !! a) as [d|] eqn:Eb; [|done].
  destruct (cw_entries c Hc a d) as [Hne _]; [congruence|]. by rewrite bool_decide_false.
Qed.

Lemma cache_load_domain d isIPv6 a :
  CacheFile_FakeIPLoadDomain d isIPv6 c = Some a <-> cache_view c !! a = Some d /\ Addr_Is4 a = negb isIPv6.
Proof.
  assert (Hload : CacheFile_FakeIPLoadDomain d isIPv6 c = Some a <->
            pending isIPv6 c !! d = Some a \/
            (pending isIPv6 c !! d = None /\ db_domains isIPv6 (cf_DB c) !! d = Some a)).
  { unfold CacheFile_FakeIPLoadDomain. change (if isIPv6 then saveAddress6 c else saveAddress4 c) with (pending isIPv6 c).
    destruct (pending isIPv6 c !! d) as [a'|]; [naive_solver|].
    assert (Hdb : db_load_domain d isIPv6 (cf_DB c) = db_domains isIPv6 (cf_DB c) !! d).
    { unfold db_load_domain, db_domains.
      destruct (if isIPv6 then db_Domain6 (cf_DB c) else db_Domain4 (cf_DB c)) as [m|] eqn:Em; [|done].
      simpl. destruct (m !! d) as [a'|] eqn:E; [|done].
      destruct (cw_entries c Hc a' d) as [_ Hv]; [|by rewrite Hv].
      apply cache_view_db. apply (cw_db c Hc isIPv6). unfold db_domains. by rewrite Em. }
    rewrite Hdb. naive_solver. }
  rewrite Hload, (cw_pending c Hc isIPv6 d a), (cw_db c Hc isIPv6 d a). split.
  - intros [[Hp Hf]|(_ & Hdb & Hf)]; (split; [|done]); [by apply cache_view_pending|by apply cache_view_db].
  - intros [Hv Hf]. unfold cache_view in Hv. apply lookup_union_Some_raw in Hv as [Hp|[Hn Hdb]]; [by left|right].
    split; [|done]. destruct (pending isIPv6 c !! d) as [a'|] eqn:E; [|done]. exfalso.
    apply (cw_pending c Hc isIPv6) in E as [Hp' Hf'].
    assert (a' = a); [|congruence]. eapply (cw_inj c Hc); [by apply cache_view_pending|by apply cache_view_db|congruence].
Qed.
End cache_file.

(** Nothing of the invariant depends on the metadata or on the timer. *)
Lemma cache_wf_same c c' :
  db_addresses (cf_DB c') = db_addresses (cf_DB c) ->
  (forall v6, db_domains v6 (cf_DB c') = db_domains v6 (cf_DB c)) ->
  saveDomain c' = saveDomain c -> (forall v6, pending v6 c' = pending v6 c) -> savers c' = savers c ->
  cache_wf c -> cache_wf c' /\ cache_view c' = cache_view c.
Proof.
  intros Ha Hd Hs Hp Hsv Hc.
  assert (Hv : cache_view c' = cache_view c) by (unfold cache_view; congruence).
  split; [|done]. destruct Hc as [W1 W2 W3 W4 W5 W6 W7]. split; rewrite ?Hv, ?Hsv, ?Hs, ?Ha; try done.
  - intros v6. rewrite Hp. apply W1.
  - intros v6. rewrite Hd. apply W2.
  - eapply Forall_impl; [exact W5|]. intros s. unfold saver_ok. by rewrite Hs, Ha.
Qed.

Lemma save_metadata_same m c :
  cache_wf c -> cache_wf (CacheFile_FakeIPSaveMetadata m c).2 /\
                cache_view (CacheFile_FakeIPSaveMetadata m c).2 = cache_view c.
Proof.
  apply cache_wf_same; try done. simpl. unfold db_addresses. simpl.
  by destruct (db_FakeIP (cf_DB c)).
Qed.

Lemma cache_save s m :
  cache_wf s -> cache_wf (CacheFile_FakeIPSaveMetadataAsync m s) /\
                cache_view (CacheFile_FakeIPSaveMetadataAsync m s) = cache_view s.
Proof. by apply cache_wf_same; try done; intros []. Qed.

Lemma fire_same c : cache_wf c -> cache_wf (fire_metadata_timer c) /\ cache_view (fire_metadata_timer c) = cache_view c.
Proof.
  intros Hc. unfold fire_metadata_timer. destruct (saveMetadataTimer c) as [[held []]|]; [|done..].
  destruct (save_metadata_same held c Hc) as [Hc' Hv]. rewrite <- Hv.
  by apply cache_wf_same; try done; intros [].
Qed.

Section fresh_store.
Context (c : CacheFile) (a : Addr) (d : string).
Context (Hc : cache_wf c) (Hfresh : cache_view c !! a = None) (Hvalid : Addr_IsValid a = true) (Hne : d <> "").
Context (Hnew : CacheFile_FakeIPLoadDomain d (negb (Addr_Is4 a)) c = None).

Lemma fresh_nowhere : saveDomain c !! a = None /\ db_addresses (cf_DB c) !! a = None.
Proof. unfold cache_view in Hfresh. by apply lookup_union_None in Hfresh. Qed.

Lemma new_domain a' : cache_view c !! a' = Some d -> Addr_Is4 a' <> Addr_Is4 a.
Proof.
  intros Hv Hf. assert (CacheFile_FakeIPLoadDomain d (negb (Addr_Is4 a)) c = Some a'); [|congruence].
  apply cache_load_domain; [done|]. by rewrite negb_involutive.
Qed.

Lemma cache_store_view : cache_view (CacheFile_FakeIPStoreAsync a d c) = <[a := d]> (cache_view c).
Proof. unfold cache_view. simpl. by rewrite insert_union_l. Qed.

Lemma cache_store_pending v6 :
  pending v6 (CacheFile_FakeIPStoreAsync a d c) =
    if bool_decide (v6 = negb (Addr_Is4 a)) then replace_domain a d (saveDomain c !! a) (pending v6 c) else pending v6 c.
Proof. destruct v6; simpl; by destruct (Addr_Is4 a). Qed.

Lemma cache_store_wf : cache_wf (CacheFile_FakeIPStoreAsync a d c).
Proof.
  destruct fresh_nowhere as [Hn1 Hn2]. destruct Hc as [W1 W2 W3 W4 W5 W6 W7].
  split; rewrite ?cache_store_view; simpl; try done.
  - intros v6. rewrite cache_store_pending. case_bool_decide as Hv.
    + apply inverse_store; [done|by rewrite Hv, negb_involutive|].
      destruct (pending v6 c !! d) as [a'|] eqn:E; [|done]. exfalso.
      apply W1 in E as [Hs Hf]. apply (new_domain a'); [by apply cache_view_pending|]. rewrite Hf, Hv. apply negb_involutive.
    + apply inverse_other; [done|]. by destruct v6, (Addr_Is4 a).
  - intros a1 a2 d'. destruct (decide (a1 = a)) as [->|H1], (decide (a2 = a)) as [->|H2];
      rewrite ?lookup_insert_eq, ?lookup_insert_ne by done; [done|..|by apply W3].
    + intros [= <-] Hv Hf. exfalso. by apply (new_domain a2).
    + intros Hv [= <-] Hf. exfalso. by apply (new_domain a1).
  - intros a' d'. destruct (decide (a' = a)) as [->|Hna]; rewrite ?lookup_insert_eq, ?lookup_insert_ne by done.
    + by intros [= <-].
    + apply W4.
  - apply Forall_app. split; [|constructor; [|done]].
    + eapply Forall_impl; [exact W5|]. intros s [Hs1 Hs2]. unfold saver_ok. simpl. split; [|done].
      rewrite lookup_insert_ne; [done|]. congruence.
    + unfold saver_ok. simpl. rewrite lookup_insert_eq. done.
  - rewrite fmap_app. apply NoDup_app. split; [done|]. split; [|by apply NoDup_singleton].
    intros a' [s [-> Hs]]%list_elem_of_fmap Ha'%list_elem_of_singleton. simpl in Ha'.
    pose proof (proj1 (Forall_forall _ _) W5 s Hs) as [Hs1 _]. rewrite Ha' in Hs1. congruence.
  - intros a' d'. destruct (decide (a' = a)) as [->|Hna]; rewrite ?lookup_insert_eq, ?lookup_insert_ne by done.
    + intros _. eexists. split; [apply elem_of_app; right; apply list_elem_of_here|done].
    + intros Hs. destruct (W7 _ _ Hs) as (s & Hin & ?). exists s. split; [|done]. apply elem_of_app. by left.
Qed.
End fresh_store.

Lemma saver_at c i s : cache_wf c -> savers c !! i = Some s -> saver_ok c s.
Proof. intros Hc Hs. by apply (Forall_lookup_1 _ _ _ _ (cw_savers c Hc) Hs). Qed.

Lemma other_saver c i j s s' :
  cache_wf c -> savers c !! i = Some s -> savers c !! j = Some s' -> i <> j -> sv_address s' <> sv_address s.
Proof.
  intros Hc Hi Hj Hne Heq. apply Hne.
  apply (NoDup_lookup (sv_address <$> savers c) i j (sv_address s)); [exact (cw_nodup c Hc)| |].
  - by rewrite list_lookup_fmap, Hi.
  - rewrite list_lookup_fmap, Hj. simpl. by rewrite Heq.
Qed.

Lemma saver_write_ok i c c' :
  cache_wf c -> saver_write i c = Some c' -> cache_wf c' /\ cache_view c' = cache_view c.
Proof.
  intros Hc. unfold saver_write. destruct (savers c !! i) as [s|] eqn:Ei; [|done].
  destruct (sv_written s) eqn:Ew; [done|]. intros [= <-].
  destruct (saver_at c i s Hc Ei) as [Hsd Hdb]. rewrite Ew in Hdb.
  set (a := sv_address s) in *. set (d := sv_domain s) in *.
  pose proof (cache_view_pending c a d Hsd) as Hview.
  destruct (cw_entries c Hc a d Hview) as [Hne Hvalid].
  set (db' := (db_store a d (cf_DB c)).2).
  assert (Ha : db_addresses db' = <[a := d]> (db_addresses (cf_DB c))).
  { unfold db', db_store. rewrite bool_decide_false by done. unfold db_addresses.
    destruct (Addr_Is4 a); simpl; by destruct (db_FakeIP (cf_DB c)). }
  assert (Hd : forall v6, db_domains v6 db' =
            if bool_decide (v6 = negb (Addr_Is4 a)) then replace_domain a d None (db_domains v6 (cf_DB c))
            else db_domains v6 (cf_DB c)).
  { intros v6. unfold db', db_store. rewrite bool_decide_false by done.
    assert (bk_addresses (default empty_bucket (db_FakeIP (cf_DB c))) !! a = None) as ->.
    { unfold db_addresses in Hdb. by destruct (db_FakeIP (cf_DB c)). }
    by destruct v6, (Addr_Is4 a). }
  assert (Hv : forall c1, saveDomain c1 = saveDomain c -> cf_DB c1 = db' -> cache_view c1 = cache_view c).
  { intros c1 H1 H2. unfold cache_view. rewrite H1, H2, Ha. apply map_eq. intros a'. rewrite !lookup_union.
    destruct (decide (a' = a)) as [->|Hna]; [by rewrite Hsd, lookup_insert_eq, Hdb|by rewrite lookup_insert_ne]. }
  match goal with |- cache_wf ?x /\ _ => set (c1 := x) end. pose proof (Hv c1 eq_refl eq_refl) as Hv1.
  split; [|done]. pose proof Hc as [W1 W2 W3 W4 W5 W6 W7]. split; rewrite ?Hv1; try done; simpl.
  - intros v6. rewrite Ha, Hd. case_bool_decide as Hv6.
    + pose proof (inverse_store v6 (db_domains v6 (cf_DB c)) (db_addresses (cf_DB c)) a d (W2 v6)) as Hi.
      rewrite Hdb in Hi. apply Hi; [by rewrite Hv6, negb_involutive|].
      destruct (db_domains v6 (cf_DB c) !! d) as [a'|] eqn:E; [|done]. exfalso.
      apply W2 in E as [Hs Hf]. assert (a' = a); [|congruence].
      apply (W3 _ _ d); [by apply cache_view_db|done|]. rewrite Hf, Hv6. apply negb_involutive.
    + apply inverse_other; [done|]. by destruct v6, (Addr_Is4 a).
  - apply Forall_lookup. intros j s' Hj. unfold saver_ok. simpl. rewrite Ha.
    destruct (decide (i = j)) as [<-|Hij].
    + rewrite list_lookup_insert_eq in Hj by (by eapply lookup_lt_Some). injection Hj as <-. simpl. fold a d.
      by rewrite lookup_insert_eq.
    + rewrite list_lookup_insert_ne in Hj by done.
      pose proof (other_saver c i j s s' Hc Ei Hj Hij) as Hna. fold a in Hna.
      rewrite lookup_insert_ne by congruence. by apply (saver_at c j s' Hc).
  - rewrite list_fmap_insert. rewrite list_insert_id; [done|]. rewrite list_lookup_fmap. simpl. by rewrite Ei.
  - intros a' d' Hs. destruct (W7 a' d' Hs) as (s' & [j Hj]%list_elem_of_lookup & Heq).
    destruct (decide (i = j)) as [<-|Hij].
    + eexists. split; [eapply list_elem_of_lookup_2; by apply list_lookup_insert_eq; eapply lookup_lt_Some|].
      simpl. rewrite Ei in Hj. injection Hj as <-. exact Heq.
    + exists s'. split; [|done]. apply (list_elem_of_lookup_2 _ j). by rewrite list_lookup_insert_ne.
Qed.

Lemma saver_end_ok i c c' :
  cache_wf c -> saver_end i c = Some c' -> cache_wf c' /\ cache_view c' = cache_view c.
Proof.
  intros Hc. unfold saver_end. destruct (savers c !! i) as [s|] eqn:Ei; [|done].
  destruct (sv_written s) eqn:Ew; [|done]. simpl. intros [= <-].
  destruct (saver_at c i s Hc Ei) as [Hsd Hdb]. rewrite Ew in Hdb.
  set (a := sv_address s) in *. set (d := sv_domain s) in *.
  match goal with |- cache_wf ?x /\ _ => set (c1 := x) end.
  assert (Hv : cache_view c1 = cache_view c).
  { unfold cache_view. simpl. apply map_eq. intros a'. rewrite !lookup_union.
    destruct (decide (a' = a)) as [->|Hna]; [by rewrite lookup_delete_eq, Hsd, Hdb|by rewrite lookup_delete_ne]. }
  split; [|done]. pose proof Hc as [W1 W2 W3 W4 W5 W6 W7]. split; rewrite ?Hv; try done; simpl.
  - intros v6 d' a'.
    assert (Hp : pending v6 c1 = if bool_decide (v6 = negb (Addr_Is4 a)) then delete d (pending v6 c) else pending v6 c)
      by (unfold c1; destruct v6; simpl; by destruct (Addr_Is4 a)).
    rewrite Hp. destruct (decide (a' = a)) as [->|Hna].
    + rewrite lookup_delete_eq. split; [|naive_solver]. case_bool_decide as Hv6.
      * rewrite lookup_delete_Some. intros [Hne [Hs _]%W1]. congruence.
      * intros [_ Hf]%W1. destruct v6, (Addr_Is4 a); done.
    + rewrite lookup_delete_ne by done. case_bool_decide as Hv6; [|apply W1].
      rewrite lookup_delete_Some, (W1 v6 d' a'). split; [tauto|]. intros [Hs Hf]. split; [|done].
      intros <-. apply Hna. apply (W3 _ _ d); [by apply cache_view_pending..|].
      rewrite Hf, Hv6. apply negb_involutive.
  - apply Forall_lookup. intros j s' Hj. unfold saver_ok. simpl.
    assert (Hj' : exists k, k <> i /\ savers c !! k = Some s').
    { destruct (decide (j < i)%nat) as [Hlt|Hge].
      - exists j. split; [lia|]. by rewrite list_lookup_delete_lt in Hj.
      - exists (S j). split; [lia|]. by rewrite list_lookup_delete_ge in Hj by lia. }
    destruct Hj' as (k & Hk & Hs'). pose proof (other_saver c i k s s' Hc Ei Hs' ltac:(done)) as Hna.
    fold a in Hna. rewrite lookup_delete_ne by done. by apply (saver_at c k s' Hc).
  - rewrite list_fmap_delete. eapply sublist_NoDup; [done|apply sublist_delete].
  - intros a' d'. rewrite lookup_delete_Some. intros [Hna Hs]. destruct (W7 a' d' Hs) as (s' & Hin & Heq).
    exists s'. split; [|done]. apply list_elem_of_lookup in Hin as [j Hj]. apply list_elem_of_lookup.
    assert (i <> j) by (intros ->; rewrite Ei in Hj; injection Hj as <-; by apply Hna).
    destruct (decide (j < i)%nat); [exists j; by rewrite list_lookup_delete_lt|].
    exists (j - 1)%nat. rewrite list_lookup_delete_ge by lia. by replace (S (j - 1)) with j by lia.
Qed.

(** What the cache file does by itself: a step of a goroutine, or its timer. *)
Definition cache_background (c c' : CacheFile) : Prop :=
  (exists i, saver_write i c = Some c' \/ saver_end i c = Some c') \/ c' = fire_metadata_timer c.

#[export] Instance CacheFile_laws : FakeIPStorageLaws CacheFile.
Proof.
  refine {| fs_wf := cache_wf; fs_view := cache_view;
            fs_storable a c := cache_view c !! a = None; fs_background := cache_background |}.
  - intros s a Hs. by apply cache_load.
  - intros s d v6 a Hs. by apply cache_load_domain.
  - intros s a d Hs Hfresh Hv Hne Hnew. split; [by apply cache_store_wf|apply cache_store_view].
  - intros s m Hs. by apply cache_save.
  - intros s s' Hs [[i [Hw|He]]| ->]; [by eapply saver_write_ok|by eapply saver_end_ok|by apply fire_same].
Defined.

(** ** The metadata survives its binary form *)

Definition plain_addr (a : Addr) : Prop :=
  Addr_ok a /\ match a with Addr6 _ z => z = "" | _ => True end.

Lemma Addr_binary a : plain_addr a -> Addr_UnmarshalBinary (Addr_MarshalBinary a) = Ok a.
Proof.
  intros [Hok Hz]. destruct a as [|n|n z]; [done|..]; unfold Addr_UnmarshalBinary; cbn [Addr_MarshalBinary].
  - rewrite length_be_bytes. cbn [Nat.eqb]. rewrite big_endian_be_bytes; [done|exact Hok].
  - subst z. rewrite app_nil_r, length_be_bytes. cbn [Nat.eqb]. rewrite big_endian_be_bytes; [done|exact Hok].
Qed.

Lemma length_Addr_binary a : plain_addr a -> (length (Addr_MarshalBinary a) <= 16)%nat.
Proof.
  intros [_ Hz]. destruct a; cbn [Addr_MarshalBinary]; [simpl; lia|rewrite length_be_bytes; lia|].
  subst. rewrite length_app, length_be_bytes. simpl. lia.
Qed.

Lemma without_zone_plain p : Prefix_ok p -> without_zone (prefix_ip p) = prefix_ip p /\ plain_addr (prefix_ip p).
Proof.
  unfold Prefix_ok, plain_addr, Addr_ok. destruct (prefix_ip p) as [|n|n z]; [done|naive_solver|].
  intros (Hn & -> & _). done.
Qed.

Lemma Prefix_binary p : Prefix_ok p -> Prefix_UnmarshalBinary (Prefix_MarshalBinary p) = Ok p.
Proof.
  intros Hp. destruct (without_zone_plain p Hp) as [Hz Hplain].
  unfold Prefix_UnmarshalBinary, Prefix_MarshalBinary. rewrite Hz, last_snoc, length_app. simpl length.
  rewrite Nat.add_sub, take_app_length, Addr_binary by done. simpl. f_equal.
  unfold PrefixFrom. rewrite Hz. unfold Prefix_ok in Hp.
  destruct p as [[|n|n z] bits]; simpl in *; [by injection Hp as ->|..];
    (rewrite Z.mod_small by lia; rewrite (proj2 (Z.leb_le 0 bits)) by lia;
     rewrite (proj2 (Z.leb_le bits _)) by lia; simpl).
  - done.
  - by destruct Hp as (_ & -> & _).
Qed.

Lemma length_Prefix_binary p : Prefix_ok p -> (length (Prefix_MarshalBinary p) <= 17)%nat.
Proof.
  intros Hp. destruct (without_zone_plain p Hp) as [Hz Hplain]. unfold Prefix_MarshalBinary.
  rewrite Hz, length_app. pose proof (length_Addr_binary _ Hplain). simpl. lia.
Qed.

Lemma get_put_element data rest :
  Z.of_nat (length data) < 65536 -> get_element (put_element data ++ rest) = Ok (data, rest).
Proof.
  intros Hl. unfold get_element, put_element. rewrite !length_app, length_be_bytes. simpl plus.
  rewrite (proj2 (Nat.ltb_ge _ _)) by lia.
  rewrite <- app_assoc, take_app_le by (by rewrite length_be_bytes).
  rewrite take_ge by (by rewrite length_be_bytes).
  rewrite drop_app_ge by (by rewrite length_be_bytes). rewrite length_be_bytes. simpl minus. rewrite drop_0.
  rewrite big_endian_be_bytes by (change (256 ^ Z.of_nat 2) with 65536; lia). rewrite Nat2Z.id.
  rewrite (proj2 (Nat.ltb_ge _ _)) by (rewrite length_app; lia).
  by rewrite take_app_length, drop_app_length.
Qed.

Definition metadata_ok (m : FakeIPMetadata) : Prop :=
  Prefix_ok (md_Inet4Range m) /\ Prefix_ok (md_Inet6Range m) /\
  plain_addr (md_Inet4Current m) /\ plain_addr (md_Inet6Current m).

Lemma metadata_binary m : metadata_ok m -> FakeIPMetadata_UnmarshalBinary (FakeIPMetadata_MarshalBinary m) = Ok m.
Proof.
  intros (H4 & H6 & C4 & C6). unfold FakeIPMetadata_UnmarshalBinary, FakeIPMetadata_MarshalBinary.
  pose proof (length_Prefix_binary _ H4). pose proof (length_Prefix_binary _ H6).
  pose proof (length_Addr_binary _ C4). pose proof (length_Addr_binary _ C6).
  rewrite get_put_element by lia. cbn [res_bind]. rewrite Prefix_binary by done. cbn [res_bind].
  rewrite get_put_element by lia. cbn [res_bind]. rewrite Prefix_binary by done. cbn [res_bind].
  rewrite get_put_element by lia. cbn [res_bind]. rewrite Addr_binary by done. cbn [res_bind].
  rewrite <- (app_nil_r (put_element (Addr_MarshalBinary (md_Inet6Current m)))).
  rewrite get_put_element by lia. cbn [res_bind]. rewrite Addr_binary by done. by destruct m.
Qed.

(** ** The addresses of a range *)

Definition addr (isIPv6 : bool) (n : Z) : Addr := if isIPv6 then Addr6 n "" else Addr4 n.
Definition width (isIPv6 : bool) : Z := if isIPv6 then 128 else 32.

Section range.
Context (v6 : bool) (base bits : Z).

(** The addresses the store gives out: from the third of the range to its last. *)
Definition host_bits : Z := width v6 - bits.
Definition lowest : Z := base + 2.
Definition highest : Z := (base `div` 2 ^ host_bits + 1) * 2 ^ host_bits - 1.
Definition room : Z := highest - lowest + 1.

Definition the_range : Prefix := {| prefix_ip := addr v6 base; prefix_bits := bits |}.

(** The range has a third address. *)
Definition range_ok : Prop := 0 <= bits <= width v6 /\ 0 <= base < 2 ^ width v6 /\ lowest <= highest.

Context (Hok : range_ok).

Lemma host_bits_pos : 0 <= host_bits /\ 0 < 2 ^ host_bits.
Proof. destruct Hok as ([? ?] & _). unfold host_bits. split; [lia|apply Z.pow_pos_nonneg; lia]. Qed.

Lemma contains_div n :
  0 <= n -> Prefix_Contains the_range (addr v6 n) = bool_decide (n `div` 2 ^ host_bits = base `div` 2 ^ host_bits).
Proof.
  intros Hn. destruct host_bits_pos as [Hk _]. destruct Hok as ([Hb _] & _).
  assert (Hv : Prefix_IsValid the_range = true).
  { unfold Prefix_IsValid, the_range. simpl. rewrite (proj2 (Z.leb_le _ _) Hb). by destruct v6. }
  unfold Prefix_Contains. rewrite Hv. simpl. unfold addr, host_bits, width in *.
  destruct v6; simpl; rewrite !Z.shiftr_div_pow2 by lia;
    (case_bool_decide as E; [rewrite E; apply Z.eqb_refl|apply Z.eqb_neq; congruence]).
Qed.

Lemma highest_bound : base <= highest /\ highest < 2 ^ width v6.
Proof.
  destruct host_bits_pos as [Hk Hp]. destruct Hok as ([Hb0 Hb] & [H0 H1] & _). unfold highest.
  pose proof (Z.div_mod base (2 ^ host_bits) ltac:(lia)). pose proof (Z.mod_pos_bound base (2 ^ host_bits) Hp).
  split; [lia|].
  assert (Hw : 2 ^ width v6 = 2 ^ bits * 2 ^ host_bits).
  { rewrite <- Z.pow_add_r by lia. f_equal. unfold host_bits. lia. }
  assert (base `div` 2 ^ host_bits < 2 ^ bits); [|nia].
  apply Z.div_lt_upper_bound; [lia|]. rewrite Z.mul_comm, <- Hw. lia.
Qed.

Lemma in_range_iff n : base <= n -> n <= highest <-> n `div` 2 ^ host_bits = base `div` 2 ^ host_bits.
Proof.
  destruct host_bits_pos as [_ Hp]. intros Hn. unfold highest.
  pose proof (Z.div_mod base (2 ^ host_bits) ltac:(lia)) as Hd.
  pose proof (Z.mod_pos_bound base (2 ^ host_bits) Hp).
  pose proof (Z.div_mod n (2 ^ host_bits) ltac:(lia)).
  pose proof (Z.mod_pos_bound n (2 ^ host_bits) Hp).
  set (q := base `div` 2 ^ host_bits) in *. set (q' := n `div` 2 ^ host_bits) in *. split.
  - intros Hh. assert (q <= q') by (apply Z.div_le_mono; lia).
    assert (~ q + 1 <= q'); [|lia]. intros Hc. nia.
  - intros Heq. nia.
Qed.

Lemma Next_addr n : 0 <= n < 2 ^ width v6 - 1 -> Addr_Next (addr v6 n) = addr v6 (n + 1).
Proof.
  intros Hn. unfold addr, width in *. destruct v6; simpl.
  - rewrite (proj2 (Z.eqb_neq _ _)) by lia. done.
  - rewrite (proj2 (Z.eqb_neq _ _)) by lia. done.
Qed.

Lemma Next_last : Addr_Next (addr v6 (2 ^ width v6 - 1)) = AddrInvalid.
Proof. by destruct v6. Qed.

Lemma first_address_value : first_address the_range = addr v6 lowest.
Proof.
  destruct highest_bound as [_ Hh]. destruct Hok as (_ & [H0 _] & Hr). unfold lowest in *.
  unfold first_address. simpl. rewrite !Next_addr by lia. f_equal. lia.
Qed.

Lemma contains_range n : lowest <= n <= highest -> Prefix_Contains the_range (addr v6 n) = true.
Proof.
  intros Hn. destruct Hok as (_ & [H0 _] & _). unfold lowest in *. rewrite contains_div by lia.
  apply bool_decide_eq_true. apply in_range_iff; lia.
Qed.

Lemma next_address_value c :
  lowest <= c <= highest ->
  next_address the_range (addr v6 c) = addr v6 (if c + 1 <=? highest then c + 1 else lowest).
Proof.
  intros Hc. destruct highest_bound as [_ Hh]. pose proof Hok as (_ & [H0 _] & _). unfold lowest in Hc.
  unfold next_address. destruct (Z.leb_spec (c + 1) highest) as [Hle|Hgt].
  - rewrite Next_addr by lia. rewrite contains_range by (unfold lowest; lia). done.
  - assert (Prefix_Contains the_range (Addr_Next (addr v6 c)) = false) as ->; [|apply first_address_value].
    destruct (decide (c = 2 ^ width v6 - 1)) as [->|Hne].
    + rewrite Next_last. unfold Prefix_Contains. by destruct (prefix_ip the_range), (Prefix_IsValid _).
    + rewrite Next_addr by lia. rewrite contains_div by lia. apply bool_decide_eq_false.
      intros Heq. apply in_range_iff in Heq; lia.
Qed.

(** The [j]-th address after [c], around the range. *)
Definition after (c : Z) (j : nat) : Z := lowest + (c - lowest + Z.of_nat j) mod room.

Lemma room_pos : 0 < room.
Proof. destruct Hok as (_ & _ & ?). unfold room. lia. Qed.

Lemma after_range c j : lowest <= after c j <= highest.
Proof. pose proof room_pos. pose proof (Z.mod_pos_bound (c - lowest + Z.of_nat j) room). unfold after, room in *. lia. Qed.

Lemma after_0 c : lowest <= c <= highest -> after c 0 = c.
Proof. intros Hc. unfold after. rewrite Z.add_0_r, Z.mod_small; unfold room; lia. Qed.

Lemma after_step c j : (if after c j + 1 <=? highest then after c j + 1 else lowest) = after c (S j).
Proof.
  pose proof room_pos. pose proof (after_range c j). unfold after in *.
  replace (c - lowest + Z.of_nat (S j)) with (c - lowest + Z.of_nat j + 1) by lia.
  set (x := c - lowest + Z.of_nat j) in *. rewrite <- (Zplus_mod_idemp_l x 1).
  pose proof (Z.mod_pos_bound x room ltac:(lia)).
  destruct (Z.leb_spec (lowest + x mod room + 1) highest).
  - rewrite (Z.mod_small (x mod room + 1)); unfold room in *; lia.
  - replace (x mod room + 1) with room by (unfold room in *; lia). rewrite Z_mod_same_full. lia.
Qed.

Lemma after_returns c j : lowest <= c <= highest -> (0 < j)%nat -> Z.of_nat j < room -> after c j <> c.
Proof.
  intros Hc Hj Hr Heq. pose proof room_pos. unfold after in Heq.
  assert (Hm : (c - lowest + Z.of_nat j) mod room = (c - lowest) mod room).
  { rewrite (Z.mod_small (c - lowest)); unfold room in *; lia. }
  pose proof (Z.div_mod (c - lowest + Z.of_nat j) room ltac:(lia)) as H1.
  pose proof (Z.div_mod (c - lowest) room ltac:(lia)) as H2.
  rewrite Hm in H1. set (q1 := (c - lowest + Z.of_nat j) `div` room) in *.
  set (q2 := (c - lowest) `div` room) in *. assert (Hd : Z.of_nat j = room * (q1 - q2)) by (rewrite Z.mul_sub_distr_l; lia).
  destruct (Z.le_gt_cases (q1 - q2) 0); nia.
Qed.
End range.

(** ** The store, over any storage that keeps the contract *)

Definition st_range {S} (v6 : bool) (st : Store S) : Prefix := if v6 then inet6Range st else inet4Range st.
Definition st_current {S} (v6 : bool) (st : Store S) : Addr := if v6 then inet6Current st else inet4Current st.

(** One family: no range, or a range with room and a current address inside. *)
Definition family_ok (v6 : bool) (range : Prefix) (current : Addr) : Prop :=
  current = AddrInvalid \/
  exists base bits c, range_ok v6 base bits /\ range = the_range v6 base bits /\ current = addr v6 c /\
    lowest base <= c <= highest v6 base bits.

Lemma addr_valid v6 n : Addr_IsValid (addr v6 n) = true.
Proof. by destruct v6. Qed.
Lemma addr_family v6 n : Addr_Is4 (addr v6 n) = negb v6.
Proof. by destruct v6. Qed.
Lemma addr_inj v6 n m : addr v6 n = addr v6 m -> n = m.
Proof. destruct v6; simpl; congruence. Qed.

Lemma family_next v6 range current :
  family_ok v6 range current -> current <> AddrInvalid ->
  family_ok v6 range (next_address range current) /\ Addr_IsValid (next_address range current) = true /\
  Addr_Is4 (next_address range current) = negb v6 /\ Prefix_Contains range (next_address range current) = true.
Proof.
  intros [->|(base & bits & c & Hok & -> & -> & Hc)] Hne; [done|].
  rewrite next_address_value by done.
  assert (Hn : lowest base <= (if c + 1 <=? highest v6 base bits then c + 1 else lowest base) <= highest v6 base bits).
  { destruct Hok as (_ & _ & Hr). destruct (Z.leb_spec (c + 1) (highest v6 base bits)); lia. }
  split_and!; [|apply addr_valid|apply addr_family|by apply contains_range].
  right. by eexists base, bits, _.
Qed.

Section store_theorems.
Context {S : Type} `{FakeIPStorageLaws S}.

Record store_ok (st : Store S) (sg : S) : Prop := {
  so_storage : storage st = Some sg;
  so_wf : fs_wf sg;
  so_family : forall v6, family_ok v6 (st_range v6 st) (st_current v6 st);
  so_view : forall a d, fs_view sg !! a = Some d -> Prefix_Contains (st_range (negb (Addr_Is4 a)) st) a = true
}.

(** The storage can take the next address of a family. *)
Definition storable (v6 : bool) (st : Store S) (sg : S) : Prop :=
  fs_storable (next_address (st_range v6 st) (st_current v6 st)) sg.

(** What [Create] does, in its three cases. *)
Inductive create_case (d : string) (v6 : bool) (st : Store S) (sg : S) : res Addr -> Store S -> S -> Prop :=
  | case_known a :
      fs_view sg !! a = Some d -> Addr_Is4 a = negb v6 -> create_case d v6 st sg (Ok a) st sg
  | case_no_range :
      FakeIPLoadDomain d v6 sg = None -> st_current v6 st = AddrInvalid ->
      create_case d v6 st sg (Err (missing_range (if v6 then "IPv6" else "IPv4"))) st sg
  | case_new a st' sg' :
      FakeIPLoadDomain d v6 sg = None -> a = next_address (st_range v6 st) (st_current v6 st) ->
      st_current v6 st <> AddrInvalid -> st_current v6 st' = a ->
      st_current (negb v6) st' = st_current (negb v6) st ->
      fs_view sg' = <[a := d]> (fs_view sg) ->
      create_case d v6 st sg (Ok a) st' sg'.

Lemma create_cases d v6 st sg :
  store_ok st sg -> d <> "" -> (FakeIPLoadDomain d v6 sg = None -> storable v6 st sg) ->
  exists sg', store_ok (Store_Create d v6 st).2 sg' /\
    (forall f, st_range f (Store_Create d v6 st).2 = st_range f st) /\
    create_case d v6 st sg (Store_Create d v6 st).1 (Store_Create d v6 st).2 sg'.
Proof.
  intros Hok Hd Hst. pose proof Hok as [Hs Hwf Hfam Hview]. unfold Store_Create. rewrite Hs.
  destruct (FakeIPLoadDomain d v6 sg) as [a|] eqn:El.
  { exists sg. split_and!; [done..|]. apply fs_load_domain in El as [Hv Hf]; [|done]. by apply case_known. }
  specialize (Hst eq_refl). unfold storable in Hst. unfold allocate.
  change (if v6 then inet6Current st else inet4Current st) with (st_current v6 st).
  change (if v6 then inet6Range st else inet4Range st) with (st_range v6 st).
  destruct (Addr_IsValid (st_current v6 st)) eqn:Ev; simpl.
  2:{ exists sg. split_and!; [done..|]. apply case_no_range; [done|]. by destruct (st_current v6 st). }
  assert (Hcur : st_current v6 st <> AddrInvalid) by (by intros Hi; rewrite Hi in Ev).
  destruct (family_next v6 _ _ (Hfam v6) Hcur) as (Hf' & Hv' & H4' & Hc').
  set (a := next_address (st_range v6 st) (st_current v6 st)) in *.
  destruct (fs_store sg a d Hwf Hst Hv' Hd) as [Hwf' Hvw'].
  { by rewrite H4', negb_involutive. }
  match goal with |- context [FakeIPSaveMetadataAsync ?m ?x] => destruct (fs_save x m Hwf') as [Hwf2 Hvw2]; set (sg' := FakeIPSaveMetadataAsync m x) in * end.
  exists sg'. assert (Hview2 : fs_view sg' = <[a := d]> (fs_view sg)) by congruence.
  split_and!.
  - split; [done|done| |].
    + intros f. destruct v6, f; simpl in *; first [exact Hf'|exact (Hfam true)|exact (Hfam false)].
    + intros a' d'. rewrite Hview2. destruct (decide (a' = a)) as [->|Hne].
      * intros _. rewrite H4', negb_involutive. by destruct v6.
      * rewrite lookup_insert_ne by done. intros Ha'. pose proof (Hview a' d' Ha') as Hin.
        by destruct (negb (Addr_Is4 a')), v6.
  - by intros [].
  - apply case_new; try done; by destruct v6.
Qed.

(** What may happen to a store: creations for any domain and family, and what
    its storage does by itself.  The count is of new addresses of one family. *)
Inductive activity (v6 : bool) : nat -> Store S -> S -> Store S -> S -> Prop :=
  | act_end st sg : activity v6 0 st sg st sg
  | act_create d f n st sg sg1 st2 sg2 :
      d <> "" -> (FakeIPLoadDomain d f sg = None -> storable f st sg) ->
      storage (Store_Create d f st).2 = Some sg1 ->
      activity v6 n (Store_Create d f st).2 sg1 st2 sg2 ->
      activity v6 (if bool_decide (f = v6) && bool_decide (FakeIPLoadDomain d f sg = None)
                      && bool_decide (st_current f st <> AddrInvalid) then Datatypes.S n else n) st sg st2 sg2
  | act_background n st sg sg1 st2 sg2 :
      fs_background sg sg1 ->
      activity v6 n (st_with (Some sg1) (inet4Current st) (inet6Current st) st) sg1 st2 sg2 ->
      activity v6 n st sg st2 sg2.

Lemma background_ok st sg sg1 :
  store_ok st sg -> fs_background sg sg1 ->
  store_ok (st_with (Some sg1) (inet4Current st) (inet6Current st) st) sg1 /\ fs_view sg1 = fs_view sg.
Proof.
  intros [Hs Hwf Hfam Hview] Hb. destruct (fs_step sg sg1 Hwf Hb) as [Hwf1 Hv1]. split; [|done].
  split; [done|done|intros []; [apply (Hfam true)|apply (Hfam false)]|].
  intros a d. rewrite Hv1. intros Ha. specialize (Hview a d Ha). by destruct (negb (Addr_Is4 a)).
Qed.

(** As long as fewer new addresses than the range has are given out, the
    address stays with its domain. *)
Lemma activity_keeps v6 base bits c d n j st sg st2 sg2 :
  range_ok v6 base bits -> lowest base <= c <= highest v6 base bits ->
  activity v6 n st sg st2 sg2 -> store_ok st sg -> st_range v6 st = the_range v6 base bits ->
  st_current v6 st = addr v6 (after v6 base bits c j) ->
  fs_view sg !! addr v6 c = Some d -> Z.of_nat (j + n) < room v6 base bits ->
  store_ok st2 sg2 /\ fs_view sg2 !! addr v6 c = Some d /\
  (forall f, st_range f st2 = st_range f st) /\
  st_current v6 st2 = addr v6 (after v6 base bits c (j + n)).
Proof.
  intros Hrange Hc Hact. revert j.
  induction Hact as [st sg|d' f n st sg sg1 st2 sg2 Hd' Hst Hs1 _ IH|n st sg sg1 st2 sg2 Hb _ IH];
    intros j Hok Hr Hcur Hv Hn.
  - rewrite Nat.add_0_r. done.
  - destruct (create_cases d' f st sg Hok Hd' Hst) as (sg' & Hok' & Hranges & Hcase).
    assert (sg' = sg1) as -> by (pose proof (so_storage _ _ Hok'); congruence).
    assert (Hr' : st_range v6 (Store_Create d' f st).2 = the_range v6 base bits) by (by rewrite Hranges).
    assert (Hgoal : forall m k, st_current v6 (Store_Create d' f st).2 = addr v6 (after v6 base bits c k) ->
              fs_view sg1 !! addr v6 c = Some d -> (k + n = j + m)%nat -> Z.of_nat (j + m) < room v6 base bits ->
              store_ok st2 sg2 /\ fs_view sg2 !! addr v6 c = Some d /\
              (forall f0, st_range f0 st2 = st_range f0 st) /\
              st_current v6 st2 = addr v6 (after v6 base bits c (j + m))).
    { intros m k Hk Hv1 Hkm Hm. destruct (IH k Hok' Hr' Hk Hv1) as (? & ? & Hrg & Hend); [by rewrite Hkm|].
      split_and!; [done|done| |by rewrite <- Hkm]. intros f0. by rewrite Hrg, Hranges. }
    clear IH. destruct Hcase as [a Ha Hf|Hnone Hinv|a st' sg' Hnone Ha Hne Hcur' Hother Hview'].
    + rewrite (bool_decide_false (FakeIPLoadDomain d' f sg = None)) in Hn |- *.
      2,3: intros Hnone; assert (FakeIPLoadDomain d' f sg = Some a); [|congruence];
           apply fs_load_domain; [by destruct Hok|done].
      rewrite andb_false_r in Hn |- *. simpl in *. by apply (Hgoal n j).
    + rewrite (bool_decide_false (st_current f st <> AddrInvalid)) in Hn |- * by (intros Hx; by apply Hx).
      rewrite andb_false_r in Hn |- *. by apply (Hgoal n j).
    + rewrite (bool_decide_true (FakeIPLoadDomain d' f sg = None)) in Hn |- * by done.
      rewrite (bool_decide_true (st_current f st <> AddrInvalid)) in Hn |- * by done.
      rewrite !andb_true_r in Hn |- *. case_bool_decide as Hfam.
      * subst f. rewrite Hr, Hcur, next_address_value, after_step in Ha by (done || by apply after_range).
        apply (Hgoal (Datatypes.S n) (Datatypes.S j)); [congruence| |lia|done].
        rewrite Hview', lookup_insert_ne; [done|]. rewrite Ha. intros Heq%addr_inj.
        apply (after_returns v6 base bits Hrange c (Datatypes.S j)); [done|lia|lia|done].
      * assert (Hf : v6 = negb f) by (by destruct v6, f).
        apply (Hgoal n j); [by rewrite Hf, Hother, <- Hf| |done|done].
        rewrite Hview', lookup_insert_ne; [done|]. intros Heq.
        destruct (family_next f _ _ (so_family _ _ Hok f) Hne) as (_ & _ & H4 & _).
        rewrite <- Ha, Heq, addr_family, Hf in H4. by destruct f.
  - destruct (background_ok st sg sg1 Hok Hb) as [Hok1 Hv1].
    apply (IH j); [done|by destruct v6|by destruct v6|by rewrite Hv1|done].
Qed.
End store_theorems.

(** ** The store gives an address back its domain *)

Section store_properties.
Context {S : Type} `{FakeIPStorageLaws S}.

Lemma the_range_inj v6 base bits base' bits' :
  the_range v6 base bits = the_range v6 base' bits' -> base = base' /\ bits = bits'.
Proof. unfold the_range. intros [= Ha Hb]. split; [by eapply addr_inj|done]. Qed.

(** A new address, and what became of it after some activity. *)
Lemma new_address_kept d v6 base bits st sg a st1 sg1 n st2 sg2 :
  store_ok st sg -> d <> "" -> st_range v6 st = the_range v6 base bits ->
  FakeIPLoadDomain d v6 sg = None -> storable v6 st sg ->
  Store_Create d v6 st = (Ok a, st1) -> storage st1 = Some sg1 ->
  activity v6 n st1 sg1 st2 sg2 -> Z.of_nat n < room v6 base bits ->
  store_ok st2 sg2 /\ (forall f, st_range f st2 = st_range f st) /\
  fs_view sg2 !! a = Some d /\ Addr_Is4 a = negb v6.
Proof.
  intros Hok Hd Hrange Hnone Hst Hc Hs1 Hact Hn.
  destruct (create_cases d v6 st sg Hok Hd (fun _ => Hst)) as (sg' & Hok' & Hranges & Hcase).
  rewrite Hc in *. simpl in *. assert (sg' = sg1) as -> by (pose proof (so_storage _ _ Hok'); congruence).
  remember (Ok a) as r eqn:Er.
  destruct Hcase as [a' Ha Hf| |a' st' sg' _ Ha Hne Hcur _ Hview]; [|done|]; injection Er as ->.
  { exfalso. pose proof (proj2 (fs_load_domain _ d v6 _ (so_wf _ _ Hok)) (conj Ha Hf)). congruence. }
  destruct (so_family _ _ Hok v6) as [?|(b & bi & c & Hro & Hr & Hcu & Hc0)]; [done|].
  rewrite Hrange in Hr. apply the_range_inj in Hr as [<- <-].
  destruct (family_next v6 _ _ (so_family _ _ Hok v6) Hne) as (Hfam & _ & H4 & _).
  rewrite <- Ha in Hfam, H4. destruct Hfam as [Hi|(b & bi & c1 & _ & Hr & Hc1 & Hc1r)].
  { rewrite Hi in H4. rewrite Ha in Hi. rewrite Hrange, Hcu, next_address_value in Hi by done. by destruct v6. }
  rewrite Hrange in Hr. apply the_range_inj in Hr as [<- <-].
  assert (Hend : store_ok st2 sg2 /\ fs_view sg2 !! addr v6 c1 = Some d /\
            (forall f, st_range f st2 = st_range f st') /\
            st_current v6 st2 = addr v6 (after v6 base bits c1 (0 + n))).
  { apply (activity_keeps v6 base bits c1 d n 0 st' sg'); try done.
    - by rewrite Hranges.
    - rewrite after_0 by done. congruence.
    - rewrite Hview, <- Hc1. apply lookup_insert_eq. }
  destruct Hend as (? & Hv & Hrg & _). split_and!; [done| |by rewrite Hc1|done].
  intros f. by rewrite Hrg.
Qed.

Lemma kept_address d v6 st sg a :
  store_ok st sg -> fs_view sg !! a = Some d -> Addr_Is4 a = negb v6 ->
  Store_Contains a st = true /\ Store_Lookup a st = Ok (Some d) /\ Store_Create d v6 st = (Ok a, st).
Proof.
  intros [Hs Hwf _ Hview] Ha H4. split_and!.
  - specialize (Hview a d Ha). rewrite H4, negb_involutive in Hview.
    unfold Store_Contains. destruct v6; simpl in Hview; rewrite Hview; [apply orb_true_r|done].
  - unfold Store_Lookup. by rewrite Hs, fs_load, Ha.
  - unfold Store_Create. rewrite Hs.
    by rewrite (proj2 (fs_load_domain sg d v6 a Hwf) (conj Ha H4)).
Qed.
End store_properties.

(** C12 (fake addresses keep their domain): over any storage that keeps its
    contract, a domain that asks for an address gets one of the range; and until
    as many new addresses as the range has are given out in that family,
    whatever else is created and whatever the storage does by itself, the
    address is looked up as that domain and the domain is given that address
    again. *)
Theorem fakeip_address_kept {S : Type} `{FakeIPStorageLaws S} d v6 base bits st sg a st1 sg1 n st2 sg2 :
  store_ok st sg -> d <> "" -> st_range v6 st = the_range v6 base bits ->
  FakeIPLoadDomain d v6 sg = None -> storable v6 st sg ->
  Store_Create d v6 st = (Ok a, st1) -> storage st1 = Some sg1 ->
  activity v6 n st1 sg1 st2 sg2 -> Z.of_nat n < room v6 base bits ->
  Store_Contains a st2 = true /\ Store_Lookup a st2 = Ok (Some d) /\ Store_Create d v6 st2 = (Ok a, st2).
Proof.
  intros Hok Hd Hr Hn Hst Hc Hs Hact Hroom.
  destruct (new_address_kept d v6 base bits st sg a st1 sg1 n st2 sg2) as (Hok2 & _ & Hv & H4); try done.
  by apply (kept_address d v6 st2 sg2).
Qed.

(** A started store is a good one, when its ranges have room. *)
Lemma start_ok {S : Type} `{FakeIPStorageLaws S} (sg : S) (range4 range6 : Prefix) :
  (forall v6 : bool, let range := if v6 then range6 else range4 in
     (range = PrefixInvalid \/ exists base bits, range_ok v6 base bits /\ range = the_range v6 base bits)) ->
  FakeIPMetadata_load sg = (Ok None, sg) -> fs_wf (FakeIPReset sg).2 -> fs_view (FakeIPReset sg).2 = ∅ ->
  exists st, Store_Start sg (NewStore range4 range6) = (Ok tt, st) /\ store_ok st (FakeIPReset sg).2 /\
    st_range false st = range4 /\ st_range true st = range6.
Proof.
  intros Hr Hm Hwf Hv. unfold Store_Start. rewrite Hm. eexists. split; [done|]. split; [|done].
  assert (Hfam : forall v6 range,
      (range = PrefixInvalid \/ exists base bits, range_ok v6 base bits /\ range = the_range v6 base bits) ->
      family_ok v6 range (if Prefix_IsValid range then first_address range else AddrInvalid)).
  { intros v6 range [->|(base & bits & Hok & ->)]; [by left|]. right.
    destruct (highest_bound v6 base bits Hok) as [Hb _]. pose proof Hok as (Hbits & _ & Hroom).
    assert (Prefix_IsValid (the_range v6 base bits) = true) as ->.
    { unfold Prefix_IsValid. simpl. rewrite addr_valid. simpl. apply Z.leb_le. lia. }
    exists base, bits, (lowest base). split_and!; [done|done|by apply first_address_value|lia..]. }
  split; [done|done| |].
  - intros []; simpl; [apply (Hfam true), (Hr true)|apply (Hfam false), (Hr false)].
  - intros a d. simpl. rewrite Hv. by rewrite lookup_empty.
Qed.

(** ** Restarting on the cache file *)

(** The process ends: the database stays. *)
Definition reopen (c : CacheFile) : CacheFile :=
  {| cf_DB := cf_DB c; saveDomain := ∅; saveAddress4 := ∅; saveAddress6 := ∅; savers := [];
     saveMetadataTimer := None |}.

Lemma no_pending c : cache_wf c -> savers c = [] -> saveDomain c = ∅ /\ saveAddress4 c = ∅ /\ saveAddress6 c = ∅.
Proof.
  intros Hc Hs.
  assert (Hd : saveDomain c = ∅).
  { apply map_empty. intros a. destruct (saveDomain c !! a) as [d|] eqn:E; [|done].
    destruct (cw_saved c Hc a d E) as (s & Hin & _). rewrite Hs in Hin. by apply elem_of_nil in Hin. }
  split; [done|].
  assert (Hp : forall v6, pending v6 c = ∅); [|by split; [apply (Hp false)|apply (Hp true)]].
  intros v6. apply map_empty. intros d. destruct (pending v6 c !! d) as [a|] eqn:E; [|done].
  apply (cw_pending c Hc) in E as [E _]. by rewrite Hd in E.
Qed.

(** C13 (fake addresses survive a restart): closing a store on the cache file,
    when no write is pending, and starting a new one with the same ranges on
    the database it left goes on at the same addresses, and every address and
    every domain is looked up as before. *)
Theorem fakeip_restart (st : Store CacheFile) c :
  store_ok st c -> savers c = [] -> metadata_ok (metadata_of st) ->
  exists c' st2,
    Store_Close st = (None, st_with (Some c') (inet4Current st) (inet6Current st) st) /\
    Store_Start (reopen c') (NewStore (inet4Range st) (inet6Range st)) = (Ok tt, st2) /\
    (forall v6, st_current v6 st2 = st_current v6 st /\ st_range v6 st2 = st_range v6 st) /\
    (forall a, Store_Lookup a st2 = Store_Lookup a st) /\
    exists c2, storage st2 = Some c2 /\
      forall d v6, FakeIPLoadDomain d v6 c2 = FakeIPLoadDomain d v6 c.
Proof.
  intros [Hs Hwf _ _] Hnone Hm. destruct (no_pending c Hwf Hnone) as (Hd & H4 & H6).
  set (c' := (CacheFile_FakeIPSaveMetadata (metadata_of st) c).2).
  assert (Hload : CacheFile_FakeIPMetadata (reopen c') =
            (Ok (Some (metadata_of st)),
             cf_with_DB (db_with_bucket {| bk_addresses := db_addresses (cf_DB c); bk_metadata := None |} (cf_DB c'))
               (reopen c'))).
  { unfold CacheFile_FakeIPMetadata, reopen, c'. simpl. rewrite metadata_binary by done.
    destruct (FakeIPMetadata_MarshalBinary (metadata_of st)) as [|b l] eqn:E.
    { pose proof (metadata_binary _ Hm) as Hb. rewrite E in Hb. done. }
    unfold db_addresses. by destruct (db_FakeIP (cf_DB c)). }
  exists c'. eexists. split; [unfold Store_Close; by rewrite Hs|].
  split.
  { unfold Store_Start. simpl FakeIPMetadata_load. rewrite Hload. simpl.
    rewrite !bool_decide_true by done. reflexivity. }
  split; [by intros []|]. split.
  - intros a. unfold Store_Lookup. simpl storage. rewrite Hs. f_equal. simpl.
    unfold CacheFile_FakeIPLoad. simpl. rewrite Hd, !lookup_empty. unfold db_load, db_addresses. simpl.
    destruct (db_FakeIP (cf_DB c)) as [b|]; simpl; [done|by rewrite lookup_empty].
  - eexists. split; [done|]. intros d v6. simpl. unfold CacheFile_FakeIPLoadDomain. simpl.
    rewrite H4, H6. by destruct v6.
Qed.

(** ** Concrete stores, witnesses *)

Definition range4 : Prefix := the_range false 3323068416 15.  (* 198.18.0.0/15 *)
Definition range6 : Prefix := the_range true (252 * 2 ^ 120) 18.  (* fc00::/18 *)

Definition started {S : Type} `{FakeIPStorage S} (sg : S) (r4 r6 : Prefix) : Store S :=
  (Store_Start sg (NewStore r4 r6)).2.

Definition a_memory_store : Store MemoryStorage := started NewMemoryStorage range4 range6.
Definition new_cache : CacheFile :=
  reopen {| cf_DB := {| db_FakeIP := None; db_Domain4 := None; db_Domain6 := None |};
            saveDomain := ∅; saveAddress4 := ∅; saveAddress6 := ∅; savers := []; saveMetadataTimer := None |}.
Definition a_cache_store : Store CacheFile := started new_cache range4 range6.

Lemma ranges_ok (v6 : bool) :
  let range := if v6 then range6 else range4 in
  range = PrefixInvalid \/ exists base bits, range_ok v6 base bits /\ range = the_range v6 base bits.
Proof.
  right. destruct v6; do 2 eexists; (split; [|reflexivity]); unfold range_ok, lowest, highest, host_bits, width;
    vm_compute; repeat split; discriminate.
Qed.

Lemma a_memory_store_ok : store_ok a_memory_store NewMemoryStorage.
Proof.
  destruct (start_ok NewMemoryStorage range4 range6 ranges_ok) as (st & Hst & Hok & _ & _).
  - reflexivity.
  - split; apply inverse_empty.
  - reflexivity.
  - unfold a_memory_store, started. by rewrite Hst.
Qed.

Lemma new_cache_wf : cache_wf new_cache.
Proof.
  assert (Hv : cache_view new_cache = ∅) by (unfold cache_view; simpl; apply map_union_empty).
  split; rewrite ?Hv.
  - intros []; apply inverse_empty.
  - intros []; apply inverse_empty.
  - intros a a' d. by rewrite lookup_empty.
  - intros a d. by rewrite lookup_empty.
  - constructor.
  - constructor.
  - intros a d. simpl. by rewrite lookup_empty.
Qed.

Lemma a_cache_store_ok : store_ok a_cache_store new_cache.
Proof.
  destruct (start_ok new_cache range4 range6 ranges_ok) as (st & Hst & Hok & _ & _).
  - reflexivity.
  - exact new_cache_wf.
  - unfold fs_view. simpl. apply map_union_empty.
  - unfold a_cache_store, started. by rewrite Hst.
Qed.

(** One new address of the family that is counted. *)
Lemma act_new {S : Type} `{FakeIPStorageLaws S} v6 d n (st : Store S) sg sg1 st2 sg2 :
  d <> "" -> FakeIPLoadDomain d v6 sg = None -> st_current v6 st <> AddrInvalid -> storable v6 st sg ->
  storage (Store_Create d v6 st).2 = Some sg1 -> activity v6 n (Store_Create d v6 st).2 sg1 st2 sg2 ->
  activity v6 (Datatypes.S n) st sg st2 sg2.
Proof.
  intros Hd Hn Hc Hst Hs Hact. pose proof (act_create v6 d v6 n st sg sg1 st2 sg2 Hd (fun _ => Hst) Hs Hact) as Hx.
  by rewrite !bool_decide_true in Hx.
Qed.

(** A domain asked for after another one was, on the cache file with its writes
    still pending and then done. *)
Lemma fakeip_address_kept_witness :
  let r := Store_Create "example.org" false a_cache_store in
  exists st2, Store_Lookup (Addr4 3323068419) st2 = Ok (Some "example.org") /\
    Store_Create "example.org" false st2 = (Ok (Addr4 3323068419), st2) /\ r.1 = Ok (Addr4 3323068419).
Proof.
  intros r.
  destruct (storage r.2) as [sg1|] eqn:E1; [|vm_compute in E1; discriminate E1].
  destruct (storage (Store_Create "example.com" false r.2).2) as [sg2|] eqn:E2; [|vm_compute in E2; discriminate E2].
  destruct (saver_write 0 sg2) as [sg3|] eqn:E3;
    [|vm_compute in E2; injection E2 as <-; vm_compute in E3; discriminate E3].
  set (st2 := (Store_Create "example.com" false r.2).2) in *.
  set (st3 := st_with (Some sg3) (inet4Current st2) (inet6Current st2) st2).
  exists st3.
  assert (H : Store_Contains (Addr4 3323068419) st3 = true /\
            Store_Lookup (Addr4 3323068419) st3 = Ok (Some "example.org") /\
            Store_Create "example.org" false st3 = (Ok (Addr4 3323068419), st3)).
  { refine (fakeip_address_kept "example.org" false 3323068416 15 a_cache_store new_cache (Addr4 3323068419) r.2 sg1 1
              st3 sg3 a_cache_store_ok _ _ _ _ _ E1 _ _).
    - discriminate.
    - reflexivity.
    - vm_compute. reflexivity.
    - vm_compute. reflexivity.
    - vm_compute. reflexivity.
    - assert (Hsg1 : sg1 = match storage r.2 with Some x => x | None => new_cache end) by (rewrite E1; reflexivity).
      refine (act_new false "example.com" 0 r.2 sg1 sg2 st3 sg3 _ _ _ _ E2 _).
      + discriminate.
      + rewrite Hsg1. vm_compute. reflexivity.
      + vm_compute. discriminate.
      + rewrite Hsg1. vm_compute. reflexivity.
      + refine (act_background false 0 st2 sg2 sg3 st3 sg3 _ (act_end false st3 sg3)).
        left. exists 0%nat. left. exact E3.
    - vm_compute. reflexivity. }
  destruct H as (_ & H1 & H2). split; [exact H1|]. split; [exact H2|]. vm_compute. reflexivity.
Defined.

Lemma fakeip_restart_witness :
  exists c' st2,
    Store_Close a_cache_store = (None, st_with (Some c') (inet4Current a_cache_store) (inet6Current a_cache_store) a_cache_store) /\
    Store_Start (reopen c') (NewStore range4 range6) = (Ok tt, st2) /\ inet4Current st2 = Addr4 3323068418.
Proof.
  assert (Hm : metadata_ok (metadata_of a_cache_store)).
  { unfold metadata_ok, Prefix_ok, plain_addr, Addr_ok. vm_compute. repeat split; discriminate. }
  destruct (fakeip_restart a_cache_store new_cache a_cache_store_ok eq_refl Hm) as (c' & st2 & Hclose & Hstart & Hsame & _).
  exists c', st2. split; [exact Hclose|]. split; [exact Hstart|].
  destruct (Hsame false) as [Hcur _]. simpl in Hcur. rewrite Hcur. vm_compute. reflexivity.
Defined.

(** ** Behaviours worth knowing *)

(** The store has no lock: two queries that both read the current address
    before either writes it give two domains the same address. *)
Example concurrent_queries_share_an_address :
  let '(p, q, st) := interleave [true; true; false; false; true; true; false; false]
                       (Checking "a.org" false) (Checking "b.org" false) a_memory_store in
  p = Done (Ok (Addr4 3323068419)) /\ q = Done (Ok (Addr4 3323068419)) /\
  Store_Lookup (Addr4 3323068419) st = Ok (Some "b.org").
Proof. by vm_compute. Qed.

(** A reset deletes the three buckets in one transaction, which fails when one
    is missing: with IPv4 addresses only, a changed range keeps the old table,
    and old domains get addresses the store does not contain. *)
Definition used_cache : CacheFile :=
  match CacheFile_FakeIPStore (Addr4 3323068419) "a.org" new_cache with (_, c) => c end.
Definition other_range4 : Prefix := the_range false 167772160 8.  (* 10.0.0.0/8 *)

Example reset_fails_without_all_buckets :
  let st := started used_cache other_range4 PrefixInvalid in
  match Store_Create "a.org" false st with
  | (Ok a, st) => a = Addr4 3323068419 /\ Store_Contains a st = false
  | _ => False
  end.
Proof. by vm_compute. Qed.

(** The timer keeps the metadata of the first call: what it saves is the first
    current address, however many were given out since. *)
Example timer_saves_old_metadata :
  let st := (Store_Create "b.org" false (Store_Create "a.org" false a_cache_store).2).2 in
  inet4Current st = Addr4 3323068420 /\
  match storage st with
  | Some c =>
      match CacheFile_FakeIPMetadata (fire_metadata_timer c) with
      | (Ok (Some m), _) => md_Inet4Current m = Addr4 3323068419
      | _ => False
      end
  | None => False
  end.
Proof. by vm_compute. Qed.

(** In a range of two addresses the third address is outside. *)
Example tiny_range_gives_foreign_address :
  let st := started NewMemoryStorage (the_range false 167772160 31) PrefixInvalid in
  match Store_Create "a.org" false st with
  | (Ok a, st) => a = Addr4 167772162 /\ Store_Contains a st = false
  | _ => False
  end.
Proof. by vm_compute. Qed.

(** The first round of a range starts at its fourth address, later ones at the third. *)
Example first_address_is_skipped :
  (Store_Create "a.org" false a_memory_store).1 = Ok (Addr4 (3323068416 + 3)).
Proof. by vm_compute. Qed.

(** An address of the database that is given to another domain is, until the
    write is done, still the address of the old domain. *)
Example reuse_before_the_write :
  let c := CacheFile_FakeIPStoreAsync (Addr4 3323068419) "b.org" used_cache in
  CacheFile_FakeIPLoad (Addr4 3323068419) c = Some "b.org" /\
  CacheFile_FakeIPLoadDomain "a.org" false c = Some (Addr4 3323068419).
Proof. by vm_compute. Qed.

(** Metadata cut short in the database crashes the start. *)
Example short_metadata_panics :
  (Store_Start (cf_with_DB {| db_FakeIP := Some {| bk_addresses := ∅; bk_metadata := Some [0] |};
                              db_Domain4 := None; db_Domain6 := None |} new_cache)
     (NewStore range4 range6)).1 = Panic "unexpected EOF".
Proof. by vm_compute. Qed.
