(* ===== verification/FakeIPRoute.v ===== *)
(** * From a fake-IP answer to a routed connection

    The fake-IP store of FakeIP.v as the router of Route.v sees it, and the two
    together: a name resolved by the fake-IP transport is the destination of
    the connections made to the address in the answer. *)

From stdpp Require Import base list strings gmap.
From Stdlib Require Import ZArith Lia.
From S2P Require Import Prelude GoStd External Adapter RuleAction DnsMsg DnsClient DnsRouter Sniff Route FakeIP.

Open Scope Z_scope.
Open Scope box_scope.

(** [transport.Store()] of the fake-IP transport, for the route. *)
Definition routing_store {S : Type} `{FakeIPStorage S} (st : Store S) : FakeIPStore :=
  {| fk_Contains a := Store_Contains a st;
     fk_Lookup a := match Store_Lookup a st with Ok domain => domain | _ => None end |}.

Lemma contains_valid p a : Prefix_Contains p a = true -> Addr_IsValid a = true.
Proof. destruct a; [|done..]. unfold Prefix_Contains. by destruct (Prefix_IsValid p), (prefix_ip p). Qed.

(** The answer of the transport to an address query holds the one address that
    [Create] gave the name. *)
Lemma exchange_answer {S : Type} `{FakeIPStorageLaws S, DNSLib} message question rest st sg response st1 :
  msg_Question message = question :: rest -> store_ok st sg -> FqdnToDomain (q_Name question) <> "" ->
  let v6 := q_Qtype question =? TypeAAAA in
  (FakeIPLoadDomain (FqdnToDomain (q_Name question)) v6 sg = None -> storable v6 st sg) ->
  Transport_Exchange message st = (Ok response, st1) ->
  exists a, Store_Create (FqdnToDomain (q_Name question)) v6 st = (Ok a, st1) /\
    MessageToAddresses response = [a].
Proof.
  intros Hq Hok Hne v6 Hst. unfold Transport_Exchange. rewrite Hq. fold v6.
  destruct (negb (q_Qtype question =? TypeA) && negb v6) eqn:Et; [done|].
  destruct (create_cases _ v6 st sg Hok Hne Hst) as (sg' & Hok' & _ & Hcase).
  destruct (Store_Create _ v6 st) as [r st'] eqn:Ec. simpl in *. intros [= Hr <-].
  apply res_bind_ok in Hr as (a & -> & [= <-]). exists a. split; [done|].
  assert (Ha : Addr_Is4 a = negb v6 /\ Addr_IsValid a = true).
  { remember (Ok a) as r eqn:Er.
    destruct Hcase as [a' Hv Hf| |a' st'' sg'' _ Ha Hcur _ _ _]; [|done|]; injection Er as ->.
    - split; [done|]. exact (contains_valid _ _ (so_view _ _ Hok a _ Hv)).
    - rewrite Ha. by destruct (family_next v6 _ _ (so_family _ _ Hok v6) Hcur) as (_ & ? & ? & _). }
  destruct Ha as [H4 Hv]. unfold MessageToAddresses, FixedResponse, address_record. simpl.
  destruct (q_Qtype question =? TypeAAAA) eqn:Ev; subst v6; simpl in H4; rewrite H4; simpl.
  - by destruct a.
  - rewrite andb_true_r, negb_false_iff in Et. by rewrite Et.
Qed.

Section routing.
Context {S R D : Type} `{FakeIPStorageLaws S} `{DNSLib} `{External, SniffLaws, RouteLib, RouteRuleLaws R, DNSRouterOps D}.

(** C11 (resolved names are routed): when the fake-IP transport gives a new
    address to a name that had none, then, creations running one after the other,
    until as many new addresses as the range has are given out, a connection to the
    address of the answer is routed to that name at its port, with the fake address
    kept as its origin: after the whole walk, when no rule of it overrides the
    destination and the inbound does not let sniffed names override it. *)
Theorem resolved_name_routed (r : ConnRouter R) message question rest base bits st sg response st1 sg1 n st2 sg2
    ctxErr i dns (m : Metadata) :
  let d := FqdnToDomain (q_Name question) in
  let v6 := q_Qtype question =? TypeAAAA in
  msg_Question message = question :: rest -> d <> "" ->
  store_ok st sg -> st_range v6 st = the_range v6 base bits ->
  FakeIPLoadDomain d v6 sg = None -> storable v6 st sg ->
  Transport_Exchange message st = (Ok response, st1) -> storage st1 = Some sg1 ->
  activity v6 n st1 sg1 st2 sg2 -> Z.of_nat n < room v6 base bits ->
  cr_FakeIP r = Some (routing_store st2) -> Forall keeps_target (cr_rules r) ->
  SniffOverrideDestination (md_InboundOptions m) = false ->
  MessageToAddresses response = [sa_Addr (Destination (md m))] ->
  target (w_ctx (matchRule r ctxErr false m i dns).2) =
    (domain_address d (sa_Port (Destination (md m))), Destination (md m), true).
Proof.
  intros d v6 Hq Hd Hok Hrange Hnone Hst Hx Hs1 Hact Hn Hfake Hrules Hoverride Hanswer.
  destruct (exchange_answer message question rest st sg response st1 Hq Hok Hd (fun _ => Hst) Hx) as (a & Hc & Ha).
  rewrite Hanswer in Ha. injection Ha as Ha.
  destruct (new_address_kept d v6 base bits st sg a st1 sg1 n st2 sg2) as (Hok2 & _ & Hv & Hfam); try done.
  destruct (kept_address d v6 st2 sg2 a Hok2 Hv Hfam) as (Hcont & Hlook & _).
  apply matchRule_fake; [done|done|]. split; [done|]. exists (routing_store st2).
  unfold in_fakeip. rewrite Ha, Hfake. simpl. rewrite Hcont, Hlook. split; [|done].
  rewrite (contains_valid _ _ (so_view _ _ Hok2 a _ Hv)). done.
Qed.
End routing.

(** ** A witness *)

#[local] Existing Instance concrete_external.
#[local] Existing Instance concrete_sniff.
#[local] Existing Instance concrete_sniff_laws.
#[local] Existing Instance concrete_route.
#[local] Existing Instance always_ops.
#[local] Existing Instance always_laws.
#[local] Existing Instance concrete_dns_router.
#[local] Existing Instance concrete_dns.

Definition ask (name : string) : DMsg :=
  Build_Msg 1 false false true false 0 [{| q_Name := name; q_Qtype := TypeA; q_Qclass := 1 |}] [] [] [].

Definition resolved : res DMsg * Store MemoryStorage := Transport_Exchange (ask "example.org.") a_memory_store.
Definition resolved_response : DMsg := match resolved.1 with Ok m => m | _ => ask "" end.
Definition storage_or_new (st : Store MemoryStorage) : MemoryStorage :=
  match storage st with Some sg => sg | None => NewMemoryStorage end.
Definition later : Store MemoryStorage := (Store_Create "example.com" false resolved.2).2.
Definition resolving_router : ConnRouter (option RuleAction) := a_router (Some (routing_store later)) [to_proxy].

Lemma resolved_name_routed_witness :
  target (w_ctx (matchRule resolving_router None false (to_address (Addr4 3323068419)) NoInput tt).2) =
    (domain_address "example.org" 443, Destination (md (to_address (Addr4 3323068419))), true).
Proof.
  refine (resolved_name_routed resolving_router (ask "example.org.") _ [] 3323068416 15 a_memory_store
            NewMemoryStorage resolved_response resolved.2 (storage_or_new resolved.2) 1 later (storage_or_new later)
            None NoInput tt (to_address (Addr4 3323068419)) eq_refl _ a_memory_store_ok eq_refl _ I _ _ _ _
            eq_refl _ eq_refl _).
  - vm_compute. discriminate.
  - vm_compute. reflexivity.
  - vm_compute. reflexivity.
  - vm_compute. reflexivity.
  - refine (act_new false "example.com" 0 resolved.2 (storage_or_new resolved.2) (storage_or_new later) later
              (storage_or_new later) _ _ _ I _ (act_end false later (storage_or_new later))).
    + discriminate.
    + vm_compute. reflexivity.
    + vm_compute. discriminate.
    + vm_compute. reflexivity.
  - vm_compute. reflexivity.
  - repeat constructor.
  - vm_compute. reflexivity.
Defined.
