(* ===== verification/ByteReader.v ===== *)
(** * Readers of bytes and encoding/binary

    Go's [io.Reader] as far as the binary formats of the repository use it: the
    bytes that are still to come and the error after them.  A [codec] is a
    writer and a reader of one type; the laws say that the reader takes exactly
    what the writer wrote, and never gives bytes back. *)

From stdpp Require Import base list strings.
From Stdlib Require Import ZArith Lia.
From S2P Require Import Prelude GoStd.

Open Scope Z_scope.
Open Scope box_scope.

Record Reader : Type := { rd_bytes : list Z; rd_end : error }.

(** [reader.ReadByte], and [binary.Read] into a [uint8] *)
Definition ReadByte (r : Reader) : res (Z * Reader) :=
  match rd_bytes r with
  | b :: l => Ok (b, {| rd_bytes := l; rd_end := rd_end r |})
  | [] => Err (rd_end r)
  end.

(** [io.ReadFull]: an end of file after the first byte is unexpected. *)
Definition ReadFull (n : nat) (r : Reader) : res (list Z * Reader) :=
  if (n <=? length (rd_bytes r))%nat then
    Ok (take n (rd_bytes r), {| rd_bytes := drop n (rd_bytes r); rd_end := rd_end r |})
  else if bool_decide (rd_end r = ErrEOF) && negb (bool_decide (rd_bytes r = [])) then Err ErrUnexpectedEOF
  else Err (rd_end r).

(** [binary.Read] with [binary.BigEndian] into an unsigned integer of [n] bytes. *)
Definition ReadUint (n : nat) (r : Reader) : res (Z * Reader) :=
  let* '(data, r) := ReadFull n r in Ok (big_endian data, r).

(** [binary.Read] into a [bool], and the byte [binary.Write] writes for one *)
Definition ReadBool (r : Reader) : res (bool * Reader) :=
  let* '(b, r) := ReadByte r in Ok (negb (b =? 0), r).
Definition bool_byte (b : bool) : Z := if b then 1 else 0.

(** ** Variable-length integers *)

(** [binary.AppendUvarint]; nine bytes with the high bit set and a last one
    hold 64 bits. *)
Fixpoint put_uvarint (more : nat) (x : Z) : list Z :=
  match more with
  | O => [x]
  | S more => if x <? 128 then [x] else Z.lor (x mod 256) 128 :: put_uvarint more (Z.shiftr x 7)
  end.
Definition AppendUvarint (x : Z) : list Z := put_uvarint 9 x.

Definition varint_overflow : error := ErrNew "binary: varint overflows a 64-bit integer".

(** The loop of [binary.ReadUvarint] with [room] more bytes allowed. *)
Fixpoint read_uvarint (room : nat) (i x : Z) (r : Reader) : res (Z * Reader) :=
  match room with
  | O => Err varint_overflow
  | S room =>
      match ReadByte r with
      | Err e => Err (if (0 <? i) && bool_decide (e = ErrEOF) then ErrUnexpectedEOF else e)
      | Panic msg => Panic msg
      | Ok (b, r) =>
          if b <? 128 then
            if (i =? 9) && (1 <? b) then Err varint_overflow
            else Ok (Z.lor x (Z.shiftl b (7 * i)), r)
          else read_uvarint room (i + 1) (Z.lor x (Z.shiftl (Z.land b 127) (7 * i))) r
      end
  end.
Definition ReadUvarint (r : Reader) : res (Z * Reader) := read_uvarint 10 0 0 r.

Example uvarint_300 : AppendUvarint 300 = [172; 2] /\
  ReadUvarint {| rd_bytes := [172; 2; 7]; rd_end := ErrEOF |} = Ok (300, {| rd_bytes := [7]; rd_end := ErrEOF |}).
Proof. split; reflexivity. Qed.

Example uvarint_max : ReadUvarint {| rd_bytes := AppendUvarint (2 ^ 64 - 1); rd_end := ErrEOF |} =
  Ok (2 ^ 64 - 1, {| rd_bytes := []; rd_end := ErrEOF |}).
Proof. vm_compute. reflexivity. Qed.

Example uvarint_too_long :
  ReadUvarint {| rd_bytes := replicate 9 255 ++ [2]; rd_end := ErrEOF |} = Err varint_overflow /\
  ReadUvarint {| rd_bytes := [128]; rd_end := ErrEOF |} = Err ErrUnexpectedEOF.
Proof. split; vm_compute; reflexivity. Qed.

(** ** Writers with their readers *)

Record codec (A : Type) : Type := { enc : A -> list Z; dec : Reader -> res (A * Reader) }.
Arguments enc {A}.
Arguments dec {A}.

(** What the reader is given: the bytes of a value, then others. *)
Definition reads {A} (d : Reader -> res (A * Reader)) (l : list Z) (a : A) : Prop :=
  forall rest e, d {| rd_bytes := l ++ rest; rd_end := e |} = Ok (a, {| rd_bytes := rest; rd_end := e |}).

Definition codec_law {A} (c : codec A) (ok : A -> Prop) : Prop :=
  forall a, ok a -> reads (dec c) (enc c a) a.

(** A reader gives no bytes back, and a strict one takes at least one. *)
Definition consumes {A} (d : Reader -> res (A * Reader)) : Prop :=
  forall r a r', d r = Ok (a, r') -> (length (rd_bytes r') <= length (rd_bytes r))%nat.
Definition consumes_some {A} (d : Reader -> res (A * Reader)) : Prop :=
  forall r a r', d r = Ok (a, r') -> (length (rd_bytes r') < length (rd_bytes r))%nat.

Lemma consumes_some_weaken {A} (d : Reader -> res (A * Reader)) : consumes_some d -> consumes d.
Proof. intros H r a r' Hr%H. lia. Qed.

Lemma reads_bind {A B} (d : Reader -> res (A * Reader)) (k : A -> Reader -> res (B * Reader)) l l' a b :
  reads d l a -> reads (k a) l' b -> reads (fun r => let* '(x, r) := d r in k x r) (l ++ l') b.
Proof. intros Hd Hk rest e. rewrite <- app_assoc, Hd. simpl. apply Hk. Qed.

Lemma consumes_bind {A B} (d : Reader -> res (A * Reader)) (k : A -> Reader -> res (B * Reader)) :
  consumes d -> (forall a, consumes (k a)) -> consumes (fun r => let* '(x, r) := d r in k x r).
Proof. intros Hd Hk r b r' ([a r1] & H1%Hd & H2%Hk)%res_bind_ok. lia. Qed.

Lemma reads_byte b : reads ReadByte [b] b.
Proof. by intros rest e. Qed.

Lemma consumes_byte : consumes_some ReadByte.
Proof. intros [[|b l] e] a r'; unfold ReadByte; simpl; [done|]. intros [= <- <-]. simpl. lia. Qed.

Lemma reads_bool b : reads ReadBool [bool_byte b] b.
Proof. intros rest e. by destruct b. Qed.

Lemma consumes_bool : consumes_some ReadBool.
Proof. intros r b r' ([c r1] & H%consumes_byte & [= <- <-])%res_bind_ok. done. Qed.

Lemma reads_full l : reads (ReadFull (length l)) l l.
Proof.
  intros rest e. unfold ReadFull. simpl. rewrite length_app.
  destruct (length l <=? length l + length rest)%nat eqn:E; [|apply Nat.leb_gt in E; lia].
  by rewrite take_app_length, drop_app_length.
Qed.

Lemma consumes_full n : consumes (ReadFull n).
Proof.
  intros r a r'. unfold ReadFull. case_match; [|by case_match]. intros [= <- <-]. simpl.
  rewrite length_drop. lia.
Qed.

Lemma reads_uint n x : 0 <= x < 256 ^ Z.of_nat n -> reads (ReadUint n) (be_bytes n x) x.
Proof.
  intros Hx rest e. unfold ReadUint. rewrite <- (length_be_bytes n x) at 1. rewrite reads_full. simpl.
  by rewrite big_endian_be_bytes.
Qed.

Lemma consumes_uint n : consumes (ReadUint n).
Proof. apply (consumes_bind (ReadFull n) (fun data r => Ok (big_endian data, r))); [apply consumes_full|].
  intros a r b r' [= <- <-]. done. Qed.

(** *** Variable-length integers *)

Lemma lor_shiftl x b k : 0 <= k -> 0 <= x < 2 ^ k -> 0 <= b -> Z.lor x (Z.shiftl b k) = x + b * 2 ^ k.
Proof.
  intros Hk Hx Hb. rewrite <- Z.shiftl_mul_pow2 by done. symmetry. apply Z.add_nocarry_lor.
  apply Z.bits_inj'. intros n Hn. rewrite Z.land_spec, Z.bits_0.
  destruct (Z.lt_ge_cases n k) as [H|H].
  - by rewrite Z.shiftl_spec_low, andb_false_r.
  - destruct (Z.eq_dec x 0) as [->|Hx0]; [by rewrite Z.bits_0|].
    rewrite (Z.bits_above_log2 x n); [done|lia|].
    apply Z.log2_lt_pow2; [lia|]. assert (2 ^ k <= 2 ^ n) by (apply Z.pow_le_mono_r; lia). lia.
Qed.

Lemma continuation_byte x : 0 <= x -> Z.lor (x mod 256) 128 = x mod 128 + 128.
Proof.
  intros Hx. pose proof (Z.mod_pos_bound x 128 ltac:(lia)) as Hb.
  replace (x mod 128 + 128) with (Z.lor (x mod 2 ^ 7) (Z.shiftl 1 7)) by (by rewrite lor_shiftl).
  apply Z.bits_inj'. intros n Hn. change 128 with (2 ^ 7).
  rewrite !Z.lor_spec, Z.shiftl_spec by lia. change 256 with (2 ^ 8). rewrite Z.pow2_bits_eqb by lia.
  destruct (Z.eqb_spec 7 n) as [<-|Hne].
  - change (Z.testbit 1 (7 - 7)) with true. by rewrite !orb_true_r.
  - assert (Z.testbit 1 (n - 7) = false) as ->.
    { destruct (Z.lt_ge_cases n 7); [by apply Z.testbit_neg_r; lia|]. apply Z.bits_above_log2; simpl; lia. }
    rewrite !orb_false_r.
    destruct (Z.lt_ge_cases n 7); [by rewrite !Z.mod_pow2_bits_low by lia|].
    by rewrite !Z.mod_pow2_bits_high by lia.
Qed.

Lemma read_uvarint_byte room i x b l e :
  read_uvarint (S room) i x {| rd_bytes := b :: l; rd_end := e |} =
  if b <? 128 then
    if (i =? 9) && (1 <? b) then Err varint_overflow
    else Ok (Z.lor x (Z.shiftl b (7 * i)), {| rd_bytes := l; rd_end := e |})
  else read_uvarint room (i + 1) (Z.lor x (Z.shiftl (Z.land b 127) (7 * i))) {| rd_bytes := l; rd_end := e |}.
Proof. done. Qed.

Lemma read_uvarint_put more i acc x :
  0 <= i -> i + Z.of_nat more = 9 -> 0 <= acc < 2 ^ (7 * i) -> 0 <= x < 2 ^ (64 - 7 * i) ->
  reads (read_uvarint (S more) i acc) (put_uvarint more x) (acc + x * 2 ^ (7 * i)).
Proof.
  revert i acc x; induction more as [|more IH]; intros i acc x Hi Hm Ha Hx rest e.
  - assert (i = 9) as -> by lia. change (2 ^ (64 - 7 * 9)) with 2 in Hx. cbn [put_uvarint app].
    rewrite read_uvarint_byte.
    destruct (x <? 128) eqn:E1; [|lia]. destruct (1 <? x) eqn:E2; [lia|].
    simpl andb. cbv iota. by rewrite lor_shiftl by lia.
  - cbn [put_uvarint]. destruct (x <? 128) eqn:E.
    + cbn [app]. rewrite read_uvarint_byte, E.
      destruct (i =? 9) eqn:E9; [lia|]. simpl andb. cbv iota. by rewrite lor_shiftl by lia.
    + cbn [app]. rewrite read_uvarint_byte, continuation_byte by lia. pose proof (Z.mod_pos_bound x 128 ltac:(lia)) as Hb.
      destruct (x mod 128 + 128 <? 128) eqn:E1; [lia|].
      assert (Z.land (x mod 128 + 128) 127 = x mod 128) as ->.
      { change 127 with (Z.ones 7). rewrite Z.land_ones by lia. change (2 ^ 7) with 128.
        rewrite <- (Z.mul_1_l 128) at 2. rewrite Z_mod_plus_full. apply Z.mod_mod. lia. }
      rewrite lor_shiftl by lia. rewrite Z.shiftr_div_pow2 by lia. change (2 ^ 7) with 128.
      assert (Hp : 2 ^ (7 * (i + 1)) = 128 * 2 ^ (7 * i)).
      { replace (7 * (i + 1)) with (7 + 7 * i) by lia. rewrite Z.pow_add_r by lia. done. }
      assert (0 < 2 ^ (7 * i)) by (apply Z.pow_pos_nonneg; lia).
      rewrite (IH (i + 1)); [| lia | lia | |].
      * do 2 f_equal. rewrite Hp. pose proof (Z.div_mod x 128 ltac:(lia)) as Hd. rewrite Hd at 3. ring.
      * rewrite Hp. split; nia.
      * split; [apply Z.div_pos; lia|]. apply Z.div_lt_upper_bound; [lia|].
        replace 128 with (2 ^ 7) by done. rewrite <- Z.pow_add_r by lia.
        replace (7 + (64 - 7 * (i + 1))) with (64 - 7 * i) by lia. lia.
Qed.

Lemma reads_uvarint x : 0 <= x < 2 ^ 64 -> reads ReadUvarint (AppendUvarint x) x.
Proof.
  intros Hx rest e. unfold ReadUvarint, AppendUvarint. rewrite (read_uvarint_put 9 0 0 x); try done; try lia.
  do 2 f_equal. simpl. lia.
Qed.

Lemma consumes_uvarint : consumes ReadUvarint.
Proof.
  enough (H : forall room i x, consumes (read_uvarint room i x)) by apply H.
  intros room. induction room as [|room IH]; intros i x r a r'; cbn [read_uvarint]; [done|].
  destruct (ReadByte r) as [[b r1]|e|msg] eqn:Eb; [|done..]. apply consumes_byte in Eb.
  case_match; [case_match; [done|]; intros [= <- <-]; lia|]. intros H1%IH. lia.
Qed.
