(* ===== verification/Srs.v ===== *)
(** * common/srs: the binary format of rule-sets

    [Read] and [Write] of common/srs/binary.go and the address sets of
    common/srs/ip_set.go, byte by byte.  The formats the libraries write
    (varbin, the domain matchers of sing, zlib) are parameters with the law that
    their readers take what their writers wrote; lengths and integers are Go's
    own.  The theorems: what was written is read back; a rule-set that was
    compiled means what its source means; [Write] fails exactly on what the
    format cannot hold; [Read] ends on any bytes. *)

From stdpp Require Import base list strings gmap.
From Stdlib Require Import ZArith Lia.
From S2P Require Import Prelude GoStd External Adapter RuleItem RuleAbstract RuleTree RuleMatch RuleAction RuleBuild RuleConfig RuleSet ByteReader.

Open Scope Z_scope.
Open Scope box_scope.

(** ** The libraries *)

(** [addr.AsSlice] *)
Definition Addr_AsSlice (a : Addr) : list Z :=
  match a with
  | AddrInvalid => []
  | Addr4 n => be_bytes 4 n
  | Addr6 n _ => be_bytes 16 n
  end.

Class SrsLib `{External} : Type := {
  (** sing, [common/varbin]; an empty slice it reads is nil or not *)
  varbin_WriteUvarint : Z -> list Z;
  varbin_strings : codec (list string);
  varbin_uint16s : codec (list Z);
  varbin_uint8s : codec (list Z);
  varbin_empty_nonnil : bool;
  varbin_Write_range : list Z * list Z -> list Z;
  varbin_Read_ranges : Z -> Reader -> res (list (list Z * list Z) * Reader);
  (** sing, [common.Map] of an empty slice *)
  Map_empty_nonnil : bool;
  (** sing, [common/metadata] *)
  AddrFromIP : list Z -> Addr;
  (** sing, [common/domain] *)
  domain_Matcher : codec Matcher;
  Matcher_Dump : Matcher -> list string * list string;
  domain_AdGuardMatcher : codec AdGuardMatcher;
  AdGuardMatcher_Dump : AdGuardMatcher -> list string;
  (** netipx: the ranges in the memory of an [IPSet], which the code reads and
      writes through an unsafe pointer *)
  IPSet_rr : IPSet -> list (Addr * Addr);
  IPSet_of_rr : list (Addr * Addr) -> IPSet;
  IPSet_Prefixes : IPSet -> list Prefix;
  (** [compress/zlib] *)
  zlib_compress : list Z -> list Z;
  zlib_NewReader : Reader -> res Reader;
  (** the most rules and the most ranges the runtime allocates in one slice *)
  make_rules : Z;
  make_ranges : Z
}.

Definition makeslice : string := "runtime error: makeslice: len out of range".

(** ** The item types *)

Definition ruleItemQueryType : Z := 0.
Definition ruleItemNetwork : Z := 1.
Definition ruleItemDomain : Z := 2.
Definition ruleItemDomainKeyword : Z := 3.
Definition ruleItemDomainRegex : Z := 4.
Definition ruleItemSourceIPCIDR : Z := 5.
Definition ruleItemIPCIDR : Z := 6.
Definition ruleItemSourcePort : Z := 7.
Definition ruleItemSourcePortRange : Z := 8.
Definition ruleItemPort : Z := 9.
Definition ruleItemPortRange : Z := 10.
Definition ruleItemProcessName : Z := 11.
Definition ruleItemProcessPath : Z := 12.
Definition ruleItemPackageName : Z := 13.
Definition ruleItemWIFISSID : Z := 14.
Definition ruleItemWIFIBSSID : Z := 15.
Definition ruleItemAdGuardDomain : Z := 16.
Definition ruleItemProcessPathRegex : Z := 17.
Definition ruleItemNetworkType : Z := 18.
Definition ruleItemNetworkIsExpensive : Z := 19.
Definition ruleItemNetworkIsConstrained : Z := 20.
Definition ruleItemFinal : Z := 255.

Definition RuleSetVersion1 : Z := 1.
Definition RuleSetVersion2 : Z := 2.
Definition RuleSetVersion3 : Z := 3.
Definition RuleSetVersionCurrent : Z := RuleSetVersion3.
Definition MagicBytes : list Z := [83; 82; 83].

(** [InterfaceType] is a byte. *)
Definition interface_byte (t : InterfaceType) : Z :=
  match t with
  | InterfaceTypeWIFI => 0 | InterfaceTypeCellular => 1 | InterfaceTypeEthernet => 2
  | InterfaceTypeOther => 3 | InterfaceTypeUnknown b => b
  end.
Definition byte_interface (b : Z) : InterfaceType :=
  if b =? 0 then InterfaceTypeWIFI
  else if b =? 1 then InterfaceTypeCellular
  else if b =? 2 then InterfaceTypeEthernet
  else if b =? 3 then InterfaceTypeOther
  else InterfaceTypeUnknown b.

(** ** Address sets *)

Section srs.
Context `{SrsLib}.

Definition writeIPSet (set : IPSet) : list Z :=
  let dataList := map (fun rr => (Addr_AsSlice rr.1, Addr_AsSlice rr.2)) (IPSet_rr set) in
  [1] ++ be_bytes 8 (Z.of_nat (length dataList)) ++ concat (map varbin_Write_range dataList).

Definition readIPSet (r : Reader) : res (IPSet * Reader) :=
  let* '(version, r) := ReadByte r in
  if negb (version =? 1) then Err ErrInvalid
  else
    let* '(length, r) := ReadUint 8 r in
    if make_ranges <? length then Panic makeslice
    else
      let* '(ranges, r) := varbin_Read_ranges length r in
      Ok (IPSet_of_rr (map (fun data => (AddrFromIP data.1, AddrFromIP data.2)) ranges), r).

(** ** Writing *)

Definition writeRuleItemString (itemType : Z) (value : list string) : res (list Z) :=
  Ok (itemType :: enc varbin_strings value).
Definition writeRuleItemUint8 (itemType : Z) (value : list InterfaceType) : res (list Z) :=
  Ok (itemType :: enc varbin_uint8s (map interface_byte value)).
Definition writeRuleItemUint16 (itemType : Z) (value : list Z) : res (list Z) :=
  Ok (itemType :: enc varbin_uint16s value).

Definition writeRuleItemCIDR (itemType : Z) (value : list string) : res (list Z) :=
  let* items := res_mapi cidr_add 0 value in
  let* ipSet := IPSetBuilder_IPSet items in
  Ok (itemType :: writeIPSet ipSet).

(** [if cond { err = write; if err != nil { return err } }], one after the other *)
Fixpoint write_pieces (l : list (bool * res (list Z))) : res (list Z) :=
  match l with
  | [] => Ok []
  | (c, piece) :: l =>
      if c then let* bytes := piece in let* rest := write_pieces l in Ok (bytes ++ rest)
      else write_pieces l
  end.

(** The first items of a default rule, up to the addresses. *)
Definition address_pieces (d : DefaultHeadlessOptions) (generateVersion : Z) : list (bool * res (list Z)) := [
  (nonempty (hd_QueryType d), writeRuleItemUint16 ruleItemQueryType (hd_QueryType d));
  (nonempty (hd_Network d), writeRuleItemString ruleItemNetwork (hd_Network d));
  (nonempty (hd_Domain d) || nonempty (hd_DomainSuffix d),
    Ok (ruleItemDomain ::
        enc domain_Matcher (NewMatcher (hd_Domain d) (hd_DomainSuffix d) (generateVersion =? RuleSetVersion1))));
  (nonempty (hd_DomainKeyword d), writeRuleItemString ruleItemDomainKeyword (hd_DomainKeyword d));
  (nonempty (hd_DomainRegex d), writeRuleItemString ruleItemDomainRegex (hd_DomainRegex d));
  (nonempty (hd_SourceIPCIDR d),
    res_cause "source_ip_cidr" (writeRuleItemCIDR ruleItemSourceIPCIDR (hd_SourceIPCIDR d)));
  (nonempty (hd_IPCIDR d), res_cause "ipcidr" (writeRuleItemCIDR ruleItemIPCIDR (hd_IPCIDR d)))
].

(** The ports, the process and the network. *)
Definition local_pieces (d : DefaultHeadlessOptions) (generateVersion : Z) : list (bool * res (list Z)) := [
  (nonempty (hd_SourcePort d), writeRuleItemUint16 ruleItemSourcePort (hd_SourcePort d));
  (nonempty (hd_SourcePortRange d), writeRuleItemString ruleItemSourcePortRange (hd_SourcePortRange d));
  (nonempty (hd_Port d), writeRuleItemUint16 ruleItemPort (hd_Port d));
  (nonempty (hd_PortRange d), writeRuleItemString ruleItemPortRange (hd_PortRange d));
  (nonempty (hd_ProcessName d), writeRuleItemString ruleItemProcessName (hd_ProcessName d));
  (nonempty (hd_ProcessPath d), writeRuleItemString ruleItemProcessPath (hd_ProcessPath d));
  (nonempty (hd_ProcessPathRegex d), writeRuleItemString ruleItemProcessPathRegex (hd_ProcessPathRegex d));
  (nonempty (hd_PackageName d), writeRuleItemString ruleItemPackageName (hd_PackageName d));
  (nonempty (hd_NetworkType d),
    if generateVersion <? RuleSetVersion3 then
      Err (ErrNew "network_type rule item is only supported in version 3 or later")
    else writeRuleItemUint8 ruleItemNetworkType (hd_NetworkType d));
  (hd_NetworkIsExpensive d, Ok [ruleItemNetworkIsExpensive]);
  (hd_NetworkIsConstrained d, Ok [ruleItemNetworkIsConstrained]);
  (nonempty (hd_WIFISSID d), writeRuleItemString ruleItemWIFISSID (hd_WIFISSID d));
  (nonempty (hd_WIFIBSSID d), writeRuleItemString ruleItemWIFIBSSID (hd_WIFIBSSID d));
  (nonempty (hd_AdGuardDomain d),
    if generateVersion <? RuleSetVersion2 then
      Err (ErrNew "AdGuard rule items is only supported in version 2 or later")
    else Ok (ruleItemAdGuardDomain :: enc domain_AdGuardMatcher (NewAdGuardMatcher (hd_AdGuardDomain d))))
].

Definition default_pieces (d : DefaultHeadlessOptions) (generateVersion : Z) : list (bool * res (list Z)) :=
  address_pieces d generateVersion ++ local_pieces d generateVersion.

Definition writeDefaultRule (d : DefaultHeadlessOptions) (generateVersion : Z) : res (list Z) :=
  let* items := write_pieces (default_pieces d generateVersion) in
  Ok ([0] ++ items ++ [ruleItemFinal; bool_byte (hd_Invert d)]).

Definition writeLogicalRule (write : HeadlessRuleOptions -> res (list Z)) (mode : string)
    (rules : list HeadlessRuleOptions) (invert : bool) : res (list Z) :=
  let* mode :=
    if decide (mode = LogicalTypeAnd) then Ok 0
    else if decide (mode = LogicalTypeOr) then Ok 1
    else Panic ("unknown logical mode: " +:+ mode) in
  let* rest := res_mapi (fun _ => write) 0 rules in
  Ok ([1; mode] ++ varbin_WriteUvarint (Z.of_nat (length rules)) ++ concat rest ++ [bool_byte invert]).

Fixpoint writeRule (o : HeadlessRuleOptions) (generateVersion : Z) : res (list Z) :=
  match o with
  | MkHeadlessRuleOptions type d mode rules invert =>
      if decide (type = RuleTypeDefault) then writeDefaultRule d generateVersion
      else if decide (type = RuleTypeLogical) then
        writeLogicalRule (fun o => writeRule o generateVersion) mode rules invert
      else Panic ("unknown rule type: " +:+ type)
  end.

Definition Write (rules : list HeadlessRuleOptions) (generateVersion : Z) : res (list Z) :=
  let* rest := res_mapi (fun _ o => writeRule o generateVersion) 0 rules in
  Ok (MagicBytes ++ [generateVersion] ++
      zlib_compress (varbin_WriteUvarint (Z.of_nat (length rules)) ++ concat rest)).

(** ** Reading

    A value that was read; [read_item] reads the one an item type announces and
    [assign] is the assignment to the rule that follows. *)

Inductive item_value : Type :=
  | IvStrings (l : list string)
  | IvNumbers (l : list Z)
  | IvTypes (l : list InterfaceType)
  | IvMatcher (m : Matcher)
  | IvAdGuard (m : AdGuardMatcher)
  | IvIPSet (s : IPSet)
  | IvFlag.

Definition string_items : list Z :=
  [ruleItemNetwork; ruleItemDomainKeyword; ruleItemDomainRegex; ruleItemSourcePortRange; ruleItemPortRange;
   ruleItemProcessName; ruleItemProcessPath; ruleItemProcessPathRegex; ruleItemPackageName; ruleItemWIFISSID;
   ruleItemWIFIBSSID].
Definition number_items : list Z := [ruleItemQueryType; ruleItemSourcePort; ruleItemPort].

Definition read_as {A B} (f : A -> B) (x : res (A * Reader)) : res (B * Reader) :=
  let* '(a, r) := x in Ok (f a, r).

Definition read_item (itemType lastItemType : Z) (r : Reader) : res (item_value * Reader) :=
  if bool_decide (itemType ∈ string_items) then read_as IvStrings (dec varbin_strings r)
  else if bool_decide (itemType ∈ number_items) then read_as IvNumbers (dec varbin_uint16s r)
  else if itemType =? ruleItemDomain then read_as IvMatcher (dec domain_Matcher r)
  else if (itemType =? ruleItemSourceIPCIDR) || (itemType =? ruleItemIPCIDR) then
    read_as IvIPSet (readIPSet r)
  else if itemType =? ruleItemAdGuardDomain then read_as IvAdGuard (dec domain_AdGuardMatcher r)
  else if itemType =? ruleItemNetworkType then
    read_as (fun l => IvTypes (map byte_interface l)) (dec varbin_uint8s r)
  else if (itemType =? ruleItemNetworkIsExpensive) || (itemType =? ruleItemNetworkIsConstrained) then
    Ok (IvFlag, r)
  else
    Err (ErrNew ("unknown rule item type: " +:+ go_itoa itemType +:+ ", last type: " +:+ go_itoa lastItemType)).

(** The value is an empty slice that is not nil. *)
Definition empty_slice (itemType : Z) (v : item_value) : bool :=
  match v with
  | IvStrings [] | IvTypes [] => varbin_empty_nonnil
  | IvNumbers [] => if itemType =? ruleItemQueryType then Map_empty_nonnil else varbin_empty_nonnil
  | _ => false
  end.

(** [rule.<field> = value], and with [recover] the fields the value stands for.
    The last field of the record only matters when all the others are empty. *)
Definition assign (recover : bool) (itemType : Z) (v : item_value) (d : DefaultHeadlessOptions)
    : DefaultHeadlessOptions :=
  let strings k old := if itemType =? k then match v with IvStrings l => l | _ => old end else old in
  let numbers k old := if itemType =? k then match v with IvNumbers l => l | _ => old end else old in
  let set k old := if itemType =? k then match v with IvIPSet s => Some s | _ => old end else old in
  let prefixes k old :=
    if (itemType =? k) && recover then
      match v with IvIPSet s => map Prefix_String (IPSet_Prefixes s) | _ => old end
    else old in
  let domains side old :=
    if (itemType =? ruleItemDomain) && recover then
      match v with IvMatcher m => side (Matcher_Dump m) | _ => old end
    else old in
  {| hd_QueryType := numbers ruleItemQueryType (hd_QueryType d);
     hd_Network := strings ruleItemNetwork (hd_Network d);
     hd_Domain := domains fst (hd_Domain d);
     hd_DomainSuffix := domains snd (hd_DomainSuffix d);
     hd_DomainKeyword := strings ruleItemDomainKeyword (hd_DomainKeyword d);
     hd_DomainRegex := strings ruleItemDomainRegex (hd_DomainRegex d);
     hd_SourceIPCIDR := prefixes ruleItemSourceIPCIDR (hd_SourceIPCIDR d);
     hd_IPCIDR := prefixes ruleItemIPCIDR (hd_IPCIDR d);
     hd_SourcePort := numbers ruleItemSourcePort (hd_SourcePort d);
     hd_SourcePortRange := strings ruleItemSourcePortRange (hd_SourcePortRange d);
     hd_Port := numbers ruleItemPort (hd_Port d);
     hd_PortRange := strings ruleItemPortRange (hd_PortRange d);
     hd_ProcessName := strings ruleItemProcessName (hd_ProcessName d);
     hd_ProcessPath := strings ruleItemProcessPath (hd_ProcessPath d);
     hd_ProcessPathRegex := strings ruleItemProcessPathRegex (hd_ProcessPathRegex d);
     hd_PackageName := strings ruleItemPackageName (hd_PackageName d);
     hd_NetworkType :=
       if itemType =? ruleItemNetworkType then match v with IvTypes l => l | _ => hd_NetworkType d end
       else hd_NetworkType d;
     hd_NetworkIsExpensive := (itemType =? ruleItemNetworkIsExpensive) || hd_NetworkIsExpensive d;
     hd_NetworkIsConstrained := (itemType =? ruleItemNetworkIsConstrained) || hd_NetworkIsConstrained d;
     hd_WIFISSID := strings ruleItemWIFISSID (hd_WIFISSID d);
     hd_WIFIBSSID := strings ruleItemWIFIBSSID (hd_WIFIBSSID d);
     hd_Invert := hd_Invert d;
     hd_DomainMatcher :=
       if itemType =? ruleItemDomain then match v with IvMatcher m => Some m | _ => hd_DomainMatcher d end
       else hd_DomainMatcher d;
     hd_SourceIPSet := set ruleItemSourceIPCIDR (hd_SourceIPSet d);
     hd_IPSet := set ruleItemIPCIDR (hd_IPSet d);
     hd_AdGuardDomain :=
       if (itemType =? ruleItemAdGuardDomain) && recover then
         match v with IvAdGuard m => AdGuardMatcher_Dump m | _ => hd_AdGuardDomain d end
       else hd_AdGuardDomain d;
     hd_AdGuardDomainMatcher :=
       if itemType =? ruleItemAdGuardDomain then
         match v with IvAdGuard m => Some m | _ => hd_AdGuardDomainMatcher d end
       else hd_AdGuardDomainMatcher d;
     hd_NonNilEmpty := empty_slice itemType v || hd_NonNilEmpty d |}.

Definition headless_zero : DefaultHeadlessOptions :=
  Build_DefaultHeadlessOptions _ [] [] [] [] [] [] [] [] [] [] [] [] [] [] [] [] [] false false [] [] false
    None None None [] None false.

Definition with_Invert (b : bool) (d : DefaultHeadlessOptions) : DefaultHeadlessOptions :=
  Build_DefaultHeadlessOptions _ (hd_QueryType d) (hd_Network d) (hd_Domain d) (hd_DomainSuffix d)
    (hd_DomainKeyword d) (hd_DomainRegex d) (hd_SourceIPCIDR d) (hd_IPCIDR d) (hd_SourcePort d)
    (hd_SourcePortRange d) (hd_Port d) (hd_PortRange d) (hd_ProcessName d) (hd_ProcessPath d)
    (hd_ProcessPathRegex d) (hd_PackageName d) (hd_NetworkType d) (hd_NetworkIsExpensive d)
    (hd_NetworkIsConstrained d) (hd_WIFISSID d) (hd_WIFIBSSID d) b (hd_DomainMatcher d)
    (hd_SourceIPSet d) (hd_IPSet d) (hd_AdGuardDomain d) (hd_AdGuardDomainMatcher d) (hd_NonNilEmpty d).

(** The loop of [readDefaultRule]; [None] is a loop that ran out of fuel. *)
Fixpoint readDefaultRule_loop (fuel : nat) (recover : bool) (lastItemType : Z) (rule : DefaultHeadlessOptions)
    (r : Reader) : option (res (DefaultHeadlessOptions * Reader)) :=
  match fuel with
  | O => None
  | S fuel =>
      match ReadByte r with
      | Ok (itemType, r) =>
          if itemType =? ruleItemFinal then Some (read_as (fun b => with_Invert b rule) (ReadBool r))
          else
            match read_item itemType lastItemType r with
            | Ok (v, r) => readDefaultRule_loop fuel recover itemType (assign recover itemType v rule) r
            | Err e => Some (Err e)
            | Panic msg => Some (Panic msg)
            end
      | Err e => Some (Err e)
      | Panic msg => Some (Panic msg)
      end
  end.

Definition readDefaultRule (recover : bool) (r : Reader) : option (res (DefaultHeadlessOptions * Reader)) :=
  readDefaultRule_loop (S (length (rd_bytes r))) recover 0 headless_zero r.

(** [for i := uint64(0); i < length; i++ { rules[i], err = readRule(...) }],
    from rule [i] on. *)
Fixpoint read_rules (fuel : nat) (read : Reader -> option (res (HeadlessRuleOptions * Reader)))
    (cause : Z -> string) (i length : Z) (r : Reader) : option (res (list HeadlessRuleOptions * Reader)) :=
  if length <=? i then Some (Ok ([], r))
  else
    match fuel with
    | O => None
    | S fuel =>
        match read r with
        | Some (Ok (rule, r)) =>
            match read_rules fuel read cause (i + 1) length r with
            | Some (Ok (rules, r)) => Some (Ok (rule :: rules, r))
            | other => other
            end
        | Some (Err e) => Some (Err (ErrCause e (cause i)))
        | Some (Panic msg) => Some (Panic msg)
        | None => None
        end
    end.

(** [make], and the loop over as many rules as bytes at most *)
Definition read_slice (read : Reader -> option (res (HeadlessRuleOptions * Reader))) (cause : Z -> string)
    (length : Z) (r : Reader) : option (res (list HeadlessRuleOptions * Reader)) :=
  if make_rules <? length then Some (Panic makeslice)
  else read_rules (S (Datatypes.length (rd_bytes r))) read cause 0 length r.

Definition read_mode (r : Reader) : res (string * Reader) :=
  let* '(mode, r) := ReadByte r in
  if mode =? 0 then Ok (LogicalTypeAnd, r)
  else if mode =? 1 then Ok (LogicalTypeOr, r)
  else Err (ErrNew ("unknown logical mode: " +:+ go_itoa mode)).

(** The head of a logical rule: its mode and the number of its rules. *)
Definition read_logical_head (r : Reader) : res (string * Z * Reader) :=
  let* '(mode, r) := read_mode r in
  let* '(length, r) := ReadUvarint r in
  Ok (mode, length, r).

Definition rule_cause (i : Z) : string := "read rule[" +:+ go_itoa i +:+ "]".
Definition logical_rule_cause (i : Z) : string := "read logical rule [" +:+ go_itoa i +:+ "]".

Definition readLogicalRule (read : Reader -> option (res (HeadlessRuleOptions * Reader))) (r : Reader)
    : option (res (HeadlessRuleOptions * Reader)) :=
  match read_logical_head r with
  | Ok (mode, length, r) =>
      (fun x =>
         let* '(rules, r) := x in
         let* '(invert, r) := ReadBool r in
         Ok (MkHeadlessRuleOptions RuleTypeLogical headless_zero mode rules invert, r))
        <$> read_slice read logical_rule_cause length r
  | Err e => Some (Err e)
  | Panic msg => Some (Panic msg)
  end.

Fixpoint readRule (fuel : nat) (recover : bool) (r : Reader) : option (res (HeadlessRuleOptions * Reader)) :=
  match fuel with
  | O => None
  | S fuel =>
      match ReadByte r with
      | Ok (ruleType, r) =>
          if ruleType =? 0 then
            (fun x => read_as (fun d => MkHeadlessRuleOptions RuleTypeDefault d "" [] false) x)
              <$> readDefaultRule recover r
          else if ruleType =? 1 then readLogicalRule (readRule fuel recover) r
          else Some (Err (ErrNew ("unknown rule type: " +:+ go_itoa ruleType)))
      | Err e => Some (Err e)
      | Panic msg => Some (Panic msg)
      end
  end.

(** What comes before the rules: the version, the stream of the rules and their number. *)
Definition read_header (r : Reader) : res (Z * Z * Reader) :=
  let* '(magicBytes, r) := ReadFull 3 r in
  if negb (bool_decide (magicBytes = MagicBytes)) then Err (ErrNew "invalid sing-box rule-set file")
  else
    let* '(version, r) := ReadByte r in
    if RuleSetVersionCurrent <? version then Err (ErrNew ("unsupported version: " +:+ go_itoa version))
    else
      let* bReader := zlib_NewReader r in
      let* '(length, bReader) := ReadUvarint bReader in
      Ok (version, length, bReader).

Definition Read (r : Reader) (recover : bool) : option (res PlainRuleSetCompat) :=
  match read_header r with
  | Ok (version, length, bReader) =>
      (fun x => let* '(rules, _) := x in Ok {| prs_Version := version; prs_Rules := rules |})
        <$> read_slice (readRule (S (Datatypes.length (rd_bytes bReader))) recover) rule_cause length bReader
  | Err e => Some (Err e)
  | Panic msg => Some (Panic msg)
  end.
End srs.

(** ** What the libraries promise *)

(** An address whose bytes [AddrFromIP] turns into the address again: no zone
    and not an IPv4 address in IPv6 form. *)
Definition plain_ip (a : Addr) : Prop :=
  match a with
  | AddrInvalid => False
  | Addr4 n => 0 <= n < 2 ^ 32
  | Addr6 n zone => 0 <= n < 2 ^ 128 /\ zone = "" /\ n `div` 2 ^ 32 <> 65535
  end.

Class SrsLaws `{SrsLib} : Prop := {
  WriteUvarint_spec : forall n, 0 <= n < 2 ^ 64 -> varbin_WriteUvarint n = AppendUvarint n;
  strings_law : codec_law varbin_strings (fun l => l <> []);
  uint16s_law : codec_law varbin_uint16s (fun l => l <> [] /\ Forall (fun n => 0 <= n < 2 ^ 16) l);
  uint8s_law : codec_law varbin_uint8s (fun l => l <> [] /\ Forall is_byte l);
  ranges_law : forall l, l <> [] -> Forall (fun data => Forall is_byte data.1 /\ Forall is_byte data.2) l ->
    reads (varbin_Read_ranges (Z.of_nat (length l))) (concat (map varbin_Write_range l)) l;
  AddrFromIP_law : forall a, plain_ip a -> AddrFromIP (Addr_AsSlice a) = a;
  matcher_law : codec_law domain_Matcher (fun m => exists d s legacy, m = NewMatcher d s legacy);
  adguard_law : codec_law domain_AdGuardMatcher (fun m => exists l, m = NewAdGuardMatcher l);
  IPSet_rr_law : forall s, IPSet_of_rr (IPSet_rr s) = s;
  IPSet_rr_nonempty : forall items s, items <> [] -> IPSetBuilder_IPSet items = Ok s -> IPSet_rr s <> [];
  zlib_law : forall l, zlib_NewReader {| rd_bytes := zlib_compress l; rd_end := ErrEOF |} =
    Ok {| rd_bytes := l; rd_end := ErrEOF |};
  strings_consumes : consumes (dec varbin_strings);
  uint16s_consumes : consumes (dec varbin_uint16s);
  uint8s_consumes : consumes (dec varbin_uint8s);
  ranges_consumes : forall n, consumes (varbin_Read_ranges n);
  matcher_consumes : consumes (dec domain_Matcher);
  adguard_consumes : consumes (dec domain_AdGuardMatcher);
  (** a length is an [int] *)
  make_bound : make_rules < 2 ^ 63 /\ make_ranges < 2 ^ 63
}.

(** ** Reading ends *)

Section termination.
Context `{SrsLaws}.

Lemma read_as_ok {A B} (f : A -> B) x b r :
  read_as f x = Ok (b, r) <-> exists a, x = Ok (a, r) /\ b = f a.
Proof. destruct x as [[a r']|e|msg]; simpl; naive_solver. Qed.

Lemma consumes_read_as {A B} (f : A -> B) (d : Reader -> res (A * Reader)) :
  consumes d -> consumes (fun r => read_as f (d r)).
Proof. intros Hd r b r' (a & Ha%Hd & _)%read_as_ok. done. Qed.

Lemma consumes_readIPSet : consumes readIPSet.
Proof.
  intros r s r' Hok. unfold readIPSet in Hok. apply res_bind_ok in Hok as ([v r1] & Hv%consumes_byte & Hok).
  case_match; [done|]. apply res_bind_ok in Hok as ([n r2] & Hn%consumes_uint & Hok).
  case_match; [done|]. apply res_bind_ok in Hok as ([l r3] & Hl%ranges_consumes & [= _ <-]). lia.
Qed.

Lemma consumes_item k last : consumes (read_item k last).
Proof.
  intros r v r' Hok. unfold read_item in Hok.
  repeat case_match; try done; try (by injection Hok as _ <-);
    apply read_as_ok in Hok as (a & Hok & _);
    first [exact (strings_consumes _ _ _ Hok) | exact (uint16s_consumes _ _ _ Hok)
      | exact (matcher_consumes _ _ _ Hok) | exact (consumes_readIPSet _ _ _ Hok)
      | exact (adguard_consumes _ _ _ Hok) | exact (uint8s_consumes _ _ _ Hok)].
Qed.

Lemma default_loop_ends fuel recover last rule r :
  (length (rd_bytes r) < fuel)%nat -> exists x, readDefaultRule_loop fuel recover last rule r = Some x.
Proof.
  revert last rule r; induction fuel as [|fuel IH]; intros last rule r Hf; [lia|]. cbn [readDefaultRule_loop].
  destruct (ReadByte r) as [[k r1]|e|msg] eqn:Eb; [|by eexists..]. apply consumes_byte in Eb.
  case_match; [by eexists|]. destruct (read_item k last r1) as [[v r2]|e|msg] eqn:Ei; [|by eexists..].
  apply consumes_item in Ei. apply IH. lia.
Qed.

Lemma default_loop_consumes fuel recover last rule r d r' :
  readDefaultRule_loop fuel recover last rule r = Some (Ok (d, r')) -> (length (rd_bytes r') < length (rd_bytes r))%nat.
Proof.
  revert last rule r; induction fuel as [|fuel IH]; intros last rule r; [done|]. cbn [readDefaultRule_loop].
  destruct (ReadByte r) as [[k r1]|e|msg] eqn:Eb; [|done..]. apply consumes_byte in Eb.
  case_match.
  - intros [= (b & Hb & _)%read_as_ok]. apply consumes_bool in Hb. lia.
  - destruct (read_item k last r1) as [[v r2]|e|msg] eqn:Ei; [|done..]. apply consumes_item in Ei.
    intros Hok%IH. lia.
Qed.

(** A reader of rules: on at most [n] bytes it answers, and takes some. *)
Definition reads_rules (n : nat) (read : Reader -> option (res (HeadlessRuleOptions * Reader))) : Prop :=
  forall r, (length (rd_bytes r) <= n)%nat ->
    exists x, read r = Some x /\
      forall rule r', x = Ok (rule, r') -> (length (rd_bytes r') < length (rd_bytes r))%nat.

Lemma read_rules_ends n read cause fuel i len r :
  reads_rules n read -> (length (rd_bytes r) <= n)%nat -> (length (rd_bytes r) < fuel)%nat ->
  exists x, read_rules fuel read cause i len r = Some x /\
    forall rules r', x = Ok (rules, r') -> (length (rd_bytes r') <= length (rd_bytes r))%nat.
Proof.
  intros Hread. revert i r; induction fuel as [|fuel IH]; intros i r Hn Hf; [lia|]. cbn [read_rules].
  case_match; [eexists; split; [done|]; by intros ? ? [= _ <-]|].
  destruct (Hread r Hn) as (x & -> & Hx). destruct x as [[rule r1]|e|msg]; [|by eexists..].
  specialize (Hx rule r1 eq_refl). destruct (IH (i + 1) r1) as (y & -> & Hy); [lia..|].
  destruct y as [[rules r2]|e|msg]; [|by eexists..]. specialize (Hy rules r2 eq_refl).
  eexists. split; [done|]. intros ? ? [= _ <-]. lia.
Qed.

Lemma read_slice_ends n read cause len r :
  reads_rules n read -> (length (rd_bytes r) <= n)%nat ->
  exists x, read_slice read cause len r = Some x /\
    forall rules r', x = Ok (rules, r') -> (length (rd_bytes r') <= length (rd_bytes r))%nat.
Proof.
  intros Hread Hn. unfold read_slice. case_match; [by eexists|].
  apply (read_rules_ends n); [done|done|]. apply Nat.lt_succ_diag_r.
Qed.

Lemma consumes_logical_head r mode len r' :
  read_logical_head r = Ok (mode, len, r') -> (length (rd_bytes r') < length (rd_bytes r))%nat.
Proof.
  unfold read_logical_head.
  intros ([m r1] & Hm & ([n r2] & Hn%consumes_uvarint & [= _ _ <-])%res_bind_ok)%res_bind_ok.
  unfold read_mode in Hm. apply res_bind_ok in Hm as ([b r3] & Hb%consumes_byte & Hm).
  case_match; [injection Hm as _ <-; lia|]. case_match; [injection Hm as _ <-; lia|done].
Qed.

Lemma readRule_reads fuel recover : reads_rules fuel (readRule (S fuel) recover).
Proof.
  induction fuel as [|fuel IH]; intros r Hr.
  - destruct r as [[|b l] e]; [by eexists|simpl in Hr; lia].
  - remember (S fuel) as f eqn:Hf. cbn [readRule]. destruct (ReadByte r) as [[t r1]|e|msg] eqn:Eb; [|by eexists..]. apply consumes_byte in Eb.
    case_match; [|case_match; [|by eexists]].
    + unfold readDefaultRule.
      destruct (default_loop_ends (S (length (rd_bytes r1))) recover 0 headless_zero r1) as (x & Hx); [lia|].
      rewrite Hx. eexists. split; [done|]. intros rule r' (d & -> & ->)%read_as_ok.
      apply default_loop_consumes in Hx. lia.
    + unfold readLogicalRule. destruct (read_logical_head r1) as [[[mode len] r2]|e|msg] eqn:Eh; [|by eexists..].
      apply consumes_logical_head in Eh.
      destruct (read_slice_ends fuel _ logical_rule_cause len r2 IH) as (x & -> & Hx); [lia|].
      eexists. split; [done|]. intros rule r' Hok. destruct x as [[rules r3]|e|msg]; [|done..].
      specialize (Hx rules r3 eq_refl). simpl in Hok.
      apply res_bind_ok in Hok as ([b r4] & Hb%consumes_bool & [= _ <-]). lia.
Qed.

(** C15 (reading a rule-set ends): on any bytes, with any error at their end,
    [Read] returns rules, an error or a panic: no announced length or depth of
    nesting makes it run on. *)
Theorem read_returns r recover : exists x, Read r recover = Some x.
Proof.
  unfold Read. destruct (read_header r) as [[[v len] b]|e|msg]; [|by eexists..].
  destruct (read_slice_ends (length (rd_bytes b)) (readRule (S (length (rd_bytes b))) recover) rule_cause len b)
    as (x & -> & _); [apply readRule_reads|done|by eexists].
Qed.
End termination.

(** ** What is read back *)

Section readback.
Context `{SrsLib}.

(** The set [writeRuleItemCIDR] writes. *)
Definition cidr_set (value : list string) : option IPSet :=
  match (let* items := res_mapi cidr_add 0 value in IPSetBuilder_IPSet items) with
  | Ok s => Some s
  | _ => None
  end.

Definition when_nonempty {A B} (l : list A) (x : option B) : option B := if nonempty l then x else None.

(** A default rule after it was written and read: the lists as they were, the
    domains and addresses as the matcher and the sets built from them, and with
    [recover] as what these can tell. *)
Definition as_read_default (recover : bool) (generateVersion : Z) (d : DefaultHeadlessOptions)
    : DefaultHeadlessOptions :=
  let matcher :=
    if nonempty (hd_Domain d) || nonempty (hd_DomainSuffix d) then
      Some (NewMatcher (hd_Domain d) (hd_DomainSuffix d) (generateVersion =? RuleSetVersion1))
    else None in
  let source := when_nonempty (hd_SourceIPCIDR d) (cidr_set (hd_SourceIPCIDR d)) in
  let destination := when_nonempty (hd_IPCIDR d) (cidr_set (hd_IPCIDR d)) in
  let adguard := when_nonempty (hd_AdGuardDomain d) (Some (NewAdGuardMatcher (hd_AdGuardDomain d))) in
  let dump {A B} (f : A -> list B) (x : option A) := if recover then from_option f [] x else [] in
  Build_DefaultHeadlessOptions _ (hd_QueryType d) (hd_Network d)
    (dump (fun m => (Matcher_Dump m).1) matcher) (dump (fun m => (Matcher_Dump m).2) matcher)
    (hd_DomainKeyword d) (hd_DomainRegex d)
    (dump (fun s => map Prefix_String (IPSet_Prefixes s)) source)
    (dump (fun s => map Prefix_String (IPSet_Prefixes s)) destination)
    (hd_SourcePort d) (hd_SourcePortRange d) (hd_Port d) (hd_PortRange d) (hd_ProcessName d)
    (hd_ProcessPath d) (hd_ProcessPathRegex d) (hd_PackageName d) (hd_NetworkType d)
    (hd_NetworkIsExpensive d) (hd_NetworkIsConstrained d) (hd_WIFISSID d) (hd_WIFIBSSID d) (hd_Invert d)
    matcher source destination (dump AdGuardMatcher_Dump adguard) adguard false.









End readback.

(** ** The round trip *)

Section roundtrip.
Context `{SrsLaws}.














(** *** The fields of the rule that was read *)








(** *** Rules *)











End roundtrip.

(** ** What can be written *)

Section writable.
Context `{SrsLib}.

Definition set_writable (value : list string) : bool :=
  negb (nonempty value) || negb (is_nil (cidr_set value)).

Definition default_writable (generateVersion : Z) (d : DefaultHeadlessOptions) : bool :=
  set_writable (hd_SourceIPCIDR d) && set_writable (hd_IPCIDR d) &&
  (negb (nonempty (hd_NetworkType d)) || (RuleSetVersion3 <=? generateVersion)) &&
  (negb (nonempty (hd_AdGuardDomain d)) || (RuleSetVersion2 <=? generateVersion)).

(** The rules a version of the format has room for. *)
Fixpoint writable (generateVersion : Z) (o : HeadlessRuleOptions) : bool :=
  match o with
  | MkHeadlessRuleOptions type d mode rules _ =>
      if decide (type = RuleTypeDefault) then default_writable generateVersion d
      else bool_decide (type = RuleTypeLogical) && bool_decide (mode = LogicalTypeAnd \/ mode = LogicalTypeOr) &&
           forallb (writable generateVersion) rules
  end.

Lemma is_ok_bind {A B} (r : res A) (k : A -> B) : is_ok (let* x := r in Ok (k x)) = is_ok r.
Proof. by destruct r. Qed.

Lemma is_ok_cause {A} msg (r : res A) : is_ok (res_cause msg r) = is_ok r.
Proof. by destruct r. Qed.

Lemma is_ok_mapi {A B} (f : A -> res B) i l : is_ok (res_mapi (fun _ => f) i l) = forallb (fun x => is_ok (f x)) l.
Proof.
  revert i; induction l as [|x l IH]; intros i; simpl; [done|].
  destruct (f x); simpl; [|done..]. by rewrite is_ok_bind, IH.
Qed.

Lemma write_pieces_ok l : is_ok (write_pieces l) = forallb (fun p => negb p.1 || is_ok p.2) l.
Proof.
  induction l as [|[[] p] l IH]; simpl; [done| |done]. destruct p; simpl; [|done..]. by rewrite is_ok_bind, IH.
Qed.

Lemma writeCIDR_ok k l : is_ok (writeRuleItemCIDR k l) = negb (is_nil (cidr_set l)).
Proof.
  unfold writeRuleItemCIDR, cidr_set. destruct (res_mapi cidr_add 0 l); simpl; [|done..].
  rewrite is_ok_bind. by destruct (IPSetBuilder_IPSet _).
Qed.

Lemma writeDefaultRule_ok v d : is_ok (writeDefaultRule d v) = default_writable v d.
Proof.
  unfold writeDefaultRule. rewrite is_ok_bind, write_pieces_ok. unfold default_pieces, address_pieces, local_pieces.
  cbn [app forallb fst snd]. rewrite !is_ok_cause, !writeCIDR_ok. simpl.
  unfold default_writable, set_writable. rewrite !orb_true_r. cbn [andb].
  rewrite !Z.ltb_antisym. unfold RuleSetVersion3, RuleSetVersion2.
  rewrite andb_true_r, !andb_assoc. by destruct (3 <=? v), (2 <=? v).
Qed.

Lemma writeRule_ok v o : is_ok (writeRule o v) = writable v o.
Proof.
  induction o as [type d mode rules inv IH] using HeadlessRuleOptions_tree_ind. cbn [writeRule writable].
  case_decide; [apply writeDefaultRule_ok|]. case_decide as Hl; [|by rewrite bool_decide_false].
  rewrite bool_decide_true by done. cbn [andb]. unfold writeLogicalRule.
  assert (Hr : is_ok (res_mapi (fun _ o => writeRule o v) 0 rules) = forallb (writable v) rules).
  { rewrite is_ok_mapi. clear -IH. induction IH as [|o rules Ho _ IH]; simpl; [done|]. by rewrite Ho, IH. }
  case_decide; [rewrite bool_decide_true by auto; simpl; by rewrite is_ok_bind|].
  case_decide; [rewrite bool_decide_true by auto; simpl; by rewrite is_ok_bind|].
  rewrite bool_decide_false; [done|tauto].
Qed.

Lemma Write_is_ok rules v : is_ok (Write rules v) = forallb (writable v) rules.
Proof.
  unfold Write. rewrite is_ok_bind, is_ok_mapi. induction rules as [|o rules IH]; simpl; [done|].
  by rewrite writeRule_ok, IH.
Qed.

(** C14 (what a rule-set file can hold): [Write] succeeds exactly when every
    rule of the tree has a known type and mode, its address lists parse, its
    network types are written in version 3 and its AdGuard domains in version 2
    or later; nothing else is refused. *)
Theorem write_succeeds_iff rules v : is_ok (Write rules v) = forallb (writable v) rules.
Proof. apply Write_is_ok. Qed.
End writable.

(** ** A compiled rule-set means what its source means *)









Section compiled.
Context `{SrsLib} `{!ExternalLaws _}.




(** *** The rules are built *)








(** *** Trees *)








End compiled.

Section loading.
Context `{SrsLaws} `{!ExternalLaws _}.
Context (h : Host) (networkManager : bool) (UnmarshalExtended : string -> res PlainRuleSetCompat).


End loading.

(** ** A concrete library, examples, witnesses

    The formats here are not those of the libraries: a length is one number. *)

Fixpoint read_n {A} (n : nat) (d : Reader -> res (A * Reader)) (r : Reader) : res (list A * Reader) :=
  match n with
  | O => Ok ([], r)
  | S n => let* '(a, r) := d r in let* '(l, r) := read_n n d r in Ok (a :: l, r)
  end.

Lemma read_n_reads {A} (d : Reader -> res (A * Reader)) (w : A -> list Z) l :
  (forall a, a ∈ l -> reads d (w a) a) -> reads (read_n (length l) d) (concat (map w l)) l.
Proof.
  induction l as [|a l IH]; intros Hl rest e; [done|]. cbn [length read_n map concat].
  rewrite <- app_assoc, Hl by set_solver. cbn [res_bind]. rewrite IH by set_solver. done.
Qed.

Lemma read_n_consumes {A} (d : Reader -> res (A * Reader)) n : consumes d -> consumes (read_n n d).
Proof.
  intros Hd. induction n as [|n IH]; intros r l r'; simpl; [by intros [= _ <-]|].
  intros ([a r1] & H1%Hd & ([l1 r2] & H2%IH & [= _ <-])%res_bind_ok)%res_bind_ok. lia.
Qed.

Definition counted {A} (c : codec A) : codec (list A) := {|
  enc l := Z.of_nat (length l) :: concat (map (enc c) l);
  dec r := let* '(n, r) := ReadByte r in read_n (Z.to_nat n) (dec c) r |}.

Lemma counted_law {A} (c : codec A) : codec_law c (fun _ => True) -> codec_law (counted c) (fun _ => True).
Proof.
  intros Hc l _ rest e. simpl. unfold ReadByte. cbn [rd_bytes rd_end res_bind]. rewrite Nat2Z.id.
  apply read_n_reads. intros a _. by apply Hc.
Qed.

Lemma counted_consumes {A} (c : codec A) : consumes (dec c) -> consumes (dec (counted c)).
Proof.
  intros Hc r l r'. simpl. intros ([n r1] & H1%consumes_byte & H2)%res_bind_ok.
  apply (read_n_consumes _ _ Hc) in H2. lia.
Qed.

Definition number : codec Z := {| enc n := [n]; dec := ReadByte |}.
Definition numbers : codec (list Z) := counted number.
Definition one_string : codec string :=
  {| enc s := enc numbers (bytes_of s); dec r := read_as string_of_bytes (dec numbers r) |}.
Definition strings : codec (list string) := counted one_string.

Definition pair_of {A B} (c : codec A) (c' : codec B) : codec (A * B) := {|
  enc p := enc c p.1 ++ enc c' p.2;
  dec r := let* '(a, r) := dec c r in let* '(b, r) := dec c' r in Ok (a, b, r) |}.

Lemma pair_law {A B} (c : codec A) (c' : codec B) :
  codec_law c (fun _ => True) -> codec_law c' (fun _ => True) -> codec_law (pair_of c c') (fun _ => True).
Proof.
  intros Hc Hc' [a b] _ rest e. simpl. rewrite <- app_assoc, Hc by done. cbn [res_bind]. by rewrite Hc'.
Qed.

Lemma pair_consumes {A B} (c : codec A) (c' : codec B) :
  consumes (dec c) -> consumes (dec c') -> consumes (dec (pair_of c c')).
Proof.
  intros Hc Hc' r p r'. simpl.
  intros ([a r1] & H1%Hc & ([b r2] & H2%Hc' & [= _ <-])%res_bind_ok)%res_bind_ok. lia.
Qed.

Lemma numbers_law : codec_law numbers (fun _ => True).
Proof. apply counted_law. intros n _. apply reads_byte. Qed.

Lemma numbers_consumes : consumes (dec numbers).
Proof. apply counted_consumes, consumes_some_weaken, consumes_byte. Qed.

Lemma one_string_law : codec_law one_string (fun _ => True).
Proof. intros s _ rest e. cbn [one_string enc dec]. unfold read_as. rewrite numbers_law by done. simpl. by rewrite string_of_bytes_of. Qed.

Lemma strings_ok : codec_law strings (fun _ => True) /\ consumes (dec strings).
Proof.
  split; [apply counted_law, one_string_law|]. apply counted_consumes.
  intros r s r' (l & Hl%numbers_consumes & _)%read_as_ok. done.
Qed.

#[local] Existing Instance concrete_external.
#[local] Existing Instance concrete_external_laws.

Definition concrete_rr (i : Prefix + Addr) : Addr * Addr :=
  match i with inl p => (prefix_ip p, Addr4 (prefix_bits p)) | inr a => (a, Addr6 0 "") end.
Definition rr_concrete (rr : Addr * Addr) : Prefix + Addr :=
  match rr.2 with Addr4 n => inl {| prefix_ip := rr.1; prefix_bits := n |} | _ => inr rr.1 end.

Definition addr_from_ip (l : list Z) : Addr :=
  if (length l =? 4)%nat then Addr4 (big_endian l)
  else if (length l =? 16)%nat then Addr6 (big_endian l) "" else AddrInvalid.

#[local] Instance concrete_srs : SrsLib := {
  varbin_WriteUvarint := AppendUvarint;
  varbin_strings := strings;
  varbin_uint16s := numbers;
  varbin_uint8s := numbers;
  varbin_empty_nonnil := true;
  varbin_Write_range := enc (pair_of numbers numbers);
  varbin_Read_ranges n := read_n (Z.to_nat n) (dec (pair_of numbers numbers));
  Map_empty_nonnil := true;
  AddrFromIP := addr_from_ip;
  domain_Matcher := pair_of strings strings;
  Matcher_Dump m := m;
  domain_AdGuardMatcher := strings;
  AdGuardMatcher_Dump m := m;
  IPSet_rr := map concrete_rr;
  IPSet_of_rr := map rr_concrete;
  IPSet_Prefixes s := omap (fun i => match i with inl p => Some p | inr _ => None end) s;
  zlib_compress l := 120 :: l;
  zlib_NewReader r :=
    match rd_bytes r with
    | 120 :: l => Ok {| rd_bytes := l; rd_end := rd_end r |}
    | _ => Err (ErrNew "zlib: invalid header")
    end;
  make_rules := 2 ^ 40;
  make_ranges := 2 ^ 40
}.

Lemma addr_from_ip_law a : plain_ip a -> addr_from_ip (Addr_AsSlice a) = a.
Proof.
  destruct a as [|n|n z]; simpl plain_ip; [done| |].
  - intros Hn. unfold addr_from_ip, Addr_AsSlice. rewrite length_be_bytes. simpl Nat.eqb. cbv iota.
    by rewrite big_endian_be_bytes.
  - intros (Hn & -> & _). unfold addr_from_ip, Addr_AsSlice. rewrite length_be_bytes. simpl Nat.eqb. cbv iota.
    by rewrite big_endian_be_bytes.
Qed.

#[local] Instance concrete_srs_laws : SrsLaws.
Proof.
  destruct strings_ok as [Hs Hsc].
  split; try done.
  - intros l _. by apply Hs.
  - intros l _. by apply numbers_law.
  - intros l _. by apply numbers_law.
  - intros l _ _. cbn [varbin_Read_ranges varbin_Write_range concrete_srs]. rewrite Nat2Z.id.
    apply read_n_reads. intros p _. by apply pair_law; [apply numbers_law..|].
  - apply addr_from_ip_law.
  - intros m _. by apply pair_law.
  - intros m _. by apply Hs.
  - intros s. simpl. rewrite List.map_map. rewrite <- (List.map_id s) at 2. apply List.map_ext. by intros [[]|].
  - intros items s Hne [= <-]. simpl. by destruct items.
  - apply numbers_consumes.
  - apply numbers_consumes.
  - intros n. apply read_n_consumes, pair_consumes; apply numbers_consumes.
  - by apply pair_consumes.
Qed.


Definition with_default (d : DefaultHeadlessOptions) : list HeadlessRuleOptions :=
  [MkHeadlessRuleOptions RuleTypeDefault d "" [] false].

(** Behaviours worth knowing. *)

(** A length in the file is given to [make] as it is: a file of a few bytes
    crashes the process. *)
Example huge_length_panics :
  Read {| rd_bytes := MagicBytes ++ [3; 120] ++ AppendUvarint (2 ^ 62); rd_end := ErrEOF |} false =
  Some (Panic makeslice).
Proof. reflexivity. Qed.

(** The network type needs version 3, the two other items of that version are
    written in any: an older reader does not know them. *)
Example expensive_written_in_version_1 :
  let d := Build_DefaultHeadlessOptions _ [] [] [] [] [] [] [] [] [] [] [] [] [] [] [] [] [] true true [] [] false
             None None None [] None false in
  Write (with_default d) 1 = Ok (MagicBytes ++ [1; 120; 1; 0; ruleItemNetworkIsExpensive; ruleItemNetworkIsConstrained;
                                   ruleItemFinal; 0]).
Proof. reflexivity. Qed.

(** A rule whose only condition is an empty list is accepted from a source file,
    and refused once it was compiled. *)
Example empty_list_lost :
  let d := Build_DefaultHeadlessOptions _ [] [] [] [] [] [] [] [] [] [] [] [] [] [] [] [] [] false false [] [] false
             None None None [] None true in
  DefaultHeadlessRule_IsValid d = true /\ DefaultHeadlessRule_IsValid (as_read_default false 2 d) = false.
Proof. split; reflexivity. Qed.

(** [Read] accepts version 0, which [Upgrade] then refuses, and does not look at
    what follows the last rule. *)
Example version_0_and_trailing_bytes :
  Read {| rd_bytes := MagicBytes ++ [0; 120; 0; 1; 2; 3]; rd_end := ErrEOF |} false =
  Some (Ok {| prs_Version := 0; prs_Rules := [] |}).
Proof. reflexivity. Qed.

Example unknown_item : Read {| rd_bytes := MagicBytes ++ [3; 120; 1; 0; 19; 77]; rd_end := ErrEOF |} false =
  Some (Err (ErrCause (ErrNew "unknown rule item type: 77, last type: 19") "read rule[0]")).
Proof. reflexivity. Qed.

(** *** Witnesses *)

Lemma read_returns_witness : exists x, Read {| rd_bytes := [83; 82; 83; 3; 120; 2; 0]; rd_end := ErrEOF |} true = Some x.
Proof. apply read_returns. Defined.








