(* ===== verification/RouterStart.v ===== *)
(** * route/router.go, route/rule_conds.go, box.go, protocol/tun/inbound.go: starting the routers

    The construction of the router from its options, the stages of its start, of
    the start of the DNS router and of the TUN inbounds, in the order box.go gives
    them: rules and TUN inbounds take references to their rule-sets, rule-sets
    load, unused ones are dropped, and the process searcher is made when a rule
    needs it.  The theorem: a started router has loaded exactly the rule-sets its
    rules and TUN inbounds name.  The update loops of remote rule-sets, which begin
    at post-start, are RuleSet.v's; no step of them is taken here. *)

From stdpp Require Import base list strings gmap.
From Stdlib Require Import ZArith Lia.
From S2P Require Import Prelude GoStd External Adapter RuleItem RuleAbstract RuleTree RuleMatch RuleAction RuleBuild RuleConfig RuleSet Lifecycle.

Open Scope Z_scope.
Open Scope box_scope.

(** ** Rules start and close (route/rule/rule_abstract.go) *)

(** Start one after the other until one fails; the rest is left as it was. *)
Definition start_each `{External} {X} (start : X -> RuleSetTable -> option error * X * RuleSetTable) :
    list X -> RuleSetTable -> option error * list X * RuleSetTable :=
  fix go l sets :=
    match l with
    | [] => (None, [], sets)
    | x :: l =>
        let '(err, x, sets) := start x sets in
        match err with
        | Some e => (Some e, x :: l, sets)
        | None => let '(err, l, sets) := go l sets in (err, x :: l, sets)
        end
    end.

Section rules.
Context `{External} {A : Type}.

(** The items with a [Start] method are the rule-set items; that of a Clash mode
    item only looks up the server, which is part of the host. *)
Definition item_Start (it : AnyItem) (sets : RuleSetTable) : option error * AnyItem * RuleSetTable :=
  match it with
  | Plain _ => (None, it, sets)
  | ItRuleSet i => let '(err, i, sets) := RuleSetItem_Start i sets in (err, ItRuleSet i, sets)
  end.

Definition is_rule_set (it : AnyItem) : bool := match it with ItRuleSet _ => true | Plain _ => false end.

(** The rule-set item of a rule is one object, in [allItems] and in its group. *)
Definition share (started : list AnyItem) (it : AnyItem) : AnyItem :=
  if is_rule_set it then default it (List.find is_rule_set started) else it.

Definition abstractDefaultRule_Start (r : abstractDefaultRule AnyItem A) (sets : RuleSetTable)
    : option error * abstractDefaultRule AnyItem A * RuleSetTable :=
  let '(err, all, sets) := start_each item_Start (allItems r) sets in
  let group l := map (share all) l in
  (err,
   {| items := group (items r); sourceAddressItems := group (sourceAddressItems r);
      sourcePortItems := group (sourcePortItems r);
      destinationAddressItems := group (destinationAddressItems r);
      destinationIPCIDRItems := group (destinationIPCIDRItems r);
      destinationPortItems := group (destinationPortItems r); allItems := all;
      invert := invert r; action := action r |}, sets).

(** [abstractDefaultRule.Start], [abstractLogicalRule.Start] *)
Fixpoint Rule_Start (r : Rule A) (sets : RuleSetTable) : option error * Rule A * RuleSetTable :=
  match r with
  | DefaultRule r =>
      let '(err, r, sets) := abstractDefaultRule_Start r sets in (err, DefaultRule r, sets)
  | LogicalRule (Build_abstractLogicalRule _ _ rs md inv act) =>
      let '(err, rs, sets) := start_each Rule_Start rs sets in
      (err, LogicalRule {| rules := rs; mode := md; linvert := inv; laction := act |}, sets)
  end.

(** [abstractDefaultRule.Close], [abstractLogicalRule.Close]: no item has a
    [Close] method, so a rule keeps the references it took. *)
Definition item_Close (it : AnyItem) : option error := None.
Fixpoint first_error {X} (f : X -> option error) (l : list X) : option error :=
  match l with [] => None | x :: l => match f x with Some e => Some e | None => first_error f l end end.
Fixpoint Rule_Close (r : Rule A) : option error :=
  match r with
  | DefaultRule r => first_error item_Close (allItems r)
  | LogicalRule (Build_abstractLogicalRule _ _ rs _ _ _) => first_error Rule_Close rs
  end.
End rules.

(** ** What the options need (route/rule_conds.go) *)

Fixpoint hasRule_one (cond : RawDefaultRule -> bool) (o : RuleOptions) : bool :=
  match o with
  | MkRuleOptions type d _ _ rs _ _ =>
      if decide (type = RuleTypeDefault) then cond d
      else if decide (type = RuleTypeLogical) then existsb (hasRule_one cond) rs
      else false
  end.
Definition hasRule (rules : list RuleOptions) (cond : RawDefaultRule -> bool) : bool :=
  existsb (hasRule_one cond) rules.

Fixpoint hasDNSRule_one {RR} (cond : RawDefaultDNSRule -> bool) (o : DNSRuleOptions RR) : bool :=
  match o with
  | MkDNSRuleOptions type d _ _ rs _ _ =>
      if decide (type = RuleTypeDefault) then cond d
      else if decide (type = RuleTypeLogical) then existsb (hasDNSRule_one cond) rs
      else false
  end.
Definition hasDNSRule {RR} (rules : list (DNSRuleOptions RR)) (cond : RawDefaultDNSRule -> bool) : bool :=
  existsb (hasDNSRule_one cond) rules.

Definition isProcessRule (r : RawDefaultRule) : bool :=
  nonempty (rd_ProcessName r) || nonempty (rd_ProcessPath r) || nonempty (rd_ProcessPathRegex r) ||
  nonempty (rd_PackageName r) || nonempty (rd_User r) || nonempty (rd_UserID r).
Definition isProcessDNSRule (r : RawDefaultDNSRule) : bool :=
  nonempty (dd_ProcessName r) || nonempty (dd_ProcessPath r) || nonempty (dd_ProcessPathRegex r) ||
  nonempty (dd_PackageName r) || nonempty (dd_User r) || nonempty (dd_UserID r).
Definition isWIFIRule (r : RawDefaultRule) : bool := nonempty (rd_WIFISSID r) || nonempty (rd_WIFIBSSID r).
Definition isWIFIDNSRule (r : RawDefaultDNSRule) : bool := nonempty (dd_WIFISSID r) || nonempty (dd_WIFIBSSID r).

(** ** The router *)

(** A rule-set of either kind. *)
Abbreviation AnyRuleSet := (RuleSet + RemoteRuleSet)%type.

Section router.
Context `{External} {RR : Type}.
Context (dialer_New : DirectActionOptions -> res unit) (networkManager : bool).
Context (UnmarshalExtended srs_Read : string -> res PlainRuleSetCompat).

Definition any_set (x : AnyRuleSet) : RuleSet := match x with inl s => s | inr r => rrs_set r end.
Definition put_set (s : RuleSet) (x : AnyRuleSet) : AnyRuleSet :=
  match x with inl _ => inl s | inr r => inr (with_set s r) end.

Record Router : Type := {
  ro_rules : list (Rule (option RuleAction));
  ro_needFindProcess : bool;
  ro_needWIFIState : bool;
  (** the tags in the order of the options, and the objects *)
  ro_ruleSets : list string;
  ro_ruleSetMap : gmap string AnyRuleSet;
  (** there is a process searcher *)
  ro_processSearcher : bool;
  ro_started : bool
}.

Definition with_rules (rs : list (Rule (option RuleAction))) (r : Router) : Router :=
  {| ro_rules := rs; ro_needFindProcess := ro_needFindProcess r; ro_needWIFIState := ro_needWIFIState r;
     ro_ruleSets := ro_ruleSets r; ro_ruleSetMap := ro_ruleSetMap r;
     ro_processSearcher := ro_processSearcher r; ro_started := ro_started r |}.
Definition with_ruleSets (tags : list string) (sets : gmap string AnyRuleSet) (r : Router) : Router :=
  {| ro_rules := ro_rules r; ro_needFindProcess := ro_needFindProcess r;
     ro_needWIFIState := ro_needWIFIState r; ro_ruleSets := tags; ro_ruleSetMap := sets;
     ro_processSearcher := ro_processSearcher r; ro_started := ro_started r |}.
Definition with_needs (wifi searcher : bool) (r : Router) : Router :=
  {| ro_rules := ro_rules r; ro_needFindProcess := ro_needFindProcess r; ro_needWIFIState := wifi;
     ro_ruleSets := ro_ruleSets r; ro_ruleSetMap := ro_ruleSetMap r; ro_processSearcher := searcher;
     ro_started := ro_started r |}.
Definition with_started (r : Router) : Router :=
  {| ro_rules := ro_rules r; ro_needFindProcess := ro_needFindProcess r;
     ro_needWIFIState := ro_needWIFIState r; ro_ruleSets := ro_ruleSets r;
     ro_ruleSetMap := ro_ruleSetMap r; ro_processSearcher := ro_processSearcher r; ro_started := true |}.

(** What a rule sees of the rule-sets, and the sets put back. *)
Definition Router_table (r : Router) : RuleSetTable := any_set <$> ro_ruleSetMap r.
Definition put_table (sets : RuleSetTable) (m : gmap string AnyRuleSet) : gmap string AnyRuleSet :=
  map_imap (fun tag x => Some (match sets !! tag with Some s => put_set s x | None => x end)) m.

(** [Router.RuleSet] *)
Definition Router_RuleSet (tag : string) (r : Router) : option AnyRuleSet := ro_ruleSetMap r !! tag.

Definition NewRouter (rules : list RuleOptions) (FindProcess : bool) (dnsRules : list (DNSRuleOptions RR)) : Router :=
  {| ro_rules := [];
     ro_needFindProcess := hasRule rules isProcessRule || hasDNSRule dnsRules isProcessDNSRule || FindProcess;
     ro_needWIFIState := hasRule rules isWIFIRule || hasDNSRule dnsRules isWIFIDNSRule;
     ro_ruleSets := []; ro_ruleSetMap := ∅; ro_processSearcher := false; ro_started := false |}.

(** [Initialize]; [file] and [watcher] are what a local rule-set finds on disk. *)
Fixpoint add_rule_sets (file : string -> res string) (watcher : string -> res unit) (i : Z)
    (ruleSets : list RuleSetOptions) (r : Router) : res Router :=
  match ruleSets with
  | [] => Ok r
  | o :: ruleSets =>
      let tag := rso_Tag o in
      match ro_ruleSetMap r !! tag with
      | Some _ => Err (ErrNew ("duplicate rule-set tag: " +:+ tag))
      | None =>
          let* ruleSet := res_cause ("parse rule-set[" +:+ go_itoa i +:+ "]")
                            (NewRuleSet networkManager UnmarshalExtended srs_Read o (file tag) (watcher tag)) in
          add_rule_sets file watcher (i + 1) ruleSets
            (with_ruleSets (ro_ruleSets r ++ [tag]) (<[tag := ruleSet]> (ro_ruleSetMap r)) r)
      end
  end.

Definition Router_Initialize (rules : list RuleOptions) (ruleSets : list RuleSetOptions)
    (file : string -> res string) (watcher : string -> res unit) (r : Router) : res Router :=
  let* rs := res_mapi (fun i o => res_cause ("parse rule[" +:+ go_itoa (Z.of_nat i) +:+ "]")
                                    (NewRule dialer_New o false)) 0 rules in
  add_rule_sets file watcher 0 ruleSets (with_rules (ro_rules r ++ rs) r).

(** *** Start *)

(** What a remote rule-set finds when it starts. *)
Record SetEnv : Type := {
  se_detour_found : bool;
  se_cacheFile : option (option SavedBinary);
  se_server : option string -> HTTPOutcome;
  se_now : Z;
  se_saved : bool
}.

(** [StartContext]; a local rule-set only starts its watcher, whose error is logged. *)
Definition start_rule_set (env : SetEnv) (x : AnyRuleSet) : res (option error * AnyRuleSet) :=
  match x with
  | inl s => Ok (None, inl s)
  | inr r =>
      let* '(err, r, _) :=
        StartContext networkManager UnmarshalExtended srs_Read (se_detour_found env) (se_cacheFile env)
          (se_server env) (se_now env) (se_saved env) r in
      Ok (err, inr r)
  end.

(** The tasks of the group, which touch one rule-set each: their errors and
    the sets they leave. *)
Fixpoint start_rule_sets (env : string -> SetEnv) (i : Z) (tags : list string) (m : gmap string AnyRuleSet)
    : res (list (option error) * gmap string AnyRuleSet) :=
  match tags with
  | [] => Ok ([], m)
  | tag :: tags =>
      match m !! tag with
      | None => start_rule_sets env (i + 1) tags m
      | Some x =>
          let* '(err, x) := start_rule_set (env tag) x in
          let err := (fun e => ErrCause e ("initialize rule-set[" +:+ go_itoa i +:+ "]")) <$> err in
          let* '(errs, m) := start_rule_sets env (i + 1) tags (<[tag := x]> m) in
          Ok (err :: errs, m)
      end
  end.

(** What [task.Group] makes of the errors of its tasks. *)
Context (group_Run : list (option error) -> option error).
(** There is a platform interface; the error of making a process searcher. *)
Context (platform : bool) (searcher : option error).

Definition contains (f : RuleSetMetadata -> bool) (r : Router) : bool :=
  existsb (fun tag => match ro_ruleSetMap r !! tag with
                      | Some x => f (rs_metadata (any_set x))
                      | None => false
                      end) (ro_ruleSets r).

Definition needs_process (r : Router) : bool := ro_needFindProcess r || contains ContainsProcessRule r.

(** [case StartStateStart] *)
Definition start_sets (env : string -> SetEnv) (r : Router) : res (option error * Router) :=
  let* '(errs, m) := start_rule_sets env 0 (ro_ruleSets r) (ro_ruleSetMap r) in
  match group_Run errs with
  | Some err => Ok (Some err, with_ruleSets (ro_ruleSets r) m r)
  | None =>
      let r := with_ruleSets (ro_ruleSets r) m r in
      Ok (None,
          with_needs (ro_needWIFIState r || contains ContainsWIFIRule r)
            (if needs_process r then if platform then true else negb (bool_decide (is_Some searcher))
             else ro_processSearcher r) r)
  end.

(** The loops over rules of both routers. *)
Fixpoint start_rules {A} (what : string) (i : Z) (rs : list (Rule A)) (sets : RuleSetTable)
    : option error * list (Rule A) * RuleSetTable :=
  match rs with
  | [] => (None, [], sets)
  | r :: rs =>
      let '(err, r, sets) := Rule_Start r sets in
      match err with
      | Some e => (Some (ErrCause e ("initialize " +:+ what +:+ "[" +:+ go_itoa i +:+ "]")), r :: rs, sets)
      | None => let '(err, rs, sets) := start_rules what (i + 1) rs sets in (err, r :: rs, sets)
      end
  end.

(** [case StartStatePostStart]; [PostStart] of a rule-set begins its update loop. *)
Definition post_start (r : Router) : option error * Router :=
  let '(err, rs, sets) := start_rules "rule" 0 (ro_rules r) (Router_table r) in
  let r := with_ruleSets (ro_ruleSets r) (put_table sets (ro_ruleSetMap r)) (with_rules rs r) in
  match err with
  | Some e => (Some e, r)
  | None => (None, with_started r)
  end.

(** [case StartStateStarted] *)
Definition cleanup (r : Router) : Router :=
  with_ruleSets (ro_ruleSets r) ((fun x => put_set (Cleanup (any_set x)) x) <$> ro_ruleSetMap r) r.

Definition Router_Start (env : string -> SetEnv) (stage : StartStage) (r : Router) : res (option error * Router) :=
  match stage with
  | StartStateInitialize => Ok (None, r)
  | StartStateStart => start_sets env r
  | StartStatePostStart => Ok (post_start r)
  | StartStateStarted => Ok (None, cleanup r)
  end.

(** [Close]: [watcher] is the error of closing the watcher of a local rule-set. *)
Definition Router_Close (watcher : string -> option error) (r : Router) : option error * Router :=
  let cause what i e := ErrCause e ("close " +:+ what +:+ "[" +:+ go_itoa (Z.of_nat i) +:+ "]") in
  let rule_errors := imap (fun i rule => cause "rule" i <$> Rule_Close rule) (ro_rules r) in
  let set_errors := imap (fun i tag => cause "rule-set" i <$>
      match ro_ruleSetMap r !! tag with Some (inl _) => watcher tag | _ => None end) (ro_ruleSets r) in
  (E_Errors (omap id (rule_errors ++ set_errors)),
   with_ruleSets (ro_ruleSets r) ((fun x => put_set (RuleSet_Close (any_set x)) x) <$> ro_ruleSetMap r) r).

(** ** The DNS router (dns/router.go) and the box (box.go) *)

(** [case StartStateStart] of the DNS router: its rules look the rule-sets up in the router. *)
Definition dns_start (stage : StartStage) (rs : list (Rule (option (DNSAction RR)))) (r : Router)
    : option error * list (Rule (option (DNSAction RR))) * Router :=
  match stage with
  | StartStateStart =>
      let '(err, rs, sets) := start_rules "DNS rule" 0 rs (Router_table r) in
      (err, rs, with_ruleSets (ro_ruleSets r) (put_table sets (ro_ruleSetMap r)) r)
  | _ => (None, rs, r)
  end.

(** What [box.New] makes and starts. *)
Inductive Component : Type :=
  | TheInternal | TheNetwork | TheDNSTransport | TheDNSRouter | TheConnection | TheRouter | TheOutbound
  | TheInbound | TheEndpoint | TheService.

Definition calls (stage : StartStage) (l : list Component) : list (StartStage * Component) := map (pair stage) l.

(** [Box.preStart] after the logger *)
Definition preStart : list (StartStage * Component) :=
  calls StartStateInitialize [TheInternal] ++
  calls StartStateInitialize [TheNetwork; TheDNSTransport; TheDNSRouter; TheConnection; TheRouter; TheOutbound;
                              TheInbound; TheEndpoint; TheService] ++
  calls StartStateStart [TheOutbound; TheDNSTransport; TheDNSRouter; TheNetwork; TheConnection; TheRouter].

(** [Box.start] *)
Definition start : list (StartStage * Component) :=
  preStart ++
  calls StartStateStart [TheInternal] ++
  calls StartStateStart [TheInbound; TheEndpoint; TheService] ++
  calls StartStatePostStart [TheOutbound; TheNetwork; TheDNSTransport; TheDNSRouter; TheConnection; TheRouter;
                             TheInbound; TheEndpoint; TheService] ++
  calls StartStatePostStart [TheInternal] ++
  calls StartStateStarted [TheNetwork; TheDNSTransport; TheDNSRouter; TheConnection; TheRouter; TheOutbound;
                           TheInbound; TheEndpoint; TheService] ++
  calls StartStateStarted [TheInternal].

(** *** TUN inbounds (protocol/tun/inbound.go)

    Besides rules, TUN inbounds refer to rule-sets: those of [route_address_set]
    and [route_exclude_address_set]. *)
Record TunInboundOptions : Type := {
  to_RouteAddressSet : list string;
  to_RouteExcludeAddressSet : list string;
  to_AutoRoute : bool;
  to_AutoRedirect : bool
}.

Record TunInbound : Type := {
  (** the rule-sets, by tag *)
  ti_routeRuleSet : list string;
  ti_routeExcludeRuleSet : list string;
  ti_autoRedirect : bool;
  (** the number its [updateRouteAddressSet] is registered under *)
  ti_callback : nat;
  ti_routeAddressSet : list IPSet;
  ti_routeExcludeAddressSet : list IPSet
}.

Definition with_address_sets (route exclude : list IPSet) (t : TunInbound) : TunInbound :=
  {| ti_routeRuleSet := ti_routeRuleSet t; ti_routeExcludeRuleSet := ti_routeExcludeRuleSet t;
     ti_autoRedirect := ti_autoRedirect t; ti_callback := ti_callback t; ti_routeAddressSet := route;
     ti_routeExcludeAddressSet := exclude |}.

Fixpoint find_rule_sets (what : string) (tags : list string) (r : Router) : res unit :=
  match tags with
  | [] => Ok tt
  | tag :: tags =>
      match Router_RuleSet tag r with
      | None => Err (ErrNew ("parse " +:+ what +:+ ": rule-set not found: " +:+ tag))
      | Some _ => find_rule_sets what tags r
      end
  end.

(** The end of [NewInbound]; [redirect] is what making and registering the
    redirection comes to. *)
Definition NewTunInbound (redirect : res unit) (callback : nat) (r : Router) (o : TunInboundOptions) : res TunInbound :=
  let* _ := find_rule_sets "route_address_set" (to_RouteAddressSet o) r in
  let* _ := find_rule_sets "route_exclude_address_set" (to_RouteExcludeAddressSet o) r in
  let* _ :=
    (if to_AutoRedirect o then
       if negb (to_AutoRoute o) then Err (ErrNew "`auto_route` is required by `auto_redirect`")
       else res_cause "initialize auto-redirect" redirect
     else Ok tt) in
  Ok {| ti_routeRuleSet := to_RouteAddressSet o; ti_routeExcludeRuleSet := to_RouteExcludeAddressSet o;
        ti_autoRedirect := to_AutoRedirect o; ti_callback := callback;
        ti_routeAddressSet := []; ti_routeExcludeAddressSet := [] |}.

(** One of the two loops of [Start] over rule-sets: the address sets, a
    reference, and a callback for a redirection. *)
Fixpoint tun_take (redirect : bool) (callback : nat) (tags : list string) (ipSets : list IPSet) (sets : RuleSetTable)
    : list IPSet * RuleSetTable :=
  match tags with
  | [] => (ipSets, sets)
  | tag :: tags =>
      match sets !! tag with
      | None => tun_take redirect callback tags ipSets sets
      | Some s =>
          let taken := IncRef s in
          let taken := if redirect then RegisterCallback callback taken else taken in
          tun_take redirect callback tags (ipSets ++ ExtractIPSet s) (<[tag := taken]> sets)
      end
  end.

(** Opening the interface and its stack, and starting them with the redirection:
    the errors, with the words of the inbound manager. *)
Context (tun_open tun_run : TunInbound -> option error).

(** [Inbound.Start]; [Close] gives back neither the references nor the callbacks. *)
Definition Tun_Start (stage : StartStage) (t : TunInbound) (sets : RuleSetTable)
    : option error * TunInbound * RuleSetTable :=
  match stage with
  | StartStateStart =>
      let '(t, sets) :=
        (if platform then (t, sets)
         else
           let '(route, sets) := tun_take (ti_autoRedirect t) (ti_callback t) (ti_routeRuleSet t) (ti_routeAddressSet t) sets in
           let '(exclude, sets) :=
             tun_take (ti_autoRedirect t) (ti_callback t) (ti_routeExcludeRuleSet t) (ti_routeExcludeAddressSet t) sets in
           (with_address_sets route exclude t, sets)) in
      (tun_open t, t, sets)
  | StartStatePostStart =>
      match tun_run t with
      | Some e => (Some e, t, sets)
      | None => (None, with_address_sets [] [] t, sets)
      end
  | _ => (None, t, sets)
  end.

(** The rules of the DNS router, the router, and the TUN inbounds.  What the other
    components and the other inbounds come to is [other]: none of them touches a
    rule-set, a rule or a TUN inbound. *)
Record Box : Type := {
  bx_dnsRules : list (Rule (option (DNSAction RR))); bx_router : Router; bx_tuns : list TunInbound }.

Definition Box_call (other : StartStage -> Component -> option error) (env : string -> SetEnv)
    (call : StartStage * Component) (b : Box) : res (option error * Box) :=
  match call.2 with
  | TheDNSRouter =>
      let '(err, rs, r) := dns_start call.1 (bx_dnsRules b) (bx_router b) in
      Ok (err, {| bx_dnsRules := rs; bx_router := r; bx_tuns := bx_tuns b |})
  | TheRouter =>
      let* '(err, r) := Router_Start env call.1 (bx_router b) in
      Ok (err, {| bx_dnsRules := bx_dnsRules b; bx_router := r; bx_tuns := bx_tuns b |})
  | TheInbound =>
      let r := bx_router b in
      let '(err, tuns, sets) := start_each (Tun_Start call.1) (bx_tuns b) (Router_table r) in
      Ok (match err with Some e => Some e | None => other call.1 TheInbound end,
          {| bx_dnsRules := bx_dnsRules b;
             bx_router := with_ruleSets (ro_ruleSets r) (put_table sets (ro_ruleSetMap r)) r; bx_tuns := tuns |})
  | c => Ok (other call.1 c, b)
  end.

(** [adapter.Start], [adapter.StartNamed]: up to the first error. *)
Fixpoint Box_run (other : StartStage -> Component -> option error) (env : string -> SetEnv)
    (cs : list (StartStage * Component)) (b : Box) : res (option error * Box) :=
  match cs with
  | [] => Ok (None, b)
  | c :: cs =>
      let* '(err, b) := Box_call other env c b in
      match err with Some e => Ok (Some e, b) | None => Box_run other env cs b end
  end.
End router.

(** ** What starting a rule does *)

(** One more reference for each time a rule-set is named. *)
Definition take_refs `{External} (tags : list string) (sets : RuleSetTable) : RuleSetTable :=
  foldl (fun sets tag => alter IncRef tag sets) sets tags.

Section starting.
Context `{External}.

Definition known (sets : RuleSetTable) (tag : string) : Prop := is_Some (sets !! tag).

Lemma take_refs_app l1 l2 sets : take_refs (l1 ++ l2) sets = take_refs l2 (take_refs l1 sets).
Proof. apply foldl_app. Qed.

Lemma take_refs_known l sets tag : known (take_refs l sets) tag <-> known sets tag.
Proof.
  revert sets; induction l as [|t l IH]; intros sets; simpl; [done|].
  rewrite IH. unfold known. by rewrite lookup_alter_is_Some.
Qed.

(** An object that names [tags] and becomes [bind x] once it has them all. *)
Definition starts {X} (start : X -> RuleSetTable -> option error * X * RuleSetTable) (tags : X -> list string)
    (bind : X -> X) (x : X) : Prop :=
  forall sets,
    (Forall (known sets) (tags x) -> start x sets = (None, bind x, take_refs (tags x) sets)) /\
    (~ Forall (known sets) (tags x) -> exists e x' sets', start x sets = (Some e, x', sets')).

Lemma known_after l1 l2 sets :
  Forall (known (take_refs l1 sets)) l2 <-> Forall (known sets) l2.
Proof. rewrite !Forall_forall. by setoid_rewrite take_refs_known. Qed.

#[export] Instance known_dec sets tag : Decision (known sets tag).
Proof. unfold known. apply _. Defined.

Lemma start_each_starts {X} start tags (bind : X -> X) (l : list X) :
  Forall (starts start tags bind) l -> starts (start_each start) (flat_map tags) (map bind) l.
Proof.
  induction 1 as [|x l Hx _ IH]; intros sets; simpl; [by split; intros []|].
  destruct (Hx sets) as [Hok Hko]. split.
  - intros [Hk Hl]%Forall_app. rewrite (Hok Hk). cbn [start_each].
    destruct (IH (take_refs (tags x) sets)) as [Hl' _].
    by rewrite Hl', take_refs_app by by apply known_after.
  - rewrite Forall_app. intros Hn. destruct (decide (Forall (known sets) (tags x))) as [Hk|Hk].
    + rewrite (Hok Hk). destruct (IH (take_refs (tags x) sets)) as [_ Hko'].
      destruct Hko' as (e & l' & sets' & ->); [|by do 3 eexists].
      intros Hl%known_after. by apply Hn.
    + destruct (Hko Hk) as (e & x' & sets' & ->). by do 3 eexists.
Qed.

(** *** Items *)

Definition item_tags (it : AnyItem) : list string :=
  match it with Plain _ => [] | ItRuleSet i => rsi_tagList i end.
Definition bind_item (it : AnyItem) : AnyItem :=
  match it with
  | Plain _ => it
  | ItRuleSet i => ItRuleSet {| rsi_tagList := rsi_tagList i; rsi_setList := rsi_tagList i;
                                rsi_ipCidrMatchSource := rsi_ipCidrMatchSource i;
                                rsi_ipCidrAcceptEmpty := rsi_ipCidrAcceptEmpty i |}
  end.
(** The item was not started. *)
Definition unbound (it : AnyItem) : Prop :=
  match it with Plain _ => True | ItRuleSet i => rsi_setList i = [] end.

Lemma start_loop_known l setList sets :
  Forall (known sets) l -> RuleSetItem_Start_loop l setList sets = (None, setList ++ l, take_refs l sets).
Proof.
  revert setList sets; induction l as [|t l IH]; intros setList sets Hk; simpl; [by rewrite app_nil_r|].
  apply Forall_cons in Hk as [[s Hs] Hk]. rewrite Hs, IH, <- app_assoc.
  - simpl. do 2 f_equal. apply map_eq. intros k. destruct (decide (k = t)) as [->|Hne].
    + by rewrite lookup_insert_eq, lookup_alter_eq, Hs.
    + by rewrite lookup_insert_ne, lookup_alter_ne.
  - eapply Forall_impl; [exact Hk|]. intros tag. unfold known. rewrite lookup_insert_is_Some'. auto.
Qed.

Lemma start_loop_unknown l setList sets :
  ~ Forall (known sets) l -> exists e l' sets', RuleSetItem_Start_loop l setList sets = (Some e, l', sets').
Proof.
  revert setList sets; induction l as [|t l IH]; intros setList sets Hn; simpl; [by destruct Hn|].
  destruct (sets !! t) as [s|] eqn:Hs; [|by do 3 eexists].
  apply IH. intros Hl. apply Hn. constructor; [by eexists|].
  eapply Forall_impl; [exact Hl|]. intros tag. unfold known. rewrite lookup_insert_is_Some'.
  intros [<-|?]; [by rewrite Hs|done].
Qed.

Lemma item_starts it : unbound it -> starts item_Start item_tags bind_item it.
Proof.
  destruct it as [i|i]; intros Hu sets; simpl; [by split; intros []|].
  unfold RuleSetItem_Start. simpl in Hu. rewrite Hu. split.
  - intros Hk. by rewrite (start_loop_known _ _ _ Hk).
  - intros (e & l & sets' & ->)%(start_loop_unknown _ []). by do 3 eexists.
Qed.
End starting.

(** *** Rules *)

Section starting_rules.
Context `{External} {A : Type}.

(** A property of every default rule of a tree. *)
Fixpoint each_default (Q : abstractDefaultRule AnyItem A -> Prop) (r : Rule A) : Prop :=
  match r with
  | DefaultRule r => Q r
  | LogicalRule (Build_abstractLogicalRule _ _ rs _ _ _) => foldr (fun r P => each_default Q r /\ P) True rs
  end.

Lemma each_default_logical Q rs md inv act :
  each_default Q (LogicalRule (Build_abstractLogicalRule _ _ rs md inv act)) <-> Forall (each_default Q) rs.
Proof.
  simpl. induction rs as [|x rs IH]; simpl; [split; auto|]. by rewrite IH, Forall_cons.
Qed.

(** As the constructors leave a rule: not started, and the rule-set item of a
    group is the one of [allItems]. *)
Definition startable (r : abstractDefaultRule AnyItem A) : Prop :=
  Forall unbound (allItems r) /\
  forall g it, it ∈ items_of g r -> is_rule_set it = true -> List.find is_rule_set (allItems r) = Some it.

Fixpoint rule_tags (r : Rule A) : list string :=
  match r with
  | DefaultRule r => flat_map item_tags (allItems r)
  | LogicalRule (Build_abstractLogicalRule _ _ rs _ _ _) => flat_map rule_tags rs
  end.

Fixpoint bind_rule (r : Rule A) : Rule A :=
  match r with
  | DefaultRule r => DefaultRule (map_rule bind_item r)
  | LogicalRule (Build_abstractLogicalRule _ _ rs md inv act) =>
      LogicalRule {| rules := map bind_rule rs; mode := md; linvert := inv; laction := act |}
  end.

Lemma find_bound l : List.find is_rule_set (map bind_item l) = bind_item <$> List.find is_rule_set l.
Proof. induction l as [|[]]; simpl; done. Qed.

Lemma share_bound (r : abstractDefaultRule AnyItem A) g :
  startable r -> map (share (map bind_item (allItems r))) (items_of g r) = bind_item <$> items_of g r.
Proof.
  intros [_ Hone]. apply map_ext_in. intros it Hit%list_elem_of_In. unfold share.
  destruct it as [i|i]; [done|]. simpl. by rewrite find_bound, (Hone g _ Hit).
Qed.

Lemma rule_starts (r : Rule A) : each_default startable r -> starts Rule_Start rule_tags bind_rule r.
Proof.
  induction r as [r|[rs md inv act] IH] using Rule_tree_ind; intros Hr sets.
  - cbn [Rule_Start rule_tags bind_rule]. unfold abstractDefaultRule_Start. cbn [each_default] in Hr.
    destruct (start_each_starts item_Start item_tags bind_item (allItems r)) with (sets := sets) as [Hok Hko].
    { eapply Forall_impl; [apply Hr|]. intros it. apply item_starts. }
    split.
    + intros Hk. rewrite (Hok Hk). do 3 f_equal. pose proof (fun g => share_bound r g Hr) as Hg.
      unfold map_rule. f_equal; [apply (Hg GItems)|apply (Hg GSourceAddress)|apply (Hg GSourcePort)
        |apply (Hg GDestinationAddress)|apply (Hg GDestinationIPCIDR)|apply (Hg GDestinationPort)].
    + intros (e & l & sets' & ->)%Hko. by do 3 eexists.
  - rewrite each_default_logical in Hr. cbn [rules] in IH. cbn [Rule_Start rule_tags bind_rule].
    destruct (start_each_starts Rule_Start rule_tags bind_rule rs) with (sets := sets) as [Hok Hko].
    { rewrite Forall_forall in *. auto. }
    split.
    + intros Hk. by rewrite (Hok Hk).
    + intros (e & l & sets' & ->)%Hko. by do 3 eexists.
Qed.

Lemma start_rules_starts what i (rs : list (Rule A)) :
  Forall (each_default startable) rs -> starts (start_rules what i) (flat_map rule_tags) (map bind_rule) rs.
Proof.
  intros Hrs. revert i. induction Hrs as [|r rs Hr _ IH]; intros i sets; simpl; [by split; intros []|].
  destruct (rule_starts r Hr sets) as [Hok Hko]. split.
  - intros [Hk Hl]%Forall_app. rewrite (Hok Hk).
    destruct (IH (i + 1) (take_refs (rule_tags r) sets)) as [Hl' _].
    by rewrite Hl', take_refs_app by by apply known_after.
  - rewrite Forall_app. intros Hn. destruct (decide (Forall (known sets) (rule_tags r))) as [Hk|Hk].
    + rewrite (Hok Hk). destruct (IH (i + 1) (take_refs (rule_tags r) sets)) as [_ Hko'].
      destruct Hko' as (e & l' & sets' & ->); [|by do 3 eexists].
      intros Hl%known_after. by apply Hn.
    + destruct (Hko Hk) as (e & x' & sets' & ->). by do 3 eexists.
Qed.

(** What a start without error did. *)
Lemma start_rules_ok what (rs rs' : list (Rule A)) sets sets' :
  Forall (each_default startable) rs -> start_rules what 0 rs sets = (None, rs', sets') ->
  Forall (known sets) (flat_map rule_tags rs) /\ rs' = map bind_rule rs /\
  sets' = take_refs (flat_map rule_tags rs) sets.
Proof.
  intros Hrs Hs. destruct (start_rules_starts what 0 rs Hrs sets) as [Hok Hko].
  destruct (decide (Forall (known sets) (flat_map rule_tags rs))) as [Hk|Hk].
  - rewrite (Hok Hk) in Hs. by simplify_eq.
  - destruct (Hko Hk) as (e & l & s & He). rewrite He in Hs. discriminate.
Qed.
End starting_rules.

(** *** Rules as built *)

Fixpoint route_tags (o : RuleOptions) : list string :=
  match o with
  | MkRuleOptions type d _ _ rs _ _ => if is_default_type type then rd_RuleSet d else flat_map route_tags rs
  end.
Fixpoint dns_tags {RR} (o : DNSRuleOptions RR) : list string :=
  match o with
  | MkDNSRuleOptions type d _ _ rs _ _ => if is_default_type type then dd_RuleSet d else flat_map dns_tags rs
  end.

Section built_rules.
Context `{External} {A : Type}.

Lemma run_steps_plain_then (l : list (step RuleItem)) (l' : list (step AnyItem))
    (r0 : abstractDefaultRule RuleItem A) (r : abstractDefaultRule AnyItem A) :
  run_steps (map plain l ++ l') (map_rule Plain r0) = Ok r ->
  exists r1, run_steps l r0 = Ok r1 /\ run_steps l' (map_rule Plain r1) = Ok r.
Proof.
  revert r0; induction l as [|s l IH]; intros r0; simpl; [by exists r0|].
  destruct (st_cond s); [|apply IH]. destruct (st_item s) as [it| |]; [|done..]. cbn [res_bind].
  intros Hr. apply IH. rewrite <- Hr. f_equal. unfold map_rule, add_item. simpl.
  f_equal; try (case_decide; [by rewrite fmap_app|done]). by rewrite fmap_app.
Qed.

Lemma plain_items (l : list RuleItem) :
  flat_map item_tags (Plain <$> l) = [] /\ List.find is_rule_set (Plain <$> l) = None.
Proof. by induction l. Qed.

Lemma no_rule_set (l : list RuleItem) it : it ∈ Plain <$> l -> is_rule_set it = true -> False.
Proof. by intros (i & -> & _)%list_elem_of_fmap. Qed.

(** A rule of plain items with a rule-set item at the end. *)
Lemma rule_set_step_shape (tags : list string) src empty (r0 : abstractDefaultRule RuleItem A) r :
  run_steps [Build_step (nonempty tags) GItems (Ok (ItRuleSet (NewRuleSetItem tags src empty)))]
    (map_rule Plain r0) = Ok r ->
  rule_tags (DefaultRule r) = tags /\ startable r.
Proof.
  destruct tags as [|t tags]; cbn [run_steps nonempty st_cond st_item st_group res_bind]; intros [= <-].
  - split; [apply plain_items|]. split.
    + simpl. apply Forall_fmap, Forall_true. done.
    + intros g it Hit Hs. exfalso. destruct g; apply (no_rule_set _ _ Hit Hs).
  - cbn [rule_tags allItems add_item map_rule]. rewrite flat_map_app, (proj1 (plain_items _)).
    split; [simpl; by rewrite app_nil_r|]. split.
    + cbn [allItems add_item map_rule]. apply Forall_app. split; [|by constructor].
      apply Forall_fmap, Forall_true. done.
    + assert (Hfind : List.find is_rule_set (allItems (add_item GItems
          (ItRuleSet (NewRuleSetItem (t :: tags) src empty)) (map_rule Plain r0))) =
          Some (ItRuleSet (NewRuleSetItem (t :: tags) src empty))).
      { cbn [allItems add_item map_rule]. by induction (allItems r0). }
      intros g it. rewrite items_of_add, Hfind. case_decide as Hg; [rewrite <- Hg|].
      * rewrite elem_of_app, list_elem_of_singleton. intros [Hit| ->] Hs; [|done].
        exfalso. apply (no_rule_set _ _ Hit Hs).
      * intros Hit Hs. exfalso. destruct g; apply (no_rule_set _ _ Hit Hs).
Qed.

Lemma default_rule_shape (l : list (step RuleItem)) inv (act : A) tags src empty r :
  run_steps (map plain l ++ [Build_step (nonempty tags) GItems
      (Ok (ItRuleSet (NewRuleSetItem tags src empty)))]) (empty_rule inv act) = Ok r ->
  rule_tags (DefaultRule r) = tags /\ startable r.
Proof.
  intros (r1 & _ & Hr)%(run_steps_plain_then _ _ (empty_rule inv act)). by eapply rule_set_step_shape.
Qed.

Lemma logical_shape {O} (tags : O -> list string) (os : list O) (rs : list (Rule A)) md inv act :
  Forall2 (fun o r => rule_tags r = tags o /\ each_default startable r) os rs ->
  let r := LogicalRule {| rules := rs; mode := md; linvert := inv; laction := act |} in
  rule_tags r = flat_map tags os /\ each_default startable r.
Proof.
  intros Hrs r. split.
  - subst r. cbn [rule_tags]. induction Hrs as [|o r os rs [Ht _] _ IH]; simpl; [done|]. by rewrite Ht, IH.
  - apply each_default_logical. induction Hrs as [|o r' os rs [_ Ht] _ IH]; by constructor.
Qed.
End built_rules.

Section built_from_options.
Context `{External}.

Lemma NewRule_shape dialer_New (o : RuleOptions) check r :
  NewRule dialer_New o check = Ok r -> rule_tags r = route_tags o /\ each_default startable r.
Proof.
  revert r check. induction o as [type d da md rs inv la IH] using RuleOptions_tree_ind; intros r check Hr.
  cbn [NewRule route_tags] in *. rewrite Forall_forall in IH.
  rewrite is_default_type_spec in Hr. destruct (is_default_type type).
  - repeat (case_match; [discriminate|]). unfold NewDefaultRule in Hr. inv_res.
    by eapply default_rule_shape.
  - case_match; [|discriminate]. inv_res. repeat (case_match; [discriminate|]). inv_res.
    apply logical_shape. eapply (sub_rules_Forall2 (fun o => NewRule dialer_New o false)); [|done].
    intros o r' Ho. by apply IH.
Qed.

Lemma NewDNSRule_shape {RR} (o : DNSRuleOptions RR) check r :
  NewDNSRule o check = Ok r -> rule_tags r = dns_tags o /\ each_default startable r.
Proof.
  revert r check. induction o as [type d da md rs inv la IH] using DNSRuleOptions_tree_ind; intros r check Hr.
  cbn [NewDNSRule dns_tags] in *. rewrite Forall_forall in IH.
  rewrite is_default_type_spec in Hr. destruct (is_default_type type).
  - repeat (case_match; [discriminate|]). unfold NewDefaultDNSRule in Hr. inv_res.
    by eapply default_rule_shape.
  - case_match; [|discriminate]. inv_res. repeat (case_match; [discriminate|]). inv_res.
    apply logical_shape. eapply (sub_rules_Forall2 (fun o => NewDNSRule o false)); [|done].
    intros o r' Ho. by apply IH.
Qed.

(** A list of rules as the [Initialize] methods build it. *)
Lemma built_rules_shape {O A} (cause : nat -> string) (new : O -> res (Rule A)) (tags : O -> list string) os rs :
  (forall o r, new o = Ok r -> rule_tags r = tags o /\ each_default startable r) ->
  res_mapi (fun i o => res_cause (cause i) (new o)) 0 os = Ok rs ->
  flat_map rule_tags rs = flat_map tags os /\ Forall (each_default startable) rs.
Proof.
  intros Hnew Hm%res_mapi_Forall2.
  induction Hm as [|o r os rs (k & Ho) _ [IH1 IH2]]; simpl; [done|].
  apply res_cause_ok, Hnew in Ho as [-> Ho]. rewrite IH1. split; [done|by constructor].
Qed.
End built_from_options.

(** ** Rule-sets keep their references while they load *)

Section loading.
Context `{External} (networkManager : bool).
Context (UnmarshalExtended srs_Read : string -> res PlainRuleSetCompat).

Definition set_refs (n : Z) (s : RuleSet) : RuleSet :=
  {| rs_rules := rs_rules s; rs_metadata := rs_metadata s; rs_refs := n; rs_callbacks := rs_callbacks s |}.
Definition remote_refs (n : Z) (r : RemoteRuleSet) : RemoteRuleSet := with_set (set_refs n (rrs_set r)) r.
Definition any_refs (n : Z) (x : AnyRuleSet) : AnyRuleSet := put_set (set_refs n (any_set x)) x.

Notation loadBytes := (loadBytes networkManager UnmarshalExtended srs_Read).
Notation fetch := (fetch networkManager UnmarshalExtended srs_Read).
Notation StartContext := (StartContext networkManager UnmarshalExtended srs_Read).

Lemma loadBytes_refs n format content s :
  loadBytes format content (set_refs n s) =
  let* '(s, called) := loadBytes format content s in Ok (set_refs n s, called).
Proof.
  unfold RuleSet.loadBytes, reloadRules.
  destruct (if decide (format = RuleSetFormatSource) then _ else _) as [p| |]; [|done..]. cbn [res_bind].
  destruct (Upgrade p) as [l| |]; [|done..]. cbn [res_bind].
  by destruct (res_mapi _ 0 l).
Qed.

Lemma fetch_refs n server now saved r :
  fetch server now saved (remote_refs n r) =
  let* '(err, r, called) := fetch server now saved r in Ok (err, remote_refs n r, called).
Proof.
  unfold RuleSet.fetch. cbn [rrs_lastEtag remote_refs with_set rrs_cacheFile rrs_options rrs_set].
  destruct (server _) as [e|status text etag body]; [done|].
  destruct (status =? StatusOK); [|by destruct (status =? StatusNotModified)].
  destruct body as [e|content]; [done|]. rewrite loadBytes_refs.
  by destruct (loadBytes _ _ _) as [[s cb]| |].
Qed.

Lemma StartContext_refs n detour cache server now saved r :
  StartContext detour cache server now saved (remote_refs n r) =
  let* '(err, r, called) := StartContext detour cache server now saved r in Ok (err, remote_refs n r, called).
Proof.
  unfold RuleSet.StartContext. cbn [rrs_options remote_refs with_set with_saved].
  destruct (_ && _); [done|].
  assert (Hlast : forall r called,
    (if IsZero (rrs_lastUpdated (remote_refs n r)) then
       let* '(err, r, called') := fetch server now saved (remote_refs n r) in
       Ok (match err with
           | Some e => Some (ErrCause e ("initial rule-set: " +:+ rso_Tag (rrs_options r)))
           | None => None
           end, r, called ++ called')
     else Ok (None, remote_refs n r, called)) =
    let* '(err, r, called) :=
      (if IsZero (rrs_lastUpdated r) then
         let* '(err, r, called') := fetch server now saved r in
         Ok (match err with
             | Some e => Some (ErrCause e ("initial rule-set: " +:+ rso_Tag (rrs_options r)))
             | None => None
             end, r, called ++ called')
       else Ok (None, r, called)) in Ok (err, remote_refs n r, called)).
  { intros r0 called. cbn [rrs_lastUpdated remote_refs with_set]. destruct (IsZero (rrs_lastUpdated r0)); [|done].
    rewrite fetch_refs. by destruct (fetch _ _ _ _) as [[[err r1] called']| |]. }
  destruct cache as [[b|]|]; cbn [res_bind];
    [|exact (Hlast (with_saved (rrs_lastUpdated r) (rrs_lastEtag r) (Some None) r) [])
     |exact (Hlast (with_saved (rrs_lastUpdated r) (rrs_lastEtag r) None r) [])].
  cbn [rrs_set remote_refs with_set with_saved]. rewrite loadBytes_refs.
  destruct (loadBytes _ _ _) as [[s called]| |]; cbn [res_bind]; [|done..].
  exact (Hlast (with_saved (sb_LastUpdated b) (sb_LastEtag b) (Some (Some b))
                  (with_set s (with_saved (rrs_lastUpdated r) (rrs_lastEtag r) (Some (Some b)) r))) called).
Qed.

Lemma start_rule_set_refs n env x :
  start_rule_set networkManager UnmarshalExtended srs_Read env (any_refs n x) =
  let* '(err, x) := start_rule_set networkManager UnmarshalExtended srs_Read env x in Ok (err, any_refs n x).
Proof.
  destruct x as [s|r]; [done|]. cbn [start_rule_set any_refs put_set any_set].
  change (with_set (set_refs n (rrs_set r)) r) with (remote_refs n r). rewrite StartContext_refs.
  by destruct (StartContext _ _ _ _ _ r) as [[[err r1] called]| |].
Qed.

(** The sets after a group of tasks that all succeeded. *)
Lemma start_rule_sets_ok env i tags m errs m' :
  NoDup tags -> start_rule_sets networkManager UnmarshalExtended srs_Read env i tags m = Ok (errs, m') ->
  Forall (eq None) errs ->
  (forall tag x, tag ∈ tags -> m !! tag = Some x -> exists y,
     start_rule_set networkManager UnmarshalExtended srs_Read (env tag) x = Ok (None, y) /\ m' !! tag = Some y) /\
  (forall tag, tag ∉ tags -> m' !! tag = m !! tag).
Proof.
  intros Hnd. revert i m errs m'. induction Hnd as [|t tags Ht _ IH]; intros i m errs m' Hs He; cbn [start_rule_sets] in Hs.
  { simplify_eq. split; [set_solver|done]. }
  destruct (m !! t) as [x|] eqn:Hx.
  - apply res_bind_ok in Hs as ([err y] & Hy & Hs). apply res_bind_ok in Hs as ([errs' m1] & Hs & [= <- <-]).
    apply Forall_cons in He as [He He']. destruct err; [discriminate|].
    destruct (IH _ _ _ _ Hs He') as [IH1 IH2]. split.
    + intros tag x' [->|Htag]%elem_of_cons Hx'.
      * exists y. rewrite Hx in Hx'. simplify_eq. split; [done|]. by rewrite IH2, lookup_insert_eq.
      * apply IH1; [done|]. by rewrite lookup_insert_ne by set_solver.
    + intros tag Htag. rewrite IH2, lookup_insert_ne by set_solver. done.
  - destruct (IH _ _ _ _ Hs He) as [IH1 IH2]. split.
    + intros tag x' [->|Htag]%elem_of_cons Hx'; [congruence|by apply IH1].
    + intros tag Htag. apply IH2. set_solver.
Qed.
End loading.

(** ** References taken *)

Section taken.
Context `{External}.

Lemma occurrences_le tag l : 0 <= occurrences tag l <= Z.of_nat (length l).
Proof. unfold occurrences. pose proof (List.filter_length_le (fun t => bool_decide (t = tag)) l). lia. Qed.

Lemma occurrences_app tag l1 l2 : occurrences tag (l1 ++ l2) = occurrences tag l1 + occurrences tag l2.
Proof. unfold occurrences. rewrite List.filter_app, length_app. lia. Qed.

Lemma occurrences_zero tag l : occurrences tag l = 0 <-> tag ∉ l.
Proof.
  induction l as [|t l IH]; [split; [set_solver|done]|]. rewrite occurrences_cons, not_elem_of_cons, <- IH.
  pose proof (occurrences_le tag l). case_decide; split; intros; (split || idtac); lia || naive_solver lia.
Qed.

Lemma take_refs_lookup l sets tag s :
  sets !! tag = Some s -> 0 <= rs_refs s -> rs_refs s + occurrences tag l < 2 ^ 31 ->
  take_refs l sets !! tag = Some (set_refs (rs_refs s + occurrences tag l) s).
Proof.
  revert sets s; induction l as [|t l IH]; intros sets s Hs H0 Hb; simpl.
  - rewrite Hs. destruct s. unfold set_refs. simpl. do 2 f_equal. unfold occurrences. simpl. lia.
  - rewrite occurrences_cons in *. pose proof (occurrences_le tag l). destruct (decide (t = tag)) as [->|Hne].
    + assert (Hi : rs_refs (IncRef s) = rs_refs s + 1) by (simpl; apply to_int32_id; lia).
      rewrite (IH _ (IncRef s)); rewrite ?Hi; [|by rewrite lookup_alter_eq, Hs|lia..].
      unfold set_refs. simpl. do 2 f_equal. lia.
    + rewrite (IH _ s); [done|by rewrite lookup_alter_ne|lia..].
Qed.

(** The table of the router after some rules took their references. *)
Lemma put_table_refs l (m : gmap string AnyRuleSet) tag x :
  m !! tag = Some x -> 0 <= rs_refs (any_set x) -> rs_refs (any_set x) + occurrences tag l < 2 ^ 31 ->
  put_table (take_refs l (any_set <$> m)) m !! tag =
    Some (any_refs (rs_refs (any_set x) + occurrences tag l) x).
Proof.
  intros Hx H0 Hb. unfold put_table. rewrite map_lookup_imap, Hx. simpl.
  rewrite (take_refs_lookup _ _ _ (any_set x)); [done| |done..]. by rewrite lookup_fmap, Hx.
Qed.

(** The rule-sets after [tags] were referred to, whatever else was registered. *)
Definition referred (tags : list string) (sets sets' : RuleSetTable) : Prop :=
  forall tag, match sets !! tag with
              | None => sets' !! tag = None
              | Some s => exists s', sets' !! tag = Some s' /\ rs_rules s' = rs_rules s /\ rs_metadata s' = rs_metadata s /\
                  (0 <= rs_refs s -> rs_refs s + occurrences tag tags < 2 ^ 31 -> rs_refs s' = rs_refs s + occurrences tag tags)
              end.

Lemma referred_nil sets : referred [] sets sets.
Proof.
  intros tag. destruct (sets !! tag) as [s|]; [|done]. exists s. split_and!; [done..|].
  intros _ _. unfold occurrences. simpl. lia.
Qed.

Lemma referred_trans l1 l2 sets1 sets2 sets3 :
  referred l1 sets1 sets2 -> referred l2 sets2 sets3 -> referred (l1 ++ l2) sets1 sets3.
Proof.
  intros H1 H2 tag. specialize (H1 tag). specialize (H2 tag). destruct (sets1 !! tag) as [s|]; [|by rewrite H1 in H2].
  destruct H1 as (s' & Hs' & Hr1 & Hm1 & Hn1). rewrite Hs' in H2. destruct H2 as (s2 & Hs2 & Hr2 & Hm2 & Hn2).
  exists s2. split_and!; [done|congruence|congruence|]. rewrite occurrences_app. intros H0 Hb.
  pose proof (occurrences_le tag l1). pose proof (occurrences_le tag l2). rewrite Hn2, Hn1; lia.
Qed.

(** One set of a table gets a reference, and a callback perhaps. *)
Lemma referred_one tag s (sets : RuleSetTable) redirect callback :
  sets !! tag = Some s ->
  referred [tag] sets (<[tag := if redirect : bool then RegisterCallback callback (IncRef s) else IncRef s]> sets).
Proof.
  intros Hs t. destruct (decide (t = tag)) as [->|Hne].
  - rewrite Hs, lookup_insert_eq. eexists. split; [done|]. rewrite occurrences_cons, decide_True by done.
    unfold occurrences. simpl. destruct redirect; simpl; (split_and!; [done..|]); intros; rewrite to_int32_id; lia.
  - rewrite lookup_insert_ne by done. destruct (sets !! t) as [s'|]; [|done]. exists s'. split_and!; [done..|].
    intros _ _. rewrite occurrences_cons, decide_False by done. unfold occurrences. simpl. lia.
Qed.

Lemma tun_take_referred redirect callback tags ipSets sets :
  Forall (known sets) tags -> referred tags sets (tun_take redirect callback tags ipSets sets).2.
Proof.
  revert ipSets sets. induction tags as [|tag tags IH]; intros ipSets sets Hk; [apply referred_nil|]. simpl.
  apply Forall_cons in Hk as [[s Hs] Hk]. rewrite Hs.
  eapply (referred_trans [tag]); [by apply (referred_one tag s _ redirect callback)|]. apply IH.
  eapply Forall_impl; [exact Hk|]. intros t. unfold known. rewrite lookup_insert_is_Some'. auto.
Qed.

Lemma referred_known tags sets sets' tag : referred tags sets sets' -> known sets' tag <-> known sets tag.
Proof.
  intros Hr. specialize (Hr tag). unfold known. destruct (sets !! tag); [|by rewrite Hr].
  destruct Hr as (s' & -> & _). split; by eexists.
Qed.

Lemma put_table_known sets (m : gmap string AnyRuleSet) tag :
  is_Some (put_table sets m !! tag) <-> is_Some (m !! tag).
Proof.
  unfold put_table. rewrite map_lookup_imap. destruct (m !! tag); simpl; [|done].
  split; intros _; by eexists.
Qed.
End taken.

(** What a TUN inbound refers to. *)
Definition tun_tags `{External} (platform : bool) (t : TunInbound) : list string :=
  if platform then [] else ti_routeRuleSet t ++ ti_routeExcludeRuleSet t.

Section tuns.
Context `{External} (platform : bool) (tun_open tun_run : TunInbound -> option error).

Notation Tun_Start := (Tun_Start platform tun_open tun_run).

Lemma Tun_Start_referred t sets :
  Forall (known sets) (ti_routeRuleSet t ++ ti_routeExcludeRuleSet t) ->
  referred (tun_tags platform t) sets (Tun_Start StartStateStart t sets).2.
Proof.
  intros [Hr Hx]%Forall_app. unfold RouterStart.Tun_Start, tun_tags. destruct platform; [apply referred_nil|].
  pose proof (tun_take_referred (ti_autoRedirect t) (ti_callback t) _ (ti_routeAddressSet t) sets Hr) as H1.
  destruct (tun_take _ _ (ti_routeRuleSet t) _ _) as [route sets1]. simpl in H1.
  assert (Forall (known sets1) (ti_routeExcludeRuleSet t)) as Hx1.
  { eapply Forall_impl; [exact Hx|]. intros tag. by apply (referred_known _ _ _ _ H1). }
  pose proof (tun_take_referred (ti_autoRedirect t) (ti_callback t) _ (ti_routeExcludeAddressSet t) sets1 Hx1) as H2.
  destruct (tun_take _ _ (ti_routeExcludeRuleSet t) _ _) as [exclude sets2]. by eapply referred_trans.
Qed.

(** All TUN inbounds, when they start. *)
Lemma tuns_start_referred tuns sets tuns' sets' :
  Forall (fun t => Forall (known sets) (ti_routeRuleSet t ++ ti_routeExcludeRuleSet t)) tuns ->
  start_each (Tun_Start StartStateStart) tuns sets = (None, tuns', sets') ->
  referred (flat_map (tun_tags platform) tuns) sets sets'.
Proof.
  revert sets tuns'. induction tuns as [|t tuns IH]; intros sets tuns' Hk; cbn [start_each flat_map];
    [intros [= _ <-]; apply referred_nil|].
  apply Forall_cons in Hk as [Ht Hk]. pose proof (Tun_Start_referred t sets Ht) as H1.
  destruct (Tun_Start _ _ _) as [[err t1] sets1]. simpl in H1. destruct err; [intros [=]|].
  destruct (start_each _ tuns sets1) as [[err l] sets2] eqn:Hs. intros [= -> _ <-].
  eapply referred_trans; [exact H1|]. eapply IH; [|exact Hs]. eapply Forall_impl; [exact Hk|].
  intros u Hu. eapply Forall_impl; [exact Hu|]. intros tag. by apply (referred_known _ _ _ _ H1).
Qed.

(** The other stages leave the rule-sets alone. *)
Lemma tuns_other_stage stage tuns sets :
  stage <> StartStateStart -> (start_each (Tun_Start stage) tuns sets).2 = sets.
Proof.
  intros Hst. revert sets. induction tuns as [|t tuns IH]; intros sets; cbn [start_each]; [done|].
  assert ((Tun_Start stage t sets).2 = sets) as Ht.
  { unfold RouterStart.Tun_Start. destruct stage; [done|done| |done]. by destruct (tun_run t). }
  destruct (Tun_Start stage t sets) as [[[e|] t1] sets1]; simpl in *; [done|]. subst sets1. specialize (IH sets).
  by destruct (start_each _ tuns sets) as [[err l] sets2].
Qed.

(** A TUN inbound opens with the address sets of the rule-sets it names. *)
Lemma tun_takes_address_sets t sets :
  platform = false -> Forall (known sets) (ti_routeRuleSet t ++ ti_routeExcludeRuleSet t) ->
  let sets_of l := flat_map (fun tag => match sets !! tag with Some s => ExtractIPSet s | None => [] end) l in
  (Tun_Start StartStateStart t sets).1.1 =
    tun_open (with_address_sets (ti_routeAddressSet t ++ sets_of (ti_routeRuleSet t))
                (ti_routeExcludeAddressSet t ++ sets_of (ti_routeExcludeRuleSet t)) t).
Proof.
  intros -> [Hr Hx]%Forall_app sets_of. unfold RouterStart.Tun_Start.
  assert (forall l redirect callback ipSets sets1, Forall (known sets) l ->
            (forall tag, ExtractIPSet <$> sets1 !! tag = ExtractIPSet <$> sets !! tag) ->
            (tun_take redirect callback l ipSets sets1).1 = ipSets ++ sets_of l /\
            (forall tag, ExtractIPSet <$> (tun_take redirect callback l ipSets sets1).2 !! tag = ExtractIPSet <$> sets !! tag)) as Htake.
  { induction l as [|tag l IH]; intros redirect callback ipSets sets1 Hk Hsame; simpl; [by rewrite app_nil_r|].
    apply Forall_cons in Hk as [[s Hs] Hk]. pose proof (Hsame tag) as Ht. rewrite Hs in Ht |- *.
    destruct (sets1 !! tag) as [s1|] eqn:Hs1; [|done]. apply (inj Some) in Ht.
    edestruct (IH redirect callback) as [IH1 IH2]; [exact Hk| |split; [rewrite IH1, <- app_assoc, Ht; reflexivity|exact IH2]].
    intros t'. destruct (decide (t' = tag)) as [->|]; [|by rewrite lookup_insert_ne].
    rewrite lookup_insert_eq, Hs. cbn [fmap option_fmap option_map]. rewrite <- Ht. by destruct redirect. }
  destruct (Htake (ti_routeRuleSet t) (ti_autoRedirect t) (ti_callback t) (ti_routeAddressSet t) sets Hr) as [H1 Hs1]; [done|].
  destruct (tun_take _ _ (ti_routeRuleSet t) _ _) as [route sets1]. simpl in H1, Hs1. subst route.
  destruct (Htake (ti_routeExcludeRuleSet t) (ti_autoRedirect t) (ti_callback t) (ti_routeExcludeAddressSet t) sets1 Hx Hs1) as [H2 _].
  destruct (tun_take _ _ (ti_routeExcludeRuleSet t) _ _) as [exclude sets2]. simpl in H2. by subst exclude.
Qed.
End tuns.

Lemma put_table_same `{External} (m : gmap string AnyRuleSet) : put_table (any_set <$> m) m = m.
Proof.
  apply map_eq. intros tag. unfold put_table. rewrite map_lookup_imap, lookup_fmap.
  destruct (m !! tag) as [[s|r]|]; simpl; [done| |done]. by destruct r.
Qed.

(** ** A started box *)

Section started.
Context `{External} {RR : Type}.
Context (dialer_New : DirectActionOptions -> res unit) (networkManager : bool).
Context (UnmarshalExtended srs_Read : string -> res PlainRuleSetCompat).
Context (group_Run : list (option error) -> option error).
Context (group_Run_ok : forall errs, group_Run errs = None -> Forall (eq None) errs).
Context (platform : bool) (searcher : option error).

Notation NewRuleSet := (NewRuleSet networkManager UnmarshalExtended srs_Read).
Notation add_rule_sets := (add_rule_sets networkManager UnmarshalExtended srs_Read).
Notation start_rule_set := (start_rule_set networkManager UnmarshalExtended srs_Read).
Notation start_rule_sets := (start_rule_sets networkManager UnmarshalExtended srs_Read).
Notation Router_Start := (Router_Start networkManager UnmarshalExtended srs_Read group_Run platform searcher).
Context (tun_open tun_run : TunInbound -> option error).
Notation Tun_Start := (Tun_Start platform tun_open tun_run).
Notation Box_run := (Box_run (RR := RR) networkManager UnmarshalExtended srs_Read group_Run platform searcher tun_open tun_run).

Notation Box_call := (Box_call (RR := RR) networkManager UnmarshalExtended srs_Read group_Run platform searcher tun_open tun_run).

Lemma loaded_known env tags m errs m2 tag :
  NoDup tags -> start_rule_sets env 0 tags m = Ok (errs, m2) -> Forall (eq None) errs ->
  is_Some (m !! tag) -> is_Some (m2 !! tag).
Proof.
  intros Hnd Hs He [x Hx]. destruct (start_rule_sets_ok _ _ _ _ _ _ _ _ _ Hnd Hs He) as [Hin Hout].
  destruct (decide (tag ∈ tags)) as [Htag|Htag]; [|by rewrite Hout, Hx].
  destruct (Hin tag x Htag Hx) as (y & _ & ->). by eexists.
Qed.

Lemma reloadRules_refs s l s' called :
  reloadRules networkManager s l = Ok (s', called) -> rs_refs s' = rs_refs s.
Proof. unfold reloadRules. by intros (rs & _ & [= <- <-])%res_bind_ok. Qed.

Lemma NewRuleSet_refs o file watcher x : NewRuleSet o file watcher = Ok x -> rs_refs (any_set x) = 0.
Proof.
  unfold RuleSet.NewRuleSet, NewLocalRuleSet, reloadFile. intros Hx.
  case_decide; [|case_decide; [by simplify_eq|done]]. case_decide.
  - case_match; [done|]. inv_res. case_match; simplify_eq. simpl. etrans; [by eapply reloadRules_refs|done].
  - inv_res. destruct x1 as [s1 called]. inv_res. simpl. etrans; [by eapply reloadRules_refs|done].
Qed.

(** The tags name the rule-sets of the map, once each, and no rule-set has
    references. *)
Definition sets_wf (r : Router) : Prop :=
  NoDup (ro_ruleSets r) /\ (forall tag, tag ∈ ro_ruleSets r <-> is_Some (ro_ruleSetMap r !! tag)) /\
  forall tag x, ro_ruleSetMap r !! tag = Some x -> rs_refs (any_set x) = 0.

Lemma add_rule_sets_ok file watcher i l r r' :
  sets_wf r -> add_rule_sets file watcher i l r = Ok r' ->
  sets_wf r' /\ ro_rules r' = ro_rules r /\ ro_ruleSets r' = ro_ruleSets r ++ map rso_Tag l /\
  ro_needFindProcess r' = ro_needFindProcess r /\ ro_processSearcher r' = ro_processSearcher r.
Proof.
  revert i r; induction l as [|o l IH]; intros i r Hr Ha; cbn [RouterStart.add_rule_sets] in Ha.
  { simplify_eq. by rewrite app_nil_r. }
  destruct (ro_ruleSetMap r !! rso_Tag o) as [x|] eqn:Ho; [discriminate|].
  apply res_bind_ok in Ha as (x & Hx%res_cause_ok%NewRuleSet_refs & Ha).
  destruct Hr as (Hnd & Hdom & Hrefs).
  apply IH in Ha as (Hwf & Hrules & Htags & Hneed & Hps).
  { split_and!; [done|done| |done|done]. rewrite Htags. simpl. by rewrite <- app_assoc. }
  unfold sets_wf; cbn [ro_ruleSets ro_ruleSetMap with_ruleSets]. split_and!.
  - apply NoDup_app. split_and!; [done| |apply NoDup_singleton].
    intros tag Htag ->%list_elem_of_singleton. rewrite Hdom, Ho in Htag. by destruct Htag.
  - intros tag. rewrite elem_of_app, list_elem_of_singleton, Hdom, lookup_insert_is_Some'.
    naive_solver.
  - intros tag y [[_ <-]|[_ Hy]]%lookup_insert_Some; [done|by eapply Hrefs].
Qed.

Lemma new_router_wf rs rules FindProcess (dnsRules : list (DNSRuleOptions RR)) :
  sets_wf (with_rules rs (NewRouter rules FindProcess dnsRules)).
Proof.
  split_and!; [constructor| |].
  - intros tag. cbn [ro_ruleSets with_rules ro_ruleSetMap NewRouter]. rewrite lookup_empty, elem_of_nil.
    split; [done|by intros []].
  - intros tag x. cbn [ro_ruleSetMap with_rules NewRouter]. by rewrite lookup_empty.
Qed.

(** The rules of the router are the built ones, in the order of the options. *)
Lemma Initialize_rules rules ruleSets FindProcess (dnsRules : list (DNSRuleOptions RR)) file watcher r :
  Router_Initialize dialer_New networkManager UnmarshalExtended srs_Read rules ruleSets file watcher
    (NewRouter rules FindProcess dnsRules) = Ok r ->
  res_mapi (fun i o => res_cause ("parse rule[" +:+ go_itoa (Z.of_nat i) +:+ "]") (NewRule dialer_New o false))
    0 rules = Ok (ro_rules r) /\
  add_rule_sets file watcher 0 ruleSets (with_rules (ro_rules r) (NewRouter rules FindProcess dnsRules)) = Ok r.
Proof.
  unfold Router_Initialize. intros (rs & Hrs & Ha)%res_bind_ok.
  pose proof (add_rule_sets_ok _ _ _ _ _ _ (new_router_wf _ _ _ _) Ha) as (_ & Hrules & _).
  cbn [ro_rules with_rules NewRouter app] in Hrules, Ha. by rewrite Hrules.
Qed.

Lemma Initialize_ok rules ruleSets FindProcess (dnsRules : list (DNSRuleOptions RR)) file watcher r :
  Router_Initialize dialer_New networkManager UnmarshalExtended srs_Read rules ruleSets file watcher
    (NewRouter rules FindProcess dnsRules) = Ok r ->
  sets_wf r /\ ro_ruleSets r = map rso_Tag ruleSets /\
  flat_map rule_tags (ro_rules r) = flat_map route_tags rules /\
  Forall (each_default startable) (ro_rules r) /\
  ro_needFindProcess r =
    hasRule rules isProcessRule || hasDNSRule dnsRules isProcessDNSRule || FindProcess /\
  ro_processSearcher r = false.
Proof.
  intros [Hrs Ha]%Initialize_rules.
  apply add_rule_sets_ok in Ha as (Hwf & _ & Htags & Hneed & Hps); [|apply new_router_wf].
  destruct (built_rules_shape _ (fun o => NewRule dialer_New o false) route_tags rules _
              (fun o r => NewRule_shape dialer_New o false r) Hrs). by split_and!.
Qed.

(** Only the calls of the two routers and the inbounds touch the box. *)
Definition is_router (c : StartStage * Component) : bool :=
  match c.2 with TheDNSRouter | TheRouter | TheInbound => true | _ => false end.

Lemma Box_run_routers other env cs b b' :
  Box_run other env cs b = Ok (None, b') -> Box_run other env (List.filter is_router cs) b = Ok (None, b').
Proof.
  revert b; induction cs as [|[stage c] cs IH]; intros b; cbn [RouterStart.Box_run]; [done|].
  destruct c; cbn [List.filter is_router snd]; try (cbn [RouterStart.Box_call snd fst res_bind];
    destruct (other stage _); [discriminate|apply IH]);
  cbn [RouterStart.Box_run]; intros ([err b1] & -> & Hb)%res_bind_ok; cbn [res_bind];
    (destruct err; [discriminate|by apply IH]).
Qed.

(** The inbounds leave the box alone outside the stage of their start; their TUN
    inbounds change only there and after it. *)
Lemma inbound_call other env stage b err b1 :
  stage <> StartStateStart -> Box_call other env (stage, TheInbound) b = Ok (err, b1) ->
  bx_dnsRules b1 = bx_dnsRules b /\ bx_router b1 = bx_router b /\ (stage = StartStateInitialize -> bx_tuns b1 = bx_tuns b).
Proof.
  intros Hst. cbn [RouterStart.Box_call snd fst].
  pose proof (tuns_other_stage platform tun_open tun_run stage (bx_tuns b) (Router_table (bx_router b)) Hst) as Hsets.
  destruct (start_each _ _ _) as [[err1 tuns] sets] eqn:Hs. simpl in Hsets. subst sets. intros [= _ <-]. cbn.
  unfold Router_table. rewrite put_table_same. split_and!; [done|by destruct (bx_router b)|].
  intros ->. assert (forall l sets, (start_each (Tun_Start StartStateInitialize) l sets).1.2 = l) as Hl.
  { induction l as [|t l IH]; intros sets; cbn [start_each]; [done|]. cbn [RouterStart.Tun_Start].
    specialize (IH sets). destruct (start_each _ l _) as [[err2 l2] sets2]. cbn in *. by rewrite IH. }
  specialize (Hl (bx_tuns b) (Router_table (bx_router b))). by rewrite Hs in Hl.
Qed.

Ltac next_call H c := apply res_bind_ok in H as ([[?|] ?] & c & H); [discriminate|].

(** What the two routers and the TUN inbounds do, all components starting without
    error. *)
Lemma Box_run_started other env dns0 r0 tuns b :
  sets_wf r0 -> Forall (each_default startable) (ro_rules r0) -> Forall (each_default startable) dns0 ->
  Forall (fun t => Forall (known (any_set <$> ro_ruleSetMap r0)) (ti_routeRuleSet t ++ ti_routeExcludeRuleSet t)) tuns ->
  Box_run other env start {| bx_dnsRules := dns0; bx_router := r0; bx_tuns := tuns |} = Ok (None, b) ->
  let dt := flat_map rule_tags dns0 in
  let rt := flat_map rule_tags (ro_rules r0) in
  let m0 := ro_ruleSetMap r0 in
  let m1 := put_table (take_refs dt (any_set <$> m0)) m0 in
  exists errs m2 sets3,
    start_rule_sets env 0 (ro_ruleSets r0) m1 = Ok (errs, m2) /\ Forall (eq None) errs /\
    referred (flat_map (tun_tags platform) tuns) (any_set <$> m2) sets3 /\
    let m3 := put_table sets3 m2 in
    Forall (known (any_set <$> m0)) dt /\ Forall (known (any_set <$> m3)) rt /\
    bx_dnsRules b = map bind_rule dns0 /\ ro_rules (bx_router b) = map bind_rule (ro_rules r0) /\
    ro_ruleSetMap (bx_router b) =
      (fun x => put_set (Cleanup (any_set x)) x) <$> put_table (take_refs rt (any_set <$> m3)) m3 /\
    ro_processSearcher (bx_router b) =
      if needs_process (with_ruleSets (ro_ruleSets r0) m2 r0)
      then if platform then true else negb (bool_decide (is_Some searcher))
      else ro_processSearcher r0.
Proof.
  intros Hwf Hr Hd Ht Hb dt rt m0 m1. apply Box_run_routers in Hb.
  cbn [List.filter start preStart calls map app is_router snd RouterStart.Box_run] in Hb.
  next_call Hb Hc. injection Hc as <-. next_call Hb Hc. injection Hc as <-. cbn [bx_dnsRules bx_router bx_tuns] in Hb.
  next_call Hb Hc. apply inbound_call in Hc as (Hb1 & Hb2 & Hb3); [|done]. specialize (Hb3 eq_refl). cbn in Hb1, Hb2, Hb3.
  next_call Hb Hc. cbn [RouterStart.Box_call snd fst dns_start] in Hc. rewrite Hb1, Hb2, Hb3 in Hc. clear Hb1 Hb2 Hb3.
  destruct (start_rules "DNS rule" 0 dns0 (Router_table r0)) as [[err rs] sets] eqn:Hs. injection Hc as -> <-.
  apply start_rules_ok in Hs as (Hdk & -> & ->); [|done].
  next_call Hb Hc. cbn [RouterStart.Box_call snd fst RouterStart.Router_Start bx_dnsRules bx_router bx_tuns] in Hc.
  apply res_bind_ok in Hc as ([err' r1] & Hr1 & [= -> <-]). unfold start_sets in Hr1.
  apply res_bind_ok in Hr1 as ([errs m2] & Hm2 & Hr1).
  destruct (group_Run errs) eqn:He; [discriminate|]. injection Hr1 as <-. apply group_Run_ok in He.
  cbn [ro_ruleSets with_ruleSets ro_ruleSetMap] in Hm2.
  next_call Hb Hc. cbn [RouterStart.Box_call snd fst bx_dnsRules bx_router bx_tuns] in Hc.
  destruct (start_each _ _ _) as [[err tuns1] sets3] eqn:Htun. injection Hc as Herr <-.
  destruct err; [discriminate|]. apply tuns_start_referred in Htun.
  2: { eapply Forall_impl; [exact Ht|]. intros t Hk. eapply Forall_impl; [exact Hk|]. intros tag.
       unfold Router_table. cbn [ro_ruleSetMap with_needs with_ruleSets]. unfold known. rewrite !lookup_fmap, !fmap_is_Some.
       intros Htag. eapply (loaded_known _ _ _ _ _ _ (proj1 Hwf) Hm2 He). by apply put_table_known. }
  next_call Hb Hc. injection Hc as <-. cbn [bx_dnsRules bx_router bx_tuns] in Hb.
  next_call Hb Hc. cbn [RouterStart.Box_call snd fst RouterStart.Router_Start bx_dnsRules bx_router bx_tuns res_bind] in Hc.
  unfold post_start, Router_table in Hc. cbn [ro_rules with_needs with_ruleSets ro_ruleSetMap] in Hc.
  destruct (start_rules "rule" 0 (ro_rules r0) _) as [[err rs] sets] eqn:Hs.
  destruct err; [discriminate|]. apply start_rules_ok in Hs as (Hrk & -> & ->); [|done]. injection Hc as <-.
  next_call Hb Hc. apply inbound_call in Hc as (Hb1 & Hb2 & _); [|done]. cbn in Hb1, Hb2.
  next_call Hb Hc. injection Hc as <-. next_call Hb Hc. injection Hc as <-.
  next_call Hb Hc. apply inbound_call in Hc as (Hb3 & Hb4 & _); [|done]. cbn in Hb3, Hb4.
  injection Hb as <-. rewrite Hb1 in Hb3. rewrite Hb2 in Hb4.
  exists errs, m2, sets3. rewrite Hb3, Hb4. by split_and!.
Qed.

(** The life of one rule-set until the end of the start. *)
Lemma started_set env errs dt tt rt r0 m2 sets3 tag x0 :
  sets_wf r0 -> ro_ruleSetMap r0 !! tag = Some x0 -> Z.of_nat (length (dt ++ tt ++ rt)) < 2 ^ 31 ->
  start_rule_sets env 0 (ro_ruleSets r0)
    (put_table (take_refs dt (any_set <$> ro_ruleSetMap r0)) (ro_ruleSetMap r0)) = Ok (errs, m2) ->
  Forall (eq None) errs -> referred tt (any_set <$> m2) sets3 ->
  let m3 := put_table sets3 m2 in
  exists x y, start_rule_set (env tag) x0 = Ok (None, x) /\
    put_table (take_refs rt (any_set <$> m3)) m3 !! tag = Some y /\
    rs_refs (any_set y) = occurrences tag (dt ++ tt ++ rt) /\
    rs_rules (any_set y) = rs_rules (any_set x) /\ rs_metadata (any_set y) = rs_metadata (any_set x).
Proof.
  intros (Hnd & Hdom & Hrefs) Hx0 Hlen Hs He Href m3. rewrite !length_app in Hlen.
  pose proof (occurrences_le tag dt). pose proof (occurrences_le tag rt). pose proof (occurrences_le tag tt).
  destruct (start_rule_sets_ok _ _ _ _ _ _ _ _ _ Hnd Hs He) as [Hy _].
  destruct (Hy tag (any_refs (occurrences tag dt) x0)) as (y & Hs0 & Hy2).
  { apply Hdom. by eexists. }
  { pose proof (Hrefs _ _ Hx0) as Hz. rewrite (put_table_refs _ _ _ x0); rewrite ?Hz; [done|done|lia..]. }
  rewrite start_rule_set_refs in Hs0. apply res_bind_ok in Hs0 as ([err x] & Hx & [= -> <-]).
  assert (Hn : rs_refs (any_set (any_refs (occurrences tag dt) x)) = occurrences tag dt) by by destruct x.
  specialize (Href tag). rewrite lookup_fmap, Hy2 in Href. cbn [fmap option_fmap option_map] in Href.
  destruct Href as (s3 & Hs3 & Hr3 & Hm3 & Hn3). rewrite Hn in Hn3.
  assert (Hy3 : m3 !! tag = Some (put_set s3 (any_refs (occurrences tag dt) x))).
  { unfold m3, put_table. by rewrite map_lookup_imap, Hy2, Hs3. }
  assert (Hset : any_set (put_set s3 (any_refs (occurrences tag dt) x)) = s3) by by destruct x.
  exists x, (any_refs (rs_refs s3 + occurrences tag rt) (put_set s3 (any_refs (occurrences tag dt) x))).
  split; [done|]. rewrite (put_table_refs _ _ _ _ Hy3); rewrite ?Hset; [|lia..].
  split; [done|]. rewrite !occurrences_app. rewrite Hn3 by lia.
  destruct x; simpl in *; split_and!; try congruence; lia.
Qed.

Lemma find_rule_sets_known what tags r : find_rule_sets what tags r = Ok tt -> Forall (known (any_set <$> ro_ruleSetMap r)) tags.
Proof.
  induction tags as [|tag tags IH]; simpl; [by constructor|]. unfold Router_RuleSet.
  destruct (ro_ruleSetMap r !! tag) as [x|] eqn:Hx; [|done]. intros Hf. constructor; [|by apply IH].
  unfold known. rewrite lookup_fmap, Hx. by eexists.
Qed.

Lemma NewTunInbound_ok redirect callback r o t :
  NewTunInbound redirect callback r o = Ok t ->
  ti_routeRuleSet t = to_RouteAddressSet o /\ ti_routeExcludeRuleSet t = to_RouteExcludeAddressSet o /\
  Forall (known (any_set <$> ro_ruleSetMap r)) (to_RouteAddressSet o ++ to_RouteExcludeAddressSet o).
Proof.
  unfold NewTunInbound. intros ([] & H1%find_rule_sets_known & Ht)%res_bind_ok.
  apply res_bind_ok in Ht as ([] & H2%find_rule_sets_known & Ht). apply res_bind_ok in Ht as (_ & _ & [= <-]).
  split_and!; [done|done|by apply Forall_app].
Qed.

Lemma built_tuns_known redirect r os ts :
  Forall2 (fun o t => exists callback, NewTunInbound redirect callback r o = Ok t) os ts ->
  Forall (fun t => Forall (known (any_set <$> ro_ruleSetMap r)) (ti_routeRuleSet t ++ ti_routeExcludeRuleSet t)) ts.
Proof.
  induction 1 as [|o t os ts (cb & (H1 & H2 & Hk)%NewTunInbound_ok) _ IH]; constructor; [by rewrite H1, H2|done].
Qed.

(** The rule-sets the options of TUN inbounds name. *)
Definition tun_named (o : TunInboundOptions) : list string := to_RouteAddressSet o ++ to_RouteExcludeAddressSet o.

(** C29 (a started box keeps the rule-sets that are named): when every component
    starts without error, every rule-set a route or DNS rule or a TUN inbound names
    exists, every rule is as built with its rule-set item pointing at the sets it
    names, and every rule-set was loaded from its own options.  It is referred to
    once for each time a rule names it and, unless a platform opens the interface,
    a TUN inbound does; with a reference it holds the rules that were loaded,
    without one it holds none. *)
Theorem started_rule_sets rules ruleSets FindProcess (dnsRules : list (DNSRuleOptions RR)) dns0 file watcher
    r0 redirect tun_options tuns other env b :
  Router_Initialize dialer_New networkManager UnmarshalExtended srs_Read rules ruleSets file watcher
    (NewRouter rules FindProcess dnsRules) = Ok r0 ->
  res_mapi (fun i o => res_cause ("parse dns rule[" +:+ go_itoa (Z.of_nat i) +:+ "]") (NewDNSRule o true))
    0 dnsRules = Ok dns0 ->
  Forall2 (fun o t => exists callback, NewTunInbound redirect callback r0 o = Ok t) tun_options tuns ->
  Box_run other env start {| bx_dnsRules := dns0; bx_router := r0; bx_tuns := tuns |} = Ok (None, b) ->
  let by_rules := flat_map dns_tags dnsRules ++ flat_map route_tags rules in
  let by_tuns := flat_map tun_named tun_options in
  let taken := by_rules ++ (if platform then [] else by_tuns) in
  Z.of_nat (length taken) < 2 ^ 31 ->
  (forall tag, tag ∈ by_rules ++ by_tuns -> tag ∈ map rso_Tag ruleSets) /\
  bx_dnsRules b = map bind_rule dns0 /\ ro_rules (bx_router b) = map bind_rule (ro_rules r0) /\
  forall tag, tag ∈ map rso_Tag ruleSets -> exists x0 x y,
    ro_ruleSetMap r0 !! tag = Some x0 /\ start_rule_set (env tag) x0 = Ok (None, x) /\
    ro_ruleSetMap (bx_router b) !! tag = Some y /\
    rs_refs (any_set y) = occurrences tag taken /\ rs_metadata (any_set y) = rs_metadata (any_set x) /\
    rs_rules (any_set y) = if decide (tag ∈ taken) then rs_rules (any_set x) else [].
Proof.
  intros Hi Hd Ht Hb by_rules by_tuns taken Hlen. apply Initialize_ok in Hi as (Hwf & Htags & Hrt & Hrs & _).
  destruct (built_rules_shape _ (fun o => NewDNSRule o true) dns_tags dnsRules dns0
              (fun o r => NewDNSRule_shape o true r) Hd) as [Hdt Hds].
  assert (Hknown : Forall (known (any_set <$> ro_ruleSetMap r0)) by_tuns /\
    Forall (fun t => Forall (known (any_set <$> ro_ruleSetMap r0)) (ti_routeRuleSet t ++ ti_routeExcludeRuleSet t)) tuns /\
    flat_map (tun_tags platform) tuns = if platform then [] else by_tuns).
  { subst by_tuns. clear -Ht. induction Ht as [|o t os ts (cb & (H1 & H2 & Hk)%NewTunInbound_ok) _ (IH1 & IH2 & IH3)]; simpl.
    - by destruct platform.
    - split_and!; [by apply Forall_app|constructor; [by rewrite H1, H2|done]|].
      unfold tun_tags at 1. rewrite IH3, H1, H2. by destruct platform. }
  destruct Hknown as (Htk & Htk' & Htt).
  apply Box_run_started in Hb as (errs & m2 & sets3 & Hs & He & Href & Hdk & Hrk & -> & -> & -> & _); [|done..].
  rewrite Htt in Href. rewrite Hdt in Hs, Hdk. rewrite Hrt in Hrk |- *. rewrite <- Htags.
  destruct (Hwf) as (Hnd & Hdom & _).
  assert (Hdom' : forall tag, known (any_set <$> ro_ruleSetMap r0) tag <-> tag ∈ ro_ruleSets r0).
  { intros tag. unfold known. by rewrite lookup_fmap, fmap_is_Some, Hdom. }
  split_and!; [|done|done|].
  - intros tag Htag. rewrite Forall_forall in Hdk, Hrk, Htk. unfold by_rules in Htag.
    apply elem_of_app in Htag as [[Htag|Htag]%elem_of_app|Htag]; [by apply Hdom', Hdk| |by apply Hdom', Htk].
    specialize (Hrk tag Htag). unfold known in Hrk. rewrite lookup_fmap, fmap_is_Some in Hrk.
    apply put_table_known in Hrk. destruct (decide (tag ∈ ro_ruleSets r0)) as [|Hn]; [done|].
    destruct (start_rule_sets_ok _ _ _ _ _ _ _ _ _ Hnd Hs He) as [_ Hout].
    rewrite (Hout tag Hn) in Hrk. by apply put_table_known, Hdom in Hrk.
  - intros tag [x0 Hx0]%Hdom.
    assert (Hocc : forall tag, occurrences tag taken =
              occurrences tag (flat_map dns_tags dnsRules ++ (if platform then [] else by_tuns) ++ flat_map route_tags rules)).
    { intros t. unfold taken, by_rules. rewrite !occurrences_app. lia. }
    assert (Hlen' : Z.of_nat (length (flat_map dns_tags dnsRules ++ (if platform then [] else by_tuns) ++
                                       flat_map route_tags rules)) < 2 ^ 31).
    { unfold taken, by_rules in Hlen. rewrite !length_app in Hlen |- *. clear -Hlen. lia. }
    destruct (started_set env errs _ _ _ r0 m2 sets3 tag x0 Hwf Hx0 Hlen' Hs He Href)
      as (x & y & Hx & Hy & Hn & Hru & Hme).
    assert (Hput : any_set (put_set (Cleanup (any_set y)) y) = Cleanup (any_set y)) by by destruct y.
    rewrite <- Hocc in Hn. eexists x0, x, _. rewrite lookup_fmap, Hy. split_and!; [done|done|done| | |].
    + rewrite Hput. rewrite <- Hn. unfold Cleanup. by destruct (_ =? 0).
    + rewrite Hput. rewrite <- Hme. unfold Cleanup. by destruct (_ =? 0).
    + rewrite Hput. rewrite <- Hru. unfold Cleanup. rewrite Hn. destruct (Z.eqb_spec (occurrences tag taken) 0) as [Hz|Hz].
      * by rewrite decide_False by by apply occurrences_zero.
      * rewrite decide_True; [done|]. destruct (decide (tag ∈ taken)) as [|Hno]; [done|]. by apply occurrences_zero in Hno.
Qed.
End started.

(** ** Order of the calls *)

Definition stages_of (c : Component) : list StartStage :=
  map fst (List.filter (fun call =>
    match call.2, c with
    | TheInternal, TheInternal | TheNetwork, TheNetwork | TheDNSTransport, TheDNSTransport
    | TheDNSRouter, TheDNSRouter | TheConnection, TheConnection | TheRouter, TheRouter
    | TheOutbound, TheOutbound | TheInbound, TheInbound | TheEndpoint, TheEndpoint
    | TheService, TheService => true
    | _, _ => false
    end) start).

(** Every component goes through the stages of [ListStartStages], once each. *)
Lemma every_component_starts c : stages_of c = ListStartStages.
Proof. by destruct c. Qed.

(** Inbounds accept connections before the rules of the router are started ... *)
Lemma inbounds_before_rules : exists before between after,
  start = before ++ (StartStateStart, TheInbound) :: between ++ (StartStatePostStart, TheRouter) :: after.
Proof. by exists (take 17 start), (take 7 (drop 18 start)), (drop 26 start). Qed.

(** ... and until then a rule with a rule-set item gives the same answer for
    every connection: its [invert]. *)
Lemma unstarted_rule_set_rule `{External} {A} h sets (r : abstractDefaultRule AnyItem A) m i :
  ItRuleSet i ∈ items r -> allItems r <> [] -> rsi_setList i = [] ->
  (@abstractDefaultRule_Match _ _ (any_ops h sets) r m).1 = invert r.
Proof.
  intros Hi Ha Hn. unfold abstractDefaultRule_Match. destruct (allItems r) as [|a l]; [done|]. cbn [nonempty negb].
  match goal with |- context [all_st _ (items r) ?m0] => generalize m0; intros m1 end.
  assert (Hall : (all_st (@match_item _ (any_ops h sets)) (items r) m1).1 = false).
  { revert m1. induction (items r) as [|it its IH]; intros m1; [by apply not_elem_of_nil in Hi|].
    cbn [all_st]. destruct (@match_item _ (any_ops h sets) it m1) as [b m'] eqn:Hb.
    destruct b; [|done]. apply elem_of_cons in Hi as [<-|Hi]; [|by apply IH].
    unfold match_item in Hb. simpl in Hb. unfold RuleSetItem_Match in Hb. by rewrite Hn in Hb. }
  destruct (all_st _ (items r) m1) as [b m']. simpl in Hall. by rewrite Hall.
Qed.

(** ** Witnesses *)

Section start_witnesses.
#[local] Existing Instance concrete_external.

(** The group runs every task and joins the errors. *)
Definition run_all (errs : list (option error)) : option error := E_Errors (omap id errs).

Lemma run_all_ok errs : run_all errs = None -> Forall (eq None) errs.
Proof.
  unfold run_all. induction errs as [|[e|] errs IH]; simpl; [by constructor| |by constructor; auto].
  by case_match.
Qed.

Definition example_named : RuleOptions :=
  MkRuleOptions "default"
    (Build_RawDefaultRule [] 0 [] [] [] [] [] [] [] [] [] [] [] [] false [] false [] [] [] [] [] [] []
       [] [] [] "" [] false false [] [] ["geo"] false false false false)
    example_action "" [] false example_action.
Definition example_inline (tag : string) : RuleSetOptions :=
  Build_RuleSetOptions "inline" tag "" example_set_rules "" "" 0.
Definition example_env : SetEnv := Build_SetEnv true None (fun _ => HTTPError ErrEOF) 7 true.

Definition no_file (tag : string) : res string := Err ErrEOF.
Definition no_watcher (tag : string) : res unit := Err ErrEOF.
Definition example_router_init : res Router :=
  Router_Initialize (fun _ => Ok tt) true example_decode example_decode [example_named]
    [example_inline "geo"; example_inline "by_tun"; example_inline "unused"] no_file no_watcher
    (NewRouter (RR := string) [example_named] false []).
Definition example_router0 : Router :=
  built (NewRouter (RR := string) [] false []) example_router_init.
(** A TUN inbound that routes by the second rule-set. *)
Definition example_tun : TunInboundOptions :=
  {| to_RouteAddressSet := ["by_tun"]; to_RouteExcludeAddressSet := []; to_AutoRoute := true; to_AutoRedirect := false |}.
Definition no_tun : TunInbound :=
  {| ti_routeRuleSet := []; ti_routeExcludeRuleSet := []; ti_autoRedirect := false; ti_callback := 0;
     ti_routeAddressSet := []; ti_routeExcludeAddressSet := [] |}.
Definition example_tuns : list TunInbound := [built no_tun (NewTunInbound (Ok tt) 0 example_router0 example_tun)].
Definition example_box0 : Box (RR := string) :=
  {| bx_dnsRules := []; bx_router := example_router0; bx_tuns := example_tuns |}.
Definition example_run : res (option error * Box (RR := string)) :=
  Box_run true example_decode example_decode run_all false None (fun _ => None) (fun _ => None) (fun _ _ => None) (fun _ => example_env)
    start example_box0.
Definition example_box : Box := (built (None, example_box0) example_run).2.

Lemma example_run_ok : example_run = Ok (None, example_box).
Proof.
  assert (Hr : match example_run with Ok (None, _) => true | _ => false end = true) by (vm_compute; reflexivity).
  unfold example_box. by destruct example_run as [[[]]| |].
Qed.

Lemma started_rule_sets_witness :
  exists y, ro_ruleSetMap (bx_router example_box) !! "by_tun" = Some y /\ rs_refs (any_set y) = 1.
Proof.
  destruct (started_rule_sets (RR := string) (fun _ => Ok tt) true example_decode example_decode run_all
    run_all_ok false None (fun _ => None) (fun _ => None) [example_named]
    [example_inline "geo"; example_inline "by_tun"; example_inline "unused"] false [] []
    no_file no_watcher example_router0 (Ok tt) [example_tun] example_tuns (fun _ _ => None) (fun _ => example_env) example_box)
    as (_ & _ & _ & Ht).
  - apply built_ok. vm_compute. reflexivity.
  - reflexivity.
  - constructor; [|constructor]. exists 0%nat. apply built_ok. vm_compute. reflexivity.
  - exact example_run_ok.
  - reflexivity.
  - destruct (Ht "by_tun") as (x0 & x & y & _ & _ & Hy & Hr & _); [simpl; right; left|].
    exists y. split; [exact Hy|]. etrans; [exact Hr|]. reflexivity.
Defined.
End start_witnesses.
