(* ===== verification/ProcessSearch.v ===== *)
(** * route/router.go, route/route.go: when the process of a connection matters

    A router makes a process searcher only when its options, those of the DNS
    router or the metadata of a loaded rule-set ask for one (RouterStart.v).  The
    theorem: without it, no rule of either router looks at the process, so every
    match gives the same answer and leaves the same context whatever the process
    is. *)

From stdpp Require Import base list strings gmap.
From Stdlib Require Import ZArith Lia.
From S2P Require Import Prelude GoStd External Adapter RuleItem RuleAbstract RuleTree RuleMatch RuleAction RuleBuild RuleConfig RuleSet Lifecycle RouterStart.

Open Scope Z_scope.
Open Scope box_scope.

(** ** Matches that commute with a change of the context *)

Section commuting.
Context (f : InboundContext -> InboundContext).
Context (f_cache : forall m, cache (f m) = cache m).
Context (f_upd : forall g m, upd_cache g (f m) = f (upd_cache g m)).

Definition commutes {X} (g : X -> InboundContext -> bool * InboundContext) (x : X) : Prop :=
  forall m, g x (f m) = ((g x m).1, f (g x m).2).

Lemma any_st_commutes {X} (g : X -> InboundContext -> bool * InboundContext) l :
  Forall (commutes g) l -> commutes (any_st g) l.
Proof.
  induction 1 as [|x l Hx _ IH]; intros m; [done|]. cbn [any_st]. rewrite (Hx m).
  destruct (g x m) as [[] m']; [done|apply IH].
Qed.

Lemma all_st_commutes {X} (g : X -> InboundContext -> bool * InboundContext) l :
  Forall (commutes g) l -> commutes (all_st g) l.
Proof.
  induction 1 as [|x l Hx _ IH]; intros m; [done|]. cbn [all_st]. rewrite (Hx m).
  destruct (g x m) as [[] m']; [apply IH|done].
Qed.

Lemma reset_commutes m : ResetRuleCache (f m) = f (ResetRuleCache m).
Proof. apply f_upd. Qed.

Section default.
Context {I A : Type} `{ItemOps I}.

Lemma match_group_commutes flag set (l : list I) m :
  Forall (commutes item_Match) l -> match_group flag set l (f m) = f (match_group flag set l m).
Proof.
  intros Hl. unfold match_group. rewrite f_cache. destruct (_ && _); [|done].
  rewrite f_upd, (any_st_commutes _ _ Hl). destruct (any_st _ _ _) as [[] m']; simpl; [apply f_upd|done].
Qed.

Lemma match_item_commutes (it : I) : commutes item_Match it -> commutes match_item it.
Proof. intros Hit m. unfold match_item. case_match; [apply Hit|]. by rewrite f_upd, Hit. Qed.

Lemma default_commutes (r : abstractDefaultRule I A) :
  (forall g, Forall (commutes item_Match) (items_of g r)) -> commutes abstractDefaultRule_Match r.
Proof.
  intros Hr m. unfold abstractDefaultRule_Match. destruct (nonempty (allItems r)); [|done]. cbn [negb].
  rewrite !match_group_commutes, !f_cache by
    first [apply (Hr GSourceAddress)|apply (Hr GSourcePort)|apply (Hr GDestinationAddress)
          |apply (Hr GDestinationIPCIDR)|apply (Hr GDestinationPort)].
  set (m3 := match_group _ _ (destinationAddressItems r) _).
  assert (Hif : forall (b : bool) m1 m2, (if b then f m1 else f m2) = f (if b then m1 else m2)) by by intros [].
  rewrite Hif, match_group_commutes by apply (Hr GDestinationPort).
  rewrite all_st_commutes.
  2: { eapply Forall_impl; [apply (Hr GItems)|]. apply match_item_commutes. }
  destruct (all_st _ _ _) as [ok m']. cbn [fst snd]. rewrite !f_cache.
  repeat case_match; done.
Qed.
End default.

Lemma logical_commutes {R A} (sub : R -> InboundContext -> bool * InboundContext)
    (rs : list R) md inv (act : A) :
  Forall (commutes sub) rs ->
  commutes (abstractLogicalRule_Match sub) (Build_abstractLogicalRule _ _ rs md inv act).
Proof.
  intros Hrs m. unfold abstractLogicalRule_Match.
  assert (Hb : Forall (commutes (fun it m => sub it (ResetRuleCache m))) rs).
  { eapply Forall_impl; [exact Hrs|]. intros r Hr m0. cbn beta. by rewrite reset_commutes, Hr. }
  case_decide; [rewrite (all_st_commutes _ _ Hb); by destruct (all_st _ rs m)
               |rewrite (any_st_commutes _ _ Hb); by destruct (any_st _ rs m)].
Qed.
End commuting.

(** ** Rules that do not look at the process *)

Definition reads_process `{External} (it : RuleItem) : bool :=
  match it with
  | ItProcess _ | ItProcessPath _ | ItProcessPathRegex _ | ItPackageName _ | ItUser _ | ItUserID _ => true
  | _ => false
  end.

Section process_free.
Context `{External}.

Definition free_item (it : AnyItem) : Prop :=
  match it with Plain i => reads_process i = false | ItRuleSet _ => True end.

Fixpoint free_headless (r : HeadlessRule) : Prop :=
  match r with
  | DefaultHeadlessRule r => forall g, Forall (fun it => reads_process it = false) (items_of g r)
  | LogicalHeadlessRule (Build_abstractLogicalRule _ _ rs _ _ _) =>
      foldr (fun r P => free_headless r /\ P) True rs
  end.

Lemma free_headless_logical rs md inv act :
  free_headless (LogicalHeadlessRule (Build_abstractLogicalRule _ _ rs md inv act)) <-> Forall free_headless rs.
Proof. simpl. induction rs as [|x rs IH]; simpl; [split; auto|]. by rewrite IH, Forall_cons. Qed.

Definition free_rule {A} : Rule A -> Prop := each_default (fun r => forall g, Forall free_item (items_of g r)).
Definition free_set (s : RuleSet) : Prop := Forall free_headless (rs_rules s).

Context (h : Host) (sets : RuleSetTable) (p : option ProcessInfo).
Context (sets_free : forall tag s, sets !! tag = Some s -> free_set s).
#[local] Existing Instance leaf_ops.
#[local] Existing Instance any_ops.

Lemma RuleItem_Match_process it m :
  reads_process it = false -> RuleItem_Match h it (with_ProcessInfo p m) = RuleItem_Match h it m.
Proof. by destruct it. Qed.

Notation commutes := (commutes (with_ProcessInfo p)).

Lemma headless_commutes (r : HeadlessRule) : free_headless r -> commutes (HeadlessRule_Match h) r.
Proof.
  induction r as [r|[rs md inv act] IH] using HeadlessRule_tree_ind; intros Hr.
  - intros m. cbn [HeadlessRule_Match]. apply (default_commutes (with_ProcessInfo p)); [done|done|].
    intros g. eapply Forall_impl; [apply (Hr g)|]. intros it Hit m0. simpl. by rewrite RuleItem_Match_process.
  - apply free_headless_logical in Hr. intros m. cbn [HeadlessRule_Match].
    apply (logical_commutes (with_ProcessInfo p)); [done|]. rewrite Forall_forall in *. auto.
Qed.

Lemma match_set_commutes tag : commutes (match_set h sets) tag.
Proof.
  intros m. unfold match_set. destruct (sets !! tag) as [s|] eqn:Hs; [|done].
  apply (any_st_commutes (with_ProcessInfo p)). eapply Forall_impl; [by eapply sets_free|].
  apply headless_commutes.
Qed.

Lemma any_item_commutes (it : AnyItem) : free_item it -> commutes (@item_Match _ (any_ops h sets)) it.
Proof.
  destruct it as [i|i]; intros Hi m; simpl; [by rewrite RuleItem_Match_process|].
  unfold RuleSetItem_Match.
  change (upd_cache ?g (with_ProcessInfo p m)) with (with_ProcessInfo p (upd_cache g m)).
  apply (any_st_commutes (with_ProcessInfo p)), Forall_true, match_set_commutes.
Qed.

Lemma default_rule_commutes {A} (r : abstractDefaultRule AnyItem A) :
  (forall g, Forall free_item (items_of g r)) -> commutes (@abstractDefaultRule_Match _ _ (any_ops h sets)) r.
Proof.
  intros Hr. apply (default_commutes (with_ProcessInfo p)); [done|done|].
  intros g. eapply Forall_impl; [apply Hr|]. apply any_item_commutes.
Qed.

(** Any of the three matches of a rule tree. *)
Lemma tree_commutes {A} (Match : Rule A -> InboundContext -> bool * InboundContext) :
  (forall r, (forall g, Forall free_item (items_of g r)) -> commutes Match (DefaultRule r)) ->
  (forall r m, Match (LogicalRule r) m = abstractLogicalRule_Match Match r m) ->
  forall r, free_rule r -> commutes Match r.
Proof.
  intros Hd Hl r. induction r as [r|[rs md inv act] IH] using Rule_tree_ind; intros Hr; [by apply Hd|].
  unfold free_rule in *. rewrite each_default_logical in Hr. intros m. rewrite !Hl.
  apply (logical_commutes (with_ProcessInfo p)); [done|]. rewrite Forall_forall in *. auto.
Qed.

Lemma Rule_Match_commutes {A} (r : Rule A) : free_rule r -> commutes (Rule_Match h sets) r.
Proof. apply tree_commutes; [|done]. apply default_rule_commutes. Qed.

Lemma MatchAddressLimit_commutes {A} (r : Rule A) :
  free_rule r -> commutes (DNSRule_MatchAddressLimit h sets) r.
Proof. apply tree_commutes; [|done]. apply default_rule_commutes. Qed.

Lemma DNSRule_Match_commutes {A} (r : Rule A) : free_rule r -> commutes (DNSRule_Match h sets) r.
Proof.
  apply tree_commutes; [|done]. intros r0 Hr m. cbn [DNSRule_Match].
  change (upd_cache ?g (with_ProcessInfo p m)) with (with_ProcessInfo p (upd_cache g m)).
  rewrite (default_rule_commutes r0 Hr). by destruct (abstractDefaultRule_Match r0 _).
Qed.
End process_free.

(** ** Options that do not ask for the process *)

Section free_options.
Context `{External} {A : Type}.

Definition free_step (s : step RuleItem) : Prop :=
  st_cond s = true -> forall it, st_item s = Ok it -> reads_process it = false.

Ltac free_steps :=
  repeat (apply Forall_cons_2; [intros Hc it Hit; cbn [st_cond st_item] in Hc, Hit;
    first [congruence
          |unfold ok_item, ip_version_item, domain_regex_item, process_path_regex_item, ipcidr_item, port_range_item,
             wrap_item in Hit; repeat case_match; inv_res; done]|]);
  apply Forall_nil_2.

Lemma run_steps_free l inv (act : A) (r : abstractDefaultRule RuleItem A) :
  Forall free_step l -> run_steps l (empty_rule inv act) = Ok r ->
  forall g, Forall (fun it => reads_process it = false) (items_of g r).
Proof.
  intros Hl Hr. apply (run_steps_from (fun _ it => reads_process it = false) l (empty_rule inv act)); [done| |done].
  intros []; constructor.
Qed.

Lemma with_set_step_free l inv (act : A) (tags : list string) src empty r :
  Forall free_step l ->
  run_steps (map plain l ++ [Build_step (nonempty tags) GItems
      (Ok (ItRuleSet (NewRuleSetItem tags src empty)))]) (empty_rule inv act) = Ok r ->
  forall g, Forall free_item (items_of g r).
Proof.
  intros Hl (r1 & Hr1 & Hr)%(run_steps_plain_then _ _ (empty_rule inv act)) g.
  assert (H1 : Forall free_item (items_of g (map_rule Plain r1))).
  { pose proof (run_steps_free l inv act r1 Hl Hr1 g) as Hg. by destruct g; apply Forall_fmap. }
  destruct tags as [|t tags]; cbn [run_steps nonempty st_cond st_item st_group res_bind] in Hr; injection Hr as <-; [done|].
  rewrite items_of_add. case_decide; [|done]. apply Forall_app. split; [done|]. by constructor.
Qed.

Lemma route_steps_free (o : RawDefaultRule) :
  isProcessRule o = false ->
  Forall free_step (default_rule_head o ++ default_rule_addresses o ++ default_rule_process o ++ default_rule_host o).
Proof.
  unfold isProcessRule. rewrite !orb_false_iff. intros [[[[[H1 H2] H3] H4] H5] H6].
  unfold default_rule_head, default_rule_addresses, default_rule_process, default_rule_host. cbn [app]. free_steps.
Qed.

Lemma dns_steps_free (o : RawDefaultDNSRule) :
  isProcessDNSRule o = false ->
  Forall free_step (dns_rule_head o ++ dns_rule_addresses o ++ dns_rule_process o ++ dns_rule_host o).
Proof.
  unfold isProcessDNSRule. rewrite !orb_false_iff. intros [[[[[H1 H2] H3] H4] H5] H6].
  unfold dns_rule_head, dns_rule_addresses, dns_rule_process, dns_rule_host. cbn [app]. free_steps.
Qed.

Lemma headless_steps_free nm (o : DefaultHeadlessOptions) :
  isProcessHeadlessRule o = false -> Forall free_step (headless_steps nm o).
Proof.
  unfold isProcessHeadlessRule. rewrite !orb_false_iff. intros [[[H1 H2] H3] H4].
  unfold headless_steps, headless_head, headless_addresses, headless_process, headless_host, list_or_raw.
  destruct nm; cbn [app]; free_steps.
Qed.
End free_options.

Section free_trees.
Context `{External}.

(** The decoders give every rule a type. *)
Fixpoint typed_route (o : RuleOptions) : bool :=
  match o with
  | MkRuleOptions type _ _ _ rs _ _ => negb (bool_decide (type = "")) && forallb typed_route rs
  end.
Fixpoint typed_dns {RR} (o : DNSRuleOptions RR) : bool :=
  match o with
  | MkDNSRuleOptions type _ _ _ rs _ _ => negb (bool_decide (type = "")) && forallb typed_dns rs
  end.

Lemma typed_default type : type <> "" -> is_default_type type = bool_decide (type = RuleTypeDefault).
Proof. intros Ht. apply bool_decide_ext. naive_solver. Qed.

Lemma existsb_false {X} (g : X -> bool) l x : existsb g l = false -> x ∈ l -> g x = false.
Proof.
  intros Hl Hx. destruct (g x) eqn:Hg; [|done].
  assert (existsb g l = true) by (apply existsb_elem_of; eauto). congruence.
Qed.

Lemma sub_rules_Forall {O R} (new : O -> res R) (Q : R -> Prop) os rs :
  (forall o r, o ∈ os -> new o = Ok r -> Q r) ->
  res_mapi (fun i o => sub_rule i (new o)) 0 os = Ok rs -> Forall Q rs.
Proof.
  intros HQ Hm%(sub_rules_Forall2 new (fun _ r => Q r)); [|done]. clear HQ. by induction Hm; constructor.
Qed.

Ltac tree IH Hr Ht Hp :=
  apply andb_true_iff in Ht as [Hne%negb_true_iff%bool_decide_eq_false Ht];
  rewrite Forall_forall in IH; rewrite forallb_elem_of in Ht;
  rewrite is_default_type_spec, typed_default in Hr by done;
  case_bool_decide as Hd; [subst; rewrite decide_True in Hp by done|rewrite decide_False in Hp by done];
  [repeat (case_match; [discriminate|])|case_decide; [|discriminate]; inv_res; repeat (case_match; [discriminate|]); inv_res].

Lemma NewRule_free dialer_New (o : RuleOptions) check r :
  NewRule dialer_New o check = Ok r -> typed_route o = true -> hasRule_one isProcessRule o = false -> free_rule r.
Proof.
  revert r check. induction o as [type d da md rs inv la IH] using RuleOptions_tree_ind; intros r check Hr Ht Hp.
  cbn [NewRule typed_route hasRule_one] in *. tree IH Hr Ht Hp.
  - unfold NewDefaultRule in Hr. inv_res. intros g. eapply with_set_step_free; [by apply route_steps_free|done].
  - apply each_default_logical.
    eapply (sub_rules_Forall (fun o => NewRule dialer_New o false)); [|done].
    intros o r Ho Hor. eapply IH; [done..|by apply Ht|by eapply existsb_false].
Qed.

Lemma NewDNSRule_free {RR} (o : DNSRuleOptions RR) check r :
  NewDNSRule o check = Ok r -> typed_dns o = true -> hasDNSRule_one isProcessDNSRule o = false -> free_rule r.
Proof.
  revert r check. induction o as [type d da md rs inv la IH] using DNSRuleOptions_tree_ind; intros r check Hr Ht Hp.
  cbn [NewDNSRule typed_dns hasDNSRule_one] in *. tree IH Hr Ht Hp.
  - unfold NewDefaultDNSRule in Hr. inv_res. intros g. eapply with_set_step_free; [by apply dns_steps_free|done].
  - apply each_default_logical.
    eapply (sub_rules_Forall (fun o => NewDNSRule o false)); [|done].
    intros o r Ho Hor. eapply IH; [done..|by apply Ht|by eapply existsb_false].
Qed.

Lemma NewHeadlessRule_free nm (o : HeadlessRuleOptions) r :
  NewHeadlessRule nm o = Ok r -> typed o = true -> hasHeadlessRule_one isProcessHeadlessRule o = false ->
  free_headless r.
Proof.
  revert r. induction o as [type d md rs inv IH] using HeadlessRuleOptions_tree_ind; intros r Hr Ht Hp.
  cbn [NewHeadlessRule typed hasHeadlessRule_one] in *. tree IH Hr Ht Hp.
  - unfold NewDefaultHeadlessRule in Hr. inv_res. intros g.
    eapply run_steps_free; [by apply headless_steps_free|done].
  - apply free_headless_logical.
    eapply (sub_rules_Forall (fun o => NewHeadlessRule nm o)); [|done].
    intros o r Ho Hor. eapply IH; [done..|by apply Ht|by eapply existsb_false].
Qed.
End free_trees.

(** ** Rule-sets whose metadata tell the truth *)

Section honest_sets.
Context `{External} (networkManager : bool).
Context (UnmarshalExtended srs_Read : string -> res PlainRuleSetCompat).
(** Both decoders give every rule a type (option/rule_set.go, common/srs/binary.go). *)
Context (Unmarshal_typed : forall content p, UnmarshalExtended content = Ok p -> forallb typed (prs_Rules p) = true).
Context (Read_typed : forall content p, srs_Read content = Ok p -> forallb typed (prs_Rules p) = true).

Definition honest (s : RuleSet) : Prop := ContainsProcessRule (rs_metadata s) = false -> free_set s.

Lemma honest_refs n s : honest (set_refs n s) <-> honest s.
Proof. done. Qed.

Lemma honest_empty s : rs_rules s = [] -> honest s.
Proof. intros Hs _. unfold free_set. rewrite Hs. constructor. Qed.

Lemma reloadRules_honest s l s' called :
  forallb typed l = true -> reloadRules networkManager s l = Ok (s', called) -> honest s'.
Proof.
  unfold reloadRules. intros Ht (rs & Hm & [= <- <-])%res_bind_ok Hp.
  cbn [rs_metadata ContainsProcessRule] in Hp. unfold free_set. cbn [rs_rules].
  rewrite forallb_elem_of in Ht. unfold hasHeadlessRule in Hp.
  apply res_mapi_Forall2 in Hm. induction Hm as [|o r os rs (k & Ho%res_cause_ok) _ IH]; constructor.
  - eapply NewHeadlessRule_free; [done|apply Ht; set_solver|]. eapply existsb_false; [done|set_solver].
  - apply IH; [intros; apply Ht; set_solver|]. simpl in Hp. by apply orb_false_iff in Hp as [_ Hp].
Qed.

Lemma Upgrade_rules p l : Upgrade p = Ok l -> l = prs_Rules p.
Proof. unfold Upgrade. case_match; [by intros [= <-]|discriminate]. Qed.

Lemma loadBytes_honest format content s s' called :
  loadBytes networkManager UnmarshalExtended srs_Read format content s = Ok (s', called) -> honest s'.
Proof.
  unfold loadBytes. intros (p & Hp & (l & ->%Upgrade_rules & Hr)%res_bind_ok)%res_bind_ok.
  eapply reloadRules_honest; [|exact Hr]. repeat case_decide; [by eapply Unmarshal_typed|by eapply Read_typed|done].
Qed.

Lemma NewRuleSet_honest o file watcher x :
  forallb typed (rso_InlineRules o) = true ->
  NewRuleSet networkManager UnmarshalExtended srs_Read o file watcher = Ok x -> honest (any_set x).
Proof.
  unfold NewRuleSet, NewLocalRuleSet, reloadFile. intros Ht Hx.
  case_decide; [|case_decide; [|done]; simplify_eq; by apply honest_empty]. case_decide.
  - case_match; [done|]. apply res_bind_ok in Hx as (s & Hs & [= <-]).
    apply res_bind_ok in Hs as ([s1 called] & Hs & [= <-]). by eapply reloadRules_honest.
  - apply res_bind_ok in Hx as (s & Hs & [= <-]). apply res_bind_ok in Hs as ([s1 called] & Hs & Hw).
    apply res_bind_ok in Hw as (_ & _ & [= <-]).
    apply res_bind_ok in Hs as (p & Hp & (l & ->%Upgrade_rules & Hr)%res_bind_ok).
    eapply reloadRules_honest; [|exact Hr].
    repeat case_decide; [| |done]; apply res_bind_ok in Hp as (content & _ & Hp);
      [by eapply Unmarshal_typed|by eapply Read_typed].
Qed.

Lemma fetch_honest server now saved r err r' called :
  honest (rrs_set r) -> fetch networkManager UnmarshalExtended srs_Read server now saved r = Ok (err, r', called) ->
  honest (rrs_set r').
Proof.
  intros Hr. unfold fetch. destruct (server _) as [e|status text etag body]; [by intros [= <- <- <-]|].
  destruct (status =? StatusOK); [|destruct (status =? StatusNotModified); by intros [= <- <- <-]].
  destruct body as [e|content]; [by intros [= <- <- <-]|].
  destruct (loadBytes _ _ _ _ _ _) as [[s cb]| |] eqn:Hl; [|by intros [= <- <- <-]|done].
  intros [= <- <- <-]. by eapply loadBytes_honest.
Qed.

Lemma StartContext_honest detour cache server now saved r err r' called :
  honest (rrs_set r) ->
  StartContext networkManager UnmarshalExtended srs_Read detour cache server now saved r = Ok (err, r', called) ->
  honest (rrs_set r').
Proof.
  intros Hr. unfold StartContext. destruct (_ && _); [by intros [= <- <- <-]|].
  intros ([[err1 r1] called1] & H1 & H2)%res_bind_ok.
  assert (Hr1 : honest (rrs_set r1)).
  { destruct cache as [[b|]|]; [|by injection H1 as <- <- <-..].
    destruct (loadBytes _ _ _ _ _ _) as [[s cb]| |] eqn:Hl; [|by injection H1 as <- <- <-|done].
    injection H1 as <- <- <-. by eapply loadBytes_honest. }
  destruct err1; [by injection H2 as <- <- <-|]. destruct (IsZero _); [|by injection H2 as <- <- <-].
  apply res_bind_ok in H2 as ([[err2 r2] called2] & Hf & [= <- <- <-]). by eapply fetch_honest.
Qed.

Lemma start_rule_set_honest env x err y :
  honest (any_set x) -> start_rule_set networkManager UnmarshalExtended srs_Read env x = Ok (err, y) ->
  honest (any_set y).
Proof.
  destruct x as [s|r]; cbn [start_rule_set]; intros Hx; [by intros [= <- <-]|].
  intros ([[err1 r1] called] & Hs & [= <- <-])%res_bind_ok. by eapply StartContext_honest.
Qed.

Lemma add_rule_sets_honest file watcher i l r r' :
  Forall (fun o => forallb typed (rso_InlineRules o) = true) l ->
  (forall tag x, ro_ruleSetMap r !! tag = Some x -> honest (any_set x)) ->
  add_rule_sets networkManager UnmarshalExtended srs_Read file watcher i l r = Ok r' ->
  forall tag x, ro_ruleSetMap r' !! tag = Some x -> honest (any_set x).
Proof.
  intros Hl. revert i r. induction Hl as [|o l Ho _ IH]; intros i r Hr; cbn [add_rule_sets]; [by intros [= <-]|].
  case_match; [done|]. intros (x & Hx%res_cause_ok & Ha)%res_bind_ok. eapply IH; [|exact Ha].
  intros tag y. cbn [ro_ruleSetMap with_ruleSets].
  intros [[_ <-]|[_ Hy]]%lookup_insert_Some; [by eapply NewRuleSet_honest|by eapply Hr].
Qed.
End honest_sets.

(** ** Started without a process searcher *)

Section not_needed.
Context `{External} {RR : Type}.
Context (dialer_New : DirectActionOptions -> res unit) (networkManager : bool).
Context (UnmarshalExtended srs_Read : string -> res PlainRuleSetCompat).
Context (Unmarshal_typed : forall content p, UnmarshalExtended content = Ok p -> forallb typed (prs_Rules p) = true).
Context (Read_typed : forall content p, srs_Read content = Ok p -> forallb typed (prs_Rules p) = true).
Context (group_Run : list (option error) -> option error).
Context (group_Run_ok : forall errs, group_Run errs = None -> Forall (eq None) errs).
Context (platform : bool) (searcher : option error).
Context (tun_open tun_run : TunInbound -> option error).

Lemma free_bind {A} (r : Rule A) : free_rule r -> free_rule (bind_rule r).
Proof.
  unfold free_rule. induction r as [r|[rs md inv act] IH] using Rule_tree_ind.
  - intros Hr g. cbn [bind_rule]. specialize (Hr g).
    replace (items_of g (map_rule bind_item r)) with (bind_item <$> items_of g r) by by destruct g.
    apply Forall_fmap. eapply Forall_impl; [exact Hr|]. by intros [].
  - rewrite each_default_logical. intros Hr. cbn [bind_rule]. apply each_default_logical, Forall_fmap.
    rewrite Forall_forall in *. intros r Hin. apply IH; auto.
Qed.

Lemma built_free {O A} (cause : nat -> string) (new : O -> res (Rule A)) (cond : O -> bool) (ok : O -> bool) os rs :
  (forall o r, new o = Ok r -> ok o = true -> cond o = false -> free_rule r) ->
  Forall (fun o => ok o = true) os -> existsb cond os = false ->
  res_mapi (fun i o => res_cause (cause i) (new o)) 0 os = Ok rs -> Forall free_rule rs.
Proof.
  intros Hnew Ht Hp Hm%res_mapi_Forall2.
  induction Hm as [|o r os rs (k & Ho%res_cause_ok) _ IH]; [constructor|].
  apply Forall_cons in Ht as [Ht Hts]. cbn [existsb] in Hp. apply orb_false_iff in Hp as [Hp Hps].
  constructor; [by eapply Hnew|by apply IH].
Qed.

(** Whether the rules of the box are free of process items, and its sets. *)
Lemma needless_box m2 r0 tag x :
  needs_process (with_ruleSets (ro_ruleSets r0) m2 r0) = false -> tag ∈ ro_ruleSets r0 ->
  m2 !! tag = Some x -> ContainsProcessRule (rs_metadata (any_set x)) = false.
Proof.
  unfold needs_process, contains. cbn [ro_needFindProcess with_ruleSets ro_ruleSets ro_ruleSetMap].
  intros [_ Hc]%orb_false_iff Htag Hx. eapply existsb_false in Hc; [|exact Htag]. simpl in Hc. by rewrite Hx in Hc.
Qed.

Lemma take_refs_some l sets tag s :
  sets !! tag = Some s -> exists n, take_refs l sets !! tag = Some (set_refs n s).
Proof.
  revert sets s; induction l as [|t l IH]; intros sets s Hs; [exists (rs_refs s); simpl; rewrite Hs; by destruct s|].
  cbn [take_refs foldl]. destruct (decide (t = tag)) as [->|Hne].
  - destruct (IH (alter IncRef tag sets) (IncRef s)) as [n Hn]; [by rewrite lookup_alter_eq, Hs|].
    exists n. exact Hn.
  - apply IH. by rewrite lookup_alter_ne.
Qed.

Lemma put_table_some l (m : gmap string AnyRuleSet) tag y :
  put_table (take_refs l (any_set <$> m)) m !! tag = Some y ->
  exists n x, m !! tag = Some x /\ y = any_refs n x.
Proof.
  unfold put_table. rewrite map_lookup_imap. destruct (m !! tag) as [x|] eqn:Hx; simpl; [|done].
  destruct (take_refs_some l (any_set <$> m) tag (any_set x)) as [n ->]; [by rewrite lookup_fmap, Hx|].
  intros [= <-]. by exists n, x.
Qed.

Lemma honest_any n x : honest (any_set (any_refs n x)) <-> honest (any_set x).
Proof. by destruct x. Qed.

(** The rule-sets of the started router, when it wants no searcher. *)
Lemma started_sets_free env errs dt tt rt r0 m2 sets3 :
  sets_wf r0 -> (forall tag x, ro_ruleSetMap r0 !! tag = Some x -> honest (any_set x)) ->
  start_rule_sets networkManager UnmarshalExtended srs_Read env 0 (ro_ruleSets r0)
    (put_table (take_refs dt (any_set <$> ro_ruleSetMap r0)) (ro_ruleSetMap r0)) = Ok (errs, m2) ->
  Forall (eq None) errs -> referred tt (any_set <$> m2) sets3 ->
  needs_process (with_ruleSets (ro_ruleSets r0) m2 r0) = false ->
  let m3 := put_table sets3 m2 in
  forall tag s,
    (any_set <$> ((fun x => put_set (Cleanup (any_set x)) x) <$> put_table (take_refs rt (any_set <$> m3)) m3))
      !! tag = Some s -> free_set s.
Proof.
  intros (Hnd & Hdom & _) Hhon Hs He Href Hneed m3 tag s.
  rewrite !lookup_fmap. destruct (put_table _ m3 !! tag) as [z|] eqn:Hz; simpl; [|done]. intros [= <-].
  apply put_table_some in Hz as (n & y3 & Hy3 & ->).
  unfold m3, put_table in Hy3. rewrite map_lookup_imap in Hy3. destruct (m2 !! tag) as [y|] eqn:Hy; [|done].
  specialize (Href tag). rewrite lookup_fmap, Hy in Href. cbn [fmap option_fmap option_map] in Href.
  destruct Href as (s3 & Hs3 & Hr3 & _). rewrite Hs3 in Hy3. injection Hy3 as <-.
  assert (Hfree : free_set (any_set y)).
  { destruct (start_rule_sets_ok _ _ _ _ _ _ _ _ _ Hnd Hs He) as [Hin Hout].
    set (m1 := put_table _ _) in *. destruct (decide (tag ∈ ro_ruleSets r0)) as [Htag|Htag].
    - assert (Hm1 : is_Some (m1 !! tag)) by (apply put_table_known, Hdom, Htag).
      destruct Hm1 as [x1 Hx1]. destruct (Hin tag x1 Htag Hx1) as (y' & Hy' & Hm2).
      rewrite Hy in Hm2. injection Hm2 as <-.
      apply put_table_some in Hx1 as (k & x0 & Hx0 & ->).
      eapply (start_rule_set_honest networkManager UnmarshalExtended srs_Read Unmarshal_typed Read_typed);
        [|exact Hy'|by eapply needless_box].
      apply honest_any. by eapply Hhon.
    - assert (Hm1 : is_Some (m1 !! tag)) by (rewrite <- (Hout tag Htag), Hy; by eexists).
      by apply put_table_known, Hdom in Hm1. }
  assert (Hfree3 : free_set s3) by (unfold free_set in *; by rewrite Hr3).
  destruct y; simpl in *; unfold Cleanup; case_match; try done; constructor.
Qed.

(** C30 (without a process searcher no rule looks at the process): when every
    component started without error and the router made no process searcher
    although it could have, the answer of every route rule and of every DNS rule
    in both of its phases is the same whatever process is put in the context, and
    the context it leaves differs only in that process. *)
Theorem process_not_needed rules ruleSets FindProcess (dnsRules : list (DNSRuleOptions RR)) dns0 file watcher
    r0 redirect tun_options tuns other env b :
  Forall (fun o => typed_route o = true) rules -> Forall (fun o => typed_dns o = true) dnsRules ->
  Forall (fun o => forallb typed (rso_InlineRules o) = true) ruleSets ->
  Router_Initialize dialer_New networkManager UnmarshalExtended srs_Read rules ruleSets file watcher
    (NewRouter rules FindProcess dnsRules) = Ok r0 ->
  res_mapi (fun i o => res_cause ("parse dns rule[" +:+ go_itoa (Z.of_nat i) +:+ "]") (NewDNSRule o true))
    0 dnsRules = Ok dns0 ->
  Forall2 (fun o t => exists callback, NewTunInbound redirect callback r0 o = Ok t) tun_options tuns ->
  Box_run networkManager UnmarshalExtended srs_Read group_Run platform searcher tun_open tun_run other env start
    {| bx_dnsRules := dns0; bx_router := r0; bx_tuns := tuns |} = Ok (None, b) ->
  ro_processSearcher (bx_router b) = false -> platform = true \/ searcher = None ->
  let sets := Router_table (bx_router b) in
  forall h m p,
    (forall r, r ∈ ro_rules (bx_router b) ->
       Rule_Match h sets r (with_ProcessInfo p m) =
         ((Rule_Match h sets r m).1, with_ProcessInfo p (Rule_Match h sets r m).2)) /\
    (forall r, r ∈ bx_dnsRules b ->
       DNSRule_Match h sets r (with_ProcessInfo p m) =
         ((DNSRule_Match h sets r m).1, with_ProcessInfo p (DNSRule_Match h sets r m).2) /\
       DNSRule_MatchAddressLimit h sets r (with_ProcessInfo p m) =
         ((DNSRule_MatchAddressLimit h sets r m).1,
          with_ProcessInfo p (DNSRule_MatchAddressLimit h sets r m).2)).
Proof.
  intros Htr Htd Hti Hinit Hdns Htuns Hb Hps Hcan. pose proof Hinit as Hinit0.
  apply Initialize_ok in Hinit as (Hwf & _ & _ & Hrs & Hneed & Hps0).
  destruct (built_rules_shape _ (fun o => NewDNSRule o true) dns_tags dnsRules dns0
              (fun o r => NewDNSRule_shape o true r) Hdns) as [_ Hds].
  apply Box_run_started in Hb as (errs & m2 & sets3 & Hs & He & Href & _ & _ & Hd' & Hr' & Hmap & Hsearch);
    [|done..|by eapply built_tuns_known].
  rewrite Hps in Hsearch.
  assert (Hno : needs_process (with_ruleSets (ro_ruleSets r0) m2 r0) = false).
  { destruct (needs_process _); [|done]. by destruct Hcan as [Hc|Hc], platform; rewrite ?Hc in Hsearch. }
  assert (Hno' := Hno). unfold needs_process in Hno'. cbn [ro_needFindProcess with_ruleSets] in Hno'.
  rewrite Hneed, !orb_false_iff in Hno'. destruct Hno' as [[[Hp1 Hp2] _] _].
  apply Initialize_rules in Hinit0 as [Hm Ha].
  intros sets h m p. assert (Hsets : forall tag s, sets !! tag = Some s -> free_set s).
  { subst sets. unfold Router_table. rewrite Hmap. eapply started_sets_free; [exact Hwf| |exact Hs|done|exact Href|done].
    eapply (add_rule_sets_honest networkManager UnmarshalExtended srs_Read Unmarshal_typed Read_typed);
      [exact Hti| |exact Ha].
    intros t x. cbn [ro_ruleSetMap with_rules NewRouter]. by rewrite lookup_empty. }
  assert (Hrf : Forall free_rule (ro_rules r0)).
  { eapply (built_free _ (fun o => NewRule dialer_New o false)); [|exact Htr|exact Hp1|exact Hm].
    intros. by eapply NewRule_free. }
  assert (Hdf : Forall free_rule dns0).
  { eapply (built_free _ (fun o => NewDNSRule o true)); [|exact Htd|exact Hp2|exact Hdns].
    intros. by eapply NewDNSRule_free. }
  rewrite Forall_forall in Hrf. rewrite Forall_forall in Hdf. rewrite Hr', Hd'.
  split; intros r (r1 & -> & Hr1)%list_elem_of_fmap.
  - by apply Rule_Match_commutes, free_bind, Hrf.
  - by split; [apply DNSRule_Match_commutes|apply MatchAddressLimit_commutes]; try apply free_bind, Hdf.
Qed.
End not_needed.

(** ** Witness *)

Section process_witness.
#[local] Existing Instance concrete_external.

Lemma example_decode_typed content p : example_decode content = Ok p -> forallb typed (prs_Rules p) = true.
Proof. unfold example_decode. case_decide; [|discriminate]. by intros [= <-]. Qed.

Definition a_process : ProcessInfo :=
  {| ProcessID := 1; ProcessPath := "/usr/bin/curl"; PackageName := ""; UserName := "root"; UserId := 0 |}.

Lemma process_not_needed_witness :
  length (ro_rules (bx_router example_box)) = 1%nat /\
  Forall (fun r =>
    Rule_Match example_host (Router_table (bx_router example_box)) r
      (with_ProcessInfo (Some a_process) InboundContextZero) =
    ((Rule_Match example_host (Router_table (bx_router example_box)) r InboundContextZero).1,
     with_ProcessInfo (Some a_process)
       (Rule_Match example_host (Router_table (bx_router example_box)) r InboundContextZero).2))
    (ro_rules (bx_router example_box)).
Proof.
  split; [reflexivity|]. apply Forall_forall.
  refine (proj1 (process_not_needed (RR := string) (fun _ => Ok tt) true example_decode example_decode
    example_decode_typed example_decode_typed run_all run_all_ok false None (fun _ => None) (fun _ => None) [example_named]
    [example_inline "geo"; example_inline "by_tun"; example_inline "unused"] false [] []
    no_file no_watcher example_router0 (Ok tt) [example_tun] example_tuns (fun _ _ => None) (fun _ => example_env) example_box
    _ _ _ _ _ _ _ _ _ example_host InboundContextZero (Some a_process))).
  - repeat constructor.
  - constructor.
  - repeat constructor.
  - apply built_ok. vm_compute. reflexivity.
  - reflexivity.
  - constructor; [|constructor]. exists 0%nat. apply built_ok. vm_compute. reflexivity.
  - exact example_run_ok.
  - vm_compute. reflexivity.
  - right. reflexivity.
Defined.
End process_witness.
