(* ===== verification/TlsFragment.v ===== *)
(** * common/tlsfragment: splitting the first TLS record of a connection

    The search for the server name in a ClientHello (index.go) and the connection
    that writes the first packet in pieces, as TLS records or as packets of their
    own (conn.go).  The theorems: what is found is where it is said to be and is
    the name of an encoded ClientHello; whatever the pieces, the peer reassembles
    what was written. *)

From stdpp Require Import base list strings sets.
From Stdlib Require Import ZArith Lia.
From S2P Require Import Prelude GoStd ByteReader.

Open Scope Z_scope.
Open Scope box_scope.

Definition zlen (l : list Z) : Z := Z.of_nat (length l).
(** [l[i]] where the code has checked the length, [l[i:]] and [l[:i]] *)
Definition at_ (l : list Z) (i : Z) : Z := default 0 (l !! Z.to_nat i).
Definition from (i : Z) (l : list Z) : list Z := drop (Z.to_nat i) l.
Definition upto (i : Z) (l : list Z) : list Z := take (Z.to_nat i) l.
Definition be16 (l : list Z) (i : Z) : Z := Z.lor (Z.shiftl (at_ l i) 8) (at_ l (i + 1)).

(** ** Finding the server name (index.go) *)

Definition recordLayerHeaderLen : Z := 5.
Definition handshakeHeaderLen : Z := 6.
Definition randomDataLen : Z := 32.
Definition sessionIDHeaderLen : Z := 1.
Definition cipherSuiteHeaderLen : Z := 2.
Definition compressMethodHeaderLen : Z := 1.
Definition extensionsHeaderLen : Z := 2.
Definition extensionHeaderLen : Z := 4.
Definition sniExtensionHeaderLen : Z := 5.
Definition contentType : Z := 22.
Definition handshakeType : Z := 1.
Definition sniExtensionType : Z := 0.
Definition sniNameDNSHostnameType : Z := 0.
Definition tlsVersionBitmask : Z := 0xFFFC.
Definition tls13 : Z := 0x0304.

Record MyServerName : Type := { sn_Index : Z; sn_Length : Z; sn_ServerName : list Z }.
Definition shift_name (n : Z) (s : MyServerName) : MyServerName :=
  {| sn_Index := sn_Index s + n; sn_Length := sn_Length s; sn_ServerName := sn_ServerName s |}.

(** The loop over the extensions; the step to the next one is computed in 16
    bits.  [None]: it does not end within the fuel. *)
Fixpoint extensions_loop (fuel : nat) (currentIndex : Z) (exs : list Z) : option (option MyServerName) :=
  match fuel with
  | O => None
  | S fuel =>
      if zlen exs =? 0 then Some None
      else if zlen exs <? extensionHeaderLen then Some None
      else
        let exType := be16 exs 0 in
        let exLen := be16 exs 2 in
        if zlen exs <? extensionHeaderLen + exLen then Some None
        else
          let sex := upto exLen (from extensionHeaderLen exs) in
          if exType =? sniExtensionType then
            if zlen sex <? sniExtensionHeaderLen then Some None
            else if negb (at_ sex 2 =? sniNameDNSHostnameType) then Some None
            else Some (Some {| sn_Index := currentIndex + extensionHeaderLen + sniExtensionHeaderLen;
                               sn_Length := be16 sex 3;
                               sn_ServerName := from sniExtensionHeaderLen sex |})
          else extensions_loop fuel (currentIndex + (4 + exLen)) (from ((4 + exLen) mod 2 ^ 16) exs)
  end.

Definition indexTLSServerNameFromExtensions (exs : list Z) : option (option MyServerName) :=
  if zlen exs =? 0 then Some None
  else if zlen exs <? extensionsHeaderLen then Some None
  else
    let exsLen := be16 exs 0 in
    let exs := from extensionsHeaderLen exs in
    if zlen exs <? exsLen then Some None
    else extensions_loop (S (length exs)) extensionsHeaderLen exs.

Definition indexTLSServerNameFromHandshake (handshake : list Z) : option (option MyServerName) :=
  if zlen handshake <? handshakeHeaderLen + randomDataLen + sessionIDHeaderLen then Some None
  else if negb (at_ handshake 0 =? handshakeType) then Some None
  else
    let handshakeLen := Z.lor (Z.lor (Z.shiftl (at_ handshake 1) 16) (Z.shiftl (at_ handshake 2) 8)) (at_ handshake 3) in
    if negb (zlen (from 4 handshake) =? handshakeLen) then Some None
    else
      let tlsVersion := be16 handshake 4 in
      if negb (Z.land tlsVersion tlsVersionBitmask =? 0x0300) && negb (tlsVersion =? tls13) then Some None
      else
        let sessionIDLen := at_ handshake 38 in
        let currentIndex := handshakeHeaderLen + randomDataLen + sessionIDHeaderLen + sessionIDLen in
        if zlen handshake <? currentIndex then Some None
        else
          let cipherSuites := from currentIndex handshake in
          if zlen cipherSuites <? cipherSuiteHeaderLen then Some None
          else
            let csLen := be16 cipherSuites 0 in
            if zlen cipherSuites <? cipherSuiteHeaderLen + csLen + compressMethodHeaderLen then Some None
            else
              let compressMethodLen := at_ cipherSuites (cipherSuiteHeaderLen + csLen) in
              let currentIndex := currentIndex +
                (cipherSuiteHeaderLen + csLen + compressMethodHeaderLen + compressMethodLen) in
              if zlen handshake <? currentIndex then Some None
              else
                match indexTLSServerNameFromExtensions (from currentIndex handshake) with
                | Some (Some serverName) => Some (Some (shift_name currentIndex serverName))
                | r => r
                end.

Definition IndexTLSServerName (payload : list Z) : option (option MyServerName) :=
  if (zlen payload <? recordLayerHeaderLen) || negb (at_ payload 0 =? contentType) then Some None
  else
    let segmentLen := be16 payload 3 in
    if zlen payload <? recordLayerHeaderLen + segmentLen then Some None
    else
      match indexTLSServerNameFromHandshake (from recordLayerHeaderLen payload) with
      | Some (Some serverName) => Some (Some (shift_name recordLayerHeaderLen serverName))
      | r => r
      end.

(** ** The connection (conn.go) *)

Record Conn : Type := {
  (** the connection under the wrappers is a [*net.TCPConn] *)
  co_tcpConn : bool;
  co_firstPacketWritten : bool;
  co_splitPacket : bool;
  co_splitRecord : bool
}.

Definition NewConn (tcpConn splitPacket splitRecord : bool) : Conn :=
  {| co_tcpConn := tcpConn; co_firstPacketWritten := false; co_splitPacket := splitPacket;
     co_splitRecord := splitRecord |}.

(** What [Write] does to the connections under it. *)
Inductive op : Type :=
  | SetNoDelay (on : bool)
  (** [writeAndWaitAck] on the TCP connection *)
  | WriteAndWaitAck (payload : list Z)
  | ConnWrite (payload : list Z)
  | Sleep.

Definition dot : Z := 46.
(** [strings.Split(s, ".")], [strings.Count(s, ".")] *)
Fixpoint split_dots (s : list Z) : list (list Z) :=
  match s with
  | [] => [[]]
  | c :: s =>
      match split_dots s with
      | first :: rest => if c =? dot then [] :: first :: rest else (c :: first) :: rest
      | [] => [[c]]
      end
  end.
Definition count_dots (s : list Z) : nat := length (List.filter (fun c => c =? dot) s).

(** [l[a:b]] *)
Definition go_slice (l : list Z) (a b : Z) : res (list Z) :=
  if (0 <=? a) && (a <=? b) && (b <=? zlen l) then Ok (upto (b - a) (from a l))
  else Panic "slice bounds out of range".

Section write.
(** [publicsuffix.List.PublicSuffix]; [rand.Intn] at its nth call; the result
    of an operation after others. *)
Context (PublicSuffix : list Z -> list Z).
Context (rand_Intn : nat -> Z -> Z).
Context (try : list op -> op -> Z * option error).

(** The loop that picks the places to split at. *)
Fixpoint split_indexes (k : nat) (currentIndex : Z) (splits : list (list Z)) : res (list Z) :=
  match splits with
  | [] => Ok []
  | split :: splits =>
      if zlen split =? 0 then Panic "invalid argument to Intn"
      else
        let splitAt := rand_Intn k (zlen split) in
        let* l := split_indexes (S k)
          (currentIndex + zlen split + (match splits with [] => 0 | _ => 1 end)) splits in
        Ok (currentIndex + splitAt :: l)
  end.

Definition ellipsis : list Z := [dot; dot; dot].

(** The labels that are split, with the index of the first. *)
Definition labels (serverName : MyServerName) : list (list Z) * Z :=
  let name := sn_ServerName serverName in
  let splits := split_dots name in
  let splits := if bool_decide (PublicSuffix name = []) then splits
                else take (length splits - count_dots name) splits in
  match splits with
  | first :: (_ :: _) as rest =>
      if bool_decide (first = ellipsis) then (rest, sn_Index serverName + (zlen first + 1))
      else (splits, sn_Index serverName)
  | _ => (splits, sn_Index serverName)
  end.

(** The bytes of piece [i]. *)
Definition piece (splitRecord : bool) (b : list Z) (splitIndexes : list Z) (i : nat) : res (list Z) :=
  let index i := default 0 (splitIndexes !! i) in
  if (i =? 0)%nat then
    let* payload := go_slice b 0 (index 0%nat) in
    if splitRecord then go_slice payload recordLayerHeaderLen (zlen payload) else Ok payload
  else if (i =? length splitIndexes)%nat then go_slice b (index (i - 1)%nat) (zlen b)
  else go_slice b (index (i - 1)%nat) (index i).

(** [buffer] as a TLS record of its own *)
Definition as_record (b payload : list Z) : list Z :=
  upto 3 b ++ be_bytes 2 (zlen payload mod 2 ^ 16) ++ payload.

Definition perform (log : list op) (o : op) : option error * list op := ((try log o).2, log ++ [o]).

(** One packet sent by itself. *)
Definition send_packet (c : Conn) (last : bool) (payload : list Z) (log : list op) : option error * list op :=
  if co_tcpConn c && negb last then perform log (WriteAndWaitAck payload)
  else
    let '(err, log) := perform log (ConnWrite payload) in
    match err with
    | Some e => (Some e, log)
    | None => if last then (None, log) else (None, (perform log Sleep).2)
    end.

(** The loop over the pieces; [buffer] collects the records of one packet. *)
Fixpoint send_pieces (c : Conn) (b : list Z) (splitIndexes : list Z) (todo : list nat) (buffer : list Z)
    (log : list op) : res (option error * list Z * list op) :=
  match todo with
  | [] => Ok (None, buffer, log)
  | i :: todo =>
      let* payload := piece (co_splitRecord c) b splitIndexes i in
      let '(payload, buffer) :=
        if co_splitRecord c then
          let buffer := if co_splitPacket c then [] else buffer in
          let buffer := buffer ++ as_record b payload in
          (if co_splitPacket c then buffer else payload, buffer)
        else (payload, buffer) in
      if co_splitPacket c then
        let '(err, log) := send_packet c (i =? length splitIndexes)%nat payload log in
        match err with
        | Some e => Ok (Some e, buffer, log)
        | None => send_pieces c b splitIndexes todo buffer log
        end
      else send_pieces c b splitIndexes todo buffer log
  end.

(** The first packet, with a server name in it. *)
Definition write_split (c : Conn) (b : list Z) (serverName : MyServerName) : res (Z * option error * list op) :=
  let '(err, log) := if co_splitPacket c && co_tcpConn c then perform [] (SetNoDelay true) else (None, []) in
  match err with
  | Some e => Ok (0, Some e, log)
  | None =>
      let '(splits, currentIndex) := labels serverName in
      let* splitIndexes := split_indexes 0 currentIndex splits in
      let* '(err, buffer, log) :=
        send_pieces c b splitIndexes (seq 0 (S (length splitIndexes))) [] log in
      match err with
      | Some e => Ok (0, Some e, log)
      | None =>
          let '(err, log) := if co_splitRecord c && negb (co_splitPacket c)
                             then perform log (ConnWrite buffer) else (None, log) in
          match err with
          | Some e => Ok (0, Some e, log)
          | None =>
              let '(err, log) := if co_tcpConn c then perform log (SetNoDelay false) else (None, log) in
              match err with
              | Some e => Ok (0, Some e, log)
              | None => Ok (zlen b, None, log)
              end
          end
      end
  end.

(** [Conn.Write]: [None] when the search for the name does not end. *)
Definition Conn_Write (c : Conn) (b : list Z) : option (res (Z * option error * list op) * Conn) :=
  let pass c := (Ok ((try [] (ConnWrite b)).1, (try [] (ConnWrite b)).2, [ConnWrite b]), c) in
  if co_firstPacketWritten c then Some (pass c)
  else
    let written := {| co_tcpConn := co_tcpConn c; co_firstPacketWritten := true;
                      co_splitPacket := co_splitPacket c; co_splitRecord := co_splitRecord c |} in
    match IndexTLSServerName b with
    | None => None
    | Some None => Some (pass written)
    | Some (Some serverName) => Some (write_split c b serverName, written)
    end.

(** [WriterReplaceable] *)
Definition WriterReplaceable (c : Conn) : bool := co_firstPacketWritten c.
End write.

(** ** Positions *)

Lemma zlen_nonneg l : 0 <= zlen l.
Proof. unfold zlen. lia. Qed.
Lemma zlen_app l k : zlen (l ++ k) = zlen l + zlen k.
Proof. unfold zlen. rewrite length_app. lia. Qed.
Lemma zlen_cons x l : zlen (x :: l) = 1 + zlen l.
Proof. unfold zlen. simpl. lia. Qed.
Lemma zlen_from i l : 0 <= i <= zlen l -> zlen (from i l) = zlen l - i.
Proof. unfold zlen, from. rewrite length_drop. lia. Qed.
Lemma zlen_upto i l : 0 <= i <= zlen l -> zlen (upto i l) = i.
Proof. unfold zlen, upto. rewrite length_take. lia. Qed.
Lemma zlen_be n x : zlen (be_bytes n x) = Z.of_nat n.
Proof. unfold zlen. by rewrite length_be_bytes. Qed.

Lemma from_app i l k : zlen l = i -> from i (l ++ k) = k.
Proof. unfold zlen, from. intros <-. by rewrite Nat2Z.id, drop_app_length. Qed.
Lemma upto_app i l k : zlen l = i -> upto i (l ++ k) = l.
Proof. unfold zlen, upto. intros <-. by rewrite Nat2Z.id, take_app_length. Qed.
Lemma at_app i l x k : zlen l = i -> at_ (l ++ x :: k) i = x.
Proof. unfold zlen, at_. intros <-. by rewrite Nat2Z.id, list_lookup_middle. Qed.
Lemma from_from i j l : 0 <= i -> 0 <= j -> from i (from j l) = from (j + i) l.
Proof. unfold from. intros ??. rewrite drop_drop. f_equal. lia. Qed.
Lemma upto_from i l : upto i l ++ from i l = l.
Proof. apply take_drop. Qed.
Lemma from_0 l : from 0 l = l.
Proof. done. Qed.

(** A part of a list behind others. *)
Lemma from_app_more i l k : 0 <= i -> from (zlen l + i) (l ++ k) = from i k.
Proof.
  intros Hi. pose proof (zlen_nonneg l). rewrite <- (from_from i (zlen l)) by lia. by rewrite from_app.
Qed.
Lemma upto_app_le i l k : 0 <= i <= zlen l -> upto i (l ++ k) = upto i l.
Proof. unfold upto, zlen. intros Hi. apply take_app_le. lia. Qed.

Lemma at_byte l i : Forall is_byte l -> 0 <= at_ l i < 256.
Proof.
  intros Hl. unfold at_. destruct (l !! Z.to_nat i) eqn:Hi; simpl; [|lia].
  by eapply Forall_lookup_1 in Hl; [|exact Hi].
Qed.

Lemma be16_value l i : Forall is_byte l -> be16 l i = at_ l i * 256 + at_ l (i + 1).
Proof.
  intros Hl. unfold be16. pose proof (at_byte l i Hl). pose proof (at_byte l (i + 1) Hl).
  rewrite Z.lor_comm, lor_shiftl by lia. lia.
Qed.
Lemma be16_range l i : Forall is_byte l -> 0 <= be16 l i < 2 ^ 16.
Proof.
  intros Hl. rewrite be16_value by done. pose proof (at_byte l i Hl). pose proof (at_byte l (i + 1) Hl). lia.
Qed.

Lemma from_bytes i l : Forall is_byte l -> Forall is_byte (from i l).
Proof. apply Forall_drop. Qed.
Lemma upto_bytes i l : Forall is_byte l -> Forall is_byte (upto i l).
Proof. apply Forall_take. Qed.
#[local] Hint Resolve from_bytes upto_bytes zlen_nonneg : core.

(** ** The name is where the search says *)

(** [name] stands at [i] in [l]. *)
Definition stands_at (l : list Z) (i : Z) (name : list Z) : Prop :=
  0 <= i /\ i + zlen name <= zlen l /\ upto (zlen name) (from i l) = name.

Lemma stands_at_app pre l i name : stands_at l i name -> stands_at (pre ++ l) (zlen pre + i) name.
Proof.
  intros (H0 & Hle & Hn). pose proof (zlen_nonneg pre). split_and!; [lia|rewrite zlen_app; lia|].
  by rewrite from_app_more.
Qed.

Lemma stands_at_from k l i name : 0 <= k <= zlen l -> stands_at (from k l) i name -> stands_at l (k + i) name.
Proof.
  intros Hk Hn%(stands_at_app (upto k l)). by rewrite upto_from, zlen_upto in Hn.
Qed.

Definition found_in (l : list Z) (i : Z) (r : option MyServerName) : Prop :=
  forall sn, r = Some sn -> i <= sn_Index sn /\ stands_at l (sn_Index sn) (sn_ServerName sn).

Lemma extensions_loop_found fuel pre exs :
  Forall is_byte exs -> zlen exs < 2 ^ 16 -> (length exs < fuel)%nat ->
  exists r, extensions_loop fuel (zlen pre) exs = Some r /\ found_in (pre ++ exs) (zlen pre) r.
Proof.
  revert pre exs. induction fuel as [|fuel IH]; intros pre exs Hb Hlen Hf; [lia|]. cbn [extensions_loop].
  pose proof (be16_range exs 2 Hb) as Hex. unfold extensionHeaderLen, sniExtensionHeaderLen.
  assert (Hnone : exists r, Some None = Some r /\ found_in (pre ++ exs) (zlen pre) r) by (by exists None).
  destruct (zlen exs =? 0) eqn:H1; [done|]. destruct (zlen exs <? 4) eqn:H2; [done|].
  destruct (zlen exs <? 4 + be16 exs 2) eqn:H3; [done|].
  set (sex := upto (be16 exs 2) (from 4 exs)).
  destruct (be16 exs 0 =? sniExtensionType).
  - destruct (zlen sex <? 5) eqn:H4; [done|]. destruct (negb _); [done|].
    eexists. split; [reflexivity|]. intros sn [= <-]. cbn [sn_Index sn_ServerName].
    split; [lia|]. replace (zlen pre + 4 + 5) with (zlen pre + 9) by lia. apply stands_at_app.
    assert (Hsex : zlen sex = be16 exs 2) by (apply zlen_upto; rewrite zlen_from; lia).
    assert (Hname : zlen (from 5 sex) = be16 exs 2 - 5) by (rewrite zlen_from; lia).
    split_and!; [lia|lia|]. rewrite Hname. subst sex. rewrite <- (from_from 5 4) by lia.
    unfold upto, from. rewrite skipn_firstn_comm. f_equal; lia.
  - rewrite Z.mod_small by lia.
    destruct (IH (pre ++ upto (4 + be16 exs 2) exs) (from (4 + be16 exs 2) exs)) as (r & Hr & Hfound).
    + by apply from_bytes.
    + rewrite zlen_from; lia.
    + unfold from. rewrite length_drop. unfold zlen in *. lia.
    + rewrite zlen_app, zlen_upto in Hr by lia. exists r. split; [exact Hr|].
      rewrite <- app_assoc, upto_from, zlen_app, zlen_upto in Hfound by lia.
      intros sn Hsn. destruct (Hfound sn Hsn). split; [lia|done].
Qed.

(** A search further inside, shifted back. *)
Lemma found_shift l i r :
  0 <= i <= zlen l -> found_in (from i l) 0 r -> found_in l i (shift_name i <$> r).
Proof.
  intros Hi Hr sn. destruct r as [sn'|]; simpl; [|done]. intros [= <-]. destruct (Hr sn') as [H0 Hs]; [done|].
  cbn [shift_name sn_Index sn_ServerName]. split; [lia|]. rewrite Z.add_comm. by apply stands_at_from.
Qed.

Lemma found_weaken l i r : 0 <= i -> found_in l i r -> found_in l 0 r.
Proof. intros Hi Hr sn Hsn. destruct (Hr sn Hsn). split; [lia|done]. Qed.

Lemma extensions_found l :
  Forall is_byte l -> zlen l < 2 ^ 16 ->
  exists r, indexTLSServerNameFromExtensions l = Some r /\ found_in l 0 r.
Proof.
  intros Hb Hlen. unfold indexTLSServerNameFromExtensions, extensionsHeaderLen.
  destruct (zlen l =? 0); [by exists None|]. destruct (zlen l <? 2) eqn:H2; [by exists None|].
  case_match; [by exists None|].
  destruct (extensions_loop_found (S (length (from 2 l))) (upto 2 l) (from 2 l)) as (r & Hr & Hf);
    [auto|rewrite zlen_from; lia|lia|].
  rewrite zlen_upto in Hr, Hf by lia. rewrite upto_from in Hf.
  exists r. split; [exact Hr|]. by eapply found_weaken; [|exact Hf].
Qed.

Lemma shift_result (k : Z) (r : option MyServerName) :
  match Some r with Some (Some s) => Some (Some (shift_name k s)) | x => x end = Some (shift_name k <$> r).
Proof. by destruct r. Qed.

Lemma handshake_found l :
  Forall is_byte l -> zlen l < 2 ^ 16 ->
  exists r, indexTLSServerNameFromHandshake l = Some r /\ found_in l 0 r.
Proof.
  intros Hb Hlen. unfold indexTLSServerNameFromHandshake, handshakeHeaderLen, randomDataLen, sessionIDHeaderLen,
    cipherSuiteHeaderLen, compressMethodHeaderLen.
  assert (Hnone : exists r, Some None = Some r /\ found_in l 0 r) by (by exists None).
  destruct (zlen l <? 6 + 32 + 1) eqn:H1; [done|]. do 3 (case_match; [done|]). pose proof (at_byte l 38 Hb) as Hsid.
  set (k1 := 6 + 32 + 1 + at_ l 38) in *. destruct (zlen l <? k1) eqn:Hk1; [done|].
  set (cs := from k1 l) in *. case_match; [done|].
  assert (Hcs : Forall is_byte cs) by (subst cs; auto).
  pose proof (be16_range cs 0 Hcs). case_match; [done|].
  pose proof (at_byte cs (2 + be16 cs 0) Hcs).
  set (k2 := k1 + _) in *. destruct (zlen l <? k2) eqn:Hk2; [done|].
  assert (0 <= k2) by (subst k2 k1; lia).
  destruct (extensions_found (from k2 l)) as (r & Hr & Hf); [auto|rewrite zlen_from; lia|].
  rewrite Hr, shift_result. eexists. split; [reflexivity|].
  apply (found_weaken _ k2); [lia|]. apply found_shift; [lia|done].
Qed.

Lemma index_found payload :
  Forall is_byte payload -> zlen payload < 2 ^ 16 ->
  exists r, IndexTLSServerName payload = Some r /\ found_in payload 5 r.
Proof.
  intros Hb Hlen. unfold IndexTLSServerName, recordLayerHeaderLen.
  destruct (zlen payload <? 5) eqn:H1; [by exists None|]. cbn [orb]. case_match; [by exists None|]. case_match; [by exists None|].
  destruct (handshake_found (from 5 payload)) as (r & Hr & Hf); [auto|rewrite zlen_from; lia|].
  rewrite Hr, shift_result. eexists. split; [reflexivity|]. apply found_shift; [lia|done].
Qed.

(** C22 (the server name is where the search says): for the first packet of a
    connection, shorter than 64 KiB, the search ends, and when it returns a name
    with an index the bytes of the packet from that index on are that name. *)
Theorem index_in_place payload :
  Forall is_byte payload -> zlen payload < 2 ^ 16 ->
  exists r, IndexTLSServerName payload = Some r /\
    forall sn, r = Some sn -> stands_at payload (sn_Index sn) (sn_ServerName sn).
Proof.
  intros Hb Hlen. destruct (index_found payload Hb Hlen) as (r & Hr & Hf). exists r. split; [done|].
  intros sn Hsn. by apply Hf.
Qed.

(** ** An encoded ClientHello (RFC 8446, RFC 6066) *)

Record extension : Type := { ex_type : Z; ex_data : list Z }.

Record ClientHello : Type := {
  ch_version : Z;
  ch_random : list Z;
  ch_session : list Z;
  ch_ciphers : list Z;
  ch_compression : list Z;
  ch_extensions : list extension
}.

Definition encode_extension (e : extension) : list Z :=
  be_bytes 2 (ex_type e) ++ be_bytes 2 (zlen (ex_data e)) ++ ex_data e.
Definition encode_extensions (es : list extension) : list Z := concat (map encode_extension es).

Definition hello_start (h : ClientHello) : list Z :=
  be_bytes 2 (ch_version h) ++ ch_random h ++ [zlen (ch_session h)] ++ ch_session h.
Definition encode_hello (h : ClientHello) : list Z :=
  hello_start h ++ be_bytes 2 (zlen (ch_ciphers h)) ++ ch_ciphers h ++
  [zlen (ch_compression h)] ++ ch_compression h ++
  be_bytes 2 (zlen (encode_extensions (ch_extensions h))) ++ encode_extensions (ch_extensions h).
Definition encode_handshake (h : ClientHello) : list Z :=
  [handshakeType] ++ be_bytes 3 (zlen (encode_hello h)) ++ encode_hello h.
(** One record of [version]. *)
Definition encode_record (version : Z) (h : ClientHello) : list Z :=
  [contentType] ++ be_bytes 2 version ++ be_bytes 2 (zlen (encode_handshake h)) ++ encode_handshake h.

(** The [server_name] extension with one host name. *)
Definition server_name_extension (name : list Z) : extension :=
  {| ex_type := 0; ex_data := be_bytes 2 (3 + zlen name) ++ [0] ++ be_bytes 2 (zlen name) ++ name |}.

Definition extension_ok (e : extension) : Prop := 0 <= ex_type e < 2 ^ 16 /\ zlen (ex_data e) < 2 ^ 16.
Definition hello_ok (h : ClientHello) : Prop :=
  (ch_version h = tls13 \/ Z.land (ch_version h) tlsVersionBitmask = 0x0300) /\ 0 <= ch_version h < 2 ^ 16 /\
  zlen (ch_random h) = 32 /\ zlen (ch_session h) < 256 /\ zlen (ch_ciphers h) < 2 ^ 16 /\
  zlen (ch_compression h) < 256 /\ Forall extension_ok (ch_extensions h).

Lemma be16_app pre x l i : 0 <= x < 2 ^ 16 -> zlen pre = i -> be16 (pre ++ be_bytes 2 x ++ l) i = x.
Proof.
  intros Hx Hi. unfold be16. cbn [be_bytes app].
  rewrite (at_app i pre _ _ Hi).
  replace (pre ++ x / 256 ^ Z.of_nat 1 mod 256 :: x / 256 ^ Z.of_nat 0 mod 256 :: l)
    with ((pre ++ [x / 256 ^ Z.of_nat 1 mod 256]) ++ x / 256 ^ Z.of_nat 0 mod 256 :: l) by (by rewrite <- app_assoc).
  rewrite (at_app (i + 1)) by (rewrite zlen_app, Hi; done).
  change (256 ^ Z.of_nat 1) with 256. change (256 ^ Z.of_nat 0) with 1.
  rewrite Z.div_1_r. assert (0 <= x / 256 < 256) by (split; [apply Z.div_pos|apply Z.div_lt_upper_bound]; lia).
  rewrite (Z.mod_small (x / 256)) by lia.
  pose proof (Z.mod_pos_bound x 256 ltac:(lia)).
  rewrite Z.lor_comm, lor_shiftl by lia. pose proof (Z.div_mod x 256 ltac:(lia)). lia.
Qed.

Lemma zlen_extension e : zlen (encode_extension e) = 4 + zlen (ex_data e).
Proof. unfold encode_extension. rewrite !zlen_app, !zlen_be. lia. Qed.

Lemma extension_fields e l :
  extension_ok e ->
  be16 (encode_extension e ++ l) 0 = ex_type e /\ be16 (encode_extension e ++ l) 2 = zlen (ex_data e) /\
  from 4 (encode_extension e ++ l) = ex_data e ++ l.
Proof.
  intros [Ht Hd]. unfold encode_extension. pose proof (zlen_nonneg (ex_data e)). rewrite <- !app_assoc. split_and!.
  - by apply (be16_app []).
  - apply be16_app; [lia|by rewrite zlen_be].
  - rewrite (app_assoc (be_bytes 2 _)). apply from_app. rewrite zlen_app, !zlen_be. done.
Qed.

Lemma loop_skip fuel i e l :
  extension_ok e -> ex_type e <> 0 -> zlen (encode_extension e) < 2 ^ 16 ->
  extensions_loop (S fuel) i (encode_extension e ++ l) =
  extensions_loop fuel (i + zlen (encode_extension e)) l.
Proof.
  intros He Ht Hlen. destruct (extension_fields e l He) as (H1 & H2 & H3).
  rewrite zlen_extension in Hlen. pose proof (zlen_nonneg (ex_data e)). pose proof (zlen_nonneg l).
  cbn [extensions_loop]. rewrite H1, H2, zlen_app, zlen_extension. unfold extensionHeaderLen, sniExtensionType.
  rewrite (proj2 (Z.eqb_neq (4 + _ + _) 0)) by lia. do 2 rewrite (proj2 (Z.ltb_ge (4 + _ + _) _)) by lia.
  rewrite (proj2 (Z.eqb_neq _ _) Ht), Z.mod_small, from_app by (rewrite ?zlen_extension; lia). done.
Qed.

Lemma loop_found fuel i name l :
  zlen name + 5 < 2 ^ 16 ->
  extensions_loop (S fuel) i (encode_extension (server_name_extension name) ++ l) =
  Some (Some {| sn_Index := i + 9; sn_Length := zlen name; sn_ServerName := name |}).
Proof.
  intros Hlen. pose proof (zlen_nonneg name). pose proof (zlen_nonneg l).
  set (e := server_name_extension name).
  assert (Hd : zlen (ex_data e) = zlen name + 5).
  { cbn [ex_data e server_name_extension]. rewrite !zlen_app, !zlen_be. change (zlen [0]) with 1. lia. }
  assert (He : extension_ok e) by (split; [done|lia]).
  destruct (extension_fields e l He) as (H1 & H2 & H3).
  cbn [extensions_loop]. rewrite H1, H2, zlen_app, zlen_extension.
  unfold extensionHeaderLen, sniExtensionType, sniExtensionHeaderLen, sniNameDNSHostnameType. rewrite H3.
  rewrite (proj2 (Z.eqb_neq (4 + _ + _) 0)) by lia. do 2 rewrite (proj2 (Z.ltb_ge (4 + _ + _) _)) by lia.
  change (ex_type e =? 0) with true. cbn match. rewrite upto_app by done.
  rewrite (proj2 (Z.ltb_ge _ _)) by lia.
  subst e. cbn [ex_data server_name_extension].
  replace (at_ _ 2) with 0 by (symmetry; apply (at_app 2 (be_bytes 2 _) 0); by rewrite zlen_be). change (0 =? 0) with true. cbn [negb].
  replace (be16 _ 3) with (zlen name).
  - do 3 f_equal. lia.
  - symmetry. rewrite app_assoc. apply be16_app; [lia|]. rewrite zlen_app, zlen_be. done.
Qed.

Lemma loop_name before name after fuel i :
  Forall extension_ok before -> Forall (fun e => ex_type e <> 0) before ->
  zlen (encode_extensions (before ++ server_name_extension name :: after)) < 2 ^ 16 ->
  (length before < fuel)%nat ->
  extensions_loop fuel i (encode_extensions (before ++ server_name_extension name :: after)) =
  Some (Some {| sn_Index := i + zlen (encode_extensions before) + 9; sn_Length := zlen name;
                sn_ServerName := name |}).
Proof.
  unfold encode_extensions. intros Hok Hne. revert fuel i.
  induction Hok as [|e before He _ IH]; intros fuel i Hlen Hf; (destruct fuel as [|fuel]; [simpl in Hf; lia|]).
  - cbn [map app concat] in *. rewrite zlen_app, zlen_extension in Hlen.
    cbn [ex_data server_name_extension] in Hlen. rewrite !zlen_app, !zlen_be in Hlen.
    change (zlen [0]) with 1 in Hlen. pose proof (zlen_nonneg (concat (map encode_extension after))).
    change (zlen []) with 0. rewrite loop_found by lia. do 3 f_equal. lia.
  - apply Forall_cons in Hne as [Ht Hne]. cbn [map app concat length] in *. rewrite zlen_app in Hlen.
    pose proof (zlen_nonneg (concat (map encode_extension (before ++ server_name_extension name :: after)))).
    rewrite loop_skip by (done || lia).
    pose proof (zlen_nonneg (encode_extension e)).
    rewrite (IH Hne) by lia. rewrite zlen_app. do 3 f_equal. lia.
Qed.

Lemma loop_none es fuel i :
  Forall extension_ok es -> Forall (fun e => ex_type e <> 0) es -> zlen (encode_extensions es) < 2 ^ 16 ->
  (length es < fuel)%nat -> extensions_loop fuel i (encode_extensions es) = Some None.
Proof.
  unfold encode_extensions. intros Hok Hne. revert fuel i.
  induction Hok as [|e es He _ IH]; intros fuel i Hlen Hf; (destruct fuel as [|fuel]; [simpl in Hf; lia|]); [done|].
  apply Forall_cons in Hne as [Ht Hne]. cbn [map concat length] in *. rewrite zlen_app in Hlen.
  pose proof (zlen_nonneg (concat (map encode_extension es))). pose proof (zlen_nonneg (encode_extension e)).
  rewrite loop_skip by (done || lia). apply (IH Hne); lia.
Qed.

Lemma be24_app x l b :
  0 <= x < 2 ^ 24 ->
  Z.lor (Z.lor (Z.shiftl (at_ (b :: be_bytes 3 x ++ l) 1) 16) (Z.shiftl (at_ (b :: be_bytes 3 x ++ l) 2) 8))
    (at_ (b :: be_bytes 3 x ++ l) 3) = x.
Proof.
  intros Hx. cbn [be_bytes app].
  change (256 ^ Z.of_nat 2) with 65536. change (256 ^ Z.of_nat 1) with 256. change (256 ^ Z.of_nat 0) with 1.
  rewrite Z.div_1_r. match goal with |- context [at_ (b :: ?u :: ?v :: ?w :: l) 1] =>
    change (at_ (b :: u :: v :: w :: l) 1) with u; change (at_ (b :: u :: v :: w :: l) 2) with v;
    change (at_ (b :: u :: v :: w :: l) 3) with w end.
  pose proof (Z.mod_pos_bound (x / 65536) 256 ltac:(lia)). pose proof (Z.mod_pos_bound (x / 256) 256 ltac:(lia)).
  pose proof (Z.mod_pos_bound x 256 ltac:(lia)).
  rewrite (Z.lor_comm (Z.shiftl _ 16)), lor_shiftl; [|lia| |lia].
  2: { rewrite Z.shiftl_mul_pow2 by lia. lia. }
  rewrite Z.lor_comm, Z.shiftl_mul_pow2 by lia.
  replace (x `div` 256 `mod` 256 * 2 ^ 8 + x `div` 65536 `mod` 256 * 2 ^ 16)
    with ((x `div` 256 `mod` 256 + x `div` 65536 `mod` 256 * 256) * 2 ^ 8) by lia.
  rewrite <- Z.shiftl_mul_pow2, lor_shiftl by lia.
  rewrite (Z.mod_small (x / 65536)) by (split; [apply Z.div_pos|apply Z.div_lt_upper_bound]; lia).
  replace (x / 65536) with (x / 256 / 256) by (by rewrite Z.div_div).
  pose proof (Z.div_mod x 256 ltac:(lia)). pose proof (Z.div_mod (x / 256) 256 ltac:(lia)). lia.
Qed.

Definition extensions_block (h : ClientHello) : list Z :=
  be_bytes 2 (zlen (encode_extensions (ch_extensions h))) ++ encode_extensions (ch_extensions h).

(** Where the extensions of an encoded handshake begin. *)
Definition extensions_at (h : ClientHello) : Z :=
  39 + zlen (ch_session h) + (2 + zlen (ch_ciphers h) + 1 + zlen (ch_compression h)).

Lemma handshake_parts h :
  encode_handshake h = [handshakeType] ++ be_bytes 3 (zlen (encode_hello h)) ++ be_bytes 2 (ch_version h) ++
    ch_random h ++ [zlen (ch_session h)] ++ ch_session h ++ be_bytes 2 (zlen (ch_ciphers h)) ++ ch_ciphers h ++
    [zlen (ch_compression h)] ++ ch_compression h ++ extensions_block h.
Proof. unfold encode_handshake. do 2 f_equal. unfold encode_hello, hello_start. by rewrite <- !app_assoc. Qed.

Lemma zlen_handshake h :
  zlen (ch_random h) = 32 -> zlen (encode_handshake h) = extensions_at h + zlen (extensions_block h).
Proof.
  intros Hr. rewrite handshake_parts, !zlen_app, !zlen_be. unfold extensions_at. rewrite Hr.
  change (zlen [_]) with 1. lia.
Qed.

Lemma handshake_name h r :
  hello_ok h -> zlen (encode_handshake h) < 2 ^ 16 ->
  indexTLSServerNameFromExtensions (extensions_block h) = Some r ->
  indexTLSServerNameFromHandshake (encode_handshake h) = Some (shift_name (extensions_at h) <$> r).
Proof.
  intros (Hv & Hvr & Hr & Hs & Hc & Hm & _) Hlen Hext. pose proof (zlen_handshake h Hr) as Hz.
  assert (Hhello : zlen (encode_handshake h) = 4 + zlen (encode_hello h)).
  { unfold encode_handshake. rewrite !zlen_app, zlen_be. change (zlen [_]) with 1. lia. }
  pose proof (zlen_nonneg (extensions_block h)). pose proof (zlen_nonneg (ch_session h)).
  pose proof (zlen_nonneg (ch_ciphers h)). pose proof (zlen_nonneg (ch_compression h)).
  pose proof (zlen_nonneg (encode_hello h)). unfold extensions_at in Hz.
  set (rest := ch_session h ++ be_bytes 2 (zlen (ch_ciphers h)) ++ ch_ciphers h ++
    [zlen (ch_compression h)] ++ ch_compression h ++ extensions_block h).
  set (pre := [handshakeType] ++ be_bytes 3 (zlen (encode_hello h)) ++ be_bytes 2 (ch_version h) ++ ch_random h).
  assert (Hpre : zlen pre = 38) by (subst pre; rewrite !zlen_app, !zlen_be, Hr; done).
  assert (Hparts : encode_handshake h = pre ++ zlen (ch_session h) :: rest).
  { rewrite handshake_parts. subst pre rest. by rewrite <- !app_assoc. }
  assert (H38 : at_ (encode_handshake h) 38 = zlen (ch_session h)) by (rewrite Hparts; by apply at_app).
  assert (Hcs : from (39 + zlen (ch_session h)) (encode_handshake h) =
    be_bytes 2 (zlen (ch_ciphers h)) ++ ch_ciphers h ++ zlen (ch_compression h) :: ch_compression h ++ extensions_block h).
  { rewrite Hparts. subst rest. rewrite (cons_middle _ pre), app_assoc, (app_assoc (pre ++ _)). apply from_app.
    rewrite !zlen_app, Hpre. change (zlen [_]) with 1. lia. }
  assert (Hexts : from (extensions_at h) (encode_handshake h) = extensions_block h).
  { unfold extensions_at. rewrite <- from_from, Hcs by lia.
    rewrite (cons_middle (zlen (ch_compression h))), !app_assoc. apply from_app.
    rewrite !zlen_app, zlen_be. change (zlen [_]) with 1. lia. }
  unfold indexTLSServerNameFromHandshake, handshakeHeaderLen, randomDataLen, sessionIDHeaderLen,
    cipherSuiteHeaderLen, compressMethodHeaderLen.
  rewrite (proj2 (Z.ltb_ge _ _)) by lia.
  change (at_ (encode_handshake h) 0) with handshakeType. change (handshakeType =? handshakeType) with true.
  cbn [negb]. change (from 4 (encode_handshake h)) with (encode_hello h).
  replace (Z.lor _ (at_ (encode_handshake h) 3)) with (zlen (encode_hello h)).
  2: { symmetry. apply be24_app. lia. }
  rewrite Z.eqb_refl. cbn [negb].
  replace (be16 (encode_handshake h) 4) with (ch_version h).
  2: { symmetry. rewrite handshake_parts, app_assoc. apply be16_app; [done|]. by rewrite zlen_app, zlen_be. }
  replace (negb (Z.land (ch_version h) tlsVersionBitmask =? 768) && negb (ch_version h =? tls13)) with false.
  2: { symmetry. destruct Hv as [-> | ->]; [by rewrite andb_false_r|done]. }
  rewrite H38. replace (6 + 32 + 1 + zlen (ch_session h)) with (39 + zlen (ch_session h)) by lia. rewrite Hcs.
  rewrite (proj2 (Z.ltb_ge _ _)) by lia. rewrite !zlen_app, zlen_cons, zlen_app, zlen_be.
  do 1 rewrite (proj2 (Z.ltb_ge (Z.of_nat 2 + _) 2)) by lia.
  replace (be16 _ 0) with (zlen (ch_ciphers h)) by (symmetry; apply (be16_app []); [lia|done]).
  rewrite (proj2 (Z.ltb_ge _ _)) by lia.
  replace (at_ _ (2 + zlen (ch_ciphers h))) with (zlen (ch_compression h)).
  2: { symmetry. rewrite app_assoc. apply at_app. by rewrite zlen_app, zlen_be. }
  fold (extensions_at h). rewrite (proj2 (Z.ltb_ge _ _)) by (unfold extensions_at; lia).
  rewrite Hexts, Hext. by destruct r.
Qed.

Lemma extensions_length es : (length es <= length (encode_extensions es))%nat.
Proof.
  unfold encode_extensions. induction es as [|e es IH]; simpl; [lia|].
  pose proof (zlen_extension e). pose proof (zlen_nonneg (ex_data e)). unfold zlen in *. rewrite length_app. lia.
Qed.

Lemma extensions_block_index h r :
  zlen (encode_extensions (ch_extensions h)) < 2 ^ 16 ->
  (zlen (encode_extensions (ch_extensions h)) = 0 -> r = None) ->
  extensions_loop (S (length (encode_extensions (ch_extensions h)))) 2 (encode_extensions (ch_extensions h)) = Some r ->
  indexTLSServerNameFromExtensions (extensions_block h) = Some r.
Proof.
  intros Hlen H0 Hr. unfold indexTLSServerNameFromExtensions, extensions_block, extensionsHeaderLen.
  pose proof (zlen_nonneg (encode_extensions (ch_extensions h))).
  rewrite zlen_app, zlen_be, from_app by (by rewrite zlen_be).
  rewrite (proj2 (Z.eqb_neq _ _)) by lia. rewrite (proj2 (Z.ltb_ge _ _)) by lia.
  replace (be16 _ 0) with (zlen (encode_extensions (ch_extensions h))).
  2: { symmetry. apply (be16_app []); [lia|done]. }
  rewrite Z.ltb_irrefl. exact Hr.
Qed.

(** The search applied to
    a ClientHello in one record returns the host name of its first server_name
    extension and the position of its first byte, and nothing when there is no
    such extension. *)
Theorem hello_name_found version h :
  0 <= version < 2 ^ 16 -> hello_ok h -> zlen (encode_record version h) < 2 ^ 16 ->
  (forall before name after,
     ch_extensions h = before ++ server_name_extension name :: after ->
     Forall (fun e => ex_type e <> 0) before ->
     IndexTLSServerName (encode_record version h) =
       Some (Some {| sn_Index := 5 + extensions_at h + 2 + zlen (encode_extensions before) + 9;
                     sn_Length := zlen name; sn_ServerName := name |})) /\
  (Forall (fun e => ex_type e <> 0) (ch_extensions h) -> IndexTLSServerName (encode_record version h) = Some None).
Proof.
  intros Hv Hok Hlen.
  assert (Hz : zlen (encode_record version h) = 5 + zlen (encode_handshake h)).
  { unfold encode_record. rewrite !zlen_app, !zlen_be. change (zlen [_]) with 1. lia. }
  pose proof (zlen_nonneg (encode_handshake h)).
  assert (Hexts : zlen (encode_extensions (ch_extensions h)) < 2 ^ 16).
  { destruct Hok as (_ & _ & Hr & _). pose proof (zlen_handshake h Hr) as Hh. unfold extensions_at, extensions_block in Hh.
    rewrite zlen_app, zlen_be in Hh. pose proof (zlen_nonneg (ch_session h)). pose proof (zlen_nonneg (ch_ciphers h)).
    pose proof (zlen_nonneg (ch_compression h)). lia. }
  assert (Hrec : forall r, indexTLSServerNameFromExtensions (extensions_block h) = Some r ->
    IndexTLSServerName (encode_record version h) = Some (shift_name 5 <$> (shift_name (extensions_at h) <$> r))).
  { intros r Hr%handshake_name; [|done|lia]. unfold IndexTLSServerName, recordLayerHeaderLen.
    rewrite (proj2 (Z.ltb_ge _ 5)) by lia. change (at_ (encode_record version h) 0 =? contentType) with true. cbn [negb orb].
    replace (be16 _ 3) with (zlen (encode_handshake h)).
    2: { symmetry. unfold encode_record. rewrite app_assoc. apply be16_app; [lia|by rewrite zlen_app, zlen_be]. }
    rewrite Hz, Z.ltb_irrefl. change (from 5 (encode_record version h)) with (encode_handshake h).
    rewrite Hr. by destruct r. }
  destruct Hok as (_ & _ & _ & _ & _ & _ & Hext). pose proof (extensions_length (ch_extensions h)). split.
  - intros before name after He Hb. rewrite He in *. apply Forall_app in Hext as [Hext _].
    erewrite Hrec.
    2: { apply extensions_block_index; rewrite ?He; [done| |apply loop_name; [done..|]].
         - intros Hn. exfalso. unfold encode_extensions in Hn. rewrite map_app, concat_app in Hn. cbn [map concat] in Hn.
           rewrite !zlen_app, zlen_extension in Hn. pose proof (zlen_nonneg (concat (map encode_extension before))).
           pose proof (zlen_nonneg (concat (map encode_extension after))).
           pose proof (zlen_nonneg (ex_data (server_name_extension name))). lia.
         - rewrite length_app in *. lia. }
    cbn. unfold shift_name. cbn. do 2 f_equal. f_equal. lia.
  - intros Hb. rewrite (Hrec None); [done|]. apply extensions_block_index; [done..|]. apply loop_none; [done..|lia].
Qed.

(** ** The pieces of the first packet *)

(** Positions in ascending order between two bounds. *)
Fixpoint ascending (lo : Z) (l : list Z) (hi : Z) : Prop :=
  match l with [] => lo <= hi | x :: l => lo <= x /\ ascending x l hi end.

Lemma ascending_bounds lo l hi : ascending lo l hi -> lo <= hi /\ Forall (fun x => lo <= x <= hi) l.
Proof.
  revert lo; induction l as [|x l IH]; intros lo; simpl; [done|]. intros [Hx Hl].
  destruct (IH x Hl) as [H1 H2]. split; [lia|]. constructor; [lia|].
  eapply Forall_impl; [exact H2|]. simpl. lia.
Qed.

Lemma ascending_weaken lo lo' l hi hi' : lo' <= lo -> hi <= hi' -> ascending lo l hi -> ascending lo' l hi'.
Proof.
  revert lo lo'; induction l as [|x l IH]; intros lo lo' H1 H2; simpl; [lia|].
  intros [Hx Hl]. split; [lia|]. by apply (IH x x).
Qed.

Lemma go_slice_ok l a b : 0 <= a <= b -> b <= zlen l -> go_slice l a b = Ok (upto (b - a) (from a l)).
Proof. intros H1 H2. unfold go_slice. by rewrite !(proj2 (Z.leb_le _ _)) by lia. Qed.

Lemma go_slice_to_end l a : 0 <= a <= zlen l -> go_slice l a (zlen l) = Ok (from a l).
Proof.
  intros Ha. rewrite go_slice_ok by lia. f_equal. unfold upto. apply take_ge.
  unfold from. rewrite length_drop. unfold zlen in *. lia.
Qed.

(** The piece after position [x], up to the next one. *)
Lemma pieces_after b x idx : 0 <= x -> ascending x idx (zlen b) ->
  exists ps, Forall2 (fun j p => go_slice b (if j is O then x else default 0 (idx !! (j - 1)%nat))
                                  (default (zlen b) (idx !! j)) = Ok p) (seq 0 (S (length idx))) ps /\
    concat ps = from x b.
Proof.
  revert x; induction idx as [|y idx IH]; intros x Hx Ha; cbn [ascending] in Ha.
  - exists [from x b]. split; [|by cbn; rewrite app_nil_r].
    constructor; [|constructor]. cbn. by apply go_slice_to_end.
  - destruct Ha as [Hxy Ha]. destruct (ascending_bounds _ _ _ Ha) as [Hyb _].
    destruct (IH y ltac:(lia) Ha) as (ps & Hps & Hc).
    exists (upto (y - x) (from x b) :: ps). split.
    + change (seq 0 (S (length (y :: idx)))) with (0%nat :: seq 1 (S (length idx))).
      constructor; [by apply go_slice_ok|]. rewrite <- seq_shift. apply Forall2_fmap_l. eapply Forall2_impl; [exact Hps|].
      intros [|j] p; simpl; [done|]. by rewrite Nat.sub_0_r.
    + cbn [concat]. rewrite Hc. replace (from y b) with (from (y - x) (from x b)).
      * apply upto_from.
      * rewrite from_from by lia. f_equal. lia.
Qed.

(** All pieces together are the packet, without its record header when the
    pieces become records. *)
Lemma pieces_whole r b idx :
  idx <> [] -> ascending recordLayerHeaderLen idx (zlen b) ->
  exists ps, Forall2 (fun i p => piece r b idx i = Ok p) (seq 0 (S (length idx))) ps /\
    concat ps = if r then from 5 b else b.
Proof.
  unfold recordLayerHeaderLen. destruct idx as [|y idx]; [done|]. intros _ [Hy Ha].
  destruct (ascending_bounds _ _ _ Ha) as [Hyb _].
  destruct (pieces_after b y idx ltac:(lia) Ha) as (ps & Hps & Hc).
  assert (H0 : go_slice b 0 y = Ok (upto y b)) by (rewrite go_slice_ok by lia; by rewrite Z.sub_0_r).
  assert (Hlen : zlen (upto y b) = y) by (apply zlen_upto; lia).
  exists ((if r then from 5 (upto y b) else upto y b) :: ps). split.
  - change (seq 0 (S (length (y :: idx)))) with (0%nat :: seq 1 (S (length idx))). constructor.
    + unfold piece. cbn [Nat.eqb lookup list_lookup]. change (default 0 (Some y)) with y. rewrite H0.
      cbn [res_bind]. destruct r; [|done]. unfold recordLayerHeaderLen. apply go_slice_to_end. lia.
    + rewrite <- seq_shift. apply Forall2_fmap_l.
      apply Forall2_same_length_lookup in Hps as [Hl Hps]. apply Forall2_same_length_lookup. split; [done|].
      intros j i p Hi Hp. specialize (Hps j i p Hi Hp). apply lookup_seq in Hi as [-> Hj]. cbn [Nat.add] in *.
      change (piece r b (y :: idx) (S j) = Ok p). unfold piece. cbn [Nat.eqb length]. destruct (j =? length idx)%nat eqn:Hlast.
      * apply Nat.eqb_eq in Hlast. subst j. rewrite (lookup_ge_None_2 idx (length idx)) in Hps by lia.
        cbn [default] in Hps. rewrite <- Hps. f_equal. cbn [Nat.sub]. rewrite Nat.sub_0_r.
        destruct idx; [done|]. cbn [length]. by rewrite Nat.sub_1_r.
      * apply Nat.eqb_neq in Hlast. destruct (lookup_lt_is_Some_2 idx j ltac:(lia)) as [z Hz].
        rewrite Hz in Hps. cbn [default] in Hps. rewrite <- Hps. cbn [Nat.sub]. rewrite Nat.sub_0_r. f_equal.
        -- destruct j; [done|]. cbn. by rewrite Nat.sub_0_r.
        -- change ((y :: idx) !! S j) with (idx !! j). by rewrite Hz.
  - cbn [concat]. rewrite Hc. destruct r; [|apply upto_from].
    rewrite <- (upto_from y b) at 3. unfold from. rewrite (drop_app_le (upto y b)); [done|].
    unfold zlen in Hlen. lia.
Qed.

(** *** Where the pieces are cut *)

(** The labels joined by dots again, in bytes. *)
Fixpoint joined (splits : list (list Z)) : Z :=
  match splits with
  | [] => 0
  | [s] => zlen s
  | s :: rest => zlen s + 1 + joined rest
  end.

Lemma joined_nonneg splits : 0 <= joined splits.
Proof.
  induction splits as [|s rest IH]; cbn [joined]; [lia|]. pose proof (zlen_nonneg s). destruct rest; lia.
Qed.

Lemma split_dots_cons s : exists first rest, split_dots s = first :: rest.
Proof. destruct s as [|c s]; simpl; [by do 2 eexists|]. repeat case_match; by do 2 eexists. Qed.

Lemma joined_split s : joined (split_dots s) = zlen s.
Proof.
  induction s as [|c s IH]; [done|]. cbn [split_dots]. rewrite zlen_cons, <- IH.
  destruct (split_dots_cons s) as (first & rest & ->).
  destruct (c =? dot); cbn [joined]; [by destruct rest; change (zlen []) with 0; lia|].
  rewrite zlen_cons. destruct rest; lia.
Qed.

Lemma joined_take n splits : joined (take n splits) <= joined splits.
Proof.
  revert n; induction splits as [|s rest IH]; intros [|n]; cbn [take]; [done..|apply joined_nonneg|].
  specialize (IH n). pose proof (joined_nonneg rest). destruct rest as [|t rest]; [by rewrite take_nil|].
  destruct (take n (t :: rest)) eqn:Ht; cbn [joined] in *; lia.
Qed.

(** No label is the one the code looks for: labels have no dots. *)
Lemma split_dots_no_dot s : Forall (fun l => dot ∉ l) (split_dots s).
Proof.
  induction s as [|c s IH]; [by repeat constructor; set_solver|]. cbn [split_dots].
  destruct (split_dots_cons s) as (first & rest & Hs). rewrite Hs in *. apply Forall_cons in IH as [Hf Hr].
  destruct (c =? dot) eqn:Hc; repeat constructor; try done; [set_solver|].
  apply Z.eqb_neq in Hc. set_solver.
Qed.

(** The bytes that reach the network. *)
Definition sent (log : list op) : list Z :=
  concat (map (fun o => match o with WriteAndWaitAck p | ConnWrite p => p | _ => [] end) log).

Lemma sent_app l1 l2 : sent (l1 ++ l2) = sent l1 ++ sent l2.
Proof. unfold sent. by rewrite map_app, concat_app. Qed.

Section pieces.
Context (PublicSuffix : list Z -> list Z) (rand_Intn : nat -> Z -> Z) (try : list op -> op -> Z * option error).
Context (rand_range : forall k n, 0 < n -> 0 <= rand_Intn k n < n).

Notation labels := (labels PublicSuffix).
Notation split_indexes := (split_indexes rand_Intn).
Notation perform := (perform try).
Notation send_packet := (send_packet try).
Notation send_pieces := (send_pieces try).
Notation write_split := (write_split PublicSuffix rand_Intn try).
Notation Conn_Write := (Conn_Write PublicSuffix rand_Intn try).

Lemma labels_inside sn :
  (labels sn).2 = sn_Index sn /\ (labels sn).1 <> [] /\ joined (labels sn).1 <= zlen (sn_ServerName sn).
Proof.
  unfold TlsFragment.labels. set (name := sn_ServerName sn). set (splits := if bool_decide _ then _ else _).
  assert (Hsub : splits = split_dots name \/ exists n, (0 < n)%nat /\ splits = take n (split_dots name)).
  { subst splits. case_bool_decide; [by left|]. right. eexists. split; [|done].
    clear. induction name as [|c s IH]; [cbn; lia|]. cbn [split_dots count_dots List.filter].
    destruct (split_dots_cons s) as (first & rest & Hs). rewrite Hs in *.
    unfold count_dots in *. cbn [List.filter]. destruct (c =? dot); cbn [length] in *; lia. }
  assert (Hdots : Forall (fun l => dot ∉ l) splits).
  { destruct Hsub as [-> |(n & _ & ->)]; [|apply Forall_take]; apply split_dots_no_dot. }
  assert (Hj : joined splits <= zlen name).
  { rewrite <- joined_split. destruct Hsub as [-> |(n & _ & ->)]; [lia|apply joined_take]. }
  assert (Hne : splits <> []).
  { destruct (split_dots_cons name) as (first & rest & Hs). destruct Hsub as [-> |(n & Hn & ->)]; rewrite Hs; [done|].
    by destruct n; [lia|]. }
  destruct splits as [|first [|second rest]]; [done|done|].
  apply Forall_cons in Hdots as [Hf _]. rewrite bool_decide_false; [done|].
  intros ->. apply Hf. set_solver.
Qed.

Lemma split_indexes_ok k cur splits :
  Forall (fun s => s <> []) splits -> exists idx, split_indexes k cur splits = Ok idx /\
    length idx = length splits /\ ascending cur idx (cur + joined splits).
Proof.
  intros Hs. revert k cur. induction Hs as [|s splits Hs _ IH]; intros k cur.
  { exists []. split_and!; [done|done|]. simpl. lia. }
  cbn [TlsFragment.split_indexes].
  assert (Hlen : 0 < zlen s) by (destruct s; [done|]; rewrite zlen_cons; pose proof (zlen_nonneg s); lia).
  rewrite (proj2 (Z.eqb_neq _ _)) by lia. pose proof (rand_range k (zlen s) Hlen).
  destruct (IH (S k) (cur + zlen s + match splits with [] => 0 | _ => 1 end)) as (idx & -> & Hl & Ha).
  cbn [res_bind]. eexists. split_and!; [reflexivity|simpl; congruence|]. cbn [ascending]. split; [lia|].
  eapply ascending_weaken; [|..|exact Ha].
  - destruct splits; lia.
  - destruct splits; cbn [joined]; lia.
Qed.

Lemma split_indexes_panic k cur splits :
  [] ∈ splits -> exists m, split_indexes k cur splits = Panic m.
Proof.
  revert k cur; induction splits as [|s splits IH]; intros k cur; [by intros ?%not_elem_of_nil|].
  cbn [TlsFragment.split_indexes]. destruct (zlen s =? 0) eqn:Hz; [by eexists|].
  intros [<-|Hin]%elem_of_cons; [done|].
  destruct (IH (S k) (cur + zlen s + match splits with [] => 0 | _ => 1 end) Hin) as [m ->]. by eexists.
Qed.

(** *** What goes out *)

Lemma send_packet_sent c last payload log log' :
  send_packet c last payload log = (None, log') -> sent log' = sent log ++ payload.
Proof.
  unfold TlsFragment.send_packet, TlsFragment.perform.
  case_match; [intros [= _ <-]|case_match; [done|]; case_match; intros [= <-]];
    rewrite !sent_app; cbn; by rewrite ?app_nil_r.
Qed.

Lemma send_pieces_ok c b idx todo ps buffer log :
  Forall2 (fun i p => piece (co_splitRecord c) b idx i = Ok p) todo ps ->
  exists err buffer' log', send_pieces c b idx todo buffer log = Ok (err, buffer', log') /\
    (err = None ->
     let out := concat (if co_splitRecord c then map (as_record b) ps else ps) in
     if co_splitPacket c then sent log' = sent log ++ out
     else log' = log /\ (co_splitRecord c = true -> buffer' = buffer ++ out)).
Proof.
  intros Hps. revert buffer log. induction Hps as [|i p todo ps Hp _ IH]; intros buffer log.
  { do 3 eexists. split; [reflexivity|]. intros _.
    destruct (co_splitPacket c), (co_splitRecord c); cbn; rewrite ?app_nil_r; done. }
  cbn [TlsFragment.send_pieces]. rewrite Hp. cbn [res_bind].
  destruct (co_splitRecord c) eqn:Hr, (co_splitPacket c) eqn:Hk.
  - destruct (send_packet c _ _ log) as [err log1] eqn:Hs. destruct err as [e|]; [by do 3 eexists|].
    apply send_packet_sent in Hs. destruct (IH ([] ++ as_record b p) log1) as (err & buffer' & log' & -> & Hok).
    do 3 eexists. split; [reflexivity|]. intros He. cbn zeta in *. rewrite (Hok He), Hs. cbn [map concat app].
    by rewrite <- app_assoc.
  - destruct (IH (buffer ++ as_record b p) log) as (err & buffer' & log' & -> & Hok).
    do 3 eexists. split; [reflexivity|]. intros He. cbn zeta in *. destruct (Hok He) as [-> Hbuf].
    split; [done|]. intros _. rewrite Hbuf by done. cbn [map concat]. by rewrite app_assoc.
  - destruct (send_packet c _ _ log) as [err log1] eqn:Hs. destruct err as [e|]; [by do 3 eexists|].
    apply send_packet_sent in Hs. destruct (IH buffer log1) as (err & buffer' & log' & -> & Hok).
    do 3 eexists. split; [reflexivity|]. intros He. cbn zeta in *. rewrite (Hok He), Hs. cbn [concat].
    by rewrite <- app_assoc.
  - destruct (IH buffer log) as (err & buffer' & log' & -> & Hok).
    do 3 eexists. split; [reflexivity|]. intros He. cbn zeta in *. by destruct (Hok He) as [-> _].
Qed.

(** The receiver: records with the header of the packet, their payloads. *)
Fixpoint record_payloads (fuel : nat) (header l : list Z) : option (list Z) :=
  match fuel, l with
  | _, [] => Some []
  | O, _ => None
  | S fuel, _ =>
      if negb (bool_decide (upto 3 l = header)) || (zlen l <? 5 + be16 l 3) then None
      else app (upto (be16 l 3) (from 5 l)) <$> record_payloads fuel header (from (5 + be16 l 3) l)
  end.

Lemma record_payloads_ok b ps fuel :
  3 <= zlen b -> Forall (fun p => zlen p < 2 ^ 16) ps -> (length ps <= fuel)%nat ->
  record_payloads fuel (upto 3 b) (concat (map (as_record b) ps)) = Some (concat ps).
Proof.
  intros Hb Hps. assert (Hh : zlen (upto 3 b) = 3) by (apply zlen_upto; lia).
  revert fuel; induction Hps as [|p ps Hp _ IH]; intros fuel Hf; [by destruct fuel|].
  destruct fuel as [|fuel]; [simpl in Hf; lia|]. cbn [map concat]. pose proof (zlen_nonneg p).
  set (rest := concat (map (as_record b) ps)). unfold as_record. rewrite Z.mod_small by lia. rewrite <- !app_assoc.
  set (l := upto 3 b ++ be_bytes 2 (zlen p) ++ p ++ rest).
  assert (Hlen : be16 l 3 = zlen p) by (apply be16_app; [lia|done]).
  assert (H5 : from 5 l = p ++ rest).
  { subst l. rewrite app_assoc. apply from_app. by rewrite zlen_app, Hh, zlen_be. }
  assert (Hne : exists x l', l = x :: l').
  { destruct l as [|x l'] eqn:Hl; [|by do 2 eexists]. subst l. apply (f_equal zlen) in Hl.
    rewrite zlen_app, Hh in Hl. pose proof (zlen_nonneg (be_bytes 2 (zlen p) ++ p ++ rest)). change (zlen []) with 0 in Hl. lia. }
  cbn [record_payloads]. destruct Hne as (x & l' & Hxl). rewrite Hxl, <- Hxl.
  replace (upto 3 l) with (upto 3 b) by (symmetry; by apply upto_app).
  rewrite bool_decide_true by done. cbn [negb orb]. rewrite Hlen.
  assert (Hz : zlen l = 5 + zlen p + zlen rest).
  { subst l. rewrite !zlen_app, zlen_be, Hh. lia. }
  pose proof (zlen_nonneg rest). rewrite (proj2 (Z.ltb_ge _ _)) by lia.
  rewrite <- from_from, H5, from_app, upto_app by (done || lia).
  subst rest. rewrite IH by (simpl in Hf; lia). done.
Qed.

Lemma write_split_spec c b sn :
  zlen b < 2 ^ 16 -> 5 <= sn_Index sn -> stands_at b (sn_Index sn) (sn_ServerName sn) ->
  co_splitPacket c || co_splitRecord c = true ->
  match write_split c b sn with
  | Ok (n, None, log) => n = zlen b /\
      if co_splitRecord c then record_payloads (length (sent log)) (upto 3 b) (sent log) = Some (from 5 b)
      else sent log = b
  | Ok _ => True
  | Panic _ => [] ∈ (labels sn).1
  | Err _ => False
  end.
Proof.
  intros Hlen H5 (_ & Hend & _) Hsplit. unfold TlsFragment.write_split.
  assert (Hstart : exists err log, (if co_splitPacket c && co_tcpConn c then perform [] (SetNoDelay true) else (None, [])) =
    (err, log) /\ sent log = []).
  { unfold TlsFragment.perform. case_match; by do 2 eexists. }
  destruct Hstart as (err & log & -> & Hlog). destruct err as [e|]; [done|].
  destruct (labels_inside sn) as (Hidx & Hne & Hj). destruct (labels sn) as [splits cur]. cbn [fst snd] in *. subst cur.
  destruct (decide ([] ∈ splits)) as [Hin|Hin].
  { by destruct (split_indexes_panic 0 (sn_Index sn) splits Hin) as [m ->]. }
  destruct (split_indexes_ok 0 (sn_Index sn) splits) as (idx & -> & Hl & Ha).
  { apply Forall_forall. intros s Hs ->. done. }
  cbn [res_bind].
  assert (Hnidx : idx <> []) by (intros ->; by destruct splits).
  destruct (pieces_whole (co_splitRecord c) b idx Hnidx) as (ps & Hps & Hc).
  { eapply ascending_weaken; [| |exact Ha]; unfold recordLayerHeaderLen; lia. }
  destruct (send_pieces_ok c b idx _ ps [] log Hps) as (err & buffer & log' & -> & Hok). cbn [res_bind].
  destruct err as [e|]; [done|]. specialize (Hok eq_refl). cbn zeta in Hok.
  assert (Hout : forall log2, sent log2 = concat (if co_splitRecord c then map (as_record b) ps else ps) ->
    if co_splitRecord c then record_payloads (length (sent log2)) (upto 3 b) (sent log2) = Some (from 5 b)
    else sent log2 = b).
  { intros log2 ->. destruct (co_splitRecord c); [|done]. rewrite <- Hc. apply record_payloads_ok.
    - unfold stands_at in *. pose proof (zlen_nonneg (sn_ServerName sn)). lia.
    - assert (Hsub : Forall (fun p => zlen p <= zlen (concat ps)) ps).
      { clear. induction ps as [|p ps IH]; constructor; cbn [concat]; rewrite zlen_app.
        - pose proof (zlen_nonneg (concat ps)). lia.
        - eapply Forall_impl; [exact IH|]. simpl. pose proof (zlen_nonneg p). lia. }
      eapply Forall_impl; [exact Hsub|]. simpl. intros p Hp.
      rewrite Hc in Hp. rewrite zlen_from in Hp; [lia|]. pose proof (zlen_nonneg (sn_ServerName sn)). lia.
    - clear. induction ps as [|p ps IH]; cbn [map concat length]; [lia|]. rewrite length_app.
      unfold as_record at 1. rewrite !length_app, length_be_bytes. lia. }
  destruct (co_splitPacket c) eqn:Hk.
  - rewrite andb_false_r. cbn [fst snd]. unfold TlsFragment.perform.
    destruct (co_tcpConn c); [destruct (try _ _) as [? [e|]]; cbn [snd]; [done|]|]; (split; [done|]);
      apply Hout; rewrite ?sent_app, Hok, Hlog; cbn; by rewrite ?app_nil_r.
  - cbn [orb] in Hsplit. rewrite Hsplit in *. destruct Hok as [-> Hbuf]. rewrite (Hbuf eq_refl). cbn [andb negb].
    unfold TlsFragment.perform.
    destruct (try _ _) as [? [e|]]; cbn [snd]; [done|].
    destruct (co_tcpConn c); [destruct (try _ _) as [? [e|]]; cbn [snd]; [done|]|]; (split; [done|]);
      apply Hout; rewrite !sent_app, Hlog; cbn; by rewrite ?app_nil_r.
Qed.

(** C21 (the peer reassembles the first packet): the first write of a connection
    that splits packets, records or both always ends.  When it succeeds, all of
    the packet is reported as written, the connection is marked, and the peer
    gets the packet itself or, with records split after a name was found, records
    with the packet's type and version whose payloads are together the payload
    of the packet.  It panics only on a server name with an empty label. *)
Theorem first_packet_reassembled c b :
  (forall log p, (try log (ConnWrite p)).2 = None -> (try log (ConnWrite p)).1 = zlen p) ->
  co_firstPacketWritten c = false -> co_splitPacket c || co_splitRecord c = true ->
  Forall is_byte b -> zlen b < 2 ^ 16 ->
  exists name r c', IndexTLSServerName b = Some name /\ Conn_Write c b = Some (r, c') /\
    co_firstPacketWritten c' = true /\
    match r with
    | Ok (n, None, log) => n = zlen b /\
        (if bool_decide (is_Some name) && co_splitRecord c
         then record_payloads (length (sent log)) (upto 3 b) (sent log) = Some (from 5 b)
         else sent log = b)
    | Ok _ => True
    | Panic _ => exists sn, name = Some sn /\ [] ∈ (labels sn).1
    | Err _ => False
    end.
Proof.
  intros Htry Hfirst Hsplit Hb Hlen. destruct (index_found b Hb Hlen) as (name & Hn & Hfound).
  exists name. unfold TlsFragment.Conn_Write. rewrite Hfirst, Hn. destruct name as [sn|].
  - do 2 eexists. split_and!; [done|reflexivity|done|]. destruct (Hfound sn eq_refl) as [H5 Hst].
    pose proof (write_split_spec c b sn Hlen H5 Hst Hsplit) as Hw. rewrite bool_decide_true by done. cbn [andb].
    destruct (write_split c b sn) as [[[n [e|]] log]| |]; [done|done|done|by exists sn].
  - do 2 eexists. split_and!; [done|reflexivity|done|].
    destruct (try [] (ConnWrite b)).2 eqn:He; [done|]. rewrite (Htry _ _ He).
    rewrite bool_decide_false by (by intros []). split; [done|]. cbn. apply app_nil_r.
Qed.
End pieces.

(** ** Behaviours worth knowing *)

Definition example_name : list Z := bytes_of "www.example.org".
Definition example_hello : ClientHello :=
  {| ch_version := 0x0303; ch_random := repeat 7 32; ch_session := [1; 2]; ch_ciphers := [19; 1];
     ch_compression := [0];
     ch_extensions := [{| ex_type := 43; ex_data := [2; 3; 4] |}; server_name_extension example_name] |}.
Definition example_packet : list Z := encode_record 0x0301 example_hello.

Example name_found : IndexTLSServerName example_packet =
  Some (Some {| sn_Index := 70; sn_Length := 15; sn_ServerName := example_name |}).
Proof. vm_compute. reflexivity. Qed.

(** The last label, as the real list has it for "org". *)
Definition last_label (name : list Z) : list Z := List.last (split_dots name) [].
Definition all_written (log : list op) (o : op) : Z * option error :=
  (match o with ConnWrite p | WriteAndWaitAck p => zlen p | _ => 0 end, None).
Definition split_conn : Conn := NewConn true true true.

(** Only the first label is cut, whatever the public suffix: the code counts the
    dots of the whole name. *)
Example only_first_label :
  labels last_label {| sn_Index := 70; sn_Length := 15; sn_ServerName := example_name |} = ([bytes_of "www"], 70).
Proof. vm_compute. reflexivity. Qed.

(** With the place 0, which [rand.Intn] may give, the name is not cut at all. *)
Example name_left_whole :
  match Conn_Write last_label (fun _ _ => 0) all_written (NewConn false true false) example_packet with
  | Some (Ok (_, None, [ConnWrite _; Sleep; ConnWrite second]), _) => bool_decide (upto 15 second = example_name)
  | _ => false
  end = true.
Proof. vm_compute. reflexivity. Qed.

(** A ClientHello with an empty host name makes [rand.Intn] panic. *)
Example empty_name_panics :
  match Conn_Write last_label (fun _ _ => 0) all_written split_conn
          (encode_record 0x0301 {| ch_version := 0x0303; ch_random := repeat 7 32; ch_session := []; ch_ciphers := [19; 1];
             ch_compression := [0]; ch_extensions := [server_name_extension []] |}) with
  | Some (Panic _, _) => true
  | _ => false
  end = true.
Proof. vm_compute. reflexivity. Qed.

(** An extension of 65532 bytes: the step to the next one is computed in 16 bits
    and is zero, so the search never ends. *)
Lemma search_hangs fuel i e l :
  extension_ok e -> ex_type e <> 0 -> zlen (ex_data e) = 65532 ->
  extensions_loop fuel i (encode_extension e ++ l) = None.
Proof.
  intros He Ht Hlen. destruct (extension_fields e l He) as (H1 & H2 & H3). pose proof (zlen_nonneg l).
  revert i; induction fuel as [|fuel IH]; intros i; [done|].
  cbn [extensions_loop]. rewrite H1, H2, zlen_app, zlen_extension. unfold extensionHeaderLen, sniExtensionType.
  rewrite (proj2 (Z.eqb_neq (4 + _ + _) 0)) by lia. do 2 rewrite (proj2 (Z.ltb_ge (4 + _ + _) _)) by lia.
  rewrite (proj2 (Z.eqb_neq _ _) Ht), Hlen. change ((4 + 65532) mod 2 ^ 16) with 0. rewrite from_0. apply IH.
Qed.

(** ** Witnesses *)

Lemma all_bytes l : forallb (fun b => (0 <=? b) && (b <? 256)) l = true -> Forall is_byte l.
Proof.
  rewrite forallb_forall, List.Forall_forall. intros Hl x Hx%Hl. unfold is_byte. lia.
Qed.

Lemma index_in_place_witness :
  exists r, IndexTLSServerName example_packet = Some r /\
    forall sn, r = Some sn -> stands_at example_packet (sn_Index sn) (sn_ServerName sn).
Proof.
  apply index_in_place; [apply all_bytes; vm_compute; reflexivity|vm_compute; reflexivity].
Defined.

Lemma hello_name_found_witness :
  IndexTLSServerName example_packet =
    Some (Some {| sn_Index := 70; sn_Length := 15; sn_ServerName := example_name |}).
Proof.
  refine (proj1 (hello_name_found 0x0301 example_hello _ _ _) [{| ex_type := 43; ex_data := [2; 3; 4] |}] example_name [] eq_refl _).
  - lia.
  - split; [right; reflexivity|]. split; [split; [discriminate|reflexivity]|]. do 4 (split; [reflexivity|]).
    repeat (apply Forall_cons_2; [split; [split; [discriminate|reflexivity]|reflexivity]|]). apply Forall_nil_2.
  - vm_compute. reflexivity.
  - repeat constructor. discriminate.
Defined.

Lemma first_packet_reassembled_witness :
  exists name r c', IndexTLSServerName example_packet = Some name /\
    Conn_Write last_label (fun _ n => n - 1) all_written split_conn example_packet = Some (r, c') /\
    co_firstPacketWritten c' = true.
Proof.
  destruct (first_packet_reassembled last_label (fun _ n => n - 1) all_written ltac:(intros; lia) split_conn example_packet)
    as (name & r & c' & H1 & H2 & H3 & _).
  - intros log p _. reflexivity.
  - reflexivity.
  - reflexivity.
  - apply all_bytes. vm_compute. reflexivity.
  - vm_compute. reflexivity.
  - exists name, r, c'. exact (conj H1 (conj H2 H3)).
Defined.
