(* ===== verification/DnsWire.v ===== *)
(** * DNS messages on the wire

    dns/transport/tcp.go: the frames that the TCP, TLS and QUIC transports write
    and read, and the exchange of the TCP transport.  Packing and unpacking
    belong to miekg/dns and are the class [DNSWire]. *)

From stdpp Require Import base list strings.
From Stdlib Require Import ZArith Lia.
From S2P Require Import Prelude GoStd External Adapter RuleAction DnsMsg ByteReader.

Open Scope Z_scope.
Open Scope box_scope.

(** A message as it was read: the record of DnsMsg.v and the bit [Truncated]. *)
Record WMsg : Type := { w_msg : DMsg; w_Truncated : bool }.

(** The third-party code of the transports: miekg/dns and the buffers of
    sagernet/sing. *)
Class DNSWire : Type := {
  (** [message.Len()], for a message whose [Compress] is the first argument *)
  Msg_Len : bool -> DMsg -> nat;
  (** [message.PackBuffer(b)] with [Compress] and the length of [b]: the bytes,
      and whether they are in [b] or in a slice of their own, because [b] is
      too small *)
  PackBuffer : bool -> DMsg -> nat -> (bool * list Z) + error;
  Unpack : list Z -> WMsg + error;
  (** [edns0Opt.UDPSize()] *)
  UDPSize : RR -> Z;
  (** the bytes of a new buffer, which nothing has been written to *)
  fresh_bytes : nat -> list Z
}.

Definition ErrShortRead : error := ErrNew "dns: short read".

Section wire.
Context `{DNSWire}.

Definition decode (l : list Z) : res WMsg :=
  match Unpack l with inl m => Ok m | inr e => Err e end.

Definition ReadMessage (reader : Reader) : res (WMsg * Reader) :=
  let* '(responseLen, reader) := ReadUint 2 reader in
  if responseLen <? 10 then Err ErrShortRead
  else
    let* '(buffer, reader) := ReadFull (Z.to_nat responseLen) reader in
    let* message := decode buffer in
    Ok (message, reader).

(** The bytes [WriteMessage] hands to the writer.  The length in front is the
    one of the message as it was given, and what follows is the message with
    compression; a packed message that did not fit into the buffer stays out
    of it. *)
Definition frame (compress : bool) (messageId : Z) (message : DMsg) : res (list Z) :=
  let requestLen := Msg_Len compress message in
  match PackBuffer true (with_Id messageId message) (requestLen + 1) with
  | inr e => Err e
  | inl (in_place, rawMessage) =>
      Ok (be_bytes 2 (Z.of_nat requestLen) ++
          (if in_place then rawMessage else fresh_bytes (length rawMessage)))
  end.

(** A connection of one exchange: what the peer sends, after a write that may
    fail. *)
Record Stream : Type := { st_written : list Z; st_write_err : option error; st_reader : Reader }.

Definition WriteMessage (compress : bool) (messageId : Z) (message : DMsg) (conn : Stream) : res Stream :=
  let* rawMessage := frame compress messageId message in
  match st_write_err conn with
  | Some e => Err e
  | None => Ok {| st_written := st_written conn ++ rawMessage; st_write_err := None;
                  st_reader := st_reader conn |}
  end.

(** [TCPTransport.Exchange]: a connection per query, the id of a query is 0. *)
Definition TCPTransport_Exchange (dial : Stream + error) (compress : bool) (message : DMsg) : res WMsg :=
  match dial with
  | inr e => Err e
  | inl conn =>
      let* conn := WriteMessage compress 0 message conn in
      let* '(response, _) := ReadMessage (st_reader conn) in
      Ok response
  end.

(** ** What a frame means *)

(** The bytes of a frame, when the length in front is right. *)
Definition framed (raw : list Z) : list Z := be_bytes 2 (Z.of_nat (length raw)) ++ raw.

Lemma ReadFull_app raw rest e :
  ReadFull (length raw) {| rd_bytes := raw ++ rest; rd_end := e |} =
  Ok (raw, {| rd_bytes := rest; rd_end := e |}).
Proof.
  unfold ReadFull. cbn [rd_bytes rd_end].
  rewrite (proj2 (Nat.leb_le _ _)) by (rewrite length_app; lia).
  by rewrite take_app_length, drop_app_length.
Qed.

Lemma ReadUint_be n k rest e :
  0 <= n < 256 ^ Z.of_nat k ->
  ReadUint k {| rd_bytes := be_bytes k n ++ rest; rd_end := e |} = Ok (n, {| rd_bytes := rest; rd_end := e |}).
Proof.
  intros Hn. unfold ReadUint.
  pose proof (ReadFull_app (be_bytes k n) rest e) as Hr. rewrite length_be_bytes in Hr. rewrite Hr.
  simpl. by rewrite big_endian_be_bytes.
Qed.

Lemma ReadMessage_framed raw rest e :
  (10 <= length raw)%nat -> Z.of_nat (length raw) < 65536 ->
  ReadMessage {| rd_bytes := framed raw ++ rest; rd_end := e |} =
  let* m := decode raw in Ok (m, {| rd_bytes := rest; rd_end := e |}).
Proof.
  intros Hlo Hhi. unfold ReadMessage, framed. rewrite <- app_assoc, ReadUint_be by (simpl; lia).
  cbn [res_bind]. rewrite (proj2 (Z.ltb_ge _ _)), Nat2Z.id, ReadFull_app by lia. done.
Qed.

Lemma frame_framed compress id m raw :
  PackBuffer true (with_Id id m) (Msg_Len compress m + 1) = inl (true, raw) ->
  Msg_Len compress m = length raw -> frame compress id m = Ok (framed raw).
Proof. intros Hp Hl. unfold frame, framed. by rewrite Hp, Hl. Qed.

(** What is left of the reader after [n] more messages, and the messages. *)
Fixpoint read_messages (n : nat) (r : Reader) : res (list WMsg * Reader) :=
  match n with
  | O => Ok ([], r)
  | S n =>
      let* '(m, r) := ReadMessage r in
      let* '(ms, r) := read_messages n r in
      Ok (m :: ms, r)
  end.

Definition frame_fits (raw : list Z) : Prop := (10 <= length raw)%nat /\ Z.of_nat (length raw) < 65536.

(** Frames are read as they were written: on a connection that carries any
    number of packed messages of 10 to 65535 bytes, each behind the length
    [WriteMessage] puts in front of it, [ReadMessage] finds every message where
    it starts, decodes exactly its bytes and leaves what follows the last one
    untouched.  The length is right for a message whose packed form is as long
    as [message.Len()] says and fits into the buffer. *)
Theorem frames_read_back (sent : list (bool * Z * DMsg * list Z * WMsg)) (rest : list Z) (e : error) :
  Forall (fun '(compress, id, m, raw, w) =>
    PackBuffer true (with_Id id m) (Msg_Len compress m + 1) = inl (true, raw) /\
    Msg_Len compress m = length raw /\ frame_fits raw /\ Unpack raw = inl w) sent ->
  exists frames,
    Forall2 (fun '(compress, id, m, _, _) l => frame compress id m = Ok l) sent frames /\
    read_messages (length sent) {| rd_bytes := concat frames ++ rest; rd_end := e |} =
      Ok (map snd sent, {| rd_bytes := rest; rd_end := e |}).
Proof.
  induction 1 as [|[[[[c id] m] raw] w] sent (Hp & Hl & [Hlo Hhi] & Hu) _ (frames & Hf & Hr)].
  { by exists []. }
  exists (framed raw :: frames). split; [constructor; [by apply frame_framed|done]|].
  cbn [concat length read_messages map snd]. rewrite <- app_assoc, ReadMessage_framed by done.
  unfold decode. rewrite Hu. cbn [res_bind]. by rewrite Hr.
Qed.

(** A message shorter than ten bytes is refused, whatever the frame holds. *)
Lemma ReadMessage_short n rest e :
  0 <= n < 10 -> ReadMessage {| rd_bytes := be_bytes 2 n ++ rest; rd_end := e |} = Err ErrShortRead.
Proof.
  intros Hn. unfold ReadMessage. rewrite ReadUint_be by (simpl; lia). cbn [res_bind].
  by rewrite (proj2 (Z.ltb_lt _ _)) by lia.
Qed.
End wire.

(** ** An instance to evaluate

    Two bytes of id, ten of other header, four bytes for each record, two when
    names are compressed; a received message says in its fourth byte how many
    blocks of 256 bytes follow the header. *)
Definition concrete_wire : DNSWire := {|
  Msg_Len compress m := (12 + (if compress then 2 else 4) * length (msg_Answer m))%nat;
  PackBuffer compress m n :=
    inl ((12 + 4 * length (msg_Answer m) + 1 <=? n)%nat,
         be_bytes 2 (msg_Id m) ++ replicate (10 + (if compress then 2 else 4) * length (msg_Answer m)) 0);
  Unpack l :=
    if (length l <? 12 + 256 * Z.to_nat (default 0 (l !! 3%nat))%Z)%nat then
      inr (ErrNew "dns: overflow unpacking uint16")
    else inl {| w_msg := Build_Msg (big_endian (take 2 l)) false false false false 0 [] [] [] [];
                w_Truncated := bool_decide (l !! 2%nat = Some 2) |};
  UDPSize := hdr_Class;
  fresh_bytes n := replicate n 170 |}.

Definition bare_message (id : Z) : DMsg := Build_Msg id false false true false 0 [] [] [] [].

Lemma frames_read_back_witness :
  exists frames,
    Forall2 (fun '(compress, id, m, _, _) l => @frame concrete_wire compress id m = Ok l)
      [(false, 1, bare_message 9, be_bytes 2 1 ++ replicate 10 0,
         {| w_msg := Build_Msg 1 false false false false 0 [] [] [] []; w_Truncated := false |});
       (true, 2, bare_message 8, be_bytes 2 2 ++ replicate 10 0,
         {| w_msg := Build_Msg 2 false false false false 0 [] [] [] []; w_Truncated := false |})] frames /\
    @read_messages concrete_wire 2 {| rd_bytes := concat frames ++ [5]; rd_end := ErrEOF |} =
      Ok ([{| w_msg := Build_Msg 1 false false false false 0 [] [] [] []; w_Truncated := false |};
           {| w_msg := Build_Msg 2 false false false false 0 [] [] [] []; w_Truncated := false |}],
          {| rd_bytes := [5]; rd_end := ErrEOF |}).
Proof.
  apply (@frames_read_back concrete_wire
    [(false, 1, bare_message 9, be_bytes 2 1 ++ replicate 10 0,
        {| w_msg := Build_Msg 1 false false false false 0 [] [] [] []; w_Truncated := false |});
     (true, 2, bare_message 8, be_bytes 2 2 ++ replicate 10 0,
        {| w_msg := Build_Msg 2 false false false false 0 [] [] [] []; w_Truncated := false |})] [5] ErrEOF).
  repeat constructor; simpl; lia.
Defined.

(** ** Behaviours worth knowing

    The length in front of a message is computed without compression, the
    message is packed with it: when names repeat, the frame promises more bytes
    than it has, and the reader waits or takes them from the next message. *)
Definition message_with_records (id : Z) (n : nat) : DMsg :=
  Build_Msg id false false true false 0 [] (replicate n
    {| hdr_Name := "example.com."; hdr_Rrtype := TypeA; hdr_Class := ClassINET; hdr_Ttl := 60;
       rr_Data := DataA (Addr4 0) |}) [] [].

Example frame_promises_too_much :
  @frame concrete_wire false 1 (message_with_records 1 3) =
    Ok (be_bytes 2 24 ++ be_bytes 2 1 ++ replicate 16 0) /\
  is_ok (@ReadMessage concrete_wire {| rd_bytes := be_bytes 2 24 ++ be_bytes 2 1 ++ replicate 16 0;
                                      rd_end := ErrEOF |}) = false.
Proof. split; vm_compute; reflexivity. Qed.

(** With [Compress] already set on the message the buffer is too small to pack
    into, and the frame carries bytes that were never written. *)
Example frame_of_fresh_bytes :
  @frame concrete_wire true 1 (message_with_records 1 3) = Ok (be_bytes 2 18 ++ replicate 18 170).
Proof. vm_compute. reflexivity. Qed.
