(* ===== verification/DnsUdp.v ===== *)
(** * The UDP transport of DNS queries

    dns/transport/udp.go: queries of many goroutines share one connection, a
    receiver gives each answer to the callback registered under its id.  A state
    is the transport, its connections and its queries; an event is one step of
    one goroutine, and a run is a list of events.  The mutex [t.access] is held
    across the dial of a connection; regions under it that do not wait are one
    step, which can be taken only while the mutex is free. *)

From stdpp Require Import base list strings gmap.
From Stdlib Require Import ZArith Lia.
From S2P Require Import Prelude GoStd External Adapter RuleAction DnsMsg ByteReader DnsWire.

Open Scope Z_scope.

Definition os_ErrClosed : error := ErrNew "file already closed".

(** ** Data *)

(** Where the receiver of a connection is: in a read with a buffer of this
    size, between the lookup of a callback and its message, or gone. *)
Inductive receiver : Type :=
  | RecvRead (size : Z)
  | RecvDeliver (x : nat) (m : WMsg)
  | RecvEnded.

(** [dnsConnection]: [done] is closed exactly when [err] is set. *)
Record dnsConnection : Type := {
  conn_err : option error;
  conn_queryId : Z;
  conn_callbacks : gmap Z nat;
  conn_recvLoop : receiver;
  (** the datagrams written to it *)
  conn_sent : list (list Z) }.

Definition set_err (e : error) (c : dnsConnection) : dnsConnection :=
  {| conn_err := match conn_err c with Some e0 => Some e0 | None => Some e end;
     conn_queryId := conn_queryId c; conn_callbacks := conn_callbacks c;
     conn_recvLoop := conn_recvLoop c; conn_sent := conn_sent c |}.
Definition set_callbacks (q : Z) (m : gmap Z nat) (c : dnsConnection) : dnsConnection :=
  {| conn_err := conn_err c; conn_queryId := q; conn_callbacks := m;
     conn_recvLoop := conn_recvLoop c; conn_sent := conn_sent c |}.
Definition set_recvLoop (r : receiver) (c : dnsConnection) : dnsConnection :=
  {| conn_err := conn_err c; conn_queryId := conn_queryId c; conn_callbacks := conn_callbacks c;
     conn_recvLoop := r; conn_sent := conn_sent c |}.
Definition add_sent (l : list Z) (c : dnsConnection) : dnsConnection :=
  {| conn_err := conn_err c; conn_queryId := conn_queryId c; conn_callbacks := conn_callbacks c;
     conn_recvLoop := conn_recvLoop c; conn_sent := conn_sent c ++ [l] |}.

(** Where a call of [exchange] is: at the size of its EDNS0 record, before
    [open], in the dial of [open] with [t.access] held, before its registration,
    before or in its write, before its [select], in the [select] with the
    [t.done] it reads (counted by the channels before it), before the deferred
    [delete], and back. *)
Inductive pc : Type :=
  | PcSize
  | PcOpen
  | PcDial
  | PcRegister (c : nat)
  | PcWrite (c : nat) (id : Z)
  | PcSelect (c : nat) (id : Z)
  | PcWait (c : nat) (id : Z) (generation : nat)
  | PcDelete (c : nat) (id : Z) (r : WMsg + error)
  | PcDone (r : WMsg + error).

(** A call and its callback: [callback.done] is closed exactly when
    [callback.message] is set. *)
Record query : Type := {
  qr_message : DMsg; qr_Compress : bool; qr_pc : pc; callback_message : option WMsg }.

Definition at_pc (p : pc) (q : query) : query :=
  {| qr_message := qr_message q; qr_Compress := qr_Compress q; qr_pc := p; callback_message := callback_message q |}.
Definition answered (m : WMsg) (q : query) : query :=
  {| qr_message := qr_message q; qr_Compress := qr_Compress q; qr_pc := qr_pc q; callback_message := Some m |}.

(** [UDPTransport] with the objects it refers to. *)
Record UDPTransport : Type := {
  udpSize : Z;
  (** the call that holds the mutex [access] while it dials *)
  t_access : option nat;
  t_conn : option nat;
  (** how many channels [t.done] had before its present one; they are closed *)
  t_done : nat;
  conns : gmap nat dnsConnection;
  queries : gmap nat query }.

Definition set_udpSize (n : Z) (d : nat) (s : UDPTransport) : UDPTransport :=
  {| udpSize := n; t_access := t_access s; t_conn := t_conn s; t_done := d; conns := conns s; queries := queries s |}.
Definition set_query (x : nat) (q : query) (s : UDPTransport) : UDPTransport :=
  {| udpSize := udpSize s; t_access := t_access s; t_conn := t_conn s; t_done := t_done s; conns := conns s;
     queries := <[x := q]> (queries s) |}.
Definition set_conn (c : nat) (cn : dnsConnection) (s : UDPTransport) : UDPTransport :=
  {| udpSize := udpSize s; t_access := t_access s; t_conn := t_conn s; t_done := t_done s; conns := <[c := cn]> (conns s);
     queries := queries s |}.
Definition set_t_conn (c : nat) (s : UDPTransport) : UDPTransport :=
  {| udpSize := udpSize s; t_access := t_access s; t_conn := Some c; t_done := t_done s; conns := conns s; queries := queries s |}.

Definition set_access (a : option nat) (s : UDPTransport) : UDPTransport :=
  {| udpSize := udpSize s; t_access := a; t_conn := t_conn s; t_done := t_done s; conns := conns s;
     queries := queries s |}.

Definition NewUDPRaw : UDPTransport :=
  {| udpSize := 2048; t_access := None; t_conn := None; t_done := 0; conns := ∅; queries := ∅ |}.

(** Why a [select] goes on. *)
Inductive branch : Type := ByCallback | ByConn | ByDone | ByContext (e : error).

Inductive udp_event : Type :=
  (** a goroutine calls [Exchange] *)
  | EvCall (x : nat) (message : DMsg) (compress : bool)
  | EvSize (x : nat)
  (** [open] up to its dial, if there is one *)
  | EvOpen (x : nat)
  (** the dial returns a new connection or an error *)
  | EvDial (x : nat) (dial : nat + error)
  | EvRegister (x : nat)
  (** the message is packed and written; the error is the one of the write *)
  | EvWrite (x : nat) (e : option error)
  | EvSelect (x : nat)
  | EvWake (x : nat) (b : branch)
  | EvDelete (x : nat)
  (** the read of a receiver returns *)
  | EvRead (c : nat) (r : list Z + error)
  | EvDeliver (c : nat)
  (** [UDPTransport.Close] *)
  | EvClose.

(** ** Steps *)

Section udp.
Context `{DNSLib} `{DNSWire}.

(** [UDPTransport.Close]: a new [t.done], the old one is closed. *)
Definition UDPTransport_Close (s : UDPTransport) : UDPTransport :=
  set_udpSize (udpSize s) (S (t_done s)) s.

(** The part of [exchange] under [t.access]. *)
Definition raise_udpSize (message : DMsg) (s : UDPTransport) : UDPTransport :=
  match IsEdns0 message with
  | Some opt => if udpSize s <? UDPSize opt then set_udpSize (UDPSize opt) (S (t_done s)) s else s
  | None => s
  end.

Definition new_connection (s : UDPTransport) : dnsConnection :=
  {| conn_err := None; conn_queryId := 0; conn_callbacks := ∅;
     conn_recvLoop := RecvRead (udpSize s); conn_sent := [] |}.

(** [open]: the connection that is there and not closed. *)
Definition open_conn (s : UDPTransport) : option nat :=
  match t_conn s with
  | Some c =>
      match conns s !! c with
      | Some cn => match conn_err cn with None => Some c | Some _ => None end
      | None => None
      end
  | None => None
  end.

(** [open] once its dial has returned; the deferred [Unlock]. *)
Definition open_dialed (dial : nat + error) (s : UDPTransport) : option (UDPTransport * (nat + error)) :=
  match dial with
  | inr e => Some (set_access None s, inr e)
  | inl c =>
      match conns s !! c with
      | Some _ => None
      | None => Some (set_access None (set_t_conn c (set_conn c (new_connection s) s)), inl c)
      end
  end.

(** [t.access.Lock()] with a region that does not wait: the step is there only
    while no call holds the mutex, whatever has become of the caller's context. *)
Definition locked {A} (s : UDPTransport) (region : A) : option A :=
  match t_access s with None => Some region | Some _ => None end.

(** Registration: the next id, and the callback under it. *)
Definition register (x : nat) (cn : dnsConnection) : dnsConnection * Z :=
  let id := (conn_queryId cn + 1) mod 65536 in
  (set_callbacks id (<[id := x]> (conn_callbacks cn)) cn, id).

(** [PackBuffer] and [conn.Write] *)
Definition pack_query (id : Z) (q : query) : (bool * list Z) + error :=
  PackBuffer true (with_Id id (qr_message q)) (Msg_Len (qr_Compress q) (qr_message q) + 1).

Definition write_query (id : Z) (q : query) (e : option error) (cn : dnsConnection) :
    dnsConnection * option error :=
  match pack_query id q with
  | inr e => (cn, Some e)
  | inl (_, rawMessage) =>
      match e with
      | Some e => (set_err e cn, Some e)
      | None => (add_sent rawMessage cn, None)
      end
  end.

(** [select]: the outcome of a branch that is ready. *)
Definition wake (q : query) (cn : dnsConnection) (generation : nat) (b : branch) (s : UDPTransport) :
    option (dnsConnection * (WMsg + error)) :=
  match b with
  | ByCallback =>
      match callback_message q with
      | Some m =>
          Some (cn, inl {| w_msg := with_Id (msg_Id (qr_message q)) (w_msg m); w_Truncated := w_Truncated m |})
      | None => None
      end
  | ByConn => match conn_err cn with Some e => Some (cn, inr e) | None => None end
  | ByDone => if (generation <? t_done s)%nat then Some (cn, inr os_ErrClosed) else None
  | ByContext e => Some (set_err e cn, inr e)
  end.

(** One round of [recvLoop] up to the lookup of the callback.  A read may have
    returned before the connection was closed. *)
Definition recv_read (r : list Z + error) (size : Z) (s : UDPTransport) (cn : dnsConnection) : dnsConnection :=
  match r with
  | inr e => set_recvLoop RecvEnded (set_err e cn)
  | inl datagram =>
      match Unpack (take (Z.to_nat size) datagram) with
      | inr e => set_recvLoop RecvEnded (set_err e cn)
      | inl m =>
          match conn_callbacks cn !! msg_Id (w_msg m) with
          | None => set_recvLoop (RecvRead (udpSize s)) cn
          | Some x => set_recvLoop (RecvDeliver x m) cn
          end
      end
  end.

Definition deliver (m : WMsg) (q : query) : query :=
  match callback_message q with Some _ => q | None => answered m q end.

(** A step of the call [x] that is at [p]. *)
Definition query_step (ev : udp_event) (x : nat) (q : query) (s : UDPTransport) : option UDPTransport :=
  match ev, qr_pc q with
  | EvSize _, PcSize => locked s (set_query x (at_pc PcOpen q) (raise_udpSize (qr_message q) s))
  | EvOpen _, PcOpen =>
      locked s
        match open_conn s with
        | Some c => set_query x (at_pc (PcRegister c) q) s
        | None => set_query x (at_pc PcDial q) (set_access (Some x) s)
        end
  | EvDial _ dial, PcDial =>
      match open_dialed dial s with
      | Some (s', inl c) => Some (set_query x (at_pc (PcRegister c) q) s')
      | Some (s', inr e) => Some (set_query x (at_pc (PcDone (inr e)) q) s')
      | None => None
      end
  | EvRegister _, PcRegister c =>
      match conns s !! c with
      | Some cn =>
          let '(cn', id) := register x cn in
          Some (set_query x (at_pc (PcWrite c id) q) (set_conn c cn' s))
      | None => None
      end
  | EvWrite _ e, PcWrite c id =>
      match conns s !! c with
      | Some cn =>
          let '(cn', failed) := write_query id q e cn in
          let p := match failed with Some e => PcDelete c id (inr e) | None => PcSelect c id end in
          Some (set_query x (at_pc p q) (set_conn c cn' s))
      | None => None
      end
  | EvSelect _, PcSelect c id => Some (set_query x (at_pc (PcWait c id (t_done s)) q) s)
  | EvWake _ b, PcWait c id generation =>
      match conns s !! c with
      | Some cn =>
          match wake q cn generation b s with
          | Some (cn', r) => Some (set_query x (at_pc (PcDelete c id r) q) (set_conn c cn' s))
          | None => None
          end
      | None => None
      end
  | EvDelete _, PcDelete c id r =>
      match conns s !! c with
      | Some cn =>
          Some (set_query x (at_pc (PcDone r) q)
            (set_conn c (set_callbacks (conn_queryId cn) (delete id (conn_callbacks cn)) cn) s))
      | None => None
      end
  | _, _ => None
  end.

Definition event_query (ev : udp_event) : option nat :=
  match ev with
  | EvSize x | EvOpen x | EvDial x _ | EvRegister x | EvWrite x _ | EvSelect x | EvWake x _ | EvDelete x => Some x
  | _ => None
  end.

Definition udp_step (ev : udp_event) (s : UDPTransport) : option UDPTransport :=
  match ev with
  | EvCall x message compress =>
      match queries s !! x with
      | Some _ => None
      | None => Some (set_query x {| qr_message := message; qr_Compress := compress; qr_pc := PcSize;
                                       callback_message := None |} s)
      end
  | EvClose => locked s (UDPTransport_Close s)
  | EvRead c r =>
      match conns s !! c with
      | Some cn =>
          match conn_recvLoop cn with
          | RecvRead size => Some (set_conn c (recv_read r size s cn) s)
          | _ => None
          end
      | None => None
      end
  | EvDeliver c =>
      match conns s !! c with
      | Some cn =>
          match conn_recvLoop cn with
          | RecvDeliver x m =>
              match queries s !! x with
              | Some q => Some (set_query x (deliver m q) (set_conn c (set_recvLoop (RecvRead (udpSize s)) cn) s))
              | None => None
              end
          | _ => None
          end
      | None => None
      end
  | _ =>
      match event_query ev with
      | Some x => match queries s !! x with Some q => query_step ev x q s | None => None end
      | None => None
      end
  end.

Fixpoint udp_run (tr : list udp_event) (s : UDPTransport) : option UDPTransport :=
  match tr with
  | [] => Some s
  | ev :: tr => match udp_step ev s with Some s => udp_run tr s | None => None end
  end.

Definition udp_reachable (tr : list udp_event) (s : UDPTransport) : Prop := udp_run tr NewUDPRaw = Some s.

(** [UDPTransport.Exchange] once [exchange] has returned: a truncated answer is
    asked for again over TCP. *)
Definition UDPTransport_Exchange (tcp : DMsg -> res WMsg) (message : DMsg) (r : WMsg + error) : res WMsg :=
  match r with
  | inr e => Err e
  | inl response => if w_Truncated response then tcp message else Ok response
  end.

(** ** Positions *)

(** The connection and the id of a call that is registered. *)
Definition registered (p : pc) : option (nat * Z) :=
  match p with
  | PcWrite c id | PcSelect c id | PcWait c id _ | PcDelete c id _ => Some (c, id)
  | _ => None
  end.

Definition on_conn (p : pc) (c : nat) (id : Z) : Prop :=
  registered p = Some (c, id) \/ exists r, p = PcDone r.

(** [x] was given [m]: a datagram came on connection [c] while the callback of
    [x] was registered there under the id of the message. *)
Definition received_for (tr : list udp_event) (x c : nat) (id : Z) (m : WMsg) : Prop :=
  exists before datagram after s cn size q,
    tr = before ++ EvRead c (inl datagram) :: after /\ udp_reachable before s /\
    conns s !! c = Some cn /\ conn_recvLoop cn = RecvRead size /\
    Unpack (take (Z.to_nat size) datagram) = inl m /\ msg_Id (w_msg m) = id /\
    conn_callbacks cn !! id = Some x /\ queries s !! x = Some q /\ registered (qr_pc q) = Some (c, id).

(** The query of [q] was written to connection [c] with this id. *)
Definition query_sent (s : UDPTransport) (c : nat) (id : Z) (q : query) : Prop :=
  exists cn in_place raw, conns s !! c = Some cn /\ pack_query id q = inl (in_place, raw) /\ raw ∈ conn_sent cn.

Definition answered_by (tr : list udp_event) (s : UDPTransport) (x : nat) (q : query) (c : nat) (id : Z)
    (w : WMsg) : Prop :=
  exists m, received_for tr x c id m /\ query_sent s c id q /\
    w = {| w_msg := with_Id (msg_Id (qr_message q)) (w_msg m); w_Truncated := w_Truncated m |}.

(** ** The invariant of runs *)

Definition query_ok (tr : list udp_event) (s : UDPTransport) (x : nat) (q : query) : Prop :=
  (forall m, callback_message q = Some m -> exists c id, received_for tr x c id m /\ on_conn (qr_pc q) c id) /\
  match qr_pc q with
  | PcSize | PcOpen | PcDial => True
  | PcRegister c | PcWrite c _ | PcDelete c _ (inr _) => is_Some (conns s !! c)
  | PcSelect c id => query_sent s c id q
  | PcWait c id g => query_sent s c id q /\ (g <= t_done s)%nat
  | PcDelete c id (inl w) => answered_by tr s x q c id w
  | PcDone (inl w) => exists c id, answered_by tr s x q c id w
  | PcDone (inr _) => True
  end.

Definition conn_ok (tr : list udp_event) (s : UDPTransport) (c : nat) (cn : dnsConnection) : Prop :=
  0 <= conn_queryId cn < 65536 /\
  (forall id x, conn_callbacks cn !! id = Some x ->
     exists q, queries s !! x = Some q /\ registered (qr_pc q) = Some (c, id)) /\
  (forall x m, conn_recvLoop cn = RecvDeliver x m ->
     exists q, queries s !! x = Some q /\ received_for tr x c (msg_Id (w_msg m)) m /\
       on_conn (qr_pc q) c (msg_Id (w_msg m))).

Record udp_inv (tr : list udp_event) (s : UDPTransport) : Prop := {
  inv_queries : forall x q, queries s !! x = Some q -> query_ok tr s x q;
  inv_conns : forall c cn, conns s !! c = Some cn -> conn_ok tr s c cn;
  inv_t_conn : forall c, t_conn s = Some c -> is_Some (conns s !! c) }.

(** What never shrinks. *)
Definition grows (s s' : UDPTransport) : Prop :=
  (t_done s <= t_done s')%nat /\
  forall c cn, conns s !! c = Some cn -> exists cn', conns s' !! c = Some cn' /\ conn_sent cn ⊆ conn_sent cn'.

Lemma received_for_app tr tr' x c id m : received_for tr x c id m -> received_for (tr ++ tr') x c id m.
Proof.
  intros (before & d & after & s & cn & size & q & -> & Hr). exists before, d, (after ++ tr'), s, cn, size, q.
  split; [by rewrite <- app_assoc|done].
Qed.

Lemma query_sent_grows s s' c id q : grows s s' -> query_sent s c id q -> query_sent s' c id q.
Proof.
  intros [_ Hg] (cn & ip & raw & Hc & Hp & Hin). destruct (Hg _ _ Hc) as (cn' & Hc' & Hs).
  exists cn', ip, raw. split_and!; [done..|by apply Hs].
Qed.

Lemma answered_by_grows tr tr' s s' x q c id w :
  grows s s' -> answered_by tr s x q c id w -> answered_by (tr ++ tr') s' x q c id w.
Proof.
  intros Hg (m & Hr & Hs & Hw). exists m.
  split_and!; [by apply received_for_app|by eapply query_sent_grows|done].
Qed.

Lemma is_Some_grows s s' c : grows s s' -> is_Some (conns s !! c) -> is_Some (conns s' !! c).
Proof. intros [_ Hg] [cn Hc]. destruct (Hg _ _ Hc) as (cn' & -> & _). done. Qed.

#[local] Hint Resolve query_sent_grows answered_by_grows is_Some_grows received_for_app : udp.

Lemma query_ok_grows tr tr' s s' x q : grows s s' -> query_ok tr s x q -> query_ok (tr ++ tr') s' x q.
Proof.
  intros Hg [Hm Hp]. split; [intros m (c & id & Hr & Ho)%Hm; eauto with udp|].
  destruct (qr_pc q) as [| | | | | |c id g|c id [w|e]|[w|e]]; eauto with udp.
  - destruct Hp as [Hs Hd]. split; [by eapply query_sent_grows|]. destruct Hg. lia.
  - destruct Hp as (c & id & Ha). eauto with udp.
Qed.

Lemma grows_set_query x q s s' : grows s s' -> grows s (set_query x q s').
Proof. done. Qed.

Lemma grows_set_conn s c cn cn' :
  conns s !! c = Some cn -> conn_sent cn ⊆ conn_sent cn' -> grows s (set_conn c cn' s).
Proof.
  intros Hc Hs. split; [done|]. intros c' cn0 Hc'. simpl.
  destruct (decide (c' = c)) as [->|Hne].
  - rewrite lookup_insert_eq. rewrite Hc in Hc'. injection Hc' as <-. eauto.
  - rewrite lookup_insert_ne by done. eauto.
Qed.


(** The shape of most steps: one call moves, connections change around it. *)
Lemma inv_move tr s s1 x q p :
  udp_inv tr s -> queries s !! x = Some q -> queries s1 = queries s -> grows s s1 ->
  (forall c, t_conn s1 = Some c -> is_Some (conns s1 !! c)) ->
  (forall c id, on_conn (qr_pc q) c id -> on_conn p c id) ->
  (forall c cn', conns s1 !! c = Some cn' -> 0 <= conn_queryId cn' < 65536 /\
     (forall id y, conn_callbacks cn' !! id = Some y ->
        (y = x /\ registered p = Some (c, id)) \/
        (y <> x /\ exists cn, conns s !! c = Some cn /\ conn_callbacks cn !! id = Some y)) /\
     (forall y m, conn_recvLoop cn' = RecvDeliver y m ->
        exists cn, conns s !! c = Some cn /\ conn_recvLoop cn = RecvDeliver y m)) ->
  query_ok tr (set_query x (at_pc p q) s1) x (at_pc p q) ->
  udp_inv tr (set_query x (at_pc p q) s1).
Proof.
  intros [Hq Hc Ht] Hx Hqs Hg Ht' Hon Hconn Hok. constructor; [| |done].
  - intros y qy Hy. simpl in Hy. rewrite Hqs in Hy. destruct (decide (y = x)) as [->|Hne].
    + rewrite lookup_insert_eq in Hy. injection Hy as <-. done.
    + rewrite lookup_insert_ne in Hy by done.
      rewrite <- (app_nil_r tr). by apply (query_ok_grows _ _ s), Hq.
  - intros c cn' Hcn'. destruct (Hconn _ _ Hcn') as (Hid & Hcb & Hrecv). split_and!; [lia|lia| |].
    + intros id y [[-> Hr]|(Hne & cn & Hcn & Hy)]%Hcb; simpl; rewrite Hqs.
      * eexists. by rewrite lookup_insert_eq.
      * destruct (Hc _ _ Hcn) as (_ & Hreg & _). rewrite lookup_insert_ne by done. eauto.
    + intros y m (cn & Hcn & Hy)%Hrecv. destruct (Hc _ _ Hcn) as (_ & _ & Hdl).
      destruct (Hdl _ _ Hy) as (qy & Hqy & Hr & Ho). simpl. rewrite Hqs.
      destruct (decide (y = x)) as [->|Hne].
      * rewrite lookup_insert_eq. eexists. split_and!; [done..|]. apply Hon. congruence.
      * rewrite lookup_insert_ne by done. eauto.
Qed.

(** The call moves alone, the transport may have changed but its connections not. *)
Lemma inv_move_alone tr s s1 x q p :
  udp_inv tr s -> queries s !! x = Some q -> queries s1 = queries s -> conns s1 = conns s ->
  t_conn s1 = t_conn s -> (t_done s <= t_done s1)%nat ->
  (forall c id, registered (qr_pc q) = Some (c, id) -> registered p = Some (c, id)) ->
  (forall r, qr_pc q <> PcDone r) ->
  query_ok tr (set_query x (at_pc p q) s1) x (at_pc p q) ->
  udp_inv tr (set_query x (at_pc p q) s1).
Proof.
  intros Hinv Hx Hqs Hcs Ht Hd Hreg Hnd Hok. eapply inv_move; [exact Hinv|done|done|..|done].
  - split; [done|]. rewrite Hcs. eauto.
  - rewrite Ht, Hcs. apply (inv_t_conn _ _ Hinv).
  - intros c id [Ho|[r Ho]]; [left; auto|by destruct (Hnd r)].
  - intros c cn Hcn. rewrite Hcs in Hcn. destruct (inv_conns _ _ Hinv _ _ Hcn) as (? & Hcb & _).
    split_and!; [lia|lia| |eauto].
    intros id y Hy. destruct (decide (y = x)) as [->|]; [left|right; eauto].
    destruct (Hcb _ _ Hy) as (qy & ? & ?). split; [done|]. apply Hreg. congruence.
Qed.

(** The call moves with a step on its connection. *)
Lemma inv_move_conn tr s x q p c cn cn' :
  udp_inv tr s -> queries s !! x = Some q -> conns s !! c = Some cn ->
  conn_sent cn ⊆ conn_sent cn' -> conn_recvLoop cn' = conn_recvLoop cn -> 0 <= conn_queryId cn' < 65536 ->
  (forall c' id, on_conn (qr_pc q) c' id -> on_conn p c' id) ->
  (forall c' id, registered (qr_pc q) = Some (c', id) -> c' = c) ->
  (forall id y, conn_callbacks cn' !! id = Some y ->
     (y = x /\ registered p = Some (c, id)) \/ (y <> x /\ conn_callbacks cn !! id = Some y)) ->
  query_ok tr (set_query x (at_pc p q) (set_conn c cn' s)) x (at_pc p q) ->
  udp_inv tr (set_query x (at_pc p q) (set_conn c cn' s)).
Proof.
  intros Hinv Hx Hcn Hsent Hrecv Hid Hon Hreg Hcb Hok.
  eapply inv_move; [exact Hinv|done|done|by eapply grows_set_conn| |done| |done].
  - intros c' Hc'%(inv_t_conn _ _ Hinv). eapply is_Some_grows; [|done]. by eapply grows_set_conn.
  - intros c' cn0 Hc'. simpl in Hc'. destruct (decide (c' = c)) as [->|Hne].
    + rewrite lookup_insert_eq in Hc'. injection Hc' as <-. split_and!; [lia|lia| |].
      * intros id y [?|[? ?]]%Hcb; eauto.
      * intros y m Hy. exists cn. split; [done|congruence].
    + rewrite lookup_insert_ne in Hc' by done.
      destruct (inv_conns _ _ Hinv _ _ Hc') as (? & Hcbs & _). split_and!; [lia|lia| |eauto].
      intros id y Hy. right. destruct (Hcbs _ _ Hy) as (qy & Hqy & Hr). split; [|eauto].
      intros ->. destruct Hne. apply (Hreg _ id). congruence.
Qed.

(** Steps that keep every call where it is. *)
Lemma inv_still tr ev s s' :
  udp_inv tr s -> grows s s' ->
  (forall x q', queries s' !! x = Some q' -> exists q, queries s !! x = Some q /\ qr_pc q' = qr_pc q /\
     qr_message q' = qr_message q /\ qr_Compress q' = qr_Compress q /\
     (callback_message q' = callback_message q \/
      exists m c id, callback_message q' = Some m /\ received_for tr x c id m /\ on_conn (qr_pc q) c id)) ->
  (forall x q, queries s !! x = Some q -> exists q', queries s' !! x = Some q' /\ qr_pc q' = qr_pc q) ->
  (forall c cn', conns s' !! c = Some cn' -> 0 <= conn_queryId cn' < 65536 /\
     (forall id x, conn_callbacks cn' !! id = Some x ->
        exists cn, conns s !! c = Some cn /\ conn_callbacks cn !! id = Some x) /\
     (forall x m, conn_recvLoop cn' = RecvDeliver x m ->
        (exists cn, conns s !! c = Some cn /\ conn_recvLoop cn = RecvDeliver x m) \/
        exists q, queries s !! x = Some q /\ received_for (tr ++ [ev]) x c (msg_Id (w_msg m)) m /\
          on_conn (qr_pc q) c (msg_Id (w_msg m)))) ->
  (forall c, t_conn s' = Some c -> is_Some (conns s' !! c)) ->
  udp_inv (tr ++ [ev]) s'.
Proof.
  intros [Hq Hc Ht] Hg Hback Hforth Hconn Ht'. constructor; [| |done].
  - intros x q' Hx. destruct (Hback _ _ Hx) as (q & Hxq & Hpc & Hmsg & Hcomp & Hcb).
    destruct (query_ok_grows tr [ev] s s' x q Hg (Hq _ _ Hxq)) as [Hm Hp].
    assert (Hsame : forall c id, query_sent s' c id q -> query_sent s' c id q').
    { intros c id (cn & ip & raw & ? & Hpk & ?). exists cn, ip, raw. unfold pack_query.
      by rewrite Hmsg, Hcomp. }
    assert (Hans : forall c id w, answered_by (tr ++ [ev]) s' x q c id w -> answered_by (tr ++ [ev]) s' x q' c id w).
    { intros c id w (m & Hr & Hs & Hw). exists m. rewrite Hmsg. auto. }
    split.
    + intros m Hm'. rewrite Hpc. destruct Hcb as [Hcb|(m' & c & id & Hcb & Hr & Ho)].
      * apply Hm. congruence.
      * exists c, id. rewrite Hcb in Hm'. injection Hm' as <-. split; [by apply received_for_app|done].
    + rewrite Hpc. destruct (qr_pc q) as [| | | | | |c id g|c id [w|e]|[w|e]]; auto.
      * destruct Hp as [? ?]. auto.
      * destruct Hp as (c & id & ?). eauto.
  - intros c cn' Hcn'. destruct (Hconn _ _ Hcn') as (Hid & Hcbs & Hdl). split_and!; [lia|lia| |].
    + intros id x (cn & Hcn & Hx)%Hcbs. destruct (Hc _ _ Hcn) as (_ & Hreg & _).
      destruct (Hreg _ _ Hx) as (q & Hxq & Hr). destruct (Hforth _ _ Hxq) as (q' & ? & Hpc). exists q'. split; [done|by rewrite Hpc].
    + intros x m Hxm. apply Hdl in Hxm as [(cn & Hcn & Hxm)|(q & Hxq & Hr & Ho)].
      * destruct (Hc _ _ Hcn) as (_ & _ & Hd). destruct (Hd _ _ Hxm) as (q & Hxq & Hr & Ho).
        destruct (Hforth _ _ Hxq) as (q' & ? & Hpc). exists q'.
        split_and!; [done|by apply received_for_app|by rewrite Hpc].
      * destruct (Hforth _ _ Hxq) as (q' & ? & Hpc). exists q'.
        split_and!; [done..|by rewrite Hpc].
Qed.

Lemma udp_grows_refl s : grows s s.
Proof. split; [done|eauto]. Qed.

Lemma inv_extend tr ev s : udp_inv tr s -> udp_inv (tr ++ [ev]) s.
Proof.
  intros Hinv. eapply inv_still; [exact Hinv|apply udp_grows_refl|..].
  - intros x q Hx. exists q. split_and!; auto.
  - eauto.
  - intros c cn Hc. destruct (inv_conns _ _ Hinv _ _ Hc) as (? & _). split_and!; [lia|lia|eauto..].
  - apply (inv_t_conn _ _ Hinv).
Qed.

Lemma raise_udpSize_keeps m s :
  queries (raise_udpSize m s) = queries s /\ conns (raise_udpSize m s) = conns s /\
  t_conn (raise_udpSize m s) = t_conn s /\ (t_done s <= t_done (raise_udpSize m s))%nat.
Proof. unfold raise_udpSize. repeat case_match; simpl; split_and!; auto with lia. Qed.

Lemma locked_ok {A} s (a b : A) : locked s a = Some b -> t_access s = None /\ a = b.
Proof. unfold locked. case_match; [done|by intros [= ->]]. Qed.

Lemma open_conn_ok s c : open_conn s = Some c -> exists cn, conns s !! c = Some cn /\ conn_err cn = None.
Proof. unfold open_conn. intros Ho. repeat case_match; simplify_eq. eauto. Qed.

(** What the dial does to the connections: nothing, or one more. *)
Lemma open_dialed_spec dial s s' r :
  open_dialed dial s = Some (s', r) ->
  (s' = set_access None s /\ exists e, r = inr e /\ dial = inr e) \/
  exists c, dial = inl c /\ r = inl c /\ conns s !! c = None /\
    s' = set_access None (set_t_conn c (set_conn c (new_connection s) s)).
Proof. unfold open_dialed. intros Ho. repeat case_match; simplify_eq; eauto 10. Qed.

Lemma query_ok_move tr s s1 x q p :
  query_ok tr s x q -> (forall c id, on_conn (qr_pc q) c id -> on_conn p c id) ->
  match p with
  | PcSize | PcOpen | PcDial => True
  | PcRegister c | PcWrite c _ | PcDelete c _ (inr _) => is_Some (conns s1 !! c)
  | PcSelect c id => query_sent s1 c id q
  | PcWait c id g => query_sent s1 c id q /\ (g <= t_done s1)%nat
  | PcDelete c id (inl w) => answered_by tr s1 x q c id w
  | PcDone (inl w) => exists c id, answered_by tr s1 x q c id w
  | PcDone (inr _) => True
  end ->
  query_ok tr (set_query x (at_pc p q) s1) x (at_pc p q).
Proof.
  intros [Hm _] Hon Hp. split.
  - intros m (c & id & Hr & Ho)%Hm. exists c, id. split; [done|]. by apply Hon.
  - simpl. by destruct p as [| | | | | | |? ? [|]|[|]].
Qed.

Lemma grows_trans s1 s2 s3 : grows s1 s2 -> grows s2 s3 -> grows s1 s3.
Proof.
  intros [Hd1 Hc1] [Hd2 Hc2]. split; [lia|]. intros c cn (cn2 & Hcn2 & Hs2)%Hc1.
  destruct (Hc2 _ _ Hcn2) as (cn3 & ? & ?). exists cn3. split; [done|]. by etrans.
Qed.

Lemma inv_open tr s x q :
  udp_inv tr s -> queries s !! x = Some q -> qr_pc q = PcOpen ->
  udp_inv tr match open_conn s with
             | Some c => set_query x (at_pc (PcRegister c) q) s
             | None => set_query x (at_pc PcDial q) (set_access (Some x) s)
             end.
Proof.
  intros Hinv Hx Hp.
  assert (Hon : forall p c id, on_conn (qr_pc q) c id -> on_conn p c id) by (rewrite Hp; by intros ??? [?|[? ?]]).
  destruct (open_conn s) as [c|] eqn:Ho;
    (eapply inv_move_alone; [exact Hinv|done..|by rewrite Hp|by rewrite Hp|]);
    (eapply query_ok_move; [by apply Hinv|by apply Hon|]); [|done].
  by apply open_conn_ok in Ho as (cn & -> & _).
Qed.

Lemma inv_dialed tr s x q dial s' r :
  udp_inv tr s -> queries s !! x = Some q -> qr_pc q = PcDial -> open_dialed dial s = Some (s', r) ->
  udp_inv tr (set_query x (at_pc match r with inl c => PcRegister c | inr e => PcDone (inr e) end q) s').
Proof.
  intros Hinv Hx Hp [(-> & e & -> & ->)|(c & -> & -> & Hnew & ->)]%open_dialed_spec.
  - eapply inv_move_alone; [exact Hinv|done..|by rewrite Hp|by rewrite Hp|].
    eapply query_ok_move; [by apply Hinv|rewrite Hp; by intros ?? [?|[? ?]]|done].
  - assert (Hg : grows s (set_access None (set_t_conn c (set_conn c (new_connection s) s)))).
    { split; [done|]. intros c' cn Hc'. simpl. rewrite lookup_insert_ne by congruence. eauto. }
    eapply inv_move; [exact Hinv|done|done|done|..].
    + simpl. intros ? [= <-]. by rewrite lookup_insert_eq.
    + rewrite Hp. by intros ?? [?|[? ?]].
    + simpl. intros c' cn Hc'. destruct (decide (c' = c)) as [->|Hne].
      * rewrite lookup_insert_eq in Hc'. injection Hc' as <-. split_and!; [done..|].
        by simpl.
      * rewrite lookup_insert_ne in Hc' by done. destruct (inv_conns _ _ Hinv _ _ Hc') as (? & Hcb & _).
        split_and!; [lia|lia| |eauto]. intros id y Hy. right. split; [|eauto].
        intros ->. destruct (Hcb _ _ Hy) as (qy & Hqy & Hreg). simplify_eq. by rewrite Hp in Hreg.
    + eapply query_ok_move; [by apply Hinv|rewrite Hp; by intros ?? [?|[? ?]]|].
      simpl. by rewrite lookup_insert_eq.
Qed.

Lemma callbacks_of_other tr s x q c cn id y :
  udp_inv tr s -> queries s !! x = Some q -> conns s !! c = Some cn -> conn_callbacks cn !! id = Some y ->
  (y = x /\ registered (qr_pc q) = Some (c, id)) \/ (y <> x /\ conn_callbacks cn !! id = Some y).
Proof.
  intros Hinv Hx Hc Hy. destruct (decide (y = x)) as [->|]; [left|by right].
  destruct (inv_conns _ _ Hinv _ _ Hc) as (_ & Hcb & _). destruct (Hcb _ _ Hy) as (qy & ? & ?).
  split; [done|congruence].
Qed.

Lemma inv_register tr s x q c cn :
  udp_inv tr s -> queries s !! x = Some q -> qr_pc q = PcRegister c -> conns s !! c = Some cn ->
  udp_inv tr (set_query x (at_pc (PcWrite c (register x cn).2) q) (set_conn c (register x cn).1 s)).
Proof.
  intros Hinv Hx Hp Hc. eapply inv_move_conn; [exact Hinv|done|exact Hc|done|done|..].
  - simpl. apply Z.mod_pos_bound. lia.
  - rewrite Hp. by intros ?? [?|[? ?]].
  - by rewrite Hp.
  - simpl. intros id y Hy. destruct (decide (id = (conn_queryId cn + 1) mod 65536)) as [->|Hne].
    + rewrite lookup_insert_eq in Hy. injection Hy as <-. by left.
    + rewrite lookup_insert_ne in Hy by done.
      destruct (callbacks_of_other _ _ x q _ _ _ _ Hinv Hx Hc Hy) as [[_ Hr]|?]; [|by right].
      by rewrite Hp in Hr.
  - destruct (inv_queries _ _ Hinv _ _ Hx) as [Hm _]. split.
    + intros m (c' & id & _ & [Ho|[? Ho]])%Hm; by rewrite Hp in Ho.
    + simpl. by rewrite lookup_insert_eq.
Qed.

(** A step between two places where the call is registered. *)
Lemma inv_registered tr s x q p c id cn cn' :
  udp_inv tr s -> queries s !! x = Some q -> conns s !! c = Some cn ->
  registered (qr_pc q) = Some (c, id) -> registered p = Some (c, id) ->
  conn_sent cn ⊆ conn_sent cn' -> conn_recvLoop cn' = conn_recvLoop cn -> conn_queryId cn' = conn_queryId cn ->
  conn_callbacks cn' = conn_callbacks cn ->
  match p with
  | PcSelect c id => query_sent (set_conn c cn' s) c id q
  | PcDelete c id (inl w) => answered_by tr (set_conn c cn' s) x q c id w
  | PcDelete c _ (inr _) => True
  | _ => False
  end ->
  udp_inv tr (set_query x (at_pc p q) (set_conn c cn' s)).
Proof.
  intros Hinv Hx Hc Hq Hp Hsent Hrecv Hid Hcb Hok.
  assert (Hg : grows s (set_conn c cn' s)) by (by eapply grows_set_conn).
  assert (Hon : forall c' i, on_conn (qr_pc q) c' i -> on_conn p c' i).
  { intros c' i [Ho|[r Ho]]; [left; congruence|]. by rewrite Ho in Hq. }
  eapply inv_move_conn; [exact Hinv|done|exact Hc|done|done|..].
  - rewrite Hid. by destruct (inv_conns _ _ Hinv _ _ Hc).
  - done.
  - intros. congruence.
  - rewrite Hcb. intros i y Hy. destruct (callbacks_of_other _ _ x q _ _ _ _ Hinv Hx Hc Hy) as [[-> Hr]|?]; [|by right].
    left. split; [done|congruence].
  - eapply query_ok_move; [by apply Hinv|done|]. destruct p as [| | | | | | |c' i [w|e]|]; try done;
      injection Hp as -> ->; [done..|]. simpl. by rewrite lookup_insert_eq.
Qed.

Lemma inv_delete tr s x q c id r cn :
  udp_inv tr s -> queries s !! x = Some q -> qr_pc q = PcDelete c id r -> conns s !! c = Some cn ->
  udp_inv tr (set_query x (at_pc (PcDone r) q)
    (set_conn c (set_callbacks (conn_queryId cn) (delete id (conn_callbacks cn)) cn) s)).
Proof.
  intros Hinv Hx Hp Hc.
  set (cn' := set_callbacks _ _ cn).
  assert (Hg : grows s (set_conn c cn' s)) by (by eapply grows_set_conn).
  eapply inv_move_conn; [exact Hinv|done|exact Hc|done|done|..].
  - apply (inv_conns _ _ Hinv _ _ Hc).
  - intros c' i _. right. eauto.
  - rewrite Hp. by intros c' i [= <- _].
  - simpl. intros i y Hy. apply lookup_delete_Some in Hy as [Hne Hy].
    destruct (callbacks_of_other _ _ x q _ _ _ _ Hinv Hx Hc Hy) as [[_ Hr]|?]; [|by right].
    rewrite Hp in Hr. by injection Hr.
  - destruct (inv_queries _ _ Hinv _ _ Hx) as [Hm Hok]. rewrite Hp in Hok.
    eapply query_ok_move; [by apply Hinv|by right; eauto|].
    destruct r as [w|e]; [|done]. exists c, id.
    rewrite <- (app_nil_r tr). by eapply answered_by_grows.
Qed.

Lemma inv_write tr s x q c id cn e :
  udp_inv tr s -> queries s !! x = Some q -> qr_pc q = PcWrite c id -> conns s !! c = Some cn ->
  udp_inv tr (set_query x (at_pc match (write_query id q e cn).2 with
                                 | Some e => PcDelete c id (inr e) | None => PcSelect c id end q)
    (set_conn c (write_query id q e cn).1 s)).
Proof.
  intros Hinv Hx Hp Hc. unfold write_query. destruct (pack_query id q) as [[ip raw]|e'] eqn:Hpack.
  - destruct e as [e|]; simpl; eapply inv_registered; rewrite ?Hp; try done.
    + simpl. intros l Hl. apply elem_of_app. by left.
    + exists (add_sent raw cn), ip, raw. split_and!; [apply lookup_insert_eq|done|].
      apply elem_of_app. right. by apply list_elem_of_singleton.
  - simpl. eapply inv_registered; rewrite ?Hp; done.
Qed.

Lemma inv_wake tr s x q c id g b cn cn' r :
  udp_inv tr s -> queries s !! x = Some q -> qr_pc q = PcWait c id g -> conns s !! c = Some cn ->
  wake q cn g b s = Some (cn', r) ->
  udp_inv tr (set_query x (at_pc (PcDelete c id r) q) (set_conn c cn' s)).
Proof.
  intros Hinv Hx Hp Hc Hw. destruct (inv_queries _ _ Hinv _ _ Hx) as [Hm Hok].
  rewrite Hp in Hm, Hok. destruct Hok as [Hsent _].
  assert (Hcn : conn_sent cn' = conn_sent cn /\ conn_recvLoop cn' = conn_recvLoop cn /\
                conn_queryId cn' = conn_queryId cn /\ conn_callbacks cn' = conn_callbacks cn).
  { unfold wake in Hw. repeat case_match; by simplify_eq. }
  destruct Hcn as (Hs & Hr & Hi & Hcb).
  eapply inv_registered; rewrite ?Hp; try done; [by rewrite Hs|].
  destruct r as [w|e]; [|done]. unfold wake in Hw. repeat case_match; simplify_eq.
  destruct (Hm _ eq_refl) as (c' & id' & Hrec & [[= -> ->]|[? [=]]]).
  exists w0. split_and!; [done| |done]. eapply query_sent_grows; [|done]. by eapply grows_set_conn.
Qed.

Lemma recv_read_keeps r size s cn :
  conn_queryId (recv_read r size s cn) = conn_queryId cn /\
  conn_callbacks (recv_read r size s cn) = conn_callbacks cn /\
  conn_sent (recv_read r size s cn) = conn_sent cn.
Proof. unfold recv_read. by repeat case_match. Qed.

Lemma inv_read tr s c cn r size :
  udp_inv tr s -> udp_reachable tr s -> conns s !! c = Some cn -> conn_recvLoop cn = RecvRead size ->
  udp_inv (tr ++ [EvRead c r]) (set_conn c (recv_read r size s cn) s).
Proof.
  intros Hinv Hrun Hc Hloop. destruct (recv_read_keeps r size s cn) as (Hid & Hcb & Hs).
  eapply inv_still; [exact Hinv|eapply grows_set_conn; [done|by rewrite Hs]|..].
  - intros x q Hx. exists q. split_and!; auto.
  - intros x q Hx. exists q. auto.
  - simpl. intros c' cn' Hc'. destruct (decide (c' = c)) as [->|Hne].
    + rewrite lookup_insert_eq in Hc'. injection Hc' as <-. rewrite Hid, Hcb.
      destruct (inv_conns _ _ Hinv _ _ Hc) as (? & Hreg & _). split_and!; [lia|lia|eauto|].
      intros x m Hx. right. unfold recv_read in Hx.
      destruct r as [datagram|]; [|done]. destruct (Unpack _) as [m'|] eqn:Hu; [|done].
      destruct (conn_callbacks cn !! _) as [y|] eqn:Hy; [|done]. injection Hx as -> ->.
      destruct (Hreg _ _ Hy) as (q & Hq & Hr). exists q. split_and!; [done| |by left].
      exists tr, datagram, [], s, cn, size, q. done.
    + rewrite lookup_insert_ne in Hc' by done.
      destruct (inv_conns _ _ Hinv _ _ Hc') as (? & _). split_and!; [lia|lia|eauto..].
  - simpl. intros c' Hc'%(inv_t_conn _ _ Hinv). apply lookup_insert_is_Some. destruct (decide (c = c')); auto.
Qed.

Lemma inv_deliver tr s c cn x m q :
  udp_inv tr s -> conns s !! c = Some cn -> conn_recvLoop cn = RecvDeliver x m -> queries s !! x = Some q ->
  udp_inv (tr ++ [EvDeliver c]) (set_query x (deliver m q) (set_conn c (set_recvLoop (RecvRead (udpSize s)) cn) s)).
Proof.
  intros Hinv Hc Hloop Hq. eapply inv_still; [exact Hinv|apply grows_set_query; by eapply grows_set_conn|..].
  - simpl. intros y qy Hy. destruct (decide (y = x)) as [->|Hne].
    + rewrite lookup_insert_eq in Hy. injection Hy as <-. exists q. split; [done|].
      unfold deliver. destruct (callback_message q) eqn:Hcb; [by auto|]. split_and!; [done..|]. right.
      destruct (inv_conns _ _ Hinv _ _ Hc) as (_ & _ & Hd). destruct (Hd _ _ Hloop) as (q' & Hq' & Hr & Ho).
      exists m, c, (msg_Id (w_msg m)). simplify_eq. auto.
    + rewrite lookup_insert_ne in Hy by done. exists qy. split_and!; auto.
  - simpl. intros y qy Hy. destruct (decide (y = x)) as [->|Hne].
    + rewrite lookup_insert_eq. eexists. split; [done|]. simplify_eq. unfold deliver. by case_match.
    + rewrite lookup_insert_ne by done. eauto.
  - simpl. intros c' cn' Hc'. destruct (decide (c' = c)) as [->|Hne].
    + rewrite lookup_insert_eq in Hc'. injection Hc' as <-.
      destruct (inv_conns _ _ Hinv _ _ Hc) as (? & _). simpl. split_and!; [lia|lia|eauto|done].
    + rewrite lookup_insert_ne in Hc' by done.
      destruct (inv_conns _ _ Hinv _ _ Hc') as (? & _). split_and!; [lia|lia|eauto..].
  - simpl. intros c' Hc'%(inv_t_conn _ _ Hinv). apply lookup_insert_is_Some. destruct (decide (c = c')); auto.
Qed.

Lemma inv_call tr s x message compress :
  udp_inv tr s -> queries s !! x = None ->
  udp_inv tr (set_query x {| qr_message := message; qr_Compress := compress; qr_pc := PcSize;
                             callback_message := None |} s).
Proof.
  intros [Hq Hc Ht] Hx.
  assert (Hold : forall y q, queries s !! y = Some q -> y <> x) by (intros y q Hy ->; congruence).
  constructor; [| |done].
  - simpl. intros y q Hy. destruct (decide (y = x)) as [->|Hne].
    + rewrite lookup_insert_eq in Hy. by injection Hy as <-.
    + rewrite lookup_insert_ne in Hy by done. rewrite <- (app_nil_r tr).
      eapply query_ok_grows; [|by apply Hq]. split; [done|eauto].
  - intros c cn (? & Hreg & Hd)%Hc. split_and!; [lia|lia| |].
    + intros id y (q & Hy & Hr)%Hreg. exists q. simpl. rewrite lookup_insert_ne by (symmetry; eauto). done.
    + intros y m (q & Hy & Hr)%Hd. exists q. simpl. rewrite lookup_insert_ne by (symmetry; eauto). done.
Qed.

Lemma inv_query_step tr ev s x q s' :
  udp_inv tr s -> queries s !! x = Some q -> query_step ev x q s = Some s' -> udp_inv tr s'.
Proof.
  intros Hinv Hx Hstep. pose proof (inv_queries _ _ Hinv _ _ Hx) as Hok.
  unfold query_step in Hstep.
  destruct ev; try done; destruct (qr_pc q) as [| | |c|c id|c id|c id g|c id r|r] eqn:Hp; try done.
  - apply locked_ok in Hstep as [_ <-]. destruct (raise_udpSize_keeps (qr_message q) s) as (? & ? & ? & ?).
    eapply inv_move_alone; [exact Hinv|done..|by rewrite Hp|by rewrite Hp|].
    eapply query_ok_move; [exact Hok|rewrite Hp; by intros ?? [?|[? ?]]|done].
  - apply locked_ok in Hstep as [_ <-]. by apply inv_open.
  - destruct (open_dialed dial s) as [[s1 r]|] eqn:Ho; [|done].
    pose proof (inv_dialed _ _ _ _ _ _ _ Hinv Hx Hp Ho). by destruct r; simplify_eq.
  - destruct (conns s !! c) eqn:Hc; [|done]. injection Hstep as <-. by eapply (inv_register tr s x q c).
  - destruct (conns s !! c) as [cn|] eqn:Hc; [|done]. pose proof (inv_write tr s x q c id cn e Hinv Hx Hp Hc) as Hw.
    destruct (write_query id q e cn) as [cn' f]. by injection Hstep as <-.
  - injection Hstep as <-. destruct Hok as [Hm Hsent]. rewrite Hp in Hsent.
    eapply inv_move_alone; [exact Hinv|done..|by rewrite Hp|by rewrite Hp|].
    eapply query_ok_move; [by apply Hinv| |done].
    rewrite Hp. intros c' i [[= -> ->]|[? ?]]; [by left|done].
  - destruct (conns s !! c) as [cn|] eqn:Hc; [|done].
    destruct (wake _ _ _ _ _) as [[cn' r]|] eqn:Hw; [|done]. injection Hstep as <-. by eapply inv_wake.
  - destruct (conns s !! c) as [cn|] eqn:Hc; [|done]. injection Hstep as <-. by eapply inv_delete.
Qed.

Lemma inv_step tr ev s s' :
  udp_inv tr s -> udp_reachable tr s -> udp_step ev s = Some s' -> udp_inv (tr ++ [ev]) s'.
Proof.
  intros Hinv Hrun Hstep. pose proof (inv_extend tr ev s Hinv) as Hext.
  assert (Hquery : forall x, match queries s !! x with Some q => query_step ev x q s | None => None end = Some s' ->
            udp_inv (tr ++ [ev]) s').
  { intros x Hs. destruct (queries s !! x) as [q|] eqn:Hx; [|done]. by eapply inv_query_step. }
  destruct ev as [x message compress|x|x|x dial|x|x e|x|x b|x|c r|c|]; try exact (Hquery x Hstep); simpl in Hstep.
  - destruct (queries s !! x) eqn:Hx; [done|]. injection Hstep as <-. by apply inv_call.
  - destruct (conns s !! c) as [cn|] eqn:Hc; [|done]. destruct (conn_recvLoop cn) eqn:Hl; try done.
    injection Hstep as <-. by apply inv_read.
  - destruct (conns s !! c) as [cn|] eqn:Hc; [|done]. destruct (conn_recvLoop cn) eqn:Hl; try done.
    destruct (queries s !! x) eqn:Hx; [|done]. injection Hstep as <-. by apply inv_deliver.
  - apply locked_ok in Hstep as [_ <-]. eapply (inv_still tr EvClose s); [exact Hinv|split; [simpl; lia|eauto]|..].
    + intros x q Hx. exists q. split_and!; auto.
    + eauto.
    + intros c cn Hc. destruct (inv_conns _ _ Hinv _ _ Hc) as (? & _). split_and!; [lia|lia|eauto..].
    + apply (inv_t_conn _ _ Hinv).
Qed.

Lemma udp_run_app tr tr' s : udp_run (tr ++ tr') s = s' ← udp_run tr s; udp_run tr' s'.
Proof. revert s; induction tr as [|ev tr IH]; intros s; simpl; [done|]. destruct (udp_step ev s); [apply IH|done]. Qed.

(** Rule induction over runs, the last event first. *)
Lemma udp_reachable_ind (P : list udp_event -> UDPTransport -> Prop) :
  P [] NewUDPRaw ->
  (forall tr ev s s', udp_reachable tr s -> P tr s -> udp_step ev s = Some s' -> P (tr ++ [ev]) s') ->
  forall tr s, udp_reachable tr s -> P tr s.
Proof.
  intros H1 Hstep. induction tr as [|ev tr IH] using rev_ind; intros s Hrun.
  - by injection Hrun as <-.
  - unfold udp_reachable in Hrun. rewrite udp_run_app in Hrun.
    destruct (udp_run tr NewUDPRaw) as [s0|] eqn:Hs0; [|done]. simpl in Hrun.
    destruct (udp_step ev s0) as [s1|] eqn:Hs1; [|done]. injection Hrun as <-. eauto.
Qed.

Lemma reachable_inv tr s : udp_reachable tr s -> udp_inv tr s.
Proof.
  revert tr s. apply udp_reachable_ind.
  - constructor; by simpl.
  - intros. by eapply inv_step.
Qed.

(** C23 (an answer belongs to its query): in every interleaving of callers, the
    receivers of the connections, closes and failures, a call that returns a
    message returns one that came in a datagram on the connection where its
    query was written, under the id of that query, while its own callback was
    registered for that id, with the id put back to the one the caller chose. *)
Theorem udp_answer_belongs tr s x q w :
  udp_reachable tr s -> queries s !! x = Some q -> qr_pc q = PcDone (inl w) ->
  exists c id m, received_for tr x c id m /\ query_sent s c id q /\
    w = {| w_msg := with_Id (msg_Id (qr_message q)) (w_msg m); w_Truncated := w_Truncated m |}.
Proof.
  intros Hrun Hx Hp. destruct (inv_queries _ _ (reachable_inv _ _ Hrun) _ _ Hx) as [_ Hok].
  rewrite Hp in Hok. destruct Hok as (c & id & m & ?). eauto.
Qed.

(** ** Ids *)

(** Whether a step draws an id on connection [c], and how often a run does. *)
Definition draws (c : nat) (ev : udp_event) (s : UDPTransport) : nat :=
  match ev with
  | EvRegister x =>
      match queries s !! x with
      | Some {| qr_pc := PcRegister c' |} => if (c' =? c)%nat then 1 else 0
      | _ => 0
      end
  | _ => 0
  end.

Fixpoint registrations (c : nat) (tr : list udp_event) (s : UDPTransport) : nat :=
  match tr with
  | [] => 0
  | ev :: tr =>
      (draws c ev s + match udp_step ev s with Some s => registrations c tr s | None => 0 end)%nat
  end.

Lemma registrations_snoc c tr ev s s' :
  udp_run tr s = Some s' -> registrations c (tr ++ [ev]) s = (registrations c tr s + draws c ev s')%nat.
Proof.
  revert s; induction tr as [|ev' tr IH]; intros s Hrun; simpl in *.
  - injection Hrun as ->. case_match; simpl; lia.
  - destruct (udp_step ev' s) as [s1|]; [|done]. rewrite IH by done. lia.
Qed.

(** Before an id comes round again, a registered call owns the slot of its id. *)
Definition slots_ok (n : nat) (s : UDPTransport) (c : nat) : Prop :=
  match conns s !! c with
  | None => n = 0%nat
  | Some cn =>
      conn_queryId cn = Z.of_nat n mod 65536 /\
      (Z.of_nat n <= 65536 -> forall x q id, queries s !! x = Some q -> registered (qr_pc q) = Some (c, id) ->
         (exists k, 1 <= k <= Z.of_nat n /\ id = k mod 65536) /\ conn_callbacks cn !! id = Some x)
  end.

Lemma new_id_differs n k : 1 <= k <= n -> n + 1 <= 65536 -> k mod 65536 <> (n + 1) mod 65536.
Proof.
  intros Hk Hn Heq. destruct (Z.eq_dec (n + 1) 65536) as [He|].
  - rewrite He, Z.mod_small, Z_mod_same_full in Heq; lia.
  - rewrite !Z.mod_small in Heq; lia.
Qed.

(** What a step of a call does to the connections other than by registration and
    its removal. *)
Definition same_slots (s s' : UDPTransport) : Prop :=
  (forall c, match conns s !! c, conns s' !! c with
             | Some cn, Some cn' =>
                 conn_queryId cn' = conn_queryId cn /\ conn_callbacks cn' = conn_callbacks cn
             | None, None => True
             | None, Some cn' => conn_queryId cn' = 0
             | Some _, None => False
             end) /\
  (forall x q' c id, queries s' !! x = Some q' -> registered (qr_pc q') = Some (c, id) ->
     exists q, queries s !! x = Some q /\ registered (qr_pc q) = Some (c, id)).

Lemma registered_conn tr s x q c id :
  udp_inv tr s -> queries s !! x = Some q -> registered (qr_pc q) = Some (c, id) -> is_Some (conns s !! c).
Proof.
  intros Hinv Hx Hr. destruct (inv_queries _ _ Hinv _ _ Hx) as [_ Hp].
  assert (Hsent : forall c id, query_sent s c id q -> is_Some (conns s !! c)) by
    (intros ?? (cn & ? & ? & -> & _); eauto).
  destruct (qr_pc q) as [| | |c'|c' i|c' i|c' i g|c' i [w|e]|r]; try done; injection Hr as -> ->.
  all: try (by eapply Hsent); try done.
  - destruct Hp as [Hp _]. by eapply Hsent.
  - destruct Hp as (m & _ & Hp & _). by eapply Hsent.
Qed.

Lemma same_slots_ok tr n s s' c :
  udp_inv tr s -> same_slots s s' -> slots_ok n s c -> slots_ok n s' c.
Proof.
  intros Hinv [Hc Hq] Hok. unfold slots_ok in *. specialize (Hc c).
  destruct (conns s !! c) as [cn|] eqn:Hcn, (conns s' !! c) as [cn'|]; try done.
  - destruct Hc as [-> ->]. destruct Hok as [Hn Hall]. split; [done|].
    intros Hle x q' id Hx Hr. destruct (Hq _ _ _ _ Hx Hr) as (q & Hx' & Hr'). by eapply Hall.
  - subst n. split; [done|]. intros _ x q' id Hx Hr. destruct (Hq _ _ _ _ Hx Hr) as (q & Hx' & Hr').
    by destruct (registered_conn _ _ _ _ _ _ Hinv Hx' Hr') as [? ?]; congruence.
Qed.

Lemma same_slots_same s s' : queries s' = queries s -> conns s' = conns s -> same_slots s s'.
Proof. intros Hq Hc. split; [intros c; rewrite Hc; by destruct (conns s !! c)|rewrite Hq; eauto]. Qed.

Lemma same_slots_query s x q p s1 :
  queries s !! x = Some q -> queries s1 = queries s -> same_slots s s1 ->
  (forall c id, registered p = Some (c, id) -> registered (qr_pc q) = Some (c, id)) ->
  same_slots s (set_query x (at_pc p q) s1).
Proof.
  intros Hx Hqs [Hc Hq] Hp. split; [done|]. simpl. rewrite Hqs. intros y q' c id Hy Hr.
  destruct (decide (y = x)) as [->|Hne].
  - rewrite lookup_insert_eq in Hy. injection Hy as <-. eauto.
  - rewrite lookup_insert_ne in Hy by done. eauto.
Qed.

Lemma same_slots_conn s c cn cn' :
  conns s !! c = Some cn -> conn_queryId cn' = conn_queryId cn -> conn_callbacks cn' = conn_callbacks cn ->
  same_slots s (set_conn c cn' s).
Proof.
  intros Hc Hi Hcb. split; [|eauto]. intros c'. simpl. destruct (decide (c' = c)) as [->|].
  - by rewrite lookup_insert_eq, Hc.
  - rewrite lookup_insert_ne by done. by destruct (conns s !! c').
Qed.

Lemma slots_register n s x q c cn :
  queries s !! x = Some q -> qr_pc q = PcRegister c -> conns s !! c = Some cn ->
  slots_ok n s c ->
  slots_ok (n + 1) (set_query x (at_pc (PcWrite c (register x cn).2) q) (set_conn c (register x cn).1 s)) c.
Proof.
  intros Hx Hp Hc Hok. unfold slots_ok in *. rewrite Hc in Hok. destruct Hok as [Hn Hall].
  simpl. rewrite lookup_insert_eq. simpl. rewrite Hn.
  assert (Hid : (Z.of_nat n mod 65536 + 1) mod 65536 = Z.of_nat (n + 1) mod 65536).
  { rewrite Zplus_mod_idemp_l. f_equal. lia. }
  rewrite Hid. split; [done|]. intros Hle y qy id Hy Hr.
  destruct (decide (y = x)) as [->|Hne].
  - rewrite lookup_insert_eq in Hy. injection Hy as <-. injection Hr as <-.
    split; [exists (Z.of_nat (n + 1)); lia|apply lookup_insert_eq].
  - rewrite lookup_insert_ne in Hy by done.
    destruct (Hall ltac:(lia) _ _ _ Hy Hr) as [(k & Hk & ->) Hcb]. split; [exists k; lia|].
    rewrite lookup_insert_ne; [done|]. symmetry. rewrite Nat2Z.inj_add. apply new_id_differs; lia.
Qed.

Lemma slots_delete tr n s x q c cn id r c' :
  udp_inv tr s -> queries s !! x = Some q -> qr_pc q = PcDelete c id r -> conns s !! c = Some cn ->
  slots_ok n s c' ->
  slots_ok n (set_query x (at_pc (PcDone r) q)
    (set_conn c (set_callbacks (conn_queryId cn) (delete id (conn_callbacks cn)) cn) s)) c'.
Proof.
  intros Hinv Hx Hp Hc Hok. unfold slots_ok in *. simpl. destruct (decide (c' = c)) as [->|Hne].
  - rewrite lookup_insert_eq. rewrite Hc in Hok. destruct Hok as [Hn Hall]. split; [done|].
    intros Hle y qy i Hy Hr. destruct (decide (y = x)) as [->|Hyx].
    + rewrite lookup_insert_eq in Hy. by injection Hy as <-.
    + rewrite lookup_insert_ne in Hy by done. destruct (Hall Hle _ _ _ Hy Hr) as [Hk Hcb].
      split; [done|]. simpl. rewrite lookup_delete_ne; [done|]. intros ->.
      destruct (Hall Hle x q i Hx) as [_ Hcb']; [by rewrite Hp|]. congruence.
  - rewrite lookup_insert_ne by done. destruct (conns s !! c'); [|done].
    destruct Hok as [Hn Hall]. split; [done|]. intros Hle y qy i Hy Hr.
    destruct (decide (y = x)) as [->|Hyx].
    + rewrite lookup_insert_eq in Hy. by injection Hy as <-.
    + rewrite lookup_insert_ne in Hy by done. eauto.
Qed.

Lemma slots_register_other n s x q c cn c' :
  c' <> c -> queries s !! x = Some q -> slots_ok n s c' ->
  slots_ok n (set_query x (at_pc (PcWrite c (register x cn).2) q) (set_conn c (register x cn).1 s)) c'.
Proof.
  intros Hne Hx Hok. unfold slots_ok in *. simpl. rewrite lookup_insert_ne by done.
  destruct (conns s !! c'); [|done]. destruct Hok as [Hn Hall]. split; [done|].
  intros Hle y qy i Hy Hr. destruct (decide (y = x)) as [->|Hyx].
  - rewrite lookup_insert_eq in Hy. injection Hy as <-. injection Hr as ->. done.
  - rewrite lookup_insert_ne in Hy by done. eauto.
Qed.

Lemma dialed_same_slots dial s s' r : open_dialed dial s = Some (s', r) -> same_slots s s'.
Proof.
  intros [[-> _]|(c & _ & _ & Hnew & ->)]%open_dialed_spec; [by apply same_slots_same|].
  split; [|eauto]. intros c'. simpl. destruct (decide (c' = c)) as [->|].
  - by rewrite lookup_insert_eq, Hnew.
  - rewrite lookup_insert_ne by done. by destruct (conns s !! c').
Qed.

Lemma dialed_queries dial s s' r : open_dialed dial s = Some (s', r) -> queries s' = queries s.
Proof. by intros [[-> _]|(? & _ & _ & _ & ->)]%open_dialed_spec. Qed.

(** Every step of a call but its registration and its end leaves the slots alone. *)
Lemma query_step_slots tr ev s x q s' n c :
  udp_inv tr s -> queries s !! x = Some q -> event_query ev = Some x -> query_step ev x q s = Some s' ->
  slots_ok n s c -> slots_ok (n + draws c ev s) s' c.
Proof.
  intros Hinv Hx Hev Hstep Hok.
  assert (Hsame : draws c ev s = 0%nat -> same_slots s s' -> slots_ok (n + draws c ev s) s' c).
  { intros -> Hsame. rewrite Nat.add_0_r. by eapply same_slots_ok. }
  unfold query_step in Hstep.
  destruct ev; try done; injection Hev as ->;
    destruct (qr_pc q) as [| | |c0|c0 id|c0 id|c0 id g|c0 id r|r] eqn:Hp; try done.
  - apply locked_ok in Hstep as [_ <-]. apply Hsame; [done|]. destruct (raise_udpSize_keeps (qr_message q) s) as (Hq & Hc & _).
    apply same_slots_query; [done|done| |done]. by apply same_slots_same.
  - apply locked_ok in Hstep as [_ <-]. apply Hsame; [done|].
    destruct (open_conn s); by (apply same_slots_query; [done|done|by apply same_slots_same|]).
  - destruct (open_dialed dial s) as [[s1 r]|] eqn:Ho; [|done]. apply Hsame; [done|].
    pose proof (dialed_queries _ _ _ _ Ho).
    destruct r; injection Hstep as <-; apply same_slots_query; by eauto using dialed_same_slots.
  - destruct (conns s !! c0) as [cn|] eqn:Hc; [|done]. injection Hstep as <-.
    simpl draws. rewrite Hx. destruct q as [m cp p cb]. simpl in Hp. subst p.
    destruct (Nat.eqb_spec c0 c) as [->|Hne].
    + by apply slots_register.
    + rewrite Nat.add_0_r. by apply slots_register_other.
  - destruct (conns s !! c0) as [cn|] eqn:Hc; [|done].
    destruct (write_query id q e cn) as [cn' f] eqn:Hw. injection Hstep as <-. apply Hsame; [done|].
    apply same_slots_query; [done|done| |].
    + eapply same_slots_conn; [done|..]; unfold write_query in Hw; repeat case_match; by simplify_eq.
    + rewrite Hp. by destruct f.
  - injection Hstep as <-. apply Hsame; [done|]. apply same_slots_query; [done|done|by apply same_slots_same|by rewrite Hp].
  - destruct (conns s !! c0) as [cn|] eqn:Hc; [|done]. destruct (wake _ _ _ _ _) as [[cn' r]|] eqn:Hw; [|done].
    injection Hstep as <-. apply Hsame; [done|]. apply same_slots_query; [done|done| |by rewrite Hp].
    eapply same_slots_conn; [done|..]; unfold wake in Hw; repeat case_match; by simplify_eq.
  - destruct (conns s !! c0) as [cn|] eqn:Hc; [|done]. injection Hstep as <-.
    simpl draws. rewrite Nat.add_0_r. by eapply slots_delete.
Qed.

Lemma slots_step tr ev s s' n c :
  udp_inv tr s -> udp_step ev s = Some s' -> slots_ok n s c -> slots_ok (n + draws c ev s) s' c.
Proof.
  intros Hinv Hstep Hok. destruct (event_query ev) as [x|] eqn:Hev.
  { assert (Hs : match queries s !! x with Some q => query_step ev x q s | None => None end = Some s') by
      (destruct ev; try done; injection Hev as ->; done).
    destruct (queries s !! x) as [q|] eqn:Hx; [|done]. by eapply query_step_slots. }
  replace (draws c ev s) with 0%nat by (by destruct ev). rewrite Nat.add_0_r.
  eapply same_slots_ok; [done| |done].
  destruct ev as [x message compress| | | | | | | | |c0 r|c0|]; try done; simpl in Hstep.
  - destruct (queries s !! x) eqn:Hx; [done|]. injection Hstep as <-.
    split; [intros c0; simpl; by destruct (conns s !! c0)|]. simpl. intros y q' c0 id Hy Hr.
    destruct (decide (y = x)) as [->|]; [rewrite lookup_insert_eq in Hy; by injection Hy as <-|].
    rewrite lookup_insert_ne in Hy by done. eauto.
  - destruct (conns s !! c0) as [cn|] eqn:Hc; [|done]. destruct (conn_recvLoop cn); try done.
    injection Hstep as <-. destruct (recv_read_keeps r size s cn) as (? & ? & _). by eapply same_slots_conn.
  - destruct (conns s !! c0) as [cn|] eqn:Hc; [|done]. destruct (conn_recvLoop cn); try done.
    destruct (queries s !! x) as [q|] eqn:Hx; [|done]. injection Hstep as <-.
    destruct (same_slots_conn s c0 cn (set_recvLoop (RecvRead (udpSize s)) cn) Hc eq_refl eq_refl) as [Hcs _].
    split; [exact Hcs|]. simpl. intros y q' c1 id Hy Hr. destruct (decide (y = x)) as [->|].
    + rewrite lookup_insert_eq in Hy. injection Hy as <-. exists q. split; [done|].
      unfold deliver in Hr. by case_match.
    + rewrite lookup_insert_ne in Hy by done. eauto.
  - apply locked_ok in Hstep as [_ <-]. split; [intros c0; simpl; by destruct (conns s !! c0)|eauto].
Qed.

Lemma slots_reachable c tr s : udp_reachable tr s -> slots_ok (registrations c tr NewUDPRaw) s c.
Proof.
  revert tr s. apply udp_reachable_ind; [done|]. intros tr ev s s' Hrun IH Hstep.
  rewrite (registrations_snoc _ _ _ _ s) by done. eapply slots_step; [by apply reachable_inv|done|done].
Qed.

(** C24 (answers find their callers): as long as a connection has drawn at most
    65536 ids, in every interleaving, each call that is registered on it is the
    one the receiver finds under its id, so no two of them share an id and no
    answer is given to the wrong one or lost.  A slot never belongs to a call
    that has returned, on any connection and after any number of ids. *)
Theorem callbacks_are_callers tr s c cn :
  udp_reachable tr s -> conns s !! c = Some cn ->
  (forall id x, conn_callbacks cn !! id = Some x ->
     exists q, queries s !! x = Some q /\ registered (qr_pc q) = Some (c, id)) /\
  (Z.of_nat (registrations c tr NewUDPRaw) <= 65536 ->
   forall x q id, queries s !! x = Some q -> registered (qr_pc q) = Some (c, id) ->
     conn_callbacks cn !! id = Some x).
Proof.
  intros Hrun Hc. split; [apply (inv_conns _ _ (reachable_inv _ _ Hrun) _ _ Hc)|].
  pose proof (slots_reachable c tr s Hrun) as Hs. unfold slots_ok in Hs. rewrite Hc in Hs.
  intros Hle x q id Hx Hr. by apply (proj2 Hs Hle x q id Hx Hr).
Qed.

(** ** Every call returns *)

(** The steps a call still has. *)
Definition pc_rank (p : pc) : nat :=
  match p with
  | PcSize => 8 | PcOpen => 7 | PcDial => 6 | PcRegister _ => 5 | PcWrite _ _ => 4 | PcSelect _ _ => 3
  | PcWait _ _ _ => 2 | PcDelete _ _ _ => 1 | PcDone _ => 0
  end.

Definition own_steps (x : nat) (tr : list udp_event) : nat :=
  length (List.filter (fun ev => bool_decide (event_query ev = Some x)) tr).

Lemma query_step_rank ev x q s s' :
  query_step ev x q s = Some s' ->
  exists p, queries s' = <[x := at_pc p q]> (queries s) /\ (S (pc_rank p) <= pc_rank (qr_pc q))%nat.
Proof.
  unfold query_step. intros Hstep.
  destruct ev; try done; destruct (qr_pc q) as [| | |c0|c0 id|c0 id|c0 id g|c0 id r|r]; try done.
  - apply locked_ok in Hstep as [_ <-]. destruct (raise_udpSize_keeps (qr_message q) s) as (Hq & _).
    eexists. simpl. rewrite Hq. split; [done|]. simpl. lia.
  - apply locked_ok in Hstep as [_ <-]. destruct (open_conn s); eexists; (split; [done|]); simpl; lia.
  - destruct (open_dialed dial s) as [[s1 r]|] eqn:Ho; [|done].
    pose proof (dialed_queries _ _ _ _ Ho) as Hqs.
    destruct r; injection Hstep as <-; eexists; simpl; rewrite Hqs; (split; [done|]); simpl; lia.
  - destruct (conns s !! c0); [|done]. injection Hstep as <-. eexists. split; [done|]. simpl. lia.
  - destruct (conns s !! c0); [|done]. destruct (write_query _ _ _ _) as [? [?|]];
      injection Hstep as <-; eexists; (split; [done|]); simpl; lia.
  - injection Hstep as <-. eexists. split; [done|]. simpl. lia.
  - destruct (conns s !! c0); [|done]. destruct (wake _ _ _ _ _) as [[]|]; [|done].
    injection Hstep as <-. eexists. split; [done|]. simpl. lia.
  - destruct (conns s !! c0); [|done]. injection Hstep as <-. eexists. split; [done|]. simpl. lia.
Qed.

(** A step moves the call that takes it forward, and no other call. *)
Lemma udp_step_rank ev s s' x q :
  udp_step ev s = Some s' -> queries s !! x = Some q ->
  exists q', queries s' !! x = Some q' /\
    (own_steps x [ev] + pc_rank (qr_pc q') <= pc_rank (qr_pc q))%nat.
Proof.
  intros Hstep Hx. unfold own_steps. simpl.
  assert (Hcase : forall y, event_query ev = Some y ->
    match queries s !! y with Some q => query_step ev y q s | None => None end = Some s' ->
    exists q', queries s' !! x = Some q' /\
      (length (if bool_decide (event_query ev = Some x) then [ev] else []) + pc_rank (qr_pc q') <= pc_rank (qr_pc q))%nat).
  { intros y Hev Hs. destruct (queries s !! y) as [qy|] eqn:Hy; [|done].
    destruct (query_step_rank _ _ _ _ _ Hs) as (p & Hq & Hr). rewrite Hq, Hev.
    destruct (decide (y = x)) as [->|Hne].
    - rewrite lookup_insert_eq, bool_decide_eq_true_2 by done. eexists. split; [done|]. simplify_eq. simpl. lia.
    - rewrite lookup_insert_ne, bool_decide_eq_false_2 by congruence. exists q. split; [done|]. simpl. lia. }
  assert (Hev : (exists y, event_query ev = Some y) \/ event_query ev = None) by
    (destruct (event_query ev); eauto).
  destruct Hev as [[y Hev]|Hev].
  { apply (Hcase y); [done|]. by destruct ev; try done; injection Hev as ->. }
  rewrite Hev, bool_decide_eq_false_2 by done. cbn [length plus]. clear Hcase.
  destruct ev; try done; simpl in Hstep.
  - destruct (queries s !! x0) eqn:Hx0; [done|]. injection Hstep as <-. exists q. split; [|lia].
    simpl. rewrite lookup_insert_ne by congruence. done.
  - destruct (conns s !! c) as [cn|]; [|done]. destruct (conn_recvLoop cn); try done.
    injection Hstep as <-. exists q. split; [done|lia].
  - destruct (conns s !! c) as [cn|]; [|done]. destruct (conn_recvLoop cn) as [|y m|]; try done.
    destruct (queries s !! y) as [qy|] eqn:Hy; [|done]. injection Hstep as <-. simpl.
    destruct (decide (y = x)) as [->|Hne].
    + rewrite lookup_insert_eq. eexists. split; [done|]. simplify_eq. unfold deliver. by case_match.
    + rewrite lookup_insert_ne by done. exists q. split; [done|lia].
  - apply locked_ok in Hstep as [_ <-]. exists q. split; [done|lia].
Qed.

Lemma udp_run_rank tr s s' x q :
  udp_run tr s = Some s' -> queries s !! x = Some q -> (own_steps x tr <= pc_rank (qr_pc q))%nat.
Proof.
  revert s q; induction tr as [|ev tr IH]; intros s q Hrun Hx; [unfold own_steps; simpl; lia|].
  simpl in Hrun. destruct (udp_step ev s) as [s1|] eqn:Hs; [|done].
  destruct (udp_step_rank _ _ _ _ _ Hs Hx) as (q' & Hx' & Hle). pose proof (IH _ _ Hrun Hx').
  unfold own_steps in *. simpl in *. case_bool_decide; simpl in *; lia.
Qed.

Lemma udp_step_query ev x q s :
  event_query ev = Some x -> queries s !! x = Some q -> udp_step ev s = query_step ev x q s.
Proof. intros Hev Hx. destruct ev; try done; injection Hev as ->; simpl; by rewrite Hx. Qed.

(** The mutex is held by the call that dials, and by no other. *)
Definition lock_ok (s : UDPTransport) : Prop :=
  forall y, t_access s = Some y <-> exists qy, queries s !! y = Some qy /\ qr_pc qy = PcDial.

Lemma raise_udpSize_access m s : t_access (raise_udpSize m s) = t_access s.
Proof. unfold raise_udpSize. by repeat case_match. Qed.

(** What a step of a call does to the mutex: nothing, take it for the dial, or
    give it back. *)
Lemma query_step_lock ev x q s s' :
  query_step ev x q s = Some s' ->
  exists p, queries s' = <[x := at_pc p q]> (queries s) /\
    ((qr_pc q <> PcDial /\ p <> PcDial /\ t_access s' = t_access s /\ (p = PcOpen -> t_access s = None)) \/
     (qr_pc q = PcOpen /\ p = PcDial /\ t_access s = None /\ t_access s' = Some x) \/
     (qr_pc q = PcDial /\ p <> PcDial /\ p <> PcOpen /\ t_access s' = None)).
Proof.
  unfold query_step. intros Hstep.
  destruct ev; try done; destruct (qr_pc q) as [| | |c0|c0 id|c0 id|c0 id g|c0 id r|r]; try done.
  - apply locked_ok in Hstep as [Ha <-]. destruct (raise_udpSize_keeps (qr_message q) s) as (Hq & _).
    eexists. simpl. rewrite Hq, raise_udpSize_access. split; [done|]. by left.
  - apply locked_ok in Hstep as [Ha <-]. destruct (open_conn s); (eexists; split; [done|]); [by left|by right; left].
  - destruct (open_dialed dial s) as [[s1 r]|] eqn:Ho; [|done]. pose proof (dialed_queries _ _ _ _ Ho) as Hqs.
    assert (Ha : t_access s1 = None) by (apply open_dialed_spec in Ho as [[-> _]|(? & _ & _ & _ & ->)]; done).
    destruct r; injection Hstep as <-; eexists; simpl; rewrite Hqs; (split; [done|]); by right; right.
  - destruct (conns s !! c0); [|done]. injection Hstep as <-. eexists. split; [done|]. by left.
  - destruct (conns s !! c0); [|done]. destruct (write_query _ _ _ _) as [? [?|]];
      injection Hstep as <-; (eexists; split; [done|]); by left.
  - injection Hstep as <-. eexists. split; [done|]. by left.
  - destruct (conns s !! c0); [|done]. destruct (wake _ _ _ _ _) as [[]|]; [|done].
    injection Hstep as <-. eexists. split; [done|]. by left.
  - destruct (conns s !! c0); [|done]. injection Hstep as <-. eexists. split; [done|]. by left.
Qed.

Lemma lock_ok_query ev x q s s' :
  lock_ok s -> queries s !! x = Some q -> query_step ev x q s = Some s' -> lock_ok s'.
Proof.
  intros Hok Hx (p & Hq & Hcase)%query_step_lock y. rewrite Hq.
  destruct (decide (y = x)) as [->|Hne].
  - rewrite lookup_insert_eq. pose proof (Hok x) as Hok'.
    destruct Hcase as [(Hp & Hp' & -> & _)|[(_ & -> & _ & ->)|(_ & Hp & _ & ->)]].
    + rewrite Hok'. split; [intros (qy & ? & ?); congruence|intros (qy & [= <-] & ?); done].
    + split; [intros _; by eexists|done].
    + split; [done|intros (qy & [= <-] & ?); done].
  - rewrite lookup_insert_ne by done. rewrite <- (Hok y).
    destruct Hcase as [(_ & _ & -> & _)|[(_ & _ & Ha & ->)|(Hp & _ & _ & ->)]];
      [done|rewrite Ha; split; [intros [= ->]; done|done]|].
    split; [done|]. intros Hy. assert (t_access s = Some x) as Ha by (apply Hok; eauto). congruence.
Qed.

Lemma lock_ok_same s s' :
  t_access s' = t_access s ->
  (forall y, qr_pc <$> queries s' !! y = Some PcDial <-> qr_pc <$> queries s !! y = Some PcDial) ->
  lock_ok s -> lock_ok s'.
Proof.
  intros Ha Hq Hok y. rewrite Ha, (Hok y). specialize (Hq y).
  split; intros (qy & Hy & Hp); rewrite Hy in Hq; simpl in Hq; rewrite Hp in Hq.
  - destruct (queries s' !! y) as [q'|]; [|by destruct Hq as [_ Hq]; discriminate Hq].
    exists q'. split; [done|]. destruct Hq as [_ Hq]. specialize (Hq eq_refl). simpl in Hq. congruence.
  - destruct (queries s !! y) as [q'|]; [|by destruct Hq as [Hq _]; discriminate Hq].
    exists q'. split; [done|]. destruct Hq as [Hq _]. specialize (Hq eq_refl). simpl in Hq. congruence.
Qed.

Lemma lock_reachable tr s : udp_reachable tr s -> lock_ok s.
Proof.
  revert tr s. apply udp_reachable_ind.
  { intros y. simpl. split; [done|]. by intros (? & ? & _). }
  intros tr ev s s' _ IH Hstep. destruct (event_query ev) as [x|] eqn:Hev.
  { assert (Hs : match queries s !! x with Some q => query_step ev x q s | None => None end = Some s') by
      (destruct ev; try done; injection Hev as ->; done).
    destruct (queries s !! x) as [q|] eqn:Hx; [|done]. by eapply lock_ok_query. }
  destruct ev as [x message compress| | | | | | | | |c0 r|c0|]; try done; simpl in Hstep.
  - destruct (queries s !! x) eqn:Hx; [done|]. injection Hstep as <-. apply (lock_ok_same s); [done| |done].
    intros y. simpl. destruct (decide (y = x)) as [->|Hne].
    + by rewrite lookup_insert_eq, Hx.
    + by rewrite lookup_insert_ne.
  - destruct (conns s !! c0) as [cn|]; [|done]. destruct (conn_recvLoop cn); try done. by injection Hstep as <-.
  - destruct (conns s !! c0) as [cn|]; [|done]. destruct (conn_recvLoop cn) as [|y m|]; try done.
    destruct (queries s !! y) as [qy|] eqn:Hy; [|done]. injection Hstep as <-.
    apply (lock_ok_same s); [done| |done]. intros z. simpl. destruct (decide (z = y)) as [->|Hne].
    + rewrite lookup_insert_eq, Hy. unfold deliver. simpl. by case_match.
    + by rewrite lookup_insert_ne.
  - apply locked_ok in Hstep as [_ <-]. by apply (lock_ok_same s).
Qed.

(** What a call waits for: nothing, the mutex that the call [y] holds, its own
    dial, its own write, one of the branches of its [select]. *)
Inductive wait : Type :=
  | Running
  | ForLock (y : nat)
  | ForDial
  | ForWrite (c : nat)
  | InSelect (c : nat) (generation : nat)
  | Returned (r : WMsg + error).

Definition waits_for (s : UDPTransport) (q : query) : wait :=
  match qr_pc q with
  | PcSize | PcOpen => match t_access s with Some y => ForLock y | None => Running end
  | PcDial => ForDial
  | PcWrite c _ => ForWrite c
  | PcWait c _ generation => InSelect c generation
  | PcDone r => Returned r
  | PcRegister _ | PcSelect _ _ | PcDelete _ _ _ => Running
  end.

(** The step of a call that waits for nothing. *)
Definition own_event (x : nat) (p : pc) : udp_event :=
  match p with
  | PcSize => EvSize x
  | PcOpen => EvOpen x
  | PcRegister _ => EvRegister x
  | PcSelect _ _ => EvSelect x
  | _ => EvDelete x
  end.

(** The step that ends the wait of a call: dials and writes return as they
    like, and the context of the call ends with [ended]. *)
Definition next_event (dials : UDPTransport -> nat + error) (write : option error) (ended : error)
    (x : nat) (s : UDPTransport) (q : query) : udp_event :=
  match waits_for s q with
  | ForLock y => EvDial y (dials s)
  | ForDial => EvDial x (dials s)
  | ForWrite _ => EvWrite x write
  | InSelect _ _ => EvWake x (ByContext ended)
  | _ => own_event x (qr_pc q)
  end.

Fixpoint finish (n : nat) (dials : UDPTransport -> nat + error) (write : option error) (ended : error)
    (x : nat) (s : UDPTransport) : list udp_event :=
  match n, queries s !! x with
  | S n, Some q =>
      match waits_for s q with
      | Returned _ => []
      | _ =>
          let ev := next_event dials write ended x s q in
          ev :: match udp_step ev s with Some s => finish n dials write ended x s | None => [] end
      end
  | _, _ => []
  end.

(** A dial gives a new connection. *)
Definition new_dials (dials : UDPTransport -> nat + error) : Prop :=
  forall s c, dials s = inl c -> conns s !! c = None.

Lemma dial_enabled s y qy dial :
  queries s !! y = Some qy -> qr_pc qy = PcDial -> (forall c, dial = inl c -> conns s !! c = None) ->
  exists s', udp_step (EvDial y dial) s = Some s' /\ t_access s' = None /\
    forall x, x <> y -> queries s' !! x = queries s !! x.
Proof.
  intros Hy Hp Hnew. simpl. rewrite Hy. unfold query_step. rewrite Hp. unfold open_dialed.
  destruct dial as [c|e]; [rewrite (Hnew c eq_refl)|]; eexists; (split_and!; [done|done|]);
    intros x Hne; simpl; by rewrite lookup_insert_ne.
Qed.

(** Where a call is, what it waits for, and the steps there are. *)
Definition wait_ok (s : UDPTransport) (x : nat) (q : query) : Prop :=
  match waits_for s q with
  | Running => is_Some (udp_step (own_event x (qr_pc q)) s)
  | ForLock y =>
      y <> x /\ (exists qy, queries s !! y = Some qy /\ waits_for s qy = ForDial) /\
      (forall ev, event_query ev = Some x -> udp_step ev s = None) /\ udp_step EvClose s = None
  | ForDial =>
      t_access s = Some x /\
      forall dial, (forall c, dial = inl c -> conns s !! c = None) ->
        exists s', udp_step (EvDial x dial) s = Some s' /\ t_access s' = None
  | ForWrite c => forall e, is_Some (udp_step (EvWrite x e) s)
  | InSelect c generation =>
      exists cn, conns s !! c = Some cn /\
        (is_Some (udp_step (EvWake x ByCallback) s) <-> is_Some (callback_message q)) /\
        (is_Some (udp_step (EvWake x ByConn) s) <-> is_Some (conn_err cn)) /\
        (is_Some (udp_step (EvWake x ByDone) s) <-> (generation < t_done s)%nat) /\
        forall e, is_Some (udp_step (EvWake x (ByContext e)) s)
  | Returned r => qr_pc q = PcDone r
  end.

Lemma locked_none {A} s (region : A) y : t_access s = Some y -> locked s region = None.
Proof. unfold locked. by intros ->. Qed.

Lemma locked_free {A} s (region : A) : t_access s = None -> locked s region = Some region.
Proof. unfold locked. by intros ->. Qed.

Lemma held_lock s x q y :
  lock_ok s -> queries s !! x = Some q -> qr_pc q = PcSize \/ qr_pc q = PcOpen -> t_access s = Some y ->
  y <> x /\ (exists qy, queries s !! y = Some qy /\ waits_for s qy = ForDial) /\
  (forall ev, event_query ev = Some x -> udp_step ev s = None) /\ udp_step EvClose s = None.
Proof.
  intros Hlock Hx Hpc Hy. pose proof Hy as (qy & Hqy & Hpy)%Hlock. split_and!.
  - intros ->. destruct Hpc; congruence.
  - exists qy. split; [done|]. unfold waits_for. by rewrite Hpy.
  - intros ev Hev. rewrite (udp_step_query _ x q) by done. unfold query_step.
    destruct Hpc as [Hpc|Hpc]; rewrite Hpc; destruct ev; try done; by eapply locked_none.
  - by eapply locked_none.
Qed.

Lemma wait_reachable tr s x q : udp_reachable tr s -> queries s !! x = Some q -> wait_ok s x q.
Proof.
  intros Hrun Hx. pose proof (reachable_inv _ _ Hrun) as Hinv. pose proof (lock_reachable _ _ Hrun) as Hlock.
  pose proof (inv_queries _ _ Hinv _ _ Hx) as [_ Hp].
  assert (Hreg : forall c id, registered (qr_pc q) = Some (c, id) -> is_Some (conns s !! c)) by
    (intros; by eapply registered_conn).
  unfold wait_ok. unfold waits_for at 1.
  destruct (qr_pc q) as [| | |c|c id|c id|c id g|c id r|r] eqn:Hpc; cbn [own_event];
    try (destruct (Hreg _ _ eq_refl) as [cn Hc]).
  - destruct (t_access s) as [y|] eqn:Ha; [by apply (held_lock s x q); [..|left|]|].
    rewrite (udp_step_query _ x q) by done. unfold query_step. rewrite Hpc, locked_free by done. by eauto.
  - destruct (t_access s) as [y|] eqn:Ha; [by apply (held_lock s x q); [..|right|]|].
    rewrite (udp_step_query _ x q) by done. unfold query_step. rewrite Hpc, locked_free by done. by eauto.
  - split; [apply Hlock; eauto|]. intros dial Hnew.
    destruct (dial_enabled s x q dial Hx Hpc Hnew) as (s' & ? & ? & _). eauto.
  - rewrite (udp_step_query _ x q) by done. unfold query_step. rewrite Hpc. destruct Hp as [cn ->]. by eauto.
  - intros e. rewrite (udp_step_query _ x q) by done. unfold query_step. rewrite Hpc, Hc.
    destruct (write_query _ _ _ _). by eauto.
  - rewrite (udp_step_query _ x q) by done. unfold query_step. rewrite Hpc. by eauto.
  - exists cn. split; [done|]. rewrite !(udp_step_query _ x q) by done. unfold query_step. rewrite Hpc, Hc.
    unfold wake. split_and!.
    + destruct (callback_message q); split; by intros [? ?]; eauto.
    + destruct (conn_err cn); split; by intros [? ?]; eauto.
    + destruct (Nat.ltb_spec g (t_done s)); split; intros Hw; eauto; [by destruct Hw|lia].
    + intros e. rewrite (udp_step_query _ x q) by done. unfold query_step. rewrite Hpc, Hc. by eauto.
  - rewrite (udp_step_query _ x q) by done. unfold query_step. rewrite Hpc, Hc. by eauto.
  - done.
Qed.

(** The steps to the return of a call, with the dial it may wait for. *)
Definition to_return (s : UDPTransport) (q : query) : nat :=
  pc_rank (qr_pc q) + match waits_for s q with ForLock _ => 1 | _ => 0 end.

Lemma next_event_progress tr s x q dials write ended :
  udp_reachable tr s -> queries s !! x = Some q -> new_dials dials ->
  (forall r, waits_for s q <> Returned r) ->
  exists s' q', udp_step (next_event dials write ended x s q) s = Some s' /\ queries s' !! x = Some q' /\
    (to_return s' q' < to_return s q)%nat.
Proof.
  intros Hrun Hx Hnew Hnot. pose proof (wait_reachable _ _ _ _ Hrun Hx) as Hok.
  assert (Hown : forall ev, event_query ev = Some x -> is_Some (udp_step ev s) ->
            exists s' q', udp_step ev s = Some s' /\ queries s' !! x = Some q' /\
              (to_return s' q' < to_return s q)%nat).
  { intros ev Hev [s' Hs']. exists s'.
    assert (Hq : query_step ev x q s = Some s') by (by rewrite <- (udp_step_query _ x q s Hev Hx)).
    destruct (query_step_lock _ _ _ _ _ Hq) as (p & Hqs & Hcase).
    destruct (query_step_rank _ _ _ _ _ Hq) as (p' & Hqs' & Hrank).
    assert (p' = p) as ->.
    { rewrite Hqs in Hqs'. apply (f_equal (lookup x)) in Hqs'. rewrite !lookup_insert_eq in Hqs'.
      by injection Hqs'. }
    exists (at_pc p q). rewrite Hqs, lookup_insert_eq. split_and!; [done..|].
    assert (Hw : (match waits_for s' (at_pc p q) with ForLock _ => 1 | _ => 0 end = 0)%nat).
    { unfold waits_for. simpl. destruct p; try done.
      - destruct (qr_pc q); simpl in Hrank; lia.
      - destruct Hcase as [(_ & _ & -> & Ha)|[(_ & ? & _)|(_ & _ & ? & _)]]; [by rewrite Ha|done..]. }
    unfold to_return at 1. rewrite Hw. unfold to_return. simpl. lia. }
  unfold wait_ok in Hok. unfold next_event. destruct (waits_for s q) as [|y| |c|c g|r] eqn:Hw.
  - apply Hown; [by destruct (qr_pc q)|done].
  - destruct Hok as (Hne & (qy & Hy & Hpy) & _).
    assert (Hdial : qr_pc qy = PcDial).
    { unfold waits_for in Hpy. destruct (qr_pc qy); try done; by destruct (t_access s). }
    destruct (dial_enabled s y qy (dials s) Hy Hdial (Hnew s)) as (s' & Hs' & Ha & Hsame).
    exists s', q. rewrite Hsame by done. split_and!; [done..|]. unfold to_return. rewrite Hw.
    unfold waits_for. rewrite Ha. destruct (qr_pc q); simpl; lia.
  - destruct Hok as (_ & Hd). destruct (Hd (dials s) (Hnew s)) as (s' & Hs' & _).
    apply Hown; [done|]. by rewrite Hs'.
  - by apply Hown.
  - destruct Hok as (cn & _ & _ & _ & _ & Hc). by apply Hown.
  - by destruct (Hnot r).
Qed.

Lemma finish_returns n tr s x q dials write ended :
  udp_reachable tr s -> queries s !! x = Some q -> new_dials dials -> (to_return s q <= n)%nat ->
  exists s' q' r, udp_run (finish n dials write ended x s) s = Some s' /\ queries s' !! x = Some q' /\
    qr_pc q' = PcDone r.
Proof.
  revert tr s q; induction n as [|n IH]; intros tr s q Hrun Hx Hnew Hle.
  - exists s, q. unfold to_return in Hle. destruct (qr_pc q) as [| | |c|c id|c id|c id g|c id r|r] eqn:Hpc; simpl in Hle; try lia.
    exists r. by split_and!.
  - cbn [finish]. rewrite Hx.
    assert (Hcase : (exists r, waits_for s q = Returned r) \/ forall r, waits_for s q <> Returned r)
      by (destruct (waits_for s q); eauto; by right).
    destruct Hcase as [[r Hr]|Hnot].
    { rewrite Hr. exists s, q, r. split_and!; [done..|]. unfold waits_for in Hr.
      destruct (qr_pc q); try (by destruct (t_access s)); congruence. }
    destruct (next_event_progress tr s x q dials write ended) as (s1 & q1 & Hs1 & Hx1 & Hlt); [done..|].
    destruct (IH (tr ++ [next_event dials write ended x s q]) s1 q1) as (s' & q' & r & Hrun' & ?); [|done|done|lia|].
    { unfold udp_reachable. rewrite udp_run_app, Hrun. simpl. by rewrite Hs1. }
    exists s', q', r. split; [|done].
    destruct (waits_for s q) eqn:Hw; try (by destruct (Hnot _ eq_refl)); cbn [udp_run]; by rewrite Hs1.
Qed.

(** C25 (what a query waits for): a call takes at most eight steps of its own,
    whatever happens around it.  At every moment it has returned, or has a step
    to take, or waits: for the mutex, which another call holds only while it
    dials (then no event, not even the end of its context, lets it go on, and
    [Close] waits too); for its dial, whose return frees the mutex; for its
    write; or in its [select], which goes on exactly when the answer is there,
    the connection has failed or [t.done] is closed, and whenever its context
    ends.  Once the dial that holds the mutex, its own dial and its write
    return, with any outcome, and its context ends, it returns within nine
    steps. *)
Theorem exchange_returns tr s x q :
  udp_reachable tr s -> queries s !! x = Some q ->
  (forall tr' s', udp_run tr' s = Some s' -> (own_steps x tr' <= 8)%nat) /\
  match waits_for s q with
  | Running => is_Some (udp_step (own_event x (qr_pc q)) s)
  | ForLock y =>
      y <> x /\ (exists qy, queries s !! y = Some qy /\ waits_for s qy = ForDial) /\
      (forall ev, event_query ev = Some x -> udp_step ev s = None) /\ udp_step EvClose s = None
  | ForDial =>
      t_access s = Some x /\
      forall dial, (forall c, dial = inl c -> conns s !! c = None) ->
        exists s', udp_step (EvDial x dial) s = Some s' /\ t_access s' = None
  | ForWrite c => forall e, is_Some (udp_step (EvWrite x e) s)
  | InSelect c generation =>
      exists cn, conns s !! c = Some cn /\
        (is_Some (udp_step (EvWake x ByCallback) s) <-> is_Some (callback_message q)) /\
        (is_Some (udp_step (EvWake x ByConn) s) <-> is_Some (conn_err cn)) /\
        (is_Some (udp_step (EvWake x ByDone) s) <-> (generation < t_done s)%nat) /\
        forall e, is_Some (udp_step (EvWake x (ByContext e)) s)
  | Returned r => qr_pc q = PcDone r
  end /\
  (forall dials write ended, new_dials dials ->
     exists s' q' r, udp_run (finish 9 dials write ended x s) s = Some s' /\
       queries s' !! x = Some q' /\ qr_pc q' = PcDone r).
Proof.
  intros Hrun Hx. split_and!.
  - intros tr' s' Htr'. pose proof (udp_run_rank _ _ _ _ _ Htr' Hx).
    assert (pc_rank (qr_pc q) <= 8)%nat by (destruct (qr_pc q); simpl; lia). lia.
  - by apply (wait_reachable tr).
  - intros dials write ended Hnew. eapply finish_returns; [done..|].
    unfold to_return, waits_for. destruct (qr_pc q); simpl; try destruct (t_access s); lia.
Qed.

(** ** Failures are shared

    A closed connection keeps its first error, takes no new calls and hands the
    error to every call that waits on it. *)
Lemma closed_conn_stays ev s s' c cn e :
  udp_step ev s = Some s' -> conns s !! c = Some cn -> conn_err cn = Some e ->
  exists cn', conns s' !! c = Some cn' /\ conn_err cn' = Some e.
Proof.
  intros Hstep Hc He.
  assert (Hset : forall c0 cn0 cn1, conns s !! c0 = Some cn0 -> (conn_err cn0 = Some e -> conn_err cn1 = Some e) ->
            exists cn', (<[c0 := cn1]> (conns s) : gmap nat dnsConnection) !! c = Some cn' /\ conn_err cn' = Some e).
  { intros c0 cn0 cn1 Hc0 H1. destruct (decide (c0 = c)) as [->|Hne].
    - rewrite lookup_insert_eq. exists cn1. split; [done|]. apply H1. congruence.
    - rewrite lookup_insert_ne by done. eauto. }
  destruct ev as [x message compress|x|x|x dial|x|x er|x|x b|x|c0 r|c0|]; simpl in Hstep;
    try (destruct (queries s !! x) as [q|] eqn:Hx; try done).
  - injection Hstep as <-. eauto.
  - unfold query_step in Hstep. destruct (qr_pc q); try done. apply locked_ok in Hstep as [_ <-].
    destruct (raise_udpSize_keeps (qr_message q) s) as (_ & Hcs & _). simpl. rewrite Hcs. eauto.
  - unfold query_step in Hstep. destruct (qr_pc q); try done. apply locked_ok in Hstep as [_ <-].
    destruct (open_conn s); eauto.
  - unfold query_step in Hstep. destruct (qr_pc q); try done.
    destruct (open_dialed dial s) as [[s1 r]|] eqn:Ho; [|done].
    apply open_dialed_spec in Ho as [[-> _]|(c0 & _ & -> & Hnew & ->)]; [destruct r; injection Hstep as <-; eauto|].
    injection Hstep as <-. simpl. rewrite lookup_insert_ne by congruence. eauto.
  - unfold query_step in Hstep. destruct (qr_pc q) as [| | |c0| | | | |]; try done.
    destruct (conns s !! c0) eqn:Hc0; [|done]. injection Hstep as <-. eapply Hset; eauto.
  - unfold query_step in Hstep. destruct (qr_pc q) as [| | | |c0 id| | | |]; try done.
    destruct (conns s !! c0) as [cn0|] eqn:Hc0; [|done]. destruct (write_query _ _ _ _) as [cn1 f] eqn:Hw.
    injection Hstep as <-. eapply Hset; [done|]. unfold write_query in Hw.
    intros He0. repeat case_match; simplify_eq; simpl; rewrite ?He0; done.
  - unfold query_step in Hstep. destruct (qr_pc q); try done. injection Hstep as <-. eauto.
  - unfold query_step in Hstep. destruct (qr_pc q) as [| | | | | |c0 id g| |]; try done.
    destruct (conns s !! c0) as [cn0|] eqn:Hc0; [|done]. destruct (wake _ _ _ _ _) as [[cn1 r]|] eqn:Hw; [|done].
    injection Hstep as <-. eapply Hset; [done|]. unfold wake in Hw.
    intros He0. repeat case_match; simplify_eq; simpl; rewrite ?He0; done.
  - unfold query_step in Hstep. destruct (qr_pc q) as [| | | | | | |c0 id r|]; try done.
    destruct (conns s !! c0) as [cn0|] eqn:Hc0; [|done]. injection Hstep as <-. eapply Hset; eauto.
  - destruct (conns s !! c0) as [cn0|] eqn:Hc0; [|done]. destruct (conn_recvLoop cn0); try done.
    injection Hstep as <-. eapply Hset; [done|]. unfold recv_read.
    intros He0. repeat case_match; simpl; rewrite ?He0; done.
  - destruct (conns s !! c0) as [cn0|] eqn:Hc0; [|done]. destruct (conn_recvLoop cn0); try done.
    destruct (queries s !! x) as [q|]; [|done]. injection Hstep as <-. eapply Hset; [done|]. by simpl.
  - apply locked_ok in Hstep as [_ <-]. eauto.
Qed.

(** The end of one caller's context closes the connection under the others: a
    call that waits on it, and has no other reason to go on, returns the
    context error of that caller. *)
Lemma context_error_spreads s s' x y q qy c id g id' g' cn e :
  x <> y -> queries s !! x = Some q -> qr_pc q = PcWait c id g ->
  queries s !! y = Some qy -> qr_pc qy = PcWait c id' g' -> conns s !! c = Some cn -> conn_err cn = None ->
  udp_step (EvWake x (ByContext e)) s = Some s' ->
  udp_step (EvWake y ByConn) s' =
    Some (set_query y (at_pc (PcDelete c id' (inr e)) qy) (set_conn c (set_err e cn) s')).
Proof.
  intros Hne Hx Hp Hy Hpy Hc He Hstep. simpl in Hstep. rewrite Hx in Hstep. unfold query_step in Hstep.
  rewrite Hp, Hc in Hstep. injection Hstep as <-. simpl.
  rewrite lookup_insert_ne, Hy by done. unfold query_step. rewrite Hpy. simpl. rewrite lookup_insert_eq.
  unfold wake. simpl. rewrite He. simpl. done.
Qed.

Lemma udp_run_cons ev tr s s1 s' : udp_step ev s = Some s1 -> udp_run tr s1 = Some s' -> udp_run (ev :: tr) s = Some s'.
Proof. intros H1 H2. simpl. by rewrite H1. Qed.

(** ** Ids come round

    A call that waits long enough sees its id drawn again. *)

Definition quick_call (y : nat) (m : DMsg) : list udp_event :=
  [EvCall y m false; EvSize y; EvOpen y; EvRegister y; EvWrite y None; EvSelect y; EvClose;
   EvWake y ByDone; EvDelete y].

(** The mutex is free, the connection [c] is the one [open] returns, it has drawn [n] ids, and [x]
    waits on it under [id]. *)
Record waits (s : UDPTransport) (c : nat) (n : Z) (x : nat) (q : query) (id : Z) : Prop := {
  waits_access : t_access s = None;
  waits_t_conn : t_conn s = Some c;
  waits_conn : exists cn, conns s !! c = Some cn /\ conn_err cn = None /\ conn_queryId cn = n mod 65536;
  waits_query : queries s !! x = Some q;
  waits_registered : registered (qr_pc q) = Some (c, id) }.

Context (m0 : DMsg) (Hedns : IsEdns0 m0 = None).
Context (Hpack : forall id, exists ip raw, PackBuffer true (with_Id id m0) (Msg_Len false m0 + 1) = inl (ip, raw)).

Lemma quick_call_run s c n x q id y :
  waits s c n x q id -> queries s !! y = None ->
  exists s', udp_run (quick_call y m0) s = Some s' /\ waits s' c (n + 1) x q id /\
    (forall z, z <> y -> queries s' !! z = queries s !! z).
Proof.
  intros [Ha Ht (cn & Hc & He & Hn) Hx Hr] Hy.
  assert (Hxy : x <> y) by congruence.
  destruct (Hpack ((n + 1) mod 65536)) as (ip & raw & Hp).
  assert (Hid : (n mod 65536 + 1) mod 65536 = (n + 1) mod 65536) by apply Zplus_mod_idemp_l.
  eexists. split.
  { unfold quick_call.
    eapply udp_run_cons; [simpl; by rewrite Hy|].
    eapply udp_run_cons.
    { erewrite udp_step_query by (done || apply lookup_insert_eq). unfold query_step. simpl.
      unfold raise_udpSize, locked. simpl. by rewrite Hedns, Ha. }
    eapply udp_run_cons.
    { erewrite udp_step_query by (done || apply lookup_insert_eq). unfold query_step, open_conn, locked. simpl.
      by rewrite Ha, Ht, Hc, He. }
    eapply udp_run_cons.
    { erewrite udp_step_query by (done || apply lookup_insert_eq). unfold query_step. simpl.
      rewrite Hc. unfold register. by rewrite Hn, Hid. }
    eapply udp_run_cons.
    { erewrite udp_step_query by (done || apply lookup_insert_eq). unfold query_step. simpl.
      rewrite lookup_insert_eq. unfold write_query, pack_query. simpl. by rewrite Hp. }
    eapply udp_run_cons.
    { by erewrite udp_step_query by (done || apply lookup_insert_eq). }
    eapply udp_run_cons; [simpl; unfold locked; simpl; by rewrite Ha|].
    eapply udp_run_cons.
    { erewrite udp_step_query by (done || apply lookup_insert_eq). unfold query_step. simpl.
      rewrite lookup_insert_eq. unfold wake. simpl. by rewrite (proj2 (Nat.ltb_lt _ _)) by lia. }
    eapply udp_run_cons; [|done].
    erewrite udp_step_query by (done || apply lookup_insert_eq). unfold query_step. simpl.
    by rewrite lookup_insert_eq. }
  split.
  - constructor; simpl.
    + done.
    + done.
    + rewrite lookup_insert_eq. eexists. split; [done|]. by simpl.
    + by rewrite !lookup_insert_ne by done.
    + done.
  - intros z Hz. simpl. by rewrite !lookup_insert_ne by done.
Qed.

Lemma quick_calls k s c n x q id y0 :
  waits s c n x q id -> (forall y, (y0 <= y)%nat -> queries s !! y = None) ->
  exists tr s', udp_run tr s = Some s' /\ waits s' c (n + Z.of_nat k) x q id /\
    (forall y, (y0 + k <= y)%nat -> queries s' !! y = None).
Proof.
  revert n s y0; induction k as [|k IH]; intros n s y0 Hw Hfree.
  - exists [], s. rewrite Z.add_0_r. split_and!; [done..|]. intros y Hy. apply Hfree. lia.
  - destruct (quick_call_run s c n x q id y0 Hw) as (s1 & Hrun & Hw1 & Hsame); [by apply Hfree|].
    destruct (IH (n + 1) s1 (S y0)) as (tr & s2 & Hrun2 & Hw2 & Hfree2); [done| |].
    { intros y Hy. rewrite Hsame by lia. apply Hfree. lia. }
    exists (quick_call y0 m0 ++ tr), s2. rewrite udp_run_app, Hrun. split_and!; [done| |].
    + replace (n + Z.of_nat (S k)) with (n + 1 + Z.of_nat k) by lia. done.
    + intros y Hy. apply Hfree2. lia.
Qed.

(** After 65536 ids a call that still waits shares its id with a new one, and
    the slot of the id is the newer one's: an answer to the older query is
    handed to the newer, or to nobody once the newer has returned. *)
Lemma id_comes_round :
  exists tr s x z qx qz c cn,
    udp_reachable tr s /\ x <> z /\ queries s !! x = Some qx /\ queries s !! z = Some qz /\
    registered (qr_pc qx) = Some (c, 1) /\ registered (qr_pc qz) = Some (c, 1) /\
    conns s !! c = Some cn /\ conn_callbacks cn !! 1 = Some z.
Proof.
  set (first := [EvCall 0 m0 false; EvSize 0; EvOpen 0; EvDial 0 (inl 0%nat); EvRegister 0]).
  assert (Hfirst : exists s q, udp_run first NewUDPRaw = Some s /\ waits s 0 1 0 q 1 /\
            forall y, (1 <= y)%nat -> queries s !! y = None).
  { unfold first. eexists _, _. split; [|split].
    - eapply udp_run_cons; [done|].
      eapply udp_run_cons.
      { erewrite udp_step_query by (done || apply lookup_insert_eq). unfold query_step. simpl.
        unfold raise_udpSize, locked. by rewrite Hedns. }
      eapply udp_run_cons; [by erewrite udp_step_query by (done || apply lookup_insert_eq)|].
      eapply udp_run_cons; [by erewrite udp_step_query by (done || apply lookup_insert_eq)|].
      eapply udp_run_cons; [by erewrite udp_step_query by (done || apply lookup_insert_eq)|done].
    - constructor; [done|done|eexists; split; [done|]; split; done|done|done].
    - intros y Hy. simpl. by rewrite !lookup_insert_ne by lia. }
  destruct Hfirst as (s0 & q & Hrun0 & Hw0 & Hfree0).
  destruct (quick_calls (Z.to_nat 65535) s0 0 1 0 q 1 1 Hw0 Hfree0) as (tr & s1 & Hrun1 & Hw1 & Hfree1).
  rewrite Z2Nat.id in Hw1 by lia. destruct Hw1 as [Ha Ht (cn & Hc & He & Hn) Hx Hr].
  set (z := (1 + Z.to_nat 65535)%nat) in *. pose proof (Hfree1 z ltac:(lia)) as Hz.
  set (last := [EvCall z m0 false; EvSize z; EvOpen z; EvRegister z]).
  assert (Hlast : exists s, udp_run last s1 = Some s /\ queries s !! 0%nat = Some q /\
            (exists qz, queries s !! z = Some qz /\ registered (qr_pc qz) = Some (0%nat, 1)) /\
            exists cn, conns s !! 0%nat = Some cn /\ conn_callbacks cn !! 1 = Some z).
  { assert (Hz0 : z <> 0%nat) by lia. clearbody z. unfold last. eexists. split.
    - eapply udp_run_cons; [simpl; by rewrite Hz|].
      eapply udp_run_cons.
      { erewrite udp_step_query by (done || apply lookup_insert_eq). unfold query_step. simpl.
        unfold raise_udpSize, locked. simpl. by rewrite Hedns, Ha. }
      eapply udp_run_cons.
      { erewrite udp_step_query by (done || apply lookup_insert_eq). unfold query_step, open_conn, locked. simpl.
        by rewrite Ha, Ht, Hc, He. }
      eapply udp_run_cons; [|done].
      erewrite udp_step_query by (done || apply lookup_insert_eq). unfold query_step. simpl.
      rewrite Hc. unfold register. by rewrite Hn.
    - simpl. split_and!.
      + by rewrite !lookup_insert_ne by done.
      + rewrite lookup_insert_eq. by eexists.
      + rewrite lookup_insert_eq. eexists. split; [done|]. apply lookup_insert_eq. }
  destruct Hlast as (s2 & Hrun2 & Hx2 & (qz & Hqz & Hrz) & cn2 & Hc2 & Hcb).
  exists (first ++ tr ++ last), s2, 0%nat, z, q, qz, 0%nat, cn2. split_and!; try done.
  - unfold udp_reachable. rewrite udp_run_app, Hrun0. simpl. by rewrite udp_run_app, Hrun1.
Qed.

End udp.

(** ** Runs *)

#[local] Existing Instance concrete_dns.
#[local] Existing Instance concrete_wire.

(** A query with an EDNS0 record of this size, and a datagram of [blocks] blocks
    of 256 bytes after the header. *)
Definition sized_query (id size : Z) : DMsg :=
  with_Extra [{| hdr_Name := "."; hdr_Rrtype := TypeOPT; hdr_Class := size; hdr_Ttl := 0; rr_Data := DataOPT [] |}]
    (bare_message id).
Definition datagram (id blocks : Z) : list Z :=
  be_bytes 2 id ++ [0; blocks] ++ replicate (8 + Z.to_nat (256 * blocks)) 0.

(** A call up to its [select], with a dial or without. *)
Definition up_to_wait (x : nat) (m : DMsg) (dial : option nat) : list udp_event :=
  [EvCall x m false; EvSize x; EvOpen x] ++
  match dial with Some c => [EvDial x (inl c)] | None => [] end ++
  [EvRegister x; EvWrite x None; EvSelect x].

(** Two queries share a connection; the second is answered first. *)
Definition two_queries : list udp_event :=
  up_to_wait 0 (bare_message 70) (Some 0%nat) ++ up_to_wait 1 (bare_message 80) None ++
  [EvRead 0 (inl (datagram 2 0)); EvDeliver 0; EvRead 0 (inl (datagram 1 0)); EvDeliver 0;
   EvWake 0 ByCallback; EvDelete 0; EvWake 1 ByCallback; EvDelete 1].

Definition outcome (tr : list udp_event) (x : nat) : option pc :=
  s ← udp_run tr NewUDPRaw; q ← queries s !! x; Some (qr_pc q).

Definition two_queries_end : UDPTransport := default NewUDPRaw (udp_run two_queries NewUDPRaw).

Example two_queries_answers :
  (fun p => match p with PcDone (inl w) => Some (msg_Id (w_msg w)) | _ => None end) <$> outcome two_queries 0 = Some (Some 70) /\
  (fun p => match p with PcDone (inl w) => Some (msg_Id (w_msg w)) | _ => None end) <$> outcome two_queries 1 = Some (Some 80).
Proof. split; vm_compute; reflexivity. Qed.

Lemma two_queries_reachable : udp_reachable two_queries two_queries_end.
Proof. vm_compute. reflexivity. Qed.

Lemma udp_answer_belongs_witness :
  exists c id m, received_for two_queries 1 c id m /\
    query_sent two_queries_end c id {| qr_message := bare_message 80; qr_Compress := false;
      qr_pc := PcDone (inl {| w_msg := Build_Msg 80 false false false false 0 [] [] [] []; w_Truncated := false |});
      callback_message := Some {| w_msg := Build_Msg 2 false false false false 0 [] [] [] []; w_Truncated := false |} |} /\
    {| w_msg := Build_Msg 80 false false false false 0 [] [] [] []; w_Truncated := false |} =
    {| w_msg := with_Id 80 (w_msg m); w_Truncated := w_Truncated m |}.
Proof.
  refine (udp_answer_belongs two_queries two_queries_end 1 _ _ two_queries_reachable _ _).
  - vm_compute. reflexivity.
  - reflexivity.
Defined.

(** Both queries wait. *)
Definition both_wait : UDPTransport := default NewUDPRaw (udp_run (take 13 two_queries) NewUDPRaw).
Definition shared_conn : dnsConnection := default (new_connection NewUDPRaw) (conns both_wait !! 0%nat).
Definition second_query : query :=
  default {| qr_message := bare_message 0; qr_Compress := false; qr_pc := PcSize; callback_message := None |}
    (queries both_wait !! 1%nat).

Lemma callbacks_are_callers_witness : conn_callbacks shared_conn !! 2 = Some 1%nat.
Proof.
  refine (proj2 (callbacks_are_callers (take 13 two_queries) both_wait 0 shared_conn _ _) _ 1%nat second_query 2 _ _).
  all: vm_compute; first [reflexivity|discriminate].
Defined.

(** Query 0 dials, query 1 waits for the mutex. *)
Definition one_dials : list udp_event :=
  [EvCall 0 (bare_message 70) false; EvSize 0; EvCall 1 (bare_message 80) false; EvSize 1; EvOpen 0].
Definition dialing : UDPTransport := default NewUDPRaw (udp_run one_dials NewUDPRaw).
Definition blocked_query : query :=
  {| qr_message := bare_message 80; qr_Compress := false; qr_pc := PcOpen; callback_message := None |}.

Lemma exchange_returns_witness :
  waits_for dialing blocked_query = ForLock 0 /\
  (0%nat <> 1%nat /\ (exists qy, queries dialing !! 0%nat = Some qy /\ waits_for dialing qy = ForDial) /\
   (forall ev, event_query ev = Some 1%nat -> udp_step ev dialing = None) /\ udp_step EvClose dialing = None) /\
  exists s' q' r,
    udp_run (finish 9 (fun _ => inr (ErrNew "refused")) None ErrContext 1 dialing) dialing = Some s' /\
    queries s' !! 1%nat = Some q' /\ qr_pc q' = PcDone r.
Proof.
  destruct (exchange_returns one_dials dialing 1 blocked_query) as (_ & Hwait & Hend).
  - vm_compute. reflexivity.
  - vm_compute. reflexivity.
  - split; [vm_compute; reflexivity|].
    change (waits_for dialing blocked_query) with (ForLock 0) in Hwait. cbv iota in Hwait.
    split; [exact Hwait|]. apply Hend. by intros s c.
Defined.

(** ** Behaviours worth knowing

    The first caller gives up, and the second query on the same connection fails
    with the first one's context error. *)
Example cancelled_neighbour :
  outcome (take 13 two_queries ++ [EvWake 0 (ByContext ErrContext); EvWake 1 ByConn; EvDelete 1]) 1 =
    Some (PcDone (inr ErrContext)).
Proof. vm_compute. reflexivity. Qed.

(** A query that waits for the mutex does not return when its context ends: the
    events of its context, and [Close], are not there until the dial returns. *)
Example blocked_by_a_dial :
  udp_step (EvWake 1 (ByContext ErrContext)) dialing = None /\ udp_step (EvOpen 1) dialing = None /\
  udp_step EvClose dialing = None /\
  is_Some (udp_run [EvDial 0 (inr (ErrNew "refused")); EvOpen 1; EvDial 1 (inl 0%nat); EvClose] dialing).
Proof. vm_compute. split_and!; [reflexivity..|by eexists]. Qed.

(** A query with a larger EDNS0 size closes [t.done] under the queries that wait. *)
Example larger_size_aborts :
  outcome (take 13 two_queries ++ [EvCall 2 (sized_query 90 4096) false; EvSize 2; EvWake 1 ByDone; EvDelete 1]) 1 =
    Some (PcDone (inr os_ErrClosed)).
Proof. vm_compute. reflexivity. Qed.

(** The receiver keeps the buffer it has: the first answer to a query that asks
    for more than 2048 bytes is cut, cannot be unpacked, and closes the
    connection. *)
Definition large_answer : list udp_event :=
  up_to_wait 0 (bare_message 70) (Some 0%nat) ++
  [EvRead 0 (inl (datagram 1 0)); EvDeliver 0; EvWake 0 ByCallback; EvDelete 0] ++
  up_to_wait 1 (sized_query 80 4096) None ++
  [EvRead 0 (inl (datagram 2 12))].

Example large_answer_cut :
  length (datagram 2 12) = 3084%nat /\
  is_ok (decode (datagram 2 12)) = true /\
  outcome (large_answer ++ [EvWake 1 ByConn; EvDelete 1]) 1 =
    Some (PcDone (inr (ErrNew "dns: overflow unpacking uint16"))).
Proof. split_and!; vm_compute; reflexivity. Qed.

(** [Close] closes no connection: its receiver goes on, and the next query uses
    it again. *)
Lemma close_keeps_connection `{DNSLib} (s : UDPTransport) :
  conns (UDPTransport_Close s) = conns s /\ t_conn (UDPTransport_Close s) = t_conn s.
Proof. done. Qed.

Example reused_after_close :
  (fun s => (size (conns s), (fun q => qr_pc q) <$> queries s !! 1%nat)) <$>
    udp_run (up_to_wait 0 (bare_message 70) (Some 0%nat) ++ [EvClose; EvWake 0 ByDone; EvDelete 0] ++
             take 3 (up_to_wait 1 (bare_message 80) None)) NewUDPRaw =
    Some (1%nat, Some (PcRegister 0)).
Proof. vm_compute. reflexivity. Qed.

(** Neither the sender nor the question of a datagram is looked at. *)
Example any_datagram_with_the_id :
  (fun p => match p with PcDone (inl w) => Some (msg_Question (w_msg w)) | _ => None end) <$>
    outcome two_queries 0 = Some (Some []).
Proof. vm_compute. reflexivity. Qed.

(** The run of [id_comes_round] exists for the concrete library. *)
Example id_comes_round_here :
  exists tr s x z qx qz c cn,
    udp_reachable tr s /\ x <> z /\ queries s !! x = Some qx /\ queries s !! z = Some qz /\
    registered (qr_pc qx) = Some (c, 1) /\ registered (qr_pc qz) = Some (c, 1) /\
    conns s !! c = Some cn /\ conn_callbacks cn !! 1 = Some z.
Proof.
  apply (id_comes_round (bare_message 0)); [reflexivity|]. intros id. eexists _, _. reflexivity.
Qed.
