(* ===== verification/DnsStream.v ===== *)
(** * The TLS, QUIC and HTTPS transports of DNS queries

    dns/transport/tls.go: a pool of connections that serve one query at a time;
    a state is the pool with its connections and calls, an event is one step of
    one call.  dns/transport/quic/quic.go: two attempts on a shared connection.
    dns/transport/https.go, https_transport.go and quic/http3.go: the HTTP
    exchange, the fallback from HTTP/2, and the reset after a timeout. *)

From stdpp Require Import base list strings gmap.
From Stdlib Require Import ZArith Lia.
From S2P Require Import Prelude GoStd External Adapter RuleAction DnsMsg ByteReader DnsWire.

Open Scope Z_scope.
Open Scope box_scope.

(** ** TLS: data *)

(** [tlsDNSConn]: whether it was closed here, how many queries were written to
    it in full and how many answers were read. *)
Record tlsDNSConn : Type := {
  tc_queryId : Z; tc_closed : bool; tc_written : nat; tc_read : nat }.

Definition close_tls (c : tlsDNSConn) : tlsDNSConn :=
  {| tc_queryId := tc_queryId c; tc_closed := true; tc_written := tc_written c; tc_read := tc_read c |}.

(** Where a call of [Exchange] is: before the pool, before the dial, before its
    write and its read on a connection that came from the pool or not, before
    it puts the connection back, and back. *)
Inductive tls_pc : Type :=
  | TlsPop
  | TlsDial
  | TlsWrite (c : nat) (pooled : bool)
  | TlsRead (c : nat) (pooled : bool)
  | TlsPush (c : nat) (response : WMsg)
  | TlsDone (r : WMsg + error).

(** [TLSTransport] with the objects it refers to. *)
Record TLSTransport : Type := {
  connections : list nat;
  tls_conns : gmap nat tlsDNSConn;
  tls_calls : gmap nat (DMsg * bool * tls_pc) }.

Definition NewTLSRaw : TLSTransport := {| connections := []; tls_conns := ∅; tls_calls := ∅ |}.

Definition set_pool (l : list nat) (s : TLSTransport) : TLSTransport :=
  {| connections := l; tls_conns := tls_conns s; tls_calls := tls_calls s |}.
Definition set_tls_conn (c : nat) (cn : tlsDNSConn) (s : TLSTransport) : TLSTransport :=
  {| connections := connections s; tls_conns := <[c := cn]> (tls_conns s); tls_calls := tls_calls s |}.
Definition set_call (x : nat) (m : DMsg * bool) (p : tls_pc) (s : TLSTransport) : TLSTransport :=
  {| connections := connections s; tls_conns := tls_conns s; tls_calls := <[x := (m, p)]> (tls_calls s) |}.

Inductive tls_event : Type :=
  | TlsCall (x : nat) (message : DMsg) (compress : bool)
  | TlsPopFront (x : nat)
  (** the dial and the handshake give this new connection or an error *)
  | TlsDialed (x : nat) (r : nat + error)
  (** the query is packed and written; the error is the one of the write *)
  | TlsWritten (x : nat) (e : option error)
  (** what the connection reads *)
  | TlsAnswer (x : nat) (r : res WMsg)
  | TlsPushBack (x : nat)
  (** [TLSTransport.Close] *)
  | TlsClose.

(** ** TLS: steps *)

Section tls.
Context `{DNSWire}.

(** The front part of [exchange]: the next id, and [WriteMessage]. *)
Definition tls_write (message : DMsg) (compress : bool) (e : option error) (cn : tlsDNSConn) :
    tlsDNSConn * option error :=
  let id := (tc_queryId cn + 1) mod 65536 in
  let cn := {| tc_queryId := id; tc_closed := tc_closed cn; tc_written := tc_written cn; tc_read := tc_read cn |} in
  match frame compress id message, e with
  | Ok _, None =>
      ({| tc_queryId := id; tc_closed := tc_closed cn; tc_written := S (tc_written cn); tc_read := tc_read cn |}, None)
  | Ok _, Some e | Err e, _ => (close_tls cn, Some (ErrCause e "write request"))
  | Panic msg, _ => (cn, Some (ErrNew msg))
  end.

(** The other part: [ReadMessage]. *)
Definition tls_read (r : res WMsg) (cn : tlsDNSConn) : tlsDNSConn * (WMsg + error) :=
  match r with
  | Ok m =>
      ({| tc_queryId := tc_queryId cn; tc_closed := tc_closed cn; tc_written := tc_written cn;
          tc_read := S (tc_read cn) |}, inl m)
  | Err e => (close_tls cn, inr (ErrCause e "read response"))
  | Panic msg => (cn, inr (ErrNew msg))
  end.

(** Where a call goes when [exchange] fails: to a dial, if its connection came
    from the pool. *)
Definition after_failure (pooled : bool) (e : error) : tls_pc := if pooled then TlsDial else TlsDone (inr e).

Definition new_tls_conn : tlsDNSConn := {| tc_queryId := 0; tc_closed := false; tc_written := 0; tc_read := 0 |}.

(** [TLSTransport.Close] *)
Definition TLSTransport_Close (s : TLSTransport) : TLSTransport :=
  set_pool [] (foldr (fun c s => match tls_conns s !! c with
                                 | Some cn => set_tls_conn c (close_tls cn) s
                                 | None => s
                                 end) s (connections s)).

Definition tls_call_step (ev : tls_event) (x : nat) (m : DMsg * bool) (p : tls_pc) (s : TLSTransport) :
    option TLSTransport :=
  match ev, p with
  | TlsPopFront _, TlsPop =>
      match connections s with
      | c :: rest => Some (set_call x m (TlsWrite c true) (set_pool rest s))
      | [] => Some (set_call x m TlsDial s)
      end
  | TlsDialed _ (inr e), TlsDial => Some (set_call x m (TlsDone (inr e)) s)
  | TlsDialed _ (inl c), TlsDial =>
      match tls_conns s !! c with
      | Some _ => None
      | None => Some (set_call x m (TlsWrite c false) (set_tls_conn c new_tls_conn s))
      end
  | TlsWritten _ e, TlsWrite c pooled =>
      match tls_conns s !! c with
      | None => None
      | Some cn =>
          let '(cn', failed) := tls_write m.1 m.2 e cn in
          Some (set_call x m match failed with
                             | Some e => after_failure pooled e
                             | None => TlsRead c pooled
                             end (set_tls_conn c cn' s))
      end
  | TlsAnswer _ r, TlsRead c pooled =>
      match tls_conns s !! c with
      | None => None
      | Some cn =>
          let '(cn', response) := tls_read r cn in
          Some (set_call x m match response with
                             | inl w => TlsPush c w
                             | inr e => after_failure pooled e
                             end (set_tls_conn c cn' s))
      end
  | TlsPushBack _, TlsPush c w => Some (set_call x m (TlsDone (inl w)) (set_pool (connections s ++ [c]) s))
  | _, _ => None
  end.

Definition tls_event_call (ev : tls_event) : option nat :=
  match ev with
  | TlsPopFront x | TlsDialed x _ | TlsWritten x _ | TlsAnswer x _ | TlsPushBack x => Some x
  | TlsCall _ _ _ | TlsClose => None
  end.

Definition tls_step (ev : tls_event) (s : TLSTransport) : option TLSTransport :=
  match ev with
  | TlsCall x message compress =>
      match tls_calls s !! x with
      | Some _ => None
      | None => Some (set_call x (message, compress) TlsPop s)
      end
  | TlsClose => Some (TLSTransport_Close s)
  | _ =>
      match tls_event_call ev with
      | Some x => match tls_calls s !! x with Some (m, p) => tls_call_step ev x m p s | None => None end
      | None => None
      end
  end.

Inductive tls_reachable : TLSTransport -> Prop :=
  | tls_start : tls_reachable NewTLSRaw
  | tls_next s ev s' : tls_reachable s -> tls_step ev s = Some s' -> tls_reachable s'.

(** ** TLS: the invariant *)

Definition holder (p : tls_pc) : option nat :=
  match p with TlsWrite c _ | TlsRead c _ | TlsPush c _ => Some c | _ => None end.

(** The answers a call still has to read from its connection. *)
Definition outstanding (p : tls_pc) : nat := match p with TlsRead _ _ => 1 | _ => 0 end.

(** The connection is open here and waits for this many answers. *)
Definition clean (s : TLSTransport) (c n : nat) : Prop :=
  exists cn, tls_conns s !! c = Some cn /\ tc_closed cn = false /\ tc_written cn = (n + tc_read cn)%nat.

Record tls_inv (s : TLSTransport) : Prop := {
  tls_pool_nodup : NoDup (connections s);
  tls_pool_clean : forall c, c ∈ connections s -> clean s c 0;
  tls_held_clean : forall x m p c, tls_calls s !! x = Some (m, p) -> holder p = Some c ->
    c ∉ connections s /\ clean s c (outstanding p);
  tls_held_once : forall x y mx my px py c, tls_calls s !! x = Some (mx, px) -> tls_calls s !! y = Some (my, py) ->
    holder px = Some c -> holder py = Some c -> x = y }.

(** A call moves; the pool and the connections are those of [s1]. *)
Lemma tls_inv_move s s1 x m p p' :
  tls_inv s -> tls_calls s !! x = Some (m, p) -> tls_calls s1 = tls_calls s ->
  NoDup (connections s1) ->
  (forall c, c ∈ connections s1 -> clean s1 c 0) ->
  (forall c, holder p' = Some c -> c ∉ connections s1 /\ clean s1 c (outstanding p') /\
     (holder p = Some c \/ forall y my py, tls_calls s !! y = Some (my, py) -> holder py <> Some c)) ->
  (forall c n y my py, y <> x -> tls_calls s !! y = Some (my, py) -> holder py = Some c ->
     c ∉ connections s -> clean s c n -> c ∉ connections s1 /\ clean s1 c n) ->
  tls_inv (set_call x m p' s1).
Proof.
  intros [Hnd Hpool Hheld Honce] Hx Hcalls Hnd1 Hpool1 Hmine Hothers. constructor; [done|done|..].
  - intros y my py c Hy Hpy. simpl in Hy. rewrite Hcalls in Hy. destruct (decide (y = x)) as [->|Hne].
    + rewrite lookup_insert_eq in Hy. injection Hy as <- <-. by destruct (Hmine c Hpy) as (? & ? & _).
    + rewrite lookup_insert_ne in Hy by done. destruct (Hheld _ _ _ _ Hy Hpy) as [Hout Hcl].
      by apply (Hothers c (outstanding py) y my py).
  - assert (Hclash : forall y my py c, y <> x -> tls_calls s !! y = Some (my, py) -> holder py = Some c ->
              holder p' = Some c -> False).
    { intros y my py c Hne Hy Hpy Hp'. destruct (Hmine c Hp') as (_ & _ & [Hp|Hno]).
      - by apply Hne, (Honce _ _ _ _ _ _ c Hy Hx).
      - by apply (Hno _ _ _ Hy). }
    intros y z my mz py pz c Hy Hz Hpy Hpz. simpl in Hy, Hz. rewrite Hcalls in Hy, Hz.
    destruct (decide (y = x)) as [->|Hyx], (decide (z = x)) as [->|Hzx]; [done|..].
    + rewrite lookup_insert_eq in Hy. injection Hy as <- <-. rewrite lookup_insert_ne in Hz by done.
      destruct (Hclash z mz pz c); done.
    + rewrite lookup_insert_eq in Hz. injection Hz as <- <-. rewrite lookup_insert_ne in Hy by done.
      destruct (Hclash y my py c); done.
    + rewrite lookup_insert_ne in Hy by done. rewrite lookup_insert_ne in Hz by done. eauto.
Qed.

Lemma clean_other s c cn c' n : c' <> c -> clean s c' n -> clean (set_tls_conn c cn s) c' n.
Proof. intros Hne (cn' & Hc & Hcl). exists cn'. simpl. by rewrite lookup_insert_ne. Qed.

Lemma clean_set s c cn n :
  tc_closed cn = false -> tc_written cn = (n + tc_read cn)%nat -> clean (set_tls_conn c cn s) c n.
Proof. intros Hc Hw. exists cn. simpl. by rewrite lookup_insert_eq. Qed.

(** The step of a call on the connection it holds. *)
Lemma tls_inv_held s x m p p' c cn' :
  tls_inv s -> tls_calls s !! x = Some (m, p) -> holder p = Some c ->
  (holder p' = Some c /\ tc_closed cn' = false /\ tc_written cn' = (outstanding p' + tc_read cn')%nat \/
   holder p' = None) ->
  tls_inv (set_call x m p' (set_tls_conn c cn' s)).
Proof.
  intros Hinv Hx Hp Hp'. pose proof Hinv as [Hnd Hpool Hheld Honce].
  destruct (Hheld _ _ _ _ Hx Hp) as [Hout _].
  eapply tls_inv_move; [done|done|done|done|..].
  - intros c0 Hc0. apply clean_other; [by intros ->|by apply Hpool].
  - intros c0 Hc0. destruct Hp' as [(Hp' & Hcl & Hw)|Hp']; [|congruence].
    assert (c0 = c) as -> by congruence. split; [done|]. split; [by apply clean_set|by left].
  - intros c0 n y my py Hne Hy Hpy Hnot Hcl. split; [done|]. apply clean_other; [|done].
    intros ->. by apply Hne, (Honce _ _ _ _ _ _ c Hy Hx).
Qed.

Lemma tls_inv_call_step s ev x m p s' :
  tls_inv s -> tls_calls s !! x = Some (m, p) -> tls_call_step ev x m p s = Some s' -> tls_inv s'.
Proof.
  intros Hinv Hx Hstep. pose proof Hinv as [Hnd Hpool Hheld Honce]. unfold tls_call_step in Hstep.
  destruct ev as [|x0|x0 [c|e]|x0 e|x0 r|x0|]; try done; destruct p as [| |c0 b|c0 b|c0 w|r0]; try done.
  - destruct (connections s) as [|c rest] eqn:Hcs; injection Hstep as <-.
    + eapply tls_inv_move; [done|done|done| |..].
      * by rewrite Hcs.
      * rewrite Hcs. intros c Hc. by apply not_elem_of_nil in Hc.
      * done.
      * rewrite Hcs. intros. done.
    + apply NoDup_cons in Hnd as [Hnotin Hnd]. eapply tls_inv_move; [done|done|done|done|..]; simpl.
      * intros c' Hc'. apply (Hpool c'). by right.
      * intros c' [= <-]. split_and!; [done|apply (Hpool c); by left|]. right.
        intros y my py Hy Hpy. destruct (Hheld _ _ _ _ Hy Hpy) as [Hno _]. apply Hno. by left.
      * intros c' n y my py _ Hy Hpy Hno Hcl. split; [|done]. rewrite Hcs in Hno.
        intros Hin. apply Hno. by right.
  - destruct (tls_conns s !! c) eqn:Hc; [done|]. injection Hstep as <-.
    assert (Hfresh : forall n, ~ clean s c n) by (intros n (cn & Hcn & _); congruence).
    eapply tls_inv_move; [done|done|done|done|..].
    + intros c' Hc'%Hpool. apply clean_other; [|done]. intros ->. by eapply Hfresh.
    + intros c' [= <-]. split_and!.
      * intros Hin%Hpool. by eapply Hfresh.
      * by apply clean_set.
      * right. intros y my py Hy Hpy. destruct (Hheld _ _ _ _ Hy Hpy) as [_ Hcl]. by eapply Hfresh.
    + intros c' n y my py _ _ _ Hno Hcl. split; [done|]. apply clean_other; [|done].
      intros ->. by eapply Hfresh.
  - injection Hstep as <-. eapply tls_inv_move; [done..|]. intros. done.
  - destruct (Hheld _ _ _ _ Hx eq_refl) as [_ (cn & Hcn & Hcl & Hw)]. rewrite Hcn in Hstep.
    destruct (tls_write m.1 m.2 e cn) as [cn' f] eqn:Hwr. injection Hstep as <-.
    eapply tls_inv_held; [done|done|done|]. unfold tls_write in Hwr. simpl in Hw.
    destruct (frame _ _ _); [destruct e|..]; injection Hwr as <- <-; simpl;
      try (right; by destruct b). left. split_and!; [done..|lia].
  - destruct (Hheld _ _ _ _ Hx eq_refl) as [_ (cn & Hcn & Hcl & Hw)]. rewrite Hcn in Hstep.
    destruct (tls_read r cn) as [cn' f] eqn:Hrd. injection Hstep as <-.
    eapply tls_inv_held; [done|done|done|]. unfold tls_read in Hrd. simpl in Hw.
    destruct r; injection Hrd as <- <-; simpl; try (right; by destruct b).
    left. split_and!; [done..|lia].
  - injection Hstep as <-. destruct (Hheld _ _ _ _ Hx eq_refl) as [Hout Hcl].
    eapply tls_inv_move; [done|done|done|..]; simpl.
    + apply NoDup_app. split_and!; [done| |apply NoDup_singleton].
      intros c Hc ->%list_elem_of_singleton. done.
    + intros c [Hc| ->%list_elem_of_singleton]%elem_of_app; [by apply Hpool|done].
    + done.
    + intros c n y my py Hne Hy Hpy Hno Hcln. split; [|done].
      intros [Hc| ->%list_elem_of_singleton]%elem_of_app; [done|].
      apply Hne. by apply (Honce _ _ _ _ _ _ c0 Hy Hx).
Qed.

Lemma tls_close_others l s c :
  c ∉ l ->
  tls_conns (foldr (fun c s => match tls_conns s !! c with
                               | Some cn => set_tls_conn c (close_tls cn) s
                               | None => s end) s l) !! c = tls_conns s !! c.
Proof.
  induction l as [|c0 l IH]; intros Hc; simpl; [done|]. apply not_elem_of_cons in Hc as [Hne Hc].
  case_match; [|by apply IH]. simpl. rewrite lookup_insert_ne by done. by apply IH.
Qed.

Lemma tls_close_calls l s :
  tls_calls (foldr (fun c s => match tls_conns s !! c with
                               | Some cn => set_tls_conn c (close_tls cn) s
                               | None => s end) s l) = tls_calls s.
Proof. induction l as [|c l IH]; simpl; [done|]. by case_match. Qed.

Lemma tls_reachable_inv s : tls_reachable s -> tls_inv s.
Proof.
  induction 1 as [|s ev s' _ Hinv Hstep].
  { constructor; simpl; [constructor|intros c Hc; by apply not_elem_of_nil in Hc|done|done]. }
  destruct (tls_event_call ev) as [x|] eqn:Hev.
  { assert (Hs : match tls_calls s !! x with Some (m, p) => tls_call_step ev x m p s | None => None end = Some s') by
      (destruct ev; try done; injection Hev as ->; done).
    destruct (tls_calls s !! x) as [[m p]|] eqn:Hx; [|done]. by eapply tls_inv_call_step. }
  pose proof Hinv as [Hnd Hpool Hheld Honce].
  destruct ev as [x message compress| | | | | |]; try done; simpl in Hstep.
  - destruct (tls_calls s !! x) eqn:Hx; [done|]. injection Hstep as <-.
    assert (Hold : forall y m p c, <[x := (message, compress, TlsPop)]> (tls_calls s) !! y = Some (m, p) ->
              holder p = Some c -> tls_calls s !! y = Some (m, p)).
    { intros y m p c Hy Hp. destruct (decide (y = x)) as [->|Hne].
      - rewrite lookup_insert_eq in Hy. by injection Hy as _ <-.
      - by rewrite lookup_insert_ne in Hy. }
    constructor; [done|done|..]; simpl.
    + intros y m p c Hy Hp. by eapply Hheld; [eapply Hold|].
    + intros y z my mz py pz c Hy Hz Hpy Hpz. eapply Honce; [by eapply Hold|by eapply Hold|done|done].
  - injection Hstep as <-. unfold TLSTransport_Close. constructor; simpl.
    + constructor.
    + intros c Hc. by apply not_elem_of_nil in Hc.
    + rewrite tls_close_calls. intros x m p c Hx Hp. destruct (Hheld _ _ _ _ Hx Hp) as [Hout (cn & Hc & Hcl)].
      split; [apply not_elem_of_nil|]. exists cn. simpl. by rewrite tls_close_others.
    + rewrite tls_close_calls. exact Honce.
Qed.

(** C26 (one query at a time): in every interleaving of calls, failures and
    closes, a connection that waits in the pool is open, has been answered as
    often as it was asked and is used by nobody; a call that reads has the
    connection to itself, with exactly its own query unanswered on it.  So on a
    connection that answers in order the answer a call reads is the one to its
    own query. *)
Theorem tls_one_query_at_a_time s :
  tls_reachable s ->
  NoDup (connections s) /\
  (forall c, c ∈ connections s -> clean s c 0 /\
     forall x m p, tls_calls s !! x = Some (m, p) -> holder p <> Some c) /\
  (forall x m c pooled, tls_calls s !! x = Some (m, TlsRead c pooled) -> clean s c 1) /\
  (forall x y mx my px py c, tls_calls s !! x = Some (mx, px) -> tls_calls s !! y = Some (my, py) ->
     holder px = Some c -> holder py = Some c -> x = y).
Proof.
  intros [Hnd Hpool Hheld Honce]%tls_reachable_inv. split_and!; [done| | |done].
  - intros c Hc. split; [by apply Hpool|]. intros x m p Hx Hp. by destruct (Hheld _ _ _ _ Hx Hp).
  - intros x m c pooled Hx. by destruct (Hheld _ _ _ _ Hx eq_refl).
Qed.

Fixpoint tls_run (tr : list tls_event) (s : TLSTransport) : option TLSTransport :=
  match tr with
  | [] => Some s
  | ev :: tr => match tls_step ev s with Some s => tls_run tr s | None => None end
  end.

Lemma tls_run_reachable tr s s' : tls_reachable s -> tls_run tr s = Some s' -> tls_reachable s'.
Proof.
  revert s; induction tr as [|ev tr IH]; intros s Hs Hrun; simpl in Hrun; [by injection Hrun as <-|].
  destruct (tls_step ev s) as [s1|] eqn:Hstep; [|done]. eapply IH; [|done]. by eapply tls_next.
Qed.

(** A call goes through at most one pooled connection and one new one. *)
Definition tls_rank (p : tls_pc) : nat :=
  match p with
  | TlsPop => 7 | TlsWrite _ true => 6 | TlsRead _ true => 5 | TlsDial => 4 | TlsWrite _ false => 3
  | TlsRead _ false => 2 | TlsPush _ _ => 1 | TlsDone _ => 0
  end.

Lemma tls_call_rank s ev x m p s' :
  tls_call_step ev x m p s = Some s' ->
  exists p', tls_calls s' = <[x := (m, p')]> (tls_calls s) /\ (tls_rank p' < tls_rank p)%nat.
Proof.
  unfold tls_call_step. intros Hstep.
  destruct ev as [|x0|x0 [c|e]|x0 e|x0 r|x0|]; try done; destruct p as [| |c0 b|c0 b|c0 w|r0]; try done.
  - destruct (connections s); injection Hstep as <-; eexists; (split; [done|]); simpl; lia.
  - destruct (tls_conns s !! c); [done|]. injection Hstep as <-. eexists; (split; [done|]); simpl; lia.
  - injection Hstep as <-. eexists; (split; [done|]); simpl; lia.
  - destruct (tls_conns s !! c0) as [cn|]; [|done]. destruct (tls_write _ _ _ _) as [cn' [f|]];
      injection Hstep as <-; eexists; (split; [done|]); destruct b; simpl; lia.
  - destruct (tls_conns s !! c0) as [cn|]; [|done]. destruct (tls_read _ _) as [cn' [w|f]];
      injection Hstep as <-; eexists; (split; [done|]); destruct b; simpl; lia.
  - injection Hstep as <-. eexists; (split; [done|]); simpl; lia.
Qed.

End tls.

(** ** QUIC *)

(** What [errors.As] and [errors.Is] find in an error of quic-go. *)
Class QUICErrors : Type := {
  As_ApplicationError : error -> option Z;
  As_IdleTimeoutError : error -> bool;
  As_StatelessResetError : error -> bool;
  As_TransportError : error -> option Z;
  Is_Err0RTTRejected : error -> bool }.

Section quic.
Context `{QUICErrors} `{DNSWire}.

Definition isQUICRetryError (err : error) : bool :=
  bool_decide (As_ApplicationError err = Some 0) || As_IdleTimeoutError err || As_StatelessResetError err ||
  bool_decide (As_TransportError err = Some 0) || Is_Err0RTTRejected err.

(** [Transport]: its connection, and the connections that are closed. *)
Record QUICTransport : Type := { connection : option nat; closed_conns : list nat }.

Definition conn_closed (c : nat) (t : QUICTransport) : bool := existsb (Nat.eqb c) (closed_conns t).
Definition CloseWithError (c : nat) (t : QUICTransport) : QUICTransport :=
  {| connection := connection t; closed_conns := c :: closed_conns t |}.

Definition openConnection (dial : nat + error) (t : QUICTransport) : QUICTransport * (nat + error) :=
  match connection t with
  | Some c => if conn_closed c t then
                match dial with
                | inl c' => ({| connection := Some c'; closed_conns := closed_conns t |}, inl c')
                | inr e => (t, inr e)
                end
              else (t, inl c)
  | None =>
      match dial with
      | inl c' => ({| connection := Some c'; closed_conns := closed_conns t |}, inl c')
      | inr e => (t, inr e)
      end
  end.

(** A stream: why it does not open, or what is written to it and read from it. *)
Definition QUIC_exchange (stream : Stream + error) (compress : bool) (message : DMsg) : res WMsg :=
  match stream with
  | inr e => Err e
  | inl stream =>
      let* stream := WriteMessage compress 0 message stream in
      let* '(response, _) := ReadMessage (st_reader stream) in
      Ok response
  end.

(** [Exchange] from its [n] last rounds on; the lists are the results of its
    dials and of its streams, by round. *)
Fixpoint QUIC_rounds (n : nat) (dials : list (nat + error)) (streams : list (nat -> Stream + error))
    (compress : bool) (message : DMsg) (err : error) (t : QUICTransport) : QUICTransport * res WMsg :=
  match n, dials, streams with
  | S n, dial :: dials, stream :: streams =>
      match openConnection dial t with
      | (t, inr e) => (t, Err e)
      | (t, inl conn) =>
          match QUIC_exchange (stream conn) compress message with
          | Ok response => (t, Ok response)
          | Panic msg => (t, Panic msg)
          | Err e =>
              if isQUICRetryError e then
                QUIC_rounds n dials streams compress message e (CloseWithError conn t)
              else (t, Err e)
          end
      end
  | _, _, _ => (t, Err err)
  end.

Definition QUIC_Exchange (dial1 dial2 : nat + error) (stream1 stream2 : nat -> Stream + error) :=
  QUIC_rounds 2 [dial1; dial2] [stream1; stream2].

(** [Transport.Close] *)
Definition QUIC_Close (t : QUICTransport) : QUICTransport :=
  match connection t with Some c => CloseWithError c t | None => t end.

Lemma openConnection_current dial t t' c : openConnection dial t = (t', inl c) -> connection t' = Some c.
Proof.
  unfold openConnection. destruct (connection t) as [c0|] eqn:Hc; [destruct (conn_closed c0 t)|];
    try destruct dial; intros [= <- <-]; done.
Qed.

(** A connection that was closed after a failure is not used again. *)
Lemma openConnection_after_close dial t c :
  connection t = Some c ->
  openConnection dial (CloseWithError c t) =
    match dial with
    | inl c' => ({| connection := Some c'; closed_conns := c :: closed_conns t |}, inl c')
    | inr e => (CloseWithError c t, inr e)
    end.
Proof.
  intros Hc. unfold openConnection, conn_closed. simpl. rewrite Hc. simpl. by rewrite Nat.eqb_refl.
Qed.

(** An exchange that fails with one of the errors of a connection that is gone
    is tried once more, on a connection that is dialled for it; any other
    outcome of the first attempt, and every outcome of the second, is the result. *)
Lemma quic_exchange_retries_once dial1 dial2 stream1 stream2 compress message err t c t' :
  openConnection dial1 t = (t', inl c) ->
  QUIC_Exchange dial1 dial2 stream1 stream2 compress message err t =
    match QUIC_exchange (stream1 c) compress message with
    | Err e =>
        if isQUICRetryError e then
          match dial2 with
          | inr e2 => (CloseWithError c t', Err e2)
          | inl c2 =>
              let t2 := {| connection := Some c2; closed_conns := c :: closed_conns t' |} in
              match QUIC_exchange (stream2 c2) compress message with
              | Err e2 => (if isQUICRetryError e2 then CloseWithError c2 t2 else t2, Err e2)
              | r => (t2, r)
              end
          end
        else (t', Err e)
    | r => (t', r)
    end.
Proof.
  intros Ho. unfold QUIC_Exchange. cbn [QUIC_rounds]. rewrite Ho.
  destruct (QUIC_exchange (stream1 c) compress message) as [w|e|msg]; [done| |done].
  destruct (isQUICRetryError e); [|done].
  rewrite openConnection_after_close by (by eapply openConnection_current).
  destruct dial2 as [c2|e2]; [|done]. cbn zeta.
  destruct (QUIC_exchange (stream2 c2) compress message) as [w2|e2|msg2]; [done| |done].
  by destruct (isQUICRetryError e2).
Qed.

End quic.

(** ** HTTPS *)

Section https.
Context `{DNSWire}.

Definition StatusOK : Z := 200.

(** An HTTP response: its status, the length it announces (negative when it
    does not), and its body. *)
Record http_Response : Type := {
  StatusCode : Z; Status : string; ContentLength : Z; Body : Reader }.

(** [io.ReadAll] *)
Definition ReadAll (r : Reader) : res (list Z) :=
  if bool_decide (rd_end r = ErrEOF) then Ok (rd_bytes r) else Err (rd_end r).

(** What the exchange makes of a response. *)
Definition read_response (response : http_Response) : res WMsg :=
  if negb (StatusCode response =? StatusOK) then Err (ErrNew ("unexpected status: " +:+ Status response))
  else if 0 <? ContentLength response then
    let* '(rawMessage, _) := ReadFull (Z.to_nat (ContentLength response)) (Body response) in
    decode rawMessage
  else
    let* rawMessage := ReadAll (Body response) in
    decode rawMessage.

(** [HTTPSTransport.exchange]; [newRequest] is the error of
    [http.NewRequestWithContext], [roundTrip] sends the body of the request. *)
Definition HTTPS_exchange (newRequest : option error) (roundTrip : list Z -> res http_Response)
    (compress : bool) (message : DMsg) : res WMsg :=
  match PackBuffer true (with_Id 0 message) (Msg_Len compress message + 1) with
  | inr e => Err e
  | inl (_, rawMessage) =>
      match newRequest with
      | Some e => Err e
      | None =>
          let* response := roundTrip rawMessage in
          read_response response
      end
  end.

(** [HTTP3Transport.Exchange], which does the same over HTTP/3. *)
Definition HTTP3Transport_Exchange (newRequest : option error) (roundTrip : list Z -> res http_Response)
    (compress : bool) (message : DMsg) : res WMsg :=
  match PackBuffer true (with_Id 0 message) (Msg_Len compress message + 1) with
  | inr e => Err e
  | inl (_, rawMessage) =>
      match newRequest with
      | Some e => Err e
      | None =>
          let* response := roundTrip rawMessage in
          read_response response
      end
  end.

Definition errFallback : error := ErrNew "fallback to HTTP/1.1".

(** [HTTPSTransportWrapper]: the flag its copies share, and how the HTTP/2
    transport of this copy is told from the others. *)
Record HTTPSTransportWrapper : Type := { fallback : bool; http2_generation : nat }.

(** The dial of the HTTP/2 transport: a connection whose peer chose another
    protocol is closed, and remembered. *)
Definition http2_dial (dial : string + error) (h : HTTPSTransportWrapper) : HTTPSTransportWrapper * (unit + error) :=
  match dial with
  | inr e => (h, inr e)
  | inl protocol =>
      if bool_decide (protocol = "h2") then (h, inl ())
      else ({| fallback := true; http2_generation := http2_generation h |}, inr errFallback)
  end.

(** [RoundTrip]: what the HTTP/2 transport answers may come after a dial. *)
Definition RoundTrip (http2 : HTTPSTransportWrapper -> HTTPSTransportWrapper * res http_Response)
    (http1 : res http_Response) (h : HTTPSTransportWrapper) : HTTPSTransportWrapper * res http_Response :=
  if fallback h then (h, http1)
  else
    match http2 h with
    | (h, Err e) => if errors_Is e errFallback then (h, http1) else (h, Err e)
    | (h, r) => (h, r)
    end.

(** [Clone]: a new HTTP/2 transport, with the flag and the HTTP/1 transport of
    the old one. *)
Definition Clone (h : HTTPSTransportWrapper) : HTTPSTransportWrapper :=
  {| fallback := fallback h; http2_generation := S (http2_generation h) |}.

Record HTTPSTransport : Type := { transport : HTTPSTransportWrapper; transportResetAt : option Z }.

Definition DeadlineExceeded : error := ErrNew "context deadline exceeded".

(** [Exchange] after [exchange] has returned [r]; [startAt] is when the call
    began. *)
Definition HTTPS_after (startAt now : Z) (r : res WMsg) (t : HTTPSTransport) : HTTPSTransport * res WMsg :=
  match r with
  | Err e =>
      if errors_Is e DeadlineExceeded then
        if match transportResetAt t with Some at_ => startAt <? at_ | None => false end then (t, Err e)
        else ({| transport := Clone (transport t); transportResetAt := Some now |}, Err e)
      else (t, Err e)
  | r => (t, r)
  end.

(** [HTTPSTransport.Close] *)
Definition HTTPS_Close (t : HTTPSTransport) : HTTPSTransport :=
  {| transport := Clone (transport t); transportResetAt := transportResetAt t |}.

(** The length only says how much of the body is read: with the right one the
    answer is the same as without. *)
Lemma read_response_length code status body :
  rd_bytes body <> [] -> rd_end body = ErrEOF ->
  read_response {| StatusCode := code; Status := status;
                   ContentLength := Z.of_nat (length (rd_bytes body)); Body := body |} =
  read_response {| StatusCode := code; Status := status; ContentLength := -1; Body := body |}.
Proof.
  intros Hne Hend. unfold read_response. cbn [StatusCode ContentLength Body Status].
  destruct (negb _); [done|]. rewrite (proj2 (Z.ltb_lt _ _)) by (destruct (rd_bytes body); simpl; [done|lia]).
  unfold ReadFull, ReadAll. rewrite Nat2Z.id, Nat.leb_refl, Hend, bool_decide_eq_true_2 by done.
  simpl. by rewrite firstn_all.
Qed.

(** However many calls time out together, those that began before the reset
    leave the new transport alone. *)
Lemma one_reset_for_all (calls : list (Z * Z)) e start0 now0 t :
  errors_Is e DeadlineExceeded = true ->
  match transportResetAt t with Some at_ => at_ <= start0 | None => True end ->
  Forall (fun '(start, _) => start < now0) calls ->
  foldl (fun t '(start, now) => (HTTPS_after start now (Err e) t).1) (HTTPS_after start0 now0 (Err e) t).1 calls =
    {| transport := Clone (transport t); transportResetAt := Some now0 |}.
Proof.
  intros He Hstart Hcalls. unfold HTTPS_after at 2. rewrite He.
  assert (Hnot : match transportResetAt t with Some at_ => start0 <? at_ | None => false end = false).
  { destruct (transportResetAt t); [|done]. apply Z.ltb_ge. lia. }
  rewrite Hnot. cbn [fst]. induction Hcalls as [|[start now] calls Hs _ IH]; [done|].
  cbn [foldl]. unfold HTTPS_after at 2. rewrite He. cbn [transportResetAt].
  rewrite (proj2 (Z.ltb_lt _ _)) by done. exact IH.
Qed.

(** Once a peer has chosen HTTP/1, HTTP/2 is not tried again, on this transport
    or on its copies. *)
Lemma fallback_stays http2 http1 h :
  fallback h = true -> RoundTrip http2 http1 (Clone h) = (Clone h, http1).
Proof. intros Hf. unfold RoundTrip, Clone. cbn [fallback]. by rewrite Hf. Qed.

End https.

(** ** Runs *)

#[local] Existing Instance concrete_wire.

Definition tls_example_answer (id : Z) : WMsg :=
  {| w_msg := Build_Msg id false false false false 0 [] [] [] []; w_Truncated := false |}.

(** A query, one that uses its connection again, and a third that needs another. *)
Definition tls_example : list tls_event :=
  [TlsCall 0 (bare_message 7) false; TlsPopFront 0; TlsDialed 0 (inl 0%nat); TlsWritten 0 None;
   TlsAnswer 0 (Ok (tls_example_answer 1)); TlsPushBack 0;
   TlsCall 1 (bare_message 8) false; TlsPopFront 1; TlsWritten 1 None;
   TlsCall 2 (bare_message 9) false; TlsPopFront 2; TlsDialed 2 (inl 1%nat); TlsWritten 2 None;
   TlsAnswer 2 (Ok (tls_example_answer 1)); TlsPushBack 2].
Definition tls_example_end : TLSTransport := default NewTLSRaw (tls_run tls_example NewTLSRaw).

Lemma tls_one_query_at_a_time_witness :
  connections tls_example_end = [1%nat] /\
  tls_calls tls_example_end !! 1%nat = Some (bare_message 8, false, TlsRead 0 true) /\
  clean tls_example_end 0 1.
Proof.
  split; [vm_compute; reflexivity|]. split; [vm_compute; reflexivity|].
  refine (proj1 (proj2 (proj2 (tls_one_query_at_a_time tls_example_end _))) 1%nat (bare_message 8, false) 0%nat true _).
  - eapply (tls_run_reachable tls_example); [constructor|]. vm_compute. reflexivity.
  - vm_compute. reflexivity.
Defined.

(** ** Behaviours worth knowing

    [Close] empties the pool, but a call that is under way puts its connection
    back into it afterwards. *)
Example connection_after_close :
  (fun s => (connections s, tc_closed <$> tls_conns s !! 0%nat)) <$>
    tls_run (take 9 tls_example ++ [TlsClose; TlsAnswer 1 (Ok (tls_example_answer 2)); TlsPushBack 1]) NewTLSRaw =
    Some ([0%nat], Some false).
Proof. vm_compute. reflexivity. Qed.

(** The id of the answer is neither compared with the one of the query nor put
    back. *)
Example tls_answer_id :
  (fun s => (fun '(m, _, p) => match p with TlsDone (inl w) => Some (msg_Id m, msg_Id (w_msg w)) | _ => None end) <$>
     tls_calls s !! 0%nat) <$> tls_run (take 6 tls_example) NewTLSRaw = Some (Some (Some (7, 1))).
Proof. vm_compute. reflexivity. Qed.
