(* ===== verification/StringFacts.v ===== *)
(** * Facts about Go's string functions

    What the functions of [strings] in GoStd.v give on strings that are put
    together from known parts. *)

From stdpp Require Import base list strings.
From Stdlib Require Import ZArith Lia Ascii.
From S2P Require Import Prelude GoStd.

Notation chars := String.list_ascii_of_string.

Lemma str_app_cons (c : ascii) (a b : string) : String c a +:+ b = String c (a +:+ b).
Proof. done. Qed.

Lemma str_app_empty (b : string) : "" +:+ b = b.
Proof. done. Qed.

Lemma str_app_assoc (a b c : string) : (a +:+ b) +:+ c = a +:+ (b +:+ c).
Proof. induction a as [|x a IH]; rewrite ?str_app_cons, ?str_app_empty; simpl; [done|]. by rewrite IH. Qed.

Lemma str_app_nil (a : string) : a +:+ "" = a.
Proof. induction a as [|x a IH]; rewrite ?str_app_cons, ?str_app_empty; simpl; [done|]. by rewrite IH. Qed.

Lemma chars_app (a b : string) : chars (a +:+ b) = chars a ++ chars b.
Proof. induction a as [|x a IH]; rewrite ?str_app_cons, ?str_app_empty; simpl; [done|]. by rewrite IH. Qed.

Lemma length_chars (a : string) : length (chars a) = String.length a.
Proof. induction a as [|x a IH]; rewrite ?str_app_cons, ?str_app_empty; simpl; [done|]. by rewrite IH. Qed.

Lemma str_length_app (a b : string) : String.length (a +:+ b) = (String.length a + String.length b)%nat.
Proof. by rewrite <- !length_chars, chars_app, length_app. Qed.

Lemma substring_0_length (b : string) : String.substring 0 (String.length b) b = b.
Proof. induction b as [|x b IH]; simpl; [done|]. by rewrite IH. Qed.

Lemma substring_app_r (a b : string) n : String.substring (String.length a) n (a +:+ b) = String.substring 0 n b.
Proof. induction a as [|x a IH]; rewrite ?str_app_cons, ?str_app_empty; simpl; [done|]. exact IH. Qed.

Lemma substring_app_l (a b : string) : String.substring 0 (String.length a) (a +:+ b) = a.
Proof. induction a as [|x a IH]; rewrite ?str_app_cons, ?str_app_empty; simpl; [by destruct b|]. by rewrite IH. Qed.

Lemma str_take_app (a b : string) : str_take (String.length a) (a +:+ b) = a.
Proof. apply substring_app_l. Qed.

Lemma str_drop_app (a b : string) : str_drop (String.length a) (a +:+ b) = b.
Proof.
  unfold str_drop. rewrite substring_app_r, str_length_app.
  replace (_ - _)%nat with (String.length b) by lia. apply substring_0_length.
Qed.

(** ** Prefixes and suffixes *)

Lemma HasPrefix_app (a b : string) : strings_HasPrefix (a +:+ b) a = true.
Proof.
  unfold strings_HasPrefix. induction a as [|x a IH]; rewrite ?str_app_cons, ?str_app_empty; simpl; [by destruct b|].
  destruct (ascii_dec x x); done.
Qed.

Lemma HasPrefix_empty (p : string) : strings_HasPrefix p "" = true.
Proof. by destruct p. Qed.

Lemma HasPrefix_head (c d : ascii) (s p : string) :
  strings_HasPrefix (String c s) (String d p) = (if ascii_dec c d then strings_HasPrefix s p else false).
Proof.
  unfold strings_HasPrefix. simpl. destruct (ascii_dec d c) as [->|Hne].
  - by destruct (ascii_dec c c).
  - by destruct (ascii_dec c d).
Qed.

Lemma HasPrefix_split (s p : string) : strings_HasPrefix s p = true -> exists t, s = p +:+ t.
Proof.
  unfold strings_HasPrefix. revert s; induction p as [|d p IH]; intros s Hs; [by exists s|].
  destruct s as [|c s]; simpl in Hs; [done|]. destruct (ascii_dec d c) as [->|]; [|done].
  destruct (IH _ Hs) as [t ->]. by exists t.
Qed.

Lemma HasSuffix_app (a b : string) : strings_HasSuffix (a +:+ b) b = true.
Proof.
  unfold strings_HasSuffix. rewrite str_length_app, (proj2 (Nat.ltb_ge _ _)) by lia.
  replace (String.length a + String.length b - String.length b)%nat with (String.length a) by lia.
  apply bool_decide_eq_true_2. rewrite substring_app_r. apply substring_0_length.
Qed.

(** A suffix of one byte looks at the last byte. *)
Lemma HasSuffix_last (a : string) (c d : ascii) :
  strings_HasSuffix (a +:+ String c "") (String d "") = bool_decide (c = d).
Proof.
  unfold strings_HasSuffix. rewrite str_length_app. simpl. rewrite (proj2 (Nat.ltb_ge _ _)) by lia.
  replace (String.length a + 1 - 1)%nat with (String.length a) by lia. rewrite substring_app_r.
  simpl. apply bool_decide_ext. split; [by intros [= ->]|by intros ->].
Qed.

Lemma str_last (s : string) : s <> "" -> exists t c, s = t +:+ String c "".
Proof.
  induction s as [|c s IH]; intros Hs; [done|]. destruct s as [|c' s]; [by exists "", c|].
  destruct IH as (t & d & Ht); [done|]. exists (String c t), d. by rewrite str_app_cons, <- Ht.
Qed.

Lemma HasSuffix_absent (s : string) (d : ascii) : d ∉ chars s -> strings_HasSuffix s (String d "") = false.
Proof.
  intros Hd. destruct (decide (s = "")) as [->|Hne]; [done|]. destruct (str_last s Hne) as (t & c & ->).
  rewrite HasSuffix_last. apply bool_decide_eq_false_2. intros ->. apply Hd.
  rewrite chars_app. apply elem_of_app. right. by left.
Qed.

(** ** Searching *)

Lemma index_0 (s sub : string) :
  String.index 0 sub s =
    match s with
    | "" => if decide (sub = "") then Some 0%nat else None
    | String c s' => if String.prefix sub s then Some 0%nat else S <$> String.index 0 sub s'
    end.
Proof.
  destruct s as [|c s']; [by destruct sub|]. simpl.
  destruct sub as [|d sub]; [done|]. destruct (ascii_dec d c); [destruct (String.prefix sub s'); [done|]|];
    by destruct (String.index 0 (String d sub) s').
Qed.

(** A substring has no byte the string does not have. *)
Lemma Contains_absent (s sub : string) (c : ascii) :
  c ∉ chars s -> c ∈ chars sub -> strings_Contains s sub = false.
Proof.
  intros Hs Hc. unfold strings_Contains, strings_Index.
  enough (String.index 0 sub s = None) as -> by done.
  assert (Hpre : forall s, c ∉ chars s -> String.prefix sub s = false).
  { intros t Ht. destruct (String.prefix sub t) eqn:Hp; [|done].
    destruct (HasPrefix_split t sub Hp) as [u ->]. destruct Ht. rewrite chars_app. apply elem_of_app. by left. }
  induction s as [|d s IH]; rewrite index_0.
  - case_decide as He; [|done]. subst sub. by apply not_elem_of_nil in Hc.
  - rewrite Hpre by done. rewrite IH; [done|]. simpl in Hs. by apply not_elem_of_cons in Hs as [_ ?].
Qed.

Lemma Index_first (a b : string) (c : ascii) :
  c ∉ chars a -> strings_Index (a +:+ String c b) (String c "") = Some (String.length a).
Proof.
  unfold strings_Index. induction a as [|d a IH]; intros Ha; rewrite index_0, ?str_app_cons, ?str_app_empty; simpl.
  - destruct (ascii_dec c c); [by destruct b|done].
  - simpl in Ha. apply not_elem_of_cons in Ha as [Hne Ha]. destruct (ascii_dec c d); [done|].
    by rewrite IH.
Qed.

Lemma Contains_first (a b : string) (c : ascii) : c ∉ chars a -> strings_Contains (a +:+ String c b) (String c "") = true.
Proof. intros Ha. unfold strings_Contains. by rewrite Index_first. Qed.

(** ** Characters of a class *)

Lemma chars_map f (s : string) : chars (map_string f s) = map f (chars s).
Proof. unfold map_string. by rewrite String.list_ascii_of_string_of_list_ascii. Qed.

Lemma absent_class (P : ascii -> Prop) (s : string) (c : ascii) : Forall P (chars s) -> ~ P c -> c ∉ chars s.
Proof. rewrite Forall_forall. intros Hall Hc Hin. by apply Hc, Hall. Qed.
