(* ===== verification/AdGuard.v ===== *)
(** * AdGuard filter lists

    common/convertor/adguard/convertor.go: reading the lines of an AdGuard DNS
    filter list into one headless rule, and writing such a rule as a list
    again. *)

From stdpp Require Import base list strings.
From Stdlib Require Import ZArith Lia Ascii.
From S2P Require Import Prelude GoStd External Adapter RuleItem RuleAbstract RuleTree RuleMatch RuleAction RuleBuild RuleConfig.

Open Scope Z_scope.
Open Scope box_scope.

(** What the converter uses of sing: common and common/metadata. *)
Class AdGuardLib : Type := {
  IsDomainName : string -> bool;
  (** [M.ParseAddr(s).IsUnspecified()] *)
  ParseAddr_IsUnspecified : string -> bool;
  SubstringBefore : string -> string -> string;
  SubstringAfter : string -> string -> string;
  (** whether [common.Map] makes a list that is not nil from an empty one *)
  Map_NonNil : bool }.

(** ** Go's strings and bufio *)

(** [strings.ReplaceAll] of one byte by another *)
Definition replace_byte (old new : ascii) (s : string) : string :=
  map_string (fun c => if ascii_dec c old then new else c) s.

(** [netip.Addr.IsUnspecified] *)
Definition Addr_IsUnspecified (a : Addr) : bool :=
  match a with
  | AddrInvalid => false
  | Addr4 n => n =? 0
  | Addr6 n z => (n =? 0) && bool_decide (z = "")
  end.

(** [if strings.HasSuffix(s, suffix) { s = s[:len(s)-len(suffix)] }] *)
Definition trim_suffix (suffix s : string) : string :=
  if strings_HasSuffix s suffix then str_take (String.length s - String.length suffix) s else s.

(** The lines of a [bufio.Scanner]: a line of 65536 bytes or more ends the
    scan, and nothing after it is read. *)
Definition MaxScanTokenSize : nat := Z.to_nat 65536.

Definition drop_cr (cur : list ascii) : list ascii :=
  match cur with c :: cur' => if ascii_dec c "013" then cur' else cur | [] => [] end.

Fixpoint scan_bytes (l cur : list ascii) : list string :=
  match l with
  | [] =>
      if bool_decide (cur = []) || (MaxScanTokenSize <=? length cur)%nat then []
      else [String.string_of_list_ascii (rev (drop_cr cur))]
  | c :: l =>
      if ascii_dec c "010" then
        if (MaxScanTokenSize <=? length cur)%nat then []
        else String.string_of_list_ascii (rev (drop_cr cur)) :: scan_bytes l []
      else scan_bytes l (c :: cur)
  end.
Definition scan_lines (text : string) : list string := scan_bytes (String.list_ascii_of_string text) [].

(** ** Lines *)

Record agdguardRuleLine : Type := {
  rl_ruleLine : string;
  rl_isRawDomain : bool;
  rl_isExclude : bool;
  rl_isSuffix : bool;
  rl_hasStart : bool;
  rl_hasEnd : bool;
  rl_isRegexp : bool;
  rl_isImportant : bool }.

#[global] Instance agdguardRuleLine_eq_dec : EqDecision agdguardRuleLine.
Proof. solve_decision. Defined.

Definition raw_line (anchored : bool) (domain : string) : agdguardRuleLine :=
  {| rl_ruleLine := domain; rl_isRawDomain := true; rl_isExclude := false; rl_isSuffix := false;
     rl_hasStart := anchored; rl_hasEnd := anchored; rl_isRegexp := false; rl_isImportant := false |}.

(** What a line comes to: nothing, a rule of an unsupported kind, or a rule. *)
Inductive parsed : Type := Skipped | Ignored | Parsed (l : agdguardRuleLine).

Section adguard.
Context `{AdGuardLib}.

Definition os_ErrInvalid : error := ErrNew "invalid argument".

(** The domain of a line of a hosts file: empty for an address that does not
    block, an error for what is no such line. *)
Definition parseAdGuardHostLine (ruleLine : string) : res string :=
  match strings_Index ruleLine " " with
  | None => Err os_ErrInvalid
  | Some idx =>
      let* address := netip_ParseAddr (str_take idx ruleLine) in
      if negb (Addr_IsUnspecified address) then Ok ""
      else
        let domain := str_drop (S idx) ruleLine in
        if negb (IsDomainName domain) then Err (ErrNew ("invalid domain name: " +:+ domain))
        else Ok domain
  end.

(** Go's string literals ["\\."] and the like. *)
Definition backslash_dot : string := String "092" ".".
Definition http_regexp_prefix : string := "(http?:" +:+ String "092" "/" +:+ String "092" "/)".
Definition https_regexp_prefix : string := "(https?:" +:+ String "092" "/" +:+ String "092" "/)".

Definition ignoreIPCIDRRegexp (ruleLine : string) : bool :=
  let ruleLine :=
    if strings_HasPrefix ruleLine http_regexp_prefix then str_drop 12 ruleLine
    else if strings_HasPrefix ruleLine https_regexp_prefix then str_drop 13 ruleLine
    else if strings_HasPrefix ruleLine "^" then str_drop 1 ruleLine
    else ruleLine in
  is_ok (strconv_ParseUint (SubstringBefore ruleLine backslash_dot) 8) ||
  is_ok (strconv_ParseUint (SubstringBefore ruleLine ".") 8).

(** Tells two kinds of ignored lines apart for the log. *)
Definition parseADGuardIPCIDRLine (ruleLine : string) : res Prefix :=
  let isPrefix := strings_HasSuffix ruleLine "." in
  let ruleLine := trim_suffix "." ruleLine in
  let ruleStringParts := strings_Split ruleLine "." in
  if (4 <? length ruleStringParts)%nat || (length ruleStringParts <? 4)%nat && negb isPrefix
  then Err os_ErrInvalid
  else
    let* ruleParts := res_mapi (fun _ part => strconv_ParseUint part 8) 0 ruleStringParts in
    let bitLen := Z.of_nat (length ruleParts) * 8 in
    let octets := ruleParts ++ replicate (4 - length ruleParts) 0 in
    Ok {| prefix_ip := Addr4 (big_endian octets); prefix_bits := bitLen |}.

(** One modifier: whether it is supported, and whether it is [important]. *)
Definition read_modifier (param : string) : bool * bool :=
  match strings_Split param "=" with
  | [name] => (bool_decide (name = "important"), bool_decide (name = "important"))
  | [name; value] =>
      if decide (name = "important") then (true, true)
      else (bool_decide (name = "dnsrewrite") && ParseAddr_IsUnspecified value, false)
  | _ => (false, false)
  end.

(** All modifiers; [None] when one is not supported. *)
Fixpoint read_modifiers (params : list string) (isImportant : bool) : option bool :=
  match params with
  | [] => Some isImportant
  | param :: params =>
      let '(ignored, important) := read_modifier param in
      if ignored then read_modifiers params (isImportant || important) else None
  end.

(** The part of a line that is no regular expression: the domain that is left,
    and whether it is matched with its subdomains; [None] for a line of an
    unsupported kind. *)
Definition read_domain (ruleLine : string) (isSuffix : bool) : option (string * bool) :=
  let '(ruleLine, isSuffix) :=
    if strings_Contains ruleLine "://" then (SubstringAfter ruleLine "://", true) else (ruleLine, isSuffix) in
  if strings_Contains ruleLine "/" then None
  else if strings_Contains ruleLine "?" || strings_Contains ruleLine "&" then None
  else if strings_Contains ruleLine "[" || strings_Contains ruleLine "]" ||
          strings_Contains ruleLine "(" || strings_Contains ruleLine ")" ||
          strings_Contains ruleLine "!" || strings_Contains ruleLine "#" then None
  else if strings_Contains ruleLine "~" then None
  else
    let domainCheck :=
      if strings_HasPrefix ruleLine "." || strings_HasPrefix ruleLine "-" then "r" +:+ ruleLine else ruleLine in
    if decide (ruleLine = "") then None
    else if IsDomainName (replace_byte "*" "x" domainCheck) then Some (ruleLine, isSuffix)
    else None.

(** The pattern of a line, without its modifiers. *)
Definition read_pattern (ruleLine : string) (isImportant : bool) : res parsed :=
  let isExclude := strings_HasPrefix ruleLine "@@" in
  let ruleLine := if isExclude then str_drop 2 ruleLine else ruleLine in
  let ruleLine := trim_suffix "|" ruleLine in
  let isSuffix := strings_HasPrefix ruleLine "||" in
  let hasStart := negb isSuffix && strings_HasPrefix ruleLine "|" in
  let ruleLine := if isSuffix then str_drop 2 ruleLine else if hasStart then str_drop 1 ruleLine else ruleLine in
  let hasEnd := strings_HasSuffix ruleLine "^" in
  let ruleLine := trim_suffix "^" ruleLine in
  if strings_HasPrefix ruleLine "/" && strings_HasSuffix ruleLine "/" then
    if (String.length ruleLine <? 2)%nat then Panic "runtime error: slice bounds out of range [1:0]"
    else
      let ruleLine := str_take (String.length ruleLine - 2) (str_drop 1 ruleLine) in
      if ignoreIPCIDRRegexp ruleLine then Ok Ignored
      else Ok (Parsed {| rl_ruleLine := ruleLine; rl_isRawDomain := false; rl_isExclude := isExclude;
                         rl_isSuffix := isSuffix; rl_hasStart := hasStart; rl_hasEnd := hasEnd;
                         rl_isRegexp := true; rl_isImportant := isImportant |})
  else
    match read_domain ruleLine isSuffix with
    | None => Ok Ignored
    | Some (ruleLine, isSuffix) =>
        Ok (Parsed {| rl_ruleLine := ruleLine; rl_isRawDomain := false; rl_isExclude := isExclude;
                      rl_isSuffix := isSuffix; rl_hasStart := hasStart; rl_hasEnd := hasEnd;
                      rl_isRegexp := false; rl_isImportant := isImportant |})
    end.

(** One round of the loop over the lines. *)
Definition parse_line (ruleLine : string) : res parsed :=
  if decide (ruleLine = "") then Ok Skipped
  else if strings_HasPrefix ruleLine "!" || strings_HasPrefix ruleLine "#" then Ok Skipped
  else if IsDomainName ruleLine then Ok (Parsed (raw_line false ruleLine))
  else
    match parseAdGuardHostLine ruleLine with
    | Ok hostLine => Ok (if decide (hostLine = "") then Skipped else Parsed (raw_line true hostLine))
    | _ =>
        let ruleLine := trim_suffix "|" ruleLine in
        if negb (strings_HasPrefix ruleLine "/") && strings_Contains ruleLine "$" then
          match read_modifiers (strings_Split (SubstringAfter ruleLine "$") ",") false with
          | None => Ok Ignored
          | Some isImportant => read_pattern (SubstringBefore ruleLine "$") isImportant
          end
        else read_pattern ruleLine false
    end.

Fixpoint parse_lines (lines : list string) : res (list agdguardRuleLine) :=
  match lines with
  | [] => Ok []
  | line :: lines =>
      let* p := parse_line line in
      let* ls := parse_lines lines in
      Ok (match p with Parsed l => l :: ls | _ => ls end)
  end.

(** ** The rule *)

Definition mapDomain (l : agdguardRuleLine) : string :=
  (if rl_isSuffix l then "||" else if rl_hasStart l then "|" else "") +:+ rl_ruleLine l +:+
  (if rl_hasEnd l then "^" else "").

(** The lines of one of the eight lists, as they are written. *)
Definition list_of (important regexp exclude : bool) (ls : list agdguardRuleLine) : list string :=
  map mapDomain (List.filter (fun l =>
    Bool.eqb (rl_isImportant l) important && Bool.eqb (rl_isRegexp l) regexp &&
    Bool.eqb (rl_isExclude l) exclude) ls).

Context `{External}.

(** A default rule with these lists and nothing else. *)
Definition list_options (adguard regex : list string) (invert : bool) : DefaultHeadlessOptions :=
  {| hd_QueryType := []; hd_Network := []; hd_Domain := []; hd_DomainSuffix := [];
     hd_DomainKeyword := []; hd_DomainRegex := regex; hd_SourceIPCIDR := []; hd_IPCIDR := [];
     hd_SourcePort := []; hd_SourcePortRange := []; hd_Port := []; hd_PortRange := [];
     hd_ProcessName := []; hd_ProcessPath := []; hd_ProcessPathRegex := []; hd_PackageName := [];
     hd_NetworkType := []; hd_NetworkIsExpensive := false; hd_NetworkIsConstrained := false;
     hd_WIFISSID := []; hd_WIFIBSSID := []; hd_Invert := invert; hd_DomainMatcher := None;
     hd_SourceIPSet := None; hd_IPSet := None; hd_AdGuardDomain := adguard; hd_AdGuardDomainMatcher := None;
     hd_NonNilEmpty := Map_NonNil && (bool_decide (adguard = []) || bool_decide (regex = [])) |}.

Definition domain_options (domain : list string) : DefaultHeadlessOptions :=
  {| hd_QueryType := []; hd_Network := []; hd_Domain := domain; hd_DomainSuffix := [];
     hd_DomainKeyword := []; hd_DomainRegex := []; hd_SourceIPCIDR := []; hd_IPCIDR := [];
     hd_SourcePort := []; hd_SourcePortRange := []; hd_Port := []; hd_PortRange := [];
     hd_ProcessName := []; hd_ProcessPath := []; hd_ProcessPathRegex := []; hd_PackageName := [];
     hd_NetworkType := []; hd_NetworkIsExpensive := false; hd_NetworkIsConstrained := false;
     hd_WIFISSID := []; hd_WIFIBSSID := []; hd_Invert := false; hd_DomainMatcher := None;
     hd_SourceIPSet := None; hd_IPSet := None; hd_AdGuardDomain := []; hd_AdGuardDomainMatcher := None;
     hd_NonNilEmpty := false |}.

Definition default_rule (o : DefaultHeadlessOptions) : HeadlessRuleOptions :=
  MkHeadlessRuleOptions RuleTypeDefault o "" [] false.
Definition logical_rule (mode : string) (rules : list HeadlessRuleOptions) : HeadlessRuleOptions :=
  MkHeadlessRuleOptions RuleTypeLogical (domain_options []) mode rules false.

(** [currentRule] with a layer of these lists around it, unless they are empty. *)
Definition add_layer (mode : string) (invert : bool) (adguard regex : list string)
    (currentRule : HeadlessRuleOptions) : HeadlessRuleOptions :=
  if nonempty adguard || nonempty regex then
    logical_rule mode [default_rule (list_options adguard regex invert); currentRule]
  else currentRule.

Definition to_rule (ls : list agdguardRuleLine) : HeadlessRuleOptions :=
  if forallb rl_isRawDomain ls then
    default_rule (domain_options (map rl_ruleLine ls))
  else
    add_layer LogicalTypeAnd true (list_of true false true ls) (list_of true true true ls)
      (add_layer LogicalTypeOr false (list_of true false false ls) (list_of true true false ls)
        (add_layer LogicalTypeAnd true (list_of false false true ls) (list_of false true true ls)
          (default_rule (list_options (list_of false false false ls) (list_of false true false ls) false)))).

(** [ToOptions]; what the reader yields is the text. *)
Definition ToOptions (text : string) : res (list HeadlessRuleOptions) :=
  let* ruleLines := parse_lines (scan_lines text) in
  if bool_decide (ruleLines = []) then
    Err (ErrNew "AdGuard rule-set is empty or all rules are unsupported")
  else Ok [to_rule ruleLines].

(** ** Writing *)

Definition ErrInvalid_rule_set : error := ErrNew "invalid binary AdGuard rule-set".

(** The eight lists of [FromOptions]. *)
Record adguard_lists : Type := {
  importantDomain : list string; importantDomainRegex : list string;
  importantExcludeDomain : list string; importantExcludeDomainRegex : list string;
  domain : list string; domainRegex : list string;
  excludeDomain : list string; excludeDomainRegex : list string }.

Definition no_lists : adguard_lists := Build_adguard_lists [] [] [] [] [] [] [] [].

Definition set_important (d r : list string) (a : adguard_lists) : adguard_lists :=
  Build_adguard_lists d r (importantExcludeDomain a) (importantExcludeDomainRegex a)
    (domain a) (domainRegex a) (excludeDomain a) (excludeDomainRegex a).
Definition set_importantExclude (d r : list string) (a : adguard_lists) : adguard_lists :=
  Build_adguard_lists (importantDomain a) (importantDomainRegex a) d r
    (domain a) (domainRegex a) (excludeDomain a) (excludeDomainRegex a).
Definition set_domain (d r : list string) (a : adguard_lists) : adguard_lists :=
  Build_adguard_lists (importantDomain a) (importantDomainRegex a)
    (importantExcludeDomain a) (importantExcludeDomainRegex a) d r (excludeDomain a) (excludeDomainRegex a).
Definition set_exclude (d r : list string) (a : adguard_lists) : adguard_lists :=
  Build_adguard_lists (importantDomain a) (importantDomainRegex a)
    (importantExcludeDomain a) (importantExcludeDomainRegex a) (domain a) (domainRegex a) d r.

(** The layer of a logical rule goes to one of the lists. *)
Definition read_layer (mode : string) (o : DefaultHeadlessOptions) (a : adguard_lists) : option adguard_lists :=
  let d := hd_AdGuardDomain o in
  let r := hd_DomainRegex o in
  let given := nonempty d || nonempty r in
  if bool_decide (mode = LogicalTypeAnd) && hd_Invert o then
    if negb (nonempty (importantExcludeDomain a)) && negb (nonempty (importantExcludeDomainRegex a)) then
      if given then Some (set_importantExclude d r a) else None
    else if given then Some (set_exclude d r a) else None
  else if bool_decide (mode = LogicalTypeOr) && negb (hd_Invert o) then
    if given then Some (set_important d r a) else None
  else None.

(** The loop over the layers; [None] when it does not end. *)
Fixpoint read_layers (rule : HeadlessRuleOptions) (a : adguard_lists) : option (res adguard_lists) :=
  match rule with
  | MkHeadlessRuleOptions type d mode rules _ =>
      if decide (type = RuleTypeLogical) then
        match rules with
        | [MkHeadlessRuleOptions type0 d0 _ _ _; rest] =>
            if decide (type0 = RuleTypeDefault) then
              match read_layer mode d0 a with
              | Some a => read_layers rest a
              | None => Some (Err ErrInvalid_rule_set)
              end
            else Some (Err ErrInvalid_rule_set)
        | _ => Some (Err ErrInvalid_rule_set)
        end
      else if decide (type = RuleTypeDefault) then
        if nonempty (hd_AdGuardDomain d) || nonempty (hd_DomainRegex d)
        then Some (Ok (set_domain (hd_AdGuardDomain d) (hd_DomainRegex d) a))
        else Some (Err ErrInvalid_rule_set)
      else None
  end.

Definition newline : string := String "010" "".

(** The lines of the output. *)
Definition written_lines (a : adguard_lists) : list string :=
  map (fun l => l +:+ "$important") (importantDomain a) ++
  map (fun l => "/" +:+ l +:+ "/$important") (importantDomainRegex a) ++
  map (fun l => "@@" +:+ l +:+ "$important") (importantExcludeDomain a) ++
  map (fun l => "@@/" +:+ l +:+ "/$important") (importantExcludeDomainRegex a) ++
  domain a ++
  map (fun l => "/" +:+ l +:+ "/") (domainRegex a) ++
  map (fun l => "@@" +:+ l) (excludeDomain a) ++
  map (fun l => "@@/" +:+ l +:+ "/") (excludeDomainRegex a).

Definition unlines (l : list string) : string := String.concat "" (map (fun s => s +:+ newline) l).

Definition FromOptions (rules : list HeadlessRuleOptions) : option (res string) :=
  match rules with
  | [rule] =>
      match read_layers rule no_lists with
      | Some r => Some (let* a := r in Ok (unlines (written_lines a)))
      | None => None
      end
  | _ => Some (Err ErrInvalid_rule_set)
  end.

(** ** What the rule means *)

Section meaning.
Context (h : Host).

(** One of the lines of a kind matches. *)
Definition lists_hold (adguard regex : list string) (m : InboundContext) : bool :=
  (nonempty adguard && host_test (AdGuardMatcher_Match (NewAdGuardMatcher adguard)) m) || regex_holds regex m.
Definition lines_hold (important exclude : bool) (ls : list agdguardRuleLine) (m : InboundContext) : bool :=
  lists_hold (list_of important false exclude ls) (list_of important true exclude ls) m.

(** There is a line that is neither important nor an exception. *)
Definition has_plain_line (ls : list agdguardRuleLine) : bool :=
  nonempty (list_of false false false ls) || nonempty (list_of false true false ls).

(** What the rule of a filter list does: an important exception, then an
    important line, then an exception, then a plain line decides; in a list
    without plain lines everything nothing else decides is blocked. *)
Definition filter_list_blocks (ls : list agdguardRuleLine) (m : InboundContext) : bool :=
  if lines_hold true true ls m then false
  else if lines_hold true false ls m then true
  else if lines_hold false true ls m then false
  else if has_plain_line ls then lines_hold false false ls m
  else true.

Lemma regex_holds_nil m : regex_holds [] m = false.
Proof. unfold regex_holds, host_test. apply andb_false_r. Qed.

Lemma list_options_means nm adguard regex inv m :
  nonempty adguard || nonempty regex = true ->
  rule_meaning inv (headless_conditions h nm (list_options adguard regex inv) m) =
  xorb (lists_hold adguard regex m) inv.
Proof.
  intros Hne. unfold rule_meaning, lists_hold.
  destruct adguard as [|a adguard], regex as [|x regex]; [done|..]; destruct nm;
    unfold conditions_hold; cbn; repeat case_bool_decide; try done; unfold some_holds; cbn;
    rewrite ?andb_true_r, ?orb_false_r, ?regex_holds_nil, ?orb_false_r; try done.
  all: by rewrite orb_comm.
Qed.

Lemma lists_hold_nil m : lists_hold [] [] m = false.
Proof. unfold lists_hold. by rewrite regex_holds_nil. Qed.

Lemma layer_means nm mode inv adguard regex rest m :
  headless_means h nm (add_layer mode inv adguard regex rest) m =
  if nonempty adguard || nonempty regex then
    logical_meaning mode false [xorb (lists_hold adguard regex m) inv; headless_means h nm rest m]
  else headless_means h nm rest m.
Proof.
  unfold add_layer. destruct (nonempty adguard || nonempty regex) eqn:Hne; [|done].
  cbn [headless_means logical_rule default_rule map hd_Invert list_options].
  change (is_default_type RuleTypeLogical) with false. change (is_default_type RuleTypeDefault) with true.
  cbv iota. f_equal. f_equal. by apply list_options_means.
Qed.

Lemma exclude_layer_means nm adguard regex rest m :
  headless_means h nm (add_layer LogicalTypeAnd true adguard regex rest) m =
  negb (lists_hold adguard regex m) && headless_means h nm rest m.
Proof.
  rewrite layer_means. destruct (nonempty adguard || nonempty regex) eqn:Hne.
  - unfold logical_meaning. simpl. rewrite andb_true_r, !xorb_false_r. by destruct (lists_hold adguard regex m).
  - destruct adguard, regex; try done. by rewrite lists_hold_nil.
Qed.

Lemma important_layer_means nm adguard regex rest m :
  headless_means h nm (add_layer LogicalTypeOr false adguard regex rest) m =
  lists_hold adguard regex m || headless_means h nm rest m.
Proof.
  rewrite layer_means. destruct (nonempty adguard || nonempty regex) eqn:Hne.
  - unfold logical_meaning. simpl. by rewrite orb_false_r, !xorb_false_r.
  - destruct adguard, regex; try done. by rewrite lists_hold_nil.
Qed.

(** Without a plain line the innermost rule is empty: it is refused, or matches
    everything. *)
Lemma no_plain_line nm ls :
  has_plain_line ls = false ->
  let base := default_rule (list_options (list_of false false false ls) (list_of false true false ls) false) in
  (Map_NonNil = false -> NewHeadlessRule nm base = missing_conditions) /\
  (forall m, headless_means h nm base m = true).
Proof.
  intros Hplain base. unfold has_plain_line in Hplain.
  destruct (list_of false false false ls) eqn:Hd, (list_of false true false ls) eqn:Hx; try done.
  subst base. split.
  - intros Hnil. unfold default_rule. cbn [NewHeadlessRule]. case_decide as Ht; [|by destruct Ht; right].
    unfold DefaultHeadlessRule_IsValid, headless_is_zero, list_options. cbn. by rewrite Hnil.
  - intros m. by destruct nm.
Qed.

Lemma base_means nm ls m :
  headless_means h nm (default_rule (list_options (list_of false false false ls) (list_of false true false ls) false)) m =
  if has_plain_line ls then lines_hold false false ls m else true.
Proof.
  destruct (has_plain_line ls) eqn:Hplain; [|by apply no_plain_line].
  cbn [headless_means default_rule hd_Invert list_options].
  change (is_default_type RuleTypeDefault) with true. cbv iota.
  by rewrite list_options_means, xorb_false_r by done.
Qed.

Lemma to_rule_means nm ls m :
  forallb rl_isRawDomain ls = false -> headless_means h nm (to_rule ls) m = filter_list_blocks ls m.
Proof.
  intros Hraw. unfold to_rule. rewrite Hraw, exclude_layer_means, important_layer_means, exclude_layer_means, base_means.
  fold (lines_hold true true ls m) (lines_hold true false ls m) (lines_hold false true ls m).
  unfold filter_list_blocks.
  by destruct (lines_hold true true ls m), (lines_hold true false ls m), (lines_hold false true ls m).
Qed.

Lemma domain_options_means nm domains m :
  domains <> [] ->
  headless_means h nm (default_rule (domain_options domains)) m = domain_holds domains [] m.
Proof.
  intros Hne. destruct domains as [|d domains]; [done|]. cbn [headless_means default_rule].
  change (is_default_type RuleTypeDefault) with true. cbv iota. unfold rule_meaning, conditions_hold.
  destruct nm; cbn; repeat case_bool_decide; try done; unfold some_holds; cbn;
    by rewrite ?orb_false_r, ?andb_true_r, ?xorb_false_r.
Qed.

Context `{!ExternalLaws _}.

(** C27 (the rule of a filter list blocks what the list asks for): the rule
    built from the options the converter makes of a list, when it is accepted,
    matches a request exactly when the lines decide so, with important exceptions
    over important lines over exceptions over plain lines, and in a list without
    plain lines everything that no line decides; a list of bare domains and hosts
    lines is the rule with exactly these domains. *)
Theorem adguard_rule_means_lines (nm : bool) text ls o r m :
  parse_lines (scan_lines text) = Ok ls -> ToOptions text = Ok [o] ->
  NewHeadlessRule nm o = Ok r -> cache m = NoCache ->
  (HeadlessRule_Match h r m).1 =
    if forallb rl_isRawDomain ls then domain_holds (map rl_ruleLine ls) [] m else filter_list_blocks ls m.
Proof.
  intros Hls Hto Hr Hc. unfold ToOptions in Hto. rewrite Hls in Hto. cbn [res_bind] in Hto.
  case_bool_decide as Hne; [done|]. injection Hto as <-.
  rewrite (headless_rule_denotes h nm _ r m Hr Hc).
  destruct (forallb rl_isRawDomain ls) eqn:Hraw; [|by apply to_rule_means].
  unfold to_rule. rewrite Hraw. apply domain_options_means. by destruct ls.
Qed.
End meaning.

End adguard.
