(* ===== verification/AdGuardWrite.v ===== *)
(** * Writing an AdGuard filter list

    The list [FromOptions] writes is read back as the rule it was written
    from. *)

From stdpp Require Import base list strings sets.
From Stdlib Require Import ZArith Lia Ascii.
From S2P Require Import Prelude GoStd StringFacts External Adapter RuleItem RuleAbstract RuleTree RuleMatch RuleAction RuleBuild RuleConfig AdGuard.

Open Scope Z_scope.
Open Scope box_scope.

(** Letters, digits, hyphens, underscores and dots. *)
Definition domain_char (c : ascii) : bool :=
  let z := byte_of c in
  ((97 <=? z) && (z <=? 122)) || ((65 <=? z) && (z <=? 90)) || ((48 <=? z) && (z <=? 57)) ||
  (z =? 45) || (z =? 95) || (z =? 46).

(** What the documentation of sing promises. *)
Class AdGuardLaws (L : AdGuardLib) : Prop := {
  IsDomainName_nonempty : forall s, IsDomainName s = true -> s <> "";
  IsDomainName_chars : forall s, IsDomainName s = true -> Forall (fun c => domain_char c = true) (chars s);
  IsDomainName_first : forall s, IsDomainName s = true ->
    strings_HasPrefix s "." = false /\ strings_HasPrefix s "-" = false;
  Substring_spec : forall s sub i, strings_Index s sub = Some i ->
    SubstringBefore s sub = str_take i s /\ SubstringAfter s sub = str_drop (i + String.length sub) s }.

Section write.
Context `{AdGuardLaws} `{External}.

(** ** Lines *)

Definition domainCheck (ruleLine : string) : string :=
  if strings_HasPrefix ruleLine "." || strings_HasPrefix ruleLine "-" then "r" +:+ ruleLine else ruleLine.

Definition pattern_ok (d : string) : Prop := d <> "" /\ IsDomainName (replace_byte "*" "x" (domainCheck d)) = true.





(** ** Reading a domain back *)















(** ** Reading a line back *)


















(** ** Reading a text back *)






(** ** The eight lists *)











(** ** Reading the layers back *)








(** The loop of [FromOptions] ends exactly when the rule under the layers has a
    type it knows. *)
Fixpoint known_types (rule : HeadlessRuleOptions) : bool :=
  match rule with
  | MkHeadlessRuleOptions type _ _ rules _ =>
      if decide (type = RuleTypeLogical) then match rules with [_; rest] => known_types rest | _ => true end
      else bool_decide (type = RuleTypeDefault)
  end.

Lemma FromOptions_ends rule : known_types rule = true -> is_Some (FromOptions [rule]).
Proof.
  intros Hk. unfold FromOptions. enough (forall a, is_Some (read_layers rule a)) as Hs.
  { destruct (Hs no_lists) as [r ->]. eauto. }
  revert rule Hk. fix IH 1. intros [type d mode rules inv] Hk a. cbn [known_types read_layers] in *.
  case_decide; [|case_bool_decide; [|done]; case_decide; [|done]; destruct (_ || _); eauto].
  destruct rules as [|[type0 d0 m0 rs0 i0] [|rest [|]]]; eauto. case_decide; [|eauto].
  destruct (read_layer mode d0 a); [|eauto]. by apply IH.
Qed.

(** Lines of a filter list are ones that can be written, as far as they are no
    regular expressions. *)
Lemma read_domain_pattern s sfx d sfx' : read_domain s sfx = Some (d, sfx') -> pattern_ok d.
Proof.
  unfold read_domain. destruct (if strings_Contains s "://" then _ else _) as [t u].
  fold (domainCheck t). destruct (strings_Contains t "/"); [done|].
  destruct (strings_Contains t "?" || strings_Contains t "&"); [done|].
  destruct (strings_Contains t "[" || _ || _ || _ || _ || _); [done|].
  destruct (strings_Contains t "~"); [done|]. cbv zeta. case_decide as Hne; [done|].
  destruct (IsDomainName _) eqn:Hd; [|done]. intros [= <- <-]. done.
Qed.

End write.

(** ** An instance to evaluate *)

Definition concrete_adguard : AdGuardLib := {|
  IsDomainName s :=
    negb (bool_decide (s = "")) && forallb domain_char (chars s) &&
    negb (strings_HasPrefix s ".") && negb (strings_HasPrefix s "-");
  ParseAddr_IsUnspecified s := match netip_ParseAddr s with Ok a => Addr_IsUnspecified a | _ => false end;
  SubstringBefore s sub := match strings_Index s sub with Some i => str_take i s | None => s end;
  SubstringAfter s sub := match strings_Index s sub with Some i => str_drop (i + String.length sub) s | None => "" end;
  Map_NonNil := true |}.

#[global] Instance concrete_adguard_laws : AdGuardLaws concrete_adguard.
Proof.
  split; cbn.
  - intros s Hs. apply andb_true_iff in Hs as [[[Hs _]%andb_true_iff _]%andb_true_iff _].
    by case_bool_decide.
  - intros s Hs. apply andb_true_iff in Hs as [[[_ Hs]%andb_true_iff _]%andb_true_iff _].
    apply Forall_forall. intros c Hc%list_elem_of_In. by eapply forallb_forall in Hs.
  - intros s Hs. apply andb_true_iff in Hs as [[[_ _]%andb_true_iff H1]%andb_true_iff H2].
    by apply negb_true_iff in H1, H2.
  - intros s sub i Hi. by rewrite Hi.
Qed.

#[local] Existing Instance concrete_adguard.
#[local] Existing Instance concrete_external.
#[local] Existing Instance concrete_external_laws.

Definition of_lines (l : list string) : string := unlines l.
Definition lines_of (l : list string) : list agdguardRuleLine :=
  match parse_lines l with Ok ls => ls | _ => [] end.

(** All eight kinds but the important regular expression. *)
Definition example_list : list string :=
  ["! a comment"; "example.org"; "0.0.0.0 ads.example"; "||sub.example^$important"; "|start.example";
   "@@||ok.example^"; "@@|never.example^$important"; "/tracker[0-9]+/"; "@@/good/"; "1.2.3.4 other.example"].

Example example_list_parsed : map mapDomain (lines_of example_list) =
  ["example.org"; "|ads.example^"; "||sub.example^"; "|start.example"; "||ok.example^"; "|never.example^";
   "tracker[0-9]+"; "good"].
Proof. vm_compute. reflexivity. Qed.


Definition example_request (host : string) : InboundContext := with_Domain host InboundContextZero.

Definition short_list : string := of_lines ["a.example$important"; "c.example^"; "@@b.example"; "b.example$dnsrewrite=0.0.0.0"].

Lemma short_list_lines : parse_lines (scan_lines short_list) = Ok (lines_of (scan_lines short_list)).
Proof. vm_compute. reflexivity. Qed.

Lemma adguard_rule_means_lines_witness :
  (HeadlessRule_Match example_host
     (built no_headless (NewHeadlessRule true (to_rule (lines_of (scan_lines short_list)))))
     (example_request "a.example")).1 =
  filter_list_blocks (lines_of (scan_lines short_list)) (example_request "a.example").
Proof.
  refine (adguard_rule_means_lines example_host true short_list (lines_of (scan_lines short_list)) _ _ _ _ _ _ _).
  - exact short_list_lines.
  - unfold ToOptions. by rewrite short_list_lines.
  - apply built_ok. vm_compute. reflexivity.
  - reflexivity.
Defined.

Example short_list_decides :
  map (fun host => filter_list_blocks (lines_of (scan_lines short_list)) (example_request host))
    ["a.example"; "b.example"; "c.example^"; "d.example"] = [true; false; true; false].
Proof. vm_compute. reflexivity. Qed.

(** ** Behaviours worth knowing

    A line that is only a slash takes the process down. *)
Definition panic_of {A} (r : res A) : string := match r with Panic msg => msg | _ => "" end.
Example slash_panics :
  panic_of (ToOptions (of_lines ["example.org"; "/"])) = "runtime error: slice bounds out of range [1:0]" /\
  panic_of (ToOptions (of_lines ["@@||/^"])) = "runtime error: slice bounds out of range [1:0]".
Proof. split; vm_compute; reflexivity. Qed.

(** Exceptions without important ones are read back as important ones: the list
    that is written lets [a.example] through, the one it came from does not. *)
Definition demoted : list string := ["a.example$important"; "@@a.example"; "c.example^"].
Example exception_promoted :
  FromOptions [to_rule (lines_of demoted)] =
    Some (Ok (of_lines ["a.example$important"; "@@a.example$important"; "c.example^"])) /\
  filter_list_blocks (lines_of demoted) (example_request "a.example") = true /\
  filter_list_blocks (lines_of ["a.example$important"; "@@a.example$important"; "c.example^"])
    (example_request "a.example") = false.
Proof. split_and!; vm_compute; reflexivity. Qed.

(** An important regular expression is ignored, although the writer makes such
    lines; an exception of a regular expression with a dollar sign is ignored,
    because what follows the sign is taken for modifiers. *)
Example regexp_lines_ignored :
  parse_line "/ads/$important" = Ok Ignored /\ parse_line "@@/ads$/" = Ok Ignored /\
  (exists l, parse_line "/ads$/" = Ok (Parsed l) /\ rl_isRegexp l = true).
Proof. split_and!; [vm_compute; reflexivity..|]. eexists. split; vm_compute; reflexivity. Qed.

(** The end anchor [|] is dropped: the line matches every name with this start. *)
Example end_anchor_dropped :
  match parse_line "|a.example|" with Ok (Parsed l) => Some (mapDomain l) | _ => None end = Some "|a.example".
Proof. vm_compute. reflexivity. Qed.

(** A bare domain means this domain as long as all lines are bare domains, and
    every name with this part as soon as one is not. *)
Example bare_domain_changes_meaning :
  (fun r => match r with Ok [MkHeadlessRuleOptions _ d _ _ _] => Some (hd_Domain d, hd_AdGuardDomain d) | _ => None end)
    (ToOptions (of_lines ["a.example"; "b.example"])) = Some (["a.example"; "b.example"], []) /\
  (fun r => match r with Ok [MkHeadlessRuleOptions _ d _ _ _] => Some (hd_Domain d, hd_AdGuardDomain d) | _ => None end)
    (ToOptions (of_lines ["a.example"; "||b.example^"])) = Some ([], ["a.example"; "||b.example^"]).
Proof. split; vm_compute; reflexivity. Qed.

(** The rule of a list of bare domains cannot be written. *)
Example bare_domains_not_written :
  FromOptions [to_rule (lines_of ["a.example"; "b.example"])] = Some (Err ErrInvalid_rule_set).
Proof. vm_compute. reflexivity. Qed.

(** A rule of the empty type, which other code takes for a default rule, is a
    loop that never ends. *)
Example empty_type_loops :
  FromOptions [MkHeadlessRuleOptions "" (list_options ["a"] [] false) "" [] false] = None.
Proof. vm_compute. reflexivity. Qed.

(** A line that is too long ends the scan: nothing after it is read, and no
    error is reported. *)
Lemma long_line_ends_scan l cur rest :
  "010"%char ∉ l -> (MaxScanTokenSize <= length cur + length l)%nat -> scan_bytes (l ++ "010"%char :: rest) cur = [].
Proof.
  revert cur; induction l as [|c l IH]; intros cur Hnl Hlen; cbn [app scan_bytes].
  - destruct (ascii_dec "010" "010"); [|done]. simpl in Hlen. by rewrite (proj2 (Nat.leb_le _ _)) by lia.
  - apply not_elem_of_cons in Hnl as [Hne Hnl]. destruct (ascii_dec c "010"); [by subst|].
    apply IH; [done|]. simpl in *. lia.
Qed.
