(* ===== verification/ParallelDial.v ===== *)
(** * Dials over several interfaces and addresses

    common/dialer/default_parallel_interface.go and default_parallel_network.go:
    the choice of the interfaces, dials one after the other, and dials that race
    each other.  A race is a run of events: a dial ends, in any order, or the
    fallback timer fires; times are nanoseconds. *)

From stdpp Require Import base list sets strings.
From Stdlib Require Import ZArith Lia.
From S2P Require Import Prelude GoStd External Adapter.

Open Scope Z_scope.
Open Scope box_scope.

(** ** Interfaces *)

(** The fields of [adapter.NetworkInterface] a dialer reads. *)
Record Interface : Type := { if_Index : Z; if_Name : string; if_Type : InterfaceType }.

#[global] Instance Interface_eq_dec : EqDecision Interface.
Proof. solve_decision. Defined.

(** The network manager: its interfaces, and the index of the default one. *)
Record NetworkState : Type := { NetworkInterfaces : list Interface; DefaultInterface : option Z }.

Definition of_type (types : list InterfaceType) (iif : Interface) : bool := bool_decide (if_Type iif ∈ types).

(** The first element with a property, as a list. *)
Fixpoint first_of {A} (f : A -> bool) (l : list A) : list A :=
  match l with
  | [] => []
  | x :: l => if f x then [x] else first_of f l
  end.

Definition selectInterfaces (nm : NetworkState) (strategy : NetworkStrategy)
    (interfaceType fallbackInterfaceType : list InterfaceType) : list Interface * list Interface :=
  let interfaces := NetworkInterfaces nm in
  let default_or_all (pick : (Interface -> bool) -> list Interface -> list Interface) :=
    match DefaultInterface nm with
    | Some index => pick (fun iif => if_Index iif =? index) interfaces
    | None => interfaces
    end in
  match strategy with
  | NetworkStrategyDefault =>
      (if bool_decide (interfaceType = []) then default_or_all (@List.filter Interface)
       else List.filter (of_type interfaceType) interfaces, [])
  | NetworkStrategyHybrid =>
      (if bool_decide (interfaceType = []) then interfaces else List.filter (of_type interfaceType) interfaces, [])
  | NetworkStrategyFallback =>
      let primaryInterfaces :=
        if bool_decide (interfaceType = []) then default_or_all first_of
        else List.filter (of_type interfaceType) interfaces in
      let fallbackInterfaces :=
        if bool_decide (fallbackInterfaceType = []) then
          List.filter (fun it => negb (existsb (fun iif => if_Index it =? if_Index iif) primaryInterfaces)) interfaces
        else List.filter (of_type fallbackInterfaceType) interfaces in
      (primaryInterfaces, fallbackInterfaces)
  end.

(** Whether a dial on the interface is bound to it. *)
Definition bound (nm : NetworkState) (iif : Interface) : bool :=
  match DefaultInterface nm with Some index => negb (if_Index iif =? index) | None => true end.

Definition no_interface : error := ErrNew "no available network interface".
Definition interface_cause (verb : string) (iif : Interface) (e : error) : error :=
  ErrCause e (verb +:+ " " +:+ if_Name iif +:+ " (" +:+ go_itoa (if_Index iif) +:+ ")").

(** ** One after the other *)

(** The result of the first attempt that succeeds, or all errors. *)
Fixpoint serial {A C} (dial : A -> C + error) (targets : list A) (errors : list error) : C + option error :=
  match targets with
  | [] => inr (E_Errors errors)
  | a :: targets =>
      match dial a with
      | inl conn => inl conn
      | inr e => serial dial targets (errors ++ [e])
      end
  end.

(** [listenSerialInterfacePacket]; a listen knows whether it is bound. *)
Definition listenSerialInterfacePacket {C} (nm : NetworkState) (strategy : NetworkStrategy)
    (interfaceType fallbackInterfaceType : list InterfaceType) (listen : option Interface -> C + error)
    : C + option error :=
  let '(primaryInterfaces, fallbackInterfaces) := selectInterfaces nm strategy interfaceType fallbackInterfaceType in
  if (length primaryInterfaces + length fallbackInterfaces =? 0)%nat then inr (Some no_interface)
  else
    serial (fun iif =>
      match listen (if bound nm iif then Some iif else None) with
      | inl conn => inl conn
      | inr e => inr (interface_cause "listen" iif e)
      end) (primaryInterfaces ++ fallbackInterfaces) [].

(** What a dialer can do: dial addresses in parallel, dial one address on
    interfaces in parallel, or dial one address. *)
Inductive Dialer (C : Type) : Type :=
  | ParallelNetworkDialer (dial : list Addr -> C + option error)
  | ParallelInterfaceDialer (dial : Socksaddr -> C + error)
  | PlainDialer (dial : Socksaddr -> C + error).
Arguments ParallelNetworkDialer {C}.
Arguments ParallelInterfaceDialer {C}.
Arguments PlainDialer {C}.

Definition SocksaddrFrom (a : Addr) (port : Z) : Socksaddr := {| sa_Addr := a; sa_Port := port; sa_Fqdn := "" |}.

(** The addresses a call is about: those given, or the destination itself. *)
Definition dial_addresses `{External} (destination : Socksaddr) (destinationAddresses : list Addr) : res (list Addr) :=
  if bool_decide (destinationAddresses = []) then
    if negb (IsIP destination) then Panic "invalid usage" else Ok [sa_Addr destination]
  else Ok destinationAddresses.

Definition DialSerialNetwork `{External} {C} (dialer : Dialer C) (destination : Socksaddr)
    (destinationAddresses : list Addr) : res (C + option error) :=
  let* addresses := dial_addresses destination destinationAddresses in
  Ok (match dialer with
      | ParallelNetworkDialer dial => dial addresses
      | ParallelInterfaceDialer dial | PlainDialer dial =>
          serial (fun address => dial (SocksaddrFrom address (sa_Port destination))) addresses []
      end).

(** [ListenSerialNetworkPacket] also says which address it listens for. *)
Inductive PacketDialer (C : Type) : Type :=
  | ParallelNetworkListener (listen : list Addr -> C * Addr + option error)
  | SerialListener (listen : Socksaddr -> C + error).
Arguments ParallelNetworkListener {C}.
Arguments SerialListener {C}.

Definition ListenSerialNetworkPacket `{External} {C} (dialer : PacketDialer C) (destination : Socksaddr)
    (destinationAddresses : list Addr) : res (C * Addr + option error) :=
  let* addresses := dial_addresses destination destinationAddresses in
  Ok (match dialer with
      | ParallelNetworkListener listen => listen addresses
      | SerialListener listen =>
          serial (fun address =>
            match listen (SocksaddrFrom address (sa_Port destination)) with
            | inl conn => inl (conn, address)
            | inr e => inr e
            end) addresses []
      end).

(** ** Races *)

Section race.
(** Racers, connections; the error of a racer; what the errors so far come to
    when they are all; whether a connection of a racer that came too late
    resets the fast fallback. *)
Context {R C : Type} (cause : R -> error -> error) (finish : list (bool * error) -> option (option error))
  (late_resets : bool -> Z -> bool).

(** A racer with whether it is a primary one. *)
Record race : Type := {
  (** the dials under way *)
  ra_running : list (bool * R);
  (** the fallbacks that have not been started *)
  ra_waiting : list R;
  (** when the timer fires, while it runs *)
  ra_timer : option Z;
  (** the failed results, the oldest first *)
  ra_errors : list (bool * error);
  ra_returned : option (C * bool + option error);
  (** the connections that were closed because they came too late *)
  ra_closed : list C;
  (** whether the fast fallback was reset *)
  ra_reset : bool }.

Inductive race_event : Type :=
  | TimerFires (now : Z)
  (** the dial at this place of the list ends *)
  | DialEnds (now : Z) (k : nat) (r : C + error).

(** The timer is stopped by the return. *)
Definition race_return (r : C * bool + option error) (ra : race) : race :=
  {| ra_running := ra_running ra; ra_waiting := ra_waiting ra; ra_timer := None; ra_errors := ra_errors ra;
     ra_returned := Some r; ra_closed := ra_closed ra; ra_reset := ra_reset ra |}.

Definition take_running (k : nat) (ra : race) : race :=
  {| ra_running := delete k (ra_running ra); ra_waiting := ra_waiting ra; ra_timer := ra_timer ra;
     ra_errors := ra_errors ra; ra_returned := ra_returned ra; ra_closed := ra_closed ra; ra_reset := ra_reset ra |}.

(** A result that the loop receives. *)
Definition receive (now : Z) (primary : bool) (racer : R) (r : C + error) (ra : race) : race :=
  match r with
  | inl conn => race_return (inl (conn, primary)) ra
  | inr e =>
      let errors := ra_errors ra ++ [(primary, cause racer e)] in
      let ra := {| ra_running := ra_running ra; ra_waiting := ra_waiting ra;
                   ra_timer := match ra_timer ra with
                               | Some t => Some (if primary then now else t)
                               | None => None
                               end;
                   ra_errors := errors; ra_returned := ra_returned ra; ra_closed := ra_closed ra;
                   ra_reset := ra_reset ra |} in
      match finish errors with
      | Some e => race_return (inr e) ra
      | None => ra
      end
  end.

(** A result after the return. *)
Definition too_late (now : Z) (primary : bool) (r : C + error) (ra : race) : race :=
  match r with
  | inl conn =>
      {| ra_running := ra_running ra; ra_waiting := ra_waiting ra; ra_timer := ra_timer ra; ra_errors := ra_errors ra;
         ra_returned := ra_returned ra; ra_closed := ra_closed ra ++ [conn];
         ra_reset := ra_reset ra || late_resets primary now |}
  | inr _ => ra
  end.

Definition race_step (ev : race_event) (ra : race) : option race :=
  match ev with
  | TimerFires now =>
      match ra_timer ra with
      | Some t =>
          if t <=? now then
            Some {| ra_running := ra_running ra ++ map (pair false) (ra_waiting ra); ra_waiting := [];
                    ra_timer := None; ra_errors := ra_errors ra; ra_returned := ra_returned ra;
                    ra_closed := ra_closed ra; ra_reset := ra_reset ra |}
          else None
      | None => None
      end
  | DialEnds now k r =>
      match ra_running ra !! k with
      | Some (primary, racer) =>
          let ra := take_running k ra in
          Some (match ra_returned ra with
                | None => receive now primary racer r ra
                | Some _ => too_late now primary r ra
                end)
      | None => None
      end
  end.

Fixpoint race_run (tr : list race_event) (ra : race) : option race :=
  match tr with
  | [] => Some ra
  | ev :: tr => match race_step ev ra with Some ra => race_run tr ra | None => None end
  end.

(** Primaries at once, fallbacks when the timer fires. *)
Definition start_race (primaries fallbacks : list R) (timer : option Z) : race :=
  {| ra_running := map (pair true) primaries; ra_waiting := fallbacks; ra_timer := timer; ra_errors := [];
     ra_returned := None; ra_closed := []; ra_reset := false |}.

(** All at once. *)
Definition start_all (primaries fallbacks : list R) : race :=
  {| ra_running := map (pair true) primaries ++ map (pair false) fallbacks; ra_waiting := []; ra_timer := None;
     ra_errors := []; ra_returned := None; ra_closed := []; ra_reset := false |}.
End race.
Arguments race : clear implicits.
Arguments race_event : clear implicits.

(** *** The three races *)

(** The delay of a dial that names none is the networking library's. *)
Definition fallback_delay (DefaultFallbackDelay fallbackDelay : Z) : Z :=
  if fallbackDelay =? 0 then DefaultFallbackDelay else fallbackDelay.

(** All of [n] dials have failed. *)
Definition all_failed (n : nat) (errors : list (bool * error)) : option (option error) :=
  if (length errors =? n)%nat then Some (E_Errors (map snd errors)) else None.

Section interface_dials.
Context {C : Type} (nm : NetworkState) (strategy : NetworkStrategy)
  (interfaceType fallbackInterfaceType : list InterfaceType) (DefaultFallbackDelay fallbackDelay startAt : Z).

Definition interface_race : race Interface C + error :=
  let '(primaryInterfaces, fallbackInterfaces) := selectInterfaces nm strategy interfaceType fallbackInterfaceType in
  if (length primaryInterfaces + length fallbackInterfaces =? 0)%nat then inr no_interface
  else inl (start_race primaryInterfaces fallbackInterfaces
              (if bool_decide (fallbackInterfaces = []) then None
               else Some (startAt + fallback_delay DefaultFallbackDelay fallbackDelay))).

Definition interface_count : nat :=
  let '(primaryInterfaces, fallbackInterfaces) := selectInterfaces nm strategy interfaceType fallbackInterfaceType in
  (length primaryInterfaces + length fallbackInterfaces)%nat.

(** A run of [dialParallelInterface] *)
Definition dialParallelInterface (tr : list (race_event C)) : option (race Interface C) + error :=
  match interface_race with
  | inl ra => inl (race_run (interface_cause "dial") (all_failed interface_count) (fun _ _ => false) tr ra)
  | inr e => inr e
  end.

(** A run of [dialParallelInterfaceFastFallback]: no delay, and a primary
    connection that comes too late, but within the delay, resets the fast
    fallback. *)
Definition dialParallelInterfaceFastFallback (tr : list (race_event C)) : option (race Interface C) + error :=
  let '(primaryInterfaces, fallbackInterfaces) := selectInterfaces nm strategy interfaceType fallbackInterfaceType in
  if (length primaryInterfaces + length fallbackInterfaces =? 0)%nat then inr no_interface
  else inl (race_run (interface_cause "dial") (all_failed interface_count)
              (fun primary now => primary && (now - startAt <=? fallback_delay DefaultFallbackDelay fallbackDelay)) tr
              (start_all primaryInterfaces fallbackInterfaces)).
End interface_dials.

(** [Is4] or [Is4In6] *)
Definition is_4in6 (a : Addr) : bool :=
  match a with Addr6 n _ => Z.shiftr n 32 =? 65535 | _ => false end.
Definition wants_ipv4 (a : Addr) : bool := Addr_Is4 a || is_4in6 a.
Definition wants_ipv6 (a : Addr) : bool := Addr_Is6 a && negb (is_4in6 a).

(** Both racers have failed: the error of the primary one. *)
Definition both_failed (errors : list (bool * error)) : option (option error) :=
  match List.find fst errors, List.find (fun p => negb (fst p)) errors with
  | Some primary, Some _ => Some (Some (snd primary))
  | _, _ => None
  end.

(** [DialParallelNetwork]: the addresses of the two racers, or none when one
    family is all there is. *)
Definition network_racers (preferIPv6 : bool) (addresses : list Addr) : option (list Addr * list Addr) :=
  let addresses4 := List.filter wants_ipv4 addresses in
  let addresses6 := List.filter wants_ipv6 addresses in
  if bool_decide (addresses4 = []) || bool_decide (addresses6 = []) then None
  else Some (if preferIPv6 then (addresses6, addresses4) else (addresses4, addresses6)).

(** A run of [DialParallelNetwork]; each racer dials its addresses with
    [DialSerialNetwork] and ends with a connection or an error. *)
Definition DialParallelNetwork `{External} {C} (dialer : Dialer C) (destination : Socksaddr)
    (destinationAddresses : list Addr) (preferIPv6 : bool) (DefaultFallbackDelay fallbackDelay startAt : Z) (tr : list (race_event C))
    : res (C + option error + option (race (list Addr) C)) :=
  let* addresses := dial_addresses destination destinationAddresses in
  match network_racers preferIPv6 addresses with
  | None =>
      let* r := DialSerialNetwork dialer destination addresses in
      Ok (inl r)
  | Some (primaries, fallbacks) =>
      Ok (inr (race_run (fun _ e => e) both_failed (fun _ _ => false) tr
                 (start_race [primaries] [fallbacks] (Some (startAt + fallback_delay DefaultFallbackDelay fallbackDelay)))))
  end.

(** ** Every race *)

(** The connections of a run, in the order they were made. *)
Fixpoint made {C} (tr : list (race_event C)) : list C :=
  match tr with
  | [] => []
  | DialEnds _ _ (inl conn) :: tr => conn :: made tr
  | _ :: tr => made tr
  end.

(** How many entries are primary ones (or fallbacks). *)
Definition count_of {A} (primary : bool) (l : list (bool * A)) : nat :=
  length (List.filter (fun p => Bool.eqb (fst p) primary) l).

(** What a race comes to: the connection it returned is the first one made and
    all others were closed; an error is returned only when every dial has
    ended, none with a connection. *)
Definition one_connection {R C} (tr : list (race_event C)) (ra : race R C) : Prop :=
  match ra_returned ra with
  | None => made tr = [] /\ ra_closed ra = []
  | Some (inl (conn, _)) => made tr = conn :: ra_closed ra
  | Some (inr _) => made tr = [] /\ ra_closed ra = [] /\ ra_running ra = [] /\ ra_waiting ra = []
  end.

Section race_lemmas.
Context {R C : Type} (cause : R -> error -> error) (finish : list (bool * error) -> option (option error))
  (late_resets : bool -> Z -> bool) (np nf : nat).

(** [finish] knows that all have failed. *)
Definition finish_law : Prop :=
  forall errors, (count_of true errors <= np)%nat -> (count_of false errors <= nf)%nat ->
    (is_Some (finish errors) <-> count_of true errors = np /\ count_of false errors = nf).

(** Before the return, every racer is running, waiting or has failed, and
    fallbacks wait for the timer. *)
Definition race_ok (tr : list (race_event C)) (ra : race R C) : Prop :=
  one_connection tr ra /\
  (ra_returned ra = None ->
     count_of true (ra_running ra) + count_of true (ra_errors ra) = np /\
     count_of false (ra_running ra) + length (ra_waiting ra) + count_of false (ra_errors ra) = nf /\
     (ra_waiting ra = [] \/ is_Some (ra_timer ra)) /\
     (count_of true (ra_errors ra) <> np \/ count_of false (ra_errors ra) <> nf))%nat.
End race_lemmas.

Section count_of.
Context {A : Type}.

Lemma count_of_app primary (l l' : list (bool * A)) :
  count_of primary (l ++ l') = (count_of primary l + count_of primary l')%nat.
Proof. unfold count_of. by rewrite List.filter_app, length_app. Qed.

Lemma count_of_pair primary b (l : list A) :
  count_of primary (map (pair b) l) = if Bool.eqb b primary then length l else 0%nat.
Proof. unfold count_of. induction l as [|a l IH]; simpl; [by destruct (Bool.eqb b primary)|]. destruct (Bool.eqb b primary); simpl; congruence. Qed.

Lemma count_of_cons primary p (l : list (bool * A)) :
  count_of primary (p :: l) = ((if Bool.eqb (fst p) primary then 1 else 0) + count_of primary l)%nat.
Proof. unfold count_of. simpl. by destruct (Bool.eqb _ _). Qed.

Lemma count_of_snoc primary p (l : list (bool * A)) :
  count_of primary (l ++ [p]) = (count_of primary l + (if Bool.eqb (fst p) primary then 1 else 0))%nat.
Proof. rewrite count_of_app, count_of_cons. change (count_of primary (@nil (bool * A))) with 0%nat. lia. Qed.

Lemma count_of_delete primary (l : list (bool * A)) k p :
  l !! k = Some p ->
  count_of primary l = ((if Bool.eqb (fst p) primary then 1 else 0) + count_of primary (delete k l))%nat.
Proof.
  revert k; induction l as [|q l IH]; intros [|k] Hk; simplify_eq/=; rewrite count_of_cons; [done|].
  rewrite count_of_cons, (IH _ Hk). lia.
Qed.

Lemma count_of_length (l : list (bool * A)) : length l = (count_of true l + count_of false l)%nat.
Proof. induction l as [|[b a] l IH]; [done|]. rewrite !count_of_cons. simpl. destruct b; simpl; lia. Qed.
End count_of.

(** ** The invariant of a race *)

Section race_invariant.
Context {R C : Type} (cause : R -> error -> error) (finish : list (bool * error) -> option (option error))
  (late_resets : bool -> Z -> bool) (np nf : nat) (Hfinish : finish_law finish np nf).

#[local] Notation step := (race_step (C := C) cause finish late_resets).
#[local] Notation run := (race_run (C := C) cause finish late_resets).
#[local] Notation ok := (race_ok (R := R) (C := C) np nf).

Lemma made_app (tr tr' : list (race_event C)) : made (tr ++ tr') = made tr ++ made tr'.
Proof. induction tr as [|[now|now k [conn|e]] tr IH]; simpl; by f_equal. Qed.

Lemma race_run_app tr tr' (ra : race R C) :
  run (tr ++ tr') ra = match run tr ra with Some ra => run tr' ra | None => None end.
Proof. revert ra; induction tr as [|ev tr IH]; intros ra; [done|]. simpl. destruct (step ev ra); [apply IH|done]. Qed.

(** Counts that are used up leave nothing. *)
Lemma none_running (l : list (bool * R)) : count_of true l = 0%nat -> count_of false l = 0%nat -> l = [].
Proof. intros. apply nil_length_inv. rewrite count_of_length. lia. Qed.

Lemma receive_ok tr now k primary racer r (ra : race R C) :
  ra_returned ra = None -> ra_running ra !! k = Some (primary, racer) -> ok tr ra ->
  ok (tr ++ [DialEnds now k r]) (receive cause finish now primary racer r (take_running k ra)).
Proof.
  intros Hret Hk [Hone Hinv]. destruct (Hinv Hret) as (Hp & Hf & Ht & Hd). unfold one_connection in Hone. rewrite Hret in Hone.
  destruct Hone as [Hmade Hclosed]. unfold race_ok, one_connection. rewrite made_app, Hmade.
  destruct r as [conn|e]; simpl; [by rewrite Hclosed|].
  pose proof (count_of_delete true _ _ _ Hk) as Htrue. pose proof (count_of_delete false _ _ _ Hk) as Hfalse. simpl in *.
  pose proof (Hfinish (ra_errors ra ++ [(primary, cause racer e)])) as Hlaw. rewrite !count_of_snoc in Hlaw. simpl in Hlaw.
  destruct (finish (ra_errors ra ++ [(primary, cause racer e)])) as [err|] eqn:Hfin; simpl.
  - split; [|done]. destruct Hlaw as [[Htp Htf] _]; [destruct primary; simpl in *; lia..|by eauto|].
    split_and!; [done|done| |].
    + apply none_running; destruct primary; simpl in *; lia.
    + apply nil_length_inv. destruct primary; simpl in *; lia.
  - split; [by rewrite Hclosed, Hret|]. intros _. rewrite !count_of_snoc. simpl.
    split_and!; [destruct primary; simpl in *; lia..| |].
    + destruct Ht as [Ht|[t Ht]]; [by left|]. right. rewrite Ht. by eauto.
    + destruct (decide (count_of true (ra_errors ra) + (if Bool.eqb primary true then 1 else 0) = np)%nat) as [Htp|]; [right|by left].
      intros Htf. destruct Hlaw as [_ [? [=]]]; [destruct primary; simpl in *; lia..|done].
Qed.

Lemma step_ok tr ev (ra ra' : race R C) : step ev ra = Some ra' -> ok tr ra -> ok (tr ++ [ev]) ra'.
Proof.
  intros Hs Hok. destruct ev as [now|now k r]; simpl in Hs.
  - destruct (ra_timer ra) as [t|] eqn:Ht; [|done]. destruct (t <=? now); simplify_eq. destruct Hok as [Hone Hinv].
    unfold race_ok, one_connection. simpl. rewrite made_app. simpl. rewrite app_nil_r. split.
    + unfold one_connection in Hone. destruct (ra_returned ra) as [[[conn p]|e]|]; [done| |done].
      destruct Hone as (? & ? & -> & ->). by split_and!.
    + intros Hret. destruct (Hinv Hret) as (Hp & Hf & _ & Hd). rewrite !count_of_app, !count_of_pair. simpl.
      split_and!; [lia|lia|by left|done].
  - destruct (ra_running ra !! k) as [[primary racer]|] eqn:Hk; simplify_eq. simpl.
    destruct (ra_returned ra) as [res|] eqn:Hret; [|by apply receive_ok].
    destruct Hok as [Hone _]. unfold one_connection in Hone. rewrite Hret in Hone. unfold race_ok, one_connection. rewrite made_app.
    destruct res as [[conn p]|e]; [|by destruct Hone as (_ & _ & Hrun & _); rewrite Hrun in Hk].
    rewrite Hone. destruct r as [conn'|e]; simpl; rewrite Hret; [done|]. by rewrite app_nil_r.
Qed.

Lemma run_ok_from tr0 tr (ra ra' : race R C) : run tr ra = Some ra' -> ok tr0 ra -> ok (tr0 ++ tr) ra'.
Proof.
  revert tr0 ra; induction tr as [|ev tr IH]; intros tr0 ra Hr Hok; simplify_eq/=; [by rewrite app_nil_r|].
  destruct (step ev ra) as [ra1|] eqn:Hs; [|done]. rewrite cons_middle, app_assoc. by apply (IH _ ra1), (step_ok _ _ ra).
Qed.

Lemma race_run_ok tr (ra ra' : race R C) : run tr ra = Some ra' -> ok [] ra -> ok tr ra'.
Proof. intros. by eapply (run_ok_from []). Qed.
End race_invariant.

(** *** Every run is finite, and a race that can do nothing has returned *)

Definition race_size {R C} (ra : race R C) : nat :=
  length (ra_running ra) + length (ra_waiting ra) + match ra_timer ra with Some _ => 1 | None => 0 end.

(** The dial returns: before, something is still to happen, and at most every
    racer and the timer can happen. *)
Definition race_returns {R C} (n : nat) (tr : list (race_event C)) (ra : race R C) : Prop :=
  (length tr <= n + 1)%nat /\
  (ra_returned ra = None -> ra_running ra <> [] \/ exists t, ra_timer ra = Some t).

Section race_size.
Context {R C : Type} (cause : R -> error -> error) (finish : list (bool * error) -> option (option error))
  (late_resets : bool -> Z -> bool).

Lemma receive_size now primary racer r (ra : race R C) :
  (race_size (receive cause finish now primary racer r ra) <= race_size ra)%nat.
Proof.
  unfold receive, race_return, race_size.
  destruct r as [conn|e]; [|destruct (finish _)]; simpl; destruct (ra_timer ra); simpl; lia.
Qed.

Lemma step_size ev (ra ra' : race R C) :
  race_step cause finish late_resets ev ra = Some ra' -> (race_size ra' < race_size ra)%nat.
Proof.
  destruct ev as [now|now k r]; simpl.
  - destruct (ra_timer ra) as [t|] eqn:Ht; [|done]. destruct (t <=? now); [|done]. intros [= <-]. unfold race_size. simpl.
    rewrite Ht, length_app, length_map. simpl. lia.
  - destruct (ra_running ra !! k) as [[primary racer]|] eqn:Hk; [|done]. intros [= <-].
    assert (race_size (take_running k ra) < race_size ra)%nat as Hlt.
    { unfold race_size. simpl. pose proof (lookup_lt_Some _ _ _ Hk). rewrite length_delete by done. lia. }
    destruct (ra_returned ra); simpl; [destruct r; exact Hlt|]. pose proof (receive_size now primary racer r (take_running k ra)). lia.
Qed.

Lemma run_size tr (ra ra' : race R C) :
  race_run cause finish late_resets tr ra = Some ra' -> (length tr + race_size ra' <= race_size ra)%nat.
Proof.
  revert ra; induction tr as [|ev tr IH]; intros ra Hr; simplify_eq/=; [lia|].
  destruct (race_step _ _ _ ev ra) as [ra1|] eqn:Hs; [|done]. apply step_size in Hs. apply IH in Hr. lia.
Qed.

Lemma race_ok_returns np nf n tr (ra0 ra : race R C) :
  (race_size ra0 <= n + 1)%nat -> race_run cause finish late_resets tr ra0 = Some ra -> race_ok np nf tr ra ->
  race_returns n tr ra.
Proof.
  intros Hsize Hr [_ Hinv]. split; [apply run_size in Hr; lia|]. intros Hret. destruct (Hinv Hret) as (Hp & Hf & Ht & Hd).
  destruct (decide (ra_running ra = [])) as [Hrun|]; [right|by left]. rewrite Hrun in *.
  change (@count_of R true []) with 0%nat in *. change (@count_of R false []) with 0%nat in *.
  destruct Ht as [Hw|?]; [|done]. rewrite Hw in Hf. simpl in Hf. lia.
Qed.

(** *** What the timer does *)

Lemma timer_reason t0 tr (ra ra' : race R C) :
  race_run cause finish late_resets tr ra = Some ra' ->
  (forall t, ra_timer ra = Some t -> t0 <= t \/ exists e, (true, e) ∈ ra_errors ra) ->
  forall t, ra_timer ra' = Some t -> t0 <= t \/ exists e, (true, e) ∈ ra_errors ra'.
Proof.
  revert ra; induction tr as [|ev tr IH]; intros ra Hr H; simplify_eq/=; [done|].
  destruct (race_step _ _ _ ev ra) as [ra1|] eqn:Hs; [|done]. apply (IH ra1 Hr). clear IH Hr. intros t.
  destruct ev as [now|now k r]; simpl in Hs.
  - destruct (ra_timer ra) as [t1|]; [|done]. by destruct (t1 <=? now); simplify_eq/=.
  - destruct (ra_running ra !! k) as [[primary racer]|]; simplify_eq/=. destruct (ra_returned ra); [destruct r; apply H|].
    destruct r as [conn|e]; simpl; [done|]. destruct (finish _); simpl; [done|].
    destruct (ra_timer ra) as [t1|]; [|done]. intros [= <-].
    assert (forall e0, (true, e0) ∈ ra_errors ra -> exists e1, (true, e1) ∈ ra_errors ra ++ [(primary, cause racer e)]) as Hmore by (intros e0 ?; exists e0; apply elem_of_app; by left).
    destruct primary; [right; exists (cause racer e); apply elem_of_app; right; by left|].
    destruct (H t1) as [?|[e0 ?]]; [done|by left|right; by apply (Hmore e0)].
Qed.

Lemma no_timer_no_fallback tr (ra ra' : race R C) :
  race_run cause finish late_resets tr ra = Some ra' -> (forall now, TimerFires now ∉ tr) ->
  ra_waiting ra' = ra_waiting ra /\ (count_of false (ra_running ra') <= count_of false (ra_running ra))%nat.
Proof.
  revert ra; induction tr as [|ev tr IH]; intros ra Hr Hno; simplify_eq/=; [done|].
  destruct (race_step _ _ _ ev ra) as [ra1|] eqn:Hs; [|done].
  destruct (IH ra1 Hr) as [-> Hle]; [intros now Hin; apply (Hno now); by right|].
  destruct ev as [now|now k r]; [by destruct (Hno now); left|]. simpl in Hs.
  destruct (ra_running ra !! k) as [p|] eqn:Hk; simplify_eq/=. pose proof (count_of_delete false _ _ _ Hk). destruct p as [primary racer].
  assert (ra_waiting ra1 = ra_waiting ra /\ ra_running ra1 = delete k (ra_running ra)) as [-> Hrun]; [|rewrite Hrun in Hle; split; [done|lia]].
  destruct (ra_returned ra); simplify_eq; [by destruct r|]. destruct r as [conn|e]; simpl; [done|]. by destruct (finish _).
Qed.
End race_size.

(** ** The three races start well *)

Lemma start_race_ok {R C} (primaries fallbacks : list R) timer :
  (fallbacks = [] \/ is_Some timer) -> (0 < length primaries + length fallbacks)%nat ->
  race_ok (C := C) (length primaries) (length fallbacks) [] (start_race primaries fallbacks timer).
Proof.
  intros Ht Hn. split; [done|]. intros _. unfold start_race. simpl. rewrite !count_of_pair. simpl.
  change (@count_of error true []) with 0%nat. change (@count_of error false []) with 0%nat. split_and!; [lia|lia|done|lia].
Qed.

Lemma start_all_ok {R C} (primaries fallbacks : list R) :
  (0 < length primaries + length fallbacks)%nat ->
  race_ok (C := C) (length primaries) (length fallbacks) [] (start_all primaries fallbacks).
Proof.
  intros Hn. split; [done|]. intros _. unfold start_all. simpl. rewrite !count_of_app, !count_of_pair. simpl.
  change (@count_of error true []) with 0%nat. change (@count_of error false []) with 0%nat. split_and!; [lia|lia|by left|lia].
Qed.

Lemma all_failed_law np nf : finish_law (all_failed (np + nf)) np nf.
Proof.
  intros errors Hp Hf. unfold all_failed. rewrite count_of_length.
  destruct (_ =? _)%nat eqn:E; [apply Nat.eqb_eq in E|apply Nat.eqb_neq in E];
    (split; [intros [? [=]]; lia|intros [? ?]; try lia; by eauto]).
Qed.

Lemma find_count {A} (f : bool * A -> bool) primary (l : list (bool * A)) :
  (forall p, f p = Bool.eqb (fst p) primary) -> (is_Some (List.find f l) <-> (0 < count_of primary l)%nat).
Proof.
  intros Hf. induction l as [|p l IH]; simpl; [split; [by intros [? ?]|unfold count_of; simpl; lia]|].
  rewrite count_of_cons, <-Hf. destruct (f p); [split; [lia|by eauto]|]. by rewrite IH.
Qed.

Lemma both_failed_law : finish_law both_failed 1 1.
Proof.
  intros errors Hp Hf. unfold both_failed.
  pose proof (find_count fst true errors) as H1. pose proof (find_count (fun p => negb (fst p)) false errors) as H2.
  destruct (List.find fst errors) as [p|].
  - destruct (List.find _ errors) as [q|]; (split; [intros [? [=]]|intros [? ?]]).
    + assert (0 < count_of true errors)%nat by (apply H1; [by intros [[] ?]|by eauto]).
      assert (0 < count_of false errors)%nat by (apply H2; [by intros [[] ?]|by eauto]). lia.
    + by eauto.
    + destruct H2 as [_ H2]; [by intros [[] ?]|]. destruct H2 as [? [=]]. lia.
  - split; [by intros [? ?]|]. intros [? ?]. destruct H1 as [_ H1]; [by intros [[] ?]|]. destruct H1 as [? [=]]. lia.
Qed.

(** A run of one of the three races is a run of the machine from a good start. *)
Definition good_run {R C} (n : nat) (tr : list (race_event C)) (ra : race R C) : Prop :=
  one_connection tr ra /\ race_returns n tr ra.

Lemma start_race_run {R C} cause late primaries fallbacks finish timer tr (ra : race R C) :
  (fallbacks = [] \/ is_Some timer) -> (0 < length primaries + length fallbacks)%nat ->
  finish_law finish (length primaries) (length fallbacks) ->
  race_run cause finish late tr (start_race primaries fallbacks timer) = Some ra ->
  good_run (length primaries + length fallbacks) tr ra.
Proof.
  intros Ht Hn Hlaw Hr. pose proof (race_run_ok _ _ _ _ _ Hlaw _ _ _ Hr (start_race_ok _ _ _ Ht Hn)) as Hok.
  split; [apply Hok|]. eapply race_ok_returns; [|done..]. unfold start_race, race_size. simpl. rewrite length_map.
  destruct timer; lia.
Qed.

Lemma start_all_run {R C} cause late (primaries fallbacks : list R) finish tr (ra : race R C) :
  (0 < length primaries + length fallbacks)%nat -> finish_law finish (length primaries) (length fallbacks) ->
  race_run cause finish late tr (start_all primaries fallbacks) = Some ra ->
  good_run (length primaries + length fallbacks) tr ra.
Proof.
  intros Hn Hlaw Hr. pose proof (race_run_ok _ _ _ _ _ Hlaw _ _ _ Hr (start_all_ok _ _ Hn)) as Hok.
  split; [apply Hok|]. eapply race_ok_returns; [|done..]. unfold start_all, race_size. simpl. rewrite length_app, !length_map. lia.
Qed.

Lemma dialParallelInterface_good {C} nm strategy ifs fbs DefaultFallbackDelay delay startAt tr (ra : race Interface C) :
  dialParallelInterface nm strategy ifs fbs DefaultFallbackDelay delay startAt tr = inl (Some ra) ->
  good_run (interface_count nm strategy ifs fbs) tr ra.
Proof.
  unfold dialParallelInterface, interface_race, interface_count. destruct (selectInterfaces _ _ _ _) as [primaries fallbacks].
  destruct (_ =? _)%nat eqn:Hn; [done|]. apply Nat.eqb_neq in Hn. intros [= Hr].
  eapply start_race_run; [|lia|apply all_failed_law|done]. destruct (bool_decide_reflect (fallbacks = [])); [by left|by right].
Qed.

Lemma dialParallelInterfaceFastFallback_good {C} nm strategy ifs fbs DefaultFallbackDelay delay startAt tr
    (ra : race Interface C) :
  dialParallelInterfaceFastFallback nm strategy ifs fbs DefaultFallbackDelay delay startAt tr = inl (Some ra) ->
  good_run (interface_count nm strategy ifs fbs) tr ra.
Proof.
  unfold dialParallelInterfaceFastFallback, interface_count. destruct (selectInterfaces _ _ _ _) as [primaries fallbacks].
  destruct (_ =? _)%nat eqn:Hn; [done|]. apply Nat.eqb_neq in Hn. intros [= Hr].
  eapply start_all_run; [lia|apply all_failed_law|done].
Qed.

Lemma DialParallelNetwork_good `{External} {C} (dialer : Dialer C) destination addresses prefer6 DefaultFallbackDelay
    delay startAt tr ra :
  DialParallelNetwork dialer destination addresses prefer6 DefaultFallbackDelay delay startAt tr = Ok (inr (Some ra)) ->
  good_run 2 tr ra.
Proof.
  unfold DialParallelNetwork. destruct (dial_addresses _ _) as [addrs| |]; simpl; [|done..].
  destruct (network_racers _ _) as [[primaries fallbacks]|]; [|by destruct (DialSerialNetwork _ _ _)].
  intros [= Hr]. eapply (start_race_run _ _ [primaries] [fallbacks]); [by right; eexists|simpl; lia|apply both_failed_law|done].
Qed.

(** ** One after the other, and the interfaces *)

(** The first target that can be dialled wins; an error means that none can, and
    holds their errors in order. *)
Lemma serial_spec {A C} (dial : A -> C + error) targets errors :
  match serial dial targets errors with
  | inl conn => exists before a after es, targets = before ++ a :: after /\ map dial before = map inr es /\ dial a = inl conn
  | inr e => exists es, map dial targets = map inr es /\ e = E_Errors (errors ++ es)
  end.
Proof.
  revert errors; induction targets as [|a targets IH]; intros errors; simpl; [exists []; by rewrite app_nil_r|].
  destruct (dial a) as [conn|e] eqn:Ha; [by exists [], a, targets, []|].
  specialize (IH (errors ++ [e])). destruct (serial _ _ _).
  - destruct IH as (before & a' & after & es & -> & Hes & Ha'). exists (a :: before), a', after, (e :: es).
    split_and!; [done|simpl; by f_equal|done].
  - destruct IH as (es & Hes & ->). exists (e :: es). split; [simpl; by f_equal|]. by rewrite <-app_assoc.
Qed.

Lemma first_of_sub {A} (f : A -> bool) l a : a ∈ first_of f l -> a ∈ l.
Proof. induction l as [|b l IH]; simpl; [done|]. destruct (f b); set_solver. Qed.

Lemma filter_sub {A} (f : A -> bool) l a : a ∈ List.filter f l -> a ∈ l.
Proof. rewrite !list_elem_of_In, filter_In. by intros [? _]. Qed.

(** Only interfaces the manager lists are dialled on. *)
Lemma selectInterfaces_known nm strategy ifs fbs iif :
  iif ∈ fst (selectInterfaces nm strategy ifs fbs) ++ snd (selectInterfaces nm strategy ifs fbs) -> iif ∈ NetworkInterfaces nm.
Proof.
  rewrite elem_of_app. destruct strategy; simpl; repeat case_bool_decide; try destruct (DefaultInterface nm);
    intros [Hin|Hin]; first [done|by apply elem_of_nil in Hin|by apply filter_sub in Hin|by apply first_of_sub in Hin].
Qed.

(** Without types of its own, a fallback interface is no primary one. *)
Lemma selectInterfaces_disjoint nm ifs iif iif' :
  let '(primaries, fallbacks) := selectInterfaces nm NetworkStrategyFallback ifs [] in
  iif ∈ primaries -> iif' ∈ fallbacks -> if_Index iif <> if_Index iif'.
Proof.
  simpl. set (primaries := if bool_decide (ifs = []) then _ else _). intros Hin Hin' Heq.
  apply list_elem_of_In, filter_In in Hin' as [_ Hno]. apply negb_true_iff in Hno.
  assert (existsb (fun i => if_Index iif' =? if_Index i) primaries = true); [|congruence].
  apply existsb_exists. exists iif. rewrite <-list_elem_of_In. split; [done|lia].
Qed.

(** ** Properties *)

(** C16 (a parallel dial gives one connection and leaks none): whichever dials of
    [dialParallelInterface], [dialParallelInterfaceFastFallback] or
    [DialParallelNetwork] end with a connection, in whatever order and however
    late, the first one is returned and every other is closed; an error is
    returned only when all dials, the fallbacks included, have ended without a
    connection. *)
Theorem parallel_dials_one_connection `{External} :
  (forall C nm strategy ifs fbs default delay startAt tr (ra : race Interface C),
    dialParallelInterface nm strategy ifs fbs default delay startAt tr = inl (Some ra) -> one_connection tr ra) /\
  (forall C nm strategy ifs fbs default delay startAt tr (ra : race Interface C),
    dialParallelInterfaceFastFallback nm strategy ifs fbs default delay startAt tr = inl (Some ra) -> one_connection tr ra) /\
  (forall C (dialer : Dialer C) destination addresses prefer6 default delay startAt tr ra,
    DialParallelNetwork dialer destination addresses prefer6 default delay startAt tr = Ok (inr (Some ra)) ->
    one_connection tr ra).
Proof.
  split_and!; intros *; [intros Hr%dialParallelInterface_good|intros Hr%dialParallelInterfaceFastFallback_good|
    intros Hr%DialParallelNetwork_good]; apply Hr.
Qed.

(** C17 (a parallel dial returns): a run of the three races has at most one event
    per racer and one for the timer, and as long as nothing was returned a dial
    is under way or the timer runs: when the dials end, the call ends. *)
Theorem parallel_dials_return `{External} :
  (forall C nm strategy ifs fbs default delay startAt tr (ra : race Interface C),
    dialParallelInterface nm strategy ifs fbs default delay startAt tr = inl (Some ra) ->
    race_returns (interface_count nm strategy ifs fbs) tr ra) /\
  (forall C nm strategy ifs fbs default delay startAt tr (ra : race Interface C),
    dialParallelInterfaceFastFallback nm strategy ifs fbs default delay startAt tr = inl (Some ra) ->
    race_returns (interface_count nm strategy ifs fbs) tr ra) /\
  (forall C (dialer : Dialer C) destination addresses prefer6 default delay startAt tr ra,
    DialParallelNetwork dialer destination addresses prefer6 default delay startAt tr = Ok (inr (Some ra)) ->
    race_returns 2 tr ra).
Proof.
  split_and!; intros *; [intros Hr%dialParallelInterface_good|intros Hr%dialParallelInterfaceFastFallback_good|
    intros Hr%DialParallelNetwork_good]; apply Hr.
Qed.

(** Fallbacks wait: [dialParallelInterface] starts the fallback interfaces
    only when the delay is over or a primary interface has failed; before, all
    of them wait and only primary interfaces are dialled. *)
Theorem fallbacks_wait {C} nm strategy ifs fbs default delay startAt tr (ra : race Interface C) :
  dialParallelInterface nm strategy ifs fbs default delay startAt tr = inl (Some ra) ->
  (forall now ra', dialParallelInterface nm strategy ifs fbs default delay startAt (tr ++ [TimerFires now]) = inl (Some ra') ->
     startAt + fallback_delay default delay <= now \/ exists e, (true, e) ∈ ra_errors ra) /\
  ((forall now, TimerFires now ∉ tr) ->
     ra_waiting ra = snd (selectInterfaces nm strategy ifs fbs) /\ count_of false (ra_running ra) = 0%nat).
Proof.
  unfold dialParallelInterface, interface_race. destruct (selectInterfaces _ _ _ _) as [primaries fallbacks].
  destruct (_ =? _)%nat; [done|]. intros [= Hr]. split.
  - intros now ra'. rewrite race_run_app, Hr. simpl.
    destruct (ra_timer ra) as [t|] eqn:Ht; [|done]. destruct (t <=? now) eqn:Hle; [|done]. intros _.
    destruct (timer_reason _ _ _ (startAt + fallback_delay default delay) _ _ _ Hr) with (t := t) as [?|?]; [|done|left; lia|by right].
    intros t1. simpl. case_bool_decide; [done|]. intros [= <-]. left; lia.
  - intros Hno. destruct (no_timer_no_fallback _ _ _ _ _ _ Hr Hno) as [-> Hle]. split; [done|].
    revert Hle. simpl. rewrite count_of_pair. simpl. lia.
Qed.

(** ** A run

    Wi-Fi is the default interface; the dial on it fails after 5ns, so the
    cellular one is dialled then; a second cellular dial is too late. *)
#[local] Existing Instance concrete_external.

Definition three_interfaces : NetworkState :=
  {| NetworkInterfaces := [{| if_Index := 1; if_Name := "wlan0"; if_Type := InterfaceTypeWIFI |};
                           {| if_Index := 2; if_Name := "rmnet0"; if_Type := InterfaceTypeCellular |};
                           {| if_Index := 3; if_Name := "rmnet1"; if_Type := InterfaceTypeCellular |}];
     DefaultInterface := Some 1 |}.

Definition fallback_run : list (race_event string) :=
  [DialEnds 5 0 (inr (ErrNew "refused")); TimerFires 5; DialEnds 9 1 (inl "rmnet1"); DialEnds 12 0 (inl "rmnet0")].

Definition fallback_result : option (race Interface string) + error :=
  dialParallelInterface three_interfaces NetworkStrategyFallback [] [] 300 0 0 fallback_run.

Definition two_families : list Addr := [Addr4 167772161; Addr6 1 ""].

Lemma parallel_dials_one_connection_witness :
  exists ra, fallback_result = inl (Some ra) /\
    (ra_returned ra, ra_closed ra) = (Some (inl ("rmnet1", false)), ["rmnet0"]) /\ one_connection fallback_run ra.
Proof.
  eexists. split; [reflexivity|]. split; [reflexivity|].
  eapply (proj1 parallel_dials_one_connection string three_interfaces NetworkStrategyFallback [] [] 300 0 0). reflexivity.
Defined.

Lemma parallel_dials_return_witness :
  exists ra, DialParallelNetwork (C := string) (PlainDialer (fun _ => inl "unused")) (SocksaddrFrom (Addr4 0) 80) two_families
    true 300 0 0 [TimerFires 300; DialEnds 400 0 (inr (ErrNew "v6"))] = Ok (inr (Some ra)) /\
    ra_running ra = [(false, [Addr4 167772161])] /\ race_returns 2 [TimerFires 300; DialEnds 400 0 (inr (ErrNew "v6") : string + error)] ra.
Proof.
  eexists. split; [reflexivity|]. split; [reflexivity|].
  eapply (proj2 (proj2 parallel_dials_return) string (PlainDialer (fun _ => inl "unused")) (SocksaddrFrom (Addr4 0) 80)
            two_families true 300 0 0). reflexivity.
Defined.

Lemma fallbacks_wait_witness :
  exists ra, dialParallelInterface three_interfaces NetworkStrategyFallback [] [] 300 0 0
      [DialEnds 5 0 (inr (ErrNew "refused") : string + error)] = inl (Some ra) /\
    length (ra_waiting ra) = 2%nat /\ ra_timer ra = Some 5 /\
    (0 + fallback_delay 300 0 <= 5 \/ exists e, (true, e) ∈ ra_errors ra).
Proof.
  eexists. split; [reflexivity|]. split; [reflexivity|]. split; [reflexivity|].
  eapply (proj1 (fallbacks_wait three_interfaces NetworkStrategyFallback [] [] 300 0 0
            [DialEnds 5 0 (inr (ErrNew "refused") : string + error)] _ eq_refl)). reflexivity.
Defined.

(** When the default interface is not a listed one, the default strategy has
    none to dial on. *)
Example unknown_default :
  dialParallelInterface (C := string) {| NetworkInterfaces := NetworkInterfaces three_interfaces; DefaultInterface := Some 9 |}
    NetworkStrategyDefault [] [] 300 0 0 [] = inr no_interface.
Proof. reflexivity. Qed.

(** When both families fail, the error is the primary one's alone. *)
Example fallback_error_lost :
  match DialParallelNetwork (C := string) (PlainDialer (fun _ => inl "unused")) (SocksaddrFrom (Addr4 0) 80) two_families
    false 300 0 0 [DialEnds 5 0 (inr (ErrNew "v4")); TimerFires 5; DialEnds 9 0 (inr (ErrNew "v6"))] with
  | Ok (inr (Some ra)) => ra_returned ra
  | _ => None
  end = Some (inr (Some (ErrNew "v4"))).
Proof. reflexivity. Qed.
