(* ===== verification/SlowOpen.v ===== *)
(** * Connections that open with their first data, and open connections

    common/dialer/tfo.go: with TCP Fast Open a dial only makes a connection
    object; its first write dials, with the data in the opening packet.
    common/conntrack: the list of the open connections, and the check of the
    memory they use. *)

From stdpp Require Import base list sets strings.
From Stdlib Require Import ZArith Lia.
From S2P Require Import Prelude GoStd External.

Open Scope Z_scope.
Open Scope box_scope.

(** ** [slowOpenConn]

    A state machine: calls of any number of goroutines, each step one that the
    mutex, the channels and the atomic pointer make atomic. *)
Section slow_open.
Context {B : Type}.
(** [os.ErrClosed] *)
Context (ErrClosed : error).

(** The TCP connection under it: what was written to it, and whether it was closed. *)
Record tcp_conn : Type := { tc_sent : list B; tc_closed : bool }.

Record slowOpenConn : Type := {
  so_conn : option tcp_conn;
  (** whether the channels [create] and [done] are closed *)
  so_create : bool;
  so_done : bool;
  so_err : option error;
  (** the data of the write that is dialling; it holds the mutex *)
  so_dialing : option B;
  (** how many dials were started *)
  so_dials : nat }.

Definition slow_open : slowOpenConn :=
  {| so_conn := None; so_create := false; so_done := false; so_err := None; so_dialing := None; so_dials := 0 |}.

(** What a call comes to: the connection's own result, an error, or a dial that
    has begun. *)
Inductive slow_result : Type :=
  | OnConn
  | Failed (e : option error)
  | Dialing.

(** A select with both channels closed takes either; [prefer_done] is its choice. *)
Definition slow_select (prefer_done : bool) (c : slowOpenConn) : option bool :=
  match so_create c, so_done c with
  | true, true => Some prefer_done
  | true, false => Some false
  | false, true => Some true
  | false, false => None
  end.

(** Without a connection, what a closed channel says: [done], or the dial's
    error; a dial without error has set the connection. *)
Definition slow_closed (c : slowOpenConn) (is_done : bool) : slow_result :=
  if is_done then Failed (Some ErrClosed)
  else match so_err c with Some e => Failed (Some e) | None => OnConn end.

(** [Read]; none while it blocks. *)
Definition slow_Read (prefer_done : bool) (c : slowOpenConn) : option slow_result :=
  match so_conn c with
  | Some _ => Some OnConn
  | None => slow_closed c <$> slow_select prefer_done c
  end.

Definition tcp_Write (b : B) (t : tcp_conn) : tcp_conn := {| tc_sent := tc_sent t ++ [b]; tc_closed := tc_closed t |}.
Definition tcp_Close (t : tcp_conn) : tcp_conn := {| tc_sent := tc_sent t; tc_closed := true |}.

Definition on_conn (f : tcp_conn -> tcp_conn) (c : slowOpenConn) : slowOpenConn :=
  {| so_conn := f <$> so_conn c; so_create := so_create c; so_done := so_done c; so_err := so_err c;
     so_dialing := so_dialing c; so_dials := so_dials c |}.

(** [Write] up to the dial; none while another write holds the mutex. *)
Definition slow_Write (prefer_done : bool) (b : B) (c : slowOpenConn) : option (slow_result * slowOpenConn) :=
  match so_conn c with
  | Some _ => Some (OnConn, on_conn (tcp_Write b) c)
  | None =>
      match so_dialing c with
      | Some _ => None
      | None =>
          match slow_select prefer_done c with
          | Some is_done =>
              let r := slow_closed c is_done in
              Some (r, match r with OnConn => on_conn (tcp_Write b) c | _ => c end)
          | None =>
              Some (Dialing,
                {| so_conn := so_conn c; so_create := so_create c; so_done := so_done c; so_err := so_err c;
                   so_dialing := Some b; so_dials := S (so_dials c) |})
          end
      end
  end.

(** The end of the dial: the write returns the length of its data. *)
Definition slow_dialed (r : option error) (c : slowOpenConn) : option slowOpenConn :=
  match so_dialing c with
  | None => None
  | Some b =>
      Some {| so_conn := match r with Some _ => so_conn c | None => Some {| tc_sent := [b]; tc_closed := false |} end;
              so_create := true; so_done := so_done c;
              so_err := match r with Some e => Some e | None => so_err c end;
              so_dialing := None; so_dials := so_dials c |}
  end.

(** [Close]; a second one does nothing. *)
Definition slow_Close (c : slowOpenConn) : slowOpenConn :=
  if so_done c then c
  else on_conn tcp_Close
    {| so_conn := so_conn c; so_create := so_create c; so_done := true; so_err := so_err c;
       so_dialing := so_dialing c; so_dials := so_dials c |}.

(** [WriteTo] before the copy. *)
Definition slow_WriteTo (prefer_done : bool) (c : slowOpenConn) : option slow_result :=
  match so_conn c with
  | Some _ => Some OnConn
  | None =>
      match slow_select prefer_done c with
      | None => None
      | Some true => Some (Failed (so_err c))
      | Some false => Some (match so_err c with Some e => Failed (Some e) | None => OnConn end)
      end
  end.

(** [NeedHandshake] and [LazyHeadroom]; the opposite of [ReaderReplaceable] and
    [WriterReplaceable]. *)
Definition slow_NeedHandshake (c : slowOpenConn) : bool := match so_conn c with None => true | Some _ => false end.

Inductive slow_event : Type :=
  | EvRead (prefer_done : bool)
  | EvWrite (prefer_done : bool) (b : B)
  | EvDialed (r : option error)
  | EvClose.

Definition slow_step (ev : slow_event) (c : slowOpenConn) : option slowOpenConn :=
  match ev with
  | EvRead prefer_done => match slow_Read prefer_done c with Some _ => Some c | None => None end
  | EvWrite prefer_done b => snd <$> slow_Write prefer_done b c
  | EvDialed r => slow_dialed r c
  | EvClose => Some (slow_Close c)
  end.

Fixpoint slow_run (tr : list slow_event) (c : slowOpenConn) : option slowOpenConn :=
  match tr with
  | [] => Some c
  | ev :: tr => match slow_step ev c with Some c => slow_run tr c | None => None end
  end.
End slow_open.
Arguments slow_event : clear implicits.
Arguments tcp_conn : clear implicits.
Arguments slowOpenConn : clear implicits.

(** ** [conntrack] *)

(** A connection of [conntrack] or a packet connection: its place in the list,
    unless it was removed; connections are numbered. *)
Record tracker : Type := {
  ct_Enabled : bool;
  ct_KillerEnabled : bool;
  ct_MemoryLimit : Z;
  ct_killerLastCheck : option Z;
  (** [openConnection] *)
  ct_open : list nat;
  (** the connections that were closed, and how many there are *)
  ct_closed : list nat;
  ct_next : nat }.

Definition with_tracked (last : option Z) (open closed : list nat) (next : nat) (t : tracker) : tracker :=
  {| ct_Enabled := ct_Enabled t; ct_KillerEnabled := ct_KillerEnabled t; ct_MemoryLimit := ct_MemoryLimit t;
     ct_killerLastCheck := last; ct_open := open; ct_closed := closed; ct_next := next |}.

Definition Count (t : tracker) : nat := if ct_Enabled t then length (ct_open t) else 0.
Definition List_ (t : tracker) : list nat := if ct_Enabled t then ct_open t else [].

(** [Close] of the package *)
Definition Close_all (t : tracker) : tracker :=
  if ct_Enabled t then with_tracked (ct_killerLastCheck t) [] (ct_closed t ++ ct_open t) (ct_next t) t else t.

Definition checked_recently (now : Z) (t : tracker) : bool :=
  match ct_killerLastCheck t with Some last => now - last <? 3000000000 | None => false end.

(** The killer checks every three seconds whether [memory.Total] is above the limit. *)
Definition KillerCheck (now total : Z) (t : tracker) : option error * tracker :=
  if negb (ct_KillerEnabled t) then (None, t)
  else if checked_recently now t then (None, t)
  else
    let t := with_tracked (Some now) (ct_open t) (ct_closed t) (ct_next t) t in
    if ct_MemoryLimit t <? total then (Some (ErrNew "out of memory"), Close_all t) else (None, t).

(** [NewConn] and [NewPacketConn]: the number of the connection. *)
Definition NewConn (now total : Z) (t : tracker) : (nat + error) * tracker :=
  let conn := ct_next t in
  let t := with_tracked (ct_killerLastCheck t) (ct_open t ++ [conn]) (ct_closed t) (S conn) t in
  if ct_KillerEnabled t then
    let '(e, t) := KillerCheck now total t in
    match e with
    | Some e => (inr e, with_tracked (ct_killerLastCheck t) (ct_open t) (ct_closed t ++ [conn]) (ct_next t) t)
    | None => (inl conn, t)
    end
  else (inl conn, t).

(** [Conn.Close]: removed from the list, if it is still there, and closed. *)
Definition Conn_Close (conn : nat) (t : tracker) : tracker :=
  with_tracked (ct_killerLastCheck t) (List.filter (fun c => negb (c =? conn)%nat) (ct_open t)) (ct_closed t ++ [conn]) (ct_next t) t.

(** [trackConn] and [trackPacketConn] of the dialers. *)
Definition trackConn (now total : Z) (r : option error) (t : tracker) : option (nat + error) * tracker :=
  match r with
  | Some e => (Some (inr e), t)
  | None =>
      if ct_Enabled t then let '(r, t) := NewConn now total t in (Some r, t)
      else (None, t)
  end.

Inductive track_event : Type :=
  | TrackNew (now total : Z)
  | TrackClose (conn : nat)
  | TrackCloseAll.

(** A connection is closed by its owner, who has it. *)
Definition track_step (ev : track_event) (t : tracker) : option tracker :=
  match ev with
  | TrackNew now total => Some (snd (NewConn now total t))
  | TrackClose conn => if (conn <? ct_next t)%nat then Some (Conn_Close conn t) else None
  | TrackCloseAll => Some (Close_all t)
  end.

Fixpoint track_run (tr : list track_event) (t : tracker) : option tracker :=
  match tr with
  | [] => Some t
  | ev :: tr => match track_step ev t with Some t => track_run tr t | None => None end
  end.

(** ** A slow connection dials once *)

(** The writes of a run that were not refused, in order. *)
Fixpoint accepted {B} (ErrClosed : error) (tr : list (slow_event B)) (c : slowOpenConn B) : list B :=
  match tr with
  | [] => []
  | ev :: tr =>
      let rest := match slow_step ErrClosed ev c with Some c => accepted ErrClosed tr c | None => [] end in
      match ev with
      | EvWrite prefer_done b =>
          match slow_Write ErrClosed prefer_done b c with
          | Some (Failed _, _) | None => rest
          | Some _ => b :: rest
          end
      | _ => rest
      end
  end.

(** The four ages of the connection: not dialled, dialling, open, failed. *)
Definition slow_inv {B} (sent : list B) (c : slowOpenConn B) : Prop :=
  match so_dials c, so_dialing c, so_conn c with
  | O, None, None => so_create c = false /\ so_err c = None /\ sent = []
  | S O, Some b, None => so_create c = false /\ so_err c = None /\ sent = [b]
  | S O, None, Some t => so_create c = true /\ so_err c = None /\ tc_sent t = sent
  | S O, None, None => so_create c = true /\ exists e, so_err c = Some e
  | _, _, _ => False
  end.

Section slow_lemmas.
Context {B : Type} (ErrClosed : error).

Lemma slow_step_inv (sent : list B) ev c c' :
  slow_step ErrClosed ev c = Some c' -> slow_inv sent c -> slow_inv (sent ++ accepted ErrClosed [ev] c) c'.
Proof.
  intros Hs. cbn [accepted]. rewrite Hs. destruct c as [conn create done err dialing dials]. unfold slow_inv. simpl in *.
  destruct ev as [pd|pd b|r|]; simpl in Hs.
  - destruct (slow_Read _ _ _); simplify_eq. by rewrite app_nil_r.
  - unfold slow_Write in Hs |- *. simpl in *. destruct dials as [|[|]], dialing, conn as [t|]; simpl in *; try done.
    + intros (-> & -> & ->). destruct done; simplify_eq/=; done.
    + intros (-> & -> & <-). simplify_eq/=. done.
    + intros (-> & e & ->). destruct done; simplify_eq/=; [destruct pd; simplify_eq/=|]; by eauto.
  - unfold slow_dialed in Hs. simpl in Hs. rewrite app_nil_r.
    destruct dials as [|[|]], dialing, conn as [t|]; simplify_eq/=; try done.
    intros (-> & -> & ->). destruct r; simpl; by eauto.
  - unfold slow_Close in Hs. simpl in Hs. rewrite app_nil_r.
    destruct done; simplify_eq/=; [done|]. by destruct dials as [|[|]], dialing, conn as [t|]; simpl.
Qed.

Lemma accepted_cons ev tr (c : slowOpenConn B) :
  accepted ErrClosed (ev :: tr) c =
  accepted ErrClosed [ev] c ++ match slow_step ErrClosed ev c with Some c => accepted ErrClosed tr c | None => [] end.
Proof.
  cbn [accepted]. destruct ev as [pd|pd b|r|]; cbn [slow_step].
  - by destruct (slow_Read _ _ _).
  - destruct (slow_Write _ _ _ _) as [[[| |] c']|]; done.
  - by destruct (slow_dialed _ _).
  - done.
Qed.

Lemma slow_run_inv sent tr (c c' : slowOpenConn B) :
  slow_run ErrClosed tr c = Some c' -> slow_inv sent c -> slow_inv (sent ++ accepted ErrClosed tr c) c'.
Proof.
  revert sent c; induction tr as [|ev tr IH]; intros sent c Hr Hinv; [simplify_eq/=; by rewrite app_nil_r|].
  rewrite accepted_cons, app_assoc. simpl in Hr. destruct (slow_step ErrClosed ev c) as [c1|] eqn:Hs; [|done].
  by apply IH, slow_step_inv.
Qed.

(** Closed after the dial has ended, or before it began: nothing stays open. *)
Definition slow_settled (c : slowOpenConn B) : Prop :=
  so_done c = true ->
  so_dialing c = None /\ match so_conn c with Some t => tc_closed t = true | None => True end.

Lemma slow_step_settled ev (c c' : slowOpenConn B) :
  slow_step ErrClosed ev c = Some c' -> (ev = EvClose -> so_done c = false -> so_dialing c = None) ->
  slow_settled c -> slow_settled c'.
Proof.
  intros Hs Hclose Hset. destruct c as [conn create done err dialing dials]. unfold slow_settled in *. simpl in *.
  destruct ev as [pd|pd b|r|]; simpl in Hs.
  - destruct (slow_Read _ _ _); simplify_eq. done.
  - unfold slow_Write in Hs. simpl in Hs. destruct conn as [t|]; simplify_eq/=; [done|].
    destruct dialing; [done|]. unfold slow_select in Hs. simpl in Hs. unfold slow_closed in Hs. simpl in Hs.
    destruct create, done, pd, err; simplify_eq/=; done.
  - unfold slow_dialed in Hs. simpl in Hs. destruct dialing; simplify_eq/=. intros Hd. by destruct (Hset Hd).
  - unfold slow_Close in Hs. simpl in Hs. destruct done; simplify_eq/=; [done|]. intros _. split; [by apply Hclose|].
    by destruct conn.
Qed.

(** A closed connection under which a dial still runs stays open, and nobody
    has it any more. *)
Lemma close_during_dial (b : B) :
  exists c, slow_run ErrClosed [EvWrite false b; EvClose; EvDialed None] slow_open = Some c /\
    so_done c = true /\ so_conn c = Some {| tc_sent := [b]; tc_closed := false |} /\ slow_Close c = c.
Proof. by eexists. Qed.

(** [WriteTo] of a connection closed before its first write returns no error. *)
Lemma write_to_closed : slow_WriteTo false (slow_Close (slow_open (B := B))) = Some (Failed None).
Proof. done. Qed.

(** A blocked [Read] is released by the end of the dial and by [Close]. *)
Lemma read_released pd (c : slowOpenConn B) :
  slow_Read ErrClosed pd c = None <-> so_conn c = None /\ so_create c = false /\ so_done c = false.
Proof.
  unfold slow_Read, slow_select. destruct (so_conn c), (so_create c), (so_done c); simpl;
    (split; [by intros|by intros (? & ? & ?)]).
Qed.
End slow_lemmas.

(** ** The list of the open connections *)

(** The list holds exactly the connections that were made and not closed. *)
Definition tracker_ok (t : tracker) : Prop :=
  NoDup (ct_open t) /\ (forall c, c ∈ ct_closed t -> (c < ct_next t)%nat) /\
  forall c, c ∈ ct_open t <-> (c < ct_next t)%nat /\ c ∉ ct_closed t.

Lemma push_ok t :
  tracker_ok t ->
  tracker_ok (with_tracked (ct_killerLastCheck t) (ct_open t ++ [ct_next t]) (ct_closed t) (S (ct_next t)) t).
Proof.
  intros (Hnd & Hlt & Hiff). unfold tracker_ok. simpl. split_and!.
  - apply NoDup_app. split_and!; [done| |apply NoDup_singleton].
    intros c Hc. rewrite list_elem_of_singleton. intros ->. apply Hiff in Hc. lia.
  - intros c Hc%Hlt. lia.
  - intros c. rewrite elem_of_app, list_elem_of_singleton, Hiff. split.
    + intros [[? ?]| ->]; [split; [lia|done]|]. split; [lia|]. intros Hin%Hlt. lia.
    + intros [? ?]. destruct (decide (c = ct_next t)); [by right|left]. split; [lia|done].
Qed.

Lemma Close_all_ok t : tracker_ok t -> tracker_ok (Close_all t).
Proof.
  intros (Hnd & Hlt & Hiff). unfold Close_all. destruct (ct_Enabled t); [|done]. unfold tracker_ok. simpl. split_and!.
  - apply NoDup_nil_2.
  - intros c [Hc|Hc]%elem_of_app; [by apply Hlt|]. by apply Hiff in Hc as [? _].
  - intros c. rewrite elem_of_nil, elem_of_app. split; [done|]. intros [Hc Hn]. apply Hn.
    destruct (decide (c ∈ ct_closed t)); [by left|right]. by apply Hiff.
Qed.

Lemma KillerCheck_ok now total t : tracker_ok t -> tracker_ok (snd (KillerCheck now total t)).
Proof.
  intros H. unfold KillerCheck. destruct (negb _); [done|]. destruct (checked_recently _ _); [done|].
  destruct (_ <? _); [by apply Close_all_ok|done].
Qed.

(** What the killer reports, it has closed. *)
Lemma KillerCheck_closes now total t e t' :
  ct_Enabled t = true -> KillerCheck now total t = (Some e, t') -> ct_open t' = [] /\ ct_closed t' = ct_closed t ++ ct_open t /\ ct_next t' = ct_next t.
Proof.
  intros Hen. unfold KillerCheck. destruct (negb _); [done|]. destruct (checked_recently _ _); [done|].
  destruct (_ <? _); [|done]. intros [= _ <-]. unfold Close_all. simpl. by rewrite Hen.
Qed.

(** Closing again what is closed changes nothing that matters. *)
Lemma close_again c last t :
  c ∈ ct_closed t -> tracker_ok t -> tracker_ok (with_tracked last (ct_open t) (ct_closed t ++ [c]) (ct_next t) t).
Proof.
  intros Hin (Hnd & Hlt & Hiff). unfold tracker_ok. simpl. split_and!; [done| |].
  - intros c' [Hc| ->%list_elem_of_singleton]%elem_of_app; by apply Hlt.
  - intros c'. rewrite Hiff, elem_of_app, list_elem_of_singleton. split; [|by intros [? ?]; split; [|tauto]].
    intros [? Hn]. split; [done|]. intros [?| ->]; done.
Qed.

Lemma NewConn_ok now total t : ct_Enabled t = true -> tracker_ok t -> tracker_ok (snd (NewConn now total t)).
Proof.
  intros Hen Hok%push_ok. unfold NewConn. simpl. destruct (ct_KillerEnabled t); [|exact Hok]. revert Hok.
  set (t1 := with_tracked _ _ _ _ t). intros Hok. pose proof (KillerCheck_ok now total t1 Hok) as Hok'.
  destruct (KillerCheck now total t1) as [[e|] t2] eqn:Hk; [|done]. simpl. apply close_again; [|done].
  apply KillerCheck_closes in Hk as (_ & -> & _); [|done]. subst t1. simpl. rewrite !elem_of_app. right; right. by left.
Qed.

Lemma Conn_Close_ok conn t : (conn < ct_next t)%nat -> tracker_ok t -> tracker_ok (Conn_Close conn t).
Proof.
  intros Hc (Hnd & Hlt & Hiff). unfold tracker_ok. simpl.
  assert (forall c, c ∈ List.filter (fun c => negb (c =? conn)%nat) (ct_open t) <-> c ∈ ct_open t /\ c <> conn) as Hfil.
  { intros c. rewrite !list_elem_of_In, filter_In, negb_true_iff, Nat.eqb_neq. done. }
  split_and!.
  - apply NoDup_ListNoDup, List.NoDup_filter, NoDup_ListNoDup, Hnd.
  - intros c [Hc'| ->%list_elem_of_singleton]%elem_of_app; [by apply Hlt|done].
  - intros c. rewrite Hfil, Hiff, elem_of_app, list_elem_of_singleton. tauto.
Qed.

Lemma track_step_ok ev t t' : ct_Enabled t = true -> track_step ev t = Some t' -> tracker_ok t -> tracker_ok t'.
Proof.
  intros Hen Hs Hok. destruct ev as [now total|conn|]; simplify_eq/=; [by apply NewConn_ok| |by apply Close_all_ok].
  destruct (conn <? ct_next t)%nat eqn:Hlt; simplify_eq. apply Nat.ltb_lt in Hlt. by apply Conn_Close_ok.
Qed.

Lemma track_step_enabled ev t t' : track_step ev t = Some t' -> ct_Enabled t' = ct_Enabled t.
Proof.
  assert (forall t, ct_Enabled (Close_all t) = ct_Enabled t) as Hclose by (intros u; unfold Close_all; by destruct (ct_Enabled u) eqn:E).
  destruct ev as [now total|conn|]; simpl.
  - intros [= <-]. unfold NewConn. simpl. destruct (ct_KillerEnabled t); [|done]. unfold KillerCheck. destruct (negb _); [done|].
    destruct (checked_recently _ _); [done|]. destruct (_ <? _); simpl; [by rewrite Hclose|done].
  - by destruct (_ <? _)%nat; intros [= <-].
  - intros [= <-]. apply Hclose.
Qed.

(** ** Properties *)

(** A slow connection dials at most once and sends what it accepted: in
    every run of reads, writes, dial results and closes on a [slowOpenConn], at
    most one dial is started, and when the connection is open its stream holds
    the accepted writes in order, the first in the opening packet; a failed dial
    leaves its error for all later calls. *)
Theorem slow_conn_dials_once {B} (ErrClosed : error) tr (c : slowOpenConn B) :
  slow_run ErrClosed tr slow_open = Some c ->
  (so_dials c <= 1)%nat /\
  (forall t, so_conn c = Some t -> tc_sent t = accepted ErrClosed tr slow_open) /\
  (so_create c = true <-> is_Some (so_conn c) \/ is_Some (so_err c)).
Proof.
  intros Hr. apply (slow_run_inv _ []) in Hr; [|done]. simpl in Hr. revert Hr. unfold slow_inv.
  destruct (so_dials c) as [|[|]], (so_dialing c), (so_conn c) as [t|]; try done.
  - intros (-> & -> & _). split_and!; [lia|done|]. by split; [|intros [[? ?]|[? ?]]].
  - intros (-> & -> & _). split_and!; [lia|done|]. by split; [|intros [[? ?]|[? ?]]].
  - intros (-> & -> & <-). split_and!; [lia|by intros ? [= <-]|]. split; by eauto.
  - intros (-> & e & ->). split_and!; [lia|done|]. split; by eauto.
Qed.

(** The connection list is exact: with tracking, whatever connections are
    made, closed by their owners, closed all at once or refused for want of
    memory, the list holds each connection that was made and is not closed,
    once, and no other. *)
Theorem open_connections_exact tr t t' :
  ct_Enabled t = true -> tracker_ok t -> track_run tr t = Some t' ->
  NoDup (List_ t') /\ forall c, c ∈ List_ t' <-> (c < ct_next t')%nat /\ c ∉ ct_closed t'.
Proof.
  revert t; induction tr as [|ev tr IH]; intros t Hen Hok Hr; simplify_eq/=.
  - unfold List_. rewrite Hen. destruct Hok as (? & _ & ?). done.
  - destruct (track_step ev t) as [t1|] eqn:Hs; [|done].
    eapply IH; [by rewrite (track_step_enabled _ _ _ Hs)|by eapply track_step_ok|done].
Qed.

(** ** Runs *)

Definition tracking : tracker :=
  {| ct_Enabled := true; ct_KillerEnabled := true; ct_MemoryLimit := 100; ct_killerLastCheck := None; ct_open := [];
     ct_closed := []; ct_next := 0 |}.

Definition memory_run : list track_event :=
  [TrackNew 0 10; TrackNew 1 500; TrackClose 0; TrackNew 3000000000 500; TrackNew 3000000001 500].

Lemma slow_conn_dials_once_witness :
  exists c, slow_run (B := string) ErrInvalid [EvWrite false "hello"; EvDialed None; EvWrite false "world"] slow_open = Some c /\
    (tc_sent <$> so_conn c) = Some ["hello"; "world"] /\ (so_dials c <= 1)%nat.
Proof.
  eexists. split; [reflexivity|]. split; [reflexivity|].
  eapply (proj1 (slow_conn_dials_once ErrInvalid [EvWrite false "hello"; EvDialed None; EvWrite false "world"] _ eq_refl)).
Defined.

Lemma open_connections_exact_witness :
  exists t, track_run memory_run tracking = Some t /\ ct_open t = [3]%nat /\ NoDup (List_ t).
Proof.
  eexists. split; [reflexivity|]. split; [reflexivity|].
  refine (proj1 (open_connections_exact memory_run tracking _ eq_refl _ eq_refl)).
  split; [apply NoDup_nil_2|]. split; [intros c Hc; by apply elem_of_nil in Hc|].
  intros c. split; [intros Hc; by apply elem_of_nil in Hc|]. intros [Hc _]. inversion Hc.
Defined.
