(* ===== verification/Dialer.v ===== *)
(** * The default dialer

    common/dialer/default.go: how the options of an outbound become socket
    controls and a network strategy, and how a dial or a listen uses them;
    [ListenNetworkNamespace] of common/listener/listener.go. *)

From stdpp Require Import base list sets strings relations.
From Stdlib Require Import ZArith Lia.
From S2P Require Import Prelude GoStd External Adapter RuleAction DnsMsg DnsClient ParallelDial SlowOpen.

Open Scope Z_scope.
Open Scope box_scope.

(** ** Options *)

(** [option.DomainResolveOptions], with the prefix built. *)
Record DomainResolveOptions : Type := {
  drs_Server : string; drs_Strategy : DomainStrategy; drs_DisableCache : bool; drs_RewriteTTL : option Z; drs_ClientSubnet : Prefix }.

(** [option.DialerOptions]; addresses are built.  A nil [FallbackNetworkType] is none. *)
Record DialerOptions : Type := {
  do_Detour : string;
  do_BindInterface : string;
  do_Inet4BindAddress : option Addr;
  do_Inet6BindAddress : option Addr;
  do_ProtectPath : string;
  do_RoutingMark : Z;
  do_ReuseAddr : bool;
  do_NetNs : string;
  do_ConnectTimeout : Z;
  do_TCPFastOpen : bool;
  do_TCPMultiPath : bool;
  do_UDPFragment : option bool;
  do_UDPFragmentDefault : bool;
  do_DomainResolver : option DomainResolveOptions;
  do_NetworkStrategy : option NetworkStrategy;
  do_NetworkType : list InterfaceType;
  do_FallbackNetworkType : option (list InterfaceType);
  do_FallbackDelay : Z;
  do_DomainStrategy : DomainStrategy }.

(** [adapter.NetworkOptions] *)
Record NetworkOptions : Type := {
  no_BindInterface : string;
  no_RoutingMark : Z;
  no_DomainResolver : string;
  no_DomainResolveOptions : DNSQueryOptions;
  no_NetworkStrategy : option NetworkStrategy;
  no_NetworkType : list InterfaceType;
  no_FallbackNetworkType : list InterfaceType;
  no_FallbackDelay : Z }.

(** [adapter.DNSQueryOptions{}] *)
Definition no_query_options : DNSQueryOptions :=
  {| qo_Strategy := DomainStrategyAsIS; qo_LookupStrategy := DomainStrategyAsIS; qo_DisableCache := false;
     qo_RewriteTTL := None; qo_ClientSubnet := PrefixInvalid; qo_ClientSubnetFromInbound := None |}.

(** The network manager as the dialers use it. *)
Record NetworkManager : Type := {
  nm_DefaultOptions : NetworkOptions;
  nm_AutoDetectInterface : bool;
  (** [AutoRedirectOutputMark] *)
  nm_AutoRedirectOutputMark : Z;
  nm_State : NetworkState }.

(** What a socket is given before it connects or binds, in order; the functions
    are the operating system's. *)
Inductive Control : Type :=
  | BindToInterface (name : string)
  | SetMark (mark : Z) (isDefault : bool)
  | ProtectFunc
  | AutoDetectInterfaceFunc
  | AutoRedirectOutputMarkFunc
  | ReuseAddr
  | ProtectPath (path : string)
  | SetKeepAlivePeriod
  | DisableUDPFragment.

#[global] Instance Control_eq_dec : EqDecision Control.
Proof. solve_decision. Defined.

(** [setMarkWrapper]: the control checks when it runs. *)
Definition setMarkWrapper (nm : option NetworkManager) (RoutingMark : Z -> option error) (mark : Z) (isDefault : bool)
    : option error :=
  match nm with
  | None => RoutingMark mark
  | Some nm =>
      if negb (nm_AutoRedirectOutputMark nm =? 0) then
        Some (ErrNew (if isDefault then "`route.default_mark` is conflict with `tun.auto_redirect`"
                      else "`routing_mark` is conflict with `tun.auto_redirect`"))
      else RoutingMark mark
  end.

Definition TCPConnectTimeout : Z := 5 * Second.
Definition TCPTimeout : Z := 15 * Second.

Record DefaultDialer : Type := {
  (** the controls of the four dialers, and of the listener *)
  dd_Control : list Control;
  dd_ListenControl : list Control;
  dd_Timeout : Z;
  (** the local addresses of the sockets of each family *)
  dd_Local4 : option Addr;
  dd_Local6 : option Addr;
  dd_MultiPath4 : bool;
  dd_MultiPath6 : bool;
  dd_DisableTFO : bool;
  dd_netns : string;
  dd_networkManager : option NetworkManager;
  dd_networkStrategy : option NetworkStrategy;
  dd_defaultNetworkStrategy : bool;
  dd_networkType : list InterfaceType;
  dd_fallbackNetworkType : list InterfaceType;
  dd_networkFallbackDelay : Z;
  (** none for the zero time *)
  dd_networkLastFallback : option Z }.

(** ** [NewDefault] *)

Record Platform : Type := { IsLinux : bool; IsDarwin : bool; IsWindows : bool }.

Definition is_some {A} (o : option A) : bool := match o with Some _ => true | None => false end.

(** The strategy, types and delay a dialer gets, and whether the strategy is the
    default one. *)
Record strategy_choice : Type := {
  sc_Strategy : option NetworkStrategy; sc_Default : bool; sc_Type : list InterfaceType;
  sc_FallbackType : list InterfaceType; sc_Delay : Z }.

Definition no_strategy : strategy_choice :=
  {| sc_Strategy := None; sc_Default := false; sc_Type := []; sc_FallbackType := []; sc_Delay := 0 |}.

Definition choose_strategy (options : DialerOptions) (defaults : NetworkOptions) : strategy_choice :=
  let fallback := default [] (do_FallbackNetworkType options) in
  let '(strategy, types, fallback) :=
    if negb (is_some (do_NetworkStrategy options)) && (length (do_NetworkType options) =? 0)%nat && (length fallback =? 0)%nat
    then (no_NetworkStrategy defaults, no_NetworkType defaults, no_FallbackNetworkType defaults)
    else (do_NetworkStrategy options, do_NetworkType options, fallback) in
  let delay :=
    if (do_FallbackDelay options =? 0) && negb (no_FallbackDelay defaults =? 0) then no_FallbackDelay defaults
    else do_FallbackDelay options in
  {| sc_Strategy := Some (default NetworkStrategyDefault strategy); sc_Default := negb (is_some strategy);
     sc_Type := types; sc_FallbackType := fallback; sc_Delay := delay |}.

Definition disableDefaultBind (options : DialerOptions) : bool :=
  negb (bool_decide (do_BindInterface options = "")) || is_some (do_Inet4BindAddress options) ||
  is_some (do_Inet6BindAddress options).

(** The options that cannot go together; Go's [&&] binds tighter than [||]. *)
Definition strategy_conflict (options : DialerOptions) : bool :=
  (disableDefaultBind options || do_TCPFastOpen options) &&
  (is_some (do_NetworkStrategy options) ||
   (0 <? length (do_NetworkType options))%nat && negb (is_some (do_FallbackNetworkType options)) &&
   (do_FallbackDelay options =? 0)).

Definition check_options (platform : Platform) (options : DialerOptions) : option error :=
  if negb (bool_decide (do_BindInterface options = "")) && negb (IsLinux platform || IsDarwin platform || IsWindows platform)
  then Some (ErrNew "`bind_interface` is only supported on Linux, macOS and Windows")
  else if (0 <? do_RoutingMark options) && negb (IsLinux platform)
  then Some (ErrNew "`routing_mark` is only supported on Linux")
  else if strategy_conflict options
  then Some (ErrNew "`network_strategy` is conflict with `bind_interface`, `inet4_bind_address`, `inet6_bind_address` and `tcp_fast_open`")
  else None.

Definition opt_control (b : bool) (c : Control) : list Control := if b then [c] else [].

(** The controls the options ask for. *)
Definition own_controls (options : DialerOptions) : list Control :=
  opt_control (negb (bool_decide (do_BindInterface options = ""))) (BindToInterface (do_BindInterface options)) ++
  opt_control (0 <? do_RoutingMark options) (SetMark (do_RoutingMark options) false).

(** The controls the network manager adds, and the strategy. *)
Definition manager_controls (hasPlatformInterface : bool) (options : DialerOptions) (nm : NetworkManager)
    : list Control * strategy_choice :=
  let defaults := nm_DefaultOptions nm in
  let '(bind, choice) :=
    if negb (bool_decide (no_BindInterface defaults = "")) then ([BindToInterface (no_BindInterface defaults)], no_strategy)
    else if nm_AutoDetectInterface nm && negb (disableDefaultBind options) then
      if hasPlatformInterface then ([ProtectFunc], choose_strategy options defaults)
      else ([AutoDetectInterfaceFunc], no_strategy)
    else ([], no_strategy) in
  (bind ++
   opt_control ((do_RoutingMark options =? 0) && negb (no_RoutingMark defaults =? 0)) (SetMark (no_RoutingMark defaults) true) ++
   [AutoRedirectOutputMarkFunc], choice).

Definition NewDefault (platform : Platform) (networkManager : option NetworkManager) (hasPlatformInterface : bool)
    (options : DialerOptions) : DefaultDialer + error :=
  match check_options platform options with
  | Some e => inr e
  | None =>
      let '(managed, choice) :=
        match networkManager with
        | Some nm => manager_controls hasPlatformInterface options nm
        | None => ([], no_strategy)
        end in
      let protect := opt_control (negb (bool_decide (do_ProtectPath options = ""))) (ProtectPath (do_ProtectPath options)) in
      let fragment := opt_control (negb (default (do_UDPFragmentDefault options) (do_UDPFragment options))) DisableUDPFragment in
      inl {| dd_Control := own_controls options ++ managed ++ protect ++ [SetKeepAlivePeriod] ++ fragment;
             dd_ListenControl :=
               own_controls options ++ managed ++ opt_control (do_ReuseAddr options) ReuseAddr ++ protect ++ fragment;
             dd_Timeout := if do_ConnectTimeout options =? 0 then TCPConnectTimeout else do_ConnectTimeout options;
             dd_Local4 := do_Inet4BindAddress options;
             dd_Local6 := do_Inet6BindAddress options;
             dd_MultiPath4 := do_TCPMultiPath options;
             dd_MultiPath6 := false;
             dd_DisableTFO := negb (do_TCPFastOpen options);
             dd_netns := do_NetNs options;
             dd_networkManager := networkManager;
             dd_networkStrategy := sc_Strategy choice;
             dd_defaultNetworkStrategy := sc_Default choice;
             dd_networkType := sc_Type choice;
             dd_fallbackNetworkType := sc_FallbackType choice;
             dd_networkFallbackDelay := sc_Delay choice;
             dd_networkLastFallback := None |}
  end.

(** ** [ListenNetworkNamespace] *)

(** What the operating system answers: for the current namespace, for the one
    named or at a path, and for entering it. *)
Record Netns : Type := {
  ns_Get : option error; ns_GetFromPath : string -> option error; ns_GetFromName : string -> option error;
  ns_Set : option error }.

Definition ListenNetworkNamespace {T} (netns : Netns) (nameOrPath : string) (block : T + error) : T + error :=
  if bool_decide (nameOrPath = "") then block
  else
    match ns_Get netns with
    | Some e => inr (ErrCause e "get current netns")
    | None =>
        match (if strings_HasPrefix nameOrPath "/" then ns_GetFromPath netns nameOrPath else ns_GetFromName netns nameOrPath) with
        | Some e => inr (ErrCause e ("get netns " +:+ nameOrPath))
        | None =>
            match ns_Set netns with
            | Some e => inr (ErrCause e ("set netns to " +:+ nameOrPath))
            | None => block
            end
        end
    end.

(** ** Dials and listens *)

(** The sockets a dial can use, and those of a listen: the network, and the
    local address. *)
Inductive Socket : Type := UDPDialer4 | UDPDialer6 | Dialer4 | Dialer6.

#[global] Instance Socket_eq_dec : EqDecision Socket.
Proof. solve_decision. Defined.

(** A dialer whose [networkStrategy] or [networkLastFallback] was written. *)
Definition with_networkStrategy (v : option NetworkStrategy) (d : DefaultDialer) : DefaultDialer :=
  {| dd_Control := dd_Control d; dd_ListenControl := dd_ListenControl d; dd_Timeout := dd_Timeout d;
     dd_Local4 := dd_Local4 d; dd_Local6 := dd_Local6 d; dd_MultiPath4 := dd_MultiPath4 d; dd_MultiPath6 := dd_MultiPath6 d;
     dd_DisableTFO := dd_DisableTFO d; dd_netns := dd_netns d; dd_networkManager := dd_networkManager d;
     dd_networkStrategy := v; dd_defaultNetworkStrategy := dd_defaultNetworkStrategy d; dd_networkType := dd_networkType d;
     dd_fallbackNetworkType := dd_fallbackNetworkType d; dd_networkFallbackDelay := dd_networkFallbackDelay d;
     dd_networkLastFallback := dd_networkLastFallback d |}.

Definition with_networkLastFallback (v : option Z) (d : DefaultDialer) : DefaultDialer :=
  {| dd_Control := dd_Control d; dd_ListenControl := dd_ListenControl d; dd_Timeout := dd_Timeout d;
     dd_Local4 := dd_Local4 d; dd_Local6 := dd_Local6 d; dd_MultiPath4 := dd_MultiPath4 d; dd_MultiPath6 := dd_MultiPath6 d;
     dd_DisableTFO := dd_DisableTFO d; dd_netns := dd_netns d; dd_networkManager := dd_networkManager d;
     dd_networkStrategy := dd_networkStrategy d; dd_defaultNetworkStrategy := dd_defaultNetworkStrategy d;
     dd_networkType := dd_networkType d; dd_fallbackNetworkType := dd_fallbackNetworkType d;
     dd_networkFallbackDelay := dd_networkFallbackDelay d; dd_networkLastFallback := v |}.

Section default_dialer.
(** C are connections, P packet connections.  [dial] opens a socket of the
    dialer, [listen] one for packets, bound to an interface if one is given;
    [trackConn] and [trackPacketConn] are those of conntrack.  [NetworkName] and
    [IsIPv4] are the networking library's. *)
Context `{External} {C P : Type} (NetworkName : string -> string) (IsIPv4 : Socksaddr -> bool) (EPERM : error) (DefaultFallbackDelay : Z) (netns : Netns)
  (dial : Socket -> string -> Socksaddr -> C + error)
  (listen : string -> option Addr -> option Interface -> P + error)
  (trackConn : C -> C + error) (trackPacketConn : P -> P + error).

Definition track {A} (f : A -> A + error) (r : A + error) : A + error := match r with inl a => f a | inr e => inr e end.

Definition dial_socket (network : string) (address : Socksaddr) : Socket :=
  if bool_decide (NetworkName network = "udp") then if negb (IsIPv6 address) then UDPDialer4 else UDPDialer6
  else if negb (IsIPv6 address) then Dialer4 else Dialer6.

Definition check_address (address : Socksaddr) : option error :=
  if negb (Socksaddr_IsValid address) then Some (ErrNew "invalid address")
  else if IsFqdn address then Some (ErrNew "domain not resolved")
  else None.

(** [DialContext] without a strategy *)
Definition dial_plain (d : DefaultDialer) (network : string) (address : Socksaddr) : C + error :=
  match check_address address with
  | Some e => inr e
  | None => track trackConn (ListenNetworkNamespace netns (dd_netns d) (dial (dial_socket network address) network address))
  end.

(** Types and a delay that are not given are the dialer's. *)
Definition types_or (types own : list InterfaceType) : list InterfaceType :=
  if (length types =? 0)%nat then own else types.
Definition delay_or (delay own : Z) : Z := if delay =? 0 then own else delay.

Definition strategy_or (strategy : option NetworkStrategy) (d : DefaultDialer) : option NetworkStrategy :=
  match strategy with Some s => Some s | None => dd_networkStrategy d end.

(** Within the timeout after a fallback won, all interfaces are dialled at once. *)
Definition fast_fallback (now : Z) (d : DefaultDialer) : bool :=
  match dd_networkLastFallback d with Some last => now - last <? TCPTimeout | None => false end.

Definition network_state (d : DefaultDialer) : NetworkState :=
  match dd_networkManager d with
  | Some nm => nm_State nm
  | None => {| NetworkInterfaces := []; DefaultInterface := None |}
  end.

(** What the race came to, once it has returned; a late primary connection of a
    fast fallback writes the zero time. *)
Definition race_outcome (r : option (race Interface C) + error) : option ((C * bool + option error) * bool) :=
  match r with
  | inr e => Some (inr (Some e), false)
  | inl None => None
  | inl (Some ra) => match ra_returned ra with Some out => Some (out, ra_reset ra) | None => None end
  end.

(** The race over the interfaces: the fast one while a fallback is remembered. *)
Definition dial_interfaces (d : DefaultDialer) (strategy : NetworkStrategy) (interfaceType fallbackInterfaceType : list InterfaceType)
    (fallbackDelay now : Z) (tr : list (race_event C)) : option ((C * bool + option error) * bool) :=
  let interfaceType := types_or interfaceType (dd_networkType d) in
  let fallbackInterfaceType := types_or fallbackInterfaceType (dd_fallbackNetworkType d) in
  let fallbackDelay := delay_or fallbackDelay (dd_networkFallbackDelay d) in
  race_outcome
    (if negb (fast_fallback now d) then
       dialParallelInterface (network_state d) strategy interfaceType fallbackInterfaceType DefaultFallbackDelay fallbackDelay now tr
     else
       dialParallelInterfaceFastFallback (network_state d) strategy interfaceType fallbackInterfaceType DefaultFallbackDelay
         fallbackDelay now tr).

(** [DialParallelInterface]: started at [now], the events of its race, the time
    it stores; none while the race goes on. *)
Definition DialParallelInterface (d : DefaultDialer) (network : string) (address : Socksaddr)
    (strategy : option NetworkStrategy) (interfaceType fallbackInterfaceType : list InterfaceType) (fallbackDelay : Z)
    (now : Z) (tr : list (race_event C)) (ended : Z) : option ((C + option error) * DefaultDialer) :=
  match strategy_or strategy d with
  | None => Some (match dial_plain d network address with inl c => inl c | inr e => inr (Some e) end, d)
  | Some strategy =>
      let fastFallback := fast_fallback now d in
      match dial_interfaces d strategy interfaceType fallbackInterfaceType fallbackDelay now tr with
      | None => None
      | Some (inr err, _) =>
          if dd_defaultNetworkStrategy d && match err with Some e => errors_Is e EPERM | None => false end then
            let d := with_networkStrategy None d in
            Some (match dial_plain d network address with inl c => inl c | inr e => inr (Some e) end, d)
          else Some (inr err, d)
      | Some (inl (conn, isPrimary), reset) =>
          let d := if reset then with_networkLastFallback None d else d in
          let d := if negb fastFallback && negb isPrimary then with_networkLastFallback (Some ended) d else d in
          Some (match trackConn conn with inl c => inl c | inr e => inr (Some e) end, d)
      end
  end.

Definition DialContext (d : DefaultDialer) (network : string) (address : Socksaddr) (now : Z) (tr : list (race_event C))
    (ended : Z) : option ((C + option error) * DefaultDialer) :=
  match check_address address with
  | Some e => Some (inr (Some e), d)
  | None =>
      match dd_networkStrategy d with
      | None => Some (match dial_plain d network address with inl c => inl c | inr e => inr (Some e) end, d)
      | Some strategy =>
          DialParallelInterface d network address (Some strategy) (dd_networkType d) (dd_fallbackNetworkType d)
            (dd_networkFallbackDelay d) now tr ended
      end
  end.

(** [Addr.IsUnspecified] *)
Definition IsUnspecified (a : Addr) : bool :=
  match a with Addr4 n => n =? 0 | Addr6 n zone => (n =? 0) && bool_decide (zone = "") | AddrInvalid => false end.

Definition specified4 (a : Socksaddr) : bool := IsIPv4 a && negb (IsUnspecified (sa_Addr a)).

(** [ListenPacket] without a strategy *)
Definition listen_plain (d : DefaultDialer) (destination : Socksaddr) : P + error :=
  track trackPacketConn (ListenNetworkNamespace netns (dd_netns d)
    (if IsIPv6 destination then listen "udp" (dd_Local6 d) None
     else if specified4 destination then listen "udp4" (dd_Local4 d) None
     else listen "udp" (dd_Local4 d) None)).

(** The sockets of the interfaces, one after the other. *)
Definition listen_interfaces (d : DefaultDialer) (destination : Socksaddr) (strategy : NetworkStrategy)
    (interfaceType fallbackInterfaceType : list InterfaceType) : P + option error :=
  let network := if specified4 destination then "udp4" else "udp" in
  listenSerialInterfacePacket (network_state d) strategy (types_or interfaceType (dd_networkType d))
    (types_or fallbackInterfaceType (dd_fallbackNetworkType d)) (listen network None).

Definition ListenSerialInterfacePacket (d : DefaultDialer) (destination : Socksaddr) (strategy : option NetworkStrategy)
    (interfaceType fallbackInterfaceType : list InterfaceType) : (P + option error) * DefaultDialer :=
  match strategy_or strategy d with
  | None => (match listen_plain d destination with inl c => inl c | inr e => inr (Some e) end, d)
  | Some strategy =>
      match listen_interfaces d destination strategy interfaceType fallbackInterfaceType with
      | inr err =>
          if dd_defaultNetworkStrategy d && match err with Some e => errors_Is e EPERM | None => false end then
            let d := with_networkStrategy None d in
            (match listen_plain d destination with inl c => inl c | inr e => inr (Some e) end, d)
          else (inr err, d)
      | inl conn => (match trackPacketConn conn with inl c => inl c | inr e => inr (Some e) end, d)
      end
  end.

Definition ListenPacket (d : DefaultDialer) (destination : Socksaddr) : (P + option error) * DefaultDialer :=
  match dd_networkStrategy d with
  | None => (match listen_plain d destination with inl c => inl c | inr e => inr (Some e) end, d)
  | Some strategy =>
      ListenSerialInterfacePacket d destination (Some strategy) (dd_networkType d) (dd_fallbackNetworkType d)
  end.
End default_dialer.

(** ** What a dialer remembers *)

(** How a call fails on the interfaces: the error of its race, or of its last
    interface; nothing when it does not use them or has a connection. *)
Section failures.
Context `{External} {C P : Type} (IsIPv4 : Socksaddr -> bool) (DefaultFallbackDelay : Z)
  (listen : string -> option Addr -> option Interface -> P + error).

Definition parallel_failure (d : DefaultDialer) (strategy : option NetworkStrategy) (ifs fbs : list InterfaceType)
    (delay now : Z) (tr : list (race_event C)) : list (option error) :=
  match strategy_or strategy d with
  | None => []
  | Some strategy =>
      match dial_interfaces DefaultFallbackDelay d strategy ifs fbs delay now tr with Some (inr err, _) => [err] | _ => [] end
  end.

Definition dial_failure (d : DefaultDialer) (address : Socksaddr) (now : Z) (tr : list (race_event C)) : list (option error) :=
  match check_address address, dd_networkStrategy d with
  | None, Some strategy =>
      parallel_failure d (Some strategy) (dd_networkType d) (dd_fallbackNetworkType d) (dd_networkFallbackDelay d) now tr
  | _, _ => []
  end.

Definition serial_failure (d : DefaultDialer) (destination : Socksaddr) (strategy : option NetworkStrategy)
    (ifs fbs : list InterfaceType) : list (option error) :=
  match strategy_or strategy d with
  | None => []
  | Some strategy =>
      match listen_interfaces IsIPv4 listen d destination strategy ifs fbs with inr err => [err] | inl _ => [] end
  end.

Definition listen_failure (d : DefaultDialer) (destination : Socksaddr) : list (option error) :=
  match dd_networkStrategy d with
  | None => []
  | Some strategy => serial_failure d destination (Some strategy) (dd_networkType d) (dd_fallbackNetworkType d)
  end.
End failures.

(** One call of a dialer, of any kind and with any outcome, and how it fails on
    the interfaces. *)
Inductive dialer_step `{External} {C P} (EPERM : error) (d : DefaultDialer) : list (option error) -> DefaultDialer -> Prop :=
  | StepDialContext NetworkName delay0 netns dial (track : C -> C + error) network address now tr ended r d' :
      DialContext NetworkName EPERM delay0 netns dial track d network address now tr ended = Some (r, d') ->
      dialer_step EPERM d (dial_failure delay0 d address now tr) d'
  | StepDialParallelInterface NetworkName delay0 netns dial (track : C -> C + error) network address strategy ifs fbs delay
      now tr ended r d' :
      DialParallelInterface NetworkName EPERM delay0 netns dial track d network address strategy ifs fbs delay now tr ended =
        Some (r, d') ->
      dialer_step EPERM d (parallel_failure delay0 d strategy ifs fbs delay now tr) d'
  | StepListenPacket IsIPv4 netns listen (track : P -> P + error) destination r d' :
      ListenPacket IsIPv4 EPERM netns listen track d destination = (r, d') ->
      dialer_step EPERM d (listen_failure IsIPv4 listen d destination) d'
  | StepListenSerial IsIPv4 netns listen (track : P -> P + error) destination strategy ifs fbs r d' :
      ListenSerialInterfacePacket IsIPv4 EPERM netns listen track d destination strategy ifs fbs = (r, d') ->
      dialer_step EPERM d (serial_failure IsIPv4 listen d destination strategy ifs fbs) d'.

(** Any number of calls, with their failures. *)
Inductive dialer_run `{External} {C P} (EPERM : error) : DefaultDialer -> list (option error) -> DefaultDialer -> Prop :=
  | RunEnd d : dialer_run EPERM d [] d
  | RunStep d1 fs d2 gs d3 :
      dialer_step (C := C) (P := P) EPERM d1 fs d2 -> dialer_run EPERM d2 gs d3 -> dialer_run EPERM d1 (fs ++ gs) d3.

(** A socket could not be bound. *)
Definition may_not_bind `{External} (EPERM : error) (failure : option error) : bool :=
  match failure with Some e => errors_Is e EPERM | None => false end.

(** What a call may change: the fallback time; and a default strategy is given up
    exactly when a socket may not be bound. *)
Definition keeps `{External} (EPERM : error) (d : DefaultDialer) (failures : list (option error)) (d' : DefaultDialer) : Prop :=
  exists last,
    d' = with_networkStrategy
           (if dd_defaultNetworkStrategy d && existsb (may_not_bind EPERM) failures then None else dd_networkStrategy d)
           (with_networkLastFallback last d).

Section keeps.
Context `{External} {C P : Type} (NetworkName : string -> string) (IsIPv4 : Socksaddr -> bool) (EPERM : error)
  (DefaultFallbackDelay : Z) (netns : Netns) (dial : Socket -> string -> Socksaddr -> C + error)
  (listen : string -> option Addr -> option Interface -> P + error)
  (trackConn : C -> C + error) (trackPacketConn : P -> P + error).

Lemma keeps_nil d last : keeps EPERM d [] (with_networkLastFallback last d).
Proof. exists last. rewrite andb_false_r. by destruct d. Qed.

Lemma keeps_refl d : keeps EPERM d [] d.
Proof. exists (dd_networkLastFallback d). rewrite andb_false_r. by destruct d. Qed.

(** After a failure the strategy is given up exactly under the guard. *)
Lemma keeps_failure d err :
  keeps EPERM d [err] (if dd_defaultNetworkStrategy d && may_not_bind EPERM err then with_networkStrategy None d else d).
Proof.
  exists (dd_networkLastFallback d). simpl. rewrite orb_false_r. by destruct (_ && _), d.
Qed.

Lemma keeps_trans d1 fs d2 gs d3 : keeps EPERM d1 fs d2 -> keeps EPERM d2 gs d3 -> keeps EPERM d1 (fs ++ gs) d3.
Proof.
  intros [l ->] [l' ->]. exists l'. rewrite existsb_app. simpl. by destruct (dd_defaultNetworkStrategy d1), (existsb _ fs), (existsb _ gs).
Qed.

Lemma DialParallelInterface_keeps d network address strategy ifs fbs delay now tr ended r d' :
  DialParallelInterface NetworkName EPERM DefaultFallbackDelay netns dial trackConn d network address strategy ifs fbs delay
    now tr ended = Some (r, d') ->
  keeps EPERM d (parallel_failure DefaultFallbackDelay d strategy ifs fbs delay now tr) d'.
Proof.
  unfold DialParallelInterface, parallel_failure. destruct (strategy_or _ _); [|intros [= _ <-]; apply keeps_refl].
  destruct (dial_interfaces _ _ _ _ _ _ _ _) as [[[[conn isPrimary]|err] reset]|]; [| |done].
  - intros [= _ <-]. destruct (negb (fast_fallback now d) && negb isPrimary); [by destruct reset; exact (keeps_nil d (Some ended))|].
    destruct reset; [exact (keeps_nil d None)|apply keeps_refl].
  - pose proof (keeps_failure d err) as Hk. unfold may_not_bind in Hk. destruct (_ && _); by intros [= _ <-].
Qed.

Lemma DialContext_keeps d network address now tr ended r d' :
  DialContext NetworkName EPERM DefaultFallbackDelay netns dial trackConn d network address now tr ended = Some (r, d') ->
  keeps EPERM d (dial_failure DefaultFallbackDelay d address now tr) d'.
Proof.
  unfold DialContext, dial_failure. destruct (check_address _); [intros [= _ <-]; apply keeps_refl|].
  destruct (dd_networkStrategy d); [|intros [= _ <-]; apply keeps_refl]. apply DialParallelInterface_keeps.
Qed.

Lemma ListenSerialInterfacePacket_keeps d destination strategy ifs fbs :
  keeps EPERM d (serial_failure IsIPv4 listen d destination strategy ifs fbs)
    (snd (ListenSerialInterfacePacket IsIPv4 EPERM netns listen trackPacketConn d destination strategy ifs fbs)).
Proof.
  unfold ListenSerialInterfacePacket, serial_failure. destruct (strategy_or _ _); [|apply keeps_refl].
  destruct (listen_interfaces _ _ _ _ _ _ _) as [conn|err]; [apply keeps_refl|].
  pose proof (keeps_failure d err) as Hk. unfold may_not_bind in Hk. by destruct (_ && _).
Qed.

Lemma ListenPacket_keeps d destination :
  keeps EPERM d (listen_failure IsIPv4 listen d destination)
    (snd (ListenPacket IsIPv4 EPERM netns listen trackPacketConn d destination)).
Proof.
  unfold ListenPacket, listen_failure. destruct (dd_networkStrategy d); [apply ListenSerialInterfacePacket_keeps|apply keeps_refl].
Qed.
End keeps.

Lemma dialer_step_keeps `{External} {C P} EPERM d fs d' : dialer_step (C := C) (P := P) EPERM d fs d' -> keeps EPERM d fs d'.
Proof.
  intros [* Hr|* Hr|* Hr|* Hr].
  - by eapply DialContext_keeps.
  - by eapply DialParallelInterface_keeps.
  - apply (f_equal snd) in Hr. simpl in Hr. rewrite <-Hr. apply ListenPacket_keeps.
  - apply (f_equal snd) in Hr. simpl in Hr. rewrite <-Hr. apply ListenSerialInterfacePacket_keeps.
Qed.

(** When a fallback wins an ordinary race, the dials of the next fifteen seconds
    race all interfaces at once; a primary that wins leaves the memory alone. *)
Lemma fallback_remembered `{External} {C} NetworkName EPERM default netns dial (track : C -> C + error) d network address
    strategy ifs fbs delay now tr ended conn isPrimary reset r d' :
  strategy_or strategy d <> None -> fast_fallback now d = false ->
  dial_interfaces default d (from_option id NetworkStrategyDefault (strategy_or strategy d)) ifs fbs delay now tr =
    Some (inl (conn, isPrimary), reset) ->
  DialParallelInterface NetworkName EPERM default netns dial track d network address strategy ifs fbs delay now tr ended =
    Some (r, d') ->
  r = (match track conn with inl c => inl c | inr e => inr (Some e) end) /\
  forall later, ended <= later ->
    fast_fallback later d' = if isPrimary then if reset then false else fast_fallback later d else later - ended <? TCPTimeout.
Proof.
  unfold DialParallelInterface. destruct (strategy_or strategy d) as [s|]; [|done]. intros _ Hfast. simpl. intros ->. rewrite Hfast.
  intros [= <- <-]. split; [done|]. intros later _. by destruct isPrimary, reset.
Qed.

(** ** The options and the strategy *)

(** A dialer has a strategy only when the platform's interface binds its
    sockets and the options do not. *)
Lemma NewDefault_strategy platform nm hasPlatform options d :
  NewDefault platform nm hasPlatform options = inl d -> dd_networkStrategy d <> None ->
  disableDefaultBind options = false /\ hasPlatform = true /\ dd_Local4 d = None /\ dd_Local6 d = None /\
  (exists m, nm = Some m /\ nm_AutoDetectInterface m = true /\ dd_networkManager d = Some m) /\
  List.filter (fun c => match c with BindToInterface _ | ProtectFunc | AutoDetectInterfaceFunc => true | _ => false end)
    (dd_Control d) = [ProtectFunc].
Proof.
  unfold NewDefault. destruct (check_options _ _); [done|]. destruct nm as [m|]; [|by intros [= <-]].
  unfold manager_controls.
  destruct (negb (bool_decide (no_BindInterface _ = ""))); [by intros [= <-]|].
  destruct (nm_AutoDetectInterface m) eqn:Hauto; [|by intros [= <-]].
  destruct (disableDefaultBind options) eqn:Hdis; simpl; [by intros [= <-]|].
  destruct hasPlatform; [|by intros [= <-]]. intros [= <-] _. simpl.
  unfold disableDefaultBind in Hdis. apply orb_false_elim in Hdis as [[Hbind H4]%orb_false_elim H6].
  split_and!; [done|done|by destruct (do_Inet4BindAddress options)|by destruct (do_Inet6BindAddress options)|by eauto|].
  rewrite !List.filter_app. unfold own_controls. rewrite Hbind. simpl. rewrite !List.filter_app.
  by repeat match goal with |- context [opt_control ?b _] => destruct b; simpl end.
Qed.

(** The network manager configures no strategy of its own for these options. *)
Definition no_default_strategy (options : DialerOptions) (nm : option NetworkManager) : Prop :=
  do_NetworkStrategy options = None /\
  (do_NetworkType options = [] -> default [] (do_FallbackNetworkType options) = [] ->
   exists m, nm = Some m /\ no_NetworkStrategy (nm_DefaultOptions m) = None).

(** A default strategy is one nobody configured. *)
Lemma NewDefault_default platform nm hasPlatform options d :
  NewDefault platform nm hasPlatform options = inl d -> dd_defaultNetworkStrategy d = true ->
  dd_networkStrategy d = Some NetworkStrategyDefault /\ no_default_strategy options nm.
Proof.
  unfold NewDefault. destruct (check_options _ _); [done|]. destruct nm as [m|]; [|by intros [= <-]].
  unfold manager_controls, choose_strategy, no_default_strategy.
  destruct (negb (bool_decide (no_BindInterface _ = ""))); [by intros [= <-]|].
  destruct (_ && negb (disableDefaultBind options)); [|by intros [= <-]].
  destruct hasPlatform; [|by intros [= <-]].
  destruct (do_NetworkStrategy options) as [s|]; simpl; [by intros [= <-]|].
  destruct ((length (do_NetworkType options) =? 0)%nat && _) eqn:Hnone; intros [= <-]; simpl.
  - destruct (no_NetworkStrategy _) eqn:Hs; simpl; [done|]. by eauto 10.
  - intros _. split_and!; [done|done|]. intros Ht Hf. by rewrite Ht, Hf in Hnone.
Qed.

(** ** Properties *)

(** C18 (a configured strategy is never given up): whatever calls are made of a
    default dialer and however they end, its strategy is afterwards the one it was
    made with, unless it has the default strategy and an attempt on the interfaces
    failed because a socket may not be bound ([EPERM]): then it has none.  The
    default strategy is one neither the options nor the network manager configured,
    and the other settings never change. *)
Theorem configured_strategy_kept `{External} {C P} EPERM platform nm hasPlatform options d failures d' :
  NewDefault platform nm hasPlatform options = inl d -> dialer_run (C := C) (P := P) EPERM d failures d' ->
  dd_networkStrategy d' =
    (if dd_defaultNetworkStrategy d && existsb (may_not_bind EPERM) failures then None else dd_networkStrategy d) /\
  (dd_defaultNetworkStrategy d = true ->
   dd_networkStrategy d = Some NetworkStrategyDefault /\ no_default_strategy options nm) /\
  dd_networkType d' = dd_networkType d /\ dd_fallbackNetworkType d' = dd_fallbackNetworkType d /\
  dd_networkFallbackDelay d' = dd_networkFallbackDelay d /\ dd_netns d' = dd_netns d /\ dd_Control d' = dd_Control d.
Proof.
  intros Hnew Hsteps. assert (keeps EPERM d failures d') as [last ->].
  - clear Hnew. induction Hsteps as [d|d1 fs d2 gs d3 Hs _ IH]; [apply keeps_refl|].
    eapply keeps_trans; [by eapply dialer_step_keeps|done].
  - split_and!; try done. by apply (NewDefault_default platform _ hasPlatform).
Qed.

(** ** Runs *)
#[local] Existing Instance concrete_external.

Definition no_options : DialerOptions :=
  {| do_Detour := ""; do_BindInterface := ""; do_Inet4BindAddress := None; do_Inet6BindAddress := None; do_ProtectPath := "";
     do_RoutingMark := 0; do_ReuseAddr := false; do_NetNs := ""; do_ConnectTimeout := 0; do_TCPFastOpen := false;
     do_TCPMultiPath := true; do_UDPFragment := None; do_UDPFragmentDefault := false;
     do_DomainResolver := None; do_NetworkStrategy := None;
     do_NetworkType := []; do_FallbackNetworkType := None; do_FallbackDelay := 0; do_DomainStrategy := DomainStrategyAsIS |}.

Definition bound_options (types : list InterfaceType) (delay : Z) : DialerOptions :=
  {| do_Detour := ""; do_BindInterface := "eth1"; do_Inet4BindAddress := None; do_Inet6BindAddress := None;
     do_ProtectPath := ""; do_RoutingMark := 0; do_ReuseAddr := false; do_NetNs := ""; do_ConnectTimeout := 0;
     do_TCPFastOpen := false; do_TCPMultiPath := false; do_UDPFragment := Some true; do_UDPFragmentDefault := false;
     do_DomainResolver := None; do_NetworkStrategy := None; do_NetworkType := types; do_FallbackNetworkType := None; do_FallbackDelay := delay;
     do_DomainStrategy := DomainStrategyAsIS |}.

Definition phone (default_interface : string) : NetworkManager :=
  {| nm_DefaultOptions := {| no_BindInterface := default_interface; no_RoutingMark := 0; no_DomainResolver := "";
                             no_DomainResolveOptions := no_query_options; no_NetworkStrategy := None;
                             no_NetworkType := []; no_FallbackNetworkType := []; no_FallbackDelay := 0 |};
     nm_AutoDetectInterface := true; nm_AutoRedirectOutputMark := 0; nm_State := {| NetworkInterfaces := NetworkInterfaces three_interfaces; DefaultInterface := None |} |}.

Definition linux : Platform := {| IsLinux := true; IsDarwin := false; IsWindows := false |}.
Definition host_netns : Netns :=
  {| ns_Get := None; ns_GetFromPath _ := None; ns_GetFromName _ := None; ns_Set := None |}.

(** Binding to an interface is not permitted here. *)
Definition listen_unbound (network : string) (local : option Addr) (iif : option Interface) : string + error :=
  match iif with Some _ => inr (ErrNew "EPERM") | None => inl network end.

Definition unbound_failure : error :=
  ErrJoin (ErrCause (ErrNew "EPERM") "listen wlan0 (1)")
    (ErrJoin (ErrCause (ErrNew "EPERM") "listen rmnet0 (2)") (ErrCause (ErrNew "EPERM") "listen rmnet1 (3)")).

Lemma configured_strategy_kept_witness :
  exists d d', NewDefault linux (Some (phone "")) true no_options = inl d /\
    dialer_run (C := string) (P := string) (ErrNew "EPERM") d [Some unbound_failure] d' /\
    dd_networkStrategy d = Some NetworkStrategyDefault /\ dd_networkStrategy d' = None /\
    dd_networkType d' = dd_networkType d.
Proof.
  eexists ?[d]. exists (snd (ListenPacket (fun _ => true) (ErrNew "EPERM") host_netns listen_unbound inl ?d (SocksaddrFrom (Addr4 1) 53))).
  split; [reflexivity|].
  match goal with |- ?steps /\ _ => assert steps as Hsteps end.
  { match goal with
    |- dialer_run ?E ?d _ ?d' =>
        refine (RunStep E d (listen_failure (fun _ => true) listen_unbound d (SocksaddrFrom (Addr4 1) 53)) d' [] d' _ (RunEnd E d'))
    end.
    eapply StepListenPacket. apply surjective_pairing. }
  pose proof (configured_strategy_kept (ErrNew "EPERM") linux (Some (phone "")) true no_options _ _ _ eq_refl Hsteps) as Hkept.
  split; [exact Hsteps|]. split; [reflexivity|]. split; [exact (proj1 Hkept)|]. exact (proj1 (proj2 (proj2 Hkept))).
Defined.

(** With another error the default strategy stays. *)
Example other_errors_keep :
  match NewDefault linux (Some (phone "")) true no_options with
  | inl d =>
      dd_networkStrategy (snd (ListenPacket (P := string) (fun _ => true) (ErrNew "EPERM") host_netns
        (fun _ _ _ => inr (ErrNew "EACCES")) inl d (SocksaddrFrom (Addr4 1) 53)))
  | inr _ => None
  end = Some NetworkStrategyDefault.
Proof. reflexivity. Qed.

(** An interface of its own and a default one: both controls run, and the
    default one last. *)
Example default_bind_last :
  match NewDefault linux (Some (phone "tun0")) false (bound_options [] 0) with
  | inl d => dd_Control d
  | inr _ => []
  end = [BindToInterface "eth1"; BindToInterface "tun0"; AutoRedirectOutputMarkFunc; SetKeepAlivePeriod].
Proof. reflexivity. Qed.

(** The conflict of [network_type] with [bind_interface] is found only without a
    delay. *)
Example conflict_missed :
  strategy_conflict (bound_options [InterfaceTypeWIFI] 0) = true /\
  strategy_conflict (bound_options [InterfaceTypeWIFI] 1) = false.
Proof. done. Qed.

(** Multipath TCP is for IPv4 only. *)
Example multipath_v4_only :
  match NewDefault linux None false no_options with inl d => (dd_MultiPath4 d, dd_MultiPath6 d) | inr _ => (false, false) end =
  (true, false).
Proof. reflexivity. Qed.
