(* ===== verification/DialerChain.v ===== *)
(** * The dialer of an outbound

    common/dialer/dialer.go, detour.go, resolve.go and router.go: which dialer
    the options of an outbound come to, a detour over another outbound, and the
    resolution of a domain before the dial. *)

From stdpp Require Import base list sets strings.
From Stdlib Require Import ZArith Lia.
From S2P Require Import Prelude GoStd External Adapter RuleAction DnsMsg DnsClient ParallelDial SlowOpen Dialer.

Open Scope Z_scope.
Open Scope box_scope.

(** ** Detours *)

Section detour.
(** Outbounds; whether one is an empty direct outbound. *)
Context {O : Type} (Outbound_IsEmpty : O -> bool).

Record DetourDialer : Type := {
  de_detour : string;
  de_legacyDNSDialer : bool;
  (** what [init] came to, once it has run *)
  de_dialer : option (O + error) }.

Definition NewDetour (detour : string) (legacyDNSDialer : bool) : DetourDialer :=
  {| de_detour := detour; de_legacyDNSDialer := legacyDNSDialer; de_dialer := None |}.

Definition DetourDialer_init (Outbound : string -> option O) (d : DetourDialer) : O + error :=
  match Outbound (de_detour d) with
  | None => inr (ErrNew ("outbound detour not found: " +:+ de_detour d))
  | Some dialer =>
      if negb (de_legacyDNSDialer d) && Outbound_IsEmpty dialer
      then inr (ErrNew "detour to an empty direct outbound makes no sense")
      else inl dialer
  end.

(** [Dialer]: initialised once; [InitializeDetour] asks for the error only. *)
Definition DetourDialer_Dialer (Outbound : string -> option O) (d : DetourDialer) : (O + error) * DetourDialer :=
  let r := match de_dialer d with Some r => r | None => DetourDialer_init Outbound d end in
  (r, {| de_detour := de_detour d; de_legacyDNSDialer := de_legacyDNSDialer d; de_dialer := Some r |}).

(** [DialContext] and [ListenPacket]: those of the outbound. *)
Definition DetourDialer_use {A} (Outbound : string -> option O) (use : O -> A + error) (d : DetourDialer) : (A + error) * DetourDialer :=
  let '(r, d) := DetourDialer_Dialer Outbound d in
  (match r with inl o => use o | inr e => inr e end, d).
End detour.
Arguments DetourDialer : clear implicits.

(** [DefaultOutboundDialer]: the default outbound at the time of the call. *)
Definition DefaultOutboundDialer_use {O A} (Default : O) (use : O -> A + error) : A + error := use Default.

(** ** Resolving dialers *)

Record resolveDialer : Type := {
  rd_parallel : bool;
  rd_server : string;
  (** whether [initServer] has run, and its error *)
  rd_initOnce : bool;
  rd_initErr : option error;
  (** [queryOptions], the transport by its tag *)
  rd_Transport : option string;
  rd_queryOptions : DNSQueryOptions;
  rd_fallbackDelay : Z }.

(** The DNS transports: those there are, and the default one or its fallback. *)
Record DNSTransports : Type := { dt_Transports : list string; dt_Default : option string }.

Definition dt_Transport (tag : string) (t : DNSTransports) : bool := bool_decide (tag ∈ dt_Transports t).

Definition NewResolveDialer (parallel : bool) (server : string) (transport : option string) (queryOptions : DNSQueryOptions)
    (fallbackDelay : Z) : resolveDialer :=
  {| rd_parallel := parallel; rd_server := server; rd_initOnce := false; rd_initErr := None; rd_Transport := transport;
     rd_queryOptions := queryOptions; rd_fallbackDelay := fallbackDelay |}.

Definition with_init (initErr : option error) (transport : option string) (d : resolveDialer) : resolveDialer :=
  {| rd_parallel := rd_parallel d; rd_server := rd_server d; rd_initOnce := true; rd_initErr := initErr;
     rd_Transport := transport; rd_queryOptions := rd_queryOptions d; rd_fallbackDelay := rd_fallbackDelay d |}.

Definition initServer (t : DNSTransports) (d : resolveDialer) : resolveDialer :=
  if bool_decide (rd_server d = "") then with_init (rd_initErr d) (rd_Transport d) d
  else if negb (dt_Transport (rd_server d) t) then
    with_init (Some (ErrNew ("domain resolver not found: " +:+ rd_server d))) (rd_Transport d) d
  else with_init (rd_initErr d) (Some (rd_server d)) d.

Definition initialize (t : DNSTransports) (d : resolveDialer) : option error * resolveDialer :=
  let d := if rd_initOnce d then d else initServer t d in
  (rd_initErr d, d).

Section resolve.
(** The lookup of the DNS router, with a transport or the one its rules choose;
    [N.DialParallel], [N.DialSerial] and [N.ListenSerial] of the networking
    library over the dialer below. *)
Context `{External} {C P : Type}
  (Lookup : option string -> DNSQueryOptions -> string -> list Addr + error)
  (dial : Socksaddr -> C + error) (listen : Socksaddr -> P + error)
  (N_DialParallel : Socksaddr -> list Addr -> bool -> Z -> C + error)
  (N_DialSerial : Socksaddr -> list Addr -> C + error)
  (N_ListenSerial : Socksaddr -> list Addr -> P * Addr + error).

(** What a call does with a destination: [fail] for an error before any dial. *)
Definition resolve_with {R} (fail : error -> R) (t : DNSTransports) (d : resolveDialer) (destination : Socksaddr)
    (direct : R) (resolved : resolveDialer -> list Addr -> R) : R * resolveDialer :=
  let '(err, d) := initialize t d in
  match err with
  | Some e => (fail e, d)
  | None =>
      if negb (IsFqdn destination) then (direct, d)
      else
        match Lookup (rd_Transport d) (rd_queryOptions d) (sa_Fqdn destination) with
        | inr e => (fail e, d)
        | inl addresses => (resolved d addresses, d)
        end
  end.

Definition some_err {A} (r : A + error) : A + option error := match r with inl a => inl a | inr e => inr (Some e) end.

Definition prefers_IPv6 (d : resolveDialer) : bool :=
  bool_decide (qo_Strategy (rd_queryOptions d) = DomainStrategyPreferIPv6).

Definition resolveDialer_DialContext (t : DNSTransports) (d : resolveDialer) (destination : Socksaddr)
    : (C + option error) * resolveDialer :=
  resolve_with (fun e => inr (Some e)) t d destination (some_err (dial destination)) (fun d addresses =>
    some_err (if rd_parallel d then N_DialParallel destination addresses (prefers_IPv6 d) (rd_fallbackDelay d)
              else N_DialSerial destination addresses)).

(** A packet connection with the address translation between the address it
    listens for and the destination. *)
Definition nat_conn (conn : P * Addr) (destination : Socksaddr) : P * option (Socksaddr * Socksaddr) :=
  (fst conn, Some (SocksaddrFrom (snd conn) (sa_Port destination), destination)).
Definition no_nat (conn : P) : P * option (Socksaddr * Socksaddr) := (conn, None).

Definition map_conn {A B} (f : A -> B) (r : A + option error) : B + option error :=
  match r with inl a => inl (f a) | inr e => inr e end.

Definition resolveDialer_ListenPacket (t : DNSTransports) (d : resolveDialer) (destination : Socksaddr)
    : (P * option (Socksaddr * Socksaddr) + option error) * resolveDialer :=
  resolve_with (fun e => inr (Some e)) t d destination (map_conn no_nat (some_err (listen destination))) (fun d addresses =>
    map_conn (fun conn => nat_conn conn destination) (some_err (N_ListenSerial destination addresses))).

(** *** Over a dialer that dials interfaces in parallel *)
Context (dial_interfaces : option NetworkStrategy -> list InterfaceType -> list InterfaceType -> Z -> Socksaddr -> C + error)
  (listen_interfaces : option NetworkStrategy -> list InterfaceType -> list InterfaceType -> Z -> Socksaddr -> P + error)
  (DefaultFallbackDelay : Z).

(** Both may run a race of [DialParallelNetwork]: its events, and none while it
    goes on. *)
Definition network_outcome (r : res (C + option error + option (race (list Addr) C))) : option (res (C + option error)) :=
  match r with
  | Ok (inl r) => Some (Ok r)
  | Ok (inr (Some ra)) =>
      match ra_returned ra with
      | Some (inl (conn, _)) => Some (Ok (inl conn))
      | Some (inr e) => Some (Ok (inr e))
      | None => None
      end
  | Ok (inr None) => None
  | Err e => Some (Err e)
  | Panic msg => Some (Panic msg)
  end.

Definition ok_err {A} (e : error) : option (res (A + option error)) := Some (Ok (inr (Some e))).

Definition resolveParallelNetworkDialer_DialParallelInterface (t : DNSTransports) (d : resolveDialer) (destination : Socksaddr)
    (strategy : option NetworkStrategy) (interfaceType fallbackInterfaceType : list InterfaceType) (fallbackDelay now : Z)
    (tr : list (race_event C)) : option (res (C + option error)) * resolveDialer :=
  resolve_with ok_err t d destination (Some (Ok (some_err (dial destination)))) (fun d addresses =>
    let fallbackDelay := delay_or fallbackDelay (rd_fallbackDelay d) in
    let dialer := ParallelInterfaceDialer (dial_interfaces strategy interfaceType fallbackInterfaceType fallbackDelay) in
    if rd_parallel d then
      network_outcome (DialParallelNetwork dialer destination addresses (prefers_IPv6 d) DefaultFallbackDelay fallbackDelay now tr)
    else Some (DialSerialNetwork dialer destination addresses)).

Definition resolveParallelNetworkDialer_ListenSerialInterfacePacket (t : DNSTransports) (d : resolveDialer)
    (destination : Socksaddr) (strategy : option NetworkStrategy) (interfaceType fallbackInterfaceType : list InterfaceType)
    (fallbackDelay : Z) : option (res (P * option (Socksaddr * Socksaddr) + option error)) * resolveDialer :=
  resolve_with ok_err t d destination (Some (Ok (map_conn no_nat (some_err (listen destination))))) (fun d addresses =>
    let fallbackDelay := delay_or fallbackDelay (rd_fallbackDelay d) in
    Some (let* r := ListenSerialNetworkPacket
                      (SerialListener (listen_interfaces strategy interfaceType fallbackInterfaceType fallbackDelay))
                      destination addresses in
          Ok (map_conn (fun conn => nat_conn conn destination) r))).
End resolve.

(** ** [NewWithOptions] *)

Record Options : Type := {
  op_Options : DialerOptions;
  op_RemoteIsDomain : bool;
  op_DirectResolver : bool;
  op_ResolverOnDetour : bool;
  op_NewDialer : bool;
  op_LegacyDNSDialer : bool }.

(** The dialer below, and the resolving one over it; whether that is the one
    for interfaces depends on the dialer below. *)
Inductive BaseDialer (O : Type) : Type :=
  | Base_Detour (d : DetourDialer O)
  | Base_Default (d : DefaultDialer).
Arguments Base_Detour {O}.
Arguments Base_Default {O}.

Inductive NewDialer (O : Type) : Type :=
  | Plain (base : BaseDialer O)
  | Resolving (resolver : resolveDialer) (base : BaseDialer O).
Arguments Plain {O}.
Arguments Resolving {O}.

Definition OptionLegacyDomainStrategyOptions : string := "legacy-domain-strategy-options".
Definition OptionMissingDomainResolver : string := "missing-domain-resolver".

(** A resolver with its transport, and the deprecated features that are reported. *)
Definition resolver_choice : Type := string * option string * DNSQueryOptions * Z * list string.

Definition with_qo_Strategy (v : DomainStrategy) (o : DNSQueryOptions) : DNSQueryOptions :=
  {| qo_Strategy := v; qo_LookupStrategy := qo_LookupStrategy o; qo_DisableCache := qo_DisableCache o;
     qo_RewriteTTL := qo_RewriteTTL o; qo_ClientSubnet := qo_ClientSubnet o;
     qo_ClientSubnetFromInbound := qo_ClientSubnetFromInbound o |}.

(** The options name a server. *)
Definition own_resolver (o : Options) (r : DomainResolveOptions) (t : DNSTransports) : resolver_choice + error :=
  if negb (op_DirectResolver o) && negb (dt_Transport (drs_Server r) t) then
    inr (ErrNew ("domain resolver not found: " +:+ drs_Server r))
  else
    let '(strategy, deprecated) :=
      if bool_decide (drs_Strategy r <> DomainStrategyAsIS) then (drs_Strategy r, [])
      else if bool_decide (do_DomainStrategy (op_Options o) <> DomainStrategyAsIS) then
        (do_DomainStrategy (op_Options o), [OptionLegacyDomainStrategyOptions])
      else (DomainStrategyAsIS, []) in
    inl (drs_Server r, if op_DirectResolver o then None else Some (drs_Server r),
         {| qo_Strategy := strategy; qo_LookupStrategy := DomainStrategyAsIS; qo_DisableCache := drs_DisableCache r;
            qo_RewriteTTL := drs_RewriteTTL r; qo_ClientSubnet := drs_ClientSubnet r; qo_ClientSubnetFromInbound := None |},
         do_FallbackDelay (op_Options o), deprecated).

(** They do not: the default resolver, the only transport, or the rules. *)
Definition default_resolver (o : Options) (defaults : NetworkOptions) (t : DNSTransports) : resolver_choice + error :=
  let legacy (r : option string * DNSQueryOptions * Z * list string) : resolver_choice + error :=
    let '(transport, query, delay, deprecated) := r in
    inl (if bool_decide (do_DomainStrategy (op_Options o) <> DomainStrategyAsIS) then
           ("", transport, with_qo_Strategy (do_DomainStrategy (op_Options o)) query, delay,
            deprecated ++ [OptionLegacyDomainStrategyOptions])
         else ("", transport, query, delay, deprecated)) in
  if bool_decide (no_DomainResolver defaults <> "") then
    if negb (dt_Transport (no_DomainResolver defaults) t) then
      inr (ErrNew ("default domain resolver not found: " +:+ no_DomainResolver defaults))
    else legacy (Some (no_DomainResolver defaults), no_DomainResolveOptions defaults, do_FallbackDelay (op_Options o), [])
  else if (length (dt_Transports t) <? 2)%nat then legacy (dt_Default t, no_query_options, 0, [])
  else if op_NewDialer o then inr (ErrNew "missing domain resolver for domain server address")
  else legacy (None, no_query_options, 0, [OptionMissingDomainResolver]).

Definition no_network_options : NetworkOptions :=
  {| no_BindInterface := ""; no_RoutingMark := 0; no_DomainResolver := ""; no_DomainResolveOptions := no_query_options;
     no_NetworkStrategy := None; no_NetworkType := []; no_FallbackNetworkType := []; no_FallbackDelay := 0 |}.

Definition named_resolver (o : Options) : option DomainResolveOptions :=
  match do_DomainResolver (op_Options o) with
  | Some r => if bool_decide (drs_Server r <> "") then Some r else None
  | None => None
  end.

Definition choose_resolver (o : Options) (nm : option NetworkManager) (t : DNSTransports) : resolver_choice + error :=
  match named_resolver o with
  | Some r => own_resolver o r t
  | None =>
      if op_DirectResolver o then inr (ErrNew "missing domain resolver for domain server address")
      else default_resolver o match nm with Some nm => nm_DefaultOptions nm | None => no_network_options end t
  end.

(** The dialer with the deprecated features reported on the way. *)
Definition NewWithOptions {O} (platform : Platform) (hasOutboundManager : bool) (nm : option NetworkManager)
    (hasPlatformInterface : bool) (t : DNSTransports) (o : Options) : NewDialer O * list string + error :=
  let dialOptions := op_Options o in
  let base :=
    if bool_decide (do_Detour dialOptions <> "") then
      if negb hasOutboundManager then inr (ErrNew "missing outbound manager")
      else inl (Base_Detour (NewDetour (do_Detour dialOptions) (op_LegacyDNSDialer o)))
    else
      match NewDefault platform nm hasPlatformInterface dialOptions with
      | inl d => inl (Base_Default d)
      | inr e => inr e
      end in
  match base with
  | inr e => inr e
  | inl base =>
      if op_RemoteIsDomain o &&
         (bool_decide (do_Detour dialOptions = "") || op_ResolverOnDetour o || is_some (named_resolver o)) then
        match choose_resolver o nm t with
        | inr e => inr e
        | inl (server, transport, query, delay, deprecated) =>
            inl (Resolving (NewResolveDialer (bool_decide (do_Detour dialOptions = "") && negb (do_TCPFastOpen dialOptions))
                              server transport query delay) base, deprecated)
        end
      else inl (Plain base, [])
  end.

(** [New] *)
Definition New {O} (platform : Platform) (hasOutboundManager : bool) (nm : option NetworkManager) (hasPlatformInterface : bool)
    (t : DNSTransports) (options : DialerOptions) (remoteIsDomain : bool) : NewDialer O * list string + error :=
  NewWithOptions platform hasOutboundManager nm hasPlatformInterface t
    {| op_Options := options; op_RemoteIsDomain := remoteIsDomain; op_DirectResolver := false; op_ResolverOnDetour := false;
       op_NewDialer := false; op_LegacyDNSDialer := false |}.

(** ** What the composition promises *)

(** A detour is decided by its first use. *)
Lemma detour_fixed {O} (Outbound_IsEmpty : O -> bool) Outbound Outbound' (d : DetourDialer O) :
  let '(r, d') := DetourDialer_Dialer Outbound_IsEmpty Outbound d in
  DetourDialer_Dialer Outbound_IsEmpty Outbound' d' = (r, d').
Proof. done. Qed.

(** So is the server of a resolving dialer. *)
Lemma initialize_fixed t t' d :
  let '(err, d') := initialize t d in initialize t' d' = (err, d').
Proof.
  unfold initialize. destruct (rd_initOnce d) eqn:Ho; [by rewrite Ho|]. unfold initServer.
  destruct (bool_decide _); [done|]. by destruct (negb _).
Qed.

(** The resolver a new-style dialer gets when its options name none. *)
Lemma default_resolver_transport o defaults t server transport query delay deprecated :
  default_resolver o defaults t = inl (server, transport, query, delay, deprecated) -> op_NewDialer o = true ->
  server = "" /\
  if bool_decide (no_DomainResolver defaults <> "") then transport = Some (no_DomainResolver defaults)
  else (length (dt_Transports t) < 2)%nat /\ transport = dt_Default t.
Proof.
  unfold default_resolver. intros Hr Hnew. rewrite Hnew in Hr.
  destruct (bool_decide (no_DomainResolver defaults <> "")); [destruct (negb _)|destruct (Nat.ltb_spec (length (dt_Transports t)) 2)];
    try done; destruct (bool_decide _); by simplify_eq.
Qed.

Lemma NewWithOptions_resolving {O} platform hasOut nm hasPlatform t o (resolver : resolveDialer) (base : BaseDialer O) deprecated :
  NewWithOptions platform hasOut nm hasPlatform t o = inl (Resolving resolver base, deprecated) ->
  exists server transport query delay, choose_resolver o nm t = inl (server, transport, query, delay, deprecated) /\
    rd_server resolver = server /\ rd_Transport resolver = transport /\ rd_initOnce resolver = false /\
    rd_initErr resolver = None /\ rd_queryOptions resolver = query.
Proof.
  unfold NewWithOptions. destruct (if bool_decide _ then _ else _) as [b|e]; [|done].
  destruct (op_RemoteIsDomain o && _); [|done].
  destruct (choose_resolver o nm t) as [[[[[server transport] query] delay] dep]|e]; [|done].
  intros [= <- _ <-]. simpl. by eexists _, _, _, _.
Qed.

Lemma named_resolver_named o r : named_resolver o = Some r -> drs_Server r <> "".
Proof.
  unfold named_resolver. destruct (do_DomainResolver _) as [r'|]; [|done].
  destruct (bool_decide_reflect (drs_Server r' <> "")); by intros [= <-].
Qed.

Lemma own_resolver_server o r t server transport query delay deprecated :
  own_resolver o r t = inl (server, transport, query, delay, deprecated) -> server = drs_Server r.
Proof. unfold own_resolver. destruct (negb _ && _); [done|]. repeat case_bool_decide; by intros [= <-]. Qed.

(** ** Properties *)

(** The dialer resolves domains itself: its detour, if any, does not. *)
Definition resolves_itself (o : Options) : bool :=
  bool_decide (do_Detour (op_Options o) = "") || op_ResolverOnDetour o || is_some (named_resolver o).

(** The resolver of the network manager's options. *)
Definition default_server (nm : option NetworkManager) : string :=
  no_DomainResolver match nm with Some nm => nm_DefaultOptions nm | None => no_network_options end.

(** C19 (a domain server is resolved by a known transport): a new-style dialer
    for a domain that [NewWithOptions] accepts is a detour, which resolves for it,
    or a resolving dialer.  The first use of that one, with whatever transports
    there are by then, asks the server its options name, and fails when there is no
    such server; without one it asks the default resolver, and without that, which
    is accepted only while fewer than two transports exist, the default transport
    at the time of construction.  Only if there was none then is the domain left to
    the DNS rules. *)
Theorem new_dialer_has_resolver {O} platform hasOut nm hasPlatform t o (d : NewDialer O) deprecated :
  NewWithOptions platform hasOut nm hasPlatform t o = inl (d, deprecated) ->
  op_RemoteIsDomain o = true -> op_NewDialer o = true ->
  if resolves_itself o then
    exists resolver base, d = Resolving resolver base /\
    (do_Detour (op_Options o) = "" ->
     exists socket, NewDefault platform nm hasPlatform (op_Options o) = inl socket /\ base = Base_Default socket) /\
    forall t',
      let '(err, resolver) := initialize t' resolver in
      match named_resolver o with
      | Some r =>
          if dt_Transport (drs_Server r) t' then err = None /\ rd_Transport resolver = Some (drs_Server r) else is_Some err
      | None =>
          err = None /\
          if bool_decide (default_server nm <> "") then rd_Transport resolver = Some (default_server nm)
          else (length (dt_Transports t) < 2)%nat /\ rd_Transport resolver = dt_Default t
      end
  else d = Plain (Base_Detour (NewDetour (do_Detour (op_Options o)) (op_LegacyDNSDialer o))).
Proof.
  intros Hnew Hdom Hnd. unfold NewWithOptions in Hnew. rewrite Hdom in Hnew.
  destruct (if bool_decide _ then _ else _) as [base|e] eqn:Hbase; [|done]. fold (resolves_itself o) in Hnew. simpl in Hnew.
  destruct (resolves_itself o) eqn:Hres.
  - destruct (choose_resolver o nm t) as [[[[[server transport] query] delay] dep]|e] eqn:Hc; [|done]. simplify_eq.
    eexists _, _. split_and!; [done| |].
    { intros Hd. rewrite bool_decide_false in Hbase by tauto. destruct (NewDefault _ _ _ _); by simplify_eq; eauto. }
    intros t'. unfold initialize, initServer. simpl. clear Hbase.
    unfold choose_resolver in Hc. destruct (named_resolver o) as [r|] eqn:Hn.
    + apply own_resolver_server in Hc as ->. rewrite bool_decide_false by by eapply named_resolver_named.
      destruct (dt_Transport (drs_Server r) t'); simpl; [done|by eexists].
    + destruct (op_DirectResolver o); [done|]. apply default_resolver_transport in Hc as [-> Ht]; [|done].
      unfold default_server. by destruct (bool_decide _).
  - simplify_eq. unfold resolves_itself in Hres. apply orb_false_iff in Hres as [[Hd _]%orb_false_iff _].
    apply bool_decide_eq_false in Hd. rewrite bool_decide_true in Hbase by done. by destruct (negb hasOut); simplify_eq.
Qed.

(** A resolving dialer dials the addresses of the domain, in order: for a
    domain it looks up, the dialer below is called with addresses only; the first
    that can be dialled is the connection, an error is the lookup's or that of all
    addresses; every other destination goes to the dialer below as it is. *)
Theorem resolving_dialer_spec `{External} {C} Lookup (dial : Socksaddr -> C + error) dial_interfaces default t d destination
    strategy ifs fbs delay now tr :
  fst (initialize t d) = None -> rd_parallel d = false ->
  let d' := snd (initialize t d) in
  let '(r, d'') := resolveParallelNetworkDialer_DialParallelInterface Lookup dial dial_interfaces default t d destination strategy
    ifs fbs delay now tr in
  d'' = d' /\
  if IsFqdn destination then
    match Lookup (rd_Transport d') (rd_queryOptions d') (sa_Fqdn destination) with
    | inr e => r = Some (Ok (inr (Some e)))
    | inl [] => r = if IsIP destination
                    then Some (Ok (serial (dial_interfaces strategy ifs fbs (delay_or delay (rd_fallbackDelay d')))
                                     [SocksaddrFrom (sa_Addr destination) (sa_Port destination)] []))
                    else Some (Panic "invalid usage")
    | inl addresses =>
        let dial_one address := dial_interfaces strategy ifs fbs (delay_or delay (rd_fallbackDelay d'))
                                  (SocksaddrFrom address (sa_Port destination)) in
        (exists before address after es conn, addresses = before ++ address :: after /\ map dial_one before = map inr es /\
           dial_one address = inl conn /\ r = Some (Ok (inl conn))) \/
        (exists es, map dial_one addresses = map inr es /\ r = Some (Ok (inr (E_Errors es))))
    end
  else r = Some (Ok (some_err (dial destination))).
Proof.
  intros Hinit Hpar. unfold resolveParallelNetworkDialer_DialParallelInterface, resolve_with.
  destruct (initialize t d) as [err d'] eqn:Hi. simpl in *. subst err.
  assert (rd_parallel d' = false) as Hpar'.
  { unfold initialize, initServer in Hi. destruct (rd_initOnce d); [by simplify_eq|].
    destruct (bool_decide _); [by simplify_eq|]. by destruct (negb _); simplify_eq. }
  destruct (IsFqdn destination); simpl; [|done].
  destruct (Lookup _ _ _) as [addresses|e]; [|done]. rewrite Hpar'. unfold DialSerialNetwork, dial_addresses.
  destruct addresses as [|address addresses].
  { split; [done|]. simpl. by destruct (IsIP destination). }
  split; [done|]. rewrite bool_decide_false by done. cbn [res_bind].
  match goal with |- context [serial ?f ?l []] => pose proof (serial_spec f l []) as Hs; destruct (serial f l []) end.
  - left. destruct Hs as (before & a & after & es & ? & ? & ?). by exists before, a, after, es, c.
  - right. destruct Hs as (es & ? & ->). by exists es.
Qed.

(** ** Runs *)
#[local] Existing Instance concrete_external.

Definition resolver_options (resolver : option DomainResolveOptions) : Options :=
  {| op_Options :=
       {| do_Detour := ""; do_BindInterface := ""; do_Inet4BindAddress := None; do_Inet6BindAddress := None; do_ProtectPath := "";
          do_RoutingMark := 0; do_ReuseAddr := false; do_NetNs := ""; do_ConnectTimeout := 0; do_TCPFastOpen := true;
          do_TCPMultiPath := false; do_UDPFragment := None; do_UDPFragmentDefault := false; do_DomainResolver := resolver;
          do_NetworkStrategy := None; do_NetworkType := []; do_FallbackNetworkType := None; do_FallbackDelay := 0;
          do_DomainStrategy := DomainStrategyAsIS |};
     op_RemoteIsDomain := true; op_DirectResolver := false; op_ResolverOnDetour := false; op_NewDialer := true;
     op_LegacyDNSDialer := false |}.

Definition two_transports : DNSTransports := {| dt_Transports := ["local"; "remote"]; dt_Default := Some "remote" |}.

Definition local_resolver : DomainResolveOptions :=
  {| drs_Server := "local"; drs_Strategy := DomainStrategyAsIS; drs_DisableCache := false; drs_RewriteTTL := None;
     drs_ClientSubnet := PrefixInvalid |}.

Lemma new_dialer_has_resolver_witness :
  (NewWithOptions (O := string) linux true None false two_transports (resolver_options None) =
     inr (ErrNew "missing domain resolver for domain server address")) /\
  exists d deprecated, NewWithOptions (O := string) linux true None false two_transports (resolver_options (Some local_resolver)) =
      inl (d, deprecated) /\
    exists resolver base, d = Resolving resolver base /\
      ("" = "" -> exists socket, NewDefault linux None false (op_Options (resolver_options (Some local_resolver))) = inl socket /\
                                 base = Base_Default socket) /\
      forall t', let '(err, resolver) := initialize t' resolver in
        if dt_Transport "local" t' then err = None /\ rd_Transport resolver = Some "local" else is_Some err.
Proof.
  split; [reflexivity|]. eexists _, _. split; [reflexivity|].
  exact (new_dialer_has_resolver linux true None false two_transports (resolver_options (Some local_resolver)) _ _
           eq_refl eq_refl eq_refl).
Defined.

(** Before there is any transport, as for an endpoint of a configuration without
    DNS servers, no resolver is needed and none is kept: the domain goes to the DNS
    rules, while with two transports the same options are refused. *)
Example accepted_without_transports :
  match NewWithOptions (O := string) linux true None false {| dt_Transports := []; dt_Default := None |} (resolver_options None) with
  | inl (Resolving resolver _, _) => rd_Transport (snd (initialize two_transports resolver))
  | _ => Some ""
  end = None.
Proof. reflexivity. Qed.

(** The first address of the domain refuses, the second is the connection. *)
Definition dial_second (strategy : option NetworkStrategy) (ifs fbs : list InterfaceType) (delay : Z) (a : Socksaddr) : string + error :=
  if bool_decide (sa_Addr a = Addr4 2) then inl "second" else inr (ErrNew "refused").

Definition some_domain : Socksaddr := {| sa_Addr := AddrInvalid; sa_Port := 443; sa_Fqdn := "example.org" |}.

Definition some_resolver : resolveDialer := NewResolveDialer false "local" None no_query_options 0.

Lemma resolving_dialer_spec_witness :
  exists r d, resolveParallelNetworkDialer_DialParallelInterface (C := string) (fun _ _ _ => inl [Addr4 1; Addr4 2])
      (fun _ => inl "direct") dial_second 300 two_transports some_resolver some_domain None [] [] 0 0 [] =
      (r, d) /\ r = Some (Ok (inl "second")) /\ d = snd (initialize two_transports some_resolver).
Proof.
  eexists _, _. split; [reflexivity|]. split; [reflexivity|].
  exact (proj1 (resolving_dialer_spec (fun _ _ _ => inl [Addr4 1; Addr4 2]) (fun _ => inl "direct") dial_second 300 two_transports
                  some_resolver some_domain None [] [] 0 0 [] eq_refl eq_refl)).
Defined.

(** For an IP address the strategy and the types of the call are dropped. *)
Example strategy_dropped :
  fst (resolveParallelNetworkDialer_DialParallelInterface (C := string) (fun _ _ _ => inl []) (fun _ => inl "dialled without a strategy")
    dial_second 300 two_transports some_resolver (SocksaddrFrom (Addr4 2) 443) (Some NetworkStrategyFallback) [InterfaceTypeWIFI] []
    0 0 []) = Some (Ok (inl "dialled without a strategy")).
Proof. reflexivity. Qed.
