(* ===== verification/Direct.v ===== *)
(** * The direct outbound and inbound

    protocol/direct: traffic goes out as it came, but for an address or a port
    the options replace. *)

From stdpp Require Import base list sets strings.
From Stdlib Require Import ZArith Lia.
From S2P Require Import Prelude GoStd External Adapter RuleAction DnsMsg DnsClient ParallelDial SlowOpen Dialer DialerChain.

Open Scope Z_scope.
Open Scope box_scope.

#[global] Instance DomainResolveOptions_eq_dec : EqDecision DomainResolveOptions.
Proof. solve_decision. Defined.

#[global] Instance DialerOptions_eq_dec : EqDecision DialerOptions.
Proof. solve_decision. Defined.

(** ** Overrides *)

(** [overrideOption]: 0 for none, 1 for address and port, 2 for the address,
    3 for the port; with [overrideDestination]. *)
Definition direct_override `{External} (OverrideAddress : string) (OverridePort : Z) : Z * Socksaddr :=
  if bool_decide (OverrideAddress <> "") && negb (OverridePort =? 0) then (1, ParseSocksaddrHostPort OverrideAddress OverridePort)
  else if bool_decide (OverrideAddress <> "") then (2, ParseSocksaddrHostPort OverrideAddress OverridePort)
  else if negb (OverridePort =? 0) then (3, {| sa_Addr := AddrInvalid; sa_Port := OverridePort; sa_Fqdn := "" |})
  else (0, SocksaddrZero).

Definition with_port (port : Z) (a : Socksaddr) : Socksaddr := {| sa_Addr := sa_Addr a; sa_Port := port; sa_Fqdn := sa_Fqdn a |}.

(** The switch of the outbound. *)
Definition override_outbound (o : Z * Socksaddr) (destination : Socksaddr) : Socksaddr :=
  if fst o =? 1 then snd o
  else if fst o =? 2 then with_port (sa_Port destination) (snd o)
  else if fst o =? 3 then with_port (sa_Port (snd o)) destination
  else destination.

(** That of the inbound: the address alone is written into the destination. *)
Definition override_inbound (o : Z * Socksaddr) (destination : Socksaddr) : Socksaddr :=
  if fst o =? 1 then snd o
  else if fst o =? 2 then {| sa_Addr := sa_Addr (snd o); sa_Port := sa_Port destination; sa_Fqdn := sa_Fqdn destination |}
  else if fst o =? 3 then with_port (sa_Port (snd o)) destination
  else destination.

(** ** The outbound *)

Record DirectOutboundOptions : Type := {
  dio_DialerOptions : DialerOptions; dio_OverrideAddress : string; dio_OverridePort : Z; dio_ProxyProtocol : Z }.

Record DirectOutbound : Type := {
  dob_override : Z * Socksaddr; dob_fallbackDelay : Z; dob_isEmpty : bool; dob_dialer : NewDialer string }.

(** Options with the fragmentation default a direct outbound sets. *)
Definition direct_dialer_options (o : DialerOptions) : DialerOptions :=
  {| do_Detour := do_Detour o; do_BindInterface := do_BindInterface o; do_Inet4BindAddress := do_Inet4BindAddress o;
     do_Inet6BindAddress := do_Inet6BindAddress o; do_ProtectPath := do_ProtectPath o; do_RoutingMark := do_RoutingMark o;
     do_ReuseAddr := do_ReuseAddr o; do_NetNs := do_NetNs o; do_ConnectTimeout := do_ConnectTimeout o;
     do_TCPFastOpen := do_TCPFastOpen o; do_TCPMultiPath := do_TCPMultiPath o; do_UDPFragment := do_UDPFragment o;
     do_UDPFragmentDefault := true; do_DomainResolver := do_DomainResolver o; do_NetworkStrategy := do_NetworkStrategy o;
     do_NetworkType := do_NetworkType o; do_FallbackNetworkType := do_FallbackNetworkType o;
     do_FallbackDelay := do_FallbackDelay o; do_DomainStrategy := do_DomainStrategy o |}.

Definition empty_dialer_options : DialerOptions :=
  {| do_Detour := ""; do_BindInterface := ""; do_Inet4BindAddress := None; do_Inet6BindAddress := None; do_ProtectPath := "";
     do_RoutingMark := 0; do_ReuseAddr := false; do_NetNs := ""; do_ConnectTimeout := 0; do_TCPFastOpen := false;
     do_TCPMultiPath := false; do_UDPFragment := None; do_UDPFragmentDefault := true; do_DomainResolver := None;
     do_NetworkStrategy := None; do_NetworkType := []; do_FallbackNetworkType := None; do_FallbackDelay := 0;
     do_DomainStrategy := DomainStrategyAsIS |}.

Definition NewOutbound `{External} (platform : Platform) (hasOutboundManager : bool) (nm : option NetworkManager)
    (hasPlatformInterface : bool) (t : DNSTransports) (options : DirectOutboundOptions) : DirectOutbound + error :=
  let dialOptions := direct_dialer_options (dio_DialerOptions options) in
  if bool_decide (do_Detour dialOptions <> "") then inr (ErrNew "`detour` is not supported in direct context")
  else
    match New platform hasOutboundManager nm hasPlatformInterface t dialOptions true with
    | inr e => inr e
    | inl (dialer, _) =>
        if negb (dio_ProxyProtocol options =? 0) then inr (ErrNew "Proxy Protocol is deprecated and removed in sing-box 1.6.0")
        else
          inl {| dob_override := direct_override (dio_OverrideAddress options) (dio_OverridePort options);
                 dob_fallbackDelay := do_FallbackDelay dialOptions;
                 dob_isEmpty := bool_decide (dialOptions = empty_dialer_options) && bool_decide (dio_OverrideAddress options = "") &&
                                (dio_OverridePort options =? 0);
                 dob_dialer := dialer |}
    end.

(** What a call of the outbound asks of its dialer. *)
Inductive DirectRequest : Type :=
  | RequestDial (destination : Socksaddr)
  (** [dialer.DialParallelNetwork] over it *)
  | RequestParallel (destination : Socksaddr) (addresses : list Addr) (preferIPv6 : bool) (strategy : option NetworkStrategy)
      (interfaceType fallbackInterfaceType : list InterfaceType) (fallbackDelay : Z)
  (** a packet connection, with the translation of the new destination to the old *)
  | RequestListen (destination : Socksaddr) (nat : option (Socksaddr * Socksaddr))
  | RequestListenSerial (destination : Socksaddr) (addresses : list Addr) (strategy : option NetworkStrategy)
      (interfaceType fallbackInterfaceType : list InterfaceType) (fallbackDelay : Z).

Definition first_is6 (addresses : list Addr) : bool := match addresses with a :: _ => Addr_Is6 a | [] => false end.

Definition Direct_DialContext (o : Z * Socksaddr) (destination : Socksaddr) : DirectRequest :=
  RequestDial (override_outbound o destination).

Definition Direct_ListenPacket (o : Z * Socksaddr) (originDestination : Socksaddr) : DirectRequest :=
  let destination := override_outbound o originDestination in
  RequestListen destination (if bool_decide (originDestination = destination) then None else Some (destination, originDestination)).

Definition Direct_DialParallelNetwork (o : Z * Socksaddr) (destination : Socksaddr) (addresses : list Addr)
    (strategy : option NetworkStrategy) (interfaceType fallbackInterfaceType : list InterfaceType) (fallbackDelay : Z)
    : DirectRequest :=
  if (fst o =? 1) || (fst o =? 2) then Direct_DialContext o destination
  else RequestParallel (override_outbound o destination) addresses (first_is6 addresses) strategy interfaceType
         fallbackInterfaceType fallbackDelay.

(** [DialParallel]: the dialer's strategy and the outbound's delay. *)
Definition Direct_DialParallel (d : DirectOutbound) (destination : Socksaddr) (addresses : list Addr) : DirectRequest :=
  Direct_DialParallelNetwork (dob_override d) destination addresses None [] [] (dob_fallbackDelay d).

Definition Direct_ListenSerialNetworkPacket (o : Z * Socksaddr) (destination : Socksaddr) (addresses : list Addr)
    (strategy : option NetworkStrategy) (interfaceType fallbackInterfaceType : list InterfaceType) (fallbackDelay : Z)
    : DirectRequest :=
  RequestListenSerial (override_outbound o destination) addresses strategy interfaceType fallbackInterfaceType fallbackDelay.

(** ** The inbound *)

(** The metadata of a connection that came to the destination. *)
Definition Inbound_NewConnectionEx (tag : string) (o : Z * Socksaddr) (m : InboundContext) : InboundContext :=
  with_Destination (override_inbound o (OriginDestination m)) (with_Inbound tag m).

(** A packet connection: to the listener's own address, overridden; translated
    when there is an override. *)
Definition Inbound_NewPacketConnectionEx (tag : string) (o : Z * Socksaddr) (UDPAddr : Socksaddr)
    : InboundContext * option (Socksaddr * Socksaddr) :=
  let destination := override_inbound o UDPAddr in
  (with_Destination destination (with_Inbound tag InboundContextZero),
   if fst o =? 0 then None else Some (UDPAddr, destination)).

(** ** Theorems *)

(** The addresses a request lets the dialer dial: the given ones, or the
    destination's own. *)
Definition request_targets (r : DirectRequest) : list Socksaddr :=
  match r with
  | RequestDial destination | RequestListen destination _ => [destination]
  | RequestParallel destination [] _ _ _ _ _ | RequestListenSerial destination [] _ _ _ _ => [destination]
  | RequestParallel destination addresses _ _ _ _ _ | RequestListenSerial destination addresses _ _ _ _ =>
      map (fun a => SocksaddrFrom a (sa_Port destination)) addresses
  end.

(** An override that names an address. *)
Lemma override_address `{External} address port :
  address <> "" -> exists k, fst (direct_override address port) = k /\ (k = 1 \/ k = 2) /\
    forall destination, sa_Addr (override_outbound (direct_override address port) destination) =
                          sa_Addr (ParseSocksaddrHostPort address port) /\
                        sa_Fqdn (override_outbound (direct_override address port) destination) =
                          sa_Fqdn (ParseSocksaddrHostPort address port).
Proof.
  intros Hne. unfold direct_override. rewrite !bool_decide_true by done. simpl.
  destruct (negb (port =? 0)); simpl; eexists; (split; [done|]); split; auto.
Qed.

(** A direct outbound with an override address goes nowhere else: whatever
    the destination and its resolved addresses, dials, parallel dials and packet
    connections are asked for the override address only, and packets are
    translated back. *)
Theorem direct_override_respected `{External} address port (d : DirectOutbound) destination addresses strategy ifs fbs delay a :
  address <> "" -> dob_override d = direct_override address port ->
  let o := dob_override d in
  a ∈ request_targets (Direct_DialContext o destination) ++ request_targets (Direct_DialParallel d destination addresses) ++
      request_targets (Direct_DialParallelNetwork o destination addresses strategy ifs fbs delay) ++
      request_targets (Direct_ListenPacket o destination) ->
  sa_Addr a = sa_Addr (ParseSocksaddrHostPort address port) /\ sa_Fqdn a = sa_Fqdn (ParseSocksaddrHostPort address port).
Proof.
  intros Hne Ho o. destruct (override_address _ port Hne) as (k & Hk & Hk12 & Hto). subst o. rewrite Ho.
  unfold Direct_DialParallel. rewrite Ho. unfold Direct_DialParallelNetwork. rewrite Hk.
  assert ((k =? 1) || (k =? 2) = true) as -> by (by destruct Hk12 as [->| ->]).
  unfold Direct_ListenPacket, Direct_DialContext. simpl.
  rewrite !elem_of_cons, elem_of_nil. intros [->|[->|[->|[->|[]]]]]; apply Hto.
Qed.

(** ** Runs *)
#[local] Existing Instance concrete_external.

Definition direct_to (address : string) (port : Z) : DirectOutbound :=
  {| dob_override := direct_override address port; dob_fallbackDelay := 0; dob_isEmpty := false;
     dob_dialer := Plain (Base_Detour (NewDetour "" false)) |}.

Lemma direct_override_respected_witness :
  sa_Addr (SocksaddrFrom (Addr4 167772161) 443) = sa_Addr (ParseSocksaddrHostPort "10.0.0.1" 0).
Proof.
  exact (proj1 (direct_override_respected "10.0.0.1" 0 (direct_to "10.0.0.1" 0) (SocksaddrFrom (Addr4 1) 443) [Addr4 1; Addr4 2] None
    [] [] 0 (SocksaddrFrom (Addr4 167772161) 443) (fun H => match H with end) eq_refl ltac:(vm_compute; left))).
Defined.

(** [ListenSerialNetworkPacket] is given the addresses of the old destination:
    packets go there. *)
Example override_ignored :
  request_targets (Direct_ListenSerialNetworkPacket (direct_override "10.0.0.1" 53) (SocksaddrFrom (Addr4 1) 443) [Addr4 1] None [] [] 0)
  = [SocksaddrFrom (Addr4 1) 53].
Proof. vm_compute. reflexivity. Qed.

(** A domain that overrides the address of an inbound's destination is lost: the
    destination has neither an address nor a domain. *)
Example inbound_domain_lost :
  override_inbound (direct_override "example.org" 0) (SocksaddrFrom (Addr4 1) 443) =
  {| sa_Addr := AddrInvalid; sa_Port := 443; sa_Fqdn := "" |}.
Proof. vm_compute. reflexivity. Qed.
