(* ===== verification/ConnManager.v ===== *)
(** * Connections and their copying

    route/conn.go: how the connection manager opens the remote side of a routed
    connection, how packets are translated between the two sides, and the two
    directions of the copy, which end in any order. *)

From stdpp Require Import base list sets strings relations.
From Stdlib Require Import ZArith Lia.
From S2P Require Import Prelude GoStd External Adapter RuleAction Sniff ParallelDial.

Open Scope Z_scope.
Open Scope box_scope.

(** ** The remote side *)

(** What the dialer of an outbound is besides a dialer. *)
Record DialerKind : Type := {
  dk_ParallelNetworkDialer : bool;
  dk_ParallelInterfaceDialer : bool;
  (** type and tag, when it is an outbound *)
  dk_Outbound : option (string * string) }.

(** What the manager asks: [DialSerialNetwork] with addresses, [N.DialSerial]
    with addresses, or a plain [DialContext]. *)
Inductive DialPlan : Type :=
  | PlanSerialNetwork (addresses : list Addr)
  | PlanSerial (addresses : list Addr)
  | PlanDialContext.

(** [ListenSerialNetworkPacket] with addresses, or a plain [ListenPacket]. *)
Inductive ListenPlan : Type :=
  | PlanListenSerial (addresses : list Addr)
  | PlanListenPacket.

#[global] Instance DialPlan_eq_dec : EqDecision DialPlan.
Proof. solve_decision. Defined.

Definition has_addresses (m : InboundContext) : bool := negb (bool_decide (DestinationAddresses m = [])).

(** Of [NewConnection] *)
Definition tcp_plan `{External} (this : DialerKind) (m : InboundContext) : DialPlan :=
  if has_addresses m then
    if ResolveRouteOnly m then
      if dk_ParallelNetworkDialer this then PlanSerialNetwork (DestinationAddresses m) else PlanDialContext
    else PlanSerialNetwork (DestinationAddresses m)
  else if IsIP (Destination m) then PlanSerialNetwork []
  else PlanDialContext.

(** Of [NewPacketConnection] with a connected socket *)
Definition udp_connect_plan `{External} (this : DialerKind) (m : InboundContext) : DialPlan :=
  if has_addresses m then
    if ResolveRouteOnly m then
      if dk_ParallelNetworkDialer this then PlanSerialNetwork (DestinationAddresses m) else PlanDialContext
    else if dk_ParallelInterfaceDialer this then PlanSerialNetwork (DestinationAddresses m)
    else PlanSerial (DestinationAddresses m)
  else if IsIP (Destination m) then
    if dk_ParallelInterfaceDialer this then PlanSerialNetwork (DestinationAddresses m) else PlanDialContext
  else PlanDialContext.

(** And without *)
Definition udp_listen_plan (this : DialerKind) (m : InboundContext) : ListenPlan :=
  if has_addresses m then
    if ResolveRouteOnly m then
      if dk_ParallelNetworkDialer this then PlanListenSerial (DestinationAddresses m) else PlanListenPacket
    else PlanListenSerial (DestinationAddresses m)
  else PlanListenPacket.

Section remote.
(** Printing of addresses. *)
Context (Addr_String : Addr -> string) (Socksaddr_String : Socksaddr -> string).

Definition remote_string (m : InboundContext) : string :=
  if has_addresses m then "[" +:+ strings_Join (map Addr_String (DestinationAddresses m)) "," +:+ "]"
  else Socksaddr_String (Destination m).

Definition dialer_string (this : DialerKind) : string :=
  match dk_Outbound this with
  | Some (type, tag) => " using outbound/" +:+ type +:+ "[" +:+ tag +:+ "]"
  | None => ""
  end.

(** How the opening ends: the connection was closed with an error that its
    close handler got, it was closed and the handler was not called, or the
    copy begins. *)
Inductive Opened (A : Type) : Type :=
  | OpenFailed (err : error)
  | OpenDropped (err : error)
  | OpenCopy (conn : A).
Arguments OpenFailed {A}.
Arguments OpenDropped {A}.
Arguments OpenCopy {A}.

(** [NewConnection] with what the plan and the report of the success came to;
    the result says whether the remote side is wrapped for TLS fragmentation,
    and how. *)
Definition NewConnection {C} (this : DialerKind) (m : InboundContext) (dialled : C + error) (reported : option error)
    : Opened (C * option (bool * bool * Z)) :=
  match dialled with
  | inr err => OpenFailed (ErrCause err ("open connection to " +:+ remote_string m +:+ dialer_string this))
  | inl remoteConn =>
      match reported with
      | Some err => OpenFailed (ErrCause err "report handshake success")
      | None =>
          OpenCopy (remoteConn,
            if TLSFragment m || TLSRecordFragment m
            then Some (TLSFragment m, TLSRecordFragment m, TLSFragmentFallbackDelay m) else None)
      end
  end.

(** *** Packets *)

(** The translation of addresses: the client's own one is updated, or the remote
    side gets one: in one direction, in both, or of the destination. *)
Inductive Nat_ : Type :=
  | NatNone
  | NatUpdate (destination : Addr)
  | NatUnidirectional (from to : Socksaddr)
  | NatBoth (from to : Socksaddr)
  | NatDestination (from to : Socksaddr).

Definition packet_nat `{External} (isNatConn : bool) (destinationAddress : Addr) (m : InboundContext) : Nat_ :=
  let origin := RouteOriginalDestination m in
  if Addr_IsValid destinationAddress then
    let originDestination := if Socksaddr_IsValid origin then origin else Destination m in
    if isNatConn then NatUpdate destinationAddress
    else
      let resolved := SocksaddrFrom destinationAddress (sa_Port (Destination m)) in
      if bool_decide (Destination m <> resolved) then
        if UDPDisableDomainUnmapping m then NatUnidirectional resolved originDestination
        else NatBoth resolved originDestination
      else NatNone
  else if Socksaddr_IsValid origin && bool_decide (origin <> Destination m) then NatDestination (Destination m) origin
  else NatNone.

(** [C.PortProtocols] and [C.ProtocolTimeouts]; the zero values otherwise. *)
Definition PortProtocols (port : Z) : string :=
  if port =? 53 then ProtocolDNS else if port =? 123 then ProtocolNTP else if port =? 3478 then ProtocolSTUN
  else if port =? 443 then ProtocolQUIC else "".

Definition ProtocolTimeouts (protocol : string) : Z :=
  if bool_decide (protocol = ProtocolDNS) || bool_decide (protocol = ProtocolNTP) || bool_decide (protocol = ProtocolSTUN)
  then 10 * Second
  else if bool_decide (protocol = ProtocolQUIC) || bool_decide (protocol = ProtocolDTLS) then 30 * Second
  else 0.

(** The idle timeout of a packet connection; none for zero. *)
Definition udp_timeout (m : InboundContext) : option Z :=
  let udpTimeout :=
    if 0 <? UDPTimeout m then UDPTimeout m
    else
      let protocol := if bool_decide (Protocol m = "") then PortProtocols (sa_Port (Destination m)) else Protocol m in
      if bool_decide (protocol <> "") then ProtocolTimeouts protocol else 0 in
  if 0 <? udpTimeout then Some udpTimeout else None.

(** [NewPacketConnection]: a connected socket comes with the address it is
    connected to, a listening one with the address the listen chose. *)
Definition NewPacketConnection `{External} {P} (this : DialerKind) (isNatConn : bool) (m : InboundContext)
    (opened : P * Addr + error) (reported : option error) : Opened (P * Nat_ * option Z) :=
  match opened with
  | inr err =>
      OpenFailed (ErrCause err (if UDPConnect m then "open packet connection to " +:+ remote_string m +:+ dialer_string this
                                else "listen packet connection using " +:+ dialer_string this))
  | inl (remote, address) =>
      match reported with
      | Some err => OpenDropped (ErrCause err "report handshake success")
      | None =>
          let destinationAddress :=
            if UDPConnect m && bool_decide (address = sa_Addr (Destination m)) then AddrInvalid else address in
          OpenCopy (remote, packet_nat isNatConn destinationAddress m, udp_timeout m)
      end
  end.
End remote.
Arguments OpenFailed {A}.
Arguments OpenDropped {A}.
Arguments OpenCopy {A}.

(** ** The copy *)

Section early.
(** The reading and writing of [connectionCopyEarly]. *)
Context (IsTimeout : error -> bool).

(** [connectionCopyEarly]: the first payload, if it comes in time, goes out with
    the handshake of the destination. *)
Definition connectionCopyEarly (deadline : option error) (read : string * option error) (write : string -> option error)
    : option error :=
  match deadline with
  | Some err => if bool_decide (err = ErrInvalid) then write "" else Some err
  | None =>
      match snd read with
      | Some err =>
          if negb (IsTimeout err || errors_Is err ErrEOF) then Some (ErrCause err "read payload")
          else
            match write (fst read) with Some err => Some (ErrCause err "write payload") | None => None end
      | None => match write (fst read) with Some err => Some (ErrCause err "write payload") | None => None end
      end
  end.
End early.

(** How one direction ends: a cached payload could not be written, the early
    handshake failed, or the copy ended; then the destination is closed for
    writing, if it can be, or closed. *)
Inductive CopyEnd : Type :=
  | CachedFails (err : error)
  | HandshakeFails (err : error)
  | CopyEnds (err : option error) (closeWrite : option (option error)).

(** One routed connection. *)
Record session : Type := {
  se_packet : bool;
  (** the directions that have ended: upload and download *)
  se_ended : bool * bool;
  se_done : bool;
  (** the client's side and the remote side are closed *)
  se_closed : bool * bool;
  (** the calls of the close handler *)
  se_onClose : list (option error) }.

Definition new_session (packet : bool) : session :=
  {| se_packet := packet; se_ended := (false, false); se_done := false; se_closed := (false, false); se_onClose := [] |}.

Definition with_ended (direction : bool) (s : session) : session :=
  {| se_packet := se_packet s;
     se_ended := if direction then (fst (se_ended s), true) else (true, snd (se_ended s));
     se_done := se_done s; se_closed := se_closed s; se_onClose := se_onClose s |}.

Definition close_both (s : session) : session :=
  {| se_packet := se_packet s; se_ended := se_ended s; se_done := se_done s; se_closed := (true, true); se_onClose := se_onClose s |}.

(** The destination of the upload is the remote side, that of the download the
    client's. *)
Definition close_destination (direction : bool) (s : session) : session :=
  {| se_packet := se_packet s; se_ended := se_ended s; se_done := se_done s;
     se_closed := if direction then (true, snd (se_closed s)) else (fst (se_closed s), true);
     se_onClose := se_onClose s |}.

(** [done.Swap(true)], and the call of the handler if it was [was]. *)
Definition swap_done (was : bool) (err : option error) (s : session) : session :=
  {| se_packet := se_packet s; se_ended := se_ended s; se_done := true; se_closed := se_closed s;
     se_onClose := se_onClose s ++ (if Bool.eqb (se_done s) was then [err] else []) |}.

(** [connectionCopy] from its end on. *)
Definition connectionCopy (direction : bool) (e : CopyEnd) (s : session) : session :=
  let s := with_ended direction s in
  match e with
  | CachedFails err | HandshakeFails err => close_both (swap_done true (Some err) s)
  | CopyEnds err closeWrite =>
      let '(err, s) :=
        match err, closeWrite with
        | Some err, _ => (Some err, close_both s)
        | None, Some (Some err) => (Some err, close_both s)
        | None, Some None => (None, s)
        | None, None => (None, close_destination direction s)
        end in
      let second := se_done s in
      let s := swap_done true err s in
      if second then close_both s else s
  end.

(** [packetConnectionCopy] *)
Definition packetConnectionCopy (err : option error) (direction : bool) (s : session) : session :=
  close_both (swap_done false err (with_ended direction s)).

Definition direction_ended (direction : bool) (s : session) : bool :=
  if direction then snd (se_ended s) else fst (se_ended s).

(** *** The manager *)

(** The sessions in the order they began, and the list of the connections. *)
Record ConnectionManager : Type := { cm_sessions : list session; cm_connections : list nat }.

Inductive conn_event : Type :=
  | ConnBegins (packet : bool)
  (** a direction of a session ends *)
  | DirectionEnds (i : nat) (direction : bool) (e : CopyEnd)
  | ManagerCloses.

(** The handler that [AppendClose] adds takes the connection off the list. *)
Definition after_close (i : nat) (before after : session) (l : list nat) : list nat :=
  if (length (se_onClose after) =? length (se_onClose before))%nat then l
  else List.filter (fun j => negb (j =? i)%nat) l.

(** [Close] closes the client's side of every connection on the list. *)
Definition close_client (s : session) : session :=
  {| se_packet := se_packet s; se_ended := se_ended s; se_done := se_done s; se_closed := (true, snd (se_closed s));
     se_onClose := se_onClose s |}.

Definition ConnectionManager_Close (m : ConnectionManager) : ConnectionManager :=
  {| cm_sessions := imap (fun i s => if bool_decide (i ∈ cm_connections m) then close_client s else s) (cm_sessions m);
     cm_connections := [] |}.

Definition copy_end (direction : bool) (e : CopyEnd) (s : session) : session :=
  if se_packet s then
    packetConnectionCopy match e with CachedFails err | HandshakeFails err => Some err | CopyEnds err _ => err end direction s
  else connectionCopy direction e s.

Definition conn_step (ev : conn_event) (m : ConnectionManager) : option ConnectionManager :=
  match ev with
  | ConnBegins packet =>
      Some {| cm_sessions := cm_sessions m ++ [new_session packet];
              cm_connections := cm_connections m ++ [length (cm_sessions m)] |}
  | DirectionEnds i direction e =>
      match cm_sessions m !! i with
      | Some s =>
          if direction_ended direction s then None
          else
            let s' := copy_end direction e s in
            Some {| cm_sessions := <[i := s']> (cm_sessions m); cm_connections := after_close i s s' (cm_connections m) |}
      | None => None
      end
  | ManagerCloses => Some (ConnectionManager_Close m)
  end.

Fixpoint conn_run (tr : list conn_event) (m : ConnectionManager) : option ConnectionManager :=
  match tr with
  | [] => Some m
  | ev :: tr => match conn_step ev m with Some m => conn_run tr m | None => None end
  end.

Definition NewConnectionManager : ConnectionManager := {| cm_sessions := []; cm_connections := [] |}.

(** ** Every session ends once *)

(** When the handler of a session is called: at the first end of a packet
    session, at the second of another. *)
Definition handler_due (s : session) : bool :=
  if se_packet s then fst (se_ended s) || snd (se_ended s) else fst (se_ended s) && snd (se_ended s).

Definition session_ok (s : session) : Prop :=
  se_done s = fst (se_ended s) || snd (se_ended s) /\
  length (se_onClose s) = (if handler_due s then 1 else 0)%nat /\
  (handler_due s = true -> se_closed s = (true, true)).

Lemma copy_end_ok direction e s :
  session_ok s -> direction_ended direction s = false ->
  session_ok (copy_end direction e s) /\ se_packet (copy_end direction e s) = se_packet s.
Proof.
  destruct s as [packet [up down] done [cl rm] calls]. unfold session_ok, handler_due, copy_end, direction_ended. simpl.
  intros (-> & Hlen & Hclosed) Hd.
  destruct packet, direction; simpl in *; subst; simpl in *;
    first [destruct up|destruct down]; simpl in *;
    destruct e as [err|err|[err|] [[err'|]|]]; simpl; rewrite ?length_app, Hlen; simpl; (split; [split_and!|]); done.
Qed.

Lemma handler_due_mono direction e s : handler_due s = true -> handler_due (copy_end direction e s) = true.
Proof.
  destruct s as [packet [up down] done cl calls]. unfold handler_due, copy_end. simpl.
  destruct packet, direction, e as [err|err|[err|] [[err'|]|]]; simpl; try destruct done; simpl;
    intros; repeat match goal with b : bool |- _ => destruct b end; done.
Qed.

(** The connection leaves the list exactly when its handler is called. *)
Lemma after_close_due i j direction e s l :
  session_ok s -> direction_ended direction s = false ->
  (i ∈ l -> handler_due s = false) ->
  j ∈ after_close i s (copy_end direction e s) l <-> j ∈ l /\ (j = i -> handler_due (copy_end direction e s) = false).
Proof.
  intros Hok Hd Hl. destruct (copy_end_ok _ e _ Hok Hd) as [(_ & Hlen' & _) _]. destruct Hok as (_ & Hlen & _).
  unfold after_close. rewrite Hlen, Hlen'. pose proof (handler_due_mono direction e s) as Hmono.
  destruct (handler_due (copy_end direction e s)), (handler_due s) eqn:Hdue; simpl;
    rewrite ?list_elem_of_In, ?filter_In, ?negb_true_iff, ?Nat.eqb_neq; rewrite <-?list_elem_of_In; naive_solver.
Qed.

(** Handlers of connections on the list are still to be called; [exact] says
    that the list has all such connections. *)
Definition manager_ok (exact : bool) (m : ConnectionManager) : Prop :=
  NoDup (cm_connections m) /\
  (forall i, i ∈ cm_connections m -> (i < length (cm_sessions m))%nat) /\
  forall i s, cm_sessions m !! i = Some s ->
    session_ok s /\ (i ∈ cm_connections m -> handler_due s = false) /\
    (exact = true -> handler_due s = false -> i ∈ cm_connections m).

Lemma begin_ok exact packet m :
  manager_ok exact m ->
  manager_ok exact {| cm_sessions := cm_sessions m ++ [new_session packet];
                      cm_connections := cm_connections m ++ [length (cm_sessions m)] |}.
Proof.
  intros (Hnd & Hlt & Hs). unfold manager_ok. simpl. split_and!.
  - apply NoDup_app. split_and!; [done| |apply NoDup_singleton]. intros i Hi%Hlt. rewrite list_elem_of_singleton. lia.
  - intros i [Hi%Hlt| ->%list_elem_of_singleton]%elem_of_app; rewrite length_app; simpl; lia.
  - intros i s. rewrite lookup_app_Some. intros [Hi|[Hge Hi]].
    + destruct (Hs i s Hi) as (Hok & Hin & Hex). pose proof (lookup_lt_Some _ _ _ Hi). split_and!; [done| |].
      * intros [?| ->%list_elem_of_singleton]%elem_of_app; [by apply Hin|lia].
      * intros He Hdue. apply elem_of_app. left. by apply Hex.
    + apply list_lookup_singleton_Some in Hi as [Hi <-].
      assert (handler_due (new_session packet) = false) as Hdue by (by destruct packet).
      split_and!; [by unfold session_ok; rewrite Hdue|done|]. intros _ _. apply elem_of_app. right. apply list_elem_of_singleton. lia.
Qed.

Lemma end_ok exact i direction e s m :
  manager_ok exact m -> cm_sessions m !! i = Some s -> direction_ended direction s = false ->
  manager_ok exact {| cm_sessions := <[i := copy_end direction e s]> (cm_sessions m);
                      cm_connections := after_close i s (copy_end direction e s) (cm_connections m) |}.
Proof.
  intros (Hnd & Hlt & Hs) Hi Hd. destruct (Hs i s Hi) as (Hok & Hin & Hex). unfold manager_ok. simpl. split_and!.
  - unfold after_close. destruct (_ =? _)%nat; [done|]. apply NoDup_ListNoDup, List.NoDup_filter, NoDup_ListNoDup, Hnd.
  - intros j. rewrite after_close_due by done. rewrite length_insert. intros [? _]. by apply Hlt.
  - intros j s'. rewrite after_close_due by done. rewrite list_lookup_insert_Some.
    intros [(<- & <- & _)|[Hne Hj]].
    + split_and!; [by apply copy_end_ok|intros [_ ?]; auto|]. intros He Hdue. split; [|done]. apply Hex; [done|].
      destruct (handler_due s) eqn:E; [|done]. by rewrite handler_due_mono in Hdue.
    + destruct (Hs j s' Hj) as (? & ? & ?). split_and!; [done|intros [? _]; auto|]. intros He Hdue. split; [auto|]. by intros ->.
Qed.

Lemma close_ok exact m : manager_ok exact m -> manager_ok false (ConnectionManager_Close m).
Proof.
  intros (Hnd & Hlt & Hs). unfold manager_ok. simpl. split_and!; [apply NoDup_nil_2|by intros i Hi%elem_of_nil|].
  intros i s. rewrite list_lookup_imap, fmap_Some. intros (s0 & Hi & ->). destruct (Hs i s0 Hi) as ((Hd & Hlen & Hcl) & _ & _).
  split; [|split; [by intros Hin%elem_of_nil|done]]. unfold session_ok, handler_due in *.
  case_bool_decide; simpl; split_and!; try done. intros Hdue. by rewrite (Hcl Hdue).
Qed.

Lemma conn_run_ok exact tr m m' :
  conn_run tr m = Some m' -> manager_ok exact m ->
  manager_ok (exact && negb (existsb (fun ev => match ev with ManagerCloses => true | _ => false end) tr)) m'.
Proof.
  revert exact m; induction tr as [|ev tr IH]; intros exact m Hr Hok; simplify_eq/=; [by rewrite andb_true_r|].
  destruct (conn_step ev m) as [m1|] eqn:Hs; [|done]. destruct ev as [packet|i direction e|]; simplify_eq/=.
  - eapply IH; [done|]. by apply begin_ok.
  - destruct (cm_sessions m !! i) as [s|] eqn:Hi; [|done]. destruct (direction_ended direction s) eqn:Hd; simplify_eq/=.
    eapply IH; [done|]. by apply end_ok.
  - rewrite andb_false_r. eapply (IH false); [done|]. by eapply close_ok.
Qed.

(** ** Properties *)

(** C20 (a connection is closed once, on both sides): however the directions of
    the routed connections end, with errors of any kind, in any order, and with
    the manager closed at any time, the close handler of a connection is called
    at most once: for a stream when both directions have ended and not before,
    for packets when the first has; then both its sides are closed and it is off
    the manager's list, which, until the manager is closed, holds every other. *)
Theorem connection_closed_once tr m i s :
  conn_run tr NewConnectionManager = Some m -> cm_sessions m !! i = Some s ->
  length (se_onClose s) = (if handler_due s then 1 else 0)%nat /\
  (handler_due s = true -> se_closed s = (true, true) /\ i ∉ cm_connections m) /\
  (ManagerCloses ∉ tr -> handler_due s = false -> i ∈ cm_connections m) /\ NoDup (cm_connections m).
Proof.
  intros Hr Hi. apply (conn_run_ok true) in Hr.
  2: { split_and!; [apply NoDup_nil_2|by intros j Hj%elem_of_nil|done]. }
  destruct Hr as (Hnd & _ & Hs). destruct (Hs i s Hi) as ((_ & Hlen & Hcl) & Hin & Hex). split_and!; [done| | |done].
  - intros Hdue. split; [by apply Hcl|]. intros Hc%Hin. congruence.
  - intros Hno. apply Hex. simpl. apply negb_true_iff. apply not_true_is_false. intros (ev & Hev & He)%existsb_exists.
    apply Hno. apply list_elem_of_In. by destruct ev.
Qed.

(** A stream that ends in both directions, a packet connection that ends in one,
    and one that goes on. *)
Definition three_connections : list conn_event :=
  [ConnBegins false; ConnBegins true; ConnBegins false; DirectionEnds 0 true (CopyEnds None (Some None));
   DirectionEnds 1 false (CopyEnds (Some ErrEOF) None); DirectionEnds 0 false (HandshakeFails ErrEOF);
   DirectionEnds 2 false (CopyEnds None None)].

Lemma connection_closed_once_witness :
  exists m s, conn_run three_connections NewConnectionManager = Some m /\ cm_connections m = [2]%nat /\
    cm_sessions m !! 0%nat = Some s /\ se_onClose s = [Some ErrEOF] /\ (handler_due s = true -> se_closed s = (true, true) /\ 0%nat ∉ cm_connections m).
Proof.
  eexists _, _. split; [reflexivity|]. split; [reflexivity|]. split; [reflexivity|]. split; [reflexivity|].
  exact (proj1 (proj2 (connection_closed_once three_connections _ 0%nat _ eq_refl eq_refl))).
Defined.

(** ** The plans *)

(** A plan that ignores the addresses of the metadata is one for a dialer that
    resolves the domain itself. *)
Lemma tcp_plan_addresses `{External} this m :
  has_addresses m = true -> tcp_plan this m <> PlanSerialNetwork (DestinationAddresses m) ->
  ResolveRouteOnly m = true /\ dk_ParallelNetworkDialer this = false /\ tcp_plan this m = PlanDialContext.
Proof. unfold tcp_plan. intros ->. by destruct (ResolveRouteOnly m), (dk_ParallelNetworkDialer this). Qed.

(** A packet connection to an address is listened for without the strategy and
    the types of the metadata; a stream to it is dialled with them. *)
Lemma packet_strategy_dropped `{External} this m :
  DestinationAddresses m = [] -> IsIP (Destination m) = true ->
  udp_listen_plan this m = PlanListenPacket /\ tcp_plan this m = PlanSerialNetwork [].
Proof. intros Ha Hip. unfold udp_listen_plan, tcp_plan, has_addresses. by rewrite Ha, Hip. Qed.

(** Packets from a resolved address come back from the destination the client
    asked for. *)
Lemma packet_nat_origin `{External} isNat address m from to :
  packet_nat isNat address m = NatBoth from to \/ packet_nat isNat address m = NatUnidirectional from to \/
    packet_nat isNat address m = NatDestination from to ->
  to = if Socksaddr_IsValid (RouteOriginalDestination m) then RouteOriginalDestination m else Destination m.
Proof.
  unfold packet_nat. destruct (Addr_IsValid address), isNat, (Socksaddr_IsValid (RouteOriginalDestination m)) eqn:Hv; simpl;
    repeat case_bool_decide; try destruct (UDPDisableDomainUnmapping m); naive_solver.
Qed.
