(* ===== verification/Network.v ===== *)
(** * The network manager

    route/network.go: the options that go together, the monitors there are, the
    list of the interfaces, and what a change of the default interface or of the
    power state does to the connections. *)

From stdpp Require Import base list sets strings relations.
From Stdlib Require Import ZArith Lia.
From S2P Require Import Prelude GoStd External Adapter RuleAction DnsMsg DnsClient ParallelDial SlowOpen Dialer.

Open Scope Z_scope.
Open Scope box_scope.

(** ** Construction *)

Record RouteOptions : Type := {
  ro_AutoDetectInterface : bool;
  ro_OverrideAndroidVPN : bool;
  ro_DefaultInterface : string;
  ro_DefaultMark : Z;
  ro_DefaultDomainResolver : option DomainResolveOptions;
  ro_DefaultNetworkStrategy : option NetworkStrategy;
  ro_DefaultNetworkType : list InterfaceType;
  ro_DefaultFallbackNetworkType : list InterfaceType;
  ro_DefaultFallbackDelay : Z }.

Definition known_platform (p : Platform) : bool := IsLinux p || IsDarwin p || IsWindows p.

(** The checks, in their order. *)
Definition check_route_options (p : Platform) (IsAndroid : bool) (o : RouteOptions) : option error :=
  if ro_AutoDetectInterface o && negb (known_platform p) then
    Some (ErrNew "`auto_detect_interface` is only supported on Linux, Windows and macOS")
  else if ro_OverrideAndroidVPN o && negb IsAndroid then Some (ErrNew "`override_android_vpn` is only supported on Android")
  else if bool_decide (ro_DefaultInterface o <> "") && negb (known_platform p) then
    Some (ErrNew "`default_interface` is only supported on Linux, Windows and macOS")
  else if negb (ro_DefaultMark o =? 0) && negb (IsLinux p) then Some (ErrNew "`default_mark` is only supported on linux")
  else if is_some (ro_DefaultNetworkStrategy o) && bool_decide (ro_DefaultInterface o <> "") then
    Some (ErrNew "`default_network_strategy` is conflict with `default_interface`")
  else if is_some (ro_DefaultNetworkStrategy o) && negb (ro_AutoDetectInterface o) then
    Some (ErrNew "`auto_detect_interface` is required by `default_network_strategy`")
  else None.

Definition default_options (o : RouteOptions) : NetworkOptions :=
  let r := default {| drs_Server := ""; drs_Strategy := DomainStrategyAsIS; drs_DisableCache := false; drs_RewriteTTL := None;
                      drs_ClientSubnet := PrefixInvalid |} (ro_DefaultDomainResolver o) in
  {| no_BindInterface := ro_DefaultInterface o; no_RoutingMark := ro_DefaultMark o; no_DomainResolver := drs_Server r;
     no_DomainResolveOptions :=
       {| qo_Strategy := drs_Strategy r; qo_LookupStrategy := DomainStrategyAsIS; qo_DisableCache := drs_DisableCache r;
          qo_RewriteTTL := drs_RewriteTTL r; qo_ClientSubnet := drs_ClientSubnet r; qo_ClientSubnetFromInbound := None |};
     no_NetworkStrategy := ro_DefaultNetworkStrategy o; no_NetworkType := ro_DefaultNetworkType o;
     no_FallbackNetworkType := ro_DefaultFallbackNetworkType o; no_FallbackDelay := ro_DefaultFallbackDelay o |}.

(** The monitors: that of the platform's interface, or those of the tun library,
    whose construction may fail: with [os.ErrInvalid], or when the interface need
    not be detected, there are none. *)
Definition make_monitors (hasPlatformInterface enforceInterfaceMonitor : bool) (NewNetworkUpdateMonitor NewDefaultInterfaceMonitor : option error)
    : (bool * bool) + error :=
  if negb hasPlatformInterface then
    match NewNetworkUpdateMonitor with
    | Some err =>
        if negb enforceInterfaceMonitor || errors_Is err ErrInvalid then inl (false, false)
        else inr (ErrCause err "create network monitor")
    | None =>
        match NewDefaultInterfaceMonitor with
        | Some _ => inr (ErrNew "auto_detect_interface unsupported on current platform")
        | None => inl (true, true)
        end
    end
  else inl (false, true).

(** ** State *)

(** [adapter.NetworkInterface]: an interface with its flags. *)
Record NetIf : Type := {
  nf_Interface : Interface; nf_Flags : Z; nf_DNSServers : list string; nf_Expensive : bool; nf_Constrained : bool }.

(** [net.FlagUp] *)
Definition nf_Up (it : NetIf) : bool := Z.testbit (nf_Flags it) 0.

(** What the manager does to the rest of the program. *)
Inductive NetEffect : Type :=
  | NetworkPause
  | NetworkWake
  | DevicePause
  | DeviceWake
  (** [conntrack.Close], then [InterfaceUpdated] of every listener *)
  | CloseConnections
  | InterfaceUpdated (name : string).

Record NetManager : Type := {
  nt_options : NetworkOptions;
  nt_autoDetectInterface : bool;
  nt_hasNetworkMonitor : bool;
  nt_hasInterfaceMonitor : bool;
  nt_hasPlatformInterface : bool;
  (** the interfaces of the finder, and those of the manager *)
  nt_finder : list Interface;
  nt_networkInterfaces : list NetIf;
  nt_autoRedirectOutputMark : Z;
  nt_wifiState : string * string;
  nt_started : bool;
  nt_effects : list NetEffect }.

Definition NewNetworkManager (p : Platform) (IsAndroid hasPlatformInterface : bool)
    (NewNetworkUpdateMonitor NewDefaultInterfaceMonitor : option error) (o : RouteOptions) : NetManager + error :=
  match check_route_options p IsAndroid o with
  | Some e => inr e
  | None =>
      match make_monitors hasPlatformInterface (ro_AutoDetectInterface o) NewNetworkUpdateMonitor NewDefaultInterfaceMonitor with
      | inr e => inr e
      | inl (network, interface) =>
          inl {| nt_options := default_options o; nt_autoDetectInterface := ro_AutoDetectInterface o;
                 nt_hasNetworkMonitor := network; nt_hasInterfaceMonitor := interface;
                 nt_hasPlatformInterface := hasPlatformInterface; nt_finder := []; nt_networkInterfaces := [];
                 nt_autoRedirectOutputMark := 0; nt_wifiState := ("", ""); nt_started := false; nt_effects := [] |}
      end
  end.

Definition with_state (finder : list Interface) (interfaces : list NetIf) (mark : Z) (wifi : string * string) (started : bool)
    (effects : list NetEffect) (r : NetManager) : NetManager :=
  {| nt_options := nt_options r; nt_autoDetectInterface := nt_autoDetectInterface r; nt_hasNetworkMonitor := nt_hasNetworkMonitor r;
     nt_hasInterfaceMonitor := nt_hasInterfaceMonitor r; nt_hasPlatformInterface := nt_hasPlatformInterface r;
     nt_finder := finder; nt_networkInterfaces := interfaces; nt_autoRedirectOutputMark := mark; nt_wifiState := wifi;
     nt_started := started; nt_effects := effects |}.

Definition emit (l : list NetEffect) (r : NetManager) : NetManager :=
  with_state (nt_finder r) (nt_networkInterfaces r) (nt_autoRedirectOutputMark r) (nt_wifiState r) (nt_started r) (nt_effects r ++ l) r.

Definition with_finder (finder : list Interface) (r : NetManager) : NetManager :=
  with_state finder (nt_networkInterfaces r) (nt_autoRedirectOutputMark r) (nt_wifiState r) (nt_started r) (nt_effects r) r.

Definition with_interfaces (interfaces : list NetIf) (r : NetManager) : NetManager :=
  with_state (nt_finder r) interfaces (nt_autoRedirectOutputMark r) (nt_wifiState r) (nt_started r) (nt_effects r) r.

(** ** Operations *)

(** [Start]: what it starts; the package manager only logs a failure. *)
Inductive NetStage : Type := StageInitialize | StageStart | StageOther | StagePostStart.

Record NetStarts : Type := {
  ns_networkMonitor : option error; ns_interfaceMonitor : option error; ns_windows : bool;
  ns_NewEventListener : option error; ns_powerListener : option error; ns_android : bool;
  ns_NewPackageManager : option error; ns_packageManager : option error }.

Definition Net_Start (stage : NetStage) (w : NetStarts) (r : NetManager) : option error * NetManager :=
  match stage with
  | StageInitialize =>
      (match (if nt_hasNetworkMonitor r then ns_networkMonitor w else None) with
       | Some err => Some err
       | None => if nt_hasInterfaceMonitor r then ns_interfaceMonitor w else None
       end, r)
  | StageStart =>
      (match (if ns_windows w && negb (is_some (ns_NewEventListener w)) then ns_powerListener w else None) with
       | Some err => Some (ErrCause err "start power listener")
       | None =>
           if ns_android w && negb (nt_hasPlatformInterface r) then
             match ns_NewPackageManager w with Some err => Some (ErrCause err "create package manager") | None => None end
           else None
       end, r)
  | StagePostStart =>
      (None, with_state (nt_finder r) (nt_networkInterfaces r) (nt_autoRedirectOutputMark r) (nt_wifiState r) true (nt_effects r) r)
  | StageOther => (None, r)
  end.

(** An interface the finder knows replaces the platform's, with its flags. *)
Definition known_interface (finder : list (Interface * Z)) (it : NetIf) : NetIf :=
  match List.find (fun known => if_Index (fst known) =? if_Index (nf_Interface it)) finder with
  | Some (iif, flags) =>
      {| nf_Interface := {| if_Index := if_Index iif; if_Name := if_Name iif; if_Type := if_Type (nf_Interface it) |};
         nf_Flags := flags; nf_DNSServers := nf_DNSServers it; nf_Expensive := nf_Expensive it; nf_Constrained := nf_Constrained it |}
  | None => it
  end.

(** [UpdateInterfaces]: [found] is what the finder's own update finds, with the
    flags, [interfaces] what the platform says. *)
Definition UpdateInterfaces (IsDarwin : bool) (found : list (Interface * Z) + error) (interfaces : list NetIf + error) (r : NetManager)
    : option error * NetManager :=
  if negb (nt_hasPlatformInterface r) then
    match found with inr e => (Some e, r) | inl finder => (None, with_finder (map fst finder) r) end
  else
    match interfaces with
    | inr e => (Some e, r)
    | inl interfaces =>
        if IsDarwin then
          match found with
          | inr e => (Some e, r)
          | inl finder =>
              (None, with_interfaces (List.filter nf_Up (map (known_interface finder) interfaces)) (with_finder (map fst finder) r))
          end
        else (None, with_interfaces (List.filter nf_Up interfaces) (with_finder (map nf_Interface interfaces) r))
    end.

(** [DefaultNetworkInterface]; without a monitor the call is one on nil. *)
Definition Net_DefaultNetworkInterface (DefaultInterface : option Interface) (r : NetManager) : res (option NetIf) :=
  if negb (nt_hasInterfaceMonitor r) then Panic "invalid memory address or nil pointer dereference"
  else
    match DefaultInterface with
    | None => Ok None
    | Some iif =>
        Ok (Some (default {| nf_Interface := iif; nf_Flags := 0; nf_DNSServers := []; nf_Expensive := false;
                             nf_Constrained := false |}
                    (List.find (fun it => if_Index (nf_Interface it) =? if_Index iif) (nt_networkInterfaces r))))
    end.

(** The interface a socket to [remote] is bound to by [AutoDetectInterfaceFunc]:
    the one of its network, or the default one; [ErrNoRoute] is the tun
    library's. *)
Definition auto_detect (ErrNoRoute : error) (ByAddr : Addr -> option Interface) (remote : Addr) (DefaultInterface : option Interface)
    : (string * Z) + error :=
  match (if Addr_IsValid remote then ByAddr remote else None) with
  | Some iif => inl (if_Name iif, if_Index iif)
  | None =>
      match DefaultInterface with
      | Some iif => inl (if_Name iif, if_Index iif)
      | None => inr ErrNoRoute
      end
  end.

Definition RegisterAutoRedirectOutputMark (mark : Z) (r : NetManager) : option error * NetManager :=
  if 0 <? nt_autoRedirectOutputMark r then (Some (ErrNew "only one auto-redirect can be configured"), r)
  else (None, with_state (nt_finder r) (nt_networkInterfaces r) mark (nt_wifiState r) (nt_started r) (nt_effects r) r).

Definition AutoRedirectOutputMark_control (RoutingMark : Z -> option error) (r : NetManager) : option error :=
  if nt_autoRedirectOutputMark r =? 0 then None else RoutingMark (nt_autoRedirectOutputMark r).

Definition UpdateWIFIState (ReadWIFIState : string * string) (r : NetManager) : NetManager :=
  if nt_hasPlatformInterface r then
    with_state (nt_finder r) (nt_networkInterfaces r) (nt_autoRedirectOutputMark r) ReadWIFIState (nt_started r) (nt_effects r) r
  else r.

(** The listeners among the endpoints, the inbounds and the outbounds. *)
Record Listeners : Type := { li_endpoints : list string; li_inbounds : list string; li_outbounds : list string }.

Definition ResetNetwork (l : Listeners) (r : NetManager) : NetManager :=
  emit (CloseConnections :: map InterfaceUpdated (li_endpoints l ++ li_inbounds l ++ li_outbounds l)) r.

(** [notifyInterfaceUpdate]; a platform interface the manager does not list yet
    is left for later. *)
Definition notifyInterfaceUpdate (defaultInterface : option Interface) (IsAndroid : bool) (ReadWIFIState : string * string) (l : Listeners)
    (r : NetManager) : NetManager :=
  match defaultInterface with
  | None => emit [NetworkPause] r
  | Some iif =>
      let r := emit [NetworkWake] r in
      let listed := List.find (fun it => if_Index (nf_Interface it) =? if_Index iif) (nt_networkInterfaces r) in
      if nt_hasPlatformInterface r &&
         match listed with Some it => bool_decide (if_Name (nf_Interface it) = "") | None => true end then r
      else
        let r := UpdateWIFIState ReadWIFIState r in
        if negb (nt_started r) then r else ResetNetwork l r
  end.

Inductive PowerEvent : Type := EVENT_SUSPEND | EVENT_RESUME | EVENT_RESUME_AUTOMATIC.

(** [notifyWindowsPowerEvent]; a resume falls through. *)
Definition notifyWindowsPowerEvent (event : PowerEvent) (IsDevicePaused : bool) (l : Listeners) (r : NetManager) : NetManager :=
  match event with
  | EVENT_SUSPEND => ResetNetwork l (emit [DevicePause] r)
  | EVENT_RESUME => if negb IsDevicePaused then r else ResetNetwork l (emit [DeviceWake] r)
  | EVENT_RESUME_AUTOMATIC => ResetNetwork l (emit [DeviceWake] r)
  end.

(** [E.Append] with the cause of what is closed. *)
Definition E_Append (err : option error) (closed : string * option error) : option error :=
  match snd closed with
  | None => err
  | Some e => E_Errors (option_list err ++ [ErrCause e ("close " +:+ fst closed)])
  end.

(** [Close]: of what there is to close, in this order. *)
Definition Net_Close (hasPackageManager hasPowerListener : bool) (closes : string -> option error) (r : NetManager) : option error :=
  fold_left E_Append
    (map (fun name => (name, closes name))
       ((if hasPackageManager then ["package manager"] else []) ++ (if hasPowerListener then ["power listener"] else []) ++
        (if nt_hasInterfaceMonitor r then ["interface monitor"] else []) ++
        (if nt_hasNetworkMonitor r then ["network monitor"] else []))) None.

(** ** Histories *)

Inductive net_event : Type :=
  | EvStart (stage : NetStage) (w : NetStarts)
  | EvUpdateInterfaces (IsDarwin : bool) (found : list (Interface * Z) + error) (interfaces : list NetIf + error)
  | EvRegisterMark (mark : Z)
  | EvDefaultInterface (defaultInterface : option Interface) (IsAndroid : bool) (wifi : string * string) (l : Listeners)
  | EvPower (event : PowerEvent) (IsDevicePaused : bool) (l : Listeners).

Definition net_step (ev : net_event) (r : NetManager) : NetManager :=
  match ev with
  | EvStart stage w => snd (Net_Start stage w r)
  | EvUpdateInterfaces IsDarwin found interfaces => snd (UpdateInterfaces IsDarwin found interfaces r)
  | EvRegisterMark mark => snd (RegisterAutoRedirectOutputMark mark r)
  | EvDefaultInterface iif IsAndroid wifi l => notifyInterfaceUpdate iif IsAndroid wifi l r
  | EvPower event paused l => notifyWindowsPowerEvent event paused l r
  end.

Definition net_run (tr : list net_event) (r : NetManager) : NetManager := fold_left (fun r ev => net_step ev r) tr r.

(** Whether the network is paused, by the last effect that says so. *)
Definition network_paused (effects : list NetEffect) : bool :=
  fold_left (fun paused e => match e with NetworkPause => true | NetworkWake => false | _ => paused end) effects false.

(** Whether the last notification was without a default interface. *)
Definition interface_missing (tr : list net_event) : bool :=
  fold_left (fun missing ev => match ev with EvDefaultInterface iif _ _ _ => negb (is_some iif) | _ => missing end) tr false.

Lemma paused_app l l' :
  network_paused (l ++ l') =
  fold_left (fun paused e => match e with NetworkPause => true | NetworkWake => false | _ => paused end) l' (network_paused l).
Proof. unfold network_paused. apply fold_left_app. Qed.

Lemma paused_reset b l :
  fold_left (fun paused e => match e with NetworkPause => true | NetworkWake => false | _ => paused end)
    (CloseConnections :: map InterfaceUpdated l) b = b.
Proof. simpl. induction l as [|name l IH]; simpl; [done|apply IH]. Qed.

Lemma ResetNetwork_paused l r : network_paused (nt_effects (ResetNetwork l r)) = network_paused (nt_effects r).
Proof. unfold ResetNetwork. simpl. rewrite paused_app. apply paused_reset. Qed.

Lemma UpdateInterfaces_rest IsDarwin found interfaces r :
  let r' := snd (UpdateInterfaces IsDarwin found interfaces r) in nt_effects r' = nt_effects r /\ nt_started r' = nt_started r.
Proof.
  unfold UpdateInterfaces. destruct (negb _); [by destruct found|]. destruct interfaces; [|done].
  destruct IsDarwin; [|done]. by destruct found.
Qed.

Lemma net_step_paused ev r :
  network_paused (nt_effects (net_step ev r)) =
  match ev with EvDefaultInterface iif _ _ _ => negb (is_some iif) | _ => network_paused (nt_effects r) end.
Proof.
  destruct ev as [stage w|IsDarwin found interfaces|mark|[iif|] IsAndroid wifi l|event paused l]; simpl.
  - by destruct stage.
  - by rewrite (proj1 (UpdateInterfaces_rest _ _ _ _)).
  - unfold RegisterAutoRedirectOutputMark. by destruct (_ <? _).
  - unfold notifyInterfaceUpdate. destruct (_ && _); [simpl; by rewrite paused_app|].
    assert (forall r, network_paused (nt_effects (UpdateWIFIState wifi r)) = network_paused (nt_effects r)) as Hw
      by (intros r0; unfold UpdateWIFIState; by destruct (nt_hasPlatformInterface r0)).
    destruct (negb _); [|rewrite ResetNetwork_paused]; rewrite Hw; simpl; by rewrite paused_app.
  - by rewrite paused_app.
  - unfold notifyWindowsPowerEvent. destruct event; [| |]; try destruct (negb paused); rewrite ?ResetNetwork_paused; simpl;
      rewrite ?paused_app; done.
Qed.

(** The network is paused exactly while there is no default interface. *)
Lemma network_paused_iff_missing tr r :
  nt_effects r = [] -> network_paused (nt_effects (net_run tr r)) = interface_missing tr.
Proof.
  intros He. unfold net_run, interface_missing. change false with (network_paused []) at 1. rewrite <-He. clear He.
  revert r; induction tr as [|ev tr IH]; intros r; simpl; [done|]. rewrite IH. f_equal. by rewrite net_step_paused; destruct ev.
Qed.

(** The interfaces of the manager are always up. *)
Lemma interfaces_up tr r : nt_networkInterfaces r = [] -> Forall (fun it => nf_Up it = true) (nt_networkInterfaces (net_run tr r)).
Proof.
  intros He. assert (Forall (fun it => nf_Up it = true) (nt_networkInterfaces r)) as Hup by (by rewrite He).
  clear He. revert r Hup; induction tr as [|ev tr IH]; intros r Hup; [done|]. simpl. apply IH. clear IH.
  assert (forall l, Forall (fun it => nf_Up it = true) (List.filter nf_Up l)) as Hfil.
  { intros l. apply List.Forall_forall. intros it [_ ?]%filter_In. done. }
  destruct ev as [stage w|IsDarwin found interfaces|mark|[iif|] IsAndroid wifi l|event paused l]; simpl.
  - by destruct stage.
  - unfold UpdateInterfaces. destruct (negb _); [by destruct found|]. destruct interfaces; [|done].
    destruct IsDarwin; [destruct found|]; simpl; done.
  - unfold RegisterAutoRedirectOutputMark. by destruct (_ <? _).
  - unfold notifyInterfaceUpdate, UpdateWIFIState, ResetNetwork. destruct (_ && _); [done|].
    destruct (nt_hasPlatformInterface _), (negb _); done.
  - done.
  - unfold notifyWindowsPowerEvent. by destruct event; [| |]; try destruct (negb paused).
Qed.

(** Before the start, a change of the default interface closes nothing. *)
Lemma no_reset_before_start iif IsAndroid wifi l r :
  nt_started r = false ->
  exists e, nt_effects (notifyInterfaceUpdate iif IsAndroid wifi l r) = nt_effects r ++ [e] /\ (e = NetworkPause \/ e = NetworkWake).
Proof.
  intros Hs. destruct iif as [iif|]; [|by exists NetworkPause; auto]. exists NetworkWake. split; [|by right].
  unfold notifyInterfaceUpdate. destruct (_ && _); [done|].
  unfold UpdateWIFIState. simpl. destruct (nt_hasPlatformInterface r); simpl; by rewrite Hs.
Qed.

(** A manager that need not detect the interface, on a platform without a
    monitor: asking for the default interface panics. *)
Example no_monitor_panics :
  match NewNetworkManager {| IsLinux := true; IsDarwin := false; IsWindows := false |} false false (Some (ErrNew "netlink")) None
    {| ro_AutoDetectInterface := false; ro_OverrideAndroidVPN := false; ro_DefaultInterface := ""; ro_DefaultMark := 0;
       ro_DefaultDomainResolver := None; ro_DefaultNetworkStrategy := None; ro_DefaultNetworkType := [];
       ro_DefaultFallbackNetworkType := []; ro_DefaultFallbackDelay := 0 |} with
  | inl r => Net_DefaultNetworkInterface None r
  | inr _ => Ok None
  end = Panic "invalid memory address or nil pointer dereference".
Proof. reflexivity. Qed.
