(* ===== verification/DnsHijack.v ===== *)
(** * DNS queries from the clients

    route/dns.go, protocol/dns and dns/client_truncate.go: the connections whose
    queries the DNS router answers, the queries of one connection being answered
    at the same time, and the size of an answer that goes out in a packet. *)

From stdpp Require Import base list sets strings.
From Stdlib Require Import ZArith Lia.
From S2P Require Import Prelude GoStd External Adapter RuleAction DnsMsg ByteReader DnsWire.

Open Scope Z_scope.
Open Scope box_scope.

(** ** Packets *)

Section truncate.
Context `{DNSLib, DNSWire}.
(** [response.Truncate]: the records that are kept, and [Compress] afterwards. *)
Context (Msg_Truncate : nat -> DMsg -> DMsg * bool).

(** [TruncateDNSMessage]: the answer to a request, with its [Compress]. *)
Definition max_len (request : DMsg) : nat :=
  match IsEdns0 request with
  | Some edns0Option => if 512 <? UDPSize edns0Option then Z.to_nat (UDPSize edns0Option) else 512
  | None => 512
  end.

Definition TruncateDNSMessage (request response : DMsg) (compress : bool) (headroom : nat) : list Z + error :=
  let maxLen := max_len request in
  let responseLen := Msg_Len compress response in
  let '(response, compress) := if (maxLen <? responseLen)%nat then Msg_Truncate maxLen response else (response, compress) in
  match PackBuffer compress response (headroom + 1 + responseLen) with
  | inr e => inr e
  | inl (in_place, rawMessage) => inl (if in_place then rawMessage else fresh_bytes (length rawMessage))
  end.

(** [exchangeDNSPacket]: the bytes of the answer. *)
Definition exchangeDNSPacket (Exchange : DMsg -> (DMsg * bool) + error) (packet : list Z) : list Z + error :=
  match Unpack packet with
  | inr e => inr (ErrCause e "unpack request")
  | inl message =>
      match Exchange (w_msg message) with
      | inr e => inr e
      | inl (response, compress) => TruncateDNSMessage (w_msg message) response compress 1024
      end
  end.

(** ** A connection with queries *)

(** [HandleStreamDNSRequest] up to the query. *)
Definition read_request (r : Reader) : res (DMsg * Reader) :=
  let* '(queryLength, r) := ReadUint 2 r in
  if queryLength =? 0 then Err (ErrRcode 1)
  else
    let* '(buffer, r) := ReadFull (Z.to_nat queryLength) r in
    let* message := decode buffer in
    Ok (w_msg message, r).

(** What goes to the client: the length in 16 bits and the message. *)
Definition response_frame (response : DMsg) (compress : bool) : list Z + error :=
  match PackBuffer compress response (1 + Msg_Len compress response) with
  | inr e => inr e
  | inl (in_place, n) =>
      inl (be_bytes 2 (Z.of_nat (length n) mod 65536) ++ (if in_place then n else fresh_bytes (length n)))
  end.

(** A hijacked stream: what the client still sends, the queries that are being
    answered, what was written with the answers it came from, and how the loop
    ended. *)
Record DnsConn : Type := {
  dc_reader : Reader;
  dc_pending : list DMsg;
  dc_written : list Z;
  dc_answers : list (DMsg * bool);
  dc_closed : bool;
  dc_loop : option error }.

Definition dns_conn (r : Reader) : DnsConn :=
  {| dc_reader := r; dc_pending := []; dc_written := []; dc_answers := []; dc_closed := false; dc_loop := None |}.

Inductive dns_event : Type :=
  (** the loop reads a query; an error ends it, and its caller closes the connection *)
  | QueryRead
  (** the query at this place is answered, or fails *)
  | QueryAnswered (k : nat) (r : (DMsg * bool) + error).

Definition dns_step (ErrClosed : error) (ev : dns_event) (c : DnsConn) : option DnsConn :=
  match ev with
  | QueryRead =>
      match dc_loop c with
      | Some _ => None
      | None =>
          let fail e := Some {| dc_reader := dc_reader c; dc_pending := dc_pending c; dc_written := dc_written c;
                                dc_answers := dc_answers c; dc_closed := true; dc_loop := Some e |} in
          if dc_closed c then fail ErrClosed
          else
            match read_request (dc_reader c) with
            | Ok (message, r) =>
                Some {| dc_reader := r; dc_pending := dc_pending c ++ [message]; dc_written := dc_written c;
                        dc_answers := dc_answers c; dc_closed := dc_closed c; dc_loop := None |}
            | Err e => fail e
            | Panic _ => None
            end
      end
  | QueryAnswered k r =>
      match dc_pending c !! k with
      | None => None
      | Some _ =>
          let pending := delete k (dc_pending c) in
          let keep closed written answers :=
            Some {| dc_reader := dc_reader c; dc_pending := pending; dc_written := written; dc_answers := answers;
                    dc_closed := closed; dc_loop := dc_loop c |} in
          match r with
          | inr _ => keep true (dc_written c) (dc_answers c)
          | inl (response, compress) =>
              match response_frame response compress with
              | inr _ => keep (dc_closed c) (dc_written c) (dc_answers c)
              | inl bytes =>
                  if dc_closed c then keep true (dc_written c) (dc_answers c)
                  else keep false (dc_written c ++ bytes) (dc_answers c ++ [(response, compress)])
              end
          end
      end
  end.

Fixpoint dns_run (ErrClosed : error) (tr : list dns_event) (c : DnsConn) : option DnsConn :=
  match tr with
  | [] => Some c
  | ev :: tr => match dns_step ErrClosed ev c with Some c => dns_run ErrClosed tr c | None => None end
  end.

(** [hijackDNSStream]: a closed or canceled connection is no error. *)
Definition hijackDNSStream (IsClosedOrCanceled : error -> bool) (c : DnsConn) : option (option error) :=
  match dc_loop c with
  | None => None
  | Some e => Some (if IsClosedOrCanceled e then None else Some e)
  end.

(** ** Packets of a connection *)

(** The loop of [newDNSPacketConnection], once it knows the packets that were
    read before: an error of any kind ends all of it. *)
Record DnsPackets : Type := {
  dp_cached : list (list Z * Socksaddr);
  dp_pending : list (DMsg * Socksaddr);
  dp_written : list (list Z * Socksaddr);
  dp_cancelled : option error }.

Inductive packet_event : Type :=
  (** the next packet: a cached one, or the one that is read *)
  | PacketRead (r : list Z * Socksaddr + error)
  | PacketAnswered (k : nat) (r : (DMsg * bool) + error) (write : option error).

Definition dp_cancel (e : error) (c : DnsPackets) : DnsPackets :=
  {| dp_cached := dp_cached c; dp_pending := dp_pending c; dp_written := dp_written c;
     dp_cancelled := match dp_cancelled c with Some e0 => Some e0 | None => Some e end |}.

(** [NewDNSPacketConnection] turns the packets around before it begins, and adds
    those its readers had kept. *)
Definition start_packets (packets kept : list (list Z * Socksaddr)) : DnsPackets :=
  {| dp_cached := reverse packets ++ kept; dp_pending := []; dp_written := []; dp_cancelled := None |}.

Definition packet_step (ev : packet_event) (c : DnsPackets) : option DnsPackets :=
  match ev with
  | PacketRead r =>
      match dp_cancelled c with
      | Some _ => None
      | None =>
          let '(r, cached) := match dp_cached c with packet :: cached => (inl packet, cached) | [] => (r, []) end in
          let c := {| dp_cached := cached; dp_pending := dp_pending c; dp_written := dp_written c; dp_cancelled := None |} in
          match r with
          | inr e => Some (dp_cancel e c)
          | inl (packet, destination) =>
              match Unpack packet with
              | inr e => Some (dp_cancel e c)
              | inl message =>
                  Some {| dp_cached := dp_cached c; dp_pending := dp_pending c ++ [(w_msg message, destination)];
                          dp_written := dp_written c; dp_cancelled := None |}
              end
          end
      end
  | PacketAnswered k r write =>
      match dp_pending c !! k with
      | None => None
      | Some (message, destination) =>
          let c := {| dp_cached := dp_cached c; dp_pending := delete k (dp_pending c); dp_written := dp_written c;
                      dp_cancelled := dp_cancelled c |} in
          match r with
          | inr e => Some (dp_cancel e c)
          | inl (response, compress) =>
              match TruncateDNSMessage message response compress 1024 with
              | inr e => Some (dp_cancel e c)
              | inl bytes =>
                  match write with
                  | Some e => Some (dp_cancel e c)
                  | None =>
                      Some {| dp_cached := dp_cached c; dp_pending := dp_pending c;
                              dp_written := dp_written c ++ [(bytes, destination)]; dp_cancelled := dp_cancelled c |}
                  end
              end
          end
      end
  end.
End truncate.

(** ** What the client gets *)

Section answers.
Context `{DNSWire}.

(** An answer that fits: it is packed in place, in fewer than 65536 bytes. *)
Definition answer_fits (a : DMsg * bool) (raw : list Z) : Prop :=
  PackBuffer (snd a) (fst a) (1 + Msg_Len (snd a) (fst a)) = inl (true, raw) /\ frame_fits raw.

Lemma response_frame_framed response compress raw :
  answer_fits (response, compress) raw -> response_frame response compress = inl (framed raw).
Proof.
  unfold answer_fits, response_frame, frame_fits, framed. cbn [fst snd]. intros [-> [_ Hlt]]. rewrite (Z.mod_small (Z.of_nat (length raw))) by lia; done.
Qed.

(** The bytes written are the frames of the answers, in the order they came. *)
Definition dns_conn_ok (c : DnsConn) : Prop :=
  exists frames, Forall2 (fun a bytes => response_frame (fst a) (snd a) = inl bytes) (dc_answers c) frames /\
    dc_written c = concat frames.

Lemma dns_step_ok ErrClosed ev c c' : dns_step ErrClosed ev c = Some c' -> dns_conn_ok c -> dns_conn_ok c'.
Proof.
  intros Hs (frames & Hf & Hw). destruct ev as [|k r]; simpl in Hs.
  - destruct (dc_loop c); [done|]. destruct (dc_closed c); [simplify_eq; by exists frames|].
    destruct (read_request _) as [[message r]|e|msg]; simplify_eq; by exists frames.
  - destruct (dc_pending c !! k); [|done]. destruct r as [[response compress]|e]; [|simplify_eq; by exists frames].
    destruct (response_frame response compress) as [bytes|e] eqn:Hb; [|simplify_eq; by exists frames].
    destruct (dc_closed c); simplify_eq; [by exists frames|]. exists (frames ++ [bytes]). simpl. split.
    + apply Forall2_app; [done|]. by constructor.
    + rewrite concat_app, Hw. simpl. by rewrite app_nil_r.
Qed.

Lemma dns_run_ok ErrClosed tr c c' : dns_run ErrClosed tr c = Some c' -> dns_conn_ok c -> dns_conn_ok c'.
Proof.
  revert c; induction tr as [|ev tr IH]; intros c Hr Hok; simplify_eq/=; [done|].
  destruct (dns_step _ ev c) as [c1|] eqn:Hs; [|done]. eauto using dns_step_ok.
Qed.

(** [ReadMessage] finds the frames one after the other. *)
Lemma read_frames answers raws messages :
  Forall2 answer_fits answers raws -> Forall2 (fun raw m => decode raw = Ok m) raws messages ->
  forall frames rest e, Forall2 (fun a bytes => response_frame (fst a) (snd a) = inl bytes) answers frames ->
  read_messages (length answers) {| rd_bytes := concat frames ++ rest; rd_end := e |} =
    Ok (messages, {| rd_bytes := rest; rd_end := e |}).
Proof.
  intros Hfits. revert messages. induction Hfits as [|[response compress] raw answers raws Hfit Hfits IH]; intros messages Hdec frames rest e Hframes.
  - inversion Hdec; inversion Hframes; subst. done.
  - inversion Hdec as [|? m ? messages' Hm Hdec']; subst. inversion Hframes as [|? bytes ? frames' Hb Hframes']; subst. simpl in *.
    rewrite (response_frame_framed _ _ _ Hfit) in Hb. injection Hb as <-. rewrite <-app_assoc.
    destruct Hfit as (_ & Hlo & Hhi). rewrite ReadMessage_framed by done. rewrite Hm. cbn [res_bind].
    by rewrite (IH _ Hdec' _ _ _ Hframes').
Qed.

(** Every answer reaches the client whole: however the queries of a hijacked
    stream are read and answered, what was written is read back by the client as
    the answers in the order in which they came, each decoded from its own bytes,
    with nothing left over. *)
Theorem stream_answers_read_back ErrClosed tr r c raws messages e :
  dns_run ErrClosed tr (dns_conn r) = Some c ->
  Forall2 answer_fits (dc_answers c) raws -> Forall2 (fun raw m => decode raw = Ok m) raws messages ->
  read_messages (length (dc_answers c)) {| rd_bytes := dc_written c; rd_end := e |} = Ok (messages, {| rd_bytes := []; rd_end := e |}).
Proof.
  intros Hr Hfits Hdec. destruct (dns_run_ok _ _ _ _ Hr) as (frames & Hf & ->); [by exists []|].
  rewrite <-(app_nil_r (concat frames)). by eapply read_frames.
Qed.

(** After the loop has ended nothing is written: queries that are still being
    answered are lost. *)
Lemma closed_answers_lost ErrClosed ev c c' :
  dc_closed c = true -> dns_step ErrClosed ev c = Some c' ->
  dc_written c' = dc_written c /\ dc_answers c' = dc_answers c /\ dc_closed c' = true.
Proof.
  intros Hc Hs. destruct ev as [|k r]; simpl in Hs; rewrite Hc in Hs.
  - by destruct (dc_loop c); simplify_eq.
  - destruct (dc_pending c !! k); [|done]. destruct r as [[response compress]|e]; [|by simplify_eq].
    by destruct (response_frame response compress); simplify_eq.
Qed.
End answers.

(** ** Packets that fit *)

(** With a [Truncate] that keeps its promise, an answer in a packet is no longer
    than the client allows. *)
Lemma truncated_fits `{DNSLib, DNSWire} Msg_Truncate request response compress headroom bytes :
  (forall n m, (512 <= n)%nat -> let '(m', compress') := Msg_Truncate n m in (Msg_Len compress' m' <= n)%nat) ->
  (forall compress m n raw in_place, PackBuffer compress m n = inl (in_place, raw) -> length raw = Msg_Len compress m) ->
  (forall n, length (fresh_bytes n) = n) ->
  TruncateDNSMessage Msg_Truncate request response compress headroom = inl bytes ->
  (length bytes <= max_len request)%nat.
Proof.
  intros Htrunc Hpack Hfresh. unfold TruncateDNSMessage.
  assert (512 <= max_len request)%nat as Hmax.
  { unfold max_len. destruct (IsEdns0 request); [|done]. destruct (512 <? UDPSize _) eqn:E; [|done]. lia. }
  destruct (_ <? _)%nat eqn:E.
  - specialize (Htrunc _ response Hmax). destruct (Msg_Truncate _ response) as [m' compress'].
    destruct (PackBuffer _ _ _) as [[in_place raw]|] eqn:Hp; [|done]. apply Hpack in Hp. intros [= <-].
    destruct in_place; rewrite ?Hfresh; lia.
  - apply Nat.ltb_ge in E. destruct (PackBuffer _ _ _) as [[in_place raw]|] eqn:Hp; [|done]. apply Hpack in Hp. intros [= <-].
    destruct in_place; rewrite ?Hfresh; lia.
Qed.

(** ** Runs *)
#[local] Existing Instance concrete_wire.

(** A query of twelve bytes. *)
Definition query_bytes (id : Z) : list Z := framed (be_bytes 2 id ++ replicate 10 0).

(** Two queries, the second answered first. *)
Example two_answers :
  match dns_run ErrInvalid [QueryRead; QueryRead; QueryAnswered 1 (inl (bare_message 2, false)); QueryAnswered 0 (inl (bare_message 1, false))]
          (dns_conn {| rd_bytes := query_bytes 1 ++ query_bytes 2; rd_end := ErrEOF |}) with
  | Some c => (map fst (dc_answers c), length (dc_written c))
  | None => ([], 0%nat)
  end = ([bare_message 2; bare_message 1], 28%nat).
Proof. vm_compute. reflexivity. Qed.

(** A client that ends its side after its query gets no answer: the end of the
    stream closes the connection. *)
Example half_close_loses :
  match dns_run ErrInvalid [QueryRead; QueryRead; QueryAnswered 0 (inl (bare_message 1, false))]
          (dns_conn {| rd_bytes := query_bytes 1; rd_end := ErrEOF |}) with
  | Some c => (dc_answers c, dc_written c, hijackDNSStream (fun e => bool_decide (e = ErrEOF)) c)
  | None => ([], [1], None)
  end = ([], [], Some None).
Proof. vm_compute. reflexivity. Qed.

(** One failed query ends the connection for all others. *)
Example one_failure_ends_all :
  match dns_run ErrInvalid [QueryRead; QueryRead; QueryAnswered 0 (inr ErrDrop); QueryAnswered 0 (inl (bare_message 2, false))]
          (dns_conn {| rd_bytes := query_bytes 1 ++ query_bytes 2; rd_end := ErrEOF |}) with
  | Some c => (dc_closed c, dc_written c)
  | None => (false, [])
  end = (true, []).
Proof. vm_compute. reflexivity. Qed.

(** Packets that were read before are handled last to first. *)
Example packets_reversed :
  map fst (dp_cached (start_packets [([1], SocksaddrZero); ([2], SocksaddrZero)] [])) = [[2]; [1]].
Proof. reflexivity. Qed.
