(* ===== verification/Sip003.v ===== *)
(** * Plugin options

    transport/sip003: the options of a plugin are one string of keys and values
    with escapes; what the two plugins make of them. *)

From stdpp Require Import base list strings gmap.
From Stdlib Require Import ZArith Lia Ascii.
From S2P Require Import Prelude GoStd External StringFacts.

Open Scope Z_scope.
Open Scope box_scope.

(** ** Arguments *)

(** [Args]: the values of a key in the order they were added. *)
Definition Args : Type := gmap string (list string).

Definition Args_Get (args : Args) (key : string) : option string :=
  match args !! key with Some (value :: _) => Some value | _ => None end.

Definition Args_Add (key value : string) (args : Args) : Args := <[key := default [] (args !! key) ++ [value]]> args.

Definition backslash : ascii := "\".

Section parse.
(** The [%q] of fmt. *)
Context (quote : string -> string).

(** [indexUnescaped] on the rest of the string: how far the terminator is, and
    what is before it without escapes; none when a backslash is last. *)
Fixpoint unescape (s term : list ascii) : option (nat * list ascii) :=
  match s with
  | [] => Some (0%nat, [])
  | b :: s =>
      if bool_decide (b ∈ term) then Some (0%nat, [])
      else if bool_decide (b = backslash) then
        match s with
        | [] => None
        | b :: s => match unescape s term with Some (i, unesc) => Some (S (S i), b :: unesc) | None => None end
        end
      else match unescape s term with Some (i, unesc) => Some (S i, b :: unesc) | None => None end
  end.

Definition indexUnescaped (s term : list ascii) : res (nat * list ascii) :=
  match unescape s term with
  | Some r => Ok r
  | None => Err (ErrNew ("nothing following final escape in " +:+ quote (String.string_of_list_ascii s)))
  end.

(** The loop over the keys; [opts] is what the caller gets even with an error. *)
Fixpoint parse_options (fuel : nat) (s : list ascii) (opts : Args) : res Args :=
  match fuel with
  | O => Panic "fuel"
  | S fuel =>
      match s with
      | [] => Ok opts
      | _ =>
          let* '(offset, key) := indexUnescaped s ["="%char; ";"%char] in
          if bool_decide (key = []) then Err (ErrNew ("empty key in " +:+ quote ""))
          else
            let key := String.string_of_list_ascii key in
            match drop offset s with
            | c :: s =>
                if bool_decide (c = "="%char) then
                  let* '(offset, value) := indexUnescaped s [";"%char] in
                  parse_options fuel (drop (S offset) s) (Args_Add key (String.string_of_list_ascii value) opts)
                else parse_options fuel s (Args_Add key "1" opts)
            | [] => parse_options fuel [] (Args_Add key "1" opts)
            end
      end
  end.

Definition ParsePluginOptions (s : string) : res Args := parse_options (S (String.length s)) (chars s) ∅.
End parse.

(** [backslashEscape] *)
Definition backslashEscape (s set : list ascii) : list ascii :=
  flat_map (fun b => if bool_decide (b = backslash) || bool_decide (b ∈ set) then [backslash; b] else [b]) s.

(** ** Plugins *)

(** What [newV2RayPlugin] makes of its arguments: the TLS client, the transport
    and whether streams are multiplexed. *)
Record V2RayPlugin : Type := {
  vp_tls : bool; vp_CertificatePath : string; vp_Certificate : option string; vp_ServerName : string;
  (** host and path of a websocket, or QUIC *)
  vp_websocket : option (string * string); vp_mux : Z }.

Definition fixed_cert (certRaw : string) : string :=
  "-----BEGIN CERTIFICATE-----" +:+ String "010" "" +:+ certRaw +:+ String "010" "" +:+ "-----END CERTIFICATE-----".

(** [Atoi] is that of strconv; [tls_ok] the construction of the TLS client. *)
Definition newV2RayPlugin (Atoi : string -> Z + error) (tls_ok : option error) (args : Args) : V2RayPlugin + error :=
  let tls := match Args_Get args "tls" with Some _ => true | None => false end in
  let host := default "cloudfront.com" (Args_Get args "host") in
  let plugin websocket mux :=
    {| vp_tls := tls; vp_CertificatePath := default "" (Args_Get args "cert");
       vp_Certificate := fixed_cert <$> Args_Get args "certRaw"; vp_ServerName := default "" (Args_Get args "host");
       vp_websocket := websocket; vp_mux := mux |} in
  match (if tls then tls_ok else None) with
  | Some e => inr e
  | None =>
      let mode := default "websocket" (Args_Get args "mode") in
      if bool_decide (mode = "websocket") then
        let websocket := Some (host, default "/" (Args_Get args "path")) in
        match Args_Get args "mux" with
        | Some muxOpt =>
            match Atoi muxOpt with
            | inl mux => inl (plugin websocket mux)
            | inr e => inr (ErrCause e "parse mux value")
            end
        | None => inl (plugin websocket 1)
        end
      else if bool_decide (mode = "quic") then inl (plugin None 0)
      else inr (ErrNew ("v2ray-plugin: unknown mode: " +:+ mode))
  end.

Record ObfsLocal : Type := { ob_tls : bool; ob_host : string; ob_port : string }.

Definition newObfsLocal (port : Z) (args : Args) : ObfsLocal + error :=
  let mode := default "http" (Args_Get args "obfs") in
  let plugin tls := {| ob_tls := tls; ob_host := default "" (Args_Get args "obfs-host"); ob_port := go_itoa port |} in
  if bool_decide (mode = "http") then inl (plugin false)
  else if bool_decide (mode = "tls") then inl (plugin true)
  else inr (ErrNew ("unknown obfs mode " +:+ mode)).

(** The registered plugins, each with the result of its constructor. *)
Inductive Plugin : Type := PluginV2Ray (p : V2RayPlugin) | PluginObfs (p : ObfsLocal).

Definition CreatePlugin (quote : string -> string) (Atoi : string -> Z + error) (tls_ok : option error) (port : Z)
    (name pluginArgs : string) : res (Plugin + error) :=
  match ParsePluginOptions quote pluginArgs with
  | Panic msg => Panic msg
  | Err e => Err (ErrCause e "parse plugin_opts")
  | Ok args =>
      if bool_decide (name = "v2ray-plugin") then
        Ok match newV2RayPlugin Atoi tls_ok args with inl p => inl (PluginV2Ray p) | inr e => inr e end
      else if bool_decide (name = "obfs-local") then
        Ok match newObfsLocal port args with inl p => inl (PluginObfs p) | inr e => inr e end
      else Err (ErrNew ("plugin not found: " +:+ name))
  end.

(** ** Written options are read back *)

(** One key with its value, as they are written. *)
Definition written_option (o : list ascii * list ascii) : list ascii :=
  backslashEscape (fst o) ["="%char; ";"%char] ++ "="%char :: backslashEscape (snd o) [";"%char].

Fixpoint written_options (l : list (list ascii * list ascii)) : list ascii :=
  match l with
  | [] => []
  | [o] => written_option o
  | o :: l => written_option o ++ ";"%char :: written_options l
  end.

Definition add_all (l : list (list ascii * list ascii)) (args : Args) : Args :=
  fold_left (fun args o => Args_Add (String.string_of_list_ascii (fst o)) (String.string_of_list_ascii (snd o)) args) l args.

Lemma unescape_written s set rest :
  backslash ∉ set -> (rest = [] \/ exists c rest', rest = c :: rest' /\ c ∈ set) ->
  unescape (backslashEscape s set ++ rest) set = Some (length (backslashEscape s set), s).
Proof.
  intros Hset Hrest. induction s as [|b s IH]; simpl.
  - destruct Hrest as [->|(c & rest' & -> & Hc)]; [done|]. simpl. by rewrite bool_decide_true.
  - destruct (bool_decide_reflect (b = backslash)) as [->|Hb]; simpl.
    + by rewrite bool_decide_false, IH.
    + destruct (bool_decide_reflect (b ∈ set)) as [Hin|Hin]; simpl.
      * by rewrite bool_decide_false, IH.
      * by rewrite !bool_decide_false, IH.
Qed.

Lemma drop_written {A} (l : list A) c rest : drop (length l) (l ++ c :: rest) = c :: rest.
Proof. apply drop_app_length. Qed.

Lemma parse_written_one quote fuel key value rest opts :
  key <> [] -> (rest = [] \/ exists rest', rest = ";"%char :: rest') ->
  parse_options quote (S fuel) (written_option (key, value) ++ rest) opts =
  parse_options quote fuel (drop 1 rest) (Args_Add (String.string_of_list_ascii key) (String.string_of_list_ascii value) opts).
Proof.
  intros Hkey Hrest. unfold written_option. simpl fst. simpl snd. rewrite <-app_assoc. cbn [app].
  set (s := backslashEscape value _ ++ rest).
  assert (indexUnescaped quote (backslashEscape key ["="%char; ";"%char] ++ "="%char :: s) ["="%char; ";"%char] =
          Ok (length (backslashEscape key ["="%char; ";"%char]), key)) as Hk.
  { unfold indexUnescaped. rewrite unescape_written; [done|set_solver|right; eexists _, _; split; [done|set_solver]]. }
  assert (indexUnescaped quote s [";"%char] = Ok (length (backslashEscape value [";"%char]), value)) as Hv.
  { unfold indexUnescaped, s. rewrite unescape_written; [done|set_solver|].
    destruct Hrest as [->|[rest' ->]]; [by left|right; eexists _, _; split; [done|set_solver]]. }
  cbn [parse_options]. destruct (backslashEscape key ["="%char; ";"%char] ++ "="%char :: s) as [|c0 l0] eqn:Hl; [by apply app_eq_nil in Hl as [_ ?]|].
  rewrite <-Hl in *. clear Hl. rewrite Hk. cbn [res_bind]. rewrite bool_decide_false by done. rewrite drop_written.
  rewrite bool_decide_true by done. rewrite Hv. cbn [res_bind]. f_equal. unfold s.
  destruct Hrest as [->|[rest' ->]]; [rewrite app_nil_r; apply drop_ge; lia|].
  change (S ?n) with (1 + n)%nat. rewrite Nat.add_comm, <-drop_drop, drop_written. done.
Qed.

(** Keys and values that were escaped and joined are read back: every key gets
    its values in the order they were written, whatever bytes they hold. *)
Lemma parse_options_written quote l : forall fuel opts,
  Forall (fun o => fst o <> []) l -> (length l < fuel)%nat ->
  parse_options quote fuel (written_options l) opts = Ok (add_all l opts).
Proof.
  induction l as [|[key value] l IH]; intros fuel opts Hkeys Hfuel; (destruct fuel as [|fuel]; [simpl in Hfuel; lia|]); [done|].
  apply Forall_cons in Hkeys as [Hkey Hkeys]. simpl in Hkey, Hfuel. destruct l as [|o l].
  - change (written_options [(key, value)]) with (written_option (key, value)).
    rewrite <-(app_nil_r (written_option _)), parse_written_one by auto. simpl drop. apply (IH fuel); [done|simpl; lia].
  - change (written_options ((key, value) :: o :: l)) with (written_option (key, value) ++ ";"%char :: written_options (o :: l)).
    rewrite parse_written_one by eauto. cbn [drop]. apply IH; [done|lia].
Qed.

Lemma backslashEscape_length s set : (length s <= length (backslashEscape s set))%nat.
Proof. induction s as [|b s IH]; simpl; [lia|]. rewrite length_app. destruct (_ || _); simpl; lia. Qed.

Lemma written_length l : Forall (fun o => fst o <> []) l -> (length l <= length (written_options l))%nat.
Proof.
  induction 1 as [|o l Ho Hl IH]; [done|]. assert (1 <= length (written_option o))%nat.
  { unfold written_option. rewrite length_app. simpl. lia. }
  destruct l as [|o' l]; [simpl; lia|]. change (written_options (o :: o' :: l)) with (written_option o ++ ";"%char :: written_options (o' :: l)).
  rewrite length_app. simpl length in *. lia.
Qed.

(** Any options with non-empty keys, written with the escapes of
    [backslashEscape] and joined by semicolons, are what [ParsePluginOptions]
    reads. *)
Theorem plugin_options_read_back quote l :
  Forall (fun o => fst o <> []) l ->
  ParsePluginOptions quote (String.string_of_list_ascii (written_options l)) = Ok (add_all l ∅).
Proof.
  intros Hl. unfold ParsePluginOptions. rewrite String.list_ascii_of_string_of_list_ascii.
  apply parse_options_written; [done|]. rewrite <-length_chars, String.list_ascii_of_string_of_list_ascii.
  pose proof (written_length l Hl). lia.
Qed.

(** Reading ends for every string: the fuel is never used up. *)
Lemma unescape_length s term i unesc : unescape s term = Some (i, unesc) -> (i <= length s)%nat /\ (unesc <> [] -> 1 <= i)%nat.
Proof.
  revert i unesc. induction (well_founded_ltof _ (@length ascii) s) as [s _ IH]. intros i unesc. destruct s as [|b s]; simpl; [by intros [= <- <-]|].
  destruct (bool_decide (b ∈ term)); [intros [= <- <-]; split; [lia|done]|].
  destruct (bool_decide (b = backslash)).
  - destruct s as [|b' s]; [done|]. destruct (unescape s term) as [[j u]|] eqn:Hu; [|done]. intros [= <- <-].
    apply IH in Hu; [|unfold ltof; simpl; lia]. simpl. lia.
  - destruct (unescape s term) as [[j u]|] eqn:Hu; [|done]. intros [= <- <-]. apply IH in Hu; [|unfold ltof; simpl; lia]. lia.
Qed.

Theorem parse_returns quote s : forall msg, ParsePluginOptions quote s <> Panic msg.
Proof.
  unfold ParsePluginOptions. rewrite <-length_chars.
  assert (forall fuel l opts msg, (length l < fuel)%nat -> parse_options quote fuel l opts <> Panic msg) as H; [|intros msg; apply H; lia].
  induction fuel as [|fuel IH]; intros l opts msg Hl; [lia|]. cbn [parse_options]. destruct l as [|b l0]; [done|].
  set (l := b :: l0) in *. unfold indexUnescaped at 1. destruct (unescape l _) as [[i key]|] eqn:Hu; [|done]. cbn [res_bind].
  case_bool_decide as Hkey; [done|]. apply unescape_length in Hu as [Hi Hi1]. specialize (Hi1 Hkey).
  pose proof (length_drop l i) as Hd. destruct (drop i l) as [|c s'].
  { apply IH. simpl. lia. }
  change (length (c :: s')) with (S (length s')) in Hd. case_bool_decide; [|apply IH; lia].
  unfold indexUnescaped. destruct (unescape s' _) as [[j value]|]; [|done]. cbn [res_bind]. apply IH. rewrite length_drop. lia.
Qed.

Example some_options :
  (fun r => match r with Ok args => (Args_Get args "secret", Args_Get args "cache", Args_Get args "tls") | _ => (None, None, None) end)
    (ParsePluginOptions (fun s => s) "secret=n\;ou;cache=/tmp/c=d;tls;secret=yes") = (Some "n;ou", Some "/tmp/c=d", Some "1").
Proof. vm_compute. reflexivity. Qed.
