(* ===== verification/Version.v ===== *)
(** * Versions

    common/badversion: versions of the program as they are parsed, printed and
    compared. *)

From stdpp Require Import base list sets strings pretty.
From Stdlib Require Import ZArith Lia Ascii.
From S2P Require Import Prelude GoStd StringFacts.

Open Scope Z_scope.
Open Scope box_scope.

(** ** [strconv.Atoi]

    The number it returns with or without an error: zero for what is no number,
    the nearest [int] for what is too large. *)
Definition Atoi_value (s : string) : Z :=
  let '(neg, digits) :=
    match chars s with
    | c :: l => if bool_decide (c = "-"%char) then (true, l) else if bool_decide (c = "+"%char) then (false, l) else (false, c :: l)
    | [] => (false, [])
    end in
  match digits with
  | [] => 0
  | _ =>
      match parse_uint_loop (2 ^ 64 - 1) digits 0 with
      | None => 0
      | Some (Ok n) => if neg then - Z.min n (2 ^ 63) else Z.min n (2 ^ 63 - 1)
      | Some _ => if neg then - 2 ^ 63 else 2 ^ 63 - 1
      end
  end.

(** ** Versions *)

Record Version : Type := {
  Major : Z; Minor : Z; Patch : Z; Commit : string; PreReleaseIdentifier : string; PreReleaseVersion : Z }.

#[global] Instance Version_eq_dec : EqDecision Version.
Proof. solve_decision. Defined.

Definition After (v w : Version) : bool :=
  if Major w <? Major v then true else if Major v <? Major w then false
  else if Minor w <? Minor v then true else if Minor v <? Minor w then false
  else if Patch w <? Patch v then true else if Patch v <? Patch w then false
  else
    let p := PreReleaseIdentifier v in
    let q := PreReleaseIdentifier w in
    if bool_decide (p = "") && bool_decide (q <> "") then true
    else if bool_decide (p <> "") && bool_decide (q = "") then false
    else if bool_decide (p <> "") && bool_decide (q <> "") then
      if bool_decide (p = q) then
        if PreReleaseVersion w <? PreReleaseVersion v then true
        else if PreReleaseVersion v <? PreReleaseVersion w then false else false
      else if bool_decide (p = "rc") && bool_decide (q = "beta") then true
      else if bool_decide (p = "beta") && bool_decide (q = "rc") then false
      else if bool_decide (p = "beta") && bool_decide (q = "alpha") then true
      else if bool_decide (p = "alpha") && bool_decide (q = "beta") then false
      else false
    else false.

Definition VersionString (v : Version) : string :=
  go_itoa (Major v) +:+ "." +:+ go_itoa (Minor v) +:+ "." +:+ go_itoa (Patch v).

Definition Version_String (v : Version) : string :=
  let version := VersionString v in
  if bool_decide (PreReleaseIdentifier v <> "")
  then version +:+ "-" +:+ PreReleaseIdentifier v +:+ "." +:+ go_itoa (PreReleaseVersion v)
  else version.

Definition BadString (v : Version) : string :=
  let version := go_itoa (Major v) +:+ "." +:+ go_itoa (Minor v) in
  let version := if 0 <? Patch v then version +:+ "." +:+ go_itoa (Patch v) else version in
  if bool_decide (PreReleaseIdentifier v <> "") then
    let version := version +:+ "-" +:+ PreReleaseIdentifier v in
    if 0 <? PreReleaseVersion v then version +:+ go_itoa (PreReleaseVersion v) else version
  else version.

(** What is after the first dash: identifier, version and commit. *)
Definition parse_identifier (identifier : string) : string * Z * string :=
  if strings_Contains identifier "." then
    match strings_Split identifier "." with
    | id :: version :: _ => (id, Atoi_value version, "")
    | [id] => (id, 0, "")
    | [] => ("", 0, "")
    end
  else if strings_HasPrefix identifier "alpha" then ("alpha", Atoi_value (str_drop 5 identifier), "")
  else if strings_HasPrefix identifier "beta" then ("beta", Atoi_value (str_drop 4 identifier), "")
  else ("", 0, identifier).

Definition nth_number (l : list string) (n : nat) : Z := match l !! n with Some s => Atoi_value s | None => 0 end.

Definition Parse (versionName : string) : Version :=
  let versionName := if strings_HasPrefix versionName "v" then str_drop 1 versionName else versionName in
  let '(versionName, (id, version, commit)) :=
    if strings_Contains versionName "-" then
      match strings_Split versionName "-" with
      | name :: identifier :: _ => (name, parse_identifier identifier)
      | l => (versionName, ("", 0, ""))
      end
    else (versionName, ("", 0, "")) in
  let versionElements := strings_Split versionName "." in
  {| Major := nth_number versionElements 0; Minor := nth_number versionElements 1; Patch := nth_number versionElements 2;
     Commit := commit; PreReleaseIdentifier := id; PreReleaseVersion := version |}.

(** ** Numbers that were printed *)

Definition is_digit (c : ascii) : Prop := exists d, digit_value c = Some d.

Lemma pretty_char_digit (x : N) : (x < 10)%N -> digit_value (pretty_N_char x) = Some (Z.of_N x).
Proof.
  intros Hx. assert (In x (map N.of_nat (seq 0 10))) as Hin by (apply in_map_iff; exists (N.to_nat x); rewrite in_seq; lia).
  simpl in Hin. by repeat destruct Hin as [<-|Hin].
Qed.

Lemma pretty_go_app (x : N) s : chars (pretty_N_go x s) = chars (pretty_N_go x "") ++ chars s.
Proof.
  revert s. induction (N.lt_wf_0 x) as [x _ IH]. intros s. destruct (decide (x = 0)%N) as [->|Hx]; [by rewrite !pretty_N_go_0|].
  rewrite !(pretty_N_go_step x) by lia. rewrite IH by (apply N.div_lt; lia).
  rewrite (IH (x `div` 10)%N ltac:(apply N.div_lt; lia) (String _ "")). simpl. by rewrite <-app_assoc.
Qed.

Lemma pretty_go_snoc (x : N) : (0 < x)%N -> chars (pretty_N_go x "") = chars (pretty_N_go (x `div` 10) "") ++ [pretty_N_char (x `mod` 10)].
Proof. intros Hx. by rewrite pretty_N_go_step, pretty_go_app. Qed.

Lemma pretty_go_parse max l (x : N) :
  Z.of_N x <= max -> parse_uint_loop max (chars (pretty_N_go x "") ++ l) 0 = parse_uint_loop max l (Z.of_N x).
Proof.
  revert l. induction (N.lt_wf_0 x) as [x _ IH]. intros l Hmax. destruct (decide (x = 0)%N) as [->|Hx]; [by rewrite pretty_N_go_0|].
  rewrite pretty_go_snoc by lia. rewrite <-app_assoc. pose proof (N.div_mod x 10 ltac:(lia)) as Hdm. pose proof (N.mod_lt x 10 ltac:(lia)).
  rewrite (IH (x `div` 10)%N); [|apply N.div_lt; lia|pose proof (N.Div0.div_le_upper_bound x 10 x ltac:(lia)); lia]. cbn [app parse_uint_loop]. rewrite pretty_char_digit by done.
  assert (Z.of_N (x / 10) * 10 + Z.of_N (x mod 10) = Z.of_N x) as -> by lia.
  by rewrite (proj2 (Z.ltb_ge _ _)) by lia.
Qed.

Lemma pretty_go_digits (x : N) : Forall is_digit (chars (pretty_N_go x "")).
Proof.
  induction (N.lt_wf_0 x) as [x _ IH]. destruct (decide (x = 0)%N) as [->|Hx]; [by rewrite pretty_N_go_0|].
  rewrite pretty_go_snoc by lia. apply Forall_app. split; [apply IH, N.div_lt; lia|]. constructor; [|constructor].
  eexists. apply pretty_char_digit, N.mod_lt. lia.
Qed.

Lemma itoa_digits z : 0 <= z -> Forall is_digit (chars (go_itoa z)).
Proof.
  intros Hz. destruct z as [|p|p]; [|apply (pretty_go_digits (N.pos p))|lia]. change (chars (go_itoa 0)) with ["0"%char]. apply Forall_singleton. by exists 0.
Qed.

Lemma itoa_nonempty z : 0 <= z -> go_itoa z <> "".
Proof.
  intros Hz. destruct z as [|p|p]; [done| |lia]. change (go_itoa (Z.pos p)) with (pretty_N_go (N.pos p) "").
  intros He. pose proof (pretty_go_snoc (N.pos p) ltac:(lia)) as Hs. rewrite He in Hs. by apply app_cons_not_nil in Hs.
Qed.

Lemma itoa_parse max z : 0 <= z <= max -> parse_uint_loop max (chars (go_itoa z)) 0 = Some (Ok z).
Proof.
  intros [Hz Hmax]. destruct z as [|p|p]; [|clear Hz|lia].
  { change (chars (go_itoa 0)) with ["0"%char]. cbn [parse_uint_loop]. change (digit_value "0") with (Some 0).
    cbv beta iota zeta. change (0 * 10 + 0) with 0. by rewrite (proj2 (Z.ltb_ge _ _)) by lia. }
  change (go_itoa (Z.pos p)) with (pretty_N_go (N.pos p) ""). rewrite <-(app_nil_r (chars _)). by rewrite pretty_go_parse.
Qed.

Lemma Atoi_itoa z : 0 <= z < 2 ^ 63 -> Atoi_value (go_itoa z) = z.
Proof.
  intros Hz. unfold Atoi_value. pose proof (itoa_digits z ltac:(lia)) as Hd. pose proof (itoa_parse (2 ^ 64 - 1) z ltac:(lia)) as Hp.
  pose proof (itoa_nonempty z ltac:(lia)) as Hne.
  destruct (go_itoa z) as [|c s]; [done|]. simpl chars in *. apply Forall_cons in Hd as [[d Hd] _].
  rewrite !bool_decide_false by (intros ->; discriminate Hd). rewrite Hp. lia.
Qed.

(** ** Splitting what was joined *)

Lemma split_absent sep l cur :
  sep ∉ l -> split_bytes sep l cur = [String.string_of_list_ascii (rev cur ++ l)].
Proof.
  revert cur; induction l as [|c l IH]; intros cur Hl; simpl; [by rewrite app_nil_r|].
  apply not_elem_of_cons in Hl as [Hc Hl]. destruct (ascii_dec c sep) as [->|_]; [done|].
  rewrite IH by done. simpl. by rewrite <-app_assoc.
Qed.

Lemma split_first sep l rest cur :
  sep ∉ l -> split_bytes sep (l ++ sep :: rest) cur = String.string_of_list_ascii (rev cur ++ l) :: split_bytes sep rest [].
Proof.
  revert cur; induction l as [|c l IH]; intros cur Hl; simpl.
  - destruct (ascii_dec sep sep); [by rewrite app_nil_r|done].
  - apply not_elem_of_cons in Hl as [Hc Hl]. destruct (ascii_dec c sep) as [->|_]; [done|].
    rewrite IH by done. simpl. by rewrite <-app_assoc.
Qed.

Lemma Split_absent (s : string) sep : sep ∉ chars s -> strings_Split s sep = [s].
Proof. intros Hs. unfold strings_Split. rewrite split_absent by done. simpl. by rewrite String.string_of_list_ascii_of_string. Qed.

Lemma Split_first (s t : string) sep : sep ∉ chars s -> strings_Split (s +:+ String sep t) sep = s :: strings_Split t sep.
Proof.
  intros Hs. unfold strings_Split. rewrite chars_app. simpl. rewrite split_first by done. simpl.
  by rewrite String.string_of_list_ascii_of_string.
Qed.

(** ** Properties *)

(** A version that can be written: numbers are not negative and fit into an
    [int]; an identifier has neither dots nor dashes, and without one there is no
    number of it; the commit is not written. *)
Definition writable (v : Version) : Prop :=
  (0 <= Major v < 2 ^ 63 /\ 0 <= Minor v < 2 ^ 63 /\ 0 <= Patch v < 2 ^ 63 /\ 0 <= PreReleaseVersion v < 2 ^ 63) /\
  Commit v = "" /\ "."%char ∉ chars (PreReleaseIdentifier v) /\ "-"%char ∉ chars (PreReleaseIdentifier v) /\
  (PreReleaseIdentifier v = "" -> PreReleaseVersion v = 0).

Lemma digit_free (c : ascii) z : 0 <= z -> digit_value c = None -> c ∉ chars (go_itoa z).
Proof.
  intros Hz Hc. apply (absent_class is_digit); [by apply itoa_digits|]. intros [d ?]. congruence.
Qed.

Lemma VersionString_dashless v : writable v -> "-"%char ∉ chars (VersionString v).
Proof.
  intros [(? & ? & ? & _) _]. unfold VersionString. rewrite !chars_app. simpl.
  repeat (rewrite not_elem_of_app || rewrite not_elem_of_cons). split_and!; try done; apply digit_free; first [lia|done].
Qed.

Lemma VersionString_elements v :
  writable v -> strings_Split (VersionString v) "." = [go_itoa (Major v); go_itoa (Minor v); go_itoa (Patch v)].
Proof.
  intros [(? & ? & ? & _) _]. unfold VersionString. rewrite !str_app_cons, !str_app_empty.
  rewrite !Split_first by (apply digit_free; first [lia|done]). by rewrite Split_absent by (apply digit_free; first [lia|done]).
Qed.

Lemma VersionString_no_v v s : writable v -> strings_HasPrefix (VersionString v +:+ s) "v" = false.
Proof.
  intros [(Hm & _) _]. unfold VersionString. pose proof (itoa_digits (Major v) ltac:(lia)) as Hd.
  pose proof (itoa_nonempty (Major v) ltac:(lia)). destruct (go_itoa (Major v)) as [|c t]; [done|].
  apply Forall_cons in Hd as [[d Hd] _]. rewrite !str_app_cons, HasPrefix_head. destruct (ascii_dec c "v") as [->|]; [discriminate Hd|done].
Qed.

(** A printed version is parsed back: [Parse] inverts [Version.String] on every
    writable version, release or not, whatever the identifier. *)
Theorem version_parsed_back v : writable v -> Parse (Version_String v) = v.
Proof.
  intros Hw. pose proof Hw as [(Hmaj & Hmin & Hpat & Hpre) (Hcommit & Hdot & Hdash & Hnone)].
  assert (forall id pre commit versionName, strings_HasPrefix versionName "v" = false ->
    (strings_Contains versionName "-" = false /\ versionName = VersionString v /\ id = "" /\ pre = 0 /\ commit = "" \/
     exists identifier, strings_Contains versionName "-" = true /\ strings_Split versionName "-" = [VersionString v; identifier] /\
       parse_identifier identifier = (id, pre, commit)) ->
    Parse versionName = {| Major := Major v; Minor := Minor v; Patch := Patch v; Commit := commit; PreReleaseIdentifier := id;
                           PreReleaseVersion := pre |}) as H.
  { intros id pre commit name Hv Hcase. unfold Parse. rewrite Hv.
    destruct Hcase as [(-> & -> & -> & -> & ->)|(identifier & -> & -> & ->)]; rewrite VersionString_elements by done;
      unfold nth_number; simpl; by rewrite !Atoi_itoa. }
  unfold Version_String. case_bool_decide as Hid.
  - rewrite (H (PreReleaseIdentifier v) (PreReleaseVersion v) "").
    + destruct v; simpl in *; by subst.
    + by apply VersionString_no_v.
    + right. exists (PreReleaseIdentifier v +:+ "." +:+ go_itoa (PreReleaseVersion v)).
      pose proof (VersionString_dashless v Hw) as Hvd. split_and!.
      * rewrite str_app_cons, str_app_empty. by apply Contains_first.
      * rewrite str_app_cons, str_app_empty, Split_first by done. f_equal. apply Split_absent.
        rewrite !chars_app. simpl. repeat (rewrite not_elem_of_app || rewrite not_elem_of_cons).
        split_and!; try done; apply digit_free; first [lia|done].
      * unfold parse_identifier. rewrite str_app_cons, str_app_empty, Contains_first, Split_first by done.
        rewrite Split_absent by (apply digit_free; [lia|done]). by rewrite Atoi_itoa.
  - rename Hid into Hid'. assert (PreReleaseIdentifier v = "") as Hid by done. rewrite (H "" 0 "").
    + destruct v; simpl in *; subst. f_equal. by rewrite Hnone.
    + rewrite <-(str_app_nil (VersionString v)). by apply VersionString_no_v.
    + left. split_and!; try done. apply (Contains_absent _ _ "-"); [by apply VersionString_dashless|]. by left.
Qed.

(** One number of two versions decides, or the rest does. *)
Lemma number_asymmetric a b (r r' : bool) :
  (r = true -> r' = false) ->
  (if b <? a then true else if a <? b then false else r) = true -> (if a <? b then true else if b <? a then false else r') = false.
Proof. intros Hr. destruct (Z.ltb_spec b a), (Z.ltb_spec a b); try done; lia. Qed.

Lemma identifier_asymmetric (p q : string) :
  (if bool_decide (p = "rc") && bool_decide (q = "beta") then true
   else if bool_decide (p = "beta") && bool_decide (q = "rc") then false
   else if bool_decide (p = "beta") && bool_decide (q = "alpha") then true
   else if bool_decide (p = "alpha") && bool_decide (q = "beta") then false else false) = true ->
  (if bool_decide (q = "rc") && bool_decide (p = "beta") then true
   else if bool_decide (q = "beta") && bool_decide (p = "rc") then false
   else if bool_decide (q = "beta") && bool_decide (p = "alpha") then true
   else if bool_decide (q = "alpha") && bool_decide (p = "beta") then false else false) = false.
Proof.
  destruct (decide (p = "rc")) as [->|]; [by destruct (decide (q = "beta")) as [->|]; [|rewrite !(bool_decide_false (q = "beta")) by done; rewrite andb_false_r]|].
  rewrite !(bool_decide_false (p = "rc")) by done. simpl.
  destruct (decide (p = "beta")) as [->|]; [|by rewrite !(bool_decide_false (p = "beta")) by done; simpl; destruct (_ && _)].
  destruct (decide (q = "alpha")) as [->|]; [done|]. rewrite !(bool_decide_false (q = "alpha")) by done. by destruct (bool_decide (q = "rc")).
Qed.

(** [After] never holds both ways, and never of a version and itself. *)
Lemma After_asymmetric v w : After v w = true -> After w v = false.
Proof.
  unfold After. repeat apply number_asymmetric. cbv zeta.
  generalize (PreReleaseIdentifier v) (PreReleaseIdentifier w). intros p q.
  destruct (decide (p = "")) as [->|Hp], (decide (q = "")) as [->|Hq]; [done| | |].
  - by rewrite (bool_decide_false (q = "")), (bool_decide_true (q <> "")) by done.
  - by rewrite (bool_decide_false (p = "")), (bool_decide_true (p <> "")) by done.
  - rewrite !(bool_decide_false (p = "")), !(bool_decide_false (q = "")), !(bool_decide_true (p <> "")), !(bool_decide_true (q <> "")) by done.
    simpl. destruct (decide (p = q)) as [->|Hpq]; [rewrite !(bool_decide_true (q = q)) by done; by apply number_asymmetric|].
    rewrite (bool_decide_false (p = q)), (bool_decide_false (q = p)) by done. by apply identifier_asymmetric.
Qed.

(** On releases it is the lexicographic order of the three numbers. *)
Lemma After_release v w :
  PreReleaseIdentifier v = "" -> PreReleaseIdentifier w = "" ->
  After v w = true <-> Major w < Major v \/ (Major w = Major v /\ (Minor w < Minor v \/ (Minor w = Minor v /\ Patch w < Patch v))).
Proof.
  intros Hv Hw. unfold After. rewrite Hv, Hw. simpl.
  repeat (case_match; [split; try done; lia|]). repeat match goal with H : (_ <? _) = _ |- _ => apply Z.ltb_ge in H || apply Z.ltb_lt in H end. split; [done|lia].
Qed.

Definition version_of (id : string) (n : Z) : Version :=
  {| Major := 1; Minor := 12; Patch := 0; Commit := ""; PreReleaseIdentifier := id; PreReleaseVersion := n |}.

Lemma version_parsed_back_witness : Parse "1.12.0-rc.3" = version_of "rc" 3.
Proof. apply (version_parsed_back (version_of "rc" 3)). split_and!; try done; set_solver. Defined.

(** It is no order on the pre-releases: a release candidate is after a beta, a
    beta after an alpha, and the candidate not after the alpha. *)
Example After_not_transitive :
  After (version_of "rc" 1) (version_of "beta" 1) = true /\ After (version_of "beta" 1) (version_of "alpha" 1) = true /\
  After (version_of "rc" 1) (version_of "alpha" 1) = false.
Proof. done. Qed.

(** The short form of a release candidate is not read back. *)
Example bad_string_of_rc :
  BadString (version_of "rc" 3) = "1.12-rc3" /\ PreReleaseIdentifier (Parse "1.12-rc3") = "" /\ Commit (Parse "1.12-rc3") = "rc3".
Proof. vm_compute. done. Qed.
