(* ===== verification/Geosite.v ===== *)
(** * Geosite files

    common/geosite: lists of domains by their code in one file, with an index of
    where each list begins; the rules the lists are compiled to. *)

From stdpp Require Import base list sets gmap strings sorting.
From Stdlib Require Import ZArith Lia.
From S2P Require Import Prelude GoStd ByteReader.

Open Scope Z_scope.
Open Scope box_scope.

(** A [uint8]: a file may hold any of its values. *)
Definition ItemType : Type := Z.
Definition RuleTypeDomain : ItemType := 0.
Definition RuleTypeDomainSuffix : ItemType := 1.
Definition RuleTypeDomainKeyword : ItemType := 2.
Definition RuleTypeDomainRegex : ItemType := 3.

Record Item : Type := { it_Type : ItemType; it_Value : string }.

(** ** Files *)

Section files.
(** sing's varbin: the form of a code and of an item.  [make_panics n] says that
    a slice of [n] elements cannot be made. *)
Context (code_codec : codec string) (item_codec : codec Item) (make_panics : Z -> bool).

Definition sorted_codes (domains : gmap string (list Item)) : list string := merge_sort string_le (map fst (map_to_list domains)).

Definition items_of (domains : gmap string (list Item)) (code : string) : list Item := default [] (domains !! code).
Definition list_bytes (domains : gmap string (list Item)) (code : string) : list Z :=
  flat_map (enc item_codec) (items_of domains code).

(** The index of a code: where its list begins in the content. *)
Fixpoint index_entries (domains : gmap string (list Item)) (keys : list string) (offset : nat) : list (string * Z * Z) :=
  match keys with
  | [] => []
  | code :: keys =>
      (code, Z.of_nat offset, Z.of_nat (length (items_of domains code))) ::
      index_entries domains keys (offset + length (list_bytes domains code))
  end.

Definition entry_bytes (e : string * Z * Z) : list Z :=
  let '(code, index, length) := e in enc code_codec code ++ AppendUvarint index ++ AppendUvarint length.

(** [Write], to a writer that does not fail *)
Definition Write (domains : gmap string (list Item)) : list Z :=
  let keys := sorted_codes domains in
  [0] ++ AppendUvarint (Z.of_nat (length keys)) ++ flat_map entry_bytes (index_entries domains keys 0) ++
  flat_map (list_bytes domains) keys.

(** A reader: the file, where the content begins, and the two maps of the index. *)
Record GeoReader : Type := { gr_file : list Z; gr_metadataIndex : Z; gr_domainIndex : gmap string Z; gr_domainLength : gmap string Z }.

Fixpoint read_entries (n : nat) (index lengths : gmap string Z) (r : Reader) : res (gmap string Z * gmap string Z * Reader) :=
  match n with
  | O => Ok (index, lengths, r)
  | S n =>
      let* '(code, r) := dec code_codec r in
      let* '(codeIndex, r) := ReadUvarint r in
      let* '(codeLength, r) := ReadUvarint r in
      read_entries n (<[code := to_int64 codeIndex]> index) (<[code := to_int64 codeLength]> lengths) r
  end.

(** [NewReader], that is [readMetadata], of a whole file *)
Definition NewReader (file : list Z) : res GeoReader :=
  let* '(version, r) := ReadByte {| rd_bytes := file; rd_end := ErrEOF |} in
  if negb (version =? 0) then Err (ErrNew "unknown version")
  else
    let* '(entryLength, r) := ReadUvarint r in
    if make_panics entryLength then Panic "makeslice: len out of range"
    else
      let* '(index, lengths, r) := read_entries (Z.to_nat entryLength) ∅ ∅ r in
      Ok {| gr_file := file; gr_metadataIndex := Z.of_nat (length file) - Z.of_nat (length (rd_bytes r));
            gr_domainIndex := index; gr_domainLength := lengths |}.

Fixpoint read_items (n : nat) (r : Reader) : res (list Item) :=
  match n with
  | O => Ok []
  | S n => let* '(item, r) := dec item_codec r in let* items := read_items n r in Ok (item :: items)
  end.

(** [Reader.Read]: the list is found by its index; varbin fills the slice that was
    made, item after item. *)
Definition GeoReader_Read (r : GeoReader) (code : string) : res (list Item) :=
  match gr_domainIndex r !! code with
  | None => Err (ErrNew ("code " +:+ code +:+ " not exists!"))
  | Some index =>
      let position := to_int64 (gr_metadataIndex r + index) in
      if position <? 0 then Err (ErrNew "negative position")
      else
      let at_list := {| rd_bytes := drop (Z.to_nat position) (gr_file r); rd_end := ErrEOF |} in
      let length := default 0 (gr_domainLength r !! code) in
      if make_panics length then Panic "makeslice: len out of range" else read_items (Z.to_nat length) at_list
  end.

(** ** Every list is read back *)

Lemma read_entries_app n m index lengths r :
  read_entries (n + m) index lengths r =
  let* '(index, lengths, r) := read_entries n index lengths r in read_entries m index lengths r.
Proof.
  revert index lengths r; induction n as [|n IH]; intros index lengths r; [done|]. simpl.
  destruct (dec code_codec r) as [[code r1]| |]; [|done..]. simpl. destruct (ReadUvarint r1) as [[i r2]| |]; [|done..]. simpl.
  destruct (ReadUvarint r2) as [[l r3]| |]; [|done..]. apply IH.
Qed.

Definition entry_fits (e : string * Z * Z) : Prop := let '(_, i, l) := e in 0 <= i < 2 ^ 63 /\ 0 <= l < 2 ^ 63.

Definition add_index (entries : list (string * Z * Z)) (index : gmap string Z) : gmap string Z :=
  fold_left (fun m (e : string * Z * Z) => <[e.1.1 := e.1.2]> m) entries index.
Definition add_length (entries : list (string * Z * Z)) (lengths : gmap string Z) : gmap string Z :=
  fold_left (fun m (e : string * Z * Z) => <[e.1.1 := e.2]> m) entries lengths.

Lemma read_entries_written (code_ok : string -> Prop) entries : forall index lengths rest e,
  codec_law code_codec code_ok -> Forall (fun e : string * Z * Z => code_ok e.1.1) entries -> Forall entry_fits entries ->
  read_entries (length entries) index lengths {| rd_bytes := flat_map entry_bytes entries ++ rest; rd_end := e |} =
  Ok (add_index entries index, add_length entries lengths, {| rd_bytes := rest; rd_end := e |}).
Proof.
  induction entries as [|[[code i] l] entries IH]; intros index lengths rest e Hlaw Hok Hfit; [done|].
  apply Forall_cons in Hok as [Hc Hok]. apply Forall_cons in Hfit as [[Hi Hl] Hfit]. simpl. rewrite <-!app_assoc.
  rewrite (Hlaw code Hc). cbn [res_bind]. rewrite (reads_uvarint i ltac:(lia)). cbn [res_bind]. rewrite (reads_uvarint l ltac:(lia)). cbn [res_bind].
  rewrite !to_int64_id by lia.
  by apply IH.
Qed.

Lemma read_items_written (item_ok : Item -> Prop) items rest e :
  codec_law item_codec item_ok -> Forall item_ok items ->
  read_items (length items) {| rd_bytes := flat_map (enc item_codec) items ++ rest; rd_end := e |} = Ok items.
Proof.
  intros Hlaw. induction 1 as [|item items Hitem Hitems IH]; [done|]. simpl. rewrite <-app_assoc, (Hlaw item Hitem). simpl. by rewrite IH.
Qed.

Lemma length_index_entries domains keys offset : length (index_entries domains keys offset) = length keys.
Proof. revert offset; induction keys as [|code keys IH]; intros offset; simpl; [done|]. by rewrite IH. Qed.

Lemma index_entries_codes domains keys offset : map (fun e : string * Z * Z => e.1.1) (index_entries domains keys offset) = keys.
Proof. revert offset; induction keys as [|code keys IH]; intros offset; simpl; [done|]. by rewrite IH. Qed.

(** Where a code's list is, from the offset of the first one. *)
Lemma index_entries_at domains before code after offset :
  (code, Z.of_nat (offset + length (flat_map (list_bytes domains) before)), Z.of_nat (length (items_of domains code)))
    ∈ index_entries domains (before ++ code :: after) offset.
Proof.
  revert offset; induction before as [|c before IH]; intros offset; simpl.
  - rewrite Nat.add_0_r. by left.
  - right. rewrite length_app, Nat.add_assoc. apply IH.
Qed.

Lemma index_entries_bound domains keys offset e :
  e ∈ index_entries domains keys offset ->
  0 <= e.1.2 <= Z.of_nat (offset + length (flat_map (list_bytes domains) keys)) /\ e.2 = Z.of_nat (length (items_of domains e.1.1)).
Proof.
  revert offset; induction keys as [|code keys IH]; intros offset; simpl; [by intros ?%elem_of_nil|].
  rewrite length_app. intros [->|Hin]%elem_of_cons; [simpl; lia|]. apply IH in Hin. lia.
Qed.

Lemma add_lookup (f : string * Z * Z -> Z) entries m code v :
  NoDup (map (fun e : string * Z * Z => e.1.1) entries) -> (exists e, e ∈ entries /\ e.1.1 = code /\ f e = v) ->
  fold_left (fun (m : gmap string Z) e => <[e.1.1 := f e]> m) entries m !! code = Some v.
Proof.
  revert m; induction entries as [|e0 entries IH]; intros m Hnd (e & Hin & Hc & Hv); [by apply elem_of_nil in Hin|].
  simpl in Hnd. apply NoDup_cons in Hnd as [Hnot Hnd]. simpl. apply elem_of_cons in Hin as [->|Hin]; [|apply IH; by eauto].
  assert (forall l m, code ∉ map (fun e : string * Z * Z => e.1.1) l -> m !! code = Some v ->
    fold_left (fun (m : gmap string Z) e => <[e.1.1 := f e]> m) l m !! code = Some v) as Hkeep.
  { clear. induction l as [|e l IH]; intros m Hl Hm; [done|]. simpl in *. apply not_elem_of_cons in Hl as [Hne Hl].
    apply IH; [done|]. by rewrite lookup_insert_ne. }
  subst. apply Hkeep; [done|]. apply lookup_insert_eq.
Qed.

Lemma elem_of_map {A B} (f : A -> B) l x : x ∈ map f l <-> exists y, x = f y /\ y ∈ l.
Proof. apply list_elem_of_fmap. Qed.

Lemma sorted_codes_perm domains : sorted_codes domains ≡ₚ map fst (map_to_list domains).
Proof. apply merge_sort_Permutation. Qed.

Lemma sorted_codes_spec domains :
  NoDup (sorted_codes domains) /\ forall code, code ∈ sorted_codes domains <-> is_Some (domains !! code).
Proof.
  split; [rewrite sorted_codes_perm; apply NoDup_fst_map_to_list|]. intros code. rewrite sorted_codes_perm, elem_of_map. split.
  - intros ([c items] & -> & Hin). apply elem_of_map_to_list in Hin. by eexists.
  - intros [items Hi]. exists (code, items). split; [done|]. by apply elem_of_map_to_list.
Qed.

(** What [Write] wrote, [NewReader] opens with the same codes, and [Read] gives
    the list of every code: for a file shorter than 2^63 bytes, whose lists can
    be made. *)
Theorem geosite_read_back code_ok item_ok domains code items :
  codec_law code_codec code_ok -> codec_law item_codec item_ok ->
  (forall c l, domains !! c = Some l -> code_ok c /\ Forall item_ok l /\ make_panics (Z.of_nat (length l)) = false /\
     Z.of_nat (length l) < 2 ^ 63) ->
  make_panics (Z.of_nat (length (sorted_codes domains))) = false -> Z.of_nat (length (sorted_codes domains)) < 2 ^ 63 ->
  Z.of_nat (length (Write domains)) < 2 ^ 63 -> domains !! code = Some items ->
  exists r, NewReader (Write domains) = Ok r /\ dom (gr_domainIndex r) = dom domains /\ GeoReader_Read r code = Ok items.
Proof.
  intros Hcode Hitem Hok Hmake Hkeys Hlen Hlook. destruct (sorted_codes_spec domains) as [Hnd Hin].
  set (keys := sorted_codes domains) in *. set (entries := index_entries domains keys 0).
  set (content := flat_map (list_bytes domains) keys).
  assert (Write domains = [0] ++ AppendUvarint (Z.of_nat (length keys)) ++ flat_map entry_bytes entries ++ content) as Hw by done.
  assert (Z.of_nat (length content) < 2 ^ 63) as Hcontent by (rewrite Hw, !length_app in Hlen; simpl in Hlen; lia).
  assert (Forall (fun e : string * Z * Z => code_ok e.1.1) entries /\ Forall entry_fits entries) as [Hcodes Hfits].
  { split; apply Forall_forall; intros e He.
    - assert (e.1.1 ∈ keys) as [l Hl]%Hin.
      { rewrite <-(index_entries_codes domains keys 0). apply elem_of_map. by exists e. }
      by destruct (Hok _ _ Hl).
    - pose proof (index_entries_bound _ _ _ _ He) as [Hi Hl]. destruct e as [[c i] l]. simpl in *. subst l. split; [unfold content in *; lia|].
      unfold items_of. destruct (domains !! c) as [l|] eqn:El; simpl; [|lia]. destruct (Hok _ _ El) as (_ & _ & _ & ?). lia. }
  assert (length entries = length keys) as Hle by apply length_index_entries.
  exists {| gr_file := Write domains; gr_metadataIndex := Z.of_nat (length (Write domains)) - Z.of_nat (length content);
            gr_domainIndex := add_index entries ∅; gr_domainLength := add_length entries ∅ |}.
  split_and!.
  - unfold NewReader. rewrite Hw at 1. cbn [app]. unfold ReadByte at 1. cbn [rd_bytes res_bind].
    cbn [Z.eqb negb]. rewrite (reads_uvarint (Z.of_nat (length keys)) ltac:(lia)). cbn [res_bind]. rewrite Hmake, Nat2Z.id, <-Hle.
    rewrite (read_entries_written code_ok) by done. by cbn [res_bind rd_bytes].
  - simpl. apply set_eq. intros c. rewrite !elem_of_dom, <-Hin. unfold add_index.
    assert (forall l (m : gmap string Z), is_Some (fold_left (fun m (e : string * Z * Z) => <[e.1.1 := e.1.2]> m) l m !! c) <->
      is_Some (m !! c) \/ c ∈ map (fun e : string * Z * Z => e.1.1) l) as Hadd.
    { clear. induction l as [|e l IH]; intros m; simpl; [rewrite elem_of_nil; tauto|]. rewrite IH, elem_of_cons.
      destruct (decide (e.1.1 = c)) as [->|Hne]; [rewrite lookup_insert_eq; naive_solver|rewrite lookup_insert_ne by done; naive_solver]. }
    rewrite Hadd. unfold entries. rewrite index_entries_codes, lookup_empty. split; [intros [[? [=]]|?]; done|by right].
  - assert (code ∈ keys) as Hc by (apply Hin; by eexists). apply list_elem_of_split in Hc as (before & after & Hsplit).
    pose proof (index_entries_at domains before code after 0) as Hat. rewrite <-Hsplit in Hat. fold entries in Hat. rewrite Nat.add_0_l in Hat.
    assert (items_of domains code = items) as Hitems by (unfold items_of; by rewrite Hlook). rewrite Hitems in Hat.
    assert (NoDup (map (fun e : string * Z * Z => e.1.1) entries)) as Hnd' by (unfold entries; by rewrite index_entries_codes).
    unfold GeoReader_Read. cbn [gr_domainIndex gr_domainLength gr_metadataIndex gr_file].
    unfold add_index. rewrite (add_lookup (fun e => e.1.2) entries ∅ code _ Hnd') by (eexists; split; [exact Hat|by split]).
    unfold add_length. rewrite (add_lookup (fun e => e.2) entries ∅ code _ Hnd') by (eexists; split; [exact Hat|by split]).
    destruct (Hok _ _ Hlook) as (_ & Hi & Hm & _). cbn [from_option fst snd]. unfold id. rewrite Hm, Nat2Z.id.
    assert (length (flat_map (list_bytes domains) before) <= length content)%nat as Hbefore.
    { unfold content. rewrite Hsplit, flat_map_app, length_app. lia. }
    assert (length content <= length (Write domains))%nat as Hcl by (rewrite Hw, !length_app; lia).
    rewrite to_int64_id by lia. rewrite (proj2 (Z.ltb_ge _ 0)) by lia.
    rewrite Hw, !app_assoc. set (head := ([0] ++ AppendUvarint (Z.of_nat (length keys))) ++ flat_map entry_bytes entries).
    assert (Z.to_nat (Z.of_nat (length (head ++ content)) - Z.of_nat (length content) +
      Z.of_nat (length (flat_map (list_bytes domains) before))) = length head + length (flat_map (list_bytes domains) before))%nat as ->
      by (rewrite length_app; lia).
    rewrite <-drop_drop, drop_app_length. unfold content. rewrite Hsplit, flat_map_app, drop_app_length. simpl flat_map.
    unfold list_bytes at 1. rewrite Hitems. by eapply read_items_written.
Qed.
End files.

(** ** Rules *)

(** The domain fields of [option.DefaultRule]. *)
Record GeoRule : Type := { ge_Domain : list string; ge_DomainSuffix : list string; ge_DomainKeyword : list string; ge_DomainRegex : list string }.

Definition values_of (t : ItemType -> bool) (code : list Item) : list string := map it_Value (List.filter (fun i => t (it_Type i)) code).

(** [Compile]: one pass appends each value to the list of its type. *)
Definition Compile (code : list Item) : GeoRule :=
  fold_left (fun r i =>
    if it_Type i =? RuleTypeDomain then
      {| ge_Domain := ge_Domain r ++ [it_Value i]; ge_DomainSuffix := ge_DomainSuffix r; ge_DomainKeyword := ge_DomainKeyword r; ge_DomainRegex := ge_DomainRegex r |}
    else if it_Type i =? RuleTypeDomainSuffix then
      {| ge_Domain := ge_Domain r; ge_DomainSuffix := ge_DomainSuffix r ++ [it_Value i]; ge_DomainKeyword := ge_DomainKeyword r; ge_DomainRegex := ge_DomainRegex r |}
    else if it_Type i =? RuleTypeDomainKeyword then
      {| ge_Domain := ge_Domain r; ge_DomainSuffix := ge_DomainSuffix r; ge_DomainKeyword := ge_DomainKeyword r ++ [it_Value i]; ge_DomainRegex := ge_DomainRegex r |}
    else if it_Type i =? RuleTypeDomainRegex then
      {| ge_Domain := ge_Domain r; ge_DomainSuffix := ge_DomainSuffix r; ge_DomainKeyword := ge_DomainKeyword r; ge_DomainRegex := ge_DomainRegex r ++ [it_Value i] |}
    else r) code {| ge_Domain := []; ge_DomainSuffix := []; ge_DomainKeyword := []; ge_DomainRegex := [] |}.

(** [Merge] *)
Definition Merge (rules : list GeoRule) : GeoRule :=
  {| ge_Domain := flat_map ge_Domain rules; ge_DomainSuffix := flat_map ge_DomainSuffix rules;
     ge_DomainKeyword := flat_map ge_DomainKeyword rules; ge_DomainRegex := flat_map ge_DomainRegex rules |}.

Definition is_type (t t' : ItemType) : bool := t' =? t.

(** Every value of a known type is kept, in the list of its type, in order. *)
Lemma Compile_spec code :
  Compile code = {| ge_Domain := values_of (is_type RuleTypeDomain) code; ge_DomainSuffix := values_of (is_type RuleTypeDomainSuffix) code;
                    ge_DomainKeyword := values_of (is_type RuleTypeDomainKeyword) code;
                    ge_DomainRegex := values_of (is_type RuleTypeDomainRegex) code |}.
Proof.
  induction code as [|i code IH] using rev_ind; [done|]. unfold Compile in *. rewrite fold_left_app, IH. unfold values_of.
  rewrite !List.filter_app, !map_app. destruct i as [t v]. cbn [List.filter map it_Type it_Value fold_left]. unfold is_type.
  destruct (Z.eqb_spec t RuleTypeDomain) as [->|]; [simpl; by rewrite !app_nil_r|].
  destruct (Z.eqb_spec t RuleTypeDomainSuffix) as [->|]; [simpl; by rewrite !app_nil_r|].
  destruct (Z.eqb_spec t RuleTypeDomainKeyword) as [->|]; [simpl; by rewrite !app_nil_r|].
  destruct (Z.eqb_spec t RuleTypeDomainRegex) as [->|]; simpl; by rewrite !app_nil_r.
Qed.

(** Merging the compiled lists is compiling their concatenation. *)
Lemma Merge_Compile codes : Merge (map Compile codes) = Compile (concat codes).
Proof.
  rewrite Compile_spec. unfold Merge, values_of.
  induction codes as [|code codes IH]; [done|]. simpl. rewrite !List.filter_app, !map_app, Compile_spec. injection IH as -> -> -> ->. done.
Qed.

(** ** A run *)

(** Lengths in front of the bytes of a string. *)
Definition string_codec : codec string := {|
  enc s := AppendUvarint (Z.of_nat (String.length s)) ++ bytes_of s;
  dec r := let* '(n, r) := ReadUvarint r in let* '(l, r) := ReadFull (Z.to_nat n) r in Ok (string_of_bytes l, r) |}.

Definition item_codec : codec Item := {|
  enc i := it_Type i :: enc string_codec (it_Value i);
  dec r := let* '(t, r) := ReadByte r in let* '(v, r) := dec string_codec r in Ok ({| it_Type := t; it_Value := v |}, r) |}.

Definition short_string (s : string) : Prop := Z.of_nat (String.length s) < 2 ^ 63.

Lemma string_codec_law : codec_law string_codec short_string.
Proof.
  intros s Hs rest e. unfold short_string in Hs. simpl. rewrite <-app_assoc, (reads_uvarint (Z.of_nat (String.length s)) ltac:(lia)). cbn [res_bind].
  rewrite Nat2Z.id, <-length_bytes_of, (reads_full (bytes_of s)). cbn [res_bind]. by rewrite string_of_bytes_of.
Qed.

Lemma item_codec_law : codec_law item_codec (fun i => short_string (it_Value i)).
Proof.
  intros [t v] Hv rest e. simpl in Hv. pose proof (string_codec_law v Hv rest e) as H. simpl in H |- *.
  unfold ReadByte. cbn [rd_bytes rd_end res_bind app]. rewrite H. cbn [res_bind]. done.
Qed.

Definition two_lists : gmap string (list Item) :=
  {[ "ads" := [{| it_Type := RuleTypeDomain; it_Value := "ad.example.com" |}; {| it_Type := RuleTypeDomainKeyword; it_Value := "ads" |}];
     "cn" := [{| it_Type := RuleTypeDomainSuffix; it_Value := ".cn" |}] ]}.

Lemma geosite_read_back_witness :
  exists r, NewReader string_codec (fun _ => false) (Write string_codec item_codec two_lists) = Ok r /\
    dom (gr_domainIndex r) = dom two_lists /\
    GeoReader_Read item_codec (fun _ => false) r "cn" = Ok [{| it_Type := RuleTypeDomainSuffix; it_Value := ".cn" |}].
Proof.
  apply (geosite_read_back string_codec item_codec (fun _ => false) short_string (fun i => short_string (it_Value i)) two_lists).
  - apply string_codec_law.
  - apply item_codec_law.
  - intros c l Hl. apply elem_of_map_to_list in Hl. vm_compute in Hl.
    repeat (apply elem_of_cons in Hl as [[= -> ->]|Hl]; [split_and!; [done|by repeat constructor|done|done]|]). by apply elem_of_nil in Hl.
  - done.
  - vm_compute. done.
  - vm_compute. done.
  - done.
Defined.
