(* ===== verification/HostsFile.v ===== *)
(** * Hosts files

    dns/transport/hosts: lines as [bufio.Reader.ReadLine] gives them, the file
    that is read again when it changed, and the transport that answers from
    predefined names and files. *)

From stdpp Require Import base list strings gmap.
From Stdlib Require Import ZArith Lia Ascii.
From S2P Require Import Prelude GoStd External Adapter RuleAction DnsMsg ByteReader StringFacts.

Open Scope Z_scope.
Open Scope box_scope.

(** ** Lines *)

Definition newline : ascii := "010".
Definition return_char : ascii := "013".

(** Where the first newline is among the first [n] bytes. *)
Fixpoint find_newline (n : nat) (l : list ascii) : option nat :=
  match n, l with
  | S n, c :: l => if bool_decide (c = newline) then Some O else S <$> find_newline n l
  | _, _ => None
  end.

(** A line without the carriage return at its end. *)
Definition drop_cr (l : list ascii) : list ascii :=
  match last l with Some c => if bool_decide (c = return_char) then removelast l else l | None => l end.

(** [bufio.Reader.ReadLine] with a buffer of [size] bytes, on what is left of the
    file: a line, whether more of it follows, and the rest; none at the end. *)
Definition ReadLine (size : nat) (l : list ascii) : option (list ascii * bool * list ascii) :=
  match find_newline size l with
  | Some i => Some (drop_cr (take i l), false, drop (S i) l)
  | None =>
      if (length l <? size)%nat then
        match l with [] => None | _ => Some (l, false, []) end
      else if bool_decide (last (take size l) = Some return_char) then
        Some (take (size - 1) l, true, drop (size - 1) l)
      else Some (take size l, true, drop size l)
  end.

(** The loops of hosts_file.go and resolv_unix.go around it, which put the parts
    of a long line together. *)
Fixpoint read_lines (fuel size : nat) (l prefix : list ascii) : list (list ascii) :=
  match fuel with
  | O => []
  | S fuel =>
      match ReadLine size l with
      | None => []
      | Some (line, true, rest) => read_lines fuel size rest (prefix ++ line)
      | Some (line, false, rest) => (prefix ++ line) :: read_lines fuel size rest []
      end
  end.

Definition bufio_size : nat := Z.to_nat 4096.

Definition file_lines (content : list ascii) : list (list ascii) :=
  read_lines (S (length content)) bufio_size content [].

(** *** What the loop reads *)

Lemma find_newline_here n line rest : newline ∉ line -> (length line < n)%nat ->
  find_newline n (line ++ newline :: rest) = Some (length line).
Proof.
  revert n; induction line as [|c line IH]; intros [|n] Hnot Hn; simpl in *; try lia.
  - done.
  - apply not_elem_of_cons in Hnot as [Hc Hnot]. rewrite bool_decide_false by congruence. rewrite IH by (done || lia). done.
Qed.

Lemma find_newline_later n line rest : newline ∉ line -> (n <= length line)%nat ->
  find_newline n (line ++ rest) = None.
Proof.
  revert n; induction line as [|c line IH]; intros [|n] Hnot Hn; simpl in *; try done; [lia|].
  apply not_elem_of_cons in Hnot as [Hc Hnot]. rewrite bool_decide_false by congruence. rewrite IH by (done || lia). done.
Qed.

Lemma drop_cr_app a b : b <> [] -> drop_cr (a ++ b) = a ++ drop_cr b.
Proof.
  intros Hb. unfold drop_cr. rewrite last_app. destruct (last b) as [c|] eqn:E; [|by apply last_None in E].
  case_bool_decide; [|done]. by apply removelast_app.
Qed.

Lemma drop_cr_other l : last l <> Some return_char -> drop_cr l = l.
Proof. unfold drop_cr. destruct (last l) as [c|]; [|done]. intros Hc. rewrite bool_decide_false; [done|congruence]. Qed.

Lemma last_take_split {A} (l : list A) n c : last (take n l) = Some c -> (1 <= n <= length l)%nat -> take n l = take (n - 1) l ++ [c].
Proof.
  intros Hl Hn. rewrite last_lookup, length_take in Hl. replace (Nat.pred (n `min` length l)) with (n - 1)%nat in Hl by lia.
  rewrite lookup_take_lt in Hl by lia. replace n with (S (n - 1)) at 1 by lia. by apply take_S_r.
Qed.

Definition unlines (ls : list (list ascii)) : list ascii := flat_map (fun l => l ++ [newline]) ls.

Lemma length_unlines_cons x ls : length (unlines (x :: ls)) = S (length x + length (unlines ls)).
Proof. unfold unlines. simpl. rewrite !length_app. simpl. lia. Qed.

(** What the first line of a text becomes behind a prefix. *)
Definition with_prefix (prefix : list ascii) (ls : list (list ascii)) : list (list ascii) :=
  match ls with [] => [] | l :: ls => (prefix ++ l) :: ls end.

(** Lines that end in a newline are read whole however long they are, and so is a
    last line without one that is shorter than the buffer. *)
Lemma read_lines_spec size ls rest : forall fuel prefix,
  (2 <= size)%nat -> Forall (fun l => newline ∉ l) ls -> newline ∉ rest -> (length rest < size)%nat ->
  (ls = [] -> prefix = []) -> (length (unlines ls ++ rest) < fuel)%nat ->
  read_lines fuel size (unlines ls ++ rest) prefix = with_prefix prefix (map drop_cr ls) ++ (if decide (rest = []) then [] else [rest]).
Proof.
  intros fuel; revert ls; induction fuel as [|fuel IH]; intros ls prefix Hsize Hls Hrest Hlen Hp Hfuel; [lia|]. cbn [read_lines]. unfold ReadLine.
  destruct ls as [|x ls]; [change (unlines []) with (@nil ascii)|change (unlines (x :: ls)) with ((x ++ [newline]) ++ unlines ls)]; cbn [app].
  - rewrite (Hp eq_refl). cbn [with_prefix map app]. rewrite <-(app_nil_r rest) at 1.
    assert (find_newline size rest = None) as Hf.
    { clear -Hrest. revert size; induction rest as [|c rest IHr]; intros [|size]; simpl; try done.
      apply not_elem_of_cons in Hrest as [Hc Hr]. rewrite bool_decide_false by congruence. by rewrite IHr. }
    rewrite app_nil_r, Hf, (proj2 (Nat.ltb_lt _ _) Hlen). destruct rest as [|c r]; [done|]. rewrite decide_False by done. simpl.
    f_equal. destruct fuel as [|fuel]; [done|]. cbn [read_lines]. unfold ReadLine. destruct size; [lia|]. done.
  - apply Forall_cons in Hls as [Hx Hls]. rewrite <-!app_assoc. simpl app. destruct (decide (length x < size)%nat) as [Hs|Hs].
    + rewrite find_newline_here by done. rewrite take_app_length. replace (S (length x)) with (length x + 1)%nat by lia. rewrite drop_app_add. cbn [drop]. rewrite drop_0.
      rewrite length_app, length_unlines_cons in Hfuel. rewrite (IH ls []) by (done || (rewrite length_app; lia)).
      destruct ls; done.
    + rewrite find_newline_later by (done || lia). rewrite (proj2 (Nat.ltb_ge _ _)) by (rewrite length_app; simpl; lia).
      assert (forall k, (1 <= k <= length x)%nat -> drop_cr x = take k x ++ drop_cr (drop k x) ->
        read_lines fuel size (drop k (x ++ newline :: unlines ls ++ rest)) (prefix ++ take k (x ++ newline :: unlines ls ++ rest)) =
        with_prefix prefix (map drop_cr (x :: ls)) ++ (if decide (rest = []) then [] else [rest])) as Hchunk.
      { intros k Hk Hd. rewrite drop_app_le, take_app_le by lia.
        pose proof (IH (drop k x :: ls) (prefix ++ take k x)) as H. change (unlines (drop k x :: ls)) with ((drop k x ++ [newline]) ++ unlines ls) in H. rewrite <-!app_assoc in H. cbn [app] in H.
        rewrite H; [|done| |done|done|done|].
        - simpl. rewrite Hd. rewrite <-!app_assoc. done.
        - constructor; [|done]. intros Hin. apply Hx. rewrite <-(take_drop k x). apply elem_of_app. by right.
        - rewrite length_app, length_unlines_cons in Hfuel. simpl. rewrite length_app. simpl. rewrite length_app, length_drop. lia. }
      rewrite take_app_le by lia. case_bool_decide as Hcr.
      * apply Hchunk; [lia|]. rewrite <-drop_cr_app; [by rewrite take_drop|].
        intros Hd. apply (f_equal length) in Hd. rewrite length_drop in Hd. simpl in Hd. lia.
      * rewrite <-(take_app_le x (newline :: unlines ls ++ rest) size) at 1 by lia. apply Hchunk; [lia|].
        destruct (decide (drop size x = [])) as [Hd|Hd]; [|rewrite <-drop_cr_app by done; by rewrite take_drop].
        rewrite Hd. simpl. rewrite app_nil_r. assert (take size x = x) as Ht by (rewrite <-(app_nil_r (take size x)), <-Hd; apply take_drop).
        rewrite Ht in *. by apply drop_cr_other.
Qed.

(** A last line without a newline that fills the buffer is lost: its part is kept
    as a prefix, and the end of the file drops it. *)
Example last_line_lost :
  map (fun text => read_lines 100 16 (chars text) []) ["10.0.0.1 a.local"; "10.0.0.1 b.locals"] =
  [[]; [chars "10.0.0.1 b.locals"]].
Proof. done. Qed.

(** ** Entries *)

Definition ascii_space (c : ascii) : bool :=
  let z := byte_of c in (z =? 32) || ((9 <=? z) && (z <=? 13)).

(** [strings.Fields] on ASCII text *)
Fixpoint fields (l cur : list ascii) : list string :=
  match l with
  | [] => match cur with [] => [] | _ => [String.string_of_list_ascii (rev cur)] end
  | c :: l =>
      if ascii_space c then
        match cur with [] => fields l [] | _ => String.string_of_list_ascii (rev cur) :: fields l [] end
      else fields l (c :: cur)
  end.

(** The Unicode path of [strings.Fields] is an argument. *)
Definition strings_Fields (unicode_fields : string -> list string) (s : string) : list string :=
  if is_ascii_string s then fields (chars s) [] else unicode_fields s.

Fixpoint before_char (c : ascii) (l : list ascii) : list ascii :=
  match l with [] => [] | x :: l => if bool_decide (x = c) then [] else x :: before_char c l end.

Section hosts.
(** The Unicode path of [strings.Fields], and [dns.CanonicalName] of miekg/dns. *)
Context (unicode_fields : string -> list string) (CanonicalName : string -> string).

(** The names of a line with its address. *)
Definition line_entries (line : list ascii) : list (string * Addr) :=
  match strings_Fields unicode_fields (String.string_of_list_ascii (before_char "#" line)) with
  | address :: names =>
      match names, netip_ParseAddr address with
      | _ :: _, Ok addr => map (fun name => (CanonicalName name, addr)) names
      | _, _ => []
      end
  | [] => []
  end.

Definition file_entries (content : list ascii) : list (string * Addr) := flat_map line_entries (file_lines content).

Definition add_entry (byName : gmap string (list Addr)) (e : string * Addr) : gmap string (list Addr) :=
  <[fst e := default [] (byName !! fst e) ++ [snd e]]> byName.

Definition names_of (entries : list (string * Addr)) : gmap string (list Addr) := fold_left add_entry entries ∅.

(** ** The file *)

(** [File]; the zero time is 0. *)
Record File : Type := { f_byName : gmap string (list Addr); f_expire : Z; f_modTime : Z; f_size : Z }.
Definition NewFile : File := {| f_byName := ∅; f_expire := 0; f_modTime := 0; f_size := 0 |}.

Definition cacheMaxAge : Z := 5 * 10 ^ 9.

(** What a call of [update] finds: the time, modification time and size, and the
    content, with the error that ends it before its end. *)
Record Disk : Type := { dk_now : Z; dk_stat : option (Z * Z); dk_open : option (list ascii * bool) }.

Definition with_expire (t : Z) (f : File) : File :=
  {| f_byName := f_byName f; f_expire := t; f_modTime := f_modTime f; f_size := f_size f |}.

(** [update] *)
Definition update (d : Disk) (f : File) : File :=
  if (dk_now d <? f_expire f) && negb (bool_decide (f_byName f = ∅)) then f
  else
    match dk_stat d with
    | None => f
    | Some (modTime, size) =>
        if (f_modTime f =? modTime) && (f_size f =? size) then with_expire (dk_now d + cacheMaxAge) f
        else
          match dk_open d with
          | None | Some (_, true) => f
          | Some (content, false) =>
              {| f_byName := names_of (file_entries content); f_expire := dk_now d + cacheMaxAge;
                 f_modTime := modTime; f_size := size |}
          end
    end.

Definition File_Lookup (d : Disk) (name : string) (f : File) : list Addr * File :=
  let f := update d f in (default [] (f_byName f !! CanonicalName name), f).

(** ** The transport *)

Record HostsTransport : Type := { ht_files : list File; ht_predefined : gmap string (list Addr) }.

(** [NewTransport]: a predefined name that is there twice has its last addresses. *)
Definition NewHostsTransport (paths : nat) (predefined : list (string * list Addr)) : HostsTransport :=
  {| ht_files := replicate (if bool_decide (paths = O) then 1%nat else paths) NewFile;
     ht_predefined := fold_left (fun m e => <[CanonicalName (fst e) := snd e]> m) predefined ∅ |}.

(** The walk over the files, each with what its disk holds: the addresses of the
    first one that has some. *)
Fixpoint lookup_files (domain : string) (files : list (File * Disk)) : list Addr * list File :=
  match files with
  | [] => ([], [])
  | (f, d) :: files =>
      let '(addresses, f) := File_Lookup d domain f in
      match addresses with
      | [] => let '(addresses, fs) := lookup_files domain files in (addresses, f :: fs)
      | _ => (addresses, f :: map fst files)
      end
  end.

Definition DefaultDNSTTL : Z := 600.

Definition is_address_type (q : Question) : bool := (q_Qtype q =? TypeA) || (q_Qtype q =? TypeAAAA).

(** The answer that the name does not exist. *)
Definition name_error (id : Z) (q : Question) : DMsg := Build_Msg id true false false false RcodeNameError [q] [] [] [].

(** [Transport.Exchange] *)
Definition HostsTransport_Exchange (message : DMsg) (disks : list Disk) (t : HostsTransport) : res DMsg * HostsTransport :=
  match msg_Question message with
  | [] => (Panic "index out of range [0] with length 0", t)
  | question :: _ =>
      let domain := CanonicalName (q_Name question) in
      if is_address_type question then
        match ht_predefined t !! domain with
        | Some addresses => (Ok (FixedResponse (msg_Id message) question addresses DefaultDNSTTL), t)
        | None =>
            let '(addresses, files) := lookup_files domain (zip (ht_files t) disks) in
            let t := {| ht_files := files; ht_predefined := ht_predefined t |} in
            match addresses with
            | [] => (Ok (name_error (msg_Id message) question), t)
            | _ => (Ok (FixedResponse (msg_Id message) question addresses DefaultDNSTTL), t)
            end
        end
      else (Ok (name_error (msg_Id message) question), t)
  end.

(** *** What a file answers *)

Definition addresses_in (name : string) (entries : list (string * Addr)) : list Addr :=
  map snd (List.filter (fun e => bool_decide (fst e = name)) entries).

Lemma names_of_lookup entries name : default [] (names_of entries !! name) = addresses_in name entries.
Proof.
  unfold names_of, addresses_in.
  assert (forall m, default [] (fold_left add_entry entries m !! name) = default [] (m !! name) ++ map snd (List.filter (fun e => bool_decide (fst e = name)) entries)) as H;
    [|by rewrite H].
  induction entries as [|[n a] entries IH]; intros m; cbn [fold_left List.filter map]; [by rewrite app_nil_r|].
  rewrite IH. unfold add_entry. cbn [fst snd]. case_bool_decide as Hn.
  - rewrite Hn, lookup_insert_eq. simpl. by rewrite <-app_assoc.
  - by rewrite lookup_insert_ne.
Qed.

(** What is known at any time is one file that was read to its end, with the time
    and the size it had, or nothing. *)
Definition read_whole (seen : list Disk) (f : File) : Prop :=
  f_byName f = ∅ /\ f_modTime f = 0 /\ f_size f = 0 \/
  exists d content, d ∈ seen /\ dk_open d = Some (content, false) /\ dk_stat d = Some (f_modTime f, f_size f) /\
    f_byName f = names_of (file_entries content).

Lemma update_read_whole seen d f : read_whole seen f -> read_whole (d :: seen) (update d f).
Proof.
  intros Hf. assert (read_whole (d :: seen) f) as Hkeep.
  { destruct Hf as [|(d0 & c & Hin & H)]; [by left|]. right. exists d0, c. split; [by right|done]. }
  unfold update. destruct (_ && _); [done|]. destruct (dk_stat d) as [[mt sz]|] eqn:Hst; [|done]. destruct (_ && _).
  - unfold with_expire, read_whole in *. simpl. done.
  - destruct (dk_open d) as [[c []]|] eqn:Ho; try done. right. exists d, c. split; [by left|]. by rewrite Ho, Hst.
Qed.

(** Any number of lookups: a file is known as it was at one of them. *)
Theorem hosts_read_whole disks : read_whole disks (foldr update NewFile disks).
Proof. induction disks as [|d disks IH]; [by left|]. by apply update_read_whole. Qed.

(** When the file is read again, the answer is what its lines say now: the
    addresses of every entry of the name, in order. *)
Theorem hosts_lookup_fresh d name f modTime size content :
  (f_byName f = ∅ \/ f_expire f <= dk_now d) -> dk_stat d = Some (modTime, size) ->
  (f_modTime f <> modTime \/ f_size f <> size) -> dk_open d = Some (content, false) ->
  fst (File_Lookup d name f) = addresses_in (CanonicalName name) (file_entries content).
Proof.
  intros Hold Hst Hne Ho. unfold File_Lookup, update. rewrite Hst, Ho.
  assert ((dk_now d <? f_expire f) && negb (bool_decide (f_byName f = ∅)) = false) as ->.
  { destruct Hold as [->|Hle]; [by rewrite bool_decide_true, andb_false_r|]. by rewrite (proj2 (Z.ltb_ge _ _) Hle). }
  assert ((f_modTime f =? modTime) && (f_size f =? size) = false) as ->.
  { destruct Hne as [H|H]; apply Z.eqb_neq in H; rewrite H; [done|by rewrite andb_false_r]. }
  apply names_of_lookup.
Qed.

(** A file that is gone keeps its entries for ever. *)
Lemma removed_file_answers d name f : dk_stat d = None -> File_Lookup d name f = (default [] (f_byName f !! CanonicalName name), f).
Proof. intros Hst. unfold File_Lookup, update. rewrite Hst. by destruct (_ && _). Qed.

(** A predefined name is answered without a file, also when it has no address;
    a question for another type is answered with a name error whatever is known. *)
Lemma hosts_exchange_predefined message q qs disks t addresses :
  msg_Question message = q :: qs -> is_address_type q = true -> ht_predefined t !! CanonicalName (q_Name q) = Some addresses ->
  HostsTransport_Exchange message disks t = (Ok (FixedResponse (msg_Id message) q addresses DefaultDNSTTL), t).
Proof. intros Hq Ht Hp. unfold HostsTransport_Exchange. by rewrite Hq, Ht, Hp. Qed.

Lemma other_types_not_there message q qs disks t :
  msg_Question message = q :: qs -> is_address_type q = false ->
  HostsTransport_Exchange message disks t = (Ok (name_error (msg_Id message) q), t).
Proof. intros Hq Ht. unfold HostsTransport_Exchange. by rewrite Hq, Ht. Qed.

(** Of the files the first one that has an address answers, the ones after it
    are not looked at. *)
Lemma lookup_files_first domain before f d files a :
  Forall (fun '(g, e) => fst (File_Lookup e domain g) = []) before -> fst (File_Lookup d domain f) = a -> a <> [] ->
  lookup_files domain (before ++ (f, d) :: files) =
  (a, map (fun '(g, e) => snd (File_Lookup e domain g)) before ++ snd (File_Lookup d domain f) :: map fst files).
Proof.
  intros Hb H Hne. induction Hb as [|[g e] before Hg _ IH]; cbn [app lookup_files map].
  - destruct (File_Lookup d domain f) as [addresses f']. cbn [fst snd] in *. subst a. by destruct addresses.
  - destruct (File_Lookup e domain g) as [addresses g']. cbn [fst snd] in *. subst addresses. by rewrite IH.
Qed.
End hosts.

(** ** A run *)

Definition some_hosts : list ascii :=
  chars ("127.0.0.1 localhost # the host" +:+ String newline ("10.0.0.1  a.lan b.lan" +:+ String newline
        ("10.0.0.2 a.lan" +:+ String return_char (String newline "no address"))))%string.

Lemma hosts_lookup_fresh_witness :
  fst (File_Lookup (fun _ => []) id {| dk_now := 100; dk_stat := Some (7, 80); dk_open := Some (some_hosts, false) |} "a.lan" NewFile) =
  [Addr4 167772161; Addr4 167772162].
Proof.
  rewrite (hosts_lookup_fresh (fun _ => []) id {| dk_now := 100; dk_stat := Some (7, 80); dk_open := Some (some_hosts, false) |} "a.lan" NewFile 7 80 some_hosts);
    [vm_compute; reflexivity|by left|done|left; done|done].
Defined.
