(* ===== verification/DnsLocal.v ===== *)
(** * The resolver of the system

    dns/transport/local: the configuration file of the system's resolver and when
    it is read again, the names a query stands for, the order servers are asked
    in, names that race, one exchange over UDP with its fallback to TCP, and the
    resolver of the C library that takes over under a TUN inbound. *)

From stdpp Require Import base list strings gmap.
From Stdlib Require Import ZArith Lia Ascii.
From S2P Require Import Prelude GoStd External Adapter RuleAction DnsMsg ByteReader DnsWire StringFacts HostsFile.

Open Scope Z_scope.
Open Scope box_scope.

Definition second : Z := 10 ^ 9.

(** ** The configuration *)

Record dnsConfig : Type := {
  servers : list string; search : list string; ndots : Z; timeout : Z; attempts : Z; rotate : bool;
  unknownOpt : bool; lookup_order : list string; conf_err : option error; mtime : Z; soffset : Z;
  singleRequest : bool; useTCP : bool; trustAD : bool; noReload : bool }.

Definition new_config : dnsConfig := {|
  servers := []; search := []; ndots := 1; timeout := 5 * second; attempts := 2; rotate := false;
  unknownOpt := false; lookup_order := []; conf_err := None; mtime := 0; soffset := 0;
  singleRequest := false; useTCP := false; trustAD := false; noReload := false |}.

Definition set_servers l c := {| servers := l; search := search c; ndots := ndots c; timeout := timeout c; attempts := attempts c; rotate := rotate c; unknownOpt := unknownOpt c; lookup_order := lookup_order c; conf_err := conf_err c; mtime := mtime c; soffset := soffset c; singleRequest := singleRequest c; useTCP := useTCP c; trustAD := trustAD c; noReload := noReload c |}.
Definition set_search l c := {| servers := servers c; search := l; ndots := ndots c; timeout := timeout c; attempts := attempts c; rotate := rotate c; unknownOpt := unknownOpt c; lookup_order := lookup_order c; conf_err := conf_err c; mtime := mtime c; soffset := soffset c; singleRequest := singleRequest c; useTCP := useTCP c; trustAD := trustAD c; noReload := noReload c |}.
Definition set_numbers nd t a c := {| servers := servers c; search := search c; ndots := nd; timeout := t; attempts := a; rotate := rotate c; unknownOpt := unknownOpt c; lookup_order := lookup_order c; conf_err := conf_err c; mtime := mtime c; soffset := soffset c; singleRequest := singleRequest c; useTCP := useTCP c; trustAD := trustAD c; noReload := noReload c |}.
Definition set_unknown c := {| servers := servers c; search := search c; ndots := ndots c; timeout := timeout c; attempts := attempts c; rotate := rotate c; unknownOpt := true; lookup_order := lookup_order c; conf_err := conf_err c; mtime := mtime c; soffset := soffset c; singleRequest := singleRequest c; useTCP := useTCP c; trustAD := trustAD c; noReload := noReload c |}.
Definition set_lookup l c := {| servers := servers c; search := search c; ndots := ndots c; timeout := timeout c; attempts := attempts c; rotate := rotate c; unknownOpt := unknownOpt c; lookup_order := l; conf_err := conf_err c; mtime := mtime c; soffset := soffset c; singleRequest := singleRequest c; useTCP := useTCP c; trustAD := trustAD c; noReload := noReload c |}.
Definition set_flags r s t a n c := {| servers := servers c; search := search c; ndots := ndots c; timeout := timeout c; attempts := attempts c; rotate := rotate c || r; unknownOpt := unknownOpt c; lookup_order := lookup_order c; conf_err := conf_err c; mtime := mtime c; soffset := soffset c; singleRequest := singleRequest c || s; useTCP := useTCP c || t; trustAD := trustAD c || a; noReload := noReload c || n |}.
Definition set_origin e m c := {| servers := servers c; search := search c; ndots := ndots c; timeout := timeout c; attempts := attempts c; rotate := rotate c; unknownOpt := unknownOpt c; lookup_order := lookup_order c; conf_err := e; mtime := m; soffset := soffset c; singleRequest := singleRequest c; useTCP := useTCP c; trustAD := trustAD c; noReload := noReload c |}.
Definition set_soffset n c := {| servers := servers c; search := search c; ndots := ndots c; timeout := timeout c; attempts := attempts c; rotate := rotate c; unknownOpt := unknownOpt c; lookup_order := lookup_order c; conf_err := conf_err c; mtime := mtime c; soffset := n; singleRequest := singleRequest c; useTCP := useTCP c; trustAD := trustAD c; noReload := noReload c |}.

(** *** Numbers *)

Definition big : Z := 16777215.

(** [dtoi]: the number at the front of a string, [big] when it is too large. *)
Fixpoint dtoi_loop (l : list ascii) (n : Z) (i : nat) : Z * nat * bool :=
  match l with
  | c :: l' =>
      match digit_value c with
      | Some d => let n := n * 10 + d in if big <=? n then (big, i, false) else dtoi_loop l' n (S i)
      | None => if bool_decide (i = O) then (0, O, false) else (n, i, true)
      end
  | [] => if bool_decide (i = O) then (0, O, false) else (n, i, true)
  end.
Definition dtoi (s : string) : Z * nat * bool := dtoi_loop (chars s) 0 0.
Definition dtoi_number (s : string) : Z := fst (fst (dtoi s)).

Definition net_JoinHostPort (host port : string) : string :=
  if strings_Contains host ":" || strings_Contains host "%" then "[" +:+ host +:+ "]:" +:+ port else host +:+ ":" +:+ port.

Section config.
(** The Unicode path of [strings.Fields], and [dns.Fqdn] of miekg/dns. *)
Context (unicode_fields : string -> list string) (Fqdn : string -> string).

(** One word behind [options] *)
Definition config_option (s : string) (c : dnsConfig) : dnsConfig :=
  if strings_HasPrefix s "ndots:" then
    let n := dtoi_number (str_drop 6 s) in
    set_numbers (if n <? 0 then 0 else if 15 <? n then 15 else n) (timeout c) (attempts c) c
  else if strings_HasPrefix s "timeout:" then
    let n := dtoi_number (str_drop 8 s) in
    set_numbers (ndots c) ((if n <? 1 then 1 else n) * second) (attempts c) c
  else if strings_HasPrefix s "attempts:" then
    let n := dtoi_number (str_drop 9 s) in
    set_numbers (ndots c) (timeout c) (if n <? 1 then 1 else n) c
  else if bool_decide (s = "rotate") then set_flags true false false false false c
  else if bool_decide (s = "single-request") || bool_decide (s = "single-request-reopen") then set_flags false true false false false c
  else if bool_decide (s = "use-vc") || bool_decide (s = "usevc") || bool_decide (s = "tcp") then set_flags false false true false false c
  else if bool_decide (s = "trust-ad") then set_flags false false false true false c
  else if bool_decide (s = "edns0") then c
  else if bool_decide (s = "no-reload") then set_flags false false false false true c
  else set_unknown c.

(** The words of a line *)
Definition config_words (f : list string) (c : dnsConfig) : dnsConfig :=
  match f with
  | [] => c
  | keyword :: args =>
      if bool_decide (keyword = "nameserver") then
        match args with
        | address :: _ =>
            if (length (servers c) <? 3)%nat && is_ok (netip_ParseAddr address)
            then set_servers (servers c ++ [net_JoinHostPort address "53"]) c else c
        | [] => c
        end
      else if bool_decide (keyword = "domain") then
        match args with name :: _ => set_search [Fqdn name] c | [] => c end
      else if bool_decide (keyword = "search") then
        set_search (List.filter (fun name => negb (bool_decide (name = "."))) (map Fqdn args)) c
      else if bool_decide (keyword = "options") then fold_left (fun c s => config_option s c) args c
      else if bool_decide (keyword = "lookup") then set_lookup args c
      else set_unknown c
  end.

Definition config_line (line : list ascii) (c : dnsConfig) : dnsConfig :=
  match line with
  | x :: _ =>
      if bool_decide (x = ";"%char) || bool_decide (x = "#"%char) then c
      else config_words (strings_Fields unicode_fields (String.string_of_list_ascii line)) c
  | [] => c
  end.

(** [dnsDefaultSearch] with what [os.Hostname] returns *)
Definition dnsDefaultSearch (hostname : option string) : list string :=
  match hostname with
  | None => []
  | Some hn =>
      match strings_Index hn "." with
      | Some i => if (i <? String.length hn - 1)%nat then [Fqdn (str_drop (S i) hn)] else []
      | None => []
      end
  end.

(** What the file system says of the file: that it cannot be opened, that its
    state cannot be read, or its time and content. *)
Inductive config_file : Type :=
  | NoFile (e : error)
  | NoStat (e : error)
  | HasFile (modTime : Z) (content : list ascii).

(** [dnsReadConfig], with [net.defaultNS] and the name of the host *)
Definition dnsReadConfig (defaultNS : list string) (hostname : option string) (file : config_file) : dnsConfig :=
  match file with
  | NoFile e | NoStat e => set_origin (Some e) 0 (set_search (dnsDefaultSearch hostname) (set_servers defaultNS new_config))
  | HasFile modTime content =>
      let c := fold_left (fun c line => config_line line c) (file_lines content) (set_origin None modTime new_config) in
      let c := match servers c with [] => set_servers defaultNS c | _ => c end in
      match search c with [] => set_search (dnsDefaultSearch hostname) c | _ => c end
  end.

(** *** When it is read again *)

(** [resolverConfig], once it is initialised *)
Record resolverConfig : Type := { rc_lastChecked : Z; rc_dnsConfig : dnsConfig }.

(** [tryUpdate]: [acquired] says that no other call is checking; [stat] is the
    time of the file, or that it is not there. *)
Definition tryUpdate (windows acquired : bool) (now : Z) (stat : option Z) (read : dnsConfig) (conf : option resolverConfig)
  : resolverConfig :=
  match conf with
  | None =>
      (* the first call reads the file and has just checked it *)
      {| rc_lastChecked := now; rc_dnsConfig := read |}
  | Some conf =>
      if noReload (rc_dnsConfig conf) || negb acquired || (now - 5 * second <? rc_lastChecked conf) then conf
      else if negb windows && (default 0 stat =? mtime (rc_dnsConfig conf)) then
        {| rc_lastChecked := now; rc_dnsConfig := rc_dnsConfig conf |}
      else {| rc_lastChecked := now; rc_dnsConfig := read |}
  end.

(** ** Bounds of the configuration *)

Definition config_ok (c : dnsConfig) : Prop :=
  0 <= ndots c <= 15 /\ second <= timeout c <= big * second /\ 1 <= attempts c <= big /\ (length (servers c) <= 3)%nat.

Lemma digit_value_bound c d : digit_value c = Some d -> 0 <= d <= 9.
Proof.
  unfold digit_value. destruct ((48 <=? byte_of c) && (byte_of c <=? 57)) eqn:E; [|done].
  apply andb_prop in E as [?%Z.leb_le ?%Z.leb_le]. intros [= <-]. lia.
Qed.

Lemma dtoi_bound l n i : 0 <= n <= big -> 0 <= fst (fst (dtoi_loop l n i)) <= big.
Proof.
  revert n i; induction l as [|c l IH]; intros n i Hn; simpl; [case_bool_decide; simpl; unfold big in *; lia|].
  destruct (digit_value c) as [d|] eqn:Hd; [|case_bool_decide; simpl; unfold big in *; lia].
  apply digit_value_bound in Hd. destruct (Z.leb_spec big (n * 10 + d)); [simpl; unfold big; lia|]. apply IH. lia.
Qed.

Lemma dtoi_number_bound s : 0 <= dtoi_number s <= big.
Proof. apply dtoi_bound. unfold big. lia. Qed.

Lemma at_least_one s : 1 <= (if dtoi_number s <? 1 then 1 else dtoi_number s) <= big.
Proof. pose proof (dtoi_number_bound s). destruct (Z.ltb_spec (dtoi_number s) 1); unfold big in *; lia. Qed.

Lemma config_option_ok s c : config_ok c -> config_ok (config_option s c).
Proof.
  intros (Hn & Ht & Ha & Hs). unfold config_option, config_ok.
  destruct (strings_HasPrefix s "ndots:").
  { cbn [ndots timeout attempts servers set_numbers]. pose proof (dtoi_number_bound (str_drop 6 s)) as H.
    destruct (Z.ltb_spec (dtoi_number (str_drop 6 s)) 0), (Z.ltb_spec 15 (dtoi_number (str_drop 6 s))); split_and!; lia || done. }
  destruct (strings_HasPrefix s "timeout:").
  { cbn [ndots timeout attempts servers set_numbers]. pose proof (at_least_one (str_drop 8 s)) as H. unfold second. split_and!; lia || done. }
  destruct (strings_HasPrefix s "attempts:").
  { cbn [ndots timeout attempts servers set_numbers]. pose proof (at_least_one (str_drop 9 s)) as H. split_and!; lia || done. }
  repeat case_match; done.
Qed.

Lemma config_line_ok line c : config_ok c -> config_ok (config_line line c).
Proof.
  intros Hc. unfold config_line. destruct line as [|x line]; [done|]. destruct (_ || _); [done|].
  unfold config_words. destruct (strings_Fields _ _) as [|keyword args]; [done|].
  case_bool_decide.
  { destruct args as [|a args]; [done|]. destruct (length (servers c) <? 3)%nat eqn:E; [|done]. apply Nat.ltb_lt in E.
    destruct (is_ok _); [|done]. cbn [andb]. destruct Hc as (H1 & H2 & H3 & H4). split; [done|]. split; [done|]. split; [done|]. cbn [servers set_servers]. rewrite length_app. simpl. lia. }
  case_bool_decide; [by destruct args|]. case_bool_decide; [done|]. case_bool_decide; [|by case_bool_decide].
  revert c Hc. induction args as [|a args IH]; intros c Hc; [done|]. simpl. apply IH. by apply config_option_ok.
Qed.

(** Whatever the file holds, the resolver waits between a second and 194 days for
    an answer, asks every server between once and 16777215 times and waits for
    at most 15 dots; it has a server when the system's default has one. *)
Theorem config_bounded defaultNS hostname file :
  let c := dnsReadConfig defaultNS hostname file in
  0 <= ndots c <= 15 /\ second <= timeout c <= big * second /\ 1 <= attempts c <= big /\
  (length (servers c) <= 3 \/ servers c = defaultNS)%nat /\ (defaultNS <> [] -> servers c <> []).
Proof.
  assert (config_ok new_config) as H0 by (split_and!; simpl; try lia; by vm_compute).
  unfold dnsReadConfig. destruct file as [e|e|mt content]; [destruct H0 as (? & ? & ? & ?); by split_and!; try right..|].
  set (c := fold_left _ _ _). assert (config_ok c) as Hc.
  { unfold c. generalize (file_lines content). intros lines. assert (config_ok (set_origin None mt new_config)) as H by done.
    revert H. generalize (set_origin None mt new_config). induction lines as [|l lines IH]; intros c0 H; [done|]. simpl. apply IH. by apply config_line_ok. }
  clearbody c. destruct Hc as ([? ?] & [? ?] & [? ?] & ?). cbv zeta. destruct (servers c) as [|srv l] eqn:E.
  - destruct (search _); split_and!; try done; by right.
  - destruct (search _); simpl; rewrite ?E; split_and!; try done; by left.
Qed.
End config.

(** ** Names *)

Definition ends_with_dot (s : string) : bool := bool_decide (last (chars s) = Some "."%char).

Definition strings_Count (s : string) (c : ascii) : Z := Z.of_nat (length (List.filter (fun x => bool_decide (x = c)) (chars s))).

(** [avoidDNS] *)
Definition avoidDNS (name : string) : bool :=
  if bool_decide (name = "") then true
  else strings_HasSuffix (if ends_with_dot name then str_take (String.length name - 1) name else name) ".onion".

(** [nameList], of both transports: the names a question stands for. *)
Definition nameList (dots : Z) (domains : list string) (name : string) : list string :=
  let l := String.length name in
  let rooted := ends_with_dot name in
  if (254 <? Z.of_nat l) || ((Z.of_nat l =? 254) && negb rooted) then []
  else if rooted then (if avoidDNS name then [] else [name])
  else
    let hasNdots := dots <=? strings_Count name "." in
    let name := name +:+ "." in
    let itself := if avoidDNS name then [] else [name] in
    (if hasNdots then itself else []) ++
    List.filter (fun fqdn => negb (avoidDNS fqdn) && (Z.of_nat (String.length fqdn) <=? 254)) (map (fun suffix => name +:+ suffix) domains) ++
    (if hasNdots then [] else itself).

(** A name with a dot at its end stands for itself, whatever the search domains. *)
Lemma nameList_rooted dots domains name :
  ends_with_dot name = true -> Z.of_nat (String.length name) <= 254 -> avoidDNS name = false -> nameList dots domains name = [name].
Proof.
  intros Hr Hl Ha. unfold nameList. rewrite Hr, Ha, (proj2 (Z.ltb_ge _ _) Hl). by rewrite andb_false_r.
Qed.

(** No name that is asked is longer than 254 bytes, belongs to Tor or has no dot
    at its end, as long as the search domains end in one. *)
Theorem nameList_names dots domains name :
  Forall (fun d => ends_with_dot d = true) domains ->
  Forall (fun n => Z.of_nat (String.length n) <= 254 /\ avoidDNS n = false /\ ends_with_dot n = true) (nameList dots domains name).
Proof.
  intros Hd. unfold nameList.
  destruct ((254 <? Z.of_nat (String.length name)) || ((Z.of_nat (String.length name) =? 254) && negb (ends_with_dot name))) eqn:El; [constructor|].
  apply orb_false_iff in El as [El1%Z.ltb_ge El2].
  destruct (ends_with_dot name) eqn:Er.
  { destruct (avoidDNS name) eqn:Ea; [constructor|]. by repeat constructor. }
  rewrite andb_true_r in El2. apply Z.eqb_neq in El2.
  assert (Forall (fun n => Z.of_nat (String.length n) <= 254 /\ avoidDNS n = false /\ ends_with_dot n = true)
    (if avoidDNS (name +:+ ".") then [] else [name +:+ "."])) as Hself.
  { destruct (avoidDNS (name +:+ ".")) eqn:Ea; [constructor|]. repeat constructor; [|done|].
    - rewrite str_length_app. simpl. lia.
    - unfold ends_with_dot. rewrite chars_app, last_app. cbn [chars last]. by rewrite bool_decide_true. }
  assert (Forall (fun n => Z.of_nat (String.length n) <= 254 /\ avoidDNS n = false /\ ends_with_dot n = true)
    (List.filter (fun fqdn => negb (avoidDNS fqdn) && (Z.of_nat (String.length fqdn) <=? 254)) (map (fun suffix => (name +:+ ".") +:+ suffix) domains))) as Hsearch.
  { apply Forall_forall. intros n Hn%list_elem_of_In. apply filter_In in Hn as [Hn Hok].
    apply andb_prop in Hok as [Ha%negb_true_iff Hl%Z.leb_le]. split_and!; [done|done|].
    apply in_map_iff in Hn as (d & <- & Hin). apply list_elem_of_In in Hin. rewrite Forall_forall in Hd. specialize (Hd d Hin).
    unfold ends_with_dot in *. apply bool_decide_eq_true in Hd. apply bool_decide_true. rewrite chars_app, last_app, Hd. done. }
  destruct (dots <=? _); rewrite !Forall_app; by split_and!; try constructor.
Qed.

(** ** One name *)

Section exchange.
Context `{DNSLib} `{DNSWire}.
(** [buf.UDPBufferSize] of sing *)
Context (UDPBufferSize : Z).

(** A request as [exchangeOne] makes it. *)
Record Request : Type := { rq_msg : DMsg; rq_AuthenticatedData : bool }.

(** [request.SetEdns0(size, false)] on a message without other records *)
Definition edns_record : RR :=
  {| hdr_Name := "."; hdr_Rrtype := TypeOPT; hdr_Class := UDPBufferSize; hdr_Ttl := 0; rr_Data := DataOPT [] |}.

(** [id] is what [rand.Uint32] gives. *)
Definition local_request (id : Z) (ad : bool) (question : Question) : Request :=
  {| rq_msg := Build_Msg (id mod 2 ^ 16) false false true false 0 [question] [] [] [edns_record]; rq_AuthenticatedData := ad |}.

Definition EMSGSIZE : error := ErrNew "message too long".

(** What a UDP connection does: whether the request is written, and the packet
    that comes back. *)
Record UdpConn : Type := { uc_write : option error; uc_read : list Z + error }.

(** The deadline of a connection: that of the context, at most [timeout] ahead. *)
Definition conn_deadline (now timeout : Z) (deadline : option Z) : option Z :=
  match deadline with Some d => Some (if now + timeout <? d then now + timeout else d) | None => None end.

(** [exchangeTCP] *)
Definition exchangeTCP (dial : Stream + error) (request : Request) : res WMsg := TCPTransport_Exchange dial true (rq_msg request).

(** [exchangeUDP], and whether it dialled TCP *)
Definition exchangeUDP (dial : UdpConn + error) (tcp : Stream + error) (request : Request) : res WMsg * bool :=
  match dial with
  | inr e => (Err e, false)
  | inl conn =>
      match PackBuffer true (rq_msg request) (Z.to_nat UDPBufferSize) with
      | inr e => (Err (ErrCause e "pack request"), false)
      | inl _ =>
          match uc_write conn with
          | Some e => if errors_Is e EMSGSIZE then (exchangeTCP tcp request, true) else (Err (ErrCause e "write request"), false)
          | None =>
              match uc_read conn with
              | inr e => if errors_Is e EMSGSIZE then (exchangeTCP tcp request, true) else (Err (ErrCause e "read response"), false)
              | inl packet =>
                  match Unpack (take (Z.to_nat UDPBufferSize) packet) with
                  | inr e => (Err (ErrCause e "unpack response"), false)
                  | inl response => if w_Truncated response then (exchangeTCP tcp request, true) else (Ok response, false)
                  end
              end
          end
      end
  end.

(** [exchangeOne] *)
Definition exchangeOne (useTCP : bool) (udp : UdpConn + error) (tcp : Stream + error) (id : Z) (ad : bool) (question : Question)
  : res WMsg :=
  let request := local_request id ad question in
  if useTCP then exchangeTCP tcp request else fst (exchangeUDP udp tcp request).

(** A truncated answer is never returned from UDP. *)
Lemma exchangeUDP_whole dial tcp request m : exchangeUDP dial tcp request = (Ok m, false) -> w_Truncated m = false.
Proof.
  unfold exchangeUDP. destruct dial as [conn|e]; [|done]. destruct (PackBuffer _ _ _) as [[]|e]; [|done].
  destruct (uc_write conn) as [e|]; [by destruct (errors_Is e _)|]. destruct (uc_read conn) as [pkt|e]; [|by destruct (errors_Is e _)].
  destruct (Unpack _) as [w|e]; [|done]. destruct (w_Truncated w) eqn:E; [done|]. by intros [= ->].
Qed.

(** *** The order of the servers *)

(** [serverOffset], with the counter after it *)
Definition serverOffset (c : dnsConfig) : Z * dnsConfig :=
  if rotate c then (soffset c, set_soffset ((soffset c + 1) mod 2 ^ 32) c) else (0, c).

(** The servers of one round, in the order they are asked *)
Definition server_round {A} `{Inhabited A} (offset : Z) (servers : list A) : list A :=
  map (fun j => servers !!! Z.to_nat (((offset + Z.of_nat j) mod 2 ^ 32) mod Z.of_nat (length servers)))
    (seq 0 (length servers)).

Definition server_order {A} `{Inhabited A} (offset : Z) (servers : list A) (attempts : Z) : list A :=
  concat (replicate (Z.to_nat attempts) (server_round offset servers)).

(** The loop of [tryOneName]: [ask] is what the exchange with a server gives, by
    the number of exchanges before it. *)
Fixpoint ask_servers {A} (ask : nat -> A -> Question -> DMsg + error) (question : Question) (n : nat) (order : list A)
  (lastErr : option error) : DMsg + option error :=
  match order with
  | [] => inr lastErr
  | server :: order =>
      match ask n server question with
      | inl response => inl response
      | inr e => ask_servers ask question (S n) order (Some e)
      end
  end.

(** [E.Cause] of sing panics on a nil error. *)
Definition cause_of (lastErr : option error) (msg : string) : res DMsg :=
  match lastErr with Some e => Err (ErrCause e msg) | None => Panic "cause on an nil error" end.

Definition with_name (name : string) (q : Question) : Question :=
  {| q_Name := name; q_Qtype := q_Qtype q; q_Qclass := q_Qclass q |}.

(** [tryOneName] *)
Definition tryOneName (ask : nat -> string -> Question -> DMsg + error) (c : dnsConfig) (fqdn : string) (q : Question)
  : res DMsg * dnsConfig :=
  let '(offset, c) := serverOffset c in
  match ask_servers ask (with_name fqdn q) 0 (server_order offset (servers c) (attempts c)) None with
  | inl response => (Ok response, c)
  | inr lastErr => (cause_of lastErr fqdn, c)
  end.

Lemma ask_servers_spec {A} (ask : nat -> A -> Question -> DMsg + error) question n order e0 :
  match ask_servers ask question n order e0 with
  | inl m => exists before s after, order = before ++ s :: after /\ ask (n + length before)%nat s question = inl m /\
      forall i s', before !! i = Some s' -> exists e, ask (n + i)%nat s' question = inr e
  | inr e => (forall i s', order !! i = Some s' -> exists e, ask (n + i)%nat s' question = inr e) /\
      (order = [] -> e = e0) /\ (order <> [] -> is_Some e)
  end.
Proof.
  revert n e0; induction order as [|s order IH]; intros n e0; cbn [ask_servers]; [done|].
  destruct (ask n s question) as [m|e] eqn:Ha.
  { exists [], s, order. by rewrite Nat.add_0_r. }
  specialize (IH (S n) (Some e)). destruct (ask_servers _ _ _ _ _) as [m|e'].
  - destruct IH as (before & s' & after & -> & Hm & Hb). exists (s :: before), s', after. split_and!; [done| |].
    + simpl. by rewrite Nat.add_succ_r.
    + intros [|i] s''; [intros [= <-]; rewrite Nat.add_0_r; by eexists|]. intros Hi. simpl in Hi. rewrite Nat.add_succ_r. by apply Hb.
  - destruct IH as (Hall & Hnil & Hcons). split_and!; [|done|].
    + intros [|i] s''; [intros [= <-]; rewrite Nat.add_0_r; by eexists|]. intros Hi. simpl in Hi. rewrite Nat.add_succ_r. by apply Hall.
    + intros _. destruct order; [rewrite Hnil by done; by eexists|by apply Hcons].
Qed.

Lemma server_order_nonempty {A} `{Inhabited A} offset (servers : list A) attempts : servers <> [] -> 1 <= attempts -> server_order offset servers attempts <> [].
Proof.
  intros Hs Ha. unfold server_order, server_round. destruct servers as [|s l]; [done|].
  replace (Z.to_nat attempts) with (S (Z.to_nat (attempts - 1))) by lia. done.
Qed.

(** With a server and an attempt a name is answered or fails, it does not panic. *)
Lemma tryOneName_returns ask c fqdn q : servers c <> [] -> 1 <= attempts c -> forall msg, fst (tryOneName ask c fqdn q) <> Panic msg.
Proof.
  intros Hs Ha msg. unfold tryOneName, serverOffset.
  assert (forall o c', servers c' = servers c -> attempts c' = attempts c ->
    fst (match ask_servers ask (with_name fqdn q) 0 (server_order o (servers c') (attempts c')) None with
         | inl response => (Ok response, c') | inr lastErr => (cause_of lastErr fqdn, c') end) <> Panic msg) as Hgo.
  { intros o c' -> ->. pose proof (ask_servers_spec ask (with_name fqdn q) 0 (server_order o (servers c) (attempts c)) None) as Hsp.
    destruct (ask_servers _ _ _ _ _) as [m|e]; [done|]. destruct Hsp as (_ & _ & Hsome).
    destruct Hsome as [e' ->]; [by apply server_order_nonempty|done]. }
  destruct (rotate c); by apply Hgo.
Qed.

(** Without rotation every round asks the servers as they are written. *)
Lemma server_round_plain {A} `{Inhabited A} (servers : list A) : Z.of_nat (length servers) <= 2 ^ 32 -> server_round 0 servers = servers.
Proof.
  intros Hl. unfold server_round. apply list_eq. intros i. destruct (decide (i < length servers)%nat) as [Hi|Hi].
  - rewrite list_lookup_fmap, lookup_seq_lt by done. cbn [fmap option_fmap option_map]. rewrite Z.add_0_l, Nat.add_0_l, (Z.mod_small _ (2 ^ 32)), Z.mod_small, Nat2Z.id by lia.
    destruct (lookup_lt_is_Some_2 servers i Hi) as [s Hs]. by rewrite (list_lookup_total_correct _ _ _ Hs).
  - rewrite !lookup_ge_None_2; [done|lia|]. rewrite length_map, length_seq. lia.
Qed.
End exchange.

(** ** A query *)

(** [startRacer]: an answer without an address is an error here. *)
Definition racer_result (r : DMsg + error) : DMsg + error :=
  match r with
  | inl response =>
      if negb (msg_Rcode response =? RcodeSuccess) then inr (ErrRcode (msg_Rcode response))
      else match MessageToAddresses response with [] => inr (ErrRcode RcodeSuccess) | _ => inl response end
  | inr e => inr e
  end.

(** The racer of a name has what [tryOneName] gave, or the context ends. *)
Inductive race_event : Type :=
  | RaceDone (k : nat) (r : DMsg + error)
  | RaceContext (e : error).

(** The loop of [exchangeParallel], of the transports that ask for several names:
    what counts as an answer, the racers that have not reported and the errors so
    far; none while it waits. *)
Fixpoint race_names (accept : DMsg + error -> DMsg + error) (nameCount : nat) (running : list nat) (errors : list error) (events : list race_event) : option (res DMsg) :=
  match events with
  | [] => None
  | RaceContext e :: _ => Some (Err e)
  | RaceDone k r :: events =>
      if bool_decide (k ∈ running) then
        match accept r with
        | inl response => Some (Ok response)
        | inr e =>
            let errors := errors ++ [e] in
            if (length errors =? nameCount)%nat then
              Some (match E_Errors errors with Some e => Err e | None => Panic "nil response" end)
            else race_names accept nameCount (List.filter (fun i => negb (bool_decide (i = k))) running) errors events
        end
      else race_names accept nameCount running errors events
  end.

Definition exchangeParallel (names : list string) (events : list race_event) : option (res DMsg) :=
  race_names racer_result (length names) (seq 0 (length names)) [] events.

Lemma racer_result_ok r m : racer_result r = inl m -> r = inl m /\ msg_Rcode m = RcodeSuccess /\ MessageToAddresses m <> [].
Proof.
  unfold racer_result. destruct r as [response|e]; [|done]. destruct (Z.eqb_spec (msg_Rcode response) RcodeSuccess); simpl; [|done].
  destruct (MessageToAddresses response) eqn:E; [done|]. intros [= <-]. by rewrite E.
Qed.

(** What the race answers was accepted as the answer of a name. *)
Lemma race_answers accept nameCount running errors events m :
  race_names accept nameCount running errors events = Some (Ok m) ->
  exists k r, RaceDone k r ∈ events /\ k ∈ running /\ accept r = inl m.
Proof.
  revert running errors; induction events as [|[k r|e] events IH]; intros running errors; simpl; try done.
  case_bool_decide as Hk; [|intros (i & r' & ? & ?)%IH; exists i, r'; split; [by right|done]].
  destruct (accept r) as [response|e] eqn:Hr.
  { intros [= ->]. exists k, r. split; [by left|done]. }
  destruct (_ =? _)%nat; [by destruct (E_Errors _)|]. intros (i & r' & ? & Hi & ?)%IH. exists i, r'. split_and!; [by right| |done].
  apply list_elem_of_In, filter_In in Hi as [Hi _]. by apply list_elem_of_In.
Qed.

(** The answer for a name that has addresses, when names race. *)
Lemma parallel_answers names events m :
  exchangeParallel names events = Some (Ok m) ->
  exists k, RaceDone k (inl m) ∈ events /\ (k < length names)%nat /\ msg_Rcode m = RcodeSuccess /\ MessageToAddresses m <> [].
Proof.
  intros (k & r & Hin & Hk & (-> & ? & ?)%racer_result_ok)%race_answers. exists k. split_and!; [done| |done..].
  by apply list_elem_of_In, in_seq in Hk as [_ Hk].
Qed.

Lemma E_Errors_app_some errors e : exists e', E_Errors (errors ++ [e]) = Some e'.
Proof. destruct errors as [|e0 errors]; simpl; by eexists. Qed.

Lemma length_remove (k : nat) (running : list nat) : NoDup running -> k ∈ running ->
  length running = S (length (List.filter (fun i => negb (bool_decide (i = k))) running)).
Proof.
  induction 1 as [|x l Hx Hl IH]; [by intros ?%elem_of_nil|]. intros [->|Hk]%elem_of_cons; simpl.
  - rewrite bool_decide_true by done. simpl. f_equal. clear -Hx. induction l as [|y l IHl]; [done|]. apply not_elem_of_cons in Hx as [? ?].
    simpl. rewrite bool_decide_false by congruence. simpl. f_equal. by apply IHl.
  - rewrite bool_decide_false by (intros ->; done). simpl. f_equal. by apply IH.
Qed.

(** The race ends when every name has reported, if there is one. *)
Lemma race_returns accept nameCount events : forall running errors,
  NoDup running -> running <> [] -> (length errors + length running = nameCount)%nat ->
  (forall k, k ∈ running -> exists r, RaceDone k r ∈ events) ->
  exists r, race_names accept nameCount running errors events = Some r /\ forall msg, r <> Panic msg.
Proof.
  induction events as [|[k r|e] events IH]; intros running errors Hnd Hne Hlen Hall; simpl.
  - destruct running as [|k running]; [done|]. destruct (Hall k ltac:(by left)) as [r ?%elem_of_nil]. done.
  - case_bool_decide as Hk.
    + destruct (accept r) as [m|e]; [by eexists|].
      destruct (E_Errors_app_some errors e) as [e' ->]. destruct (_ =? _)%nat eqn:E; [by eexists|]. apply Nat.eqb_neq in E.
      pose proof (length_remove k running Hnd Hk) as Hrem. rewrite length_app in E. simpl in E. apply IH.
      * apply NoDup_ListNoDup, List.NoDup_filter, NoDup_ListNoDup. done.
      * intros Hnil. rewrite Hnil in Hrem. simpl in Hrem. lia.
      * rewrite length_app. simpl. lia.
      * intros i Hi%list_elem_of_In. apply filter_In in Hi as [Hi Hik]. apply list_elem_of_In in Hi.
        apply negb_true_iff, bool_decide_eq_false in Hik.
        destruct (Hall i Hi) as [r' [[= -> _]|Hin]%elem_of_cons]; [done|by eexists].
    + apply IH; [done..|]. intros i Hi. destruct (Hall i Hi) as [r' [[= -> _]|Hin]%elem_of_cons]; [done|by eexists].
  - by eexists.
Qed.

(** Without a name it waits for the context, whatever else happens. *)
Lemma race_without_names events : (forall e, RaceContext e ∉ events) -> exchangeParallel [] events = None.
Proof.
  unfold exchangeParallel. simpl. induction events as [|[k r|e] events IH]; intros He; simpl; [done| |].
  - apply IH. intros e Hin. apply (He e). by right.
  - destruct (He e). by left.
Qed.

(** [exchangeSingleRequest]: nothing without an error when there is no name *)
Fixpoint exchangeSingle (ask : nat -> nat -> string -> Question -> DMsg + error) (q : Question) (k : nat) (names : list string)
  (lastErr : option error) (c : dnsConfig) : res (option DMsg) * dnsConfig :=
  match names with
  | [] => (match lastErr with Some e => Err e | None => Ok None end, c)
  | fqdn :: names =>
      match tryOneName (ask k) c fqdn q with
      | (Ok response, c) => (Ok (Some response), c)
      | (Err e, c) => exchangeSingle ask q (S k) names (Some e) c
      | (Panic msg, c) => (Panic msg, c)
      end
  end.

(** [Transport.Exchange] of the local transport: [hosts] is what the hosts file
    says, [ask] and [events] what the servers say. *)
Definition LocalTransport_Exchange (hosts : string -> list Addr) (CanonicalDomain : string -> string) (c : dnsConfig)
  (ask : nat -> nat -> string -> Question -> DMsg + error) (events : list race_event) (message : DMsg) : option (res (option DMsg)) :=
  match msg_Question message with
  | [] => Some (Panic "index out of range [0] with length 0")
  | question :: _ =>
      let addresses := if is_address_type question then hosts (CanonicalDomain (q_Name question)) else [] in
      match addresses with
      | _ :: _ => Some (Ok (Some (FixedResponse (msg_Id message) question addresses DefaultDNSTTL)))
      | [] =>
          let names := nameList (ndots c) (search c) (q_Name question) in
          if singleRequest c || negb (is_address_type question) then Some (fst (exchangeSingle ask question 0 names None c))
          else
            match exchangeParallel names events with
            | Some (Ok response) => Some (Ok (Some response))
            | Some (Err e) => Some (Err e)
            | Some (Panic msg) => Some (Panic msg)
            | None => None
            end
      end
  end.

(** A query for a rooted name that is not an onion name returns, with an answer or
    an error, once the racers have returned. *)
Theorem local_query_returns hosts domain c ask events message q qs :
  msg_Question message = q :: qs -> ends_with_dot (q_Name q) = true -> Z.of_nat (String.length (q_Name q)) <= 254 ->
  avoidDNS (q_Name q) = false -> servers c <> [] -> 1 <= attempts c -> (exists r, RaceDone 0 r ∈ events) ->
  exists r, LocalTransport_Exchange hosts domain c ask events message = Some r /\
    match r with Ok answer => is_Some answer | Err _ => True | Panic _ => False end.
Proof.
  intros Hq Hdot Hlen Hav Hs Ha [r0 Hr0]. unfold LocalTransport_Exchange. rewrite Hq.
  destruct (if is_address_type q then _ else _) as [|a l]; [|eexists; split; [done|]; by eexists].
  rewrite nameList_rooted by done. destruct (_ || _).
  - eexists. split; [done|]. cbn [exchangeSingle]. pose proof (tryOneName_returns (ask 0%nat) c (q_Name q) q Hs Ha) as Hp.
    destruct (tryOneName _ _ _ _) as [[m|e|msg] c']; simpl in *; [by eexists|done|by destruct (Hp msg)].
  - unfold exchangeParallel. cbn [length seq].
    destruct (race_returns racer_result 1 events [0%nat] []) as (r & -> & Hp); [by repeat constructor; set_solver|done|done| |].
    { intros k ->%list_elem_of_singleton. by eexists. }
    destruct r as [m|e|msg]; [eexists; split; [done|]; by eexists|by eexists|by destruct (Hp msg)].
Qed.

(** An onion name has no names to ask: other types than addresses are answered
    with nothing at all, not even an error, and addresses when the context ends. *)
Definition onion_query (qtype : Z) : DMsg :=
  Build_Msg 1 false false true false 0 [{| q_Name := "a.onion."; q_Qtype := qtype; q_Qclass := ClassINET |}] [] [] [].

Example onion_answers_nothing ask c :
  LocalTransport_Exchange (fun _ => []) id c ask [] (onion_query 16) = Some (Ok None).
Proof. unfold LocalTransport_Exchange. cbn. by rewrite orb_true_r. Qed.

(** ** The resolver of the C library *)

(** [net.Resolver]: what a lookup gives, or an error and whether it says that the
    name is not found. *)
Record Resolver : Type := {
  LookupNetIP : string -> string -> list Addr + error * bool;
  LookupNS : string -> list string + error * bool;
  LookupCNAME : string -> string + error * bool;
  LookupTXT : string -> list string + error * bool;
  LookupMX : string -> list (Z * string) + error * bool }.

(** [FallbackTransport.Start]: with a platform interface and a TUN inbound. *)
Definition fallback_Start (start_stage platform : bool) (inbound_types : list string) (fallback : bool) : bool :=
  if start_stage && platform && bool_decide ("tun" ∈ inbound_types) then true else fallback.

Definition not_found {A} (r : A + error * bool) : A + error :=
  match r with inl a => inl a | inr (e, true) => inr (ErrRcode RcodeRefused) | inr (e, false) => inr e end.

Definition resolver_answer (message : DMsg) (q : Question) (answer : list RR) : DMsg :=
  Build_Msg (msg_Id message) true false false false RcodeSuccess [q] answer [] [].

Definition resolver_record (q : Question) (rrtype : Z) (data : RData) : RR :=
  {| hdr_Name := q_Name q; hdr_Rrtype := rrtype; hdr_Class := ClassINET; hdr_Ttl := DefaultDNSTTL; rr_Data := data |}.

Definition TypeNS : Z := 2.
Definition TypeMX : Z := 15.
Definition TypeTXT : Z := 16.

(** [FallbackTransport.Exchange] once it has fallen back; an NS record is other
    data. *)
Definition fallback_Exchange (r : Resolver) (message : DMsg) : res DMsg :=
  match msg_Question message with
  | [] => Panic "index out of range [0] with length 0"
  | q :: _ =>
      let answer {A} (l : A + error * bool) (k : A -> DMsg) : res DMsg :=
        match not_found l with inl a => Ok (k a) | inr e => Err e end in
      if is_address_type q then
        answer (LookupNetIP r (if q_Qtype q =? TypeA then "ip4" else "ip6") (q_Name q))
          (fun addresses => FixedResponse (msg_Id message) q addresses DefaultDNSTTL)
      else if q_Qtype q =? TypeNS then
        answer (LookupNS r (q_Name q)) (fun hosts => resolver_answer message q (map (fun h => resolver_record q TypeNS (DataOther h)) hosts))
      else if q_Qtype q =? TypeCNAME then
        answer (LookupCNAME r (q_Name q)) (fun cname => resolver_answer message q [resolver_record q TypeCNAME (DataCNAME cname)])
      else if q_Qtype q =? TypeTXT then
        answer (LookupTXT r (q_Name q)) (fun txt => resolver_answer message q [resolver_record q TypeCNAME (DataTXT txt)])
      else if q_Qtype q =? TypeMX then
        answer (LookupMX r (q_Name q))
          (fun mx => resolver_answer message q (map (fun x => resolver_record q TypeA (DataMX (fst x) (snd x))) mx))
      else Err (ErrNew "only A, AAAA, NS, CNAME, TXT, MX queries are supported on current platform when using TUN, please switch to a fixed DNS server.")
  end.

(** The records of a TXT answer have the type of a CNAME, and those of an MX
    answer the type of an address. *)
Lemma fallback_record_types r message q qs m :
  msg_Question message = q :: qs -> fallback_Exchange r message = Ok m ->
  (q_Qtype q = TypeTXT -> Forall (fun rr => hdr_Rrtype rr = TypeCNAME) (msg_Answer m)) /\
  (q_Qtype q = TypeMX -> Forall (fun rr => hdr_Rrtype rr = TypeA) (msg_Answer m)).
Proof.
  intros Hq. unfold fallback_Exchange, is_address_type. rewrite Hq. split; intros Ht; rewrite Ht in *; cbn in *.
  - destruct (not_found (LookupTXT r _)) as [txt|e]; [|done]. match goal with H : _ = Ok m |- _ => injection H as <- end. by repeat constructor.
  - destruct (not_found (LookupMX r _)) as [mx|e]; [|done]. match goal with H : _ = Ok m |- _ => injection H as <- end.
    cbn. induction mx; constructor; done.
Qed.
