(* ===== verification/DnsDhcp.v ===== *)
(** * Servers from DHCP

    dns/transport/dhcp: servers and search domains are asked for with a DHCP
    discovery on the interface, kept for an hour, and asked for again when the
    default interface changes. *)

From stdpp Require Import base list strings gmap.
From Stdlib Require Import ZArith Lia Ascii.
From S2P Require Import Prelude GoStd External Adapter RuleAction DnsMsg ByteReader DnsWire StringFacts HostsFile DnsLocal.

Open Scope Z_scope.
Open Scope box_scope.

Definition DHCPTTL : Z := 3600 * second.

(** [Transport]; the zero time is 0.  A server is its address with port 53. *)
Record DHCPTransport : Type := { dh_updatedAt : Z; dh_servers : list Addr; dh_search : list string }.

Definition NewDHCPTransport : DHCPTransport := {| dh_updatedAt := 0; dh_servers := []; dh_search := [] |}.

(** ** The interface *)

(** [fetchInterface]: the monitor, if there is one, with its default interface. *)
Definition fetchInterface {I} (interfaceName : string) (monitor : option (option I)) (ByName : string -> I + error) : I + error :=
  if bool_decide (interfaceName = "") then
    match monitor with
    | None => inr (ErrNew "missing monitor for auto DHCP, set route.auto_detect_interface")
    | Some None => inr (ErrNew "missing default interface")
    | Some (Some i) => inl i
    end
  else ByName interfaceName.

(** [Start]: whether a callback is registered; a monitor that is missing is
    called. *)
Definition dhcp_Start (start_stage : bool) (interfaceName : string) (monitor : bool) : res bool :=
  if negb start_stage then Ok false
  else if bool_decide (interfaceName = "") then
    if monitor then Ok true else Panic "invalid memory address or nil pointer dereference"
  else Ok false.

(** ** The exchange with the DHCP server *)

Definition EADDRINUSE : error := ErrNew "address already in use".

(** The attempts to listen: what the first ones give. *)
Fixpoint listen_attempts {C} (n : nat) (listen : nat -> C + error) (i : nat) (last : C + error) : C + error :=
  match n with
  | O => last
  | S n =>
      match listen i with
      | inl c => inl c
      | inr e => if errors_Is e EADDRINUSE then listen_attempts n listen (S i) (inr e) else inr e
      end
  end.

Definition dhcp_listen {C} (listen : nat -> C + error) : C + error := listen_attempts 5 listen 0 (inr (ErrNew "unreachable")).

(** A packet, after dhcpv4 parsed it: its type and transaction, the options. *)
Record DhcpPacket : Type := {
  dp_offer : bool; dp_TransactionID : Z; dp_DomainSearch : option (list string); dp_DomainName : string; dp_DNS : list Addr }.

Inductive dhcp_read : Type :=
  (** the packet does not fit into the buffer *)
  | ReadShort
  | ReadError (e : error)
  | ReadPacket (p : DhcpPacket + error).

(** [recreateServers] *)
Definition recreateServers (p : DhcpPacket) (t : DHCPTransport) : DHCPTransport :=
  {| dh_updatedAt := dh_updatedAt t; dh_servers := dp_DNS p;
     dh_search := match dp_DomainSearch p with
                  | Some (l :: ls) => l :: ls
                  | _ => if bool_decide (dp_DomainName p = "") then dh_search t else [dp_DomainName p]
                  end |}.

(** [fetchServersResponse]: none while it waits; the end of the time closes the
    connection, which is an error of a read. *)
Fixpoint fetchServersResponse (transactionID : Z) (reads : list dhcp_read) (t : DHCPTransport) : option (option error * DHCPTransport) :=
  match reads with
  | [] => None
  | ReadShort :: reads => fetchServersResponse transactionID reads t
  | ReadError e :: _ => Some (Some e, t)
  | ReadPacket (inr e) :: _ => Some (Some e, t)
  | ReadPacket (inl p) :: reads =>
      if negb (dp_offer p) || negb (dp_TransactionID p =? transactionID) then fetchServersResponse transactionID reads t
      else Some (None, recreateServers p t)
  end.

(** What happens to one discovery: listening, sending and what is read. *)
Record Discovery : Type := { dc_listen : nat -> unit + error; dc_send : option error; dc_id : Z; dc_reads : list dhcp_read }.

(** [fetchServers0] *)
Definition fetchServers0 (d : Discovery) (t : DHCPTransport) : option (option error * DHCPTransport) :=
  match dhcp_listen (dc_listen d) with
  | inr e => Some (Some e, t)
  | inl _ =>
      match dc_send d with
      | Some e => Some (Some e, t)
      | None => fetchServersResponse (dc_id d) (dc_reads d) t
      end
  end.

(** [updateServers]: none when nothing was read until the time was over. *)
Definition updateServers {I} (now : Z) (interface : I + error) (d : Discovery) (t : DHCPTransport) : option error * DHCPTransport :=
  match interface with
  | inr e => (Some (ErrCause e "dhcp: prepare interface"), t)
  | inl _ =>
      let '(err, t) := match fetchServers0 d t with Some r => r | None => (Some ErrContext, t) end in
      match err with
      | Some e => (Some e, t)
      | None =>
          match dh_servers t with
          | [] => (Some (ErrNew "dhcp: empty DNS servers response"), t)
          | _ => (None, {| dh_updatedAt := now; dh_servers := dh_servers t; dh_search := dh_search t |})
          end
      end
  end.

(** [Fetch]: the check without the lock and the one with it see the same state
    unless another call updated in between; this is the one with the lock. *)
Definition Fetch {I} (now : Z) (interface : I + error) (d : Discovery) (t : DHCPTransport) : (list Addr + error) * DHCPTransport :=
  if now - dh_updatedAt t <? DHCPTTL then (inl (dh_servers t), t)
  else
    match updateServers now interface d t with
    | (Some e, t) => (inr e, t)
    | (None, t) => (inl (dh_servers t), t)
    end.

(** ** Queries *)

Section query.
Context `{DNSLib}.

(** [tryOneName]: the servers in their order, [attempts] times *)
Definition dhcp_tryOneName (ask : nat -> Addr -> Question -> DMsg + error) (attempts : nat) (servers : list Addr) (fqdn : string) (q : Question)
  : res DMsg :=
  let fix go n order lastErr :=
    match order with
    | [] => cause_of lastErr fqdn
    | server :: order => match ask n server (with_name fqdn q) with inl m => Ok m | inr e => go (S n) order (Some e) end
    end in
  go 0%nat (concat (replicate attempts servers)) None.

Fixpoint dhcp_exchangeSingle (ask : nat -> nat -> Addr -> Question -> DMsg + error) (servers : list Addr) (q : Question) (k : nat)
  (names : list string) (lastErr : option error) : res (option DMsg) :=
  match names with
  | [] => match lastErr with Some e => Err e | None => Ok None end
  | fqdn :: names =>
      match dhcp_tryOneName (ask k) 2 servers fqdn q with
      | Ok response => Ok (Some response)
      | Err e => dhcp_exchangeSingle ask servers q (S k) names (Some e)
      | Panic msg => Panic msg
      end
  end.

(** [nameList] is that of the local transport, with one dot. *)
Definition dhcp_nameList (search : list string) (name : string) : list string := nameList 1 search name.

(** [exchangeOne]: over UDP first, with the bit AuthenticatedData; the deadline is
    that of the context. *)
Definition dhcp_exchangeOne `{DNSWire} (UDPBufferSize : Z) (udp : UdpConn + error) (tcp : Stream + error) (id : Z) (question : Question)
  : res WMsg * bool := exchangeUDP UDPBufferSize udp tcp (local_request UDPBufferSize id true question).

(** [Exchange0]: the domain without its dot, so that the search domains count. *)
Definition Exchange0 (ask : nat -> nat -> Addr -> Question -> DMsg + error) (events : list race_event) (search : list string)
  (servers : list Addr) (message : DMsg) : option (res (option DMsg)) :=
  match msg_Question message with
  | [] => Some (Panic "index out of range [0] with length 0")
  | question :: _ =>
      let names := dhcp_nameList search (FqdnToDomain (q_Name question)) in
      if (length servers =? 1)%nat || negb (is_address_type question) then
        Some (dhcp_exchangeSingle ask servers question 0 names None)
      else
        match exchangeParallel names events with
        | Some (Ok response) => Some (Ok (Some response))
        | Some (Err e) => Some (Err e)
        | Some (Panic msg) => Some (Panic msg)
        | None => None
        end
  end.

(** [Exchange] *)
Definition DHCPTransport_Exchange {I} (now : Z) (interface : I + error) (d : Discovery)
  (ask : nat -> nat -> Addr -> Question -> DMsg + error) (events : list race_event) (message : DMsg) (t : DHCPTransport)
  : option (res (option DMsg)) * DHCPTransport :=
  match Fetch now interface d t with
  | (inr e, t) => (Some (Err e), t)
  | (inl [], t) => (Some (Err (ErrNew "dhcp: empty DNS servers from response")), t)
  | (inl servers, t) => (Exchange0 ask events (dh_search t) servers message, t)
  end.
End query.

(** ** What the servers are *)

(** The servers come from one offer, answered to our own discovery. *)
Lemma response_is_ours id reads t t' :
  fetchServersResponse id reads t = Some (None, t') ->
  exists p, ReadPacket (inl p) ∈ reads /\ dp_offer p = true /\ dp_TransactionID p = id /\ dh_servers t' = dp_DNS p.
Proof.
  induction reads as [|[|e|[p|e]] reads IH]; simpl; try done.
  - intros (p & ? & ?)%IH. exists p. split; [by right|done].
  - destruct (dp_offer p) eqn:Ho; simpl; [|intros (p' & ? & ?)%IH; exists p'; split; [by right|done]].
    destruct (Z.eqb_spec (dp_TransactionID p) id); simpl; [|intros (p' & ? & ?)%IH; exists p'; split; [by right|done]].
    intros [= <-]. exists p. split; [by left|done].
Qed.

(** Inside the hour nothing is asked; after it servers are only given when a
    discovery of this call found some. *)
Theorem Fetch_spec {I} now (interface : I + error) d t servers t' :
  Fetch now interface d t = (inl servers, t') ->
  (now - dh_updatedAt t < DHCPTTL /\ servers = dh_servers t /\ t' = t) \/
  (dh_updatedAt t' = now /\ servers <> [] /\ servers = dh_servers t' /\
   exists p, ReadPacket (inl p) ∈ dc_reads d /\ dp_offer p = true /\ dp_TransactionID p = dc_id d /\ servers = dp_DNS p).
Proof.
  unfold Fetch. destruct (Z.ltb_spec (now - dh_updatedAt t) DHCPTTL); [intros [= <- <-]; by left|].
  unfold updateServers. destruct interface as [i|e]; [|done].
  destruct (fetchServers0 d t) as [[[e|] t1]|] eqn:Hf; [done| |done].
  destruct (dh_servers t1) as [|s l] eqn:Hs; [done|]. intros [= <- <-]. right. split_and!; [done..|].
  unfold fetchServers0 in Hf. destruct (dhcp_listen _); [|done]. destruct (dc_send d); [done|].
  apply response_is_ours in Hf as (p & ? & ? & ? & Hp). exists p. by rewrite <-Hp, Hs.
Qed.

(** A transport that has no server has asked for none in this hour, unless an
    update that was not [Fetch]'s emptied it. *)
Lemma Fetch_keeps_servers {I} now (interface : I + error) d t :
  0 < now -> (dh_servers t = [] -> now - dh_updatedAt t >= DHCPTTL) ->
  let r := Fetch now interface d t in fst r <> inl [].
Proof.
  intros Hnow Ht. cbv zeta. unfold Fetch. destruct (Z.ltb_spec (now - dh_updatedAt t) DHCPTTL) as [Hl|Hl].
  - simpl. intros [= Hs]. specialize (Ht Hs). lia.
  - unfold updateServers. destruct interface as [i|e]; [|done]. destruct (fetchServers0 d t) as [[[e|] t1]|]; [done| |done].
    by destruct (dh_servers t1).
Qed.

(** ** Behaviours worth knowing *)

Definition offer_of (servers : list Addr) : DhcpPacket :=
  {| dp_offer := true; dp_TransactionID := 7; dp_DomainSearch := None; dp_DomainName := "lan"; dp_DNS := servers |}.
Definition offered (servers : list Addr) : Discovery :=
  {| dc_listen := fun _ => inl tt; dc_send := None; dc_id := 7; dc_reads := [ReadPacket (inl (offer_of servers))] |}.
Definition unanswered : Discovery :=
  {| dc_listen := fun _ => inl tt; dc_send := None; dc_id := 7; dc_reads := [] |}.

(** The default interface changes to one that offers no server: [interfaceUpdated]
    empties the list and leaves the time, so for the rest of the hour every query
    fails without a new discovery. *)
Example empty_offer_fails_for_the_hour :
  let t := snd (Fetch (7200 * second) (inl tt) (offered [Addr4 1]) NewDHCPTransport) in
  let t := snd (updateServers (7201 * second) (inl tt) (offered []) t) in
  fst (Fetch (10700 * second) (@inl unit error tt) (offered [Addr4 2]) t) = inl [].
Proof. vm_compute. reflexivity. Qed.

(** One that does not answer keeps the servers of the interface before it. *)
Example old_servers_after_change :
  let t := snd (Fetch (7200 * second) (inl tt) (offered [Addr4 1]) NewDHCPTransport) in
  let t := snd (updateServers (7201 * second) (inl tt) unanswered t) in
  fst (Fetch (10700 * second) (@inl unit error tt) (offered [Addr4 2]) t) = inl [Addr4 1].
Proof. vm_compute. reflexivity. Qed.

(** A search domain is written behind the name as DHCP gives it, without the dot
    that miekg/dns needs at the end of a name it packs. *)
Example search_names_lack_dot : dhcp_nameList ["lan"] "printer" = ["printer.lan"; "printer."].
Proof. vm_compute. reflexivity. Qed.

Lemma Fetch_spec_witness :
  let t := {| dh_updatedAt := 7200 * second; dh_servers := [Addr4 1]; dh_search := ["lan"] |} in
  dh_updatedAt t = 7200 * second.
Proof.
  assert (Fetch (7200 * second) (@inl unit error tt) (offered [Addr4 1]) NewDHCPTransport =
    (inl [Addr4 1], {| dh_updatedAt := 7200 * second; dh_servers := [Addr4 1]; dh_search := ["lan"] |})) as H by (vm_compute; reflexivity).
  destruct (Fetch_spec _ _ _ _ _ _ H) as [(Hl & _)|(Hu & _)]; [vm_compute in Hl; discriminate|exact Hu].
Defined.
