(* ===== verification/Trojan.v ===== *)
(** * The Trojan protocol

    transport/trojan: the header of a stream and of a packet connection, packets
    in frames, the service that knows its users by the hash of their passwords
    and hands everybody else to a fallback, and the streams of a multiplexed
    connection.  Addresses on the wire are sing's. *)

From stdpp Require Import base list strings gmap.
From Stdlib Require Import ZArith Lia Ascii.
From S2P Require Import Prelude GoStd External ByteReader.

Open Scope Z_scope.
Open Scope box_scope.

Definition KeyLength : nat := 56.
Definition CommandTCP : Z := 1.
Definition CommandUDP : Z := 3.
Definition CommandMux : Z := 127.
Definition CRLF : list Z := [13; 10].

(** [hex.Encode] *)
Definition hex_digit (n : Z) : Z := if n <? 10 then 48 + n else 97 + (n - 10).
Definition hex_Encode (l : list Z) : list Z := flat_map (fun b => [hex_digit (b / 16); hex_digit (b mod 16)]) l.

(** A connection that is written to: what the peer gets, and after how many more
    writes it fails. *)
Record Sink : Type := { sk_written : list Z; sk_fail : option (nat * error) }.

Definition sink_write (l : list Z) (s : Sink) : option error * Sink :=
  match sk_fail s with
  | Some (O, e) => (Some e, s)
  | Some (S n, e) => (None, {| sk_written := sk_written s ++ l; sk_fail := Some (n, e) |})
  | None => (None, {| sk_written := sk_written s ++ l; sk_fail := None |})
  end.

Fixpoint sink_writes (ls : list (list Z)) (s : Sink) : option error * Sink :=
  match ls with
  | [] => (None, s)
  | l :: ls => match sink_write l s with (Some e, s) => (Some e, s) | (None, s) => sink_writes ls s end
  end.

Section trojan.
(** [sha256.New224] of the standard library, and [M.SocksaddrSerializer] of sing
    with what a reader takes from a writer. *)
Context (sha224 : list Z -> list Z).
Context (WriteAddrPort : Socksaddr -> list Z + error) (ReadAddrPort : Reader -> res (Socksaddr * Reader)).

Definition Key (password : list Z) : list Z := hex_Encode (sha224 password).

(** ** The client *)

(** The bytes in front of a stream, and of a packet connection with its first
    packet *)
Definition stream_header (key : list Z) (command : Z) (destination : Socksaddr) : list Z + error :=
  match WriteAddrPort destination with
  | inl address => inl (key ++ CRLF ++ [command] ++ address ++ CRLF)
  | inr e => inr e
  end.

(** [ClientHandshakeRaw]: one write per part *)
Definition ClientHandshakeRaw (key : list Z) (command : Z) (destination : Socksaddr) (payload : list Z) (conn : Sink) : option error * Sink :=
  match sink_writes [key; CRLF; [command]] conn with
  | (Some e, conn) => (Some e, conn)
  | (None, conn) =>
      match WriteAddrPort destination with
      | inr e => (Some e, conn)
      | inl address => sink_writes ([address; CRLF] ++ match payload with [] => [] | _ => [payload] end) conn
      end
  end.

Definition write_cause (msg : string) (r : option error * Sink) : option error * Sink :=
  match r with (Some e, s) => (Some (ErrCause e msg), s) | r => r end.

(** [ClientHandshake], and [ClientHandshakeBuffer], which extends the buffer of
    the payload: one write *)
Definition ClientHandshake (key : list Z) (destination : Socksaddr) (payload : list Z) (conn : Sink) : option error * Sink :=
  match stream_header key CommandTCP destination with
  | inr e => (Some e, conn)
  | inl header => write_cause "write request" (sink_write (header ++ payload) conn)
  end.

(** [ClientHandshakePacket]: [headroom] says that the header fits in front of the
    payload. *)
Definition ClientHandshakePacket (headroom : bool) (key : list Z) (destination : Socksaddr) (payload : list Z) (conn : Sink) : option error * Sink :=
  match stream_header key CommandUDP destination, WriteAddrPort destination with
  | inl header, inl address =>
      let header := header ++ address ++ be_bytes 2 (Z.of_nat (length payload) mod 65536) ++ CRLF in
      if headroom then write_cause "write payload" (sink_write (header ++ payload) conn)
      else
        match write_cause "write request" (sink_write header conn) with
        | (Some e, conn) => (Some e, conn)
        | (None, conn) => write_cause "write payload" (sink_write payload conn)
        end
  | inr e, _ | _, inr e => (Some e, conn)
  end.

(** [WritePacket] *)
Definition WritePacket (payload : list Z) (destination : Socksaddr) (conn : Sink) : option error * Sink :=
  match WriteAddrPort destination with
  | inr e => (Some e, conn)
  | inl address =>
      write_cause "write packet" (sink_write (address ++ be_bytes 2 (Z.of_nat (length payload) mod 65536) ++ CRLF ++ payload) conn)
  end.

(** [ClientConn] and [ClientPacketConn], with what they wrap *)
Record ClientConn : Type := { cc_conn : Sink; cc_headerWritten : bool }.

(** [ClientConn.Write] and [WriteBuffer]: the header goes out with the first
    write, and again with the next one when that fails. *)
Definition ClientConn_Write (key : list Z) (destination : Socksaddr) (p : list Z) (c : ClientConn) : option error * ClientConn :=
  if cc_headerWritten c then
    let '(err, conn) := sink_write p (cc_conn c) in (err, {| cc_conn := conn; cc_headerWritten := true |})
  else
    match ClientHandshake key destination p (cc_conn c) with
    | (Some e, conn) => (Some e, {| cc_conn := conn; cc_headerWritten := false |})
    | (None, conn) => (None, {| cc_conn := conn; cc_headerWritten := true |})
    end.

(** [ClientPacketConn.WritePacket]: the first packet counts as written whether it
    was or not; two first packets are one behind the other under the lock. *)
Definition ClientPacketConn_WritePacket (headroom : bool) (key : list Z) (payload : list Z) (destination : Socksaddr) (c : ClientConn)
  : option error * ClientConn :=
  let '(err, conn) :=
    if cc_headerWritten c then WritePacket payload destination (cc_conn c)
    else ClientHandshakePacket headroom key destination payload (cc_conn c) in
  (err, {| cc_conn := conn; cc_headerWritten := true |}).

(** ** Packets *)

Definition SkipN (n : nat) (r : Reader) : res Reader := let* '(_, r) := ReadFull n r in Ok r.

(** [ReadPacket] into a buffer of [capacity] bytes.  A packet that does not fit is
    an error of the buffer, and its bytes stay on the connection. *)
Definition ReadPacket (capacity : nat) (conn : Reader) : res (Socksaddr * list Z) * Reader :=
  match res_cause "read destination" (ReadAddrPort conn) with
  | Err e => (Err e, conn)
  | Panic msg => (Panic msg, conn)
  | Ok (destination, conn) =>
      match res_cause "read chunk length" (ReadUint 2 conn) with
      | Err e => (Err e, conn)
      | Panic msg => (Panic msg, conn)
      | Ok (length, conn) =>
          match res_cause "skip crlf" (SkipN 2 conn) with
          | Err e => (Err e, conn)
          | Panic msg => (Panic msg, conn)
          | Ok conn =>
              if (capacity <? Z.to_nat length)%nat then (Err (ErrNew "short buffer"), conn)
              else
                match ReadFull (Z.to_nat length) conn with
                | Ok (payload, conn) => (Ok (destination, payload), conn)
                | Err e => (Err e, conn)
                | Panic msg => (Panic msg, conn)
                end
          end
      end
  end.

(** Reading [n] packets one after the other *)
Fixpoint ReadPackets (n capacity : nat) (conn : Reader) : res (list (Socksaddr * list Z)) * Reader :=
  match n with
  | O => (Ok [], conn)
  | S n =>
      match ReadPacket capacity conn with
      | (Ok p, conn) =>
          match ReadPackets n capacity conn with
          | (Ok ps, conn) => (Ok (p :: ps), conn)
          | (Err e, conn) => (Err e, conn)
          | (Panic msg, conn) => (Panic msg, conn)
          end
      | (Err e, conn) => (Err e, conn)
      | (Panic msg, conn) => (Panic msg, conn)
      end
  end.

(** ** The service *)

(** Users are names here, any comparable type there. *)
Record Service : Type := { sv_users : gmap string (list Z); sv_keys : gmap (list Z) string; sv_fallback : bool }.

Definition NewService (fallback : bool) : Service := {| sv_users := ∅; sv_keys := ∅; sv_fallback := fallback |}.

Definition ErrUserExists : error := ErrNew "user already exists".

(** The loop of [UpdateUsers]; a missing password is an index out of range. *)
Fixpoint add_users (users : gmap string (list Z)) (keys : gmap (list Z) string) (userList : list string) (passwordList : list (list Z))
  : res (gmap string (list Z) * gmap (list Z) string) :=
  match userList with
  | [] => Ok (users, keys)
  | user :: userList =>
      match users !! user with
      | Some _ => Err ErrUserExists
      | None =>
          match passwordList with
          | [] => Panic "index out of range"
          | password :: passwordList =>
              let key := Key password in
              match keys !! key with
              | Some oldUser => Err (ErrExtend ErrUserExists ("password used by " +:+ oldUser))
              | None => add_users (<[user := key]> users) (<[key := user]> keys) userList passwordList
              end
          end
      end
  end.

Definition UpdateUsers (userList : list string) (passwordList : list (list Z)) (s : Service) : res Service :=
  let* '(users, keys) := add_users ∅ ∅ userList passwordList in
  Ok {| sv_users := users; sv_keys := keys; sv_fallback := sv_fallback s |}.

(** What becomes of a connection; the reader is what the handler reads. *)
Inductive Served : Type :=
  | ServedTCP (user : string) (destination : Socksaddr) (conn : Reader)
  | ServedUDP (user : string) (destination : Socksaddr) (conn : Reader)
  | ServedMux (user : string) (conn : Reader)
  | ServedFallback (conn : Reader).

(** [fallback]: the bytes that were read are put back in front. *)
Definition fallback (s : Service) (header : list Z) (err : error) (conn : Reader) : res Served :=
  if sv_fallback s then Ok (ServedFallback {| rd_bytes := header ++ rd_bytes conn; rd_end := rd_end conn |})
  else Err (ErrExtend err "fallback disabled").

(** [NewConnection]: the first read gives [n] bytes at most. *)
Definition NewConnection (s : Service) (n : nat) (conn : Reader) : res Served :=
  match rd_bytes conn with
  | [] => Err (rd_end conn)
  | _ =>
      let key := take (min n KeyLength) (rd_bytes conn) in
      let conn := {| rd_bytes := drop (min n KeyLength) (rd_bytes conn); rd_end := rd_end conn |} in
      if negb (length key =? KeyLength)%nat then fallback s key (ErrNew "bad request size") conn
      else
        match sv_keys s !! key with
        | None => fallback s key (ErrNew "bad request") conn
        | Some user =>
            let* conn := res_cause "skip crlf" (SkipN 2 conn) in
            let* '(command, conn) := res_cause "read command" (ReadByte conn) in
            if negb ((command =? CommandTCP) || (command =? CommandUDP) || (command =? CommandMux)) then
              Err (ErrNew ("unknown command " +:+ go_itoa command))
            else
              let* '(destination, conn) := res_cause "read destination" (ReadAddrPort conn) in
              let* conn := res_cause "skip crlf" (SkipN 2 conn) in
              if command =? CommandTCP then Ok (ServedTCP user destination conn)
              else if command =? CommandUDP then Ok (ServedUDP user destination conn)
              else Ok (ServedMux user conn)
        end
  end.

(** ** Streams of a multiplexed connection *)

(** [newMuxConnection0]: the first [buffered] bytes of the stream are in the
    reader's buffer when the header was read.  The buffer made for what is left
    of them has no bytes yet, and its length is how many it is filled with. *)
Definition newMuxConnection0 (buffered : nat) (conn : Reader) : res Served :=
  let* '(command, r) := res_cause "read command" (ReadByte conn) in
  let* '(destination, r) := res_cause "read destination" (ReadAddrPort r) in
  let taken := (length (rd_bytes conn) - length (rd_bytes r))%nat in
  (* the bytes that only the buffer holds *)
  let in_buffer := (max taken (min buffered (length (rd_bytes conn))) - taken)%nat in
  let new_buffer : list Z := [] in
  let cached := take (length new_buffer) (rd_bytes r) in
  let conn := {| rd_bytes := cached ++ drop in_buffer (rd_bytes r); rd_end := rd_end r |} in
  if command =? CommandTCP then Ok (ServedTCP "" destination conn)
  else if command =? CommandUDP then Ok (ServedUDP "" destination conn)
  else Err (ErrNew ("unknown command " +:+ go_itoa command)).
(** ** What the service reads is what the client wrote *)

Section laws.
Context (addr_law : forall a l, WriteAddrPort a = inl l -> reads ReadAddrPort l a).

Definition open_sink : Sink := {| sk_written := []; sk_fail := None |}.

Lemma sink_open l w : sink_write l {| sk_written := w; sk_fail := None |} = (None, {| sk_written := w ++ l; sk_fail := None |}).
Proof. done. Qed.

Lemma skip_crlf rest e : SkipN 2 {| rd_bytes := CRLF ++ rest; rd_end := e |} = Ok {| rd_bytes := rest; rd_end := e |}.
Proof. pose proof (reads_full CRLF rest e) as H. change (length CRLF) with 2%nat in H. unfold SkipN. by rewrite H. Qed.

(** A header with a known key is served with its destination, behind it the rest
    of the stream is untouched. *)
Lemma NewConnection_header s n key user command destination header rest e :
  length key = KeyLength -> (KeyLength <= n)%nat -> sv_keys s !! key = Some user ->
  stream_header key command destination = inl header -> command = CommandTCP \/ command = CommandUDP ->
  NewConnection s n {| rd_bytes := header ++ rest; rd_end := e |} =
  Ok ((if command =? CommandTCP then ServedTCP else ServedUDP) user destination {| rd_bytes := rest; rd_end := e |}).
Proof.
  intros Hk Hn Hu Hh Hc. unfold stream_header in Hh. destruct (WriteAddrPort destination) as [address|e0] eqn:Ha; [|done].
  assert (header ++ rest = key ++ CRLF ++ command :: address ++ CRLF ++ rest) as ->.
  { injection Hh as <-. cbn [app]. rewrite <-!app_assoc. cbn [app]. by rewrite <-!app_assoc. }
  clear Hh. unfold NewConnection. cbn [rd_bytes rd_end]. rewrite (Nat.min_r n KeyLength) by done.
  destruct (key ++ _) as [|z l] eqn:Ez; [by destruct key|]. rewrite <-Ez. clear Ez z l.
  rewrite <-Hk, take_app_length, drop_app_length, Nat.eqb_refl. cbn [negb]. rewrite Hu, skip_crlf. cbn [res_cause res_bind].
  unfold ReadByte at 1. cbn [app rd_bytes rd_end res_cause res_bind].
  assert (negb ((command =? CommandTCP) || (command =? CommandUDP) || (command =? CommandMux)) = false) as -> by (by destruct Hc as [-> | ->]).
  rewrite (addr_law _ _ Ha). cbn [res_cause res_bind]. rewrite skip_crlf. cbn [res_cause res_bind].
  by destruct Hc as [-> | ->].
Qed.

(** A packet in its frame *)
Definition packet_frame (p : Socksaddr * list Z) : option (list Z) :=
  match WriteAddrPort (fst p) with
  | inl address => Some (address ++ be_bytes 2 (Z.of_nat (length (snd p))) ++ CRLF ++ snd p)
  | inr _ => None
  end.

Definition packet_fits (capacity : nat) (p : Socksaddr * list Z) : Prop :=
  is_Some (packet_frame p) /\ Z.of_nat (length (snd p)) < 65536 /\ (length (snd p) <= capacity)%nat.

Lemma ReadPacket_frame capacity p frame rest e :
  packet_fits capacity p -> packet_frame p = Some frame ->
  ReadPacket capacity {| rd_bytes := frame ++ rest; rd_end := e |} = (Ok p, {| rd_bytes := rest; rd_end := e |}).
Proof.
  destruct p as [a payload]. unfold packet_fits, packet_frame. cbn [fst snd]. intros (_ & Hl & Hc).
  destruct (WriteAddrPort a) as [address|] eqn:Ha; [|done]. intros Hf. apply (inj Some) in Hf as <-. rewrite <-!app_assoc. unfold ReadPacket.
  rewrite (addr_law _ _ Ha). cbn [res_cause]. rewrite (reads_uint 2) by (simpl; lia). cbn [res_cause].
  rewrite skip_crlf. cbn [res_cause]. rewrite Nat2Z.id, (proj2 (Nat.ltb_ge _ _) Hc). by rewrite reads_full.
Qed.

Fixpoint write_packets (headroom : bool) (key : list Z) (ps : list (Socksaddr * list Z)) (c : ClientConn) : option error * ClientConn :=
  match ps with
  | [] => (None, c)
  | (destination, payload) :: ps =>
      match ClientPacketConn_WritePacket headroom key payload destination c with
      | (Some e, c) => (Some e, c)
      | (None, c) => write_packets headroom key ps c
      end
  end.

Lemma WritePacket_frame p w capacity frame : packet_fits capacity p -> packet_frame p = Some frame ->
  WritePacket (snd p) (fst p) {| sk_written := w; sk_fail := None |} = (None, {| sk_written := w ++ frame; sk_fail := None |}).
Proof.
  unfold packet_fits, packet_frame, WritePacket. intros (_ & Hl & _). destruct (WriteAddrPort _) as [address|]; [|done]. intros Hf. apply (inj Some) in Hf as <-.
  by rewrite Z.mod_small by lia.
Qed.

Lemma write_packets_frames headroom key capacity ps : Forall (packet_fits capacity) ps -> forall w,
  exists frames, write_packets headroom key ps {| cc_conn := {| sk_written := w; sk_fail := None |}; cc_headerWritten := true |} =
    (None, {| cc_conn := {| sk_written := w ++ frames; sk_fail := None |}; cc_headerWritten := true |}) /\
  forall rest e, ReadPackets (length ps) capacity {| rd_bytes := frames ++ rest; rd_end := e |} = (Ok ps, {| rd_bytes := rest; rd_end := e |}).
Proof.
  induction 1 as [|[a payload] ps Hp Hps IH]; intros w; cbn [write_packets length ReadPackets].
  - exists []. by rewrite app_nil_r.
  - destruct (proj1 Hp) as [frame Hf]. unfold ClientPacketConn_WritePacket. cbn [cc_headerWritten cc_conn].
    pose proof (WritePacket_frame _ w _ _ Hp Hf) as Hw. cbn [fst snd] in Hw. rewrite Hw.
    destruct (IH (w ++ frame)) as (frames & -> & Hr). exists (frame ++ frames). split; [by rewrite app_assoc|].
    intros rest e. rewrite <-app_assoc, (ReadPacket_frame _ _ _ _ _ Hp Hf), Hr. done.
Qed.

(** A stream: what a client with a known password writes first is served as a
    stream to its destination, which begins with the client's bytes. *)
Theorem trojan_stream_served s n password user destination payload more e header :
  length (Key password) = KeyLength -> (KeyLength <= n)%nat -> sv_keys s !! Key password = Some user ->
  stream_header (Key password) CommandTCP destination = inl header ->
  exists written,
    ClientConn_Write (Key password) destination payload {| cc_conn := open_sink; cc_headerWritten := false |} =
      (None, {| cc_conn := {| sk_written := written; sk_fail := None |}; cc_headerWritten := true |}) /\
    NewConnection s n {| rd_bytes := written ++ more; rd_end := e |} =
      Ok (ServedTCP user destination {| rd_bytes := payload ++ more; rd_end := e |}).
Proof.
  intros Hk Hn Hu Hh. exists (header ++ payload). unfold ClientConn_Write, ClientHandshake. rewrite Hh. split; [done|].
  rewrite <-app_assoc. rewrite (NewConnection_header s n (Key password) user CommandTCP destination header) by (done || by left). done.
Qed.

(** Packets: whatever packets such a client writes, to any destinations, with or
    without room for headers in its buffers, the service reads the same packets
    in the same order, with nothing left over. *)
Theorem trojan_packets_served s n capacity headroom password user destination payload ps more e :
  length (Key password) = KeyLength -> (KeyLength <= n)%nat -> sv_keys s !! Key password = Some user ->
  Forall (packet_fits capacity) ((destination, payload) :: ps) ->
  exists written conn,
    write_packets headroom (Key password) ((destination, payload) :: ps) {| cc_conn := open_sink; cc_headerWritten := false |} =
      (None, {| cc_conn := {| sk_written := written; sk_fail := None |}; cc_headerWritten := true |}) /\
    NewConnection s n {| rd_bytes := written ++ more; rd_end := e |} = Ok (ServedUDP user destination conn) /\
    ReadPackets (S (length ps)) capacity conn = (Ok ((destination, payload) :: ps), {| rd_bytes := more; rd_end := e |}).
Proof.
  intros Hk Hn Hu Hps. apply Forall_cons in Hps as [Hp Hps].
  assert (exists header frame, stream_header (Key password) CommandUDP destination = inl header /\ packet_frame (destination, payload) = Some frame /\
    forall w, ClientHandshakePacket headroom (Key password) destination payload {| sk_written := w; sk_fail := None |} =
      (None, {| sk_written := w ++ header ++ frame; sk_fail := None |})) as (header & frame & Hh & Hf & Hw).
  { destruct Hp as ([frame Hf] & Hl & _). unfold ClientHandshakePacket, stream_header, packet_frame in *. cbn [fst snd] in *.
    destruct (WriteAddrPort destination) as [address|]; [|done]. apply (inj Some) in Hf as <-. eexists _, _. split_and!; [done..|].
    intros w. rewrite Z.mod_small by lia. destruct headroom; unfold sink_write; cbn [sk_fail sk_written write_cause]; by rewrite <-!app_assoc. }
  destruct (write_packets_frames headroom (Key password) capacity ps Hps (header ++ frame)) as (frames & Hws & Hr).
  exists (header ++ frame ++ frames). eexists. split_and!.
  - cbn [write_packets]. unfold ClientPacketConn_WritePacket, open_sink. cbn [cc_headerWritten cc_conn]. rewrite Hw. rewrite app_nil_l, Hws. by rewrite <-app_assoc.
  - rewrite <-!app_assoc. rewrite (NewConnection_header s n (Key password) user CommandUDP destination header) by (done || by right). done.
  - cbn [ReadPackets]. rewrite (ReadPacket_frame _ _ _ _ _ Hp Hf). by rewrite Hr.
Qed.
End laws.

(** ** Everybody else *)

(** The fallback is given the stream from its first byte. *)
Theorem trojan_fallback_whole s n conn conn' :
  NewConnection s n conn = Ok (ServedFallback conn') -> conn' = conn /\ sv_fallback s = true.
Proof.
  unfold NewConnection. destruct (rd_bytes conn) as [|z l] eqn:El; [done|]. rewrite <-El.
  assert (forall h err c, fallback s h err c = Ok (ServedFallback conn') -> conn' = {| rd_bytes := h ++ rd_bytes c; rd_end := rd_end c |} /\ sv_fallback s = true) as Hfb.
  { intros h err c. unfold fallback. destruct (sv_fallback s); [|done]. by intros [= <-]. }
  assert ({| rd_bytes := take (min n KeyLength) (rd_bytes conn) ++ drop (min n KeyLength) (rd_bytes conn); rd_end := rd_end conn |} = conn) as Hall
    by (rewrite take_drop; by destruct conn).
  destruct (negb _).
  { intros [-> ?]%Hfb. cbn [rd_bytes rd_end]. by rewrite Hall. }
  destruct (sv_keys s !! _) as [user|].
  - intros H. exfalso. apply res_bind_ok in H as (c1 & _ & H). apply res_bind_ok in H as ([cmd c2] & _ & H). destruct (negb _); [done|].
    apply res_bind_ok in H as ([d c3] & _ & H). apply res_bind_ok in H as (c4 & _ & H). by destruct (cmd =? CommandTCP), (cmd =? CommandUDP).
  - intros [-> ?]%Hfb. cbn [rd_bytes rd_end]. by rewrite Hall.
Qed.

(** Nobody is served without the key of a user. *)
Lemma served_has_key s n conn v :
  NewConnection s n conn = Ok v ->
  match v with
  | ServedTCP user _ _ | ServedUDP user _ _ | ServedMux user _ =>
      sv_keys s !! take KeyLength (rd_bytes conn) = Some user /\ (KeyLength <= length (rd_bytes conn))%nat
  | ServedFallback _ => True
  end.
Proof.
  unfold NewConnection. destruct (rd_bytes conn) as [|z l] eqn:El; [done|]. rewrite <-El.
  destruct (negb (_ =? _)%nat) eqn:Hlen.
  { unfold fallback. destruct (sv_fallback s); [|done]. by intros [= <-]. }
  apply negb_false_iff, Nat.eqb_eq in Hlen. rewrite length_take in Hlen.
  assert (min n KeyLength = KeyLength) as Hmin by lia. rewrite Hmin in *.
  destruct (sv_keys s !! _) as [user|] eqn:Hu; [|unfold fallback; destruct (sv_fallback s); [|done]; by intros [= <-]].
  intros H. apply res_bind_ok in H as (c1 & _ & H). apply res_bind_ok in H as ([cmd c2] & _ & H). destruct (negb _); [done|].
  apply res_bind_ok in H as ([d c3] & _ & H). apply res_bind_ok in H as (c4 & _ & H).
  destruct (cmd =? CommandTCP); [injection H as <-; split; [done|lia]|]. destruct (cmd =? CommandUDP); injection H as <-; split; done || lia.
Qed.

(** ** Users *)

Definition mutual (users : gmap string (list Z)) (keys : gmap (list Z) string) : Prop :=
  forall user key, users !! user = Some key <-> keys !! key = Some user.

Lemma add_users_mutual userList : forall users keys passwordList users' keys',
  mutual users keys -> add_users users keys userList passwordList = Ok (users', keys') -> mutual users' keys'.
Proof.
  induction userList as [|user userList IH]; intros users keys passwordList users' keys' Hm; cbn [add_users]; [by intros [= <- <-]|].
  destruct (users !! user) eqn:Hu; [done|]. destruct passwordList as [|password passwordList]; [done|].
  destruct (keys !! Key password) eqn:Hk; [done|]. apply IH. intros u k.
  destruct (decide (u = user)) as [->|Hne], (decide (k = Key password)) as [->|Hk'].
  - by rewrite !lookup_insert_eq.
  - rewrite lookup_insert_eq, lookup_insert_ne by done. split; [by intros [= <-]|]. intros Hx%Hm. congruence.
  - rewrite lookup_insert_ne, lookup_insert_eq by done. split; [|by intros [= <-]]. intros Hx%Hm. congruence.
  - rewrite !lookup_insert_ne by done. apply Hm.
Qed.

(** After an update every user has one key and every key one user; a failed
    update changes nothing, because it has no state. *)
Theorem trojan_users_mutual s userList passwordList s' :
  UpdateUsers userList passwordList s = Ok s' -> mutual (sv_users s') (sv_keys s').
Proof.
  unfold UpdateUsers. intros ([users keys] & H & [= <-])%res_bind_ok. apply add_users_mutual in H; [done|].
  intros u k. by rewrite !lookup_empty.
Qed.
End trojan.

(** ** Runs *)

(** Addresses of one byte: the last byte of an IPv4 address, port 53. *)
Definition small_addr (b : Z) : Socksaddr := {| sa_Addr := Addr4 b; sa_Port := 53; sa_Fqdn := "" |}.
Definition small_write (a : Socksaddr) : list Z + error :=
  match sa_Addr a with
  | Addr4 b => if bool_decide (a = small_addr b) then inl [b] else inr (ErrNew "address")
  | _ => inr (ErrNew "address")
  end.
Definition small_read (r : Reader) : res (Socksaddr * Reader) := let* '(b, r) := ReadByte r in Ok (small_addr b, r).

Lemma small_law a l : small_write a = inl l -> reads small_read l a.
Proof.
  unfold small_write. destruct (sa_Addr a) as [|b|b z]; try done. case_bool_decide as Ha; [|done]. intros [= <-] rest e. by rewrite Ha.
Qed.

Definition small_hash (password : list Z) : list Z := take 28 (password ++ replicate 28 0).

Definition one_user : Service := {| sv_users := {[ "alice" := Key small_hash [1; 2; 3] ]}; sv_keys := {[ Key small_hash [1; 2; 3] := "alice" ]}; sv_fallback := true |}.

Example one_user_added : UpdateUsers small_hash ["alice"] [[1; 2; 3]] (NewService true) = Ok one_user.
Proof. vm_compute. reflexivity. Qed.

Lemma trojan_packets_served_witness :
  exists written conn,
    write_packets small_write false (Key small_hash [1; 2; 3]) [(small_addr 8, [7; 7]); (small_addr 9, [])]
      {| cc_conn := open_sink; cc_headerWritten := false |} =
      (None, {| cc_conn := {| sk_written := written; sk_fail := None |}; cc_headerWritten := true |}) /\
    NewConnection small_read one_user 200 {| rd_bytes := written ++ [5]; rd_end := ErrEOF |} = Ok (ServedUDP "alice" (small_addr 8) conn) /\
    ReadPackets small_read 2 1500 conn = (Ok [(small_addr 8, [7; 7]); (small_addr 9, [])], {| rd_bytes := [5]; rd_end := ErrEOF |}).
Proof.
  apply (trojan_packets_served small_hash small_write small_read small_law one_user 200 1500 false [1; 2; 3] "alice" (small_addr 8) [7; 7] [(small_addr 9, [])] [5] ErrEOF).
  - vm_compute. reflexivity.
  - unfold KeyLength. lia.
  - vm_compute. reflexivity.
  - repeat constructor; simpl; try lia; vm_compute; eexists; reflexivity.
Defined.

(** ** Behaviours worth knowing *)

(** A header that arrives in two segments is a bad request. *)
Example short_first_read :
  let stream := Key small_hash [1; 2; 3] ++ CRLF ++ [1; 8] ++ CRLF in
  NewConnection small_read one_user 20 {| rd_bytes := stream; rd_end := ErrEOF |} = Ok (ServedFallback {| rd_bytes := stream; rd_end := ErrEOF |}) /\
  NewConnection small_read one_user 60 {| rd_bytes := stream; rd_end := ErrEOF |} = Ok (ServedTCP "alice" (small_addr 8) {| rd_bytes := []; rd_end := ErrEOF |}).
Proof. split; vm_compute; reflexivity. Qed.

(** A packet that does not fit leaves its bytes, which are then read as the
    address of the next one. *)
Example large_packet_desynchronises :
  let frame payload := [8] ++ be_bytes 2 (Z.of_nat (length payload)) ++ CRLF ++ payload in
  let conn := {| rd_bytes := frame [1; 0; 1; 13; 10; 66; 0; 0] ++ frame [5]; rd_end := ErrEOF |} in
  let '(r, conn) := ReadPacket small_read 4 conn in
  (is_ok r, fst (ReadPacket small_read 4 conn)) = (false, Ok (small_addr 1, [66])).
Proof. vm_compute. reflexivity. Qed.

(** What a client of a multiplexed stream sends along with the header is lost:
    the first bytes here are read into the buffer and never given on. *)
Example mux_loses_first_bytes :
  newMuxConnection0 small_read 4096 {| rd_bytes := [1; 8] ++ [71; 69; 84]; rd_end := ErrEOF |} =
  Ok (ServedTCP "" (small_addr 8) {| rd_bytes := []; rd_end := ErrEOF |}).
Proof. vm_compute. reflexivity. Qed.

(** A first packet that could not be written: the next one goes out without a
    header. *)
Example failed_first_packet :
  let c := {| cc_conn := {| sk_written := []; sk_fail := Some (0%nat, ErrEOF) |}; cc_headerWritten := false |} in
  let '(err, c) := ClientPacketConn_WritePacket small_write false (Key small_hash []) [1] (small_addr 8) c in
  (err, cc_headerWritten c) = (Some (ErrCause ErrEOF "write request"), true).
Proof. vm_compute. reflexivity. Qed.
