(* ===== verification/Framing.v ===== *)
(** * Streams in frames

    Three transports that put a stream into frames: transport/v2raygrpclite/conn.go
    (messages of gRPC), transport/simple-obfs/tls.go (records of TLS) and
    transport/simple-obfs/http.go (one HTTP exchange).  What each of them promises
    its user is the interface [FrameReader]: any sequence of reads gives the bytes
    of the frames in order. *)

From stdpp Require Import base list strings.
From Stdlib Require Import ZArith Lia.
From S2P Require Import Prelude GoStd ByteReader TlsFragment.

Open Scope Z_scope.
Open Scope box_scope.

(** ** Reads of a connection *)

(** [Read] into [n] bytes when the connection has [k] of them ready. *)
Definition read_some (n k : nat) (r : Reader) : res (list Z * Reader) :=
  if (n =? 0)%nat then Ok ([], r)
  else
    match rd_bytes r with
    | [] => Err (rd_end r)
    | l => let m := min n (max 1 k) in Ok (take m l, {| rd_bytes := drop m l; rd_end := rd_end r |})
    end.

Lemma read_some_app n k l rest e : (0 < n <= length l)%nat ->
  exists m, (0 < m <= n)%nat /\ read_some n k {| rd_bytes := l ++ rest; rd_end := e |} = Ok (take m l, {| rd_bytes := drop m l ++ rest; rd_end := e |}).
Proof.
  intros Hn. exists (min n (max 1 k)). split; [lia|]. unfold read_some. cbn [rd_bytes rd_end].
  rewrite (proj2 (Nat.eqb_neq n 0)) by lia. destruct l as [|z l]; [simpl in Hn; lia|]. cbn [app].
  change (z :: l ++ rest) with ((z :: l) ++ rest). by rewrite take_app_le, drop_app_le by lia.
Qed.

(** ** The interface *)

(** A reader of frames: [fr_holds s cur ps e] says that the rest of a frame, [cur],
    and the frames [ps] are still to come, and then the error [e]. *)
Class FrameReader (S : Type) : Type := {
  fr_read : nat -> nat -> S -> res (list Z) * S;
  fr_holds : S -> list Z -> list (list Z) -> error -> Prop }.

Class FrameReaderLaw (S : Type) `{FrameReader S} : Prop :=
  fr_step : forall n k s cur ps e, (0 < n)%nat -> fr_holds s cur ps e ->
    match fr_read n k s with
    | (Ok l, s') => exists cur' ps', fr_holds s' cur' ps' e /\ cur ++ concat ps = l ++ cur' ++ concat ps' /\
        (length (cur' ++ concat ps') + length ps' < length (cur ++ concat ps) + length ps)%nat
    | (Err e', _) => cur = [] /\ ps = [] /\ e' = e
    | (Panic _, _) => False
    end.

Section client.
Context {S : Type} `{FrameReader S} `{!FrameReaderLaw S}.

(** Reads into buffers of the given sizes, until one fails. *)
Fixpoint read_all (args : list (nat * nat)) (s : S) : list Z * option error :=
  match args with
  | [] => ([], None)
  | (n, k) :: args =>
      match fr_read n k s with
      | (Ok l, s) => let '(ls, e) := read_all args s in (l ++ ls, e)
      | (Err e, _) => ([], Some e)
      | (Panic msg, _) => ([], Some (ErrNew msg))
      end
  end.

(** Nothing is lost, added or reordered, and after enough reads everything was
    read and the end of the connection is reported. *)
Lemma read_all_frames args : forall s cur ps e,
  Forall (fun a => (0 < fst a)%nat) args -> fr_holds s cur ps e ->
  exists rest, cur ++ concat ps = fst (read_all args s) ++ rest /\
    ((length (cur ++ concat ps) + length ps < length args)%nat -> rest = [] /\ snd (read_all args s) = Some e).
Proof.
  induction args as [|[n k] args IH]; intros s cur ps e Hpos Hs; cbn [read_all].
  - exists (cur ++ concat ps). simpl. split; [done|lia].
  - apply Forall_cons in Hpos as [Hn Hpos]. pose proof (fr_step n k s cur ps e Hn Hs) as Hstep.
    destruct (fr_read n k s) as [[l|e'|msg] s']; [|destruct Hstep as (-> & -> & ->); by exists []|done].
    destruct Hstep as (cur' & ps' & Hs' & Heq & Hlt). destruct (IH s' cur' ps' e Hpos Hs') as (rest & Hr & Hend).
    exists rest. destruct (read_all args s') as [ls e']. cbn [fst snd] in *. split; [by rewrite Heq, Hr, app_assoc|].
    intros Hlen. apply Hend. cbn [length] in Hlen. lia.
Qed.
End client.

(** ** Messages of gRPC *)

Module Gun.

(** [GunConn.Write] and [WriteBuffer]: one message per write. *)
Definition gun_frame (b : list Z) : list Z :=
  let varLen := Z.of_nat (length (AppendUvarint (Z.of_nat (length b)))) in
  [0] ++ be_bytes 4 ((1 + varLen + Z.of_nat (length b)) mod 2 ^ 32) ++ [10] ++ AppendUvarint (Z.of_nat (length b)) ++ b.

(** [GunConn], the side that reads *)
Record GunConn : Type := { reader : Reader; readRemaining : Z }.

(** [bufio.Reader.Discard] *)
Definition Discard (n : nat) (r : Reader) : res Reader :=
  if (n <=? length (rd_bytes r))%nat then Ok {| rd_bytes := drop n (rd_bytes r); rd_end := rd_end r |} else Err (rd_end r).

(** [int] of an unsigned number *)
Definition int_of (z : Z) : Z := (z + 2 ^ 63) mod 2 ^ 64 - 2 ^ 63.

(** The read of what a message holds *)
Definition gun_read_payload (n k : nat) (r : Reader) (remaining : Z) : res (list Z) * GunConn :=
  let n := if remaining <? Z.of_nat n then Z.to_nat remaining else n in
  match read_some n k r with
  | Ok (l, r) => (Ok l, {| reader := r; readRemaining := remaining - Z.of_nat (length l) |})
  | Err e => (Err e, {| reader := r; readRemaining := remaining |})
  | Panic msg => (Panic msg, {| reader := r; readRemaining := remaining |})
  end.

(** [GunConn.read] into [n] bytes *)
Definition gun_read (n k : nat) (c : GunConn) : res (list Z) * GunConn :=
  if 0 <? readRemaining c then gun_read_payload n k (reader c) (readRemaining c)
  else
    match (let* r := Discard 6 (reader c) in ReadUvarint r) with
    | Err e => (Err e, c)
    | Panic msg => (Panic msg, c)
    | Ok (dataLen, r) =>
        let readLen := int_of dataLen in
        if (readLen <? 0) then (Panic "slice bounds out of range", {| reader := r; readRemaining := readLen |})
        else gun_read_payload n k r readLen
    end.

Definition gun_holds (c : GunConn) (cur : list Z) (ps : list (list Z)) (e : error) : Prop :=
  Forall (fun p => Z.of_nat (length p) < 2 ^ 63) ps /\ readRemaining c = Z.of_nat (length cur) /\
  reader c = {| rd_bytes := cur ++ flat_map gun_frame ps; rd_end := e |}.

#[export] Instance gun_reader : FrameReader GunConn := {| fr_read := gun_read; fr_holds := gun_holds |}.

Lemma read_payload_step n k cur ps e : (0 < n)%nat -> Forall (fun p => Z.of_nat (length p) < 2 ^ 63) ps ->
  exists l c', gun_read_payload n k {| rd_bytes := cur ++ flat_map gun_frame ps; rd_end := e |} (Z.of_nat (length cur)) = (Ok l, c') /\
    exists cur', gun_holds c' cur' ps e /\ cur = l ++ cur' /\ (cur <> [] -> (length cur' < length cur)%nat).
Proof.
  intros Hn Hps. unfold gun_read_payload. set (m := if _ <? _ then _ else _).
  assert (m = min n (length cur)) as -> by (unfold m; destruct (Z.ltb_spec (Z.of_nat (length cur)) (Z.of_nat n)); lia).
  destruct (decide (cur = [])) as [->|Hne].
  - rewrite Nat.min_0_r. unfold read_some. cbn [Nat.eqb app length]. eexists [], _. split; [done|]. exists []. split_and!; [|done|done].
    unfold gun_holds. cbn. done.
  - assert (0 < length cur)%nat by (destruct cur; [done|simpl; lia]).
    destruct (read_some_app (min n (length cur)) k cur (flat_map gun_frame ps) e ltac:(lia)) as (m & Hm & ->).
    eexists _, _. split; [done|]. exists (drop m cur). split_and!.
    + unfold gun_holds. cbn [reader readRemaining]. split_and!; [done| |done]. rewrite length_take, length_drop. lia.
    + by rewrite take_drop.
    + intros _. rewrite length_drop. lia.
Qed.

Lemma int_of_id z : 0 <= z < 2 ^ 63 -> int_of z = z.
Proof. intros Hz. unfold int_of. rewrite Z.mod_small; lia. Qed.

Lemma read_frame n k p ps e : Z.of_nat (length p) < 2 ^ 63 ->
  gun_read n k {| reader := {| rd_bytes := gun_frame p ++ flat_map gun_frame ps; rd_end := e |}; readRemaining := 0 |} =
  gun_read_payload n k {| rd_bytes := p ++ flat_map gun_frame ps; rd_end := e |} (Z.of_nat (length p)).
Proof.
  intros Hp. unfold gun_read. cbn [readRemaining Z.ltb Z.compare reader]. unfold gun_frame at 1. set (h := be_bytes 4 _).
  assert (length h = 4)%nat as Hh by apply length_be_bytes. rewrite <-!app_assoc.
  replace ([0] ++ h ++ [10] ++ AppendUvarint (Z.of_nat (length p)) ++ p ++ flat_map gun_frame ps) with
    (([0] ++ h ++ [10]) ++ AppendUvarint (Z.of_nat (length p)) ++ p ++ flat_map gun_frame ps) by (by rewrite <-!app_assoc).
  unfold Discard. cbn [rd_bytes rd_end]. rewrite (proj2 (Nat.leb_le _ _)) by (rewrite !length_app, Hh; simpl; lia).
  rewrite (drop_app_length' ([0] ++ h ++ [10])) by (rewrite !length_app, Hh; done). cbn [res_bind].
  rewrite reads_uvarint by lia. rewrite int_of_id by lia. by rewrite (proj2 (Z.ltb_ge _ _)) by lia.
Qed.

#[export] Instance gun_law : FrameReaderLaw GunConn.
Proof.
  intros n k [r rem] cur ps e Hn (Hps & Hrem & Hr). cbn [reader readRemaining] in *. subst. cbn [fr_read gun_reader fr_holds].
  destruct (decide (cur = [])) as [->|Hne].
  - destruct ps as [|p ps]; [unfold gun_read, Discard; simpl; done|]. cbn [length app flat_map Z.of_nat].
    apply Forall_cons in Hps as [Hp Hps]. rewrite read_frame by done.
    destruct (read_payload_step n k p ps e Hn Hps) as (l & c' & -> & cur' & Hc & Hl & _).
    exists cur', ps. split_and!; [done| |]; cbn [concat]; rewrite Hl; [by rewrite app_assoc|]. rewrite !length_app. simpl. lia.
  - assert (0 < length cur)%nat by (destruct cur; [done|simpl; lia]).
    unfold gun_read. cbn [readRemaining reader]. rewrite (proj2 (Z.ltb_lt _ _)) by lia.
    destruct (read_payload_step n k cur ps e Hn Hps) as (l & c' & -> & cur' & Hc & Hl & Hlt). specialize (Hlt Hne).
    exists cur', ps. split_and!; [done|by rewrite Hl, app_assoc|]. rewrite !length_app. lia.
Qed.

(** What one side writes, in any pieces, the other side reads, into buffers of any
    sizes and however the connection cuts it up. *)
Theorem gun_stream_read_back writes args e :
  Forall (fun p => Z.of_nat (length p) < 2 ^ 63) writes -> Forall (fun a => (0 < fst a)%nat) args ->
  (length (concat writes) + length writes < length args)%nat ->
  read_all args {| reader := {| rd_bytes := flat_map gun_frame writes; rd_end := e |}; readRemaining := 0 |} = (concat writes, Some e).
Proof.
  intros Hw Ha Hlen.
  destruct (read_all_frames args {| reader := {| rd_bytes := flat_map gun_frame writes; rd_end := e |}; readRemaining := 0 |} [] writes e Ha) as (rest & Heq & Hend);
    [done|].
  destruct (Hend Hlen) as [-> He]. destruct (read_all args _) as [l o]. simpl in *. by rewrite Heq, He, app_nil_r.
Qed.

Lemma gun_stream_read_back_witness :
  read_all (replicate 9 (2%nat, 1%nat)) {| reader := {| rd_bytes := flat_map gun_frame [[1; 2; 3]; []; [4]]; rd_end := ErrEOF |}; readRemaining := 0 |} =
  ([1; 2; 3; 4], Some ErrEOF).
Proof. apply (gun_stream_read_back [[1; 2; 3]; []; [4]]); repeat constructor; simpl; lia. Defined.

(** A length of 2^63 or more is negative as an [int]: the read panics. *)
Example large_length_panics :
  fst (gun_read 10 10 {| reader := {| rd_bytes := replicate 6 0 ++ AppendUvarint (2 ^ 63); rd_end := ErrEOF |}; readRemaining := 0 |}) =
  Panic "slice bounds out of range".
Proof. vm_compute. reflexivity. Qed.
End Gun.

(** ** Records of TLS *)

Module TLSRecords.

(** [TLSObfs], the side that reads *)
Record TLSObfs : Type := { conn : Reader; remain : nat; firstResponse : bool }.

(** [TLSObfs.read] behind [discardN] bytes of a header.  An end inside the length
    is no error. *)
Definition tls_obfs_read_record (n k discardN : nat) (c : TLSObfs) : res (list Z) * TLSObfs :=
  match ReadFull discardN (conn c) with
  | Err e => (Err e, c)
  | Panic msg => (Panic msg, c)
  | Ok (_, r) =>
      match ReadUint 2 r with
      | Err _ | Panic _ => (Ok [], {| conn := {| rd_bytes := []; rd_end := rd_end r |}; remain := remain c; firstResponse := firstResponse c |})
      | Ok (length_, r) =>
          let len := Z.to_nat length_ in
          if (n <? len)%nat then
            match read_some n k r with
            | Ok (l, r) => (Ok l, {| conn := r; remain := len - length l; firstResponse := firstResponse c |})
            | Err e => (Err e, {| conn := r; remain := remain c; firstResponse := firstResponse c |})
            | Panic msg => (Panic msg, c)
            end
          else
            match ReadFull len r with
            | Ok (l, r) => (Ok l, {| conn := r; remain := remain c; firstResponse := firstResponse c |})
            | Err e => (Err e, {| conn := {| rd_bytes := []; rd_end := rd_end r |}; remain := remain c; firstResponse := firstResponse c |})
            | Panic msg => (Panic msg, c)
            end
      end
  end.

(** [TLSObfs.Read] *)
Definition tls_obfs_read (n k : nat) (c : TLSObfs) : res (list Z) * TLSObfs :=
  if (0 <? remain c)%nat then
    match ReadFull (min (remain c) n) (conn c) with
    | Ok (l, r) => (Ok l, {| conn := r; remain := remain c - length l; firstResponse := firstResponse c |})
    | Err e => (Err e, {| conn := {| rd_bytes := []; rd_end := rd_end (conn c) |}; remain := remain c - length (rd_bytes (conn c)); firstResponse := firstResponse c |})
    | Panic msg => (Panic msg, c)
    end
  else if firstResponse c then tls_obfs_read_record n k 105 {| conn := conn c; remain := remain c; firstResponse := false |}
  else tls_obfs_read_record n k 3 c.

(** What a server sends: records, the first one behind its handshake. *)
Definition record (hp : list Z * list Z) : list Z := fst hp ++ be_bytes 2 (Z.of_nat (length (snd hp))) ++ snd hp.

Fixpoint heads_ok (first : bool) (hps : list (list Z * list Z)) : Prop :=
  match hps with
  | [] => True
  | hp :: hps => length (fst hp) = (if first then 105 else 3)%nat /\ Z.of_nat (length (snd hp)) < 65536 /\ heads_ok false hps
  end.

Definition tls_obfs_holds (c : TLSObfs) (cur : list Z) (ps : list (list Z)) (e : error) : Prop :=
  remain c = length cur /\ (firstResponse c = true -> cur = []) /\
  exists hps, ps = map snd hps /\ heads_ok (firstResponse c) hps /\ conn c = {| rd_bytes := cur ++ flat_map record hps; rd_end := e |}.

#[export] Instance obfs_reader : FrameReader TLSObfs := {| fr_read := tls_obfs_read; fr_holds := tls_obfs_holds |}.

Lemma read_record_step n k d first h p hps e : (0 < n)%nat -> length h = d -> Z.of_nat (length p) < 65536 -> heads_ok false hps -> first = false ->
  exists l c', tls_obfs_read_record n k d {| conn := {| rd_bytes := record (h, p) ++ flat_map record hps; rd_end := e |}; remain := 0; firstResponse := first |} = (Ok l, c') /\
    exists cur', tls_obfs_holds c' cur' (map snd hps) e /\ p = l ++ cur'.
Proof.
  intros Hn Hh Hp Hhps ->. unfold tls_obfs_read_record. cbn [conn remain firstResponse].
  replace (record (h, p) ++ flat_map record hps) with (h ++ be_bytes 2 (Z.of_nat (length p)) ++ p ++ flat_map record hps)
    by (unfold record at 2; cbn [fst snd]; by rewrite <-!app_assoc).
  rewrite <-Hh, (reads_full h). rewrite (reads_uint 2) by (simpl; lia). rewrite Nat2Z.id.
  destruct (Nat.ltb_spec n (length p)) as [Hlt|Hge].
  - destruct (read_some_app n k p (flat_map record hps) e ltac:(lia)) as (m & Hm & ->).
    eexists _, _. split; [done|]. exists (drop m p). split; [|by rewrite take_drop].
    unfold tls_obfs_holds. cbn [remain firstResponse conn]. split_and!; [rewrite length_take, length_drop; lia|done|]. by exists hps.
  - rewrite (reads_full p). eexists _, _. split; [done|]. exists []. split; [|by rewrite app_nil_r].
    unfold tls_obfs_holds. cbn [remain firstResponse conn]. split_and!; [done|done|]. by exists hps.
Qed.

#[export] Instance obfs_law : FrameReaderLaw TLSObfs.
Proof.
  intros n k [r rem first] cur ps e Hn (Hrem & Hfirst & hps & -> & Hok & Hr). cbn [remain firstResponse conn] in *. subst rem r.
  cbn [fr_read obfs_reader fr_holds]. unfold tls_obfs_read. cbn [remain firstResponse conn].
  destruct (Nat.ltb_spec 0 (length cur)) as [Hlt|Hge].
  - set (m := min (length cur) n).
    assert (ReadFull m {| rd_bytes := cur ++ flat_map record hps; rd_end := e |} = Ok (take m cur, {| rd_bytes := drop m cur ++ flat_map record hps; rd_end := e |})) as ->.
    { unfold ReadFull. cbn [rd_bytes rd_end]. rewrite (proj2 (Nat.leb_le _ _)) by (rewrite length_app; lia). by rewrite take_app_le, drop_app_le by lia. }
    exists (drop m cur), (map snd hps). split_and!.
    + unfold tls_obfs_holds. cbn [remain firstResponse conn]. split_and!; [rewrite length_take, length_drop; lia| |by exists hps].
      intros Hf. rewrite (Hfirst Hf) in Hlt. simpl in Hlt. lia.
    + by rewrite app_assoc, take_drop.
    + rewrite !length_app, length_drop. lia.
  - destruct cur; [|simpl in Hge; lia]. cbn [length app]. destruct hps as [|[h p] hps].
    + destruct first; unfold tls_obfs_read_record; cbn [conn]; unfold ReadFull; cbn [flat_map rd_bytes rd_end length Nat.leb].
      * by destruct (_ && _) eqn:E; [apply andb_prop in E as [_ E]|].
      * by destruct (_ && _) eqn:E; [apply andb_prop in E as [_ E]|].
    + destruct Hok as (Hh & Hp & Hok). cbn [fst snd] in *. cbn [flat_map map].
      assert (forall d f, length h = d -> f = false -> match tls_obfs_read_record n k d {| conn := {| rd_bytes := record (h, p) ++ flat_map record hps; rd_end := e |}; remain := 0; firstResponse := f |} with
        | (Ok l, s') => exists cur' ps', tls_obfs_holds s' cur' ps' e /\ concat (p :: map snd hps) = l ++ cur' ++ concat ps' /\
            (length (cur' ++ concat ps') + length ps' < length (concat (p :: map snd hps)) + length (p :: map snd hps))%nat
        | (Err e', _) => False | (Panic _, _) => False end) as Hgo.
      { intros d f Hd Hf. destruct (read_record_step n k d f h p hps e Hn Hd Hp Hok Hf) as (l & c' & -> & cur' & Hc & Hl).
        exists cur', (map snd hps). split_and!; [done| |]; cbn [concat]; rewrite Hl; [by rewrite app_assoc|]. rewrite !length_app. simpl. lia. }
      destruct first; [specialize (Hgo 105%nat false Hh eq_refl)|specialize (Hgo 3%nat false Hh eq_refl)];
        (destruct (tls_obfs_read_record _ _ _ _) as [[l|e'|msg] s']; [|done..]; done).
Qed.

(** What the server sends in records is read in order. *)
Theorem obfs_records_read hps args e :
  heads_ok true hps -> Forall (fun a => (0 < fst a)%nat) args -> (length (concat (map snd hps)) + length hps < length args)%nat ->
  read_all args {| conn := {| rd_bytes := flat_map record hps; rd_end := e |}; remain := 0; firstResponse := true |} = (concat (map snd hps), Some e).
Proof.
  intros Hok Ha Hlen.
  destruct (read_all_frames args {| conn := {| rd_bytes := flat_map record hps; rd_end := e |}; remain := 0; firstResponse := true |} [] (map snd hps) e Ha) as (rest & Heq & Hend);
    [split_and!; [done|done|]; by exists hps|].
  rewrite length_map in Hend. destruct (Hend Hlen) as [-> He]. destruct (read_all args _) as [l o]. simpl in *. by rewrite Heq, He, app_nil_r.
Qed.

(** *** Writing *)

Definition chunkSize : nat := Z.to_nat 16384.

Definition cipher_suites : list Z :=
  [192; 44; 192; 48; 0; 159; 204; 169; 204; 168; 204; 170; 192; 43; 192; 47;
   0; 158; 192; 36; 192; 40; 0; 107; 192; 35; 192; 39; 0; 103; 192; 10;
   192; 20; 0; 57; 192; 9; 192; 19; 0; 51; 0; 157; 0; 156; 0; 61;
   0; 60; 0; 53; 0; 47; 0; 255].

Definition signature_algorithms : list Z :=
  [0; 13; 0; 32; 0; 30; 6; 1; 6; 2; 6; 3; 5;
   1; 5; 2; 5; 3; 4; 1; 4; 2; 4; 3; 3; 1;
   3; 2; 3; 3; 2; 1; 2; 2; 2; 3].

Definition uint16_bytes (n : nat) : list Z := be_bytes 2 (Z.of_nat n mod 65536).

(** [makeClientHelloMsg], with the time and the random bytes *)
Definition makeClientHelloMsg (now : Z) (random sessionID data server : list Z) : list Z :=
  [22; 3; 1] ++ uint16_bytes (212 + length data + length server) ++
  [1; 0] ++ uint16_bytes (208 + length data + length server) ++ [3; 3] ++
  be_bytes 4 (now mod 2 ^ 32) ++ random ++ [32] ++ sessionID ++
  [0; 56] ++ cipher_suites ++ [1; 0] ++
  uint16_bytes (79 + length data + length server) ++
  [0; 35] ++ uint16_bytes (length data) ++ data ++
  [0; 0] ++ uint16_bytes (length server + 5) ++ uint16_bytes (length server + 3) ++ [0] ++ uint16_bytes (length server) ++ server ++
  [0; 11; 0; 4; 3; 1; 0; 2] ++
  [0; 10; 0; 10; 0; 8; 0; 29; 0; 23; 0; 25; 0; 24] ++
  signature_algorithms ++ [0; 22; 0; 0] ++ [0; 23; 0; 0].

(** [TLSObfs.Write]: the chunks of the data, the first of the connection inside
    a ClientHello, every other one in a record; each is one write. *)
Fixpoint chunks (fuel : nat) (l : list Z) : list (list Z) :=
  match fuel, l with
  | S fuel, _ :: _ => take chunkSize l :: chunks fuel (drop chunkSize l)
  | _, _ => []
  end.

Definition write_chunk (hello : list Z -> list Z) (first : bool) (b : list Z) : list Z :=
  if first then hello b else [23; 3; 3] ++ uint16_bytes (length b) ++ b.

Fixpoint write_chunks (hello : list Z -> list Z) (first : bool) (l : list (list Z)) : list (list Z) * bool :=
  match l with
  | [] => ([], first)
  | b :: l => let '(ws, f) := write_chunks hello false l in (write_chunk hello first b :: ws, f)
  end.

Definition tls_obfs_Write (hello : list Z -> list Z) (first : bool) (b : list Z) : list (list Z) * bool :=
  write_chunks hello first (chunks (length b) b).

Lemma chunks_concat fuel l : (length l <= fuel)%nat -> concat (chunks fuel l) = l.
Proof.
  revert l; induction fuel as [|fuel IH]; intros l Hl; [by destruct l; [|simpl in Hl; lia]|].
  destruct l as [|z l]; [done|]. cbn [chunks concat]. rewrite IH; [by rewrite take_drop|]. rewrite length_drop. unfold chunkSize. simpl length in *. lia.
Qed.

Lemma chunks_small fuel l : Forall (fun b => (0 < length b <= chunkSize)%nat) (chunks fuel l).
Proof.
  revert l; induction fuel as [|fuel IH]; intros l; [constructor|]. destruct l as [|z l]; [constructor|]. cbn [chunks]. constructor; [|apply IH].
  rewrite length_take. unfold chunkSize. simpl length. lia.
Qed.

(** After the first write what goes out is a row of records whose payloads are
    the data. *)
Theorem obfs_write_records hello b :
  exists ps, tls_obfs_Write hello false b = (map (fun p => record ([23; 3; 3], p)) ps, false) /\ concat ps = b /\
    Forall (fun p => (0 < length p <= chunkSize)%nat) ps.
Proof.
  exists (chunks (length b) b). split_and!; [|by apply chunks_concat|apply chunks_small].
  unfold tls_obfs_Write. pose proof (chunks_small (length b) b) as Hs. induction Hs as [|p ps Hp Hps IH]; [done|].
  cbn [write_chunks map]. rewrite IH. f_equal. f_equal. unfold write_chunk, record, uint16_bytes. cbn [fst snd].
  rewrite Z.mod_small; [done|]. unfold chunkSize in Hp. lia.
Qed.

(** The lengths of the hello are those of what follows them. *)
Lemma hello_lengths now random sessionID data server :
  length random = 28%nat -> length sessionID = 32%nat ->
  length (makeClientHelloMsg now random sessionID data server) = (217 + length data + length server)%nat.
Proof.
  intros Hr Hs. unfold makeClientHelloMsg, uint16_bytes. rewrite !length_app, !length_be_bytes, Hr, Hs. simpl. lia.
Qed.

(** The name the hello carries is found by the search of common/tlsfragment. *)
Example hello_has_name :
  let name := bytes_of "www.example.org" in
  option_map (option_map sn_ServerName) (IndexTLSServerName (makeClientHelloMsg 0 (replicate 28 7) (replicate 32 9) [1; 2; 3; 4] name)) = Some (Some name).
Proof. vm_compute. reflexivity. Qed.

(** An empty first write sends nothing at all. *)
Example empty_write hello : tls_obfs_Write hello true [] = ([], true).
Proof. done. Qed.
End TLSRecords.

(** ** One HTTP exchange *)

Module HTTPExchange.

(** Where the empty line that ends a header is. *)
Fixpoint header_end (l : list Z) : option nat :=
  match l with
  | [] => None
  | z :: l' => if bool_decide (take 4 l = [13; 10; 13; 10]) then Some O else S <$> header_end l'
  end.

(** [HTTPObfs]: the connection, what a buffer still holds, and whether the
    response is to come. *)
Record HTTPObfs : Type := { conn : Reader; held : option (list Z); firstResponse : bool }.

(** [HTTPObfs.Read] into [n] bytes, with [k] of them ready and buffers of
    [BufferSize] bytes *)
Definition http_obfs_read (BufferSize n k : nat) (c : HTTPObfs) : res (list Z) * HTTPObfs :=
  match held c with
  | Some buf =>
      let l := take n buf in
      (Ok l, {| conn := conn c; held := if (length l =? length buf)%nat then None else Some (drop n buf); firstResponse := firstResponse c |})
  | None =>
      if firstResponse c then
        match read_some BufferSize k (conn c) with
        | Err e => (Err e, c)
        | Panic msg => (Panic msg, c)
        | Ok (buf, r) =>
            match header_end buf with
            | None => (Err ErrEOF, {| conn := r; held := None; firstResponse := true |})
            | Some idx =>
                let body := drop (idx + 4) buf in
                (Ok (take n body), {| conn := r; held := if (n <? length body)%nat then Some (drop n body) else None; firstResponse := false |})
            end
        end
      else
        match read_some n k (conn c) with
        | Ok (l, r) => (Ok l, {| conn := r; held := None; firstResponse := false |})
        | Err e => (Err e, c)
        | Panic msg => (Panic msg, c)
        end
  end.

(** [HTTPObfs.Write]: the first write goes out as the body of a request that
    [net/http] writes; its host has the port unless that is 80. *)
Definition request_host (host port : string) : string :=
  if bool_decide (port = "80") then host else host +:+ ":" +:+ port.

Definition http_obfs_Write (request : string -> list Z -> list Z) (host port : string) (first : bool) (b : list Z) : list Z * bool :=
  if first then (request (request_host host port) b, false) else (b, false).

(** Once the header is read nothing is lost or reordered. *)
Section body.
Context (BufferSize : nat).

Definition http_obfs_holds (c : HTTPObfs) (cur : list Z) (ps : list (list Z)) (e : error) : Prop :=
  firstResponse c = false /\ ps = [] /\ rd_end (conn c) = e /\
  match held c with Some buf => buf <> [] /\ cur = buf ++ rd_bytes (conn c) | None => cur = rd_bytes (conn c) end.

#[local] Instance http_reader : FrameReader HTTPObfs := {| fr_read := http_obfs_read BufferSize; fr_holds := http_obfs_holds |}.

#[local] Instance http_law : FrameReaderLaw HTTPObfs.
Proof.
  intros n k [[bytes e0] hl first] cur ps e Hn (Hf & Hps & He & Hc). cbn [firstResponse conn held rd_bytes rd_end] in *. subst.
  cbn [fr_read http_reader fr_holds]. unfold http_obfs_read. cbn [held conn firstResponse]. destruct hl as [buf|].
  - destruct Hc as [Hne ->]. exists (drop n buf ++ bytes), []. cbn [concat length]. rewrite !app_nil_r. split_and!.
    + unfold http_obfs_holds. cbn. split_and!; [done..|]. destruct (Nat.eqb_spec (length (take n buf)) (length buf)) as [E|E].
      * rewrite length_take in E. rewrite drop_ge by lia. done.
      * rewrite length_take in E. split; [|done]. intros Hd. apply (f_equal length) in Hd. rewrite length_drop in Hd. simpl in Hd. lia.
    + by rewrite app_assoc, take_drop.
    + assert (0 < length buf)%nat by (destruct buf; [done|simpl; lia]). rewrite !length_app, length_drop. lia.
  - subst cur. destruct bytes as [|z bytes].
    + unfold read_some. rewrite (proj2 (Nat.eqb_neq n 0)) by lia. done.
    + unfold read_some. rewrite (proj2 (Nat.eqb_neq n 0)) by lia. cbn [rd_bytes rd_end].
      set (m := min n (max 1 k)). exists (drop m (z :: bytes)), []. cbn [concat length]. rewrite !app_nil_r. split_and!.
      * done.
      * by rewrite take_drop.
      * rewrite length_drop. simpl length. lia.
Qed.

(** The first read, when the connection gives the whole header at once: what it
    returns and what is read later make up the body and the rest. *)
Theorem http_body_read header body rest e n k args :
  header_end (header ++ body) = Some (length header - 4)%nat -> (4 <= length header)%nat ->
  (length (header ++ body) <= BufferSize)%nat -> k = length (header ++ body) ->
  Forall (fun a => (0 < fst a)%nat) args -> (length (body ++ rest) < length args)%nat ->
  exists l c, http_obfs_read BufferSize n k {| conn := {| rd_bytes := (header ++ body) ++ rest; rd_end := e |}; held := None; firstResponse := true |} = (Ok l, c) /\
    l ++ fst (read_all args c) = body ++ rest /\ snd (read_all args c) = Some e.
Proof.
  intros Hend H4 Hbuf -> Ha Hlen. unfold http_obfs_read at 1. cbn [held firstResponse conn].
  assert (0 < length (header ++ body))%nat as Hpos by (rewrite length_app; lia).
  assert (read_some BufferSize (length (header ++ body)) {| rd_bytes := (header ++ body) ++ rest; rd_end := e |} =
    Ok (header ++ body, {| rd_bytes := rest; rd_end := e |})) as ->.
  { unfold read_some. rewrite (proj2 (Nat.eqb_neq BufferSize 0)) by lia. cbn [rd_bytes rd_end].
    rewrite Nat.max_r, Nat.min_r by lia. destruct (header ++ body) as [|z l] eqn:E; [simpl in Hpos; lia|].
    cbn [app]. change (z :: l ++ rest) with ((z :: l) ++ rest). by rewrite take_app_length, drop_app_length. }
  rewrite Hend. replace (length header - 4 + 4)%nat with (length header) by lia. rewrite drop_app_length.
  eexists _, _. split; [done|].
  set (c := {| conn := _; held := _; firstResponse := _ |}).
  assert (http_obfs_holds c (drop n body ++ rest) [] e) as Hc.
  { unfold http_obfs_holds, c. cbn [firstResponse conn held rd_bytes rd_end]. split_and!; [done..|]. destruct (Nat.ltb_spec n (length body)) as [Hn|Hn].
    - split; [|done]. intros Hd. apply (f_equal length) in Hd. rewrite length_drop in Hd. simpl in Hd. lia.
    - by rewrite drop_ge by lia. }
  destruct (read_all_frames (S := HTTPObfs) (H := http_reader) args c (drop n body ++ rest) [] e Ha Hc) as (l & Heq & Hl).
  cbn [concat] in *. rewrite app_nil_r in *. destruct Hl as [-> He].
  { simpl. rewrite length_app, length_drop. rewrite length_app in Hlen. lia. }
  rewrite app_nil_r in Heq. split; [|done]. by rewrite <-Heq, app_assoc, take_drop.
Qed.

(** A header that comes in two segments ends the stream. *)
Example split_header_is_the_end :
  fst (http_obfs_read 64 64 5 {| conn := {| rd_bytes := [72; 84; 84; 80; 47; 13; 10; 13; 10; 1]; rd_end := ErrEOF |}; held := None; firstResponse := true |}) = Err ErrEOF.
Proof. done. Qed.
End body.
End HTTPExchange.
