(* ===== verification/Ja3.v ===== *)
(** * Fingerprints of a ClientHello

    common/ja3: the parser of a TLS segment that the QUIC sniffer uses, and the
    fingerprint it makes of it.  Bytes are numbers below 256, a read behind the
    end of a slice is a panic. *)

From stdpp Require Import base list strings sorting.
From Stdlib Require Import ZArith Lia.
From S2P Require Import Prelude GoStd.

Open Scope Z_scope.
Open Scope box_scope.

Record JA3Hello : Type := {
  ch_Version : Z; ch_CipherSuites : list Z; ch_Extensions : list Z; ch_EllipticCurves : list Z; ch_EllipticCurvePF : list Z;
  ch_Versions : list Z; ch_SignatureAlgorithms : list Z; ch_ServerName : list Z }.

(** ** The parser *)

Definition LengthErr (check : Z) : error := ErrNew ("length check " +:+ go_itoa check +:+ " failed").
Definition VersionErr (check : Z) : error := ErrNew ("version check " +:+ go_itoa check +:+ " failed").
Definition ContentTypeErr : error := ErrNew "content type not matching".
Definition HandshakeTypeErr : error := ErrNew "handshake type not matching".
Definition SNITypeErr : error := ErrNew "SNI type not supported".

Definition byte_of_list (l : list Z) (i : nat) : Z := nth i l 0.
Definition u16_at (l : list Z) (i : nat) : Z := byte_of_list l i * 256 + byte_of_list l (S i).

(** Versions SSL 3.0 to TLS 1.2, and TLS 1.3 *)
Definition version_ok (v : Z) : bool := (Z.land v 65532 =? 768) || (v =? 772).

(** [n] numbers of two bytes from a slice that is long enough *)
Fixpoint u16_list (n : nat) (l : list Z) : list Z :=
  match n, l with
  | S n, a :: b :: l => a * 256 + b :: u16_list n l
  | _, _ => []
  end.

(** The same where the length of the slice was not checked *)
Fixpoint u16_unchecked (n : nat) (l : list Z) : res (list Z) :=
  match n with
  | O => Ok []
  | S n =>
      match l with
      | a :: b :: l => let* rest := u16_unchecked n l in Ok (a * 256 + b :: rest)
      | _ => Panic "index out of range"
      end
  end.

(** What the loop over the extensions collects *)
Record Collected : Type := {
  co_sni : list Z; co_extensions : list Z; co_curves : list Z; co_pf : list Z; co_versions : list Z; co_algorithms : list Z }.

Definition collected_nothing : Collected :=
  {| co_sni := []; co_extensions := []; co_curves := []; co_pf := []; co_versions := []; co_algorithms := [] |}.

Definition add_type (t : Z) (c : Collected) : Collected :=
  {| co_sni := co_sni c; co_extensions := co_extensions c ++ [t]; co_curves := co_curves c; co_pf := co_pf c;
     co_versions := co_versions c; co_algorithms := co_algorithms c |}.

(** The body of one extension *)
Definition parse_extension (exType : Z) (sex : list Z) (c : Collected) : res Collected :=
  let set sni curves pf versions algorithms :=
    {| co_sni := sni; co_extensions := co_extensions c; co_curves := curves; co_pf := pf; co_versions := versions; co_algorithms := algorithms |} in
  if exType =? 0 then
    if (length sex <? 5)%nat then Err (LengthErr 13)
    else
      let sniLen := u16_at sex 3 in
      let name := drop 5 sex in
      if negb (Z.of_nat (length name) =? sniLen) then Err (LengthErr 14)
      else if byte_of_list sex 2 =? 0 then Ok (set name (co_curves c) (co_pf c) (co_versions c) (co_algorithms c))
      else Err SNITypeErr
  else if exType =? 10 then
    if (length sex <? 2)%nat then Err (LengthErr 15)
    else
      let ecsLen := u16_at sex 0 in
      let body := drop 2 sex in
      if negb (Z.of_nat (length body) =? ecsLen) then Err (LengthErr 16)
      else Ok (set (co_sni c) (u16_list (Z.to_nat (ecsLen / 2)) body) (co_pf c) (co_versions c) (co_algorithms c))
  else if exType =? 11 then
    match sex with
    | [] => Err (LengthErr 17)
    | ecpfsLen :: body =>
        if negb (Z.of_nat (length body) =? ecpfsLen) then Err (LengthErr 18)
        else Ok (set (co_sni c) (co_curves c) body (co_versions c) (co_algorithms c))
    end
  else if exType =? 43 then
    match sex with
    | [] => Err (LengthErr 19)
    | versionsLen :: body =>
        let* l := u16_unchecked (Z.to_nat ((versionsLen + 1) / 2)) body in
        Ok (set (co_sni c) (co_curves c) (co_pf c) (co_versions c ++ l) (co_algorithms c))
    end
  else if exType =? 13 then
    if (length sex <? 2)%nat then Err (LengthErr 20)
    else
      let* l := u16_unchecked (Z.to_nat ((u16_at sex 0 + 1) / 2)) (drop 2 sex) in
      Ok (set (co_sni c) (co_curves c) (co_pf c) (co_versions c) (co_algorithms c ++ l))
  else Ok c.

(** The loop; the step to the next extension is computed in 16 bits. *)
Fixpoint ja3_extensions_loop (fuel : nat) (exs : list Z) (c : Collected) : res Collected :=
  match fuel with
  | O => Panic "fuel"
  | S fuel =>
      match exs with
      | [] => Ok c
      | _ =>
          if (length exs <? 4)%nat then Err (LengthErr 11)
          else
            let exType := u16_at exs 0 in
            let exLen := u16_at exs 2 in
            if (length exs <? 4 + Z.to_nat exLen)%nat then Err (LengthErr 12)
            else
              let* c := parse_extension exType (take (Z.to_nat exLen) (drop 4 exs)) (add_type exType c) in
              ja3_extensions_loop fuel (drop (Z.to_nat ((4 + exLen) mod 65536)) exs) c
      end
  end.

(** [parseExtensions]: the length in front is a lower bound only. *)
Definition parseExtensions (exs : list Z) : res Collected :=
  match exs with
  | [] => Ok collected_nothing
  | _ =>
      if (length exs <? 2)%nat then Err (LengthErr 9)
      else
        let exsLen := u16_at exs 0 in
        let exs := drop 2 exs in
        if Z.of_nat (length exs) <? exsLen then Err (LengthErr 10)
        else ja3_extensions_loop (S (length exs)) exs collected_nothing
  end.

Definition hello_of (version : Z) (ciphers : list Z) (c : Collected) : JA3Hello :=
  {| ch_Version := version; ch_CipherSuites := ciphers; ch_Extensions := co_extensions c; ch_EllipticCurves := co_curves c;
     ch_EllipticCurvePF := co_pf c; ch_Versions := co_versions c; ch_SignatureAlgorithms := co_algorithms c; ch_ServerName := co_sni c |}.

(** [parseHandshake] *)
Definition parseHandshake (hs : list Z) : res JA3Hello :=
  if (length hs <? 39)%nat then Err (LengthErr 3)
  else if negb (byte_of_list hs 0 =? 1) then Err HandshakeTypeErr
  else
    let handshakeLen := (byte_of_list hs 1 * 256 + byte_of_list hs 2) * 256 + byte_of_list hs 3 in
    if negb (Z.of_nat (length (drop 4 hs)) =? handshakeLen) then Err (LengthErr 4)
    else
      let tlsVersion := u16_at hs 4 in
      if negb (version_ok tlsVersion) then Err (VersionErr 2)
      else
        let sessionIDLen := Z.to_nat (byte_of_list hs 38) in
        if (length hs <? 39 + sessionIDLen)%nat then Err (LengthErr 5)
        else
          let cs := drop (39 + sessionIDLen) hs in
          if (length cs <? 2)%nat then Err (LengthErr 6)
          else
            let csLen := Z.to_nat (u16_at cs 0) in
            if (length cs <? 2 + csLen + 1)%nat then Err (LengthErr 7)
            else
              let cipherSuites := u16_list (csLen / 2) (drop 2 cs) in
              let compressMethodLen := Z.to_nat (byte_of_list cs (2 + csLen)) in
              if (length cs <? 2 + csLen + 1 + compressMethodLen)%nat then Err (LengthErr 8)
              else
                let* c := parseExtensions (drop (2 + csLen + 1 + compressMethodLen) cs) in
                Ok (hello_of tlsVersion cipherSuites c).

(** [Compute], that is [parseSegment] *)
Definition ja3_Compute (segment : list Z) : res JA3Hello :=
  if (length segment <? 5)%nat then Err (LengthErr 1)
  else if negb (byte_of_list segment 0 =? 22) then Err ContentTypeErr
  else if negb (version_ok (u16_at segment 1)) then Err (VersionErr 1)
  else
    let segmentLen := u16_at segment 3 in
    if Z.of_nat (length (drop 5 segment)) <? segmentLen then Err (LengthErr 2)
    else parseHandshake (take (Z.to_nat segmentLen) (drop 5 segment)).

(** ** The fingerprint *)

(** A value of GREASE, under the mask the code uses *)
Definition is_grease (v : Z) : bool := Z.land v 3855 =? 2570.

Definition digits (v : Z) : list Z := bytes_of (go_itoa v).

Definition replace_last (c : Z) (l : list Z) : list Z := removelast l ++ [c].

Definition marshal_field (s : list Z) (values : list Z) : list Z :=
  match values with
  | [] => s ++ [44]
  | _ => replace_last 44 (s ++ flat_map (fun v => if negb (is_grease v) then [] else digits v ++ [45]) values)
  end.

(** [marshalJA3] *)
Definition marshalJA3 (j : JA3Hello) : list Z :=
  let s := digits (ch_Version j) ++ [44] in
  let s := marshal_field s (ch_CipherSuites j) in
  let s := marshal_field s (ch_Extensions j) in
  let s := marshal_field s (ch_EllipticCurves j) in
  match ch_EllipticCurvePF j with
  | [] => s
  | pf => removelast (s ++ flat_map (fun v => digits v ++ [45]) pf)
  end.

(** [sortedExtensions] and [Equals] *)
Definition sortedExtensions (j : JA3Hello) : list Z := merge_sort Z.le (ch_Extensions j).

Definition ja3_Equals (j another : JA3Hello) (ignoreExtensionsSequence : bool) : bool :=
  bool_decide (ch_Version j = ch_Version another) && bool_decide (ch_CipherSuites j = ch_CipherSuites another) &&
  bool_decide (ch_Extensions j = (if ignoreExtensionsSequence then sortedExtensions another else ch_Extensions another)) &&
  bool_decide (ch_EllipticCurves j = ch_EllipticCurves another) && bool_decide (ch_EllipticCurvePF j = ch_EllipticCurvePF another) &&
  bool_decide (ch_SignatureAlgorithms j = ch_SignatureAlgorithms another).

(** ** When the parser panics *)

Lemma u16_unchecked_ok n l : (2 * n <= length l)%nat -> u16_unchecked n l = Ok (u16_list n l).
Proof.
  revert l; induction n as [|n IH]; intros l Hl; [done|]. destruct l as [|a [|b l]]; simpl in Hl; try lia. cbn [u16_unchecked u16_list].
  by rewrite IH by lia.
Qed.

Lemma u16_unchecked_panics n l : (length l < 2 * n)%nat -> u16_unchecked n l = Panic "index out of range".
Proof.
  revert l; induction n as [|n IH]; intros l Hl; [lia|]. destruct l as [|a [|b l]]; simpl in Hl; try done. cbn [u16_unchecked].
  by rewrite IH by lia.
Qed.

(** A list of versions or of algorithms that says it is longer than it is *)
Definition list_overruns (exType : Z) (sex : list Z) : Prop :=
  (exType = 43 /\ exists n body, sex = n :: body /\ (length body < 2 * Z.to_nat ((n + 1) / 2))%nat) \/
  (exType = 13 /\ (2 <= length sex)%nat /\ (length (drop 2 sex) < 2 * Z.to_nat ((u16_at sex 0 + 1) / 2))%nat).

(** Those are the only extensions the parser panics on, and it does on each. *)
Theorem extension_panics_iff exType sex c :
  (exists msg, parse_extension exType sex c = Panic msg) <-> list_overruns exType sex.
Proof.
  unfold parse_extension, list_overruns.
  destruct (Z.eqb_spec exType 0) as [->|H0].
  { split; [|naive_solver]. intros [msg H]. repeat case_match; done. }
  destruct (Z.eqb_spec exType 10) as [->|H10].
  { split; [|naive_solver]. intros [msg H]. repeat case_match; done. }
  destruct (Z.eqb_spec exType 11) as [->|H11].
  { split; [|naive_solver]. intros [msg H]. repeat case_match; done. }
  destruct (Z.eqb_spec exType 43) as [->|H43].
  { destruct sex as [|n body]; [split; [by intros [msg H]|intros [(_ & ? & ? & ? & _)|[? _]]; done]|].
    destruct (decide (2 * Z.to_nat ((n + 1) / 2) <= length body)%nat) as [Hl|Hl].
    - rewrite u16_unchecked_ok by done. split; [by intros [msg H]|]. intros [(_ & n' & body' & [= <- <-] & Hlt)|[? _]]; [lia|done].
    - rewrite u16_unchecked_panics by lia. split; [|by eexists]. intros _. left. split; [done|]. exists n, body. split; [done|lia]. }
  destruct (Z.eqb_spec exType 13) as [->|H13]; [|split; [by intros [msg H]|naive_solver]].
  destruct (Nat.ltb_spec (length sex) 2); [split; [by intros [msg H']|intros [[? _]|(_ & ? & _)]; lia || done]|].
  destruct (decide (2 * Z.to_nat ((u16_at sex 0 + 1) / 2) <= length (drop 2 sex))%nat) as [Hl|Hl].
  - rewrite u16_unchecked_ok by done. split; [by intros [msg H']|]. intros [[? _]|(_ & _ & Hlt)]; [done|lia].
  - rewrite u16_unchecked_panics by lia. split; [|by eexists]. intros _. right. split_and!; [done|done|lia].
Qed.

(** ** A hello that is written and read *)

Definition extension_bytes (e : Z * list Z) : list Z := be_bytes 2 (fst e) ++ be_bytes 2 (Z.of_nat (length (snd e))) ++ snd e.

Definition extension_fits (e : Z * list Z) : Prop := 0 <= fst e < 65536 /\ Z.of_nat (length (snd e)) < 65532.

Fixpoint collect (l : list (Z * list Z)) (c : Collected) : res Collected :=
  match l with
  | [] => Ok c
  | e :: l => let* c := parse_extension (fst e) (snd e) (add_type (fst e) c) in collect l c
  end.

Lemma u16_at_app l m : u16_at (l ++ m) (length l) = u16_at m 0.
Proof. induction l as [|z l IH]; [done|exact IH]. Qed.

Lemma be_bytes_2 x : 0 <= x < 65536 -> be_bytes 2 x = [x / 256; x mod 256].
Proof.
  intros Hx. simpl. change (Z.pow_pos 256 1) with 256. change (256 ^ Z.of_nat 0) with 1. rewrite Z.div_1_r, (Z.mod_small (x / 256)); [done|].
  split; [apply Z.div_pos; lia|apply Z.div_lt_upper_bound; lia].
Qed.

Lemma u16_at_be x rest i l : 0 <= x < 65536 -> length l = i -> u16_at (l ++ be_bytes 2 x ++ rest) i = x.
Proof.
  intros Hx <-. rewrite u16_at_app, be_bytes_2 by done. unfold u16_at, byte_of_list. cbn [app nth].
  pose proof (Z.div_mod x 256 ltac:(lia)). lia.
Qed.

Lemma extensions_loop_written l : forall fuel c,
  Forall extension_fits l -> (length (flat_map extension_bytes l) < fuel)%nat ->
  ja3_extensions_loop fuel (flat_map extension_bytes l) c = collect l c.
Proof.
  induction l as [|[t body] l IH]; intros fuel c Hok Hfuel; [destruct fuel; [simpl in Hfuel; lia|done]|].
  apply Forall_cons in Hok as [[Ht Hb] Hok]. cbn [fst snd] in *. destruct fuel as [|fuel]; [lia|].
  cbn [flat_map] in *. rewrite length_app in Hfuel. set (rest := flat_map extension_bytes l) in *.
  set (e := extension_bytes (t, body)) in *.
  assert (length e = 4 + length body)%nat as He by (unfold e, extension_bytes; rewrite !length_app, !length_be_bytes; simpl; lia).
  assert (e ++ rest = [] ++ be_bytes 2 t ++ be_bytes 2 (Z.of_nat (length body)) ++ body ++ rest) as E0
    by (unfold e, extension_bytes; cbn [fst snd]; by rewrite <-!app_assoc).
  assert (u16_at (e ++ rest) 0 = t) as Htype by (rewrite E0; by apply u16_at_be).
  assert (u16_at (e ++ rest) 2 = Z.of_nat (length body)) as Hlen.
  { rewrite E0. cbn [app]. apply u16_at_be; [lia|]. apply length_be_bytes. }
  cbn [ja3_extensions_loop collect]. destruct (e ++ rest) as [|z0 l0] eqn:E; [apply (f_equal length) in E; rewrite length_app in E; simpl in E; lia|]. rewrite <-E in *.
  rewrite Htype, Hlen, Nat2Z.id. rewrite (proj2 (Nat.ltb_ge _ 4)) by (rewrite length_app; lia).
  rewrite (proj2 (Nat.ltb_ge _ _)) by (rewrite length_app; lia).
  assert (take (length body) (drop 4 (e ++ rest)) = body) as ->.
  { rewrite E0. cbn [app]. replace (be_bytes 2 t ++ be_bytes 2 (Z.of_nat (length body)) ++ body ++ rest) with
      ((be_bytes 2 t ++ be_bytes 2 (Z.of_nat (length body))) ++ body ++ rest) by (by rewrite <-!app_assoc).
    rewrite drop_app_length' by (by rewrite length_app, !length_be_bytes). apply take_app_length. }
  assert (drop (Z.to_nat ((4 + Z.of_nat (length body)) mod 65536)) (e ++ rest) = rest) as ->.
  { rewrite Z.mod_small by lia. apply drop_app_length'. lia. }
  cbn [fst snd]. destruct (parse_extension t body _) as [c'| |]; [|done..]. cbn [res_bind]. apply IH; [done|lia].
Qed.

Lemma u16_list_written l : Forall (fun x => 0 <= x < 65536) l -> forall rest, u16_list (length l) (flat_map (be_bytes 2) l ++ rest) = l.
Proof.
  induction 1 as [|x l Hx _ IH]; intros rest; [done|]. cbn [length flat_map]. rewrite <-app_assoc.
  rewrite be_bytes_2 by done.
  cbn [app u16_list]. rewrite IH. f_equal. pose proof (Z.div_mod x 256 ltac:(lia)). lia.
Qed.

(** A hello as TLS writes it *)
Definition cipher_part (ciphers comp : list Z) (exts : list (Z * list Z)) : list Z :=
  be_bytes 2 (2 * Z.of_nat (length ciphers)) ++ flat_map (be_bytes 2) ciphers ++ [Z.of_nat (length comp)] ++ comp ++
  be_bytes 2 (Z.of_nat (length (flat_map extension_bytes exts))) ++ flat_map extension_bytes exts.

Definition handshake_bytes (version : Z) (random sid ciphers comp : list Z) (exts : list (Z * list Z)) : list Z :=
  let body := be_bytes 2 version ++ random ++ [Z.of_nat (length sid)] ++ sid ++ cipher_part ciphers comp exts in
  [1] ++ be_bytes 3 (Z.of_nat (length body)) ++ body.

Definition segment_bytes (record_version : Z) (hs : list Z) : list Z :=
  [22] ++ be_bytes 2 record_version ++ be_bytes 2 (Z.of_nat (length hs)) ++ hs.

Lemma length_be_list l : length (flat_map (be_bytes 2) l) = (2 * length l)%nat.
Proof. induction l as [|x l IH]; [done|]. cbn [flat_map]. rewrite length_app, length_be_bytes, IH. simpl. lia. Qed.

Lemma be_bytes_3 x : 0 <= x < 16777216 -> be_bytes 3 x = [x / 65536; (x / 256) mod 256; x mod 256].
Proof.
  intros Hx. cbn [be_bytes]. change (256 ^ Z.of_nat 2) with 65536. change (256 ^ Z.of_nat 1) with 256. change (256 ^ Z.of_nat 0) with 1.
  rewrite Z.div_1_r, (Z.mod_small (x / 65536)); [done|]. split; [apply Z.div_pos; lia|apply Z.div_lt_upper_bound; lia].
Qed.

Lemma byte_of_list_app l b m : byte_of_list (l ++ b :: m) (length l) = b.
Proof. induction l as [|z l IH]; [done|exact IH]. Qed.

Lemma parseExtensions_written exts :
  Forall extension_fits exts -> Z.of_nat (length (flat_map extension_bytes exts)) < 65536 ->
  parseExtensions (be_bytes 2 (Z.of_nat (length (flat_map extension_bytes exts))) ++ flat_map extension_bytes exts) = collect exts collected_nothing.
Proof.
  intros Hok Hl. set (exb := flat_map extension_bytes exts) in *. unfold parseExtensions.
  assert (u16_at (be_bytes 2 (Z.of_nat (length exb)) ++ exb) 0 = Z.of_nat (length exb)) as Hlen
    by (apply (u16_at_be _ exb 0 []); [lia|done]).
  assert (drop 2 (be_bytes 2 (Z.of_nat (length exb)) ++ exb) = exb) as Hd by (apply drop_app_length'; by rewrite length_be_bytes).
  destruct (be_bytes 2 (Z.of_nat (length exb)) ++ exb) as [|z l] eqn:E; [apply (f_equal length) in E; rewrite length_app, length_be_bytes in E; simpl in E; lia|].
  rewrite <-E in *. rewrite Hlen, Hd, (proj2 (Nat.ltb_ge _ 2)) by (rewrite length_app, length_be_bytes; lia).
  rewrite (proj2 (Z.ltb_ge _ _)) by lia. apply extensions_loop_written; [done|]. unfold exb. lia.
Qed.

Lemma parseHandshake_written version random sid ciphers comp exts :
  version_ok version = true -> 0 <= version < 65536 -> length random = 32%nat -> (length sid < 256)%nat -> (length comp < 256)%nat ->
  Z.of_nat (length ciphers) < 32768 -> Forall (fun x => 0 <= x < 65536) ciphers -> Forall extension_fits exts ->
  Z.of_nat (length (flat_map extension_bytes exts)) < 65536 ->
  parseHandshake (handshake_bytes version random sid ciphers comp exts) =
  let* c := collect exts collected_nothing in Ok (hello_of version ciphers c).
Proof.
  intros Hv Hvr Hrand Hsid Hcomp Hcl Hc Hok Hl.
  set (cs := cipher_part ciphers comp exts). set (exb := flat_map extension_bytes exts) in *.
  assert (length cs = 2 + 2 * length ciphers + 1 + length comp + 2 + length exb)%nat as Hcs.
  { unfold cs, cipher_part. fold exb. rewrite !length_app, !length_be_bytes, length_be_list. simpl. lia. }
  set (body := be_bytes 2 version ++ random ++ [Z.of_nat (length sid)] ++ sid ++ cs).
  assert (length body = 35 + length sid + length cs)%nat as Hbody.
  { unfold body. rewrite !length_app, length_be_bytes, Hrand. simpl. lia. }
  set (hs := handshake_bytes version random sid ciphers comp exts).
  assert (hs = [1] ++ be_bytes 3 (Z.of_nat (length body)) ++ body) as Ehs by done.
  assert (length hs = 4 + length body)%nat as Hhs by (rewrite Ehs, !length_app, length_be_bytes; simpl; lia).
  assert (hs = ([1] ++ be_bytes 3 (Z.of_nat (length body)) ++ be_bytes 2 version ++ random) ++ Z.of_nat (length sid) :: sid ++ cs) as E38
    by (rewrite Ehs; unfold body; by rewrite <-!app_assoc).
  assert (length ([1] ++ be_bytes 3 (Z.of_nat (length body)) ++ be_bytes 2 version ++ random) = 38%nat) as H38
    by (rewrite !length_app, !length_be_bytes, Hrand; done).
  set (P := [1] ++ be_bytes 3 (Z.of_nat (length body)) ++ be_bytes 2 version ++ random) in *.
  assert (byte_of_list hs 0 = 1) as H0 by done.
  assert ((byte_of_list hs 1 * 256 + byte_of_list hs 2) * 256 + byte_of_list hs 3 = Z.of_nat (length body)) as H123.
  { rewrite Ehs, be_bytes_3 by lia. cbn [app byte_of_list nth]. set (n := Z.of_nat (length body)) in *.
    pose proof (Z.div_mod n 256 ltac:(lia)). pose proof (Z.div_mod (n / 256) 256 ltac:(lia)) as Hd. rewrite Z.div_div in Hd by lia. change (256 * 256) with 65536 in Hd. lia. }
  assert (u16_at hs 4 = version) as H4.
  { rewrite Ehs. apply (u16_at_be version (random ++ [Z.of_nat (length sid)] ++ sid ++ cs) 4 ([1] ++ be_bytes 3 (Z.of_nat (length body)))); [done|].
    rewrite length_app, length_be_bytes. done. }
  assert (byte_of_list hs 38 = Z.of_nat (length sid)) as Hb38 by (rewrite E38, <-H38; apply byte_of_list_app).
  assert (drop (39 + length sid) hs = cs) as Hdcs.
  { rewrite E38. replace (P ++ Z.of_nat (length sid) :: sid ++ cs) with ((P ++ [Z.of_nat (length sid)] ++ sid) ++ cs) by (by rewrite <-!app_assoc).
    apply drop_app_length'. rewrite !length_app, H38. simpl. lia. }
  unfold parseHandshake. rewrite (proj2 (Nat.ltb_ge _ 39)) by lia. rewrite H0. cbn [Z.eqb Pos.eqb negb].
  rewrite length_drop, Hhs, H123. replace (4 + length body - 4)%nat with (length body) by lia. rewrite Z.eqb_refl. cbn [negb].
  rewrite H4, Hv, Hb38, Nat2Z.id. cbn [negb]. rewrite (proj2 (Nat.ltb_ge _ _)) by lia. rewrite Hdcs.
  rewrite (proj2 (Nat.ltb_ge _ 2)) by lia.
  assert (u16_at cs 0 = 2 * Z.of_nat (length ciphers)) as Hcsl by (apply (u16_at_be _ _ 0 []); [lia|done]).
  rewrite Hcsl. replace (Z.to_nat (2 * Z.of_nat (length ciphers))) with (2 * length ciphers)%nat by lia.
  rewrite (proj2 (Nat.ltb_ge _ _)) by lia.
  assert (drop 2 cs = flat_map (be_bytes 2) ciphers ++ [Z.of_nat (length comp)] ++ comp ++ be_bytes 2 (Z.of_nat (length exb)) ++ exb) as Hd2
    by (apply drop_app_length'; by rewrite length_be_bytes).
  replace (2 * length ciphers / 2)%nat with (length ciphers) by (rewrite Nat.mul_comm, Nat.div_mul; lia).
  rewrite Hd2, u16_list_written by done.
  assert (byte_of_list cs (2 + 2 * length ciphers) = Z.of_nat (length comp)) as Hcb.
  { replace (2 + 2 * length ciphers)%nat with (length (be_bytes 2 (2 * Z.of_nat (length ciphers)) ++ flat_map (be_bytes 2) ciphers))
      by (rewrite length_app, length_be_bytes, length_be_list; lia).
    unfold cs, cipher_part. rewrite app_assoc. apply byte_of_list_app. }
  rewrite Hcb, Nat2Z.id, (proj2 (Nat.ltb_ge _ _)) by lia.
  assert (drop (2 + 2 * length ciphers + 1 + length comp) cs = be_bytes 2 (Z.of_nat (length exb)) ++ exb) as ->.
  { unfold cs, cipher_part. fold exb. rewrite !app_assoc, <-(app_assoc _ _ exb). apply drop_app_length'.
    rewrite !length_app, length_be_bytes, length_be_list. simpl. lia. }
  unfold exb. by rewrite parseExtensions_written.
Qed.

(** What is written as a hello is read as that hello: the version, the ciphers and
    the types of the extensions as they are, and of the bodies what the parser of
    each makes of it. *)
Theorem ja3_reads_hello record_version version random sid ciphers comp exts rest :
  version_ok record_version = true -> 0 <= record_version < 65536 -> version_ok version = true -> 0 <= version < 65536 ->
  length random = 32%nat -> (length sid < 256)%nat -> (length comp < 256)%nat -> Z.of_nat (length ciphers) < 32768 ->
  Forall (fun x => 0 <= x < 65536) ciphers -> Forall extension_fits exts ->
  Z.of_nat (length (handshake_bytes version random sid ciphers comp exts)) < 65536 ->
  ja3_Compute (segment_bytes record_version (handshake_bytes version random sid ciphers comp exts) ++ rest) =
  let* c := collect exts collected_nothing in Ok (hello_of version ciphers c).
Proof.
  intros Hrv Hrvr Hv Hvr Hrand Hsid Hcomp Hcl Hc Hok Hl. set (hs := handshake_bytes version random sid ciphers comp exts) in *.
  assert (Z.of_nat (length (flat_map extension_bytes exts)) < 65536) as Hex.
  { unfold hs, handshake_bytes, cipher_part in Hl. rewrite !length_app in Hl. lia. }
  assert (segment_bytes record_version hs ++ rest = ([22] ++ be_bytes 2 record_version) ++ be_bytes 2 (Z.of_nat (length hs)) ++ hs ++ rest) as E
    by (unfold segment_bytes; by rewrite <-!app_assoc).
  unfold ja3_Compute. rewrite E. rewrite (proj2 (Nat.ltb_ge _ 5)) by (rewrite !length_app, !length_be_bytes; simpl; lia).
  change (byte_of_list (([22] ++ be_bytes 2 record_version) ++ be_bytes 2 (Z.of_nat (length hs)) ++ hs ++ rest) 0) with 22. cbn [Z.eqb Pos.eqb negb].
  assert (u16_at (([22] ++ be_bytes 2 record_version) ++ be_bytes 2 (Z.of_nat (length hs)) ++ hs ++ rest) 1 = record_version) as ->.
  { rewrite <-app_assoc. by apply (u16_at_be record_version _ 1 [22]). }
  rewrite Hrv. cbn [negb]. rewrite (u16_at_be (Z.of_nat (length hs)) (hs ++ rest) 3 ([22] ++ be_bytes 2 record_version)) by (done || lia).
  assert (drop 5 (([22] ++ be_bytes 2 record_version) ++ be_bytes 2 (Z.of_nat (length hs)) ++ hs ++ rest) = hs ++ rest) as ->.
  { rewrite app_assoc. by apply drop_app_length'. }
  rewrite (proj2 (Z.ltb_ge _ _)) by (rewrite length_app; lia). rewrite Nat2Z.id, take_app_length.
  unfold hs. by apply parseHandshake_written.
Qed.

(** ** Runs *)

Definition some_extensions : list (Z * list Z) :=
  [(0, [0; 18; 0] ++ be_bytes 2 15 ++ bytes_of "www.example.org"); (10, [0; 4; 0; 29; 0; 23]); (11, [1; 0]); (43, [4; 3; 4; 3; 3]); (13, [0; 2; 4; 3]); (21, [])].

Definition some_hello : JA3Hello :=
  {| ch_Version := 771; ch_CipherSuites := [4865; 4866]; ch_Extensions := [0; 10; 11; 43; 13; 21]; ch_EllipticCurves := [29; 23];
     ch_EllipticCurvePF := [0]; ch_Versions := [772; 771]; ch_SignatureAlgorithms := [1027]; ch_ServerName := bytes_of "www.example.org" |}.

Lemma ja3_reads_hello_witness :
  ja3_Compute (segment_bytes 769 (handshake_bytes 771 (replicate 32 5) [] [4865; 4866] [0] some_extensions) ++ [9]) = Ok some_hello.
Proof.
  rewrite (ja3_reads_hello 769 771 (replicate 32 5) [] [4865; 4866] [0] some_extensions [9]);
    [vm_compute; reflexivity|vm_compute; reflexivity|lia|vm_compute; reflexivity|lia|done|simpl; lia|simpl; lia|simpl; lia| | |].
  - repeat constructor; lia.
  - repeat constructor; simpl; lia.
  - vm_compute. done.
Defined.

(** ** Behaviours worth knowing *)

(** A list of versions that says it has 4 bytes and has 3: the parser panics. *)
Example short_versions_panic :
  ja3_Compute (segment_bytes 769 (handshake_bytes 771 (replicate 32 5) [] [4865] [0] [(43, [4; 3; 4; 3])])) = Panic "index out of range".
Proof. vm_compute. reflexivity. Qed.

(** The fingerprint keeps the values of GREASE and drops all others: that of an
    ordinary hello is its version and its point formats. *)
Example fingerprint_of_some_hello : marshalJA3 some_hello = bytes_of "771,0".
Proof. vm_compute. reflexivity. Qed.

(** With the order ignored a hello whose extensions are not sorted is not equal
    to itself. *)
Example not_equal_to_itself : ja3_Equals some_hello some_hello true = false /\ ja3_Equals some_hello some_hello false = true.
Proof. split; vm_compute; reflexivity. Qed.

(** Without values of GREASE the fingerprint says nothing of ciphers, extensions
    and curves. *)
Lemma marshal_field_plain s l : Forall (fun v => is_grease v = false) l -> last s = Some 44 ->
  marshal_field s l = match l with [] => s ++ [44] | _ => s end.
Proof.
  intros Hl Hs. destruct l as [|v l]; [done|]. unfold marshal_field.
  assert (flat_map (fun v => if negb (is_grease v) then [] else digits v ++ [45]) (v :: l) = []) as ->.
  { induction Hl as [|x l' Hx _ IH]; [done|]. simpl. by rewrite Hx, IH. }
  rewrite app_nil_r. unfold replace_last. destruct s as [|z s] using rev_ind; [done|]. rewrite last_snoc in Hs. injection Hs as ->.
  by rewrite removelast_last.
Qed.
