(* ===== verification/QuicSniff.v ===== *)
(** * The QUIC sniffer

    common/sniff/quic.go with common/sniff/internal/qtls: the header of an initial
    packet, the removal of its protection, its frames, the stream of its CRYPTO
    frames put together over several packets, and what the hello in it says.
    HKDF, AES and AES-GCM are the class [QuicCrypto]. *)

From stdpp Require Import base list strings.
From Stdlib Require Import ZArith Lia.
From S2P Require Import Prelude GoStd External Adapter ByteReader Sniff Ja3.

Open Scope Z_scope.
Open Scope box_scope.

Class QuicCrypto : Type := {
  (** [hkdf.Extract] with SHA-256: secret and salt *)
  hkdf_Extract : list Z -> list Z -> list Z;
  (** [hkdf.Expand]: secret, info, length *)
  hkdf_Expand : list Z -> list Z -> nat -> list Z;
  (** one block of AES: key, block *)
  aes_Encrypt : list Z -> list Z -> list Z;
  (** AES-GCM: key, nonce, ciphertext, additional data *)
  gcm_Open : list Z -> list Z -> list Z -> list Z -> list Z + error }.

(** ** qtls *)

Definition VersionDraft29 : Z := 4278190109.
Definition Version1 : Z := 1.
Definition Version2 : Z := 1798521807.

Definition SaltOld : list Z := [175; 191; 236; 40; 153; 147; 210; 76; 158; 151; 134; 241; 156; 97; 17; 224; 67; 144; 168; 153].
Definition SaltV1 : list Z := [56; 118; 44; 247; 245; 89; 52; 179; 77; 23; 154; 230; 164; 200; 12; 173; 204; 187; 127; 10].
Definition SaltV2 : list Z := [13; 237; 227; 222; 247; 0; 166; 219; 129; 147; 129; 190; 110; 38; 157; 203; 249; 189; 46; 217].

(** [qtls.ReadUvarint]: the first two bits are the logarithm of the length. *)
Definition quic_ReadUvarint (r : Reader) : res (Z * Reader) :=
  let* '(firstByte, r) := ReadByte r in
  let more := (2 ^ Z.to_nat (Z.shiftr (Z.land firstByte 192) 6) - 1)%nat in
  let b1 := Z.land firstByte 63 in
  if (length (rd_bytes r) <? more)%nat then Err (rd_end r)
  else Ok (big_endian (b1 :: take more (rd_bytes r)), {| rd_bytes := drop more (rd_bytes r); rd_end := rd_end r |}).

(** [io.CopyN] to [io.Discard] *)
Definition CopyN (n : Z) (r : Reader) : res Reader :=
  if n <=? Z.of_nat (length (rd_bytes r)) then Ok {| rd_bytes := drop (Z.to_nat n) (rd_bytes r); rd_end := rd_end r |}
  else Err (rd_end r).

(** [bytes.Reader.Seek] forward: the end may be passed. *)
Definition seek_forward (n : Z) (r : Reader) : Reader :=
  {| rd_bytes := if n <=? Z.of_nat (length (rd_bytes r)) then drop (Z.to_nat n) (rd_bytes r) else []; rd_end := rd_end r |}.

(** ** The header *)

Record QuicHeader : Type := { qh_version : Z; qh_destConnID : list Z; qh_hdrLen : nat; qh_packetLen : Z; qh_sample : list Z }.

Definition parse_header (packet : list Z) : res QuicHeader :=
  let reader := {| rd_bytes := packet; rd_end := ErrEOF |} in
  let* '(typeByte, reader) := ReadByte reader in
  if Z.land typeByte 64 =? 0 then Err (ErrNew "bad type byte")
  else
    let* '(versionNumber, reader) := ReadUint 4 reader in
    if negb ((versionNumber =? VersionDraft29) || (versionNumber =? Version1) || (versionNumber =? Version2)) then Err (ErrNew "bad version")
    else
      let packetType := Z.shiftr (Z.land typeByte 48) 4 in
      if ((packetType =? 0) && (versionNumber =? Version2)) || ((packetType =? 2) && negb (versionNumber =? Version2)) || (2 <? packetType)
      then Err (ErrNew "bad packet type")
      else
        let* '(destConnIDLen, reader) := ReadByte reader in
        if (destConnIDLen =? 0) || (20 <? destConnIDLen) then Err (ErrNew "bad destination connection id length")
        else
          let* '(destConnID, reader) := ReadFull (Z.to_nat destConnIDLen) reader in
          let* '(srcConnIDLen, reader) := ReadByte reader in
          let* reader := CopyN srcConnIDLen reader in
          let* '(tokenLen, reader) := quic_ReadUvarint reader in
          let* reader := CopyN tokenLen reader in
          let* '(packetLen, reader) := quic_ReadUvarint reader in
          let hdrLen := (length packet - length (rd_bytes reader))%nat in
          if Z.of_nat (length packet) <? Z.of_nat hdrLen + packetLen then Err ErrInvalid
          else
            let* reader := CopyN 4 reader in
            let* '(pnBytes, reader) := ReadFull 16 reader in
            Ok {| qh_version := versionNumber; qh_destConnID := destConnID; qh_hdrLen := hdrLen; qh_packetLen := packetLen; qh_sample := pnBytes |}.

Section sniff.
Context `{QuicCrypto}.

(** [HKDFExpandLabel] without a context *)
Definition HKDFExpandLabel (secret : list Z) (label : string) (len : nat) : list Z :=
  hkdf_Expand secret (be_bytes 2 (Z.of_nat len) ++ [Z.of_nat (6 + String.length label)] ++ bytes_of "tls13 " ++ bytes_of label ++ [0]) len.

(** ** Protection *)

Definition xor_bytes (a b : list Z) : list Z := zip_with Z.lxor a b.

(** The packet without the protection of its header: the first byte and the four
    bytes where the packet number is, of which those behind it are put back. *)
Definition unprotect (h : QuicHeader) (packet : list Z) : res (list Z * nat * Z) :=
  let salt := if qh_version h =? Version1 then SaltV1 else if qh_version h =? Version2 then SaltV2 else SaltOld in
  let hpLabel := if qh_version h =? Version2 then "quicv2 hp" else "quic hp" in
  let initialSecret := hkdf_Extract (qh_destConnID h) salt in
  let secret := HKDFExpandLabel initialSecret "client in" 32 in
  let hpKey := HKDFExpandLabel secret hpLabel 16 in
  let mask := aes_Encrypt hpKey (qh_sample h) in
  let hdrLen := qh_hdrLen h in
  let first := Z.lxor (nth 0 packet 0) (Z.land (nth 0 mask 0) 15) in
  let packetNumberLength := (Z.to_nat (Z.land first 3) + 1)%nat in
  if qh_packetLen h <? Z.of_nat packetNumberLength then Err ErrInvalid
  else
    let number := xor_bytes (take packetNumberLength (drop hdrLen packet)) (take packetNumberLength (drop 1 mask)) in
    let newPacket := [first] ++ drop 1 (take hdrLen packet) ++ number ++ drop (hdrLen + packetNumberLength) packet in
    Ok (newPacket, (hdrLen + packetNumberLength)%nat, big_endian number).

(** The nonce: the initialisation vector with the packet number. *)
Definition quic_nonce (iv : list Z) (packetNumber : Z) : list Z := xor_bytes iv (replicate 4 0 ++ be_bytes 8 packetNumber).

(** The decrypted frames, and the memory they are in: the packet from where they
    start, which is written over. *)
Definition decrypt (h : QuicHeader) (packet : list Z) : res (list Z * list Z) :=
  let salt := if qh_version h =? Version1 then SaltV1 else if qh_version h =? Version2 then SaltV2 else SaltOld in
  let secret := HKDFExpandLabel (hkdf_Extract (qh_destConnID h) salt) "client in" 32 in
  let* '(newPacket, extHdrLen, packetNumber) := unprotect h packet in
  let data := take (qh_hdrLen h + Z.to_nat (qh_packetLen h) - extHdrLen) (drop extHdrLen newPacket) in
  let key := HKDFExpandLabel secret (if qh_version h =? Version2 then "quicv2 key" else "quic key") 16 in
  let iv := HKDFExpandLabel secret (if qh_version h =? Version2 then "quicv2 iv" else "quic iv") 12 in
  match gcm_Open key (quic_nonce iv packetNumber) data (take extHdrLen newPacket) with
  | inr e => Err e
  | inl decrypted => Ok (decrypted, decrypted ++ drop (extHdrLen + length decrypted) newPacket)
  end.
End sniff.

(** ** Frames *)

(** Reading [n] numbers *)
Fixpoint read_uvarints (n : nat) (r : Reader) : res Reader :=
  match n with
  | O => Ok r
  | S n => let* '(_, r) := quic_ReadUvarint r in read_uvarints n r
  end.

(** The ranges of an ACK frame; a count beyond the bytes that are left ends with
    the error of the reader. *)
Definition read_ack_ranges (count : Z) (r : Reader) : res Reader :=
  read_uvarints (2 * Z.to_nat (Z.min count (Z.of_nat (S (length (rd_bytes r)))))) r.

(** The loop over the frames: their types, and the fragments of CRYPTO frames,
    which are slices of the memory. *)
Fixpoint frames_loop (fuel : nat) (memory : list Z) (size : nat) (r : Reader) (types : list Z) (fragments : list qCryptoFragment)
  : res (list Z * list qCryptoFragment) :=
  match fuel with
  | O => Panic "fuel"
  | S fuel =>
      match ReadByte r with
      | Err _ | Panic _ => Ok (types, fragments)
      | Ok (frameType, r) =>
          let types := types ++ [frameType] in
          if (frameType =? 0) || (frameType =? 1) then frames_loop fuel memory size r types fragments
          else if (frameType =? 2) || (frameType =? 3) then
            let* '(_, r) := quic_ReadUvarint r in
            let* '(_, r) := quic_ReadUvarint r in
            let* '(ackRangeCount, r) := quic_ReadUvarint r in
            let* '(_, r) := quic_ReadUvarint r in
            let* r := read_ack_ranges ackRangeCount r in
            let* r := (if frameType =? 3 then read_uvarints 3 r else Ok r) in
            frames_loop fuel memory size r types fragments
          else if frameType =? 6 then
            let* '(offset, r) := quic_ReadUvarint r in
            let* '(length_, r) := quic_ReadUvarint r in
            let index := (size - length (rd_bytes r))%nat in
            if Z.of_nat (length memory) <? Z.of_nat index + length_ then Panic "slice bounds out of range"
            else
              frames_loop fuel memory size (seek_forward length_ r) types
                (fragments ++ [{| qf_offset := offset; qf_length := length_; qf_payload := take (Z.to_nat length_) (drop index memory) |}])
          else if frameType =? 28 then
            let* r := read_uvarints 2 r in
            let* '(length_, r) := quic_ReadUvarint r in
            frames_loop fuel memory size (seek_forward length_ r) types fragments
          else Err ErrInvalid
      end
  end.

Definition parse_frames (decrypted memory : list Z) : res (list Z * list qCryptoFragment) :=
  frames_loop (S (length decrypted)) memory (length decrypted) {| rd_bytes := decrypted; rd_end := ErrEOF |} [] [].

(** ** The stream *)

(** The loop [find]: what is written so far, and none when [fuel] rounds are not
    enough. *)
Fixpoint assemble (fuel : nat) (fragments : list qCryptoFragment) (index : Z) (written : list Z) : option (list Z) :=
  match fuel with
  | O => None
  | S fuel =>
      match List.find (fun f => qf_offset f =? index) fragments with
      | None => Some written
      | Some f => assemble fuel fragments (qf_offset f + qf_length f) (written ++ qf_payload f)
      end
  end.

(** The segment that is given to the parser of the hello *)
Definition hello_segment (fragments : list qCryptoFragment) (stream : list Z) : list Z :=
  [22] ++ be_bytes 2 771 ++ be_bytes 2 (foldr Z.add 0 (map qf_length fragments) mod 65536) ++ stream.

(** ** The client *)

Definition isZero (l : list Z) : bool := forallb (fun x => x =? 0) l.
Definition count (l : list Z) (value : Z) : nat := length (List.filter (fun x => x =? value) l).

(** [isQUICGo] *)
Definition isQUICGo (fingerprint : JA3Hello) : bool :=
  existsb (fun c => c =? 4588) (ch_EllipticCurves fingerprint) || existsb (fun e => e =? 65281) (ch_Extensions fingerprint).

Definition quic_client (types : list Z) (fingerprint : JA3Hello) : res string :=
  if (length types =? 1)%nat then Ok "firefox"
  else
    match types with
    | [] => Panic "index out of range [0] with length 0"
    | first :: others =>
        let grease l := match l with v :: _ => is_grease v | [] => false end in
        if (first =? 6) && isZero others &&
           (((length (ch_Versions fingerprint) =? 2)%nat && grease (ch_Versions fingerprint) &&
             (length (ch_EllipticCurves fingerprint) =? 5)%nat && grease (ch_EllipticCurves fingerprint)) ||
            (bool_decide (ch_CipherSuites fingerprint = [4866]) && bool_decide (ch_EllipticCurves fingerprint = [29]) &&
             bool_decide (ch_SignatureAlgorithms fingerprint = [1027]))) then Ok "safari"
        else if bool_decide (last types = Some 6) && isZero (removelast types) then Ok "quic-go"
        else if (1 <? count types 6)%nat || (0 <? count types 1)%nat then
          if isQUICGo fingerprint then Ok "quic-go" else Ok "chromium"
        else Ok "unknown"
    end.

(** ** The sniffer *)

(** A call returns, panics, or never ends. *)
Inductive quic_outcome : Type :=
  | QuicReturns (err : option error) (m : Metadata)
  | QuicPanics (msg : string)
  | QuicLoops.

Definition string_of (l : list Z) : string := string_of_bytes l.

(** What follows the frames; [fragments] are those of this packet. *)
Definition quic_sniff_stream (types : list Z) (fragments : list qCryptoFragment) (m : Metadata) : quic_outcome :=
  let fragments := fragments ++ default [] (md_SniffContext m) in
  let m := with_SniffContext None m in
  match assemble (S (length fragments)) fragments 0 [] with
  | None => QuicLoops
  | Some stream =>
      let m := on_md (with_Protocol ProtocolQUIC) m in
      match ja3_Compute (hello_segment fragments stream) with
      | Panic msg => QuicPanics msg
      | Err e => QuicReturns (Some (need_more e)) (with_SniffContext (Some fragments) m)
      | Ok fingerprint =>
          let m := on_md (with_Domain (string_of (ch_ServerName fingerprint))) m in
          if bool_decide (Client (md m) = "") then
            match quic_client types fingerprint with
            | Ok client => QuicReturns None (on_md (with_Client client) m)
            | Err e => QuicReturns (Some e) m
            | Panic msg => QuicPanics msg
            end
          else QuicReturns None m
      end
  end.

Definition QUICClientHello_run `{QuicCrypto} (packet : list Z) (m : Metadata) : quic_outcome :=
  match (let* h := parse_header packet in let* '(decrypted, memory) := decrypt h packet in parse_frames decrypted memory) with
  | Err e => QuicReturns (Some e) m
  | Panic msg => QuicPanics msg
  | Ok (types, fragments) => quic_sniff_stream types fragments m
  end.

(** ** Numbers *)

Definition quic_uvarint (k : nat) (x : Z) : list Z :=
  match be_bytes (2 ^ k) x with
  | b :: l => Z.of_nat k * 64 + b :: l
  | [] => []
  end.

Example quic_uvarints :
  map (fun l => quic_ReadUvarint {| rd_bytes := l ++ [9]; rd_end := ErrEOF |})
    [quic_uvarint 0 37; quic_uvarint 1 15293; quic_uvarint 2 494878333; quic_uvarint 3 151288809941952652] =
  map (fun x => Ok (x, {| rd_bytes := [9]; rd_end := ErrEOF |})) [37; 15293; 494878333; 151288809941952652].
Proof. vm_compute. reflexivity. Qed.

Lemma quic_uvarint_consumes r x r' : quic_ReadUvarint r = Ok (x, r') -> (length (rd_bytes r') < length (rd_bytes r))%nat.
Proof.
  unfold quic_ReadUvarint. destruct (ReadByte r) as [[b r1]| |] eqn:Hb; [|done..]. cbn [res_bind]. apply consumes_byte in Hb.
  destruct (_ <? _)%nat; [done|]. intros [= <- <-]. cbn [rd_bytes]. rewrite length_drop. lia.
Qed.

Lemma read_uvarints_consumes n r r' : read_uvarints n r = Ok r' -> (length (rd_bytes r') <= length (rd_bytes r))%nat.
Proof.
  revert r; induction n as [|n IH]; intros r; cbn [read_uvarints]; [by intros [= <-]|].
  intros ([x r1] & Hx%quic_uvarint_consumes & Hr%IH)%res_bind_ok. lia.
Qed.

(** An ACK frame cannot make the sniffer read more ranges than there are bytes. *)
Lemma read_uvarints_too_many n r : (length (rd_bytes r) < n)%nat -> forall r', read_uvarints n r <> Ok r'.
Proof. intros Hn r'. revert r Hn; induction n as [|n IH]; intros r Hn; cbn [read_uvarints]; [lia|].
  intros ([x r1] & Hx%quic_uvarint_consumes & Hr)%res_bind_ok. by apply (IH r1) in Hr; [|lia].
Qed.

(** The frames are read in as many rounds as there are bytes. *)
Lemma frames_loop_returns fuel memory size r types fragments :
  (length (rd_bytes r) < fuel)%nat -> frames_loop fuel memory size r types fragments <> Panic "fuel".
Proof.
  revert r types fragments; induction fuel as [|fuel IH]; intros r types fragments Hf; [lia|]. cbn [frames_loop].
  destruct (ReadByte r) as [[t r1]| |] eqn:Hb; [|done..]. apply consumes_byte in Hb.
  assert (forall x, quic_ReadUvarint x <> Panic "fuel") as Hq.
  { intros x. unfold quic_ReadUvarint, ReadByte. destruct (rd_bytes x); [done|]. simpl. by destruct (_ <? _)%nat. }
  assert (forall n x, read_uvarints n x <> Panic "fuel") as Hqs.
  { intros n; induction n as [|n IHn]; intros x; cbn [read_uvarints]; [done|]. specialize (Hq x). destruct (quic_ReadUvarint x) as [[? ?]| |]; [apply IHn|done|(intros [= ->]; by apply Hq)]. }
  assert (forall n x, (length (rd_bytes (seek_forward n x)) <= length (rd_bytes x))%nat) as Hseek.
  { intros n x. unfold seek_forward. cbn [rd_bytes]. destruct (_ <=? _); [rewrite length_drop; lia|simpl; lia]. }
  destruct (_ || _); [apply IH; lia|]. destruct (_ || _).
  { pose proof (Hq r1) as H1. destruct (quic_ReadUvarint r1) as [[x1 r2]| |] eqn:E1; [|done|(intros [= ->]; by apply H1)]. apply quic_uvarint_consumes in E1. cbn [res_bind].
    pose proof (Hq r2) as H2. destruct (quic_ReadUvarint r2) as [[x2 r3]| |] eqn:E2; [|done|(intros [= ->]; by apply H2)]. apply quic_uvarint_consumes in E2. cbn [res_bind].
    pose proof (Hq r3) as H3. destruct (quic_ReadUvarint r3) as [[x3 r4]| |] eqn:E3; [|done|(intros [= ->]; by apply H3)]. apply quic_uvarint_consumes in E3. cbn [res_bind].
    pose proof (Hq r4) as H4. destruct (quic_ReadUvarint r4) as [[x4 r5]| |] eqn:E4; [|done|(intros [= ->]; by apply H4)]. apply quic_uvarint_consumes in E4. cbn [res_bind].
    unfold read_ack_ranges. pose proof (Hqs (2 * Z.to_nat (Z.min x3 (Z.of_nat (S (length (rd_bytes r5))))))%nat r5) as H5.
    destruct (read_uvarints _ r5) as [r6| |] eqn:E5; [|done|(intros [= ->]; by apply H5)]. apply read_uvarints_consumes in E5. cbn [res_bind].
    destruct (t =? 3).
    - specialize (Hqs 3%nat r6). destruct (read_uvarints 3 r6) as [r7| |] eqn:E6; [|done|(intros [= ->]; by apply Hqs)]. apply read_uvarints_consumes in E6. cbn [res_bind]. apply IH. lia.
    - cbn [res_bind]. apply IH. lia. }
  destruct (t =? 6).
  { pose proof (Hq r1) as H1. destruct (quic_ReadUvarint r1) as [[x1 r2]| |] eqn:E1; [|done|(intros [= ->]; by apply H1)]. apply quic_uvarint_consumes in E1. cbn [res_bind].
    pose proof (Hq r2) as H2. destruct (quic_ReadUvarint r2) as [[x2 r3]| |] eqn:E2; [|done|(intros [= ->]; by apply H2)]. apply quic_uvarint_consumes in E2. cbn [res_bind].
    destruct (_ <? _); [done|]. apply IH. specialize (Hseek x2 r3). lia. }
  destruct (t =? 28); [|done].
  specialize (Hqs 2%nat r1). destruct (read_uvarints 2 r1) as [r2| |] eqn:E1; [|done|(intros [= ->]; by apply Hqs)]. apply read_uvarints_consumes in E1. cbn [res_bind].
  pose proof (Hq r2) as H2. destruct (quic_ReadUvarint r2) as [[x2 r3]| |] eqn:E2; [|done|(intros [= ->]; by apply H2)]. apply quic_uvarint_consumes in E2. cbn [res_bind].
  apply IH. specialize (Hseek x2 r3). lia.
Qed.

Lemma first_byte_bits : forallb (fun k => forallb (fun b =>
  (Z.shiftr (Z.land (Z.of_nat k * 64 + Z.of_nat b) 192) 6 =? Z.of_nat k) && (Z.land (Z.of_nat k * 64 + Z.of_nat b) 63 =? Z.of_nat b)) (seq 0 64)) (seq 0 4) = true.
Proof. vm_compute. reflexivity. Qed.

(** A number is read as it was written, in each of its four lengths. *)
Theorem quic_uvarint_read_back k x :
  (k <= 3)%nat -> 0 <= x < 2 ^ (8 * 2 ^ Z.of_nat k - 2) -> reads quic_ReadUvarint (quic_uvarint k x) x.
Proof.
  intros Hk Hx rest e. unfold quic_uvarint, quic_ReadUvarint.
  assert (exists n, (2 ^ k)%nat = S n /\ 2 ^ (8 * 2 ^ Z.of_nat k - 2) = 64 * 256 ^ Z.of_nat n) as (n & Hn & Hp).
  { destruct k as [|[|[|[|k]]]]; [exists 0%nat|exists 1%nat|exists 3%nat|exists 7%nat|lia]; done. }
  rewrite Hp in Hx. rewrite Hn. cbn [be_bytes]. set (b := (x / 256 ^ Z.of_nat n) mod 256).
  assert (0 < 256 ^ Z.of_nat n) by (apply Z.pow_pos_nonneg; lia).
  assert (0 <= x / 256 ^ Z.of_nat n < 64) as Hq by (split; [apply Z.div_pos; lia|apply Z.div_lt_upper_bound; lia]).
  assert (b = x / 256 ^ Z.of_nat n) as Hb by (unfold b; rewrite Z.mod_small; lia).
  pose proof first_byte_bits as Hbits. rewrite forallb_forall in Hbits. specialize (Hbits k ltac:(apply in_seq; lia)).
  rewrite forallb_forall in Hbits. specialize (Hbits (Z.to_nat b) ltac:(apply in_seq; lia)). rewrite Z2Nat.id in Hbits by lia.
  apply andb_prop in Hbits as [H1%Z.eqb_eq H2%Z.eqb_eq].
  unfold ReadByte. cbn [app rd_bytes rd_end res_bind]. rewrite H1, H2, Nat2Z.id, Hn.
  replace (S n - 1)%nat with (length (be_bytes n x)) by (rewrite length_be_bytes; lia).
  rewrite (proj2 (Nat.ltb_ge _ _)) by (rewrite length_app; lia). rewrite take_app_length, drop_app_length.
  do 2 f_equal. change (b :: be_bytes n x) with (be_bytes (S n) x). apply big_endian_be_bytes.
  rewrite Nat2Z.inj_succ, Z.pow_succ_r by lia. lia.
Qed.

(** ** The stream of the CRYPTO frames *)

(** The fragments of a stream that is cut into pieces *)
Fixpoint tile (offset : Z) (pieces : list (list Z)) : list qCryptoFragment :=
  match pieces with
  | [] => []
  | p :: pieces => {| qf_offset := offset; qf_length := Z.of_nat (length p); qf_payload := p |} :: tile (offset + Z.of_nat (length p)) pieces
  end.

Lemma tile_app offset a b : tile offset (a ++ b) = tile offset a ++ tile (offset + Z.of_nat (length (concat a))) b.
Proof.
  revert offset; induction a as [|p a IH]; intros offset; simpl; [by rewrite Z.add_0_r|]. rewrite IH, length_app. do 3 f_equal. lia.
Qed.

Lemma tile_offsets offset pieces f : Forall (fun p => p <> []) pieces -> f ∈ tile offset pieces ->
  offset <= qf_offset f < offset + Z.of_nat (length (concat pieces)).
Proof.
  intros Hne. revert offset; induction Hne as [|p pieces Hp _ IH]; intros offset; simpl; [by intros ?%elem_of_nil|].
  rewrite length_app. assert (0 < length p)%nat by (destruct p; [done|simpl; lia]).
  intros [->|Hin]%elem_of_cons; [simpl; lia|]. apply IH in Hin. lia.
Qed.

Lemma find_piece frags done_ p rest :
  Forall (fun p => p <> []) (done_ ++ p :: rest) -> (forall f, f ∈ frags <-> f ∈ tile 0 (done_ ++ p :: rest)) ->
  List.find (fun f => qf_offset f =? Z.of_nat (length (concat done_))) frags =
  Some {| qf_offset := Z.of_nat (length (concat done_)); qf_length := Z.of_nat (length p); qf_payload := p |}.
Proof.
  intros Hne Hin. set (index := Z.of_nat (length (concat done_))).
  set (piece := {| qf_offset := index; qf_length := Z.of_nat (length p); qf_payload := p |}).
  apply Forall_app in Hne as [Hd Hpr]. pose proof Hpr as [Hp Hr]%Forall_cons.
  assert (0 < length p)%nat by (destruct p; [done|simpl; lia]).
  destruct (List.find _ frags) as [f|] eqn:Hf.
  - apply find_some in Hf as [Hf%list_elem_of_In Ho%Z.eqb_eq]. apply Hin in Hf. rewrite tile_app in Hf. apply elem_of_app in Hf as [Hf|Hf].
    + apply tile_offsets in Hf; [|done]. unfold index in Ho. lia.
    + rewrite Z.add_0_l in Hf. cbn [tile] in Hf. apply elem_of_cons in Hf as [->|Hf]; [done|]. apply tile_offsets in Hf; [|done]. unfold index in Ho. lia.
  - exfalso. assert (piece ∈ frags) as Hpf. { apply Hin. rewrite tile_app. apply elem_of_app. right. rewrite Z.add_0_l. by left. }
    apply list_elem_of_In in Hpf. apply (find_none _ _ Hf) in Hpf. simpl in Hpf. by rewrite Z.eqb_refl in Hpf.
Qed.

Lemma tile_length offset pieces : length (tile offset pieces) = length pieces.
Proof. revert offset; induction pieces as [|p l IH]; intros offset; simpl; [done|]. by rewrite IH. Qed.

Lemma tile_NoDup offset pieces : Forall (fun p => p <> []) pieces -> NoDup (tile offset pieces).
Proof.
  intros Hne. revert offset; induction Hne as [|p pieces Hp Hps IH]; intros offset; simpl; [constructor|]. constructor; [|apply IH].
  intros Hin. apply tile_offsets in Hin; [|done]. simpl in Hin. assert (0 < length p)%nat by (destruct p; [done|simpl; lia]). lia.
Qed.

(** Whatever the order of the fragments, in how many packets they came and how
    often one was sent again, the stream is put together as it was. *)
Theorem crypto_stream_assembled pieces frags :
  Forall (fun p => p <> []) pieces -> (forall f, f ∈ frags <-> f ∈ tile 0 pieces) ->
  assemble (S (length frags)) frags 0 [] = Some (concat pieces).
Proof.
  intros Hne Hin.
  assert (length pieces <= length frags)%nat as Hlen.
  { rewrite <-(tile_length 0 pieces). apply submseteq_length, NoDup_submseteq; [by apply tile_NoDup|]. intros f. apply Hin. }
  assert (forall rest done_ fuel, pieces = done_ ++ rest -> (length rest < fuel)%nat ->
    assemble fuel frags (Z.of_nat (length (concat done_))) (concat done_) = Some (concat pieces)) as Hgo.
  { induction rest as [|p rest IH]; intros done_ fuel Hp Hfuel; (destruct fuel as [|fuel]; [lia|]); cbn [assemble].
    - rewrite app_nil_r in Hp. subst done_. destruct (List.find _ frags) as [f|] eqn:Hf; [|done].
      apply find_some in Hf as [Hf%list_elem_of_In Ho%Z.eqb_eq]. apply Hin, tile_offsets in Hf; [lia|done].
    - rewrite (find_piece frags done_ p rest) by (by rewrite <-Hp). cbn [qf_offset qf_length qf_payload].
      replace (concat done_ ++ p) with (concat (done_ ++ [p])) by (rewrite concat_app; simpl; by rewrite app_nil_r).
      replace (Z.of_nat (length (concat done_)) + Z.of_nat (length p)) with (Z.of_nat (length (concat (done_ ++ [p]))))
        by (rewrite concat_app, length_app; simpl; rewrite app_nil_r; lia).
      apply IH; [by rewrite <-app_assoc|simpl in Hfuel; lia]. }
  apply (Hgo pieces []); [done|lia].
Qed.

(** When it ends: fragments that are not empty are enough. *)
Definition from_index (index : Z) (frags : list qCryptoFragment) : nat := length (List.filter (fun f => index <=? qf_offset f) frags).

Lemma from_index_less i j frags f : i < j -> f ∈ frags -> qf_offset f = i -> (from_index j frags < from_index i frags)%nat.
Proof.
  intros Hij. unfold from_index in *.
  assert (forall l, (from_index j l <= from_index i l)%nat) as Hle.
  { unfold from_index. induction l as [|g l IH]; simpl; [done|]. destruct (Z.leb_spec j (qf_offset g)), (Z.leb_spec i (qf_offset g)); simpl; lia. }
  induction frags as [|g frags IH]; [by intros ?%elem_of_nil|]. intros [->|Hin]%elem_of_cons Ho; simpl.
  - destruct (Z.leb_spec j (qf_offset g)); [lia|]. destruct (Z.leb_spec i (qf_offset g)); [|lia]. simpl. specialize (Hle frags). unfold from_index in Hle. lia.
  - specialize (IH Hin Ho). destruct (Z.leb_spec j (qf_offset g)), (Z.leb_spec i (qf_offset g)); simpl; lia.
Qed.

Theorem assemble_returns frags : Forall (fun f => 0 < qf_length f) frags -> is_Some (assemble (S (length frags)) frags 0 []).
Proof.
  intros Hpos. assert (forall fuel index w, (from_index index frags < fuel)%nat -> is_Some (assemble fuel frags index w)) as Hgo.
  { induction fuel as [|fuel IH]; intros index w Hf; [lia|]. cbn [assemble]. destruct (List.find _ frags) as [f|] eqn:E; [|by eexists].
    apply find_some in E as [Hin%list_elem_of_In Ho%Z.eqb_eq]. apply IH. rewrite Forall_forall in Hpos. specialize (Hpos f Hin).
    pose proof (from_index_less index (qf_offset f + qf_length f) frags f ltac:(lia) Hin Ho). lia. }
  apply Hgo. unfold from_index. pose proof (List.filter_length_le (fun f => 0 <=? qf_offset f) frags). lia.
Qed.

(** An empty fragment where the stream goes on is found again and again. *)
Lemma empty_fragment_loops frags f index :
  List.find (fun f => qf_offset f =? index) frags = Some f -> qf_length f = 0 -> forall fuel w, assemble fuel frags index w = None.
Proof.
  intros Hf Hl fuel. induction fuel as [|fuel IH]; intros w; [done|]. cbn [assemble]. rewrite Hf.
  apply find_some in Hf as [_ Ho%Z.eqb_eq]. rewrite Hl, Ho, Z.add_0_r. apply IH.
Qed.

(** ** The sniffer's promise *)

(** It writes to the fields of the sniffers only: the law [QUIC_keeps] that
    Sniff.v asks of it. *)
Theorem quic_keeps `{QuicCrypto} packet m err m' : QUICClientHello_run packet m = QuicReturns err m' -> sniff_frame m m'.
Proof.
  unfold QUICClientHello_run. destruct (res_bind _ _) as [[types fragments]|e|msg]; [|by intros [= <- <-]|done].
  unfold quic_sniff_stream. destruct (assemble _ _ _ _) as [stream|]; [|done].
  destruct (ja3_Compute _) as [fp|e|msg]; [|by intros [= <- <-]|done].
  case_bool_decide; [|by intros [= <- <-]]. destruct (quic_client types fp); [by intros [= <- <-]|by intros [= <- <-]|done].
Qed.

(** ** Runs *)

(** No protection: a mask of zeros, and a ciphertext that is the text with 16
    bytes behind it. *)
Definition toy_crypto : QuicCrypto := {|
  hkdf_Extract _ _ := []; hkdf_Expand _ _ n := replicate n 0; aes_Encrypt _ _ := replicate 16 0;
  gcm_Open _ _ data _ := if (length data <? 16)%nat then inr ErrInvalid else inl (take (length data - 16) data) |}.

(** An initial packet of version 1 with the frames *)
Definition initial_packet (frames : list Z) : list Z :=
  [192; 0; 0; 0; 1; 1; 7; 0; 0] ++ quic_uvarint 1 (Z.of_nat (1 + length frames + 16)) ++ [0] ++ frames ++ replicate 16 0.

Definition crypto_frame (offset : Z) (l : list Z) : list Z := [6] ++ quic_uvarint 1 offset ++ quic_uvarint 1 (Z.of_nat (length l)) ++ l.

Definition small_hello : list Z := handshake_bytes 771 (replicate 32 5) [] [4865; 4866] [0] some_extensions.

(** Protocol, domain and client, or how the call ended *)
Definition sniffed_by (r : quic_outcome) : (string * string * string) + string :=
  match r with
  | QuicReturns None m => inl (Protocol (md m), Domain (md m), Client (md m))
  | QuicReturns (Some e) _ => inr (if errors_Is e ErrNeedMoreData then "more" else "error")
  | QuicPanics msg => inr msg
  | QuicLoops => inr "loops"
  end.

Definition run_initial_packet (frames : list Z) (m : Metadata) : quic_outcome := @QUICClientHello_run toy_crypto (initial_packet frames) m.

Example hello_in_one_packet :
  sniffed_by (run_initial_packet (crypto_frame 0 small_hello) MetadataZero) = inl ("quic", "www.example.org", "firefox").
Proof. vm_compute. reflexivity. Qed.

(** The second half first, and the first half in a packet of its own *)
Example hello_in_two_packets :
  let first := run_initial_packet (crypto_frame 60 (drop 60 small_hello)) MetadataZero in
  match first with
  | QuicReturns _ m => (sniffed_by first, sniffed_by (run_initial_packet (crypto_frame 0 (take 60 small_hello) ++ [1]) m))
  | _ => (inr "", inr "")
  end = (inr "more", inl ("quic", "www.example.org", "chromium")).
Proof. vm_compute. reflexivity. Qed.

(** *** Behaviours worth knowing *)

(** One packet is enough to end the program: the length of a CRYPTO frame is not
    checked against the packet. *)
Example long_crypto_frame_panics :
  sniffed_by (run_initial_packet ([6; 0] ++ quic_uvarint 1 16000) MetadataZero) = inr "slice bounds out of range".
Proof. vm_compute. reflexivity. Qed.

(** Or to keep a goroutine busy for ever: an empty CRYPTO frame at the place where
    the stream goes on. *)
Example empty_crypto_frame_loops : run_initial_packet [6; 0; 0] MetadataZero = QuicLoops.
Proof. vm_compute. reflexivity. Qed.

(** A list of versions that is too short in the hello ends the program too. *)
Example short_versions_end_program :
  sniffed_by (run_initial_packet (crypto_frame 0 (handshake_bytes 771 (replicate 32 5) [] [4865] [0] [(43, [4; 3; 4; 3])])) MetadataZero) =
  inr "index out of range".
Proof. vm_compute. reflexivity. Qed.

Lemma crypto_stream_assembled_witness :
  assemble 5 (let t := tile 0 [[1; 2]; [3]; [4; 5; 6]] in rev t ++ [nth 0 t {| qf_offset := 0; qf_length := 0; qf_payload := [] |}]) 0 [] = Some [1; 2; 3; 4; 5; 6].
Proof.
  apply (crypto_stream_assembled [[1; 2]; [3]; [4; 5; 6]]); [by repeat constructor|].
  intros f. simpl. rewrite !elem_of_cons. tauto.
Defined.
