(* ===== verification/Counters.v ===== *)
(** * Traffic counters

    Counters are [atomic.Int64]s, shared between the maps that name them and the
    connections that count into them: a heap of cells.  What a goroutine does to
    them is a list of atomic operations, and a run of several goroutines any list
    that interleaves theirs.  sing's counting connections are the class
    [CounterLib]. *)

From stdpp Require Import base list strings gmap.
From Stdlib Require Import ZArith Lia.
From S2P Require Import Prelude GoStd.

Open Scope Z_scope.
Open Scope box_scope.

(** ** Cells and atomic operations *)

Abbreviation loc := nat.
Abbreviation Heap := (list Z).

Inductive atomic_op : Type :=
  | OpAdd (c : loc) (n : Z)
  | OpLoad (c : loc)
  | OpStore (c : loc) (n : Z)
  (** [Swap(0)] *)
  | OpSwap0 (c : loc).

Definition op_cell (o : atomic_op) : loc :=
  match o with OpAdd c _ | OpLoad c | OpStore c _ | OpSwap0 c => c end.

Definition cell (h : Heap) (c : loc) : Z := default 0 (h !! c).

(** [new(atomic.Int64)] *)
Definition new_cell (h : Heap) : loc * Heap := (length h, h ++ [0]).

(** An operation: what it returns ([Store] returns nothing), and the heap. *)
Definition run_op (o : atomic_op) (h : Heap) : Z * Heap :=
  match o with
  | OpAdd c n => let v := to_int64 (cell h c + n) in (v, <[c := v]> h)
  | OpLoad c => (cell h c, h)
  | OpStore c n => (0, <[c := n]> h)
  | OpSwap0 c => (cell h c, <[c := 0]> h)
  end.

Fixpoint run_ops (l : list atomic_op) (h : Heap) : list Z * Heap :=
  match l with
  | [] => ([], h)
  | o :: l => let '(v, h) := run_op o h in let '(vs, h) := run_ops l h in (v :: vs, h)
  end.

Definition read_op (swap : bool) (c : loc) : atomic_op := if swap then OpSwap0 c else OpLoad c.

(** [loadOrCreate]: the counter of a name in a map of counters. *)
Definition loadOrCreateCounter (name : string) (m : gmap string loc) (h : Heap) : loc * gmap string loc * Heap :=
  match m !! name with
  | Some c => (c, m, h)
  | None => let '(c, h) := new_cell h in (c, <[name := c]> m, h)
  end.

(** What the counter of a name says. *)
Definition counter_value (h : Heap) (m : gmap string loc) (u : string) : Z :=
  match m !! u with Some c => cell h c | None => 0 end.

(** ** Counting connections *)

(** What a connection counts into: bytes and packets, read and written. *)
Record Tracked : Type := { tr_read : list loc; tr_readPackets : list loc; tr_write : list loc; tr_writePackets : list loc }.

(** bufio's counting connections: what one read, or one packet read, of [n]
    bytes does, and one write. *)
Class CounterLib : Type := {
  on_read : Tracked -> Z -> list atomic_op;
  on_write : Tracked -> Z -> list atomic_op }.

Class CounterLaws `{CounterLib} : Prop := {
  on_read_counts t n : on_read t n ≡ₚ map (fun c => OpAdd c n) (tr_read t) ++ map (fun c => OpAdd c 1) (tr_readPackets t);
  on_write_counts t n : on_write t n ≡ₚ map (fun c => OpAdd c n) (tr_write t) ++ map (fun c => OpAdd c 1) (tr_writePackets t) }.

#[global] Instance counter_conn : CounterLib := {|
  on_read t n := map (fun c => OpAdd c n) (tr_read t) ++ map (fun c => OpAdd c 1) (tr_readPackets t);
  on_write t n := map (fun c => OpAdd c n) (tr_write t) ++ map (fun c => OpAdd c 1) (tr_writePackets t) |}.

#[global] Instance counter_conn_laws : @CounterLaws counter_conn.
Proof. by split. Qed.

(** ** Facts *)

Lemma run_ops_app l k h :
  run_ops (l ++ k) h =
  let '(vs, h) := run_ops l h in let '(ws, h) := run_ops k h in (vs ++ ws, h).
Proof.
  revert h. induction l as [|o l IH]; intros h; simpl; [by destruct (run_ops k h)|].
  destruct (run_op o h) as [v h1]. rewrite IH. destruct (run_ops l h1) as [vs h2]. by destruct (run_ops k h2).
Qed.

Lemma run_op_length o h : length (run_op o h).2 = length h.
Proof. destruct o; simpl; by rewrite ?length_insert. Qed.

Lemma run_ops_length l h : length (run_ops l h).2 = length h.
Proof.
  revert h. induction l as [|o l IH]; intros h; simpl; [done|].
  pose proof (run_op_length o h). destruct (run_op o h) as [v h1]. specialize (IH h1). destruct (run_ops l h1). simpl in *. lia.
Qed.

Lemma cell_insert_eq h c n : (c < length h)%nat -> cell (<[c := n]> h) c = n.
Proof. intros Hc. unfold cell. by rewrite list_lookup_insert_eq. Qed.

Lemma cell_insert_ne h c d n : c <> d -> cell (<[c := n]> h) d = cell h d.
Proof. intros Hc. unfold cell. by rewrite list_lookup_insert_ne. Qed.

Lemma cell_new h d : cell (h ++ [0]) d = cell h d.
Proof.
  unfold cell. destruct (decide (d < length h)%nat); [by rewrite lookup_app_l|].
  rewrite lookup_app_r, (lookup_ge_None_2 h d) by lia. by destruct (d - length h)%nat as [|[]].
Qed.

Lemma run_op_other o h d : op_cell o <> d -> cell (run_op o h).2 d = cell h d.
Proof. destruct o; simpl; intros; by rewrite ?cell_insert_ne. Qed.

Lemma run_ops_other l h d : Forall (fun o => op_cell o <> d) l -> cell (run_ops l h).2 d = cell h d.
Proof.
  revert h. induction l as [|o l IH]; intros h Hl; simpl; [done|]. apply Forall_cons in Hl as [Ho Hl].
  pose proof (run_op_other o h d Ho) as E. destruct (run_op o h) as [v h1]. specialize (IH h1 Hl). destruct (run_ops l h1). simpl in *. congruence.
Qed.

(** What a run adds to a cell, and what the readers that clear it took. *)
Definition added (c : loc) (o : atomic_op) : Z :=
  match o with OpAdd d n => if bool_decide (d = c) then n else 0 | _ => 0 end.

Definition sumZ : list Z -> Z := foldr Z.add 0.

Fixpoint taken (c : loc) (l : list atomic_op) (vs : list Z) : Z :=
  match l, vs with
  | OpSwap0 d :: l, v :: vs => (if bool_decide (d = c) then v else 0) + taken c l vs
  | _ :: l, _ :: vs => taken c l vs
  | _, _ => 0
  end.

Definition not_stored (c : loc) (o : atomic_op) : Prop := match o with OpStore d _ => d <> c | _ => True end.

(** However adds and clearing reads interleave, nothing counted is lost or
    reported twice: what was taken and what is left is what was there and what
    was added, modulo 2^64. *)
Lemma counted_once c l h :
  (c < length h)%nat -> Forall (not_stored c) l ->
  let '(vs, h') := run_ops l h in
  (taken c l vs + cell h' c) mod 2 ^ 64 = (cell h c + sumZ (map (added c) l)) mod 2 ^ 64.
Proof.
  revert h. induction l as [|o l IH]; intros h Hc Hl; [by rewrite Z.add_0_r|].
  apply Forall_cons in Hl as [Ho Hl]. cbn [run_ops].
  pose proof (run_op_length o h) as Hlen. destruct (run_op o h) as [v h1] eqn:Eo. simpl in Hlen.
  specialize (IH h1 ltac:(lia) Hl). destruct (run_ops l h1) as [vs h2] eqn:El.
  assert (taken c (o :: l) (v :: vs) = taken c [o] [v] + taken c l vs) as -> by (destruct o; simpl; lia).
  assert ((taken c [o] [v] + cell h1 c) mod 2 ^ 64 = (cell h c + added c o) mod 2 ^ 64) as Hone.
  { destruct o as [d n|d|d n|d]; simpl in Eo, Ho |- *; injection Eo as <- <-; try case_bool_decide as E; subst;
      rewrite ?cell_insert_eq, ?cell_insert_ne by done; simpl; rewrite ?Z.add_0_l, ?to_int64_congr; f_equal; lia. }
  rewrite <-Z.add_assoc, <-Zplus_mod_idemp_r, IH, Zplus_mod_idemp_r, Z.add_assoc, <-Zplus_mod_idemp_l, Hone, Zplus_mod_idemp_l.
  f_equal. unfold sumZ. simpl. lia.
Qed.

Lemma added_map c t (n : Z) : sumZ (map (added c) (map (fun d => OpAdd d n) t)) = n * Z.of_nat (length (filter (fun d => d = c) t)).
Proof.
  induction t as [|d t IH]; simpl; [lia|]. unfold sumZ in *. rewrite IH. rewrite filter_cons. case_bool_decide as E; [rewrite decide_True by done; simpl; lia|].
  rewrite decide_False by done. lia.
Qed.

#[export] Instance sumZ_perm : Proper (Permutation ==> eq) sumZ.
Proof. unfold sumZ. induction 1; simpl; lia. Qed.

Lemma sumZ_app l k : sumZ (l ++ k) = sumZ l + sumZ k.
Proof. unfold sumZ. induction l; simpl; lia. Qed.

(** Operations of a connection add, and nothing else. *)
Lemma adds_spec l h c :
  (c < length h)%nat -> Forall (fun o => exists d n, o = OpAdd d n) l ->
  cell (run_ops l h).2 c mod 2 ^ 64 = (cell h c + sumZ (map (added c) l)) mod 2 ^ 64.
Proof.
  intros Hc Hl. pose proof (counted_once c l h Hc) as H. destruct (run_ops l h) as [vs h'] eqn:E. simpl.
  assert (taken c l vs = 0) as Ht.
  { clear -Hl. revert vs. induction Hl as [|o l (d & n & ->) _ IH]; intros [|v vs]; simpl; auto. }
  rewrite Ht, Z.add_0_l in H. apply H. eapply Forall_impl; [done|]. by intros o (d & n & ->).
Qed.

Lemma counted_ops_adds (a b : list loc) n : Forall (fun o => exists d k, o = OpAdd d k) (map (fun c => OpAdd c n) a ++ map (fun c => OpAdd c 1) b).
Proof. apply Forall_app. split; apply Forall_map, Forall_forall; intros d _; simpl; eauto. Qed.

(** ** Counters by name *)

(** The counters of a map are cells, each of one name. *)
Definition counters_ok (m : gmap string loc) (h : Heap) : Prop :=
  (forall a c, m !! a = Some c -> (c < length h)%nat) /\ (forall a b c, m !! a = Some c -> m !! b = Some c -> a = b).

Lemma loadOrCreate_ok name m h :
  counters_ok m h ->
  let '(c, m', h') := loadOrCreateCounter name m h in
  counters_ok m' h' /\ m ⊆ m' /\ m' !! name = Some c /\ forall a, counter_value h' m' a = counter_value h m a.
Proof.
  intros [Hlt Hinj]. unfold loadOrCreateCounter. destruct (m !! name) as [c|] eqn:E; simpl; [done|].
  split_and!.
  - split; setoid_rewrite lookup_insert_Some; rewrite ?length_app; simpl.
    + intros a c [[<- <-]|[_ H]]; [lia|]. specialize (Hlt _ _ H). lia.
    + intros a b c [[<- <-]|[Ha H]] [[<- E2]|[Hb H']]; try done.
      * specialize (Hlt _ _ H'). lia.
      * specialize (Hlt _ _ H). lia.
      * by eapply Hinj.
  - by apply insert_subseteq.
  - apply lookup_insert_eq.
  - intros a. unfold counter_value. destruct (decide (a = name)) as [->|Hne].
    + rewrite lookup_insert_eq, E, cell_new. unfold cell. by rewrite lookup_ge_None_2.
    + rewrite lookup_insert_ne by done. destruct (m !! a); [apply cell_new|done].
Qed.
