(* ===== verification/SsmApi.v ===== *)
(** * Traffic and users of managed Shadowsocks servers

    service/ssmapi: counters per server and per user ([TrafficManager]), the users
    of a server ([UserManager]), the handlers of the HTTP interface, and the cache
    that keeps both over a restart.  A managed server is the class [SSMServer];
    JSON is the class [SsmJson]; a range over a map goes in the order its argument
    [order] gives. *)

From stdpp Require Import base list sets gmap strings sorting.
From Stdlib Require Import ZArith Lia.
From S2P Require Import Prelude GoStd Counters.

Open Scope Z_scope.
Open Scope box_scope.

(** ** The traffic manager *)

(** The six counters there are of everything. *)
Record Six (A : Type) : Type := mkSix {
  uplink : A; downlink : A; uplinkPackets : A; downlinkPackets : A; tcpSessions : A; udpSessions : A }.
Arguments mkSix {A} _ _ _ _ _ _.
Arguments uplink {A} _.
Arguments downlink {A} _.
Arguments uplinkPackets {A} _.
Arguments downlinkPackets {A} _.
Arguments tcpSessions {A} _.
Arguments udpSessions {A} _.

Definition six_map {A B} (f : A -> B) (x : Six A) : Six B :=
  mkSix (f (uplink x)) (f (downlink x)) (f (uplinkPackets x)) (f (downlinkPackets x)) (f (tcpSessions x)) (f (udpSessions x)).

Definition six_zip {A B} (x : Six A) (y : Six B) : Six (A * B) :=
  mkSix (uplink x, uplink y) (downlink x, downlink y) (uplinkPackets x, uplinkPackets y)
        (downlinkPackets x, downlinkPackets y) (tcpSessions x, tcpSessions y) (udpSessions x, udpSessions y).

(** The same for each of the six, in order. *)
Definition six_st {A B S} (f : A -> S -> B * S) (x : Six A) (s : S) : Six B * S :=
  let '(a, s) := f (uplink x) s in
  let '(b, s) := f (downlink x) s in
  let '(c, s) := f (uplinkPackets x) s in
  let '(d, s) := f (downlinkPackets x) s in
  let '(e, s) := f (tcpSessions x) s in
  let '(g, s) := f (udpSessions x) s in
  (mkSix a b c d e g, s).

Definition six_const {A} (a : A) : Six A := mkSix a a a a a a.

(** [TrafficManager]: the cells of the server, and those of users by name. *)
Record TrafficManager : Type := { tm_global : Six loc; tm_user : Six (gmap string loc) }.

Definition NewTrafficManager (h : Heap) : TrafficManager * Heap :=
  let '(g, h) := six_st (fun (_ : unit) h => new_cell h) (six_const tt) h in
  ({| tm_global := g; tm_user := six_const ∅ |}, h).

(** [traffic_UpdateUsers]: the counters of the users that stay. *)
Definition keep_users (users : list string) (m : gmap string loc) : gmap string loc :=
  fold_left (fun new user => match m !! user with Some counter => <[user := counter]> new | None => new end) users ∅.

Definition traffic_UpdateUsers (users : list string) (s : TrafficManager) : TrafficManager :=
  {| tm_global := tm_global s; tm_user := six_map (keep_users users) (tm_user s) |}.

(** [userCounter]: the counters of a user, created when there are none. *)
Definition userCounter (user : string) (s : TrafficManager) (h : Heap) : Six loc * TrafficManager * Heap :=
  let '(r, h) := six_st (fun m h => let '(c, m, h) := loadOrCreateCounter user m h in ((c, m), h)) (tm_user s) h in
  (six_map fst r, {| tm_global := tm_global s; tm_user := six_map snd r |}, h).

Definition add_cell (c : loc) (n : Z) (h : Heap) : Heap := (run_op (OpAdd c n) h).2.

Definition TrackConnection (user : string) (s : TrafficManager) (h : Heap) : Tracked * TrafficManager * Heap :=
  let g := tm_global s in
  let h := add_cell (tcpSessions g) 1 h in
  let '(c, s, h) := userCounter user s h in
  let h := add_cell (tcpSessions c) 1 h in
  ({| tr_read := [uplink g; uplink c]; tr_readPackets := [];
      tr_write := [downlink g; downlink c]; tr_writePackets := [] |}, s, h).

Definition TrackPacketConnection (user : string) (s : TrafficManager) (h : Heap) : Tracked * TrafficManager * Heap :=
  let g := tm_global s in
  let h := add_cell (udpSessions g) 1 h in
  let '(c, s, h) := userCounter user s h in
  let h := add_cell (udpSessions c) 1 h in
  ({| tr_read := [uplink g; uplink c]; tr_readPackets := [uplinkPackets g; uplinkPackets c];
      tr_write := [downlink g; downlink c]; tr_writePackets := [downlinkPackets g; downlinkPackets c] |}, s, h).

Record UserObject : Type := { uo_UserName : string; uo_Password : string; uo_counts : Six Z }.

(** [readUser]: a count stays as it is when the user has no counter. *)
Definition read_count (swap : bool) (name : string) (x : gmap string loc * Z) (h : Heap) : Z * Heap :=
  match x.1 !! name with
  | Some counter => run_op (read_op swap counter) h
  | None => (x.2, h)
  end.

Definition readUser (user : UserObject) (swap : bool) (s : TrafficManager) (h : Heap) : UserObject * Heap :=
  let '(counts, h) := six_st (read_count swap (uo_UserName user)) (six_zip (tm_user s) (uo_counts user)) h in
  ({| uo_UserName := uo_UserName user; uo_Password := uo_Password user; uo_counts := counts |}, h).

Definition ReadUser (user : UserObject) (s : TrafficManager) (h : Heap) : UserObject * Heap := readUser user false s h.

Fixpoint ReadUsers (users : list UserObject) (swap : bool) (s : TrafficManager) (h : Heap) : list UserObject * Heap :=
  match users with
  | [] => ([], h)
  | user :: users =>
      let '(user, h) := readUser user swap s h in
      let '(users, h) := ReadUsers users swap s h in (user :: users, h)
  end.

Definition ReadGlobal (swap : bool) (s : TrafficManager) (h : Heap) : Six Z * Heap :=
  six_st (fun c h => run_op (read_op swap c) h) (tm_global s) h.

(** ** The user manager *)

(** [adapter.ManagedSSMServer]; a server refuses keys it cannot use. *)
Class SSMServer (V : Type) : Type := {
  server_UpdateUsers : list string -> list string -> V -> option error * V }.

(** Servers live in a table under the tag of their inbound: two interfaces may
    manage the same one. *)
Record UserManager : Type := { um_usersMap : gmap string string; um_server : string }.

Abbreviation map_order := (gmap string string -> list (string * string)).

Section users.
Context {V : Type} `{!SSMServer V}.

(** The managers of one interface with the table of servers. *)
Record Endpoint : Type := { ep_traffic : TrafficManager; ep_user : UserManager; ep_servers : gmap string V }.

Definition ep_with_users (m : gmap string string) (p : Endpoint) : Endpoint :=
  {| ep_traffic := ep_traffic p; ep_user := {| um_usersMap := m; um_server := um_server (ep_user p) |}; ep_servers := ep_servers p |}.

Definition call_server (tag : string) (users uPSKs : list string) (servers : gmap string V) : res (option error * gmap string V) :=
  match servers !! tag with
  | Some v => let '(err, v) := server_UpdateUsers users uPSKs v in Ok (err, <[tag := v]> servers)
  | None => Panic "invalid memory address or nil pointer dereference"
  end.

Definition postUpdate (order : map_order) (updated : bool) (p : Endpoint) : res (option error * Endpoint) :=
  let entries := order (um_usersMap (ep_user p)) in
  let* '(err, servers) := call_server (um_server (ep_user p)) (map fst entries) (map snd entries) (ep_servers p) in
  let p := {| ep_traffic := ep_traffic p; ep_user := ep_user p; ep_servers := servers |} in
  match err with
  | Some e => Ok (Some e, p)
  | None =>
      Ok (None, if updated
                then {| ep_traffic := traffic_UpdateUsers (map fst entries) (ep_traffic p); ep_user := ep_user p; ep_servers := servers |}
                else p)
  end.

Definition users_List (order : map_order) (p : Endpoint) : list UserObject :=
  map (fun '(username, password) => {| uo_UserName := username; uo_Password := password; uo_counts := six_const 0 |})
      (order (um_usersMap (ep_user p))).

Definition users_Add (order : map_order) (username password : string) (p : Endpoint) : res (option error * Endpoint) :=
  match um_usersMap (ep_user p) !! username with
  | Some _ => Ok (Some (ErrNew ("user " +:+ username +:+ " already exists")), p)
  | None => postUpdate order true (ep_with_users (<[username := password]> (um_usersMap (ep_user p))) p)
  end.

Definition users_Get (username : string) (p : Endpoint) : option string := um_usersMap (ep_user p) !! username.

Definition users_Update (order : map_order) (username password : string) (p : Endpoint) : res (option error * Endpoint) :=
  postUpdate order true (ep_with_users (<[username := password]> (um_usersMap (ep_user p))) p).

Definition users_Delete (order : map_order) (username : string) (p : Endpoint) : res (option error * Endpoint) :=
  postUpdate order true (ep_with_users (delete username (um_usersMap (ep_user p))) p).

(** ** The handlers of the interface *)

Inductive response : Type :=
  | RespStatus (code : Z)
  (** a status with the text of an error *)
  | RespError (code : Z) (e : error)
  | RespUsers (users : list UserObject)
  | RespUser (user : UserObject)
  | RespStats (global : Six Z) (users : list UserObject).

Definition listUser (order : map_order) (p : Endpoint) : response := RespUsers (users_List order p).

(** The body of a request, decoded. *)
Definition addUser (order : map_order) (body : (string * string) + error) (p : Endpoint) : res (response * Endpoint) :=
  match body with
  | inr e => Ok (RespError 400 e, p)
  | inl (username, password) =>
      let* '(err, p) := users_Add order username password p in
      Ok (match err with Some e => RespError 400 e | None => RespStatus 201 end, p)
  end.

Definition getUser (userName : string) (p : Endpoint) (h : Heap) : response * Heap :=
  if bool_decide (userName = "") then (RespStatus 400, h)
  else match users_Get userName p with
       | None => (RespStatus 404, h)
       | Some uPSK =>
           let '(user, h) := ReadUser {| uo_UserName := userName; uo_Password := uPSK; uo_counts := six_const 0 |} (ep_traffic p) h in
           (RespUser user, h)
       end.

(** Between the check and the change, other requests may change the users:
    [between]. *)
Definition updateUser (order : map_order) (between : Endpoint -> Endpoint) (userName : string) (body : string + error) (p : Endpoint) :
  res (response * Endpoint) :=
  if bool_decide (userName = "") then Ok (RespStatus 400, p)
  else match body with
       | inr e => Ok (RespError 400 e, p)
       | inl password =>
           match users_Get userName p with
           | None => Ok (RespStatus 404, p)
           | Some _ =>
               let* '(err, p) := users_Update order userName password (between p) in
               Ok (match err with Some e => RespError 400 e | None => RespStatus 204 end, p)
           end
       end.

Definition deleteUser (order : map_order) (between : Endpoint -> Endpoint) (userName : string) (p : Endpoint) : res (response * Endpoint) :=
  if bool_decide (userName = "") then Ok (RespStatus 400, p)
  else match users_Get userName p with
       | None => Ok (RespStatus 404, p)
       | Some _ =>
           let* '(err, p) := users_Delete order userName (between p) in
           Ok (match err with Some e => RespError 400 e | None => RespStatus 204 end, p)
       end.

Definition getStats (order : map_order) (clear : string) (p : Endpoint) (h : Heap) : response * Heap :=
  let requireClear := bool_decide (clear = "true") in
  let '(users, h) := ReadUsers (users_List order p) requireClear (ep_traffic p) h in
  let users := map (fun u => {| uo_UserName := uo_UserName u; uo_Password := ""; uo_counts := uo_counts u |}) users in
  let '(global, h) := ReadGlobal requireClear (ep_traffic p) h in
  (RespStats global users, h).

(** ** The service *)

(** What the manager of inbounds has under a tag. *)
Record SsmInbound : Type := { si_Type : string; si_managed : bool }.

Record Service : Type := {
  sv_heap : Heap; sv_traffics : gmap string TrafficManager; sv_users : gmap string UserManager;
  sv_servers : gmap string V;
  (** the tracker of a server: the interface whose traffic manager it is *)
  sv_trackers : gmap string string }.

Fixpoint new_endpoints (get : string -> option SsmInbound) (i : nat) (entries : list (string * string)) (s : Service) : res Service :=
  match entries with
  | [] => Ok s
  | (key, tag) :: entries =>
      match get tag with
      | None => Err (ErrNew ("parse SSM server[" +:+ go_itoa (Z.of_nat i) +:+ "]: inbound " +:+ tag +:+ " not found"))
      | Some inbound =>
          if negb (si_managed inbound) then
            Err (ErrNew ("parse SSM server[" +:+ go_itoa (Z.of_nat i) +:+ "]: inbound/" +:+ si_Type inbound +:+ "[" +:+ tag +:+ "] is not a SSM server"))
          else
            let '(traffic, h) := NewTrafficManager (sv_heap s) in
            new_endpoints get (S i) entries
              {| sv_heap := h; sv_traffics := <[key := traffic]> (sv_traffics s);
                 sv_users := <[key := {| um_usersMap := ∅; um_server := tag |}]> (sv_users s);
                 sv_servers := sv_servers s; sv_trackers := <[tag := key]> (sv_trackers s) |}
      end
  end.

Definition NewSsmService (get : string -> option SsmInbound) (servers : gmap string V) (entries : list (string * string)) : res Service :=
  match entries with
  | [] => Err (ErrNew "missing servers")
  | _ => new_endpoints get 0 entries {| sv_heap := []; sv_traffics := ∅; sv_users := ∅; sv_servers := servers; sv_trackers := ∅ |}
  end.

(** A connection to a managed inbound, counted by the tracker of the inbound. *)
Definition sv_track (tag user : string) (s : Service) : option Tracked * Service :=
  match sv_trackers s !! tag with
  | None => (None, s)
  | Some key =>
      match sv_traffics s !! key with
      | None => (None, s)
      | Some traffic =>
          let '(t, traffic, h) := TrackConnection user traffic (sv_heap s) in
          (Some t, {| sv_heap := h; sv_traffics := <[key := traffic]> (sv_traffics s); sv_users := sv_users s;
                      sv_servers := sv_servers s; sv_trackers := sv_trackers s |})
      end
  end.

(** *** The cache *)

(** [EndpointCache]: maps are lists of entries, and may be missing. *)
Record EndpointCache : Type := {
  ec_global : Six Z; ec_user : Six (option (list (string * Z))); ec_users : option (list (string * string)) }.

Definition SsmCache : Type := option (list (string * option EndpointCache)).

(** [typedAtomicInt64Map]: a new counter per entry, with its value. *)
Fixpoint load_counters (entries : list (string * Z)) (m : gmap string loc) (h : Heap) : gmap string loc * Heap :=
  match entries with
  | [] => (m, h)
  | (name, v) :: entries =>
      let '(c, h) := new_cell h in load_counters entries (<[name := c]> m) (run_op (OpStore c v) h).2
  end.

Definition typedAtomicInt64Map (o : option (list (string * Z))) (h : Heap) : gmap string loc * Heap :=
  match o with Some entries => load_counters entries ∅ h | None => (∅, h) end.

Definition typedMap (o : option (list (string * string))) : gmap string string :=
  match o with Some entries => fold_left (fun m '(k, v) => <[k := v]> m) entries ∅ | None => ∅ end.

Definition store_global (x : loc * Z) (h : Heap) : unit * Heap := (tt, (run_op (OpStore x.1 x.2) h).2).

(** One entry of the cache; the error of the server is ignored. *)
Definition load_endpoint (order : map_order) (key : string) (value : option EndpointCache) (s : Service) : res Service :=
  match sv_traffics s !! key with
  | None => Ok s
  | Some traffic =>
      match value with
      | None => Panic "invalid memory address or nil pointer dereference"
      | Some ec =>
          let '(_, h) := six_st store_global (six_zip (tm_global traffic) (ec_global ec)) (sv_heap s) in
          let '(user, h) := six_st typedAtomicInt64Map (ec_user ec) h in
          let traffic := {| tm_global := tm_global traffic; tm_user := user |} in
          let s := {| sv_heap := h; sv_traffics := <[key := traffic]> (sv_traffics s); sv_users := sv_users s;
                      sv_servers := sv_servers s; sv_trackers := sv_trackers s |} in
          match sv_users s !! key with
          | None => Ok s
          | Some um =>
              let um := {| um_usersMap := typedMap (ec_users ec); um_server := um_server um |} in
              let* '(_, p) := postUpdate order false {| ep_traffic := traffic; ep_user := um; ep_servers := sv_servers s |} in
              Ok {| sv_heap := h; sv_traffics := sv_traffics s; sv_users := <[key := um]> (sv_users s);
                    sv_servers := ep_servers p; sv_trackers := sv_trackers s |}
          end
      end
  end.

Fixpoint load_endpoints (order : map_order) (entries : list (string * option EndpointCache)) (s : Service) : res Service :=
  match entries with
  | [] => Ok s
  | (key, value) :: entries => let* s := load_endpoint order key value s in load_endpoints order entries s
  end.

(** [sortTypedMap] *)
Definition entry_le {A} (x y : string * A) : Prop := string_le x.1 y.1.
#[local] Instance entry_le_dec {A} : RelDecision (@entry_le A).
Proof. intros x y. unfold entry_le. apply _. Defined.
Definition sortTypedMap {A} (l : list (string * A)) : list (string * A) := merge_sort entry_le l.

(** The order of the ranges over the maps of counters and over that of the
    managers. *)
Class RangeOrder : Type := { range {A} : gmap string A -> list (string * A) }.
Class RangeLaw `{RangeOrder} : Prop := { range_entries {A} (m : gmap string A) : range m ≡ₚ map_to_list m }.

Definition encode_counters `{RangeOrder} (h : Heap) (m : gmap string loc) : option (list (string * Z)) :=
  Some (sortTypedMap (omap (fun '(user, counter) => if 0 <? cell h counter then Some (user, cell h counter) else None) (range m))).

Definition encode_users `{RangeOrder} (um : option UserManager) : option (list (string * string)) :=
  Some (sortTypedMap
    match um with
    | Some um => filter (fun e => e.1 <> "" /\ e.2 <> "") (range (um_usersMap um))
    | None => []
    end).

Definition encode_endpoint `{RangeOrder} (s : Service) (tag : string) (traffic : TrafficManager) : EndpointCache :=
  {| ec_global := six_map (cell (sv_heap s)) (tm_global traffic);
     ec_user := six_map (encode_counters (sv_heap s)) (tm_user traffic);
     ec_users := encode_users (sv_users s !! tag) |}.

Definition cache_of `{RangeOrder} (s : Service) : SsmCache :=
  Some (sortTypedMap (map (fun '(tag, traffic) => (tag, Some (encode_endpoint s tag traffic))) (range (sv_traffics s)))).

(** sing's JSON of a cache. *)
Class SsmJson : Type := { json_encode : SsmCache -> list Z + error; json_decode : list Z -> SsmCache + error }.

Definition encodeCache `{RangeOrder, SsmJson} (s : Service) : list Z + error := json_encode (cache_of s).

Definition decodeCache `{SsmJson} (order : map_order) (cacheBinary : list Z) (s : Service) : res Service :=
  match cacheBinary with
  | [] => Ok s
  | _ =>
      match json_decode cacheBinary with
      | inr e => Err e
      | inl None => Ok s
      | inl (Some entries) => load_endpoints order entries s
      end
  end.

(** The file and the bytes saved last. *)
Record CacheDisk : Type := { cd_file : option (list Z); cd_lastSaved : list Z }.

(** [loadCache]; [read_error] is an error other than that there is no file. *)
Definition loadCache `{SsmJson} (order : map_order) (cachePath : string) (read_error : option error) (d : CacheDisk) (s : Service) :
  res (option error * CacheDisk * Service) :=
  if bool_decide (cachePath = "") then Ok (None, d, s)
  else match read_error, cd_file d with
       | Some e, _ => Ok (Some e, d, s)
       | None, None => Ok (None, d, s)
       | None, Some cacheBinary =>
           match decodeCache order cacheBinary s with
           | Err e => Ok (Some e, {| cd_file := None; cd_lastSaved := cd_lastSaved d |}, s)
           | Panic m => Panic m
           | Ok s => Ok (None, {| cd_file := cd_file d; cd_lastSaved := cacheBinary |}, s)
           end
       end.

(** [saveCache] with [writeCache]; [mkdir_error] and [write_error] are what the
    file system says, the second with what is left of the file. *)
Definition saveCache `{RangeOrder, SsmJson} (cachePath : string) (mkdir_error : option error) (write_error : option (error * option (list Z))) (s : Service) (d : CacheDisk) :
  option error * CacheDisk :=
  if bool_decide (cachePath = "") then (None, d)
  else match encodeCache s with
       | inr e => (Some e, d)
       | inl cacheBinary =>
           if bool_decide (cd_lastSaved d = cacheBinary) then (None, d)
           else match mkdir_error, write_error with
                | Some e, _ => (Some e, d)
                | None, Some (e, remains) => (Some e, {| cd_file := remains; cd_lastSaved := cd_lastSaved d |})
                | None, None => (None, {| cd_file := Some cacheBinary; cd_lastSaved := cacheBinary |})
                end
       end.
End users.

Arguments Endpoint V : clear implicits.
Arguments Service V : clear implicits.

(** ** What is counted *)

(** A run of one traffic manager.  Each cell is touched at most once by an event
    other than a list of reads, so that for the sums below an event may count as
    one step. *)
Inductive ssm_event : Type :=
  | EvTrack (user : string)
  | EvTrackPacket (user : string)
  | EvRead (conn : nat) (n : Z)
  | EvWrite (conn : nat) (n : Z)
  | EvReadUsers (names : list string) (swap : bool)
  | EvReadGlobal (swap : bool)
  | EvUpdateUsers (users : list string).

Record Ssm : Type := { ss_tm : TrafficManager; ss_heap : Heap; ss_conns : list (string * Tracked) }.
Record Report : Type := { rp_users : list UserObject; rp_global : option (Six Z) }.

Definition no_report : Report := {| rp_users := []; rp_global := None |}.

Definition fresh_object (name : string) : UserObject := {| uo_UserName := name; uo_Password := ""; uo_counts := six_const 0 |}.

Definition ssm_step `{CounterLib} (ev : ssm_event) (st : Ssm) : Report * Ssm :=
  match ev with
  | EvTrack user =>
      let '(t, tm, h) := TrackConnection user (ss_tm st) (ss_heap st) in
      (no_report, {| ss_tm := tm; ss_heap := h; ss_conns := ss_conns st ++ [(user, t)] |})
  | EvTrackPacket user =>
      let '(t, tm, h) := TrackPacketConnection user (ss_tm st) (ss_heap st) in
      (no_report, {| ss_tm := tm; ss_heap := h; ss_conns := ss_conns st ++ [(user, t)] |})
  | EvRead i n =>
      (no_report, {| ss_tm := ss_tm st; ss_conns := ss_conns st;
                     ss_heap := match ss_conns st !! i with
                                | Some (_, t) => (run_ops (on_read t n) (ss_heap st)).2
                                | None => ss_heap st
                                end |})
  | EvWrite i n =>
      (no_report, {| ss_tm := ss_tm st; ss_conns := ss_conns st;
                     ss_heap := match ss_conns st !! i with
                                | Some (_, t) => (run_ops (on_write t n) (ss_heap st)).2
                                | None => ss_heap st
                                end |})
  | EvReadUsers names swap =>
      let '(users, h) := ReadUsers (map fresh_object names) swap (ss_tm st) (ss_heap st) in
      ({| rp_users := users; rp_global := None |}, {| ss_tm := ss_tm st; ss_heap := h; ss_conns := ss_conns st |})
  | EvReadGlobal swap =>
      let '(g, h) := ReadGlobal swap (ss_tm st) (ss_heap st) in
      ({| rp_users := []; rp_global := Some g |}, {| ss_tm := ss_tm st; ss_heap := h; ss_conns := ss_conns st |})
  | EvUpdateUsers users => (no_report, {| ss_tm := traffic_UpdateUsers users (ss_tm st); ss_heap := ss_heap st; ss_conns := ss_conns st |})
  end.

Definition ssm_new : Ssm :=
  let '(tm, h) := NewTrafficManager [] in {| ss_tm := tm; ss_heap := h; ss_conns := [] |}.

(** The uplink of the server ([None]) or of a user: what an event counts, what it
    reports and clears, and what is left to report. *)
Abbreviation subject := (option string).

Definition subject_of (sel : subject) (user : string) : bool :=
  match sel with None => true | Some u => bool_decide (u = user) end.

Definition counted (sel : subject) (ev : ssm_event) (st : Ssm) : Z :=
  match ev with
  | EvRead i n => match ss_conns st !! i with Some (user, _) => if subject_of sel user then n else 0 | None => 0 end
  | _ => 0
  end.

Definition reported (sel : subject) (ev : ssm_event) (r : Report) : Z :=
  match sel, ev with
  | None, EvReadGlobal true => match rp_global r with Some g => uplink g | None => 0 end
  | Some u, EvReadUsers _ true =>
      sumZ (map (fun o => if bool_decide (uo_UserName o = u) then uplink (uo_counts o) else 0) (rp_users r))
  | _, _ => 0
  end.

Definition uplink_cell (sel : subject) (tm : TrafficManager) : option loc :=
  match sel with None => Some (uplink (tm_global tm)) | Some u => uplink (tm_user tm) !! u end.

Definition left_over (sel : subject) (st : Ssm) : Z :=
  match uplink_cell sel (ss_tm st) with Some c => cell (ss_heap st) c | None => 0 end.

Fixpoint totals `{CounterLib} (sel : subject) (evs : list ssm_event) (st : Ssm) : Z * Z * Ssm :=
  match evs with
  | [] => (0, 0, st)
  | ev :: evs =>
      let '(r, st') := ssm_step ev st in
      let '(c, t, st'') := totals sel evs st' in (counted sel ev st + c, reported sel ev r + t, st'')
  end.

(** The update does not remove the subject. *)
Definition keeps_subject (sel : subject) (ev : ssm_event) : Prop :=
  match sel, ev with Some u, EvUpdateUsers users => u ∈ users | _, _ => True end.

(** ** Facts about the six *)

Definition six_list {A} (x : Six A) : list A :=
  [uplink x; downlink x; uplinkPackets x; downlinkPackets x; tcpSessions x; udpSessions x].

Fixpoint list_st {A B S} (f : A -> S -> B * S) (l : list A) (s : S) : list B * S :=
  match l with
  | [] => ([], s)
  | a :: l => let '(b, s) := f a s in let '(r, s) := list_st f l s in (b :: r, s)
  end.

Lemma six_st_list {A B S} (f : A -> S -> B * S) x s :
  list_st f (six_list x) s = let '(r, s') := six_st f x s in (six_list r, s').
Proof.
  unfold six_st, six_list. cbn [list_st].
  destruct (f (uplink x) s) as [a s1]. destruct (f (downlink x) s1) as [b s2]. destruct (f (uplinkPackets x) s2) as [c s3].
  destruct (f (downlinkPackets x) s3) as [d s4]. destruct (f (tcpSessions x) s4) as [e s5]. by destruct (f (udpSessions x) s5) as [g s6].
Qed.

Lemma six_list_map {A B} (f : A -> B) x : six_list (six_map f x) = map f (six_list x).
Proof. done. Qed.

Lemma six_list_zip {A B} (x : Six A) (y : Six B) : six_list (six_zip x y) = zip (six_list x) (six_list y).
Proof. done. Qed.

Lemma list_st_pres {A B S} (f : A -> S -> B * S) (P : S -> Prop) l s :
  (forall a s, a ∈ l -> P s -> P (f a s).2) -> P s -> P (list_st f l s).2.
Proof.
  revert s. induction l as [|a l IH]; intros s Hf Hs; simpl; [done|].
  pose proof (Hf a s ltac:(left) Hs) as H1. destruct (f a s) as [b s1]. specialize (IH s1 ltac:(intros; apply Hf; [by right|done]) H1).
  by destruct (list_st f l s1).
Qed.

Lemma six_st_pres {A B S} (f : A -> S -> B * S) (P : S -> Prop) x s :
  (forall a s, a ∈ six_list x -> P s -> P (f a s).2) -> P s -> P (six_st f x s).2.
Proof. intros Hf Hs. pose proof (list_st_pres f P (six_list x) s Hf Hs) as H. rewrite six_st_list in H. by destruct (six_st f x s). Qed.

(** The uplink comes first; what holds after it and is kept by the others holds
    at the end. *)
Lemma six_st_uplink {A B S} (f : A -> S -> B * S) x s :
  uplink (six_st f x s).1 = (f (uplink x) s).1 /\
  forall P : S -> Prop, P (f (uplink x) s).2 -> (forall a s, a ∈ tail (six_list x) -> P s -> P (f a s).2) -> P (six_st f x s).2.
Proof.
  pose proof (six_st_list f x s) as E.
  change (list_st f (six_list x) s) with
    (let '(b, s1) := f (uplink x) s in let '(r, s2) := list_st f (tail (six_list x)) s1 in (b :: r, s2)) in E.
  destruct (f (uplink x) s) as [a s1].
  pose proof (fun P => list_st_pres f P (tail (six_list x)) s1) as Hp.
  destruct (list_st f (tail (six_list x)) s1) as [r s2]. destruct (six_st f x s) as [y s3].
  assert (a = uplink y /\ s2 = s3) as [-> ->] by (unfold six_list in E at 1; by injection E). split; [done|].
  intros P H1 H2. by apply (Hp P).
Qed.

(** ** Owners of cells *)

(** Whose counter a cell is: the server's or a user's, and which of the six. *)
Abbreviation owner := (loc -> subject * nat).

Definition owns (own : owner) (h : Heap) (x : subject) (i : nat) (c : loc) : Prop := own c = (x, i) /\ (c < length h)%nat.

Definition tm_ok (own : owner) (tm : TrafficManager) (h : Heap) : Prop :=
  (forall i c, six_list (tm_global tm) !! i = Some c -> owns own h None i c) /\
  (forall i m u c, six_list (tm_user tm) !! i = Some m -> m !! u = Some c -> owns own h (Some u) i c).

(** A connection of a user counts the uplink in the two cells of the server and
    of the user, and nothing else there. *)
Definition conn_ok (own : owner) (sel : subject) (tm : TrafficManager) (h : Heap) (x : string * Tracked) : Prop :=
  exists c, tr_read x.2 = [uplink (tm_global tm); c] /\ owns own h (Some x.1) 0 c /\
    Forall (fun d => (own d).2 <> 0%nat /\ (d < length h)%nat) (tr_readPackets x.2 ++ tr_write x.2 ++ tr_writePackets x.2) /\
    (sel = Some x.1 -> uplink (tm_user tm) !! x.1 = Some c).

Definition ssm_ok (own : owner) (sel : subject) (st : Ssm) : Prop :=
  tm_ok own (ss_tm st) (ss_heap st) /\ Forall (conn_ok own sel (ss_tm st) (ss_heap st)) (ss_conns st).

Lemma owns_ne own h x i c y j d : owns own h x i c -> owns own h y j d -> (x, i) <> (y, j) -> c <> d.
Proof. intros [H1 _] [H2 _] Hne ->. congruence. Qed.

Lemma tm_ok_heap own tm h h' : length h' = length h -> tm_ok own tm h -> tm_ok own tm h'.
Proof. unfold tm_ok, owns. by intros ->. Qed.

Lemma ssm_ok_heap own sel st h' :
  length h' = length (ss_heap st) -> ssm_ok own sel st ->
  ssm_ok own sel {| ss_tm := ss_tm st; ss_heap := h'; ss_conns := ss_conns st |}.
Proof. unfold ssm_ok, tm_ok, conn_ok, owns. simpl. by intros ->. Qed.

Lemma uplink_cell_owned own sel tm h c : tm_ok own tm h -> uplink_cell sel tm = Some c -> owns own h sel 0 c.
Proof.
  intros [Hg Hu]. destruct sel as [u|]; simpl; intros H.
  - by apply (Hu 0%nat (uplink (tm_user tm)) u).
  - simplify_eq. by apply (Hg 0%nat).
Qed.

(** Creating the counters of a user. *)
Lemma create_counters own user k l h :
  (forall i m u c, l !! i = Some m -> m !! u = Some c -> owns own h (Some u) (k + i) c) ->
  let '(r, h') := list_st (fun m h => let '(c, m, h) := loadOrCreateCounter user m h in ((c, m), h)) l h in
  exists own', (forall d, (d < length h)%nat -> own' d = own d) /\ (length h <= length h')%nat /\ (forall d, cell h' d = cell h d) /\
    Forall2 (fun m (x : loc * gmap string loc) =>
      x.2 !! user = Some x.1 /\ (forall u, u <> user -> x.2 !! u = m !! u) /\ (forall c, m !! user = Some c -> x.1 = c) /\
      (m !! user = None -> cell h' x.1 = 0)) l r /\
    (forall i x u c, r !! i = Some x -> x.2 !! u = Some c -> owns own' h' (Some u) (k + i) c).
Proof.
  revert own k h. induction l as [|m l IH]; intros own k h Hl; cbn [list_st].
  { exists own. repeat split; try done; lia. }
  destruct (loadOrCreateCounter user m h) as [[c m'] h1] eqn:E.
  assert (exists own1, (forall d, (d < length h)%nat -> own1 d = own d) /\ (length h <= length h1)%nat /\ (forall d, cell h1 d = cell h d) /\
    m' !! user = Some c /\ (forall u, u <> user -> m' !! u = m !! u) /\ (forall c0, m !! user = Some c0 -> c = c0) /\
    (m !! user = None -> cell h1 c = 0) /\ forall u c0, m' !! u = Some c0 -> owns own1 h1 (Some u) k c0)
    as (own1 & Ho1 & Hlen1 & Hc1 & Hm1 & Hm2 & Hm3 & Hm4 & Hm5).
  { unfold loadOrCreateCounter in E. destruct (m !! user) as [c1|] eqn:Em; simpl in E; simplify_eq.
    - exists own. repeat split_and!; try done; [naive_solver|]. intros u c0 Hu. specialize (Hl 0%nat m' u c0 eq_refl Hu).
      by rewrite Nat.add_0_r in Hl.
    - exists (fun d => if decide (d = length h) then (Some user, k) else own d). rewrite length_app. simpl.
      split_and!; try lia; try done.
      + intros d Hd. rewrite decide_False by lia. done.
      + apply cell_new.
      + apply lookup_insert_eq.
      + intros u Hu. by apply lookup_insert_ne.
      + intros _. rewrite cell_new. unfold cell. by rewrite lookup_ge_None_2.
      + intros u c0. rewrite lookup_insert_Some. unfold owns. rewrite length_app; simpl. intros [[<- <-]|[Hne Hu]].
        * rewrite decide_True by done. split; [done|lia].
        * destruct (Hl 0%nat m u c0 eq_refl Hu) as [H1 H2]. rewrite Nat.add_0_r in H1.
          rewrite decide_False by lia. split; [done|lia]. }
  specialize (IH own1 (S k) h1).
  destruct (list_st _ l h1) as [r h2].
  destruct IH as (own2 & Ho2 & Hlen2 & Hc2 & Hr & Hr2).
  { intros i m1 u c1 Hi Hu. destruct (Hl (S i) m1 u c1 Hi Hu) as [H1 H2].
    split; [|lia]. rewrite Ho1 by done. rewrite H1. f_equal. lia. }
  exists own2. split_and!; [|lia| | |].
  - intros d Hd. by rewrite Ho2, Ho1 by lia.
  - intros d. by rewrite Hc2, Hc1.
  - constructor; [|done]. simpl. split_and!; try done. intros Hn. by rewrite Hc2, Hm4.
  - intros [|i] x u c0 Hi Hu; simpl in Hi; simplify_eq.
    + destruct (Hm5 _ _ Hu) as [H1 H2]. rewrite Nat.add_0_r. split; [|lia]. by rewrite Ho2.
    + rewrite <-Nat.add_succ_comm. by apply (Hr2 i x u c0).
Qed.

Lemma six_list_inj {A} (x y : Six A) : six_list x = six_list y -> x = y.
Proof. destruct x, y. unfold six_list. simpl. by intros [= -> -> -> -> -> ->]. Qed.

Lemma userCounter_spec own user tm h :
  tm_ok own tm h ->
  let '(c, tm', h') := userCounter user tm h in
  exists own', (forall d, (d < length h)%nat -> own' d = own d) /\ (length h <= length h')%nat /\ (forall d, cell h' d = cell h d) /\
    tm_ok own' tm' h' /\ tm_global tm' = tm_global tm /\
    (forall i d, six_list c !! i = Some d -> owns own' h' (Some user) i d) /\
    uplink (tm_user tm') !! user = Some (uplink c) /\
    (forall u, u <> user -> uplink (tm_user tm') !! u = uplink (tm_user tm) !! u) /\
    (forall d, uplink (tm_user tm) !! user = Some d -> uplink c = d) /\
    (uplink (tm_user tm) !! user = None -> cell h' (uplink c) = 0).
Proof.
  intros [Hg Hu]. unfold userCounter. pose proof (create_counters own user 0 (six_list (tm_user tm)) h Hu) as Hc.
  rewrite six_st_list in Hc. destruct (six_st _ (tm_user tm) h) as [r h'].
  destruct Hc as (own' & Ho & Hlen & Hcell & Hr & Hr2). exists own'.
  assert (forall i x, six_list r !! i = Some x -> x.2 !! user = Some x.1) as Hself.
  { intros i x Hi. destruct (Forall2_lookup_r _ _ _ _ _ Hr Hi) as (m & _ & H & _). done. }
  pose proof (Forall2_lookup_r _ _ _ 0%nat (uplink r) Hr eq_refl) as (m & [= <-] & H1 & H2 & H3 & H4).
  split_and!; try done.
  - split; simpl.
    + intros i c Hi. destruct (Hg i c Hi) as [Hi1 Hi2]. split; [by rewrite Ho|lia].
    + intros i m u c Hi Hm. rewrite six_list_map, list_lookup_fmap in Hi.
      destruct (six_list r !! i) as [x|] eqn:Ei; simpl in Hi; simplify_eq. by apply (Hr2 i x u c).
  - intros i d Hi. rewrite six_list_map, list_lookup_fmap in Hi. destruct (six_list r !! i) as [x|] eqn:Ei; simpl in Hi; simplify_eq.
    apply (Hr2 i x user); [done|]. by apply (Hself i).
Qed.

Lemma add_cell_other (own : owner) h x i c y d n : own c = (x, S i) -> own d = (y, 0%nat) -> cell (add_cell c n h) d = cell h d.
Proof. intros Hc Hd. unfold add_cell. rewrite run_op_other; [done|]. intros <-. simpl in *. congruence. Qed.

Lemma add_cell_length c n h : length (add_cell c n h) = length h.
Proof. apply run_op_length. Qed.

Lemma conn_ok_grow own own' sel tm tm' h h' (x : string * Tracked) :
  (forall d, (d < length h)%nat -> own' d = own d) -> (length h <= length h')%nat ->
  tm_global tm' = tm_global tm -> (forall d, sel = Some x.1 -> uplink (tm_user tm) !! x.1 = Some d -> uplink (tm_user tm') !! x.1 = Some d) ->
  conn_ok own sel tm h x -> conn_ok own' sel tm' h' x.
Proof.
  intros Ho Hl Hg Hu (c & Hr & [Hc1 Hc2] & Hn & Hs). exists c. rewrite Hg. split_and!; [done| |  |].
  - split; [by rewrite Ho|lia].
  - eapply Forall_impl; [done|]. simpl. intros d [H1 H2]. rewrite Ho by done. split; [done|lia].
  - auto.
Qed.

(** ** Steps keep the owners and the sums *)

Lemma track_ok own sel st user idx g :
  six_list (tm_global (ss_tm st)) !! S idx = Some g -> ssm_ok own sel st ->
  let '(c, tm, h) := userCounter user (ss_tm st) (add_cell g 1 (ss_heap st)) in
  forall d t, six_list c !! S idx = Some d ->
  tr_read t = [uplink (tm_global (ss_tm st)); uplink c] ->
  Forall (fun e => exists i, six_list (tm_global (ss_tm st)) !! S i = Some e \/ six_list c !! S i = Some e)
    (tr_readPackets t ++ tr_write t ++ tr_writePackets t) ->
  let st' := {| ss_tm := tm; ss_heap := add_cell d 1 h; ss_conns := ss_conns st ++ [(user, t)] |} in
  exists own', ssm_ok own' sel st' /\ left_over sel st' = left_over sel st.
Proof.
  intros Hg [Htm Hconns]. pose proof (proj1 Htm _ _ Hg) as [Hg1 Hg2].
  assert (tm_ok own (ss_tm st) (add_cell g 1 (ss_heap st))) as Htm1 by (eapply tm_ok_heap, Htm; apply add_cell_length).
  pose proof (userCounter_spec own user (ss_tm st) (add_cell g 1 (ss_heap st)) Htm1) as Hc.
  destruct (userCounter user (ss_tm st) _) as [[c tm] h]. rewrite add_cell_length in Hc.
  destruct Hc as (own' & Ho & Hlen & Hcell & Htm' & Hgl & Hown & Hup & Hother & Hsame & Hnew).
  intros d t Hd Hread Hrest st'. pose proof (Hown _ _ Hd) as [Hd1 Hd2].
  exists own'. split; [split|].
  - eapply tm_ok_heap, Htm'. apply add_cell_length.
  - simpl. apply Forall_app. split.
    + eapply Forall_impl; [done|]. intros x. apply conn_ok_grow; try done; [by rewrite add_cell_length|].
      intros e _ He. destruct (decide (x.1 = user)) as [Hx|Hne]; [|by rewrite Hother]. rewrite Hx in *. by rewrite Hup, (Hsame e He).
    + constructor; [|done]. exists (uplink c). rewrite Hgl. split_and!; [done| | |by intros _].
      * destruct (Hown 0%nat (uplink c) eq_refl) as [H1 H2]. split; [done|]. by rewrite add_cell_length.
      * eapply Forall_impl; [done|]. rewrite add_cell_length. intros e [i [He|He]].
        { destruct (proj1 Htm _ _ He) as [H1 H2]. rewrite Ho, H1 by done. split; [done|lia]. }
        { destruct (Hown _ _ He) as [H1 H2]. rewrite H1. split; [done|lia]. }
  - unfold left_over. subst st'. simpl.
    assert (forall e, uplink_cell sel tm = Some e -> cell (add_cell d 1 h) e = cell h e) as Hadd.
    { intros e He. destruct (uplink_cell_owned _ _ _ _ _ Htm' He) as [H1 _]. by eapply add_cell_other. }
    assert (forall e, uplink_cell sel (ss_tm st) = Some e -> cell h e = cell (ss_heap st) e) as Hsub.
    { intros e He. rewrite Hcell. destruct (uplink_cell_owned _ _ _ _ _ Htm He) as [H1 _]. by eapply add_cell_other. }
    destruct sel as [u|]; simpl in *; [|rewrite Hgl in *; by rewrite Hadd, Hsub].
    destruct (decide (u = user)) as [->|Hne].
    + rewrite Hup, Hadd by done. destruct (uplink (tm_user (ss_tm st)) !! user) as [e|] eqn:E; [|by apply Hnew].
      rewrite <-(Hsame e eq_refl) in Hsub |- *. auto.
    + rewrite Hother by done. destruct (uplink (tm_user (ss_tm st)) !! u) as [e|] eqn:E; [|done].
      rewrite Hadd, Hsub; [done|done|]. by rewrite Hother.
Qed.

Lemma track_rest_tcpSessions (g c : Six loc) :
  Forall (fun e => exists i, six_list g !! S i = Some e \/ six_list c !! S i = Some e) ([] ++ [downlink g; downlink c] ++ []).
Proof. repeat constructor; exists 0%nat; auto. Qed.

Lemma track_rest_udpSessions (g c : Six loc) :
  Forall (fun e => exists i, six_list g !! S i = Some e \/ six_list c !! S i = Some e)
    ([uplinkPackets g; uplinkPackets c] ++ [downlink g; downlink c] ++ [downlinkPackets g; downlinkPackets c]).
Proof. repeat constructor; (exists 0%nat; by auto) || (exists 1%nat; by auto) || (exists 2%nat; by auto). Qed.

Lemma adds_other own c x n l :
  own c = (x, 0%nat) -> Forall (fun d => (own d : subject * nat).2 <> 0%nat) l -> sumZ (map (added c) (map (fun d => OpAdd d n) l)) = 0.
Proof.
  intros Hc. induction 1 as [|d l Hd _ IH]; [done|]. unfold sumZ in *. simpl. rewrite bool_decide_false; [lia|]. intros ->. by rewrite Hc in Hd.
Qed.


Definition cell_of (sel : subject) (tm : TrafficManager) (h : Heap) : Z :=
  match uplink_cell sel tm with Some c => cell h c | None => 0 end.

Lemma read_op_length swap c h : length (run_op (read_op swap c) h).2 = length h.
Proof. apply run_op_length. Qed.

Lemma op_cell_read swap c : op_cell (read_op swap c) = c.
Proof. by destruct swap. Qed.

Lemma read_count_length swap name x h : length (read_count swap name x h).2 = length h.
Proof. unfold read_count. destruct (_ !! _); [apply run_op_length|done]. Qed.

Lemma readUser_length o swap tm h : length (readUser o swap tm h).2 = length h.
Proof.
  unfold readUser. pose proof (six_st_pres (read_count swap (uo_UserName o)) (fun h' => length h' = length h)
    (six_zip (tm_user tm) (uo_counts o)) h) as H.
  destruct (six_st _ _ h) as [r h']. apply H; [|done]. intros a s _ <-. apply read_count_length.
Qed.

(** What a read of a user reports of the subject, and what is left. *)
Lemma readUser_sum own tm h sel name swap :
  tm_ok own tm h ->
  let '(o, h') := readUser (fresh_object name) swap tm h in
  uo_UserName o = name /\
  match sel with Some u => if swap && bool_decide (name = u) then uplink (uo_counts o) else 0 | None => 0 end + cell_of sel tm h' =
  cell_of sel tm h.
Proof.
  intros Htm. unfold readUser, fresh_object. simpl. set (x := six_zip (tm_user tm) (six_const 0)).
  pose proof (six_st_uplink (read_count swap name) x h) as [Hr Hp]. destruct (six_st (read_count swap name) x h) as [r h']. simpl in *.
  split; [done|]. rewrite Hr. unfold cell_of. destruct (uplink_cell sel tm) as [c|] eqn:Ec.
  - pose proof (uplink_cell_owned _ _ _ _ _ Htm Ec) as [Hc1 Hc2].
    assert (cell h' c = cell (read_count swap name (uplink x) h).2 c) as ->.
    { apply (Hp (fun h' => cell h' c = _)); [done|]. intros a s Ha <-. unfold read_count.
      destruct (a.1 !! name) as [d|] eqn:Ed; [|done]. rewrite run_op_other; [done|]. rewrite op_cell_read.
      apply list_elem_of_lookup in Ha as [i Hi]. subst x. change (zip (six_list (tm_user tm)) (six_list (six_const 0)) !! S i = Some a) in Hi.
      destruct a as [m z]. apply lookup_zip_Some in Hi as [Hi _]. destruct (proj2 Htm _ _ _ _ Hi Ed) as [Hd1 _]. intros ->. congruence. }
    unfold read_count, x. simpl. destruct (uplink (tm_user tm) !! name) as [d|] eqn:Ed.
    + destruct (decide (d = c)) as [->|Hne].
      * destruct (proj2 Htm 0%nat _ _ _ eq_refl Ed) as [Hd1 _]. rewrite Hc1 in Hd1. injection Hd1 as ->.
        rewrite bool_decide_true by done. destruct swap; simpl; [|done]. rewrite cell_insert_eq by done. lia.
      * rewrite run_op_other by by rewrite op_cell_read. destruct sel as [u|]; [|done]. rewrite bool_decide_false; [by rewrite andb_false_r|].
        intros ->. simpl in Ec. congruence.
    + destruct sel as [u|]; [|done]. rewrite bool_decide_false; [by rewrite andb_false_r|]. intros ->. simpl in Ec. congruence.
  - destruct sel as [u|]; [|done]. case_bool_decide; [subst|by rewrite andb_false_r]. unfold read_count, x. simpl in *. rewrite Ec. by destruct swap.
Qed.

Lemma ReadUsers_sum own tm h sel names swap :
  tm_ok own tm h ->
  let '(users, h') := ReadUsers (map fresh_object names) swap tm h in
  length h' = length h /\
  match sel with
  | Some u => if swap then sumZ (map (fun o => if bool_decide (uo_UserName o = u) then uplink (uo_counts o) else 0) users) else 0
  | None => 0
  end + cell_of sel tm h' = cell_of sel tm h.
Proof.
  revert h. induction names as [|name names IH]; intros h Htm; simpl; [by destruct sel, swap|].
  pose proof (readUser_sum own tm h sel name swap Htm) as H1. pose proof (readUser_length (fresh_object name) swap tm h) as Hlen.
  destruct (readUser (fresh_object name) swap tm h) as [o h1]. simpl in Hlen. specialize (IH h1 (tm_ok_heap _ _ _ _ Hlen Htm)).
  destruct (ReadUsers (map fresh_object names) swap tm h1) as [users h2]. destruct H1 as [Hn H1], IH as [Hl IH]. split; [congruence|].
  destruct sel as [u|]; [|lia]. simpl in H1. unfold sumZ in *. destruct swap; simpl in *; [rewrite Hn|]; lia.
Qed.

Lemma ReadGlobal_sum own tm h sel swap :
  tm_ok own tm h ->
  let '(g, h') := ReadGlobal swap tm h in
  length h' = length h /\
  match sel with None => if swap then uplink g else 0 | Some _ => 0 end + cell_of sel tm h' = cell_of sel tm h.
Proof.
  intros Htm. unfold ReadGlobal. set (f := fun c h => run_op (read_op swap c) h).
  pose proof (six_st_pres f (fun h' => length h' = length h) (tm_global tm) h) as Hlen.
  pose proof (six_st_uplink f (tm_global tm) h) as [Hr Hp]. destruct (six_st f (tm_global tm) h) as [g h']. simpl in *.
  split; [apply Hlen; [|done]; intros a s _ <-; apply run_op_length|]. unfold cell_of. destruct (uplink_cell sel tm) as [c|] eqn:Ec.
  - pose proof (uplink_cell_owned _ _ _ _ _ Htm Ec) as [Hc1 Hc2].
    assert (cell h' c = cell (f (uplink (tm_global tm)) h).2 c) as ->.
    { apply (Hp (fun h' => cell h' c = _)); [done|]. intros a s Ha <-. unfold f. rewrite run_op_other; [done|]. rewrite op_cell_read.
      apply list_elem_of_lookup in Ha as [i Hi]. destruct (proj1 Htm (S i) a Hi) as [Hd1 _]. intros ->. congruence. }
    rewrite Hr. unfold f. destruct sel as [u|]; simpl in Ec.
    + rewrite run_op_other; [done|]. rewrite op_cell_read. destruct (proj1 Htm 0%nat _ eq_refl) as [Hd1 _]. intros Hx. rewrite Hx in Hd1. congruence.
    + simplify_eq. destruct swap; simpl; [|done]. rewrite cell_insert_eq by done. lia.
  - destruct sel; [done|]. by simpl in Ec.
Qed.

Lemma keep_users_lookup users m u : keep_users users m !! u = if decide (u ∈ users) then m !! u else None.
Proof.
  unfold keep_users. enough (forall new, fold_left (fun new user => match m !! user with Some counter => <[user := counter]> new | None => new end) users new !! u =
    if decide (u ∈ users) then from_option Some (new !! u) (m !! u) else new !! u) as ->.
  { case_decide; [|apply lookup_empty]. rewrite lookup_empty. by destruct (m !! u). }
  induction users as [|v users IH]; intros new; [done|]. cbn [fold_left]. rewrite IH. clear IH.
  destruct (decide (u = v)) as [->|Hne].
  - rewrite (decide_True (P := v ∈ v :: users)) by left. destruct (m !! v) as [c|] eqn:E; [|by destruct (decide _)].
    rewrite lookup_insert_eq. by destruct (decide _).
  - assert (match m !! v with Some c => <[v := c]> new | None => new end !! u = new !! u) as ->
      by (destruct (m !! v); [by rewrite lookup_insert_ne|done]).
    destruct (decide (u ∈ users)) as [H|H]; [by rewrite decide_True by by right|].
    rewrite decide_False; [done|]. by intros [?|?]%elem_of_cons.
Qed.

Section laws.
Context `{CounterLaws}.

Lemma conn_adds own sel tm h user t (c : loc) n :
  tm_ok own tm h -> conn_ok own sel tm h (user, t) -> uplink_cell sel tm = Some c ->
  sumZ (map (added c) (on_read t n)) = (if subject_of sel user then n else 0) /\ sumZ (map (added c) (on_write t n)) = 0.
Proof.
  intros Htm (d & Hr & Hd & Hn & Hs) Hc. pose proof (uplink_cell_owned _ _ _ _ _ Htm Hc) as [Hc1 Hc2]. simpl in *.
  apply Forall_app in Hn as [Hn1 [Hn2 Hn3]%Forall_app].
  assert (forall k l, Forall (fun d => (own d).2 <> 0%nat /\ (d < length h)%nat) l -> sumZ (map (added c) (map (fun d => OpAdd d k) l)) = 0) as Hz.
  { intros k l Hl. apply (adds_other own c sel); [done|]. eapply Forall_impl; [done|]. by intros e [? _]. }
  split.
  - rewrite on_read_counts, map_app, sumZ_app, (Hz 1 (tr_readPackets t) Hn1), Z.add_0_r, Hr. unfold sumZ. simpl.
    destruct (proj1 Htm 0%nat _ eq_refl) as [Hg1 _]. destruct Hd as [Hd1 _].
    destruct sel as [u|]; simpl in *.
    + rewrite (bool_decide_false (uplink (tm_global tm) = c)) by (intros Hx; rewrite Hx in Hg1; congruence).
      destruct (decide (u = user)) as [->|Hne].
      * rewrite (bool_decide_true (d = c)), (bool_decide_true (user = user)) by (rewrite (Hs eq_refl) in Hc; congruence || done). lia.
      * rewrite !bool_decide_false; [lia|congruence|]. intros ->. congruence.
    + simplify_eq. rewrite bool_decide_true, bool_decide_false by (done || congruence). lia.
  - rewrite on_write_counts, map_app, sumZ_app, !Hz by done. done.
Qed.

Lemma traffic_ok own sel st i user t n (l : list atomic_op) :
  ssm_ok own sel st -> ss_conns st !! i = Some (user, t) -> l = on_read t n \/ l = on_write t n ->
  let st' := {| ss_tm := ss_tm st; ss_heap := (run_ops l (ss_heap st)).2; ss_conns := ss_conns st |} in
  ssm_ok own sel st' /\
  left_over sel st' mod 2 ^ 64 =
  (left_over sel st + match uplink_cell sel (ss_tm st) with Some c => sumZ (map (added c) l) | None => 0 end) mod 2 ^ 64.
Proof.
  intros Hok Hi Hl st'. split; [apply ssm_ok_heap; [apply run_ops_length|done]|]. destruct Hok as [Htm Hconns].
  unfold left_over, st'. simpl. destruct (uplink_cell sel (ss_tm st)) as [c|] eqn:Ec; [|done].
  apply adds_spec; [by destruct (uplink_cell_owned _ _ _ _ _ Htm Ec)|].
  destruct Hl as [-> | ->]; rewrite ?on_read_counts, ?on_write_counts; apply counted_ops_adds.
Qed.

Lemma users_update_ok own sel st users :
  keeps_subject sel (EvUpdateUsers users) -> ssm_ok own sel st ->
  let st' := {| ss_tm := traffic_UpdateUsers users (ss_tm st); ss_heap := ss_heap st; ss_conns := ss_conns st |} in
  ssm_ok own sel st' /\ left_over sel st' = left_over sel st.
Proof.
  intros Hk [[Hg Hu] Hconns] st'.
  assert (forall u, sel = Some u -> forall m, keep_users users m !! u = m !! u) as Hkeep.
  { intros u -> m. rewrite keep_users_lookup. by rewrite decide_True. }
  split; [split; [split; [done|]|]|].
  - intros i m u c Hi Hm. simpl in Hi. rewrite six_list_map, list_lookup_fmap in Hi.
    destruct (six_list (tm_user (ss_tm st)) !! i) as [m0|] eqn:E; simpl in Hi; simplify_eq.
    rewrite keep_users_lookup in Hm. case_decide; [|done]. by apply (Hu i m0).
  - eapply Forall_impl; [done|]. intros x (c & Hr & Ho & Hn & Hs). exists c. split_and!; try done. simpl. intros Hx. rewrite Hkeep; auto.
  - unfold left_over. destruct sel as [u|]; simpl; [|done]. by rewrite Hkeep.
Qed.

(** One step. *)
Lemma ssm_step_sum own sel ev st :
  keeps_subject sel ev -> ssm_ok own sel st ->
  let '(r, st') := ssm_step ev st in
  (exists own', ssm_ok own' sel st') /\
  (reported sel ev r + left_over sel st') mod 2 ^ 64 = (counted sel ev st + left_over sel st) mod 2 ^ 64.
Proof.
  intros Hk Hok. pose proof Hok as [Htm Hconns]. destruct ev as [user|user|i n|i n|names swap|swap|users]; simpl.
  - pose proof (track_ok own sel st user 3 (tcpSessions (tm_global (ss_tm st))) eq_refl Hok) as Ht.
    unfold TrackConnection. destruct (userCounter user (ss_tm st) _) as [[c tm] h].
    specialize (Ht (tcpSessions c) {| tr_read := [uplink (tm_global (ss_tm st)); uplink c]; tr_readPackets := [];
      tr_write := [downlink (tm_global (ss_tm st)); downlink c]; tr_writePackets := [] |} eq_refl eq_refl (track_rest_tcpSessions _ c)). destruct Ht as (own' & Hok' & Hl). split; [by exists own'|].
    rewrite <-Hl. by destruct sel.
  - pose proof (track_ok own sel st user 4 (udpSessions (tm_global (ss_tm st))) eq_refl Hok) as Ht.
    unfold TrackPacketConnection. destruct (userCounter user (ss_tm st) _) as [[c tm] h].
    specialize (Ht (udpSessions c) {| tr_read := [uplink (tm_global (ss_tm st)); uplink c];
      tr_readPackets := [uplinkPackets (tm_global (ss_tm st)); uplinkPackets c];
      tr_write := [downlink (tm_global (ss_tm st)); downlink c];
      tr_writePackets := [downlinkPackets (tm_global (ss_tm st)); downlinkPackets c] |} eq_refl eq_refl (track_rest_udpSessions _ c)). destruct Ht as (own' & Hok' & Hl). split; [by exists own'|].
    rewrite <-Hl. by destruct sel.
  - destruct (ss_conns st !! i) as [[user t]|] eqn:Ei; [|split; [by exists own; destruct st|by destruct sel]].
    destruct (traffic_ok own sel st i user t n _ Hok Ei (or_introl eq_refl)) as [Hok' Hl]. split; [by exists own|].
    rewrite Forall_lookup in Hconns. pose proof (Hconns _ _ Ei) as Hc.
    assert (reported sel (EvRead i n) no_report = 0) as -> by (by destruct sel). rewrite Z.add_0_l, Hl, Z.add_comm. f_equal. f_equal.
    destruct (uplink_cell sel (ss_tm st)) as [c|] eqn:Ec; [by eapply conn_adds|].
    destruct sel as [u|]; [|done]. simpl. rewrite bool_decide_false; [done|]. intros ->.
    destruct Hc as (c & _ & _ & _ & Hs). simpl in *. rewrite Hs in Ec; done.
  - destruct (ss_conns st !! i) as [[user t]|] eqn:Ei; [|split; [by exists own; destruct st|by destruct sel]].
    destruct (traffic_ok own sel st i user t n _ Hok Ei (or_intror eq_refl)) as [Hok' Hl]. split; [by exists own|].
    rewrite Forall_lookup in Hconns. pose proof (Hconns _ _ Ei) as Hc.
    assert (reported sel (EvWrite i n) no_report = 0) as -> by (by destruct sel). rewrite Z.add_0_l, Hl, Z.add_comm. f_equal. f_equal.
    destruct (uplink_cell sel (ss_tm st)) as [c|] eqn:Ec; [by eapply conn_adds|done].
  - pose proof (ReadUsers_sum own (ss_tm st) (ss_heap st) sel names swap Htm) as Hs.
    destruct (ReadUsers _ swap _ _) as [users h]. destruct Hs as [Hlen Hs]. split; [exists own; by apply ssm_ok_heap|].
    change (left_over sel st) with (cell_of sel (ss_tm st) (ss_heap st)). rewrite <-Hs. unfold left_over, cell_of. simpl.
    destruct sel as [u|]; simpl; [|done]. by destruct swap.
  - pose proof (ReadGlobal_sum own (ss_tm st) (ss_heap st) sel swap Htm) as Hs.
    destruct (ReadGlobal swap _ _) as [g h]. destruct Hs as [Hlen Hs]. split; [exists own; by apply ssm_ok_heap|].
    change (left_over sel st) with (cell_of sel (ss_tm st) (ss_heap st)). rewrite <-Hs. unfold left_over, cell_of. simpl.
    destruct sel as [u|]; simpl; [done|]. by destruct swap.
  - destruct (users_update_ok own sel st users Hk Hok) as [Hok' Hl]. split; [by exists own|]. rewrite <-Hl. by destruct sel.
Qed.

Lemma ssm_new_ok sel : exists own, ssm_ok own sel ssm_new.
Proof.
  exists (fun c => (None, c)). split; [split|constructor].
  - intros i c Hi. unfold owns. do 6 (destruct i as [|i]; [simpl in *; simplify_eq; split; [done|simpl; lia]|]). done.
  - intros i m u c Hi Hm. do 6 (destruct i as [|i]; [simpl in Hi; simplify_eq; by rewrite lookup_empty in Hm|]). done.
Qed.

(** Traffic is counted once: whatever connections, readings with or without clearing and
    changes of the users come in what order, the bytes read for the server, and those read for a
    user who is not removed, are what the clearing readings reported and what is left to report,
    modulo 2^64. *)
Theorem traffic_counted_once sel evs :
  Forall (keeps_subject sel) evs ->
  let '(total, taken, st) := totals sel evs ssm_new in
  (taken + left_over sel st) mod 2 ^ 64 = total mod 2 ^ 64.
Proof.
  intros Hk. destruct (ssm_new_ok sel) as [own Hok].
  assert (left_over sel ssm_new = 0) as Hnone by (by destruct sel).
  enough (let '(total, taken, st) := totals sel evs ssm_new in (taken + left_over sel st) mod 2 ^ 64 = (total + left_over sel ssm_new) mod 2 ^ 64) as Hs
    by (destruct (totals _ _ _) as [[total tk] st]; by rewrite Hs, Hnone, Z.add_0_r).
  clear Hnone. revert own Hok. generalize ssm_new. induction Hk as [|ev evs Hev _ IH]; intros st own Hok; simpl; [done|].
  pose proof (ssm_step_sum own sel ev st Hev Hok) as H1. destruct (ssm_step ev st) as [r st1]. destruct H1 as [[own1 Hok1] H1].
  specialize (IH st1 own1 Hok1). destruct (totals sel evs st1) as [[total tk] st2].
  rewrite <-!Z.add_assoc, <-Zplus_mod_idemp_r, IH, Zplus_mod_idemp_r.
  rewrite Z.add_assoc, (Z.add_comm _ total), <-Z.add_assoc, <-Zplus_mod_idemp_r, H1, Zplus_mod_idemp_r. f_equal. lia.
Qed.
End laws.

(** ** Users *)

(** What a server promises: it uses the users of the last call it accepted. *)
Class SSMServerLaws (V : Type) `{SSMServer V} : Type := {
  server_users : V -> list (string * string);
  server_accepts users uPSKs v v' :
    server_UpdateUsers users uPSKs v = (None, v') -> length users = length uPSKs -> server_users v' = zip users uPSKs;
  server_refuses users uPSKs v v' e : server_UpdateUsers users uPSKs v = (Some e, v') -> server_users v' = server_users v }.

Section users_facts.
Context {V : Type} `{SSMServerLaws V} (order : map_order) (Horder : forall m, order m ≡ₚ map_to_list m).

(** The server of the interface uses the users of the map. *)
Definition in_step (p : Endpoint V) : Prop :=
  exists v, ep_servers p !! um_server (ep_user p) = Some v /\ server_users v ≡ₚ map_to_list (um_usersMap (ep_user p)).

Lemma order_lookup m u w : (u, w) ∈ order m <-> m !! u = Some w.
Proof. rewrite Horder. apply elem_of_map_to_list. Qed.

Lemma order_users m u : u ∈ map fst (order m) <-> is_Some (m !! u).
Proof.
  split.
  - intros ([u' w] & -> & Hin)%list_elem_of_fmap. exists w. by apply order_lookup.
  - intros [w Hw]. apply list_elem_of_fmap. exists (u, w). split; [done|]. by apply order_lookup.
Qed.

Lemma zip_fst_snd {A B} (l : list (A * B)) : zip (map fst l) (map snd l) = l.
Proof. induction l as [|[a b] l IH]; [done|]. simpl. by rewrite IH. Qed.

Lemma postUpdate_spec updated (p : Endpoint V) v :
  ep_servers p !! um_server (ep_user p) = Some v ->
  exists err p', postUpdate order updated p = Ok (err, p') /\ ep_user p' = ep_user p /\
    match err with
    | Some _ => ep_traffic p' = ep_traffic p /\
        exists v', ep_servers p' !! um_server (ep_user p) = Some v' /\ server_users v' = server_users v
    | None => in_step p' /\
        forall i m m', six_list (tm_user (ep_traffic p)) !! i = Some m -> six_list (tm_user (ep_traffic p')) !! i = Some m' ->
          forall u, m' !! u = if updated then m !! u ≫= (fun c => if um_usersMap (ep_user p) !! u then Some c else None) else m !! u
    end.
Proof.
  intros Hv. unfold postUpdate, call_server. rewrite Hv. simpl.
  set (entries := order (um_usersMap (ep_user p))).
  destruct (server_UpdateUsers (map fst entries) (map snd entries) v) as [[e|] v'] eqn:E; simpl; eexists _, _; (split; [done|]); simpl.
  - repeat split_and!; try done. exists v'. rewrite lookup_insert_eq. split; [done|]. by eapply server_refuses.
  - split; [by destruct updated|]. split.
    + exists v'. apply server_accepts in E; [|by rewrite !length_map]. rewrite zip_fst_snd in E. rewrite E.
      destruct updated; simpl; rewrite lookup_insert_eq; (split; [done|]); apply Horder.
    + intros i m m' Hm Hm' u. destruct updated; simpl in Hm'; [|by simplify_eq].
      change (six_list (six_map (keep_users (map fst entries)) (tm_user (ep_traffic p))) !! i = Some m') in Hm'.
      rewrite six_list_map, list_lookup_fmap, Hm in Hm'. simpl in Hm'. simplify_eq. rewrite keep_users_lookup.
      case_decide as Hu; [apply order_users in Hu as [w Hw]; rewrite Hw; by destruct (m !! u)|].
      destruct (um_usersMap (ep_user p) !! u) as [w|] eqn:Ew; [|by destruct (m !! u)].
      destruct Hu. apply order_users. by exists w.
Qed.

Inductive user_request : Type :=
  | ReqAdd (username password : string)
  | ReqUpdate (username password : string)
  | ReqDelete (username : string).

Definition users_request (r : user_request) (p : Endpoint V) : res (option error * Endpoint V) :=
  match r with
  | ReqAdd u w => users_Add order u w p
  | ReqUpdate u w => users_Update order u w p
  | ReqDelete u => users_Delete order u p
  end.

(** The users a request asks for; none when it adds a user there is. *)
Definition users_asked (r : user_request) (m : gmap string string) : option (gmap string string) :=
  match r with
  | ReqAdd u w => match m !! u with Some _ => None | None => Some (<[u := w]> m) end
  | ReqUpdate u w => Some (<[u := w]> m)
  | ReqDelete u => Some (delete u m)
  end.

(** Users and server in step: a request gives the map the users it asks for, whether the
    server accepts them or not.  When it does, the server uses the users of the map again and the
    counters of users that stay are kept, those of others dropped; when it does not, the server
    and the counters stay as they are.  Adding a user there is changes nothing. *)
Theorem users_follow_requests r (p : Endpoint V) v :
  ep_servers p !! um_server (ep_user p) = Some v ->
  exists err p', users_request r p = Ok (err, p') /\
    match users_asked r (um_usersMap (ep_user p)) with
    | None => is_Some err /\ p' = p
    | Some m =>
        um_usersMap (ep_user p') = m /\ um_server (ep_user p') = um_server (ep_user p) /\
        match err with
        | None => in_step p' /\ forall i c c', six_list (tm_user (ep_traffic p)) !! i = Some c -> six_list (tm_user (ep_traffic p')) !! i = Some c' ->
                    forall u, c' !! u = if m !! u then c !! u else None
        | Some _ => ep_traffic p' = ep_traffic p /\
                    exists v', ep_servers p' !! um_server (ep_user p) = Some v' /\ server_users v' = server_users v
        end
    end.
Proof.
  intros Hv.
  assert (forall m, exists err p', postUpdate order true (ep_with_users m p) = Ok (err, p') /\
    um_usersMap (ep_user p') = m /\ um_server (ep_user p') = um_server (ep_user p) /\
    match err with
    | None => in_step p' /\ forall i c c', six_list (tm_user (ep_traffic p)) !! i = Some c -> six_list (tm_user (ep_traffic p')) !! i = Some c' ->
                forall u, c' !! u = if m !! u then c !! u else None
    | Some _ => ep_traffic p' = ep_traffic p /\
                exists v', ep_servers p' !! um_server (ep_user p) = Some v' /\ server_users v' = server_users v
    end) as Hpost.
  { intros m. destruct (postUpdate_spec true (ep_with_users m p) v Hv) as (err & p' & E & Hu & Hrest).
    exists err, p'. rewrite Hu. split_and!; try done. destruct err as [e|]; [done|]. destruct Hrest as [Hs Hc]. split; [done|].
    intros i c c' Hi Hi' u. rewrite (Hc i c c' Hi Hi' u). simpl. destruct (m !! u); by destruct (c !! u). }
  destruct r as [u w|u w|u]; simpl; [|apply Hpost|apply Hpost].
  unfold users_Add. destruct (um_usersMap (ep_user p) !! u) as [w0|]; [|apply Hpost].
  eexists _, p. by split_and!.
Qed.

End users_facts.

(** ** The cache *)

#[local] Instance entry_le_total {A} : Total (@entry_le A).
Proof. intros x y. apply string_le_total. Qed.
#[local] Instance entry_le_trans {A} : Transitive (@entry_le A).
Proof. intros x y z. apply string_le_trans. Qed.

Lemma sortTypedMap_perm {A} (l : list (string * A)) : sortTypedMap l ≡ₚ l.
Proof. apply merge_sort_Permutation. Qed.

(** Sorting makes one list of the entries, whatever order they come in. *)
Lemma sortTypedMap_order {A} (l k : list (string * A)) : l ≡ₚ k -> NoDup l.*1 -> sortTypedMap l = sortTypedMap k.
Proof.
  intros Hlk Hnd. apply (Sorted_unique_strong entry_le).
  - intros x y Hx Hy Hxy Hyx. rewrite sortTypedMap_perm in Hx. rewrite sortTypedMap_perm, <-Hlk in Hy.
    destruct x as [a x], y as [b y]. assert (a = b) as -> by (by apply (anti_symm string_le)). f_equal.
    apply (elem_of_list_to_map_1 (M := gmap string)) in Hx, Hy; [|done|done]. congruence.
  - apply Sorted_merge_sort, _.
  - apply Sorted_merge_sort, _.
  - by rewrite !sortTypedMap_perm.
Qed.

Lemma omap_fst_sublist {A B} (f : string * A -> option (string * B)) l :
  (forall x y, f x = Some y -> y.1 = x.1) -> sublist (omap f l).*1 l.*1.
Proof.
  intros Hf. induction l as [|x l IH]; [done|]. cbn. destruct (f x) as [y|] eqn:E; cbn; [rewrite (Hf _ _ E)|]; by constructor.
Qed.

Lemma range_nodup `{RangeLaw} {A} (m : gmap string A) : NoDup (range m).*1.
Proof. rewrite (range_entries m). apply NoDup_fst_map_to_list. Qed.

Definition counter_entry (h : Heap) : string * loc -> option (string * Z) :=
  fun '(user, counter) => if 0 <? cell h counter then Some (user, cell h counter) else None.

Lemma counter_entry_fst h x y : counter_entry h x = Some y -> y.1 = x.1.
Proof. destruct x as [u c]. simpl. case_match; by intros [= <-]. Qed.

Lemma counters_nodup `{RangeLaw} h m : NoDup (omap (counter_entry h) (range m)).*1.
Proof. eapply sublist_NoDup; [apply (range_nodup m)|]. apply omap_fst_sublist, counter_entry_fst. Qed.

Lemma users_nodup `{RangeLaw} (m : gmap string string) : NoDup (filter (fun e => e.1 <> "" /\ e.2 <> "") (range m)).*1.
Proof. eapply sublist_NoDup; [apply (range_nodup m)|]. apply fmap_sublist, sublist_filter. Qed.

(** The saved bytes are determined: what is saved does not depend on the order in which Go
    walks its maps, so that a save without a change finds the bytes it saved last. *)
Theorem cache_determined {V} {o1 o2 : RangeOrder} {l1 : @RangeLaw o1} {l2 : @RangeLaw o2} (s : Service V) :
  @cache_of V o1 s = @cache_of V o2 s.
Proof.
  assert (forall A (m : gmap string A), @range o1 A m ≡ₚ @range o2 A m) as Hr by (intros; by rewrite !range_entries).
  assert (forall h m, @encode_counters o1 h m = @encode_counters o2 h m) as Hc.
  { intros h m. unfold encode_counters. f_equal. apply sortTypedMap_order; [apply omap_Permutation, Hr|]. apply counters_nodup. }
  assert (forall um, @encode_users o1 um = @encode_users o2 um) as Hu.
  { intros [um|]; [|done]. unfold encode_users. f_equal. apply sortTypedMap_order; [by rewrite Hr|]. apply users_nodup. }
  unfold cache_of. f_equal.
  assert (forall tag traffic, @encode_endpoint V o1 s tag traffic = @encode_endpoint V o2 s tag traffic) as He.
  { intros. unfold encode_endpoint. rewrite Hu. f_equal. unfold six_map. by rewrite !Hc. }
  rewrite (map_ext _ (fun '(tag, traffic) => (tag, Some (@encode_endpoint V o2 s tag traffic)))) by (intros [tag traffic]; by rewrite He).
  apply sortTypedMap_order.
  - by rewrite Hr.
  - rewrite <-list_fmap_compose. rewrite (list_fmap_ext _ fst) by (by intros ? [tag traffic] _). apply range_nodup.
Qed.

(** *** Loading *)

Lemma cell_beyond h d : (length h <= d)%nat -> cell h d = 0.
Proof. intros Hd. unfold cell. by rewrite lookup_ge_None_2. Qed.

Lemma load_counters_spec entries m h :
  NoDup entries.*1 -> (forall u c, m !! u = Some c -> (c < length h)%nat) ->
  let '(m', h') := load_counters entries m h in
  (length h <= length h')%nat /\ (forall d, (d < length h)%nat -> cell h' d = cell h d) /\
  (forall u c, m' !! u = Some c -> (c < length h')%nat /\ (m !! u = Some c \/ (length h <= c)%nat)) /\
  forall u, cell h' <$> m' !! u =
    match (list_to_map entries : gmap string Z) !! u with Some v => Some v | None => cell h <$> m !! u end.
Proof.
  revert m h. induction entries as [|[name v] entries IH]; intros m h Hnd Hm; simpl.
  { split_and!; [lia|done| |done]. intros u c Hu. split; [by eapply Hm|by left]. }
  apply NoDup_cons in Hnd as [Hni Hnd]. set (h1 := <[length h := v]> (h ++ [0])).
  assert (length h1 = S (length h)) as Hlen by (unfold h1; rewrite length_insert, length_app; simpl; lia).
  assert (cell h1 (length h) = v) as Hv by (apply cell_insert_eq; rewrite length_app; simpl; lia).
  assert (forall d, (d < length h)%nat -> cell h1 d = cell h d) as Hd1.
  { intros d Hd. unfold h1. rewrite cell_insert_ne by lia. apply cell_new. }
  specialize (IH (<[name := length h]> m) h1 Hnd). destruct (load_counters entries _ h1) as [m' h'].
  destruct IH as (Hl & Hd & Hc & Hval).
  { intros u c. rewrite lookup_insert_Some. intros [[_ <-]|[_ Hu]]; [lia|]. specialize (Hm _ _ Hu). lia. }
  split_and!; [lia| | |].
  - intros d Hd'. rewrite Hd by lia. by apply Hd1.
  - intros u c Hu. destruct (Hc u c Hu) as [H1 [H2|H2]]; (split; [done|]); [|right; lia].
    apply lookup_insert_Some in H2 as [[_ <-]|[_ H2]]; [right; lia|by left].
  - intros u. rewrite Hval. destruct (decide (u = name)) as [->|Hne].
    + rewrite (not_elem_of_list_to_map_1 entries name Hni), !lookup_insert_eq. simpl. by rewrite Hv.
    + rewrite !lookup_insert_ne by done. destruct (_ !! u); [done|]. destruct (m !! u) as [c|] eqn:E; [|done]. simpl.
      rewrite Hd1; [done|]. by eapply Hm.
Qed.

(** The counters of users of the cache, as they are read. *)
Definition shows_users (h : Heap) (m : gmap string loc) (o : option (list (string * Z))) : Prop :=
  forall u, cell h <$> m !! u = (list_to_map (default [] o) : gmap string Z) !! u.

Definition entries_nodup (o : option (list (string * Z))) : Prop := NoDup (default [] o).*1.

Lemma load_users_spec l h :
  Forall entries_nodup l ->
  let '(r, h') := list_st typedAtomicInt64Map l h in
  (length h <= length h')%nat /\ (forall d, (d < length h)%nat -> cell h' d = cell h d) /\
  Forall2 (fun o m => shows_users h' m o /\ forall u c, m !! u = Some c -> (length h <= c < length h')%nat) l r.
Proof.
  revert h. induction l as [|o l IH]; intros h Hnd; cbn [list_st]; [by split_and!|]. apply Forall_cons in Hnd as [Ho Hnd].
  assert (let '(m, h1) := typedAtomicInt64Map o h in
    (length h <= length h1)%nat /\ (forall d, (d < length h)%nat -> cell h1 d = cell h d) /\
    shows_users h1 m o /\ forall u c, m !! u = Some c -> (length h <= c < length h1)%nat) as H1.
  { unfold typedAtomicInt64Map, shows_users. destruct o as [entries|]; [|by split_and!].
    pose proof (load_counters_spec entries ∅ h Ho) as H. destruct (load_counters entries ∅ h) as [m h1].
    destruct H as (H1 & H2 & H3 & H4); [done|]. split_and!; [done|done| |].
    - intros u. rewrite H4. simpl. by destruct (_ !! u).
    - intros u c Hu. destruct (H3 u c Hu) as [? [?|?]]; [done|lia]. }
  destruct (typedAtomicInt64Map o h) as [m h1]. destruct H1 as (H1 & H2 & H3 & H4). specialize (IH h1 Hnd).
  destruct (list_st typedAtomicInt64Map l h1) as [r h2]. destruct IH as (H5 & H6 & H7). split_and!; [lia| |].
  - intros d Hd. rewrite H6 by lia. by apply H2.
  - constructor.
    + split; [|intros u c Hu; specialize (H4 u c Hu); lia]. intros u. rewrite <-H3. destruct (m !! u) as [c|] eqn:E; [|done]. simpl.
      rewrite H6; [done|]. specialize (H4 u c E). lia.
    + eapply Forall2_impl; [done|]. intros o' m' [H8 H9]. split; [done|]. intros u c Hu. specialize (H9 u c Hu). lia.
Qed.

Lemma store_globals_spec (g : list loc) (v : list Z) h :
  length g = length v -> NoDup g -> Forall (fun c => (c < length h)%nat) g ->
  let h' := (list_st store_global (zip g v) h).2 in
  length h' = length h /\ map (cell h') g = v /\ forall d, d ∉ g -> cell h' d = cell h d.
Proof.
  revert v h. induction g as [|c g IH]; intros [|z v] h Hl Hnd Hg; try done. apply NoDup_cons in Hnd as [Hni Hnd].
  apply Forall_cons in Hg as [Hc Hg]. cbn [zip zip_with list_st store_global fst snd run_op].
  specialize (IH v (<[c := z]> h) ltac:(by injection Hl) Hnd). rewrite length_insert in IH.
  change (zip_with pair g v) with (zip g v).
  destruct (list_st store_global (zip g v) (<[c := z]> h)) as [r h']. simpl in *. destruct (IH Hg) as (H1 & H2 & H3). split_and!; [done| |].
  - rewrite H2. f_equal. rewrite H3 by done. by apply cell_insert_eq.
  - intros d [Hd1 Hd2]%not_elem_of_cons. rewrite H3 by done. by apply cell_insert_ne.
Qed.

Section loading.
Context {V : Type} `{SSMServer V} (order : map_order).

(** A service whose cells of servers lie below [L] and are no two the same. *)
Record service_ok (L : nat) (s : Service V) : Prop := {
  ok_size : (L <= length (sv_heap s))%nat;
  ok_below key t c : sv_traffics s !! key = Some t -> c ∈ six_list (tm_global t) -> (c < L)%nat;
  ok_nodup key t : sv_traffics s !! key = Some t -> NoDup (six_list (tm_global t));
  ok_apart key key' t t' c : sv_traffics s !! key = Some t -> sv_traffics s !! key' = Some t' -> key <> key' ->
    c ∈ six_list (tm_global t) -> c ∉ six_list (tm_global t');
  ok_users key t : sv_traffics s !! key = Some t -> exists um v, sv_users s !! key = Some um /\ sv_servers s !! um_server um = Some v }.

(** What an interface shows is what is in the cache. *)
Definition restored (L : nat) (s : Service V) (key : string) (ec : EndpointCache) : Prop :=
  exists t um, sv_traffics s !! key = Some t /\ sv_users s !! key = Some um /\
    six_map (cell (sv_heap s)) (tm_global t) = ec_global ec /\
    Forall2 (fun o m => shows_users (sv_heap s) m o /\ forall u c, m !! u = Some c -> (L <= c < length (sv_heap s))%nat)
      (six_list (ec_user ec)) (six_list (tm_user t)) /\
    um_usersMap um = typedMap (ec_users ec).

Lemma load_endpoint_spec L s key t ec :
  service_ok L s -> sv_traffics s !! key = Some t -> Forall entries_nodup (six_list (ec_user ec)) ->
  exists s', load_endpoint order key (Some ec) s = Ok s' /\ service_ok L s' /\ restored L s' key ec /\
    dom (sv_traffics s') = dom (sv_traffics s) /\
    forall key' ec', key' <> key -> restored L s key' ec' -> restored L s' key' ec'.
Proof.
  intros Hok Ht Hnd. unfold load_endpoint. rewrite Ht.
  pose proof (store_globals_spec (six_list (tm_global t)) (six_list (ec_global ec)) (sv_heap s) eq_refl (ok_nodup _ _ Hok _ _ Ht)) as Hg.
  rewrite <-six_list_zip, six_st_list in Hg. destruct (six_st store_global _ (sv_heap s)) as [x h1]. simpl in Hg.
  destruct Hg as (Hlen1 & Hval1 & Hother1).
  { apply Forall_forall. intros c Hc. pose proof (ok_below _ _ Hok _ _ _ Ht Hc). pose proof (ok_size _ _ Hok). lia. }
  pose proof (load_users_spec (six_list (ec_user ec)) h1 Hnd) as Hu. rewrite six_st_list in Hu.
  destruct (six_st typedAtomicInt64Map (ec_user ec) h1) as [user h2]. destruct Hu as (Hlen2 & Hkeep2 & Huser).
  pose proof (ok_size _ _ Hok) as HL.
  destruct (ok_users _ _ Hok _ _ Ht) as (um & v & Hum & Hv). cbn [sv_users]. rewrite Hum.
  unfold postUpdate, call_server. cbn [ep_user ep_servers um_server um_usersMap]. cbn [sv_servers]. rewrite Hv. cbn [res_bind].
  set (l := order _). destruct (server_UpdateUsers (map fst l) (map snd l) v) as [err v'].
  set (t' := {| tm_global := tm_global t; tm_user := user |}).
  set (um' := {| um_usersMap := typedMap (ec_users ec); um_server := um_server um |}).
  set (s' := {| sv_heap := h2; sv_traffics := <[key := t']> (sv_traffics s); sv_users := <[key := um']> (sv_users s);
                sv_servers := <[um_server um := v']> (sv_servers s); sv_trackers := sv_trackers s |}).
  exists s'. split; [by destruct err|].
  assert (forall k t1, sv_traffics s' !! k = Some t1 -> exists t0, sv_traffics s !! k = Some t0 /\ tm_global t1 = tm_global t0) as Hback.
  { intros k t1. unfold s'. simpl. rewrite lookup_insert_Some. intros [[<- <-]|[_ Hk]]; [by exists t|by exists t1]. }
  split_and!.
  - split; simpl; [lia| | | |].
    + intros k t1 c Hk Hc. destruct (Hback _ _ Hk) as (t0 & H0 & E). rewrite E in Hc. by eapply ok_below.
    + intros k t1 Hk. destruct (Hback _ _ Hk) as (t0 & H0 & ->). by eapply ok_nodup.
    + intros k k' t1 t1' c Hk Hk' Hne. destruct (Hback _ _ Hk) as (t0 & H0 & ->). destruct (Hback _ _ Hk') as (t0' & H0' & ->).
      by eapply (ok_apart _ _ Hok k k').
    + intros k t1 Hk. destruct (Hback _ _ Hk) as (t0 & H0 & _). destruct (ok_users _ _ Hok _ _ H0) as (um0 & v0 & H1 & H2).
      destruct (decide (k = key)) as [->|Hne]; [exists um', v'; by rewrite !lookup_insert_eq|].
      exists um0. rewrite lookup_insert_ne by done. destruct (decide (um_server um0 = um_server um)) as [->|].
      * exists v'. by rewrite lookup_insert_eq.
      * exists v0. by rewrite lookup_insert_ne.
  - exists t', um'. unfold s'. simpl. rewrite !lookup_insert_eq. split_and!; try done.
    + apply six_list_inj. rewrite six_list_map.
      transitivity (map (cell h1) (six_list (tm_global t))); [|done]. apply map_ext_in. intros c Hc%list_elem_of_In.
      apply Hkeep2. pose proof (ok_below _ _ Hok _ _ _ Ht Hc). lia.
    + eapply Forall2_impl; [done|]. intros o m [H1 H2]. split; [done|]. intros u c Huc. specialize (H2 u c Huc). lia.
  - unfold s'. simpl. apply dom_insert_lookup_L. by exists t.
  - intros k ec' Hne (t1 & um1 & H1 & H2 & H3 & H4 & H5). exists t1, um1. unfold s'. simpl. rewrite !lookup_insert_ne by done. split_and!; try done.
    + rewrite <-H3. apply six_list_inj. rewrite !six_list_map. apply map_ext_in. intros c Hc%list_elem_of_In.
      pose proof (ok_below _ _ Hok _ _ _ H1 Hc). rewrite Hkeep2 by lia. apply Hother1. by apply (ok_apart _ _ Hok k key t1 t).
    + eapply Forall2_impl; [done|]. intros o m [Hs Hc]. split.
      * intros u. rewrite <-Hs. destruct (m !! u) as [c|] eqn:E; [|done]. simpl. specialize (Hc u c E). rewrite Hkeep2 by lia.
        rewrite Hother1; [done|]. intros Hin. pose proof (ok_below _ _ Hok _ _ _ Ht Hin). lia.
      * intros u c E. specialize (Hc u c E). lia.
Qed.

Lemma load_endpoints_spec L entries s :
  service_ok L s -> NoDup entries.*1 ->
  Forall (fun e => is_Some (sv_traffics s !! e.1) /\ exists ec, e.2 = Some ec /\ Forall entries_nodup (six_list (ec_user ec))) entries ->
  exists s', load_endpoints order entries s = Ok s' /\ service_ok L s' /\
    (forall key ec, (key, Some ec) ∈ entries -> restored L s' key ec) /\
    forall key ec, key ∉ entries.*1 -> restored L s key ec -> restored L s' key ec.
Proof.
  revert s. induction entries as [|[key value] entries IH]; intros s Hok Hnd Hall; simpl.
  { exists s. split_and!; try done. intros key ec Hin. by apply not_elem_of_nil in Hin. }
  apply NoDup_cons in Hnd as [Hni Hnd]. apply Forall_cons in Hall as [([t Ht] & ec & E & Hec) Hall]. simpl in Ht, E, Hni. subst value.
  destruct (load_endpoint_spec L s key t ec Hok Ht Hec) as (s1 & -> & Hok1 & Hr1 & Hdom & Hkeep1). simpl.
  destruct (IH s1 Hok1 Hnd) as (s2 & E2 & Hok2 & Hr2 & Hkeep2).
  { eapply Forall_impl; [done|]. intros [k x] [Hk Hx]. split; [|done]. simpl in *. apply elem_of_dom. rewrite Hdom. by apply elem_of_dom. }
  exists s2. split_and!; try done.
  - intros k ec' [[= -> ->]|Hin]%elem_of_cons; [by apply Hkeep2|by apply Hr2].
  - intros k ec' [Hk1 Hk2]%not_elem_of_cons Hr. apply Hkeep2; [done|]. by apply Hkeep1.
Qed.
End loading.

(** *** Saving and loading *)

Lemma encode_counters_nodup `{RangeLaw} h m : entries_nodup (encode_counters h m).
Proof. unfold entries_nodup, encode_counters. simpl. rewrite sortTypedMap_perm. apply counters_nodup. Qed.

Lemma encode_counters_lookup `{RangeLaw} h m u v :
  (list_to_map (default [] (encode_counters h m)) : gmap string Z) !! u = Some v <-> exists c, m !! u = Some c /\ 0 < cell h c /\ v = cell h c.
Proof.
  rewrite <-elem_of_list_to_map by apply encode_counters_nodup. unfold encode_counters. simpl. rewrite sortTypedMap_perm, list_elem_of_omap. split.
  - intros ([u' c] & Hin & Hx). rewrite range_entries, elem_of_map_to_list in Hin. destruct (Z.ltb_spec 0 (cell h c)); simplify_eq. eauto.
  - intros (c & Hu & Hc & ->). exists (u, c). rewrite range_entries, elem_of_map_to_list. split; [done|]. by rewrite (proj2 (Z.ltb_lt _ _)).
Qed.

Lemma shows_saved `{RangeLaw} h0 h m m' u : shows_users h m' (encode_counters h0 m) -> counter_value h m' u = Z.max 0 (counter_value h0 m u).
Proof.
  intros Hs. specialize (Hs u). unfold counter_value. destruct (list_to_map _ !! u) as [v|] eqn:E.
  - apply encode_counters_lookup in E as (c & Hc & Hpos & ->). rewrite Hc. destruct (m' !! u) as [c'|]; simpl in Hs; simplify_eq. lia.
  - destruct (m' !! u) as [c'|]; [done|]. destruct (m !! u) as [c|] eqn:Ec; [|done].
    destruct (decide (0 < cell h0 c)); [|lia]. rewrite (proj2 (encode_counters_lookup h0 m u (cell h0 c))) in E; [done|eauto].
Qed.

Lemma typedMap_lookup l u w : NoDup l.*1 -> typedMap (Some l) !! u = Some w <-> (u, w) ∈ l.
Proof.
  simpl. intros Hnd. enough (forall m : gmap string string, (forall k, k ∈ l.*1 -> m !! k = None) ->
    fold_left (fun m '(k, v) => <[k := v]> m) l m !! u = Some w <-> (u, w) ∈ l \/ m !! u = Some w) as ->.
  { rewrite lookup_empty. naive_solver. }
  { intros; apply lookup_empty. }
  induction l as [|[k v] l IH]; intros m Hm; simpl; [set_solver|]. apply NoDup_cons in Hnd as [Hni Hnd].
  rewrite IH; [|done|].
  - rewrite lookup_insert_Some, elem_of_cons. specialize (Hm k ltac:(left)). split; [|intros [[[= -> ->]|?]|?]; [by right; left|by left|]].
    + intros [?|[[<- <-]|[? ?]]]; auto.
    + right. right. split; [|done]. intros ->. simpl in Hm. congruence.
  - intros k' Hk'. rewrite lookup_insert_ne; [apply Hm; by right|]. intros ->. done.
Qed.

Lemma saved_users `{RangeLaw} um u w :
  typedMap (encode_users um) !! u = Some w <->
  (exists um', um = Some um' /\ um_usersMap um' !! u = Some w) /\ u <> "" /\ w <> "".
Proof.
  unfold encode_users. rewrite typedMap_lookup; rewrite sortTypedMap_perm.
  - destruct um as [um|].
    + rewrite list_elem_of_filter, range_entries, elem_of_map_to_list. simpl. naive_solver.
    + split; [by intros ?%not_elem_of_nil|]. by intros [(? & ? & _) _].
  - destruct um as [um|]; [apply users_nodup|constructor].
Qed.

(** What is read of the bytes written. *)
Class SsmJsonLaws `{SsmJson} : Prop := {
  json_round_trip c bytes : json_encode c = inl bytes -> bytes <> [] /\ json_decode bytes = inl c }.

Section restart.
Context {V : Type} `{SSMServer V, RangeLaw, SsmJsonLaws} (order : map_order).

Lemma new_endpoints_ok get i entries (s s' : Service V) :
  (forall tag inbound, get tag = Some inbound -> si_managed inbound = true -> is_Some (sv_servers s !! tag)) ->
  NoDup entries.*1 -> (forall key, key ∈ entries.*1 -> sv_traffics s !! key = None) ->
  service_ok (length (sv_heap s)) s -> new_endpoints get i entries s = Ok s' -> service_ok (length (sv_heap s')) s'.
Proof.
  revert i s. induction entries as [|[key tag] entries IH]; intros i s Hget Hnd Hfresh Hok; cbn [new_endpoints]; [by intros [= <-]|].
  destruct (get tag) as [inbound|] eqn:Eg; [|done]. destruct (si_managed inbound) eqn:Em; cbn [negb]; [|done].
  apply NoDup_cons in Hnd as [Hni Hnd]. set (n := length (sv_heap s)).
  destruct (NewTrafficManager (sv_heap s)) as [traffic h] eqn:Et.
  assert (six_list (tm_global traffic) = seq n 6 /\ length h = (n + 6)%nat) as [Hcells Hlen].
  { unfold NewTrafficManager, six_st, new_cell in Et. simpl in Et. injection Et as <- <-. unfold six_list. simpl.
    rewrite !length_app. simpl. subst n. split; [repeat (f_equal; try lia)|lia]. }
  apply IH; cbn [sv_heap sv_traffics sv_users sv_servers]; [done|done| |].
  - intros k Hk. rewrite lookup_insert_ne by (intros ->; done). apply Hfresh. by right.
  - split; cbn [sv_heap sv_traffics sv_users sv_servers]; [lia| | | |].
    + intros k t c. rewrite lookup_insert_Some. intros [[<- <-]|[_ Hk]] Hc.
      * rewrite Hcells in Hc. apply list_elem_of_In, in_seq in Hc. lia.
      * pose proof (ok_below _ _ Hok _ _ _ Hk Hc). lia.
    + intros k t. rewrite lookup_insert_Some. intros [[<- <-]|[_ Hk]]; [rewrite Hcells; apply NoDup_ListNoDup, seq_NoDup|by eapply ok_nodup].
    + intros k k' t t' c. rewrite !lookup_insert_Some. intros [[<- <-]|[Hk1 Hk]] [[<- <-]|[Hk1' Hk']] Hne Hc; [done| | |by eapply (ok_apart _ _ Hok k k')].
      * intros Hc'. rewrite Hcells in Hc. apply list_elem_of_In, in_seq in Hc. pose proof (ok_below _ _ Hok _ _ _ Hk' Hc'). lia.
      * intros Hc'. rewrite Hcells in Hc'. apply list_elem_of_In, in_seq in Hc'. pose proof (ok_below _ _ Hok _ _ _ Hk Hc). lia.
    + intros k t. rewrite lookup_insert_Some. intros [[<- <-]|[Hne Hk]].
      * destruct (Hget _ _ Eg Em) as [v Hv]. exists {| um_usersMap := ∅; um_server := tag |}, v. by rewrite lookup_insert_eq.
      * rewrite lookup_insert_ne by done. by eapply ok_users.
Qed.

(** A restart keeps counters and users: a service made from the same options reads what the
    last one saved, and every interface shows the same counters of the server, the same positive
    counters of users, and the users that have a name and a key. *)
Theorem cache_restored get servers entries (s s0 : Service V) bytes :
  NewSsmService get servers entries = Ok s0 -> NoDup entries.*1 ->
  (forall tag inbound, get tag = Some inbound -> si_managed inbound = true -> is_Some (servers !! tag)) ->
  dom (sv_traffics s) ⊆ dom (sv_traffics s0) -> encodeCache s = inl bytes ->
  exists s1, decodeCache order bytes s0 = Ok s1 /\
    forall key t, sv_traffics s !! key = Some t ->
      exists t1 um1, sv_traffics s1 !! key = Some t1 /\ sv_users s1 !! key = Some um1 /\
        six_map (cell (sv_heap s1)) (tm_global t1) = six_map (cell (sv_heap s)) (tm_global t) /\
        (forall i m m1 u, six_list (tm_user t) !! i = Some m -> six_list (tm_user t1) !! i = Some m1 ->
           counter_value (sv_heap s1) m1 u = Z.max 0 (counter_value (sv_heap s) m u)) /\
        forall u w, um_usersMap um1 !! u = Some w <->
          (exists um, sv_users s !! key = Some um /\ um_usersMap um !! u = Some w) /\ u <> "" /\ w <> "".
Proof.
  intros Hnew Hnd Hget Hdom Henc. destruct (json_round_trip _ _ Henc) as [Hne Hdec].
  assert (service_ok (length (sv_heap s0)) s0) as Hok.
  { unfold NewSsmService in Hnew. destruct entries as [|e entries]; [done|]. eapply new_endpoints_ok, Hnew; done. }
  unfold decodeCache. rewrite Hdec. unfold cache_of.
  set (l := sortTypedMap _). assert (l ≡ₚ map (fun '(tag, traffic) => (tag, Some (encode_endpoint s tag traffic))) (range (sv_traffics s))) as Hl
    by apply sortTypedMap_perm.
  assert (l.*1 ≡ₚ (range (sv_traffics s)).*1) as Hkeys.
  { rewrite Hl, <-list_fmap_compose. apply Permutation_refl'. apply list_fmap_ext. by intros _ [tag traffic] _. }
  destruct (load_endpoints_spec order (length (sv_heap s0)) l s0 Hok) as (s1 & E1 & _ & Hr & _).
  { rewrite Hkeys. apply range_nodup. }
  { apply Forall_forall. intros [key x] Hin. rewrite Hl in Hin. apply list_elem_of_fmap in Hin as ([tag traffic] & [= -> ->] & Hin).
    rewrite range_entries, elem_of_map_to_list in Hin. simpl. split; [apply elem_of_dom, Hdom, elem_of_dom; eauto|].
    eexists. split; [done|]. simpl. unfold six_list. simpl. repeat (constructor; [apply encode_counters_nodup|]). constructor. }
  exists s1. split; [by destruct bytes|]. intros key t Ht.
  destruct (Hr key (encode_endpoint s key t)) as (t1 & um1 & Ht1 & Hum1 & Hglobal & Husers & Hmap).
  { rewrite Hl. apply list_elem_of_fmap. exists (key, t). split; [done|]. by rewrite range_entries, elem_of_map_to_list. }
  exists t1, um1. split_and!; try done.
  - intros i m m1 u Hm Hm1. destruct (Forall2_lookup_r _ _ _ _ _ Husers Hm1) as (o & Ho & Hs & _).
    change (six_list (six_map (encode_counters (sv_heap s)) (tm_user t)) !! i = Some o) in Ho. rewrite six_list_map, list_lookup_fmap, Hm in Ho.
    simpl in Ho. simplify_eq. by apply shows_saved.
  - intros u w. rewrite Hmap. apply saved_users.
Qed.
End restart.

(** ** Examples *)

Definition some_events : list ssm_event :=
  [EvTrack "sekai"; EvRead 0 100; EvTrackPacket "sekai"; EvReadUsers ["sekai"] true; EvRead 1 20; EvWrite 0 7;
   EvReadGlobal true; EvUpdateUsers ["sekai"; "other"]; EvRead 0 3].

Lemma traffic_counted_once_witness :
  Forall (keeps_subject (Some "sekai")) some_events /\
  let '(total, taken, st) := totals (Some "sekai") some_events ssm_new in
  (taken + left_over (Some "sekai") st) mod 2 ^ 64 = total mod 2 ^ 64 /\ total = 123.
Proof.
  assert (Forall (keeps_subject (Some "sekai")) some_events) as Hk
    by (repeat (constructor; [try done; vm_compute; apply list_elem_of_In; vm_compute; by left|]); constructor).
  split; [exact Hk|]. pose proof (traffic_counted_once (Some "sekai") some_events Hk) as Ht.
  destruct (totals (Some "sekai") some_events ssm_new) as [[total tk] st] eqn:E. split; [exact Ht|].
  vm_compute in E. by injection E as <- _ _.
Defined.

(** A server that refuses an empty key. *)
#[local] Instance toy_server : SSMServer (list (string * string)) := {|
  server_UpdateUsers users uPSKs v :=
    if bool_decide ("" ∈ uPSKs) then (Some (ErrNew "bad key"), v) else (None, zip users uPSKs) |}.
#[local] Program Instance toy_server_laws : SSMServerLaws (list (string * string)) := {| server_users v := v |}.
Next Obligation. intros users uPSKs v v'. simpl. by case_bool_decide; intros [= <-]. Qed.
Next Obligation. intros users uPSKs v v' e. simpl. by case_bool_decide; intros [= <- <-]. Qed.

Definition in_order {A} (m : gmap string A) : list (string * A) := map_to_list m.

Definition empty_endpoint : Endpoint (list (string * string)) :=
  {| ep_traffic := (NewTrafficManager []).1; ep_user := {| um_usersMap := ∅; um_server := "ss-in" |};
     ep_servers := {[ "ss-in" := [] ]} |}.

Lemma users_follow_requests_witness :
  ep_servers empty_endpoint !! "ss-in" = Some [] /\
  exists err p', users_request in_order (ReqAdd "sekai" "key") empty_endpoint = Ok (err, p') /\
    um_usersMap (ep_user p') = {[ "sekai" := "key" ]}.
Proof.
  assert (ep_servers empty_endpoint !! "ss-in" = Some []) as Hs by (vm_compute; reflexivity). split; [exact Hs|].
  destruct (users_follow_requests in_order (fun m => reflexivity _) (ReqAdd "sekai" "key") empty_endpoint [] Hs) as (err & p' & E & Hm).
  exists err, p'. split; [exact E|]. simpl in Hm. rewrite lookup_empty in Hm. destruct Hm as [Hm _]. rewrite Hm. vm_compute. reflexivity.
Defined.

Definition endpoint_after (r : res (option error * Endpoint (list (string * string)))) : Endpoint (list (string * string)) :=
  match r with Ok (_, p) => p | _ => empty_endpoint end.
Definition error_of (r : res (option error * Endpoint (list (string * string)))) : option error :=
  match r with Ok (e, _) => e | _ => None end.

(** A user whose key the server refuses stays in the map: it cannot be added
    again, and no other user can be added while it is there. *)
Example rejected_user_stays :
  let r1 := users_Add in_order "a" "" empty_endpoint in
  let r2 := users_Add in_order "a" "key" (endpoint_after r1) in
  let r3 := users_Add in_order "b" "key" (endpoint_after r1) in
  error_of r1 = Some (ErrNew "bad key") /\ users_Get "a" (endpoint_after r1) = Some "" /\
  error_of r2 = Some (ErrNew "user a already exists") /\ error_of r3 = Some (ErrNew "bad key").
Proof. vm_compute. auto. Qed.

(** A user deleted while its key is being changed is there again. *)
Example deleted_user_returns :
  let p := endpoint_after (users_Add in_order "a" "key" empty_endpoint) in
  let between p := endpoint_after (users_Delete in_order "a" p) in
  match updateUser in_order between "a" (inl "new") p with
  | Ok (r, p) => (r, users_Get "a" p) = (RespStatus 204, Some "new")
  | _ => False
  end.
Proof. vm_compute. auto. Qed.

(** A connection that was open when its user was deleted is not counted for the
    user who is added again under the name. *)
Example removed_user_not_counted :
  let evs := [EvTrack "a"; EvUpdateUsers []; EvUpdateUsers ["a"]; EvTrack "a"; EvRead 0 100; EvRead 1 1; EvReadUsers ["a"] true] in
  let '(total, taken, _) := totals (Some "a") evs ssm_new in (total, taken) = (101, 1).
Proof. vm_compute. reflexivity. Qed.

Definition toy_inbounds (tag : string) : option SsmInbound :=
  if bool_decide (tag = "ss-in") then Some {| si_Type := "shadowsocks"; si_managed := true |} else None.
Definition toy_servers : gmap string (list (string * string)) := {[ "ss-in" := [] ]}.

(** Of two interfaces to one inbound only the second counts. *)
Example one_inbound_two_interfaces :
  match NewSsmService toy_inbounds toy_servers [("/one", "ss-in"); ("/two", "ss-in")] with
  | Ok s => let s := (sv_track "ss-in" "a" s).2 in
            (fun t => cell (sv_heap s) (tcpSessions (tm_global t))) <$> [sv_traffics s !! "/one"; sv_traffics s !! "/two"] ≫= option_list = [0; 1]
  | _ => False
  end.
Proof. vm_compute. reflexivity. Qed.

Example no_such_inbound :
  NewSsmService toy_inbounds toy_servers [("/one", "ss-in"); ("/two", "tr-in")] = Err (ErrNew "parse SSM server[1]: inbound tr-in not found").
Proof. vm_compute. reflexivity. Qed.

#[local] Instance six_eq_dec {A} `{EqDecision A} : EqDecision (Six A).
Proof. solve_decision. Defined.
#[local] Instance cache_eq_dec : EqDecision EndpointCache.
Proof. solve_decision. Defined.

#[local] Instance cachefile_eq_dec : EqDecision SsmCache.
Proof. unfold SsmCache. apply _. Defined.

(** A form for one cache, enough for an example. *)
Definition one_form (c : SsmCache) : SsmJson :=
  {| json_encode c' := if bool_decide (c' = c) then inl [123; 125] else inr ErrInvalid;
     json_decode bytes := if bool_decide (bytes = [123; 125]) then inl c else inr ErrInvalid |}.
Lemma one_form_laws c : @SsmJsonLaws (one_form c).
Proof. split. intros c' bytes. simpl. case_bool_decide; [|done]. intros [= <-]. by rewrite H. Qed.

(** An entry of the cache that is null ends the program. *)
Example null_endpoint_panics :
  match NewSsmService toy_inbounds toy_servers [("/one", "ss-in")] with
  | Ok s => @decodeCache _ _ (one_form (Some [("/one", None)])) in_order [123; 125] s =
            Panic "invalid memory address or nil pointer dereference"
  | _ => False
  end.
Proof. vm_compute. reflexivity. Qed.

#[local] Instance map_range : RangeOrder := {| range A m := map_to_list m |}.
#[local] Instance map_range_law : RangeLaw.
Proof. by split. Qed.

Definition started_service : Service (list (string * string)) :=
  match NewSsmService toy_inbounds toy_servers [("/one", "ss-in")] with
  | Ok s => s
  | _ => {| sv_heap := []; sv_traffics := ∅; sv_users := ∅; sv_servers := ∅; sv_trackers := ∅ |}
  end.
Definition used_service : Service (list (string * string)) := (sv_track "ss-in" "a" started_service).2.
#[local] Instance used_form : SsmJson := one_form (cache_of used_service).
#[local] Instance used_form_laws : SsmJsonLaws.
Proof. apply one_form_laws. Qed.

Lemma cache_restored_witness :
  NewSsmService toy_inbounds toy_servers [("/one", "ss-in")] = Ok started_service /\ encodeCache used_service = inl [123; 125] /\
  exists s1, decodeCache in_order [123; 125] started_service = Ok s1.
Proof.
  assert (NewSsmService toy_inbounds toy_servers [("/one", "ss-in")] = Ok started_service) as Hnew by reflexivity.
  assert (encodeCache used_service = inl [123; 125]) as Henc by (vm_compute; reflexivity).
  split; [exact Hnew|]. split; [exact Henc|].
  destruct (cache_restored in_order toy_inbounds toy_servers [("/one", "ss-in")] used_service started_service [123; 125] Hnew) as (s1 & E & _).
  - simpl. constructor; [apply not_elem_of_nil|constructor].
  - intros tag inbound. unfold toy_inbounds. case_bool_decide as Et; [|done]. intros _ _. subst. by exists [].
  - vm_compute. intros x Hx. exact Hx.
  - exact Henc.
  - by exists s1.
Defined.
