(* ===== verification/V2RayStats.v ===== *)
(** * Statistics of the V2Ray interface

    experimental/v2rayapi/stats.go: counters by name, created when a connection
    that counts into them is routed, read and cleared by requests. *)

From stdpp Require Import base list sets gmap strings.
From Stdlib Require Import ZArith Lia.
From S2P Require Import Prelude GoStd External Counters.

Open Scope Z_scope.
Open Scope box_scope.

Record StatsOptions : Type := { so_Enabled : bool; so_Inbounds : list string; so_Outbounds : list string; so_Users : list string }.

(** [StatsService]; the heap of counters is apart. *)
Record StatsService : Type := {
  ss_inbounds : gset string; ss_outbounds : gset string; ss_users : gset string; ss_counters : gmap string loc }.

Definition NewStatsService (options : StatsOptions) : option StatsService :=
  if negb (so_Enabled options) then None
  else Some {| ss_inbounds := list_to_set (so_Inbounds options); ss_outbounds := list_to_set (so_Outbounds options);
               ss_users := list_to_set (so_Users options); ss_counters := ∅ |}.

Definition uplink_name (kind name : string) : string := kind +:+ ">>>" +:+ name +:+ ">>>traffic>>>uplink".
Definition downlink_name (kind name : string) : string := kind +:+ ">>>" +:+ name +:+ ">>>traffic>>>downlink".

(** The two counters of one name, when it counts. *)
Definition count_for (counts : bool) (kind name : string) (x : list loc * list loc) (m : gmap string loc) (h : Heap) :
  list loc * list loc * gmap string loc * Heap :=
  if counts then
    let '(r, m, h) := loadOrCreateCounter (uplink_name kind name) m h in
    let '(w, m, h) := loadOrCreateCounter (downlink_name kind name) m h in
    (x.1 ++ [r], x.2 ++ [w], m, h)
  else (x.1, x.2, m, h).

Definition counts_in (name : string) (names : gset string) : bool := negb (bool_decide (name = "")) && bool_decide (name ∈ names).

(** [RoutedConnection], and [RoutedPacketConnection], which counts no packets:
    none when the connection is not wrapped. *)
Definition RoutedConnection (inbound user outbound : string) (s : StatsService) (h : Heap) : option Tracked * StatsService * Heap :=
  let countInbound := counts_in inbound (ss_inbounds s) in
  let countOutbound := counts_in outbound (ss_outbounds s) in
  let countUser := counts_in user (ss_users s) in
  if negb countInbound && negb countOutbound && negb countUser then (None, s, h)
  else
    let '(r, w, m, h) := count_for countInbound "inbound" inbound ([], []) (ss_counters s) h in
    let '(r, w, m, h) := count_for countOutbound "outbound" outbound (r, w) m h in
    let '(r, w, m, h) := count_for countUser "user" user (r, w) m h in
    (Some {| tr_read := r; tr_readPackets := []; tr_write := w; tr_writePackets := [] |},
     {| ss_inbounds := ss_inbounds s; ss_outbounds := ss_outbounds s; ss_users := ss_users s; ss_counters := m |}, h).

Record Stat : Type := { stat_Name : string; stat_Value : Z }.

Definition GetStats (name : string) (reset : bool) (s : StatsService) (h : Heap) : res Stat * Heap :=
  match ss_counters s !! name with
  | None => (Err (ErrNew (name +:+ " not found.")), h)
  | Some counter => let '(value, h) := run_op (read_op reset counter) h in (Ok {| stat_Name := name; stat_Value := value |}, h)
  end.

(** A counter is listed once for each pattern that matches its name. *)
Fixpoint read_matches (name : string) (counter : loc) (reset : bool) (matches : list bool) (h : Heap) : list Stat * Heap :=
  match matches with
  | [] => ([], h)
  | true :: matches =>
      let '(value, h) := run_op (read_op reset counter) h in
      let '(l, h) := read_matches name counter reset matches h in ({| stat_Name := name; stat_Value := value |} :: l, h)
  | false :: matches => read_matches name counter reset matches h
  end.

Fixpoint read_counters (matches : string -> list bool) (reset : bool) (entries : list (string * loc)) (h : Heap) : list Stat * Heap :=
  match entries with
  | [] => ([], h)
  | (name, counter) :: entries =>
      let '(l, h) := read_matches name counter reset (matches name) h in
      let '(k, h) := read_counters matches reset entries h in (l ++ k, h)
  end.

Section query.
Context `{External}.

Fixpoint compile_patterns (patterns : list string) : res (list Regexp) :=
  match patterns with
  | [] => Ok []
  | pattern :: patterns => let* matcher := regexp_Compile pattern in let* l := compile_patterns patterns in Ok (matcher :: l)
  end.

(** [QueryStats]; [order] is that of the range over the counters. *)
Definition QueryStats (order : gmap string loc -> list (string * loc)) (patterns : list string) (regexp reset : bool) (s : StatsService) (h : Heap) :
  res (list Stat) * Heap :=
  let entries := order (ss_counters s) in
  match patterns with
  | [] => let '(l, h) := read_counters (fun _ => [true]) reset entries h in (Ok l, h)
  | _ =>
      if regexp then
        match compile_patterns patterns with
        | Err e => (Err e, h)
        | Panic m => (Panic m, h)
        | Ok matchers => let '(l, h) := read_counters (fun name => map (fun m => MatchString m name) matchers) reset entries h in (Ok l, h)
        end
      else let '(l, h) := read_counters (fun name => map (strings_Contains name) patterns) reset entries h in (Ok l, h)
  end.
End query.

(** ** What is counted *)

(** The names a connection counts into. *)
Definition route_names (name : string -> string -> string) (s : StatsService) (inbound user outbound : string) : list string :=
  (if counts_in inbound (ss_inbounds s) then [name "inbound" inbound] else []) ++
  (if counts_in outbound (ss_outbounds s) then [name "outbound" outbound] else []) ++
  (if counts_in user (ss_users s) then [name "user" user] else []).

Inductive stats_event : Type :=
  | EvRoute (inbound user outbound : string)
  | EvConnRead (conn : nat) (n : Z)
  | EvConnWrite (conn : nat) (n : Z)
  | EvGet (name : string) (reset : bool)
  | EvQuery (order : gmap string loc -> list (string * loc)) (patterns : list string) (regexp reset : bool).

(** A connection is kept with the names its reads and writes go to. *)
Record StatsConn : Type := { sc_reads : list string; sc_writes : list string; sc_tracked : Tracked }.
Record StatsState : Type := { vs_service : StatsService; vs_heap : Heap; vs_conns : list StatsConn }.

Definition values_of (r : res (list Stat)) : list Stat := match r with Ok l => l | _ => [] end.

Section run.
Context `{External, CounterLib}.

(** One event: the statistics it reports and clears, and the state. *)
Definition stats_step (ev : stats_event) (st : StatsState) : list Stat * StatsState :=
  let s := vs_service st in
  let h := vs_heap st in
  match ev with
  | EvRoute inbound user outbound =>
      let '(t, s', h) := RoutedConnection inbound user outbound s h in
      ([], {| vs_service := s'; vs_heap := h;
              vs_conns := vs_conns st ++
                match t with
                | Some t => [{| sc_reads := route_names uplink_name s inbound user outbound;
                                sc_writes := route_names downlink_name s inbound user outbound; sc_tracked := t |}]
                | None => []
                end |})
  | EvConnRead i n =>
      ([], {| vs_service := s; vs_conns := vs_conns st;
              vs_heap := match vs_conns st !! i with Some c => (run_ops (on_read (sc_tracked c) n) h).2 | None => h end |})
  | EvConnWrite i n =>
      ([], {| vs_service := s; vs_conns := vs_conns st;
              vs_heap := match vs_conns st !! i with Some c => (run_ops (on_write (sc_tracked c) n) h).2 | None => h end |})
  | EvGet name reset =>
      let '(r, h) := GetStats name reset s h in
      (if reset then match r with Ok v => [v] | _ => [] end else [], {| vs_service := s; vs_heap := h; vs_conns := vs_conns st |})
  | EvQuery order patterns regexp reset =>
      let '(r, h) := QueryStats order patterns regexp reset s h in
      (if reset then values_of r else [], {| vs_service := s; vs_heap := h; vs_conns := vs_conns st |})
  end.

Definition times (name : string) (l : list string) : Z := Z.of_nat (length (filter (fun x => x = name) l)).

(** The bytes an event counts for a name. *)
Definition stats_counted (name : string) (ev : stats_event) (st : StatsState) : Z :=
  match ev with
  | EvConnRead i n => match vs_conns st !! i with Some c => n * times name (sc_reads c) | None => 0 end
  | EvConnWrite i n => match vs_conns st !! i with Some c => n * times name (sc_writes c) | None => 0 end
  | _ => 0
  end.

Definition sum_for (name : string) (l : list Stat) : Z :=
  sumZ (map (fun v => if bool_decide (stat_Name v = name) then stat_Value v else 0) l).

Fixpoint stats_totals (name : string) (evs : list stats_event) (st : StatsState) : Z * Z * StatsState :=
  match evs with
  | [] => (0, 0, st)
  | ev :: evs =>
      let '(l, st') := stats_step ev st in
      let '(c, t, st'') := stats_totals name evs st' in (stats_counted name ev st + c, sum_for name l + t, st'')
  end.

Definition stats_value (name : string) (st : StatsState) : Z := counter_value (vs_heap st) (ss_counters (vs_service st)) name.

(** The counters are of one name each, and connections hold those of their names. *)
Definition holds (m : gmap string loc) (name : string) (c : loc) : Prop := m !! name = Some c.

Definition stats_ok (st : StatsState) : Prop :=
  counters_ok (ss_counters (vs_service st)) (vs_heap st) /\
  Forall (fun c => Forall2 (holds (ss_counters (vs_service st))) (sc_reads c) (tr_read (sc_tracked c)) /\
                   Forall2 (holds (ss_counters (vs_service st))) (sc_writes c) (tr_write (sc_tracked c)) /\
                   tr_readPackets (sc_tracked c) = [] /\ tr_writePackets (sc_tracked c) = []) (vs_conns st).

Lemma holds_mono (m m' : gmap string loc) l k : m ⊆ m' -> Forall2 (holds m) l k -> Forall2 (holds m') l k.
Proof. intros Hm Hl. eapply Forall2_impl; [exact Hl|]. intros a c Ha. by eapply lookup_weaken. Qed.

Lemma count_for_ok counts kind name r w nr nw m h :
  counters_ok m h -> Forall2 (holds m) nr r -> Forall2 (holds m) nw w ->
  let '(r', w', m', h') := count_for counts kind name (r, w) m h in
  counters_ok m' h' /\ m ⊆ m' /\ (forall a, counter_value h' m' a = counter_value h m a) /\
  Forall2 (holds m') (nr ++ if counts then [uplink_name kind name] else []) r' /\
  Forall2 (holds m') (nw ++ if counts then [downlink_name kind name] else []) w'.
Proof.
  intros Hok Hr Hw. unfold count_for. destruct counts; simpl; [|by rewrite !app_nil_r].
  pose proof (loadOrCreate_ok (uplink_name kind name) m h Hok) as H1. destruct (loadOrCreateCounter _ m h) as [[c m1] h1].
  destruct H1 as (Hok1 & Hm1 & Hc1 & Hv1).
  pose proof (loadOrCreate_ok (downlink_name kind name) m1 h1 Hok1) as H2. destruct (loadOrCreateCounter _ m1 h1) as [[d m2] h2].
  destruct H2 as (Hok2 & Hm2 & Hc2 & Hv2). split_and!; [done|by trans m1|by intros a; rewrite Hv2| |].
  - apply Forall2_app; [|repeat constructor; by eapply lookup_weaken]. eapply holds_mono; [|done]. by trans m1.
  - apply Forall2_app; [|by repeat constructor]. eapply holds_mono; [|done]. by trans m1.
Qed.

Lemma route_ok inbound user outbound st :
  stats_ok st -> let '(l, st') := stats_step (EvRoute inbound user outbound) st in
  stats_ok st' /\ l = [] /\ forall name, stats_value name st' = stats_value name st.
Proof.
  intros [Hok Hconns]. simpl. unfold RoutedConnection, route_names.
  set (ci := counts_in inbound _). set (co := counts_in outbound _). set (cu := counts_in user _).
  destruct (negb ci && negb co && negb cu); [rewrite app_nil_r; by destruct st|].
  pose proof (count_for_ok ci "inbound" inbound [] [] [] [] _ _ Hok ltac:(constructor) ltac:(constructor)) as H1.
  destruct (count_for ci "inbound" inbound _ _ _) as [[[r1 w1] m1] h1]. destruct H1 as (Hok1 & Hm1 & Hv1 & Hr1 & Hw1).
  pose proof (count_for_ok co "outbound" outbound _ _ _ _ _ _ Hok1 Hr1 Hw1) as H2.
  destruct (count_for co "outbound" outbound _ _ _) as [[[r2 w2] m2] h2]. destruct H2 as (Hok2 & Hm2 & Hv2 & Hr2 & Hw2).
  pose proof (count_for_ok cu "user" user _ _ _ _ _ _ Hok2 Hr2 Hw2) as H3.
  destruct (count_for cu "user" user _ _ _) as [[[r3 w3] m3] h3]. destruct H3 as (Hok3 & Hm3 & Hv3 & Hr3 & Hw3).
  rewrite <-!app_assoc in Hr3, Hw3.
  split; [|split; [done|intros name; unfold stats_value; simpl; by rewrite Hv3, Hv2, Hv1]].
  split; [done|]. simpl. apply Forall_app. split; [|constructor; [simpl; split_and!; done|constructor]].
  eapply Forall_impl; [exact Hconns|]. intros c (Ha & Hb & Hc & Hd). assert (ss_counters (vs_service st) ⊆ m3) by (trans m1; [done|by trans m2]).
  split_and!; try done; by eapply holds_mono.
Qed.

(** What adding to the cells of names adds to the counter of one name. *)
Lemma adds_times (m : gmap string loc) h name c names (cells : list loc) n :
  counters_ok m h -> m !! name = Some c -> Forall2 (holds m) names cells ->
  sumZ (map (added c) (map (fun d => OpAdd d n) cells)) = n * times name names.
Proof.
  intros [_ Hinj] Hc. rewrite added_map. intros Hl. f_equal. unfold times. f_equal. induction Hl as [|a d names cells Ha _ IH]; [done|].
  rewrite !filter_cons. destruct (decide (d = c)) as [->|Hne].
  - rewrite decide_True by (by eapply Hinj). simpl. by rewrite IH.
  - rewrite decide_False; [done|]. intros ->. unfold holds in Ha. congruence.
Qed.

Lemma times_absent (m : gmap string loc) name names (cells : list loc) : m !! name = None -> Forall2 (holds m) names cells -> times name names = 0.
Proof.
  intros Hn Hl. unfold times. replace (filter _ names) with (@nil string); [done|]. symmetry. induction Hl as [|a d names cells Ha _ IH]; [done|].
  rewrite filter_cons, decide_False; [done|]. intros ->. unfold holds in Ha. congruence.
Qed.

Lemma traffic_value st names (cells : list loc) n (l : list atomic_op) name :
  stats_ok st -> l ≡ₚ map (fun d => OpAdd d n) cells -> Forall2 (holds (ss_counters (vs_service st))) names cells ->
  counter_value (run_ops l (vs_heap st)).2 (ss_counters (vs_service st)) name mod 2 ^ 64 = (n * times name names + stats_value name st) mod 2 ^ 64.
Proof.
  intros [Hok _] Hl Hc. unfold stats_value, counter_value. destruct (ss_counters (vs_service st) !! name) as [c|] eqn:Ec.
  - rewrite adds_spec; [|by apply (proj1 Hok name)|rewrite Hl; apply Forall_map, Forall_forall; simpl; eauto].
    rewrite Hl, (adds_times _ _ _ _ _ _ _ Hok Ec Hc). f_equal. lia.
  - by rewrite (times_absent _ _ _ _ Ec Hc), Z.mul_0_r.
Qed.

Lemma stats_ok_heap st h : length h = length (vs_heap st) -> stats_ok st ->
  stats_ok {| vs_service := vs_service st; vs_heap := h; vs_conns := vs_conns st |}.
Proof. unfold stats_ok, counters_ok. simpl. by intros ->. Qed.

(** One read with its clearing. *)
Lemma read_value m h a c name swap :
  counters_ok m h -> m !! a = Some c ->
  let '(v, h') := run_op (read_op swap c) h in
  length h' = length h /\ (if swap then if bool_decide (a = name) then v else 0 else 0) + counter_value h' m name = counter_value h m name.
Proof.
  intros [Hlt Hinj] Ha. pose proof (run_op_length (read_op swap c) h) as Hlen. unfold counter_value.
  destruct (run_op (read_op swap c) h) as [v h'] eqn:E. split; [done|]. destruct swap; simpl in E; simplify_eq; [|done].
  case_bool_decide as Hn.
  - subst. rewrite Ha. rewrite cell_insert_eq by (by eapply Hlt). lia.
  - destruct (m !! name) as [d|] eqn:Ed; [|done]. rewrite cell_insert_ne; [done|]. intros ->. apply Hn. by eapply Hinj.
Qed.

Lemma read_matches_value m h a c name reset matches :
  counters_ok m h -> m !! a = Some c ->
  let '(l, h') := read_matches a c reset matches h in
  length h' = length h /\ (if reset then sum_for name l else 0) + counter_value h' m name = counter_value h m name.
Proof.
  intros Hok Ha. revert h Hok. induction matches as [|[|] matches IH]; intros h Hok; simpl; [by destruct reset| |by apply IH].
  pose proof (read_value m h a c name reset Hok Ha) as H1. destruct (run_op (read_op reset c) h) as [v h1]. destruct H1 as [Hl1 H1].
  assert (counters_ok m h1) as Hok1 by (unfold counters_ok in *; by rewrite Hl1). specialize (IH h1 Hok1).
  destruct (read_matches a c reset matches h1) as [l h2]. destruct IH as [Hl2 IH]. split; [congruence|].
  unfold sum_for, sumZ in *. destruct reset; simpl; lia.
Qed.

Lemma sum_for_app name l k : sum_for name (l ++ k) = sum_for name l + sum_for name k.
Proof. unfold sum_for. rewrite map_app. apply sumZ_app. Qed.

Lemma read_counters_value m h name matches reset entries :
  counters_ok m h -> (forall a c, (a, c) ∈ entries -> m !! a = Some c) ->
  let '(l, h') := read_counters matches reset entries h in
  length h' = length h /\ (if reset then sum_for name l else 0) + counter_value h' m name = counter_value h m name.
Proof.
  revert h. induction entries as [|[a c] entries IH]; intros h Hok Hin; simpl; [by destruct reset|].
  pose proof (read_matches_value m h a c name reset (matches a) Hok (Hin a c ltac:(left))) as H1.
  destruct (read_matches a c reset (matches a) h) as [l h1]. destruct H1 as [Hl1 H1].
  assert (counters_ok m h1) as Hok1 by (unfold counters_ok in *; by rewrite Hl1).
  specialize (IH h1 Hok1 ltac:(intros; apply Hin; by right)). destruct (read_counters matches reset entries h1) as [k h2].
  destruct IH as [Hl2 IH]. split; [congruence|]. rewrite sum_for_app. destruct reset; lia.
Qed.

(** The range of a query is over the counters. *)
Definition query_in_range (ev : stats_event) : Prop :=
  match ev with EvQuery order _ _ _ => forall m, order m ≡ₚ map_to_list m | _ => True end.

Lemma stats_step_sum `{!CounterLaws} name ev st :
  query_in_range ev -> stats_ok st ->
  let '(l, st') := stats_step ev st in
  stats_ok st' /\ (sum_for name l + stats_value name st') mod 2 ^ 64 = (stats_counted name ev st + stats_value name st) mod 2 ^ 64.
Proof.
  intros Hq Hok. pose proof Hok as [Hc Hconns]. destruct ev as [inbound user outbound|i n|i n|a reset|order patterns regexp reset].
  - pose proof (route_ok inbound user outbound st Hok) as Hr. destruct (stats_step _ st) as [l st']. destruct Hr as (Hs1 & -> & Hs2).
    split; [done|]. by rewrite Hs2.
  - simpl. destruct (vs_conns st !! i) as [c|] eqn:Ei; [|by destruct st]. rewrite Forall_lookup in Hconns.
    destruct (Hconns _ _ Ei) as (Hr & _ & Hp & _). split; [apply stats_ok_heap; [apply run_ops_length|done]|].
    apply (traffic_value st _ (tr_read (sc_tracked c))); [done| |done]. rewrite on_read_counts, Hp. simpl. by rewrite app_nil_r.
  - simpl. destruct (vs_conns st !! i) as [c|] eqn:Ei; [|by destruct st]. rewrite Forall_lookup in Hconns.
    destruct (Hconns _ _ Ei) as (_ & Hw & _ & Hp). split; [apply stats_ok_heap; [apply run_ops_length|done]|].
    apply (traffic_value st _ (tr_write (sc_tracked c))); [done| |done]. rewrite on_write_counts, Hp. simpl. by rewrite app_nil_r.
  - simpl. unfold GetStats. destruct (ss_counters (vs_service st) !! a) as [c|] eqn:Ea; [|by destruct st, reset].
    pose proof (read_value _ _ a c name reset Hc Ea) as Hr. destruct (run_op (read_op reset c) (vs_heap st)) as [v h]. destruct Hr as [Hl Hr].
    split; [by apply stats_ok_heap|]. unfold stats_value. simpl. rewrite <-Hr. f_equal. destruct reset; simpl; [|done].
    unfold sum_for, sumZ. simpl. lia.
  - simpl. assert (exists r h, QueryStats order patterns regexp reset (vs_service st) (vs_heap st) = (r, h) /\
      length h = length (vs_heap st) /\ (if reset then sum_for name (values_of r) else 0) + counter_value h (ss_counters (vs_service st)) name = stats_value name st) as (r & h & E & Hl & Hr).
    { assert (forall matches, let '(l, h') := read_counters matches reset (order (ss_counters (vs_service st))) (vs_heap st) in
        length h' = length (vs_heap st) /\ (if reset then sum_for name l else 0) + counter_value h' (ss_counters (vs_service st)) name = stats_value name st) as Hall.
      { intros matches. apply read_counters_value; [done|]. intros a c Hin. rewrite (Hq (ss_counters (vs_service st))) in Hin. by apply elem_of_map_to_list. }
      unfold QueryStats. destruct patterns as [|p patterns].
      - specialize (Hall (fun _ => [true])). destruct (read_counters _ _ _ _) as [l h]. by eexists _, _.
      - destruct regexp.
        + destruct (compile_patterns (p :: patterns)) as [matchers|e|e]; [|eexists _, _; by destruct reset|eexists _, _; by destruct reset].
          specialize (Hall (fun name => map (fun m => MatchString m name) matchers)). destruct (read_counters _ _ _ _) as [l h]. by eexists _, _.
        + specialize (Hall (fun name => map (strings_Contains name) (p :: patterns))). destruct (read_counters _ _ _ _) as [l h]. by eexists _, _. }
    rewrite E. split; [by apply stats_ok_heap|]. unfold stats_value at 1. simpl. rewrite <-Hr. f_equal. by destruct reset.
Qed.

Definition stats_start (s : StatsService) : StatsState := {| vs_service := s; vs_heap := []; vs_conns := [] |}.

(** Statistics are counted once: whatever connections are routed and whatever requests come in
    what order, the bytes of the connections that count for a name are what the clearing requests
    reported under the name and what the counter still says, modulo 2^64. *)
Theorem stats_counted_once `{!CounterLaws} options s name evs :
  NewStatsService options = Some s -> Forall query_in_range evs ->
  let '(total, taken, st) := stats_totals name evs (stats_start s) in
  (taken + stats_value name st) mod 2 ^ 64 = total mod 2 ^ 64.
Proof.
  intros Hs Hev. assert (ss_counters s = ∅) as Hempty by (unfold NewStatsService in Hs; case_match; by simplify_eq).
  assert (stats_ok (stats_start s)) as Hok.
  { split; [|constructor]. simpl. rewrite Hempty. split; intros *; by rewrite lookup_empty. }
  assert (stats_value name (stats_start s) = 0) as Hzero by (unfold stats_value, counter_value; simpl; by rewrite Hempty, lookup_empty).
  enough (let '(total, taken, st) := stats_totals name evs (stats_start s) in
    (taken + stats_value name st) mod 2 ^ 64 = (total + stats_value name (stats_start s)) mod 2 ^ 64) as Hsum
    by (destruct (stats_totals _ _ _) as [[total tk] st]; by rewrite Hsum, Hzero, Z.add_0_r).
  clear Hs Hempty Hzero. revert Hok. generalize (stats_start s). induction Hev as [|ev evs Hq _ IH]; intros st Hok; simpl; [done|].
  pose proof (stats_step_sum name ev st Hq Hok) as Hs1. destruct (stats_step ev st) as [l st1]. destruct Hs1 as [Hok1 Hs1].
  specialize (IH st1 Hok1). destruct (stats_totals name evs st1) as [[total tk] st2].
  rewrite <-!Z.add_assoc, <-Zplus_mod_idemp_r, IH, Zplus_mod_idemp_r.
  rewrite Z.add_assoc, (Z.add_comm _ total), <-Z.add_assoc, <-Zplus_mod_idemp_r, Hs1, Zplus_mod_idemp_r. f_equal. lia.
Qed.
End run.

(** ** Examples *)

Definition some_stats : StatsService :=
  {| ss_inbounds := {[ "in" ]}; ss_outbounds := ∅; ss_users := {[ "sekai" ]}; ss_counters := ∅ |}.
Definition some_stats_events : list stats_event :=
  [EvRoute "in" "sekai" "out"; EvConnRead 0 100; EvGet (uplink_name "user" "sekai") true; EvConnRead 0 5; EvConnWrite 0 7].

Lemma stats_counted_once_witness :
  NewStatsService {| so_Enabled := true; so_Inbounds := ["in"]; so_Outbounds := []; so_Users := ["sekai"] |} = Some some_stats /\
  let '(total, taken, st) := @stats_totals concrete_external counter_conn (uplink_name "user" "sekai") some_stats_events (stats_start some_stats) in
  (taken + stats_value (uplink_name "user" "sekai") st) mod 2 ^ 64 = total mod 2 ^ 64.
Proof.
  assert (NewStatsService {| so_Enabled := true; so_Inbounds := ["in"]; so_Outbounds := []; so_Users := ["sekai"] |} = Some some_stats) as Hs
    by (vm_compute; reflexivity).
  split; [exact Hs|]. apply (@stats_counted_once concrete_external counter_conn counter_conn_laws _ some_stats _ some_stats_events Hs).
  repeat constructor.
Defined.

(** A connection from an inbound and of a user that are both counted adds to four
    counters. *)
Example route_of_some_stats :
  let '(t, s, _) := RoutedConnection "in" "sekai" "out" some_stats [] in
  (tr_read <$> t, tr_write <$> t, size (ss_counters s)) = (Some [0; 2]%nat, Some [1; 3]%nat, 4%nat).
Proof. vm_compute. reflexivity. Qed.

(** Two patterns that match one name list it twice, and the second entry of a
    clearing query says nothing was counted. *)
Example matched_twice :
  (read_counters (fun name => map (strings_Contains name) ["user"; "uplink"]) true [(uplink_name "user" "sekai", 0%nat)] [42]).1 =
  [{| stat_Name := uplink_name "user" "sekai"; stat_Value := 42 |}; {| stat_Name := uplink_name "user" "sekai"; stat_Value := 0 |}].
Proof. vm_compute. reflexivity. Qed.
