(* ===== verification/ClashApi.v ===== *)
(** * The Clash interface

    experimental/clashapi: the connections it tracks and their totals
    (trafficontrol), the mode, authentication, proxies and the delay tests of
    groups.  Rendering of JSON, web sockets and the download of the user interface
    are not modelled; a handler is the status it answers with and what it does. *)

From stdpp Require Import base list sets gmap strings.
From Stdlib Require Import ZArith Lia Ascii.
From S2P Require Import Prelude GoStd External Adapter Counters HealthCheck Groups.

Open Scope Z_scope.
Open Scope box_scope.

(** ** Trackers *)

(** [TrackerMetadata]; a rule is what its [String] and its action's say. *)
Record TrackerMetadata : Type := {
  tk_ID : Z; tk_Metadata : InboundContext; tk_CreatedAt : Z; tk_ClosedAt : Z; tk_Upload : loc; tk_Download : loc;
  tk_Chain : list string; tk_Rule : option (string * string); tk_Outbound : string; tk_OutboundType : string }.

(** The fields of [MarshalJSON] that are put together. *)
Definition tracker_inbound (t : TrackerMetadata) : string :=
  let m := tk_Metadata t in
  if bool_decide (Inbound m <> "") then InboundType m +:+ "/" +:+ Inbound m else InboundType m.

Definition tracker_host (t : TrackerMetadata) : string :=
  let m := tk_Metadata t in if bool_decide (Domain m <> "") then Domain m else sa_Fqdn (Destination m).

Definition tracker_processPath (t : TrackerMetadata) : string :=
  match ProcessInfo_ (tk_Metadata t) with
  | None => ""
  | Some p =>
      let path := if bool_decide (ProcessPath p <> "") then ProcessPath p else PackageName p in
      if bool_decide (path = "") then if UserId p =? -1 then "" else go_itoa (UserId p)
      else if bool_decide (UserName p <> "") then path +:+ " (" +:+ UserName p +:+ ")"
      else if UserId p =? -1 then path
      else path +:+ " (" +:+ go_itoa (UserId p) +:+ ")"
  end.

Definition tracker_rule (t : TrackerMetadata) : string :=
  match tk_Rule t with Some (rule, action) => rule +:+ " => " +:+ action | None => "final" end.

(** *** The manager *)

(** A tracker is its metadata, the connection it wraps and whether it is for
    packets. *)
Record Tracker : Type := { tr_metadata : TrackerMetadata; tr_upstream : nat; tr_packets : bool }.

(** [TrackerManager]: the cells of the totals, the open connections by identity and the
    closed ones, the latest last. *)
Record TrackerManager : Type := {
  mg_uploadTotal : loc; mg_downloadTotal : loc; mg_connections : gmap Z Tracker; mg_closedConnections : list TrackerMetadata }.

Definition NewTrackerManager (h : Heap) : TrackerManager * Heap :=
  let '(u, h) := new_cell h in
  let '(d, h) := new_cell h in
  ({| mg_uploadTotal := u; mg_downloadTotal := d; mg_connections := ∅; mg_closedConnections := [] |}, h).

Definition Join (c : Tracker) (m : TrackerManager) : TrackerManager :=
  {| mg_uploadTotal := mg_uploadTotal m; mg_downloadTotal := mg_downloadTotal m;
     mg_connections := <[tk_ID (tr_metadata c) := c]> (mg_connections m); mg_closedConnections := mg_closedConnections m |}.

Definition with_ClosedAt (now : Z) (t : TrackerMetadata) : TrackerMetadata :=
  {| tk_ID := tk_ID t; tk_Metadata := tk_Metadata t; tk_CreatedAt := tk_CreatedAt t; tk_ClosedAt := now; tk_Upload := tk_Upload t;
     tk_Download := tk_Download t; tk_Chain := tk_Chain t; tk_Rule := tk_Rule t; tk_Outbound := tk_Outbound t;
     tk_OutboundType := tk_OutboundType t |}.

(** How many closed connections are kept. *)
Definition max_closed : nat := 1000.

Definition Leave (now : Z) (c : Tracker) (m : TrackerManager) : TrackerManager :=
  match mg_connections m !! tk_ID (tr_metadata c) with
  | None => m
  | Some _ =>
      let closed := mg_closedConnections m in
      let closed := if (max_closed <=? length closed)%nat then tail closed else closed in
      {| mg_uploadTotal := mg_uploadTotal m; mg_downloadTotal := mg_downloadTotal m;
         mg_connections := delete (tk_ID (tr_metadata c)) (mg_connections m);
         mg_closedConnections := closed ++ [with_ClosedAt now (tr_metadata c)] |}
  end.

(** [Close] of a tracker: it leaves, and its connection is closed. *)
Definition Tracker_Close (now : Z) (c : Tracker) (m : TrackerManager) : TrackerManager * nat := (Leave now c m, tr_upstream c).

Definition Total (m : TrackerManager) (h : Heap) : Z * Z := (cell h (mg_uploadTotal m), cell h (mg_downloadTotal m)).

Definition ResetStatistic (m : TrackerManager) (h : Heap) : Heap :=
  (run_ops [OpStore (mg_uploadTotal m) 0; OpStore (mg_downloadTotal m) 0] h).2.

(** The range over the open connections goes in some order. *)
Abbreviation conn_order := (gmap Z Tracker -> list (Z * Tracker)).

Definition Connections (order : conn_order) (m : TrackerManager) : list TrackerMetadata :=
  map (fun e => tr_metadata e.2) (order (mg_connections m)).

Definition Connection (id : Z) (m : TrackerManager) : option Tracker := mg_connections m !! id.

Definition TypeDNS : string := "dns".

(** [Snapshot], the totals and the connections. *)
Definition Snapshot (order : conn_order) (m : TrackerManager) (h : Heap) : Z * Z * list Tracker :=
  (cell h (mg_uploadTotal m), cell h (mg_downloadTotal m),
   filter (fun c => tk_OutboundType (tr_metadata c) <> TypeDNS) (map snd (order (mg_connections m)))).

(** *** New trackers *)

(** An outbound as the manager of outbounds has it: [Now] of a group. *)
Record OutboundInfo : Type := { oi_Tag : string; oi_Type : string; oi_Now : option string }.

(** The loop along the groups: none when it goes on. *)
Fixpoint chain_loop (fuel : nat) (manager : string -> option OutboundInfo) (next : string) (chain : list string) (outbound outboundType : string) :
  option (list string * string * string) :=
  match fuel with
  | O => None
  | S fuel =>
      match manager next with
      | None => Some (chain, outbound, outboundType)
      | Some detour =>
          let chain := chain ++ [next] in
          match oi_Now detour with
          | None => Some (chain, oi_Tag detour, oi_Type detour)
          | Some next => chain_loop fuel manager next chain (oi_Tag detour) (oi_Type detour)
          end
      end
  end.

(** [NewTCPTracker] and [NewUDPTracker]: [upstream] is the connection, whose
    reads go to its own upload and the total. *)
Definition NewTracker (packets : bool) (fuel : nat) (id now : Z) (upstream : nat) (metadata : InboundContext)
    (manager : string -> option OutboundInfo) (default_tag : string) (matchRule : option (string * string)) (matchOutbound : option string)
    (m : TrackerManager) (h : Heap) : option (Tracker * Tracked * TrackerManager * Heap) :=
  match chain_loop fuel manager (default default_tag matchOutbound) [] "" "" with
  | None => None
  | Some (chain, outbound, outboundType) =>
      let '(upload, h) := new_cell h in
      let '(download, h) := new_cell h in
      let t := {| tr_metadata := {| tk_ID := id; tk_Metadata := metadata; tk_CreatedAt := now; tk_ClosedAt := 0; tk_Upload := upload;
                                    tk_Download := download; tk_Chain := rev chain; tk_Rule := matchRule; tk_Outbound := outbound;
                                    tk_OutboundType := outboundType |};
                  tr_upstream := upstream; tr_packets := packets |} in
      Some (t, {| tr_read := [upload; mg_uploadTotal m]; tr_readPackets := []; tr_write := [download; mg_downloadTotal m]; tr_writePackets := [] |},
            Join t m, h)
  end.

(** *** Requests about connections *)

Fixpoint close_trackers (now : Z) (l : list Tracker) (m : TrackerManager) : TrackerManager * list nat :=
  match l with
  | [] => (m, [])
  | c :: l =>
      let '(m, closed) := Tracker_Close now c m in
      let '(m, rest) := close_trackers now l m in (m, closed :: rest)
  end.

(** [closeConnection] and [closeAllConnections]: the connections they close; the
    second also resets the network. *)
Definition closeConnection (order : conn_order) (now id : Z) (m : TrackerManager) (h : Heap) : TrackerManager * list nat :=
  close_trackers now (take 1 (filter (fun c => tk_ID (tr_metadata c) = id) (Snapshot order m h).2)) m.

Definition closeAllConnections (order : conn_order) (now : Z) (m : TrackerManager) (h : Heap) : TrackerManager * list nat :=
  close_trackers now (Snapshot order m h).2 m.

(** ** The server *)

Record Server : Type := { cs_mode : string; cs_modeList : list string; cs_hook : option Hook }.

(** [NewServer], the mode and its list, and the options that are refused. *)
Definition NewServer (modeList : list string) (DefaultMode : string) (deprecated : bool) : res Server :=
  let defaultMode := if bool_decide (DefaultMode <> "") then DefaultMode else "Rule" in
  let modeList := if bool_decide (defaultMode ∈ modeList) then modeList else defaultMode :: modeList in
  if deprecated then
    Err (ErrNew "cache_file and related fields in Clash API is deprecated in sing-box 1.8.0, use experimental.cache_file instead.")
  else Ok {| cs_mode := defaultMode; cs_modeList := modeList; cs_hook := None |}.

Section modes.
Context (unicode_fold : string -> string -> bool).

Definition same_mode (a b : string) : bool := strings_EqualFold unicode_fold a b.

(** [Start] in its first stage: the mode of the cache file, when there is one. *)
Definition Server_Start (LoadMode : option string) (s : Server) : Server :=
  match LoadMode with
  | None => s
  | Some mode =>
      if existsb (fun it => same_mode it mode) (cs_modeList s) then {| cs_mode := mode; cs_modeList := cs_modeList s; cs_hook := cs_hook s |}
      else s
  end.

(** The first that matches, or the empty string. *)
Definition common_Find (f : string -> bool) (l : list string) : string := default "" (head (filter (fun x => f x) l)).

(** [SetMode]: whether the DNS cache is cleared, and the mode the cache file
    stores. *)
Definition SetMode (newMode : string) (s : Server) : bool * Server :=
  let newMode := if bool_decide (newMode ∈ cs_modeList s) then newMode else common_Find (fun it => same_mode it newMode) (cs_modeList s) in
  if negb (bool_decide (newMode ∈ cs_modeList s)) then (false, s)
  else if bool_decide (newMode = cs_mode s) then (false, s)
  else
    (true, {| cs_mode := newMode; cs_modeList := cs_modeList s;
              cs_hook := (fun h => if (hook_waiting h <? hook_capacity h)%nat
                                   then {| hook_capacity := hook_capacity h; hook_waiting := S (hook_waiting h) |} else h) <$> cs_hook s |}).

(** [patchConfigs], after the body was decoded. *)
Definition patchConfigs (body : string + error) (s : Server) : Z * Server :=
  match body with
  | inr _ => (400, s)
  | inl mode => (204, if bool_decide (mode <> "") then (SetMode mode s).2 else s)
  end.
End modes.

(** [strings.Cut] at a space. *)
Fixpoint cut_space (s : string) : string * option string :=
  match s with
  | EmptyString => ("", None)
  | String.String c s =>
      if ascii_dec c " "%char then ("", Some s)
      else let '(before, after) := cut_space s in (String.String c before, after)
  end.

(** [authentication]: whether the request is let through. *)
Definition authentication (serverSecret upgrade query_token authorization : string) : bool :=
  if bool_decide (serverSecret = "") then true
  else if bool_decide (upgrade = "websocket") && bool_decide (query_token <> "") then bool_decide (query_token = serverSecret)
  else
    let '(bearer, token) := cut_space authorization in
    let hasInvalidHeader := bool_decide (bearer <> "Bearer") in
    let hasInvalidSecret := match token with None => true | Some token => bool_decide (token <> serverSecret) end in
    negb (hasInvalidHeader || hasInvalidSecret).

(** The level [getConfigs] shows. *)
Definition shown_level (level : Z) : Z := if level =? 6 then 5 else if level <? 2 then 2 else level.

(** [traffic]: what each second reports. *)
Fixpoint traffic_reports (last : Z * Z) (totals : list (Z * Z)) : list (Z * Z) :=
  match totals with
  | [] => []
  | t :: totals => (to_int64 (t.1 - last.1), to_int64 (t.2 - last.2)) :: traffic_reports t totals
  end.

(** ** Proxies *)

(** An insertion of [sort.SliceStable] with the order that puts the default
    first. *)
Fixpoint insert_default (defaultTag x : string) (l : list string) : list string :=
  match l with
  | [] => [x]
  | y :: l => if bool_decide (x = defaultTag) then x :: y :: l else y :: insert_default defaultTag x l
  end.

(** The order of [allProxies]: outbounds and endpoints that have a tag. *)
Definition all_proxies (defaultTag : string) (outbounds endpoints : list (string * string)) : list string :=
  let l := filter (fun d => d.2 <> "") outbounds ++ filter (fun d => d.2 <> "") endpoints in
  let l := filter (fun d => ~ (d.1 = "direct" \/ d.1 = "block" \/ d.1 = "dns")) l in
  fold_left (fun acc d => insert_default defaultTag d acc) (map snd l) [].

Section proxies.
Context `{GroupLib, External}.

(** [updateProxy]: the answer, the cache file and the selector. *)
Definition updateProxy (body : string + error) (proxy : option Selector) (stored : bool) (cacheFile : option (gmap string string)) :
  Z * option (gmap string string) * option Selector :=
  match body with
  | inr _ => (400, cacheFile, proxy)
  | inl name =>
      match proxy with
      | None => (400, cacheFile, proxy)
      | Some selector =>
          let '(ok, cacheFile, selector) := Selector_SelectOutbound stored name cacheFile selector in
          (if ok then 204 else 400, cacheFile, Some selector)
      end
  end.

(** [getProxyDelay] after its query was read: the test ends with a delay or an
    error at [now], and [timed_out] says that the time was over by then.  The
    history is written after the answer, whatever it is. *)
Definition getProxyDelay (test : res Z) (timed_out : bool) (now : Z) (proxy : Outbound) (w : World) : (Z * option Z) * World :=
  let answer :=
    if timed_out then (504, None)
    else match test with Ok delay => if delay =? 0 then (503, None) else (200, Some delay) | _ => (503, None) end in
  let realTag := RealTag w proxy in
  (answer,
   on_history (match test with
               | Ok delay => StoreURLTestHistory realTag {| uh_Time := now; uh_Delay := delay |}
               | _ => DeleteURLTestHistory realTag
               end) w).

(** [getGroupDelay] of a group that has no test of its own: every member once,
    by its real tag, whatever the history says. *)
Definition group_delay (manager : string -> option Outbound) (schedule : list (string * string) -> list (string * string))
    (test : string -> res Z) (ends : string -> Z) (All : list string) (w : World) : gmap string Z * World :=
  let outbounds := omap manager All in
  finish_tests test ends
    (schedule (begin_tests false true 0 0 (fun tag => match manager tag with Some _ => true | None => false end) w outbounds ∅)) (∅, w).
End proxies.

(** ** Chains *)

(** A chain from an outbound: each is what the group before it uses, and the last
    is no group or uses an outbound there is not. *)
Inductive chain_from (manager : string -> option OutboundInfo) : string -> list string -> OutboundInfo -> Prop :=
  | chain_end tag d : manager tag = Some d -> oi_Now d = None -> chain_from manager tag [tag] d
  | chain_unknown tag d now : manager tag = Some d -> oi_Now d = Some now -> manager now = None -> chain_from manager tag [tag] d
  | chain_group tag d now l e : manager tag = Some d -> oi_Now d = Some now -> chain_from manager now l e -> chain_from manager tag (tag :: l) e.

(** Groups use outbounds of a lower rank. *)
Definition ranked (manager : string -> option OutboundInfo) (rank : string -> nat) : Prop :=
  forall tag d now, manager tag = Some d -> oi_Now d = Some now -> (rank now < rank tag)%nat.

Lemma chain_loop_from manager rank fuel next chain o t d :
  ranked manager rank -> (S (rank next) < fuel)%nat -> manager next = Some d ->
  exists l e, chain_from manager next l e /\ chain_loop fuel manager next chain o t = Some (chain ++ l, oi_Tag e, oi_Type e).
Proof.
  intros Hr. revert next chain o t d. induction fuel as [|fuel IH]; intros next chain o t d Hf Hd; [lia|]. simpl. rewrite Hd.
  destruct (oi_Now d) as [now|] eqn:En; [|exists [next], d; split; [by apply chain_end|done]].
  pose proof (Hr _ _ _ Hd En). destruct (manager now) as [d'|] eqn:Ed'.
  - destruct (IH now (chain ++ [next]) (oi_Tag d) (oi_Type d) d' ltac:(lia) Ed') as (l & e & Hl & E).
    exists (next :: l), e. split; [by eapply chain_group|]. by rewrite E, <-app_assoc.
  - exists [next], d. split; [by eapply chain_unknown|]. destruct fuel; [lia|]. simpl. by rewrite Ed'.
Qed.

(** A tracked connection names its way: when groups do not use each other in a circle, the
    tracker of a new connection is made, is among the open ones, and its chain, read from the end, leads from
    the outbound the router chose, or the default, along what each group uses now to the outbound
    it names. *)
Theorem tracker_chain packets fuel id now upstream metadata manager rank dflt rule matched m h d :
  ranked manager rank -> (S (rank (default dflt matched)) < fuel)%nat -> manager (default dflt matched) = Some d ->
  exists t tracked m' h' l e,
    NewTracker packets fuel id now upstream metadata manager dflt rule matched m h = Some (t, tracked, m', h') /\
    Connection id m' = Some t /\ tr_upstream t = upstream /\
    rev (tk_Chain (tr_metadata t)) = l /\ chain_from manager (default dflt matched) l e /\
    tk_Outbound (tr_metadata t) = oi_Tag e /\ tk_OutboundType (tr_metadata t) = oi_Type e.
Proof.
  intros Hr Hf Hd. destruct (chain_loop_from manager rank fuel _ [] "" "" d Hr Hf Hd) as (l & e & Hl & E).
  unfold NewTracker. rewrite E. simpl. eexists _, _, _, _, l, e. split; [done|]. split_and!; try done.
  - apply lookup_insert_eq.
  - simpl. apply rev_involutive.
Qed.

(** ** Open and closed connections *)

Inductive tracker_event : Type := TrackerJoins (c : Tracker) | TrackerCloses (now : Z) (c : Tracker).

Definition tracker_id (c : Tracker) : Z := tk_ID (tr_metadata c).

(** A run, with all that left in it. *)
Fixpoint tracker_run (evs : list tracker_event) (m : TrackerManager) : TrackerManager * list TrackerMetadata :=
  match evs with
  | [] => (m, [])
  | TrackerJoins c :: evs => tracker_run evs (Join c m)
  | TrackerCloses now c :: evs =>
      let '(m', _) := Tracker_Close now c m in
      let '(m'', l) := tracker_run evs m' in
      (m'', match mg_connections m !! tracker_id c with Some _ => with_ClosedAt now (tr_metadata c) :: l | None => l end)
  end.

Definition joined (evs : list tracker_event) : list Z := omap (fun ev => match ev with TrackerJoins c => Some (tracker_id c) | _ => None end) evs.

Definition latest {A} (n : nat) (l : list A) : list A := drop (length l - n) l.

Lemma latest_snoc {A} n (l : list A) x : (0 < n)%nat ->
  (if (n <=? length (latest n l))%nat then tail (latest n l) else latest n l) ++ [x] = latest n (l ++ [x]).
Proof.
  intros Hn. unfold latest. rewrite length_drop, length_app. simpl. destruct (Nat.leb_spec n (length l - (length l - n))).
  - replace (length l + 1 - n)%nat with (S (length l - n)) by lia. rewrite drop_app_le by lia. f_equal.
    by rewrite <-Nat.add_1_r, <-drop_drop, <-tail_drop || (destruct (drop (length l - n) l) eqn:E; rewrite <-Nat.add_1_r, <-drop_drop, E; by simpl).
  - replace (length l - n)%nat with 0%nat by lia. replace (length l + 1 - n)%nat with 0%nat by lia. done.
Qed.

Lemma tracker_run_spec evs m past :
  mg_closedConnections m = latest max_closed past -> NoDup (joined evs) ->
  (forall id, id ∈ joined evs -> mg_connections m !! id = None /\ id ∉ map tk_ID past) -> NoDup (map tk_ID past) ->
  (forall id, is_Some (mg_connections m !! id) -> id ∉ map tk_ID past) ->
  let '(m', l) := tracker_run evs m in
  mg_closedConnections m' = latest max_closed (past ++ l) /\ NoDup (map tk_ID (past ++ l)) /\
  (forall id, is_Some (mg_connections m' !! id) -> id ∉ map tk_ID (past ++ l)) /\
  (forall id, is_Some (mg_connections m' !! id) \/ id ∈ map tk_ID (past ++ l) <->
     id ∈ joined evs \/ is_Some (mg_connections m !! id) \/ id ∈ map tk_ID past).
Proof.
  revert m past. induction evs as [|[c|now c] evs IH]; intros m past Hc Hnd Hj Hp Ho; simpl.
  - rewrite app_nil_r. split_and!; [done|done|done|]. intros id. rewrite elem_of_nil. tauto.
  - simpl in Hnd, Hj. apply NoDup_cons in Hnd as [Hni Hnd].
    specialize (IH (Join c m) past Hc Hnd). destruct (tracker_run evs (Join c m)) as [m' l]. destruct IH as (H1 & H2 & H3 & H4).
    + intros id Hid. destruct (Hj id ltac:(by right)) as [Ha Hb]. split; [|done]. simpl. rewrite lookup_insert_ne; [done|]. intros <-. done.
    + done.
    + intros id [x Hx]. simpl in Hx. apply lookup_insert_Some in Hx as [[<- _]|[_ Hx]]; [by apply Hj; left|by apply Ho; exists x].
    + split_and!; try done. intros id. rewrite H4. simpl. rewrite elem_of_cons. unfold tracker_id.
      destruct (decide (id = tk_ID (tr_metadata c))) as [->|Hne].
      * rewrite lookup_insert_eq. split; [intros _; by left; left|intros _; right; left; by eexists].
      * rewrite lookup_insert_ne by done. tauto.
  - unfold Leave. fold (tracker_id c). destruct (mg_connections m !! tracker_id c) as [x|] eqn:Ex.
    + set (m1 := {| mg_uploadTotal := _ |}). set (y := with_ClosedAt now (tr_metadata c)).
      specialize (IH m1 (past ++ [y])). destruct (tracker_run evs m1) as [m' l].
      assert (tracker_id c ∉ map tk_ID past) as Hnew by (apply Ho; by exists x).
      assert (forall id, id ∈ map tk_ID (past ++ [y]) <-> id ∈ map tk_ID past \/ id = tracker_id c) as Hin.
      { intros id. rewrite map_app, elem_of_app. simpl. rewrite list_elem_of_singleton. done. }
      destruct IH as (H1 & H2 & H3 & H4).
      * cbn [mg_closedConnections m1]. rewrite Hc. apply latest_snoc. unfold max_closed. lia.
      * done.
      * intros id Hid. destruct (Hj id Hid) as [Ha Hb]. split; [simpl; apply lookup_delete_None; by right|]. rewrite Hin. intros [?| ->]; [done|].
        congruence.
      * rewrite map_app. apply NoDup_app. split_and!; [done| |apply NoDup_singleton]. intros id Hid. simpl. rewrite list_elem_of_singleton.
        intros ->. done.
      * intros id [z Hz]. simpl in Hz. apply lookup_delete_Some in Hz as [Hne Hz]. rewrite Hin. intros [Hin'| ->]; [|done].
        revert Hin'. apply Ho. by exists z.
      * rewrite <-app_assoc in H1, H2, H3, H4. simpl in H1, H2, H3, H4. split_and!; try done. intros id. rewrite H4. rewrite (Hin id).
        destruct (decide (id = tracker_id c)) as [->|Hne].
        { rewrite Ex. split; [intros _; right; left; by eexists|intros _; right; right; by right]. }
        { rewrite lookup_delete_ne by done. tauto. }
    + specialize (IH m past Hc Hnd Hj Hp Ho). by destruct (tracker_run evs m).
Qed.

(** Connections are open or closed: when identities are not used twice, every connection that
    was tracked is either open or has left, once, however often it is closed; the closed ones kept
    are the latest thousand that left. *)
Theorem connections_open_or_closed evs h :
  NoDup (joined evs) ->
  let '(m, l) := tracker_run evs (NewTrackerManager h).1 in
  mg_closedConnections m = latest max_closed l /\ (length (mg_closedConnections m) <= max_closed)%nat /\ NoDup (map tk_ID l) /\
  forall id, id ∈ joined evs <-> is_Some (mg_connections m !! id) /\ id ∉ map tk_ID l \/ mg_connections m !! id = None /\ id ∈ map tk_ID l.
Proof.
  intros Hnd. pose proof (tracker_run_spec evs (NewTrackerManager h).1 [] eq_refl Hnd) as Hr.
  destruct (tracker_run evs (NewTrackerManager h).1) as [m l]. destruct Hr as (H1 & H2 & H3 & H4).
  - intros id _. simpl. split; [apply lookup_empty|apply not_elem_of_nil].
  - constructor.
  - intros id [x Hx]. simpl in Hx. by rewrite lookup_empty in Hx.
  - simpl in *. split_and!; [done| |done|].
    + rewrite H1. unfold latest. rewrite length_drop. lia.
    + intros id. specialize (H3 id). specialize (H4 id). rewrite lookup_empty in H4.
      assert (is_Some (@None Tracker) <-> False) as Hf by (split; [by intros [? ?]|done]).
      rewrite Hf, elem_of_nil in H4. destruct (mg_connections m !! id) as [x|] eqn:E.
      * assert (is_Some (Some x)) as Hx by (by exists x). split; [intros _; left; auto|intros _].
        destruct (proj1 H4 (or_introl Hx)) as [?|[[]|[]]]; done.
      * split; [intros Hin; right; split; [done|]|].
        { destruct (proj2 H4 (or_introl Hin)) as [Hx|?]; [by apply Hf in Hx|done]. }
        { intros [[Hx _]|[_ Hin]]; [by apply Hf in Hx|]. destruct (proj1 H4 (or_intror Hin)) as [?|[[]|[]]]; done. }
Qed.

(** ** Closing on request *)

Lemma close_trackers_connections now l m id :
  mg_connections (close_trackers now l m).1 !! id = None <-> mg_connections m !! id = None \/ id ∈ map tracker_id l.
Proof.
  revert m. induction l as [|c l IH]; intros m; simpl; [rewrite elem_of_nil; tauto|].
  specialize (IH (Leave now c m)). destruct (close_trackers now l (Leave now c m)) as [m' rest]. simpl in *. rewrite IH, elem_of_cons.
  unfold Leave. fold (tracker_id c). destruct (mg_connections m !! tracker_id c) as [x|] eqn:E; simpl.
  - rewrite lookup_delete_None. split; [intros [[?|?]|?]; auto|intros [?|[?|?]]; auto].
  - split; [intros [?|?]; auto|]. intros [?|[->|?]]; auto.
Qed.

(** Closing all closes what is open, but for connections that a DNS outbound
    took. *)
Lemma close_all_spec (order : conn_order) now m h id c :
  (forall x, order x ≡ₚ map_to_list x) -> (forall i x, mg_connections m !! i = Some x -> tracker_id x = i) ->
  mg_connections m !! id = Some c ->
  (mg_connections (closeAllConnections order now m h).1 !! id = None <-> tk_OutboundType (tr_metadata c) <> TypeDNS).
Proof.
  intros Ho Hid Hc. unfold closeAllConnections. rewrite close_trackers_connections. unfold Snapshot. cbn [snd].
  rewrite list_elem_of_fmap. split.
  - intros [?|(x & -> & Hx)]; [congruence|]. apply list_elem_of_filter in Hx as [Hx Hin]. apply list_elem_of_fmap in Hin as ([i y] & -> & Hin).
    rewrite Ho, elem_of_map_to_list in Hin. simpl in *. rewrite (Hid _ _ Hin) in Hc. congruence.
  - intros Ht. right. exists c. split; [by rewrite (Hid _ _ Hc)|]. apply list_elem_of_filter. split; [done|].
    apply list_elem_of_fmap. exists (id, c). split; [done|]. by rewrite Ho, elem_of_map_to_list.
Qed.

(** ** Modes *)

Section mode_facts.
Context (unicode_fold : string -> string -> bool).

(** The mode is one of the list, in one spelling or another. *)
Definition mode_listed (s : Server) : Prop := exists it, it ∈ cs_modeList s /\ (it = cs_mode s \/ same_mode unicode_fold it (cs_mode s) = true).

Lemma common_Find_spec f l : common_Find f l ∈ l \/ common_Find f l = "" /\ forall x, x ∈ l -> f x = false.
Proof.
  unfold common_Find. destruct (filter (fun x => f x) l) as [|y k] eqn:E; simpl.
  - right. split; [done|]. intros x Hx. destruct (f x) eqn:Ef; [|done].
    assert (x ∈ filter (fun x => f x) l) as Hin by (apply list_elem_of_filter; by rewrite Ef). rewrite E in Hin. by apply not_elem_of_nil in Hin.
  - left. assert (y ∈ filter (fun x => f x) l) as Hin by (rewrite E; left). by apply list_elem_of_filter in Hin as [_ ?].
Qed.

Inductive mode_request : Type := ModeStart (saved : option string) | ModeSet (mode : string).

Definition mode_step (r : mode_request) (s : Server) : Server :=
  match r with ModeStart saved => Server_Start unicode_fold saved s | ModeSet mode => (SetMode unicode_fold mode s).2 end.

(** The mode is always one there is: from any options that are not refused, whatever the
    cache file holds and whatever modes are asked for, the mode is one of the list, up to the case of its
    letters, the list is not changed, and a mode that was set is spelled as in the list. *)
Theorem mode_always_listed modeList DefaultMode s0 (l : list mode_request) :
  NewServer modeList DefaultMode false = Ok s0 ->
  let s := fold_left (fun s r => mode_step r s) l s0 in
  mode_listed s /\ cs_modeList s = cs_modeList s0 /\
  forall mode, let s' := (SetMode unicode_fold mode s).2 in s' = s \/ cs_mode s' ∈ cs_modeList s0 /\ (cs_mode s' = mode \/ mode ∉ cs_modeList s0).
Proof.
  intros Hnew.
  assert (mode_listed s0) as H0.
  { unfold NewServer in Hnew. injection Hnew as <-. simpl. exists (if bool_decide (DefaultMode <> "") then DefaultMode else "Rule").
    split; [|by left]. simpl. set (d := if bool_decide (DefaultMode <> "") then _ else _). destruct (bool_decide_reflect (d ∈ modeList)); [done|left]. }
  assert (forall r s, mode_listed s -> mode_listed (mode_step r s) /\ cs_modeList (mode_step r s) = cs_modeList s) as Hstep.
  { intros [[mode|]|mode] s Hs; simpl; [|done|].
    - destruct (existsb _ (cs_modeList s)) eqn:E; [|done]. split; [|done]. apply existsb_exists in E as (it & Hin & Heq).
      exists it. split; [by apply list_elem_of_In|by right].
    - unfold SetMode. set (new := if bool_decide _ then _ else _). case_bool_decide as Hin; simpl; [|done]. case_bool_decide; simpl; [done|].
      split; [|done]. exists new. split; [done|by left]. }
  assert (forall s, mode_listed s -> cs_modeList s = cs_modeList s0 ->
    let s := fold_left (fun s r => mode_step r s) l s in mode_listed s /\ cs_modeList s = cs_modeList s0) as Hrun.
  { induction l as [|r l IH]; intros s Hs Hl; cbn [fold_left]; [done|]. destruct (Hstep r s Hs) as [H1 H2]. apply IH; [done|congruence]. }
  specialize (Hrun s0 H0 eq_refl). simpl in *. destruct Hrun as [H1 H2]. split_and!; [done|done|]. rewrite <-H2.
  set (s := fold_left _ l s0). intros mode. unfold SetMode. set (new := if bool_decide _ then _ else _).
  destruct (decide (new ∈ cs_modeList s)) as [Hin|Hin]; [rewrite (bool_decide_true (new ∈ _)) by done|rewrite (bool_decide_false (new ∈ _)) by done; by left].
  destruct (decide (new = cs_mode s)) as [Heq|Hne]; [rewrite (bool_decide_true (new = _)) by done; by left|].
  rewrite (bool_decide_false (new = _)) by done. simpl. right. split; [done|]. subst new. destruct (decide (mode ∈ cs_modeList s)) as [Hm|Hm]; [rewrite bool_decide_true by done; by left|by right].
Qed.
End mode_facts.

(** ** Authentication *)

Lemma cut_space_spec s : cut_space s = match (cut_space s).2 with
  | Some after => ((cut_space s).1, Some after) | None => (s, None) end.
Proof. induction s as [|c s IH]; simpl; [done|]. destruct (ascii_dec c " "%char); [done|]. destruct (cut_space s) as [b [a|]]; [done|]. simpl in *. congruence. Qed.

Lemma cut_space_join s before after : cut_space s = (before, Some after) -> s = before +:+ " " +:+ after.
Proof.
  revert before. induction s as [|c s IH]; intros before; simpl; [done|]. destruct (ascii_dec c " "%char) as [->|].
  - intros [= <- <-]. done.
  - destruct (cut_space s) as [b a]. intros [= <- ->]. by rewrite (IH b eq_refl).
Qed.

(** Who is let in: with a secret set, a request is let through exactly when it names the
    secret, a web socket in its query or else any request in its Bearer header; the header of a web socket
    that has a token in its query is not looked at. *)
Theorem authentication_spec secret upgrade token header :
  secret <> "" ->
  authentication secret upgrade token header = true <->
  if decide (upgrade = "websocket" /\ token <> "") then token = secret else header = "Bearer " +:+ secret.
Proof.
  intros Hs. unfold authentication. rewrite (bool_decide_false (secret = "")) by done.
  destruct (decide (upgrade = "websocket" /\ token <> "")) as [[Hu Ht]|Hn].
  - rewrite !bool_decide_true by done. simpl. apply bool_decide_eq_true.
  - assert (bool_decide (upgrade = "websocket") && bool_decide (token <> "") = false) as ->.
    { apply andb_false_iff. destruct (decide (upgrade = "websocket")); [right|left]; apply bool_decide_eq_false; [intros ?; by apply Hn|done]. }
    destruct (cut_space header) as [bearer [t|]] eqn:E.
    + pose proof (cut_space_join _ _ _ E) as ->. rewrite negb_true_iff, orb_false_iff, !bool_decide_eq_false. split.
      * intros [H1 H2]. destruct (decide (bearer = "Bearer")) as [->|]; [|done]. destruct (decide (t = secret)) as [->|]; [|done]. done.
      * intros Heq. rewrite Heq in E. simpl in E. injection E as <- <-. auto.
    + rewrite orb_true_r. simpl. split; [done|]. intros ->. simpl in E. done.
Qed.

(** ** Proxies *)

Lemma insert_default_perm dflt x l : insert_default dflt x l ≡ₚ x :: l.
Proof. induction l as [|y l IH]; simpl; [done|]. case_bool_decide; [done|]. rewrite IH. apply Permutation_swap. Qed.

Lemma insert_default_head dflt x l : x <> dflt -> head (insert_default dflt x l) = Some (default x (head l)).
Proof. intros Hx. destruct l; simpl; [done|]. by rewrite bool_decide_false. Qed.

(** All proxies are listed, the default one first if it is a proxy. *)
Lemma all_proxies_spec dflt outbounds endpoints :
  let l := filter (fun d => ~ (d.1 = "direct" \/ d.1 = "block" \/ d.1 = "dns"))
    (filter (fun d : string * string => d.2 <> "") outbounds ++ filter (fun d => d.2 <> "") endpoints) in
  all_proxies dflt outbounds endpoints ≡ₚ map snd l /\ (dflt ∈ map snd l -> head (all_proxies dflt outbounds endpoints) = Some dflt).
Proof.
  intros l. unfold all_proxies. fold l.
  enough (forall acc, let r := fold_left (fun acc d => insert_default dflt d acc) (map snd l) acc in
    r ≡ₚ map snd l ++ acc /\ (dflt ∈ map snd l \/ head acc = Some dflt -> head r = Some dflt)) as H.
  { destruct (H []) as [H1 H2]. rewrite app_nil_r in H1. split; [done|]. intros Hin. apply H2. by left. }
  induction (map snd l) as [|x k IH]; intros acc; simpl.
  { split; [done|]. intros [Hin|?]; [by apply not_elem_of_nil in Hin|done]. }
  destruct (IH (insert_default dflt x acc)) as [H1 H2]. split; [rewrite H1, insert_default_perm; by rewrite Permutation_middle|].
  intros Hd. apply H2. destruct (decide (x = dflt)) as [->|Hx].
  - right. destruct acc; simpl; [done|]. by rewrite bool_decide_true.
  - rewrite insert_default_head by done. destruct Hd as [[?|?]%elem_of_cons|Hh]; [done|by left|]. right. by rewrite Hh.
Qed.

(** ** Examples *)

Definition some_outbounds (tag : string) : option OutboundInfo :=
  if bool_decide (tag = "select") then Some {| oi_Tag := "select"; oi_Type := "selector"; oi_Now := Some "auto" |}
  else if bool_decide (tag = "auto") then Some {| oi_Tag := "auto"; oi_Type := "urltest"; oi_Now := Some "jp" |}
  else if bool_decide (tag = "jp") then Some {| oi_Tag := "jp"; oi_Type := "trojan"; oi_Now := None |}
  else None.
Definition some_rank (tag : string) : nat := if bool_decide (tag = "select") then 2 else if bool_decide (tag = "auto") then 1 else 0.

Lemma tracker_chain_witness :
  ranked some_outbounds some_rank /\
  exists t tracked m' h',
    NewTracker false 10 7 0 1 InboundContextZero some_outbounds "jp" None (Some "select") (NewTrackerManager []).1 (NewTrackerManager []).2 = Some (t, tracked, m', h') /\
    tk_Chain (tr_metadata t) = ["jp"; "auto"; "select"].
Proof.
  assert (ranked some_outbounds some_rank) as Hr.
  { intros tag d now Hd Hn. unfold some_outbounds in Hd. repeat case_bool_decide; simplify_eq; simpl in Hn; simplify_eq; vm_compute; lia. }
  split; [exact Hr|].
  destruct (tracker_chain false 10 7 0 1 InboundContextZero some_outbounds some_rank "jp" None (Some "select") (NewTrackerManager []).1 (NewTrackerManager []).2
    {| oi_Tag := "select"; oi_Type := "selector"; oi_Now := Some "auto" |} Hr) as (t & tracked & m' & h' & l & e & E & _ & _ & Hl & Hc & _).
  - vm_compute. lia.
  - vm_compute. reflexivity.
  - exists t, tracked, m', h'. split; [exact E|]. vm_compute in E. injection E as <- _ _ _. reflexivity.
Defined.

Definition some_tracker (id : Z) (outboundType : string) : Tracker :=
  {| tr_metadata := {| tk_ID := id; tk_Metadata := InboundContextZero; tk_CreatedAt := 0; tk_ClosedAt := 0; tk_Upload := 0; tk_Download := 0;
                       tk_Chain := []; tk_Rule := None; tk_Outbound := ""; tk_OutboundType := outboundType |};
     tr_upstream := Z.to_nat id; tr_packets := false |}.

Definition some_tracker_events : list tracker_event :=
  [TrackerJoins (some_tracker 1 "direct"); TrackerJoins (some_tracker 2 "dns"); TrackerCloses 10 (some_tracker 1 "direct");
   TrackerCloses 11 (some_tracker 1 "direct")].

Lemma connections_open_or_closed_witness :
  NoDup (joined some_tracker_events) /\
  let '(m, l) := tracker_run some_tracker_events (NewTrackerManager []).1 in
  (length (mg_closedConnections m) <= max_closed)%nat /\ length l = 1%nat.
Proof.
  assert (NoDup (joined some_tracker_events)) as Hnd by (vm_compute; repeat constructor; rewrite ?list_elem_of_singleton, ?elem_of_nil; auto).
  split; [exact Hnd|]. pose proof (connections_open_or_closed some_tracker_events [] Hnd) as H.
  destruct (tracker_run some_tracker_events (NewTrackerManager []).1) as [m l] eqn:E. split; [apply H|].
  vm_compute in E. by injection E as _ <-.
Defined.

(** Connections of the DNS outbound are not closed on request, by identity or
    with all others. *)
Example dns_connection_stays :
  let m := Join (some_tracker 2 "dns") (Join (some_tracker 1 "direct") (NewTrackerManager []).1) in
  ((closeAllConnections map_to_list 0 m []).2, (closeConnection map_to_list 0 2 m []).2) = ([1%nat], []).
Proof. vm_compute. reflexivity. Qed.

Definition some_server : Server := {| cs_mode := "Rule"; cs_modeList := ["Rule"; "Global"]; cs_hook := None |}.

Lemma mode_always_listed_witness :
  NewServer ["Rule"; "Global"] "" false = Ok some_server /\
  mode_listed (fun a b => bool_decide (a = b)) (fold_left (fun s r => mode_step (fun a b => bool_decide (a = b)) r s)
    [ModeStart (Some "global"); ModeSet "RULE"; ModeSet "other"] some_server).
Proof.
  assert (NewServer ["Rule"; "Global"] "" false = Ok some_server) as Hs by (vm_compute; reflexivity). split; [exact Hs|].
  apply (mode_always_listed (fun a b => bool_decide (a = b)) _ _ _ [ModeStart (Some "global"); ModeSet "RULE"; ModeSet "other"] Hs).
Defined.

(** A mode from the cache file is taken in the spelling of the file. *)
Example mode_spelled_as_saved :
  cs_mode (Server_Start (fun a b => bool_decide (a = b)) (Some "gLOBAL") some_server) = "gLOBAL" /\
  cs_mode (SetMode (fun a b => bool_decide (a = b)) "gLOBAL" some_server).2 = "Global".
Proof. vm_compute. auto. Qed.

Lemma authentication_spec_witness :
  "s3cret" <> "" /\ authentication "s3cret" "" "" "Bearer s3cret" = true /\ authentication "s3cret" "websocket" "wrong" "Bearer s3cret" = false.
Proof.
  assert ("s3cret" <> "") as Hs by done. split; [exact Hs|]. split.
  - apply (authentication_spec "s3cret" "" "" "Bearer s3cret" Hs). destruct (decide _) as [[? ?]|]; done.
  - destruct (authentication "s3cret" "websocket" "wrong" "Bearer s3cret") eqn:E; [|reflexivity].
    apply (authentication_spec "s3cret" "websocket" "wrong" _ Hs) in E. by destruct (decide _) as [|Hn]; [|destruct Hn].
Defined.

(** A test that ends after its time is answered as timed out and written to the
    history all the same, and so is a delay of zero that is answered as a
    failure. *)
Example late_delay_stored :
  let w := {| w_history := NewHistoryStorage; w_now := fun _ => None; w_network := fun _ => [] |} in
  let jp := {| ob_id := 0; ob_tag := "jp" |} in
  let '(a, w1) := getProxyDelay (Ok 31) true 5 jp w in
  let '(b, w2) := getProxyDelay (Ok 0) false 5 jp w in
  (a, load w1 "jp", b, load w2 "jp") = ((504, None), Some {| uh_Time := 5; uh_Delay := 31 |}, (503, None), Some {| uh_Time := 5; uh_Delay := 0 |}).
Proof. vm_compute. reflexivity. Qed.
