(* ===== verification/WebSocket.v ===== *)
(** * Streams over WebSocket

    transport/v2raywebsocket: the frames that are written, reads over frames, the
    first bytes a client sends inside its request (early data) and the server
    that takes them out, and the connection that is only dialled with its first
    write.  The reader of frames is the class [WsReader]; TLS, HTTP and the dial
    are arguments. *)

From stdpp Require Import base list gmap strings.
From Stdlib Require Import ZArith Lia Ascii.
From S2P Require Import Prelude GoStd ByteReader StringFacts.

Open Scope Z_scope.
Open Scope box_scope.

(** ** encoding/base64, [RawURLEncoding] *)

Definition b64_char (v : Z) : Z :=
  if v <? 26 then 65 + v else if v <? 52 then 71 + v else if v <? 62 then v - 4 else if v =? 62 then 45 else 95.

Definition b64_value (c : Z) : option Z :=
  if (65 <=? c) && (c <=? 90) then Some (c - 65)
  else if (97 <=? c) && (c <=? 122) then Some (c - 71)
  else if (48 <=? c) && (c <=? 57) then Some (c + 4)
  else if c =? 45 then Some 62 else if c =? 95 then Some 63 else None.

Fixpoint b64_groups (l : list Z) : list Z :=
  match l with
  | a :: b :: c :: l => [a / 4; a mod 4 * 16 + b / 16; b mod 16 * 4 + c / 64; c mod 64] ++ b64_groups l
  | [a; b] => [a / 4; a mod 4 * 16 + b / 16; b mod 16 * 4]
  | [a] => [a / 4; a mod 4 * 16]
  | [] => []
  end.

Definition b64_EncodeToString (l : list Z) : list Z := map b64_char (b64_groups l).

Fixpoint b64_bytes (l : list Z) : option (list Z) :=
  match l with
  | a :: b :: c :: d :: l => app [a * 4 + b / 16; b mod 16 * 16 + c / 4; c mod 4 * 64 + d] <$> b64_bytes l
  | [a; b; c] => Some [a * 4 + b / 16; b mod 16 * 16 + c / 4]
  | [a; b] => Some [a * 4 + b / 16]
  | [a] => None
  | [] => Some []
  end.

Definition b64_error : error := ErrNew "illegal base64 data".

(** Line ends are skipped. *)
Definition b64_DecodeString (s : list Z) : res (list Z) :=
  match mapM b64_value (filter (fun c => c <> 10 /\ c <> 13) s) ≫= b64_bytes with
  | Some l => Ok l
  | None => Err b64_error
  end.

(** ** Frames *)

Definition OpBinary : Z := 2.

(** [ws.Cipher] at offset 0. *)
Definition ws_cipher (key data : list Z) : list Z := imap (fun i b => Z.lxor b (nth (i mod 4) key 0)) data.

(** [Writer.WriteBuffer]: what is written; [maskKey] is the random number of a
    client. *)
Definition ws_header (isServer : bool) (maskKey : Z) (dataLen : Z) : list Z :=
  let mask := if isServer then 0 else 128 in
  [Z.lor OpBinary 128] ++
  (if dataLen <? 126 then [Z.lor mask dataLen]
   else if dataLen <? 65536 then Z.lor mask 126 :: be_bytes 2 dataLen
   else Z.lor mask 127 :: be_bytes 8 dataLen) ++
  (if isServer then [] else be_bytes 4 maskKey).

Definition ws_WriteBuffer (isServer : bool) (maskKey : Z) (data : list Z) : list Z :=
  ws_header isServer maskKey (Z.of_nat (length data)) ++ if isServer then data else ws_cipher (be_bytes 4 maskKey) data.

(** RFC 6455, section 5.2: the first two bytes of a frame, its length, its key and
    its payload. *)
Definition rfc6455_frame (r : Reader) : res (Z * bool * list Z * Reader) :=
  let* '(b0, r) := ReadByte r in
  let* '(b1, r) := ReadByte r in
  let short := Z.land b1 127 in
  let* '(len, r) := (if short =? 126 then ReadUint 2 r else if short =? 127 then ReadUint 8 r else Ok (short, r)) in
  let masked := Z.testbit b1 7 in
  let* '(key, r) := (if masked then ReadFull 4 r else Ok ([], r)) in
  let* '(data, r) := ReadFull (Z.to_nat len) r in
  Ok (b0, masked, if masked then ws_cipher key data else data, r).

(** ** Reading *)

Record WsHeader : Type := { wh_OpCode : Z; wh_Length : Z }.

(** [ws.OpCode.IsControl] *)
Definition is_control (op : Z) : bool := Z.testbit op 3.

Inductive ws_error : Type :=
  | WsEOF
  | WsNoFrameAdvance
  | WsFrameTooLarge
  (** a close frame with its code *)
  | WsClosed (code : Z)
  | WsOther (e : error).

(** [wrapWsError] *)
Definition wrapWsError (e : ws_error) : ws_error :=
  match e with WsClosed code => if (code =? 1000) || (code =? 1005) then WsEOF else e | e => e end.

(** wsutil's [Reader] over a connection and its control handler. *)
Class WsReader (S : Type) : Type := {
  ws_read : nat -> S -> list Z * option ws_error * S;
  ws_next : S -> (WsHeader + ws_error) * S;
  ws_discard : S -> option ws_error * S;
  ws_control : WsHeader -> S -> option ws_error * S }.

Section read.
Context {S : Type} `{WsReader S}.

(** [WebsocketConn.Read] into [n] bytes: none when it goes on. *)
Fixpoint ws_Read (fuel n : nat) (s : S) : option ((list Z * option ws_error) * S) :=
  match fuel with
  | O => None
  | Datatypes.S fuel =>
      let '(l, err, s) := ws_read n s in
      match l, err with
      | _ :: _, _ => Some ((l, None), s)
      | [], Some WsEOF | [], Some WsNoFrameAdvance =>
          match ws_next s with
          | (inr e, s) => Some (([], Some (wrapWsError e)), s)
          | (inl header, s) =>
              if is_control (wh_OpCode header) then
                if 128 <? wh_Length header then Some (([], Some WsFrameTooLarge), s)
                else match ws_control header s with
                     | (Some e, s) => Some (([], Some (wrapWsError e)), s)
                     | (None, s) => ws_Read fuel n s
                     end
              else if Z.land (wh_OpCode header) OpBinary =? 0 then
                match ws_discard s with
                | (Some e, s) => Some (([], Some (wrapWsError e)), s)
                | (None, s) => ws_Read fuel n s
                end
              else ws_Read fuel n s
          end
      | [], Some e => Some (([], Some (wrapWsError e)), s)
      | [], None => Some (([], None), s)
      end
  end.
End read.

(** ** Requests *)

(** [http.Header] with canonical names, one value each. *)
Abbreviation headers := (gmap string string).

Definition header_Get (name : string) (h : headers) : string := default "" (h !! name).

Definition protocol_header : string := "Sec-Websocket-Protocol".

Record WsClient : Type := { wc_path : string; wc_headers : headers; wc_maxEarlyData : Z; wc_earlyDataHeaderName : string }.

(** [NewClient]: the path of the URL, its host and the headers. *)
Definition NewWsClient (server_host path : string) (h : headers) (maxEarlyData : Z) (earlyDataHeaderName : string) : string * WsClient :=
  let path := if strings_HasPrefix path "/" then path else "/" +:+ path in
  let host := header_Get "Host" h in
  let '(host, h) := if bool_decide (host <> "") then (host, delete "Host" h) else (server_host, h) in
  let h := if bool_decide (header_Get "User-Agent" h = "") then <["User-Agent" := "Go-http-client/1.1"]> h else h in
  (host, {| wc_path := path; wc_headers := h; wc_maxEarlyData := maxEarlyData; wc_earlyDataHeaderName := earlyDataHeaderName |}).

(** What the upgrade sends: the path, the headers and the protocols. *)
Record WsRequest : Type := { wq_path : string; wq_headers : headers; wq_protocols : list string }.

(** The part of [dialContext] that takes the protocols out of the headers; the
    map is changed in place. *)
Definition take_protocols (path : string) (h : headers) : WsRequest * headers :=
  let protocolHeader := header_Get protocol_header h in
  if bool_decide (protocolHeader <> "") then
    let h := delete protocol_header h in ({| wq_path := path; wq_headers := h; wq_protocols := [protocolHeader] |}, h)
  else ({| wq_path := path; wq_headers := h; wq_protocols := [] |}, h).

(** The outcomes of a dial: the connection or TLS fails, the upgrade fails, or it
    succeeds with bytes that came after the answer. *)
Inductive ws_dial : Type :=
  | WsDialFails (e : error)
  | WsUpgradeFails (e : error)
  | WsDialed (conn : nat) (buffered : list Z).

(** [dialContext]: the request, if one was sent, the headers afterwards, and the
    connection with what was kept of the bytes after the answer: the new buffer
    is empty, so that its length, the number of bytes to read, is 0. *)
Definition ws_dialContext (path : string) (h : headers) (d : ws_dial) : option WsRequest * headers * (nat * list Z + error) :=
  match d with
  | WsDialFails e => (None, h, inr e)
  | WsUpgradeFails e => let '(q, h) := take_protocols path h in (Some q, h, inr e)
  | WsDialed conn buffered => let '(q, h) := take_protocols path h in (Some q, h, inl (conn, take 0 buffered))
  end.

(** The data of the first write: early and late. *)
Definition split_content (maxEarlyData : Z) (content : list Z) : list Z * list Z :=
  if maxEarlyData <? Z.of_nat (length content)
  then (take (Z.to_nat maxEarlyData) content, drop (Z.to_nat maxEarlyData) content)
  else (content, []).

(** [writeRequest]; [late_error] is that of the write of the late data.  The
    headers of the client are those it has afterwards. *)
Definition writeRequest (c : WsClient) (content : list Z) (d : ws_dial) (late_error : option error) :
  option WsRequest * list Z * WsClient * (nat + error) :=
  let '(earlyData, lateData) := split_content (wc_maxEarlyData c) content in
  let '(q, h, r) :=
    match earlyData with
    | [] => ws_dialContext (wc_path c) (wc_headers c) d
    | _ =>
        let earlyDataString := string_of_bytes (b64_EncodeToString earlyData) in
        if bool_decide (wc_earlyDataHeaderName c = "") then ws_dialContext (wc_path c +:+ earlyDataString) (wc_headers c) d
        else
          let '(q, _, r) := ws_dialContext (wc_path c) (<[wc_earlyDataHeaderName c := earlyDataString]> (wc_headers c)) d in
          (q, wc_headers c, r)
    end in
  let c := {| wc_path := wc_path c; wc_headers := h; wc_maxEarlyData := wc_maxEarlyData c; wc_earlyDataHeaderName := wc_earlyDataHeaderName c |} in
  match r with
  | inr e => (q, [], c, inr e)
  | inl (conn, _) =>
      match lateData with
      | [] => (q, [], c, inl conn)
      | _ => match late_error with Some e => (q, [], c, inr e) | None => (q, lateData, c, inl conn) end
      end
  end.

(** [url.URL.RequestURI] of a path: letters, digits and the marks of a path are
    kept, other bytes written in hexadecimal. *)
Definition path_char (c : ascii) : bool :=
  let z := byte_of c in
  ((97 <=? z) && (z <=? 122)) || ((65 <=? z) && (z <=? 90)) || ((48 <=? z) && (z <=? 57)) ||
  bool_decide (z ∈ map byte_of (String.list_ascii_of_string "-_.~$&+,/:;=@")).

Definition hex_digit (z : Z) : ascii := ascii_of_nat (Z.to_nat (if z <? 10 then 48 + z else 55 + z)).

Definition request_uri (path : string) : string :=
  String.string_of_list_ascii
    (flat_map (fun c => if path_char c then [c] else ["%"%char; hex_digit (byte_of c / 16); hex_digit (byte_of c mod 16)])
       (String.list_ascii_of_string path)).

(** *** The server *)

Record WsServer : Type := { wv_path : string; wv_maxEarlyData : Z; wv_earlyDataHeaderName : string }.

Definition NewWsServer (path : string) (maxEarlyData : Z) (earlyDataHeaderName : string) : WsServer :=
  {| wv_path := if strings_HasPrefix path "/" then path else "/" +:+ path; wv_maxEarlyData := maxEarlyData;
     wv_earlyDataHeaderName := earlyDataHeaderName |}.

Inductive served : Type :=
  | BadRequest (status : Z)
  (** upgraded, with its early data *)
  | Served (earlyData : list Z).

(** [ServeHTTP] up to the upgrade, of a request with its decoded path, its
    request URI and its headers. *)
Definition ServeHTTP (s : WsServer) (path uri : string) (h : headers) : served :=
  if ((wv_maxEarlyData s =? 0) || bool_decide (wv_earlyDataHeaderName s <> "")) && negb (bool_decide (path = wv_path s)) then BadRequest 404
  else if bool_decide (wv_earlyDataHeaderName s = "") then
    if strings_HasPrefix uri (wv_path s) then
      match b64_DecodeString (bytes_of (str_drop (String.length (wv_path s)) uri)) with
      | Ok l => Served l
      | _ => BadRequest 400
      end
    else BadRequest 404
  else if negb (bool_decide (path = wv_path s)) then BadRequest 404
  else
    let earlyDataStr := header_Get (wv_earlyDataHeaderName s) h in
    if bool_decide (earlyDataStr <> "") then
      match b64_DecodeString (bytes_of earlyDataStr) with
      | Ok l => Served l
      | _ => BadRequest 400
      end
    else Served [].

(** A request as the server sees it: the protocols are a header again. *)
Definition request_headers (q : WsRequest) : headers :=
  match wq_protocols q with [] => wq_headers q | l => <[protocol_header := strings_Join l ", "]> (wq_headers q) end.

(** ** The connection dialled with its first write *)

Record EarlyConn : Type := {
  ec_client : WsClient; ec_conn : option nat; ec_err : option error;
  (** [create] was closed *)
  ec_created : bool }.

Definition NewEarlyConn (c : WsClient) : EarlyConn := {| ec_client := c; ec_conn := None; ec_err := None; ec_created := false |}.

(** [Client.DialContext]: a connection at once, or one that waits for its first
    write. *)
Definition ws_DialContext (c : WsClient) (d : ws_dial) : (option WsRequest * headers * (nat * list Z + error)) + EarlyConn :=
  if wc_maxEarlyData c <=? 0 then inl (ws_dialContext (wc_path c) (wc_headers c) d) else inr (NewEarlyConn c).

(** What a call does: it writes to the connection there is, asks for a request, or
    reports an error. *)
Inductive early_result : Type :=
  | EarlyForward (conn : nat) (b : list Z)
  | EarlyRequest (q : option WsRequest) (late : list Z) (r : nat + error)
  | EarlyError (e : error)
  | EarlyPanic (msg : string)
  | EarlyBlocked
  | EarlyClosed (conn : option nat).

(** [Write], and [WriteBuffer] alike; the whole of a first write holds the lock. *)
Definition early_Write (b : list Z) (d : ws_dial) (late_error : option error) (c : EarlyConn) : early_result * EarlyConn :=
  match ec_conn c, ec_err c with
  | Some conn, _ => (EarlyForward conn b, c)
  | None, Some e => (EarlyError e, c)
  | None, None =>
      let '(q, late, client, r) := writeRequest (ec_client c) b d late_error in
      if ec_created c then (EarlyPanic "close of closed channel", c)
      else
        (EarlyRequest q late r,
         {| ec_client := client; ec_conn := match r with inl conn => Some conn | inr _ => None end;
            ec_err := match r with inl _ => None | inr e => Some e end; ec_created := true |})
  end.

(** [Read] up to the read of the connection. *)
Definition early_Read (c : EarlyConn) : early_result :=
  match ec_conn c with
  | Some conn => EarlyForward conn []
  | None =>
      if negb (ec_created c) then EarlyBlocked
      else match ec_err c with
           | Some e => EarlyError e
           | None => EarlyPanic "invalid memory address or nil pointer dereference"
           end
  end.

(** [Close]: the connection it closes. *)
Definition early_Close (c : EarlyConn) : early_result := EarlyClosed (ec_conn c).

(** ** base64 *)

Definition is_sextet (v : Z) : Prop := 0 <= v < 64.

Lemma b64_value_char v : is_sextet v -> b64_value (b64_char v) = Some v /\ 33 <= b64_char v < 128.
Proof.
  intros Hv. assert (forall n, (n < 64)%nat -> b64_value (b64_char (Z.of_nat n)) = Some (Z.of_nat n) /\ 33 <= b64_char (Z.of_nat n) < 128) as H.
  { intros n Hn. do 64 (destruct n as [|n]; [vm_compute; split; [reflexivity|split; [discriminate|reflexivity]]|]). lia. }
  specialize (H (Z.to_nat v)). unfold is_sextet in Hv. rewrite Z2Nat.id in H by lia. apply H. lia.
Qed.

(** Three bytes at a time. *)
Lemma triples_ind (P : list Z -> Prop) :
  P [] -> (forall a, P [a]) -> (forall a b, P [a; b]) -> (forall a b c l, P l -> P (a :: b :: c :: l)) -> forall l, P l.
Proof.
  intros H0 H1 H2 H3 l. enough (P l /\ (forall a, P (a :: l)) /\ forall a b, P (a :: b :: l)) by tauto.
  induction l as [|c l (Ha & Hb & Hc)]; [auto|]. split_and!; auto.
Qed.

Lemma b64_groups_sextets l : Forall is_byte l -> Forall is_sextet (b64_groups l).
Proof.
  unfold is_byte, is_sextet. induction l as [|a|a b|a b c l IH] using triples_ind; intros Hl; simpl; [constructor| | |];
    repeat match goal with H : Forall _ (_ :: _) |- _ => apply Forall_cons in H as [? H] end;
    repeat (constructor; [Z.to_euclidean_division_equations; lia|]); auto.
Qed.

Lemma b64_bytes_groups l : Forall is_byte l -> b64_bytes (b64_groups l) = Some l.
Proof.
  unfold is_byte. induction l as [|a|a b|a b c l IH] using triples_ind; intros Hl; simpl; [done| | |];
    repeat match goal with H : Forall _ (_ :: _) |- _ => apply Forall_cons in H as [? H] end;
    [| |rewrite IH by done; simpl]; repeat (f_equal; try (Z.to_euclidean_division_equations; lia)).
Qed.

Lemma b64_values l : Forall is_sextet l -> mapM b64_value (map b64_char l) = Some l.
Proof. induction 1 as [|v l Hv _ IH]; [done|]. simpl. by rewrite (proj1 (b64_value_char v Hv)), IH. Qed.

Lemma b64_chars l : Forall is_byte l -> Forall (fun c => 33 <= c < 128) (b64_EncodeToString l).
Proof.
  intros Hl. apply Forall_map. eapply Forall_impl; [by apply b64_groups_sextets|]. intros v Hv. by destruct (b64_value_char v Hv).
Qed.

Lemma filter_all {A} (P : A -> Prop) `{forall x, Decision (P x)} l : Forall P l -> filter P l = l.
Proof. induction 1 as [|x l Hx _ IH]; [done|]. by rewrite filter_cons_True, IH. Qed.

Lemma b64_round_trip l : Forall is_byte l -> b64_DecodeString (b64_EncodeToString l) = Ok l.
Proof.
  intros Hl. unfold b64_DecodeString. rewrite filter_all.
  - unfold b64_EncodeToString. rewrite b64_values by by apply b64_groups_sextets. simpl. by rewrite b64_bytes_groups.
  - eapply Forall_impl; [by apply b64_chars|]. simpl. lia.
Qed.

(** ** Frames *)

Lemma ws_cipher_twice key data : ws_cipher key (ws_cipher key data) = data.
Proof.
  unfold ws_cipher. apply list_eq. intros i. rewrite !list_lookup_imap. destruct (data !! i) as [b|]; [|done]. simpl. f_equal.
  by rewrite Z.lxor_assoc, Z.lxor_nilpotent, Z.lxor_0_r.
Qed.

Lemma length_ws_cipher key data : length (ws_cipher key data) = length data.
Proof. apply length_imap. Qed.

(** The second byte of a frame. *)
Lemma second_byte (isServer : bool) d : 0 <= d < 128 ->
  let b := Z.lor (if isServer then 0 else 128) d in Z.land b 127 = d /\ Z.testbit b 7 = negb isServer.
Proof.
  intros Hd. cbv zeta. change 127 with (Z.ones 7). rewrite Z.land_ones by lia. destruct isServer; simpl negb.
  - rewrite Z.lor_0_l, Z.mod_small by lia. split; [done|]. rewrite Z.testbit_eqb by lia. by rewrite Z.div_small.
  - replace (Z.lor 128 d) with (d + 1 * 2 ^ 7) by (change 128 with (Z.shiftl 1 7); rewrite Z.lor_comm, lor_shiftl by lia; lia).
    split; [rewrite Z.mod_add, Z.mod_small by lia; done|]. rewrite Z.testbit_eqb, Z.div_add, Z.div_small by lia. done.
Qed.

(** A frame is read back: what the writer of a client or a server makes of a buffer is one
    binary frame of RFC 6455, masked exactly when a client wrote it, whose payload is the buffer. *)
Theorem ws_frame_read_back isServer maskKey data :
  Z.of_nat (length data) < 2 ^ 63 ->
  reads (fun r => let* '(b0, masked, l, r) := rfc6455_frame r in Ok ((b0, masked, l), r)) (ws_WriteBuffer isServer maskKey data)
    (130, negb isServer, data).
Proof.
  intros Hlen rest e. unfold rfc6455_frame, ws_WriteBuffer, ws_header. rewrite <-!app_assoc.
  set (n := Z.of_nat (length data)) in *. assert (0 <= n) by lia.
  set (payload := if isServer then data else ws_cipher (be_bytes 4 maskKey) data).
  assert (length payload = length data) as Hp by (unfold payload; destruct isServer; [done|apply length_ws_cipher]).
  assert (forall short ext (rd : Reader -> res (Z * Reader)), 0 <= short < 128 -> reads rd ext n ->
    (forall r, (if short =? 126 then ReadUint 2 r else if short =? 127 then ReadUint 8 r else Ok (short, r)) = rd r) ->
    (let* '(b0, masked, l, r) :=
       let* '(b0, r) := ReadByte {| rd_bytes := [Z.lor OpBinary 128] ++ (Z.lor (if isServer then 0 else 128) short :: ext) ++
          (if isServer then [] else be_bytes 4 maskKey) ++ payload ++ rest; rd_end := e |} in
       let* '(b1, r) := ReadByte r in
       let short := Z.land b1 127 in
       let* '(len, r) := (if short =? 126 then ReadUint 2 r else if short =? 127 then ReadUint 8 r else Ok (short, r)) in
       let masked := Z.testbit b1 7 in
       let* '(key, r) := (if masked then ReadFull 4 r else Ok ([], r)) in
       let* '(data, r) := ReadFull (Z.to_nat len) r in
       Ok (b0, masked, if masked then ws_cipher key data else data, r) in
     Ok ((b0, masked, l), r)) = Ok ((130, negb isServer, data), {| rd_bytes := rest; rd_end := e |})) as Hshape.
  { intros short ext rd Hs Hrd Hcase. destruct (second_byte isServer short Hs) as [H1 H2].
    cbn [app ReadByte rd_bytes rd_end res_bind]. cbv zeta. rewrite H1, H2, Hcase. rewrite Hrd. cbn [res_bind].
    assert (Z.to_nat n = length payload) as -> by lia. unfold payload. destruct isServer; cbn [negb app res_bind].
    - rewrite (reads_full data rest e). done.
    - rewrite <-(length_be_bytes 4 maskKey) at 1. rewrite (reads_full (be_bytes 4 maskKey)). cbn [res_bind].
      rewrite (reads_full (ws_cipher _ data)). cbn [res_bind]. by rewrite ws_cipher_twice. }
  destruct (Z.ltb_spec n 126) as [Hs|Hs]; [|destruct (Z.ltb_spec n 65536) as [Hm|Hm]].
  - apply (Hshape n [] (fun r => Ok (n, r))); [lia|by intros ? ?|]. intros r.
    rewrite (proj2 (Z.eqb_neq n 126)), (proj2 (Z.eqb_neq n 127)) by lia. done.
  - apply (Hshape 126 (be_bytes 2 n) (ReadUint 2)); [lia|apply reads_uint; lia|done].
  - apply (Hshape 127 (be_bytes 8 n) (ReadUint 8)); [lia|apply reads_uint; lia|done].
Qed.

(** ** Reads *)

(** What a reader of frames has left: the rest of the current frame, the frames
    to come (code and payload) and the error at their end. *)
Class WsReaderLaws (S : Type) `{WsReader S} : Type := {
  ws_view : S -> option (list Z) * list (Z * list Z) * ws_error;
  ws_close_code : list Z -> Z;
  ws_read_law n s : (0 < n)%nat ->
    match ws_view s with
    | (Some ((_ :: _) as l), fs, e) => exists m err s', (0 < m <= length l)%nat /\ ws_read n s = (take m l, err, s') /\
        (ws_view s' = (Some (drop m l), fs, e) \/ drop m l = [] /\ ws_view s' = (None, fs, e))
    | (Some [], fs, e) => exists s', ws_read n s = ([], Some WsEOF, s') /\ ws_view s' = (None, fs, e)
    | (None, fs, e) => exists s', ws_read n s = ([], Some WsNoFrameAdvance, s') /\ ws_view s' = (None, fs, e)
    end;
  ws_next_law s fs e : ws_view s = (None, fs, e) ->
    match fs with
    | [] => exists s', ws_next s = (inr e, s') /\ ws_view s' = (None, [], e)
    | (op, l) :: fs => exists s', ws_next s = (inl {| wh_OpCode := op; wh_Length := Z.of_nat (length l) |}, s') /\ ws_view s' = (Some l, fs, e)
    end;
  ws_discard_law s l fs e : ws_view s = (Some l, fs, e) -> exists s', ws_discard s = (None, s') /\ ws_view s' = (None, fs, e);
  ws_control_law s op l fs e : ws_view s = (Some l, fs, e) ->
    exists s', ws_control {| wh_OpCode := op; wh_Length := Z.of_nat (length l) |} s =
      (if op =? 8 then Some (WsClosed (ws_close_code l)) else None, s') /\ ws_view s' = (None, fs, e) }.

Section reads.
Context {S : Type} `{WsReaderLaws S}.

(** The stream the frames carry: the payloads of binary frames up to the first
    close frame, long control frame or the end, and how it ends. *)
Fixpoint ws_stream (fs : list (Z * list Z)) (e : ws_error) : list Z * ws_error :=
  match fs with
  | [] => ([], wrapWsError e)
  | (op, l) :: fs =>
      if is_control op then
        if 128 <? Z.of_nat (length l) then ([], WsFrameTooLarge)
        else if op =? 8 then ([], wrapWsError (WsClosed (ws_close_code l)))
        else ws_stream fs e
      else if Z.land op OpBinary =? 0 then ws_stream fs e
      else let '(data, fin) := ws_stream fs e in (l ++ data, fin)
  end.

Definition ws_left (s : S) : list Z * ws_error :=
  match ws_view s with
  | (cur, fs, e) => let '(data, fin) := ws_stream fs e in (default [] cur ++ data, fin)
  end.

Lemma ws_left_some s l fs e : ws_view s = (Some l, fs, e) -> ws_left s = (l ++ (ws_stream fs e).1, (ws_stream fs e).2).
Proof. intros Hv. unfold ws_left. rewrite Hv. by destruct (ws_stream fs e). Qed.

Lemma ws_left_none s fs e : ws_view s = (None, fs, e) -> ws_left s = ws_stream fs e.
Proof. intros Hv. unfold ws_left. rewrite Hv. by destruct (ws_stream fs e). Qed.

(** What one read gives: the next bytes, or the end. *)
Definition read_gives (s : S) (r : option ((list Z * option ws_error) * S)) : Prop :=
  exists l err s', r = Some ((l, err), s') /\
    match err with
    | None => l <> [] /\ (ws_left s).1 = l ++ (ws_left s').1 /\ (ws_left s').2 = (ws_left s).2
    | Some e => l = [] /\ ws_left s = ([], e)
    end.

Lemma read_gives_same s s' r : ws_left s = ws_left s' -> read_gives s' r -> read_gives s r.
Proof. unfold read_gives. by intros ->. Qed.

(** A frame of which something is left. *)
Lemma ws_read_bytes fs n s fuel x l e : (0 < n)%nat -> ws_view s = (Some (x :: l), fs, e) -> read_gives s (ws_Read (Datatypes.S fuel) n s).
Proof.
  intros Hn Hv. pose proof (ws_read_law n s Hn) as Hr. rewrite Hv in Hr. destruct Hr as (m & err & s1 & Hm & Hr & Hv1).
  cbn [ws_Read]. rewrite Hr.
  destruct (take m (x :: l)) as [|y k] eqn:Et; [apply (f_equal length) in Et; rewrite length_take in Et; simpl in *; lia|].
  exists (y :: k), None, s1. split; [done|]. split; [done|]. rewrite (ws_left_some _ _ _ _ Hv).
  assert (ws_left s1 = (drop m (x :: l) ++ (ws_stream fs e).1, (ws_stream fs e).2)) as ->.
  { destruct Hv1 as [Hv1|[-> Hv1]]; [by apply ws_left_some|]. rewrite (ws_left_none _ _ _ Hv1). by destruct (ws_stream fs e). }
  split; [|done]. cbn [fst]. by rewrite <-Et, app_assoc, take_drop.
Qed.

Lemma ws_read_loop fs n s fuel cur e :
  (0 < n)%nat -> ws_view s = (cur, fs, e) -> (length fs < fuel)%nat -> read_gives s (ws_Read fuel n s).
Proof.
  intros Hn. revert s cur fuel. induction fs as [|[op p] fs IH]; intros s cur [|fuel] Hv Hf; try (simpl in Hf; lia).
  all: destruct cur as [[|x l]|]; [|by eapply ws_read_bytes|].
  all: pose proof (ws_read_law n s Hn) as Hr; rewrite Hv in Hr; destruct Hr as (s1 & Hr & Hv1); cbn [ws_Read]; rewrite Hr; clear Hr.
  all: assert (ws_left s = ws_left s1) as Hs1 by (rewrite (ws_left_none _ _ _ Hv1); first [by rewrite (ws_left_none _ _ _ Hv)|rewrite (ws_left_some _ _ _ _ Hv); by destruct (ws_stream _ e)]).
  all: apply (read_gives_same s s1 _ Hs1); pose proof (ws_next_law s1 _ e Hv1) as (s2 & Hnx & Hv2); cbn [ws_Read]; rewrite Hnx; clear Hnx.
  1, 2: exists [], (Some (wrapWsError e)), s2; split; [done|]; by rewrite (ws_left_none _ _ _ Hv1).
  all: clear Hv Hs1 cur || clear Hv Hs1; pose proof (ws_left_none _ _ _ Hv1) as Hleft; cbn [ws_stream] in Hleft; cbn [wh_OpCode wh_Length].
  all: destruct (is_control op).
  1, 3: destruct (128 <? Z.of_nat (length p)); [by exists [], (Some WsFrameTooLarge), s2|].
  1, 2: destruct (ws_control_law s2 op p fs e Hv2) as (s3 & -> & Hv3); destruct (op =? 8); [by eexists [], _, s3|].
  1, 2: apply (read_gives_same s1 s3); [by rewrite Hleft, (ws_left_none _ _ _ Hv3)|apply (IH s3 None); [done|simpl in Hf; lia]].
  all: destruct (Z.land op OpBinary =? 0).
  1, 3: destruct (ws_discard_law s2 p fs e Hv2) as (s3 & -> & Hv3).
  1, 2: apply (read_gives_same s1 s3); [by rewrite Hleft, (ws_left_none _ _ _ Hv3)|apply (IH s3 None); [done|simpl in Hf; lia]].
  all: apply (read_gives_same s1 s2); [rewrite Hleft, (ws_left_some _ _ _ _ Hv2); by destruct (ws_stream fs e)|apply (IH s2 (Some p)); [done|simpl in Hf; lia]].
Qed.
End reads.

(** A read over frames returns: when the reader of frames does what it promises, a read into
    a buffer that is not empty comes back within as many rounds as frames are left and one, with the next
    bytes of the binary frames, or with the end of the stream when all of them were read; control
    frames and others are passed over. *)
Theorem ws_read_returns {S} `{WsReaderLaws S} n (s : S) cur fs e fuel :
  (0 < n)%nat -> ws_view s = (cur, fs, e) -> (length fs < fuel)%nat -> read_gives s (ws_Read fuel n s).
Proof. intros Hn Hv Hf. by eapply ws_read_loop. Qed.

(** ** Early data *)

(** Paths whose characters are all kept as they are. *)
Definition plain_path (path : string) : Prop := Forall (fun c => path_char c = true) (String.list_ascii_of_string path).

Lemma request_uri_plain path : plain_path path -> request_uri path = path.
Proof.
  unfold plain_path, request_uri. intros H. rewrite <-(String.string_of_list_ascii_of_string path) at 2. f_equal.
  induction H as [|c l Hc _ IH]; [done|]. simpl. by rewrite Hc, IH.
Qed.

Lemma path_char_b64 v : is_sextet v -> path_char (ascii_of_nat (Z.to_nat (b64_char v))) = true.
Proof.
  intros Hv. unfold is_sextet in Hv. replace v with (Z.of_nat (Z.to_nat v)) by lia. generalize (Z.to_nat v) (ltac:(lia) : (Z.to_nat v < 64)%nat).
  intros n Hn. do 64 (destruct n as [|n]; [vm_compute; reflexivity|]). lia.
Qed.

Lemma plain_path_b64 path l : Forall is_byte l -> plain_path path -> plain_path (path +:+ string_of_bytes (b64_EncodeToString l)).
Proof.
  intros Hl Hp. unfold plain_path. change String.list_ascii_of_string with chars. rewrite chars_app. apply Forall_app. split; [done|].
  unfold string_of_bytes, chars. rewrite String.list_ascii_of_string_of_list_ascii. unfold b64_EncodeToString. rewrite map_map.
  apply Forall_map. eapply Forall_impl; [by apply b64_groups_sextets|]. intros v. apply path_char_b64.
Qed.

Lemma b64_encoded_bytes l : Forall is_byte l -> bytes_of (string_of_bytes (b64_EncodeToString l)) = b64_EncodeToString l.
Proof. intros Hl. apply bytes_of_string_of. eapply Forall_impl; [by apply b64_chars|]. unfold is_byte. simpl. lia. Qed.

Lemma b64_nonempty l : l <> [] -> string_of_bytes (b64_EncodeToString l) <> "".
Proof. destruct l as [|a [|b [|c l]]]; done. Qed.

(** A client and a server of the same options. *)
Definition agree (c : WsClient) (s : WsServer) : Prop :=
  wc_path c = wv_path s /\ plain_path (wc_path c) /\ wc_maxEarlyData c = wv_maxEarlyData s /\ 0 < wc_maxEarlyData c /\
  wc_earlyDataHeaderName c = wv_earlyDataHeaderName s /\ wc_headers c !! wc_earlyDataHeaderName c = None.

(** What the server takes out of a request. *)
Definition received (s : WsServer) (q : WsRequest) : served := ServeHTTP s (wq_path q) (request_uri (wq_path q)) (request_headers q).

Lemma take_protocols_request path h :
  let q := fst (take_protocols path h) in wq_path q = path /\ forall name, header_Get name (request_headers q) = header_Get name h.
Proof.
  unfold take_protocols. case_bool_decide as Hp; simpl; [|done]. split; [done|]. intros name. unfold header_Get, request_headers. simpl.
  destruct (decide (name = protocol_header)) as [->|Hne].
  - rewrite lookup_insert_eq. simpl. unfold header_Get in Hp. by destruct (h !! protocol_header).
  - by rewrite lookup_insert_ne, lookup_delete_ne.
Qed.

Lemma served_in_path s path h l : wv_path s = path -> plain_path path -> wv_earlyDataHeaderName s = "" -> 0 < wv_maxEarlyData s -> Forall is_byte l ->
  ServeHTTP s (path +:+ string_of_bytes (b64_EncodeToString l)) (request_uri (path +:+ string_of_bytes (b64_EncodeToString l))) h = Served l.
Proof.
  intros Hpath Hplain Hname Hmax Hl. unfold ServeHTTP. rewrite Hname, Hpath. rewrite (proj2 (Z.eqb_neq _ 0)) by lia. simpl.
  rewrite request_uri_plain by by apply plain_path_b64. rewrite HasPrefix_app, str_drop_app, b64_encoded_bytes, b64_round_trip by done. done.
Qed.

Lemma served_in_header s path h l : wv_path s = path -> wv_earlyDataHeaderName s <> "" -> Forall is_byte l ->
  header_Get (wv_earlyDataHeaderName s) h = (if bool_decide (l = []) then "" else string_of_bytes (b64_EncodeToString l)) ->
  ServeHTTP s path (request_uri path) h = Served l.
Proof.
  intros Hpath Hname Hl Hh. unfold ServeHTTP. rewrite Hpath, !(bool_decide_true (path = path)), Hh by done. rewrite andb_false_r.
  rewrite (bool_decide_false (_ = "")) by done. simpl. case_bool_decide as He; simpl; [by subst|].
  rewrite bool_decide_true by by apply b64_nonempty. by rewrite b64_encoded_bytes, b64_round_trip.
Qed.

(** The request of a first write. *)
Lemma writeRequest_received c s content conn buffered :
  agree c s -> Forall is_byte content ->
  exists q late c', writeRequest c content (WsDialed conn buffered) None = (Some q, late, c', inl conn) /\
    exists early, received s q = Served early /\ early ++ late = content.
Proof.
  intros (Hpath & Hplain & Hmax & Hpos & Hname & Hfree) Hc. unfold writeRequest.
  destruct (split_content (wc_maxEarlyData c) content) as [early late] eqn:Es.
  assert (early ++ late = content) as Hsplit by (unfold split_content in Es; case_match; simplify_eq; [apply take_drop|apply app_nil_r]).
  assert (Forall is_byte early) as Hearly by (rewrite <-Hsplit in Hc; by apply Forall_app in Hc as [? _]).
  assert (forall path h, exists q h', ws_dialContext path h (WsDialed conn buffered) = (Some q, h', inl (conn, [])) /\
    wq_path q = path /\ forall name, header_Get name (request_headers q) = header_Get name h) as Hdial.
  { intros path h. unfold ws_dialContext. pose proof (take_protocols_request path h) as Hq. destruct (take_protocols path h) as [q h'].
    exists q, h'. rewrite take_0. done. }
  assert (forall (q : WsRequest) (c' : WsClient), received s q = Served early ->
    exists q1 late1 c1, (match late with [] => (Some q, [], c', inl conn) | _ => (Some q, late, c', inl conn) end
      : option WsRequest * list Z * WsClient * (nat + error)) = (Some q1, late1, c1, inl conn) /\
      exists early, received s q1 = Served early /\ early ++ late1 = content) as Hend.
  { intros q c' Hr. exists q, late, c'. split; [by destruct late|]. by exists early. }
  destruct early as [|x early].
  - destruct (Hdial (wc_path c) (wc_headers c)) as (q & h' & -> & Hq & Hh). simpl. apply (Hend q).
    unfold received. rewrite Hq. destruct (decide (wv_earlyDataHeaderName s = "")) as [He|He].
    + pose proof (served_in_path s (wc_path c) (request_headers q) [] (eq_sym Hpath) Hplain He ltac:(lia) Hearly) as Hs.
      change (string_of_bytes (b64_EncodeToString [])) with "" in Hs. by rewrite str_app_nil in Hs.
    + apply served_in_header; [done|done|done|]. rewrite Hh. unfold header_Get. rewrite <-Hname, Hfree. done.
  - cbn [app] in Hend. destruct (decide (wc_earlyDataHeaderName c = "")) as [He|He].
    + rewrite bool_decide_true by done. destruct (Hdial (wc_path c +:+ string_of_bytes (b64_EncodeToString (x :: early))) (wc_headers c)) as (q & h' & -> & Hq & Hh).
      apply (Hend q). unfold received. rewrite Hq. apply served_in_path; try done; [congruence|lia].
    + rewrite bool_decide_false by done.
      destruct (Hdial (wc_path c) (<[wc_earlyDataHeaderName c := string_of_bytes (b64_EncodeToString (x :: early))]> (wc_headers c))) as (q & h' & -> & Hq & Hh).
      apply (Hend q). unfold received. rewrite Hq. apply served_in_header; [done|congruence|done|]. rewrite Hh. unfold header_Get.
      by rewrite <-Hname, lookup_insert_eq.
Qed.

(** ** The early connection *)

(** Writes in order, each with the outcome of a dial it may make. *)
Fixpoint early_writes (l : list (list Z * ws_dial * option error)) (c : EarlyConn) : list early_result * EarlyConn :=
  match l with
  | [] => ([], c)
  | (b, d, late_error) :: l =>
      let '(r, c) := early_Write b d late_error c in
      let '(rs, c) := early_writes l c in (r :: rs, c)
  end.

Lemma early_after l c : is_Some (ec_conn c) \/ is_Some (ec_err c) ->
  early_writes l c = (map (fun w => match ec_conn c with
                                    | Some conn => EarlyForward conn w.1.1
                                    | None => EarlyError (default ErrInvalid (ec_err c)) end) l, c).
Proof.
  intros Hc. induction l as [|[[b d] e] l IH]; simpl; [done|]. unfold early_Write.
  destruct (ec_conn c) as [conn|] eqn:E1; [by rewrite IH|]. destruct (ec_err c) as [e1|] eqn:E2; [by rewrite IH|].
  by destruct Hc as [[? ?]|[? ?]].
Qed.

(** What the server has of the writes: the early data, and what is written to the
    connection. *)
Definition written_to (s : WsServer) (r : early_result) : list Z :=
  match r with
  | EarlyForward _ b => b
  | EarlyRequest (Some q) late _ => match received s q with Served early => early ++ late | _ => [] end
  | _ => []
  end.

(** Nothing is lost at the start: of a client and a server with the same options, whatever the
    first write is and however long, the request is dialled once, the server takes the early data out of it, and with
    what is written to the connection it has the bytes of all writes in order. *)
Theorem early_stream_complete c s w l conn buffered :
  agree c s -> Forall is_byte w ->
  let '(rs, c') := early_writes ((w, WsDialed conn buffered, None) :: l) (NewEarlyConn c) in
  concat (map (written_to s) rs) = w ++ concat (map (fun w => w.1.1) l) /\
  Forall (fun r => exists b, r = EarlyForward conn b) (tail rs) /\ early_Read c' = EarlyForward conn [].
Proof.
  intros Ha Hw. cbn [early_writes]. unfold early_Write, NewEarlyConn. cbn [ec_conn ec_err ec_client ec_created].
  destruct (writeRequest_received c s w conn buffered Ha Hw) as (q & late & c1 & -> & early & Hr & Heq).
  rewrite early_after by (left; by eexists). cbn [ec_conn map concat tail written_to]. rewrite Hr, Heq. split_and!.
  - f_equal. f_equal. rewrite map_map. by apply map_ext.
  - apply Forall_map, Forall_forall. eauto.
  - done.
Qed.

(** When the first write fails, its error is that of every later call. *)
Lemma early_failure_kept c w d late_error l e :
  (writeRequest c w d late_error).2 = inr e ->
  let '(rs, c') := early_writes ((w, d, late_error) :: l) (NewEarlyConn c) in
  tail rs = map (fun _ => EarlyError e) l /\ early_Read c' = EarlyError e.
Proof.
  intros He. cbn [early_writes]. unfold early_Write, NewEarlyConn. cbn [ec_conn ec_err ec_client ec_created].
  destruct (writeRequest c w d late_error) as [[[q late] c1] r]. simpl in He. subst r.
  rewrite early_after by (right; by eexists). done.
Qed.

(** ** Examples *)

Lemma ws_frame_read_back_witness :
  Z.of_nat (length [104; 105]) < 2 ^ 63 /\
  reads (fun r => let* '(b0, masked, l, r) := rfc6455_frame r in Ok ((b0, masked, l), r)) (ws_WriteBuffer false 305419896 [104; 105]) (130, true, [104; 105]).
Proof. split; [vm_compute; reflexivity|]. apply (ws_frame_read_back false 305419896 [104; 105]). vm_compute. reflexivity. Defined.

(** A reader of frames that are given as they are. *)
Definition toy_ws : Type := option (list Z) * list (Z * list Z) * ws_error.
#[local] Instance toy_ws_reader : WsReader toy_ws := {|
  ws_read n s :=
    match s with
    | (Some ((_ :: _) as l), fs, e) => (take n l, None, (Some (drop n l), fs, e))
    | (Some [], fs, e) => ([], Some WsEOF, (None, fs, e))
    | (None, fs, e) => ([], Some WsNoFrameAdvance, (None, fs, e))
    end;
  ws_next s :=
    match s with
    | (_, [], e) => (inr e, (None, [], e))
    | (_, (op, l) :: fs, e) => (inl {| wh_OpCode := op; wh_Length := Z.of_nat (length l) |}, (Some l, fs, e))
    end;
  ws_discard s := (None, (None, s.1.2, s.2));
  ws_control h s := (if wh_OpCode h =? 8 then Some (WsClosed (big_endian (take 2 (default [] s.1.1)))) else None, (None, s.1.2, s.2)) |}.

#[local] Instance toy_ws_laws : WsReaderLaws toy_ws.
Proof.
  refine {| ws_view (s : toy_ws) := s; ws_close_code l := big_endian (take 2 l) |}.
  - intros n [[[[|x l]|] fs] e] Hn; [by eexists| |by eexists]. exists (min n (length (x :: l))), None, (Some (drop n (x :: l)), fs, e).
    split; [simpl; lia|]. destruct (decide (n <= length (x :: l))%nat).
    + rewrite Nat.min_l by done. split; [done|by left].
    + rewrite Nat.min_r by lia. rewrite firstn_all, skipn_all.
      assert (drop n (x :: l) = []) as Hd by (apply drop_ge; lia). split; [|left; by rewrite Hd]. change (ws_read n _) with (take n (x :: l), @None ws_error, (Some (drop n (x :: l)), fs, e)).
      by rewrite take_ge by lia.
  - intros s [|[op l] fs] e ->; by eexists.
  - intros s l fs e ->. by eexists.
  - intros s op l fs e ->. by eexists.
Defined.

Definition some_frames : toy_ws := (None, [(9, [1; 2]); (1, [120]); (2, [104; 105]); (8, [3; 232])], WsOther ErrInvalid).

Lemma ws_read_returns_witness : (0 < 8)%nat /\ (4 < 5)%nat /\ read_gives some_frames (ws_Read 5 8 some_frames).
Proof. split; [lia|]. split; [lia|]. apply (ws_read_returns 8 some_frames None (snd (fst some_frames)) (snd some_frames) 5); [lia|reflexivity|simpl; lia]. Defined.

(** A ping and a text frame are passed over; a close frame with code 1000 is the
    end. *)
Example read_some_frames :
  match ws_Read 5 8 some_frames with
  | Some (r, s) => (r, option_map fst (ws_Read 5 8 s))
  | None => (([], None), None)
  end = (([104; 105], None), Some ([], Some WsEOF)).
Proof. vm_compute. reflexivity. Qed.

Definition some_ws_client : WsClient := (NewWsClient "example.org" "/ws" ∅ 4 "").2.
Definition some_ws_server : WsServer := NewWsServer "/ws" 4 "".

Lemma early_stream_complete_witness :
  agree some_ws_client some_ws_server /\ Forall is_byte [104; 101; 108; 108; 111] /\
  concat (map (written_to some_ws_server)
    (early_writes [([104; 101; 108; 108; 111], WsDialed 1 [], None); ([33], WsDialed 2 [], None)] (NewEarlyConn some_ws_client)).1) =
  [104; 101; 108; 108; 111; 33].
Proof.
  assert (agree some_ws_client some_ws_server) as Ha.
  { unfold agree. split; [reflexivity|]. split; [repeat (apply List.Forall_cons; [vm_compute; reflexivity|]); apply List.Forall_nil|]. split; [reflexivity|]. split; [vm_compute; reflexivity|].
    split; vm_compute; reflexivity. }
  assert (Forall is_byte [104; 101; 108; 108; 111]) as Hb by (repeat constructor; unfold is_byte; lia).
  split; [exact Ha|]. split; [exact Hb|].
  pose proof (early_stream_complete some_ws_client some_ws_server [104; 101; 108; 108; 111] [([33], WsDialed 2 [], None)] 1 [] Ha Hb) as H.
  destruct (early_writes _ (NewEarlyConn some_ws_client)) as [rs c']. destruct H as [H _]. exact H.
Defined.

(** Bytes that came with the answer to the upgrade are lost. *)
Example bytes_after_upgrade_lost :
  (ws_dialContext "/ws" ∅ (WsDialed 1 [104; 105])).2 = inl (1%nat, []).
Proof. vm_compute. reflexivity. Qed.

(** A protocol in the headers of the options is sent with the first request and
    not again. *)
Example protocol_sent_once :
  let c := (NewWsClient "example.org" "/ws" {[ protocol_header := "chat" ]} 0 "").2 in
  let '(q1, h, _) := ws_dialContext (wc_path c) (wc_headers c) (WsDialed 1 []) in
  let '(q2, _, _) := ws_dialContext (wc_path c) h (WsDialed 2 []) in
  (wq_protocols <$> q1, wq_protocols <$> q2) = (Some ["chat"], Some []).
Proof. vm_compute. reflexivity. Qed.

(** Closed before its first write, an early connection leaves its reader waiting
    and dials when it is written to. *)
Example closed_before_write :
  let c := NewEarlyConn some_ws_client in
  (early_Close c, early_Read c) = (EarlyClosed None, EarlyBlocked) /\ (early_Write [104] (WsDialed 1 []) None c).2.(ec_conn) = Some 1%nat.
Proof. vm_compute. auto. Qed.

(** A connection whose late data cannot be written is in no field: nothing closes
    it. *)
Example late_failure_drops_connection :
  let '(r, c) := early_Write [1; 2; 3; 4; 5] (WsDialed 7 []) (Some ErrEOF) (NewEarlyConn some_ws_client) in
  (ec_conn c, early_Close c) = (None, EarlyClosed None).
Proof. vm_compute. reflexivity. Qed.

(** A query is taken for early data when the header name is empty. *)
Example query_is_early_data : ServeHTTP (NewWsServer "/ws" 0 "") "/ws" "/ws?ed=2048" ∅ = BadRequest 400.
Proof. vm_compute. reflexivity. Qed.
