(* ===== verification/Resolved.v ===== *)
(** * The service in the place of systemd-resolved

    service/resolved: the links other programs set servers and domains for over
    D-Bus ([resolve1Manager]), the servers a transport keeps for each of them,
    the link a query is asked on, and the calls that resolve names.  A link is a
    pointer both sides hold, so links live in a heap.  The lock of the links is a
    flag: a call that returns without releasing it blocks every later one.  The
    interface finder, D-Bus, /proc, dialers and the DNS router are arguments. *)

From stdpp Require Import base list sets gmap strings.
From Stdlib Require Import ZArith Lia Ascii.
From S2P Require Import Prelude GoStd External Adapter RuleAction DnsMsg ByteReader DnsWire StringFacts HostsFile DnsHijack DnsLocal.

Open Scope Z_scope.
Open Scope box_scope.

(** ** Data *)

(** [*control.Interface]: the pointer and the name behind it. *)
Record Iface : Type := { ifc_ptr : nat; ifc_Name : string }.

#[global] Instance Iface_eq_dec : EqDecision Iface.
Proof. solve_decision. Defined.

Record LinkDNS : Type := { ld_Family : Z; ld_Address : list Z }.
Record LinkDNSEx : Type := { lx_Family : Z; lx_Address : list Z; lx_Port : Z; lx_Name : string }.
Record LinkDomain : Type := { lm_Domain : string; lm_RoutingOnly : bool }.

Record TransportLink : Type := {
  tl_iif : option Iface;
  tl_address : list LinkDNS;
  tl_addressEx : list LinkDNSEx;
  tl_domain : list LinkDomain;
  tl_defaultRoute : bool;
  tl_dnsOverTLS : bool }.

(** A server of a link: over UDP, or over TLS with the name it must have. *)
Record LinkServer : Type := { sv_iface : string; sv_addr : Addr; sv_port : Z; sv_tls : option string }.

(** [LinkServers]: the transports, numbered as they are made. *)
Record LinkServers : Type := { ls_Link : nat; ls_Servers : list (nat * LinkServer); ls_serverOffset : Z }.

(** [Transport]; [rt_next] numbers the servers made so far, [rt_closed] are those
    that were closed. *)
Record ResolvedTransport : Type := {
  rt_acceptDefaultResolvers : bool; rt_ndots : Z; rt_attempts : Z; rt_rotate : bool;
  rt_linkServers : gmap nat LinkServers; rt_next : nat; rt_closed : list nat }.

(** [Service] with its links and the transport that registered its callbacks. *)
Record ResolvedService : Type := {
  rs_heap : gmap nat TransportLink;
  rs_links : gmap Z nat;
  rs_nextLink : nat;
  rs_defaultRouteSequence : list Z;
  rs_locked : bool;
  rs_transport : option ResolvedTransport }.

Definition with_heap h s := {| rs_heap := h; rs_links := rs_links s; rs_nextLink := rs_nextLink s; rs_defaultRouteSequence := rs_defaultRouteSequence s; rs_locked := rs_locked s; rs_transport := rs_transport s |}.
Definition with_links l s := {| rs_heap := rs_heap s; rs_links := l; rs_nextLink := rs_nextLink s; rs_defaultRouteSequence := rs_defaultRouteSequence s; rs_locked := rs_locked s; rs_transport := rs_transport s |}.
Definition with_sequence q s := {| rs_heap := rs_heap s; rs_links := rs_links s; rs_nextLink := rs_nextLink s; rs_defaultRouteSequence := q; rs_locked := rs_locked s; rs_transport := rs_transport s |}.
Definition with_locked b s := {| rs_heap := rs_heap s; rs_links := rs_links s; rs_nextLink := rs_nextLink s; rs_defaultRouteSequence := rs_defaultRouteSequence s; rs_locked := b; rs_transport := rs_transport s |}.
Definition with_rtransport t s := {| rs_heap := rs_heap s; rs_links := rs_links s; rs_nextLink := rs_nextLink s; rs_defaultRouteSequence := rs_defaultRouteSequence s; rs_locked := rs_locked s; rs_transport := t |}.
Definition with_linkServers l t := {| rt_acceptDefaultResolvers := rt_acceptDefaultResolvers t; rt_ndots := rt_ndots t; rt_attempts := rt_attempts t; rt_rotate := rt_rotate t; rt_linkServers := l; rt_next := rt_next t; rt_closed := rt_closed t |}.
Definition with_servers_closed l t := {| rt_acceptDefaultResolvers := rt_acceptDefaultResolvers t; rt_ndots := rt_ndots t; rt_attempts := rt_attempts t; rt_rotate := rt_rotate t; rt_linkServers := rt_linkServers t; rt_next := rt_next t; rt_closed := rt_closed t ++ l |}.
Definition with_server_count n t := {| rt_acceptDefaultResolvers := rt_acceptDefaultResolvers t; rt_ndots := rt_ndots t; rt_attempts := rt_attempts t; rt_rotate := rt_rotate t; rt_linkServers := rt_linkServers t; rt_next := n; rt_closed := rt_closed t |}.

(** [NewService], as far as its links go *)
Definition NewResolvedService : ResolvedService :=
  {| rs_heap := ∅; rs_links := ∅; rs_nextLink := 0; rs_defaultRouteSequence := []; rs_locked := false; rs_transport := None |}.

(** [NewTransport] *)
Definition NewResolvedTransport (acceptDefaultResolvers : bool) : ResolvedTransport :=
  {| rt_acceptDefaultResolvers := acceptDefaultResolvers; rt_ndots := 1; rt_attempts := 2; rt_rotate := false;
     rt_linkServers := ∅; rt_next := 0; rt_closed := [] |}.

Definition TypeResolved : string := "resolved".

(** *** D-Bus errors *)

(** [dbus.MakeFailedError] of an error, or the error of a response code. *)
Inductive dbus_error : Type :=
  | DBusFailed (e : error)
  | DBusRcode (rcode : Z).

Definition rcodeError (rcode : Z) : dbus_error := DBusRcode rcode.

(** [wrapError] of an error that is not nil *)
Definition wrapError (e : error) : dbus_error :=
  match errors_As_rcode e with Some rcode => rcodeError rcode | None => DBusFailed e end.

(** How a call ends: with a value, with an error, in a panic, or not at all,
    waiting for the lock. *)
Inductive reply (A : Type) : Type :=
  | Replied (a : A)
  | Failed (e : dbus_error)
  | Crashed (msg : string)
  | Blocked.
Arguments Replied {A} _.
Arguments Failed {A} _.
Arguments Crashed {A} _.
Arguments Blocked {A}.

Definition nil_dereference : string := "invalid memory address or nil pointer dereference".

(** ** The servers of a link *)

(** [netip.AddrFromSlice] *)
Definition AddrFromSlice (l : list Z) : option Addr :=
  if (length l =? 4)%nat then Some (Addr4 (big_endian l))
  else if (length l =? 16)%nat then Some (Addr6 (big_endian l) "")
  else None.

Section servers.
(** [Addr.String]; what [dialer.NewDefault] bound to an interface and
    [tls.NewClient] for a name say. *)
Context (Addr_String : Addr -> string) (NewDefault : string -> option error) (tls_NewClient : string -> option error).

(** [common.Must1] *)
Definition must1 (e : option error) : res unit := match e with Some _ => Panic "must" | None => Ok tt end.

(** The loops of [updateTransports] *)
Definition link_server (iif : Iface) (overTLS : bool) (address : list Z) (name : string) (port : Z) : res LinkServer :=
  match AddrFromSlice address with
  | None => Err ErrInvalid
  | Some addr =>
      if overTLS then
        let serverName := if bool_decide (name <> "") then name else Addr_String addr in
        let* _ := must1 (tls_NewClient serverName) in
        Ok {| sv_iface := ifc_Name iif; sv_addr := addr; sv_port := port; sv_tls := Some serverName |}
      else Ok {| sv_iface := ifc_Name iif; sv_addr := addr; sv_port := port; sv_tls := None |}
  end.

Definition link_server_list (iif : Iface) (link : TransportLink) : res (list LinkServer) :=
  let* a := res_mapi (fun _ d => link_server iif (tl_dnsOverTLS link) (ld_Address d) "" 53) 0 (tl_address link) in
  let* b := res_mapi (fun _ d => link_server iif (tl_dnsOverTLS link) (lx_Address d) (lx_Name d) (lx_Port d)) 0 (tl_addressEx link) in
  Ok (a ++ b).

Definition close_link_servers (id : nat) (t : ResolvedTransport) : ResolvedTransport :=
  match rt_linkServers t !! id with
  | Some servers => with_servers_closed (map fst (ls_Servers servers)) t
  | None => t
  end.

(** [updateTransports] *)
Definition updateTransports (id : nat) (link : TransportLink) (t : ResolvedTransport) : res unit * ResolvedTransport :=
  let t := close_link_servers id t in
  match tl_iif link with
  | None => (Panic nil_dereference, t)
  | Some iif =>
      match (let* _ := must1 (NewDefault (ifc_Name iif)) in link_server_list iif link) with
      | Ok transports =>
          (Ok tt,
           with_server_count (rt_next t + length transports)
             (with_linkServers
                (<[id := {| ls_Link := id; ls_Servers := imap (fun i x => (rt_next t + i, x)%nat) transports; ls_serverOffset := 0 |}]>
                   (rt_linkServers t)) t))
      | Err e => (Err e, t)
      | Panic msg => (Panic msg, t)
      end
  end.

(** [deleteTransport] *)
Definition deleteTransport (id : nat) (t : ResolvedTransport) : ResolvedTransport :=
  match rt_linkServers t !! id with
  | None => t
  | Some servers => with_linkServers (delete id (rt_linkServers t)) (with_servers_closed (map fst (ls_Servers servers)) t)
  end.

(** [Transport.Close] *)
Definition ResolvedTransport_Close (t : ResolvedTransport) : ResolvedTransport :=
  with_servers_closed (concat (map (fun x => map fst (ls_Servers x.2)) (map_to_list (rt_linkServers t)))) t.

(** ** Links *)

(** [InterfaceFinder().ByIndex] at the time of a call *)
Context (ByIndex : Z -> Iface + error).

Definition new_link : TransportLink :=
  {| tl_iif := None; tl_address := []; tl_addressEx := []; tl_domain := []; tl_defaultRoute := false; tl_dnsOverTLS := false |}.

Definition set_iif (iif : Iface) (l : TransportLink) : TransportLink :=
  {| tl_iif := Some iif; tl_address := tl_address l; tl_addressEx := tl_addressEx l; tl_domain := tl_domain l;
     tl_defaultRoute := tl_defaultRoute l; tl_dnsOverTLS := tl_dnsOverTLS l |}.

(** [getLink]: the new link is stored before its interface is looked up. *)
Definition getLink (ifIndex : Z) (s : ResolvedService) : (nat + dbus_error) * ResolvedService :=
  match rs_links s !! ifIndex with
  | Some id => (inl id, s)
  | None =>
      let id := rs_nextLink s in
      let s := {| rs_heap := <[id := new_link]> (rs_heap s); rs_links := <[ifIndex := id]> (rs_links s); rs_nextLink := S id;
                  rs_defaultRouteSequence := rs_defaultRouteSequence s; rs_locked := rs_locked s; rs_transport := rs_transport s |} in
      match ByIndex ifIndex with
      | inr e => (inr (wrapError e), s)
      | inl iif => (inl id, with_heap (<[id := set_iif iif new_link]> (rs_heap s)) s)
      end
  end.

(** The text of a response code, [mDNS.RcodeToString]. *)
Context (RcodeToString : Z -> string).

(** [wrapError] of an error that is a D-Bus error already *)
Definition wrapDBusError (e : dbus_error) : dbus_error :=
  match e with DBusFailed e => DBusFailed e | DBusRcode rcode => DBusFailed (ErrNew (RcodeToString rcode)) end.

(** [postUpdate] *)
Definition resolved_postUpdate (id : nat) (s : ResolvedService) : reply unit * ResolvedService :=
  match rs_transport s, rs_heap s !! id with
  | Some t, Some link =>
      match updateTransports id link t with
      | (Ok _, t) => (Replied tt, with_rtransport (Some t) s)
      | (Err e, t) => (Failed (wrapError e), with_rtransport (Some t) s)
      | (Panic msg, t) => (Crashed msg, with_rtransport (Some t) s)
      end
  | _, _ => (Replied tt, s)
  end.

(** The shape of the calls that set something for a link: [wrap] is what they make
    of an error of [getLink], [change] what they store in the link and [order] in
    the sequence; the message to the log has the name of the interface in it. *)
Definition set_link (wrap : dbus_error -> dbus_error) (ifIndex : Z) (change : TransportLink -> TransportLink) (order : list Z -> list Z)
  (s : ResolvedService) : reply unit * ResolvedService :=
  if rs_locked s then (Blocked, s)
  else
    match getLink ifIndex s with
    | (inr e, s) => (Failed (wrap e), s)
    | (inl id, s) =>
        let s := with_sequence (order (rs_defaultRouteSequence s)) (with_heap (alter change id (rs_heap s)) s) in
        match rs_heap s !! id ≫= tl_iif with
        | None => (Crashed nil_dereference, s)
        | Some _ => resolved_postUpdate id s
        end
    end.

Definition SetLinkDNS (ifIndex : Z) (addresses : list LinkDNS) : ResolvedService -> reply unit * ResolvedService :=
  set_link wrapDBusError ifIndex
    (fun l => {| tl_iif := tl_iif l; tl_address := addresses; tl_addressEx := tl_addressEx l; tl_domain := tl_domain l;
                 tl_defaultRoute := tl_defaultRoute l; tl_dnsOverTLS := tl_dnsOverTLS l |}) id.

Definition SetLinkDNSEx (ifIndex : Z) (addresses : list LinkDNSEx) : ResolvedService -> reply unit * ResolvedService :=
  set_link wrapDBusError ifIndex
    (fun l => {| tl_iif := tl_iif l; tl_address := tl_address l; tl_addressEx := addresses; tl_domain := tl_domain l;
                 tl_defaultRoute := tl_defaultRoute l; tl_dnsOverTLS := tl_dnsOverTLS l |}) id.

Definition SetLinkDomains (ifIndex : Z) (domains : list LinkDomain) : ResolvedService -> reply unit * ResolvedService :=
  set_link wrapDBusError ifIndex
    (fun l => {| tl_iif := tl_iif l; tl_address := tl_address l; tl_addressEx := tl_addressEx l; tl_domain := domains;
                 tl_defaultRoute := tl_defaultRoute l; tl_dnsOverTLS := tl_dnsOverTLS l |}) id.

Definition without_index (ifIndex : Z) (l : list Z) : list Z := List.filter (fun it => negb (it =? ifIndex)) l.

Definition SetLinkDefaultRoute (ifIndex : Z) (defaultRoute : bool) : ResolvedService -> reply unit * ResolvedService :=
  set_link (fun e => e) ifIndex
    (fun l => {| tl_iif := tl_iif l; tl_address := tl_address l; tl_addressEx := tl_addressEx l; tl_domain := tl_domain l;
                 tl_defaultRoute := defaultRoute; tl_dnsOverTLS := tl_dnsOverTLS l |})
    (fun q => without_index ifIndex q ++ if defaultRoute then [ifIndex] else []).

Definition SetLinkDNSOverTLS (ifIndex : Z) (dotMode : string) : ResolvedService -> reply unit * ResolvedService :=
  set_link wrapDBusError ifIndex
    (fun l => {| tl_iif := tl_iif l; tl_address := tl_address l; tl_addressEx := tl_addressEx l; tl_domain := tl_domain l;
                 tl_defaultRoute := tl_defaultRoute l;
                 tl_dnsOverTLS := if bool_decide (dotMode = "yes") then true
                   else if bool_decide (dotMode ∈ ["opportunistic"; "no"; ""]) then false else tl_dnsOverTLS l |}) id.

(** [RevertLink]: the link leaves the table, and its servers are made once more. *)
Definition RevertLink (ifIndex : Z) (s : ResolvedService) : reply unit * ResolvedService :=
  if rs_locked s then (Blocked, s)
  else
    match getLink ifIndex s with
    | (inr e, s) => (Failed (wrapDBusError e), s)
    | (inl id, s) =>
        let s := with_links (delete ifIndex (rs_links s)) s in
        match rs_heap s !! id ≫= tl_iif with
        | None => (Crashed nil_dereference, s)
        | Some _ => resolved_postUpdate id s
        end
    end.

(** Whether the interface of a link is another one now *)
Definition link_changed (ifIndex : Z) (id : nat) (s : ResolvedService) : bool :=
  match ByIndex ifIndex with
  | inr _ => true
  | inl iif => negb (bool_decide (Some iif = (rs_heap s !! id ≫= tl_iif)))
  end.

(** [onNetworkUpdate]; the order the links are visited in makes no difference. *)
Definition onNetworkUpdate (s : ResolvedService) : reply unit * ResolvedService :=
  if rs_locked s then (Blocked, s)
  else
    let q := List.filter (fun it => negb (bool_decide (is_Some (rs_links s !! it)))) (rs_defaultRouteSequence s) in
    let t := (fun t => fold_left (fun t x => deleteTransport x.2 t) (map_to_list (rs_links s)) t) <$> rs_transport s in
    let links := filter (fun x => link_changed x.1 x.2 s = false) (rs_links s) in
    (Replied tt, with_links links (with_sequence q (with_rtransport t s))).
End servers.

(** ** Starting *)

(** What [RequestName] replies. *)
Inductive name_reply : Type := PrimaryOwner | NameExists | NameOther (code : Z).

(** [Service.Start] at its first stage: the other services with their types, and
    what the bus says to the connection, the export and the request of the name.
    It registers for updates of the network when it succeeds. *)
Definition ResolvedService_Start (others : list string) (bus export : option error) (request : name_reply + error) (render : Z -> string)
  : option error :=
  if existsb (fun ty => bool_decide (ty = TypeResolved)) others then Some (ErrNew "multiple resolved service are not supported")
  else
    match bus, export, request with
    | Some e, _, _ => Some e
    | None, Some e, _ => Some e
    | None, None, inr e => Some e
    | None, None, inl PrimaryOwner => None
    | None, None, inl NameExists => Some (ErrNew "D-Bus object already exists, maybe real resolved is running")
    | None, None, inl (NameOther code) => Some (ErrNew ("unknown request name reply: " +:+ render code))
    end.

(** [Transport.Start] at its first stage, with the service under its tag: none,
    one of another type, or this one, whose callbacks it becomes. *)
Inductive found_service : Type := NoService | OtherService | TheService.

Definition ResolvedTransport_Start (serviceTag : string) (found : found_service) (t : ResolvedTransport) (s : ResolvedService)
  : option error * ResolvedService :=
  match found with
  | NoService => (Some (ErrNew ("service not found: " +:+ serviceTag)), s)
  | OtherService => (Some (ErrNew ("service is not resolved: " +:+ serviceTag)), s)
  | TheService => (None, with_rtransport (Some t) s)
  end.

(** ** Queries of the DNS router *)

(** [TransportLink.nameList] *)
Definition link_nameList (link : TransportLink) (dots : Z) (name : string) : list string :=
  nameList dots (map lm_Domain (List.filter (fun it => negb (lm_RoutingOnly it)) (tl_domain link))) name.

(** Whether a link is for a name *)
Definition link_matches (acceptDefaultResolvers : bool) (name : string) (link : TransportLink) : bool :=
  existsb (fun d => negb (bool_decide (lm_Domain d = ".") && lm_RoutingOnly d && negb acceptDefaultResolvers) &&
                    strings_HasSuffix name (lm_Domain d)) (tl_domain link).

Definition has_servers (link : TransportLink) : bool :=
  negb (bool_decide (tl_address link = [])) || negb (bool_decide (tl_addressEx link = [])).

(** The loop over the default routes, from the last one: the link it stops at, or
    the last it looked at. *)
Fixpoint default_route (link_of : Z -> option (nat * TransportLink)) (sequence : list Z) (selected : option (nat * TransportLink))
  : res (option (nat * TransportLink)) :=
  match sequence with
  | [] => Ok selected
  | ifIndex :: sequence =>
      match link_of ifIndex with
      | None => Panic nil_dereference
      | Some x => if has_servers x.2 then Ok (Some x) else default_route link_of sequence (Some x)
      end
  end.

Definition link_of (s : ResolvedService) (ifIndex : Z) : option (nat * TransportLink) :=
  rs_links s !! ifIndex ≫= fun id => (fun link => (id, link)) <$> rs_heap s !! id.

(** The link of a query; [order] is how the table of links is visited, and the
    last link for the name is taken. *)
Definition select_link (order : list Z) (acceptDefaultResolvers : bool) (name : string) (s : ResolvedService)
  : res (option (nat * TransportLink)) :=
  match last (List.filter (fun x => link_matches acceptDefaultResolvers name x.2) (omap (link_of s) order)) with
  | Some x => Ok (Some x)
  | None => if acceptDefaultResolvers then default_route (link_of s) (rev (rs_defaultRouteSequence s)) None else Ok None
  end.

(** [ServerOffset], with the counter after it *)
Definition ServerOffset (rotate : bool) (ls : LinkServers) : Z * LinkServers :=
  if rotate then (ls_serverOffset ls, {| ls_Link := ls_Link ls; ls_Servers := ls_Servers ls; ls_serverOffset := (ls_serverOffset ls + 1) mod 2 ^ 32 |})
  else (0, ls).

#[local] Instance server_inhabited : Inhabited (nat * LinkServer) :=
  populate (O, {| sv_iface := ""; sv_addr := AddrInvalid; sv_port := 0; sv_tls := None |}).

(** [tryOneName]; [ask] is what the servers say, by the number of exchanges. *)
Definition resolved_tryOneName (ask : nat -> nat * LinkServer -> Question -> DMsg + error) (t : ResolvedTransport) (ls : LinkServers)
  (fqdn : string) (q : Question) : res DMsg * LinkServers :=
  let '(offset, ls) := ServerOffset (rt_rotate t) ls in
  match ask_servers ask (with_name fqdn q) 0 (server_order offset (ls_Servers ls) (rt_attempts t)) None with
  | inl response => (Ok response, ls)
  | inr lastErr => (cause_of lastErr fqdn, ls)
  end.

(** [exchangeSingleRequest]: neither an answer nor an error without a name *)
Fixpoint resolved_single (ask : nat -> nat -> nat * LinkServer -> Question -> DMsg + error) (t : ResolvedTransport) (q : Question)
  (k : nat) (names : list string) (lastErr : option error) (ls : LinkServers) : res (option DMsg) * LinkServers :=
  match names with
  | [] => (match lastErr with Some e => Err e | None => Ok None end, ls)
  | fqdn :: names =>
      match resolved_tryOneName (ask k) t ls fqdn q with
      | (Ok response, ls) => (Ok (Some response), ls)
      | (Err e, ls) => resolved_single ask t q (S k) names (Some e) ls
      | (Panic msg, ls) => (Panic msg, ls)
      end
  end.

(** [exchangeParallel]: any answer of a name will do. *)
Definition resolved_parallel (names : list string) (events : list race_event) : option (res DMsg) :=
  race_names (fun r => r) (length names) (seq 0 (length names)) [] events.

(** [Transport.Exchange] from the choice of the link on: none while it waits; a
    query with more than one name races them. *)
Definition ask_link (selected : option (nat * TransportLink)) (t : ResolvedTransport)
  (ask : nat -> nat -> nat * LinkServer -> Question -> DMsg + error) (events : list race_event) (message : DMsg) (question : Question)
  : option (res (option DMsg)) :=
  match selected with
  | None => Some (Ok (Some (FixedResponseStatus message RcodeNameError)))
  | Some (id, link) =>
      match rt_linkServers t !! id with
      | None => Some (Panic nil_dereference)
      | Some servers =>
          match ls_Servers servers with
          | [] => Some (Ok (Some (FixedResponseStatus message RcodeNameError)))
          | _ =>
              let names := link_nameList link (rt_ndots t) (q_Name question) in
              if is_address_type question then
                match resolved_parallel names events with
                | Some (Ok response) => Some (Ok (Some response))
                | Some (Err e) => Some (Err e)
                | Some (Panic msg) => Some (Panic msg)
                | None => None
                end
              else Some (fst (resolved_single ask t question 0 names None servers))
          end
      end
  end.

(** [Transport.Exchange]; none while it waits, for the lock or for a name. *)
Definition ResolvedTransport_Exchange (order : list Z) (t : ResolvedTransport) (s : ResolvedService)
  (ask : nat -> nat -> nat * LinkServer -> Question -> DMsg + error) (events : list race_event) (message : DMsg)
  : option (res (option DMsg)) :=
  match msg_Question message with
  | [] => Some (Panic "index out of range [0] with length 0")
  | question :: _ =>
      if rs_locked s then None
      else
        match select_link order (rt_acceptDefaultResolvers t) (q_Name question) s with
        | Ok selected => ask_link selected t ask events message question
        | Err e => Some (Err e)
        | Panic msg => Some (Panic msg)
        end
  end.

(** [exchangePacket0]: the bytes that go back to the source. *)
Definition resolved_packet `{DNSLib} `{DNSWire} (Msg_Truncate : nat -> DMsg -> DMsg * bool) (Exchange : DMsg -> (DMsg * bool) + error) (packet : list Z)
  : list Z + error :=
  match Unpack packet with
  | inr e => inr (ErrCause e "unpack request")
  | inl message =>
      match Exchange (w_msg message) with
      | inr e => inr e
      | inl (response, compress) => TruncateDNSMessage Msg_Truncate (w_msg message) response compress 0
      end
  end.

(** ** Calls that resolve *)

Definition AF_UNSPEC : Z := 0.
Definition AF_INET : Z := 2.
Definition AF_INET6 : Z := 10.

Record DAddress : Type := { da_IfIndex : Z; da_Family : Z; da_Address : list Z }.

Definition family_strategy (family : Z) : DomainStrategy :=
  if family =? AF_INET then DomainStrategyIPv4Only else if family =? AF_INET6 then DomainStrategyIPv6Only else DomainStrategyAsIS.

Definition dbus_address (ifIndex : Z) (a : Addr) : DAddress :=
  {| da_IfIndex := ifIndex; da_Family := if Addr_Is4 a then AF_INET else AF_INET6; da_Address := AsSlice a |}.

(** *** The process that asks *)

(** [strings.TrimSpace] on ASCII text *)
Fixpoint trim_left (l : list ascii) : list ascii :=
  match l with [] => [] | c :: l' => if ascii_space c then trim_left l' else l end.
Definition strings_TrimSpace (unicode_trim : string -> string) (s : string) : string :=
  if is_ascii_string s then String.string_of_list_ascii (rev (trim_left (rev (trim_left (chars s))))) else unicode_trim s.

Section process.
Context (unicode_fields : string -> list string) (unicode_trim : string -> string).

(** The user in the lines of /proc/PID/status: the first line that gives one, or
    one that cannot be read, ends the search. *)
Fixpoint status_uid (lines : list string) : option Z :=
  match lines with
  | [] => None
  | line :: lines =>
      let line := strings_TrimSpace unicode_trim line in
      if strings_HasPrefix line "Uid:" then
        match strings_Fields unicode_fields line with
        | _ :: f :: _ => match strconv_ParseUint f 32 with Ok uid => Some uid | _ => None end
        | _ => status_uid lines
        end
      else status_uid lines
  end.

(** A context with the inbound and perhaps a process, and nothing else *)
Definition inbound_context (tag : string) (p : option ProcessInfo) : InboundContext :=
  Build_InboundContext tag TypeResolved 0 "" SocksaddrZero SocksaddrZero "" "" "" "" "" [] None ""
    SocksaddrZero SocksaddrZero false false 0 false 0 false None [] [] 0 [] false "" "" p 0 false NoCache.

(** [createMetadata]: what the bus says of the sender, where the links exe and
    comm of its process lead, the content of its status and the names of users. *)
Definition createMetadata (tag : string) (senderPid : Z + error) (exe comm status : option string) (LookupId : Z -> option string) : InboundContext :=
  match senderPid with
  | inr _ => inbound_context tag None
  | inl pid =>
      let path := match exe with Some path => path | None => default "" comm end in
      let uid := status ≫= fun content => status_uid (strings_Split content "010"%char) in
      inbound_context tag
        (Some {| ProcessID := pid mod 2 ^ 32; ProcessPath := path; PackageName := "";
                 UserName := default "" (uid ≫= LookupId); UserId := match uid with Some uid => to_int32 uid | None => -1 end |})
  end.
End process.

(** The prefix of a message to the log *)
Definition log_prefix (render : Z -> string) (m : InboundContext) : option string :=
  match ProcessInfo_ m with
  | None => None
  | Some p =>
      Some (if bool_decide (ProcessPath p <> "") then filepath_Base (ProcessPath p)
            else if bool_decide (UserName p <> "") then "user:" +:+ UserName p
            else if negb (UserId p =? 0) then "uid:" +:+ render (UserId p)
            else "")
  end.

(** *** Names *)

Definition nibble (z : Z) : string := String (ascii_of_nat (Z.to_nat (if z <? 10 then 48 + z else 87 + z))) "".

(** The name [ResolveAddress] asks for *)
Definition ptr_domain (addr : Addr) (address : list Z) : string :=
  strings_Join (flat_map (fun b => [nibble (Z.land b 15); nibble (Z.shiftr b 4)]) (rev address)) "." +:+
  (if Addr_Is4 addr then ".in-addr.arpa." else ".ip6.arpa.").

Definition dotted (s : string) : string := if strings_HasSuffix s "." then s else s +:+ ".".

(** The name [ResolveService] asks for *)
Definition service_name (hostname sType domain : string) : string :=
  dotted (dotted ((if bool_decide (hostname <> "") then dotted hostname else hostname) +:+ sType) +:+ domain).

Record SRVRecord : Type := {
  srv_Priority : Z; srv_Weight : Z; srv_Port : Z; srv_Hostname : string; srv_Addresses : list DAddress; srv_CNAME : string }.

(** miekg/dns: the types of records the calls look at, names and packing. *)
Class ResolveLib : Type := {
  as_PTR : RR -> option string;
  (** priority, weight, port and target *)
  as_SRV : RR -> option (Z * Z * Z * string);
  CanonicalName : string -> string;
  Fqdn : string -> string;
  (** the buffer of the record's length after [PackRR] *)
  PackRR : RR -> list Z * option error }.

Definition as_CNAME (r : RR) : option string := match rr_Data r with DataCNAME target => Some target | _ => None end.
Definition is_TXT (r : RR) : bool := match rr_Data r with DataTXT _ => true | _ => false end.

Definition TypePTR : Z := 12.
Definition TypeSRV : Z := 33.

Definition resolve_request (name : string) (qtype qclass : Z) : DMsg :=
  Build_Msg 0 false false true false 0 [{| q_Name := name; q_Qtype := qtype; q_Qclass := qclass |}] [] [] [].

Section resolve.
Context `{ResolveLib} (ByIndex : Z -> Iface + error).
(** The DNS router, asked with the context of a call, and what [Error] gives for
    a nil [*dbus.Error]. *)
Context (Lookup : InboundContext -> string -> DomainStrategy -> list Addr + error) (Exchange : InboundContext -> DMsg -> DMsg + error)
  (nil_Error : res string).

(** The begin of every call: the link is made under the lock, which a failure
    does not release; the message to the log has the name of the interface. *)
Definition with_link {A} (ifIndex : Z) (s : ResolvedService) (early : reply A -> reply A) (k : reply A) : reply A * ResolvedService :=
  if rs_locked s then (Blocked, s)
  else
    match getLink ByIndex ifIndex s with
    | (inr e, s) => (Failed e, with_locked true s)
    | (inl id, s) => (early match rs_heap s !! id ≫= tl_iif with None => Crashed nil_dereference | Some _ => k end, s)
    end.

(** [ResolveHostname]: addresses and the canonical name; [m] is the context of
    [logRequest].  When the lookup fails it is the error of [getLink] that is
    wrapped, which is nil. *)
Definition ResolveHostname (m : InboundContext) (ifIndex : Z) (hostname : string) (family : Z) (s : ResolvedService)
  : reply (list DAddress * string) * ResolvedService :=
  with_link ifIndex s id
    match Lookup m hostname (family_strategy family) with
    | inr _ => match nil_Error with Ok text => Failed (DBusFailed (ErrNew text)) | Err e => Failed (DBusFailed e) | Panic msg => Crashed msg end
    | inl addrs => Replied (map (dbus_address ifIndex) addrs, CanonicalName hostname)
    end.

(** The context of the requests: the inbound alone, without the process. *)
Definition plain_metadata (tag : string) : InboundContext := inbound_context tag None.

(** [ResolveAddress] *)
Definition ResolveAddress (tag : string) (ifIndex family : Z) (address : list Z) (s : ResolvedService) : reply (list (Z * string)) * ResolvedService :=
  with_link ifIndex s (fun r => match AddrFromSlice address with None => Failed (DBusFailed (ErrNew "invalid address")) | Some _ => r end)
    match AddrFromSlice address with
    | None => Failed (DBusFailed (ErrNew "invalid address"))
    | Some addr =>
        match Exchange (plain_metadata tag) (resolve_request (Fqdn (ptr_domain addr address)) TypePTR ClassINET) with
        | inr _ => match nil_Error with Ok text => Failed (DBusFailed (ErrNew text)) | Err e => Failed (DBusFailed e) | Panic msg => Crashed msg end
        | inl response =>
            if negb (msg_Rcode response =? RcodeSuccess) then Failed (rcodeError (msg_Rcode response))
            else Replied (map (fun name => (ifIndex, name)) (omap as_PTR (msg_Answer response)))
        end
    end.

Record ResourceRecord : Type := { rec_IfIndex : Z; rec_Type : Z; rec_Class : Z; rec_Data : list Z }.

(** The error of the last record that cannot be packed *)
Definition pack_error (l : list RR) : option error := last (omap (fun r => (PackRR r).2) l).

(** [ResolveRecord] *)
Definition ResolveRecord (tag : string) (ifIndex : Z) (hostname : string) (qClass qType : Z) (s : ResolvedService)
  : reply (list ResourceRecord) * ResolvedService :=
  with_link ifIndex s id
    match Exchange (plain_metadata tag) (resolve_request (Fqdn hostname) qType qClass) with
    | inr e => Failed (wrapError e)
    | inl response =>
        if negb (msg_Rcode response =? RcodeSuccess) then Failed (rcodeError (msg_Rcode response))
        else
          match pack_error (msg_Answer response) with
          | Some e => Failed (wrapError e)
          | None => Replied (map (fun r => {| rec_IfIndex := ifIndex; rec_Type := hdr_Rrtype r; rec_Class := hdr_Class r; rec_Data := (PackRR r).1 |})
                               (msg_Answer response))
          end
    end.

(** A record of a service, with the addresses of its target if they are found and
    its alias in the same answer *)
Definition srv_record (m : InboundContext) (ifIndex family : Z) (answer : list RR) (x : Z * Z * Z * string) : SRVRecord :=
  let '(priority, weight, port, target) := x in
  {| srv_Priority := priority; srv_Weight := weight; srv_Port := port; srv_Hostname := target;
     srv_Addresses := match Lookup m target (family_strategy family) with inl addrs => map (dbus_address ifIndex) addrs | inr _ => [] end;
     srv_CNAME := default "" (head (omap (fun a => if bool_decide (hdr_Name a = target) then as_CNAME a else None) answer)) |}.

(** [ResolveService]: the records of the service, the texts that can be packed,
    and the canonical names. *)
Definition ResolveService (tag : string) (m : InboundContext) (ifIndex : Z) (hostname sType domain : string) (family : Z) (s : ResolvedService)
  : reply (list SRVRecord * list (list Z) * (string * string * string)) * ResolvedService :=
  with_link ifIndex s id
    (let name := service_name hostname sType domain in
     match Exchange (plain_metadata tag) (resolve_request name TypeSRV ClassINET) with
     | inr e => Failed (wrapError e)
     | inl srvResponse =>
         if negb (msg_Rcode srvResponse =? RcodeSuccess) then Failed (rcodeError (msg_Rcode srvResponse))
         else
           match Exchange m (resolve_request name TypeTXT ClassINET) with
           | inr e => Failed (wrapError e)
           | inl txtResponse =>
               Replied
                 (map (srv_record m ifIndex family (msg_Answer srvResponse)) (omap as_SRV (msg_Answer srvResponse)),
                  omap (fun r => if is_TXT r then match PackRR r with (data, None) => Some data | _ => None end else None) (msg_Answer txtResponse),
                  (CanonicalName hostname, CanonicalName sType, CanonicalName domain))
           end
     end).
End resolve.

(** ** The servers follow the links *)

(** *** Open and closed servers *)

Definition owns (t : ResolvedTransport) (id n : nat) : Prop :=
  exists servers, rt_linkServers t !! id = Some servers /\ n ∈ map fst (ls_Servers servers).

#[local] Instance owns_dec t id n : Decision (owns t id n).
Proof.
  unfold owns. destruct (rt_linkServers t !! id) as [sv|]; [|right; naive_solver].
  destruct (decide (n ∈ map fst (ls_Servers sv))); [left|right]; naive_solver.
Defined.

(** Every server made is in the list of one link, or closed. *)
Record servers_wf (t : ResolvedTransport) : Prop := {
  wf_bound id n : owns t id n -> (n < rt_next t)%nat;
  wf_owner i j n : owns t i n -> owns t j n -> i = j;
  wf_closed n : (n < rt_next t)%nat -> n ∈ rt_closed t <-> forall id, ~ owns t id n;
  wf_closed_bound n : n ∈ rt_closed t -> (n < rt_next t)%nat }.

Lemma servers_wf_new accept : servers_wf (NewResolvedTransport accept).
Proof. split; unfold owns; simpl; [intros id n (? & ? & _)|intros i j n (? & ? & _)|lia|intros n ?%elem_of_nil]; done. Qed.

(** Closing the servers of a link *)
Lemma elem_of_close t id n : n ∈ rt_closed (close_link_servers id t) <-> n ∈ rt_closed t \/ owns t id n.
Proof.
  unfold close_link_servers, owns. destruct (rt_linkServers t !! id) as [servers|] eqn:E; simpl; [rewrite elem_of_app|]; naive_solver.
Qed.

Lemma close_same t id :
  rt_linkServers (close_link_servers id t) = rt_linkServers t /\ rt_next (close_link_servers id t) = rt_next t /\
  rt_attempts (close_link_servers id t) = rt_attempts t /\ rt_rotate (close_link_servers id t) = rt_rotate t /\
  rt_acceptDefaultResolvers (close_link_servers id t) = rt_acceptDefaultResolvers t.
Proof. unfold close_link_servers. by destruct (_ !! _). Qed.

Lemma owns_close t id id' n : owns (close_link_servers id t) id' n <-> owns t id' n.
Proof. unfold owns. by rewrite (proj1 (close_same t id)). Qed.

(** The servers of a link are replaced by [k] new ones. *)
Lemma servers_wf_replace t t' id servers :
  servers_wf t -> rt_linkServers t' = <[id := servers]> (rt_linkServers t) ->
  (forall n, n ∈ map fst (ls_Servers servers) <-> (rt_next t <= n < rt_next t')%nat) -> (rt_next t <= rt_next t')%nat ->
  (forall n, n ∈ rt_closed t' <-> n ∈ rt_closed t \/ owns t id n) -> servers_wf t'.
Proof.
  intros [Hb Ho Hc Hcb] Hl Hn Hle Hcl.
  assert (forall i n, owns t' i n <-> i = id /\ (rt_next t <= n < rt_next t')%nat \/ i <> id /\ owns t i n) as Hown.
  { intros i n. unfold owns. rewrite Hl. destruct (decide (i = id)) as [->|Hne].
    - rewrite lookup_insert_eq. rewrite <-Hn. split; [intros (? & [= <-] & ?); by left|]. intros [[_ ?]|[? _]]; [by eexists|done].
    - rewrite lookup_insert_ne by done. naive_solver. }
  split.
  - intros i n [[_ ?]|[_ ?%Hb]]%Hown; lia.
  - intros i j n [[-> ?]|[? Hi]]%Hown [[-> ?]|[? Hj]]%Hown; [done|apply Hb in Hj; lia|apply Hb in Hi; lia|by eapply Ho].
  - intros n Hlt. rewrite Hcl. split.
    + intros [Hin|Hown'] i [[-> ?]|[Hne Hi]]%Hown.
      * apply Hcb in Hin. lia.
      * by destruct (proj1 (Hc n (Hb _ _ Hi)) Hin i).
      * apply Hb in Hown'. lia.
      * by destruct Hne; eapply Ho.
    + intros Hnone. destruct (decide (n < rt_next t)%nat) as [Hnt|Hnt]; [|destruct (Hnone id); apply Hown; left; split; [done|lia]].
      destruct (decide (owns t id n)) as [Hid|Hid].
      * by right.
      * left. apply Hc; [done|]. intros i Hi. destruct (decide (i = id)) as [->|Hne]; [done|]. apply (Hnone i). apply Hown. by right.
  - intros n [?%Hcb|?%Hb]%Hcl; lia.
Qed.

Lemma deleteTransport_shape t id :
  rt_linkServers (deleteTransport id t) = delete id (rt_linkServers t) /\ rt_next (deleteTransport id t) = rt_next t /\
  (forall n, n ∈ rt_closed (deleteTransport id t) <-> n ∈ rt_closed t \/ owns t id n) /\
  rt_attempts (deleteTransport id t) = rt_attempts t /\ rt_rotate (deleteTransport id t) = rt_rotate t /\
  rt_acceptDefaultResolvers (deleteTransport id t) = rt_acceptDefaultResolvers t.
Proof.
  unfold deleteTransport, owns. destruct (rt_linkServers t !! id) as [servers|] eqn:E; simpl.
  - split_and!; try done. intros n. rewrite elem_of_app. naive_solver.
  - rewrite delete_id by done. split_and!; try done. naive_solver.
Qed.

Lemma servers_wf_delete t id : servers_wf t -> servers_wf (deleteTransport id t).
Proof.
  intros [Hb Ho Hc Hcb]. destruct (deleteTransport_shape t id) as (Hl & Hn & Hcl & _).
  assert (forall i n, owns (deleteTransport id t) i n <-> i <> id /\ owns t i n) as Hown.
  { intros i n. unfold owns. rewrite Hl. destruct (decide (i = id)) as [->|Hne]; [rewrite lookup_delete_eq|rewrite lookup_delete_ne by done]; naive_solver. }
  split.
  - intros i n [_ ?%Hb]%Hown. by rewrite Hn.
  - intros i j n [_ ?]%Hown [_ ?]%Hown. by eapply Ho.
  - rewrite Hn. intros n Hlt. rewrite Hcl, Hc by done. split.
    + intros [Hnone|Hid] i [Hne Hi]%Hown; [by destruct (Hnone i)|by destruct Hne; eapply Ho].
    + intros Hnone. destruct (decide (owns t id n)) as [Hid|Hid].
      * by right.
      * left. intros i Hi. destruct (decide (i = id)) as [->|Hne]; [done|]. apply (Hnone i), Hown. done.
  - intros n [?%Hcb|?%Hb]%Hcl; by rewrite Hn.
Qed.

(** *** States that are reached *)

(** The calls that set something for a link *)
Inductive link_call : Type :=
  | CallDNS (addresses : list LinkDNS)
  | CallDNSEx (addresses : list LinkDNSEx)
  | CallDomains (domains : list LinkDomain)
  | CallDefaultRoute (defaultRoute : bool)
  | CallDNSOverTLS (dotMode : string).

(** A link of the table with its record *)
Definition known_link (s : ResolvedService) (i : Z) (x : nat * TransportLink) : Prop :=
  rs_links s !! i = Some x.1 /\ rs_heap s !! x.1 = Some x.2.

Lemma link_of_known s i x : link_of s i = Some x <-> known_link s i x.
Proof.
  unfold link_of, known_link. destruct x as [id link]. simpl. destruct (rs_links s !! i) as [id'|]; simpl; [|naive_solver].
  destruct (rs_heap s !! id') as [link'|] eqn:E; simpl; naive_solver.
Qed.

Lemma default_route_known s (seq : list Z) selected :
  (forall i, i ∈ seq -> is_Some (link_of s i)) ->
  exists r, default_route (link_of s) seq selected = Ok r /\ (r = selected \/ exists i x, i ∈ seq /\ r = Some x /\ known_link s i x).
Proof.
  revert selected; induction seq as [|i seq IH]; intros selected Hall; simpl; [by exists selected; auto|].
  destruct (Hall i ltac:(by left)) as [x Hx]. rewrite Hx. apply link_of_known in Hx.
  destruct (has_servers x.2); [exists (Some x); split; [done|]; right; exists i, x; split; [by left|done]|].
  destruct (IH (Some x)) as (r & -> & Hr); [intros j ?; apply Hall; by right|]. exists r. split; [done|]. right.
  destruct Hr as [->|(j & y & ? & ? & ?)]; [exists i, x|exists j, y]; (split; [by constructor|done]).
Qed.

Section invariant.
Context (Addr_String : Addr -> string) (NewDefault : string -> option error) (tls_NewClient : string -> option error)
  (RcodeToString : Z -> string).

Definition do_set (ByIndex : Z -> Iface + error) (ifIndex : Z) (c : link_call) : ResolvedService -> reply unit * ResolvedService :=
  match c with
  | CallDNS l => SetLinkDNS Addr_String NewDefault tls_NewClient ByIndex RcodeToString ifIndex l
  | CallDNSEx l => SetLinkDNSEx Addr_String NewDefault tls_NewClient ByIndex RcodeToString ifIndex l
  | CallDomains l => SetLinkDomains Addr_String NewDefault tls_NewClient ByIndex RcodeToString ifIndex l
  | CallDefaultRoute b => SetLinkDefaultRoute Addr_String NewDefault tls_NewClient ByIndex ifIndex b
  | CallDNSOverTLS mode => SetLinkDNSOverTLS Addr_String NewDefault tls_NewClient ByIndex RcodeToString ifIndex mode
  end.

(** From a service with its transport: settings that succeed, calls that look a
    link up and find its interface, and updates of the network in which no
    interface stayed what it was. *)
Inductive reachable (accept : bool) : ResolvedService -> Prop :=
  | reach_start : reachable accept (with_rtransport (Some (NewResolvedTransport accept)) NewResolvedService)
  | reach_set find ifIndex c s s' :
      reachable accept s -> do_set find ifIndex c s = (Replied tt, s') -> reachable accept s'
  | reach_lookup find ifIndex id s s' :
      reachable accept s -> getLink find ifIndex s = (inl id, s') -> reachable accept s'
  | reach_network find s :
      reachable accept s -> (forall i id, rs_links s !! i = Some id -> link_changed find i id s = true) ->
      reachable accept (onNetworkUpdate find s).2.

(** The table of links, their records and the servers kept for them agree. *)
Record consistent (accept : bool) (s : ResolvedService) (t : ResolvedTransport) : Prop := {
  cs_transport : rs_transport s = Some t;
  cs_unlocked : rs_locked s = false;
  cs_options : rt_attempts t = 2 /\ rt_rotate t = false /\ rt_acceptDefaultResolvers t = accept;
  cs_wf : servers_wf t;
  cs_inj i j id : rs_links s !! i = Some id -> rs_links s !! j = Some id -> i = j;
  cs_link i id : rs_links s !! i = Some id ->
    (id < rs_nextLink s)%nat /\ exists link iif, rs_heap s !! id = Some link /\ tl_iif link = Some iif /\
      (tl_defaultRoute link = true <-> i ∈ rs_defaultRouteSequence s) /\
      match rt_linkServers t !! id with
      | Some servers => link_server_list Addr_String tls_NewClient iif link = Ok (map snd (ls_Servers servers))
      | None => link = set_iif iif new_link
      end;
  cs_sequence : NoDup (rs_defaultRouteSequence s) /\ forall i, i ∈ rs_defaultRouteSequence s -> is_Some (rs_links s !! i);
  cs_entry id : is_Some (rt_linkServers t !! id) -> exists i, rs_links s !! i = Some id }.

Lemma updateTransports_ok id link t t' :
  updateTransports Addr_String NewDefault tls_NewClient id link t = (Ok tt, t') ->
  exists iif servers, tl_iif link = Some iif /\ link_server_list Addr_String tls_NewClient iif link = Ok (map snd (ls_Servers servers)) /\
    rt_linkServers t' = <[id := servers]> (rt_linkServers t) /\ (rt_next t <= rt_next t')%nat /\
    (forall n, n ∈ map fst (ls_Servers servers) <-> (rt_next t <= n < rt_next t')%nat) /\
    (forall n, n ∈ rt_closed t' <-> n ∈ rt_closed t \/ owns t id n) /\
    rt_attempts t' = rt_attempts t /\ rt_rotate t' = rt_rotate t /\ rt_acceptDefaultResolvers t' = rt_acceptDefaultResolvers t.
Proof.
  unfold updateTransports. destruct (close_same t id) as (Hl & Hn & Ha & Hr & Hd).
  pose proof (elem_of_close t id) as Hcl. set (t1 := close_link_servers id t) in *. clearbody t1.
  destruct (tl_iif link) as [iif|]; [|done]. destruct (must1 _) as [u|e|msg]; try done. simpl.
  destruct (link_server_list _ _ _ _) as [l|e|msg] eqn:El; try done. intros [= <-].
  eexists iif, _. split; [done|]. cbn [with_server_count with_linkServers rt_linkServers rt_next rt_closed rt_attempts rt_rotate rt_acceptDefaultResolvers].
  split; [|split; [by rewrite Hl|]].
  - cbn [ls_Servers]. rewrite El. f_equal. apply list_eq. intros i. rewrite list_lookup_fmap, list_lookup_imap.
    by destruct (l !! i).
  - split_and!; try done; [lia|]. intros n. cbn [ls_Servers]. rewrite list_elem_of_lookup. setoid_rewrite list_lookup_fmap. setoid_rewrite list_lookup_imap. split.
    + intros (i & Hi). destruct (l !! i) as [x|] eqn:Ex; [|done]. apply lookup_lt_Some in Ex. simpl in Hi. injection Hi as <-. lia.
    + intros Hlt. exists (n - rt_next t1)%nat. destruct (lookup_lt_is_Some_2 l (n - rt_next t1)) as [x ->]; [lia|]. simpl. f_equal. lia.
Qed.

Lemma getLink_consistent accept find i s s' id t :
  consistent accept s t -> getLink find i s = (inl id, s') -> consistent accept s' t /\ rs_links s' !! i = Some id.
Proof.
  intros [Htr Hun Hopt Hwf Hinj Hlink [Hnd Hseq] Hentry]. unfold getLink. destruct (rs_links s !! i) as [id'|] eqn:Ei; [by intros [= -> ->]|].
  destruct (find i) as [iif|e]; [|done]. intros [= <- <-]. cbn [with_heap rs_links]. split; [|apply lookup_insert_eq].
  assert (forall j id', rs_links s !! j = Some id' -> id' <> rs_nextLink s /\ j <> i) as Hfresh.
  { intros j id' Hj. split; [|congruence]. destruct (Hlink j id' Hj) as [? _]. lia. }
  split; cbn [with_heap rs_transport rs_locked rs_links rs_heap rs_nextLink rs_defaultRouteSequence]; try done.
  - intros j k id' [[<- <-]|[? Hj]]%lookup_insert_Some [[<- ?]|[? Hk]]%lookup_insert_Some; [done|by apply Hfresh in Hk as [? _]|subst; by apply Hfresh in Hj as [? _]|by eapply Hinj].
  - intros j id' [[<- <-]|[Hne Hj]]%lookup_insert_Some.
    + split; [lia|]. exists (set_iif iif new_link), iif. rewrite lookup_insert_eq. split_and!; try done.
      * split; [done|]. intros Hin. apply Hseq in Hin. rewrite Ei in Hin. by destruct Hin.
      * destruct (rt_linkServers t !! rs_nextLink s) as [sv|] eqn:E; [|done]. destruct (Hentry (rs_nextLink s) ltac:(by eexists)) as [j Hj]. by apply Hfresh in Hj as [? _].
    + destruct (Hfresh _ _ Hj). destruct (Hlink j id' Hj) as [? (link & iif' & Hh & ?)]. split; [lia|]. exists link, iif'. by rewrite !lookup_insert_ne.
  - split; [done|]. intros j Hj. destruct (decide (i = j)) as [->|?]; [rewrite lookup_insert_eq; by eexists|]. rewrite lookup_insert_ne by done. by apply Hseq.
  - intros id' [j Hj]%Hentry. exists j. rewrite lookup_insert_ne; [done|]. by apply Hfresh in Hj as [_ ?].
Qed.

(** What a call changes in a link and in the sequence of default routes. *)
Record good_change (i : Z) (change : TransportLink -> TransportLink) (order : list Z -> list Z) : Prop := {
  gc_iif l : tl_iif (change l) = tl_iif l;
  gc_default l q : (tl_defaultRoute l = true <-> i ∈ q) -> (tl_defaultRoute (change l) = true <-> i ∈ order q);
  gc_others j q : j <> i -> j ∈ order q <-> j ∈ q;
  gc_nodup q : NoDup q -> NoDup (order q) }.

Lemma do_set_shape find i c :
  exists wrap change order,
    do_set find i c = set_link Addr_String NewDefault tls_NewClient find wrap i change order /\ good_change i change order.
Proof.
  destruct c as [l|l|l|b|mode]; do 3 eexists; (split; [reflexivity|]); split; try done.
  - intros l q _. cbn [tl_defaultRoute]. destruct b; rewrite elem_of_app; [set_solver|]. split; [done|]. intros [Hi|?%elem_of_nil]; [|done]. apply list_elem_of_In, filter_In in Hi as [_ Hi].
    by rewrite Z.eqb_refl in Hi.
  - intros j q Hne. unfold without_index. rewrite elem_of_app, list_elem_of_In, filter_In, <-list_elem_of_In.
    rewrite (proj2 (Z.eqb_neq j i)) by done. destruct b; set_solver.
  - intros q Hq. apply NoDup_app. split; [by apply NoDup_ListNoDup, List.NoDup_filter, NoDup_ListNoDup|].
    split; [|destruct b; repeat constructor; set_solver]. intros j [_ Hj]%list_elem_of_In%filter_In Hin. destruct b; [|by apply elem_of_nil in Hin].
    apply list_elem_of_singleton in Hin as ->. by rewrite Z.eqb_refl in Hj.
Qed.

Lemma set_link_consistent accept find wrap i change order s s' t :
  good_change i change order -> consistent accept s t ->
  set_link Addr_String NewDefault tls_NewClient find wrap i change order s = (Replied tt, s') -> exists t', consistent accept s' t'.
Proof.
  intros [Hiif Hdef Hoth Hnodup] Hc. unfold set_link. rewrite (cs_unlocked _ _ _ Hc).
  destruct (getLink find i s) as [[id|e] s1] eqn:Eg; [|done]. destruct (getLink_consistent _ _ _ _ _ _ _ Hc Eg) as [Hc1 Hi].
  clear Hc Eg s. destruct Hc1 as [Htr Hun (Ha & Hr & Hac) Hwf Hinj Hlink [Hnd Hseq] Hentry].
  destruct (Hlink i id Hi) as (Hid & link0 & iif0 & Hh & Hii & Hdr & _).
  cbn [with_sequence with_heap rs_heap rs_defaultRouteSequence]. rewrite lookup_alter_eq, Hh. simpl. rewrite Hiif, Hii.
  unfold resolved_postUpdate. cbn [with_sequence with_heap rs_transport rs_heap]. rewrite Htr, lookup_alter_eq, Hh. simpl.
  destruct (updateTransports _ _ _ id (change link0) t) as [[[]|e|msg] t'] eqn:Eu; [|done|done]. intros [= <-]. exists t'.
  apply updateTransports_ok in Eu as (iif & servers & Hii' & Hls & Hsv & Hle & Hnum & Hcl & Ha' & Hr' & Hac').
  rewrite Hiif, Hii in Hii'. injection Hii' as <-.
  split; cbn [with_rtransport with_sequence with_heap rs_transport rs_locked rs_links rs_heap rs_nextLink rs_defaultRouteSequence]; try done.
  - by rewrite Ha', Hr', Hac'.
  - by eapply servers_wf_replace.
  - intros j id' Hj. destruct (Hlink j id' Hj) as (? & link & iif & Hhj & Hij & Hdj & Hsj). split; [done|]. destruct (decide (id' = id)) as [->|Hne].
    + assert (j = i) as -> by by eapply Hinj. exists (change link0), iif0. rewrite lookup_alter_eq, Hh, Hsv, lookup_insert_eq, Hiif.
      split; [done|]. split; [done|]. split; [by apply Hdef|done].
    + assert (j <> i) by congruence. exists link, iif. rewrite lookup_alter_ne, Hsv, lookup_insert_ne by done.
      split; [done|]. split; [done|]. split; [by rewrite Hoth|done].
  - split; [by apply Hnodup|]. intros j Hj. destruct (decide (j = i)) as [->|Hne]; [by eexists|]. apply Hseq. by rewrite <-(Hoth j _ Hne).
  - intros id' Hs. rewrite Hsv in Hs. destruct (decide (id' = id)) as [->|Hne]; [by exists i|]. rewrite lookup_insert_ne in Hs by done. by apply Hentry.
Qed.

Lemma delete_links_spec (l : list (Z * nat)) t :
  let t' := fold_left (fun t x => deleteTransport x.2 t) l t in
  servers_wf t -> servers_wf t' /\ (forall id, is_Some (rt_linkServers t' !! id) -> is_Some (rt_linkServers t !! id) /\ id ∉ map snd l) /\
  rt_attempts t' = rt_attempts t /\ rt_rotate t' = rt_rotate t /\ rt_acceptDefaultResolvers t' = rt_acceptDefaultResolvers t.
Proof.
  revert t; induction l as [|[i id] l IH]; intros t; simpl; intros Hwf; [split_and!; try done; set_solver|].
  destruct (IH (deleteTransport id t)) as (H1 & H2 & Ha & Hr & Hac); [by apply servers_wf_delete|].
  destruct (deleteTransport_shape t id) as (Hl & _ & _ & Ha1 & Hr1 & Hac1). rewrite Ha1 in Ha. rewrite Hr1 in Hr. rewrite Hac1 in Hac.
  split_and!; try done. intros id' [Hs Hni]%H2. rewrite Hl in Hs. destruct (decide (id' = id)) as [->|Hne]; [by rewrite lookup_delete_eq in Hs; destruct Hs|].
  rewrite lookup_delete_ne in Hs by done. split; [done|]. set_solver.
Qed.

Lemma network_consistent accept find s t :
  consistent accept s t -> (forall i id, rs_links s !! i = Some id -> link_changed find i id s = true) ->
  exists t', consistent accept (onNetworkUpdate find s).2 t' /\ rs_links (onNetworkUpdate find s).2 = ∅.
Proof.
  intros [Htr Hun Hopt Hwf Hinj Hlink [Hnd Hseq] Hentry] Hch. unfold onNetworkUpdate. rewrite Hun, Htr. cbn [snd fmap option_fmap option_map].
  eexists. assert (filter (fun x => link_changed find x.1 x.2 s = false) (rs_links s) = ∅) as Hempty.
  { apply map_empty. intros i. apply map_lookup_filter_None. right. intros id Hi Hf. simpl in Hf. by rewrite (Hch i id Hi) in Hf. }
  destruct (delete_links_spec (map_to_list (rs_links s)) t Hwf) as (Hwf' & Hent & Ha & Hr & Hac).
  assert (List.filter (fun it => negb (bool_decide (is_Some (rs_links s !! it)))) (rs_defaultRouteSequence s) = []) as Hq.
  { destruct (List.filter _ _) as [|j l] eqn:E; [done|]. assert (In j (j :: l)) as Hj by by left. rewrite <-E in Hj. apply filter_In in Hj as [Hj Hn].
    apply list_elem_of_In, Hseq in Hj. by rewrite bool_decide_true in Hn. }
  rewrite Hempty, Hq. split; [|done].
  split; cbn [with_links with_sequence with_rtransport rs_transport rs_locked rs_links rs_heap rs_nextLink rs_defaultRouteSequence]; try done.
  - by rewrite Ha, Hr, Hac.
  - split; [constructor|]. by intros i ?%elem_of_nil.
  - intros id [Hs Hni]%Hent. destruct (Hentry id Hs) as [i Hi]. destruct Hni. apply list_elem_of_fmap. exists (i, id). split; [done|]. by apply elem_of_map_to_list.
Qed.

Lemma reachable_consistent accept s : reachable accept s -> exists t, consistent accept s t.
Proof.
  induction 1 as [|find i c s s' _ [t Hc] Hset|find i id s s' _ [t Hc] Hget|find s _ [t Hc] Hch].
  - exists (NewResolvedTransport accept). split; simpl; try done; [apply servers_wf_new| |]; [split; [constructor|by intros i ?%elem_of_nil]|].
    intros id [? ?]. done.
  - destruct (do_set_shape find i c) as (wrap & change & order & Heq & Hgood). rewrite Heq in Hset. by eapply set_link_consistent.
  - exists t. by eapply getLink_consistent.
  - destruct (network_consistent _ _ _ _ Hc Hch) as (t' & ? & _). by exists t'.
Qed.

(** A link that answers for a name or by default has servers, perhaps none. *)
Lemma selected_link_known accept order name s t :
  consistent accept s t ->
  exists r, select_link order accept name s = Ok r /\
    match r with Some x => (exists i, known_link s i x) /\ is_Some (rt_linkServers t !! x.1) | None => True end.
Proof.
  intros Hc. assert (forall i x, known_link s i x -> tl_domain x.2 <> [] \/ i ∈ rs_defaultRouteSequence s -> is_Some (rt_linkServers t !! x.1)) as Hent.
  { intros i [id link] [Hi Hh] Hor. simpl in *. destruct (cs_link _ _ _ Hc i id Hi) as (_ & link' & iif & Hh' & _ & Hd & Hs).
    assert (link' = link) as -> by congruence. destruct (rt_linkServers t !! id) as [sv|]; [by eexists|]. subst link. simpl in *.
    destruct Hor as [?|Hin]; [done|]. by apply Hd in Hin. }
  unfold select_link. destruct (last _) as [x|] eqn:El.
  - exists (Some x). split; [done|]. apply last_Some in El as [l El]. assert (x ∈ l ++ [x]) as Hin by set_solver. rewrite <-El in Hin.
    apply list_elem_of_In, filter_In in Hin as [Hin Hm]. apply list_elem_of_In, list_elem_of_omap in Hin as (i & _ & Hx%link_of_known).
    split; [by exists i|]. apply (Hent i x Hx). left. intros He. unfold link_matches in Hm. by rewrite He in Hm.
  - destruct accept; [|by exists None].
    destruct (default_route_known s (rev (rs_defaultRouteSequence s)) None) as (r & -> & Hr).
    { intros i Hi%list_elem_of_In. apply in_rev, list_elem_of_In in Hi. destruct (cs_sequence _ _ _ Hc) as [_ Hs]. destruct (Hs i Hi) as [id Hid].
      destruct (cs_link _ _ _ Hc i id Hid) as (_ & link & _ & Hh & _). exists (id, link). by apply link_of_known. }
    exists r. split; [done|]. destruct Hr as [->|(i & x & Hi & -> & Hx)]; [done|]. split; [by exists i|]. apply (Hent i x Hx). right.
    by apply list_elem_of_In, in_rev, list_elem_of_In in Hi.
Qed.
End invariant.

Lemma resolved_tryOneName_returns ask t ls fqdn q :
  ls_Servers ls <> [] -> 1 <= rt_attempts t -> rt_rotate t = false -> forall msg, fst (resolved_tryOneName ask t ls fqdn q) <> Panic msg.
Proof.
  intros Hs Ha Hr msg. unfold resolved_tryOneName, ServerOffset. rewrite Hr.
  pose proof (ask_servers_spec ask (with_name fqdn q) 0 (server_order 0 (ls_Servers ls) (rt_attempts t)) None) as Hsp.
  destruct (ask_servers _ _ _ _ _) as [m|e]; [done|]. destruct Hsp as (_ & _ & Hsome).
  destruct Hsome as [e' ->]; [by apply server_order_nonempty|done].
Qed.

(** A query for a name that stands for itself returns from a link that has its
    servers. *)
Lemma ask_link_returns selected t ask events message q :
  match selected with Some x => is_Some (rt_linkServers t !! x.1) | None => True end ->
  rt_attempts t = 2 -> rt_rotate t = false ->
  ends_with_dot (q_Name q) = true -> Z.of_nat (String.length (q_Name q)) <= 254 -> avoidDNS (q_Name q) = false ->
  (exists r, RaceDone 0 r ∈ events) ->
  exists r, ask_link selected t ask events message q = Some r /\ match r with Ok answer => is_Some answer | Err _ => True | Panic _ => False end.
Proof.
  intros Hsel Hat Hrot Hdot Hlen Hav [r0 Hr0]. unfold ask_link. destruct selected as [[id link]|]; [|eexists; split; [done|by eexists]].
  simpl in Hsel. destruct Hsel as [servers ->]. destruct (ls_Servers servers) as [|x l] eqn:Es; [eexists; split; [done|by eexists]|].
  unfold link_nameList. rewrite nameList_rooted by done. destruct (is_address_type q).
  - unfold resolved_parallel. cbn [length seq].
    destruct (race_returns (fun r => r) 1 events [0%nat] []) as (r & -> & Hp); [by repeat constructor; set_solver|done|done| |].
    { intros k ->%list_elem_of_singleton. by eexists. }
    destruct r as [m|e|msg]; [eexists; split; [done|by eexists]|by eexists|by destruct (Hp msg)].
  - eexists. split; [done|]. cbn [resolved_single].
    pose proof (resolved_tryOneName_returns (ask 0%nat) t servers (q_Name q) q ltac:(by rewrite Es) ltac:(lia) Hrot) as Hp.
    destruct (resolved_tryOneName _ _ _ _ _) as [[m|e|msg] c']; simpl in *; [by eexists|done|by destruct (Hp msg)].
Qed.

(** ** What the service promises *)

(** Links and servers agree: after any sequence of settings that succeed, look-ups of links and
    updates of the network that replace every interface, each link of the table has exactly the servers its last
    settings name, or was never set; every other server that was ever made is closed, those of the links are open;
    and the sequence of default routes has, once each, the links that are one. *)
Theorem link_servers_current Addr_String NewDefault tls_NewClient RcodeToString accept s :
  reachable Addr_String NewDefault tls_NewClient RcodeToString accept s ->
  exists t, rs_transport s = Some t /\
    (forall i id, rs_links s !! i = Some id -> exists link iif, rs_heap s !! id = Some link /\ tl_iif link = Some iif /\
      (tl_defaultRoute link = true <-> i ∈ rs_defaultRouteSequence s) /\
      (link_server_list Addr_String tls_NewClient iif link = Ok (map snd (default [] (ls_Servers <$> rt_linkServers t !! id))) \/ link = set_iif iif new_link)) /\
    (forall n, (n < rt_next t)%nat -> n ∈ rt_closed t <-> ~ exists i id, rs_links s !! i = Some id /\ owns t id n) /\
    NoDup (rs_defaultRouteSequence s).
Proof.
  intros [t Hc]%reachable_consistent. exists t. split; [apply Hc|]. split; [|split; [|apply Hc]].
  - intros i id Hi. destruct (cs_link _ _ _ _ _ Hc i id Hi) as (_ & link & iif & Hh & Hii & Hd & Hs). exists link, iif. split_and!; try done.
    destruct (rt_linkServers t !! id); [by left|by right].
  - intros n Hn. rewrite (wf_closed t (cs_wf _ _ _ _ _ Hc) n Hn). split; [naive_solver|]. intros Hno id Hid. apply Hno.
    destruct (cs_entry _ _ _ _ _ Hc id) as [i Hi]; [destruct Hid as (? & ? & _); by eexists|by exists i, id].
Qed.

(** A query comes back: in such a state a query for a name that stands for itself, in whatever
    order the links are visited and whatever the servers say, comes back with an answer or an error once the
    servers were heard. *)
Theorem resolved_query_returns Addr_String NewDefault tls_NewClient RcodeToString accept s t order ask events message q qs :
  reachable Addr_String NewDefault tls_NewClient RcodeToString accept s -> rs_transport s = Some t ->
  msg_Question message = q :: qs -> ends_with_dot (q_Name q) = true -> Z.of_nat (String.length (q_Name q)) <= 254 ->
  avoidDNS (q_Name q) = false -> (exists r, RaceDone 0 r ∈ events) ->
  exists r, ResolvedTransport_Exchange order t s ask events message = Some r /\
    match r with Ok answer => is_Some answer | Err _ => True | Panic _ => False end.
Proof.
  intros [t' Hc]%reachable_consistent Ht Hq Hdot Hlen Hav Hev. assert (t' = t) as -> by (pose proof (cs_transport _ _ _ _ _ Hc); congruence).
  unfold ResolvedTransport_Exchange. rewrite Hq, (cs_unlocked _ _ _ _ _ Hc). destruct (cs_options _ _ _ _ _ Hc) as (Ha & Hr & ->).
  destruct (selected_link_known Addr_String NewDefault tls_NewClient accept order (q_Name q) s t Hc) as (r & -> & Hsel). apply ask_link_returns; try done. by destruct r as [x|]; [destruct Hsel|].
Qed.

Lemma last_unique {A} (l : list A) x : (forall y, y ∈ l -> y = x) -> x ∈ l -> last l = Some x.
Proof.
  intros Hall Hin. destruct (last l) as [y|] eqn:E.
  - f_equal. apply Hall. apply last_Some in E as [k ->]. set_solver.
  - apply last_None in E as ->. by apply elem_of_nil in Hin.
Qed.

(** The link of a name: when one link alone is for a name, it is the link that is asked, in
    whatever order the table is visited. *)
Theorem link_of_name order accept name s i x :
  (forall j, j ∈ order <-> is_Some (rs_links s !! j)) ->
  known_link s i x -> link_matches accept name x.2 = true ->
  (forall j y, known_link s j y -> link_matches accept name y.2 = true -> y = x) ->
  select_link order accept name s = Ok (Some x).
Proof.
  intros Horder Hx Hm Huniq. unfold select_link.
  enough (last (List.filter (fun y => link_matches accept name y.2) (omap (link_of s) order)) = Some x) as -> by done. apply last_unique.
  - intros y Hy. apply list_elem_of_In, filter_In in Hy as [Hy Hmy]. apply list_elem_of_In, list_elem_of_omap in Hy as (j & _ & Hj%link_of_known).
    by eapply Huniq.
  - apply list_elem_of_In, filter_In. split; [|done]. apply list_elem_of_In, list_elem_of_omap. exists i. split; [|by apply link_of_known].
    apply Horder. destruct Hx. by eexists.
Qed.

(** *** Names of addresses *)

(** RFC 3596, section 2.5: the octets a name in ip6.arpa stands for. *)
Fixpoint read_ip6_arpa (l : list ascii) : option (list Z) :=
  if bool_decide (l = chars "ip6.arpa.") then Some []
  else
    match l with
    | lo :: d1 :: hi :: d2 :: l =>
        if bool_decide (d1 = "."%char) && bool_decide (d2 = "."%char) then
          match hex_value lo, hex_value hi, read_ip6_arpa l with
          | Some lo, Some hi, Some rest => Some (rest ++ [hi * 16 + lo])
          | _, _, _ => None
          end
        else None
    | _ => None
    end.

Lemma join_dots (l : list string) : l <> [] -> chars (strings_Join l "." +:+ ".") = flat_map (fun x => chars x ++ ["."%char]) l.
Proof.
  intros Hl. rewrite chars_app. induction l as [|x [|y l] IH]; [done|by cbn [flat_map]; rewrite app_nil_r|].
  change (strings_Join (x :: y :: l) ".") with (x +:+ ("." +:+ strings_Join (y :: l) ".")).
  rewrite !chars_app, <-!app_assoc, IH by done. cbn [flat_map]. by rewrite <-!app_assoc.
Qed.

Lemma hex_nibble z : 0 <= z < 16 -> exists c, nibble z = String c "" /\ hex_value c = Some z.
Proof.
  intros Hz. eexists. split; [reflexivity|]. unfold hex_value, byte_of. rewrite nat_ascii_embedding by (destruct (z <? 10); lia).
  destruct (Z.ltb_spec z 10); rewrite Z2Nat.id by lia.
  - rewrite (proj2 (Z.leb_le 48 _)), (proj2 (Z.leb_le _ 57)) by lia. simpl. f_equal. lia.
  - rewrite (proj2 (Z.leb_gt _ 57)), (proj2 (Z.leb_le 97 _)), (proj2 (Z.leb_le _ 102)) by lia. rewrite andb_false_r. simpl. f_equal. lia.
Qed.

Lemma read_octet b l rest :
  is_byte b -> read_ip6_arpa l = Some rest ->
  read_ip6_arpa (flat_map (fun x => chars x ++ ["."%char]) [nibble (Z.land b 15); nibble (Z.shiftr b 4)] ++ l) = Some (rest ++ [b]).
Proof.
  unfold is_byte. intros Hb Hl. change 15 with (Z.ones 4). rewrite Z.land_ones, Z.shiftr_div_pow2 by lia. change (2 ^ 4) with 16.
  destruct (hex_nibble (b mod 16)) as (lo & -> & Hlo); [by apply Z.mod_pos_bound|].
  destruct (hex_nibble (b / 16)) as (hi & -> & Hhi); [Z.to_euclidean_division_equations; lia|].
  cbn [flat_map app chars String.list_ascii_of_string read_ip6_arpa].
  rewrite bool_decide_false.
  - rewrite !(bool_decide_true ("."%char = "."%char)) by done. cbn [andb]. rewrite Hlo, Hhi, Hl. do 2 f_equal.
    rewrite Z.mul_comm, <-Z.div_mod by lia. done.
  - intros [=]. 
Qed.

Lemma read_octets l :
  Forall is_byte l ->
  read_ip6_arpa (flat_map (fun x => chars x ++ ["."%char]) (flat_map (fun b => [nibble (Z.land b 15); nibble (Z.shiftr b 4)]) l) ++ chars "ip6.arpa.") =
    Some (rev l).
Proof.
  induction 1 as [|b l Hb _ IH]; [by vm_compute|]. cbn [rev]. rewrite <-(read_octet b _ _ Hb IH), app_assoc, <-flat_map_app. done.
Qed.

(** Names of IPv6 addresses: the name ResolveAddress asks for an IPv6 address is read back, by
    the rules of RFC 3596, as the octets of the address. *)
Theorem ip6_name_read_back address :
  length address = 16%nat -> Forall is_byte address ->
  exists addr, AddrFromSlice address = Some addr /\ read_ip6_arpa (chars (ptr_domain addr address)) = Some address.
Proof.
  intros Hlen Hb. unfold AddrFromSlice. rewrite Hlen. eexists. split; [done|]. unfold ptr_domain. cbn [Addr_Is4].
  change ".ip6.arpa." with ("." +:+ "ip6.arpa."). rewrite <-str_app_assoc, chars_app, join_dots.
  2: { destruct address as [|b l] using rev_ind; [done|]. by rewrite rev_unit. }
  rewrite read_octets, rev_involutive by (by apply Forall_rev). done.
Qed.

(** *** Failures *)

(** A call that resolves through an interface that is not known and was not asked
    for before keeps the lock: nothing after it ever comes back. *)
Lemma unknown_interface_blocks {A} find i s early (k : reply A) e :
  rs_locked s = false -> rs_links s !! i = None -> find i = inr e ->
  let '(r, s') := with_link find i s early k in
  r = Failed (wrapError e) /\
  (forall B find' j early' (k' : reply B), with_link find' j s' early' k' = (Blocked, s')) /\
  (forall a n t c find' j call, do_set a n t c find' j call s' = (Blocked, s')) /\
  (forall find', onNetworkUpdate find' s' = (Blocked, s')) /\
  (forall order t ask events message q qs, msg_Question message = q :: qs -> ResolvedTransport_Exchange order t s' ask events message = None).
Proof.
  intros Hl Hi Hf. unfold with_link, getLink. rewrite Hl, Hi, Hf. split_and!; try done.
  - by intros a n t c find' j [].
  - intros order t ask events message q qs Hq. unfold ResolvedTransport_Exchange. by rewrite Hq.
Qed.

(** The error of a look-up that fails does not reach the caller. *)
Lemma lookup_error_lost `{ResolveLib} find nil_Error m i hostname family s e1 e2 :
  ResolveHostname find (fun _ _ _ => inr e1) nil_Error m i hostname family s = ResolveHostname find (fun _ _ _ => inr e2) nil_Error m i hostname family s.
Proof. done. Qed.

(** The addresses of an answer have the octets of their family. *)
Lemma dbus_address_octets i a : Addr_IsValid a = true ->
  length (da_Address (dbus_address i a)) = if da_Family (dbus_address i a) =? AF_INET then 4%nat else 16%nat.
Proof. by destruct a. Qed.

(** *** Examples *)

Definition some_finder : Z -> Iface + error :=
  fun i => if i =? 2 then inl {| ifc_ptr := 1; ifc_Name := "eth0" |} else if i =? 3 then inl {| ifc_ptr := 2; ifc_Name := "wlan0" |} else inr ErrInvalid.
Definition some_render : Addr -> string := fun _ => "server".
Definition some_set (i : Z) (c : link_call) (s : ResolvedService) : reply unit * ResolvedService :=
  do_set some_render (fun _ => None) (fun _ => None) (fun _ => "") some_finder i c s.
Definition start_state (accept : bool) : ResolvedService := with_rtransport (Some (NewResolvedTransport accept)) NewResolvedService.
Definition some_links (accept : bool) : ResolvedService :=
  (some_set 2 (CallDomains [{| lm_Domain := "lan."; lm_RoutingOnly := false |}])
    (some_set 3 (CallDefaultRoute true)
      (some_set 2 (CallDNS [{| ld_Family := 2; ld_Address := [192; 168; 1; 1] |}]) (start_state accept)).2).2).2.

Lemma reach_some accept i c s :
  reachable some_render (fun _ => None) (fun _ => None) (fun _ => "") accept s -> (some_set i c s).1 = Replied tt ->
  reachable some_render (fun _ => None) (fun _ => None) (fun _ => "") accept (some_set i c s).2.
Proof.
  intros Hs Hr. apply (reach_set _ _ _ _ accept some_finder i c s); [exact Hs|]. unfold some_set in *. destruct (do_set _ _ _ _ _ _ _ _). simpl in *. by rewrite Hr.
Qed.

Lemma some_links_reachable accept : reachable some_render (fun _ => None) (fun _ => None) (fun _ => "") accept (some_links accept).
Proof. unfold some_links. do 3 (apply reach_some; [|destruct accept; vm_compute; reflexivity]). apply reach_start. Qed.

Lemma link_servers_current_witness :
  reachable some_render (fun _ => None) (fun _ => None) (fun _ => "") true (some_links true) /\ NoDup (rs_defaultRouteSequence (some_links true)).
Proof.
  split; [apply some_links_reachable|].
  destruct (link_servers_current some_render (fun _ => None) (fun _ => None) (fun _ => "") true (some_links true) (some_links_reachable true)) as (t & _ & _ & _ & H).
  exact H.
Defined.

Definition some_query (name : string) : DMsg := resolve_request name TypeA ClassINET.
Definition some_answer : DMsg := Build_Msg 0 true false true true 0 [] [] [] [].
Definition asks_nobody : nat -> nat -> nat * LinkServer -> Question -> DMsg + error := fun _ _ _ _ => inr ErrInvalid.
Definition transport_of (s : ResolvedService) : ResolvedTransport := default (NewResolvedTransport false) (rs_transport s).
Definition asked (s : ResolvedService) (name : string) : option (res (option DMsg)) :=
  ResolvedTransport_Exchange (map fst (map_to_list (rs_links s))) (transport_of s) s asks_nobody [RaceDone 0 (inl some_answer)] (some_query name).

Lemma resolved_query_returns_witness :
  reachable some_render (fun _ => None) (fun _ => None) (fun _ => "") true (some_links true) /\ is_Some (asked (some_links true) "nas.lan.").
Proof.
  split; [apply some_links_reachable|].
  destruct (resolved_query_returns some_render (fun _ => None) (fun _ => None) (fun _ => "") true (some_links true) (transport_of (some_links true))
    (map fst (map_to_list (rs_links (some_links true)))) asks_nobody [RaceDone 0 (inl some_answer)] (some_query "nas.lan.")
    {| q_Name := "nas.lan."; q_Qtype := TypeA; q_Qclass := ClassINET |} [] (some_links_reachable true))
    as (r & Hr & _);
    [vm_compute; reflexivity|reflexivity|vm_compute; reflexivity|vm_compute; discriminate|vm_compute; reflexivity|exists (inl some_answer); apply elem_of_list_here || (constructor)|].
  exists r. exact Hr.
Defined.

Lemma link_of_name_witness :
  let x := (0%nat, default new_link (rs_heap (some_links true) !! 0%nat)) in
  known_link (some_links true) 2 x /\ select_link [3; 2] true "nas.lan." (some_links true) = Ok (Some x).
Proof.
  intros x. assert (known_link (some_links true) 2 x) as Hx by (split; vm_compute; reflexivity).
  assert (map_to_list (rs_links (some_links true)) = [(3, 1%nat); (2, 0%nat)]) as Hl by (vm_compute; reflexivity).
  assert (forall j id, rs_links (some_links true) !! j = Some id -> j = 2 /\ id = 0%nat \/ j = 3 /\ id = 1%nat) as Hall.
  { intros j id Hj. apply elem_of_map_to_list in Hj. rewrite Hl in Hj. set_solver. }
  split; [exact Hx|]. apply (link_of_name [3; 2] true "nas.lan." (some_links true) 2 x); [|exact Hx|vm_compute; reflexivity|].
  - intros j. split.
    + intros Hj. assert (j = 3 \/ j = 2) as [-> | ->] by set_solver; eexists; vm_compute; reflexivity.
    + intros [id Hj]. destruct (Hall j id Hj) as [[-> _]|[-> _]]; set_solver.
  - intros j [id link] [Hj Hh] Hm. simpl in Hj, Hh, Hm. destruct (Hall j id Hj) as [[_ ->]|[_ ->]].
    + unfold x. rewrite Hh. reflexivity.
    + exfalso. revert Hh Hm. vm_compute. intros [= <-]. discriminate.
Defined.

Lemma ip6_name_read_back_witness :
  exists addr, AddrFromSlice (replicate 15 0 ++ [1]) = Some addr /\
    read_ip6_arpa (chars (ptr_domain addr (replicate 15 0 ++ [1]))) = Some (replicate 15 0 ++ [1]).
Proof.
  apply (ip6_name_read_back (replicate 15 0 ++ [1])); [reflexivity|]. repeat (apply List.Forall_cons; [unfold is_byte; lia|]). apply List.Forall_nil.
Defined.

(** The name of an IPv4 address has nibbles too, where RFC 1035 has decimal
    octets: 4.3.2.1.in-addr.arpa. *)
Example ip4_name_in_nibbles : ptr_domain (Addr4 16909060) [1; 2; 3; 4] = "4.0.3.0.2.0.1.0.in-addr.arpa.".
Proof. vm_compute. reflexivity. Qed.

(** Answers: from the link of the name, from the default route, or that the name
    does not exist, as the default route has no server. *)
Example answers_of_links :
  (asked (some_links true) "nas.lan.", option_map (fun r => match r with Ok (Some m) => msg_Rcode m | _ => 0 end) (asked (some_links true) "example.org.")) =
  (Some (Ok (Some some_answer)), Some RcodeNameError).
Proof. vm_compute. reflexivity. Qed.

(** A domain without a dot at its end is never the end of a name that is asked;
    one with it is the end of other names too. *)
Example suffixes_of_names :
  (link_matches true "nas.lan." (set_iif {| ifc_ptr := 1; ifc_Name := "eth0" |} {| tl_iif := None; tl_address := []; tl_addressEx := [];
      tl_domain := [{| lm_Domain := "lan"; lm_RoutingOnly := false |}]; tl_defaultRoute := false; tl_dnsOverTLS := false |}),
   link_matches true "vlan." (default new_link (rs_heap (some_links true) !! 0%nat))) = (false, true).
Proof. vm_compute. reflexivity. Qed.

(** An update of the network in which the interfaces are the same takes the
    servers of the links away: the next query dereferences nil. *)
Example update_takes_servers :
  let s := (onNetworkUpdate some_finder (some_links true)).2 in
  (map_to_list (rs_links s), asked s "nas.lan.", rs_defaultRouteSequence s) = ([(3, 1%nat); (2, 0%nat)], Some (Panic nil_dereference), []).
Proof. vm_compute. reflexivity. Qed.

(** A link that is reverted leaves the table, but its servers stay open and it
    stays a default route: the next query that goes to it dereferences nil. *)
Example reverted_link_crashes :
  let s := (RevertLink some_render (fun _ => None) (fun _ => None) some_finder (fun _ => "") 3 (some_links true)).2 in
  (rs_links s !! 3, rs_defaultRouteSequence s, asked s "example.org.") = (None, [3], Some (Panic nil_dereference)).
Proof. vm_compute. reflexivity. Qed.

Example reverted_link_keeps_servers :
  let s := (RevertLink some_render (fun _ => None) (fun _ => None) some_finder (fun _ => "") 2 (some_links true)).2 in
  (rs_links s !! 2, option_map ls_Servers (rt_linkServers (transport_of s) !! 0%nat), rt_closed (transport_of s)) =
  (None, Some [(2%nat, {| sv_iface := "eth0"; sv_addr := Addr4 3232235777; sv_port := 53; sv_tls := None |})], [0%nat; 1%nat]).
Proof. vm_compute. reflexivity. Qed.

(** Servers that cannot be made leave the closed ones in place. *)
Example failed_update_keeps_closed :
  let r := some_set 2 (CallDNS [{| ld_Family := 2; ld_Address := [1; 2; 3] |}]) (some_links true) in
  (r.1, option_map (fun ls => map fst (ls_Servers ls)) (rt_linkServers (transport_of r.2) !! 0%nat), rt_closed (transport_of r.2)) =
  (Failed (DBusFailed ErrInvalid), Some [1%nat], [0%nat; 1%nat]).
Proof. vm_compute. reflexivity. Qed.

(** A second transport takes the callbacks of the first, whose queries then
    dereference nil. *)
Example second_transport :
  let s := (ResolvedTransport_Start "resolved" TheService (NewResolvedTransport false) NewResolvedService).2 in
  let s := (ResolvedTransport_Start "resolved" TheService (NewResolvedTransport false) s).2 in
  let s := (some_set 2 (CallDomains [{| lm_Domain := "lan."; lm_RoutingOnly := false |}]) s).2 in
  ResolvedTransport_Exchange [2] (NewResolvedTransport false) s asks_nobody [] (some_query "nas.lan.") = Some (Panic nil_dereference).
Proof. vm_compute. reflexivity. Qed.
