(* ===== verification/Naive.v ===== *)
(** * The padded streams of naive

    protocol/naive: the first eight pieces of a stream go out in frames with
    padding, the rest as it is.  The reader is a [FrameReader] of Framing.v; the
    writer sends what [Write] and [WriteBuffer] are given to a connection whose
    writes may fail.  Then the request that opens a stream. *)

From stdpp Require Import base list strings.
From Stdlib Require Import ZArith Lia Ascii.
From S2P Require Import Prelude GoStd ByteReader StringFacts Framing.

Open Scope Z_scope.
Open Scope box_scope.

(** ** The connection *)

Definition paddingCount : nat := 8.

Record paddingConn : Type := { readPadding : nat; writePadding : nat; readRemaining : nat; paddingRemaining : nat }.

Definition new_padding : paddingConn := {| readPadding := 0; writePadding := 0; readRemaining := 0; paddingRemaining := 0 |}.

Definition set_read (count remaining padding : nat) (p : paddingConn) : paddingConn :=
  {| readPadding := count; writePadding := writePadding p; readRemaining := remaining; paddingRemaining := padding |}.
Definition set_written (count : nat) (p : paddingConn) : paddingConn :=
  {| readPadding := readPadding p; writePadding := count; readRemaining := readRemaining p; paddingRemaining := paddingRemaining p |}.

(** *** Reading *)

(** A connection and what is read from it. *)
Record PaddedReader : Type := { pr_pad : paddingConn; pr_reader : Reader }.

(** [rw.SkipN] of sing: the bytes are read, or all there are and the end. *)
Definition SkipN (n : nat) (r : Reader) : option error * Reader :=
  if (n <=? length (rd_bytes r))%nat then (None, {| rd_bytes := drop n (rd_bytes r); rd_end := rd_end r |})
  else (Some (rd_end r), {| rd_bytes := []; rd_end := rd_end r |}).

(** The part of [readWithPadding] behind the padding: a header and what of its
    piece is there, or what is there of the rest of the stream. *)
Definition read_piece (n k : nat) (p : paddingConn) (r : Reader) : res (list Z) * PaddedReader :=
  if (readPadding p <? paddingCount)%nat then
    match ReadFull 3 r with
    | Err e => (Err e, {| pr_pad := p; pr_reader := {| rd_bytes := []; rd_end := rd_end r |} |})
    | Panic msg => (Panic msg, {| pr_pad := p; pr_reader := r |})
    | Ok (header, r) =>
        let originalDataSize := Z.to_nat (big_endian (take 2 header)) in
        let paddingSize := Z.to_nat (nth 2 header 0) in
        match read_some (min n originalDataSize) k r with
        | Ok (l, r) => (Ok l, {| pr_pad := set_read (S (readPadding p)) (originalDataSize - length l) paddingSize p; pr_reader := r |})
        | Err e => (Err e, {| pr_pad := p; pr_reader := r |})
        | Panic msg => (Panic msg, {| pr_pad := p; pr_reader := r |})
        end
    end
  else
    match read_some n k r with
    | Ok (l, r) => (Ok l, {| pr_pad := p; pr_reader := r |})
    | Err e => (Err e, {| pr_pad := p; pr_reader := r |})
    | Panic msg => (Panic msg, {| pr_pad := p; pr_reader := r |})
    end.

(** [readWithPadding] into [n] bytes *)
Definition readWithPadding (n k : nat) (c : PaddedReader) : res (list Z) * PaddedReader :=
  let p := pr_pad c in
  if (0 <? readRemaining p)%nat then
    match read_some (min n (readRemaining p)) k (pr_reader c) with
    | Ok (l, r) => (Ok l, {| pr_pad := set_read (readPadding p) (readRemaining p - length l) (paddingRemaining p) p; pr_reader := r |})
    | Err e => (Err e, c)
    | Panic msg => (Panic msg, c)
    end
  else if (0 <? paddingRemaining p)%nat then
    match SkipN (paddingRemaining p) (pr_reader c) with
    | (Some e, r) => (Err e, {| pr_pad := p; pr_reader := r |})
    | (None, r) => read_piece n k (set_read (readPadding p) (readRemaining p) 0 p) r
    end
  else read_piece n k p (pr_reader c).

(** [readerReplaceable]: whether the copy may read from the connection below. *)
Definition readerReplaceable (p : paddingConn) : bool := (readPadding p =? paddingCount)%nat.

(** *** Writing *)

(** A connection that is written to: what arrived, and the outcomes of the writes
    to come, success by default; one that fails has taken some of the bytes. *)
Record Sink : Type := { sk_written : list Z; sk_outcomes : list (option (nat * error)) }.

Definition sink_write (data : list Z) (s : Sink) : nat * option error * Sink :=
  match sk_outcomes s with
  | Some (n, e) :: outcomes => (min n (length data), Some e, {| sk_written := sk_written s ++ take n data; sk_outcomes := outcomes |})
  | None :: outcomes => (length data, None, {| sk_written := sk_written s ++ data; sk_outcomes := outcomes |})
  | [] => (length data, None, {| sk_written := sk_written s ++ data; sk_outcomes := [] |})
  end.

(** A piece with its header and its padding *)
Definition padded (data padding : list Z) : list Z :=
  be_bytes 2 (Z.of_nat (length data) mod 65536) ++ [Z.of_nat (length padding) mod 256] ++ data ++ padding.

(** What is random, and what the extended buffers hold: the padding of the piece
    with this number, at most 255 bytes. *)
Abbreviation paddings := (nat -> list Z).

(** [writeWithPadding] *)
Definition writeWithPadding (pad : paddings) (data : list Z) (p : paddingConn) (s : Sink) : nat * option error * (paddingConn * Sink) :=
  if (writePadding p <? paddingCount)%nat then
    let '(_, err, s) := sink_write (padded data (pad (writePadding p))) s in
    (match err with None => length data | Some _ => O end, err, (set_written (S (writePadding p)) p, s))
  else
    let '(n, err, s) := sink_write data s in (n, err, (p, s)).

(** The pieces of [writeChunked] *)
Definition maxChunk : nat := Z.to_nat 65535.

Fixpoint naive_chunks (fuel : nat) (data : list Z) : list (list Z) :=
  match fuel with
  | O => []
  | S fuel =>
      match data with
      | [] => []
      | _ => if (maxChunk <? length data)%nat then take maxChunk data :: naive_chunks fuel (drop maxChunk data) else [data]
      end
  end.

Fixpoint naive_write_chunks (pad : paddings) (l : list (list Z)) (p : paddingConn) (s : Sink) : nat * option error * (paddingConn * Sink) :=
  match l with
  | [] => (O, None, (p, s))
  | chunk :: l =>
      match writeWithPadding pad chunk p s with
      | (n, Some e, ps) => (n, Some e, ps)
      | (n, None, (p, s)) => let '(m, err, ps) := naive_write_chunks pad l p s in ((n + m)%nat, err, ps)
      end
  end.

(** [writeChunked], which is [Write]: as many rounds as bytes are enough. *)
Definition writeChunked (pad : paddings) (data : list Z) (p : paddingConn) (s : Sink) : nat * option error * (paddingConn * Sink) :=
  naive_write_chunks pad (naive_chunks (length data) data) p s.

(** [writeBufferWithPadding], which is [WriteBuffer] *)
Definition writeBufferWithPadding (pad : paddings) (buffer : list Z) (p : paddingConn) (s : Sink) : option error * (paddingConn * Sink) :=
  if (writePadding p <? paddingCount)%nat then
    if (maxChunk <? length buffer)%nat then
      let '(_, err, ps) := writeChunked pad buffer p s in (err, ps)
    else
      let '(_, err, s) := sink_write (padded buffer (pad (writePadding p))) s in (err, (set_written (S (writePadding p)) p, s))
  else
    let '(_, err, s) := sink_write buffer s in (err, (p, s)).

Definition frontHeadroom (p : paddingConn) : nat := if (writePadding p <? paddingCount)%nat then 3 else 0.
Definition rearHeadroom (p : paddingConn) : nat := if (writePadding p <? paddingCount)%nat then 255 else 0.
Definition writerMTU (p : paddingConn) : nat := if (writePadding p <? paddingCount)%nat then maxChunk else 0.

(** ** Reading what was padded *)

(** The stream of pieces, of which [left] are still padded, and their paddings. *)
Definition padded_piece (d : list Z * list Z) : list Z := padded (fst d) (snd d).

Definition piece_ok (d : list Z * list Z) : Prop := Z.of_nat (length (fst d)) < 65536 /\ Z.of_nat (length (snd d)) < 256.

Definition raw_frames (raw : list Z) : list (list Z) := match raw with [] => [] | _ => [raw] end.

Lemma concat_raw raw : concat (raw_frames raw) = raw.
Proof. destruct raw; [done|]. simpl. by rewrite app_nil_r. Qed.

(** What is still to come: the rest of a piece, its padding, padded pieces, and the
    rest as it is; or that rest alone. *)
Definition padded_holds (c : PaddedReader) (cur : list Z) (ps : list (list Z)) (e : error) : Prop :=
  rd_end (pr_reader c) = e /\
  ((exists padding frames raw,
      Forall piece_ok frames /\ rd_bytes (pr_reader c) = cur ++ padding ++ flat_map padded_piece frames ++ raw /\
      ps = map fst frames ++ raw_frames raw /\ readRemaining (pr_pad c) = length cur /\ paddingRemaining (pr_pad c) = length padding /\
      (readPadding (pr_pad c) + length frames = paddingCount \/ raw = [] /\ readPadding (pr_pad c) + length frames < paddingCount)%nat) \/
   (readPadding (pr_pad c) = paddingCount /\ readRemaining (pr_pad c) = O /\ paddingRemaining (pr_pad c) = O /\
      rd_bytes (pr_reader c) = cur /\ ps = [])).

#[export] Instance padded_reader : FrameReader PaddedReader := {| fr_read := readWithPadding; fr_holds := padded_holds |}.

(** A read of what is there of [l]. *)
Lemma read_part n k l rest e : (0 < n)%nat ->
  exists m, (m <= length l)%nat /\ (l <> [] -> (0 < m)%nat) /\
    read_some (min n (length l)) k {| rd_bytes := l ++ rest; rd_end := e |} = Ok (take m l, {| rd_bytes := drop m l ++ rest; rd_end := e |}).
Proof.
  intros Hn. destruct (decide (l = [])) as [->|Hne].
  - exists O. rewrite Nat.min_0_r. split; [done|]. by split.
  - assert (0 < length l)%nat by (destruct l; [done|simpl; lia]).
    destruct (read_some_app (min n (length l)) k l rest e ltac:(lia)) as (m & Hm & ->). exists m. split_and!; [lia|lia|done].
Qed.

(** A read of a piece, when padded pieces or the rest as it is are next. *)
Definition padded_step_ok (cur : list Z) (ps : list (list Z)) (e : error) (r : res (list Z) * PaddedReader) : Prop :=
  match r with
  | (Ok l, s') => exists cur' ps', padded_holds s' cur' ps' e /\ cur ++ concat ps = l ++ cur' ++ concat ps' /\
      (length (cur' ++ concat ps') + length ps' < length (cur ++ concat ps) + length ps)%nat
  | (Err e', _) => cur = [] /\ ps = [] /\ e' = e
  | (Panic _, _) => False
  end.

Lemma read_header data padding rest e : piece_ok (data, padding) ->
  exists header, ReadFull 3 {| rd_bytes := padded data padding ++ rest; rd_end := e |} = Ok (header, {| rd_bytes := data ++ padding ++ rest; rd_end := e |}) /\
    Z.to_nat (big_endian (take 2 header)) = length data /\ Z.to_nat (nth 2 header 0) = length padding.
Proof.
  intros [Hd Hp]. cbn [fst snd] in *. exists (be_bytes 2 (Z.of_nat (length data)) ++ [Z.of_nat (length padding)]).
  unfold padded. rewrite !Z.mod_small by lia. rewrite <-!app_assoc.
  replace (be_bytes 2 (Z.of_nat (length data)) ++ [Z.of_nat (length padding)] ++ data ++ padding ++ rest) with
    ((be_bytes 2 (Z.of_nat (length data)) ++ [Z.of_nat (length padding)]) ++ data ++ padding ++ rest) by (by rewrite <-!app_assoc).
  pose proof (length_be_bytes 2 (Z.of_nat (length data))) as Hl.
  assert (length (be_bytes 2 (Z.of_nat (length data)) ++ [Z.of_nat (length padding)]) = 3)%nat as H3 by (rewrite length_app, Hl; done).
  split; [rewrite <-H3 at 1; apply reads_full|]. rewrite take_app_length' by done.
  rewrite big_endian_be_bytes by (simpl; lia). split; [lia|]. rewrite app_nth2 by lia. rewrite Hl. simpl. lia.
Qed.

(** The rest of the stream, as it is. *)
Lemma raw_step n k p raw e : (0 < n)%nat -> readPadding p = paddingCount -> readRemaining p = O -> paddingRemaining p = O ->
  match read_piece n k p {| rd_bytes := raw; rd_end := e |} with
  | (Ok l, s') => exists raw', padded_holds s' raw' [] e /\ raw = l ++ raw' /\ (length raw' < length raw)%nat
  | (Err e', _) => raw = [] /\ e' = e
  | (Panic _, _) => False
  end.
Proof.
  intros Hn Hc Hr Hp. unfold read_piece. rewrite Hc. cbn [Nat.ltb Nat.leb].
  unfold read_some. cbn [rd_bytes rd_end]. rewrite (proj2 (Nat.eqb_neq n 0)) by lia. destruct raw as [|x raw]; [done|].
  exists (drop (min n (max 1 k)) (x :: raw)). split_and!; [|by rewrite take_drop|rewrite length_drop; simpl length; lia].
  split; [done|]. right. by split_and!.
Qed.

Lemma piece_step n k p frames raw e :
  (0 < n)%nat -> Forall piece_ok frames -> readRemaining p = O -> paddingRemaining p = O ->
  (readPadding p + length frames = paddingCount \/ raw = [] /\ readPadding p + length frames < paddingCount)%nat ->
  padded_step_ok [] (map fst frames ++ raw_frames raw) e (read_piece n k p {| rd_bytes := flat_map padded_piece frames ++ raw; rd_end := e |}).
Proof.
  intros Hn Hok Hr Hp Hcount. destruct frames as [|[d padding] frames]; cbn [flat_map map app].
  - destruct Hcount as [Hc|[-> Hc]]; simpl in Hc; rewrite Nat.add_0_r in Hc.
    + pose proof (raw_step n k p raw e Hn Hc Hr Hp) as Hs. unfold padded_step_ok. destruct (read_piece _ _ _ _) as [[l|e'|msg] s']; [| |done].
      * destruct Hs as (raw' & Hh & -> & Hlt). exists raw', []. cbn [app concat length]. rewrite concat_raw, !app_nil_r. split; [done|]. split; [done|]. lia.
      * by destruct Hs as [-> ->].
    + unfold read_piece. rewrite (proj2 (Nat.ltb_lt _ _)) by done. unfold ReadFull. by destruct (_ && _) eqn:E; [apply andb_prop in E as [_ E]|].
  - apply Forall_cons in Hok as [Hd Hok]. unfold read_piece.
    rewrite (proj2 (Nat.ltb_lt _ _)) by (destruct Hcount as [Hc|[_ Hc]]; simpl in Hc; lia).
    destruct (read_header d padding (flat_map padded_piece frames ++ raw) e Hd) as (header & Hh & H1 & H2).
    unfold padded_piece at 1. cbn [fst snd]. rewrite <-app_assoc, Hh, H1, H2.
    destruct (read_part n k d (padding ++ flat_map padded_piece frames ++ raw) e Hn) as (m & Hm & Hpos & ->).
    cbn [padded_step_ok app concat]. exists (drop m d), (map fst frames ++ raw_frames raw). split_and!.
    + split; [done|]. left. exists padding, frames, raw. cbn [pr_pad pr_reader rd_bytes readRemaining paddingRemaining readPadding set_read].
      split_and!; try done; [rewrite length_take, length_drop; lia|]. simpl in Hcount. lia || (destruct Hcount as [?|[-> ?]]; [left|right; split; [done|]]; lia).
    + by rewrite app_assoc, take_drop.
    + rewrite !length_app, length_drop. cbn [length]. rewrite length_app. lia.
Qed.

#[export] Instance padded_law : FrameReaderLaw PaddedReader.
Proof.
  intros n k [p [bytes end_]] cur ps e Hn [He Hh]. cbn [pr_pad pr_reader rd_bytes rd_end] in *. subst end_.
  change (padded_step_ok cur ps e (readWithPadding n k {| pr_pad := p; pr_reader := {| rd_bytes := bytes; rd_end := e |} |})).
  unfold readWithPadding. cbn [pr_pad pr_reader].
  destruct Hh as [(padding & frames & raw & Hok & -> & -> & Hr & Hp & Hcount)|(Hc & Hr & Hp & -> & ->)].
  - rewrite Hr. destruct (Nat.ltb_spec 0 (length cur)) as [Hlt|Hge].
    + destruct (read_part n k cur (padding ++ flat_map padded_piece frames ++ raw) e Hn) as (m & Hm & Hpos & ->).
      assert (0 < m)%nat by (apply Hpos; destruct cur; [simpl in Hlt; lia|done]).
      cbn [padded_step_ok]. exists (drop m cur), (map fst frames ++ raw_frames raw). split_and!.
      * split; [done|]. left. exists padding, frames, raw. cbn [pr_pad pr_reader rd_bytes readRemaining paddingRemaining readPadding set_read].
        split_and!; try done. rewrite length_take, length_drop. lia.
      * by rewrite app_assoc, take_drop.
      * rewrite !length_app, length_drop. lia.
    + destruct cur; [|simpl in Hge; lia]. cbn [app]. rewrite Hp. destruct (Nat.ltb_spec 0 (length padding)) as [Hlt|Hge'].
      * unfold SkipN. cbn [rd_bytes rd_end]. rewrite (proj2 (Nat.leb_le _ _)) by (rewrite length_app; lia).
        rewrite drop_app_length. by apply piece_step.
      * destruct padding; [|simpl in Hge'; lia]. by apply piece_step.
  - rewrite Hr, Hp. cbn [Nat.ltb Nat.leb]. pose proof (raw_step n k p cur e Hn Hc Hr Hp) as Hs. unfold padded_step_ok.
    destruct (read_piece _ _ _ _) as [[l|e'|msg] s']; [| |done].
    + destruct Hs as (raw' & Hh & -> & Hlt). exists raw', []. cbn [concat length]. rewrite !app_nil_r. split; [done|]. split; [done|]. lia.
    + by destruct Hs as [-> ->].
Qed.

(** ** What is written *)

Lemma maxChunk_pos : (0 < maxChunk)%nat.
Proof. unfold maxChunk. lia. Qed.

Lemma maxChunk_value : Z.of_nat maxChunk = 65535.
Proof. unfold maxChunk. by rewrite Z2Nat.id. Qed.

#[local] Opaque maxChunk.

Lemma chunks_spec fuel data : (length data <= fuel)%nat ->
  concat (naive_chunks fuel data) = data /\ Forall (fun c => (length c <= maxChunk)%nat) (naive_chunks fuel data).
Proof.
  pose proof maxChunk_pos as Hpos. revert data; induction fuel as [|fuel IH]; intros data Hlen; [destruct data; [by repeat constructor|simpl in Hlen; lia]|].
  cbn [naive_chunks]. destruct data as [|x data]; [done|]. destruct (Nat.ltb_spec maxChunk (length (x :: data))) as [Hlt|Hge].
  - destruct (IH (drop maxChunk (x :: data))) as [Hc Hf]; [rewrite length_drop; lia|]. cbn [concat]. rewrite Hc, take_drop. split; [done|].
    constructor; [rewrite length_take; apply Nat.le_min_l|exact Hf].
  - cbn [concat]. rewrite app_nil_r. split; [done|]. constructor; [exact Hge|constructor].
Qed.

(** What was written so far, as padded pieces and the rest. *)
Definition written_ok (p : paddingConn) (s : Sink) (data : list Z) : Prop :=
  sk_outcomes s = [] /\ exists frames raw,
    Forall piece_ok frames /\ sk_written s = flat_map padded_piece frames ++ raw /\ data = concat (map fst frames) ++ raw /\
    writePadding p = length frames /\ (length frames = paddingCount \/ raw = [] /\ length frames < paddingCount)%nat.

Section writes.
Context (pad : paddings) (Hpad : forall i, Z.of_nat (length (pad i)) < 256).

(** A piece of any size when the padding is over, of at most 65535 bytes before. *)
Lemma piece_written p s data chunk :
  written_ok p s data -> (length chunk <= maxChunk)%nat \/ (paddingCount <= writePadding p)%nat ->
  exists p' s', writeWithPadding pad chunk p s = (length chunk, None, (p', s')) /\ written_ok p' s' (data ++ chunk).
Proof using Hpad.
  intros (Ho & frames & raw & Hok & Hw & Hd & Hp & Hcount) Hlen. unfold writeWithPadding, sink_write. rewrite Ho.
  destruct (Nat.ltb_spec (writePadding p) paddingCount) as [Hlt|Hge].
  - eexists _, _. split; [done|]. split; [done|]. exists (frames ++ [(chunk, pad (writePadding p))]), [].
    destruct Hcount as [?|[-> ?]]; [lia|]. cbn [sk_written writePadding set_written]. split_and!.
    + apply Forall_app. split; [done|]. constructor; [|constructor]. split; cbn [fst snd]; [|apply Hpad]. pose proof maxChunk_value. lia.
    + rewrite Hw, flat_map_app. cbn [flat_map]. by rewrite !app_nil_r.
    + rewrite Hd, map_app, concat_app. cbn [map concat fst]. by rewrite !app_nil_r.
    + rewrite length_app. simpl. lia.
    + rewrite length_app. simpl. lia || (destruct (decide (length frames + 1 = paddingCount)%nat); [by left|right; split; [done|lia]]).
  - eexists _, _. split; [done|]. split; [done|]. exists frames, (raw ++ chunk). cbn [sk_written].
    destruct Hcount as [Hc|[_ ?]]; [|lia]. split_and!; [done|by rewrite Hw, app_assoc|by rewrite Hd, app_assoc|done|by left].
Qed.

Lemma chunks_written l p s data :
  written_ok p s data -> Forall (fun c => (length c <= maxChunk)%nat) l ->
  exists p' s', naive_write_chunks pad l p s = (length (concat l), None, (p', s')) /\ written_ok p' s' (data ++ concat l).
Proof using Hpad.
  intros Hw Hl. revert p s data Hw; induction Hl as [|c l Hc _ IH]; intros p s data Hw; cbn [naive_write_chunks concat].
  - exists p, s. by rewrite app_nil_r.
  - destruct (piece_written p s data c Hw (or_introl Hc)) as (p1 & s1 & -> & Hw1). destruct (IH p1 s1 _ Hw1) as (p2 & s2 & -> & Hw2).
    exists p2, s2. rewrite length_app, app_assoc. done.
Qed.

(** [Write] takes all of its data. *)
Lemma write_takes_all data0 data p s :
  written_ok p s data0 -> exists p' s', writeChunked pad data p s = (length data, None, (p', s')) /\ written_ok p' s' (data0 ++ data).
Proof using Hpad.
  intros Hw. destruct (chunks_spec (length data) data (le_n _)) as [Hc Hf]. unfold writeChunked.
  destruct (chunks_written _ p s data0 Hw Hf) as (p' & s' & -> & Hw'). rewrite Hc in *. by exists p', s'.
Qed.

Lemma write_buffer_takes_all data0 data p s :
  written_ok p s data0 -> exists p' s', writeBufferWithPadding pad data p s = (None, (p', s')) /\ written_ok p' s' (data0 ++ data).
Proof using Hpad.
  intros Hw. unfold writeBufferWithPadding. destruct (Nat.ltb_spec (writePadding p) paddingCount) as [Hlt|Hge].
  - destruct (Nat.ltb_spec maxChunk (length data)) as [Hm|Hm].
    + destruct (write_takes_all data0 data p s Hw) as (p' & s' & -> & Hw'). by exists p', s'.
    + destruct (piece_written p s data0 data Hw (or_introl Hm)) as (p' & s' & Heq & Hw'). unfold writeWithPadding in Heq.
      rewrite (proj2 (Nat.ltb_lt _ _)) in Heq by done. destruct (sink_write _ s) as [[n err] s1]. injection Heq as _ -> <- <-. by eexists _, _.
  - destruct (piece_written p s data0 data Hw (or_intror Hge)) as (p' & s' & Heq & Hw'). unfold writeWithPadding in Heq.
    rewrite (proj2 (Nat.ltb_ge _ _)) in Heq by done. destruct (sink_write _ s) as [[n err] s1]. injection Heq as _ -> <- <-. by eexists _, _.
Qed.

(** The calls of a user of the connection *)
Inductive naive_call : Type :=
  | NaiveWrite (data : list Z)
  | NaiveWriteBuffer (buffer : list Z).

Definition call_data (c : naive_call) : list Z := match c with NaiveWrite data => data | NaiveWriteBuffer buffer => buffer end.

Fixpoint naive_calls (l : list naive_call) (p : paddingConn) (s : Sink) : paddingConn * Sink :=
  match l with
  | [] => (p, s)
  | c :: l =>
      let '(p, s) := match c with
                     | NaiveWrite data => (writeChunked pad data p s).2
                     | NaiveWriteBuffer buffer => (writeBufferWithPadding pad buffer p s).2
                     end in
      naive_calls l p s
  end.

Lemma calls_written l p s data : written_ok p s data -> let '(p', s') := naive_calls l p s in written_ok p' s' (data ++ concat (map call_data l)).
Proof using Hpad.
  revert p s data; induction l as [|c l IH]; intros p s data Hw; cbn [naive_calls map concat]; [by rewrite app_nil_r|].
  rewrite app_assoc. destruct c as [d|d]; cbn [call_data].
  - destruct (write_takes_all data d p s Hw) as (p1 & s1 & -> & Hw1). by apply IH.
  - destruct (write_buffer_takes_all data d p s Hw) as (p1 & s1 & -> & Hw1). by apply IH.
Qed.
End writes.

Definition empty_sink : Sink := {| sk_written := []; sk_outcomes := [] |}.

(** Padding goes unseen: whatever is written with Write and WriteBuffer to a connection that
    takes it, in pieces of any size and with any padding of at most 255 bytes, is read on the other side in order, into
    buffers of any sizes and however the connection cuts it up; then comes the end of the connection. *)
Theorem naive_stream_read_back pad calls args e :
  (forall i, Z.of_nat (length (pad i)) < 256) -> Forall (fun a => (0 < fst a)%nat) args ->
  (length (concat (map call_data calls)) + 9 < length args)%nat ->
  let '(_, s) := naive_calls pad calls new_padding empty_sink in
  read_all args {| pr_pad := new_padding; pr_reader := {| rd_bytes := sk_written s; rd_end := e |} |} = (concat (map call_data calls), Some e).
Proof.
  intros Hpad Ha Hlen. assert (written_ok new_padding empty_sink []) as Hw0.
  { split; [done|]. exists [], []. split_and!; try done. right. split; [done|]. unfold paddingCount. simpl. lia. }
  pose proof (calls_written pad Hpad calls new_padding empty_sink [] Hw0) as Hw. cbn [app] in Hw.
  destruct (naive_calls pad calls new_padding empty_sink) as [p s]. destruct Hw as (_ & frames & raw & Hok & Hws & Hd & _ & Hcount).
  destruct (read_all_frames args {| pr_pad := new_padding; pr_reader := {| rd_bytes := sk_written s; rd_end := e |} |} []
    (map fst frames ++ raw_frames raw) e Ha) as (rest & Heq & Hend).
  { split; [done|]. left. exists [], frames, raw. cbn [pr_pad pr_reader rd_bytes readRemaining paddingRemaining readPadding new_padding app length].
    split_and!; done. }
  cbn [app] in *. rewrite concat_app, concat_raw, <-Hd in Heq, Hend.
  assert (rest = [] /\ snd (read_all args {| pr_pad := new_padding; pr_reader := {| rd_bytes := sk_written s; rd_end := e |} |}) = Some e) as [-> He].
  { apply Hend. rewrite length_app, length_map. assert (length (raw_frames raw) <= 1)%nat by (destruct raw; simpl; lia). unfold paddingCount in Hcount. lia. }
  rewrite app_nil_r in Heq. destruct (read_all args _) as [l o]. simpl in *. by rewrite <-Heq, He.
Qed.

(** ** The request of a stream *)

(** [generatePaddingHeader]: [n] below 32 and 64 [bits] are random. *)
Definition padding_alphabet : list ascii := chars "!#$()+<>?@[]^`{}".

Definition generatePaddingHeader (n bits : Z) : string :=
  String.string_of_list_ascii
    (map (fun i => nth (Z.to_nat (Z.land (Z.shiftr bits (4 * Z.of_nat i)) 15)) padding_alphabet "!"%char) (seq 0 16) ++
     replicate (Z.to_nat (n + 30) - 16) "~"%char).

Lemma padding_header_length n bits : 0 <= n < 32 -> 30 <= Z.of_nat (String.length (generatePaddingHeader n bits)) <= 61.
Proof.
  intros Hn. unfold generatePaddingHeader. rewrite <-length_chars. unfold chars. rewrite String.list_ascii_of_string_of_list_ascii.
  rewrite length_app, length_map, length_seq, length_replicate. lia.
Qed.

(** [NewInbound]: its checks; [new_tls] is what becomes of the TLS options. *)
Definition NewNaiveInbound (udp : bool) (tls_enabled : option bool) (users : nat) (new_tls : option error) : option error :=
  if udp && negb (default false tls_enabled) then Some (ErrNew "TLS is required for QUIC server")
  else if (users =? 0)%nat then Some (ErrNew "missing users")
  else match tls_enabled with Some _ => new_tls | None => None end.

(** [Start]: TLS, the TCP listener, and HTTP/3, which may fail next to TCP. *)
Definition NaiveInbound_Start (networks : list string) (tls listen h3 : option error) : option error :=
  match tls with
  | Some e => Some (ErrCause e "create TLS config")
  | None =>
      match (if bool_decide ("tcp" ∈ networks) then listen else None) with
      | Some e => Some e
      | None => if bool_decide ("udp" ∈ networks) then match h3 with Some e => if (1 <? length networks)%nat then None else Some e | None => None end else None
      end
  end.

(** A request, by the headers the handler reads. *)
Record NaiveRequest : Type := {
  nq_Method : string; nq_Padding : string; nq_ProxyAuthorization : string; nq_connectAuthority : string; nq_URLHost : string; nq_Host : string }.

Inductive naive_served : Type :=
  | NaiveRejected (status : Z)
  | NaiveHijackFailed
  (** the stream of a user to a host, padded in both directions; over HTTP/2 when
      the connection cannot be taken over *)
  | NaiveStream (h2 : bool) (userName hostPort : string).

(** [ServeHTTP]; [hijack] is none when the writer is no hijacker. *)
Definition NaiveInbound_ServeHTTP (ParseBasicAuth : string -> option (string * string)) (Verify : string -> string -> bool)
  (hijack : option (option error)) (q : NaiveRequest) : naive_served :=
  if negb (bool_decide (nq_Method q = "CONNECT")) then NaiveRejected 400
  else if bool_decide (nq_Padding q = "") then NaiveRejected 400
  else
    match ParseBasicAuth (nq_ProxyAuthorization q) with
    | Some (userName, password) =>
        if Verify userName password then
          let hostPort := if bool_decide (nq_connectAuthority q <> "") then nq_connectAuthority q
                          else if bool_decide (nq_URLHost q <> "") then nq_URLHost q else nq_Host q in
          match hijack with
          | Some (Some _) => NaiveHijackFailed
          | Some None => NaiveStream false userName hostPort
          | None => NaiveStream true userName hostPort
          end
        else NaiveRejected 407
    | None => NaiveRejected 407
    end.

(** Nobody gets a stream who is not a user with the right password. *)
Lemma naive_stream_authorized ParseBasicAuth Verify hijack q h2 user host :
  NaiveInbound_ServeHTTP ParseBasicAuth Verify hijack q = NaiveStream h2 user host ->
  exists password, ParseBasicAuth (nq_ProxyAuthorization q) = Some (user, password) /\ Verify user password = true.
Proof.
  unfold NaiveInbound_ServeHTTP. repeat case_match; intros [= <- <- <-]; eauto; done.
Qed.

(** ** Examples *)

Definition some_padding : paddings := fun i => replicate (S i) 0.

Lemma naive_stream_read_back_witness :
  Z.of_nat (length (some_padding 0)) < 256 /\
  read_all (replicate 14 (2%nat, 1%nat))
    {| pr_pad := new_padding; pr_reader := {| rd_bytes := sk_written (naive_calls (fun _ => [0; 0]) [NaiveWrite [1; 2; 3]; NaiveWriteBuffer []; NaiveWriteBuffer [4]] new_padding empty_sink).2; rd_end := ErrEOF |} |} =
  ([1; 2; 3; 4], Some ErrEOF).
Proof.
  split; [vm_compute; reflexivity|].
  pose proof (naive_stream_read_back (fun _ => [0; 0]) [NaiveWrite [1; 2; 3]; NaiveWriteBuffer []; NaiveWriteBuffer [4]] (replicate 14 (2%nat, 1%nat)) ErrEOF) as H.
  destruct (naive_calls _ _ _ _) as [p s] eqn:E. apply H; [intros i; reflexivity|repeat constructor|simpl; lia].
Defined.

(** Two writes: the first one padded, with 255 and the other bytes behind it. *)
Example two_pieces :
  sk_written (naive_calls some_padding [NaiveWrite [104; 105]; NaiveWriteBuffer [33]] new_padding empty_sink).2 =
  [0; 2; 1; 104; 105; 0] ++ [0; 1; 2; 33; 0; 0].
Proof. vm_compute. reflexivity. Qed.

(** Once the header of the eighth piece was read the copy may go around the
    reader, although the padding of that piece, and perhaps a part of it, is still
    to come. *)
Example replaced_reader_gets_padding :
  let s := (naive_calls some_padding (replicate 8 (NaiveWrite [104])) new_padding empty_sink).2 in
  let read := fun c => (readWithPadding 16 16 c).2 in
  let c := Nat.iter 8 read {| pr_pad := new_padding; pr_reader := {| rd_bytes := sk_written s; rd_end := ErrEOF |} |} in
  (readerReplaceable (pr_pad c), rd_bytes (pr_reader c)) = (true, replicate 8 0).
Proof. vm_compute. reflexivity. Qed.

(** A piece that fails is counted as padded, and what of it was sent is not
    reported. *)
Example failed_piece :
  (writeWithPadding some_padding [1; 2; 3] new_padding {| sk_written := []; sk_outcomes := [Some (5%nat, ErrEOF)] |}) =
  (0%nat, Some ErrEOF, (set_written 1 new_padding, {| sk_written := [0; 3; 1; 1; 2]; sk_outcomes := [] |})).
Proof. vm_compute. reflexivity. Qed.
