(* ===== verification/CacheFile.v ===== *)
(** * The cache file

    experimental/cachefile/cache.go and rdrc.go, adapter/experimental.go: opening
    the database and cleaning it, the mode, selections, folded groups and
    rule-sets it keeps, and the store of rejected answers with its pending
    writes.  The database (bbolt) is the class [Bolt], a tree of buckets with its
    documented laws; fake addresses are in FakeIP.v. *)

From stdpp Require Import base list sets gmap strings.
From Stdlib Require Import ZArith Lia Ascii.
From S2P Require Import Prelude GoStd ByteReader StringFacts External Adapter RuleAction RuleAction RuleSet.

Open Scope Z_scope.
Open Scope box_scope.

(** ** The database *)

(** Buckets by their path from the root; an operation on the database is one
    transaction and may fail. *)
Class Bolt (D : Type) : Type := {
  bolt_bucket : list string -> D -> bool;
  bolt_get : list string -> string -> D -> option (list Z);
  bolt_create : list string -> string -> D -> D + error;
  bolt_put : list string -> string -> list Z -> D -> D + error;
  bolt_delete : list string -> string -> D -> D + error;
  bolt_delete_bucket : list string -> string -> D -> D + error;
  bolt_names : list string -> D -> list string }.

Class BoltLaws (D : Type) `{Bolt D} : Prop := {
  bolt_root d : bolt_bucket [] d = true;
  bolt_missing p k d : bolt_bucket p d = false -> bolt_get p k d = None;
  (** [CreateBucketIfNotExists] makes an empty bucket, or leaves it as it is. *)
  bolt_create_law p n d d' : bolt_create p n d = inl d' ->
    (forall q, bolt_bucket q d' = bolt_bucket q d || bool_decide (q = p ++ [n])) /\ (forall q k, bolt_get q k d' = bolt_get q k d);
  bolt_put_law p k v d d' : bolt_put p k v d = inl d' ->
    (forall q, bolt_bucket q d' = bolt_bucket q d) /\
    (forall q j, bolt_get q j d' = if bool_decide (q = p /\ j = k) then Some v else bolt_get q j d);
  bolt_delete_law p k d d' : bolt_delete p k d = inl d' ->
    (forall q, bolt_bucket q d' = bolt_bucket q d) /\
    (forall q j, bolt_get q j d' = if bool_decide (q = p /\ j = k) then None else bolt_get q j d);
  (** [DeleteBucket] takes what is below with it. *)
  bolt_delete_bucket_law p n d d' : bolt_delete_bucket p n d = inl d' ->
    (forall q, bolt_bucket q d' = bolt_bucket q d && negb (bool_decide (take (length p + 1) q = p ++ [n]))) /\
    (forall q j, bolt_get q j d' = if bool_decide (take (length p + 1) q = p ++ [n]) then None else bolt_get q j d) }.

(** The steps of a transaction *)
Definition tx_bind {A B} (r : A + error) (k : A -> B + error) : B + error := match r with inl a => k a | inr e => inr e end.
#[local] Notation "'let!' x ':=' r 'in' k" := (tx_bind r (fun x => k)) (at level 10, x name, r at level 200, k at level 200).

(** [Batch] and [Update]: an error rolls back. *)
Definition commit {D} (r : D + error) (d : D) : option error * D := match r with inl d => (None, d) | inr e => (Some e, d) end.

(** ** Options *)

Record CacheStore : Type := { cf_path : string; cf_cacheID : option string; cf_storeFakeIP : bool; cf_storeRDRC : bool; cf_rdrcTimeout : Z }.

Record CacheFileOptions : Type := { co_Path : string; co_CacheID : string; co_StoreFakeIP : bool; co_StoreRDRC : bool; co_RDRCTimeout : Z }.

Definition zero_byte : string := String "000" "".

(** [New]; [BasePath] is that of the file manager. *)
Definition NewCacheFile (BasePath : string -> string) (o : CacheFileOptions) : CacheStore :=
  {| cf_path := BasePath (if bool_decide (co_Path o <> "") then co_Path o else "cache.db");
     cf_cacheID := if bool_decide (co_CacheID o <> "") then Some (zero_byte +:+ co_CacheID o) else None;
     cf_storeFakeIP := co_StoreFakeIP o; cf_storeRDRC := co_StoreRDRC o;
     cf_rdrcTimeout := if co_StoreRDRC o then if 0 <? co_RDRCTimeout o then co_RDRCTimeout o else 7 * Day else 0 |}.

(** *** Opening *)

Definition bucketSelected : string := "selected".
Definition bucketExpand : string := "group_expand".
Definition bucketMode : string := "clash_mode".
Definition bucketRuleSet : string := "rule_set".
Definition bucketRDRC : string := "rdrc2".
Definition bucketNameList : list string := [bucketSelected; bucketExpand; bucketMode; bucketRuleSet; bucketRDRC].
Definition fakeipBucketPrefix : string := "fakeip_".

(** What [bbolt.Open] says: the database, that it waited too long for the lock,
    that the file is no database, with what becomes of its removal, or another
    error. *)
Inductive open_result (D : Type) : Type :=
  | Opened (d : D)
  | OpenTimeout (e : error)
  | OpenInvalid (e : error) (remove : option error)
  | OpenFails (e : error).
Arguments Opened {D} _.
Arguments OpenTimeout {D} _.
Arguments OpenInvalid {D} _ _.
Arguments OpenFails {D} _.

(** The loop of [Start], [n] attempts being left *)
Fixpoint open_db {D} (n : nat) (open : nat -> open_result D) (i : nat) (last : error) : D + error :=
  match n with
  | O => inr last
  | S n =>
      match open i with
      | Opened d => inl d
      | OpenTimeout e => open_db n open (S i) e
      | OpenInvalid e (Some _) => inr e
      | OpenInvalid e None => open_db n open (S i) e
      | OpenFails e => open_db n open (S i) e
      end
  end.

Section file.
Context {D : Type} `{Bolt D}.

Definition try_delete (p : list string) (n : string) (d : D) : D :=
  match bolt_delete_bucket p n d with inl d => d | inr _ => d end.

Definition known_bucket (name : string) : bool := bool_decide (name ∈ bucketNameList).

(** The transaction that cleans: in the bucket of an identifier it asks for a
    bucket of the name of the identifier to be deleted for each one that is not
    known. *)
Definition clean_name (d : D) (name : string) : D :=
  if bool_decide (str_take 1 name = zero_byte) then
    fold_left (fun d k => if known_bucket k then d else try_delete [name] name d) (bolt_names [name] d) d
  else if known_bucket name || strings_HasPrefix name fakeipBucketPrefix then d
  else try_delete [] name d.

Definition clean_buckets (d : D) : D := fold_left clean_name (bolt_names [] d) d.

(** [Start] at its first stage; [batch] says whether the transaction is written. *)
Definition CacheFile_Start (open : nat -> open_result D) (chown batch : option error) : D + error :=
  match open_db 10 open 0 ErrInvalid with
  | inr e => inr e
  | inl d =>
      match chown with
      | Some e => inr (ErrCause e "platform chown")
      | None => match batch with Some e => inr e | None => inl (clean_buckets d) end
      end
  end.

(** ** What is kept *)

Context (c : CacheStore).

Definition bucket_path (key : string) : list string := match cf_cacheID c with Some cid => [cid; key] | None => [key] end.

(** [createBucket], with the path of the bucket *)
Definition createBucket (key : string) (d : D) : D + error :=
  match cf_cacheID c with
  | None => bolt_create [] key d
  | Some cid => let! d := bolt_create [] cid d in bolt_create [cid] key d
  end.

(** The key of the mode *)
Definition mode_key : string := match cf_cacheID c with Some cid => cid | None => "default" end.

Definition LoadMode (d : D) : string := string_of_bytes (default [] (bolt_get [bucketMode] mode_key d)).

Definition StoreMode (mode : string) (d : D) : option error * D :=
  commit (let! d := bolt_create [] bucketMode d in bolt_put [bucketMode] mode_key (bytes_of mode) d) d.

Definition Cache_LoadSelected (group : string) (d : D) : string := string_of_bytes (default [] (bolt_get (bucket_path bucketSelected) group d)).

Definition StoreSelected (group selected : string) (d : D) : option error * D :=
  commit (let! d := createBucket bucketSelected d in bolt_put (bucket_path bucketSelected) group (bytes_of selected) d) d.

(** [LoadGroupExpand]: nothing unless the value is one byte *)
Definition LoadGroupExpand (group : string) (d : D) : option bool :=
  match bolt_get (bucket_path bucketExpand) group d with Some [b] => Some (b =? 1) | _ => None end.

Definition StoreGroupExpand (group : string) (isExpand : bool) (d : D) : option error * D :=
  commit (let! d := createBucket bucketExpand d in bolt_put (bucket_path bucketExpand) group [if isExpand then 1 else 0] d) d.

(** *** Rule-sets *)

(** How varbin writes bytes and strings. *)
Context (bytes_codec : codec (list Z)) (text_codec : codec string).

(** [SavedBinary.MarshalBinary]; times have seconds. *)
Definition MarshalBinary (s : SavedBinary) : list Z :=
  [1] ++ enc bytes_codec (bytes_of (sb_Content s)) ++ be_bytes 8 (sb_LastUpdated s / Second mod 2 ^ 64) ++ enc text_codec (sb_LastEtag s).

(** [SavedBinary.UnmarshalBinary]; the version is not looked at. *)
Definition UnmarshalBinary (data : list Z) : res SavedBinary :=
  let r := {| rd_bytes := data; rd_end := ErrEOF |} in
  let* '(_, r) := ReadByte r in
  let* '(content, r) := dec bytes_codec r in
  let* '(lastUpdated, r) := ReadUint 8 r in
  let* '(lastEtag, _) := dec text_codec r in
  Ok {| sb_Content := string_of_bytes content; sb_LastUpdated := to_int64 lastUpdated * Second; sb_LastEtag := lastEtag |}.

Definition LoadRuleSet (tag : string) (d : D) : option SavedBinary :=
  match bolt_get (bucket_path bucketRuleSet) tag d with
  | Some ((_ :: _) as setBinary) => match UnmarshalBinary setBinary with Ok s => Some s | _ => None end
  | _ => None
  end.

Definition SaveRuleSet (tag : string) (s : SavedBinary) (d : D) : option error * D :=
  commit (let! d := createBucket bucketRuleSet d in bolt_put (bucket_path bucketRuleSet) tag (MarshalBinary s) d) d.

(** *** Rejected answers *)

Definition rdrc_key (qName : string) (qType : Z) : string := string_of_bytes (be_bytes 2 qType) +:+ qName.

(** What the database says: nothing, rejected, or rejected once. *)
Inductive rdrc_view : Type := NotRejected | Rejected | Expired.

Definition view_rdrc (now : Z) (transportName qName : string) (qType : Z) (d : D) : rdrc_view :=
  match bolt_get (bucket_path bucketRDRC ++ [transportName]) (rdrc_key qName qType) d with
  | None => NotRejected
  | Some content => if to_int64 (big_endian (take 8 content)) * Second <? now then Expired else Rejected
  end.

(** [LoadRDRC] up to the deletion, and the deletion, which is a transaction of
    its own *)
Definition delete_rdrc (transportName qName : string) (qType : Z) (d : D) : D :=
  if bolt_bucket (bucket_path bucketRDRC ++ [transportName]) d then
    (commit (bolt_delete (bucket_path bucketRDRC ++ [transportName]) (rdrc_key qName qType) d) d).2
  else d.

Abbreviation rdrc_keys := (gset (string * string * Z)).

Definition LoadRDRC (now : Z) (transportName qName : string) (qType : Z) (saveRDRC : rdrc_keys) (d : D) : bool * D :=
  if bool_decide ((transportName, qName, qType) ∈ saveRDRC) then (true, d)
  else
    match view_rdrc now transportName qName qType d with
    | NotRejected => (false, d)
    | Rejected => (true, d)
    | Expired => (false, delete_rdrc transportName qName qType d)
    end.

Definition SaveRDRC (now : Z) (transportName qName : string) (qType : Z) (d : D) : option error * D :=
  commit
    (let! d := createBucket bucketRDRC d in
     let! d := bolt_create (bucket_path bucketRDRC) transportName d in
     bolt_put (bucket_path bucketRDRC ++ [transportName]) (rdrc_key qName qType)
       (be_bytes 8 ((now + cf_rdrcTimeout c) / Second mod 2 ^ 64)) d) d.
End file.

(** *** Pending writes *)

(** The keys whose writes are pending, the goroutines that write, with whether
    they did, and the loads that are about to delete. *)
Record RdrcState (D : Type) : Type := {
  rd_pending : gset (string * string * Z); rd_savers : list ((string * string * Z) * bool); rd_deleters : list (string * string * Z); rd_db : D }.
Arguments rd_pending {D} _.
Arguments rd_savers {D} _.
Arguments rd_deleters {D} _.
Arguments rd_db {D} _.

Inductive rdrc_event : Type :=
  (** [SaveRDRCAsync] *)
  | RdrcAsync (key : string * string * Z)
  (** the goroutine at this place writes, and later takes its key out *)
  | RdrcWrite (i : nat) (now : Z)
  | RdrcDone (i : nat)
  (** [LoadRDRC], and its deletion *)
  | RdrcLoad (now : Z) (key : string * string * Z)
  | RdrcDelete (i : nat).

Section pending.
Context {D : Type} `{Bolt D} (c : CacheStore).

Definition rdrc_step (ev : rdrc_event) (s : RdrcState D) : option (RdrcState D) :=
  match ev with
  | RdrcAsync key => Some {| rd_pending := {[ key ]} ∪ rd_pending s; rd_savers := rd_savers s ++ [(key, false)]; rd_deleters := rd_deleters s; rd_db := rd_db s |}
  | RdrcWrite i now =>
      match rd_savers s !! i with
      | Some ((t, n, q) as key, false) =>
          Some {| rd_pending := rd_pending s; rd_savers := <[i := (key, true)]> (rd_savers s); rd_deleters := rd_deleters s;
                  rd_db := (SaveRDRC c now t n q (rd_db s)).2 |}
      | _ => None
      end
  | RdrcDone i =>
      match rd_savers s !! i with
      | Some (key, true) =>
          Some {| rd_pending := rd_pending s ∖ {[ key ]}; rd_savers := delete i (rd_savers s); rd_deleters := rd_deleters s; rd_db := rd_db s |}
      | _ => None
      end
  | RdrcLoad now ((t, n, q) as key) =>
      Some {| rd_pending := rd_pending s; rd_savers := rd_savers s;
              rd_deleters := if negb (bool_decide (key ∈ rd_pending s)) && match view_rdrc c now t n q (rd_db s) with Expired => true | _ => false end
                             then rd_deleters s ++ [key] else rd_deleters s;
              rd_db := rd_db s |}
  | RdrcDelete i =>
      match rd_deleters s !! i with
      | Some (t, n, q) => Some {| rd_pending := rd_pending s; rd_savers := rd_savers s; rd_deleters := delete i (rd_deleters s);
                                  rd_db := delete_rdrc c t n q (rd_db s) |}
      | None => None
      end
  end.

Fixpoint rdrc_run (tr : list rdrc_event) (s : RdrcState D) : option (RdrcState D) :=
  match tr with
  | [] => Some s
  | ev :: tr => match rdrc_step ev s with Some s => rdrc_run tr s | None => None end
  end.
End pending.

(** ** Items and where they are *)

Inductive cache_item : Type :=
  | ItemMode
  | ItemSelected (group : string)
  | ItemExpand (group : string)
  | ItemRuleSet (tag : string)
  | ItemRDRC (transportName qName : string) (qType : Z).

Definition item_path (c : CacheStore) (it : cache_item) : list string :=
  match it with
  | ItemMode => [bucketMode]
  | ItemSelected _ => bucket_path c bucketSelected
  | ItemExpand _ => bucket_path c bucketExpand
  | ItemRuleSet _ => bucket_path c bucketRuleSet
  | ItemRDRC t _ _ => bucket_path c bucketRDRC ++ [t]
  end.

Definition item_key (c : CacheStore) (it : cache_item) : string :=
  match it with
  | ItemMode => mode_key c
  | ItemSelected k | ItemExpand k | ItemRuleSet k => k
  | ItemRDRC _ n q => rdrc_key n q
  end.

Definition item_ok (it : cache_item) : Prop := match it with ItemRDRC _ _ q => 0 <= q < 65536 | _ => True end.

(** A cache of options: its identifier begins with a zero byte. *)
Definition id_ok (c : CacheStore) : Prop := match cf_cacheID c with Some cid => exists n, cid = zero_byte +:+ n | None => True end.

Lemma new_id_ok base o : id_ok (NewCacheFile base o).
Proof. unfold id_ok, NewCacheFile. simpl. case_bool_decide; [by eexists|done]. Qed.

Lemma id_not_name c cid name : id_ok c -> cf_cacheID c = Some cid -> name ∈ "default" :: bucketNameList -> cid <> name.
Proof.
  unfold id_ok. intros Hc He Hin ->. rewrite He in Hc. destruct Hc as [n Hn]. change (zero_byte +:+ n) with (String "000" n) in Hn.
  repeat (apply elem_of_cons in Hin as [Hin|Hin]; [by rewrite Hin in Hn|]). by apply elem_of_nil in Hin.
Qed.

Lemma rdrc_key_inj n q n' q' : 0 <= q < 65536 -> 0 <= q' < 65536 -> rdrc_key n q = rdrc_key n' q' -> n = n' /\ q = q'.
Proof.
  intros Hq Hq' He. unfold rdrc_key in He. apply (f_equal bytes_of) in He.
  assert (forall a b, bytes_of (a +:+ b) = bytes_of a ++ bytes_of b) as Happ.
  { intros a b. unfold bytes_of. change String.list_ascii_of_string with chars. by rewrite chars_app, map_app. }
  rewrite !Happ, !bytes_of_string_of in He by apply is_byte_be_bytes. apply app_inj_1 in He as [H1 H2]; [|by rewrite !length_be_bytes]. split.
  - by rewrite <-(string_of_bytes_of n), H2, string_of_bytes_of.
  - apply (f_equal big_endian) in H1. rewrite !big_endian_be_bytes in H1 by (simpl; lia). done.
Qed.

Ltac bucket_name := unfold bucketNameList, bucketSelected, bucketExpand, bucketMode, bucketRuleSet, bucketRDRC in *; set_solver.

(** Items of caches with other identifiers, and other items of one, have places of
    their own. *)
Lemma items_apart c1 c2 i1 i2 :
  id_ok c1 -> id_ok c2 -> item_ok i1 -> item_ok i2 ->
  item_path c1 i1 = item_path c2 i2 -> item_key c1 i1 = item_key c2 i2 -> cf_cacheID c1 = cf_cacheID c2 /\ i1 = i2.
Proof.
  intros H1 H2 Ho1 Ho2 Hp Hk.
  assert (forall name cid, cf_cacheID c1 = Some cid -> name ∈ "default" :: bucketNameList -> cid <> name) as N1 by (intros name cid; apply (id_not_name c1 cid name H1)).
  assert (forall name cid, cf_cacheID c2 = Some cid -> name ∈ "default" :: bucketNameList -> cid <> name) as N2 by (intros name cid; apply (id_not_name c2 cid name H2)).
  assert (forall t1 n1 q1 t2 n2 q2, i1 = ItemRDRC t1 n1 q1 -> i2 = ItemRDRC t2 n2 q2 -> n1 = n2 /\ q1 = q2) as Hr.
  { intros t1 n1 q1 t2 n2 q2 -> ->. by apply rdrc_key_inj. }
  destruct i1 as [|g1|g1|t1|t1 n1 q1], i2 as [|g2|g2|t2|t2 n2 q2]; try (destruct (Hr _ _ _ _ _ _ eq_refl eq_refl) as [<- <-]; clear Hk);
    unfold item_path, item_key, bucket_path, mode_key in *; clear Hr;
    destruct (cf_cacheID c1) as [cid1|] eqn:E1, (cf_cacheID c2) as [cid2|] eqn:E2; cbn [app] in Hp; simplify_eq; try done;
    exfalso; first [eapply N1; [reflexivity| |reflexivity]; bucket_name|eapply N2; [reflexivity| |reflexivity]; bucket_name].
Qed.

(** ** What is stored is found *)

(** The calls that store *)
Inductive store_call : Type :=
  | CallStoreMode (mode : string)
  | CallStoreSelected (group selected : string)
  | CallStoreGroupExpand (group : string) (isExpand : bool)
  | CallSaveRuleSet (tag : string) (s : SavedBinary)
  | CallSaveRDRC (now : Z) (transportName qName : string) (qType : Z).

Definition call_item (call : store_call) : cache_item :=
  match call with
  | CallStoreMode _ => ItemMode
  | CallStoreSelected g _ => ItemSelected g
  | CallStoreGroupExpand g _ => ItemExpand g
  | CallSaveRuleSet t _ => ItemRuleSet t
  | CallSaveRDRC _ t n q => ItemRDRC t n q
  end.

Section stored.
Context {D : Type} `{BoltLaws D} (bytes_codec : codec (list Z)) (text_codec : codec string).

Definition do_store (c : CacheStore) (call : store_call) (d : D) : option error * D :=
  match call with
  | CallStoreMode mode => StoreMode c mode d
  | CallStoreSelected g s => StoreSelected c g s d
  | CallStoreGroupExpand g b => StoreGroupExpand c g b d
  | CallSaveRuleSet t s => SaveRuleSet c bytes_codec text_codec t s d
  | CallSaveRDRC now t n q => SaveRDRC c now t n q d
  end.

Definition call_value (c : CacheStore) (call : store_call) : list Z :=
  match call with
  | CallStoreMode mode => bytes_of mode
  | CallStoreSelected _ s => bytes_of s
  | CallStoreGroupExpand _ b => [if b then 1 else 0]
  | CallSaveRuleSet _ s => MarshalBinary bytes_codec text_codec s
  | CallSaveRDRC now _ _ _ => be_bytes 8 ((now + cf_rdrcTimeout c) / Second mod 2 ^ 64)
  end.

(** The buckets of an item *)
Definition item_create (c : CacheStore) (it : cache_item) (d : D) : D + error :=
  match it with
  | ItemMode => bolt_create [] bucketMode d
  | ItemSelected _ => createBucket c bucketSelected d
  | ItemExpand _ => createBucket c bucketExpand d
  | ItemRuleSet _ => createBucket c bucketRuleSet d
  | ItemRDRC t _ _ => tx_bind (createBucket c bucketRDRC d) (fun d => bolt_create (bucket_path c bucketRDRC) t d)
  end.

Lemma do_store_put c call d :
  do_store c call d =
  commit (tx_bind (item_create c (call_item call) d)
            (fun d => bolt_put (item_path c (call_item call)) (item_key c (call_item call)) (call_value c call) d)) d.
Proof.
  destruct call; try reflexivity. cbn [do_store call_item item_create item_path item_key call_value]. unfold SaveRDRC. by destruct (createBucket c bucketRDRC d).
Qed.

Lemma tx_bind_ok {A B} (r : A + error) (k : A -> B + error) b : tx_bind r k = inl b -> exists a, r = inl a /\ k a = inl b.
Proof. destruct r as [a|e]; [by exists a|done]. Qed.

Lemma createBucket_gets c key d d' q k : createBucket c key d = inl d' -> bolt_get q k d' = bolt_get q k d.
Proof.
  unfold createBucket. destruct (cf_cacheID c) as [cid|].
  - intros (d1 & H1 & H2)%tx_bind_ok. apply bolt_create_law in H1 as [_ H1], H2 as [_ H2]. by rewrite H2, H1.
  - intros H1. apply bolt_create_law in H1 as [_ H1]. by rewrite H1.
Qed.

Lemma item_create_gets c it d d' q k : item_create c it d = inl d' -> bolt_get q k d' = bolt_get q k d.
Proof.
  destruct it; cbn [item_create]; try by apply createBucket_gets.
  - intros H1. apply bolt_create_law in H1 as [_ H1]. by rewrite H1.
  - intros (d1 & H1 & H2)%tx_bind_ok. apply bolt_create_law in H2 as [_ H2]. rewrite H2. by eapply createBucket_gets.
Qed.

Lemma do_store_gets c call d d' q k :
  do_store c call d = (None, d') ->
  bolt_get q k d' = if bool_decide (q = item_path c (call_item call) /\ k = item_key c (call_item call)) then Some (call_value c call) else bolt_get q k d.
Proof.
  rewrite do_store_put. unfold commit. destruct (tx_bind _ _) as [d1|e] eqn:E; [|done]. intros [= <-].
  apply tx_bind_ok in E as (d2 & H1 & H2). apply bolt_put_law in H2 as [_ H2]. rewrite H2. case_bool_decide; [done|]. by eapply item_create_gets.
Qed.

(** What a call stored is what is there of its item. *)
Definition store_found (c : CacheStore) (call : store_call) (d : D) : Prop :=
  match call with
  | CallStoreMode mode => LoadMode c d = mode
  | CallStoreSelected g s => Cache_LoadSelected c g d = s
  | CallStoreGroupExpand g b => LoadGroupExpand c g d = Some b
  | CallSaveRuleSet t s => LoadRuleSet c bytes_codec text_codec t d =
      Some (stored_binary s)
  | CallSaveRDRC now t n q => forall later, view_rdrc c later t n q d = if (now + cf_rdrcTimeout c) / Second * Second <? later then Expired else Rejected
  end.

(** Values that fit: times in 64 bits of seconds, contents the codecs take. *)
Definition call_fits (bytes_ok : list Z -> Prop) (text_ok : string -> Prop) (c : CacheStore) (call : store_call) : Prop :=
  match call with
  | CallSaveRuleSet _ s => bytes_ok (bytes_of (sb_Content s)) /\ text_ok (sb_LastEtag s) /\ - 2 ^ 63 <= sb_LastUpdated s / Second < 2 ^ 63
  | CallSaveRDRC now _ _ q => - 2 ^ 63 <= (now + cf_rdrcTimeout c) / Second < 2 ^ 63 /\ 0 <= q < 65536
  | _ => True
  end.

Lemma int64_of_word t : - 2 ^ 63 <= t < 2 ^ 63 -> to_int64 (t mod 2 ^ 64) = t.
Proof. intros Ht. rewrite <-(to_int64_id t Ht) at 2. apply to_int64_mod. apply Z.mod_mod. lia. Qed.

Lemma be_time t : - 2 ^ 63 <= t < 2 ^ 63 -> to_int64 (big_endian (be_bytes 8 (t mod 2 ^ 64))) = t.
Proof.
  intros Ht. rewrite big_endian_be_bytes by (change (256 ^ Z.of_nat 8) with (2 ^ 64); apply Z.mod_pos_bound; lia).
  by apply int64_of_word.
Qed.

Lemma read_saved bytes_ok text_ok s :
  codec_law bytes_codec bytes_ok -> codec_law text_codec text_ok -> bytes_ok (bytes_of (sb_Content s)) -> text_ok (sb_LastEtag s) -> - 2 ^ 63 <= sb_LastUpdated s / Second < 2 ^ 63 ->
  UnmarshalBinary bytes_codec text_codec (MarshalBinary bytes_codec text_codec s) =
    Ok (stored_binary s).
Proof.
  intros Hb Ht Hbo Hto Hs. unfold UnmarshalBinary, MarshalBinary. rewrite (reads_byte 1). cbn [res_bind].
  rewrite (Hb (bytes_of (sb_Content s)) Hbo). cbn [res_bind].
  rewrite (reads_uint 8) by (change (256 ^ Z.of_nat 8) with (2 ^ 64); apply Z.mod_pos_bound; lia). cbn [res_bind].
  rewrite <-(app_nil_r (enc text_codec _)), (Ht (sb_LastEtag s) Hto). cbn [res_bind]. by rewrite string_of_bytes_of, int64_of_word.
Qed.
End stored.

(** What is stored is found: a call that stores and succeeds leaves its value to be found, a
    rule-set with its time in seconds and a rejected answer until its time; every other item, of this cache or of one
    with another identifier, is left as it is.  A call that fails changes nothing. *)
Theorem cache_stored {D} `{BoltLaws D} bytes_codec text_codec bytes_ok text_ok c call d e d' :
  codec_law bytes_codec bytes_ok -> codec_law text_codec text_ok -> id_ok c -> call_fits bytes_ok text_ok c call ->
  do_store bytes_codec text_codec c call d = (e, d') ->
  match e with
  | Some _ => d' = d
  | None => store_found bytes_codec text_codec c call d' /\
      forall c' it, id_ok c' -> item_ok it -> (cf_cacheID c', it) <> (cf_cacheID c, call_item call) ->
        bolt_get (item_path c' it) (item_key c' it) d' = bolt_get (item_path c' it) (item_key c' it) d
  end.
Proof.
  intros Hb Ht Hc Hfit Hd. destruct e as [e|].
  { rewrite do_store_put in Hd. unfold commit in Hd. by destruct (tx_bind _ _); simplify_eq. }
  pose proof (fun q k => do_store_gets bytes_codec text_codec c call d d' q k Hd) as Hg. split.
  - specialize (Hg (item_path c (call_item call)) (item_key c (call_item call))). rewrite bool_decide_true in Hg by done.
    destruct call as [mode|g s|g b|t s|now t n q]; cbn [store_found call_item item_path item_key call_value] in *.
    + unfold LoadMode. rewrite Hg. apply string_of_bytes_of.
    + unfold Cache_LoadSelected. rewrite Hg. apply string_of_bytes_of.
    + unfold LoadGroupExpand. rewrite Hg. by destruct b.
    + unfold LoadRuleSet. rewrite Hg. destruct Hfit as (Hbo & Hto & Htime). pose proof (read_saved bytes_codec text_codec bytes_ok text_ok s Hb Ht Hbo Hto Htime) as Hr.
      destruct (MarshalBinary bytes_codec text_codec s) as [|x l] eqn:E; [done|]. by rewrite Hr.
    + intros later. unfold view_rdrc. rewrite Hg, take_ge by (rewrite length_be_bytes; lia). destruct Hfit as [Hfit _]. by rewrite be_time.
  - intros c' it Hc' Hit Hne. rewrite Hg, bool_decide_false; [done|]. intros [Hp Hk].
    assert (item_ok (call_item call)) as Hic by (destruct call; try done; exact (proj2 Hfit)).
    destruct (items_apart c' c it (call_item call) Hc' Hc Hit Hic Hp Hk) as [E1 E2]. apply Hne. by rewrite E1, E2.
Qed.

(** Opening loses nothing that is kept: cleaning a database when it is opened leaves every item
    of every cache, whatever its identifier, as it is. *)
Theorem reopening_keeps {D} `{BoltLaws D} c it d : id_ok c -> item_ok it -> bolt_get (item_path c it) (item_key c it) (clean_buckets d) = bolt_get (item_path c it) (item_key c it) d.
Proof.
  intros Hc Hit.
  (* a deletion of another bucket *)
  assert (forall p n d, take (length p + 1) (item_path c it) <> p ++ [n] ->
    bolt_get (item_path c it) (item_key c it) (try_delete p n d) = bolt_get (item_path c it) (item_key c it) d) as Hdel.
  { intros p n d0 Hne. unfold try_delete. destruct (bolt_delete_bucket p n d0) as [d1|e] eqn:E; [|done].
    apply bolt_delete_bucket_law in E as [_ E]. by rewrite E, bool_decide_false. }
  assert (forall name, known_bucket name = true <-> name ∈ bucketNameList) as Hknown by (intros name; unfold known_bucket; apply bool_decide_eq_true).
  assert (forall key, key ∈ bucketNameList -> str_take 1 key <> zero_byte) as Hz.
  { intros key Hkey. repeat (apply elem_of_cons in Hkey as [->|Hkey]; [done|]). by apply elem_of_nil in Hkey. }
  (* the first names of an item *)
  assert ((exists key rest, item_path c it = key :: rest /\ key ∈ bucketNameList) \/
          (exists cid key rest, item_path c it = cid :: key :: rest /\ key ∈ bucketNameList /\ str_take 1 cid = zero_byte /\ cid ∉ bucketNameList)) as Hpath.
  { assert (forall cid, cf_cacheID c = Some cid -> str_take 1 cid = zero_byte /\ cid ∉ bucketNameList) as Hcid.
    { intros cid E. split.
      - unfold id_ok in Hc. rewrite E in Hc. destruct Hc as [n ->]. exact (str_take_app zero_byte n).
      - intros Hin. apply (id_not_name c cid cid Hc E); [by right|done]. }
    destruct it; unfold item_path, bucket_path; [left; eexists _, _; split; [done|bucket_name]|..];
      destruct (cf_cacheID c) as [cid|]; cbn [app];
      first [right; eexists cid, _, _; split; [done|]; split; [bucket_name|by apply Hcid]|left; eexists _, _; split; [done|bucket_name]]. }
  assert (forall name d, bolt_get (item_path c it) (item_key c it) (clean_name d name) = bolt_get (item_path c it) (item_key c it) d) as Hname.
  { intros name d0. unfold clean_name. case_bool_decide as Hzero.
    - generalize (bolt_names [name] d0). intros ks. revert d0. induction ks as [|k ks IH]; intros d0; simpl; [done|]. rewrite IH.
      destruct (known_bucket k); [done|]. apply Hdel. simpl. destruct Hpath as [(key & rest & -> & Hk)|(cid & key & rest & -> & Hk & Hcz & Hcn)].
      + destruct rest; simpl; [done|]. intros [= -> _]. by apply (Hz name).
      + simpl. intros [= -> ->]. done.
    - destruct (known_bucket name || _) eqn:Ek; [done|]. apply orb_false_iff in Ek as [Ek _]. apply Hdel. simpl.
      destruct Hpath as [(key & rest & -> & Hk)|(cid & key & rest & -> & Hk & Hcz & Hcn)]; simpl; intros [= ->]; [|done].
      apply Hknown in Hk. by rewrite Hk in Ek. }
  unfold clean_buckets. generalize (bolt_names [] d). intros names. revert d. induction names as [|n names IH]; intros d; simpl; [done|]. by rewrite IH.
Qed.

(** Opening goes on after failures, but for an invalid file that cannot be removed. *)
Lemma open_succeeds {D} (open : nat -> open_result D) n k i last d :
  (k < n)%nat -> open (i + k)%nat = Opened d ->
  (forall j, (j < k)%nat -> match open (i + j)%nat with Opened _ | OpenInvalid _ (Some _) => False | _ => True end) -> open_db n open i last = inl d.
Proof.
  revert k i last; induction n as [|n IH]; intros k i last Hk Ho Hb; [lia|]. cbn [open_db]. destruct k as [|k].
  - rewrite Nat.add_0_r in Ho. by rewrite Ho.
  - pose proof (Hb 0%nat ltac:(lia)) as H0. rewrite Nat.add_0_r in H0.
    assert (forall last, open_db n open (S i) last = inl d) as Hnext.
    { intros e. apply (IH k); [lia|by rewrite Nat.add_succ_comm|]. intros j Hj. rewrite Nat.add_succ_comm. apply Hb. lia. }
    destruct (open i) as [d0|e|e [r|]|e]; done.
Qed.

(** *** Rejections are remembered *)

Section remembered.
Context {D : Type} `{BoltLaws D} (c : CacheStore) (t n : string) (q : Z) (since : Z).
Hypothesis (Hc : id_ok c) (Hq : 0 <= q < 65536) (Hrange : forall now, since <= now -> now < 2 ^ 63 -> - 2 ^ 63 <= (now + cf_rdrcTimeout c) / Second < 2 ^ 63).

(** The last second in which a rejection of [since] counts. *)
Definition remembered_until : Z := (since + cf_rdrcTimeout c) / Second.

(** The database has a rejection that counts at least that long. *)
Definition rejected_in (d : D) : Prop :=
  exists content, bolt_get (item_path c (ItemRDRC t n q)) (item_key c (ItemRDRC t n q)) d = Some content /\
    remembered_until <= to_int64 (big_endian (take 8 content)).

(** The writes come after [since], succeed, and no load deletes this rejection. *)
Definition event_fits (ev : rdrc_event) (s : RdrcState D) : Prop :=
  match ev with
  | RdrcAsync (_, _, q') => 0 <= q' < 65536
  | RdrcWrite i now =>
      since <= now < 2 ^ 63 /\
      match rd_savers s !! i with Some ((t', n', q'), _) => (SaveRDRC c now t' n' q' (rd_db s)).1 = None | None => True end
  | RdrcDelete i => rd_deleters s !! i <> Some (t, n, q)
  | RdrcLoad _ (_, _, q') => 0 <= q' < 65536
  | RdrcDone _ => True
  end.

Fixpoint run_fits (tr : list rdrc_event) (s : RdrcState D) : Prop :=
  match tr with
  | [] => True
  | ev :: tr => event_fits ev s /\ match rdrc_step c ev s with Some s => run_fits tr s | None => True end
  end.

(** Keys of 16-bit types; the rejection is pending or written, and written when a
    goroutine has written it. *)
Record remembers (s : RdrcState D) : Prop := {
  rm_savers : Forall (fun x => 0 <= x.1.2 < 65536) (rd_savers s);
  rm_deleters : Forall (fun x : string * string * Z => 0 <= x.2 < 65536) (rd_deleters s);
  rm_known : (t, n, q) ∈ rd_pending s \/ rejected_in (rd_db s);
  rm_written : ((t, n, q), true) ∈ rd_savers s -> rejected_in (rd_db s) }.

Lemma write_remembers now t' n' q' d d' :
  since <= now < 2 ^ 63 -> 0 <= q' < 65536 -> SaveRDRC c now t' n' q' d = (None, d') ->
  ((t', n', q') = (t, n, q) -> rejected_in d') /\ (rejected_in d -> rejected_in d').
Proof using Hc Hq Hrange H0.
  intros Hnow Hq' Hs.
  pose proof (do_store_gets {| enc := fun l => l; dec := fun r => Err ErrEOF |} {| enc := fun _ : string => []; dec := fun r => Err ErrEOF |}
    c (CallSaveRDRC now t' n' q') d d' (item_path c (ItemRDRC t n q)) (item_key c (ItemRDRC t n q)) Hs) as Hg. cbn [call_item] in Hg.
  assert ((t', n', q') = (t, n, q) -> rejected_in d') as Heq.
  { intros [= -> -> ->]. rewrite bool_decide_true in Hg by done. eexists. split; [exact Hg|]. cbn [call_value].
    rewrite take_ge by (rewrite length_be_bytes; lia). rewrite be_time by (apply Hrange; lia). unfold remembered_until. apply Z.div_le_mono; [unfold Second; lia|lia]. }
  split; [done|]. intros (content & Hget & Hle). case_bool_decide as Hb; [|by exists content; rewrite Hg].
  destruct Hb as [Hp Hk]. destruct (items_apart c c (ItemRDRC t n q) (ItemRDRC t' n' q') Hc Hc Hq Hq' Hp Hk) as [_ E]. apply Heq. congruence.
Qed.

Lemma step_remembers ev s s' : event_fits ev s -> rdrc_step c ev s = Some s' -> remembers s -> remembers s'.
Proof using Hc Hq Hrange H0.
  intros Hfit Hstep [Hsv Hdl Hk Hw]. destruct ev as [[[t' n'] q']|i now|i|now [[t' n'] q']|i]; cbn [rdrc_step event_fits] in *.
  - injection Hstep as <-. split; cbn [rd_savers rd_deleters rd_pending rd_db]; [apply Forall_app; split; [done|constructor; [exact Hfit|constructor]]|done|set_solver|].
    intros [Hin|Hin%list_elem_of_singleton]%elem_of_app; [by apply Hw|done].
  - destruct Hfit as [Hnow Hok]. destruct (rd_savers s !! i) as [[[[t' n'] q'] [|]]|] eqn:Ei; [done| |done]. injection Hstep as <-.
    assert (0 <= q' < 65536) as Hq' by exact (Forall_lookup_1 _ _ _ _ Hsv Ei).
    destruct (SaveRDRC c now t' n' q' (rd_db s)) as [e d'] eqn:Es. simpl in Hok. subst e. destruct (write_remembers now t' n' q' _ _ Hnow Hq' Es) as [H1 H2].
    split; cbn [rd_savers rd_deleters rd_pending rd_db snd]; [by apply Forall_insert|done| |].
    + destruct Hk as [?|?]; [by left|right; by apply H2].
    + intros [j Hj]%list_elem_of_lookup. destruct (decide (j = i)) as [->|Hne].
      * rewrite list_lookup_insert_eq in Hj by (by eapply lookup_lt_Some). injection Hj as -> -> ->. by apply H1.
      * rewrite list_lookup_insert_ne in Hj by done. apply H2, Hw. by eapply list_elem_of_lookup_2.
  - destruct (rd_savers s !! i) as [[key [|]]|] eqn:Ei; [|done..]. injection Hstep as <-.
    split; cbn [rd_savers rd_deleters rd_pending rd_db]; [by apply Forall_delete|done| |].
    + destruct (decide (key = (t, n, q))) as [->|Hne]; [right; apply Hw; by eapply list_elem_of_lookup_2|]. destruct Hk as [?|?]; [left; set_solver|by right].
    + intros Hin. apply Hw. eapply list_elem_of_sublist; [|exact Hin] || (revert Hin; apply list_subseteq_delete).
  - injection Hstep as <-. split; cbn [rd_savers rd_deleters rd_pending rd_db]; try done. destruct (_ && _); [|done]. apply Forall_app. split; [done|constructor; [exact Hfit|constructor]].
  - destruct (rd_deleters s !! i) as [[[t' n'] q']|] eqn:Ei; [|done]. injection Hstep as <-.
    assert (0 <= q' < 65536) as Hq' by exact (Forall_lookup_1 _ _ _ _ Hdl Ei).
    assert (rejected_in (rd_db s) -> rejected_in (delete_rdrc c t' n' q' (rd_db s))) as Hkeep.
    { intros (content & Hget & Hle). exists content. split; [|done]. unfold delete_rdrc. destruct (bolt_bucket _ _); [|done]. unfold commit.
      destruct (bolt_delete _ _ _) as [d1|e] eqn:E; [|done]. apply bolt_delete_law in E as [_ E]. cbn [snd]. rewrite E, bool_decide_false; [done|].
      intros [Hp Hkey]. destruct (items_apart c c (ItemRDRC t n q) (ItemRDRC t' n' q') Hc Hc Hq Hq' Hp Hkey) as [_ [= -> -> ->]]. done. }
    split; cbn [rd_savers rd_deleters rd_pending rd_db]; [done|by apply Forall_delete| |].
    + destruct Hk as [?|?]; [by left|right; by apply Hkeep].
    + intros Hin. apply Hkeep. by apply Hw.
Qed.
End remembered.

(** A rejection is remembered: from the moment SaveRDRCAsync is called for a question, whatever
    is called and written in between and however the goroutines take turns, LoadRDRC says that its answer was rejected
    until the last second of its time; writes must succeed and no load may delete it as one that is over. *)
Theorem rejection_found {D} `{BoltLaws D} c t n q since tr s s1 s2 now :
  id_ok c -> 0 <= q < 65536 ->
  (forall now, since <= now -> now < 2 ^ 63 -> - 2 ^ 63 <= (now + cf_rdrcTimeout c) / Second < 2 ^ 63) ->
  Forall (fun x => 0 <= x.1.2 < 65536 /\ x <> ((t, n, q), true)) (rd_savers s) -> Forall (fun x : string * string * Z => 0 <= x.2 < 65536) (rd_deleters s) ->
  rdrc_step c (RdrcAsync (t, n, q)) s = Some s1 -> run_fits c t n q since tr s1 -> rdrc_run c tr s1 = Some s2 ->
  now <= remembered_until c since * Second -> (LoadRDRC c now t n q (rd_pending s2) (rd_db s2)).1 = true.
Proof.
  intros Hc Hq Hrange Hsv Hdl Hs1 Hfit Hrun Hnow.
  assert (remembers c t n q since s1) as Hm.
  { injection Hs1 as <-. split; cbn [rd_savers rd_deleters rd_pending rd_db].
    - apply Forall_app. split; [eapply Forall_impl; [exact Hsv|]; by intros x [? _]|constructor; [exact Hq|constructor]].
    - done.
    - left. set_solver.
    - intros [Hin|Hin%list_elem_of_singleton]%elem_of_app; [|done]. rewrite Forall_forall in Hsv. by destruct (Hsv _ Hin). }
  assert (remembers c t n q since s2) as [_ _ Hk _].
  { clear Hs1 s Hsv Hdl. revert s1 Hm Hfit Hrun. induction tr as [|ev tr IH]; intros s1 Hm Hfit Hrun; cbn [rdrc_run run_fits] in *; [by injection Hrun as <-|].
    destruct Hfit as [Hev Hfit]. destruct (rdrc_step c ev s1) as [s'|] eqn:Es; [|done]. apply (IH s'); [|done|done].
    by eapply (step_remembers c t n q since Hc Hq Hrange ev s1 s'). }
  unfold LoadRDRC. case_bool_decide as Hin; [done|]. destruct Hk as [?|(content & Hget & Hle)]; [done|].
  unfold view_rdrc. cbn [item_path item_key] in Hget. rewrite Hget. rewrite (proj2 (Z.ltb_ge _ _)); [done|]. unfold Second in *. lia.
Qed.

(** *** A database *)

(** Buckets and values by their paths. *)
Record toy_db : Type := { td_buckets : gset (list string); td_values : gmap (list string * string) (list Z) }.

Definition toy_bucket (p : list string) (d : toy_db) : bool := bool_decide (p = [] \/ p ∈ td_buckets d).
Definition toy_get (p : list string) (k : string) (d : toy_db) : option (list Z) := if toy_bucket p d then td_values d !! (p, k) else None.
Definition incompatible_value : error := ErrNew "incompatible value".

#[local] Instance toy_bolt : Bolt toy_db := {|
  bolt_bucket := toy_bucket;
  bolt_get := toy_get;
  bolt_create p n d :=
    if negb (toy_bucket p d) || bool_decide (n = "") || bool_decide (is_Some (toy_get p n d)) then inr incompatible_value
    else if toy_bucket (p ++ [n]) d then inl d
    else inl {| td_buckets := {[ p ++ [n] ]} ∪ td_buckets d; td_values := filter (fun x => x.1.1 <> p ++ [n]) (td_values d) |};
  bolt_put p k v d :=
    if negb (toy_bucket p d) || bool_decide (k = "") || toy_bucket (p ++ [k]) d then inr incompatible_value
    else inl {| td_buckets := td_buckets d; td_values := <[(p, k) := v]> (td_values d) |};
  bolt_delete p k d :=
    if negb (toy_bucket p d) || toy_bucket (p ++ [k]) d then inr incompatible_value
    else inl {| td_buckets := td_buckets d; td_values := delete (p, k) (td_values d) |};
  bolt_delete_bucket p n d :=
    if negb (toy_bucket (p ++ [n]) d) then inr (ErrNew "bucket not found")
    else inl {| td_buckets := filter (fun q => take (length p + 1) q <> p ++ [n]) (td_buckets d);
                td_values := filter (fun x => take (length p + 1) x.1.1 <> p ++ [n]) (td_values d) |};
  bolt_names p d := omap (fun q => if bool_decide (length q = length p + 1 /\ take (length p) q = p)%nat then last q else None) (elements (td_buckets d)) |}.

#[local] Instance toy_laws : BoltLaws toy_db.
Proof.
  split; cbn [bolt_bucket bolt_get bolt_create bolt_put bolt_delete bolt_delete_bucket toy_bolt].
  - intros d. unfold toy_bucket. by rewrite bool_decide_true by (by left).
  - intros p k d E. unfold toy_get. by rewrite E.
  - intros p n d d'. destruct (_ || _ || _); [done|]. destruct (toy_bucket (p ++ [n]) d) eqn:E; intros [= <-].
    + split; [|done]. intros q. case_bool_decide as Hq; [subst q; by rewrite E|by rewrite orb_false_r].
    + assert (forall q, toy_bucket q {| td_buckets := {[p ++ [n]]} ∪ td_buckets d; td_values := filter (fun x => x.1.1 <> p ++ [n]) (td_values d) |} =
        toy_bucket q d || bool_decide (q = p ++ [n])) as Hb.
      { intros q. unfold toy_bucket. cbn [td_buckets]. rewrite <-bool_decide_or. apply bool_decide_ext. set_solver. }
      split; [exact Hb|]. intros q k. unfold toy_get. rewrite Hb. cbn [td_values]. destruct (decide (q = p ++ [n])) as [->|Hne].
      * rewrite E. rewrite bool_decide_true by done. cbn [orb]. rewrite map_lookup_filter. by destruct (td_values d !! _); simpl; [rewrite option_guard_False by naive_solver|].
      * rewrite (bool_decide_false (q = _)), orb_false_r by done. destruct (toy_bucket q d); [|done]. rewrite map_lookup_filter.
        by destruct (td_values d !! _); simpl; [rewrite option_guard_True by done|].
  - intros p k v d d'. destruct (toy_bucket p d) eqn:Ep; [|done]. cbn [negb orb]. destruct (_ || _); [done|]. intros [= <-]. split; [done|]. intros q j.
    unfold toy_get. change (toy_bucket q _) with (toy_bucket q d). cbn [td_values]. case_bool_decide as Hb; [destruct Hb as [-> ->]; by rewrite Ep, lookup_insert_eq|].
    rewrite lookup_insert_ne; [done|]. naive_solver.
  - intros p k d d'. destruct (toy_bucket p d) eqn:Ep; [|done]. cbn [negb orb]. destruct (toy_bucket (p ++ [k]) d); [done|]. intros [= <-]. split; [done|]. intros q j.
    unfold toy_get. change (toy_bucket q _) with (toy_bucket q d). cbn [td_values]. case_bool_decide as Hb; [destruct Hb as [-> ->]; by rewrite Ep, lookup_delete_eq|].
    rewrite lookup_delete_ne; [done|]. naive_solver.
  - intros p n d d'. destruct (toy_bucket (p ++ [n]) d); [|done]. cbn [negb]. intros [= <-].
    assert (forall q, toy_bucket q {| td_buckets := filter (fun q => take (length p + 1) q <> p ++ [n]) (td_buckets d);
        td_values := filter (fun x => take (length p + 1) x.1.1 <> p ++ [n]) (td_values d) |} = toy_bucket q d && negb (bool_decide (take (length p + 1) q = p ++ [n]))) as Hb.
    { intros q. unfold toy_bucket. cbn [td_buckets]. rewrite <-bool_decide_not, <-bool_decide_and. apply bool_decide_ext. rewrite elem_of_filter.
      assert (q = [] -> take (length p + 1) q <> p ++ [n]) by (intros ->; rewrite take_nil; by destruct p). naive_solver. }
    split; [exact Hb|]. intros q j. unfold toy_get. rewrite Hb. cbn [td_values]. case_bool_decide; cbn [negb]; [by rewrite andb_false_r|]. rewrite andb_true_r.
    destruct (toy_bucket q d); [|done]. rewrite map_lookup_filter. by destruct (td_values d !! _); simpl; [rewrite option_guard_True by done|].
Qed.

(** ** Examples *)

(** varbin's form: the length and the bytes. *)
Definition length_codec : codec (list Z) := {|
  enc l := AppendUvarint (Z.of_nat (length l)) ++ l;
  dec r := let* '(n, r) := ReadUvarint r in ReadFull (Z.to_nat n) r |}.
Definition text_length_codec : codec string := {|
  enc s := enc length_codec (bytes_of s);
  dec r := let* '(l, r) := dec length_codec r in Ok (string_of_bytes l, r) |}.
Definition short (l : list Z) : Prop := Z.of_nat (length l) < 2 ^ 64.

Lemma length_codec_law : codec_law length_codec short.
Proof.
  intros l Hl rest e. unfold short in Hl. cbn [enc dec length_codec]. rewrite <-app_assoc, reads_uvarint by lia. cbn [res_bind]. rewrite Nat2Z.id. apply reads_full.
Qed.

Lemma text_codec_law : codec_law text_length_codec (fun s => short (bytes_of s)).
Proof.
  intros s Hs rest e. cbn [enc dec text_length_codec]. rewrite (length_codec_law (bytes_of s) Hs). cbn [res_bind]. by rewrite string_of_bytes_of.
Qed.

Definition no_db : toy_db := {| td_buckets := ∅; td_values := ∅ |}.
Definition some_cache (cid : string) : CacheStore :=
  NewCacheFile (fun p => p) {| co_Path := ""; co_CacheID := cid; co_StoreFakeIP := false; co_StoreRDRC := true; co_RDRCTimeout := 0 |}.
Definition store_toy (c : CacheStore) (call : store_call) (d : toy_db) : option error * toy_db := do_store length_codec text_length_codec c call d.

Lemma cache_stored_witness :
  (store_toy (some_cache "home") (CallStoreSelected "proxy" "tokyo") no_db).1 = None /\
  Cache_LoadSelected (some_cache "home") "proxy" (store_toy (some_cache "home") (CallStoreSelected "proxy" "tokyo") no_db).2 = "tokyo".
Proof.
  split; [vm_compute; reflexivity|].
  pose proof (cache_stored length_codec text_length_codec short (fun s => short (bytes_of s)) (some_cache "home") (CallStoreSelected "proxy" "tokyo") no_db None
    (store_toy (some_cache "home") (CallStoreSelected "proxy" "tokyo") no_db).2 length_codec_law text_codec_law (new_id_ok _ _) I) as H.
  destruct H as [H _]; [vm_compute; reflexivity|]. exact H.
Defined.

Lemma reopening_keeps_witness :
  let d := (store_toy (some_cache "") (CallStoreMode "rule") (store_toy (some_cache "home") (CallStoreSelected "proxy" "tokyo") no_db).2).2 in
  id_ok (some_cache "home") /\ item_ok (ItemSelected "proxy") /\ bolt_get (item_path (some_cache "home") (ItemSelected "proxy")) "proxy" (clean_buckets d) = Some (bytes_of "tokyo").
Proof.
  intros d. split; [apply new_id_ok|]. split; [exact I|].
  pose proof (reopening_keeps (some_cache "home") (ItemSelected "proxy") d (new_id_ok _ _) I) as H. cbn [item_key] in H. rewrite H. vm_compute. reflexivity.
Defined.

Definition some_rdrc : RdrcState toy_db := {| rd_pending := ∅; rd_savers := []; rd_deleters := []; rd_db := no_db |}.
Definition some_time : Z := 1700000000 * Second.
Definition some_run : list rdrc_event := [RdrcWrite 0 (some_time + 5); RdrcLoad (some_time + 6) ("dns", "example.org.", 28); RdrcDone 0].
Definition after_async : RdrcState toy_db := {| rd_pending := {[ ("dns", "example.org.", 1) ]}; rd_savers := [(("dns", "example.org.", 1), false)]; rd_deleters := []; rd_db := no_db |}.
Definition after_run : RdrcState toy_db := default after_async (rdrc_run (some_cache "home") some_run after_async).

Lemma rejection_found_witness :
  rd_pending after_run = ∅ /\ (LoadRDRC (some_cache "home") (some_time + 100 * Second) "dns" "example.org." 1 (rd_pending after_run) (rd_db after_run)).1 = true.
Proof.
  split; [vm_compute; reflexivity|].
  apply (rejection_found (some_cache "home") "dns" "example.org." 1 some_time some_run some_rdrc after_async after_run);
    [apply new_id_ok|lia| |constructor|constructor|vm_compute; reflexivity| |vm_compute; reflexivity|vm_compute; discriminate].
  - intros now H1 H2. change (cf_rdrcTimeout (some_cache "home")) with 604800000000000. unfold some_time, Second in *. split.
    + transitivity 0; [lia|]. apply Z.div_pos; lia.
    + apply Z.div_lt_upper_bound; lia.
  - vm_compute. repeat split; discriminate.
Defined.

(** Buckets that are not known any more are not removed under an identifier: the
    bucket of the identifier's own name is asked for instead. *)
Example old_buckets_stay :
  let d := {| td_buckets := {[ ["rdrc"]; [zero_byte +:+ "home"]; [zero_byte +:+ "home"; "rdrc"] ]}; td_values := ∅ |} in
  (toy_bucket ["rdrc"] (clean_buckets d), toy_bucket [zero_byte +:+ "home"; "rdrc"] (clean_buckets d)) = (false, true).
Proof. vm_compute. reflexivity. Qed.

(** A load that found a rejection that is over deletes the one written in between. *)
Example load_deletes_new_rejection :
  let c := some_cache "" in
  let key := ("dns", "example.org.", 1) in
  let old := {| rd_pending := ∅; rd_savers := []; rd_deleters := []; rd_db := (SaveRDRC c 0 "dns" "example.org." 1 no_db).2 |} in
  let tr := [RdrcLoad some_time key; RdrcAsync key; RdrcWrite 0 some_time; RdrcDone 0; RdrcDelete 0] in
  option_map (fun s => (LoadRDRC c some_time "dns" "example.org." 1 (rd_pending s) (rd_db s)).1) (rdrc_run c tr old) = Some false.
Proof. vm_compute. reflexivity. Qed.
