(* ===== verification/UrlParse.v ===== *)
(** * Parsing of URLs

    [url.Parse] of Go's net/url, for the scheme, the host and the path of the
    result, and what it makes of plain addresses.  The user, the query and the
    fragment are read only as far as they make it fail. *)

From stdpp Require Import base list sets strings.
From Stdlib Require Import ZArith Lia Ascii.
From S2P Require Import Prelude GoStd StringFacts.

Open Scope Z_scope.
Open Scope box_scope.

(** ** Characters *)

Definition in_bytes (lo hi : Z) (c : ascii) : bool := (lo <=? byte_of c) && (byte_of c <=? hi).
Definition is_letter (c : ascii) : bool := in_bytes 97 122 c || in_bytes 65 90 c.
Definition is_digit (c : ascii) : bool := in_bytes 48 57 c.
Definition is_one_of (s : string) (c : ascii) : bool := bool_decide (c ∈ String.list_ascii_of_string s).

(** [stringContainsCTLByte] *)
Definition is_ctl (c : ascii) : bool := (byte_of c <? 32) || (byte_of c =? 127).

(** What [shouldEscape] allows unescaped in a host, and in a zone. *)
Definition host_allowed (c : ascii) : bool :=
  is_letter c || is_digit c || is_one_of "!$&'()*+,;=:[]<>" c || (byte_of c =? 34) || is_one_of "-_.~" c.

(** [strings.Cut] around a byte. *)
Fixpoint cut_at (sep : ascii) (l : list ascii) : list ascii * option (list ascii) :=
  match l with
  | [] => ([], None)
  | c :: l' =>
      if bool_decide (c = sep) then ([], Some l')
      else let '(before, after) := cut_at sep l' in (c :: before, after)
  end.

(** [strings.LastIndex] of a byte: what comes before it and from it on. *)
Definition cut_last (sep : ascii) (l : list ascii) : option (list ascii * list ascii) :=
  match cut_at sep (reverse l) with
  | (_, None) => None
  | (after, Some before) => Some (reverse before, sep :: reverse after)
  end.

(** ** [unescape] *)

Inductive encoding : Type := encodePath | encodeHost | encodeZone | encodeUserPassword | encodeFragment.

Definition percent_allowed (mode : encoding) (a b v : Z) : bool :=
  match mode with
  | encodeHost => negb (a <? 8) || (v =? 37)
  | encodeZone => (v =? 37) || (v =? 32) || host_allowed (ascii_of_nat (Z.to_nat v))
  | _ => true
  end.

Definition char_allowed (mode : encoding) (c : ascii) : bool :=
  match mode with
  | encodeHost | encodeZone => (128 <=? byte_of c) || host_allowed c
  | _ => true
  end.

Fixpoint url_unescape (mode : encoding) (l : list ascii) : option (list ascii) :=
  match l with
  | [] => Some []
  | c :: l' =>
      if bool_decide (c = "%"%char) then
        match l' with
        | x :: y :: l'' =>
            match hex_value x, hex_value y with
            | Some a, Some b =>
                if percent_allowed mode a b (16 * a + b) then
                  cons (ascii_of_nat (Z.to_nat (16 * a + b))) <$> url_unescape mode l''
                else None
            | _, _ => None
            end
        | _ => None
        end
      else if char_allowed mode c then cons c <$> url_unescape mode l'
      else None
  end.

(** ** The parts of a URL *)

(** [getScheme], from [acc] on: the scheme and the rest, [None] for an error. *)
Fixpoint getScheme (whole l acc : list ascii) : option (list ascii * list ascii) :=
  match l with
  | [] => Some ([], whole)
  | c :: l' =>
      if is_letter c then getScheme whole l' (acc ++ [c])
      else if is_digit c || is_one_of "+-." c then
        match acc with [] => Some ([], whole) | _ => getScheme whole l' (acc ++ [c]) end
      else if bool_decide (c = ":"%char) then match acc with [] => None | _ => Some (acc, l') end
      else Some ([], whole)
  end.

(** [validOptionalPort] *)
Definition validOptionalPort (port : list ascii) : bool :=
  match port with [] => true | c :: l => bool_decide (c = ":"%char) && forallb is_digit l end.

Fixpoint find_zone (l : list ascii) : option (list ascii * list ascii) :=
  match l with
  | [] => None
  | c :: l' =>
      if bool_decide (take 3 l = ["%"; "2"; "5"]%char) then Some ([], l)
      else (fun p => (c :: fst p, snd p)) <$> find_zone l'
  end.

(** [parseHost] *)
Definition parseHost (host : list ascii) : option (list ascii) :=
  match host with
  | "["%char :: _ =>
      match cut_last "]"%char host with
      | None => None
      | Some (inside, from) =>
          if negb (validOptionalPort (tail from)) then None
          else
            match find_zone inside with
            | Some (before, zone) =>
                match url_unescape encodeHost before, url_unescape encodeZone zone, url_unescape encodeHost from with
                | Some h1, Some h2, Some h3 => Some (h1 ++ h2 ++ h3)
                | _, _, _ => None
                end
            | None => url_unescape encodeHost host
            end
      end
  | _ =>
      match cut_last ":"%char host with
      | Some (_, port) => if validOptionalPort port then url_unescape encodeHost host else None
      | None => url_unescape encodeHost host
      end
  end.

(** [validUserinfo] and the unescaping of the user and its password. *)
Definition userinfo_ok (userinfo : list ascii) : bool :=
  forallb (fun c => is_letter c || is_digit c || is_one_of "-._:~!$&'()*+,;=%@" c) userinfo &&
  (let '(user, password) := cut_at ":"%char userinfo in
   bool_decide (is_Some (url_unescape encodeUserPassword user)) &&
   match password with Some p => bool_decide (is_Some (url_unescape encodeUserPassword p)) | None => true end).

(** [parseAuthority]: the host. *)
Definition parseAuthority (authority : list ascii) : option (list ascii) :=
  match cut_last "@"%char authority with
  | None => parseHost authority
  | Some (userinfo, from) =>
      match parseHost (tail from) with
      | Some host => if userinfo_ok userinfo then Some host else None
      | None => None
      end
  end.

Record URL : Type := { u_Scheme : string; u_Host : string; u_Path : string }.

Definition mk_url (scheme host path : list ascii) : URL :=
  {| u_Scheme := String.string_of_list_ascii (map lower_byte scheme); u_Host := String.string_of_list_ascii host;
     u_Path := String.string_of_list_ascii path |}.

(** The part before the query: its authority and its path.  What follows a
    scheme without a slash is opaque, neither host nor path. *)
Definition parse_hierarchy (scheme rest : list ascii) : option URL :=
  match rest with
  | "/"%char :: "/"%char :: l =>
      let third_slash := match l with "/"%char :: _ => true | _ => false end in
      if bool_decide (scheme <> []) || negb third_slash then
        let '(authority, path) := cut_at "/"%char l in
        let path := match path with Some p => "/"%char :: p | None => [] end in
        match parseAuthority authority, url_unescape encodePath path with
        | Some host, Some path => Some (mk_url scheme host path)
        | _, _ => None
        end
      else mk_url scheme [] <$> url_unescape encodePath rest
  | "/"%char :: _ => mk_url scheme [] <$> url_unescape encodePath rest
  | _ =>
      if bool_decide (scheme <> []) then Some (mk_url scheme [] [])
      else if bool_decide (":"%char ∈ fst (cut_at "/"%char rest)) then None
      else mk_url scheme [] <$> url_unescape encodePath rest
  end.

(** [url.Parse]; [None] for an error. *)
Definition url_Parse (rawURL : string) : option URL :=
  let '(u, frag) := cut_at "#"%char (chars rawURL) in
  let parsed :=
    if existsb is_ctl u then None
    else if bool_decide (u = ["*"%char]) then Some (mk_url [] [] ["*"%char])
    else
      match getScheme u u [] with
      | None => None
      | Some (scheme, rest) => parse_hierarchy scheme (fst (cut_at "?"%char rest))
      end in
  match parsed, frag with
  | Some url, Some f => if bool_decide (is_Some (url_unescape encodeFragment f)) then Some url else None
  | _, _ => parsed
  end.

Example parse_dns_url :
  map url_Parse ["https://1.1.1.1/dns-query"; "tls://dns.google:853"; "1.1.1.1:53"; "dns.google:53"; "fe80::1"; "H3://[::1]:443/q"; "local"]
  = [Some {| u_Scheme := "https"; u_Host := "1.1.1.1"; u_Path := "/dns-query" |};
     Some {| u_Scheme := "tls"; u_Host := "dns.google:853"; u_Path := "" |};
     None;
     Some {| u_Scheme := "dns.google"; u_Host := ""; u_Path := "" |};
     Some {| u_Scheme := "fe80"; u_Host := ""; u_Path := "" |};
     Some {| u_Scheme := "h3"; u_Host := "[::1]:443"; u_Path := "/q" |};
     Some {| u_Scheme := ""; u_Host := ""; u_Path := "local" |}].
Proof. reflexivity. Qed.

(** ** Plain addresses *)

Lemma cut_at_absent sep l : sep ∉ l -> cut_at sep l = (l, None).
Proof.
  induction l as [|c l IH]; [done|]. rewrite not_elem_of_cons. intros [Hc Hl]. simpl.
  rewrite bool_decide_false by congruence. by rewrite IH.
Qed.

Lemma cut_at_first sep a b : sep ∉ a -> cut_at sep (a ++ sep :: b) = (a, Some b).
Proof.
  induction a as [|c a IH]; simpl; [by rewrite bool_decide_true|]. rewrite not_elem_of_cons. intros [Hc Ha].
  rewrite bool_decide_false by congruence. by rewrite IH.
Qed.

Lemma cut_last_absent sep l : sep ∉ l -> cut_last sep l = None.
Proof. intros Hl. unfold cut_last. by rewrite cut_at_absent by (by rewrite elem_of_reverse). Qed.

Lemma cut_last_last sep a b : sep ∉ b -> cut_last sep (a ++ sep :: b) = Some (a, sep :: b).
Proof.
  intros Hb. unfold cut_last. rewrite reverse_app, reverse_cons, <- app_assoc. simpl.
  rewrite cut_at_first by (by rewrite elem_of_reverse). by rewrite !reverse_involutive.
Qed.

Lemma unescape_plain mode l : "%"%char ∉ l -> forallb (char_allowed mode) l = true -> url_unescape mode l = Some l.
Proof.
  induction l as [|c l IH]; [done|]. rewrite not_elem_of_cons. simpl. intros [Hc Hl] [Ha Hall]%andb_true_iff.
  rewrite bool_decide_false by congruence. by rewrite Ha, IH.
Qed.

(** Letters, digits and the signs of schemes and of host names. *)
Definition scheme_char (c : ascii) : bool := is_letter c || is_digit c || is_one_of "+-." c.
Definition plain_char (c : ascii) : bool := is_letter c || is_digit c || is_one_of "-._~" c.

(** A property of all 256 characters. *)
Definition all_ascii : list ascii := map ascii_of_nat (seq 0 256).

Lemma all_ascii_complete c : c ∈ all_ascii.
Proof.
  rewrite <- (ascii_nat_embedding c). apply list_elem_of_fmap. exists (nat_of_ascii c). split; [done|].
  apply elem_of_seq. pose proof (nat_ascii_bounded c). lia.
Qed.

Lemma ascii_ind_check (P : ascii -> bool) : forallb P all_ascii = true -> forall c, P c = true.
Proof. intros HP c. rewrite forallb_forall in HP. apply HP, list_elem_of_In, all_ascii_complete. Qed.

Lemma implb_elim a b : implb a b = true -> a = true -> b = true.
Proof. by destruct a. Qed.

Lemma scheme_char_plain c : scheme_char c = true ->
  c <> ":"%char /\ c <> "#"%char /\ is_ctl c = false /\ c <> "*"%char.
Proof.
  intros Hc. assert (negb (is_one_of ":#*" c) && negb (is_ctl c) = true) as H.
  { revert Hc. apply implb_elim. revert c. apply ascii_ind_check. vm_compute. reflexivity. }
  apply andb_true_iff in H as [H1 H2]. apply negb_true_iff in H1, H2. unfold is_one_of in H1.
  apply bool_decide_eq_false in H1. split_and!; try done; intros ->; apply H1; simpl; set_solver.
Qed.

Lemma plain_char_spec c : plain_char c = true ->
  char_allowed encodeHost c = true /\ is_ctl c = false /\
  c ∉ [":"; "#"; "?"; "/"; "%"; "@"; "["; "*"]%char.
Proof.
  intros Hc.
  assert (char_allowed encodeHost c && negb (is_ctl c) && negb (is_one_of ":#?/%@[*" c) = true) as H.
  { revert Hc. apply implb_elim. revert c. apply ascii_ind_check. vm_compute. reflexivity. }
  rewrite !andb_true_iff, !negb_true_iff in H. destruct H as [[H1 H2] H3]. split_and!; [done..|].
  unfold is_one_of in H3. by apply bool_decide_eq_false in H3.
Qed.

Lemma not_in_all (P : ascii -> bool) l c : forallb P l = true -> P c = false -> c ∉ l.
Proof. rewrite forallb_forall. intros Hl Hc Hin%list_elem_of_In. apply Hl in Hin. congruence. Qed.

Lemma no_ctl (P : ascii -> bool) l : (forall c, P c = true -> is_ctl c = false) -> forallb P l = true -> existsb is_ctl l = false.
Proof.
  intros HP. induction l as [|c l IH]; [done|]. simpl. intros [Hc Hl]%andb_true_iff. by rewrite HP, IH.
Qed.

Lemma getScheme_loop whole s rest acc :
  forallb scheme_char s = true -> (acc <> [] \/ exists c s', s = c :: s' /\ is_letter c = true) ->
  getScheme whole (s ++ ":"%char :: rest) acc = Some (acc ++ s, rest).
Proof.
  revert acc. induction s as [|c s IH]; intros acc; simpl.
  - intros _ [Hacc|(? & ? & ? & ?)]; [|done]. rewrite app_nil_r. by destruct acc.
  - intros [Hc Hs]%andb_true_iff Hacc.
    assert (getScheme whole (s ++ ":"%char :: rest) (acc ++ [c]) = Some (acc ++ c :: s, rest)) as Hrest.
    { rewrite IH, <- app_assoc; [done|done|]. left. by destruct acc. }
    destruct (is_letter c) eqn:Hl; [done|]. unfold scheme_char in Hc. rewrite Hl in Hc. simpl in Hc. rewrite Hc.
    destruct acc; [|done]. destruct Hacc as [|(? & ? & ? & ?)]; [done|]. simplify_eq. congruence.
Qed.

Lemma getScheme_none whole l acc : forallb plain_char l = true -> getScheme whole l acc = Some ([], whole).
Proof.
  revert acc. induction l as [|c l IH]; intros acc; [done|]. simpl. intros [Hc Hl]%andb_true_iff.
  rewrite !IH by done. destruct (is_letter c); [done|]. destruct (is_digit c || _); [by destruct acc|].
  apply plain_char_spec in Hc as (_ & _ & Hc). rewrite bool_decide_false; [done|]. intros ->. apply Hc. set_solver.
Qed.

(** *** Addresses without a scheme *)

Lemma url_unfold s frag_free :
  frag_free = "#"%char -> frag_free ∉ chars s -> existsb is_ctl (chars s) = false -> chars s <> ["*"%char] ->
  url_Parse s = match getScheme (chars s) (chars s) [] with
                | None => None
                | Some (scheme, rest) => parse_hierarchy scheme (fst (cut_at "?"%char rest))
                end.
Proof.
  intros -> Hf Hctl Hstar. unfold url_Parse. rewrite cut_at_absent by done. rewrite Hctl, bool_decide_false by done. cbv zeta.
  by destruct (match getScheme _ _ _ with Some _ => _ | None => _ end).
Qed.

Lemma plain_not l c : forallb plain_char l = true -> c ∈ [":"; "#"; "?"; "/"; "%"; "@"; "["; "*"]%char -> c ∉ l.
Proof.
  intros Hl Hc. apply (not_in_all plain_char); [done|]. destruct (plain_char c) eqn:Hp; [|done].
  by apply plain_char_spec in Hp as (_ & _ & ?).
Qed.

Lemma plain_head l c : forallb plain_char l = true -> c ∈ [":"; "#"; "?"; "/"; "%"; "@"; "["; "*"]%char -> head l <> Some c.
Proof. intros Hl Hc Hh. apply (plain_not l c Hl Hc). destruct l; simplify_eq/=. set_solver. Qed.

Lemma parse_hierarchy_relative scheme rest : head rest <> Some "/"%char ->
  parse_hierarchy scheme rest =
    if bool_decide (scheme <> []) then Some (mk_url scheme [] [])
    else if bool_decide (":"%char ∈ fst (cut_at "/"%char rest)) then None
    else mk_url scheme [] <$> url_unescape encodePath rest.
Proof.
  intros Hh. destruct rest as [|c rest]; [done|]. assert (c <> "/"%char) as Hc by (intros ->; done). clear Hh.
  destruct c as [[] [] [] [] [] [] [] []]; try done.
Qed.

(** A host name is a path. *)
Lemma url_bare s : forallb plain_char (chars s) = true ->
  url_Parse s = Some {| u_Scheme := ""; u_Host := ""; u_Path := s |}.
Proof.
  intros Hs. rewrite (url_unfold s "#"%char); [|done|apply plain_not; [done|set_solver]| |].
  2: { apply (no_ctl plain_char); [|done]. intros c Hc. by apply plain_char_spec in Hc as (_ & ? & _). }
  2: { intros Heq. apply (plain_not (chars s) "*"%char); [done|set_solver|]. rewrite Heq. set_solver. }
  rewrite getScheme_none, cut_at_absent by (done || (apply plain_not; [done|set_solver])). simpl.
  rewrite parse_hierarchy_relative by (apply plain_head; [done|set_solver]). rewrite bool_decide_false by (intros []; done).
  rewrite cut_at_absent by (apply plain_not; [done|set_solver]). simpl.
  rewrite bool_decide_false by (apply plain_not; [done|set_solver]).
  rewrite unescape_plain; [|apply plain_not; [done|set_solver]|by apply forallb_forall]. simpl.
  unfold mk_url. simpl. by rewrite String.string_of_list_ascii_of_string.
Qed.

(** An address that begins with a digit has no scheme. *)
Lemma url_digit_first c s u : is_digit c = true -> url_Parse (String c s) = Some u -> u_Scheme u = "".
Proof.
  intros Hc. unfold url_Parse.
  assert (negb (is_letter c) && negb (bool_decide (c = "#"%char)) && negb (bool_decide (c = "*"%char)) &&
          negb (bool_decide (c = "/"%char)) = true) as Hb.
  { revert Hc. apply implb_elim. revert c. apply ascii_ind_check. vm_compute. reflexivity. }
  rewrite !andb_true_iff, !negb_true_iff in Hb. destruct Hb as [[[Hl Hh%bool_decide_eq_false] _] Hslash%bool_decide_eq_false].
  simpl. rewrite (bool_decide_false (c = "#"%char)) by done. destruct (cut_at "#"%char (chars s)) as [l frag].
  assert (forall u, (if existsb is_ctl (c :: l) then None
                     else if bool_decide (c :: l = ["*"%char]) then Some (mk_url [] [] ["*"%char])
                     else match getScheme (c :: l) (c :: l) [] with
                          | None => None
                          | Some (scheme, rest) => parse_hierarchy scheme (fst (cut_at "?"%char rest))
                          end) = Some u -> u_Scheme u = "") as Hall.
  { intros u'. destruct (existsb _ _); [done|]. case_bool_decide; [by intros [= <-]|].
    cbn [getScheme]. rewrite Hl, Hc. cbn [orb]. rewrite parse_hierarchy_relative.
    - rewrite bool_decide_false by (intros []; done). case_bool_decide; [done|].
      destruct (url_unescape _ _); [|done]. by intros [= <-].
    - simpl. case_bool_decide; [done|]. destruct (cut_at _ l). simpl. by intros [= ->]. }
  cbn zeta. destruct (if existsb is_ctl (c :: l) then _ else _) as [u'|] eqn:Hp; [|done].
  specialize (Hall u' eq_refl). clear Hp. destruct frag; [case_bool_decide; [|done]|]; by intros [= <-].
Qed.

(** *** Addresses with a scheme *)

Definition lower_string (s : string) : string := String.string_of_list_ascii (map lower_byte (chars s)).

(** Text before the first colon that looks like a scheme is one; without a
    slash behind it there is neither host nor path. *)
Lemma url_opaque c s rest u :
  is_letter c = true -> forallb scheme_char (chars s) = true -> "#"%char ∉ chars rest -> head (chars rest) <> Some "/"%char ->
  url_Parse (String c s +:+ ":" +:+ rest) = Some u ->
  u = {| u_Scheme := lower_string (String c s); u_Host := ""; u_Path := "" |}.
Proof.
  intros Hc Hs Hf Hslash. rewrite str_app_cons.
  assert (scheme_char c = true) as Hc' by (unfold scheme_char; by rewrite Hc).
  assert (forallb scheme_char (c :: chars s) = true) as Hcs by (simpl; by rewrite Hc', Hs).
  assert ("#"%char ∉ (c :: chars s) ++ ":"%char :: chars rest) as Hfrag.
  { rewrite not_elem_of_app. split; [by apply (not_in_all scheme_char)|]. by rewrite not_elem_of_cons. }
  unfold url_Parse. rewrite <- str_app_cons, !chars_app. cbn [String.list_ascii_of_string app]. cbn [app] in Hfrag.
  change (chars ":" ++ chars rest) with (":"%char :: chars rest).
  rewrite cut_at_absent by done. destruct (existsb _ _); [done|]. rewrite bool_decide_false by (by destruct (chars s)).
  pose proof (getScheme_loop (c :: chars s ++ ":"%char :: chars rest) (c :: chars s) (chars rest) [] Hcs) as Hg.
  cbn [app] in Hg. rewrite Hg by eauto.
  rewrite parse_hierarchy_relative, bool_decide_true by
    (done || (destruct (chars rest) as [|x l]; [done|]; simpl; case_bool_decide; [done|]; by destruct (cut_at _ l))).
  by intros [= <-].
Qed.

(** The authority of a plain host, with or without a port. *)
Definition plain_port (port : string) : Prop :=
  port = "" \/ exists digits, port = String ":" digits /\ forallb is_digit (chars digits) = true.

Lemma digit_plain c : is_digit c = true -> plain_char c = true.
Proof. apply implb_elim. revert c. apply ascii_ind_check. vm_compute. reflexivity. Qed.

Lemma forallb_impl_ascii (P Q : ascii -> bool) l : (forall c, P c = true -> Q c = true) -> forallb P l = true -> forallb Q l = true.
Proof. intros HPQ. rewrite !forallb_forall. naive_solver. Qed.

Lemma plain_allowed l : forallb plain_char l = true -> forallb (char_allowed encodeHost) l = true.
Proof. apply forallb_impl_ascii. intros c Hc. by apply plain_char_spec in Hc as (? & _). Qed.

Lemma parseAuthority_plain host port :
  forallb plain_char (chars host) = true -> plain_port port ->
  parseAuthority (chars host ++ chars port) = Some (chars host ++ chars port) /\
  (forall c, c ∈ ["#"; "?"; "/"]%char -> c ∉ chars host ++ chars port) /\
  existsb is_ctl (chars host ++ chars port) = false.
Proof.
  intros Hh Hp.
  assert (forall c, c ∈ [":"; "#"; "?"; "/"; "%"; "@"; "["; "*"]%char -> c ∉ chars host) as Hnh by (intros; by apply plain_not).
  assert (url_unescape encodeHost (chars host ++ chars port) = Some (chars host ++ chars port) /\
          (forall c, c ∈ ["#"; "?"; "/"; "%"; "@"; "["]%char -> c ∉ chars port) /\ existsb is_ctl (chars port) = false /\
          (cut_last ":"%char (chars host ++ chars port) = None \/
           exists p, cut_last ":"%char (chars host ++ chars port) = Some (chars host, p) /\ validOptionalPort p = true))
    as (Hu & Hnp & Hctl & Hcut).
  { destruct Hp as [->|(digits & -> & Hd)].
    - simpl. rewrite app_nil_r. split_and!; [|set_solver|done|left; apply cut_last_absent, Hnh; set_solver].
      apply unescape_plain; [apply Hnh; set_solver|by apply plain_allowed].
    - pose proof (forallb_impl_ascii _ _ _ digit_plain Hd) as Hdp. cbn [String.list_ascii_of_string].
      assert (forall c, c ∈ [":"; "#"; "?"; "/"; "%"; "@"; "["; "*"]%char -> c ∉ chars digits) as Hnd by (intros; by apply plain_not).
      split_and!.
      + apply unescape_plain.
        * rewrite not_elem_of_app, not_elem_of_cons. split_and!; [apply Hnh; set_solver|done|apply Hnd; set_solver].
        * rewrite forallb_app. simpl. by rewrite !plain_allowed.
      + intros c Hc. rewrite not_elem_of_cons. split; [set_solver|apply Hnd; set_solver].
      + simpl. apply (no_ctl plain_char); [|done]. intros c Hc. by apply plain_char_spec in Hc as (_ & ? & _).
      + right. eexists. split; [by apply cut_last_last, Hnd; set_solver|]. simpl. by rewrite Hd. }
  assert (forall c, c ∈ ["#"; "?"; "/"; "%"; "@"; "["]%char -> c ∉ chars host ++ chars port) as Hn.
  { intros c Hc. rewrite not_elem_of_app. split; [apply Hnh; set_solver|by apply Hnp]. }
  split_and!.
  - unfold parseAuthority. rewrite cut_last_absent by (apply Hn; set_solver). unfold parseHost.
    assert ("["%char ∉ chars host ++ chars port) as Hb by (apply Hn; set_solver).
    destruct (chars host ++ chars port) as [|c l] eqn:Heq; [by rewrite cut_last_absent by set_solver|].
    assert (c <> "["%char) as Hc by set_solver. clear Hn Hb.
    destruct Hcut as [Hcut|(p & Hcut & Hv)]; rewrite Hcut; rewrite ?Hv, Hu;
      destruct c as [[] [] [] [] [] [] [] []]; done.
  - intros c Hc. apply Hn. set_solver.
  - rewrite existsb_app, Hctl, orb_false_r. apply (no_ctl plain_char); [|done].
    intros c Hc. by apply plain_char_spec in Hc as (_ & ? & _).
Qed.

(** A path: nothing, or plain characters and slashes after a slash. *)
Definition path_char (c : ascii) : bool := plain_char c || bool_decide (c = "/"%char).
Definition plain_path (path : string) : Prop :=
  path = "" \/ exists p, path = String "/" p /\ forallb path_char (chars p) = true.

Lemma path_char_spec c : path_char c = true -> is_ctl c = false /\ c ∉ ["#"; "?"; "%"]%char.
Proof.
  unfold path_char. rewrite orb_true_iff, bool_decide_eq_true. intros [Hc| ->]; [|split; [done|set_solver]].
  apply plain_char_spec in Hc as (_ & ? & Hc). split; [done|set_solver].
Qed.

Lemma plain_path_spec path : plain_path path ->
  forallb path_char (chars path) = true /\ existsb is_ctl (chars path) = false /\
  (forall c, c ∈ ["#"; "?"; "%"]%char -> c ∉ chars path) /\ url_unescape encodePath (chars path) = Some (chars path).
Proof.
  intros Hp. assert (forallb path_char (chars path) = true) as Hall by (destruct Hp as [->|(p & -> & Hp)]; done).
  assert (forall c, c ∈ ["#"; "?"; "%"]%char -> c ∉ chars path) as Hn.
  { intros c Hc. apply (not_in_all path_char); [done|]. destruct (path_char c) eqn:Hpc; [|done].
    by apply path_char_spec in Hpc as [_ ?]. }
  split_and!; [done| |done|].
  - apply (no_ctl path_char); [|done]. intros c Hc. by apply path_char_spec in Hc as [? _].
  - apply unescape_plain; [apply Hn; set_solver|]. by apply forallb_forall.
Qed.

(** A URL that is written is read: its scheme in lower case, its host with the
    port, its path. *)
Lemma url_written c s host port path :
  is_letter c = true -> forallb scheme_char (chars s) = true -> forallb plain_char (chars host) = true ->
  plain_port port -> plain_path path ->
  url_Parse (String c s +:+ "://" +:+ host +:+ port +:+ path) =
    Some {| u_Scheme := lower_string (String c s); u_Host := host +:+ port; u_Path := path |}.
Proof.
  intros Hc Hs Hh Hpo Hpa.
  destruct (parseAuthority_plain host port Hh Hpo) as (Hauth & Hn & Hctl).
  destruct (plain_path_spec path Hpa) as (_ & Hpctl & Hpn & Hun).
  assert (scheme_char c = true) as Hc' by (unfold scheme_char; by rewrite Hc).
  assert (forallb scheme_char (c :: chars s) = true) as Hcs by (simpl; by rewrite Hc', Hs).
  assert (chars (String c s +:+ "://" +:+ host +:+ port +:+ path) =
          (c :: chars s) ++ ":"%char :: "/"%char :: "/"%char :: (chars host ++ chars port) ++ chars path) as Hchars.
  { rewrite !chars_app. cbn [String.list_ascii_of_string app]. by rewrite !app_assoc. }
  assert (forall x, x ∈ ["#"; "?"]%char -> x ∉ (chars host ++ chars port) ++ chars path) as Hrest.
  { intros x Hx. rewrite not_elem_of_app. split; [apply Hn|apply Hpn]; set_solver. }
  rewrite (url_unfold _ "#"%char); [|done| | |].
  - rewrite Hchars, getScheme_loop by eauto. cbn [app].
    rewrite cut_at_absent by (rewrite !not_elem_of_cons; split_and!; [done|done|apply Hrest; set_solver]).
    unfold parse_hierarchy. cbn [fst].
    rewrite bool_decide_true by done. cbn [orb].
    assert (cut_at "/"%char ((chars host ++ chars port) ++ chars path) =
            (chars host ++ chars port, match chars path with [] => None | _ :: p => Some p end)) as Hcut.
    { destruct Hpa as [->|(p & -> & _)]; [rewrite app_nil_r; apply cut_at_absent|apply cut_at_first]; apply Hn; set_solver. }
    rewrite Hcut, Hauth.
    assert ((match match chars path with [] => None | _ :: p => Some p end with Some p => "/"%char :: p | None => [] end)
            = chars path) as -> by (by destruct Hpa as [->|(p & -> & _)]).
    rewrite Hun. unfold mk_url, lower_string. rewrite <- chars_app, !String.string_of_list_ascii_of_string. done.
  - rewrite Hchars, not_elem_of_app. split; [by apply (not_in_all scheme_char)|]. rewrite !not_elem_of_cons.
    split_and!; [done..|apply Hrest; set_solver].
  - rewrite Hchars, existsb_app, (no_ctl scheme_char (c :: chars s)); [|intros x Hx; by apply scheme_char_plain in Hx as (_ & _ & ? & _)|done].
    simpl. by rewrite existsb_app, Hctl, Hpctl.
  - rewrite Hchars. destruct (chars s); done.
Qed.
