(* ===== verification/DnsOptions.v ===== *)
(** * The options of DNS servers

    option/dns.go: how a server written by its address becomes one of the types
    there are now, what happens to servers that only answer a code, and the
    client subnet of an inbound; dns/transport_adapter.go and
    dns/transport_dialer.go with the constructors of dns/transport: the dialer and
    the address a server is reached through. *)

From stdpp Require Import base list sets strings gmap.
From Stdlib Require Import ZArith Lia Ascii.
From S2P Require Import Prelude GoStd External Adapter RuleAction DnsMsg Sniff RuleTree RuleBuild DnsClient ParallelDial SlowOpen StringFacts DnsLocal Dialer DialerChain Direct UrlParse.

Open Scope Z_scope.
Open Scope box_scope.

(** What the transports ask of other packages: the client configurations of
    common/tls with their options, the options that only registered types read,
    [Socksaddr.String] and [sHTTP.URLSetPath]. *)
Class DNSServerLib : Type := {
  TLSOptions : Type;
  TLSConfig : Type;
  tls_NewClient : string -> option TLSOptions -> TLSConfig + error;
  cfg_ServerName : TLSConfig -> string;
  cfg_NextProtos : TLSConfig -> list string;
  cfg_SetNextProtos : list string -> TLSConfig -> TLSConfig;
  cfg_Config : TLSConfig -> option error;
  RegisteredOptions : Type;
  Socksaddr_Text : Socksaddr -> string;
  URLSetPath : string -> string + error
}.

(** ** Options *)

Definition DNSTypeLegacy : string := "legacy".
Definition DNSTypeLegacyRcode : string := "legacy_rcode".
Definition DNSTypeUDP : string := "udp".
Definition DNSTypeTCP : string := "tcp".
Definition DNSTypeTLS : string := "tls".
Definition DNSTypeHTTPS : string := "https".
Definition DNSTypeQUIC : string := "quic".
Definition DNSTypeHTTP3 : string := "h3".
Definition DNSTypeLocal : string := "local".
Definition ServerTypeFakeIP : string := "fakeip".
Definition DNSTypeDHCP : string := "dhcp".

(** The prefix of [ClientSubnet] is built. *)
Record LegacyDNSServerOptions : Type := {
  lg_Address : string;
  lg_AddressResolver : string;
  lg_AddressStrategy : DomainStrategy;
  lg_AddressFallbackDelay : Z;
  lg_Strategy : DomainStrategy;
  lg_Detour : string;
  lg_ClientSubnet : Prefix
}.

Record LocalDNSServerOptions : Type := {
  lc_DialerOptions : DialerOptions;
  lc_Legacy : bool;
  lc_LegacyStrategy : DomainStrategy;
  lc_LegacyDefaultDialer : bool;
  lc_LegacyClientSubnet : Prefix
}.

Record DNSServerAddressOptions : Type := { sv_Server : string; sv_ServerPort : Z }.

Record RemoteDNSServerOptions : Type := {
  rm_Local : LocalDNSServerOptions;
  rm_Address : DNSServerAddressOptions;
  rm_LegacyAddressResolver : string;
  rm_LegacyAddressStrategy : DomainStrategy;
  rm_LegacyAddressFallbackDelay : Z
}.

Record LegacyDNSFakeIPOptions : Type := {
  lf_Enabled : bool; lf_Inet4Range : option Prefix; lf_Inet6Range : option Prefix }.

Record FakeIPDNSServerOptions : Type := { fs_Inet4Range : option Prefix; fs_Inet6Range : option Prefix }.

Record DHCPDNSServerOptions : Type := { dh_Local : LocalDNSServerOptions; dh_Interface : string }.

Section options.
Context `{External, SniffLib, DNSServerLib}.

Record RemoteTLSDNSServerOptions : Type := { tl_Remote : RemoteDNSServerOptions; tl_TLS : option TLSOptions }.

(** The headers under their canonical names. *)
Record RemoteHTTPSDNSServerOptions : Type := {
  hs_TLS : RemoteTLSDNSServerOptions; hs_Path : string; hs_Method : string; hs_Headers : list (string * list string) }.

(** [_DNSServerOptions.Options] *)
Inductive AnyServerOptions : Type :=
  | ServerLegacy (o : LegacyDNSServerOptions)
  | ServerLocal (o : LocalDNSServerOptions)
  | ServerRemote (o : RemoteDNSServerOptions)
  | ServerTLS (o : RemoteTLSDNSServerOptions)
  | ServerHTTPS (o : RemoteHTTPSDNSServerOptions)
  | ServerRcode (rcode : Z)
  | ServerDHCP (o : DHCPDNSServerOptions)
  | ServerFakeIP (o : FakeIPDNSServerOptions)
  | ServerRegistered (o : RegisteredOptions).

Record DNSServer : Type := {
  ds_Type : string;
  ds_Tag : string;
  ds_ClientSubnetFromInbound : option ClientSubnetFromInboundOptions;
  ds_Options : AnyServerOptions
}.

(** ** [Upgrade] *)

Definition no_local : LocalDNSServerOptions :=
  {| lc_DialerOptions := empty_dialer_options; lc_Legacy := false; lc_LegacyStrategy := DomainStrategyAsIS;
     lc_LegacyDefaultDialer := false; lc_LegacyClientSubnet := PrefixInvalid |}.

Definition with_resolver (detour : string) (resolver : DomainResolveOptions) (fallbackDelay : Z) (d : DialerOptions) : DialerOptions :=
  {| do_Detour := detour; do_BindInterface := do_BindInterface d; do_Inet4BindAddress := do_Inet4BindAddress d;
     do_Inet6BindAddress := do_Inet6BindAddress d; do_ProtectPath := do_ProtectPath d; do_RoutingMark := do_RoutingMark d;
     do_ReuseAddr := do_ReuseAddr d; do_NetNs := do_NetNs d; do_ConnectTimeout := do_ConnectTimeout d;
     do_TCPFastOpen := do_TCPFastOpen d; do_TCPMultiPath := do_TCPMultiPath d; do_UDPFragment := do_UDPFragment d;
     do_UDPFragmentDefault := do_UDPFragmentDefault d; do_DomainResolver := Some resolver;
     do_NetworkStrategy := do_NetworkStrategy d; do_NetworkType := do_NetworkType d;
     do_FallbackNetworkType := do_FallbackNetworkType d; do_FallbackDelay := fallbackDelay;
     do_DomainStrategy := do_DomainStrategy d |}.

Definition legacy_resolver (o : LegacyDNSServerOptions) : DomainResolveOptions :=
  {| drs_Server := lg_AddressResolver o; drs_Strategy := lg_AddressStrategy o; drs_DisableCache := false; drs_RewriteTTL := None;
     drs_ClientSubnet := PrefixInvalid |}.

Definition upgraded_local (o : LegacyDNSServerOptions) : LocalDNSServerOptions :=
  {| lc_DialerOptions := with_resolver (lg_Detour o) (legacy_resolver o) (lg_AddressFallbackDelay o) empty_dialer_options;
     lc_Legacy := true; lc_LegacyStrategy := lg_Strategy o; lc_LegacyDefaultDialer := bool_decide (lg_Detour o = "");
     lc_LegacyClientSubnet := lg_ClientSubnet o |}.

Definition no_address : DNSServerAddressOptions := {| sv_Server := ""; sv_ServerPort := 0 |}.

(** [remoteOptions] with the address of the server. *)
Definition upgraded_remote (o : LegacyDNSServerOptions) (address : DNSServerAddressOptions) : RemoteDNSServerOptions :=
  {| rm_Local := upgraded_local o; rm_Address := address; rm_LegacyAddressResolver := lg_AddressResolver o;
     rm_LegacyAddressStrategy := lg_AddressStrategy o; rm_LegacyAddressFallbackDelay := lg_AddressFallbackDelay o |}.

(** The port is written only when it is not the default one. *)
Definition server_address (serverAddr : Socksaddr) (defaultPort : Z) : DNSServerAddressOptions :=
  {| sv_Server := AddrString serverAddr;
     sv_ServerPort := if negb (sa_Port serverAddr =? 0) && negb (sa_Port serverAddr =? defaultPort) then sa_Port serverAddr else 0 |}.

Definition has_scheme (serverURL : option URL) : option string :=
  match serverURL with
  | Some u => if bool_decide (u_Scheme u <> "") then Some (u_Scheme u) else None
  | None => None
  end.

Definition server_type (address : string) (serverURL : option URL) : string :=
  match has_scheme serverURL with
  | Some scheme => scheme
  | None => if bool_decide (address = "local") || bool_decide (address = "fakeip") then address else DNSTypeUDP
  end.

(** The codes a server may answer; the others are [dns.RcodeServerFailure] and
    [dns.RcodeNotImplemented]. *)
Definition rcode_of_host (host : string) : option Z :=
  if bool_decide (host = "success") then Some RcodeSuccess
  else if bool_decide (host = "format_error") then Some RcodeFormatError
  else if bool_decide (host = "server_failure") then Some 2
  else if bool_decide (host = "name_error") then Some RcodeNameError
  else if bool_decide (host = "not_implemented") then Some 4
  else if bool_decide (host = "refused") then Some RcodeRefused
  else None.

Definition invalid_address : error := ErrNew "invalid server address".

(** The branch of a type: the type and options to set, and the error.  What was
    set before an error stays set. *)
Definition upgrade_branch (fakeip : option LegacyDNSFakeIPOptions) (o : LegacyDNSServerOptions) (serverURL : option URL)
    (serverType : string) : option (string * option AnyServerOptions) * option error :=
  let tls address := {| tl_Remote := upgraded_remote o address; tl_TLS := None |} in
  let https address path := ServerHTTPS {| hs_TLS := tls address; hs_Path := path; hs_Method := ""; hs_Headers := [] |} in
  let typ t := bool_decide (serverType = t) in
  if typ DNSTypeLocal then (Some (DNSTypeLocal, Some (ServerLocal (upgraded_local o))), None)
  else if typ DNSTypeUDP then
    let serverAddr := ParseSocksaddr match has_scheme serverURL, serverURL with
                                     | Some _, Some u => u_Host u
                                     | _, _ => lg_Address o
                                     end in
    if negb (Socksaddr_IsValid serverAddr) then (Some (DNSTypeUDP, Some (ServerRemote (upgraded_remote o no_address))), Some invalid_address)
    else (Some (DNSTypeUDP, Some (ServerRemote (upgraded_remote o (server_address serverAddr 53)))), None)
  else if typ DNSTypeTCP then
    let failed := (Some (DNSTypeTCP, Some (ServerRemote (upgraded_remote o no_address))), Some invalid_address) in
    match serverURL with
    | None => failed
    | Some u =>
        let serverAddr := ParseSocksaddr (u_Host u) in
        if negb (Socksaddr_IsValid serverAddr) then failed
        else (Some (DNSTypeTCP, Some (ServerRemote (upgraded_remote o (server_address serverAddr 53)))), None)
    end
  else if typ DNSTypeTLS || typ DNSTypeQUIC then
    match serverURL with
    | None => (Some (serverType, None), Some invalid_address)
    | Some u =>
        let serverAddr := ParseSocksaddr (u_Host u) in
        if negb (Socksaddr_IsValid serverAddr) then (Some (serverType, None), Some invalid_address)
        else (Some (serverType, Some (ServerTLS (tls (server_address serverAddr 853)))), None)
    end
  else if typ DNSTypeHTTPS || typ DNSTypeHTTP3 then
    let failed := (Some (serverType, Some (https no_address "")), Some invalid_address) in
    match serverURL with
    | None => failed
    | Some u =>
        let serverAddr := ParseSocksaddr (u_Host u) in
        if negb (Socksaddr_IsValid serverAddr) then failed
        else (Some (serverType, Some (https (server_address serverAddr 443)
                                        (if bool_decide (u_Path u <> "/dns-query") then u_Path u else ""))), None)
    end
  else if typ "rcode" then
    match serverURL with
    | None => (None, Some invalid_address)
    | Some u =>
        match rcode_of_host (u_Host u) with
        | None => (None, Some (ErrNew ("unknown rcode: " +:+ u_Host u)))
        | Some rcode => (Some (DNSTypeLegacyRcode, Some (ServerRcode rcode)), None)
        end
    end
  else if typ DNSTypeDHCP then
    match serverURL with
    | None => (Some (DNSTypeDHCP, None), Some invalid_address)
    | Some u =>
        (Some (DNSTypeDHCP, Some (ServerDHCP {| dh_Local := no_local;
                                                dh_Interface := if bool_decide (u_Host u <> "") && bool_decide (u_Host u <> "auto")
                                                                then u_Host u else "" |})), None)
    end
  else if typ ServerTypeFakeIP then
    (Some (ServerTypeFakeIP, Some (ServerFakeIP match fakeip with
                                            | Some f => {| fs_Inet4Range := lf_Inet4Range f; fs_Inet6Range := lf_Inet6Range f |}
                                            | None => {| fs_Inet4Range := None; fs_Inet6Range := None |}
                                            end)), None)
  else (None, Some (ErrNew ("unsupported DNS server scheme: " +:+ serverType))).

Definition set_server (change : option (string * option AnyServerOptions)) (s : DNSServer) : DNSServer :=
  match change with
  | None => s
  | Some (t, options) =>
      {| ds_Type := t; ds_Tag := ds_Tag s; ds_ClientSubnetFromInbound := ds_ClientSubnetFromInbound s;
         ds_Options := default (ds_Options s) options |}
  end.

(** [DNSServerOptions.Upgrade]; [fakeip]: the legacy options in the context. *)
Definition DNSServer_Upgrade (fakeip : option LegacyDNSFakeIPOptions) (s : DNSServer) : res unit * DNSServer :=
  if negb (bool_decide (ds_Type s = DNSTypeLegacy)) then (Ok tt, s)
  else
    match ds_Options s with
    | ServerLegacy o =>
        let serverURL := url_Parse (lg_Address o) in
        let '(change, err) := upgrade_branch fakeip o serverURL (server_type (lg_Address o) serverURL) in
        (match err with None => Ok tt | Some e => Err e end, set_server change s)
    | _ => (Panic "interface conversion", s)
    end.

(** ** Decoding *)

(** The values of the context: [ContextWithDontUpgrade], and the fake-IP options. *)
Record UpgradeContext : Type := { uc_dontUpgrade : bool; uc_FakeIP : option LegacyDNSFakeIPOptions }.

Definition ContextWithDontUpgrade (ctx : UpgradeContext) : UpgradeContext :=
  {| uc_dontUpgrade := true; uc_FakeIP := uc_FakeIP ctx |}.

Definition OptionLegacyDNSTransport : string := "legacy-dns-transport".
Definition OptionLegacyDNSFakeIPOptions : string := "legacy-dns-fakeip-options".

Section decode.
(** JSON: values, the fields of [_DNSServerOptions] in one, the legacy options in
    one; the registry makes the options of a type and decodes into them. *)
Context {J : Type}
  (decode_server : J -> string * string * option ClientSubnetFromInboundOptions + error)
  (decode_legacy : J -> LegacyDNSServerOptions + error)
  (registry : option (string -> option (J -> AnyServerOptions + error))).

(** [DNSServerOptions.UnmarshalJSONContext], with the deprecated features that
    are reported. *)
Definition DNSServer_Unmarshal (ctx : UpgradeContext) (content : J) : res DNSServer * list string :=
  match decode_server content with
  | inr e => (Err e, [])
  | inl (type, tag, csfi) =>
      match registry with
      | None => (Err (ErrNew "missing DNS transport options registry in context"), [])
      | Some CreateOptions =>
          let legacy := bool_decide (type = "") || bool_decide (type = DNSTypeLegacy) in
          let reports := if legacy then [OptionLegacyDNSTransport] else [] in
          let decoded :=
            if legacy then
              match decode_legacy content with inl o => Ok (DNSTypeLegacy, ServerLegacy o) | inr e => Err e end
            else
              match CreateOptions type with
              | None => Err (ErrNew ("unknown transport type: " +:+ type))
              | Some decode => match decode content with inl o => Ok (type, o) | inr e => Err e end
              end in
          (let* '(type, options) := decoded in
           let s := {| ds_Type := type; ds_Tag := tag; ds_ClientSubnetFromInbound := csfi; ds_Options := options |} in
           if bool_decide (type = DNSTypeLegacy) && negb (uc_dontUpgrade ctx) then
             let '(err, s) := DNSServer_Upgrade (uc_FakeIP ctx) s in
             let* _ := err in Ok s
           else Ok s, reports)
      end
  end.

(** The elements of an array, until one fails. *)
Fixpoint unmarshal_servers (ctx : UpgradeContext) (l : list J) : res (list DNSServer) * list string :=
  match l with
  | [] => (Ok [], [])
  | content :: l =>
      let '(r, reports) := DNSServer_Unmarshal ctx content in
      match r with
      | Ok s =>
          let '(servers, more) := unmarshal_servers ctx l in
          (let* servers := servers in Ok (s :: servers), reports ++ more)
      | Err e => (Err e, reports)
      | Panic msg => (Panic msg, reports)
      end
  end.
End decode.

(** [MarshalJSONContext] writes the legacy type as none, in the options. *)
Definition DNSServer_Marshal (s : DNSServer) : DNSServer :=
  if bool_decide (ds_Type s = DNSTypeLegacy) then set_server (Some ("", None)) s else s.

(** [rewriteRcodeAction] *)
Definition rewriteRcodeAction {RR} (rcodeMap : gmap string Z) (a : DNSRuleActionOptions RR) : DNSRuleActionOptions RR :=
  if negb (bool_decide (dao_Action a = RuleActionTypeRoute)) then a
  else
    match dra_Server (dao_RouteOptions a) with
    | [server] =>
        match rcodeMap !! server with
        | None => a
        | Some rcode =>
            {| dao_Action := RuleActionTypePredefined; dao_RouteOptions := dao_RouteOptions a;
               dao_RouteOptionsOptions := dao_RouteOptionsOptions a; dao_RejectOptions := dao_RejectOptions a;
               dao_PredefinedOptions :=
                 {| po_Rcode := Some rcode; po_Answer := po_Answer (dao_PredefinedOptions a);
                    po_Ns := po_Ns (dao_PredefinedOptions a); po_Extra := po_Extra (dao_PredefinedOptions a) |} |}
        end
    | _ => a
    end.

(** [rewriteRcode]: the rule's own action; nested rules are left. *)
Definition rewriteRcode {RR} (rcodeMap : gmap string Z) (rule : DNSRuleOptions RR) : DNSRuleOptions RR :=
  match rule with
  | MkDNSRuleOptions type d da mode rules invert la =>
      if bool_decide (type = RuleTypeDefault) then MkDNSRuleOptions type d (rewriteRcodeAction rcodeMap da) mode rules invert la
      else if bool_decide (type = RuleTypeLogical) then
        MkDNSRuleOptions type d da mode rules invert (rewriteRcodeAction rcodeMap la)
      else rule
  end.

(** The servers that are no codes, and the codes of the others by tag; options
    that are no code are an error of the program. *)
Fixpoint split_rcode (servers : list DNSServer) (rcodeMap : gmap string Z) : res (list DNSServer * gmap string Z) :=
  match servers with
  | [] => Ok ([], rcodeMap)
  | s :: servers =>
      if bool_decide (ds_Type s = DNSTypeLegacyRcode) then
        match ds_Options s with
        | ServerRcode rcode => split_rcode servers (<[ds_Tag s := rcode]> rcodeMap)
        | _ => Panic "interface conversion"
        end
      else let* '(kept, rcodeMap) := split_rcode servers rcodeMap in Ok (s :: kept, rcodeMap)
  end.

(** [RawDNSOptions] without the fields only the client reads, and [LegacyDNSOptions]. *)
Record DNSOptions_ (RR : Type) : Type := {
  dn_Servers : list DNSServer; dn_Rules : list (DNSRuleOptions RR); dn_Final : string; dn_ReverseMapping : bool;
  dn_FakeIP : option LegacyDNSFakeIPOptions }.
#[global] Arguments dn_Servers {RR}.
#[global] Arguments dn_Rules {RR}.
#[global] Arguments dn_Final {RR}.
#[global] Arguments dn_ReverseMapping {RR}.
#[global] Arguments dn_FakeIP {RR}.

(** [DNSOptions.UnmarshalJSONContext]: [decode_fakeip] reads [LegacyDNSOptions],
    [decode_raw] the rest with the servers undecoded: rules, the final server and
    whether there is a reverse mapping. *)
Section unmarshal.
Context {J D RR : Type}
  (decode_server : J -> string * string * option ClientSubnetFromInboundOptions + error)
  (decode_legacy : J -> LegacyDNSServerOptions + error)
  (registry : option (string -> option (J -> AnyServerOptions + error)))
  (decode_fakeip : D -> option LegacyDNSFakeIPOptions + error)
  (decode_raw : D -> list J * list (DNSRuleOptions RR) * string * bool + error).

(** The servers that only answer a code become actions of the rules. *)
Definition remove_rcode_servers (servers : list DNSServer) (rules : list (DNSRuleOptions RR))
    : res (list DNSServer * list (DNSRuleOptions RR)) :=
  let* '(servers, rcodeMap) := split_rcode servers ∅ in
  Ok (servers, if bool_decide (rcodeMap = ∅) then rules else map (rewriteRcode rcodeMap) rules).

Definition unmarshal_raw (ctx : UpgradeContext) (kept : option LegacyDNSFakeIPOptions) (content : D)
    : res (DNSOptions_ RR) * list string :=
  match decode_raw content with
  | inr e => (Err e, [])
  | inl (servers, rules, final, reverse) =>
      let '(servers, reports) := unmarshal_servers decode_server decode_legacy registry ctx servers in
      (let* servers := servers in
       let* '(servers, rules) := if uc_dontUpgrade ctx then Ok (servers, rules) else remove_rcode_servers servers rules in
       Ok {| dn_Servers := servers; dn_Rules := rules; dn_Final := final; dn_ReverseMapping := reverse; dn_FakeIP := kept |},
       reports)
  end.

Definition DNSOptions_Unmarshal (ctx : UpgradeContext) (content : D) : res (DNSOptions_ RR) * list string :=
  match decode_fakeip content with
  | inr e => (Err e, [])
  | inl fakeip =>
      if uc_dontUpgrade ctx then unmarshal_raw ctx fakeip content
      else
        match fakeip with
        | Some f =>
            if lf_Enabled f then
              let '(r, reports) := unmarshal_raw {| uc_dontUpgrade := false; uc_FakeIP := Some f |} None content in
              (r, OptionLegacyDNSFakeIPOptions :: reports)
            else unmarshal_raw ctx None content
        | None => unmarshal_raw ctx None content
        end
  end.
End unmarshal.
End options.

(** [ClientSubnetFromInboundOptions.UnmarshalJSON]: a number is the length for
    IPv4; otherwise both are read, each as a byte. *)
Definition ClientSubnetFromInbound_Unmarshal {J} (decode_int : J -> option Z) (decode_both : J -> ClientSubnetFromInboundOptions + error)
    (bytes : J) : ClientSubnetFromInboundOptions + error :=
  match decode_int bytes with
  | Some prefixLen =>
      if prefixLen <? 0 then inr (ErrNew "invalid client_subnet_from_inbound: negative value")
      else if 32 <? prefixLen then inr (ErrNew ("invalid client_subnet_from_inbound for ipv4: " +:+ go_itoa prefixLen))
      else inl {| csfi_IPv4 := prefixLen mod 256; csfi_IPv6 := 0 |}
  | None =>
      match decode_both bytes with
      | inr e => inr e
      | inl v =>
          if 32 <? csfi_IPv4 v then inr (ErrNew ("invalid client_subnet_from_inbound.ipv4: " +:+ go_itoa (csfi_IPv4 v)))
          else if 128 <? csfi_IPv6 v then inr (ErrNew ("invalid client_subnet_from_inbound.ipv6: " +:+ go_itoa (csfi_IPv6 v)))
          else inl v
      end
  end.

(** ** Transports *)

(** [dns.TransportAdapter] *)
Record TransportAdapter : Type := {
  ta_transportType : string;
  ta_transportTag : string;
  ta_dependencies : list string;
  ta_strategy : DomainStrategy;
  ta_clientSubnet : Prefix
}.

Definition NewTransportAdapter (transportType transportTag : string) (dependencies : list string) : TransportAdapter :=
  {| ta_transportType := transportType; ta_transportTag := transportTag; ta_dependencies := dependencies;
     ta_strategy := DomainStrategyAsIS; ta_clientSubnet := PrefixInvalid |}.

Definition resolver_dependency (o : LocalDNSServerOptions) : list string :=
  match do_DomainResolver (lc_DialerOptions o) with
  | Some r => if bool_decide (drs_Server r <> "") then [drs_Server r] else []
  | None => []
  end.

Definition NewTransportAdapterWithLocalOptions (transportType transportTag : string) (o : LocalDNSServerOptions) : TransportAdapter :=
  {| ta_transportType := transportType; ta_transportTag := transportTag; ta_dependencies := resolver_dependency o;
     ta_strategy := lc_LegacyStrategy o; ta_clientSubnet := lc_LegacyClientSubnet o |}.

Definition NewTransportAdapterWithRemoteOptions (transportType transportTag : string) (o : RemoteDNSServerOptions) : TransportAdapter :=
  {| ta_transportType := transportType; ta_transportTag := transportTag;
     ta_dependencies := resolver_dependency (rm_Local o) ++
                        (if bool_decide (rm_LegacyAddressResolver o <> "") then [rm_LegacyAddressResolver o] else []);
     ta_strategy := lc_LegacyStrategy (rm_Local o); ta_clientSubnet := lc_LegacyClientSubnet (rm_Local o) |}.

(** The dialer of a transport: the default outbound, that with the addresses a
    transport resolves, or one of the options. *)
Record legacyTransportDialer : Type := { ltd_transport : string; ltd_strategy : DomainStrategy; ltd_fallbackDelay : Z }.

Inductive TransportDialer (O : Type) : Type :=
  | DialDefaultOutbound
  | DialLegacy (d : legacyTransportDialer)
  | DialOptions (d : NewDialer O).
Arguments DialDefaultOutbound {O}.
Arguments DialLegacy {O}.
Arguments DialOptions {O}.

Section dialer.
Context `{External, SniffLib, DNSServerLib} {O : Type}
  (platform : Platform) (hasOutboundManager : bool) (nm : option NetworkManager) (hasPlatformInterface : bool) (t : DNSTransports).

Definition dialer_options (o : LocalDNSServerOptions) (remoteIsDomain : bool) : Options :=
  {| op_Options := lc_DialerOptions o; op_RemoteIsDomain := remoteIsDomain; op_DirectResolver := true; op_ResolverOnDetour := false;
     op_NewDialer := false; op_LegacyDNSDialer := lc_Legacy o |}.

Definition new_with_options (o : LocalDNSServerOptions) (remoteIsDomain : bool) : TransportDialer O + error :=
  match NewWithOptions platform hasOutboundManager nm hasPlatformInterface t (dialer_options o remoteIsDomain) with
  | inl (d, _) => inl (DialOptions d)
  | inr e => inr e
  end.

Definition NewLocalDialer (o : LocalDNSServerOptions) : TransportDialer O + error :=
  if lc_LegacyDefaultDialer o then inl DialDefaultOutbound else new_with_options o false.

Definition ServerIsDomain (o : DNSServerAddressOptions) : bool := IsDomainName (sv_Server o).

Definition NewRemoteDialer (o : RemoteDNSServerOptions) : TransportDialer O + error :=
  if lc_LegacyDefaultDialer (rm_Local o) then
    if bool_decide (rm_LegacyAddressResolver o <> "") then
      if negb (dt_Transport (rm_LegacyAddressResolver o) t) then
        inr (ErrNew ("address resolver not found: " +:+ rm_LegacyAddressResolver o))
      else inl (DialLegacy {| ltd_transport := rm_LegacyAddressResolver o; ltd_strategy := rm_LegacyAddressStrategy o;
                              ltd_fallbackDelay := rm_LegacyAddressFallbackDelay o |})
    else if ServerIsDomain (rm_Address o) then
      inr (ErrNew ("missing address resolver for server: " +:+ sv_Server (rm_Address o)))
    else inl DialDefaultOutbound
  else new_with_options (rm_Local o) (ServerIsDomain (rm_Address o)).

(** [DNSServerAddressOptions.Build] and what every constructor does with it. *)
Definition Build (o : DNSServerAddressOptions) : Socksaddr := ParseSocksaddrHostPort (sv_Server o) (sv_ServerPort o).

Definition server_addr (o : DNSServerAddressOptions) (defaultPort : Z) : Socksaddr + error :=
  let serverAddr := Build o in
  let serverAddr := if sa_Port serverAddr =? 0 then with_port defaultPort serverAddr else serverAddr in
  if negb (Socksaddr_IsValid serverAddr) then inr (ErrNew ("invalid server address: " +:+ Socksaddr_Text serverAddr))
  else inl serverAddr.

(** What a constructor makes: for HTTPS and HTTP/3 with the host and the path of
    the destination and the headers. *)
Record Transport : Type := {
  nt_Adapter : TransportAdapter;
  nt_dialer : TransportDialer O;
  nt_serverAddr : Socksaddr;
  nt_tlsConfig : option TLSConfig;
  nt_destination : option (string * string);
  nt_headers : list (string * list string)
}.

Definition new_plain (transportType : string) (tag : string) (o : RemoteDNSServerOptions) : Transport + error :=
  match NewRemoteDialer o with
  | inr e => inr e
  | inl dialer =>
      match server_addr (rm_Address o) 53 with
      | inr e => inr e
      | inl serverAddr =>
          inl {| nt_Adapter := NewTransportAdapterWithRemoteOptions transportType tag o; nt_dialer := dialer;
                 nt_serverAddr := serverAddr; nt_tlsConfig := None; nt_destination := None; nt_headers := [] |}
      end
  end.

Definition NewUDP : string -> RemoteDNSServerOptions -> Transport + error := new_plain DNSTypeUDP.
Definition NewTCP : string -> RemoteDNSServerOptions -> Transport + error := new_plain DNSTypeTCP.

(** A TLS configuration with the protocols of the transport when it has none. *)
Definition with_protos (protos : list string) (c : TLSConfig) : TLSConfig :=
  match protos, cfg_NextProtos c with _ :: _, [] => cfg_SetNextProtos protos c | _, _ => c end.

Definition new_tls (transportType : string) (protos : list string) (tag : string) (o : RemoteTLSDNSServerOptions) : Transport + error :=
  match NewRemoteDialer (tl_Remote o) with
  | inr e => inr e
  | inl dialer =>
      match tls_NewClient (sv_Server (rm_Address (tl_Remote o))) (tl_TLS o) with
      | inr e => inr e
      | inl tlsConfig =>
          match server_addr (rm_Address (tl_Remote o)) 853 with
          | inr e => inr e
          | inl serverAddr =>
              inl {| nt_Adapter := NewTransportAdapterWithRemoteOptions transportType tag (tl_Remote o); nt_dialer := dialer;
                     nt_serverAddr := serverAddr; nt_tlsConfig := Some (with_protos protos tlsConfig); nt_destination := None;
                     nt_headers := [] |}
          end
      end
  end.

Definition NewTLS : string -> RemoteTLSDNSServerOptions -> Transport + error := new_tls DNSTypeTLS [].
Definition NewQUIC : string -> RemoteTLSDNSServerOptions -> Transport + error := new_tls DNSTypeQUIC ["doq"].

(** The host of the destination URL, and the headers without it. *)
Definition https_host (o : RemoteHTTPSDNSServerOptions) (tlsConfig : TLSConfig) : string * list (string * list string) :=
  let address := rm_Address (tl_Remote (hs_TLS o)) in
  let Get := match find (fun h => bool_decide (fst h = "Host")) (hs_Headers o) with Some (_, host :: _) => host | _ => "" end in
  let '(host, headers) :=
    if bool_decide (Get <> "") then (Get, List.filter (fun h => negb (bool_decide (fst h = "Host"))) (hs_Headers o))
    else if bool_decide (cfg_ServerName tlsConfig <> "") then (cfg_ServerName tlsConfig, hs_Headers o)
    else (sv_Server address, hs_Headers o) in
  let host := if bool_decide (host = "") then sv_Server address else host in
  (if negb (sv_ServerPort address =? 0) && negb (sv_ServerPort address =? 443)
   then net_JoinHostPort host (go_itoa (sv_ServerPort address)) else host, headers).

Definition https_path (path : string) : string := if bool_decide (path = "") then "/dns-query" else path.

(** [config]: the step between the configuration and the headers. *)
Definition new_https (transportType : string) (config : TLSConfig -> TLSConfig + error) (tag : string)
    (o : RemoteHTTPSDNSServerOptions) : Transport + error :=
  let remote := tl_Remote (hs_TLS o) in
  match NewRemoteDialer remote with
  | inr e => inr e
  | inl dialer =>
      match tls_NewClient (sv_Server (rm_Address remote)) (tl_TLS (hs_TLS o)) with
      | inr e => inr e
      | inl tlsConfig =>
          match config tlsConfig with
          | inr e => inr e
          | inl tlsConfig =>
              let '(host, headers) := https_host o tlsConfig in
              match URLSetPath (https_path (hs_Path o)) with
              | inr e => inr e
              | inl path =>
                  match server_addr (rm_Address remote) 443 with
                  | inr e => inr e
                  | inl serverAddr =>
                      inl {| nt_Adapter := NewTransportAdapterWithRemoteOptions transportType tag remote; nt_dialer := dialer;
                             nt_serverAddr := serverAddr; nt_tlsConfig := Some tlsConfig; nt_destination := Some (host, path);
                             nt_headers := headers |}
                  end
              end
          end
      end
  end.

Definition NewHTTPS : string -> RemoteHTTPSDNSServerOptions -> Transport + error :=
  new_https DNSTypeHTTPS (fun c => inl (with_protos ["h2"; "http/1.1"] c)).
Definition NewHTTP3 : string -> RemoteHTTPSDNSServerOptions -> Transport + error :=
  new_https DNSTypeHTTP3 (fun c => match cfg_Config c with Some e => inr e | None => inl c end).

(** The constructor of a type, for the options it is registered with. *)
Definition NewTransport (tag : string) (type : string) (options : AnyServerOptions) : option (Transport + error) :=
  match options with
  | ServerRemote o =>
      if bool_decide (type = DNSTypeUDP) then Some (NewUDP tag o)
      else if bool_decide (type = DNSTypeTCP) then Some (NewTCP tag o) else None
  | ServerTLS o =>
      if bool_decide (type = DNSTypeTLS) then Some (NewTLS tag o)
      else if bool_decide (type = DNSTypeQUIC) then Some (NewQUIC tag o) else None
  | ServerHTTPS o =>
      if bool_decide (type = DNSTypeHTTPS) then Some (NewHTTPS tag o)
      else if bool_decide (type = DNSTypeHTTP3) then Some (NewHTTP3 tag o) else None
  | _ => None
  end.

(** [legacyTransportDialer]: a domain is looked up with the transport, and its
    addresses are dialled over the default outbound. *)
Section legacy.
Context {C P : Type} (Lookup : option string -> DNSQueryOptions -> string -> list Addr + error)
  (dial : Socksaddr -> C + error) (listen : Socksaddr -> P + error)
  (N_DialParallel : Socksaddr -> list Addr -> bool -> Z -> C + error)
  (N_ListenSerial : Socksaddr -> list Addr -> P * Addr + error).

Definition legacy_lookup (d : legacyTransportDialer) (destination : Socksaddr) : list Addr + error :=
  Lookup (Some (ltd_transport d)) (with_qo_Strategy (ltd_strategy d) no_query_options) (sa_Fqdn destination).

Definition legacyTransportDialer_DialContext (d : legacyTransportDialer) (destination : Socksaddr) : C + error :=
  if IsIP destination then dial destination
  else
    match legacy_lookup d destination with
    | inr e => inr e
    | inl addresses =>
        N_DialParallel destination addresses (bool_decide (ltd_strategy d = DomainStrategyPreferIPv6)) (ltd_fallbackDelay d)
    end.

Definition legacyTransportDialer_ListenPacket (d : legacyTransportDialer) (destination : Socksaddr) : P + error :=
  if IsIP destination then listen destination
  else
    match legacy_lookup d destination with
    | inr e => inr e
    | inl addresses => match N_ListenSerial destination addresses with inl (conn, _) => inl conn | inr e => inr e end
    end.
End legacy.
End dialer.

(** ** Addresses that are upgraded *)

(** What the parser of addresses and [Build] promise each other. *)
Class DNSServerLaws `{External, SniffLib, DNSServerLib} : Prop := {
  Build_parsed : forall s port,
    Socksaddr_IsValid (ParseSocksaddr s) = true ->
    ParseSocksaddrHostPort (AddrString (ParseSocksaddr s)) port = with_port port (ParseSocksaddr s);
  with_port_valid : forall port a, Socksaddr_IsValid (with_port port a) = Socksaddr_IsValid a
}.

(** The types an address with a scheme can name, with their ports. *)
Definition server_ports : list (string * Z) :=
  [(DNSTypeUDP, 53); (DNSTypeTCP, 53); (DNSTypeTLS, 853); (DNSTypeQUIC, 853); (DNSTypeHTTPS, 443); (DNSTypeHTTP3, 443)].

Section upgraded.
Context `{DNSServerLaws} {O : Type}
  (platform : Platform) (hasOutboundManager : bool) (nm : option NetworkManager) (hasPlatformInterface : bool) (t : DNSTransports).

Abbreviation new_transport := (NewTransport (O := O) platform hasOutboundManager nm hasPlatformInterface t).
Abbreviation new_dialer := (NewRemoteDialer (O := O) platform hasOutboundManager nm hasPlatformInterface t).

Definition remote_of (options : AnyServerOptions) : option RemoteDNSServerOptions :=
  match options with
  | ServerRemote o => Some o
  | ServerTLS o => Some (tl_Remote o)
  | ServerHTTPS o => Some (tl_Remote (hs_TLS o))
  | _ => None
  end.

(** The port written is read back as it was, the default one included. *)
Lemma server_addr_written s defaultPort :
  Socksaddr_IsValid (ParseSocksaddr s) = true ->
  server_addr (server_address (ParseSocksaddr s) defaultPort) defaultPort =
    inl (with_port (if sa_Port (ParseSocksaddr s) =? 0 then defaultPort else sa_Port (ParseSocksaddr s)) (ParseSocksaddr s)).
Proof.
  intros Hv. unfold server_addr, Build, server_address. cbn [sv_Server sv_ServerPort].
  rewrite Build_parsed by done. set (a := ParseSocksaddr s) in *. cbn [sa_Port with_port].
  assert (forall p, Socksaddr_IsValid (with_port p a) = true) as Hw by (intros p; rewrite <- Hv; apply with_port_valid).
  destruct (Z.eqb_spec (sa_Port a) 0) as [Hz|Hnz]; cbn [negb andb].
  - rewrite Z.eqb_refl. change (with_port defaultPort (with_port 0 a)) with (with_port defaultPort a). by rewrite Hw.
  - destruct (Z.eqb_spec (sa_Port a) defaultPort) as [->|Hd]; cbn [negb].
    + rewrite Z.eqb_refl. change (with_port defaultPort (with_port 0 a)) with (with_port defaultPort a). by rewrite Hw.
    + destruct (Z.eqb_spec (sa_Port a) 0); [done|]. by rewrite Hw.
Qed.

(** A constructor succeeds with the dialer and the address of its options. *)
Lemma new_transport_inv tag type options defaultPort remote tr :
  (type, defaultPort) ∈ server_ports -> remote_of options = Some remote -> new_transport tag type options = Some (inl tr) ->
  new_dialer remote = inl (nt_dialer tr) /\ server_addr (rm_Address remote) defaultPort = inl (nt_serverAddr tr) /\
  nt_Adapter tr = NewTransportAdapterWithRemoteOptions type tag remote.
Proof.
  intros Hin Hr Hnew. unfold server_ports in Hin. rewrite !elem_of_cons in Hin.
  destruct Hin as [[= -> ->]|[[= -> ->]|[[= -> ->]|[[= -> ->]|[[= -> ->]|[[= -> ->]|Hin]]]]]]; [..|by apply elem_of_nil in Hin];
    destruct options; simplify_eq/=; revert Hnew;
    unfold NewUDP, NewTCP, new_plain, NewTLS, NewQUIC, new_tls, NewHTTPS, NewHTTP3, new_https;
    destruct (NewRemoteDialer _ _ _ _ _ _); try done;
    repeat first [destruct (tls_NewClient _ _)|destruct (cfg_Config _)|destruct (https_host _ _)|destruct (URLSetPath _)|
                  destruct (server_addr _ _)]; try done; by intros [= <-].
Qed.

(** The options of an address with a scheme. *)
Definition written_options (o : LegacyDNSServerOptions) (type path : string) (address : DNSServerAddressOptions) : AnyServerOptions :=
  let remote := upgraded_remote o address in
  if bool_decide (type = DNSTypeUDP) || bool_decide (type = DNSTypeTCP) then ServerRemote remote
  else
    let tls := {| tl_Remote := remote; tl_TLS := None |} in
    if bool_decide (type = DNSTypeTLS) || bool_decide (type = DNSTypeQUIC) then ServerTLS tls
    else ServerHTTPS {| hs_TLS := tls; hs_Path := path; hs_Method := ""; hs_Headers := [] |}.

Lemma server_port_scheme type defaultPort : (type, defaultPort) ∈ server_ports ->
  exists c s, type = String c s /\ is_letter c = true /\ forallb scheme_char (chars s) = true /\ lower_string type = type.
Proof.
  unfold server_ports. rewrite !elem_of_cons.
  intros [[= -> ->]|[[= -> ->]|[[= -> ->]|[[= -> ->]|[[= -> ->]|[[= -> ->]|Hin]]]]]]; [..|by apply elem_of_nil in Hin];
    eexists _, _; split_and!; reflexivity.
Qed.

Lemma upgrade_branch_written fakeip o type defaultPort u :
  (type, defaultPort) ∈ server_ports -> u_Scheme u = type -> Socksaddr_IsValid (ParseSocksaddr (u_Host u)) = true ->
  upgrade_branch fakeip o (Some u) type =
    (Some (type, Some (written_options o type (if bool_decide (u_Path u <> "/dns-query") then u_Path u else "")
                         (server_address (ParseSocksaddr (u_Host u)) defaultPort))), None).
Proof.
  unfold server_ports. rewrite !elem_of_cons. intros Hin Hs Hv. unfold upgrade_branch, has_scheme. rewrite Hs.
  destruct Hin as [[= -> ->]|[[= -> ->]|[[= -> ->]|[[= -> ->]|[[= -> ->]|[[= -> ->]|Hin]]]]]]; [|by rewrite Hv..|by apply elem_of_nil in Hin].
  change (bool_decide (DNSTypeUDP <> "")) with true. cbv iota. by rewrite Hv.
Qed.

Definition legacy_server (tag : string) (csfi : option ClientSubnetFromInboundOptions) (o : LegacyDNSServerOptions) : DNSServer :=
  {| ds_Type := DNSTypeLegacy; ds_Tag := tag; ds_ClientSubnetFromInbound := csfi; ds_Options := ServerLegacy o |}.

(** Legacy servers are reached where they were: an address with a scheme,
    a host, perhaps a port, and a path is upgraded without an error to the type of
    its scheme; every transport made from it dials the address that was written,
    with the default port of the type when none was, through the dialer of its
    options, and has the tag, the strategy and the client subnet of the server. *)
Theorem legacy_server_reached fakeip tag csfi o type defaultPort host port path :
  (type, defaultPort) ∈ server_ports -> lg_Address o = type +:+ "://" +:+ host +:+ port +:+ path ->
  forallb plain_char (chars host) = true -> plain_port port -> plain_path path ->
  Socksaddr_IsValid (ParseSocksaddr (host +:+ port)) = true ->
  let written := ParseSocksaddr (host +:+ port) in
  exists options remote, DNSServer_Upgrade fakeip (legacy_server tag csfi o) =
      (Ok tt, {| ds_Type := type; ds_Tag := tag; ds_ClientSubnetFromInbound := csfi; ds_Options := options |}) /\
    remote_of options = Some remote /\ is_Some (new_transport tag type options) /\
    forall tr, new_transport tag type options = Some (inl tr) ->
      nt_serverAddr tr = with_port (if sa_Port written =? 0 then defaultPort else sa_Port written) written /\
      new_dialer remote = inl (nt_dialer tr) /\
      ta_transportType (nt_Adapter tr) = type /\ ta_transportTag (nt_Adapter tr) = tag /\
      ta_strategy (nt_Adapter tr) = lg_Strategy o /\ ta_clientSubnet (nt_Adapter tr) = lg_ClientSubnet o.
Proof.
  intros Hin Haddr Hh Hpo Hpa Hv written.
  destruct (server_port_scheme _ _ Hin) as (c & s & Heq & Hc & Hs & Hlow).
  pose proof (url_written c s host port path Hc Hs Hh Hpo Hpa) as Hurl. rewrite <- Heq, <- Haddr, Hlow in Hurl.
  set (u := {| u_Scheme := type; u_Host := host +:+ port; u_Path := path |}) in *.
  assert (server_type (lg_Address o) (Some u) = type) as Htype.
  { unfold server_type, has_scheme. cbn [u_Scheme u]. by rewrite bool_decide_true by (rewrite Heq; done). }
  set (options := written_options o type (if bool_decide (path <> "/dns-query") then path else "") (server_address written defaultPort)).
  set (remote := upgraded_remote o (server_address written defaultPort)).
  assert (remote_of options = Some remote) as Hrem by (unfold options, written_options; by repeat destruct (bool_decide _ || _)).
  exists options, remote. split_and!.
  - unfold DNSServer_Upgrade, legacy_server. cbn [ds_Type ds_Options]. rewrite bool_decide_true by done. cbn [negb].
    rewrite Hurl, Htype. by rewrite (upgrade_branch_written fakeip o type defaultPort u).
  - done.
  - clear - Hin. unfold server_ports in Hin. rewrite !elem_of_cons in Hin.
    destruct Hin as [[= -> ->]|[[= -> ->]|[[= -> ->]|[[= -> ->]|[[= -> ->]|[[= -> ->]|Hin]]]]]]; [by eexists..|by apply elem_of_nil in Hin].
  - intros tr Hnew. destruct (new_transport_inv tag type options defaultPort remote tr Hin Hrem Hnew) as (Hd & Ha & ->).
    unfold remote in Ha. cbn [rm_Address upgraded_remote] in Ha. unfold written in Ha. rewrite server_addr_written in Ha by done.
    by simplify_eq.
Qed.

(** The dialer of an upgraded server. *)
Theorem upgraded_dialer o address :
  new_dialer (upgraded_remote o address) =
    if bool_decide (lg_Detour o = "") then
      if bool_decide (lg_AddressResolver o <> "") then
        if dt_Transport (lg_AddressResolver o) t then
          inl (DialLegacy {| ltd_transport := lg_AddressResolver o; ltd_strategy := lg_AddressStrategy o;
                             ltd_fallbackDelay := lg_AddressFallbackDelay o |})
        else inr (ErrNew ("address resolver not found: " +:+ lg_AddressResolver o))
      else if ServerIsDomain address then inr (ErrNew ("missing address resolver for server: " +:+ sv_Server address))
      else inl DialDefaultOutbound
    else if negb hasOutboundManager then inr (ErrNew "missing outbound manager")
    else
      let base := Base_Detour (NewDetour (lg_Detour o) true) in
      inl (DialOptions
             (if ServerIsDomain address && bool_decide (lg_AddressResolver o <> "") then
                Resolving (NewResolveDialer false (lg_AddressResolver o) None
                             (with_qo_Strategy (lg_AddressStrategy o) no_query_options) (lg_AddressFallbackDelay o)) base
              else Plain base)).
Proof.
  unfold NewRemoteDialer, new_with_options, NewWithOptions, dialer_options, upgraded_remote, upgraded_local.
  cbn [rm_Local lc_LegacyDefaultDialer rm_LegacyAddressResolver rm_Address lc_DialerOptions lc_Legacy op_Options op_RemoteIsDomain
       op_LegacyDNSDialer op_ResolverOnDetour with_resolver do_Detour rm_LegacyAddressStrategy rm_LegacyAddressFallbackDelay].
  destruct (bool_decide_reflect (lg_Detour o = "")) as [Hd|Hd].
  - destruct (bool_decide _); [by destruct (dt_Transport _ _)|done].
  - rewrite bool_decide_true by done. destruct hasOutboundManager; [|done]. cbn [negb orb].
    unfold named_resolver, choose_resolver, named_resolver, with_resolver, legacy_resolver.
    cbn [op_Options do_DomainResolver drs_Server op_DirectResolver].
    destruct (ServerIsDomain address); [|done]. cbn [andb].
    destruct (bool_decide_reflect (lg_AddressResolver o <> "")) as [Hr|Hr]; [|done]. cbn [is_some].
    unfold own_resolver. cbn [op_DirectResolver negb andb drs_Strategy drs_Server op_Options do_DomainStrategy empty_dialer_options].
    unfold with_qo_Strategy, no_query_options. simpl.
    by destruct (lg_AddressStrategy o).
Qed.
End upgraded.

(** ** Decoded options *)

Section decoded.
Context `{External, SniffLib, DNSServerLib} {J D RR : Type}
  (decode_server : J -> string * string * option ClientSubnetFromInboundOptions + error)
  (decode_legacy : J -> LegacyDNSServerOptions + error)
  (CreateOptions : string -> option (J -> AnyServerOptions + error))
  (decode_fakeip : D -> option LegacyDNSFakeIPOptions + error)
  (decode_raw : D -> list J * list (DNSRuleOptions RR) * string * bool + error)
  (rcode_unregistered : CreateOptions DNSTypeLegacyRcode = None).

Abbreviation unmarshal_server := (DNSServer_Unmarshal decode_server decode_legacy (Some CreateOptions)).
Abbreviation unmarshal_options :=
  (DNSOptions_Unmarshal decode_server decode_legacy (Some CreateOptions) decode_fakeip decode_raw).

(** A server that only answers a code has one. *)
Definition rcode_server (s : DNSServer) : Prop := ds_Type s = DNSTypeLegacyRcode.
#[local] Instance rcode_server_dec s : Decision (rcode_server s) := _.

Definition server_fits (s : DNSServer) : Prop :=
  ds_Type s <> DNSTypeLegacy /\ (rcode_server s -> exists rcode, ds_Options s = ServerRcode rcode).

Lemma upgrade_branch_fits fakeip o u type change :
  upgrade_branch fakeip o u type = (change, None) ->
  exists t options, change = Some (t, Some options) /\ t <> DNSTypeLegacy /\
    (t = DNSTypeLegacyRcode -> exists rcode, options = ServerRcode rcode).
Proof.
  unfold upgrade_branch.
  repeat match goal with |- context [bool_decide (type = ?x)] => destruct (bool_decide_reflect (type = x)) as [->|] end;
    cbn [orb]; try done;
    repeat first [destruct (negb (Socksaddr_IsValid _))|destruct u as [u|]|destruct (rcode_of_host _)];
    intros [= <-]; eexists _, _; split_and!; first [reflexivity|done|intros; by eexists].
Qed.

Lemma server_unmarshalled ctx content s :
  uc_dontUpgrade ctx = false -> fst (unmarshal_server ctx content) = Ok s -> server_fits s.
Proof.
  intros Hctx. unfold DNSServer_Unmarshal. destruct (decode_server content) as [[[type tag] csfi]|]; [|done]. cbn [fst].
  destruct (bool_decide (type = "") || bool_decide (type = DNSTypeLegacy)) eqn:Hl.
  - destruct (decode_legacy content) as [o|]; [|done]. cbn [res_bind]. rewrite bool_decide_true, Hctx by done. cbn [negb andb].
    unfold DNSServer_Upgrade. cbn [ds_Type ds_Options]. rewrite bool_decide_true by done. cbn [negb].
    destruct (upgrade_branch _ _ _ _) as [change err] eqn:Hu. destruct err; [done|]. intros [= <-].
    apply upgrade_branch_fits in Hu as (t & options & -> & Ht & Hr). done.
  - apply orb_false_iff in Hl as [_ Hl%bool_decide_eq_false].
    destruct (CreateOptions type) as [decode|] eqn:Hc; [|done]. destruct (decode content); [|done]. cbn [res_bind].
    rewrite bool_decide_false by done. cbn [andb]. intros [= <-]. split; [done|]. unfold rcode_server. cbn [ds_Type]. congruence.
Qed.

Lemma server_no_panic ctx content msg : fst (unmarshal_server ctx content) <> Panic msg.
Proof.
  unfold DNSServer_Unmarshal. destruct (decode_server content) as [[[type tag] csfi]|]; [|done]. cbn [fst].
  destruct (bool_decide (type = "") || _) eqn:Hl.
  - destruct (decode_legacy content) as [o|]; [|done]. cbn [res_bind]. destruct (_ && _); [|done].
    unfold DNSServer_Upgrade. cbn [ds_Type ds_Options]. rewrite bool_decide_true by done. cbn [negb].
    by destruct (upgrade_branch _ _ _ _) as [change [e|]].
  - apply orb_false_iff in Hl as [_ Hl%bool_decide_eq_false].
    destruct (CreateOptions type) as [decode|]; [|done]. destruct (decode content); [|done]. cbn [res_bind].
    by rewrite bool_decide_false.
Qed.

Lemma servers_unmarshalled ctx l :
  match fst (unmarshal_servers decode_server decode_legacy (Some CreateOptions) ctx l) with
  | Ok servers => Forall2 (fun content s => fst (unmarshal_server ctx content) = Ok s) l servers
  | Err _ => True
  | Panic _ => False
  end.
Proof.
  induction l as [|content l IH]; [constructor|]. simpl.
  pose proof (server_no_panic ctx content) as Hp.
  destruct (unmarshal_server ctx content) as [[s|e|msg] reports] eqn:Hs; [|done|by eapply Hp].
  destruct (unmarshal_servers _ _ _ ctx l) as [[servers|e|msg] more]; simpl in *; [|done..].
  constructor; [by rewrite Hs|done].
Qed.

(** The servers that are left, and the codes by tag. *)
Definition rcode_map_ok (servers : list DNSServer) (m m' : gmap string Z) : Prop :=
  (forall tag rcode, m' !! tag = Some rcode ->
     m !! tag = Some rcode \/ exists s, s ∈ servers /\ rcode_server s /\ ds_Tag s = tag /\ ds_Options s = ServerRcode rcode) /\
  (forall tag, is_Some (m !! tag) -> is_Some (m' !! tag)) /\
  (forall s, s ∈ servers -> rcode_server s -> is_Some (m' !! ds_Tag s)).

Lemma split_rcode_spec servers m : Forall server_fits servers ->
  exists m', split_rcode servers m = Ok (filter (fun s => ~ rcode_server s) servers, m') /\ rcode_map_ok servers m m'.
Proof.
  intros Hs. revert m. induction Hs as [|s servers [Hl Hr] Hs IH]; intros m.
  { exists m. split; [done|]. split_and!; [by left|done|]. intros s Hin. by apply elem_of_nil in Hin. }
  simpl. rewrite filter_cons. destruct (decide (ds_Type s = DNSTypeLegacyRcode)) as [Ht|Ht];
    [rewrite bool_decide_true by done|rewrite bool_decide_false by done].
  - destruct (Hr Ht) as [rcode Ho]. rewrite Ho. rewrite decide_False by (intros Hn; by apply Hn).
    destruct (IH (<[ds_Tag s := rcode]> m)) as (m' & -> & Hm1 & Hm2 & Hm3). exists m'. split; [done|]. split_and!.
    + intros tag code [Hin|(s' & ? & ? & ? & ?)]%Hm1; [|right; exists s'; set_solver].
      destruct (decide (ds_Tag s = tag)) as [<-|Hne]; [|rewrite lookup_insert_ne in Hin by done; by left].
      rewrite lookup_insert_eq in Hin. simplify_eq. right. exists s. set_solver.
    + intros tag Hin. apply Hm2. destruct (decide (ds_Tag s = tag)) as [<-|Hne]; [by rewrite lookup_insert_eq|].
      by rewrite lookup_insert_ne.
    + intros s' [->|Hin]%elem_of_cons Hc; [|by apply Hm3]. apply Hm2. by rewrite lookup_insert_eq.
  - rewrite decide_True by done. destruct (IH m) as (m' & -> & Hm1 & Hm2 & Hm3). exists m'. split; [done|]. split_and!.
    + intros tag code [?|(s' & ? & ? & ? & ?)]%Hm1; [by left|right; exists s'; set_solver].
    + done.
    + intros s' [->|Hin]%elem_of_cons Hc; [done|by apply Hm3].
Qed.

Lemma rewrite_nothing (rule : DNSRuleOptions RR) : rewriteRcode ∅ rule = rule.
Proof.
  assert (forall a : DNSRuleActionOptions RR, rewriteRcodeAction ∅ a = a) as Ha.
  { intros a. unfold rewriteRcodeAction. destruct (negb _); [done|]. by destruct (dra_Server _) as [|? []]. }
  destruct rule. simpl. rewrite !Ha. by repeat destruct (bool_decide _).
Qed.

(** What decoded options come from. *)
Definition upgraded_from (fakeip : option LegacyDNSFakeIPOptions) (content : D) (o : DNSOptions_ RR) : Prop :=
  exists contents rules decoded m,
    decode_raw content = inl (contents, rules, dn_Final o, dn_ReverseMapping o) /\
    Forall2 (fun content s => fst (unmarshal_server {| uc_dontUpgrade := false; uc_FakeIP := fakeip |} content) = Ok s) contents decoded /\
    dn_Servers o = filter (fun s => ~ rcode_server s) decoded /\
    Forall (fun s => ds_Type s <> DNSTypeLegacy /\ ds_Type s <> DNSTypeLegacyRcode) (dn_Servers o) /\
    dn_Rules o = map (rewriteRcode m) rules /\ rcode_map_ok decoded ∅ m /\ dn_FakeIP o = None.

Lemma raw_unmarshalled fakeip content :
  match fst (unmarshal_raw decode_server decode_legacy (Some CreateOptions) decode_raw
               {| uc_dontUpgrade := false; uc_FakeIP := fakeip |} None content) with
  | Panic _ => False
  | Err _ => True
  | Ok o => upgraded_from fakeip content o
  end.
Proof.
  unfold unmarshal_raw, upgraded_from. destruct (decode_raw content) as [[[[contents rules] final] reverse]|e]; [|done].
  pose proof (servers_unmarshalled {| uc_dontUpgrade := false; uc_FakeIP := fakeip |} contents) as Hs.
  destruct (unmarshal_servers _ _ _ _ contents) as [[decoded|e|msg] reports]; simpl in Hs; [|done..].
  unfold remove_rcode_servers. cbn [fst res_bind uc_dontUpgrade].
  assert (Forall server_fits decoded) as Hfit.
  { apply Forall_forall. intros s Hin. apply list_elem_of_lookup in Hin as [i Hi].
    destruct (Forall2_lookup_r _ _ _ _ _ Hs Hi) as (content' & _ & Hu). by eapply server_unmarshalled in Hu. }
  destruct (split_rcode_spec decoded ∅ Hfit) as (m & -> & Hm). cbn [res_bind].
  exists contents, rules, decoded, m. cbn [dn_Servers dn_Rules dn_Final dn_ReverseMapping dn_FakeIP].
  split_and!; try done.
  - apply Forall_forall. intros s [Hnot Hin]%list_elem_of_filter. rewrite Forall_forall in Hfit. by destruct (Hfit s Hin).
  - case_bool_decide as He; [|done]. subst m. symmetry. erewrite map_ext; [apply map_id|]. apply rewrite_nothing.
Qed.

(** No legacy server is left: options that are to be upgraded are decoded
    without a panic, and once decoded hold the servers, in order, that do not just
    answer a code, none of them legacy, and the rules, in order, each rewritten
    by one table: the code of a tag is that of a decoded server, and every such
    server has an entry. *)
Theorem options_upgraded ctx content : uc_dontUpgrade ctx = false ->
  match fst (unmarshal_options ctx content) with
  | Panic _ => False
  | Err _ => True
  | Ok o => exists fakeip, upgraded_from fakeip content o
  end.
Proof.
  intros Hctx. destruct ctx as [dont own]. simpl in Hctx. subst dont. unfold DNSOptions_Unmarshal. cbn [uc_dontUpgrade].
  assert (forall fakeip, match fst (unmarshal_raw decode_server decode_legacy (Some CreateOptions) decode_raw
               {| uc_dontUpgrade := false; uc_FakeIP := fakeip |} None content) with
    Panic _ => False | Err _ => True | Ok o => exists fakeip, upgraded_from fakeip content o end) as Hraw.
  { intros fakeip. pose proof (raw_unmarshalled fakeip content) as Hr.
    destruct (fst (unmarshal_raw _ _ _ _ _ _ _)); [by eexists|done..]. }
  destruct (decode_fakeip content) as [[f|]|e]; [|apply Hraw|done].
  destruct (lf_Enabled f); [|apply Hraw]. specialize (Hraw (Some f)). by destruct (unmarshal_raw _ _ _ _ _ _ _).
Qed.
End decoded.

(** A client subnet is a prefix length of each family. *)
Lemma client_subnet_lengths {J} decode_int (decode_both : J -> ClientSubnetFromInboundOptions + error) bytes v :
  (forall w, decode_both bytes = inl w -> 0 <= csfi_IPv4 w < 256 /\ 0 <= csfi_IPv6 w < 256) ->
  ClientSubnetFromInbound_Unmarshal decode_int decode_both bytes = inl v ->
  0 <= csfi_IPv4 v <= 32 /\ 0 <= csfi_IPv6 v <= 128.
Proof.
  intros Hb. unfold ClientSubnetFromInbound_Unmarshal. destruct (decode_int bytes) as [n|].
  - destruct (Z.ltb_spec n 0); [done|]. destruct (Z.ltb_spec 32 n); [done|]. intros [= <-]. simpl. rewrite Z.mod_small; lia.
  - destruct (decode_both bytes) as [w|e]; [|done]. specialize (Hb w eq_refl).
    destruct (Z.ltb_spec 32 (csfi_IPv4 w)); [done|]. destruct (Z.ltb_spec 128 (csfi_IPv6 w)); [done|]. intros [= <-]. lia.
Qed.

(** An address that begins with a digit is a server over UDP, whatever else it
    is: an IPv4 address with a port is not taken for a scheme. *)
Lemma digit_address_udp `{External, SniffLib, DNSServerLib} fakeip tag csfi o c s :
  lg_Address o = String c s -> is_digit c = true ->
  let '(r, server) := DNSServer_Upgrade fakeip (legacy_server tag csfi o) in
  ds_Type server = DNSTypeUDP /\ (r = Ok tt <-> Socksaddr_IsValid (ParseSocksaddr (lg_Address o)) = true).
Proof.
  intros Ha Hc. unfold DNSServer_Upgrade, legacy_server. cbn [ds_Type ds_Options]. rewrite bool_decide_true by done. cbn [negb].
  assert (has_scheme (url_Parse (lg_Address o)) = None) as Hs.
  { unfold has_scheme. destruct (url_Parse (lg_Address o)) as [u|] eqn:Hu; [|done]. rewrite Ha in Hu.
    apply url_digit_first in Hu; [|done]. by rewrite Hu. }
  assert (server_type (lg_Address o) (url_Parse (lg_Address o)) = DNSTypeUDP) as Ht.
  { unfold server_type. rewrite Hs, Ha, !bool_decide_false; [done|..]; intros [= -> _]; vm_compute in Hc; done. }
  rewrite Ht. unfold upgrade_branch. rewrite Hs. cbn.
  destruct (Socksaddr_IsValid (ParseSocksaddr (lg_Address o))); cbn; split; done.
Qed.

(** A DHCP server keeps none of the settings besides the address. *)
Lemma dhcp_settings_lost `{External, SniffLib, DNSServerLib} fakeip tag csfi o o' u :
  lg_Address o = lg_Address o' -> url_Parse (lg_Address o) = Some u -> u_Scheme u = DNSTypeDHCP ->
  DNSServer_Upgrade fakeip (legacy_server tag csfi o) = DNSServer_Upgrade fakeip (legacy_server tag csfi o').
Proof.
  intros Ha Hu Hs. unfold DNSServer_Upgrade, legacy_server. cbn [ds_Type ds_Options]. rewrite <- Ha, Hu.
  assert (server_type (lg_Address o) (Some u) = DNSTypeDHCP) as ->; [|done].
  unfold server_type, has_scheme. by rewrite bool_decide_true by (by rewrite Hs).
Qed.

(** ** Runs *)

(** Addresses are host names with or without a port. *)
Definition name_port (s : string) : Socksaddr :=
  let '(host, port) :=
    match cut_last ":"%char (chars s) with
    | Some (host, port) => (String.string_of_list_ascii host, dtoi_number (String.string_of_list_ascii (tail port)))
    | None => (s, 0)
    end in
  match netip_ParseAddr host with
  | Ok _ => SocksaddrZero
  | _ => {| sa_Addr := AddrInvalid; sa_Port := port; sa_Fqdn := host |}
  end.

Definition name_sniff : SniffLib := {|
  http_ReadRequest := @http_ReadRequest concrete_sniff; tls_Handshake := @tls_Handshake concrete_sniff;
  dns_Unpack := @dns_Unpack concrete_sniff; ParseSocksaddr := name_port; IsDomainName := @IsDomainName concrete_sniff;
  QUICClientHello_sniff := @QUICClientHello_sniff concrete_sniff |}.

(** Configurations with a name and protocols. *)
Definition name_servers : DNSServerLib := {|
  TLSOptions := unit; TLSConfig := string * list string; tls_NewClient server _ := inl (server, []);
  cfg_ServerName := fst; cfg_NextProtos := snd; cfg_SetNextProtos protos c := (fst c, protos); cfg_Config _ := None;
  RegisteredOptions := unit; Socksaddr_Text := sa_Fqdn; URLSetPath := inl |}.

Section runs.
#[local] Existing Instance concrete_external.
#[local] Existing Instance name_sniff.
#[local] Existing Instance name_servers.

#[local] Instance name_laws : DNSServerLaws.
Proof.
  split; [|done]. intros s port. unfold ParseSocksaddr. simpl. unfold name_port.
  destruct (match cut_last ":"%char (chars s) with Some _ => _ | None => _ end) as [host p].
  destruct (netip_ParseAddr host) eqn:Ha; simpl; [done|..]; intros _; unfold with_port; simpl; by rewrite Ha.
Qed.

Definition legacy_at (address : string) : LegacyDNSServerOptions :=
  {| lg_Address := address; lg_AddressResolver := "local"; lg_AddressStrategy := DomainStrategyAsIS; lg_AddressFallbackDelay := 0;
     lg_Strategy := DomainStrategyIPv4Only; lg_Detour := ""; lg_ClientSubnet := PrefixInvalid |}.

Lemma legacy_server_reached_witness :
  exists options remote tr,
    DNSServer_Upgrade None (legacy_server "google" None (legacy_at "https://dns.google:8443/query")) =
      (Ok tt, {| ds_Type := "https"; ds_Tag := "google"; ds_ClientSubnetFromInbound := None; ds_Options := options |}) /\
    remote_of options = Some remote /\
    NewTransport (O := string) linux true None false two_transports "google" "https" options = Some (inl tr) /\
    nt_serverAddr tr = {| sa_Addr := AddrInvalid; sa_Port := 8443; sa_Fqdn := "dns.google" |} /\
    ta_strategy (nt_Adapter tr) = DomainStrategyIPv4Only.
Proof.
  destruct (legacy_server_reached (O := string) linux true None false two_transports None "google" None
              (legacy_at "https://dns.google:8443/query") "https" 443 "dns.google" ":8443" "/query")
    as (options & remote & Hu & Hr & Hs & Htr).
  { unfold server_ports. do 4 right. left. }
  { reflexivity. }
  { reflexivity. }
  { right. exists "8443". split; reflexivity. }
  { right. exists "query". split; reflexivity. }
  { reflexivity. }
  exists options, remote. pose proof Hu as Hu'. cbv delta [legacy_server] in Hu'. injection Hu' as <-.
  eexists. split_and!; [exact Hu|exact Hr|reflexivity|..]; eapply Htr; reflexivity.
Defined.

(** A server whose options do not matter. *)
Definition server_at (address : string) : DNSServer := legacy_server "server" None (legacy_at address).
Definition upgraded_type (address : string) : res string :=
  let '(r, s) := DNSServer_Upgrade None (server_at address) in let* _ := r in Ok (ds_Type s).

(** A host name with a port, and an IPv6 address that begins with a letter, are
    taken for schemes; an IPv4 address with a port is not, and a host name
    without one is a server over UDP. *)
Example port_taken_for_path :
  map upgraded_type ["dns.google:53"; "fe80::1"; "1.dns.google:53"; "dns.google"; "LOCAL"; "local"; "tcp:dns.google"] =
    [Err (ErrNew "unsupported DNS server scheme: dns.google"); Err (ErrNew "unsupported DNS server scheme: fe80");
     Ok "udp"; Ok "udp"; Ok "udp"; Ok "local"; Err invalid_address].
Proof. reflexivity. Qed.

(** Servers, in JSON: the type, the tag and the legacy options. *)
Definition decode_example (j : string * string * LegacyDNSServerOptions) : string * string * option ClientSubnetFromInboundOptions + error :=
  inl (fst j, None).
Definition registry_example (type : string) : option (string * string * LegacyDNSServerOptions -> AnyServerOptions + error) :=
  if bool_decide (type = "hosts") then Some (fun _ => inl (ServerRegistered tt)) else None.

Definition no_dns_options : DNSRouteOptionsActionOptions :=
  {| dro_Strategy := DomainStrategyAsIS; dro_DisableCache := false; dro_RewriteTTL := None; dro_ClientSubnet := None;
     dro_ClientSubnetFromInbound := None |}.

Definition route_to (servers : list string) : DNSRuleActionOptions unit :=
  {| dao_Action := "route";
     dao_RouteOptions := {| dra_Server := servers; dra_FallbackDNS := []; dra_UpstreamTimeoutMS := 0; dra_FallbackTimeoutMS := 0;
                            dra_FallbackGraceMS := 0; dra_Options := no_dns_options |};
     dao_RouteOptionsOptions := no_dns_options; dao_RejectOptions := {| ro_Method := ""; ro_NoDrop := false |};
     dao_PredefinedOptions := {| po_Rcode := None; po_Answer := []; po_Ns := []; po_Extra := [] |} |}.

Definition blocked_rcodes : gmap string Z := {["block" := RcodeRefused]}.

(** A rule that goes to a removed server answers its code; one that names it
    beside another, or as its fallback, still names it. *)
Example rcode_named_beside :
  let rewritten servers := let a := rewriteRcodeAction blocked_rcodes (route_to servers) in
                           (dao_Action a, po_Rcode (dao_PredefinedOptions a), dra_Server (dao_RouteOptions a)) in
  rewritten ["block"] = ("predefined", Some 5, ["block"]) /\
  rewritten ["block"; "google"] = ("route", None, ["block"; "google"]).
Proof. done. Qed.

(** The host of the destination of an IPv6 server on the default port has no brackets. *)
Example ipv6_host_unbracketed :
  let at_port port := {| hs_TLS := {| tl_Remote := upgraded_remote (legacy_at "") {| sv_Server := "2001:db8::1"; sv_ServerPort := port |};
                                      tl_TLS := None |}; hs_Path := ""; hs_Method := ""; hs_Headers := [] |} in
  fst (https_host (at_port 0) ("2001:db8::1", [])) = "2001:db8::1" /\
  fst (https_host (at_port 8443) ("2001:db8::1", [])) = "[2001:db8::1]:8443".
Proof. done. Qed.

Definition example_servers : list (string * string * LegacyDNSServerOptions) :=
  [("", "google", legacy_at "tls://dns.google"); ("legacy", "block", legacy_at "rcode://refused"); ("hosts", "hosts", legacy_at "")].

Definition example_content (content : unit) : list (string * string * LegacyDNSServerOptions) * list (DNSRuleOptions unit) * string * bool + error :=
  inl (example_servers, [], "google", true).

Lemma options_upgraded_witness :
  exists o, fst (DNSOptions_Unmarshal decode_example (fun j => inl (snd j)) (Some registry_example) (fun _ => inl None) example_content
                   {| uc_dontUpgrade := false; uc_FakeIP := None |} ()) = Ok o /\
    map ds_Tag (dn_Servers o) = ["google"; "hosts"] /\
    exists fakeip, upgraded_from (RR := unit) decode_example (fun j => inl (snd j)) registry_example example_content fakeip () o.
Proof.
  pose proof (options_upgraded decode_example (fun j => inl (snd j)) registry_example (fun _ => inl None) example_content
                eq_refl {| uc_dontUpgrade := false; uc_FakeIP := None |} () eq_refl) as Hup.
  destruct (fst (DNSOptions_Unmarshal _ _ _ _ _ _ _)) as [o|e|msg] eqn:Ho; [|discriminate Ho|done].
  exists o. split; [done|]. split; [|exact Hup]. injection Ho as <-. reflexivity.
Defined.
End runs.
