(* ===== verification/OptionJson.v ===== *)
(** * Options in JSON

    option/types.go, tun.go, inbound.go, outbound.go, udp_over_tcp.go,
    dns_record.go, platform.go, shadowtls.go, certificate.go, resolved.go and
    tailscale.go: the options with a form of their own, how they are written and
    read; option/options.go: the check of the tags.  A JSON document is a value
    of [json]; names of fields are compared exactly, and numbers are integers. *)

From stdpp Require Import base list sets strings gmap pretty.
From Stdlib Require Import ZArith Lia Ascii.
From S2P Require Import Prelude GoStd External Adapter RuleAction DnsMsg StringFacts Version Dialer.

Open Scope Z_scope.
Open Scope box_scope.

(** ** Values *)

Inductive json : Type :=
  | JNull
  | JBool (b : bool)
  | JNumber (n : Z)
  | JString (s : string)
  | JArray (l : list json)
  | JObject (fields : list (string * json)).

Definition ErrJson : error := ErrNew "json: cannot unmarshal".

(** [json.Unmarshal] into a fresh variable; null leaves it at its zero. *)
Definition json_string (j : json) : string + error :=
  match j with JString s => inl s | JNull => inl "" | _ => inr ErrJson end.
Definition json_bool (j : json) : bool + error :=
  match j with JBool b => inl b | JNull => inl false | _ => inr ErrJson end.
Definition json_range (lo hi : Z) (j : json) : Z + error :=
  match j with
  | JNumber n => if (lo <=? n) && (n <=? hi) then inl n else inr ErrJson
  | JNull => inl 0
  | _ => inr ErrJson
  end.
Definition json_uint8 : json -> Z + error := json_range 0 (2 ^ 8 - 1).
Definition json_uint16 : json -> Z + error := json_range 0 (2 ^ 16 - 1).
Definition json_uint32 : json -> Z + error := json_range 0 (2 ^ 32 - 1).
Definition json_int64 : json -> Z + error := json_range (- 2 ^ 63) (2 ^ 63 - 1).

Fixpoint json_elements {A} (decode : json -> A + error) (l : list json) : list A + error :=
  match l with
  | [] => inl []
  | j :: l =>
      match decode j, json_elements decode l with
      | inl a, inl r => inl (a :: r)
      | inr e, _ | _, inr e => inr e
      end
  end.
Definition json_strings (j : json) : list string + error :=
  match j with JArray l => json_elements json_string l | JNull => inl [] | _ => inr ErrJson end.

(** The field of an object: the last one of the name, the zero without one; null
    is the object without fields. *)
Definition field (name : string) (fields : list (string * json)) : option json :=
  snd <$> find (fun f => bool_decide (fst f = name)) (reverse fields).
Definition field_or {A} (zero : A) (decode : json -> A + error) (name : string) (fields : list (string * json)) : A + error :=
  match field name fields with Some j => decode j | None => inl zero end.
Definition json_fields (j : json) : list (string * json) + error :=
  match j with JObject fields => inl fields | JNull => inl [] | _ => inr ErrJson end.

(** A pointer: null is nil. *)
Definition json_pointer {A} (decode : json -> A + error) (j : json) : option A + error :=
  match j with JNull => inl None | _ => match decode j with inl a => inl (Some a) | inr e => inr e end end.

(** [omitempty] *)
Definition omit_empty {A} (zero : A) `{EqDecision A} (encode : A -> json) (name : string) (a : A) : list (string * json) :=
  if bool_decide (a = zero) then [] else [(name, encode a)].

(** ** Names *)

Fixpoint name_of {A} `{EqDecision A} (names : list (A * string)) (a : A) : option string :=
  match names with
  | [] => None
  | (b, s) :: names => if bool_decide (a = b) then Some s else name_of names a
  end.
Fixpoint named {A} (names : list (A * string)) (s : string) : option A :=
  match names with
  | [] => None
  | (b, s') :: names => if bool_decide (s = s') then Some b else named names s
  end.

Lemma named_name_of {A} `{EqDecision A} (names : list (A * string)) a s :
  NoDup (map snd names) -> name_of names a = Some s -> named names s = Some a.
Proof.
  induction names as [|[b s'] names IH]; simpl; [done|]. rewrite NoDup_cons. intros [Hn Hnd].
  destruct (bool_decide_reflect (a = b)) as [->|Hab]; [intros [= ->]; by rewrite bool_decide_true|].
  intros Ha. rewrite bool_decide_false; [by apply IH|]. intros ->. apply Hn. clear - Ha.
  induction names as [|[c s] names IH]; simpl in *; [done|].
  destruct (bool_decide _); simplify_eq; [left|right; by apply IH].
Qed.

(** ** Networks *)

Definition NetworkTCP : string := "tcp".
Definition NetworkUDP : string := "udp".
Definition newline : string := String (ascii_of_nat 10) "".

Definition known_network (networkName : string) : bool :=
  bool_decide (networkName = NetworkTCP) || bool_decide (networkName = NetworkUDP).

(** The string of [NetworkList]; the error names the first that is unknown. *)
Definition NetworkList_Unmarshal (content : json) : string + error :=
  match match json_strings content with
        | inl networkList => inl networkList
        | inr _ => match json_string content with inl networkItem => inl [networkItem] | inr e => inr e end
        end with
  | inr e => inr e
  | inl networkList =>
      match find (fun networkName => negb (known_network networkName)) networkList with
      | Some networkName => inr (ErrNew ("unknown network: " +:+ networkName))
      | None => inl (strings_Join networkList newline)
      end
  end.

Definition NetworkList_Build (v : string) : list string :=
  if bool_decide (v = "") then [NetworkTCP; NetworkUDP] else strings_Split v (ascii_of_nat 10).

(** A string type without a form of its own. *)
Definition NetworkList_Marshal (v : string) : json := JString v.

(** ** Strategies, types and codes *)

Definition DomainStrategy_Marshal (s : DomainStrategy) : json := JString (DomainStrategy_String s).

Definition DomainStrategy_Unmarshal (bytes : json) : DomainStrategy + error :=
  match json_string bytes with
  | inr e => inr e
  | inl value =>
      if bool_decide (value = "") || bool_decide (value = "as_is") then inl DomainStrategyAsIS
      else if bool_decide (value = "prefer_ipv4") then inl DomainStrategyPreferIPv4
      else if bool_decide (value = "prefer_ipv6") then inl DomainStrategyPreferIPv6
      else if bool_decide (value = "ipv4_only") then inl DomainStrategyIPv4Only
      else if bool_decide (value = "ipv6_only") then inl DomainStrategyIPv6Only
      else inr (ErrNew ("unknown domain strategy: " +:+ value))
  end.

Definition networkStrategyToString : list (NetworkStrategy * string) :=
  [(NetworkStrategyDefault, "default"); (NetworkStrategyFallback, "fallback"); (NetworkStrategyHybrid, "hybrid")].

Definition NetworkStrategy_Marshal (n : NetworkStrategy) : json := JString (NetworkStrategy_String n).
Definition NetworkStrategy_Unmarshal (content : json) : NetworkStrategy + error :=
  match json_string content with
  | inr e => inr e
  | inl value =>
      match named networkStrategyToString value with
      | None => inr (ErrNew ("unknown network strategy: " +:+ value))
      | Some strategy => inl strategy
      end
  end.

Definition interfaceTypeToString : list (InterfaceType * string) :=
  [(InterfaceTypeWIFI, "wifi"); (InterfaceTypeCellular, "cellular"); (InterfaceTypeEthernet, "ethernet"); (InterfaceTypeOther, "other")].

Definition InterfaceType_Marshal (t : InterfaceType) : json := JString (InterfaceType_String t).
Definition InterfaceType_Unmarshal (content : json) : InterfaceType + error :=
  match json_string content with
  | inr e => inr e
  | inl value =>
      match named interfaceTypeToString value with
      | None => inr (ErrNew ("unknown interface type: " +:+ value))
      | Some interfaceType => inl interfaceType
      end
  end.

Section dns_names.
(** The tables of miekg/dns: [TypeToString] with [StringToType], [RcodeToString]
    with [StringToRcode]; the text of a value in an error. *)
Context (TypeToString : Z -> option string) (StringToType : string -> option Z)
  (RcodeToString : Z -> option string) (StringToRcode : string -> option Z) (json_text : json -> string).

Definition DNSQueryType_Marshal (t : Z) : json :=
  match TypeToString t with Some typeName => JString typeName | None => JNumber t end.

(** [String] and [DNSQueryTypeToString] *)
Definition DNSQueryType_String (t : Z) : string :=
  match TypeToString t with Some typeName => typeName | None => go_itoa t end.

Definition DNSQueryType_Unmarshal (bytes : json) : Z + error :=
  match json_uint16 bytes with
  | inl valueNumber => inl valueNumber
  | inr _ =>
      match json_string bytes with
      | inl valueString =>
          match StringToType valueString with
          | Some queryType => inl queryType
          | None => inr (ErrNew ("unknown DNS query type: " +:+ json_text bytes))
          end
      | inr _ => inr (ErrNew ("unknown DNS query type: " +:+ json_text bytes))
      end
  end.

Definition DNSRCode_Marshal (r : Z) : json :=
  match RcodeToString r with Some rCodeValue => JString rCodeValue | None => JNumber r end.

Definition DNSRCode_Unmarshal (bytes : json) : Z + error :=
  match json_int64 bytes with
  | inl intValue => inl intValue
  | inr _ =>
      match json_string bytes with
      | inr e => inr e
      | inl stringValue =>
          match StringToRcode stringValue with
          | None => inr (ErrNew ("unknown rcode: " +:+ stringValue))
          | Some rCodeValue => inl rCodeValue
          end
      end
  end.

Definition DNSRCode_Build (r : option Z) : Z := default RcodeSuccess r.
End dns_names.

(** [OnDemandRuleAction] and [OnDemandRuleInterfaceType]; a nil pointer is
    written as nothing. *)
Definition on_demand_written : list (Z * string) := [(1, "connect"); (2, "disconnect"); (3, "evaluate_connection")].
Definition OnDemandRuleAction_Marshal (r : Z) : json + error :=
  match name_of on_demand_written r with
  | Some actionName => inl (JString actionName)
  | None => inr (ErrNew ("unknown action: " +:+ go_itoa r))
  end.
Definition on_demand_read : list (Z * string) := on_demand_written ++ [(4, "ignore")].
Definition OnDemandRuleAction_Unmarshal (bytes : json) : Z + error :=
  match json_string bytes with
  | inr e => inr e
  | inl actionName =>
      match named on_demand_read actionName with
      | Some actionValue => inl actionValue
      | None => inr (ErrNew ("unknown action name: " +:+ actionName))
      end
  end.

Definition on_demand_interfaces : list (Z * string) := [(1, "any"); (2, "wifi"); (3, "cellular")].
Definition OnDemandRuleInterfaceType_Marshal (r : Z) : json + error :=
  match name_of on_demand_interfaces r with
  | Some interfaceTypeName => inl (JString interfaceTypeName)
  | None => inr (ErrNew ("unknown interface type: " +:+ go_itoa r))
  end.
Definition OnDemandRuleInterfaceType_Unmarshal (bytes : json) : Z + error :=
  match json_string bytes with
  | inr e => inr e
  | inl interfaceTypeName =>
      match named on_demand_interfaces interfaceTypeName with
      | Some interfaceTypeValue => inl interfaceTypeValue
      | None => inr (ErrNew ("unknown interface type name: " +:+ interfaceTypeName))
      end
  end.

Inductive WildcardSNI : Type := ShadowTLSWildcardSNIOff | ShadowTLSWildcardSNIAuthed | ShadowTLSWildcardSNIAll.

Definition WildcardSNI_String (w : WildcardSNI) : string :=
  match w with
  | ShadowTLSWildcardSNIOff => "off"
  | ShadowTLSWildcardSNIAuthed => "authed"
  | ShadowTLSWildcardSNIAll => "all"
  end.
Definition WildcardSNI_Marshal (w : WildcardSNI) : json := JString (WildcardSNI_String w).
Definition WildcardSNI_Unmarshal (bytes : json) : WildcardSNI + error :=
  match json_string bytes with
  | inr e => inr e
  | inl valueString =>
      if bool_decide (valueString = "off") || bool_decide (valueString = "") then inl ShadowTLSWildcardSNIOff
      else if bool_decide (valueString = "authed") then inl ShadowTLSWildcardSNIAuthed
      else if bool_decide (valueString = "all") then inl ShadowTLSWildcardSNIAll
      else inr (ErrNew ("unknown wildcard SNI value: " +:+ valueString))
  end.

(** ** Marks *)

Definition lower_hex (n : Z) : ascii := ascii_of_nat (Z.to_nat (if n <? 10 then 48 + n else 87 + n)).

(** [strconv.FormatUint] in base 16, for numbers with at most [fuel] digits. *)
Fixpoint hex_digits (fuel : nat) (n : Z) : list ascii :=
  match fuel with
  | O => []
  | S fuel => (if n <? 16 then [] else hex_digits fuel (n / 16)) ++ [lower_hex (n mod 16)]
  end.
Definition FormatUint16 (n : Z) : string := String.string_of_list_ascii (hex_digits 16 n).

(** [strconv.ParseUint] in base 0. *)
Definition letter_digit (c : ascii) : option Z :=
  match digit_value c with
  | Some d => Some d
  | None => let b := byte_of (lower_byte c) in if (97 <=? b) && (b <=? 122) then Some (b - 87) else None
  end.

Definition ErrSyntax : error := ErrNew "invalid syntax".
Definition ErrRange : error := ErrNew "value out of range".

Fixpoint parse_base (base maxVal : Z) (l : list ascii) (n : Z) (underscores : bool) : Z * bool + error :=
  match l with
  | [] => inl (n, underscores)
  | c :: l =>
      if bool_decide (c = "_"%char) then parse_base base maxVal l n true
      else
        match letter_digit c with
        | None => inr ErrSyntax
        | Some d =>
            if base <=? d then inr ErrSyntax
            else if maxVal <? n * base + d then inr ErrRange
            else parse_base base maxVal l (n * base + d) underscores
        end
  end.

(** [underscoreOK]: what was seen last is a digit, an underscore or neither. *)
Inductive last_seen : Type := SeenNothing | SeenDigit | SeenUnderscore.

Fixpoint underscores_ok (hex : bool) (l : list ascii) (seen : last_seen) : bool :=
  match l with
  | [] => match seen with SeenUnderscore => false | _ => true end
  | c :: l =>
      let b := byte_of (lower_byte c) in
      if is_some (digit_value c) || (hex && (97 <=? b) && (b <=? 102)) then underscores_ok hex l SeenDigit
      else if bool_decide (c = "_"%char) then
        match seen with SeenDigit => underscores_ok hex l SeenUnderscore | _ => false end
      else match seen with SeenUnderscore => false | _ => underscores_ok hex l SeenNothing end
  end.

Definition base_prefix (l : list ascii) : option (Z * list ascii) :=
  match l with
  | "0"%char :: c :: rest =>
      let b := byte_of (lower_byte c) in
      if b =? 98 then Some (2, rest) else if b =? 111 then Some (8, rest) else if b =? 120 then Some (16, rest) else None
  | _ => None
  end.

Definition underscoreOK (l : list ascii) : bool :=
  let l := match l with c :: r => if bool_decide (c = "-"%char) || bool_decide (c = "+"%char) then r else l | [] => l end in
  match base_prefix l with
  | Some (base, rest) => underscores_ok (base =? 16) rest SeenDigit
  | None => underscores_ok false l SeenNothing
  end.

Definition ParseUint0 (s : string) (bits : Z) : Z + error :=
  let l := chars s in
  match l with
  | [] => inr ErrSyntax
  | c :: r =>
      let '(base, digits) :=
        match base_prefix l with
        | Some (base, x :: rest) => (base, x :: rest)
        | _ => if bool_decide (c = "0"%char) then (8, r) else (10, l)
        end in
      match parse_base base (2 ^ bits - 1) digits 0 false with
      | inr e => inr e
      | inl (n, underscores) => if underscores && negb (underscoreOK l) then inr ErrSyntax else inl n
      end
  end.

Definition FwMark_Marshal (f : Z) : json := JString ("0x" +:+ FormatUint16 f).
Definition FwMark_Unmarshal (bytes : json) : Z + error :=
  match json_string bytes with
  | inr err => match json_uint32 bytes with inl f => inl f | inr _ => inr (ErrCause err "invalid number or string mark") end
  | inl stringValue => ParseUint0 stringValue 32
  end.

(** ** Times *)

Section timeouts.
(** [badoption.Duration] reads what [time.Duration.String] prints. *)
Context (Duration_String : Z -> string) (Duration_Unmarshal : json -> Z + error).

(** A number is in seconds, in 64 bits. *)
Definition UDPTimeoutCompat_Marshal (c : Z) : json := JString (Duration_String c).
Definition UDPTimeoutCompat_Unmarshal (data : json) : Z + error :=
  match json_int64 data with
  | inl valueNumber => inl (to_int64 (Second * valueNumber))
  | inr _ => Duration_Unmarshal data
  end.
End timeouts.

(** ** A value or an object *)

Section compact.
(** [badoption.Prefixable]; no prefix is nil. *)
Context (Prefix_Marshal : Prefix -> json) (Prefix_Unmarshal : json -> Prefix + error).

Definition DomainResolveOptions_fields (o : DomainResolveOptions) : list (string * json) :=
  [("server", JString (drs_Server o))] ++
  omit_empty DomainStrategyAsIS DomainStrategy_Marshal "strategy" (drs_Strategy o) ++
  omit_empty false JBool "disable_cache" (drs_DisableCache o) ++
  match drs_RewriteTTL o with Some ttl => [("rewrite_ttl", JNumber ttl)] | None => [] end ++
  omit_empty PrefixInvalid Prefix_Marshal "client_subnet" (drs_ClientSubnet o).

Definition DomainResolveOptions_Marshal (o : DomainResolveOptions) : json :=
  if bool_decide (drs_Server o = "") then JObject []
  else if bool_decide (drs_Strategy o = DomainStrategyAsIS) && negb (drs_DisableCache o) && bool_decide (drs_RewriteTTL o = None) &&
          bool_decide (drs_ClientSubnet o = PrefixInvalid) then JString (drs_Server o)
  else JObject (DomainResolveOptions_fields o).

Definition only_server (server : string) : DomainResolveOptions :=
  {| drs_Server := server; drs_Strategy := DomainStrategyAsIS; drs_DisableCache := false; drs_RewriteTTL := None;
     drs_ClientSubnet := PrefixInvalid |}.

Definition DomainResolveOptions_decode (fields : list (string * json)) : DomainResolveOptions + error :=
  match field_or "" json_string "server" fields, field_or DomainStrategyAsIS DomainStrategy_Unmarshal "strategy" fields,
        field_or false json_bool "disable_cache" fields, field_or None (json_pointer json_uint32) "rewrite_ttl" fields,
        field_or None (json_pointer Prefix_Unmarshal) "client_subnet" fields with
  | inl server, inl strategy, inl disableCache, inl rewriteTTL, inl clientSubnet =>
      inl {| drs_Server := server; drs_Strategy := strategy; drs_DisableCache := disableCache; drs_RewriteTTL := rewriteTTL;
             drs_ClientSubnet := default PrefixInvalid clientSubnet |}
  | inr e, _, _, _, _ | _, inr e, _, _, _ | _, _, inr e, _, _ | _, _, _, inr e, _ | _, _, _, _, inr e => inr e
  end.

Definition DomainResolveOptions_Unmarshal (bytes : json) : DomainResolveOptions + error :=
  match json_string bytes with
  | inl stringValue => inl (only_server stringValue)
  | inr _ =>
      match json_fields bytes with
      | inr e => inr e
      | inl fields =>
          match DomainResolveOptions_decode fields with
          | inr e => inr e
          | inl o => if bool_decide (drs_Server o = "") then inr (ErrNew "empty domain_resolver.server") else inl o
          end
      end
  end.
End compact.

Record UDPOverTCPOptions : Type := { uot_Enabled : bool; uot_Version : Z }.

(** [uot.Version] of sing is 2. *)
Definition uot_current : Z := 2.

Definition UDPOverTCPOptions_Marshal (o : UDPOverTCPOptions) : json :=
  if (uot_Version o =? 0) || (uot_Version o =? uot_current) then JBool (uot_Enabled o)
  else JObject (omit_empty false JBool "enabled" (uot_Enabled o) ++ omit_empty 0 JNumber "version" (uot_Version o)).

Definition UDPOverTCPOptions_Unmarshal (bytes : json) : UDPOverTCPOptions + error :=
  match json_bool bytes with
  | inl enabled => inl {| uot_Enabled := enabled; uot_Version := 0 |}
  | inr _ =>
      match json_fields bytes with
      | inr e => inr e
      | inl fields =>
          match find (fun f => negb (bool_decide (fst f ∈ ["enabled"; "version"]))) fields with
          | Some f => inr (ErrNew ("json: unknown field " +:+ fst f))
          | None =>
              match field_or false json_bool "enabled" fields, field_or 0 json_uint8 "version" fields with
              | inl enabled, inl version => inl {| uot_Enabled := enabled; uot_Version := version |}
              | inr e, _ | _, inr e => inr e
              end
          end
      end
  end.

(** The store of certificates: the system's has no name when it is written. *)
Definition CertificateStoreSystem : string := "system".
Definition written_store (store : string) : string := if bool_decide (store = CertificateStoreSystem) then "" else store.
Definition read_store (store : string) : string := if bool_decide (store = "") then CertificateStoreSystem else store.

Section listen.
(** [ListenOptions]: its fields, its address and its port. *)
Context {L : Type} `{EqDecision L} (Listen : L -> option Addr) (ListenPort : L -> Z) (set_Listen : option Addr -> L -> L)
  (set_ListenPort : Z -> L -> L) (no_listen : L) (listen_fields : L -> list (string * json))
  (listen_decode : list (string * json) -> L + error).

Definition resolved_address : Addr := Addr4 (127 * 2 ^ 24 + 53).

Definition ResolvedServiceOptions_Marshal (r : L) : json :=
  let r := if bool_decide (Listen r = Some resolved_address) then set_Listen None r else r in
  let r := if ListenPort r =? 53 then set_ListenPort 0 r else r in
  JObject (listen_fields r).

Definition ResolvedServiceOptions_Unmarshal (bytes : json) : L + error :=
  match json_fields bytes with
  | inr e => inr e
  | inl fields =>
      match listen_decode fields with
      | inr e => inr e
      | inl r =>
          let r := if bool_decide (Listen r = None) then set_Listen (Some resolved_address) r else r in
          inl (if ListenPort r =? 0 then set_ListenPort 53 r else r)
      end
  end.

Record DERPSTUNListenOptions : Type := { stun_Enabled : bool; stun_Listen : L }.

(** The field [Enabled] has no name of its own. *)
Definition DERPSTUNListenOptions_Marshal (d : DERPSTUNListenOptions) : json :=
  if bool_decide (stun_Listen d = set_ListenPort (ListenPort (stun_Listen d)) no_listen) then JBool (stun_Enabled d)
  else JObject (("Enabled", JBool (stun_Enabled d)) :: listen_fields (stun_Listen d)).

Definition DERPSTUNListenOptions_Unmarshal (bytes : json) : DERPSTUNListenOptions + error :=
  match json_uint16 bytes with
  | inl portValue => inl {| stun_Enabled := true; stun_Listen := set_ListenPort portValue no_listen |}
  | inr _ =>
      match json_fields bytes with
      | inr e => inr e
      | inl fields =>
          match field_or false json_bool "Enabled" fields, listen_decode fields with
          | inl enabled, inl listen => inl {| stun_Enabled := enabled; stun_Listen := listen |}
          | inr e, _ | _, inr e => inr e
          end
      end
  end.
End listen.

(** ** Tags *)

(** The tag of an element, its index without one. *)
Definition tag_or_index (i : nat) (tag : string) : string := if bool_decide (tag = "") then go_itoa (Z.of_nat i) else tag.

Fixpoint check_tags (what : string) (i : nat) (tags : list string) (seen : gset string) : gset string + error :=
  match tags with
  | [] => inl seen
  | tag :: tags =>
      let tag := tag_or_index i tag in
      if bool_decide (tag ∈ seen) then inr (ErrNew ("duplicate " +:+ what +:+ " tag: " +:+ tag))
      else check_tags what (S i) tags ({[tag]} ∪ seen)
  end.

Definition checkInbounds (inbounds : list string) : option error :=
  match check_tags "inbound" 0 inbounds ∅ with inl _ => None | inr e => Some e end.

(** Outbounds and endpoints share their tags, and each list counts from zero. *)
Definition checkOutbounds (outbounds endpoints : list string) : option error :=
  match check_tags "outbound/endpoint" 0 outbounds ∅ with
  | inr e => Some e
  | inl seen => match check_tags "outbound/endpoint" 0 endpoints seen with inl _ => None | inr e => Some e end
  end.

Definition checkOptions (inbounds outbounds endpoints : list string) : option error :=
  match checkInbounds inbounds with Some e => Some e | None => checkOutbounds outbounds endpoints end.

(** ** Reading back what was written *)

(** *** Networks *)

Lemma newline_absent s : known_network s = true -> ascii_of_nat 10 ∉ chars s.
Proof.
  unfold known_network. rewrite orb_true_iff, !bool_decide_eq_true.
  intros [->| ->]; vm_compute; intros Hin; repeat (apply elem_of_cons in Hin as [[=]|Hin]); by apply elem_of_nil in Hin.
Qed.

Lemma Split_Join l : l <> [] -> forallb known_network l = true -> strings_Split (strings_Join l newline) (ascii_of_nat 10) = l.
Proof.
  induction l as [|s l IH]; [done|]. intros _. cbn [forallb]. rewrite andb_true_iff. intros [Hs Hl]. apply newline_absent in Hs.
  destruct l as [|s' l]; [by apply Split_absent|].
  change (strings_Join (s :: s' :: l) newline) with (s +:+ String (ascii_of_nat 10) (strings_Join (s' :: l) newline)).
  by rewrite Split_first, IH by done.
Qed.

Lemma find_none_forallb {A} (f : A -> bool) l : find (fun x => negb (f x)) l = None -> forallb f l = true.
Proof. induction l as [|x l IH]; [done|]. simpl. by destruct (f x). Qed.

Lemma Join_nonempty s l : known_network s = true -> strings_Join (s :: l) newline <> "".
Proof.
  unfold known_network. rewrite orb_true_iff, !bool_decide_eq_true. by intros [->| ->]; destruct l.
Qed.

(** A network list is what was asked for: a list that is read allows known
    networks only, and at least one: exactly those that were written, in their
    order, or both when none was. *)
Theorem network_list_built content v : NetworkList_Unmarshal content = inl v ->
  forallb known_network (NetworkList_Build v) = true /\
  ((json_strings content = inl [] \/ json_strings content = inl (NetworkList_Build v)) \/
   (exists e, json_strings content = inr e) /\ json_string content = inl v /\ NetworkList_Build v = [v]) /\
  (json_strings content = inl [] -> NetworkList_Build v = [NetworkTCP; NetworkUDP]).
Proof.
  unfold NetworkList_Unmarshal.
  destruct (json_strings content) as [l|e] eqn:Hl.
  - destruct (find _ l) eqn:Hf; [done|]. intros [= <-]. apply find_none_forallb in Hf.
    destruct l as [|s l]; [split_and!; [done|by left; left|done]|].
    unfold NetworkList_Build. rewrite bool_decide_false
      by (apply Join_nonempty; simpl in Hf; by apply andb_true_iff in Hf as [? _]).
    rewrite Split_Join by done. split_and!; [done|left; by right|done].
  - destruct (json_string content) as [s|e'] eqn:Hs; [|done]. destruct (find _ [s]) eqn:Hf; [done|]. intros [= <-].
    apply find_none_forallb in Hf. pose proof Hf as Hk. simpl in Hk. rewrite andb_true_r in Hk.
    change (strings_Join [s] newline) with s.
    assert (NetworkList_Build s = [s]) as Hb.
    { unfold NetworkList_Build. rewrite bool_decide_false; [by apply Split_absent, newline_absent|]. by intros ->. }
    rewrite Hb. split_and!; [done|right; eauto|done].
Qed.

(** What is written for a list of two cannot be read. *)
Lemma two_networks_unreadable a b : known_network a = true -> known_network b = true ->
  NetworkList_Unmarshal (JArray [JString a; JString b]) = inl (strings_Join [a; b] newline) /\
  NetworkList_Unmarshal (NetworkList_Marshal (strings_Join [a; b] newline)) = inr (ErrNew ("unknown network: " +:+ strings_Join [a; b] newline)).
Proof.
  unfold known_network. rewrite !orb_true_iff, !bool_decide_eq_true. by intros [->| ->] [->| ->].
Qed.

(** *** Names *)

(** Names are read back: every strategy, known type of interface and SNI
    setting is read from the name it is written as. *)
Theorem names_read_back :
  (forall s, DomainStrategy_Unmarshal (DomainStrategy_Marshal s) = inl s) /\
  (forall n, NetworkStrategy_Unmarshal (NetworkStrategy_Marshal n) = inl n) /\
  (forall t, (forall n, t <> InterfaceTypeUnknown n) -> InterfaceType_Unmarshal (InterfaceType_Marshal t) = inl t) /\
  (forall w, WildcardSNI_Unmarshal (WildcardSNI_Marshal w) = inl w).
Proof. split_and!; [by intros []..| |by intros []]. intros [] Ht; try done. by destruct (Ht t). Qed.

Lemma on_demand_read_back r j : OnDemandRuleAction_Marshal r = inl j -> OnDemandRuleAction_Unmarshal j = inl r.
Proof.
  unfold OnDemandRuleAction_Marshal. destruct (name_of on_demand_written r) eqn:Hn; [|done]. intros [= <-].
  unfold OnDemandRuleAction_Unmarshal. cbn [json_string]. unfold on_demand_written in Hn. simpl in Hn.
  repeat (case_bool_decide; [by simplify_eq|]). done.
Qed.

(** An action that is read and never written. *)
Example ignore_unwritten :
  OnDemandRuleAction_Unmarshal (JString "ignore") = inl 4 /\ OnDemandRuleAction_Marshal 4 = inr (ErrNew "unknown action: 4").
Proof. done. Qed.

Section dns_laws.
Context (TypeToString : Z -> option string) (StringToType : string -> option Z)
  (RcodeToString : Z -> option string) (StringToRcode : string -> option Z) (json_text : json -> string)
  (StringToType_of : forall t s, TypeToString t = Some s -> StringToType s = Some t)
  (StringToRcode_of : forall r s, RcodeToString r = Some s -> StringToRcode s = Some r).

(** Query types and codes are read back: a type and a code are read from
    their name, or from their number without one. *)
Theorem dns_names_read_back t r : 0 <= t < 2 ^ 16 -> - 2 ^ 63 <= r < 2 ^ 63 ->
  DNSQueryType_Unmarshal StringToType json_text (DNSQueryType_Marshal TypeToString t) = inl t /\
  DNSRCode_Unmarshal StringToRcode (DNSRCode_Marshal RcodeToString r) = inl r.
Proof.
  intros Ht Hr. unfold DNSQueryType_Marshal, DNSQueryType_Unmarshal, DNSRCode_Marshal, DNSRCode_Unmarshal. split.
  - destruct (TypeToString t) as [s|] eqn:Hs; simpl; [by rewrite (StringToType_of t s)|].
    unfold json_uint16, json_range. by rewrite (proj2 (Z.leb_le 0 t)), (proj2 (Z.leb_le t (2 ^ 16 - 1))) by lia.
  - destruct (RcodeToString r) as [s|] eqn:Hs; simpl; [by rewrite (StringToRcode_of r s)|].
    unfold json_int64, json_range. by rewrite (proj2 (Z.leb_le (- 2 ^ 63) r)), (proj2 (Z.leb_le r (2 ^ 63 - 1))) by lia.
Qed.
End dns_laws.

(** *** Marks *)

Lemma letter_digit_hex d : 0 <= d < 16 -> letter_digit (lower_hex d) = Some d /\ lower_hex d <> "_"%char.
Proof.
  intros Hd. assert (d ∈ seqZ 0 16) as Hin by (apply elem_of_seqZ; lia). revert Hin.
  vm_compute (seqZ 0 16). rewrite !elem_of_cons, elem_of_nil. intros Hin.
  repeat destruct Hin as [->|Hin]; done.
Qed.

Lemma parse_base_hex maxVal d l n u : 0 <= d < 16 -> 0 <= n -> n * 16 + d <= maxVal ->
  parse_base 16 maxVal (lower_hex d :: l) n u = parse_base 16 maxVal l (n * 16 + d) u.
Proof.
  intros Hd Hn Hmax. destruct (letter_digit_hex d Hd) as [Hl Hu]. cbn [parse_base].
  rewrite bool_decide_false by done. rewrite Hl. rewrite (proj2 (Z.leb_gt 16 d)), (proj2 (Z.ltb_ge maxVal (n * 16 + d))) by lia. done.
Qed.

Lemma parse_hex_digits maxVal fuel n rest : 0 <= n < 16 ^ Z.of_nat fuel -> n <= maxVal -> (0 < fuel)%nat ->
  parse_base 16 maxVal (hex_digits fuel n ++ rest) 0 false = parse_base 16 maxVal rest n false.
Proof.
  revert n rest. induction fuel as [|fuel IH]; [lia|]. intros n rest Hn Hmax _. cbn [hex_digits].
  rewrite <- app_assoc. pose proof (Z.div_mod n 16) as Hdm. pose proof (Z.mod_pos_bound n 16) as Hm.
  rewrite Nat2Z.inj_succ, Z.pow_succ_r in Hn by lia.
  destruct (Z.ltb_spec n 16) as [Hlt|Hge].
  - cbn [app]. rewrite parse_base_hex by lia. f_equal. rewrite Z.mod_small by lia. lia.
  - assert (0 < fuel)%nat by (destruct fuel; [simpl in Hn; lia|lia]).
    rewrite IH; [|split; [apply Z.div_pos; lia|apply Z.div_lt_upper_bound; lia]|pose proof (Z.div_le_upper_bound n 16 n); lia|done].
    cbn [app]. rewrite parse_base_hex; [|lia|apply Z.div_pos; lia|lia]. f_equal. lia.
Qed.

Lemma hex_digits_nonempty fuel n : (0 < fuel)%nat -> hex_digits fuel n <> [].
Proof. destruct fuel; [lia|]. simpl. intros _ H. by apply app_eq_nil in H as [_ ?]. Qed.

(** A mark is read back: the hexadecimal text of every 32-bit mark is read
    as that mark. *)
Theorem mark_read_back f : 0 <= f < 2 ^ 32 -> FwMark_Unmarshal (FwMark_Marshal f) = inl f.
Proof.
  intros Hf. unfold FwMark_Marshal, FwMark_Unmarshal. cbn [json_string]. unfold ParseUint0. rewrite chars_app.
  unfold FormatUint16. rewrite String.list_ascii_of_string_of_list_ascii.
  destruct (hex_digits 16 f) as [|d l] eqn:Hd; [by destruct (hex_digits_nonempty 16 f ltac:(lia))|].
  change (chars "0x" ++ d :: l) with ("0"%char :: "x"%char :: d :: l).
  change (base_prefix ("0"%char :: "x"%char :: d :: l)) with (Some (16, d :: l)). cbv iota beta.
  rewrite <- Hd, <- (app_nil_r (hex_digits 16 f)), parse_hex_digits by (simpl; lia). done.
Qed.

(** *** A value or an object *)

(** Decides the equations between closed terms of the goal. *)
Ltac decide_closed :=
  repeat match goal with
         | |- context [bool_decide (?a = ?b)] =>
             let v := eval vm_compute in (bool_decide (a = b)) in
             match v with true => idtac | false => idtac end; change (bool_decide (a = b)) with v
         end.

Section compact_laws.
Context (Prefix_Marshal : Prefix -> json) (Prefix_Unmarshal : json -> Prefix + error)
  (Prefix_read_back : forall p, Prefix_Unmarshal (Prefix_Marshal p) = inl p) (Prefix_some : forall p, Prefix_Marshal p <> JNull).

Abbreviation marshal := (DomainResolveOptions_Marshal Prefix_Marshal).
Abbreviation unmarshal := (DomainResolveOptions_Unmarshal Prefix_Unmarshal).

Lemma field_cons name s j fields : field name ((s, j) :: fields) =
  match field name fields with Some x => Some x | None => if bool_decide (s = name) then Some j else None end.
Proof.
  unfold field. rewrite reverse_cons. generalize (reverse fields) as l. induction l as [|[s' j'] l IH]; simpl.
  - by destruct (bool_decide _).
  - destruct (bool_decide (s' = name)); [done|]. exact IH.
Qed.

Lemma field_app name l l' : field name (l ++ l') = match field name l' with Some x => Some x | None => field name l end.
Proof.
  induction l as [|[s j] l IH]; simpl; [by destruct (field name l')|]. rewrite !field_cons, IH. by destruct (field name l').
Qed.

Lemma json_pointer_read {A} (decode : json -> A + error) j a : j <> JNull -> decode j = inl a -> json_pointer decode j = inl (Some a).
Proof. unfold json_pointer. intros Hj Ha. by destruct j; rewrite ?Ha. Qed.

Lemma resolver_fields_decoded o :
  (forall ttl, drs_RewriteTTL o = Some ttl -> 0 <= ttl < 2 ^ 32) ->
  DomainResolveOptions_decode Prefix_Unmarshal (DomainResolveOptions_fields Prefix_Marshal o) = inl o.
Proof.
  intros Httl. destruct o as [server strategy disableCache ttl subnet]. cbn [drs_RewriteTTL] in Httl.
  unfold DomainResolveOptions_decode, DomainResolveOptions_fields, field_or, omit_empty.
  cbn [drs_Server drs_Strategy drs_DisableCache drs_RewriteTTL drs_ClientSubnet].
  assert (json_pointer json_uint32 match ttl with Some t => JNumber t | None => JNull end = inl ttl) as Ht.
  { destruct ttl as [n|]; [|done]. specialize (Httl n eq_refl). simpl. unfold json_uint32, json_range.
    by rewrite (proj2 (Z.leb_le 0 n)), (proj2 (Z.leb_le n (2 ^ 32 - 1))) by lia. }
  pose proof (json_pointer_read Prefix_Unmarshal (Prefix_Marshal subnet) subnet (Prefix_some subnet) (Prefix_read_back subnet)) as Hp.
  destruct (bool_decide_reflect (subnet = PrefixInvalid)) as [->|Hsub]; destruct strategy, disableCache, ttl as [n|];
    decide_closed; cbn -[json_uint32 json_pointer]; decide_closed; cbn -[json_uint32 json_pointer]; decide_closed;
    rewrite ?Hp; first [done|by rewrite Ht].
Qed.

(** A resolver is read back: options that name a server are read from what
    they are written as, the name alone or an object. *)
Theorem resolver_read_back o : drs_Server o <> "" -> (forall ttl, drs_RewriteTTL o = Some ttl -> 0 <= ttl < 2 ^ 32) ->
  unmarshal (marshal o) = inl o.
Proof.
  intros Hs Httl. unfold DomainResolveOptions_Marshal. rewrite bool_decide_false by done.
  destruct (bool_decide (drs_Strategy o = _) && _ && _ && _) eqn:Hall.
  - rewrite !andb_true_iff, !bool_decide_eq_true, negb_true_iff in Hall. destruct Hall as [[[H1 H2] H3] H4].
    destruct o; simpl in *; subst. done.
  - unfold DomainResolveOptions_Unmarshal. cbn [json_string json_fields].
    rewrite resolver_fields_decoded by done. by rewrite bool_decide_false.
Qed.

(** Without a server an object is written that cannot be read; an empty name can. *)
Lemma no_server_unreadable o : drs_Server o = "" ->
  unmarshal (marshal o) = inr (ErrNew "empty domain_resolver.server") /\ unmarshal (JString "") = inl (only_server "").
Proof. intros Hs. unfold DomainResolveOptions_Marshal. by rewrite bool_decide_true. Qed.
End compact_laws.

(** UDP over TCP: the version that is current is written as none. *)
Lemma uot_read_back o : 0 <= uot_Version o < 2 ^ 8 ->
  UDPOverTCPOptions_Unmarshal (UDPOverTCPOptions_Marshal o) =
    inl {| uot_Enabled := uot_Enabled o; uot_Version := if uot_Version o =? uot_current then 0 else uot_Version o |}.
Proof.
  destruct o as [enabled version]. cbn [uot_Enabled uot_Version]. intros Hv. unfold UDPOverTCPOptions_Marshal.
  cbn [uot_Enabled uot_Version]. destruct (Z.eqb_spec version 0) as [->|H0]; [done|].
  destruct (Z.eqb_spec version uot_current) as [->|H2]; [done|]. cbn [orb]. unfold UDPOverTCPOptions_Unmarshal, omit_empty.
  cbn [json_bool json_fields]. rewrite (bool_decide_false (version = 0)) by done.
  assert (json_uint8 (JNumber version) = inl version) as Hr.
  { unfold json_uint8, json_range. by rewrite (proj2 (Z.leb_le 0 version)), (proj2 (Z.leb_le version (2 ^ 8 - 1))) by lia. }
  unfold field_or. destruct enabled; decide_closed; cbn -[json_uint8]; decide_closed; cbn -[json_uint8]; by rewrite Hr.
Qed.

Section listen_laws.
Context {L : Type} `{EqDecision L} (Listen : L -> option Addr) (ListenPort : L -> Z) (set_Listen : option Addr -> L -> L)
  (set_ListenPort : Z -> L -> L) (no_listen : L) (listen_fields : L -> list (string * json))
  (listen_decode : list (string * json) -> L + error).

Class ListenLaws : Prop := {
  listen_read_back : forall l, listen_decode (listen_fields l) = inl l;
  Listen_set_Listen : forall a l, Listen (set_Listen a l) = a;
  Listen_set_ListenPort : forall p l, Listen (set_ListenPort p l) = Listen l;
  ListenPort_set_Listen : forall a l, ListenPort (set_Listen a l) = ListenPort l;
  ListenPort_set_ListenPort : forall p l, ListenPort (set_ListenPort p l) = p;
  set_Listen_twice : forall a b l, set_Listen a (set_Listen b l) = set_Listen a l;
  set_ListenPort_twice : forall p q l, set_ListenPort p (set_ListenPort q l) = set_ListenPort p l;
  set_comm : forall a p l, set_Listen a (set_ListenPort p l) = set_ListenPort p (set_Listen a l);
  set_Listen_own : forall l, set_Listen (Listen l) l = l;
  set_ListenPort_own : forall l, set_ListenPort (ListenPort l) l = l
}.
Context `{ListenLaws}.

(** The resolver service is read back: its options are read from what they
    are written as, with the address and the port every one has. *)
Theorem resolved_options_read_back r : is_Some (Listen r) -> ListenPort r <> 0 ->
  ResolvedServiceOptions_Unmarshal Listen ListenPort set_Listen set_ListenPort listen_decode
    (ResolvedServiceOptions_Marshal Listen ListenPort set_Listen set_ListenPort listen_fields r) = inl r.
Proof.
  intros [a Ha] Hp. unfold ResolvedServiceOptions_Marshal, ResolvedServiceOptions_Unmarshal. cbn [json_fields].
  rewrite listen_read_back.
  destruct (bool_decide_reflect (Listen r = Some resolved_address)) as [Hr|Hr]; rewrite ?ListenPort_set_Listen.
  - destruct (Z.eqb_spec (ListenPort r) 53) as [H53|H53].
    + rewrite Listen_set_ListenPort, Listen_set_Listen, bool_decide_true by done.
      rewrite ListenPort_set_Listen, ListenPort_set_ListenPort. cbn [Z.eqb].
      rewrite set_comm, set_ListenPort_twice, set_Listen_twice, <- Hr, set_Listen_own, <- H53, set_ListenPort_own. done.
    + rewrite Listen_set_Listen, bool_decide_true by done. rewrite !ListenPort_set_Listen, set_Listen_twice, <- Hr, set_Listen_own.
      by rewrite (proj2 (Z.eqb_neq _ _)).
  - destruct (Z.eqb_spec (ListenPort r) 53) as [H53|H53].
    + rewrite Listen_set_ListenPort, Ha, bool_decide_false by done. rewrite ListenPort_set_ListenPort. cbn [Z.eqb].
      by rewrite set_ListenPort_twice, <- H53, set_ListenPort_own.
    + rewrite Ha, bool_decide_false by done. by rewrite (proj2 (Z.eqb_neq _ _)).
Qed.

(** A STUN listener with a port and nothing else is written as a truth value,
    which cannot be read. *)
Lemma stun_port_unreadable enabled port :
  DERPSTUNListenOptions_Unmarshal set_ListenPort no_listen listen_decode
    (DERPSTUNListenOptions_Marshal ListenPort set_ListenPort no_listen listen_fields
       {| stun_Enabled := enabled; stun_Listen := set_ListenPort port no_listen |}) = inr ErrJson.
Proof.
  unfold DERPSTUNListenOptions_Marshal. cbn [stun_Listen stun_Enabled]. by rewrite ListenPort_set_ListenPort, bool_decide_true.
Qed.
End listen_laws.

(** *** Tags *)

Lemma check_tags_spec what i tags seen :
  match check_tags what i tags seen with
  | inl seen' => NoDup (imap (fun k => tag_or_index (i + k)) tags) /\
                 (forall t, t ∈ imap (fun k => tag_or_index (i + k)) tags -> t ∉ seen) /\
                 (forall t, t ∈ seen' <-> t ∈ seen \/ t ∈ imap (fun k => tag_or_index (i + k)) tags)
  | inr _ => ~ (NoDup (imap (fun k => tag_or_index (i + k)) tags) /\
                (forall t, t ∈ imap (fun k => tag_or_index (i + k)) tags -> t ∉ seen))
  end.
Proof.
  revert i seen. induction tags as [|tag tags IH]; intros i seen; simpl.
  { split_and!; [constructor|set_solver|set_solver]. }
  replace (i + 0)%nat with i by lia.
  assert (imap ((fun k => tag_or_index (i + k)) ∘ S) tags = imap (fun k => tag_or_index (S i + k)) tags) as ->.
  { apply imap_ext. intros k x _. simpl. by replace (i + S k)%nat with (S (i + k)) by lia. }
  set (t := tag_or_index i tag) in *. specialize (IH (S i) ({[t]} ∪ seen)).
  destruct (bool_decide_reflect (t ∈ seen)) as [Hin|Hin].
  { intros [_ Hn]. apply (Hn t); [left|done]. }
  destruct (check_tags what (S i) tags ({[t]} ∪ seen)) as [seen'|e].
  - destruct IH as (Hnd & Hns & Hs). split_and!.
    + constructor; [|done]. intros Ht. apply Hns in Ht. set_solver.
    + set_solver.
    + intros x. rewrite Hs. set_solver.
  - intros [Hnd Hns]. apply IH. apply NoDup_cons in Hnd as [Ht Hnd]. split; [done|]. set_solver.
Qed.

Definition own_tags (tags : list string) : list string := imap tag_or_index tags.

(** Tags are distinct: options pass the check exactly when no two inbounds,
    and no two outbounds or endpoints, go by one tag, an index without one. *)
Theorem tags_distinct inbounds outbounds endpoints :
  checkOptions inbounds outbounds endpoints = None <->
  NoDup (own_tags inbounds) /\ NoDup (own_tags outbounds ++ own_tags endpoints).
Proof.
  unfold checkOptions, checkInbounds, checkOutbounds, own_tags. rewrite NoDup_app.
  pose proof (check_tags_spec "inbound" 0 inbounds ∅) as Hi. pose proof (check_tags_spec "outbound/endpoint" 0 outbounds ∅) as Ho.
  simpl in Hi, Ho. change (fun k => tag_or_index k) with tag_or_index in *.
  destruct (check_tags "inbound" 0 inbounds ∅) as [s|e].
  2: { split; [done|]. intros [? _]. exfalso. apply Hi. split; [done|set_solver]. }
  destruct Hi as (Hni & _ & _).
  destruct (check_tags "outbound/endpoint" 0 outbounds ∅) as [seen|e].
  2: { split; [done|]. intros (_ & ? & _). exfalso. apply Ho. split; [done|set_solver]. }
  destruct Ho as (Hno & _ & Hseen). pose proof (check_tags_spec "outbound/endpoint" 0 endpoints seen) as He.
  simpl in He. change (fun k => tag_or_index k) with tag_or_index in *.
  destruct (check_tags "outbound/endpoint" 0 endpoints seen) as [s'|e].
  - destruct He as (Hne & Hns & _). split; [|done]. intros _. split_and!; try done. intros x Hx Hx'. apply (Hns x Hx'), Hseen. by right.
  - split; [done|]. intros (_ & _ & Hd & Hne). exfalso. apply He. split; [done|]. intros t Ht Hs. apply Hseen in Hs as [?|Hs]; [set_solver|].
    by apply (Hd t).
Qed.

(** An outbound and an endpoint without tags are both the tag 0. *)
Example untagged_collide : checkOptions [] [""] [""] = Some (ErrNew "duplicate outbound/endpoint tag: 0").
Proof. done. Qed.

(** ** Runs *)

Lemma network_list_built_witness :
  NetworkList_Unmarshal (JArray [JString "udp"]) = inl "udp" /\ forallb known_network (NetworkList_Build "udp") = true.
Proof. split; [done|]. apply (network_list_built (JArray [JString "udp"]) "udp"). done. Defined.

Lemma dns_names_read_back_witness :
  let names t := if t =? 1 then Some "A" else None in
  let types s := if bool_decide (s = "A") then Some 1 else None in
  DNSQueryType_Unmarshal types (fun _ => "") (DNSQueryType_Marshal names 1) = inl 1 /\
  DNSRCode_Unmarshal types (DNSRCode_Marshal names 5) = inl 5.
Proof.
  apply (dns_names_read_back (fun t => if t =? 1 then Some "A" else None) (fun s => if bool_decide (s = "A") then Some 1 else None)
    (fun t => if t =? 1 then Some "A" else None) (fun s => if bool_decide (s = "A") then Some 1 else None) (fun _ => "")); try lia.
  all: intros t s; destruct (Z.eqb_spec t 1) as [->|]; [by intros [= <-]|done].
Defined.

Lemma mark_read_back_witness : FwMark_Unmarshal (FwMark_Marshal 4660) = inl 4660 /\ FwMark_Marshal 4660 = JString "0x1234".
Proof. split; [apply mark_read_back; lia|reflexivity]. Defined.

(** A prefix is written as its parts. *)
Definition prefix_json (p : Prefix) : json :=
  JArray [match prefix_ip p with AddrInvalid => JNull | Addr4 n => JNumber n | Addr6 n z => JArray [JNumber n; JString z] end;
          JNumber (prefix_bits p)].
Definition json_prefix (j : json) : Prefix + error :=
  match j with
  | JArray [JNull; JNumber b] => inl {| prefix_ip := AddrInvalid; prefix_bits := b |}
  | JArray [JNumber n; JNumber b] => inl {| prefix_ip := Addr4 n; prefix_bits := b |}
  | JArray [JArray [JNumber n; JString z]; JNumber b] => inl {| prefix_ip := Addr6 n z; prefix_bits := b |}
  | _ => inr ErrJson
  end.

Lemma resolver_read_back_witness :
  let o := {| drs_Server := "local"; drs_Strategy := DomainStrategyIPv4Only; drs_DisableCache := true; drs_RewriteTTL := Some 60;
              drs_ClientSubnet := {| prefix_ip := Addr4 0; prefix_bits := 24 |} |} in
  DomainResolveOptions_Unmarshal json_prefix (DomainResolveOptions_Marshal prefix_json o) = inl o /\
  DomainResolveOptions_Marshal prefix_json (only_server "local") = JString "local".
Proof.
  split; [|reflexivity]. apply (resolver_read_back prefix_json json_prefix); [by intros [[]]|by intros [[]]|done|].
  intros ttl [= <-]. lia.
Defined.

(** Listen options of an address and a port. *)
Definition example_decode (fields : list (string * json)) : option Addr * Z + error :=
  match fields with
  | [(_, JNumber a); (_, JNumber p)] => inl (Some (Addr4 a), p)
  | [(_, JArray [JNumber a; JString z]); (_, JNumber p)] => inl (Some (Addr6 a z), p)
  | [(_, JString _); (_, JNumber p)] => inl (Some AddrInvalid, p)
  | [(_, JNull); (_, JNumber p)] => inl (None, p)
  | _ => inr ErrJson
  end.
Definition example_fields (l : option Addr * Z) : list (string * json) :=
  [("listen", match fst l with
              | Some (Addr4 a) => JNumber a | Some (Addr6 a z) => JArray [JNumber a; JString z]
              | Some AddrInvalid => JString "" | None => JNull
              end); ("listen_port", JNumber (snd l))].

Lemma resolved_options_read_back_witness :
  ResolvedServiceOptions_Unmarshal fst snd (fun a l => (a, snd l)) (fun p l => (fst l, p)) example_decode
    (ResolvedServiceOptions_Marshal fst snd (fun a l => (a, snd l)) (fun p l => (fst l, p)) example_fields
       (Some resolved_address, 5353)) = inl (Some resolved_address, 5353).
Proof.
  apply resolved_options_read_back; [|by eexists|done].
  split; try done; [by intros [[[]|] p]|by intros []|by intros []].
Defined.

Lemma tags_distinct_witness :
  checkOptions ["a"; ""; "b"] ["proxy"; ""] ["wg"] = None /\ checkOptions [] ["1"; ""] [] = Some (ErrNew "duplicate outbound/endpoint tag: 1").
Proof. done. Qed.
